(* ===== verification/_CoqProject ===== *)
-Q . S2P
Prelude.v
GoStrings.v
GoText.v
GoPath.v
Decimal.v
Fence.v
Execution.v
Events.v
Append.v
IdleCompaction.v
MemStore.v
StoreFacts.v
TextCodec.v
StoreProps.v
IdleProps.v
StoreLists.v
RingBuffer.v
Utf8Stream.v
Runes.v
ShellParse.v
ShellFacts.v
ShellScript.v
GitPolicy.v
RemoteScript.v
SpoolFormat.v
SpoolStore.v
SpoolFacts.v
SpoolChain.v
SpoolLocal.v
SpoolAppend.v
SpoolInv.v
SpoolSpec.v
SpoolSim.v
SpoolProps.v
Approval.v
ApprovalSubject.v
GoValues.v
GoJson.v
GoJsonFacts.v
SandboxPolicy.v
PathPolicy.v
PathProps.v
CommandPolicy.v
PolicyProps.v
Checkpoint.v
Payload.v
TruncateText.v
TruncateTextFacts.v
Truncate.v
TruncateFacts.v
TruncateFuel.v
TruncateParts.v
TruncateLoop.v
TruncateKeep.v
SessionCodec.v
CodecProps.v
Canonical.v
SessionPlatform.v
SessionIdle.v
ToolResult.v
McpCall.v
ToolResultFacts.v
ToolProps.v
ApprovalQueue.v
QueueProps.v
QueueReach.v
Operations.v
Commands.v
HistoryIndex.v
FeedTypes.v
FeedDelivery.v
FeedDeliveryProps.v
FeedCursor.v
FeedCursorProps.v
FeedProjection.v
FeedBroker.v
FeedTrace.v
FeedCatchup.v
FeedRun.v
SpoolFeed.v
