(* ===== verification/Prelude.v ===== *)
(** * Caelis: the guarded core of an agent host, verified

    ** The program

    Caelis runs coding agents.  Surfaces (terminal, editor, headless) talk to
    Control, which owns commands, approvals and live output; Control drives the
    Agent SDK, which runs Turns of a model, decides what tools may do, and
    records everything in Sessions; a Host composes the three.  The durable
    truth of a Session is its log of [session.Event]s together with its row and
    state.  A Turn holds the execution fence of its Session while it runs, and
    every mutation carries a guard that is checked against that fence.  What a
    client sees beyond the log, such as live streams and their spool, is a cache.

    Seven mechanisms carry correctness, and the development models them:
    - the Session: fence and guards, append transactions, the store, the
      execution journal, idle compaction;
    - the payload of events: copying, canonical form, schema migration;
    - approvals: who may decide what, and the queue that delivers one decision;
    - the tool policy: what a tool call may do without asking;
    - tool results: what a tool answers is bounded and becomes an event;
    - Control's operation ledger: a retried command takes effect once;
    - the Session feed: what clients are shown is in order, whole and resumable.
    Around them are the cache of live streams, the spool, and the byte-level
    parts: command output and UTF-8.

    ** The files

    Foundations.  [Prelude]: results, machine integers, list lemmas.
    [GoStrings], [GoText], [GoPath], [Decimal], [Runes], [GoValues]: what the code
    uses of Go's [strings], [path/filepath], [strconv], runes, and dynamic values
    of type [any].  [GoJson] is the part of [encoding/json] that the code relies
    on, a parser and a printer of such values, and [GoJsonFacts] shows that they
    are inverse to each other.

    The Session (src/agent-sdk/session, session/memory).
    - [Fence]: [fence_claim.go], [mutation_guard.go]; [Execution]: [execution.go];
    - [Events]: the event envelope and its pages, over an abstract payload (the
      class [EventCodec] and its laws); [Append]: [append_prepare.go],
      [participant_bindings.go];
    - [IdleCompaction]: [idle_compaction.go], [compaction_receipt.go];
      [Checkpoint]: [checkpoint_contract.go];
    - [MemStore]: every operation of [memory/store.go], [memory/fence.go] and
      [memory/idle_compaction.go] as a function on the store; [StoreFacts] shows
      each to be a [store_step], [StoreProps], [IdleProps] and [StoreLists] draw
      the consequences.  [TextCodec] is a small payload that makes the store run.

    The payload (src/agent-sdk/session, src/agent-sdk/model).  [Payload] has the
    structs and their copies, [SessionCodec] the instance of [EventCodec] for
    them, [CodecProps] and [Canonical] their properties, [SessionPlatform] a
    concrete platform, [SessionIdle] the instance of the idle interface.  So the
    theorems on the store hold for the events that the program stores.

    Approvals (src/agent-sdk/approval, src/internal/kernel).  [Approval] resolves
    answers, [ApprovalSubject] copies the displayed evidence, [ApprovalQueue] is
    the coordinator with its heap of requests, [QueueProps] its invariant and
    [QueueReach] the transition system of coordinator, watchers and callbacks.

    The tool policy (src/agent-sdk/policy, parts of src/agent-sdk/sandbox).
    [ShellParse] cuts shell text, [ShellFacts] shows that cutting is stable and
    shrinks; [ShellScript] is a grammar of scripts with a printer, the specification of
    the classifiers [GitPolicy] and [RemoteScript]; [SandboxPolicy] has
    constraints, decisions and modes, [PathPolicy] the location and containment of
    paths, [CommandPolicy] the decisions of the presets; [PathProps] and
    [PolicyProps] what they guarantee.

    Tool results (src/agent-sdk/tool/truncate.go, src/agent-sdk/runtime/chat).
    [TruncateText] cuts text, [Truncate] values and lists of parts;
    [TruncateTextFacts], [TruncateFacts], [TruncateFuel], [TruncateParts],
    [TruncateLoop] and [TruncateKeep] show what is left of them.  [ToolResult] is
    the canonical result of a call, its message and its event, with
    [ToolResultFacts] about them; [McpCall] binds the calls of a response to MCP
    tools and presents their events under the names of these tools; [ToolProps]
    has the claims.
    They meet the payload: the event of a call is checked by the validation of
    [SessionCodec], whose open operations are here the functions themselves.

    The stream spool (src/control/streamspool).  [SpoolFormat] is the format on
    disk, [SpoolStore] the file store with its writers, readers, quota and
    collection under I/O faults; [SpoolFacts], [SpoolChain], [SpoolLocal],
    [SpoolAppend] and [SpoolInv] build its invariant, [SpoolSpec] is the
    specification, append-only logs with a rising low mark, [SpoolSim] the
    simulation, [SpoolProps] the claims.

    The Session feed (src/control/appserver, src/control/history).  [FeedTypes] has
    envelopes and positions ([eventstream], [envelope_delivery.go]), [FeedCursor]
    the resume cursors ([cursor.go]), [FeedDelivery] what a consumer
    accepts and how a replay is cut into pages ([feed_delivery.go],
    [feed_replacement_page.go]), [FeedProjection] how a stored event becomes
    positioned envelopes and what a live narrative already delivered.
    [FeedBroker] is the producer of one Session ([feed_broker.go],
    [feed_content.go]): it publishes into a spool partition, catches up with the
    store, seals.  It uses the spool through the class [SpoolWriter], with laws
    [SpoolWriterLaws], which [SpoolFeed] proves of [SpoolStore]; the paged reader of
    the store is [PageEvents] of [Events].  [FeedTrace] is the broker's invariant,
    [FeedCatchup] accounts for every event caught up with, [FeedRun] has scans,
    runs and claims; [FeedDeliveryProps] and [FeedCursorProps] are the
    claims about consumers and cursors.  [HistoryIndex]: the
    windows of complete Turns that bound a first replay.

    Bytes.  [RingBuffer] and [Utf8Stream]: command output.

    Control (src/control/appserver).  [Operations] is the ledger and its sweep,
    [Commands] any number of calls against it, with their gates and the backend.

    ** Correspondence

    A method is a function from its receiver, its arguments and the values it
    draws (clock, random tokens, callbacks' answers) to its result and the new
    state, so the effects of a call that fails half way are visible.  Errors are
    the constructor [Fail] of [result].  Structs are records with the same fields,
    prefixed where two structs share a name; a Go map is a [gmap], or a list of
    pairs where its order of iteration shows; [uint64] and [int64] are integers
    with their wrap-around written out.  A mutex held for a whole call makes the
    call one step, and so does the catching up of the feed ([primeCanonicalLocked]),
    although the broker lets transient publications in between the envelopes of
    it; where a component runs several calls at once ([QueueReach],
    [Commands]) the steps interleave in any order.

    ** The theorems

    - The log.  In every reachable store logs are well-formed and grow only at
      the end, revisions count changes, retries are recognised, an expected
      revision is compared and swapped, pages and listings are complete.
    - Exclusion.  A held fence excludes every producer but its holder and the
      Control purposes that may overlap; an earlier token is refused for ever; a
      compaction window excludes a held fence and is used once.
    - Execution.  An accepted journal starts a tool at most once, and recovery
      leaves no execution open.
    - Approvals.  Every request ends exactly once, the decision delivered is the
      validated one, nothing strands in the queue, and where options are offered only
      one of an allow kind approves.
    - Policy.  What is allowed without asking is characterised exactly for
      commands and bounded for writes; hard denies are final; the host is reached
      only by an approval; errors fail closed.  The classifiers end on every text; on
      printed scripts of the grammar of [ShellScript], in which POSIX shells nest to
      any depth, the Git classifier is exact, and a pipeline from a downloader to an
      interpreter is reported.  Groups, keywords, quotes inside words and shell
      options with the letter c are outside that grammar, and there both can
      be evaded ([git_hidden], [remote_hidden]); a recursive delete in a shell payload
      is not read ([wrapped_delete_unasked]).
    - Tool results.  Whatever a tool answers, the result fits the budget, its
      media is untouched, the reference to the artifact survives, and the event
      passes the validation of the Session, for a call that is routed to an MCP tool
      too if its arguments have numbers that are float64; failures of media alone do
      not.  Something is left of a text only if the notice of an omission fits.
    - The feed.  The trace of a Session stays in order over every run of its
      broker: positions never go back, no durable envelope is there twice, every
      cursor resolves to the record after its own.  Catching up ends, also
      when the spool fails, and with a healthy spool leaves nothing behind; a durable envelope waits for its
      predecessors.  A replacement reaches the view whole or not at all, accepted
      deliveries are transactions, cursors are read back in their own Session only,
      and a bounded history holds complete Turns.
    - Live streams.  With any I/O faults the spool refines append-only logs, a
      reader gets the records of its stream consecutively, and the quota holds.
    - Representation.  Stored forms are stable, migrations reach the current
      schema, checkpoints, spool records and cursors are read back, decoded output
      is valid and independent of its chunks, the ring buffer is a queue.
    - Control.  A command is dispatched at most once while its record lives, and
      the sweep forgets only what is proven terminal and expired.

    ** Fuel and bounds

    Recursion that is not structural takes fuel, and a theorem shows that the
    fuel given is enough: nested shells and scripts, one unit per solid byte of
    the text and one more ([git_reason_total], [remote_scan_total]); the script
    tokenizer, one per byte; a list of commands, one per token and one more; the
    climb to an existing parent, one per name of the path and two more
    ([resolve_climb]); runes and UTF-8 decoding, the length of the input; readers
    of pages and listings, the number of rows and one more; the ledger sweep, the
    length of its list and one more; binary searches, the length of the interval;
    activation in the approval queue, a measure of its waiting requests; the JSON
    parser, twice the length of the text and two more ([parse_fuel]); JSON inside
    texts, one unit per ASCII byte of the longest text ([truncate_value_enough]);
    the cut of a string, the bytes kept ([keep_loop_spec]); a batch of appends and
    the search of a reader, the number of records; a scan of the feed over the
    store, the sequences not scanned yet and one more ([scan_complete]).

    ** Parameters

    Code outside the repository is a parameter with named laws: SHA-256,
    [encoding/json] of struct types and [reflect] ([Platform], [IdlePlatform],
    [CheckpointCodec], [CursorPlatform] with HMAC, the encoding of an envelope,
    [json_marshals]), the text of a float64
    ([Json], [JsonLaws]), Unicode case mapping ([Lower], [Fold]),
    the file system and process environment ([Host], [HostLaws]), the outcome of
    each I/O call of the spool, the clock, random tokens, and the callbacks of other
    components.  What an event projects to before it is positioned is the interface
    [Projector], with [ProjectorLaws].  The spool relies on incarnations that do not repeat, offsets below
    [2^64], and reads of an open file that do not fail.  Every law is met by an instance
    of the development, on which witnesses and examples run.

    ** Not modelled

    Other implementations of the Session store (the file backend), the Turn loop
    and the projection of its stream, model providers, the tools themselves,
    sandbox processes, clients and surfaces: effects, third-party protocols, or
    presentation.  Of the feed, the content of projections, the goroutines of
    subscriptions, the scans that build a history window, retention and the
    registry are left out.  Of the policy, the text that an approval displays, the approval
    request of an MCP tool and Windows paths are left out; of the spool, the lock of its owner, the
    checks of roots and links, the reclaim of earlier epochs and the timer; of tool
    results, the files of artifacts and the check of MCP arguments against a JSON
    schema. *)

From Stdlib Require Import ZArith Lia Ascii String.
From stdpp Require Import base list gmap strings option.

Open Scope Z_scope.

(** ** Results of fallible Go functions *)

(** A Go function returning [(T, error)] is a [result E T]. *)
Inductive result (E A : Type) : Type :=
| Ok (a : A)
| Fail (e : E).
Arguments Ok {E A} a.
Arguments Fail {E A} e.

Definition result_bind {E A B : Type} (m : result E A) (k : A -> result E B) : result E B :=
  match m with
  | Ok a => k a
  | Fail e => Fail e
  end.

Definition is_ok {E A : Type} (m : result E A) : bool :=
  match m with Ok _ => true | Fail _ => false end.

Declare Scope caelis_scope.
Delimit Scope caelis_scope with caelis.
Notation "'let!' x ':=' m 'in' k" := (result_bind m (fun x => k))
  (at level 10, x pattern, m at level 100, k at level 200) : caelis_scope.
Open Scope caelis_scope.

Global Instance result_eq_dec {E A : Type} `{EqDecision E, EqDecision A} : EqDecision (result E A).
Proof. solve_decision. Defined.

Lemma result_bind_ok {E A B : Type} (m : result E A) (k : A -> result E B) b :
  result_bind m k = Ok b <-> exists a, m = Ok a /\ k a = Ok b.
Proof. destruct m; simpl; naive_solver. Qed.

Lemma result_bind_fail {E A B : Type} (m : result E A) (k : A -> result E B) e :
  result_bind m k = Fail e <-> m = Fail e \/ exists a, m = Ok a /\ k a = Fail e.
Proof. destruct m; simpl; naive_solver. Qed.

Lemma Ok_inj {E A : Type} (a b : A) : @Ok E A a = Ok b -> a = b.
Proof. congruence. Qed.

(** ** Machine integers *)

(** Go's [uint64]: a value of [Z] in [0, 2^64), addition wraps. *)
Definition u64_modulus : Z := 18446744073709551616.
Definition u64 (x : Z) : Z := x mod u64_modulus.
Definition u64_succ (x : Z) : Z := u64 (x + 1).
Definition is_u64 (x : Z) : Prop := 0 <= x < u64_modulus.

Lemma u64_range x : is_u64 (u64 x).
Proof. unfold is_u64, u64. apply Z.mod_pos_bound. reflexivity. Qed.

Lemma u64_small x : is_u64 x -> u64 x = x.
Proof. intros H. unfold u64. apply Z.mod_small. exact H. Qed.

Lemma u64_succ_small x : 0 <= x < u64_modulus - 1 -> u64_succ x = x + 1.
Proof. intros H. apply u64_small. unfold is_u64. lia. Qed.

Lemma u64_succ_ne x : is_u64 x -> u64_succ x <> x.
Proof.
  intros H. unfold u64_succ, u64.
  destruct (Z.eq_dec x (u64_modulus - 1)) as [->|Hne].
  - vm_compute. discriminate.
  - rewrite Z.mod_small; unfold is_u64 in *; lia.
Qed.

(** Go's [int64], and [int] on 64-bit platforms: two's complement wrap-around. *)
Definition i64 (x : Z) : Z := (x + 9223372036854775808) mod 18446744073709551616 - 9223372036854775808.

(** ** Lists *)

Lemma filter_split {A} (f : A -> bool) n l :
  Forall (fun x => f x = false) (take n l) -> Forall (fun x => f x = true) (drop n l) ->
  List.filter f l = drop n l.
Proof.
  revert l. induction n as [|n IH]; intros l; simpl.
  - rewrite !drop_0. intros _ Hl. induction Hl as [|x l Hx Hl IHl]; [done|]. simpl. by rewrite Hx, IHl.
  - destruct l as [|x l]; [done|]. simpl. intros [Hx Hl]%Forall_cons_1 Hd. rewrite Hx. auto.
Qed.

Lemma filter_filter {A} (f g : A -> bool) l :
  List.filter f (List.filter g l) = List.filter (fun x => f x && g x) l.
Proof.
  induction l as [|x l IH]; [done|]. simpl.
  destruct (g x); simpl; [|by rewrite andb_false_r]. rewrite andb_true_r. by rewrite IH.
Qed.
