(* ===== verification/GoStrings.v ===== *)
(** * Go strings: the part of the [strings] package the sources rely on.

    A Go string is its bytes ([String.string]).  [trim_space] is
    [strings.TrimSpace] on UTF-8 bytes. *)

From Stdlib Require Import ZArith Lia Ascii String FunInd.
From stdpp Require Import base list strings.
From S2P Require Import Prelude.

(** ** Strings: Go's [strings.TrimSpace] on UTF-8 bytes *)

(** The encodings of the code points of [unicode.IsSpace], by length. *)
Definition ws1 (a : ascii) : bool :=
  match N_of_ascii a with
  | 9 | 10 | 11 | 12 | 13 | 32 => true
  | _ => false
  end%N.

Definition ws2 (a b : ascii) : bool :=
  match N_of_ascii a, N_of_ascii b with
  | 194, 133 | 194, 160 => true
  | _, _ => false
  end%N.

Definition ws3 (a b c : ascii) : bool :=
  match N_of_ascii a, N_of_ascii b, N_of_ascii c with
  | 225, 154, 128 => true
  | 226, 128, n => ((128 <=? n) && (n <=? 138)) || (n =? 168) || (n =? 169) || (n =? 175)
  | 226, 129, 159 => true
  | 227, 128, 128 => true
  | _, _, _ => false
  end%N.

(** Drops leading white-space runes. *)
Fixpoint trim_left_bytes (s : list ascii) : list ascii :=
  match s with
  | [] => []
  | a :: r =>
    if ws1 a then trim_left_bytes r else
    match r with
    | [] => s
    | b :: r2 =>
      if ws2 a b then trim_left_bytes r2 else
      match r2 with
      | [] => s
      | c :: r3 => if ws3 a b c then trim_left_bytes r3 else s
      end
    end
  end.

(** The same on the reversed string, so on trailing runes. *)
Fixpoint trim_rev_bytes (s : list ascii) : list ascii :=
  match s with
  | [] => []
  | c :: r =>
    if ws1 c then trim_rev_bytes r else
    match r with
    | [] => s
    | b :: r2 =>
      if ws2 b c then trim_rev_bytes r2 else
      match r2 with
      | [] => s
      | a :: r3 => if ws3 a b c then trim_rev_bytes r3 else s
      end
    end
  end.

Definition trim_bytes (s : list ascii) : list ascii :=
  rev (trim_rev_bytes (rev (trim_left_bytes s))).

Definition trim_space (s : string) : string :=
  string_of_list_ascii (trim_bytes (list_ascii_of_string s)).

(** ** Lemmas on trimming *)

Functional Scheme trim_left_bytes_ind := Induction for trim_left_bytes Sort Prop.
Functional Scheme trim_rev_bytes_ind := Induction for trim_rev_bytes Sort Prop.

Lemma trim_rev_bytes_suffix s : exists w, s = w ++ trim_rev_bytes s.
Proof.
  functional induction (trim_rev_bytes s); try (exists []; reflexivity).
  - destruct IHl as [w Hw]. exists (c :: w). simpl. congruence.
  - destruct IHl as [w Hw]. exists (c :: b :: w). simpl. congruence.
  - destruct IHl as [w Hw]. exists (c :: b :: a :: w). simpl. congruence.
Qed.

Lemma trim_rev_bytes_idem s : trim_rev_bytes (trim_rev_bytes s) = trim_rev_bytes s.
Proof.
  functional induction (trim_rev_bytes s); try assumption; try reflexivity; simpl;
    repeat match goal with H : _ = false |- _ => rewrite H; clear H end; reflexivity.
Qed.

(** Whether a string starts with a white-space rune. *)
Definition starts_space (s : list ascii) : bool :=
  match s with
  | [] => false
  | [a] => ws1 a
  | [a; b] => ws1 a || ws2 a b
  | a :: b :: c :: _ => ws1 a || ws2 a b || ws3 a b c
  end.

Lemma trim_left_bytes_starts s : starts_space (trim_left_bytes s) = false.
Proof.
  functional induction (trim_left_bytes s); try assumption; try reflexivity; simpl;
    repeat match goal with H : _ = false |- _ => rewrite H; clear H end; reflexivity.
Qed.

Lemma trim_left_bytes_fixed s : starts_space s = false -> trim_left_bytes s = s.
Proof.
  functional induction (trim_left_bytes s); try reflexivity; simpl; repeat case_match;
    rewrite ?orb_false_iff; intuition congruence.
Qed.

Lemma starts_space_prefix p q : starts_space (p ++ q) = false -> starts_space p = false.
Proof.
  destruct p as [|a [|b [|c p]]]; simpl; repeat case_match;
    rewrite ?orb_false_iff; intuition congruence.
Qed.

Lemma trim_bytes_idem s : trim_bytes (trim_bytes s) = trim_bytes s.
Proof.
  unfold trim_bytes.
  set (t := trim_left_bytes s).
  assert (H : trim_left_bytes (rev (trim_rev_bytes (rev t))) = rev (trim_rev_bytes (rev t))).
  { destruct (trim_rev_bytes_suffix (rev t)) as [w Hw].
    apply trim_left_bytes_fixed, (starts_space_prefix _ (rev w)).
    rewrite <- rev_app_distr, <- Hw, rev_involutive. apply trim_left_bytes_starts. }
  rewrite H, rev_involutive, trim_rev_bytes_idem. reflexivity.
Qed.

Lemma trim_space_idem s : trim_space (trim_space s) = trim_space s.
Proof.
  unfold trim_space. rewrite list_ascii_of_string_of_list_ascii.
  by rewrite trim_bytes_idem.
Qed.

(** A NUL byte is part of no white-space rune, so trimming keeps it. *)
Lemma ws_nul a b c :
  (ws1 a = true -> a <> "000"%char) /\ (ws2 a b = true -> a <> "000"%char /\ b <> "000"%char)
  /\ (ws3 a b c = true -> a <> "000"%char /\ b <> "000"%char /\ c <> "000"%char).
Proof.
  unfold ws1, ws2, ws3. split_and!.
  - intros H ->. by vm_compute in H.
  - destruct (N_of_ascii a) eqn:Ea; [done|]. destruct (N_of_ascii b) eqn:Eb; [repeat case_match; done|].
    intros _. split; intros ->; done.
  - destruct (N_of_ascii a) eqn:Ea; [done|]. destruct (N_of_ascii b) eqn:Eb; [repeat case_match; done|].
    destruct (N_of_ascii c) eqn:Ec; [repeat case_match; done|]. intros _. split_and!; intros ->; done.
Qed.

Local Ltac nul_kept :=
  rewrite !elem_of_cons; intros ?;
  match goal with
  | IH : _ -> _ ∈ trim_left_bytes ?l |- _ ∈ trim_left_bytes ?l => apply IH
  | IH : _ -> _ ∈ trim_rev_bytes ?l |- _ ∈ trim_rev_bytes ?l => apply IH
  end;
  match goal with
  | H : ws3 ?a ?b ?c = true |- _ => apply (ws_nul a b c) in H
  | H : ws2 ?a ?b = true |- _ => apply (ws_nul a b a) in H
  | H : ws1 ?a = true |- _ => apply (ws_nul a a a) in H
  end; naive_solver.

Lemma trim_left_nul s : "000"%char ∈ s -> "000"%char ∈ trim_left_bytes s.
Proof. functional induction (trim_left_bytes s); try done; nul_kept. Qed.

Lemma trim_rev_nul s : "000"%char ∈ s -> "000"%char ∈ trim_rev_bytes s.
Proof. functional induction (trim_rev_bytes s); try done; nul_kept. Qed.

Lemma trim_space_nul s t : trim_space (s ++ String "000"%char t)%string <> ""%string.
Proof.
  unfold trim_space, trim_bytes. intros H.
  assert (Hin : "000"%char ∈ list_ascii_of_string (s ++ String "000"%char t)%string).
  { clear H. induction s as [|a s IH]; [by left|]. right. exact IH. }
  apply trim_left_nul in Hin. rewrite list_elem_of_In, in_rev, <- list_elem_of_In in Hin.
  apply trim_rev_nul in Hin. rewrite list_elem_of_In, in_rev, <- list_elem_of_In in Hin.
  destruct (rev _); [by apply elem_of_nil in Hin|discriminate].
Qed.

Lemma trim_space_empty : trim_space "" = ""%string.
Proof. reflexivity. Qed.

Create Rewrite HintDb gostr.
#[export] Hint Rewrite trim_space_idem trim_space_empty : gostr.
