(* ===== verification/GoText.v ===== *)
(** * Go strings: searching, cutting and joining

    The functions of the [strings] package that the policy and approval code
    calls, on the bytes of [String.string], and the lemmas on them: what is cut
    out of a text holds no more than the text ([solid]). *)

From Stdlib Require Import ZArith Lia Ascii String FunInd Wf_nat.
From stdpp Require Import base list strings.
From S2P Require Import Prelude GoStrings.

Open Scope string_scope.

#[global] Abbreviation bytes := list_ascii_of_string.
#[global] Abbreviation text := string_of_list_ascii.

(** A Go [switch] over string constants: membership in the listed cases. *)
Definition one_of (cases : list string) (s : string) : bool := bool_decide (s ∈ cases).

Lemma one_of_spec cases s : one_of cases s = true <-> s ∈ cases.
Proof. unfold one_of. apply bool_decide_eq_true. Qed.

(** ** Searching *)

Definition HasPrefix (s p : string) : bool := String.prefix p s.

(** [strings.Contains]. *)
Fixpoint contains (s sub : string) : bool :=
  String.prefix sub s || match s with EmptyString => false | String _ s => contains s sub end.

(** [strings.Index] of a byte. *)
Fixpoint index_byte (c : ascii) (s : string) : option nat :=
  match s with
  | EmptyString => None
  | String a s => if Ascii.eqb a c then Some O else S <$> index_byte c s
  end.

(** [strings.ContainsAny]. *)
Definition contains_any (cs s : string) : bool := existsb (fun a => existsb (Ascii.eqb a) (bytes cs)) (bytes s).

(** [s[n:]]. *)
Fixpoint drop_str (n : nat) (s : string) : string :=
  match n, s with
  | S n, String _ s => drop_str n s
  | _, _ => s
  end.

Definition HasSuffix (s p : string) : bool :=
  (String.length p <=? String.length s)%nat && (drop_str (String.length s - String.length p) s =? p).

(** ** Cutting *)

Definition TrimPrefix (s p : string) : string := if HasPrefix s p then drop_str (String.length p) s else s.
Definition TrimSuffix (s p : string) : string :=
  if HasSuffix s p then String.substring 0 (String.length s - String.length p) s else s.

Fixpoint drop_while (f : ascii -> bool) (l : list ascii) : list ascii :=
  match l with
  | [] => []
  | a :: r => if f a then drop_while f r else l
  end.

(** [strings.TrimLeft], [TrimRight] and [Trim] with a cutset of ASCII characters. *)
Definition in_set (cs : string) (a : ascii) : bool := existsb (Ascii.eqb a) (bytes cs).
Definition TrimLeft (s cs : string) : string := text (drop_while (in_set cs) (bytes s)).
Definition TrimRight (s cs : string) : string := text (rev (drop_while (in_set cs) (rev (bytes s)))).
Definition Trim (s cs : string) : string := TrimRight (TrimLeft s cs) cs.

(** [strings.ReplaceAll] of one byte by another. *)
Definition replace_byte (c d : ascii) (s : string) : string := text (map (fun a => if Ascii.eqb a c then d else a) (bytes s)).

(** [strings.Split] at a byte. *)
Fixpoint split_byte (c : ascii) (word : list ascii) (l : list ascii) : list string :=
  match l with
  | [] => [text word]
  | a :: r => if Ascii.eqb a c then text word :: split_byte c [] r else split_byte c (word ++ [a]) r
  end.
Definition Split (s : string) (c : ascii) : list string := split_byte c [] (bytes s).

(** [strings.Join] with a separator. *)
Fixpoint Join (l : list string) (sep : string) : string :=
  match l with
  | [] => ""
  | [s] => s
  | s :: r => s ++ sep ++ Join r sep
  end.

(** [strings.Fields]: the words between runs of white-space runes. *)
Definition flush (word : list ascii) : list string := match word with [] => [] | _ => [text word] end.

Fixpoint fields_loop (word : list ascii) (l : list ascii) : list string :=
  match l with
  | [] => flush word
  | a :: r =>
    if ws1 a then (flush word ++ fields_loop [] r)%list else
    match r with
    | [] => flush (word ++ [a])
    | b :: r2 =>
      if ws2 a b then (flush word ++ fields_loop [] r2)%list else
      match r2 with
      | [] => fields_loop (word ++ [a]) r
      | c :: r3 => if ws3 a b c then (flush word ++ fields_loop [] r3)%list else fields_loop (word ++ [a]) r
      end
    end
  end.
Definition Fields (s : string) : list string := fields_loop [] (bytes s).

Example fields_tokens : Fields "  git	push  origin " = ["git"; "push"; "origin"].
Proof. reflexivity. Qed.
Example split_path : Split "/a//b" "/" = [""; "a"; ""; "b"].
Proof. reflexivity. Qed.

(** ** What a part of a text holds

    [solid s] is the number of bytes of [s] other than the space.  Cutting words
    out of a text and joining them again with spaces never raises it: the
    measure on which the recursive scanners terminate. *)

Definition solid_bytes (l : list ascii) : nat := length (List.filter (fun a => negb (Ascii.eqb a " ")) l).
Definition solid (s : string) : nat := solid_bytes (bytes s).
Definition solids (l : list string) : nat := sum_list (map solid l).

Lemma bytes_app s t : bytes (s ++ t) = (bytes s ++ bytes t)%list.
Proof. induction s as [|a s IH]; [done|]. apply (f_equal (cons a)), IH. Qed.

Lemma text_app l k : text (l ++ k)%list = text l ++ text k.
Proof. induction l as [|a l IH]; [done|]. apply (f_equal (String a)), IH. Qed.

Lemma bytes_text l : bytes (text l) = l.
Proof. apply list_ascii_of_string_of_list_ascii. Qed.

Lemma text_bytes s : text (bytes s) = s.
Proof. apply string_of_list_ascii_of_string. Qed.

Lemma length_bytes s : length (bytes s) = String.length s.
Proof. induction s as [|a s IH]; [done|]. apply (f_equal S), IH. Qed.

Lemma solid_bytes_app l k : solid_bytes (l ++ k) = (solid_bytes l + solid_bytes k)%nat.
Proof. unfold solid_bytes. by rewrite List.filter_app, length_app. Qed.

Lemma solid_bytes_cons a l : solid_bytes (a :: l) = ((if Ascii.eqb a " " then 0 else 1) + solid_bytes l)%nat.
Proof. unfold solid_bytes. simpl. by destruct (Ascii.eqb a " "). Qed.

Lemma solid_bytes_le l : (solid_bytes l <= length l)%nat.
Proof. apply List.filter_length_le. Qed.

Lemma solid_le_length s : (solid s <= String.length s)%nat.
Proof. unfold solid. etrans; [apply solid_bytes_le|]. rewrite length_bytes. lia. Qed.

Lemma solid_app s t : solid (s ++ t) = (solid s + solid t)%nat.
Proof. unfold solid. by rewrite bytes_app, solid_bytes_app. Qed.

Lemma solid_text l : solid (text l) = solid_bytes l.
Proof. unfold solid. by rewrite bytes_text. Qed.

Lemma solids_cons s l : solids (s :: l) = (solid s + solids l)%nat.
Proof. done. Qed.

Lemma solids_app l k : solids (l ++ k) = (solids l + solids k)%nat.
Proof. unfold solids. rewrite map_app. induction (map solid l) as [|x m IH]; simpl; lia. Qed.

Lemma solids_drop n l : (solids (drop n l) <= solids l)%nat.
Proof. rewrite <- (take_drop n l) at 2. rewrite solids_app. lia. Qed.

Lemma solids_lookup l i s : l !! i = Some s -> (solid s + solids (drop (S i) l) <= solids l)%nat.
Proof. intros H. rewrite <- (take_drop_middle l i s H) at 2. rewrite solids_app, solids_cons. lia. Qed.

Lemma solid_join l : solid (Join l " ") = solids l.
Proof.
  induction l as [|s [|t l] IH]; [done|by unfold solids; simpl; lia|]. change (Join (s :: t :: l) " ") with (s ++ " " ++ Join (t :: l) " ").
  rewrite !solid_app, IH. done.
Qed.

(** A part of a list of bytes: what is left after cutting at both ends. *)
Definition part (l k : list ascii) : Prop := exists x y, k = (x ++ l ++ y)%list.

Lemma part_refl l : part l l.
Proof. exists [], []. by rewrite app_nil_r. Qed.

Lemma part_trans l k m : part l k -> part k m -> part l m.
Proof. intros (x&y&->) (x'&y'&->). exists (x' ++ x)%list, (y ++ y')%list. by rewrite !app_assoc. Qed.

Lemma part_solid l k : part l k -> (solid_bytes l <= solid_bytes k)%nat.
Proof. intros (x&y&->). rewrite !solid_bytes_app. lia. Qed.

Lemma drop_while_suffix f l : exists x, l = (x ++ drop_while f l)%list.
Proof.
  induction l as [|a l [x Hx]]; [by exists []|]. simpl. destruct (f a); [|by exists []]. exists (a :: x). simpl. by rewrite <- Hx.
Qed.

Lemma trim_left_bytes_suffix l : exists x, l = (x ++ trim_left_bytes l)%list.
Proof.
  functional induction (trim_left_bytes l); try (by exists []);
    match goal with H : exists x, _ |- _ => destruct H as [x Hx] end;
    [exists (a :: x)|exists (a :: b :: x)|exists (a :: b :: c :: x)]; simpl; congruence.
Qed.

Lemma part_suffix x l : part l (x ++ l)%list.
Proof. exists x, []. by rewrite app_nil_r. Qed.

Lemma part_rev_suffix l k : (exists x, rev k = (x ++ rev l)%list) -> part l k.
Proof. intros [x Hx]. exists [], (rev x). simpl. by rewrite <- (rev_involutive k), Hx, rev_app_distr, rev_involutive. Qed.

Lemma trim_space_part s : part (bytes (trim_space s)) (bytes s).
Proof.
  unfold trim_space, trim_bytes. rewrite bytes_text. destruct (trim_left_bytes_suffix (bytes s)) as [x Hx].
  rewrite Hx at 2. eapply part_trans; [|apply part_suffix]. apply part_rev_suffix. rewrite rev_involutive. apply trim_rev_bytes_suffix.
Qed.

Lemma Trim_part s cs : part (bytes (Trim s cs)) (bytes s).
Proof.
  unfold Trim, TrimRight, TrimLeft. rewrite !bytes_text. destruct (drop_while_suffix (in_set cs) (bytes s)) as [x Hx].
  rewrite Hx at 2. eapply part_trans; [|apply part_suffix]. apply part_rev_suffix. rewrite rev_involutive. apply drop_while_suffix.
Qed.

Lemma solid_trim_space s : (solid (trim_space s) <= solid s)%nat.
Proof. apply part_solid, trim_space_part. Qed.

(** ** Words *)

Lemma solids_flush w : solids (flush w) = solid_bytes w.
Proof. destruct w as [|a w]; [done|]. change (solid (text (a :: w)) + 0 = solid_bytes (a :: w))%nat. rewrite solid_text. lia. Qed.

Lemma fields_solid word l : (solids (fields_loop word l) <= solid_bytes word + solid_bytes l)%nat.
Proof.
  revert word. induction l as [l IH] using (induction_ltof1 _ (@length ascii)). unfold ltof in IH. intros word.
  destruct l as [|a r]; simpl; [rewrite solids_flush; lia|].
  destruct (ws1 a); [rewrite solids_app, solids_flush, solid_bytes_cons; specialize (IH r ltac:(simpl; lia) []); change (solid_bytes []) with 0%nat in IH; lia|].
  destruct r as [|b r2]; [rewrite solids_flush, solid_bytes_app; lia|].
  destruct (ws2 a b).
  { rewrite solids_app, solids_flush, !solid_bytes_cons. specialize (IH r2 ltac:(simpl; lia) []). change (solid_bytes []) with 0%nat in IH. lia. }
  assert (Hs : (solids (fields_loop (word ++ [a]) (b :: r2)) <= solid_bytes word + solid_bytes (a :: b :: r2))%nat).
  { etrans; [apply IH; simpl; lia|]. rewrite solid_bytes_app, (solid_bytes_cons a (b :: r2)), (solid_bytes_cons a []). change (solid_bytes []) with 0%nat. lia. }
  destruct r2 as [|c r3]; [exact Hs|]. destruct (ws3 a b c); [|exact Hs].
  rewrite solids_app, solids_flush, !solid_bytes_cons. specialize (IH r3 ltac:(simpl; lia) []). change (solid_bytes []) with 0%nat in IH. lia.
Qed.

Lemma Fields_solid s : (solids (Fields s) <= solid s)%nat.
Proof. unfold Fields. etrans; [apply fields_solid|]. done. Qed.

(** A word without a white-space rune anywhere in it. *)
Fixpoint spaceless (l : list ascii) : bool :=
  match l with
  | [] => true
  | _ :: r => negb (starts_space l) && spaceless r
  end.

Lemma space_bound a b :
  ws2 a " " = false /\ ws3 a b " " = false /\ ws3 a " " b = false.
Proof. unfold ws2, ws3. change (N_of_ascii " ") with 32%N. repeat case_match; done. Qed.

Lemma starts_space_cons a b c l :
  starts_space (a :: b :: c :: l) = ws1 a || ws2 a b || ws3 a b c.
Proof. done. Qed.

Lemma spaceless_prefix l k : spaceless (l ++ k) = true -> spaceless l = true.
Proof.
  induction l as [|a l IH]; [done|]. cbn [app spaceless]. rewrite !andb_true_iff, !negb_true_iff.
  intros [H1 H2]. split; [|auto]. by apply (starts_space_prefix (a :: l) k).
Qed.

Lemma spaceless_part l k : part l k -> spaceless k = true -> spaceless l = true.
Proof.
  intros (x&y&->). induction x as [|a x IH]; simpl; [apply spaceless_prefix|]. rewrite andb_true_iff. intros [_ H]. auto.
Qed.

(** What [strings.Fields] returns: no empty word, no word with white space. *)
Definition open_word (word l : list ascii) : Prop := forall x y, word = (x ++ y)%list -> y <> [] -> starts_space (y ++ l) = false.

Lemma open_word_spaceless word l : open_word word l -> spaceless word = true.
Proof.
  induction word as [|a word IH]; [done|]. intros H. cbn [spaceless]. apply andb_true_iff. split.
  - rewrite negb_true_iff. apply (starts_space_prefix _ l), (H []); done.
  - apply IH. intros x y -> Hy. by apply (H (a :: x) y).
Qed.

Definition a_word (w : string) : Prop := w <> "" /\ spaceless (bytes w) = true.

Lemma flush_words word l : open_word word l -> Forall a_word (flush word).
Proof.
  intros H. destruct word as [|a word]; [constructor|]. apply Forall_singleton. split; [done|].
  rewrite bytes_text. by apply open_word_spaceless in H.
Qed.

Lemma open_word_nil l : open_word [] l.
Proof. intros x y H Hy. symmetry in H. apply app_eq_nil in H as [_ ->]. done. Qed.

Lemma open_word_step word a l : starts_space (a :: l) = false -> open_word word (a :: l) -> open_word (word ++ [a]) l.
Proof.
  intros Ha Hw x y H Hy. destruct (decide (y = [a])) as [->|Hne]; [done|].
  destruct (exists_last Hy) as (y'&b&->). rewrite app_assoc in H. apply app_inj_tail in H as [Hxy <-].
  rewrite <- app_assoc. apply (Hw x); [done|]. intros ->. done.
Qed.

Lemma fields_words word l : open_word word l -> Forall a_word (fields_loop word l).
Proof.
  revert word. induction l as [l IH] using (induction_ltof1 _ (@length ascii)). unfold ltof in IH. intros word Hw.
  destruct l as [|a r]; [by apply (flush_words word [])|]. cbn [fields_loop].
  assert (Hflush : forall r', (length r' < length (a :: r))%nat -> Forall a_word (flush word ++ fields_loop [] r')).
  { intros r' Hr. apply Forall_app. split; [by apply (flush_words word (a :: r))|]. apply IH; [done|apply open_word_nil]. }
  destruct (ws1 a) eqn:H1; [apply Hflush; simpl; lia|].
  destruct r as [|b r2]; [apply (flush_words _ []), open_word_step; done|].
  destruct (ws2 a b) eqn:H2; [apply Hflush; simpl; lia|].
  assert (Hgo : starts_space (a :: b :: r2) = false -> Forall a_word (fields_loop (word ++ [a]) (b :: r2))).
  { intros Hs. apply IH; [simpl; lia|]. by apply open_word_step. }
  destruct r2 as [|c r3]; [apply Hgo; cbn; by rewrite H1, H2|].
  destruct (ws3 a b c) eqn:H3; [apply Hflush; simpl; lia|]. apply Hgo. by rewrite starts_space_cons, H1, H2, H3.
Qed.

Lemma Fields_words s : Forall a_word (Fields s).
Proof. apply fields_words, open_word_nil. Qed.

(** Conversely a word in front of a space, or at the end, is read as it is. *)
Definition ends_word (l : list ascii) : Prop := l = [] \/ exists r, l = " "%char :: r.

Lemma word_starts a w l : spaceless (a :: w) = true -> ends_word l -> starts_space ((a :: w) ++ l) = false.
Proof.
  cbn [spaceless]. rewrite andb_true_iff, negb_true_iff. intros [Ha _] [->|[r ->]]; [by rewrite app_nil_r|].
  destruct w as [|b [|c w]]; [|cbn in Ha |exact Ha]; cbn in Ha.
  - destruct r as [|d r]; cbn; rewrite Ha; [apply (space_bound a a)|]. by rewrite (proj1 (space_bound a a)), (proj2 (proj2 (space_bound a d))).
  - apply orb_false_iff in Ha as [Ha1 Ha2]. cbn. by rewrite Ha1, Ha2, (proj1 (proj2 (space_bound a b))).
Qed.

Lemma fields_word word w l : spaceless w = true -> ends_word l -> fields_loop word (w ++ l) = fields_loop (word ++ w) l.
Proof.
  intros Hw Hl. revert word. induction w as [|a w IH]; intros word; [by rewrite app_nil_r|].
  pose proof (word_starts a w l Hw Hl) as Hs. cbn [spaceless] in Hw. apply andb_true_iff in Hw as [_ Hw].
  specialize (IH Hw (word ++ [a])%list). rewrite <- app_assoc in IH.
  change ([a] ++ w)%list with (a :: w) in IH. rewrite <- IH. clear -Hs. cbn [app] in *.
  destruct (w ++ l)%list as [|b [|c m]]; cbn in Hs; rewrite ?orb_false_iff in Hs; cbn [fields_loop].
  - by rewrite Hs.
  - destruct Hs as [-> ->]. done.
  - destruct Hs as [[-> ->] ->]. done.
Qed.

Lemma fields_space word l : fields_loop word (" "%char :: l) = (flush word ++ fields_loop [] l)%list.
Proof. done. Qed.

Lemma flush_part word l w : w ∈ flush word -> part (bytes w) (word ++ l).
Proof.
  destruct word as [|a word]; [by intros ?%elem_of_nil|]. intros ->%list_elem_of_singleton. rewrite bytes_text. by exists [], l.
Qed.

Lemma fields_part word l w : w ∈ fields_loop word l -> part (bytes w) (word ++ l).
Proof.
  revert word. induction l as [l IH] using (induction_ltof1 _ (@length ascii)). unfold ltof in IH. intros word.
  destruct l as [|a r]; [by apply flush_part|]. cbn [fields_loop].
  assert (Hcut : forall z r', (a :: r = z ++ r')%list -> (length r' < length (a :: r))%nat ->
    w ∈ (flush word ++ fields_loop [] r')%list -> part (bytes w) (word ++ a :: r)).
  { intros z r' Hz Hl [H|H]%elem_of_app; [by apply flush_part|]. apply IH in H; [|done]. eapply part_trans; [exact H|].
    rewrite Hz. exists (word ++ z)%list, []. by rewrite app_nil_r, app_assoc. }
  assert (Hgo : forall r', (a :: r = a :: r')%list -> w ∈ fields_loop (word ++ [a]) r' -> part (bytes w) (word ++ a :: r)).
  { intros r' [= <-] H. apply IH in H; [|simpl; lia]. by rewrite <- app_assoc in H. }
  destruct (ws1 a); [apply (Hcut [a]); [done|simpl; lia]|]. destruct r as [|b r2]; [intros H; by eapply flush_part in H; rewrite app_nil_r in H|].
  destruct (ws2 a b); [apply (Hcut [a; b]); [done|simpl; lia]|].
  destruct r2 as [|c r3]; [by apply Hgo|]. destruct (ws3 a b c); [apply (Hcut [a; b; c]); [done|simpl; lia]|by apply Hgo].
Qed.

Lemma Fields_part s w : w ∈ Fields s -> part (bytes w) (bytes s).
Proof. apply (fields_part []). Qed.

Lemma spaceless_no_blank l : spaceless l = true -> Forall (fun a => a <> " "%char) l.
Proof.
  induction l as [|a l IH]; [done|]. cbn [spaceless]. rewrite andb_true_iff, negb_true_iff. intros [H1 H2].
  constructor; [|auto]. intros ->. by destruct l as [|b [|c l]].
Qed.


Lemma trim_rev_spaceless l : spaceless (rev l) = true -> trim_rev_bytes l = l.
Proof.
  intros H. assert (Hp : forall p, (exists x, rev l = x ++ p)%list -> spaceless p = true).
  { intros p [x Hx]. eapply spaceless_part; [|exact H]. rewrite Hx. apply part_suffix. }
  destruct l as [|c [|b [|a l]]]; [done| | |].
  - specialize (Hp [c] ltac:(by exists [])). cbn in Hp. cbn [trim_rev_bytes]. by destruct (ws1 c).
  - pose proof (Hp [c] ltac:(by exists [b])) as H1. pose proof (Hp [b; c] ltac:(by exists [])) as H2. cbn in H1, H2.
    cbn [trim_rev_bytes]. destruct (ws1 c); [done|]. by destruct (ws2 b c); [rewrite orb_true_r in H2|].
  - pose proof (Hp [c] ltac:(exists (rev l ++ [a; b])%list; simpl; by rewrite <- !app_assoc)) as H1.
    pose proof (Hp [b; c] ltac:(exists (rev l ++ [a])%list; simpl; by rewrite <- !app_assoc)) as H2.
    pose proof (Hp [a; b; c] ltac:(exists (rev l)%list; simpl; by rewrite <- !app_assoc)) as H3. cbn in H1, H2, H3.
    cbn [trim_rev_bytes]. destruct (ws1 c); [done|]. destruct (ws2 b c); [by rewrite orb_true_r in H2|].
    by destruct (ws3 a b c); [rewrite !orb_true_r in H3|].
Qed.

Lemma trim_rev_after w r : w <> [] -> spaceless (rev w) = true -> trim_rev_bytes (w ++ " "%char :: r) = (w ++ " "%char :: r)%list.
Proof.
  intros Hne H. pose proof (trim_rev_spaceless w H) as Hw. destruct w as [|c [|b [|a w]]]; [done| | |].
  - cbn [trim_rev_bytes app] in *. destruct (ws1 c); [done|]. change (ws2 " " c) with false.
    destruct r as [|a r]; [done|]. by rewrite (proj2 (proj2 (space_bound a c))).
  - cbn [trim_rev_bytes app] in *. destruct (ws1 c); [apply (f_equal length) in Hw; cbn in Hw; repeat case_match; simpl in Hw; lia|].
    destruct (ws2 b c); [done|]. by change (ws3 " " b c) with false.
  - cbn [app] in *. revert Hw. cbn [trim_rev_bytes].
    assert (Hl : forall k, (length (trim_rev_bytes k) <= length k)%nat).
    { intros k. destruct (trim_rev_bytes_suffix k) as [x Hx]. rewrite Hx at 2. rewrite length_app. lia. }
    destruct (ws1 c); [intros Hw; apply (f_equal length) in Hw; specialize (Hl (b :: a :: w)); cbn [length trim_rev_bytes] in *; lia|].
    destruct (ws2 b c); [intros Hw; apply (f_equal length) in Hw; specialize (Hl (a :: w)); cbn [length trim_rev_bytes] in *; lia|].
    destruct (ws3 a b c); [|done]. intros Hw. apply (f_equal length) in Hw. specialize (Hl w). cbn [length] in *. lia.
Qed.

Lemma trim_space_word s : spaceless (bytes s) = true -> trim_space s = s.
Proof.
  intros H. unfold trim_space, trim_bytes. rewrite trim_left_bytes_fixed.
  - rewrite trim_rev_spaceless; rewrite rev_involutive; [apply text_bytes|done].
  - destruct (bytes s) as [|a l]; [done|]. cbn [spaceless] in H. apply andb_true_iff in H as [H _]. by apply negb_true_iff in H.
Qed.

Lemma drop_while_idem f l : drop_while f (drop_while f l) = drop_while f l.
Proof. induction l as [|a l IH]; [done|]. simpl. destruct (f a) eqn:E; [done|]. simpl. by rewrite E. Qed.

Lemma drop_while_prefix f x y : drop_while f (x ++ y)%list = (x ++ y)%list -> drop_while f x = x.
Proof. destruct x as [|a x]; [done|]. simpl. destruct (f a) eqn:E; [|done]. intros H. destruct (drop_while_suffix f (x ++ y)%list) as [z Hz].
  rewrite H in Hz. apply (f_equal length) in Hz. rewrite !length_app in Hz. simpl in Hz. rewrite ?length_app in Hz. lia. Qed.

Lemma Trim_idem s cs : Trim (Trim s cs) cs = Trim s cs.
Proof.
  unfold Trim, TrimLeft, TrimRight. rewrite !bytes_text. set (l := drop_while (in_set cs) (bytes s)).
  assert (H : drop_while (in_set cs) (rev (drop_while (in_set cs) (rev l))) = rev (drop_while (in_set cs) (rev l))).
  { destruct (drop_while_suffix (in_set cs) (rev l)) as [x Hx]. apply (drop_while_prefix _ _ (rev x)).
    rewrite <- rev_app_distr, <- Hx, rev_involutive. apply drop_while_idem. }
  by rewrite H, rev_involutive, drop_while_idem.
Qed.

Lemma trim_space_joined ws : ws <> [] -> Forall a_word ws -> trim_space (Join ws " ") = Join ws " ".
Proof.
  intros Hne Hws. unfold trim_space, trim_bytes.
  assert (Hstart : starts_space (bytes (Join ws " ")) = false).
  { destruct Hws as [|w ws [Hw Hs] Hws]; [done|]. destruct w as [|a w]; [done|].
    destruct ws as [|v ws]; [rewrite <- (app_nil_r (bytes _)); apply word_starts; [done|by left]|].
    change (Join (String a w :: v :: ws) " ") with (String a w ++ " " ++ Join (v :: ws) " "). rewrite bytes_app.
    apply word_starts; [done|right; by eexists]. }
  rewrite trim_left_bytes_fixed by done.
  assert (Hend : trim_rev_bytes (rev (bytes (Join ws " "))) = rev (bytes (Join ws " "))).
  { clear Hstart Hne. induction Hws as [|w ws [Hw Hs] Hws IH]; [done|]. destruct ws as [|v ws]; [apply trim_rev_spaceless; by rewrite rev_involutive|].
    change (Join (w :: v :: ws) " ") with (w ++ " " ++ Join (v :: ws) " "). rewrite !bytes_app, !rev_app_distr.
    change (rev (bytes " ")) with [" "%char]. rewrite <- app_assoc. cbn [app].
    assert (Hx : exists y z, rev (bytes (Join (v :: ws) " ")) = (y ++ z)%list /\ y <> [] /\ spaceless (rev y) = true /\ ends_word z).
    { clear -Hws. revert v Hws. induction ws as [|u ws IH]; intros v [[Hv Hs] Hws]%Forall_cons.
      - exists (rev (bytes v)), []. rewrite app_nil_r, rev_involutive. split; [done|]. split; [|split; [done|by left]].
        intros H. apply (f_equal (@rev ascii)) in H. rewrite rev_involutive in H. apply Hv. by rewrite <- (text_bytes v), H.
      - destruct (IH u Hws) as (y&z&H&Hy&Hsy&Hz). exists y, (z ++ " "%char :: rev (bytes v))%list.
        change (Join (v :: u :: ws) " ") with (v ++ " " ++ Join (u :: ws) " "). rewrite !bytes_app, !rev_app_distr.
        change (rev (bytes " ")) with [" "%char]. rewrite H, <- !app_assoc. split; [done|]. split; [done|]. split; [done|].
        destruct Hz as [->|[r ->]]; right; by eexists. }
    destruct Hx as (y&z&->&Hy&Hsy&Hz). rewrite <- app_assoc. destruct Hz as [->|[r ->]]; cbn [app]; by apply trim_rev_after. }
  by rewrite Hend, rev_involutive, text_bytes.
Qed.
