(* ===== verification/GoPath.v ===== *)
(** * Go file paths

    The lexical functions of [path/filepath] on Unix, on which the policy decides
    where a path lies: [Clean], [Join], [IsAbs], [Dir] and [Base].  A cleaned
    absolute path is a list of names ([rooted_path]); being under a root is the
    prefix relation of these lists ([under_prefix]), so no spelling of a path
    escapes a root. *)

From Stdlib Require Import ZArith Lia Ascii String Wf_nat.
From stdpp Require Import base option strings list sets.
From S2P Require Import Prelude GoStrings GoText.

Open Scope string_scope.

(** ** Operations *)

(** One path element on the reversed list of those kept so far. *)
Definition path_step (rooted : bool) (acc : list string) (e : string) : list string :=
  if (e =? "") || (e =? ".") then acc else
  if e =? ".." then
    match acc with
    | [] => if rooted then [] else [".."]
    | x :: acc' => if x =? ".." then ".." :: acc else acc'
    end
  else e :: acc.

Definition path_elements (rooted : bool) (l : list string) : list string := rev (fold_left (path_step rooted) l []).

Definition IsAbs (path : string) : bool := HasPrefix path "/".

(** The names of a path, with the elements [.] and [..] resolved. *)
Definition path_names (path : string) : list string := path_elements (IsAbs path) (Split path "/").

Definition rooted_path (names : list string) : string := "/" ++ Join names "/".

Definition Clean (path : string) : string :=
  if IsAbs path then rooted_path (path_names path)
  else match path_names path with [] => "." | names => Join names "/" end.

Fixpoint skip_empty (l : list string) : list string :=
  match l with
  | [] => []
  | e :: r => if e =? "" then skip_empty r else l
  end.

(** [filepath.Join]. *)
Definition path_join (l : list string) : string := match skip_empty l with [] => "" | l => Clean (Join l "/") end.

(** [filepath.Dir]: what is before the last separator. *)
Definition Dir (path : string) : string := Clean (text (rev (drop_while (fun a => negb (Ascii.eqb a "/")) (rev (bytes path))))).

(** [filepath.Base]. *)
Definition Base (path : string) : string :=
  if path =? "" then "." else
  let path := TrimRight path "/" in
  let name := List.last (Split path "/") "" in
  if name =? "" then "/" else name.

Example clean_dots : Clean "/a//b/../c/." = "/a/c". Proof. reflexivity. Qed.
Example clean_escape : Clean "/../etc" = "/etc". Proof. reflexivity. Qed.
Example clean_relative : Clean "../x/../../y" = "../../y". Proof. reflexivity. Qed.
Example dir_base : (Dir "/a/b", Base "/a/b/", Dir "/a") = ("/a", "b", "/"). Proof. reflexivity. Qed.

(** ** Splitting and joining *)

Definition no_slash (s : string) : Prop := "/"%char ∉ bytes s.

Lemma split_word w l word : no_slash (text w) -> split_byte "/" word (w ++ l) = split_byte "/" (word ++ w) l.
Proof.
  unfold no_slash. rewrite bytes_text. revert word. induction w as [|a w IH]; intros word Hw; [by rewrite app_nil_r|].
  apply not_elem_of_cons in Hw as [Ha Hw]. cbn [app split_byte]. destruct (Ascii.eqb_spec a "/"); [done|].
  rewrite IH by done. by rewrite <- app_assoc.
Qed.

Lemma split_join names : names <> [] -> Forall no_slash names -> Split (Join names "/") "/" = names.
Proof.
  unfold Split. intros Hne Hs. induction Hs as [|x l Hx Hl IH]; [done|]. rewrite <- (text_bytes x) in Hx.
  destruct l as [|y l].
  - change (Join [x] "/") with x. rewrite <- (app_nil_r (bytes x)), split_word by done. cbn. by rewrite text_bytes.
  - change (Join (x :: y :: l) "/") with (x ++ "/" ++ Join (y :: l) "/"). rewrite !bytes_app, split_word by done.
    cbn [app list_ascii_of_string split_byte Ascii.eqb Bool.eqb]. by rewrite text_bytes, IH.
Qed.

Lemma split_no_slash word l : no_slash (text word) -> Forall no_slash (split_byte "/" word l).
Proof.
  revert word. induction l as [|a l IH]; intros word Hw; cbn [split_byte]; [by constructor|].
  destruct (Ascii.eqb_spec a "/"); [constructor; [done|]; apply IH; unfold no_slash; by apply not_elem_of_nil|].
  apply IH. unfold no_slash in *. rewrite bytes_text in *. rewrite elem_of_app, list_elem_of_singleton. naive_solver.
Qed.

Lemma Split_no_slash s : Forall no_slash (Split s "/").
Proof. apply split_no_slash. unfold no_slash. by apply not_elem_of_nil. Qed.

(** ** Clean paths *)

(** A name of a cleaned absolute path. *)
Definition path_name (e : string) : Prop := e <> "" /\ e <> "." /\ e <> ".." /\ no_slash e.

Lemma step_name rooted acc e : path_name e -> path_step rooted acc e = e :: acc.
Proof. intros (H1&H2&H3&_). unfold path_step. by rewrite (proj2 (String.eqb_neq _ _) H1), (proj2 (String.eqb_neq _ _) H2), (proj2 (String.eqb_neq _ _) H3). Qed.

Lemma step_rooted acc e : no_slash e -> Forall path_name acc -> Forall path_name (path_step true acc e).
Proof.
  intros He Ha. unfold path_step. destruct (String.eqb_spec e ""); [done|]. destruct (String.eqb_spec e "."); [done|]. cbn [orb].
  destruct (String.eqb_spec e ".."); [|by constructor].
  destruct Ha as [|x acc Hx Ha]; [done|]. destruct (String.eqb_spec x ".."); [|done]. by destruct Hx as (_&_&[]&_).
Qed.

Lemma rooted_names l : Forall no_slash l -> Forall path_name (path_elements true l).
Proof.
  intros Hl. unfold path_elements. apply Forall_rev. assert (H : Forall path_name []) by constructor. revert H.
  generalize (@nil string). induction Hl as [|e l He Hl IH]; intros acc Ha; [done|]. apply IH. by apply step_rooted.
Qed.

Lemma elements_names rooted l acc : Forall path_name l -> fold_left (path_step rooted) l acc = (rev l ++ acc)%list.
Proof.
  intros Hl. revert acc. induction Hl as [|e l He Hl IH]; intros acc; [done|]. cbn [fold_left rev].
  by rewrite step_name, IH, <- app_assoc.
Qed.

Lemma path_names_abs path : IsAbs path = true -> Forall path_name (path_names path).
Proof. intros H. unfold path_names. rewrite H. apply rooted_names, Split_no_slash. Qed.

Lemma names_no_slash l : Forall path_name l -> Forall no_slash l.
Proof. intros H. eapply Forall_impl; [exact H|]. by intros ? (?&?&?&?). Qed.

Lemma IsAbs_slash s : IsAbs ("/" ++ s) = true.
Proof. by destruct s. Qed.

Lemma rooted_path_names l : Forall path_name l -> path_names (rooted_path l) = l.
Proof.
  intros Hl. unfold path_names, rooted_path. rewrite IsAbs_slash.
  change (Split ("/" ++ Join l "/") "/") with ("" :: Split (Join l "/") "/"). unfold path_elements. cbn [fold_left path_step String.eqb orb].
  destruct l as [|x l]; [done|]. rewrite split_join; [|done|by apply names_no_slash].
  by rewrite elements_names, app_nil_r, rev_involutive.
Qed.

Lemma Clean_abs path : IsAbs path = true -> Clean path = rooted_path (path_names path).
Proof. unfold Clean. by intros ->. Qed.

Lemma IsAbs_rooted l : IsAbs (rooted_path l) = true.
Proof. apply IsAbs_slash. Qed.

Lemma Clean_idem_abs path : IsAbs path = true -> Clean (Clean path) = Clean path.
Proof.
  intros H. rewrite (Clean_abs path H), (Clean_abs (rooted_path _)) by apply IsAbs_rooted. by rewrite rooted_path_names by by apply path_names_abs.
Qed.

(** ** Roots *)

Lemma prefix_cons a s t : String.prefix (String a s) (String a t) = String.prefix s t.
Proof. simpl. by destruct (ascii_dec a a). Qed.

Lemma prefix_slash r t x y : no_slash r -> no_slash t ->
  String.prefix (r ++ "/" ++ x) (t ++ "/" ++ y) = bool_decide (r = t) && String.prefix x y.
Proof.
  revert t. induction r as [|a r IH]; intros t Hr Ht; unfold no_slash in *.
  - destruct t as [|b t]; [by rewrite prefix_cons || exact (prefix_cons "/" x y)|].
    apply not_elem_of_cons in Ht as [Hb _]. cbn [bool_decide]. rewrite bool_decide_eq_false_2 by done.
    change (String.prefix (String "/" x) (String b (t ++ "/" ++ y)) = false). cbn [String.prefix]. by destruct (ascii_dec "/" b).
  - cbn [list_ascii_of_string] in Hr. apply not_elem_of_cons in Hr as [Ha Hr]. destruct t as [|b t].
    + rewrite bool_decide_eq_false_2 by done. change (String.prefix (String a (r ++ "/" ++ x)) (String "/" y) = false). cbn [String.prefix].
      by destruct (ascii_dec a "/").
    + cbn [list_ascii_of_string] in Ht. apply not_elem_of_cons in Ht as [Hb Ht].
      change (String.prefix (String a (r ++ "/" ++ x)) (String b (t ++ "/" ++ y)) = bool_decide (String a r = String b t) && String.prefix x y).
      cbn [String.prefix]. destruct (ascii_dec a b) as [->|Hne].
      * rewrite IH by done. f_equal. apply bool_decide_ext. split; [by intros ->|by intros [= ->]].
      * rewrite bool_decide_eq_false_2 by (intros [= E _]; done). done.
Qed.

Lemma prefix_no_slash r t x : no_slash t -> String.prefix (r ++ "/" ++ x) t = false.
Proof.
  revert t. induction r as [|a r IH]; intros t Ht; (destruct t as [|b t]; [done|]); unfold no_slash in Ht; cbn [list_ascii_of_string] in Ht;
    apply not_elem_of_cons in Ht as [Hb Ht].
  - change (String.prefix (String "/" x) (String b t) = false). cbn [String.prefix]. by destruct (ascii_dec "/" b).
  - change (String.prefix (String a (r ++ "/" ++ x)) (String b t) = false). cbn [String.prefix]. destruct (ascii_dec a b); [by apply IH|done].
Qed.

(** Proper containment of cleaned paths is the prefix relation of their names. *)
Lemma join_snoc r x : exists y, Join (r :: x) "/" ++ "/" = r ++ "/" ++ y /\ y = match x with [] => "" | _ => Join x "/" ++ "/" end.
Proof.
  destruct x as [|s x]; [by exists ""|]. eexists. split; [|done]. change (Join (r :: s :: x) "/") with (r ++ "/" ++ Join (s :: x) "/").
  induction r as [|a r IH]; [done|]. exact (f_equal (String a) IH).
Qed.

Lemma prefix_nil s : String.prefix "" s = true.
Proof. by destruct s. Qed.

Lemma prefix_names root target : root <> [] -> Forall no_slash root -> Forall no_slash target ->
  String.prefix (Join root "/" ++ "/") (Join target "/") = true <-> exists e l, target = (root ++ e :: l)%list.
Proof.
  intros Hne Hr. revert target. induction Hr as [|r root Hr Hroot IH]; intros target Ht; [done|].
  destruct (join_snoc r root) as (x&->&Hx). destruct target as [|t [|t2 target]].
  - rewrite prefix_no_slash by by apply not_elem_of_nil. split; [done|]. by intros (e&l&H).
  - apply Forall_cons in Ht as [Ht _]. change (Join [t] "/") with t. rewrite prefix_no_slash by done. split; [done|]. intros (e&l&H). by destruct root.
  - apply Forall_cons in Ht as [Ht Htarget].
    change (Join (t :: t2 :: target) "/") with (t ++ "/" ++ Join (t2 :: target) "/"). rewrite prefix_slash, andb_true_iff, bool_decide_eq_true by done.
    destruct root as [|s root]; subst x.
    + rewrite prefix_nil. split; [intros [-> _]; by exists t2, target|]. intros (e&l&H). injection H as -> _ _. by split.
    + rewrite IH by done. split; intros H; [destruct H as [-> (e&l&H)]; exists e, l; by rewrite H|].
      destruct H as (e&l&H). injection H as -> -> ->. split; [done|]. by exists e, l.
Qed.

Lemma rooted_path_inj l k : Forall path_name l -> Forall path_name k -> rooted_path l = rooted_path k -> l = k.
Proof. intros Hl Hk H. by rewrite <- (rooted_path_names l), <- (rooted_path_names k), H. Qed.

(** A cleaned absolute path lies under another one exactly when its names extend the names of the other. *)
Lemma under_prefix root target : Forall path_name root -> Forall path_name target -> root <> [] ->
  (rooted_path target =? rooted_path root) || HasPrefix (rooted_path target) (rooted_path root ++ "/") = true <-> root `prefix_of` target.
Proof.
  intros Hr Ht Hne. rewrite orb_true_iff, String.eqb_eq.
  assert (E : HasPrefix (rooted_path target) (rooted_path root ++ "/") = String.prefix (Join root "/" ++ "/") (Join target "/"))
    by exact (prefix_cons "/" (Join root "/" ++ "/") (Join target "/")).
  rewrite E, prefix_names by (try apply names_no_slash; done).
  split.
  - intros [H%rooted_path_inj|(e&l&->)]; [by subst|done|done|]. by exists (e :: l).
  - intros [[|e l] ->]; [left; by rewrite app_nil_r|right; by exists e, l].
Qed.

(** ** Parents *)

Lemma Join_snoc l x : l <> [] -> Join (l ++ [x]) "/" = Join l "/" ++ "/" ++ x.
Proof.
  induction l as [|y [|z l] IH]; [done|done|]. intros _. change (Join ((y :: z :: l) ++ [x]) "/") with (y ++ "/" ++ Join ((z :: l) ++ [x]) "/").
  change (Join (y :: z :: l) "/") with (y ++ "/" ++ Join (z :: l) "/"). rewrite IH by done. generalize (Join (z :: l) "/"). intros s. clear.
  induction y as [|a y IH]; [done|]. exact (f_equal (String a) IH).
Qed.

Lemma elements_trailing rooted l : Forall path_name l -> path_elements rooted (l ++ [""]) = l.
Proof. intros Hl. unfold path_elements. rewrite fold_left_app, (elements_names rooted l), app_nil_r by done. exact (rev_involutive l). Qed.

Lemma split_trailing l : l <> [] -> Forall no_slash l -> Split (Join l "/" ++ "/") "/" = (l ++ [""])%list.
Proof.
  intros Hne Hl. rewrite <- (split_join (l ++ [""])); [|by destruct l|].
  - by rewrite Join_snoc.
  - apply Forall_app. split; [done|]. constructor; [by apply not_elem_of_nil|constructor].
Qed.

Lemma Clean_trailing l : Forall path_name l -> Clean (rooted_path l ++ "/") = rooted_path l.
Proof.
  intros Hl. change (rooted_path l ++ "/") with ("/" ++ (Join l "/" ++ "/")). rewrite Clean_abs by apply IsAbs_slash. f_equal. unfold path_names.
  rewrite IsAbs_slash. change (Split ("/" ++ (Join l "/" ++ "/")) "/") with ("" :: Split (Join l "/" ++ "/") "/").
  change (path_elements true (Split (Join l "/" ++ "/") "/") = l). destruct l as [|x l]; [done|].
  rewrite split_trailing by (done || by apply names_no_slash). by apply elements_trailing.
Qed.

Lemma drop_to_slash (w l : list ascii) : "/"%char ∉ w -> drop_while (fun a => negb (Ascii.eqb a "/")) (w ++ "/"%char :: l) = ("/"%char :: l)%list.
Proof.
  induction w as [|a w IH]; [done|]. intros [Ha Hw]%not_elem_of_cons. cbn [app drop_while]. destruct (Ascii.eqb_spec a "/"); [done|]. by apply IH.
Qed.

Lemma Dir_rooted l x : Forall path_name (l ++ [x]) -> Dir (rooted_path (l ++ [x])) = rooted_path l.
Proof.
  intros [Hl Hx]%Forall_app. apply Forall_cons in Hx as [(_&_&_&Hx) _].
  assert (E : exists s, rooted_path (l ++ [x]) = s ++ "/" ++ x /\ Clean (s ++ "/") = rooted_path l).
  { destruct l as [|y l]; [by exists ""|]. exists (rooted_path (y :: l)). split; [|by apply Clean_trailing].
    unfold rooted_path. rewrite Join_snoc by done. done. }
  destruct E as (s&->&E). unfold Dir. rewrite !bytes_app, !rev_app_distr, <- app_assoc. cbn [rev list_ascii_of_string app].
  rewrite drop_to_slash; [|rewrite list_elem_of_In, <- in_rev, <- list_elem_of_In; exact Hx]. cbn [rev]. rewrite rev_involutive, text_app, text_bytes. exact E.
Qed.

Lemma rooted_path_snoc_ne l x : Forall path_name (l ++ [x]) -> rooted_path l <> rooted_path (l ++ [x]).
Proof.
  intros H E. apply rooted_path_inj in E; [|by apply Forall_app in H as [? _]|done].
  apply (f_equal length) in E. rewrite length_app in E. simpl in E. lia.
Qed.

Lemma path_join_abs a l : IsAbs a = true -> IsAbs (path_join (a :: l)) = true.
Proof.
  intros Ha. unfold path_join. cbn [skip_empty]. destruct (String.eqb_spec a ""); [by subst|].
  assert (E : IsAbs (Join (a :: l) "/") = true).
  { destruct a as [|c a]; [done|]. unfold IsAbs, HasPrefix in *. cbn [String.prefix] in Ha. destruct (ascii_dec "/" c) as [<-|]; [|done].
    destruct l as [|b l]; [exact Ha|]. change (Join (String "/" a :: b :: l) "/") with (String "/" (a ++ "/" ++ Join (b :: l) "/")). rewrite prefix_cons. apply prefix_nil. }
  rewrite Clean_abs by done. apply IsAbs_rooted.
Qed.

Lemma Clean_IsAbs p : IsAbs p = true -> IsAbs (Clean p) = true.
Proof. intros H. rewrite Clean_abs by done. apply IsAbs_rooted. Qed.

(** Trimming keeps a path absolute. *)
Lemma slash_not_space a b : ws1 "/" = false /\ ws2 "/" a = false /\ ws2 a "/" = false /\ ws3 "/" a b = false /\ ws3 a "/" b = false /\ ws3 a b "/" = false.
Proof. unfold ws1, ws2, ws3. change (N_of_ascii "/") with 47%N. split_and!; repeat case_match; done. Qed.

Lemma trim_rev_slash l : exists k, trim_rev_bytes (l ++ ["/"%char]) = (k ++ ["/"%char])%list.
Proof.
  induction l as [l IH] using (induction_ltof1 _ (@length ascii)). unfold ltof in IH.
  assert (Hid : exists k, (l ++ ["/"%char])%list = (k ++ ["/"%char])%list) by by exists l.
  destruct l as [|c [|b [|a l]]]; cbn [app trim_rev_bytes] in *.
  - by exists [].
  - destruct (ws1 c); [by exists []|]. by rewrite (proj1 (proj2 (slash_not_space c c))).
  - destruct (ws1 c); [apply (IH [b]); simpl; lia|]. destruct (ws2 b c); [by exists []|].
    by rewrite (proj1 (proj2 (proj2 (proj2 (slash_not_space b c))))).
  - destruct (ws1 c); [apply (IH (b :: a :: l)); simpl; lia|]. destruct (ws2 b c); [apply (IH (a :: l)); simpl; lia|].
    destruct (ws3 a b c); [apply (IH l); simpl; lia|exact Hid].
Qed.

Lemma trim_space_abs p : IsAbs p = true -> IsAbs (trim_space p) = true.
Proof.
  intros H. destruct p as [|c p]; [done|]. unfold IsAbs, HasPrefix in H. cbn [String.prefix] in H. destruct (ascii_dec "/" c) as [<-|]; [|done].
  unfold trim_space, trim_bytes. rewrite trim_left_bytes_fixed.
  - cbn [list_ascii_of_string rev]. destruct (trim_rev_slash (rev (bytes p))) as [k ->]. rewrite rev_app_distr. apply IsAbs_slash.
  - pose proof (fun a b => slash_not_space a b) as Hs. destruct (bytes p) as [|a [|b l]] eqn:E; cbn [list_ascii_of_string]; rewrite E; cbn [starts_space].
    + by destruct (Hs "/"%char "/"%char).
    + destruct (Hs a a) as (->&->&_). done.
    + destruct (Hs a b) as (->&->&_&->&_). done.
Qed.
