(* ===== verification/Decimal.v ===== *)
(** * Decimal integers

    [strconv.FormatUint], [FormatInt] and [ParseUint] in base 10, and their
    round trip. *)

From Stdlib Require Import ZArith Lia Ascii String.
From stdpp Require Import base option strings list.
From S2P Require Import Prelude GoStrings.

Local Open Scope string_scope.

Definition digit (n : Z) : ascii := ascii_of_nat (48 + Z.to_nat n).
Definition digit_value (a : ascii) : option Z :=
  let n := Z.of_nat (nat_of_ascii a) in if ((48 <=? n) && (n <=? 57))%Z then Some (n - 48)%Z else None.

(** Twenty digits are enough for 64 bits. *)
Fixpoint format_loop (fuel : nat) (n : Z) (acc : string) : string :=
  match fuel with
  | O => acc
  | S fuel =>
    let acc := String (digit (n mod 10)) acc in
    if (n <? 10)%Z then acc else format_loop fuel (n / 10) acc
  end.

Definition FormatUint (n : Z) : string := format_loop 20 n "".
Definition FormatInt (n : Z) : string := if (n <? 0)%Z then "-" ++ FormatUint (- n) else FormatUint n.

(** A step that leaves [uint64] is a range error. *)
Fixpoint parse_loop (v : Z) (s : string) : option Z :=
  match s with
  | EmptyString => Some v
  | String a s =>
    match digit_value a with
    | None => None
    | Some d => let v := (v * 10 + d)%Z in if (u64_modulus <=? v)%Z then None else parse_loop v s
    end
  end.

Definition ParseUint (s : string) : option Z := if s =? "" then None else parse_loop 0 s.

Lemma digit_value_digit n : (0 <= n < 10)%Z -> digit_value (digit n) = Some n.
Proof.
  intros Hn. unfold digit_value, digit. rewrite nat_ascii_embedding by lia.
  destruct (Z.leb_spec 48 (Z.of_nat (48 + Z.to_nat n))), (Z.leb_spec (Z.of_nat (48 + Z.to_nat n)) 57); try lia.
  simpl. f_equal. lia.
Qed.

Lemma parse_format_loop fuel n acc : (0 <= n < 10 ^ Z.of_nat fuel)%Z -> (n < u64_modulus)%Z -> (0 < fuel)%nat ->
  parse_loop 0 (format_loop fuel n acc) = parse_loop n acc.
Proof.
  revert n acc. induction fuel as [|fuel IH]; intros n acc Hn Hm Hf; [lia|].
  rewrite Nat2Z.inj_succ, Z.pow_succ_r in Hn by lia. cbn [format_loop]. pose proof (Z.mod_pos_bound n 10 ltac:(lia)) as Hd.
  destruct (Z.ltb_spec n 10) as [Hlt|Hge].
  - cbn [parse_loop]. rewrite Z.mod_small, digit_value_digit by lia. destruct (Z.leb_spec u64_modulus (0 * 10 + n)); [lia|]. f_equal.
  - rewrite IH.
    + cbn [parse_loop]. rewrite digit_value_digit by lia. pose proof (Z.div_mod n 10 ltac:(lia)) as He.
      replace (n / 10 * 10 + n mod 10)%Z with n by lia. destruct (Z.leb_spec u64_modulus n); [lia|done].
    + split; [apply Z.div_pos; lia|]. apply Z.div_lt_upper_bound; lia.
    + assert (n / 10 <= n)%Z by (apply Z.div_le_upper_bound; lia). lia.
    + destruct fuel; [simpl in Hn; lia|lia].
Qed.

Lemma format_loop_nonempty fuel n acc : (0 < fuel)%nat -> format_loop fuel n acc <> "".
Proof.
  revert n acc. induction fuel as [|fuel IH]; intros n acc Hf; [lia|]. simpl. case_match; [done|].
  destruct fuel; [done|]. apply IH. lia.
Qed.

Lemma ParseUint_FormatUint n : is_u64 n -> ParseUint (FormatUint n) = Some n.
Proof.
  intros Hn. unfold ParseUint, FormatUint. rewrite (proj2 (String.eqb_neq _ _)) by (apply format_loop_nonempty; lia).
  rewrite parse_format_loop; [done| |apply Hn|lia]. split; [apply Hn|]. etransitivity; [apply Hn|]. reflexivity.
Qed.
