(* ===== verification/Fence.v ===== *)
(** * Session fences and mutation guards

    Models [agent-sdk/session/fence_claim.go], [mutation_guard.go] and the
    fence part of [session.go]: the durable execution fence of one Session,
    the bearer claim that proves its acquisition, and the decision whether a
    mutation carrying a guard may touch the Session while a fence is held.
    [crypto/sha256] is the parameter [sha256_hex] (hexadecimal digest of a
    string); random tokens are arguments of the operations that draw them. *)

From Stdlib Require Import ZArith Lia String.
From stdpp Require Import base list strings option.
From S2P Require Import Prelude GoStrings GoText.

Local Open Scope string_scope.

(** ** Errors of the session package *)

Inductive SessionError : Type :=
| ErrSessionNotFound
| ErrInvalidSession
| ErrInvalidEvent
| ErrInvalidTransaction
| ErrInvalidValue (scope : string)
| ErrEventValidation (detail : string)
| ErrSchemaVersion (detail : string)
| RevisionConflictError (sessionID : string) (expected actual : Z)
| FenceConflictError (sessionID detail : string)
| EventConflictError (sessionID eventID idempotencyKey : string)
| ParticipantBindingConflictError (participantID expectedDelegation actualDelegation : string)
| ErrCallback (detail : string)
| ErrIdleCompactionRevoked (detail : string)
| ErrReceiptNotFound (invocationID : string)
| ErrRandom.

Global Instance SessionError_eq_dec : EqDecision SessionError.
Proof. solve_decision. Defined.

(** ** Session references *)

Record SessionRef : Type := MkSessionRef {
  AppName : string;
  UserID : string;
  SessionID : string;
  WorkspaceKey : string;
}.

Global Instance SessionRef_eq_dec : EqDecision SessionRef.
Proof. solve_decision. Defined.

Definition NormalizeSessionRef (ref : SessionRef) : SessionRef :=
  MkSessionRef (trim_space (AppName ref)) (trim_space (UserID ref))
    (trim_space (SessionID ref)) (trim_space (WorkspaceKey ref)).

Lemma NormalizeSessionRef_idem ref :
  NormalizeSessionRef (NormalizeSessionRef ref) = NormalizeSessionRef ref.
Proof. unfold NormalizeSessionRef; simpl. by autorewrite with gostr. Qed.
#[export] Hint Rewrite NormalizeSessionRef_idem : gostr.

(** ** Fences, guards, release requests *)

Record SessionFence : Type := MkSessionFence {
  sf_SessionRef : SessionRef;
  FenceID : string;
  OwnerID : string;
  FencingToken : Z;
  AcquiredAt : Z;
  claimToken : string;
  claimDigest : string;
}.

Global Instance SessionFence_eq_dec : EqDecision SessionFence.
Proof. solve_decision. Defined.

(** The zero value [SessionFence{}]: no fence. *)
Definition no_ref : SessionRef := MkSessionRef "" "" "" "".
Definition no_fence : SessionFence := MkSessionFence no_ref "" "" 0 0 "" "".

Record ReleaseSessionFenceRequest : Type := MkRelease {
  rel_SessionRef : SessionRef;
  rel_FenceID : string;
  rel_OwnerID : string;
  rel_claimToken : string;
}.

(** [MutationAuthority] and [ControlMutationPurpose] are string types, so any
    string can reach the checks. *)
Definition MutationAuthorityRuntime : string := "runtime".
Definition MutationAuthorityControl : string := "control".

Definition ControlMutationPurposeApproval : string := "approval".
Definition ControlMutationPurposeHandoff : string := "handoff".
Definition ControlMutationPurposeCoordinator : string := "coordinator".
Definition ControlMutationPurposeParticipant : string := "participant".
Definition ControlMutationPurposeLifecycle : string := "session_lifecycle".
Definition ControlMutationPurposeConfiguration : string := "session_configuration".
Definition ControlMutationPurposeTest : string := "test".
Definition ControlMutationPurposeSystemCommit : string := "system_commit".
Definition ControlMutationPurposeInteraction : string := "conversation_interaction".
Definition ControlMutationPurposeIdleInteraction : string := "idle_conversation_interaction".
Definition ControlMutationPurposeSubagentCompletion : string := "subagent_completion".
Definition ControlMutationPurposeSubagentActivity : string := "subagent_activity".

Record MutationGuard : Type := MkGuard {
  Authority : string;
  Purpose : string;
  g_FenceID : string;
  g_OwnerID : string;
  g_FencingToken : Z;
  g_claimToken : string;
}.

Definition no_guard : MutationGuard := MkGuard "" "" "" "" 0 "".

(** ** Purposes *)

Definition ControlMutationMayOverlapRuntimeFence (purpose : string) : bool :=
  one_of [ControlMutationPurposeApproval; ControlMutationPurposeInteraction;
          ControlMutationPurposeParticipant; ControlMutationPurposeSystemCommit;
          ControlMutationPurposeSubagentCompletion; ControlMutationPurposeSubagentActivity;
          ControlMutationPurposeTest] (trim_space purpose).

Definition knownControlMutationPurpose (purpose : string) : bool :=
  one_of [ControlMutationPurposeApproval; ControlMutationPurposeInteraction;
          ControlMutationPurposeIdleInteraction; ControlMutationPurposeHandoff;
          ControlMutationPurposeCoordinator; ControlMutationPurposeParticipant;
          ControlMutationPurposeLifecycle; ControlMutationPurposeConfiguration;
          ControlMutationPurposeTest; ControlMutationPurposeSystemCommit;
          ControlMutationPurposeSubagentCompletion;
          ControlMutationPurposeSubagentActivity] purpose.

Definition controlMutationRequiresFence (purpose : string) : bool :=
  one_of [ControlMutationPurposeHandoff; ControlMutationPurposeCoordinator] purpose.

Definition SessionFenceIsHeld (fence : SessionFence) : bool :=
  negb (trim_space (FenceID fence) =? "").

(** ** Guards built by the two authorities *)

Definition ControlMutationGuard (purpose : string) : MutationGuard :=
  MkGuard MutationAuthorityControl (trim_space purpose) "" "" 0 "".

(** The guard [ContextWithRuntimeFence] puts into a context. *)
Definition RuntimeFenceGuard (fence : SessionFence) : MutationGuard :=
  MkGuard MutationAuthorityRuntime "" (FenceID fence) (OwnerID fence)
    (FencingToken fence) (claimToken fence).

(** [ControlMutationGuardWithRuntimeFence], given the guard of the context. *)
Definition ControlMutationGuardWithRuntimeFence (ctx : MutationGuard) (purpose : string) : MutationGuard :=
  let guard := ControlMutationGuard purpose in
  if Authority ctx =? MutationAuthorityRuntime
  then MkGuard (Authority guard) (Purpose guard) (trim_space (g_FenceID ctx))
         (trim_space (g_OwnerID ctx)) (g_FencingToken ctx) (g_claimToken ctx)
  else guard.

Definition SessionFenceForStorage (fence : SessionFence) : SessionFence :=
  MkSessionFence (sf_SessionRef fence) (FenceID fence) (OwnerID fence)
    (FencingToken fence) (AcquiredAt fence) "" (claimDigest fence).

Definition SessionFenceForObservation (fence : SessionFence) : SessionFence :=
  MkSessionFence (sf_SessionRef fence) (FenceID fence) (OwnerID fence)
    (FencingToken fence) (AcquiredAt fence) "" "".

Definition SessionFenceClaimDigest (fence : SessionFence) : string :=
  trim_space (claimDigest fence).

Definition RestoreSessionFenceClaimDigest (fence : SessionFence) (digest : string) : SessionFence :=
  MkSessionFence (sf_SessionRef fence) (FenceID fence) (OwnerID fence)
    (FencingToken fence) (AcquiredAt fence) "" (trim_space digest).

Definition SessionFenceReleaseRequest (fence : SessionFence) : ReleaseSessionFenceRequest :=
  MkRelease (sf_SessionRef fence) (FenceID fence) (OwnerID fence) (claimToken fence).

Definition ValidateControlMutationGuard (guard : MutationGuard) : result SessionError unit :=
  if negb (Authority guard =? MutationAuthorityControl) then Ok tt else
  let purpose := trim_space (Purpose guard) in
  if purpose =? "" then
    Fail (FenceConflictError "" "control mutation requires a non-empty purpose") else
  if negb (knownControlMutationPurpose purpose) then
    Fail (FenceConflictError "" "control mutation purpose is unknown") else
  let hasFenceID := negb (trim_space (g_FenceID guard) =? "") in
  let hasOwnerID := negb (trim_space (g_OwnerID guard) =? "") in
  let hasFence := negb (Z.eqb (g_FencingToken guard) 0) in
  if (hasFenceID || hasOwnerID || hasFence) && (negb hasFenceID || negb hasOwnerID || negb hasFence) then
    Fail (FenceConflictError "" "control mutation fence requires fence_id, owner_id, and fencing_token") else
  if negb hasFenceID && controlMutationRequiresFence purpose then
    Fail (FenceConflictError "" "control mutation purpose requires a matching runtime fence") else
  Ok tt.

Section Claims.
(** [hex.EncodeToString(sha256.Sum256([]byte(s)))] *)
Variable sha256_hex : string -> string.

Definition sessionFenceClaimDigest (token : string) : string := sha256_hex (trim_space token).

Definition sessionFenceClaimMatches (digest token : string) : bool :=
  let digest := trim_space digest in
  let token := trim_space token in
  if (digest =? "") || (token =? "") then false
  else digest =? sessionFenceClaimDigest token.

Definition SessionFenceHasClaim (fence : SessionFence) : bool :=
  sessionFenceClaimMatches (claimDigest fence) (claimToken fence).

(** [value] is the hexadecimal token drawn by [rand.Read], [None] its error. *)
Definition NewSessionFenceClaim (value : option string) (fence : SessionFence)
  : result SessionError SessionFence :=
  if negb (SessionFenceIsHeld fence) || (trim_space (OwnerID fence) =? "")
     || Z.eqb (FencingToken fence) 0 then
    Fail (FenceConflictError (SessionID (NormalizeSessionRef (sf_SessionRef fence)))
            "complete fence identity is required before creating a claim")
  else
    match value with
    | None => Fail ErrRandom
    | Some token =>
      Ok (MkSessionFence (sf_SessionRef fence) (FenceID fence) (OwnerID fence)
            (FencingToken fence) (AcquiredAt fence) token (sessionFenceClaimDigest token))
    end.

Definition SessionFenceReleaseAuthorized (active : SessionFence) (req : ReleaseSessionFenceRequest) : bool :=
  bool_decide (NormalizeSessionRef (sf_SessionRef active) = NormalizeSessionRef (rel_SessionRef req))
  && negb (trim_space (FenceID active) =? "")
  && (FenceID active =? trim_space (rel_FenceID req))
  && (OwnerID active =? trim_space (rel_OwnerID req))
  && sessionFenceClaimMatches (claimDigest active) (rel_claimToken req).

Definition sessionFenceMutationAuthorized (active : SessionFence) (guard : MutationGuard) : bool :=
  (FenceID active =? trim_space (g_FenceID guard))
  && (OwnerID active =? trim_space (g_OwnerID guard))
  && Z.eqb (FencingToken active) (g_FencingToken guard)
  && sessionFenceClaimMatches (claimDigest active) (g_claimToken guard).

(** The shared decision of [AuthorizeMutationGuard]. *)
Definition AuthorizeMutationGuard (active : SessionFence) (guard : MutationGuard)
  : result SessionError unit :=
  let sid := SessionID (NormalizeSessionRef (sf_SessionRef active)) in
  let conflict detail := Fail (FenceConflictError sid detail) in
  if Authority guard =? MutationAuthorityControl then
    match ValidateControlMutationGuard guard with
    | Fail (FenceConflictError _ detail) => Fail (FenceConflictError sid detail)
    | Fail e => Fail e
    | Ok _ =>
      if negb (trim_space (g_FenceID guard) =? "") then
        if negb (SessionFenceIsHeld active) then conflict "control mutation fence is absent"
        else if negb (sessionFenceMutationAuthorized active guard) then
          conflict "control mutation fencing token is stale"
        else Ok tt
      else if SessionFenceIsHeld active && negb (ControlMutationMayOverlapRuntimeFence (Purpose guard)) then
        conflict "active execution fence requires a matching control fence"
      else Ok tt
    end
  else if negb (Authority guard =? MutationAuthorityRuntime) then
    if FenceID active =? "" then Ok tt
    else conflict "active fence requires explicit mutation authority"
  else if negb (SessionFenceIsHeld active) then conflict "runtime fence is absent"
  else if negb (sessionFenceMutationAuthorized active guard) then
    conflict "runtime fencing token is stale"
  else Ok tt.

(** *** Lemmas *)

Lemma claim_without_token digest : sessionFenceClaimMatches digest "" = false.
Proof. unfold sessionFenceClaimMatches. simpl. by rewrite orb_true_r. Qed.

Lemma claim_matches_inv digest token :
  sessionFenceClaimMatches digest token = true ->
  trim_space digest = sessionFenceClaimDigest (trim_space token) /\ trim_space token <> "".
Proof.
  unfold sessionFenceClaimMatches. destruct (_ || _) eqn:E; [done|].
  apply orb_false_iff in E as [_ E]. intros H%String.eqb_eq.
  apply String.eqb_neq in E. auto.
Qed.

Lemma held_spec f : SessionFenceIsHeld f = true <-> trim_space (FenceID f) <> "".
Proof. unfold SessionFenceIsHeld. rewrite negb_true_iff, String.eqb_neq. done. Qed.

Lemma mutation_authorized_inv active guard :
  sessionFenceMutationAuthorized active guard = true ->
  FenceID active = trim_space (g_FenceID guard) /\
  OwnerID active = trim_space (g_OwnerID guard) /\
  FencingToken active = g_FencingToken guard /\
  sessionFenceClaimMatches (claimDigest active) (g_claimToken guard) = true.
Proof.
  unfold sessionFenceMutationAuthorized. rewrite !andb_true_iff, !String.eqb_eq, Z.eqb_eq. tauto.
Qed.

(** While a fence is held, an accepted guard either names a purpose that may
    overlap it, under the Control authority and with no fence of its own, or
    it is the fence's own identity and claim. *)
Lemma authorize_held_inv active guard :
  SessionFenceIsHeld active = true ->
  AuthorizeMutationGuard active guard = Ok tt ->
  (Authority guard = MutationAuthorityControl /\ trim_space (g_FenceID guard) = "" /\
   ControlMutationMayOverlapRuntimeFence (Purpose guard) = true) \/
  sessionFenceMutationAuthorized active guard = true.
Proof.
  intros Hheld. unfold AuthorizeMutationGuard. rewrite Hheld. simpl.
  destruct (Authority guard =? MutationAuthorityControl) eqn:Hc.
  - destruct (ValidateControlMutationGuard guard) as [[]|[]]; try done.
    destruct (trim_space (g_FenceID guard) =? "") eqn:Hf; simpl.
    + destruct (ControlMutationMayOverlapRuntimeFence _) eqn:Ho; [|done].
      apply String.eqb_eq in Hc, Hf. auto.
    + destruct (sessionFenceMutationAuthorized active guard); auto; done.
  - destruct (Authority guard =? MutationAuthorityRuntime); simpl.
    + destruct (sessionFenceMutationAuthorized active guard); auto; done.
    + apply held_spec in Hheld. destruct (FenceID active =? "") eqn:E; [|done].
      apply String.eqb_eq in E. rewrite E in Hheld. done.
Qed.
End Claims.

(** ** Properties *)

(** C29: while a Session's execution fence is held, a mutation is accepted only
    when it is a Control mutation of an explicitly overlapping purpose that
    carries no fence, or when it presents the fence's identifier, owner,
    fencing token and a bearer claim whose SHA-256 digest is the stored one. *)
Theorem fence_exclusive (sha256_hex : string -> string) (active : SessionFence) (guard : MutationGuard)
  (Hheld : SessionFenceIsHeld active = true)
  (Hok : AuthorizeMutationGuard sha256_hex active guard = Ok tt) :
  (Authority guard = MutationAuthorityControl /\ trim_space (g_FenceID guard) = "" /\
   ControlMutationMayOverlapRuntimeFence (Purpose guard) = true) \/
  (trim_space (g_FenceID guard) = FenceID active /\ trim_space (g_OwnerID guard) = OwnerID active /\
   g_FencingToken guard = FencingToken active /\
   sha256_hex (trim_space (g_claimToken guard)) = trim_space (claimDigest active)).
Proof.
  destruct (authorize_held_inv _ _ _ Hheld Hok) as [H|H]; [by left|right].
  apply mutation_authorized_inv in H as (-> & -> & -> & Hm).
  apply claim_matches_inv in Hm as [-> _].
  unfold sessionFenceClaimDigest. by rewrite trim_space_idem.
Qed.

Definition witness_fence : SessionFence :=
  MkSessionFence (MkSessionRef "caelis" "u" "s1" "ws") "f1" "host" 7 0 "" "digest".

Lemma fence_exclusive_witness :
  let guard := MkGuard MutationAuthorityRuntime "" "f1" "host" 7 "token" in
  AuthorizeMutationGuard (fun _ => "digest") witness_fence guard = Ok tt /\
  ((Authority guard = MutationAuthorityControl /\ trim_space (g_FenceID guard) = "" /\
    ControlMutationMayOverlapRuntimeFence (Purpose guard) = true) \/
   (trim_space (g_FenceID guard) = FenceID witness_fence /\
    trim_space (g_OwnerID guard) = OwnerID witness_fence /\
    g_FencingToken guard = FencingToken witness_fence /\
    (fun _ => "digest") (trim_space (g_claimToken guard)) = trim_space (claimDigest witness_fence))).
Proof.
  split; [vm_compute; reflexivity|].
  apply (fence_exclusive (fun _ => "digest") witness_fence); vm_compute; reflexivity.
Defined.

(** what a read-only observer of a fence learns is powerless: neither a
    Runtime guard nor an exclusive Control guard nor a release request built
    from an observed fence is accepted by any Session, whatever fence it holds. *)
Theorem observed_fence_powerless (sha256_hex : string -> string) (active seen : SessionFence) (purpose : string) :
  let observed := SessionFenceForObservation seen in
  is_ok (AuthorizeMutationGuard sha256_hex active (RuntimeFenceGuard observed)) = false /\
  (is_ok (AuthorizeMutationGuard sha256_hex active
            (ControlMutationGuardWithRuntimeFence (RuntimeFenceGuard observed) purpose)) = false \/
   trim_space (FenceID seen) = "") /\
  SessionFenceReleaseAuthorized sha256_hex active (SessionFenceReleaseRequest observed) = false.
Proof.
  assert (Hno : forall g, g_claimToken g = "" -> sessionFenceMutationAuthorized sha256_hex active g = false).
  { intros g Hg. unfold sessionFenceMutationAuthorized.
    by rewrite Hg, claim_without_token, andb_false_r. }
  cbv zeta. split; [|split].
  - unfold AuthorizeMutationGuard. rewrite Hno by done. simpl. by case_match.
  - unfold AuthorizeMutationGuard. rewrite Hno by done. simpl.
    destruct (ValidateControlMutationGuard _) as [[]|[]]; simpl; try (by left).
    autorewrite with gostr. destruct (String.eqb_spec (trim_space (FenceID seen)) ""); [by right|left].
    simpl. by case_match.
  - unfold SessionFenceReleaseAuthorized. simpl. by rewrite claim_without_token, andb_false_r.
Qed.

(** the fence returned by an acquisition is worth exactly what the store
    keeps of it: against the stored fence (digest only) it authorises Runtime
    mutations, Control hand-offs that retain it, and its own release. *)
Theorem acquired_fence_authorises (sha256_hex : string -> string) (fence claimed : SessionFence) (token : string)
  (Hnew : NewSessionFenceClaim sha256_hex (Some token) fence = Ok claimed)
  (Hid : trim_space (FenceID fence) = FenceID fence)
  (Howner : trim_space (OwnerID fence) = OwnerID fence)
  (Htok : trim_space token <> "")
  (Hdig : trim_space (sha256_hex (trim_space token)) = sha256_hex (trim_space token))
  (Hne : sha256_hex (trim_space token) <> "") :
  let stored := SessionFenceForStorage claimed in
  AuthorizeMutationGuard sha256_hex stored (RuntimeFenceGuard claimed) = Ok tt /\
  AuthorizeMutationGuard sha256_hex stored
    (ControlMutationGuardWithRuntimeFence (RuntimeFenceGuard claimed) ControlMutationPurposeHandoff) = Ok tt /\
  SessionFenceReleaseAuthorized sha256_hex stored (SessionFenceReleaseRequest claimed) = true.
Proof.
  unfold NewSessionFenceClaim in Hnew.
  destruct (negb (SessionFenceIsHeld fence)) eqn:Hh; [done|].
  destruct (trim_space (OwnerID fence) =? "") eqn:Ho; [done|].
  destruct (Z.eqb (FencingToken fence) 0) eqn:Ht; [done|]. simpl in Hnew. injection Hnew as <-.
  apply negb_false_iff in Hh.
  assert (Hm : sessionFenceClaimMatches sha256_hex (sessionFenceClaimDigest sha256_hex token) token = true).
  { unfold sessionFenceClaimMatches, sessionFenceClaimDigest. rewrite trim_space_idem, Hdig, String.eqb_refl.
    by destruct (String.eqb_spec (sha256_hex (trim_space token)) ""), (String.eqb_spec (trim_space token) ""). }
  pose proof Hh as Hh'. unfold SessionFenceIsHeld in Hh'. apply negb_true_iff in Hh'.
  cbv zeta; split; [|split].
  - unfold AuthorizeMutationGuard, sessionFenceMutationAuthorized, SessionFenceIsHeld in *. simpl.
    by rewrite Hh', Hid, Howner, !String.eqb_refl, Z.eqb_refl, Hm.
  - unfold AuthorizeMutationGuard, ValidateControlMutationGuard, sessionFenceMutationAuthorized, SessionFenceIsHeld in *. simpl.
    by rewrite !trim_space_idem, Ho, Ht, Hh', Hid, Howner, !String.eqb_refl, Z.eqb_refl, Hm.
  - unfold SessionFenceReleaseAuthorized. simpl.
    by rewrite bool_decide_true, Hh', Hid, Howner, !String.eqb_refl, Hm.
Qed.

Lemma acquired_fence_authorises_witness :
  let fence := MkSessionFence (MkSessionRef "caelis" "u" "s1" "ws") "f1" "host" 7 0 "" "" in
  exists claimed, NewSessionFenceClaim (fun _ => "d") (Some "ab") fence = Ok claimed /\
  let stored := SessionFenceForStorage claimed in
  AuthorizeMutationGuard (fun _ => "d") stored (RuntimeFenceGuard claimed) = Ok tt /\
  AuthorizeMutationGuard (fun _ => "d") stored
    (ControlMutationGuardWithRuntimeFence (RuntimeFenceGuard claimed) ControlMutationPurposeHandoff) = Ok tt /\
  SessionFenceReleaseAuthorized (fun _ => "d") stored (SessionFenceReleaseRequest claimed) = true.
Proof.
  eexists. split; [vm_compute; reflexivity|].
  apply (acquired_fence_authorises (fun _ => "d")
           (MkSessionFence (MkSessionRef "caelis" "u" "s1" "ws") "f1" "host" 7 0 "" "") _ "ab");
    vm_compute; (reflexivity || discriminate).
Defined.
