(* ===== verification/Execution.v ===== *)
(** * The execution journal

    Models [agent-sdk/session/execution.go]: the durable records of Runs,
    Turns, Steps, tool executions and approval pause tokens, the validators
    that decide which record may follow which, the self-contained check of one
    journal entry, and the recovery of tool executions that were interrupted
    without a terminal record.

    Parameters of the section: SHA-256 in hexadecimal, [json.Marshal] of a
    string slice, [jsonvalue.Validate] (reflection over a value followed by
    [json.Marshal]) per record type, and the approval payload of a pause
    token, which this file only copies. *)

From Stdlib Require Import ZArith Lia String.
From stdpp Require Import base list strings option gmap.
From S2P Require Import Prelude GoStrings GoText Fence.

Local Open Scope string_scope.

(** ** Records *)

Definition ToolExecutionSchemaVersion : Z := 1.
Definition ExecutionJournalSchemaVersion : Z := 1.

Definition JournalKindRun : string := "run".
Definition JournalKindTurn : string := "turn".
Definition JournalKindStep : string := "step".
Definition JournalKindToolExecution : string := "tool_execution".
Definition JournalKindPauseToken : string := "pause_token".

Definition PauseTokenPending : string := "pending".
Definition PauseTokenResolved : string := "resolved".
Definition PauseTokenCancelled : string := "cancelled".

Definition ExecutionPrepared : string := "prepared".
Definition ExecutionStarted : string := "started".
Definition ExecutionWaitingApproval : string := "waiting_approval".
Definition ExecutionSucceeded : string := "succeeded".
Definition ExecutionFailed : string := "failed".
Definition ExecutionCancelRequested : string := "cancel_requested".
Definition ExecutionCancelled : string := "cancelled".
Definition ExecutionInterrupted : string := "interrupted".
Definition ExecutionUnknownOutcome : string := "unknown_outcome".

Definition ToolExecutionPrepared : string := "prepared".
Definition ToolExecutionApproved : string := "approved".
Definition ToolExecutionStarted : string := "started".
Definition ToolExecutionSucceeded : string := "succeeded".
Definition ToolExecutionFailed : string := "failed".
Definition ToolExecutionCancelRequested : string := "cancel_requested".
Definition ToolExecutionCancelled : string := "cancelled".
Definition ToolExecutionUnknownOutcome : string := "unknown_outcome".

Record ExecutionRecord : Type := MkExecution {
  er_Schema : Z; er_Kind : string; er_SessionID : string; er_RunID : string;
  er_TurnID : string; er_StepID : string; er_Identity : string; er_Revision : Z;
  er_Status : string; er_RecoveredFrom : string; er_Error : string; er_Reason : string;
  er_CreatedAt : Z; er_UpdatedAt : Z;
}.

Record ExecutionKey : Type := MkKey {
  k_SessionID : string; k_RunID : string; k_TurnID : string; k_StepID : string; k_ToolCallID : string;
}.

(** [model.ToolCall] and [tool.Binding]. *)
Record ToolCall : Type := MkToolCall { tc_ID : string; tc_Name : string; tc_Args : string; tc_ThoughtSignature : string }.
Record Binding : Type := MkBinding { b_Name : string; b_Identity : string; b_Version : string }.

Record ToolExecution : Type := MkToolExecution {
  te_ModelCall : option ToolCall; te_Binding : option Binding;
  te_Schema : Z; te_Key : ExecutionKey; te_Identity : string; te_Revision : Z;
  te_ToolName : string; te_EffectClass : string; te_Status : string; te_RecoveredFrom : string;
  te_Input : string; te_Result : string; te_Error : string; te_Reason : string;
  te_CreatedAt : Z; te_UpdatedAt : Z;
}.

Record PauseToken {Approval Metadata : Type} : Type := MkPauseToken {
  pk_Schema : Z; pk_TokenID : string; pk_SessionID : string; pk_RunID : string; pk_TurnID : string;
  pk_ToolCallID : string; pk_ToolName : string; pk_ItemID : string; pk_Revision : Z; pk_Status : string;
  pk_Input : string; pk_Approval : option Approval; pk_Presentation : option Approval;
  pk_Metadata : Metadata; pk_Outcome : string; pk_OptionID : string; pk_Approved : bool;
  pk_Reason : string; pk_ReviewText : string; pk_CreatedAt : Z; pk_UpdatedAt : Z;
}.
Arguments PauseToken : clear implicits.

Record ExecutionJournalEntry {Approval Metadata : Type} : Type := MkEntry {
  je_Schema : Z; je_Kind : string; je_Execution : option ExecutionRecord;
  je_ToolExecution : option ToolExecution; je_PauseToken : option (PauseToken Approval Metadata);
}.
Arguments ExecutionJournalEntry : clear implicits.

(** The typed errors of the file, and the untyped ones by their text. *)
Inductive ExecutionError : Type :=
| ExecutionTransitionError (identity kind from to detail : string)
| ToolExecutionTransitionError (identity from to detail : string)
| PauseTokenTransitionError (tokenID from to detail : string)
| JournalError (detail : string).

Section Journal.
Context {Approval Metadata : Type}.
Variable sha256_hex : string -> string.
Variable json_strings : list string -> string.
Variable CloneProtocolApproval : Approval -> Approval.
Variable approval_has_context : Approval -> bool.
Variable ValidateRecord : ExecutionRecord -> option string.
Variable ValidateTool : ToolExecution -> option string.
Variable ValidateEntry : ExecutionJournalEntry Approval Metadata -> option string.

#[local] Abbreviation PauseToken := (PauseToken Approval Metadata).
#[local] Abbreviation ExecutionJournalEntry := (ExecutionJournalEntry Approval Metadata).

(** ** Normalisation *)

Definition NormalizeExecutionKey (k : ExecutionKey) : ExecutionKey :=
  MkKey (trim_space (k_SessionID k)) (trim_space (k_RunID k)) (trim_space (k_TurnID k))
    (trim_space (k_StepID k)) (trim_space (k_ToolCallID k)).

Definition ExecutionIdentity (key : ExecutionKey) : string :=
  let k := NormalizeExecutionKey key in
  sha256_hex (json_strings [k_SessionID k; k_RunID k; k_TurnID k; k_StepID k; k_ToolCallID k]).

Definition NormalizeToolExecution (t : ToolExecution) : ToolExecution :=
  let key := NormalizeExecutionKey (te_Key t) in
  let identity := trim_space (te_Identity t) in
  MkToolExecution (te_ModelCall t) (te_Binding t) (te_Schema t) key
    (if identity =? "" then ExecutionIdentity key else identity) (te_Revision t)
    (trim_space (te_ToolName t)) (trim_space (te_EffectClass t)) (trim_space (te_Status t))
    (trim_space (te_RecoveredFrom t)) (te_Input t) (te_Result t) (trim_space (te_Error t))
    (trim_space (te_Reason t)) (te_CreatedAt t) (te_UpdatedAt t).

Definition ExecutionRecordIdentity (r : ExecutionRecord) : string :=
  sha256_hex (json_strings [trim_space (er_Kind r); trim_space (er_SessionID r); trim_space (er_RunID r);
                            trim_space (er_TurnID r); trim_space (er_StepID r)]).

Definition NormalizeExecutionRecord (r : ExecutionRecord) : ExecutionRecord :=
  let identity := trim_space (er_Identity r) in
  MkExecution (er_Schema r) (trim_space (er_Kind r)) (trim_space (er_SessionID r)) (trim_space (er_RunID r))
    (trim_space (er_TurnID r)) (trim_space (er_StepID r))
    (if identity =? "" then ExecutionRecordIdentity r else identity) (er_Revision r)
    (trim_space (er_Status r)) (trim_space (er_RecoveredFrom r)) (trim_space (er_Error r))
    (trim_space (er_Reason r)) (er_CreatedAt r) (er_UpdatedAt r).

(** An approval with a permission context keeps the tool fields untrimmed. *)
Definition ClonePauseToken (t : PauseToken) : PauseToken :=
  let raw := match pk_Approval t with Some a => approval_has_context a | None => false end in
  MkPauseToken _ _ (pk_Schema t) (trim_space (pk_TokenID t)) (trim_space (pk_SessionID t)) (trim_space (pk_RunID t))
    (trim_space (pk_TurnID t))
    (if raw then pk_ToolCallID t else trim_space (pk_ToolCallID t))
    (if raw then pk_ToolName t else trim_space (pk_ToolName t))
    (trim_space (pk_ItemID t)) (pk_Revision t) (trim_space (pk_Status t)) (pk_Input t)
    (CloneProtocolApproval <$> pk_Approval t) (CloneProtocolApproval <$> pk_Presentation t) (pk_Metadata t)
    (trim_space (pk_Outcome t)) (trim_space (pk_OptionID t)) (pk_Approved t)
    (trim_space (pk_Reason t)) (trim_space (pk_ReviewText t)) (pk_CreatedAt t) (pk_UpdatedAt t).

Definition CloneExecutionJournalEntry (e : ExecutionJournalEntry) : ExecutionJournalEntry :=
  MkEntry _ _ (je_Schema e) (trim_space (je_Kind e)) (NormalizeExecutionRecord <$> je_Execution e)
    (NormalizeToolExecution <$> je_ToolExecution e) (ClonePauseToken <$> je_PauseToken e).

(** ** Transitions *)

Definition ValidatePauseTokenTransition (previous next : PauseToken) : result ExecutionError unit :=
  let p := ClonePauseToken previous in
  let n := ClonePauseToken next in
  let invalid detail := Fail (PauseTokenTransitionError (pk_TokenID n) (pk_Status p) (pk_Status n) detail) in
  if negb (pk_Schema n =? ExecutionJournalSchemaVersion)%Z || (pk_TokenID n =? "") || (pk_SessionID n =? "")
     || (pk_RunID n =? "") || (pk_TurnID n =? "")
  then invalid "invalid schema or identity" else
  if pk_Status p =? "" then
    if (pk_Status n =? PauseTokenPending) && (pk_Revision n =? 1)%Z then Ok tt
    else invalid "first record must be pending revision 1"
  else
  if negb (pk_TokenID p =? pk_TokenID n) || negb (pk_SessionID p =? pk_SessionID n)
     || negb (pk_RunID p =? pk_RunID n) || negb (pk_ItemID p =? pk_ItemID n)
     || negb (pk_Revision n =? u64_succ (pk_Revision p))%Z
  then invalid "identity or revision mismatch" else
  if negb (pk_Status p =? PauseTokenPending)
     || (negb (pk_Status n =? PauseTokenResolved) && negb (pk_Status n =? PauseTokenCancelled))
  then invalid "transition is not allowed" else Ok tt.

(** The [allowed] tables: the listed successors of a status. *)
Definition execution_allowed (status : string) : list string :=
  if status =? ExecutionPrepared then [ExecutionStarted; ExecutionFailed; ExecutionCancelled]
  else if status =? ExecutionStarted then
    [ExecutionWaitingApproval; ExecutionSucceeded; ExecutionFailed; ExecutionCancelRequested;
     ExecutionCancelled; ExecutionInterrupted; ExecutionUnknownOutcome]
  else if status =? ExecutionWaitingApproval then
    [ExecutionStarted; ExecutionFailed; ExecutionCancelRequested; ExecutionCancelled; ExecutionInterrupted]
  else if status =? ExecutionCancelRequested then
    [ExecutionCancelled; ExecutionSucceeded; ExecutionFailed; ExecutionInterrupted; ExecutionUnknownOutcome]
  else [].

Definition tool_allowed (status : string) : list string :=
  if status =? ToolExecutionPrepared then [ToolExecutionApproved; ToolExecutionFailed; ToolExecutionCancelled]
  else if status =? ToolExecutionApproved then [ToolExecutionStarted; ToolExecutionCancelled]
  else if status =? ToolExecutionStarted then
    [ToolExecutionSucceeded; ToolExecutionFailed; ToolExecutionCancelRequested; ToolExecutionUnknownOutcome]
  else if status =? ToolExecutionCancelRequested then
    [ToolExecutionCancelled; ToolExecutionSucceeded; ToolExecutionFailed; ToolExecutionUnknownOutcome]
  else [].

(** The [switch next.Kind] of the transition: the detail of a refused key. *)
Definition executionKeyProblem (n : ExecutionRecord) : option string :=
  if er_Kind n =? JournalKindRun then
    if negb (er_TurnID n =? "") || negb (er_StepID n =? "")
    then Some "run record cannot carry turn or step identity" else None
  else if er_Kind n =? JournalKindTurn then
    if (er_TurnID n =? "") || negb (er_StepID n =? "")
    then Some "turn record requires turn identity and no step identity" else None
  else if er_Kind n =? JournalKindStep then
    if (er_TurnID n =? "") || (er_StepID n =? "")
    then Some "step record requires turn and step identity" else None
  else Some "unsupported execution kind".

Definition ValidateExecutionTransition (previous next : ExecutionRecord) : result ExecutionError unit :=
  let p := NormalizeExecutionRecord previous in
  let n := NormalizeExecutionRecord next in
  let invalid detail :=
    Fail (ExecutionTransitionError (er_Identity n) (er_Kind n) (er_Status p) (er_Status n) detail) in
  if negb (er_Schema n =? ExecutionJournalSchemaVersion)%Z || (er_SessionID n =? "") || (er_RunID n =? "")
  then invalid "invalid schema or execution key" else
  match executionKeyProblem n with
  | Some detail => invalid detail
  | None =>
    match ValidateRecord n with
    | Some detail => invalid detail
    | None =>
      if er_Status p =? "" then
        if (er_Status n =? ExecutionPrepared) && (er_Revision n =? 1)%Z then Ok tt
        else invalid "first record must be prepared revision 1"
      else
      if negb (er_Identity p =? er_Identity n) || negb (er_Kind p =? er_Kind n)
         || negb (er_Revision n =? u64_succ (er_Revision p))%Z
      then invalid "identity, kind, or revision mismatch" else
      if negb (one_of (execution_allowed (er_Status p)) (er_Status n))
      then invalid "transition is not allowed" else Ok tt
    end
  end.

Definition toolKeyInvalid (n : ToolExecution) : bool :=
  (k_SessionID (te_Key n) =? "") || (k_RunID (te_Key n) =? "") || (k_TurnID (te_Key n) =? "")
  || (k_ToolCallID (te_Key n) =? "").

Definition ValidateToolExecutionTransition (previous next : ToolExecution) : result ExecutionError unit :=
  let n := NormalizeToolExecution next in
  let p := NormalizeToolExecution previous in
  let invalid from detail := Fail (ToolExecutionTransitionError (te_Identity n) from (te_Status n) detail) in
  if negb (te_Schema n =? ToolExecutionSchemaVersion)%Z || (te_Identity n =? "") || toolKeyInvalid n
  then invalid (te_Status p) "invalid schema or execution key" else
  match ValidateTool n with
  | Some detail => invalid (te_Status p) detail
  | None =>
    if te_Status p =? "" then
      if (te_Status n =? ToolExecutionPrepared) && (te_Revision n =? 1)%Z then Ok tt
      else invalid "" "first record must be prepared revision 1"
    else
    if negb (te_Identity p =? te_Identity n) || negb (te_Revision n =? u64_succ (te_Revision p))%Z
    then invalid (te_Status p) "identity or revision mismatch" else
    if negb (one_of (tool_allowed (te_Status p)) (te_Status n))
    then invalid (te_Status p) "transition is not allowed" else Ok tt
  end.

(** ** One journal entry *)

Definition validExecutionStatus (status : string) : bool :=
  one_of [ExecutionPrepared; ExecutionStarted; ExecutionWaitingApproval; ExecutionSucceeded; ExecutionFailed;
          ExecutionCancelRequested; ExecutionCancelled; ExecutionInterrupted; ExecutionUnknownOutcome] status.

Definition validToolExecutionStatus (status : string) : bool :=
  one_of [ToolExecutionPrepared; ToolExecutionApproved; ToolExecutionStarted; ToolExecutionSucceeded;
          ToolExecutionFailed; ToolExecutionCancelRequested; ToolExecutionCancelled;
          ToolExecutionUnknownOutcome] status.

Definition validateExecutionRecordKey (r : ExecutionRecord) : result ExecutionError unit :=
  if negb (er_Schema r =? ExecutionJournalSchemaVersion)%Z || (er_SessionID r =? "") || (er_RunID r =? "")
  then Fail (JournalError "invalid execution record schema or key") else
  if (er_Kind r =? JournalKindRun) && (er_TurnID r =? "") && (er_StepID r =? "")
     || (er_Kind r =? JournalKindTurn) && negb (er_TurnID r =? "") && (er_StepID r =? "")
     || (er_Kind r =? JournalKindStep) && negb (er_TurnID r =? "") && negb (er_StepID r =? "")
  then Ok tt else Fail (JournalError "invalid execution key").

(** The three blocks of [ValidateExecutionJournalEntry], in order. *)
Definition validateEntryExecution (kind : string) (execution : ExecutionRecord) : result ExecutionError unit :=
  let r := NormalizeExecutionRecord execution in
  if negb (er_Kind r =? kind) && negb (kind =? JournalKindToolExecution)
  then Fail (JournalError "execution journal kind does not match record kind") else
  if negb (er_Identity r =? ExecutionRecordIdentity r) || (er_Revision r =? 0)%Z
     || negb (validExecutionStatus (er_Status r))
  then Fail (JournalError "invalid execution identity, revision, or status") else
  validateExecutionRecordKey r.

Definition validateEntryTool (kind : string) (execution : option ExecutionRecord) (tool : ToolExecution)
  : result ExecutionError unit :=
  let r := NormalizeToolExecution tool in
  if negb (kind =? JournalKindToolExecution) || negb (te_Schema r =? ToolExecutionSchemaVersion)%Z
     || negb (te_Identity r =? ExecutionIdentity (te_Key r)) || (te_Revision r =? 0)%Z
     || negb (validToolExecutionStatus (te_Status r))
  then Fail (JournalError "invalid tool execution schema, identity, revision, or status") else
  if toolKeyInvalid r then Fail (JournalError "invalid tool execution key") else
  match execution with
  | None => Ok tt
  | Some e =>
    let step := NormalizeExecutionRecord e in
    if negb (er_Kind step =? JournalKindStep) || negb (er_SessionID step =? k_SessionID (te_Key r))
       || negb (er_RunID step =? k_RunID (te_Key r)) || negb (er_TurnID step =? k_TurnID (te_Key r))
       || negb (er_StepID step =? k_StepID (te_Key r))
    then Fail (JournalError "tool execution does not match step record") else Ok tt
  end.

Definition validateEntryToken (kind : string) (token : PauseToken) : result ExecutionError unit :=
  let t := ClonePauseToken token in
  if negb (kind =? JournalKindPauseToken) || negb (pk_Schema t =? ExecutionJournalSchemaVersion)%Z
     || (pk_TokenID t =? "") || (pk_SessionID t =? "") || (pk_RunID t =? "") || (pk_TurnID t =? "")
     || (pk_Revision t =? 0)%Z
  then Fail (JournalError "invalid pause token schema or identity") else
  if pk_Status t =? PauseTokenPending then
    if negb (pk_Revision t =? 1)%Z then Fail (JournalError "pending pause token must be revision 1") else Ok tt
  else if one_of [PauseTokenResolved; PauseTokenCancelled] (pk_Status t) then
    if negb (pk_Revision t =? 2)%Z then Fail (JournalError "terminal pause token must be revision 2") else Ok tt
  else Fail (JournalError "invalid pause token status").

Definition when_some {A : Type} (f : A -> result ExecutionError unit) (o : option A) : result ExecutionError unit :=
  match o with Some a => f a | None => Ok tt end.

Definition ValidateExecutionJournalEntry (entry : ExecutionJournalEntry) : result ExecutionError unit :=
  let e := CloneExecutionJournalEntry entry in
  if negb (je_Schema e =? ExecutionJournalSchemaVersion)%Z
  then Fail (JournalError "unsupported execution journal schema") else
  match je_Execution e, je_ToolExecution e, je_PauseToken e with
  | None, None, None => Fail (JournalError "execution journal entry is empty")
  | execution, tool, token =>
    let! _ := when_some (validateEntryExecution (je_Kind e)) execution in
    let! _ := when_some (validateEntryTool (je_Kind e) execution) tool in
    let! _ := when_some (validateEntryToken (je_Kind e)) token in
    match ValidateEntry e with Some detail => Fail (JournalError detail) | None => Ok tt end
  end.

(** ** Recovery *)

(** The scan keeps, per identity, the record of the highest revision (the
    first among equals), and identities in order of first appearance. *)
Record recovery : Type := MkRecovery { rv_latest : gmap string ToolExecution; rv_order : list string }.

Definition recoveryStep (st : recovery) (journal : option ExecutionJournalEntry) : recovery :=
  match journal ≫= je_ToolExecution with
  | None => st
  | Some tool =>
    let r := NormalizeToolExecution tool in
    let prior := rv_latest st !! te_Identity r in
    MkRecovery
      (match prior with
       | Some p => if (te_Revision p <? te_Revision r)%Z then <[te_Identity r := r]> (rv_latest st) else rv_latest st
       | None => <[te_Identity r := r]> (rv_latest st)
       end)
      (match prior with Some _ => rv_order st | None => (rv_order st ++ [te_Identity r])%list end)
  end.

Definition recoveryReason : string := "runtime recovered without a durable terminal result".

Definition recoverRecord (r : ToolExecution) : ToolExecution :=
  MkToolExecution (te_ModelCall r) (te_Binding r) (te_Schema r) (te_Key r) (te_Identity r)
    (u64_succ (te_Revision r)) (te_ToolName r) (te_EffectClass r) ToolExecutionUnknownOutcome (te_Status r)
    (te_Input r) (te_Result r) (te_Error r) recoveryReason (te_CreatedAt r) (te_UpdatedAt r).

Definition incomplete (r : ToolExecution) : bool :=
  (te_Status r =? ToolExecutionStarted) || (te_Status r =? ToolExecutionCancelRequested).

Definition scanExecutions (journals : list (option ExecutionJournalEntry)) : recovery :=
  fold_left recoveryStep journals (MkRecovery ∅ []).

(** Journals are those of the events: [None] is a nil event or one without a
    journal. *)
Definition RecoverIncompleteToolExecutions (journals : list (option ExecutionJournalEntry)) : list ToolExecution :=
  let st := scanExecutions journals in
  omap (fun identity =>
          r ← rv_latest st !! identity;
          if incomplete r then Some (recoverRecord r) else None) (rv_order st).

(** ** Accepted histories *)

(** Each record is accepted as the successor of the one before it; the first
    one follows [previous], the zero record for a new execution. *)
Fixpoint history_ok {R : Type} (validate : R -> R -> result ExecutionError unit) (previous : R) (records : list R)
  : bool :=
  match records with
  | [] => true
  | next :: rest => is_ok (validate previous next) && history_ok validate next rest
  end.

Definition no_execution : ExecutionRecord := MkExecution 0 "" "" "" "" "" "" 0 "" "" "" "" 0 0.
Definition no_tool : ToolExecution :=
  MkToolExecution None None 0 (MkKey "" "" "" "" "") "" 0 "" "" "" "" "" "" "" "" 0 0.

Definition tool_status (t : ToolExecution) : string := te_Status (NormalizeToolExecution t).
Definition tool_identity (t : ToolExecution) : string := te_Identity (NormalizeToolExecution t).
Definition execution_status (r : ExecutionRecord) : string := er_Status (NormalizeExecutionRecord r).
Definition execution_identity (r : ExecutionRecord) : string := er_Identity (NormalizeExecutionRecord r).

Definition execution_terminal (status : string) : bool :=
  one_of [ExecutionSucceeded; ExecutionFailed; ExecutionCancelled; ExecutionInterrupted; ExecutionUnknownOutcome]
    status.

(** How far a tool execution has come; every allowed transition goes up. *)
Definition tool_rank (status : string) : nat :=
  if status =? ToolExecutionPrepared then 1
  else if status =? ToolExecutionApproved then 2
  else if status =? ToolExecutionStarted then 3
  else if status =? ToolExecutionCancelRequested then 4
  else 5.

Lemma is_ok_spec {E} (m : result E unit) : is_ok m = true <-> m = Ok tt.
Proof. destruct m as [[]|]; simpl; split; congruence. Qed.

Ltac bool_cases :=
  repeat match goal with
  | H : (if ?b then _ else _) = Ok _ |- _ => destruct b eqn:?; try discriminate H
  | H : match ?b with _ => _ end = Ok _ |- _ => destruct b eqn:?; try discriminate H
  | H : negb _ = false |- _ => apply negb_false_iff in H
  | H : negb _ = true |- _ => apply negb_true_iff in H
  | H : (_ || _) = false |- _ => apply orb_false_iff in H as [? ?]
  | H : (_ && _) = true |- _ => apply andb_true_iff in H as [? ?]
  | H : (_ =? _)%Z = true |- _ => apply Z.eqb_eq in H
  | H : (_ =? _)%Z = false |- _ => apply Z.eqb_neq in H
  | H : (_ =? _)%string = true |- _ => apply String.eqb_eq in H
  | H : (_ =? _)%string = false |- _ => apply String.eqb_neq in H
  | H : one_of _ _ = true |- _ => apply one_of_spec in H
  end.

(** What acceptance says of two consecutive records of each kind. *)
Lemma tool_transition_inv p n : ValidateToolExecutionTransition p n = Ok tt ->
  toolKeyInvalid (NormalizeToolExecution n) = false /\
  (tool_status p = "" /\ tool_status n = ToolExecutionPrepared /\ te_Revision n = 1
   \/ tool_status p <> "" /\ tool_identity n = tool_identity p /\ te_Revision n = u64_succ (te_Revision p)
      /\ tool_status n ∈ tool_allowed (tool_status p)).
Proof.
  unfold ValidateToolExecutionTransition. cbv zeta. intros H. bool_cases; (split; [done|]).
  - left. done.
  - right. done.
Qed.

Lemma execution_transition_inv p n : ValidateExecutionTransition p n = Ok tt ->
  executionKeyProblem (NormalizeExecutionRecord n) = None /\
  (execution_status p = "" /\ execution_status n = ExecutionPrepared /\ er_Revision n = 1
   \/ execution_status p <> "" /\ execution_identity n = execution_identity p
      /\ trim_space (er_Kind n) = trim_space (er_Kind p) /\ er_Revision n = u64_succ (er_Revision p)
      /\ execution_status n ∈ execution_allowed (execution_status p)).
Proof.
  unfold ValidateExecutionTransition. cbv zeta. intros H. bool_cases; (split; [done|]).
  - left. done.
  - right. done.
Qed.

Lemma tool_allowed_rank s s' : s' ∈ tool_allowed s -> (tool_rank s < tool_rank s' <= 5)%nat /\ s' <> "".
Proof.
  unfold tool_allowed.
  repeat match goal with |- context [if ?b then _ else _] => destruct b eqn:?; bool_cases; subst end;
    rewrite ?elem_of_cons, ?elem_of_nil; intros H; decompose [or] H; subst; try done;
    split; try done; vm_compute; lia.
Qed.

Lemma execution_allowed_nonempty s s' : s' ∈ execution_allowed s -> s' <> "" /\ execution_terminal s = false.
Proof.
  unfold execution_allowed.
  repeat match goal with |- context [if ?b then _ else _] => destruct b eqn:?; bool_cases; subst end;
    rewrite ?elem_of_cons, ?elem_of_nil; intros H; decompose [or] H; subst; done.
Qed.

Lemma history_lookup {R} (validate : R -> R -> result ExecutionError unit) prev l i a b :
  history_ok validate prev l = true -> (prev :: l) !! i = Some a -> l !! i = Some b -> validate a b = Ok tt.
Proof.
  revert prev l. induction i as [|i IH]; intros prev [|n l]; simpl; try done; intros [H1 H2]%andb_true_iff Ha Hb.
  - simplify_eq. by apply is_ok_spec.
  - eapply IH; eauto.
Qed.

Lemma lookup_pred {R} (l : list R) i b : l !! S i = Some b -> exists a, l !! i = Some a.
Proof. intros H%lookup_lt_Some. apply lookup_lt_is_Some_2. lia. Qed.

Lemma history_first {R} (validate : R -> R -> result ExecutionError unit) prev l b :
  history_ok validate prev l = true -> l !! 0%nat = Some b -> validate prev b = Ok tt.
Proof. intros H Hb. by eapply (history_lookup _ _ _ 0). Qed.

Lemma history_next {R} (validate : R -> R -> result ExecutionError unit) prev l i b :
  history_ok validate prev l = true -> l !! S i = Some b ->
  exists a, l !! i = Some a /\ validate a b = Ok tt.
Proof.
  intros H Hb. destruct (lookup_pred _ _ _ Hb) as [a Ha].
  exists a. split; [done|]. by eapply (history_lookup _ _ _ (S i)).
Qed.

Lemma u64_succ_u64 x : u64_succ (u64 x) = u64 (x + 1).
Proof. unfold u64_succ, u64. by rewrite Z.add_mod_idemp_l. Qed.

Section ToolHistory.
Context (l : list ToolExecution) (Hl : history_ok ValidateToolExecutionTransition no_tool l = true).

Lemma tool_first b : l !! 0%nat = Some b -> tool_status b = ToolExecutionPrepared /\ te_Revision b = 1.
Proof. intros Hb. by destruct (tool_transition_inv _ _ (history_first _ _ _ _ Hl Hb)) as [_ [(_&?&?)|(?&_)]]. Qed.

Lemma tool_status_set i b : l !! i = Some b -> tool_status b <> "".
Proof.
  destruct i as [|i]; intros Hb.
  - by destruct (tool_first _ Hb) as [-> _].
  - destruct (history_next _ _ _ _ _ Hl Hb) as (a&_&Ht).
    destruct (tool_transition_inv _ _ Ht) as [_ [(_&->&_)|(_&_&_&H)]]; [done|]. by destruct (tool_allowed_rank _ _ H).
Qed.

Lemma tool_next i a b : l !! i = Some a -> l !! S i = Some b ->
  tool_identity b = tool_identity a /\ te_Revision b = u64_succ (te_Revision a)
  /\ tool_status b ∈ tool_allowed (tool_status a).
Proof.
  intros Ha Hb. destruct (history_next _ _ _ _ _ Hl Hb) as (a'&Ha'&Ht). simplify_eq.
  destruct (tool_transition_inv _ _ Ht) as [_ [(H&_)|(_&?)]]; [|done].
  by apply tool_status_set in Ha.
Qed.

Lemma tool_rank_index i b : l !! i = Some b -> (S i <= tool_rank (tool_status b) <= 5)%nat.
Proof.
  revert b. induction i as [|i IH]; intros b Hb.
  - destruct (tool_first _ Hb) as [-> _]. vm_compute. lia.
  - destruct (lookup_pred _ _ _ Hb) as [a Ha]. destruct (tool_next _ _ _ Ha Hb) as (_&_&H).
    apply tool_allowed_rank in H. specialize (IH _ Ha). lia.
Qed.

Lemma tool_rank_mono i j a b : (i < j)%nat -> l !! i = Some a -> l !! j = Some b ->
  (tool_rank (tool_status a) < tool_rank (tool_status b))%nat.
Proof.
  revert b. induction j as [|j IH]; intros b Hij Ha Hb; [lia|].
  destruct (lookup_pred _ _ _ Hb) as [c Hc]. destruct (tool_next _ _ _ Hc Hb) as (_&_&H).
  apply tool_allowed_rank in H. destruct (decide (i = j)) as [->|]; [simplify_eq; lia|].
  specialize (IH _ ltac:(lia) Ha Hc). lia.
Qed.

Lemma tool_revision_index i b : l !! i = Some b -> te_Revision b = u64 (Z.of_nat i + 1).
Proof.
  revert b. induction i as [|i IH]; intros b Hb.
  - destruct (tool_first _ Hb) as [_ ->]. done.
  - destruct (lookup_pred _ _ _ Hb) as [a Ha]. destruct (tool_next _ _ _ Ha Hb) as (_&->&_).
    rewrite (IH _ Ha), u64_succ_u64. f_equal. lia.
Qed.

Lemma tool_identity_index i a b : l !! 0%nat = Some a -> l !! i = Some b -> tool_identity b = tool_identity a.
Proof.
  revert b. induction i as [|i IH]; intros b Ha Hb; [naive_solver|].
  destruct (lookup_pred _ _ _ Hb) as [c Hc]. destruct (tool_next _ _ _ Hc Hb) as (->&_&_). auto.
Qed.
End ToolHistory.

Lemma tool_allowed_started s : ToolExecutionStarted ∈ tool_allowed s -> s = ToolExecutionApproved.
Proof.
  unfold tool_allowed.
  repeat match goal with |- context [if ?b then _ else _] => destruct b eqn:?; bool_cases; subst end;
    rewrite ?elem_of_cons, ?elem_of_nil; intros H; decompose [or] H; done.
Qed.

(** C30: A tool execution runs at most once.  Take any sequence of tool
    execution records in which [ValidateToolExecutionTransition] accepts each
    record after the one before it, starting from no record.  It has at most
    five records, all of the identity of the first, numbered 1, 2, 3, ...;
    at most one of them is [started], and that one comes directly after an
    [approved] record. *)
Theorem tool_execution_at_most_once (l : list ToolExecution) :
  history_ok ValidateToolExecutionTransition no_tool l = true ->
  (length l <= 5)%nat
  /\ (forall i t, l !! i = Some t ->
        te_Revision t = Z.of_nat i + 1 /\ (forall f, l !! 0%nat = Some f -> tool_identity t = tool_identity f))
  /\ (forall i j t u, l !! i = Some t -> l !! j = Some u ->
        tool_status t = ToolExecutionStarted -> tool_status u = ToolExecutionStarted -> i = j)
  /\ (forall i t, l !! i = Some t -> tool_status t = ToolExecutionStarted ->
        exists j a, i = S j /\ l !! j = Some a /\ tool_status a = ToolExecutionApproved).
Proof.
  intros Hl. split_and!.
  - destruct (decide (length l <= 5)%nat); [done|]. exfalso.
    destruct (lookup_lt_is_Some_2 l 5) as [b Hb]; [lia|]. apply (tool_rank_index _ Hl) in Hb. lia.
  - intros i t Ht. split; [|intros f Hf; by eapply tool_identity_index].
    rewrite (tool_revision_index _ Hl _ _ Ht). apply u64_small.
    apply (tool_rank_index _ Hl) in Ht. unfold is_u64, u64_modulus. lia.
  - intros i j t u Ht Hu Hs Hs'. destruct (Nat.lt_trichotomy i j) as [H|[H|H]]; [|done|];
      eapply (tool_rank_mono _ Hl) in H; eauto; rewrite Hs, Hs' in H; lia.
  - intros [|j] t Ht Hs.
    + destruct (tool_first _ Hl _ Ht) as [E _]. rewrite Hs in E. discriminate.
    + destruct (lookup_pred _ _ _ Ht) as [a Ha]. exists j, a. split_and!; [done|done|].
      destruct (tool_next _ Hl _ _ _ Ha Ht) as (_&_&H). rewrite Hs in H. by apply tool_allowed_started.
Qed.

Section ExecutionHistory.
Context (l : list ExecutionRecord) (Hl : history_ok ValidateExecutionTransition no_execution l = true).

Lemma execution_first b : l !! 0%nat = Some b -> execution_status b = ExecutionPrepared /\ er_Revision b = 1.
Proof. intros Hb. by destruct (execution_transition_inv _ _ (history_first _ _ _ _ Hl Hb)) as [_ [(_&?&?)|(?&_)]]. Qed.

Lemma execution_status_set i b : l !! i = Some b -> execution_status b <> "".
Proof.
  destruct i as [|i]; intros Hb.
  - by destruct (execution_first _ Hb) as [-> _].
  - destruct (history_next _ _ _ _ _ Hl Hb) as (a&_&Ht).
    destruct (execution_transition_inv _ _ Ht) as [_ [(_&->&_)|(_&_&_&_&H)]]; [done|].
    by destruct (execution_allowed_nonempty _ _ H).
Qed.

Lemma execution_next i a b : l !! i = Some a -> l !! S i = Some b ->
  execution_identity b = execution_identity a /\ trim_space (er_Kind b) = trim_space (er_Kind a)
  /\ er_Revision b = u64_succ (er_Revision a) /\ execution_status b ∈ execution_allowed (execution_status a).
Proof.
  intros Ha Hb. destruct (history_next _ _ _ _ _ Hl Hb) as (a'&Ha'&Ht). simplify_eq.
  destruct (execution_transition_inv _ _ Ht) as [_ [(H&_)|(_&?)]]; [|done].
  by apply execution_status_set in Ha.
Qed.

Lemma execution_index i b : l !! i = Some b ->
  er_Revision b = u64 (Z.of_nat i + 1) /\
  (forall f, l !! 0%nat = Some f ->
     execution_identity b = execution_identity f /\ trim_space (er_Kind b) = trim_space (er_Kind f)).
Proof.
  revert b. induction i as [|i IH]; intros b Hb.
  - destruct (execution_first _ Hb) as [_ ->]. naive_solver.
  - destruct (lookup_pred _ _ _ Hb) as [a Ha]. destruct (execution_next _ _ _ Ha Hb) as (->&->&->&_).
    destruct (IH _ Ha) as [-> Hf]. split; [|done]. rewrite u64_succ_u64. f_equal. lia.
Qed.

Lemma execution_key_index i b : l !! i = Some b -> executionKeyProblem (NormalizeExecutionRecord b) = None.
Proof.
  destruct i as [|i]; intros Hb.
  - by destruct (execution_transition_inv _ _ (history_first _ _ _ _ Hl Hb)).
  - destruct (history_next _ _ _ _ _ Hl Hb) as (a&_&Ht). by destruct (execution_transition_inv _ _ Ht).
Qed.
End ExecutionHistory.

Lemma cancel_requested_next s : s ∈ execution_allowed ExecutionCancelRequested -> execution_terminal s = true.
Proof.
  change (s ∈ [ExecutionCancelled; ExecutionSucceeded; ExecutionFailed; ExecutionInterrupted; ExecutionUnknownOutcome] ->
          execution_terminal s = true).
  rewrite !elem_of_cons, elem_of_nil. intros H. decompose [or] H; subst; done.
Qed.

(** The lifecycle of a Run, Turn or Step.  In any sequence of records that
    [ValidateExecutionTransition] accepts one after the other, starting from
    no record: revisions count 1, 2, 3, ... (modulo 2^64), identity and kind
    never change, every record's key fits its kind, a record in a terminal
    status is the last one, and the record after a cancellation request is
    terminal, so a cancelled execution never resumes. *)
Theorem execution_lifecycle (l : list ExecutionRecord) :
  history_ok ValidateExecutionTransition no_execution l = true ->
  forall i r, l !! i = Some r ->
    er_Revision r = u64 (Z.of_nat i + 1)
    /\ executionKeyProblem (NormalizeExecutionRecord r) = None
    /\ (forall f, l !! 0%nat = Some f ->
          execution_identity r = execution_identity f /\ trim_space (er_Kind r) = trim_space (er_Kind f))
    /\ (execution_terminal (execution_status r) = true -> length l = S i)
    /\ (execution_status r = ExecutionCancelRequested ->
          forall n, l !! S i = Some n -> execution_terminal (execution_status n) = true /\ length l = S (S i)).
Proof.
  intros Hl.
  assert (Hlast : forall i r, l !! i = Some r -> execution_terminal (execution_status r) = true -> length l = S i).
  { intros i r Hr Ht. destruct (l !! S i) as [n|] eqn:Hn.
    - destruct (execution_next _ Hl _ _ _ Hr Hn) as (_&_&_&H).
      apply execution_allowed_nonempty in H as [_ H]. congruence.
    - apply lookup_ge_None in Hn. apply lookup_lt_Some in Hr. lia. }
  intros i r Hr. destruct (execution_index _ Hl _ _ Hr) as [H1 H2].
  split_and!; [done|by eapply execution_key_index|done|by eauto|].
  intros Hc n Hn. destruct (execution_next _ Hl _ _ _ Hr Hn) as (_&_&_&H). rewrite Hc in H.
  apply cancel_requested_next in H. eauto.
Qed.

(** ** Pause tokens *)

Definition token_status (t : PauseToken) : string := pk_Status (ClonePauseToken t).

Lemma token_transition_inv p n : ValidatePauseTokenTransition p n = Ok tt ->
  (pk_Schema n = ExecutionJournalSchemaVersion /\ trim_space (pk_TokenID n) <> "" /\ trim_space (pk_SessionID n) <> ""
   /\ trim_space (pk_RunID n) <> "" /\ trim_space (pk_TurnID n) <> "")
  /\ (token_status p = "" /\ token_status n = PauseTokenPending /\ pk_Revision n = 1
      \/ token_status p = PauseTokenPending /\ pk_Revision n = u64_succ (pk_Revision p)
         /\ trim_space (pk_TokenID n) = trim_space (pk_TokenID p)
         /\ trim_space (pk_SessionID n) = trim_space (pk_SessionID p)
         /\ trim_space (pk_RunID n) = trim_space (pk_RunID p)
         /\ token_status n ∈ [PauseTokenResolved; PauseTokenCancelled]).
Proof.
  unfold ValidatePauseTokenTransition. cbv zeta. intros H. bool_cases; simpl in *; (split; [done|]).
  - by left.
  - right. split_and!; try done. unfold token_status. simpl.
    match goal with H : (_ && _) = false |- _ => apply andb_false_iff in H as [H|H] end; bool_cases; set_solver.
Qed.

(** An approval pause is decided once.  A sequence of pause tokens that
    [ValidatePauseTokenTransition] accepts from a token without a status is
    empty, or one pending token of revision 1, or that token followed by one
    resolved or cancelled token of revision 2 of the same token, Session and
    Run; and each of them passes the pause-token part of
    [ValidateExecutionJournalEntry]. *)
Theorem pause_token_decided_once (zero : PauseToken) (l : list PauseToken) :
  token_status zero = "" -> history_ok ValidatePauseTokenTransition zero l = true ->
  Forall (fun t => validateEntryToken JournalKindPauseToken t = Ok tt) l
  /\ match l with
     | [] => True
     | [t] => token_status t = PauseTokenPending /\ pk_Revision t = 1
     | [t; u] => token_status t = PauseTokenPending /\ pk_Revision t = 1 /\ pk_Revision u = 2
                 /\ token_status u ∈ [PauseTokenResolved; PauseTokenCancelled]
                 /\ trim_space (pk_TokenID u) = trim_space (pk_TokenID t)
                 /\ trim_space (pk_SessionID u) = trim_space (pk_SessionID t)
                 /\ trim_space (pk_RunID u) = trim_space (pk_RunID t)
     | _ => False
     end.
Proof.
  assert (Hv : forall t, pk_Schema t = ExecutionJournalSchemaVersion /\ trim_space (pk_TokenID t) <> "" /\
     trim_space (pk_SessionID t) <> "" /\ trim_space (pk_RunID t) <> "" /\ trim_space (pk_TurnID t) <> "" ->
     (token_status t = PauseTokenPending /\ pk_Revision t = 1)
     \/ (token_status t ∈ [PauseTokenResolved; PauseTokenCancelled] /\ pk_Revision t = 2) ->
     validateEntryToken JournalKindPauseToken t = Ok tt).
  { unfold token_status, validateEntryToken. cbv zeta. simpl.
    intros t (->&H1&H2&H3&H4) Hs. apply String.eqb_neq in H1, H2, H3, H4. rewrite H1, H2, H3, H4.
    destruct Hs as [[-> ->]|[Hs ->]]; [done|]. rewrite !elem_of_cons, elem_of_nil in Hs.
    destruct Hs as [->|[->|[]]]; done. }
  intros Hz. destruct l as [|t l]; simpl; [done|]. rewrite andb_true_iff, is_ok_spec. intros [H1 Hl].
  apply token_transition_inv in H1 as [Hw [(_&Ht&Hr)|(H&_)]]; [|by rewrite Hz in H].
  destruct l as [|u l]; simpl; [auto 10|]. simpl in Hl. rewrite andb_true_iff, is_ok_spec in Hl. destruct Hl as [H2 Hl].
  apply token_transition_inv in H2 as [Hw' [(H&_)|(_&Hr'&Hi&Hs&Hn&Hu)]]; [by rewrite Ht in H|].
  rewrite Hr in Hr'. destruct l as [|v l]; simpl.
  - split_and!; auto 10.
  - exfalso. simpl in Hl. rewrite andb_true_iff, is_ok_spec in Hl. destruct Hl as [H3 _].
    apply token_transition_inv in H3 as [_ [(H&_)|(H&_)]]; rewrite H in Hu;
      rewrite !elem_of_cons, elem_of_nil in Hu; naive_solver.
Qed.

(** ** Recovery *)

(** The normalised tool executions of a journal, in order. *)
Definition journal_tools (journals : list (option ExecutionJournalEntry)) : list ToolExecution :=
  omap (fun j => NormalizeToolExecution <$> (j ≫= je_ToolExecution)) journals.

(** The record of one identity with the highest revision. *)
Definition newer (identity : string) (acc : option ToolExecution) (t : ToolExecution) : option ToolExecution :=
  if te_Identity t =? identity then
    match acc with
    | Some p => if (te_Revision p <? te_Revision t)%Z then Some t else acc
    | None => Some t
    end
  else acc.

Definition latest (tools : list ToolExecution) (identity : string) : option ToolExecution :=
  fold_left (newer identity) tools None.

Lemma latest_snoc ts t identity : latest (ts ++ [t]) identity = newer identity (latest ts identity) t.
Proof. unfold latest. by rewrite fold_left_app. Qed.

Lemma latest_spec ts identity :
  match latest ts identity with
  | Some p => p ∈ ts /\ te_Identity p = identity
              /\ forall q, q ∈ ts -> te_Identity q = identity -> (te_Revision q <= te_Revision p)%Z
  | None => forall q, q ∈ ts -> te_Identity q <> identity
  end.
Proof.
  induction ts as [|t ts IH] using rev_ind; [intros q; by rewrite elem_of_nil|].
  assert (Hs : forall q, q ∈ (ts ++ [t])%list <-> q ∈ ts \/ q = t) by (intros q; by rewrite elem_of_app, list_elem_of_singleton).
  rewrite latest_snoc. unfold newer. destruct (te_Identity t =? identity) eqn:E; bool_cases.
  - destruct (latest ts identity) as [p|].
    + destruct IH as (Hp&Hi&Hq). destruct (te_Revision p <? te_Revision t)%Z eqn:L.
      * apply Z.ltb_lt in L. split_and!; [rewrite Hs; auto|done|]. intros q [Hin| ->]%Hs Hid; [|lia].
        specialize (Hq q Hin Hid). lia.
      * apply Z.ltb_ge in L. split_and!; [rewrite Hs; auto|done|]. intros q [Hin| ->]%Hs Hid; [auto|lia].
    + split_and!; [rewrite Hs; auto|done|]. intros q [Hin| ->]%Hs Hid; [|lia]. by apply IH in Hin.
  - destruct (latest ts identity) as [p|].
    + destruct IH as (Hp&Hi&Hq). split_and!; [rewrite Hs; auto|done|]. intros q [Hin| ->]%Hs Hid; [auto|done].
    + intros q [Hin| ->]%Hs; auto.
Qed.

Lemma scan_snoc js j : scanExecutions (js ++ [j]) = recoveryStep (scanExecutions js) j.
Proof. unfold scanExecutions. by rewrite fold_left_app. Qed.

Lemma journal_tools_snoc js j :
  journal_tools (js ++ [j]) =
  (journal_tools js ++ match j ≫= je_ToolExecution with Some t => [NormalizeToolExecution t] | None => [] end)%list.
Proof. unfold journal_tools. rewrite omap_app. simpl. by destruct (j ≫= je_ToolExecution). Qed.

Lemma scan_spec js :
  (forall i, rv_latest (scanExecutions js) !! i = latest (journal_tools js) i)
  /\ NoDup (rv_order (scanExecutions js))
  /\ (forall i, i ∈ rv_order (scanExecutions js) <-> is_Some (rv_latest (scanExecutions js) !! i)).
Proof.
  induction js as [|j js IH] using rev_ind.
  - split_and!; [done|constructor|]. intros i. simpl. rewrite lookup_empty, elem_of_nil. split; [done|].
    by intros [? ?].
  - destruct IH as (H1&H2&H3). rewrite scan_snoc, journal_tools_snoc. unfold recoveryStep.
    destruct (j ≫= je_ToolExecution) as [t|]; [|by rewrite app_nil_r].
    cbv zeta. generalize (NormalizeToolExecution t). intros r. simpl. split_and!.
    + intros i. rewrite latest_snoc. unfold newer. rewrite H1. destruct (te_Identity r =? i) eqn:E; bool_cases.
      * subst i. destruct (latest _ _) as [p|] eqn:El; [|by rewrite lookup_insert_eq].
        destruct (_ <? _)%Z; [by rewrite lookup_insert_eq|]. by rewrite H1.
      * destruct (latest (journal_tools js) (te_Identity r)); [destruct (_ <? _)%Z|]; by rewrite ?lookup_insert_ne, ?H1.
    + destruct (rv_latest _ !! te_Identity r) eqn:El; [done|]. apply NoDup_app. split_and!; [done| |apply NoDup_singleton].
      intros i Hi. rewrite H3 in Hi. rewrite list_elem_of_singleton. intros ->. rewrite El in Hi. by destruct Hi.
    + intros i. destruct (rv_latest _ !! te_Identity r) as [p|] eqn:El.
      * rewrite H3. destruct (_ <? _)%Z; [|done].
        destruct (decide (te_Identity r = i)) as [<-|]; [|by rewrite lookup_insert_ne].
        rewrite lookup_insert_eq, El. split; eauto.
      * rewrite elem_of_app, list_elem_of_singleton, H3.
        destruct (decide (te_Identity r = i)) as [<-|]; [rewrite lookup_insert_eq; naive_solver|].
        rewrite lookup_insert_ne by done. naive_solver.
Qed.

Lemma recover_spec js r :
  r ∈ RecoverIncompleteToolExecutions js <->
  exists p, latest (journal_tools js) (te_Identity p) = Some p /\ incomplete p = true /\ r = recoverRecord p.
Proof.
  destruct (scan_spec js) as (H1&H2&H3). unfold RecoverIncompleteToolExecutions. cbv zeta.
  rewrite list_elem_of_omap. split.
  - intros (i&Hi&Hr). apply bind_Some in Hr as (p&Hp&Hr). rewrite H1 in Hp.
    destruct (incomplete p) eqn:Hc; [|done]. simplify_eq.
    pose proof (latest_spec (journal_tools js) i) as Hl. rewrite Hp in Hl. destruct Hl as (_&<-&_). eauto.
  - intros (p&Hp&Hc&->). exists (te_Identity p). rewrite H3, H1, Hp. split; [eauto|]. simpl. by rewrite Hc.
Qed.

(** SHA-256 digests in hexadecimal are non-empty and carry no white space. *)
Definition hex_digests : Prop := forall s, trim_space (sha256_hex s) = sha256_hex s /\ sha256_hex s <> "".

Section Recovery.
Hypothesis Hhex : hex_digests.

Lemma normalize_key_idem k : NormalizeExecutionKey (NormalizeExecutionKey k) = NormalizeExecutionKey k.
Proof. unfold NormalizeExecutionKey. simpl. by rewrite !trim_space_idem. Qed.

Lemma normalize_tool_idem t : NormalizeToolExecution (NormalizeToolExecution t) = NormalizeToolExecution t.
Proof.
  unfold NormalizeToolExecution. cbv zeta. simpl. rewrite normalize_key_idem, !trim_space_idem. f_equal.
  destruct (trim_space (te_Identity t) =? "") eqn:E.
  - unfold ExecutionIdentity. cbv zeta.
    match goal with |- context [sha256_hex ?x] => destruct (Hhex x) as [-> H] end.
    by apply String.eqb_neq in H as ->.
  - by rewrite trim_space_idem, E.
Qed.

Lemma normalize_tool_identity t : te_Identity (NormalizeToolExecution t) <> "".
Proof.
  unfold NormalizeToolExecution. cbv zeta. simpl. destruct (_ =? "") eqn:E; [apply Hhex|by apply String.eqb_neq].
Qed.

Lemma normalize_recover t : let p := NormalizeToolExecution t in
  NormalizeToolExecution (recoverRecord p) = recoverRecord p.
Proof.
  cbv zeta. pose proof (normalize_tool_idem t) as H. revert H. generalize (NormalizeToolExecution t). intros p H.
  unfold NormalizeToolExecution in H. cbv zeta in H. destruct p. injection H. intros.
  unfold NormalizeToolExecution, recoverRecord. simpl in *. f_equal; done.
Qed.

Lemma entry_tool e t : ValidateExecutionJournalEntry e = Ok tt -> je_ToolExecution e = Some t ->
  let p := NormalizeToolExecution t in
  te_Schema p = ToolExecutionSchemaVersion /\ te_Identity p <> "" /\ toolKeyInvalid p = false.
Proof.
  destruct e as [sch kind ex tool tok]. unfold ValidateExecutionJournalEntry. cbv zeta. simpl. intros H ->. simpl in H.
  assert (Hv : exists ex', validateEntryTool (trim_space kind) ex' (NormalizeToolExecution t) = Ok tt).
  { destruct (negb _); [done|]. exists (NormalizeExecutionRecord <$> ex).
    destruct ex, tok; simpl in H;
      repeat match goal with H : result_bind _ _ = Ok _ |- _ => apply result_bind_ok in H as ([]&?&H) end; done. }
  destruct Hv as [ex' Hv]. unfold validateEntryTool in Hv. cbv zeta in Hv. rewrite normalize_tool_idem in Hv.
  bool_cases; split_and!; try done; apply normalize_tool_identity.
Qed.

Lemma journal_tools_valid js p :
  Forall (fun j => forall e, j = Some e -> ValidateExecutionJournalEntry e = Ok tt) js -> p ∈ journal_tools js ->
  NormalizeToolExecution p = p /\ NormalizeToolExecution (recoverRecord p) = recoverRecord p
  /\ te_Schema p = ToolExecutionSchemaVersion /\ te_Identity p <> "" /\ toolKeyInvalid p = false.
Proof.
  intros Hjs (j&Hj&Hp)%list_elem_of_omap. apply fmap_Some in Hp as (t&Ht&->).
  apply bind_Some in Ht as (e&->&Ht). rewrite normalize_tool_idem, normalize_recover.
  rewrite Forall_forall in Hjs. specialize (Hjs _ Hj e eq_refl). split_and!; try done; by eapply entry_tool.
Qed.

Lemma incomplete_recovers p : incomplete p = true -> ToolExecutionUnknownOutcome ∈ tool_allowed (te_Status p).
Proof. unfold incomplete. intros [E|E]%orb_true_iff; bool_cases; rewrite E; rewrite <- one_of_spec; done. Qed.

Lemma recovered_transition p :
  NormalizeToolExecution p = p -> NormalizeToolExecution (recoverRecord p) = recoverRecord p ->
  te_Schema p = ToolExecutionSchemaVersion -> te_Identity p <> "" -> toolKeyInvalid p = false ->
  incomplete p = true -> ValidateTool (recoverRecord p) = None ->
  ValidateToolExecutionTransition p (recoverRecord p) = Ok tt.
Proof.
  intros Hp Hr Hs Hi Hk Hc Hj. unfold ValidateToolExecutionTransition. cbv zeta. rewrite Hp, Hr, Hj.
  apply String.eqb_neq in Hi. simpl. rewrite Hs, Hi. unfold toolKeyInvalid in *. simpl. rewrite Hk. simpl.
  assert ((te_Status p =? "") = false) as ->.
  { apply String.eqb_neq. unfold incomplete in Hc. intros E. by rewrite E in Hc. }
  rewrite String.eqb_refl, Z.eqb_refl. simpl. apply incomplete_recovers, one_of_spec in Hc. by rewrite Hc.
Qed.

(** The entry the runtime appends for a recovered tool execution. *)
Definition tool_entry (t : ToolExecution) : option ExecutionJournalEntry :=
  Some (MkEntry _ _ ExecutionJournalSchemaVersion JournalKindToolExecution None (Some t) None).

Lemma journal_tools_entries js ts :
  Forall (fun t => NormalizeToolExecution t = t) ts ->
  journal_tools (js ++ map tool_entry ts) = (journal_tools js ++ ts)%list.
Proof.
  intros H. unfold journal_tools. rewrite omap_app. f_equal.
  induction H as [|t ts Ht _ IH]; [done|]. cbn. by rewrite Ht, IH.
Qed.

Lemma latest_app ts us i p : latest (ts ++ us) i = Some p -> p ∈ us \/ latest ts i = Some p.
Proof.
  revert p. induction us as [|u us IH] using rev_ind; intros p; [rewrite app_nil_r; auto|].
  rewrite (assoc_L (++)%list), latest_snoc, elem_of_app, list_elem_of_singleton. unfold newer.
  destruct (_ =? _); [destruct (latest (ts ++ us) i) as [q|]; [destruct (_ <? _)%Z|]|]; naive_solver.
Qed.

Lemma omap_keys {A} (key : A -> string) (f : string -> option A) order :
  (forall i a, f i = Some a -> key a = i) -> NoDup order -> NoDup (map key (omap f order)).
Proof.
  intros Hf. induction 1 as [|i order Hi _ IH]; [constructor|]. cbn.
  destruct (f i) as [a|] eqn:Ha; [|done]. cbn. constructor; [|done]. rewrite (Hf _ _ Ha).
  intros (b&Hb&(j&Hj&Hjb)%list_elem_of_omap)%list_elem_of_fmap. apply Hf in Hjb. by subst.
Qed.

Lemma recovered_identities js : NoDup (map te_Identity (RecoverIncompleteToolExecutions js)).
Proof.
  destruct (scan_spec js) as (H1&H2&H3). apply omap_keys; [|done].
  intros i r Hr. apply bind_Some in Hr as (p&Hp&Hr). destruct (incomplete p); [|done]. simplify_eq.
  pose proof (latest_spec (journal_tools js) i) as H. rewrite <- H1, Hp in H. by destruct H as (_&?&_).
Qed.

(** Recovery of interrupted tool executions is exact.  For a journal whose
    entries all passed [ValidateExecutionJournalEntry],
    [RecoverIncompleteToolExecutions] returns at most one record per
    execution; each is the [unknown_outcome] successor of a record that is
    [started] or [cancel_requested] and has the highest revision of its
    execution, and [ValidateToolExecutionTransition] accepts it as the next
    record whenever its value is valid JSON; and no execution whose newest
    record is [started] or [cancel_requested] is missed. *)
Theorem recovery_exact (js : list (option ExecutionJournalEntry)) :
  Forall (fun j => forall e, j = Some e -> ValidateExecutionJournalEntry e = Ok tt) js ->
  NoDup (map te_Identity (RecoverIncompleteToolExecutions js))
  /\ (forall r, r ∈ RecoverIncompleteToolExecutions js ->
        exists p, p ∈ journal_tools js /\ incomplete p = true /\ r = recoverRecord p
          /\ (forall q, q ∈ journal_tools js -> te_Identity q = te_Identity p -> (te_Revision q <= te_Revision p)%Z)
          /\ (ValidateTool r = None -> ValidateToolExecutionTransition p r = Ok tt))
  /\ (forall p, p ∈ journal_tools js -> incomplete p = true ->
        (forall q, q ∈ journal_tools js -> te_Identity q = te_Identity p -> q = p \/ (te_Revision q < te_Revision p)%Z) ->
        recoverRecord p ∈ RecoverIncompleteToolExecutions js).
Proof.
  intros Hjs. split_and!; [apply recovered_identities| |].
  - intros r (p&Hp&Hc&->)%recover_spec. exists p.
    pose proof (latest_spec (journal_tools js) (te_Identity p)) as Hl. rewrite Hp in Hl. destruct Hl as (Hin&_&Hq).
    destruct (journal_tools_valid _ _ Hjs Hin) as (?&?&?&?&?). split_and!; try done.
    intros Hj. by apply recovered_transition.
  - intros p Hin Hc Hq. apply recover_spec. exists p. split_and!; [|done|done].
    pose proof (latest_spec (journal_tools js) (te_Identity p)) as Hl.
    destruct (latest _ _) as [q|]; [|by destruct (Hl p Hin)]. destruct Hl as (Hq1&Hq2&Hq3).
    destruct (Hq q Hq1 Hq2) as [->|Hlt]; [done|]. specialize (Hq3 p Hin eq_refl). lia.
Qed.

(** Recovery settles.  Appending the recovered records to the journal they
    were recovered from leaves nothing to recover, so a second start of the
    runtime does not settle the same execution again. *)
Theorem recovery_settles (js : list (option ExecutionJournalEntry)) :
  Forall (fun j => forall e, j = Some e -> ValidateExecutionJournalEntry e = Ok tt) js ->
  Forall (fun t => 0 <= te_Revision t < u64_modulus - 1) (journal_tools js) ->
  RecoverIncompleteToolExecutions (js ++ map tool_entry (RecoverIncompleteToolExecutions js)) = [].
Proof.
  intros Hjs Hrev. set (rs := RecoverIncompleteToolExecutions js). rewrite Forall_forall in Hrev.
  apply elem_of_nil_inv. intros r (p&Hp&Hc&->)%recover_spec.
  assert (Hrs : forall t, t ∈ rs -> exists q, latest (journal_tools js) (te_Identity q) = Some q /\ q ∈ journal_tools js
                                   /\ t = recoverRecord q).
  { intros t (q&Hq&_&->)%recover_spec. exists q. split_and!; try done.
    pose proof (latest_spec (journal_tools js) (te_Identity q)) as Hl. rewrite Hq in Hl. by destruct Hl. }
  rewrite journal_tools_entries in Hp.
  2: { apply Forall_forall. intros t (q&_&Hq&->)%Hrs. by destruct (journal_tools_valid _ _ Hjs Hq) as (_&?&_). }
  destruct (latest_app _ _ _ _ Hp) as [Hin|Hlat]; [by destruct (Hrs _ Hin) as (q&_&_&->)|].
  pose proof (latest_spec (journal_tools js ++ rs) (te_Identity p)) as Hl. rewrite Hp in Hl.
  destruct Hl as (_&_&Hmax). assert (Hr : recoverRecord p ∈ rs) by (apply recover_spec; eauto).
  specialize (Hmax (recoverRecord p)). rewrite elem_of_app in Hmax. specialize (Hmax (or_intror Hr) eq_refl).
  pose proof (latest_spec (journal_tools js) (te_Identity p)) as Hl. rewrite Hlat in Hl.
  destruct Hl as (Hin&_&_). simpl in Hmax. rewrite u64_succ_small in Hmax by auto. lia.
Qed.
End Recovery.
End Journal.

(** ** The theorems on concrete journals *)

Definition w_sha (s : string) : string := "d".
Definition w_json (l : list string) : string := String.concat "," l.
Definition w_tool (status : string) (revision : Z) : ToolExecution :=
  MkToolExecution None None 1 (MkKey "s1" "r1" "t1" "p1" "call-1") "" revision "Bash" "write" status "" "" "" "" "" 0 0.
Definition w_run (status : string) (revision : Z) : ExecutionRecord :=
  MkExecution 1 "run" "s1" "r1" "" "" "" revision status "" "" "" 0 0.
Definition w_token (status : string) (revision : Z) : PauseToken unit unit :=
  MkPauseToken _ _ 1 "tok" "s1" "r1" "t1" "call-1" "Bash" "" revision status "" None None tt "" "" false "" "" 0 0.

Lemma tool_execution_at_most_once_witness :
  let l := [w_tool "prepared" 1; w_tool "approved" 2; w_tool "started" 3; w_tool "succeeded" 4] in
  history_ok (ValidateToolExecutionTransition w_sha w_json (fun _ => None)) no_tool l = true /\
  exists j a, 2%nat = S j /\ l !! j = Some a /\ tool_status w_sha w_json a = ToolExecutionApproved.
Proof.
  split; [vm_compute; reflexivity|].
  refine (proj2 (proj2 (proj2 (tool_execution_at_most_once w_sha w_json (fun _ => None)
    [w_tool "prepared" 1; w_tool "approved" 2; w_tool "started" 3; w_tool "succeeded" 4] _))) 2%nat _ eq_refl _);
    vm_compute; reflexivity.
Defined.

Lemma execution_lifecycle_witness :
  let l := [w_run "prepared" 1; w_run "started" 2; w_run "waiting_approval" 3; w_run "started" 4;
            w_run "cancel_requested" 5; w_run "succeeded" 6] in
  history_ok (ValidateExecutionTransition w_sha w_json (fun _ => None)) no_execution l = true /\
  length l = 6%nat.
Proof.
  split; [vm_compute; reflexivity|].
  refine (proj2 (proj2 (proj2 (proj2 (proj2 (execution_lifecycle w_sha w_json (fun _ => None)
    [w_run "prepared" 1; w_run "started" 2; w_run "waiting_approval" 3; w_run "started" 4;
     w_run "cancel_requested" 5; w_run "succeeded" 6] _ 4%nat _ eq_refl)))) _ _ eq_refl));
    vm_compute; reflexivity.
Defined.

Lemma pause_token_decided_once_witness :
  history_ok (ValidatePauseTokenTransition id (fun _ => false)) (w_token "" 0)
    [w_token "pending" 1; w_token "resolved" 2] = true /\
  Forall (fun t => validateEntryToken id (fun _ => false) JournalKindPauseToken t = Ok tt)
    [w_token "pending" 1; w_token "resolved" 2].
Proof.
  split; [vm_compute; reflexivity|].
  refine (proj1 (pause_token_decided_once id (fun _ => false) (w_token "" 0) _ _ _)); vm_compute; reflexivity.
Defined.

Definition w_journal : list (option (ExecutionJournalEntry unit unit)) :=
  [tool_entry (w_tool "prepared" 1); None; tool_entry (w_tool "approved" 2); tool_entry (w_tool "started" 3)].

Lemma w_hex : hex_digests w_sha.
Proof. intros s. split; [reflexivity|discriminate]. Defined.

Lemma w_journal_valid :
  Forall (fun j => forall e, j = Some e ->
    ValidateExecutionJournalEntry w_sha w_json id (fun _ => false) (fun _ => None) e = Ok tt) w_journal.
Proof. repeat constructor; intros e He; inversion He; vm_compute; reflexivity. Defined.

Lemma recovery_exact_witness :
  NoDup (map te_Identity (RecoverIncompleteToolExecutions w_sha w_json w_journal)) /\
  map te_Status (RecoverIncompleteToolExecutions w_sha w_json w_journal) = [ToolExecutionUnknownOutcome].
Proof.
  split; [|vm_compute; reflexivity].
  exact (proj1 (recovery_exact w_sha w_json id (fun _ => false) (fun _ => None) (fun _ => None) w_hex
                  w_journal w_journal_valid)).
Defined.

Lemma recovery_settles_witness :
  RecoverIncompleteToolExecutions w_sha w_json
    (w_journal ++ map tool_entry (RecoverIncompleteToolExecutions w_sha w_json w_journal)) = [].
Proof.
  apply (recovery_settles w_sha w_json id (fun _ => false) (fun _ => None) (fun _ => None) w_hex w_journal w_journal_valid).
  apply (bool_decide_eq_true_1 _). vm_compute. reflexivity.
Defined.
