(* ===== verification/Events.v ===== *)
(** * Session events

    Models the envelope of [agent-sdk/session/event.go] and the functions of
    [event_visibility.go], [event_page.go] and [clone.go] that stores apply to
    event slices.  The identity, sequence, visibility, notice and lifecycle
    fields are concrete.  The remaining payload of an event (actor, scope,
    message, tool, plan, journal, protocol, metadata) is a type [B], and the
    functions of the session package that normalise it are the operations of
    the class [EventCodec]; what stores rely on is the class [CodecLaws]. *)

From Stdlib Require Import ZArith Lia String Sorted.
From stdpp Require Import base list strings option gmap.
From S2P Require Import Prelude GoStrings Fence.

Local Open Scope string_scope.

Record EventNotice : Type := MkNotice {
  n_Level : string;
  n_Text : string;
  n_Kind : string;
}.

Record EventLifecycle : Type := MkLifecycle {
  l_Status : string;
  l_Reason : string;
}.

Record Event {B : Type} : Type := MkEvent {
  ev_ID : string;
  ev_IdempotencyKey : string;
  ev_SessionID : string;
  ev_Seq : Z;
  ev_Schema : Z;
  ev_Type : string;
  ev_Visibility : string;
  ev_Time : Z;
  ev_ApprovalRequestID : string;
  ev_MessageID : string;
  ev_Notice : option EventNotice;
  ev_Lifecycle : option EventLifecycle;
  ev_Text : string;
  ev_Body : B;
}.
Arguments Event : clear implicits.

Global Instance EventNotice_eq_dec : EqDecision EventNotice.
Proof. solve_decision. Defined.
Global Instance EventLifecycle_eq_dec : EqDecision EventLifecycle.
Proof. solve_decision. Defined.
Global Instance Event_eq_dec {B} `{EqDecision B} : EqDecision (Event B).
Proof. solve_decision. Defined.

(** Event types and visibilities (string types in the source). *)
Definition EventTypeUser : string := "user".
Definition EventTypeAssistant : string := "assistant".
Definition EventTypeCompact : string := "compact".
Definition EventTypeLifecycle : string := "lifecycle".
Definition EventTypeContext : string := "context".
Definition EventTypeCustom : string := "custom".

Definition VisibilityCanonical : string := "canonical".
Definition VisibilityUIOnly : string := "ui_only".
Definition VisibilityOverlay : string := "overlay".
Definition VisibilityMirror : string := "mirror".
Definition VisibilityJournal : string := "journal".

(** The zero [time.Time]; times are nanoseconds since that instant. *)
Definition zero_time : Z := 0.

Section Envelope.
Context {B : Type}.
Implicit Types e : Event B.

(** *** Field assignments *)
Definition set_SessionID (v : string) e : Event B :=
  MkEvent B (ev_ID e) (ev_IdempotencyKey e) v (ev_Seq e) (ev_Schema e) (ev_Type e) (ev_Visibility e)
    (ev_Time e) (ev_ApprovalRequestID e) (ev_MessageID e) (ev_Notice e) (ev_Lifecycle e) (ev_Text e) (ev_Body e).
Definition set_ID (v : string) e : Event B :=
  MkEvent B v (ev_IdempotencyKey e) (ev_SessionID e) (ev_Seq e) (ev_Schema e) (ev_Type e) (ev_Visibility e)
    (ev_Time e) (ev_ApprovalRequestID e) (ev_MessageID e) (ev_Notice e) (ev_Lifecycle e) (ev_Text e) (ev_Body e).
Definition set_Seq (v : Z) e : Event B :=
  MkEvent B (ev_ID e) (ev_IdempotencyKey e) (ev_SessionID e) v (ev_Schema e) (ev_Type e) (ev_Visibility e)
    (ev_Time e) (ev_ApprovalRequestID e) (ev_MessageID e) (ev_Notice e) (ev_Lifecycle e) (ev_Text e) (ev_Body e).
Definition set_Time (v : Z) e : Event B :=
  MkEvent B (ev_ID e) (ev_IdempotencyKey e) (ev_SessionID e) (ev_Seq e) (ev_Schema e) (ev_Type e) (ev_Visibility e)
    v (ev_ApprovalRequestID e) (ev_MessageID e) (ev_Notice e) (ev_Lifecycle e) (ev_Text e) (ev_Body e).
Definition set_Type (v : string) e : Event B :=
  MkEvent B (ev_ID e) (ev_IdempotencyKey e) (ev_SessionID e) (ev_Seq e) (ev_Schema e) v (ev_Visibility e)
    (ev_Time e) (ev_ApprovalRequestID e) (ev_MessageID e) (ev_Notice e) (ev_Lifecycle e) (ev_Text e) (ev_Body e).
Definition set_Visibility (v : string) e : Event B :=
  MkEvent B (ev_ID e) (ev_IdempotencyKey e) (ev_SessionID e) (ev_Seq e) (ev_Schema e) (ev_Type e) v
    (ev_Time e) (ev_ApprovalRequestID e) (ev_MessageID e) (ev_Notice e) (ev_Lifecycle e) (ev_Text e) (ev_Body e).
Definition set_Text (v : string) e : Event B :=
  MkEvent B (ev_ID e) (ev_IdempotencyKey e) (ev_SessionID e) (ev_Seq e) (ev_Schema e) (ev_Type e) (ev_Visibility e)
    (ev_Time e) (ev_ApprovalRequestID e) (ev_MessageID e) (ev_Notice e) (ev_Lifecycle e) v (ev_Body e).

(** *** Visibility classes ([event.go], [event_visibility.go]) *)

(** [IsNotice]: the second result of [NoticeOf].  Lower-casing the level does
    not change whether it is empty. *)
Definition IsNotice e : bool :=
  match ev_Notice e with
  | Some n => negb (trim_space (n_Level n) =? "") && negb (trim_space (n_Text n) =? "")
  | None => false
  end.

Definition IsUIOnly e : bool := ev_Visibility e =? VisibilityUIOnly.
Definition IsOverlay e : bool := ev_Visibility e =? VisibilityOverlay.
Definition IsMirror e : bool := ev_Visibility e =? VisibilityMirror.
Definition IsJournal e : bool := ev_Visibility e =? VisibilityJournal.

(** A nil event is transient. *)
Definition IsTransient e : bool := IsUIOnly e || IsOverlay e || IsNotice e.

Definition IsCanonicalHistoryEvent e : bool :=
  negb (IsTransient e || IsMirror e || IsJournal e).

Definition IsInvocationVisibleEvent e : bool :=
  negb (IsUIOnly e || IsOverlay e || IsNotice e || IsMirror e || IsJournal e).

(** The fields [sameIdempotentEvent] and [appendTransactionDigest] clear. *)
Definition erase_identity e : Event B :=
  set_Text "" (set_Time zero_time (set_Seq 0 (set_ID "" (set_SessionID "" e)))).
End Envelope.

(** ** The payload interface *)

(** The functions of the session package that read or rewrite the payload. *)
Class EventCodec (B : Type) : Type := {
  codec_eq_dec :: EqDecision B;
  (** [reflect.DeepEqual] on payloads is decided by [codec_eq_dec]. *)
  CloneEvent : Event B -> Event B;                          (* clone.go *)
  CanonicalizeEvent : Event B -> Event B;                   (* event.go *)
  stampCurrentEventSchemas : Event B -> Event B;            (* schema_migration.go *)
  MigrateEvent : Event B -> result SessionError (Event B);  (* schema_migration.go *)
  EventTypeOf : Event B -> string;                          (* event_type.go *)
  ValidateDurableCoreEvent : Event B -> result SessionError unit; (* event_validation.go *)
  GeneratedSessionTitle : Event B -> string;                (* append_prepare.go *)
  HasProtocolPermission : Event B -> bool;                  (* ProtocolPermissionOf(e) != nil *)
  IsClientReplayEvent : Event B -> bool;                    (* event_visibility.go *)
  (** [appendTransactionDigest]: SHA-256 of the JSON of the mutation digest and
      of the canonical events with their identity erased. *)
  EventsDigest : string -> list (Event B) -> result SessionError string;
}.

(** What stores rely on: copying an event trims its three identifiers and
    keeps its sequence, time, visibility, notice, lifecycle and approval
    identity; a copy of a copy is the copy. *)
Class CodecLaws (B : Type) {C : EventCodec B} : Prop := {
  clone_ID (e : Event B) : ev_ID (CloneEvent e) = trim_space (ev_ID e);
  clone_Key (e : Event B) : ev_IdempotencyKey (CloneEvent e) = trim_space (ev_IdempotencyKey e);
  clone_SessionID (e : Event B) : ev_SessionID (CloneEvent e) = trim_space (ev_SessionID e);
  clone_Seq (e : Event B) : ev_Seq (CloneEvent e) = ev_Seq e;
  clone_Time (e : Event B) : ev_Time (CloneEvent e) = ev_Time e;
  clone_Visibility (e : Event B) : ev_Visibility (CloneEvent e) = ev_Visibility e;
  clone_Transient (e : Event B) : IsTransient (CloneEvent e) = IsTransient e;
  clone_Approval (e : Event B) : ev_ApprovalRequestID (CloneEvent e) = ev_ApprovalRequestID e;
  clone_Lifecycle (e : Event B) : is_Some (ev_Lifecycle (CloneEvent e)) <-> is_Some (ev_Lifecycle e);
  clone_Permission (e : Event B) : HasProtocolPermission (CloneEvent e) = HasProtocolPermission e;
  clone_clone (e : Event B) : CloneEvent (CloneEvent e) = CloneEvent e;
}.
Create Rewrite HintDb codec.
#[export] Hint Rewrite @clone_ID @clone_Key @clone_SessionID @clone_Seq @clone_Time @clone_Visibility
  @clone_Transient @clone_Approval @clone_Permission @clone_clone using typeclasses eauto : codec.

(** ** Forward sequence pages ([event_page.go]) *)

Definition EventPageCanonical : string := "canonical".
Definition EventPageClientReplay : string := "client_replay".
Definition EventPageAllDurable : string := "all_durable".
Definition defaultEventPageLimit : Z := 200.

Record EventPageRequest : Type := MkPageRequest {
  pr_SessionRef : SessionRef;
  pr_AfterSeq : Z;
  pr_ThroughSeq : Z;
  pr_Limit : Z;
  pr_Visibility : string;
}.

Definition NormalizeEventPageRequest (req : EventPageRequest) : EventPageRequest :=
  MkPageRequest (NormalizeSessionRef (pr_SessionRef req)) (pr_AfterSeq req) (pr_ThroughSeq req)
    (if (pr_Limit req <=? 0)%Z then defaultEventPageLimit else pr_Limit req)
    (if (pr_Visibility req =? "")%string then EventPageCanonical else pr_Visibility req).

Section Pages.
Context {B : Type} `{EventCodec B}.

Record EventPage : Type := MkPage {
  pg_Events : list (Event B);
  pg_NextSeq : Z;
  pg_HasMore : bool;
}.

Definition EventMatchesPageVisibility (e : Event B) (visibility : string) : bool :=
  if IsTransient e then false
  else if visibility =? EventPageClientReplay then IsClientReplayEvent e
  else if visibility =? EventPageAllDurable then true
  else if (visibility =? EventPageCanonical) || (visibility =? "") then IsCanonicalHistoryEvent e
  else false.

(** The loop of [PageEvents]; [None] is a nil entry. *)
Fixpoint page_loop (req : EventPageRequest) (events : list (option (Event B))) (out : EventPage) : EventPage :=
  match events with
  | [] => out
  | None :: rest => page_loop req rest out
  | Some e :: rest =>
    if (ev_Seq e <=? pr_AfterSeq req)%Z then page_loop req rest out
    else if (0 <? pr_ThroughSeq req)%Z && (pr_ThroughSeq req <? ev_Seq e)%Z then out
    else
      let visible := EventMatchesPageVisibility e (pr_Visibility req) in
      if visible && (pr_Limit req <=? Z.of_nat (length (pg_Events out)))%Z
      then MkPage (pg_Events out) (pg_NextSeq out) true
      else page_loop req rest
             (MkPage (if visible then pg_Events out ++ [CanonicalizeEvent e] else pg_Events out)
                     (ev_Seq e) (pg_HasMore out))
  end.

Definition PageEvents (events : list (option (Event B))) (req : EventPageRequest) : EventPage :=
  let req := NormalizeEventPageRequest req in
  page_loop req events (MkPage [] (pr_AfterSeq req) false).

(** [FilterEvents]: the canonical (or all) events, the last [limit] of them. *)
Definition FilterEvents (events : list (option (Event B))) (limit : Z) (includeTransient : bool) : list (Event B) :=
  let filtered := map CanonicalizeEvent
                    (List.filter (fun e => includeTransient || IsCanonicalHistoryEvent e) (omap id events)) in
  if (0 <? limit)%Z && (limit <? Z.of_nat (length filtered))%Z
  then drop (length filtered - Z.to_nat limit) filtered
  else filtered.

(** *** The reference definition of a page *)

(** Event [e] belongs to the range and visibility class of [req]. *)
Definition in_page_range (req : EventPageRequest) (e : Event B) : bool :=
  (pr_AfterSeq req <? ev_Seq e)%Z
  && ((pr_ThroughSeq req <=? 0)%Z || (ev_Seq e <=? pr_ThroughSeq req)%Z)
  && EventMatchesPageVisibility e (pr_Visibility req).

Definition page_candidates (req : EventPageRequest) (events : list (option (Event B))) : list (Event B) :=
  List.filter (in_page_range req) (omap id events).

(** The log of a Session: sequence numbers strictly increase. *)
Definition seq_sorted (events : list (option (Event B))) : Prop :=
  StronglySorted (fun a b => ev_Seq a < ev_Seq b)%Z (omap id events).

Lemma seq_sorted_tail o events : seq_sorted (o :: events) -> seq_sorted events.
Proof. unfold seq_sorted. destruct o; simpl; [|done]. by intros [? _]%StronglySorted_inv. Qed.

Lemma seq_sorted_head e events :
  seq_sorted (Some e :: events) -> Forall (fun x => ev_Seq e < ev_Seq x)%Z (omap id events).
Proof. by intros [_ ?]%StronglySorted_inv. Qed.

Lemma candidates_beyond req events :
  (0 < pr_ThroughSeq req)%Z ->
  Forall (fun x => pr_ThroughSeq req < ev_Seq x)%Z (omap id events) -> page_candidates req events = [].
Proof.
  intros Hpos Hall. unfold page_candidates. induction Hall as [|e l Hlt Hl IH]; [done|]. simpl.
  unfold in_page_range at 1. destruct (Z.leb_spec (pr_ThroughSeq req) 0); [lia|].
  destruct (Z.leb_spec (ev_Seq e) (pr_ThroughSeq req)); [lia|]. simpl. by rewrite andb_false_r.
Qed.

Lemma candidates_cons_skip req e events :
  in_page_range req e = false -> page_candidates req (Some e :: events) = page_candidates req events.
Proof. intros Hr. unfold page_candidates. simpl. by rewrite Hr. Qed.

Lemma candidates_cons_take req e events :
  in_page_range req e = true -> page_candidates req (Some e :: events) = e :: page_candidates req events.
Proof. intros Hr. unfold page_candidates. simpl. by rewrite Hr. Qed.

Lemma candidates_incl req (P : Event B -> Prop) events :
  Forall P (omap id events) -> Forall P (page_candidates req events).
Proof.
  intros Hall. unfold page_candidates. rewrite !Forall_forall in *. intros x Hx.
  apply Hall. apply list_elem_of_In in Hx. apply filter_In in Hx as [Hx _]. by apply list_elem_of_In.
Qed.

Lemma page_loop_spec req events out :
  (0 < pr_Limit req)%Z -> seq_sorted events -> pg_HasMore out = false ->
  (Z.of_nat (length (pg_Events out)) <= pr_Limit req)%Z ->
  Forall (fun x => (pg_NextSeq out < ev_Seq x)%Z \/ (ev_Seq x <= pr_AfterSeq req)%Z) (omap id events) ->
  let room := (Z.to_nat (pr_Limit req) - length (pg_Events out))%nat in
  let c := page_candidates req events in
  let r := page_loop req events out in
  pg_Events r = (pg_Events out ++ map CanonicalizeEvent (take room c))%list /\
  pg_HasMore r = (room <? length c)%nat /\
  (pg_NextSeq out <= pg_NextSeq r)%Z /\
  Forall (fun e => ev_Seq e <= pg_NextSeq r)%Z (take room c) /\
  Forall (fun e => pg_NextSeq r < ev_Seq e)%Z (drop room c).
Proof.
  intros Hlim. cbv zeta. revert out.
  induction events as [|[e|] events IH]; intros out Hs Hm Hlen Hnext.
  - change (page_candidates req []) with (@nil (Event B)). simpl.
    rewrite take_nil, drop_nil, app_nil_r, Hm. repeat split; auto. lia.
  - simpl in Hnext. apply Forall_cons in Hnext as [He Hnext].
    pose proof (seq_sorted_head _ _ Hs) as Hhead. apply seq_sorted_tail in Hs. simpl.
    destruct (Z.leb_spec (ev_Seq e) (pr_AfterSeq req)) as [Hle|Hgt].
    { rewrite candidates_cons_skip; [by apply IH|]. unfold in_page_range.
      by destruct (Z.ltb_spec (pr_AfterSeq req) (ev_Seq e)); [lia|]. }
    destruct ((0 <? pr_ThroughSeq req)%Z && (pr_ThroughSeq req <? ev_Seq e)%Z) eqn:Hthr.
    { apply andb_true_iff in Hthr as [H1%Z.ltb_lt H2%Z.ltb_lt].
      rewrite candidates_beyond; [|done|].
      - rewrite take_nil, drop_nil, app_nil_r, Hm. repeat split; auto. lia.
      - simpl. constructor; [done|]. eapply Forall_impl; [exact Hhead|]. simpl. lia. }
    assert (Hin : in_page_range req e = EventMatchesPageVisibility e (pr_Visibility req)).
    { unfold in_page_range. destruct (Z.ltb_spec (pr_AfterSeq req) (ev_Seq e)); [|lia]. simpl.
      apply andb_false_iff in Hthr. destruct (Z.leb_spec (pr_ThroughSeq req) 0); [done|].
      destruct (Z.leb_spec (ev_Seq e) (pr_ThroughSeq req)); [done|]. simpl. exfalso.
      destruct Hthr as [Hthr%Z.ltb_ge|Hthr%Z.ltb_ge]; lia. }
    assert (Hrest : Forall (fun x => (ev_Seq e < ev_Seq x)%Z \/ (ev_Seq x <= pr_AfterSeq req)%Z) (omap id events)).
    { eapply Forall_impl; [exact Hhead|]. simpl. auto. }
    destruct (EventMatchesPageVisibility e (pr_Visibility req)) eqn:Hvis; simpl.
    + rewrite (candidates_cons_take _ _ _ Hin).
      destruct (Z.leb_spec (pr_Limit req) (Z.of_nat (length (pg_Events out)))) as [Hfull|Hroom]; simpl.
      * assert (Hz : (Z.to_nat (pr_Limit req) - length (pg_Events out) = 0)%nat) by lia.
        rewrite Hz. simpl. rewrite app_nil_r. repeat split; auto; [lia|].
        constructor; [destruct He; lia|]. apply candidates_incl. eapply Forall_impl; [exact Hhead|].
        simpl. destruct He; lia.
      * destruct (IH (MkPage (pg_Events out ++ [CanonicalizeEvent e])%list (ev_Seq e) (pg_HasMore out)))
          as (IE & IM & IN & IT & ID); simpl; auto; [rewrite length_app; simpl; lia|].
        simpl in IE, IM, IN, IT, ID. rewrite length_app in IE, IM, IT, ID. simpl in IE, IM, IT, ID.
        remember (Z.to_nat (pr_Limit req) - (length (pg_Events out) + 1))%nat as room eqn:Hrm.
        assert (Hsr : (Z.to_nat (pr_Limit req) - length (pg_Events out) = S room)%nat) by lia.
        rewrite Hsr. simpl. rewrite IE, <- app_assoc. split; [done|]. split; [|split; [|split]]; auto.
        destruct He; lia.
    + rewrite (candidates_cons_skip _ _ _ Hin).
      destruct (IH (MkPage (pg_Events out) (ev_Seq e) (pg_HasMore out)))
          as (IE & IM & IN & IT & ID); simpl; auto. simpl in *. repeat split; auto. destruct He; lia.
  - simpl in *. apply IH; auto.
Qed.

(** A reader that follows [NextSeq] while [HasMore] is set. *)
Definition next_request (req : EventPageRequest) (seq : Z) : EventPageRequest :=
  MkPageRequest (pr_SessionRef req) seq (pr_ThroughSeq req) (pr_Limit req) (pr_Visibility req).

Fixpoint read_pages (fuel : nat) (events : list (option (Event B))) (req : EventPageRequest)
  : option (list (Event B)) :=
  match fuel with
  | O => None
  | S fuel =>
    let page := PageEvents events req in
    if pg_HasMore page
    then more ← read_pages fuel events (next_request req (pg_NextSeq page)); Some (pg_Events page ++ more)%list
    else Some (pg_Events page)
  end.

Lemma page_spec events req :
  seq_sorted events ->
  let req' := NormalizeEventPageRequest req in
  let limit := Z.to_nat (pr_Limit req') in
  let c := page_candidates req' events in
  let r := PageEvents events req in
  pg_Events r = map CanonicalizeEvent (take limit c) /\
  pg_HasMore r = (limit <? length c)%nat /\
  (pr_AfterSeq req <= pg_NextSeq r)%Z /\
  Forall (fun e => ev_Seq e <= pg_NextSeq r)%Z (take limit c) /\
  Forall (fun e => pg_NextSeq r < ev_Seq e)%Z (drop limit c).
Proof.
  intros Hs. cbv zeta.
  assert (Hlim : (0 < pr_Limit (NormalizeEventPageRequest req))%Z).
  { simpl. destruct (Z.leb_spec (pr_Limit req) 0); [reflexivity|lia]. }
  pose proof (page_loop_spec (NormalizeEventPageRequest req) events
    (MkPage [] (pr_AfterSeq req) false) Hlim Hs eq_refl) as Hspec.
  simpl length in Hspec. rewrite Nat.sub_0_r in Hspec. apply Hspec; simpl in *; [lia|].
  apply Forall_true. intros x. lia.
Qed.

Lemma normalize_next req seq :
  NormalizeEventPageRequest (next_request req seq) = next_request (NormalizeEventPageRequest req) seq.
Proof. reflexivity. Qed.

(** The candidates after the last consumed sequence are those left over. *)
Lemma candidates_next req seq events :
  (pr_AfterSeq req <= seq)%Z ->
  page_candidates (next_request req seq) events
  = List.filter (fun e => (seq <? ev_Seq e)%Z) (page_candidates req events).
Proof.
  intros Hle. unfold page_candidates. rewrite filter_filter. apply filter_ext. intros e.
  unfold in_page_range. simpl.
  destruct (Z.ltb_spec (pr_AfterSeq req) (ev_Seq e)), (Z.ltb_spec seq (ev_Seq e)); simpl; auto; lia.
Qed.

End Pages.
Arguments EventPage B : clear implicits.

(** C36: paging a Session log is lossless and terminates: a reader that starts
    after any sequence, asks for pages of any limit and visibility class and
    follows [NextSeq] while [HasMore] is set receives, in order and exactly
    once, the canonical form of every event in range and of that class, within
    one page more than there are such events. *)
Theorem read_pages_complete {B : Type} `{EventCodec B} (events : list (option (Event B))) (req : EventPageRequest) (fuel : nat)
  (Hsorted : seq_sorted events)
  (Hfuel : (length (page_candidates (NormalizeEventPageRequest req) events) < fuel)%nat) :
  read_pages fuel events req
  = Some (map CanonicalizeEvent (page_candidates (NormalizeEventPageRequest req) events)).
Proof.
  revert req Hfuel. induction fuel as [|fuel IH]; intros req Hfuel; [lia|].
  destruct (page_spec events req Hsorted) as (HE & HM & HN & HT & HD). simpl.
  set (limit := Z.to_nat (pr_Limit (NormalizeEventPageRequest req))) in *.
  set (c := page_candidates (NormalizeEventPageRequest req) events) in *.
  rewrite HM, HE. destruct (Nat.ltb_spec limit (length c)) as [Hlt|Hge].
  - assert (Hc : page_candidates (NormalizeEventPageRequest (next_request req (pg_NextSeq (PageEvents events req)))) events
                 = drop limit c).
    { rewrite normalize_next, candidates_next by (simpl; lia). apply filter_split.
      - eapply Forall_impl; [exact HT|]. intros x Hx. by apply Z.ltb_ge.
      - eapply Forall_impl; [exact HD|]. intros x Hx. by apply Z.ltb_lt. }
    assert (0 < limit)%nat.
    { unfold limit, NormalizeEventPageRequest, defaultEventPageLimit. cbn [pr_Limit]. destruct (Z.leb_spec (pr_Limit req) 0); lia. }
    rewrite IH; rewrite Hc; [|rewrite length_drop; lia].
    simpl. by rewrite <- map_app, take_drop.
  - by rewrite take_ge by lia.
Qed.
