(* ===== verification/Append.v ===== *)
(** * Preparing an append transaction

    Models [agent-sdk/session/append_prepare.go] and [participant_bindings.go]:
    the backend-independent plan of one append.  Events are canonicalised,
    migrated and validated, retries are recognised by event ID or idempotency
    key, fresh events get an ID and the next sequence, and the transaction
    decides the next Session row, state and revision before any store commits. *)

From Stdlib Require Import ZArith Lia String Sorted.
From stdpp Require Import base list strings option gmap.
From S2P Require Import Prelude GoStrings Fence Events.

Local Open Scope string_scope.

(** ** Open values carried by a Session row

    [map[string]any] values, the frozen execution choice
    ([agent-sdk/placement]) and the creation-bound command environment
    ([sandbox.ExecutionConfig]) are carried by stores and only normalised,
    validated or compared through the functions named here. *)
Class OpenValues : Type := {
  Any : Type;
  ValidateMap : gmap string Any -> bool;            (* jsonvalue.ValidateMap *)
  Placement : Type;
  NormalizePlacement : Placement -> Placement;      (* placement.Normalize *)
  ExecutionConfig : Type;
  ValidateExecutionConfig : option ExecutionConfig -> bool;
  EqualExecutionConfig : option ExecutionConfig -> option ExecutionConfig -> bool;
}.

Section Rows.
Context `{OpenValues}.

Record ControllerBinding : Type := MkController {
  c_Kind : string; c_ControllerID : string; c_AgentName : string; c_Label : string;
  c_Placement : Placement; c_EpochID : string; c_RemoteSessionID : string;
  c_ContextSyncSeq : Z; c_AttachedAt : Z; c_Source : string;
}.

Record ParticipantBinding : Type := MkParticipant {
  p_ID : string; p_Kind : string; p_Role : string; p_AgentName : string; p_Label : string;
  p_Placement : Placement; p_SessionID : string; p_Source : string; p_ParentTurnID : string;
  p_DelegationID : string; p_AttachmentGeneration : string; p_ContextSyncSeq : Z;
  p_AttachedAt : Z; p_ControllerRef : string;
}.

Record Session : Type := MkSession {
  s_Ref : SessionRef;
  s_Revision : Z;
  s_CWD : string;
  s_ExecutionConfig : option ExecutionConfig;
  s_Title : string;
  s_Metadata : gmap string Any;
  s_Controller : ControllerBinding;
  s_Participants : list ParticipantBinding;
  s_CreatedAt : Z;
  s_UpdatedAt : Z;
}.

Definition CloneControllerBinding (c : ControllerBinding) : ControllerBinding :=
  MkController (c_Kind c) (trim_space (c_ControllerID c)) (trim_space (c_AgentName c))
    (trim_space (c_Label c)) (NormalizePlacement (c_Placement c)) (trim_space (c_EpochID c))
    (trim_space (c_RemoteSessionID c)) (c_ContextSyncSeq c) (c_AttachedAt c) (trim_space (c_Source c)).

Definition CloneParticipantBinding (p : ParticipantBinding) : ParticipantBinding :=
  MkParticipant (trim_space (p_ID p)) (p_Kind p) (p_Role p) (trim_space (p_AgentName p))
    (trim_space (p_Label p)) (NormalizePlacement (p_Placement p)) (trim_space (p_SessionID p))
    (trim_space (p_Source p)) (trim_space (p_ParentTurnID p)) (trim_space (p_DelegationID p))
    (trim_space (p_AttachmentGeneration p)) (p_ContextSyncSeq p) (p_AttachedAt p)
    (trim_space (p_ControllerRef p)).

Definition CloneSession (s : Session) : Session :=
  MkSession (NormalizeSessionRef (s_Ref s)) (s_Revision s) (trim_space (s_CWD s)) (s_ExecutionConfig s)
    (trim_space (s_Title s)) (s_Metadata s) (CloneControllerBinding (s_Controller s))
    (map CloneParticipantBinding (s_Participants s)) (s_CreatedAt s) (s_UpdatedAt s).

(** Assignments to the fields stores change. *)
Definition set_Revision (v : Z) (s : Session) : Session :=
  MkSession (s_Ref s) v (s_CWD s) (s_ExecutionConfig s) (s_Title s) (s_Metadata s) (s_Controller s)
    (s_Participants s) (s_CreatedAt s) (s_UpdatedAt s).
Definition set_Title (v : string) (s : Session) : Session :=
  MkSession (s_Ref s) (s_Revision s) (s_CWD s) (s_ExecutionConfig s) v (s_Metadata s) (s_Controller s)
    (s_Participants s) (s_CreatedAt s) (s_UpdatedAt s).
Definition set_UpdatedAt (v : Z) (s : Session) : Session :=
  MkSession (s_Ref s) (s_Revision s) (s_CWD s) (s_ExecutionConfig s) (s_Title s) (s_Metadata s) (s_Controller s)
    (s_Participants s) (s_CreatedAt s) v.
Definition set_Controller (v : ControllerBinding) (s : Session) : Session :=
  MkSession (s_Ref s) (s_Revision s) (s_CWD s) (s_ExecutionConfig s) (s_Title s) (s_Metadata s) v
    (s_Participants s) (s_CreatedAt s) (s_UpdatedAt s).
Definition set_Participants (v : list ParticipantBinding) (s : Session) : Session :=
  MkSession (s_Ref s) (s_Revision s) (s_CWD s) (s_ExecutionConfig s) (s_Title s) (s_Metadata s) (s_Controller s)
    v (s_CreatedAt s) (s_UpdatedAt s).

Definition CheckExpectedRevision (active : Session) (expected : option Z) : result SessionError unit :=
  match expected with
  | None => Ok tt
  | Some x => if Z.eqb x (s_Revision active) then Ok tt
              else Fail (RevisionConflictError (SessionID (s_Ref active)) x (s_Revision active))
  end.

Definition ValidateState (state : gmap string Any) : result SessionError unit :=
  if ValidateMap state then Ok tt else Fail (ErrInvalidValue "state").

Definition ValidateMetadata (metadata : gmap string Any) : result SessionError unit :=
  if ValidateMap metadata then Ok tt else Fail (ErrInvalidValue "metadata").

(** *** Participant bindings *)

Fixpoint check_delegation (participantID expected : string) (bs : list ParticipantBinding)
  : result SessionError unit :=
  match bs with
  | [] => Ok tt
  | b :: rest =>
    if trim_space (p_ID b) =? participantID then
      let actual := trim_space (p_DelegationID b) in
      if actual =? expected then Ok tt
      else Fail (ParticipantBindingConflictError participantID expected actual)
    else check_delegation participantID expected rest
  end.

Definition CheckParticipantDelegation (active : Session) (participantID expectedDelegation : string)
  : result SessionError unit :=
  check_delegation (trim_space participantID) (trim_space expectedDelegation) (s_Participants active).

(** Replaces the first binding of the same non-empty ID. *)
Fixpoint put_binding (b : ParticipantBinding) (bs : list ParticipantBinding) : list ParticipantBinding :=
  match bs with
  | [] => [b]
  | x :: rest => if (p_ID x =? p_ID b) && negb (p_ID b =? "") then b :: rest else x :: put_binding b rest
  end.

(** The boolean result of [PutParticipantBinding] is always true here. *)
Definition PutParticipantBinding (active : Session) (b : ParticipantBinding) : Session * bool :=
  (set_Participants (put_binding (CloneParticipantBinding b) (s_Participants active)) active, true).

Definition RemoveParticipantBinding (active : Session) (participantID : string) : Session * bool :=
  let participantID := trim_space participantID in
  if participantID =? "" then (active, false)
  else (set_Participants
          (List.filter (fun b => negb (trim_space (p_ID b) =? participantID)) (s_Participants active)) active, true).
End Rows.

(** ** Event preparation *)

Section Prepare.
Context {B : Type} `{EventCodec B}.
(** The state of the ID generator, and the allocator the store passes in
    (nil for the replay probe of idle checkpoints). *)
Context {A : Type}.
Abbreviation allocator := (option (A -> Event B -> gset string -> Event B * A)).

Record PreparedAppendEvents : Type := MkPrepared {
  pa_Events : list (Event B);
  pa_Persisted : list (Event B);
  pa_UpdatedAt : Z;
  pa_Title : string;
}.

Definition migratedEventForIndex (e : Event B) : Event B :=
  match MigrateEvent e with
  | Ok m => m
  | Fail _ => CloneEvent e
  end.

Definition eventIndex (key : Event B -> string) (events : list (option (Event B))) : gmap string (Event B) :=
  fold_left (fun m o =>
    match o with
    | None => m
    | Some e => if trim_space (key e) =? "" then m else <[trim_space (key e) := migratedEventForIndex e]> m
    end) events ∅.
Definition eventIndexByID := eventIndex ev_ID.
Definition eventIndexByIdempotencyKey := eventIndex ev_IdempotencyKey.

Definition cloneEventIDSet (ids : gset string) : gset string :=
  list_to_set (List.filter (fun id => negb (id =? "")) (map trim_space (elements ids))).

Definition sameIdempotentEvent (existing retry : Event B) : bool :=
  bool_decide (erase_identity (CanonicalizeEvent existing) = erase_identity (CanonicalizeEvent retry)).

(** [LastEventSeq]: a stored event without a sequence counts its position. *)
Definition LastEventSeq (events : list (option (Event B))) : Z :=
  (fold_left (fun '(out, index) o =>
    let out' :=
      match o with
      | None => out
      | Some e => let seq := if Z.eqb (ev_Seq e) 0 then index + 1 else ev_Seq e in
                  if out <? seq then seq else out
      end%Z in
    (out', index + 1)) events (0, 0)).1%Z.

(** The loop variables of [PrepareEventsForAppend]. *)
Record prep : Type := MkPrep {
  existingIDs : gset string;
  existingEvents : gmap string (Event B);
  existingKeys : gmap string (Event B);
  nextSeq : Z;
  prepared : list (Event B);
  persisted : list (Event B);
  updatedAt : Z;
  title : string;
  generator : A;
}.

(** The first half of the loop body: the event a store would keep. *)
Definition normalizeForAppend (sid : string) (now : Z) (event : option (Event B)) : result SessionError (Event B) :=
  match event with
  | None => Fail ErrInvalidEvent
  | Some e =>
    let! m := MigrateEvent (stampCurrentEventSchemas (CanonicalizeEvent e)) in
    let n := set_SessionID sid m in
    let n := if Z.eqb (ev_Time n) zero_time then set_Time now n else n in
    let n := if ev_Type n =? "" then set_Type (EventTypeOf n) n else n in
    let n := if ev_Visibility n =? "" then set_Visibility VisibilityCanonical n else n in
    let! _ := ValidateDurableCoreEvent n in
    Ok n
  end.

Definition priorEvent (st : prep) (n : Event B) : option (Event B) :=
  match existingEvents st !! trim_space (ev_ID n) with
  | Some p => Some p
  | None => if trim_space (ev_IdempotencyKey n) =? "" then None
            else existingKeys st !! trim_space (ev_IdempotencyKey n)
  end.

(** A durable event with no prior: allocate its ID, give it the next sequence. *)
Definition persistEvent (alloc : allocator) (st : prep) (n : Event B) : prep :=
  let '(n, gen) := match alloc with
                   | Some f => f (generator st) n (existingIDs st)
                   | None => (n, generator st)
                   end in
  let seq := u64_succ (nextSeq st) in
  let n := set_Seq seq n in
  let id := trim_space (ev_ID n) in
  let key := trim_space (ev_IdempotencyKey n) in
  MkPrep
    (if id =? "" then existingIDs st else {[id]} ∪ existingIDs st)
    (if id =? "" then existingEvents st else <[id := CloneEvent n]> (existingEvents st))
    (if key =? "" then existingKeys st else <[key := CloneEvent n]> (existingKeys st))
    seq
    (prepared st ++ [n]) (persisted st ++ [n])
    (ev_Time n)
    (if title st =? "" then GeneratedSessionTitle n else title st)
    gen.

Definition keepPrepared (st : prep) (e : Event B) : prep :=
  MkPrep (existingIDs st) (existingEvents st) (existingKeys st) (nextSeq st)
    (prepared st ++ [e]) (persisted st) (updatedAt st) (title st) (generator st).

(** The loop body. *)
Definition prepareOne (sid : string) (now : Z) (alloc : allocator) (st : prep) (event : option (Event B))
  : result SessionError prep :=
  let! n := normalizeForAppend sid now event in
  if IsTransient n then Ok (keepPrepared st n)
  else match priorEvent st n with
       | Some p =>
         if sameIdempotentEvent p n then Ok (keepPrepared st (CloneEvent p))
         else Fail (EventConflictError sid (trim_space (ev_ID n)) (trim_space (ev_IdempotencyKey n)))
       | None => Ok (persistEvent alloc st n)
       end.

Fixpoint prepareLoop (sid : string) (now : Z) (alloc : allocator) (st : prep) (events : list (option (Event B)))
  : result SessionError prep :=
  match events with
  | [] => Ok st
  | e :: rest => let! st' := prepareOne sid now alloc st e in prepareLoop sid now alloc st' rest
  end.

Definition initialPrep (existing : list (option (Event B))) (ids : gset string) (lastSeq : Z) (gen : A) : prep :=
  let byID := eventIndexByID existing in
  MkPrep (cloneEventIDSet ids ∪ dom byID) byID (eventIndexByIdempotencyKey existing) lastSeq [] [] 0 "" gen.

(** The result and the ID generator's state after the call. *)
Definition PrepareEventsForAppend (sid : string) (events existing : list (option (Event B))) (ids : gset string)
  (lastSeq now : Z) (alloc : allocator) (gen : A) : result SessionError (PreparedAppendEvents * A) :=
  match events with
  | [] => Ok (MkPrepared [] [] 0 "", gen)
  | _ =>
    let! st := prepareLoop sid now alloc (initialPrep existing ids lastSeq gen) events in
    Ok (MkPrepared (map CloneEvent (prepared st)) (map CloneEvent (persisted st)) (updatedAt st) (title st),
        generator st)
  end.

Definition appendTransactionDigest (mutationDigest : string) (events : list (option (Event B)))
  : result SessionError string :=
  match mapM (M := option) (fun o : option (Event B) => o) events with
  | None => Fail ErrInvalidEvent
  | Some es => EventsDigest (trim_space mutationDigest) (map (fun e => erase_identity (CanonicalizeEvent e)) es)
  end.
End Prepare.
Arguments PreparedAppendEvents B : clear implicits.
Arguments prep B A : clear implicits.

(** ** The append transaction *)

Section Transaction.
Context `{OpenValues} {B : Type} `{EventCodec B} {A : Type}.

(** A session mutation run inside the transaction returns the changed row and
    whether it changed; a state update returns the next state. *)
Definition AppendSessionMutation : Type :=
  Session -> PreparedAppendEvents B -> result SessionError (Session * bool).
Definition AppendStateUpdate : Type :=
  list (Event B) -> gmap string Any -> result SessionError (gmap string Any).

Record PrepareAppendTransactionRequest : Type := MkTxRequest {
  tx_Session : Session;
  tx_State : gmap string Any;
  tx_Events : list (option (Event B));
  tx_ExistingEvents : list (option (Event B));
  tx_ExistingIDs : gset string;
  tx_ExpectedRevision : option Z;
  tx_TransactionID : string;
  tx_MutationDigest : string;
  tx_TransactionApplied : bool;
  tx_AppliedTransactionDigest : string;
  tx_LastSeq : Z;
  tx_Now : Z;
  tx_AllocateEventID : option (A -> Event B -> gset string -> Event B * A);
  tx_MutateSession : option AppendSessionMutation;
  tx_UpdateState : option AppendStateUpdate;
}.

Record PreparedAppendTransaction : Type := MkTx {
  pt_Session : Session;
  pt_State : gmap string Any;
  pt_Prepared : PreparedAppendEvents B;
  pt_Changed : bool;
  pt_TransactionID : string;
  pt_TransactionDigest : string;
  pt_RecordTransaction : bool;
}.

Definition ApplyPreparedAppendToSession (active : Session) (p : PreparedAppendEvents B) : Session * bool :=
  match pa_Persisted p with
  | [] => (active, false)
  | _ =>
    let active := set_UpdatedAt (pa_UpdatedAt p) active in
    (if (s_Title active =? "") && negb (pa_Title p =? "") then set_Title (pa_Title p) active else active, true)
  end.

Definition runMutation (mutate : option AppendSessionMutation) (s : Session) (p : PreparedAppendEvents B)
  : result SessionError (Session * bool) :=
  match mutate with
  | None => Ok (s, false)
  | Some f => f s p
  end.

(** The guarded state update: the next row, state and whether it ran. *)
Definition runStateUpdate (req : PrepareAppendTransactionRequest) (p : PreparedAppendEvents B)
  (s : Session) (state : gmap string Any) : result SessionError (Session * gmap string Any * bool) :=
  match tx_UpdateState req with
  | Some f =>
    if (length (tx_Events req) =? 0)%nat || negb (length (pa_Persisted p) =? 0)%nat then
      let! next := f (map CloneEvent (pa_Events p)) state in
      let! _ := ValidateState next in
      Ok (set_UpdatedAt (tx_Now req) s, next, true)
    else Ok (s, state, false)
  | None => Ok (s, state, false)
  end.

Definition transactionConflict (req : PrepareAppendTransactionRequest) : SessionError :=
  EventConflictError (SessionID (s_Ref (tx_Session req))) ""
    ("transaction:" ++ trim_space (tx_TransactionID req)).

(** The second half: row, state and revision of a fresh transaction. *)
Definition finishTransaction (req : PrepareAppendTransactionRequest) (digest : string)
  (p : PreparedAppendEvents B) : result SessionError PreparedAppendTransaction :=
  let transactionID := trim_space (tx_TransactionID req) in
  let! (s1, mutated) := runMutation (tx_MutateSession req) (CloneSession (tx_Session req)) p in
  let (s2, appended) := ApplyPreparedAppendToSession s1 p in
  let! (s3, state, updated) := runStateUpdate req p s2 (tx_State req) in
  let recordTransaction := negb (transactionID =? "") in
  let changed := mutated || appended || updated || recordTransaction in
  let s4 := if changed then set_Revision (u64_succ (s_Revision (tx_Session req))) s3 else s3 in
  Ok (MkTx s4 state p changed transactionID digest recordTransaction).

Definition PrepareAppendTransaction (req : PrepareAppendTransactionRequest) (gen : A)
  : result SessionError (PreparedAppendTransaction * A) :=
  let! _ := ValidateState (tx_State req) in
  let transactionID := trim_space (tx_TransactionID req) in
  let mutationDigest := trim_space (tx_MutationDigest req) in
  if bool_decide (is_Some (tx_UpdateState req)) && (transactionID =? "") then Fail ErrInvalidTransaction else
  if negb (transactionID =? "") && (mutationDigest =? "") then Fail ErrInvalidTransaction else
  let! digest := appendTransactionDigest mutationDigest (tx_Events req) in
  if tx_TransactionApplied req
     && ((trim_space (tx_AppliedTransactionDigest req) =? "")
         || negb (tx_AppliedTransactionDigest req =? digest)) then Fail (transactionConflict req) else
  let! _ := (if tx_TransactionApplied req then Ok tt
             else CheckExpectedRevision (tx_Session req) (tx_ExpectedRevision req)) in
  let! (p, gen) := PrepareEventsForAppend (SessionID (s_Ref (tx_Session req))) (tx_Events req)
                     (tx_ExistingEvents req) (tx_ExistingIDs req) (tx_LastSeq req) (tx_Now req)
                     (tx_AllocateEventID req) gen in
  if tx_TransactionApplied req then
    if negb (length (pa_Persisted p) =? 0)%nat then Fail (transactionConflict req)
    else Ok (MkTx (tx_Session req) (tx_State req) p false transactionID digest false, gen)
  else
    let! tx := finishTransaction req digest p in
    Ok (tx, gen).
End Transaction.
Arguments AppendSessionMutation {_} B.
Arguments AppendStateUpdate {_} B.
Arguments PrepareAppendTransactionRequest {_} B A.
Arguments PreparedAppendTransaction {_} B.

(** ** Facts about preparation *)

(** What an allocator promises, for generator states that satisfy [I]: it
    assigns the event a trimmed, non-empty ID outside the set in use, changes
    nothing else, and leaves a generator state that satisfies [I]. *)
Definition allocator_fresh {B A : Type} (I : A -> Prop) (f : A -> Event B -> gset string -> Event B * A) : Prop :=
  forall g n ids, I g ->
    (exists id, fst (f g n ids) = set_ID id n /\ (id ∉ ids) /\ trim_space id = id /\ id <> "") /\
    I (snd (f g n ids)).

(** The [k] sequences that follow [n]. *)
Definition seqs_after (n : Z) (k : nat) : list Z := map (fun i => u64 (n + 1 + Z.of_nat i)) (seq 0 k).

Lemma seqs_after_S n k : seqs_after n (S k) = u64 (n + 1) :: seqs_after (n + 1) k.
Proof.
  unfold seqs_after. simpl. f_equal; [f_equal; lia|]. rewrite <- seq_shift, map_map.
  apply map_ext. intros i. f_equal. lia.
Qed.

Lemma u64_plus_l a b : u64 (u64 a + b) = u64 (a + b).
Proof. unfold u64. by rewrite Z.add_mod_idemp_l by done. Qed.

Lemma seqs_after_u64 n k : seqs_after (u64 n) k = seqs_after n k.
Proof.
  unfold seqs_after. apply map_ext. intros i.
  replace (u64 n + 1 + Z.of_nat i)%Z with (u64 n + (1 + Z.of_nat i))%Z by lia.
  rewrite u64_plus_l. f_equal. lia.
Qed.

(** The idempotency keys of a log. *)
Definition log_keys {B : Type} (events : list (Event B)) : list string :=
  List.filter (fun key => negb (key =? "")) (map (fun e => trim_space (ev_IdempotencyKey e)) events).

Lemma log_keys_app {B : Type} (a b : list (Event B)) : log_keys (a ++ b) = (log_keys a ++ log_keys b)%list.
Proof. unfold log_keys. by rewrite map_app, List.filter_app. Qed.

Section PrepareFacts.
Context {B : Type} `{EventCodec B} {A : Type} (I : A -> Prop).
Implicit Types st : prep B A.

(** The event of a request as the store would keep it, before its identity. *)
Definition durable_shape (sid : string) (now : Z) (e : Event B) : Prop :=
  exists o n, normalizeForAppend sid now o = Ok n /\ IsTransient n = false /\
              e = set_Seq (ev_Seq e) (set_ID (ev_ID e) n).

(** What the loop has added to [st] when it reaches [st']. *)
Record loop_ext (sid : string) (now : Z) st st' (new : list (Event B)) : Prop := {
  le_persisted : persisted st' = (persisted st ++ new)%list;
  le_seqs : map ev_Seq new = seqs_after (nextSeq st) (length new);
  le_next : u64 (nextSeq st') = u64 (nextSeq st + Z.of_nat (length new));
  le_shape : Forall (durable_shape sid now) new;
  le_ids : existingIDs st' = list_to_set (map ev_ID new) ∪ existingIDs st;
  le_fresh : NoDup (map ev_ID new) /\ Forall (fun e => ev_ID e ∉ existingIDs st) new;
  le_trimmed : Forall (fun e => trim_space (ev_ID e) = ev_ID e /\ ev_ID e <> "") new;
  le_keydom : dom (existingKeys st') = list_to_set (log_keys new) ∪ dom (existingKeys st);
  le_keys : NoDup (log_keys new) /\ Forall (fun key => key ∉ dom (existingKeys st)) (log_keys new);
}.

Lemma loop_ext_refl sid now st : loop_ext sid now st st [].
Proof.
  constructor; simpl; auto using NoDup_nil_2; [by rewrite app_nil_r|f_equal; lia| |];
    by rewrite (left_id_L ∅ (∪)).
Qed.

Lemma loop_ext_keep sid now st st' new e :
  loop_ext sid now (keepPrepared st e) st' new -> loop_ext sid now st st' new.
Proof. by intros []. Qed.

Lemma loop_ext_persist sid now f st st' n o new :
  allocator_fresh I f -> I (generator st) ->
  normalizeForAppend sid now o = Ok n -> IsTransient n = false -> priorEvent st n = None ->
  loop_ext sid now (persistEvent (Some f) st n) st' new ->
  exists e, loop_ext sid now st st' (e :: new).
Proof.
  intros Hf Hg Ho Ht Hprior Hext.
  destruct (Hf (generator st) n (existingIDs st) Hg) as [(id & Hid & Hnew & Htrim & Hne) _].
  unfold persistEvent in Hext. destruct (f (generator st) n (existingIDs st)) as [n' gen] eqn:Ef.
  simpl in Hid. subst n'. simpl in Hext.
  rewrite Htrim, (proj2 (String.eqb_neq _ _) Hne) in Hext.
  set (e := set_Seq (u64_succ (nextSeq st)) (set_ID id n)) in *.
  exists e. destruct Hext as [Hp Hs Hn Hsh Hids [Hnd Hfr] Htr Hkd [Hknd Hkfr]]. simpl in *.
  assert (Hkey : trim_space (ev_IdempotencyKey n) = "" \/
                 (trim_space (ev_IdempotencyKey n) ∉ dom (existingKeys st))).
  { unfold priorEvent in Hprior. destruct (existingEvents st !! _); [done|].
    destruct (String.eqb_spec (trim_space (ev_IdempotencyKey n)) ""); [by left|right].
    by apply not_elem_of_dom. }
  constructor.
  - by rewrite Hp, <- app_assoc.
  - simpl. rewrite Hs. unfold u64_succ. by rewrite seqs_after_u64, seqs_after_S.
  - rewrite Hn. unfold u64_succ. rewrite u64_plus_l. f_equal. simpl length. lia.
  - constructor; [|done]. exists o, n. auto.
  - rewrite Hids. simpl. set_solver.
  - split.
    + simpl. apply NoDup_cons. split; [|done]. intros Hin.
      apply list_elem_of_fmap in Hin as (x & Hx & Hin'). rewrite Forall_forall in Hfr.
      apply (Hfr x Hin'). simpl in Hx. rewrite <- Hx. set_solver.
    + constructor; [done|]. eapply Forall_impl; [exact Hfr|]. set_solver.
  - by constructor.
  - unfold log_keys. simpl. fold (log_keys new).
    destruct (String.eqb_spec (trim_space (ev_IdempotencyKey n)) ""); simpl; [done|].
    rewrite Hkd, dom_insert_L. set_solver.
  - unfold log_keys. simpl. fold (log_keys new).
    destruct (String.eqb_spec (trim_space (ev_IdempotencyKey n)) ""); simpl; [done|].
    rewrite dom_insert_L in Hkfr. rewrite Forall_forall in Hkfr.
    destruct Hkey as [|Hkey]; [done|]. split.
    + apply NoDup_cons. split; [|done]. intros Hin. apply (Hkfr _ Hin). set_solver.
    + constructor; [done|]. apply Forall_forall. intros x Hx. specialize (Hkfr x Hx). set_solver.
Qed.

Lemma persistEvent_generator f st n :
  allocator_fresh I f -> I (generator st) -> I (generator (persistEvent (Some f) st n)).
Proof.
  intros Hf Hg. destruct (Hf (generator st) n (existingIDs st) Hg) as [_ HI].
  unfold persistEvent. by destruct (f (generator st) n (existingIDs st)) as [n' gen].
Qed.

Lemma prepareLoop_ext sid now f st events st' :
  allocator_fresh I f -> I (generator st) ->
  prepareLoop sid now (Some f) st events = Ok st' ->
  I (generator st') /\ exists new, loop_ext sid now st st' new.
Proof.
  intros Hf. revert st. induction events as [|o events IH]; intros st Hg; simpl.
  - intros [= <-]. split; [done|]. exists []. apply loop_ext_refl.
  - intros (st1 & H1 & H2)%result_bind_ok.
    unfold prepareOne in H1. apply result_bind_ok in H1 as (n & Hn & H1).
    destruct (IsTransient n) eqn:Ht;
      [|destruct (priorEvent st n) as [p|] eqn:Hprior; [destruct (sameIdempotentEvent p n)|]]; simplify_eq;
      (apply IH in H2 as (HI & new & Hnew); [|try done; by apply persistEvent_generator]);
      (split; [done|]); eauto using loop_ext_keep.
    eapply loop_ext_persist in Hnew as [e He]; eauto.
Qed.
End PrepareFacts.

(** What a prepared batch adds to a log whose last sequence is [last] and whose
    IDs and idempotency keys in use are [used] and [usedKeys]: consecutive
    sequences, fresh distinct IDs, fresh distinct keys. *)
Record batch_fresh {B : Type} (last : Z) (used usedKeys : gset string) (new : list (Event B)) : Prop := {
  bf_seqs : map ev_Seq new = seqs_after last (length new);
  bf_nodup : NoDup (map ev_ID new);
  bf_fresh : Forall (fun e => ev_ID e ∉ used) new;
  bf_trimmed : Forall (fun e => trim_space (ev_ID e) = ev_ID e /\ ev_ID e <> "") new;
  bf_durable : Forall (fun e => IsTransient e = false) new;
  bf_keys : NoDup (log_keys new) /\ Forall (fun key => key ∉ usedKeys) (log_keys new);
}.

Lemma batch_fresh_nil {B : Type} last used usedKeys : @batch_fresh B last used usedKeys [].
Proof. constructor; auto using NoDup_nil_2. Qed.

Section PreparedFacts.
Context {B : Type} {EC : EventCodec B} {CL : CodecLaws B} {A : Type} (I : A -> Prop).

Lemma clone_log_keys (events : list (Event B)) : log_keys (map CloneEvent events) = log_keys events.
Proof.
  unfold log_keys. rewrite map_map. f_equal. apply map_ext. intros e. by rewrite clone_Key, trim_space_idem.
Qed.

Lemma clone_batch last used usedKeys new :
  @batch_fresh B last used usedKeys new -> batch_fresh last used usedKeys (map CloneEvent new).
Proof.
  intros [Hs Hnd Hfr Htr Hd Hkeys].
  assert (Hid : map ev_ID (map CloneEvent new) = map ev_ID new).
  { rewrite map_map. apply map_ext_in. intros e He. rewrite clone_ID.
    rewrite Forall_forall in Htr. by apply Htr, list_elem_of_In. }
  constructor.
  - rewrite map_map, length_map, <- Hs. apply map_ext. intros e. apply clone_Seq.
  - by rewrite Hid.
  - rewrite Forall_map. rewrite Forall_forall in Htr, Hfr |- *. intros e He.
    rewrite clone_ID. rewrite (proj1 (Htr e He)). by apply Hfr.
  - rewrite Forall_map. eapply Forall_impl; [exact Htr|]. intros e [He Hne]. rewrite clone_ID.
    by rewrite He.
  - rewrite Forall_map. eapply Forall_impl; [exact Hd|]. intros e He. by rewrite clone_Transient.
  - by rewrite clone_log_keys.
Qed.

Lemma durable_shape_durable sid now (e : Event B) : durable_shape sid now e -> IsTransient e = false.
Proof. intros (o & n & _ & Ht & ->). exact Ht. Qed.

Lemma PrepareEventsForAppend_fresh sid events existing ids last now f gen p gen' :
  allocator_fresh I f -> I gen ->
  PrepareEventsForAppend sid events existing ids last now (Some f) gen = Ok (p, gen') ->
  I gen' /\ batch_fresh last (cloneEventIDSet ids ∪ dom (eventIndexByID existing))
    (dom (eventIndexByIdempotencyKey existing)) (pa_Persisted p).
Proof.
  intros Hf Hg. destruct events as [|o events].
  { intros [= <- <-]. split; [done|apply batch_fresh_nil]. }
  intros (st & Hst & Hp)%result_bind_ok. simplify_eq/=.
  pose proof (prepareLoop_ext I sid now f (initialPrep existing ids last gen) (o :: events) st Hf Hg Hst) as (HI & new & [Hpe Hs _ Hsh _ [Hnd Hfr] Htr _ Hkeys]).
  simpl in *. split; [done|]. rewrite Hpe. apply clone_batch. constructor; auto.
  eapply Forall_impl; [exact Hsh|]. apply durable_shape_durable.
Qed.
End PreparedFacts.

(** ** Facts about transactions *)

Section TransactionFacts.
Context `{OV : OpenValues} {B : Type} {EC : EventCodec B} {A : Type}.

Lemma PrepareAppendTransaction_inv (req : PrepareAppendTransactionRequest B A) gen tx gen' :
  PrepareAppendTransaction req gen = Ok (tx, gen') ->
  exists p, PrepareEventsForAppend (SessionID (s_Ref (tx_Session req))) (tx_Events req) (tx_ExistingEvents req)
              (tx_ExistingIDs req) (tx_LastSeq req) (tx_Now req) (tx_AllocateEventID req) gen = Ok (p, gen') /\
  pt_Prepared tx = p /\
  ((tx_TransactionApplied req = true /\ pt_Changed tx = false /\ pa_Persisted p = [] /\
    pt_Session tx = tx_Session req /\ pt_State tx = tx_State req) \/
   (tx_TransactionApplied req = false /\ CheckExpectedRevision (tx_Session req) (tx_ExpectedRevision req) = Ok tt /\
    finishTransaction req (pt_TransactionDigest tx) p = Ok tx)).
Proof.
  unfold PrepareAppendTransaction. intros (_ & _ & Hx)%result_bind_ok.
  destruct (bool_decide _ && _); [done|]. destruct (negb _ && _); [done|].
  apply result_bind_ok in Hx as (digest & _ & Hx).
  destruct (tx_TransactionApplied req) eqn:Ha; simpl in Hx.
  - destruct (_ || _); [done|]. apply result_bind_ok in Hx as ([p g] & Hp & Hx).
    destruct (pa_Persisted p) eqn:Hpp; [|done]. simpl in Hx. simplify_eq. exists p. split; [done|]. split; [done|].
    left. auto.
  - apply result_bind_ok in Hx as ([] & Hrev & Hx). apply result_bind_ok in Hx as ([p g] & Hp & Hx).
    apply result_bind_ok in Hx as (tx' & Htx & Hx). simplify_eq. exists p. split; [done|].
    assert (pt_Prepared tx = p /\ pt_TransactionDigest tx = digest) as [-> ->].
    { unfold finishTransaction in Htx. repeat (apply result_bind_ok in Htx as (? & ? & Htx)).
      destruct x as [s1 m]. destruct (ApplyPreparedAppendToSession s1 p) as [s2 a] eqn:E2.
      apply result_bind_ok in Htx as ([[s3 stt] u] & ? & Htx). by simplify_eq. }
    auto.
Qed.

(** A session mutation that leaves the identity of the row alone. *)
Definition keeps_ref (mutate : option (AppendSessionMutation B)) : Prop :=
  forall f s p s' b, mutate = Some f -> f s p = Ok (s', b) -> s_Ref s' = s_Ref s.

Lemma finishTransaction_inv (req : PrepareAppendTransactionRequest B A) digest p tx :
  keeps_ref (tx_MutateSession req) ->
  finishTransaction req digest p = Ok tx ->
  pt_Prepared tx = p /\
  s_Ref (pt_Session tx) = NormalizeSessionRef (s_Ref (tx_Session req)) /\
  (pt_Changed tx = true -> s_Revision (pt_Session tx) = u64_succ (s_Revision (tx_Session req))) /\
  (pa_Persisted p <> [] -> pt_Changed tx = true) /\
  pt_TransactionID tx = trim_space (tx_TransactionID req) /\
  pt_TransactionDigest tx = digest /\
  pt_RecordTransaction tx = negb (trim_space (tx_TransactionID req) =? "") /\
  (pt_RecordTransaction tx = true -> pt_Changed tx = true).
Proof.
  intros Hk. unfold finishTransaction. intros ([s1 m] & Hm & Hx)%result_bind_ok.
  destruct (ApplyPreparedAppendToSession s1 p) as [s2 a] eqn:Ha.
  apply result_bind_ok in Hx as ([[s3 state] u] & Hu & Hx). simplify_eq/=.
  assert (Hr1 : s_Ref s1 = NormalizeSessionRef (s_Ref (tx_Session req))).
  { unfold runMutation in Hm. destruct (tx_MutateSession req) as [f|] eqn:Ef; [|by simplify_eq].
    by rewrite (Hk f _ _ _ _ eq_refl Hm). }
  assert (Hr2 : s_Ref s2 = s_Ref s1 /\ (pa_Persisted p <> [] -> a = true)).
  { unfold ApplyPreparedAppendToSession in Ha. destruct (pa_Persisted p); simplify_eq; [done|]. by case_match. }
  assert (Hr3 : s_Ref s3 = s_Ref s2).
  { unfold runStateUpdate in Hu. destruct (tx_UpdateState req); [|by simplify_eq].
    destruct (_ || _); [|by simplify_eq]. apply result_bind_ok in Hu as (n & _ & Hu).
    apply result_bind_ok in Hu as (? & _ & Hu). by simplify_eq. }
  destruct Hr2 as [Hr2 Hap].
  split_and!; try done.
  - case_match; simpl; congruence.
  - intros ->. done.
  - intros Hne. rewrite (Hap Hne). by rewrite orb_true_r.
  - intros ->. by rewrite orb_true_r.
Qed.
End TransactionFacts.
