(* ===== verification/IdleCompaction.v ===== *)
(** * Idle compaction: windows, grants and accounting

    Models [agent-sdk/session/idle_compaction.go] and [compaction_receipt.go].
    When a Turn ends its producer may exchange the Session fence for an
    opportunity, the window, in which one fixed checkpoint may still be
    committed without a fence.  A grant binds the window to one checkpoint for
    two seconds; any foreground activity revokes both.  Model calls made in the
    window are reserved in at most eight accounting slots that survive the
    revocation and become journal receipts.

    What the functions read of an event payload and the SHA-256 fingerprints of
    JSON values are the operations of the class [IdleCodec]. *)

From Stdlib Require Import ZArith Lia String.
From stdpp Require Import base list strings option gmap sorting.
From S2P Require Import Prelude GoStrings Fence Events Append.

Local Open Scope string_scope.

(** ** Model invocations ([agent-sdk/model/invocation.go], [model.go]) *)

Record Usage : Type := MkModelUsage {
  us_CacheReadAccounting : string; us_CacheWriteTokens : Z; us_CacheWrite5mTokens : Z; us_CacheWrite1hTokens : Z;
  us_CachedInputTokensReported : bool; us_CacheWriteTokensReported : bool; us_CacheWrite5mTokensReported : bool;
  us_CacheWrite1hTokensReported : bool; us_Reported : bool; us_PromptTokens : Z; us_CachedInputTokens : Z;
  us_CompletionTokens : Z; us_ReasoningTokens : Z; us_TotalTokens : Z; us_CostMicros : Z;
}.

Record Invocation : Type := MkModelInvocation {
  iv_ID : string; iv_StartedAt : Z; iv_FinishedAt : Z; iv_Provider : string; iv_Model : string; iv_Usage : Usage; iv_Outcome : string;
}.

Definition IsReported (u : Usage) : bool :=
  us_Reported u || negb (Z.eqb (us_CacheWriteTokens u) 0) || negb (Z.eqb (us_CacheWrite5mTokens u) 0)
  || negb (Z.eqb (us_CacheWrite1hTokens u) 0) || us_CachedInputTokensReported u || us_CacheWriteTokensReported u
  || us_CacheWrite5mTokensReported u || us_CacheWrite1hTokensReported u || negb (Z.eqb (us_PromptTokens u) 0)
  || negb (Z.eqb (us_CachedInputTokens u) 0) || negb (Z.eqb (us_CompletionTokens u) 0) || negb (Z.eqb (us_ReasoningTokens u) 0)
  || negb (Z.eqb (us_TotalTokens u) 0) || negb (Z.eqb (us_CostMicros u) 0).

(** ** Windows and grants *)

Record IdleCompactionCoverage : Type := MkCoverage { cov_Revision : Z; cov_EventCount : Z; cov_EndSeq : Z; cov_EndID : string }.

Record IdleCompactionSource : Type := MkIdleSource {
  is_JobID : string; is_HostID : string; is_ActivationID : string; is_TurnID : string; is_Stamp : string; is_ThroughSeq : Z;
  is_Coverage : IdleCompactionCoverage;
}.

Record IdleCompactionWindow : Type := MkWindow { iw_ref : SessionRef; iw_jobID : string; iw_token : string; iw_expiresAt : Z }.
Record IdleCompactionGrant : Type := MkIdleGrant { ig_window : IdleCompactionWindow; ig_token : string }.
Record ReleaseForIdleCompactionRequest : Type := MkIdleRelease {
  ri_Release : ReleaseSessionFenceRequest; ri_Source : IdleCompactionSource; ri_window : IdleCompactionWindow;
}.

Record IdleCompactionWindowRecord : Type := MkWindowRecord {
  w_Source : IdleCompactionSource; w_Epoch : Z; w_ClaimDigest : string; w_ExpiresAt : Z; w_GrantDigest : string;
  w_GrantExpiresAt : Z; w_CandidateHash : string; w_CandidateID : string; w_Consumed : bool; w_Revoked : bool;
}.

(** ** Accounting *)

Record CompactionReceiptTicket : Type := MkTicket { ti_ref : SessionRef; ti_invocationID : string; ti_token : string }.
Record BeginCompactionAttemptRequest : Type := MkAttempt { ba_Window : IdleCompactionWindow; ba_Invocation : Invocation }.
Record CompactionAttemptResult : Type := MkAttemptResult { at_Usage : Usage; at_Outcome : string; at_FinishedAt : Z }.
Record CompactionAttemptRecord : Type := MkAttemptRecord {
  ca_Invocation : Invocation; ca_TurnID : string; ca_JobID : string; ca_HostID : string; ca_ClaimDigest : string;
  ca_Result : option CompactionAttemptResult;
}.

Record IdleCompactionState : Type := MkIdle {
  i_Epoch : Z;
  i_Window : option IdleCompactionWindowRecord;
  i_Attempts : gmap string CompactionAttemptRecord;
}.

Definition empty_idle : IdleCompactionState := MkIdle 0 None ∅.

Global Instance IdleCompactionSource_eq_dec : EqDecision IdleCompactionSource.
Proof. assert (EqDecision IdleCompactionCoverage) by solve_decision. solve_decision. Defined.

Definition set_window (w : option IdleCompactionWindowRecord) (s : IdleCompactionState) : IdleCompactionState :=
  MkIdle (i_Epoch s) w (i_Attempts s).
Definition set_attempts (a : gmap string CompactionAttemptRecord) (s : IdleCompactionState) : IdleCompactionState :=
  MkIdle (i_Epoch s) (i_Window s) a.

Definition revoke (w : IdleCompactionWindowRecord) : IdleCompactionWindowRecord :=
  MkWindowRecord (w_Source w) (w_Epoch w) (w_ClaimDigest w) (w_ExpiresAt w) (w_GrantDigest w) (w_GrantExpiresAt w)
    (w_CandidateHash w) (w_CandidateID w) (w_Consumed w) true.
Definition consume (w : IdleCompactionWindowRecord) : IdleCompactionWindowRecord :=
  MkWindowRecord (w_Source w) (w_Epoch w) (w_ClaimDigest w) (w_ExpiresAt w) (w_GrantDigest w) (w_GrantExpiresAt w)
    (w_CandidateHash w) (w_CandidateID w) true (w_Revoked w).

Definition Invalidate (s : IdleCompactionState) : IdleCompactionState :=
  MkIdle (u64_succ (i_Epoch s)) (revoke <$> i_Window s) (i_Attempts s).

Definition idleDenied {R : Type} (detail : string) : result SessionError R := Fail (ErrIdleCompactionRevoked detail).

(** ** Checkpoint coverage ([checkpoint_contract.go]) *)

Record CheckpointData : Type := MkCheckpoint {
  cd_Revision : Z; cd_ContractVersion : Z; cd_SummarizedThroughID : string; cd_SummarizedThroughSeq : Z; cd_Generator : string;
  cd_Trigger : string; cd_SourceEventCount : Z; cd_TotalTokens : Z; cd_ContextWindowTokens : Z; cd_DiscoveredTools : list string;
}.

(** A Session as a store hands it to these functions. *)
Record LoadedSession `{OpenValues} {B : Type} : Type := MkLoaded {
  ls_Session : Session; ls_Events : list (Event B); ls_State : gmap string Any;
}.
Arguments LoadedSession {_} B.

Class IdleCodec `{OpenValues} (B : Type) : Type := {
  IsMainInvocationVisibleEvent : Event B -> bool;                                           (* event_visibility.go *)
  sourceFingerprint : Session -> gmap string Any -> list (Event B) -> result SessionError string;
  idleCheckpointHash : option (Event B) -> result SessionError string;                      (* idle_compaction.go *)
  CheckpointDataFromEvent : Event B -> option CheckpointData;                               (* checkpoint_contract.go *)
  IsModelInvocationReceipt : Event B -> bool;                                               (* invocation.go *)
  idleAttemptReceipt : Invocation -> CompactionAttemptRecord -> SessionRef -> Event B;      (* compaction_receipt.go *)
  stringsFingerprint : list string -> string;
  attemptFingerprint : string -> Invocation -> string;
  invocationFingerprint : Invocation -> string;
  resultFingerprint : CompactionAttemptResult -> string;
}.

Section Idle.
Context `{OV : OpenValues} {B : Type} `{EC : EventCodec B} `{IC : !IdleCodec B}.
Variable sha256_hex : string -> string.
Implicit Types s : IdleCompactionState.

#[local] Abbreviation matches := (sessionFenceClaimMatches sha256_hex).
#[local] Abbreviation Loaded := (LoadedSession B).

Definition CheckpointSourceStamp (loaded : Loaded) : result SessionError string :=
  sourceFingerprint (set_Title "" (set_UpdatedAt zero_time (set_Revision 0 (CloneSession (ls_Session loaded)))))
    (ls_State loaded) (List.filter IsMainInvocationVisibleEvent (ls_Events loaded)).

Definition sourceThrough (events : list (Event B)) : Z :=
  fold_left (fun through e => if IsMainInvocationVisibleEvent e then Z.max through (ev_Seq e) else through) events 0%Z.

(** Whether the coverage proof names a source event, and how many there are. *)
Definition coverageNamed (proof : IdleCompactionCoverage) (events : list (Event B)) : bool :=
  let visible := List.filter IsMainInvocationVisibleEvent events in
  existsb (fun e => Z.eqb (ev_Seq e) (cov_EndSeq proof) && (ev_ID e =? cov_EndID proof)) visible
  && (cov_EventCount proof <=? Z.of_nat (length visible))%Z.

Definition with_expiry (t : Z) (w : IdleCompactionWindow) : IdleCompactionWindow := MkWindow (iw_ref w) (iw_jobID w) (iw_token w) t.

(** The checks of [Release] on a new transition. *)
Definition releaseAllowed (req : ReleaseForIdleCompactionRequest) (active : SessionFence) (loaded : Loaded) : result SessionError unit :=
  let source := ri_Source req in
  if negb (SessionFenceReleaseAuthorized sha256_hex active (ri_Release req)) then idleDenied "original fence claim required" else
  if (is_JobID source =? "") || negb (is_HostID source =? OwnerID active) || (is_ActivationID source =? "") || (is_TurnID source =? "")
     || Z.eqb (is_ThroughSeq source) 0 || (is_Stamp source =? "") || negb (iw_jobID (ri_window req) =? is_JobID source)
  then idleDenied "incomplete source" else
  let! stamp := CheckpointSourceStamp loaded in
  let through := sourceThrough (ls_Events loaded) in
  if negb (stamp =? is_Stamp source) || negb (Z.eqb through (is_ThroughSeq source)) then idleDenied "source changed" else
  let proof := is_Coverage source in
  if ((cov_Revision proof <=? 0) || (cov_EventCount proof <=? 0) || (cov_EndSeq proof =? 0) || (through <? cov_EndSeq proof))%Z
     || (cov_EndID proof =? "") then idleDenied "invalid source coverage proof" else
  if negb (coverageNamed proof (ls_Events loaded)) then idleDenied "coverage proof does not name source events" else Ok tt.

(** The transition that is reconciled: same source, same bearer token. *)
Definition sameTransition (req : ReleaseForIdleCompactionRequest) s : option IdleCompactionWindowRecord :=
  match i_Window s with
  | Some w => if bool_decide (w_Source w = ri_Source req) && matches (w_ClaimDigest w) (iw_token (ri_window req)) then Some w else None
  | None => None
  end.

Definition second : Z := 1000000000.

Definition Release (req : ReleaseForIdleCompactionRequest) (active : SessionFence) (loaded : Loaded) (now : Z) s
  : result SessionError (IdleCompactionWindow * IdleCompactionState) :=
  match sameTransition req s with
  | Some w =>
    if w_Revoked w || negb (Z.eqb (w_Epoch w) (i_Epoch s)) then idleDenied "transition already revoked"
    else Ok (with_expiry (w_ExpiresAt w) (ri_window req), s)
  | None =>
    let! _ := releaseAllowed req active loaded in
    let s := Invalidate s in
    let expires := (now + 180 * second)%Z in
    Ok (with_expiry expires (ri_window req),
        set_window (Some (MkWindowRecord (ri_Source req) (i_Epoch s) (sessionFenceClaimDigest sha256_hex (iw_token (ri_window req)))
                            expires "" 0 "" "" false false)) s)
  end.

Definition windowCurrent (window : IdleCompactionWindow) (active : SessionFence) (loaded : Loaded) (now : Z) s
  : option IdleCompactionWindowRecord :=
  match i_Window s with
  | None => None
  | Some w =>
    if w_Revoked w || w_Consumed w || negb (Z.eqb (w_Epoch w) (i_Epoch s)) || negb (is_JobID (w_Source w) =? iw_jobID window)
       || negb (bool_decide (NormalizeSessionRef (s_Ref (ls_Session loaded)) = iw_ref window))
       || negb (matches (w_ClaimDigest w) (iw_token window)) || negb (now <? w_ExpiresAt w)%Z || SessionFenceIsHeld active
    then None else Some w
  end.

(** The record of a valid window. *)
Definition ValidateWindow (window : IdleCompactionWindow) (active : SessionFence) (loaded : Loaded) (now : Z) s
  : result SessionError IdleCompactionWindowRecord :=
  match windowCurrent window active loaded now s with
  | None => idleDenied "window is not current"
  | Some w =>
    let! stamp := CheckpointSourceStamp loaded in
    if negb (stamp =? is_Stamp (w_Source w)) then idleDenied "source changed" else Ok w
  end.

Definition coverageAgrees (proof : IdleCompactionCoverage) (data : CheckpointData) : bool :=
  Z.eqb (cd_Revision data) (cov_Revision proof) && Z.eqb (cd_SourceEventCount data) (cov_EventCount proof)
  && Z.eqb (cd_SummarizedThroughSeq data) (cov_EndSeq proof) && (cd_SummarizedThroughID data =? cov_EndID proof).

Definition empty_checkpoint : CheckpointData := MkCheckpoint 0 0 "" 0 "" "" 0 0 0 [].

Definition IssueGrant (window : IdleCompactionWindow) (event : option (Event B)) (active : SessionFence) (loaded : Loaded) (now : Z) s
  : result SessionError (IdleCompactionGrant * IdleCompactionState) :=
  let! w := ValidateWindow window active loaded now s in
  let! hash := idleCheckpointHash event in
  let data := default empty_checkpoint (event ≫= CheckpointDataFromEvent) in
  if negb (default "" (ev_SessionID <$> event) =? SessionID (s_Ref (ls_Session loaded)))
     || negb (coverageAgrees (is_Coverage (w_Source w)) data)
  then idleDenied "checkpoint coverage differs from handoff proof" else
  if (is_ThroughSeq (w_Source w) <? cd_SummarizedThroughSeq data)%Z then idleDenied "coverage exceeds source" else
  let token := stringsFingerprint [iw_token window; hash] in
  let grant := MkIdleGrant window token in
  if negb (w_GrantDigest w =? "") then
    if negb (w_CandidateHash w =? hash) || negb (now <? w_GrantExpiresAt w)%Z then idleDenied "grant already issued" else Ok (grant, s)
  else
    Ok (grant, set_window (Some (MkWindowRecord (w_Source w) (w_Epoch w) (w_ClaimDigest w) (w_ExpiresAt w)
                                   (sessionFenceClaimDigest sha256_hex token) (now + 2 * second)%Z hash
                                   (default "" (ev_ID <$> event)) (w_Consumed w) (w_Revoked w))) s).

Record AppendIdleCompactionCheckpointRequest : Type := MkIdleAppend {
  ia_Grant : IdleCompactionGrant; ia_Event : option (Event B); ia_ExpectedRevision : Z;
}.

Definition ValidateAppend (req : AppendIdleCompactionCheckpointRequest) (active : SessionFence) (loaded : Loaded) (now : Z) s
  : result SessionError unit :=
  let! w := ValidateWindow (ig_window (ia_Grant req)) active loaded now s in
  let! hash := idleCheckpointHash (ia_Event req) in
  if negb (matches (w_GrantDigest w) (ig_token (ia_Grant req))) || negb (now <? w_GrantExpiresAt w)%Z
     || negb (hash =? w_CandidateHash w) || negb (default "" (ev_ID <$> ia_Event req) =? w_CandidateID w)
  then idleDenied "grant does not authorize this checkpoint"
  else CheckExpectedRevision (ls_Session loaded) (Some (ia_ExpectedRevision req)).

(** The stored event that carries the identity of [event], if there is one. *)
Definition sameIdentity (event old : Event B) : bool :=
  (ev_ID old =? ev_ID event) || (negb (ev_IdempotencyKey event =? "") && (ev_IdempotencyKey old =? ev_IdempotencyKey event)).

Definition IdleCheckpointReplay (loaded : Loaded) (event : option (Event B)) (now : Z) : result SessionError (option (Event B)) :=
  match event with
  | None => idleDenied "checkpoint required"
  | Some e =>
    match List.find (sameIdentity e) (ls_Events loaded) with
    | None => Ok None
    | Some old =>
      let! p := PrepareEventsForAppend (SessionID (s_Ref (ls_Session loaded))) [Some e] [Some old] ∅ 0 now None tt in
      match pa_Persisted p.1, pa_Events p.1 with
      | [], [stored] => Ok (Some stored)
      | _, _ => idleDenied "checkpoint identity conflict"
      end
    end
  end.

Definition RevokeWindow (window : IdleCompactionWindow) s : IdleCompactionState :=
  match i_Window s with
  | Some w => if (is_JobID (w_Source w) =? iw_jobID window) && matches (w_ClaimDigest w) (iw_token window) then Invalidate s else s
  | None => s
  end.

(** ** Attempts *)

Definition attemptIdentity (i : Invocation) : bool :=
  negb ((iv_ID i =? "") || (iv_Provider i =? "") || (iv_Model i =? "") || Z.eqb (iv_StartedAt i) zero_time || IsReported (iv_Usage i)
        || negb (iv_Outcome i =? "") || negb (Z.eqb (iv_FinishedAt i) zero_time)).

Definition receiptIn (id : string) (events : list (Event B)) : option (Event B) :=
  List.find (fun e => IsModelInvocationReceipt e && (ev_ID e =? id)) events.

Definition BeginAttempt (req : BeginCompactionAttemptRequest) (active : SessionFence) (loaded : Loaded) (now : Z) s
  : result SessionError (CompactionReceiptTicket * IdleCompactionState) :=
  let! w := ValidateWindow (ba_Window req) active loaded now s in
  let i := ba_Invocation req in
  if negb (attemptIdentity i) then idleDenied "invalid attempt identity" else
  match receiptIn (iv_ID i) (ls_Events loaded) with
  | Some _ => idleDenied "attempt already finalized"
  | None =>
    let token := attemptFingerprint (iw_token (ba_Window req)) i in
    let ticket := MkTicket (iw_ref (ba_Window req)) (iv_ID i) token in
    match i_Attempts s !! iv_ID i with
    | Some old =>
      if negb (invocationFingerprint (ca_Invocation old) =? invocationFingerprint i) || negb (matches (ca_ClaimDigest old) token)
      then idleDenied "attempt identity conflict" else Ok (ticket, s)
    | None =>
      if (8 <=? size (i_Attempts s))%nat then idleDenied "pending accounting capacity exhausted" else
      Ok (ticket, set_attempts (<[iv_ID i := MkAttemptRecord i (is_TurnID (w_Source w)) (is_JobID (w_Source w)) (is_HostID (w_Source w))
                                               (sessionFenceClaimDigest sha256_hex token) None]> (i_Attempts s)) s)
    end
  end.

Definition knownOutcome (o : string) : bool := (o =? "completed") || (o =? "failed") || (o =? "cancelled") || (o =? "unknown").

Definition seal (result : CompactionAttemptResult) (r : CompactionAttemptRecord) : CompactionAttemptRecord :=
  MkAttemptRecord (ca_Invocation r) (ca_TurnID r) (ca_JobID r) (ca_HostID r) (ca_ClaimDigest r) (Some result).

Definition StageReceipt (ticket : CompactionReceiptTicket) (res : CompactionAttemptResult) s : result SessionError IdleCompactionState :=
  match i_Attempts s !! ti_invocationID ticket with
  | None => idleDenied "unknown accounting claim"
  | Some r =>
    if negb (matches (ca_ClaimDigest r) (ti_token ticket)) then idleDenied "unknown accounting claim" else
    if negb (knownOutcome (at_Outcome res)) then idleDenied "invalid attempt outcome" else
    if Z.eqb (at_FinishedAt res) zero_time then idleDenied "invalid attempt completion time" else
    match ca_Result r with
    | Some old => if negb (resultFingerprint old =? resultFingerprint res) then idleDenied "sealed accounting payload conflict" else Ok s
    | None => Ok (set_attempts (<[ti_invocationID ticket := seal res r]> (i_Attempts s)) s)
    end
  end.

(** An invocation with the result of its attempt. *)
Definition settled (usage : Usage) (outcome : string) (finished : Z) (i : Invocation) : Invocation :=
  MkModelInvocation (iv_ID i) (iv_StartedAt i) finished (iv_Provider i) (iv_Model i) usage outcome.

Definition ReceiptEvent (ticket : CompactionReceiptTicket) (loaded : Loaded) s : result SessionError (Event B) :=
  if (ti_token ticket =? "") || negb (bool_decide (ti_ref ticket = NormalizeSessionRef (s_Ref (ls_Session loaded))))
  then idleDenied "invalid receipt session" else
  match i_Attempts s !! ti_invocationID ticket with
  | Some r =>
    match ca_Result r with
    | Some res =>
      if negb (matches (ca_ClaimDigest r) (ti_token ticket)) then idleDenied "receipt is not sealed" else
      Ok (idleAttemptReceipt (settled (at_Usage res) (at_Outcome res) (at_FinishedAt res) (ca_Invocation r)) r (ti_ref ticket))
    | None => idleDenied "receipt is not sealed"
    end
  | None =>
    match receiptIn (ti_invocationID ticket) (ls_Events loaded) with
    | Some e => Ok (CloneEvent e)
    | None => Fail (ErrReceiptNotFound (ti_invocationID ticket))
    end
  end.

Definition ForgetReceipt (ticket : CompactionReceiptTicket) s : IdleCompactionState :=
  set_attempts (delete (ti_invocationID ticket) (i_Attempts s)) s.

Definition CancelReservation (req : BeginCompactionAttemptRequest) s : result SessionError IdleCompactionState :=
  match i_Attempts s !! iv_ID (ba_Invocation req) with
  | None => Ok s
  | Some r =>
    if negb (matches (ca_ClaimDigest r) (attemptFingerprint (iw_token (ba_Window req)) (ba_Invocation req)))
       || bool_decide (is_Some (ca_Result r)) then idleDenied "reservation is not cancellable"
    else Ok (set_attempts (delete (iv_ID (ba_Invocation req)) (i_Attempts s)) s)
  end.

(** An attempt that stays pending in the recovery of [host]. *)
Definition staysPending (host : string) (r : CompactionAttemptRecord) : bool :=
  negb (bool_decide (is_Some (ca_Result r))) && (ca_HostID r =? host).

(** The invocation that recovery journals. *)
Definition recoveredInvocation (now : Z) (r : CompactionAttemptRecord) : Invocation :=
  match ca_Result r with
  | Some res => settled (at_Usage res) (at_Outcome res) (at_FinishedAt res) (ca_Invocation r)
  | None =>
    settled (iv_Usage (ca_Invocation r)) "unknown"
      (if (now <? iv_StartedAt (ca_Invocation r))%Z then iv_StartedAt (ca_Invocation r) else now) (ca_Invocation r)
  end.

(** [slices.Sort] of the identifiers of the pending attempts. *)
Definition sortedIDs (a : gmap string CompactionAttemptRecord) : list string := merge_sort String.le (elements (dom a)).

Definition RecoverReceipts (currentHost : string) (ref : SessionRef) (now : Z) s : list (Event B) * IdleCompactionState :=
  let s := match i_Window s with
           | Some w => if negb (w_Revoked w) && negb (is_HostID (w_Source w) =? currentHost) then Invalidate s else s
           | None => s
           end in
  fold_left (fun '(events, s) id =>
    match i_Attempts s !! id with
    | None => (events, s)
    | Some r =>
      if staysPending currentHost r then (events, s)
      else ((events ++ [idleAttemptReceipt (recoveredInvocation now r) r ref])%list, set_attempts (delete id (i_Attempts s)) s)
    end) (sortedIDs (i_Attempts s)) ([], s).
End Idle.
