(* ===== verification/MemStore.v ===== *)
(** * The in-memory Session store

    Models [agent-sdk/session/memory/store.go], [memory/fence.go] and
    [memory/idle_compaction.go]: the map of
    Session records under one store lock.  Every operation is a function from
    the store (and the ID generator, the clock value and the drawn random
    tokens) to its result and the store it leaves behind, so what an operation
    changes before it fails is visible. *)

From Stdlib Require Import ZArith Lia String Sorted.
From stdpp Require Import base list strings option gmap.
From S2P Require Import Prelude GoStrings Fence Events Append IdleCompaction.

Local Open Scope string_scope.

(** ** Event and Session identifiers *)

(** The generators of a store: the optional custom generator and
    [identity.New], each as the stream of the values it will return. *)
Record IDSource : Type := MkIDSource {
  custom : option (nat -> string);
  fresh : nat -> string;
  customUsed : nat;
  freshUsed : nat;
}.

Definition takeFresh (src : IDSource) : string * IDSource :=
  (fresh src (freshUsed src), MkIDSource (custom src) (fresh src) (customUsed src) (S (freshUsed src))).

Definition nextID (src : IDSource) : string * IDSource :=
  match custom src with
  | Some g =>
    let id := trim_space (g (customUsed src)) in
    let src' := MkIDSource (custom src) (fresh src) (S (customUsed src)) (freshUsed src) in
    if id =? "" then takeFresh src' else (id, src')
  | None => takeFresh src
  end.

(** The eight attempts with the store's generator. *)
Fixpoint tryGenerated (attempts : nat) (src : IDSource) (existing : gset string) : option string * IDSource :=
  match attempts with
  | O => (None, src)
  | S attempts =>
    let (raw, src') := nextID src in
    let id := trim_space raw in
    if id =? "" then tryGenerated attempts src' existing
    else if bool_decide (id ∈ existing) then tryGenerated attempts src' existing
    else (Some id, src')
  end.

(** The unbounded loop on [identity.New], with fuel. *)
Fixpoint drawUnused (fuel : nat) (src : IDSource) (existing : gset string) : option string * IDSource :=
  match fuel with
  | O => (None, src)
  | S fuel =>
    let (id, src') := takeFresh src in
    if bool_decide (id ∈ existing) then drawUnused fuel src' existing else (Some id, src')
  end.

(** [ensureUniqueEventID].  The loop gets one draw more than there are IDs in
    use, which is enough for a generator that does not repeat itself
    ([drawUnused_total]); with less luck the source would loop, the model
    leaves the event as it is. *)
Definition ensureUniqueEventID {B} (src : IDSource) (event : Event B) (existing : gset string) : Event B * IDSource :=
  let id := trim_space (ev_ID event) in
  if negb (id =? "") && negb (bool_decide (id ∈ existing)) then (set_ID id event, src)
  else
    let '(found, src) := tryGenerated 8 src existing in
    match found with
    | Some id => (set_ID id event, src)
    | None =>
      let '(found, src) := drawUnused (S (size existing)) src existing in
      (match found with Some id => set_ID id event | None => event end, src)
    end.

(** [identity.New] never repeats a value and returns trimmed, non-empty IDs. *)
Class FreshSource (src : IDSource) : Prop := {
  fresh_inj : forall i j, fresh src i = fresh src j -> i = j;
  fresh_trim : forall i, trim_space (fresh src i) = fresh src i;
  fresh_nonempty : forall i, fresh src i <> "";
}.

Lemma drawUnused_total src existing :
  (forall i j, fresh src i = fresh src j -> i = j) ->
  exists i, (drawUnused (S (size existing)) src existing).1 = Some (fresh src i) /\ fresh src i ∉ existing.
Proof.
  intros Hinj.
  assert (Hgen : forall fuel src seen, (forall i j, fresh src i = fresh src j -> i = j) ->
    seen ⊆ existing -> (forall i, (freshUsed src <= i)%nat -> fresh src i ∉ seen) ->
    (size existing < size seen + fuel)%nat ->
    exists i, (drawUnused fuel src existing).1 = Some (fresh src i) /\ fresh src i ∉ existing).
  { clear src Hinj. intros fuel. induction fuel as [|fuel IH]; intros src seen Hinj Hsub Hnew Hsz.
    - apply subseteq_size in Hsub. lia.
    - simpl. destruct (bool_decide (fresh src (freshUsed src) ∈ existing)) eqn:E.
      + apply bool_decide_eq_true in E.
        destruct (IH (MkIDSource (custom src) (fresh src) (customUsed src) (S (freshUsed src)))
                    ({[fresh src (freshUsed src)]} ∪ seen)) as (i & Hi & Hni); eauto.
        * set_solver.
        * simpl. intros i Hi [Heq%elem_of_singleton|Hs]%elem_of_union.
          -- apply Hinj in Heq. lia.
          -- by apply (Hnew i); [lia|].
        * rewrite size_union, size_singleton; [lia|]. specialize (Hnew (freshUsed src)).
          set_solver by lia.
      + apply bool_decide_eq_false in E. eauto. }
  apply (Hgen _ _ ∅); [done|set_solver|set_solver|rewrite size_empty; lia].
Qed.

Lemma takeFresh_source src : fresh (takeFresh src).2 = fresh src.
Proof. done. Qed.

Lemma nextID_source src : fresh (nextID src).2 = fresh src.
Proof. unfold nextID. destruct (custom src); [|done]. by case_match. Qed.

Lemma tryGenerated_spec k src existing :
  fresh (tryGenerated k src existing).2 = fresh src /\
  forall id, (tryGenerated k src existing).1 = Some id -> (id ∉ existing) /\ trim_space id = id /\ id <> "".
Proof.
  revert src. induction k as [|k IH]; intros src; simpl; [done|].
  pose proof (nextID_source src) as Hsrc. destruct (nextID src) as [raw src'] eqn:E. simpl in Hsrc.
  rewrite <- Hsrc. destruct (String.eqb_spec (trim_space raw) ""); [apply IH|].
  case_bool_decide; [apply IH|]. simpl. split; [done|].
  intros id [= <-]. by rewrite trim_space_idem.
Qed.

Lemma drawUnused_source k src existing : fresh (drawUnused k src existing).2 = fresh src.
Proof. revert src. induction k as [|k IH]; intros src; simpl; [done|]. case_match; [by rewrite IH|done]. Qed.

Local Arguments drawUnused : simpl never.

Lemma fresh_source_eq src src' : fresh src' = fresh src -> FreshSource src -> FreshSource src'.
Proof. intros Heq [Hi Ht Hn]. split; rewrite Heq; auto. Qed.

Lemma ensureUniqueEventID_fresh {B} : allocator_fresh FreshSource (@ensureUniqueEventID B).
Proof.
  intros src n ids Hsrc. unfold ensureUniqueEventID.
  destruct (negb (trim_space (ev_ID n) =? "") && negb (bool_decide (trim_space (ev_ID n) ∈ ids))) eqn:E.
  { split; [|done]. apply andb_true_iff in E as [E1%negb_true_iff%String.eqb_neq E2%negb_true_iff].
    apply bool_decide_eq_false in E2. exists (trim_space (ev_ID n)). by rewrite trim_space_idem. }
  destruct (tryGenerated_spec 8 src ids) as [Hs Hid].
  destruct (tryGenerated 8 src ids) as [[id|] src1]; simpl in *.
  { split; [exists id; split; [done|by apply Hid]|by eapply fresh_source_eq]. }
  apply (fresh_source_eq _ src1) in Hsrc; [|done].
  destruct (drawUnused_total src1 ids) as (i & Hi & Hni); [apply Hsrc|].
  pose proof (drawUnused_source (S (size ids)) src1 ids) as Hs'.
  destruct (drawUnused (S (size ids)) src1 ids) as [o src2]. cbn [fst snd] in *. subst o.
  split; [|simpl; eapply fresh_source_eq; eassumption].
  exists (fresh src1 i). destruct Hsrc as [_ Ht Hn]. auto.
Qed.

Section Store.
Context `{OV : OpenValues} {B : Type} `{EC : EventCodec B} `{IC : !IdleCodec B}.
Variable sha256_hex : string -> string.

(** ** Records and the store *)

Record record : Type := MkRecord {
  rc_idle : IdleCompactionState;
  rc_session : Session;
  rc_events : list (Event B);
  rc_state : gmap string Any;
  rc_applied : gset string;              (* appliedTransactions *)
  rc_digests : gmap string string;       (* appliedTransactionDigests *)
  rc_fence : SessionFence;
  rc_fenceEpoch : Z;
}.

Record Store : Type := MkStore {
  st_sessions : gmap string record;
  st_ids : IDSource;
}.

Definition set_idle (v : IdleCompactionState) (r : record) : record :=
  MkRecord v (rc_session r) (rc_events r) (rc_state r) (rc_applied r) (rc_digests r) (rc_fence r) (rc_fenceEpoch r).
Definition set_session (v : Session) (r : record) : record :=
  MkRecord (rc_idle r) v (rc_events r) (rc_state r) (rc_applied r) (rc_digests r) (rc_fence r) (rc_fenceEpoch r).
Definition set_state (v : gmap string Any) (r : record) : record :=
  MkRecord (rc_idle r) (rc_session r) (rc_events r) v (rc_applied r) (rc_digests r) (rc_fence r) (rc_fenceEpoch r).
Definition set_fence (v : SessionFence) (epoch : Z) (r : record) : record :=
  MkRecord (rc_idle r) (rc_session r) (rc_events r) (rc_state r) (rc_applied r) (rc_digests r) v epoch.

Definition ref_field_matches (wanted actual : string) : bool := (wanted =? "") || (actual =? wanted).

Definition lookupLocked (st : Store) (ref : SessionRef) : option record :=
  let n := NormalizeSessionRef ref in
  match st_sessions st !! SessionID n with
  | None => None
  | Some r =>
    let a := s_Ref (rc_session r) in
    if ref_field_matches (AppName n) (AppName a) && ref_field_matches (UserID n) (UserID a)
       && ref_field_matches (WorkspaceKey n) (WorkspaceKey a)
    then Some r else None
  end.

Definition putRecord (ref : SessionRef) (r : record) (st : Store) : Store :=
  MkStore (<[SessionID (NormalizeSessionRef ref) := r]> (st_sessions st)) (st_ids st).

Definition withIDs (ids : IDSource) (st : Store) : Store := MkStore (st_sessions st) ids.

(** [record.authorizeMutation]: the shared guard decision, then the idle
    window is invalidated whatever the mutation does afterwards. *)
Definition authorizeMutation (guard : MutationGuard) (r : record) : result SessionError record :=
  match AuthorizeMutationGuard sha256_hex (rc_fence r) guard with
  | Fail e => Fail e
  | Ok _ => Ok (set_idle (Invalidate (rc_idle r)) r)
  end.

Definition existingEventIDSet (events : list (Event B)) : gset string :=
  list_to_set (List.filter (fun id => negb (id =? "")) (map (fun e => trim_space (ev_ID e)) events)).

(** ** Append transactions of a record *)

Definition transactionRequest (now : Z) (r : record) (events : list (option (Event B)))
  (mutate : option (AppendSessionMutation B)) (update : option (AppendStateUpdate B))
  (expected : option Z) (transactionID mutationDigest : string) : PrepareAppendTransactionRequest B IDSource :=
  MkTxRequest (rc_session r) (rc_state r) events (Some <$> rc_events r) (existingEventIDSet (rc_events r))
    expected transactionID mutationDigest
    (bool_decide (trim_space transactionID ∈ rc_applied r))
    (default "" (rc_digests r !! trim_space transactionID))
    (LastEventSeq (Some <$> rc_events r)) now (Some ensureUniqueEventID) mutate update.

Definition applyAppendTransactionToRecord (tx : PreparedAppendTransaction B) (r : record) : record :=
  if negb (pt_Changed tx) then r else
  MkRecord (rc_idle r) (CloneSession (pt_Session tx))
    (rc_events r ++ map CloneEvent (pa_Persisted (pt_Prepared tx)))
    (pt_State tx)
    (if pt_RecordTransaction tx then {[pt_TransactionID tx]} ∪ rc_applied r else rc_applied r)
    (if pt_RecordTransaction tx then <[pt_TransactionID tx := pt_TransactionDigest tx]> (rc_digests r) else rc_digests r)
    (rc_fence r) (rc_fenceEpoch r).

(** Prepare and apply on a record that has been authorised already.  A failed
    preparation leaves the record; identifiers it drew are not recorded. *)
Definition appendToRecord (now : Z) (r : record) (ids : IDSource) (events : list (option (Event B)))
  (mutate : option (AppendSessionMutation B)) (update : option (AppendStateUpdate B))
  (expected : option Z) (transactionID mutationDigest : string)
  : result SessionError (PreparedAppendTransaction B) * (record * IDSource) :=
  match PrepareAppendTransaction (transactionRequest now r events mutate update expected transactionID mutationDigest) ids with
  | Fail e => (Fail e, (r, ids))
  | Ok (tx, ids') => (Ok tx, (applyAppendTransactionToRecord tx r, ids'))
  end.

(** Lookup, authorise, run on the record, store it back. *)
Definition mutateSession {R : Type} (ref : SessionRef) (guard : MutationGuard)
  (body : record -> IDSource -> result SessionError R * (record * IDSource)) (st : Store)
  : result SessionError R * Store :=
  match lookupLocked st ref with
  | None => (Fail ErrSessionNotFound, st)
  | Some r =>
    match authorizeMutation guard r with
    | Fail e => (Fail e, st)
    | Ok r =>
      let '(res, (r', ids')) := body r (st_ids st) in
      (res, withIDs ids' (putRecord ref r' st))
    end
  end.

(** A body that either fails, leaving the record as authorised, or commits. *)
Definition commit {R : Type} (r : record) (ids : IDSource) (m : result SessionError (R * record))
  : result SessionError R * (record * IDSource) :=
  match m with
  | Ok (x, r') => (Ok x, (r', ids))
  | Fail e => (Fail e, (r, ids))
  end.

Definition bumpRevision (now : Z) (s : Session) : Session :=
  set_UpdatedAt now (set_Revision (u64_succ (s_Revision s)) s).

(** ** Sessions *)

Record StartSessionRequest : Type := MkStart {
  ss_AppName : string; ss_UserID : string; ss_WorkspaceKey : string; ss_WorkspaceCWD : string;
  ss_PreferredSessionID : string; ss_Title : string; ss_Metadata : gmap string Any;
  ss_ExecutionConfig : option ExecutionConfig; ss_Controller : ControllerBinding;
}.

Definition empty_record (s : Session) : record :=
  MkRecord empty_idle s [] ∅ ∅ ∅ no_fence 0.

(** The second half of [StartSession], under the store lock. *)
Definition createOrReuse (now : Z) (req : StartSessionRequest) (ref : SessionRef) (st : Store)
  : result SessionError Session * Store :=
  match st_sessions st !! SessionID ref with
  | Some existing =>
    if negb (EqualExecutionConfig (s_ExecutionConfig (rc_session existing)) (ss_ExecutionConfig req))
    then (Fail ErrInvalidSession, st)
    else (Ok (CloneSession (rc_session existing)), st)
  | None =>
    let created := MkSession ref 0 (trim_space (ss_WorkspaceCWD req)) (ss_ExecutionConfig req)
                     (trim_space (ss_Title req)) (ss_Metadata req)
                     (CloneControllerBinding (ss_Controller req)) [] now now in
    (Ok (CloneSession created),
     MkStore (<[SessionID ref := empty_record created]> (st_sessions st)) (st_ids st))
  end.

Definition StartSession (now : Z) (req : StartSessionRequest) (st : Store) : result SessionError Session * Store :=
  match ValidateMetadata (ss_Metadata req) with
  | Fail e => (Fail e, st)
  | Ok _ =>
    if negb (ValidateExecutionConfig (ss_ExecutionConfig req)) then (Fail (ErrInvalidValue "execution_config"), st) else
    let ref := NormalizeSessionRef (MkSessionRef (ss_AppName req) (ss_UserID req) (ss_PreferredSessionID req)
                                      (ss_WorkspaceKey req)) in
    if (AppName ref =? "") || (UserID ref =? "") then (Fail ErrInvalidSession, st) else
    if SessionID ref =? "" then
      let (id, ids) := nextID (st_ids st) in
      createOrReuse now req (MkSessionRef (AppName ref) (UserID ref) id (WorkspaceKey ref)) (withIDs ids st)
    else createOrReuse now req ref st
  end.

Definition readRecord {R : Type} (ref : SessionRef) (k : record -> R) (st : Store) : result SessionError R :=
  match lookupLocked st ref with
  | None => Fail ErrSessionNotFound
  | Some r => Ok (k r)
  end.

Definition SessionOf (ref : SessionRef) (st : Store) : result SessionError Session :=
  readRecord ref (fun r => CloneSession (rc_session r)) st.

Definition EventsOf (ref : SessionRef) (limit : Z) (includeTransient : bool) (st : Store)
  : result SessionError (list (Event B)) :=
  readRecord ref (fun r => FilterEvents (Some <$> rc_events r) limit includeTransient) st.

Definition EventsPage (req : EventPageRequest) (st : Store) : result SessionError (EventPage B) :=
  readRecord (pr_SessionRef req) (fun r => PageEvents (Some <$> rc_events r) req) st.

Definition SnapshotState (ref : SessionRef) (st : Store) : result SessionError (gmap string Any) :=
  readRecord ref rc_state st.

(** ** Appends *)

Record AppendEventRequest : Type := MkAppend {
  ae_SessionRef : SessionRef;
  ae_ExpectedRevision : option Z;
  ae_MutationGuard : MutationGuard;
  ae_Event : option (Event B);
}.

(** The stored event and whether the transaction changed the Session. *)
Definition appendOutcome (tx : PreparedAppendTransaction B) : option (Event B) * bool :=
  (CloneEvent <$> head (pa_Events (pt_Prepared tx)), pt_Changed tx).

Definition mapResult {R S : Type} (f : R -> S) (x : result SessionError R * (record * IDSource))
  : result SessionError S * (record * IDSource) :=
  (match x.1 with Ok r => Ok (f r) | Fail e => Fail e end, x.2).

Definition AppendEventWithOutcome (now : Z) (req : AppendEventRequest) (st : Store)
  : result SessionError (option (Event B) * bool) * Store :=
  match ae_Event req with
  | None => (Fail ErrInvalidEvent, st)
  | Some e =>
    mutateSession (ae_SessionRef req) (ae_MutationGuard req) (fun r ids =>
      mapResult appendOutcome (appendToRecord now r ids [Some e] None None (ae_ExpectedRevision req) "" "")) st
  end.

Fixpoint checkRelated (st : Store) (related : list (SessionRef * Z)) : result SessionError unit :=
  match related with
  | [] => Ok tt
  | (ref, expected) :: rest =>
    match lookupLocked st ref with
    | None => Fail ErrSessionNotFound
    | Some r =>
      match CheckExpectedRevision (rc_session r) (Some expected) with
      | Fail e => Fail e
      | Ok _ => checkRelated st rest
      end
    end
  end.

(** The related revisions are read under the same lock as the append. *)
Definition AppendEventWithOutcomeConditional (now : Z) (req : AppendEventRequest) (related : list (SessionRef * Z))
  (st : Store) : result SessionError (option (Event B) * bool) * Store :=
  match ae_Event req with
  | None => (Fail ErrInvalidEvent, st)
  | Some e =>
    mutateSession (ae_SessionRef req) (ae_MutationGuard req) (fun r ids =>
      match checkRelated st related with
      | Fail err => (Fail err, (r, ids))
      | Ok _ =>
        mapResult appendOutcome (appendToRecord now r ids [Some e] None None (ae_ExpectedRevision req) "" "")
      end) st
  end.

Definition AppendEvents (now : Z) (ref : SessionRef) (expected : option Z) (guard : MutationGuard)
  (events : list (option (Event B))) (st : Store) : result SessionError (list (Event B)) * Store :=
  match events with
  | [] => (Ok [], st)
  | _ =>
    mutateSession ref guard (fun r ids =>
      mapResult (fun tx => map CloneEvent (pa_Events (pt_Prepared tx)))
        (appendToRecord now r ids events None None expected "" "")) st
  end.

Definition AppendEventsAndUpdateState (now : Z) (ref : SessionRef) (expected : option Z) (guard : MutationGuard)
  (transactionID mutationDigest : string) (events : list (option (Event B)))
  (update : option (AppendStateUpdate B)) (st : Store) : result SessionError (list (Event B)) * Store :=
  if (length events =? 0)%nat && negb (bool_decide (is_Some update)) then (Ok [], st) else
  mutateSession ref guard (fun r ids =>
    mapResult (fun tx => map CloneEvent (pa_Events (pt_Prepared tx)))
      (appendToRecord now r ids events None update expected transactionID mutationDigest)) st.

(** ** Approval recovery ([approval_recovery.go]) *)

Record SettlePendingApprovalRequest : Type := MkSettle {
  sp_SessionRef : SessionRef;
  sp_ExpectedRevision : option Z;
  sp_MutationGuard : MutationGuard;
  sp_ApprovalRequestID : string;
  sp_ExpectedRequestEventID : string;
  sp_ExpectedRequestSeq : Z;
  sp_Settlement : option (Event B);
}.

Definition ValidateSettlePendingApprovalRequest (req : SettlePendingApprovalRequest) : result SessionError unit :=
  let requestID := trim_space (sp_ApprovalRequestID req) in
  if (SessionID (NormalizeSessionRef (sp_SessionRef req)) =? "") || (requestID =? "")
     || negb (bool_decide (is_Some (sp_ExpectedRevision req)))
     || (trim_space (sp_ExpectedRequestEventID req) =? "") || Z.eqb (sp_ExpectedRequestSeq req) 0
  then Fail ErrInvalidTransaction
  else match sp_Settlement req with
       | None => Fail ErrInvalidEvent
       | Some e =>
         if negb (ev_Type e =? EventTypeLifecycle) || negb (bool_decide (is_Some (ev_Lifecycle e)))
            || HasProtocolPermission e || negb (trim_space (ev_ApprovalRequestID e) =? requestID)
         then Fail ErrInvalidEvent else Ok tt
       end.

Definition PendingApprovalMatches (current : option (Event B)) (req : SettlePendingApprovalRequest) : bool :=
  match current with
  | None => false
  | Some e =>
    (trim_space (ev_ApprovalRequestID e) =? trim_space (sp_ApprovalRequestID req))
    && (trim_space (ev_ID e) =? trim_space (sp_ExpectedRequestEventID req))
    && Z.eqb (ev_Seq e) (sp_ExpectedRequestSeq req)
    && HasProtocolPermission e
  end.

(** The request of [requestID] with no later settlement. *)
Definition pendingStep (requestID : string) (pending : option (Event B)) (e : Event B) : option (Event B) :=
  if negb (trim_space (ev_ApprovalRequestID e) =? requestID) then pending
  else if HasProtocolPermission e then Some e
  else if bool_decide (is_Some (ev_Lifecycle e)) then None
  else pending.

Definition pendingApprovalForEvents (events : list (Event B)) (approvalRequestID : string) : option (Event B) :=
  fold_left (pendingStep (trim_space approvalRequestID)) events None.

(** Whether it settled, and the stored settlement. *)
Definition SettlePendingApproval (now : Z) (req : SettlePendingApprovalRequest) (st : Store)
  : result SessionError (bool * option (Event B)) * Store :=
  match ValidateSettlePendingApprovalRequest req with
  | Fail e => (Fail e, st)
  | Ok _ =>
    match lookupLocked st (sp_SessionRef req) with
    | None => (Fail ErrSessionNotFound, st)
    | Some r =>
      if negb (PendingApprovalMatches (pendingApprovalForEvents (rc_events r) (sp_ApprovalRequestID req)) req)
      then (Ok (false, None), st)
      else
        mutateSession (sp_SessionRef req) (sp_MutationGuard req) (fun r ids =>
          match CheckExpectedRevision (rc_session r) (sp_ExpectedRevision req) with
          | Fail e => (Fail e, (r, ids))
          | Ok _ =>
            mapResult (fun tx => (pt_Changed tx, CloneEvent <$> head (pa_Events (pt_Prepared tx))))
              (appendToRecord now r ids [sp_Settlement req] None None (sp_ExpectedRevision req) "" "")
          end) st
    end
  end.

(** ** Controller and participants *)

Definition BindController (now : Z) (ref : SessionRef) (guard : MutationGuard) (binding : ControllerBinding)
  (st : Store) : result SessionError Session * Store :=
  mutateSession ref guard (fun r ids =>
    let s := bumpRevision now (set_Controller (CloneControllerBinding binding) (rc_session r)) in
    (Ok (CloneSession s), (set_session s r, ids))) st.

(** The Session row after an append and the stored event. *)
Definition appendWithMutation (now : Z) (ref : SessionRef) (guard : MutationGuard) (event : option (Event B))
  (mutate : AppendSessionMutation B) (update : option (AppendStateUpdate B)) (expected : option Z)
  (transactionID mutationDigest : string) (st : Store)
  : result SessionError (Session * option (Event B)) * Store :=
  mutateSession ref guard (fun r ids =>
    let x := appendToRecord now r ids [event] (Some mutate) update expected transactionID mutationDigest in
    mapResult (fun tx => (CloneSession (rc_session x.2.1), CloneEvent <$> head (pa_Events (pt_Prepared tx)))) x) st.

Definition BindControllerWithEvent (now : Z) (ref : SessionRef) (expected : option Z) (guard : MutationGuard)
  (transactionID mutationDigest : string) (binding : ControllerBinding) (event : option (Event B))
  (update : option (AppendStateUpdate B)) (st : Store)
  : result SessionError (Session * option (Event B)) * Store :=
  appendWithMutation now ref guard event
    (fun s _ => Ok (set_Controller (CloneControllerBinding binding) s, true))
    update expected transactionID mutationDigest st.

(** The delegation an attach must find: the requested one, else its own. *)
Definition expectedDelegation (expected : option string) (binding : ParticipantBinding) : string :=
  match expected with
  | Some d => trim_space d
  | None => trim_space (p_DelegationID binding)
  end.

Definition checkAttach (expected : option string) (binding : ParticipantBinding) (s : Session)
  : result SessionError unit :=
  if trim_space (p_ID binding) =? "" then Ok tt
  else CheckParticipantDelegation s (p_ID binding) (expectedDelegation expected binding).

Definition checkDetach (expected : option string) (participantID : string) (s : Session) : result SessionError unit :=
  match expected with
  | None => Ok tt
  | Some d => CheckParticipantDelegation s participantID d
  end.

(** Commit a row change with the next revision, when there is one. *)
Definition commitRow (now : Z) (r : record) (change : Session * bool) : Session * record :=
  let s := if change.2 then bumpRevision now change.1 else change.1 in
  (CloneSession s, set_session s r).

Definition PutParticipant (now : Z) (ref : SessionRef) (expectedRevision : option Z) (guard : MutationGuard)
  (expected : option string) (binding : ParticipantBinding) (st : Store) : result SessionError Session * Store :=
  mutateSession ref guard (fun r ids => commit r ids (
    let! _ := CheckExpectedRevision (rc_session r) expectedRevision in
    let! _ := checkAttach expected binding (rc_session r) in
    Ok (commitRow now r (PutParticipantBinding (rc_session r) binding)))) st.

Definition PutParticipantWithEvent (now : Z) (ref : SessionRef) (expectedRevision : option Z) (guard : MutationGuard)
  (expected : option string) (binding : ParticipantBinding) (event : option (Event B)) (st : Store)
  : result SessionError (Session * option (Event B)) * Store :=
  appendWithMutation now ref guard event
    (fun s _ => let! _ := checkAttach expected binding s in Ok (PutParticipantBinding s binding))
    None expectedRevision "" "" st.

Definition RemoveParticipant (now : Z) (ref : SessionRef) (expectedRevision : option Z) (guard : MutationGuard)
  (participantID : string) (expected : option string) (st : Store) : result SessionError Session * Store :=
  mutateSession ref guard (fun r ids => commit r ids (
    let! _ := CheckExpectedRevision (rc_session r) expectedRevision in
    let! _ := checkDetach expected participantID (rc_session r) in
    Ok (commitRow now r (RemoveParticipantBinding (rc_session r) participantID)))) st.

Definition RemoveParticipantWithEvent (now : Z) (ref : SessionRef) (expectedRevision : option Z)
  (guard : MutationGuard) (participantID : string) (expected : option string) (event : option (Event B)) (st : Store)
  : result SessionError (Session * option (Event B)) * Store :=
  appendWithMutation now ref guard event
    (fun s _ => let! _ := checkDetach expected participantID s in Ok (RemoveParticipantBinding s participantID))
    None expectedRevision "" "" st.

(** ** State *)

Definition ReplaceState (now : Z) (ref : SessionRef) (expected : option Z) (guard : MutationGuard)
  (state : gmap string Any) (st : Store) : result SessionError Session * Store :=
  match ValidateState state with
  | Fail e => (Fail e, st)
  | Ok _ =>
    mutateSession ref guard (fun r ids => commit r ids (
      let! _ := CheckExpectedRevision (rc_session r) expected in
      let s := bumpRevision now (rc_session r) in
      Ok (CloneSession s, set_state state (set_session s r)))) st
  end.

Definition UpdateState (now : Z) (ref : SessionRef) (expected : option Z) (guard : MutationGuard)
  (update : option (gmap string Any -> result SessionError (gmap string Any))) (st : Store)
  : result SessionError Session * Store :=
  mutateSession ref guard (fun r ids => commit r ids (
    let! _ := CheckExpectedRevision (rc_session r) expected in
    match update with
    | None => Ok (CloneSession (rc_session r), r)
    | Some f =>
      let! next := f (rc_state r) in
      let! _ := ValidateState next in
      let s := bumpRevision now (rc_session r) in
      Ok (CloneSession s, set_state next (set_session s r))
    end)) st.

(** ** Fences ([memory/fence.go]) *)

Definition fenceConflict {R : Type} (ref : SessionRef) (detail : string) : result SessionError R :=
  Fail (FenceConflictError (SessionID (NormalizeSessionRef ref)) detail).

Definition ValidateMutationGuard (ref : SessionRef) (guard : MutationGuard) (st : Store) : result SessionError unit :=
  match lookupLocked st ref with
  | None => Fail ErrSessionNotFound
  | Some r => AuthorizeMutationGuard sha256_hex (rc_fence r) guard
  end.

Definition ObserveSessionFence (ref : SessionRef) (st : Store) : result SessionError SessionFence :=
  readRecord ref (fun r => SessionFenceForObservation (rc_fence r)) st.

(** [newSessionFenceID] drew [fenceID], the claim drew [token]; [None] is an
    error of the random source. *)
Definition acquireSessionFence (now : Z) (ref : SessionRef) (ownerID : string) (replacePriorHost : bool)
  (fenceID token : option string) (st : Store) : result SessionError SessionFence * Store :=
  match lookupLocked st ref with
  | None => (Fail ErrSessionNotFound, st)
  | Some r =>
    let owner := trim_space ownerID in
    if owner =? "" then (fenceConflict ref "owner_id is required", st) else
    if SessionFenceIsHeld (rc_fence r) && (negb replacePriorHost || (OwnerID (rc_fence r) =? owner)) then
      (fenceConflict ref "another execution producer holds the fence", st) else
    match fenceID with
    | None => (Fail ErrRandom, st)
    | Some fenceID =>
      let epoch := u64_succ (rc_fenceEpoch r) in
      let r1 := set_fence (rc_fence r) epoch (set_idle (Invalidate (rc_idle r)) r) in
      match NewSessionFenceClaim sha256_hex token
              (MkSessionFence (NormalizeSessionRef (s_Ref (rc_session r))) fenceID owner epoch now "" "") with
      | Fail e => (Fail e, putRecord ref r1 st)
      | Ok fence => (Ok fence, putRecord ref (set_fence (SessionFenceForStorage fence) epoch r1) st)
      end
    end
  end.

Definition AcquireSessionFence (now : Z) (ref : SessionRef) (ownerID : string) (fenceID token : option string)
  (st : Store) : result SessionError SessionFence * Store :=
  acquireSessionFence now ref ownerID false fenceID token st.

(** [authorized]: the Host callback returned a release function and [ok]. *)
Definition ReplacePriorHostSessionFence (authorized : bool) (now : Z) (ref : SessionRef) (ownerID : string)
  (fenceID token : option string) (st : Store) : result SessionError SessionFence * Store :=
  if negb authorized then (fenceConflict ref "product Host ownership is not held", st)
  else acquireSessionFence now ref ownerID true fenceID token st.

Definition ReleaseSessionFence (req : ReleaseSessionFenceRequest) (st : Store) : result SessionError unit * Store :=
  match lookupLocked st (rel_SessionRef req) with
  | None => (Fail ErrSessionNotFound, st)
  | Some r =>
    if negb (SessionFenceReleaseAuthorized sha256_hex (rc_fence r) req)
    then (fenceConflict (sf_SessionRef (rc_fence r)) "fence identity, owner, or claim mismatch", st)
    else (Ok tt, putRecord (rel_SessionRef req)
                   (set_fence no_fence (rc_fenceEpoch r) (set_idle (Invalidate (rc_idle r)) r)) st)
  end.

(** ** Idle compaction ([memory/idle_compaction.go]) *)

Definition loadedRecord (r : record) : LoadedSession B := MkLoaded _ B (rc_session r) (rc_events r) (rc_state r).

(** What an update asks of the transaction: an event to append, a last check
    before the commit and the release of the fence. *)
Record idleStoreMutation : Type := MkMutation {
  im_event : option (Event B);
  im_releaseFence : bool;
  im_validate : result SessionError unit;
}.
Definition no_mutation : idleStoreMutation := MkMutation None false (Ok tt).

(** The idle state [state] and, when asked, the free fence. *)
Definition finishIdle (state : IdleCompactionState) (releaseFence : bool) (r : record) : record :=
  set_idle state (if releaseFence then set_fence no_fence (rc_fenceEpoch r) r else r).

(** The update works on a copy of the idle state; its result [X] is returned
    with the stored event. *)
Definition idleTransaction {X : Type} (now : Z) (ref : SessionRef)
  (update : IdleCompactionState -> SessionFence -> LoadedSession B -> result SessionError (X * IdleCompactionState * idleStoreMutation))
  (st : Store) : result SessionError (X * option (Event B)) * Store :=
  match lookupLocked st ref with
  | None => (Fail ErrSessionNotFound, st)
  | Some r =>
    match update (rc_idle r) (rc_fence r) (loadedRecord r) with
    | Fail e => (Fail e, st)
    | Ok (x, state, m) =>
      match im_event m with
      | None => (Ok (x, None), putRecord ref (finishIdle state (im_releaseFence m) r) st)
      | Some event =>
        match PrepareAppendTransaction (transactionRequest now r [Some event] None None None "" "") (st_ids st) with
        | Fail e => (Fail e, st)
        | Ok (tx, ids) =>
          match im_validate m with
          | Fail e => (Fail e, st)
          | Ok _ =>
            (Ok (x, CloneEvent <$> head (pa_Events (pt_Prepared tx))),
             withIDs ids (putRecord ref (finishIdle state (im_releaseFence m) (applyAppendTransactionToRecord tx r)) st))
          end
        end
      end
    end
  end.

Definition fstResult {X Y : Type} (x : result SessionError (X * Y) * Store) : result SessionError X * Store :=
  (match x.1 with Ok (v, _) => Ok v | Fail e => Fail e end, x.2).
Definition sndResult {X Y : Type} (x : result SessionError (X * Y) * Store) : result SessionError Y * Store :=
  (match x.1 with Ok (_, v) => Ok v | Fail e => Fail e end, x.2).

Definition ReleaseSessionFenceForIdleCompaction (now : Z) (req : ReleaseForIdleCompactionRequest) (st : Store)
  : result SessionError IdleCompactionWindow * Store :=
  fstResult (idleTransaction now (rel_SessionRef (ri_Release req)) (fun state active loaded =>
    let! x := Release sha256_hex req active loaded now state in Ok (x.1, x.2, MkMutation None true (Ok tt))) st).

Definition IssueIdleCompactionGrant (now : Z) (window : IdleCompactionWindow) (event : option (Event B)) (st : Store)
  : result SessionError IdleCompactionGrant * Store :=
  fstResult (idleTransaction now (iw_ref window) (fun state active loaded =>
    let! x := IssueGrant sha256_hex window event active loaded now state in Ok (x.1, x.2, no_mutation)) st).

(** The clock is read before the replay, the validation, the preparation and
    the check at the commit. *)
Definition AppendIdleCompactionCheckpoint (now1 now2 now3 now4 : Z) (req : AppendIdleCompactionCheckpointRequest) (st : Store)
  : result SessionError (option (Event B)) * Store :=
  sndResult (idleTransaction now3 (iw_ref (ig_window (ia_Grant req))) (fun state active loaded =>
    let! replay := IdleCheckpointReplay loaded (ia_Event req) now1 in
    match replay with
    | Some stored => Ok (tt, state, MkMutation (Some stored) false (Ok tt))
    | None =>
      let! _ := ValidateAppend sha256_hex req active loaded now2 state in
      Ok (tt, set_window (consume <$> i_Window state) state,
          MkMutation (ia_Event req) false (ValidateAppend sha256_hex req active loaded now4 state))
    end) st).

Definition RevokeIdleCompaction (now : Z) (window : IdleCompactionWindow) (st : Store) : result SessionError unit * Store :=
  fstResult (idleTransaction now (iw_ref window) (fun state _ _ => Ok (tt, RevokeWindow sha256_hex window state, no_mutation)) st).

Definition BeginCompactionAttempt (now : Z) (req : BeginCompactionAttemptRequest) (st : Store)
  : result SessionError CompactionReceiptTicket * Store :=
  fstResult (idleTransaction now (iw_ref (ba_Window req)) (fun state active loaded =>
    let! x := BeginAttempt sha256_hex req active loaded now state in Ok (x.1, x.2, no_mutation)) st).

Definition StageCompactionReceipt (now : Z) (ticket : CompactionReceiptTicket) (res : CompactionAttemptResult) (st : Store)
  : result SessionError unit * Store :=
  fstResult (idleTransaction now (ti_ref ticket) (fun state _ _ =>
    let! state := StageReceipt sha256_hex ticket res state in Ok (tt, state, no_mutation)) st).

Definition FinalizeCompactionReceipt (now : Z) (ticket : CompactionReceiptTicket) (st : Store)
  : result SessionError (option (Event B)) * Store :=
  sndResult (idleTransaction now (ti_ref ticket) (fun state _ loaded =>
    let! event := ReceiptEvent sha256_hex ticket loaded state in
    Ok (tt, ForgetReceipt ticket state, MkMutation (Some event) false (Ok tt))) st).

Definition CancelCompactionReservation (now : Z) (req : BeginCompactionAttemptRequest) (st : Store) : result SessionError unit * Store :=
  fstResult (idleTransaction now (iw_ref (ba_Window req)) (fun state _ _ =>
    let! state := CancelReservation sha256_hex req state in Ok (tt, state, no_mutation)) st).

(** [authorized]: the Host callback returned a release function and [ok]. *)
Definition RecoverCompactionReceipts (authorized : bool) (now : Z) (ref : SessionRef) (currentHost : string) (st : Store)
  : result SessionError unit * Store :=
  if currentHost =? "" then (fenceConflict ref "receipt recovery is not authorized", st) else
  if negb authorized then (fenceConflict ref "product Host ownership is not held", st) else
  match lookupLocked st ref with
  | None => (Fail ErrSessionNotFound, st)
  | Some r =>
    let '(events, state) := RecoverReceipts currentHost ref now (rc_idle r) in
    match events with
    | [] => (Ok tt, putRecord ref (set_idle state r) st)
    | _ =>
      match PrepareAppendTransaction (transactionRequest now r (Some <$> events) None None None "" "") (st_ids st) with
      | Fail e => (Fail e, st)
      | Ok (tx, ids) => (Ok tt, withIDs ids (putRecord ref (set_idle state (applyAppendTransactionToRecord tx r)) st))
      end
    end
  end.

(** ** Reads over the whole record *)

(** [EventCheckpoint] walks the log backwards. *)
Fixpoint checkpointScan (reversed : list (Event B)) (through : Z) : Z * option (Event B) :=
  match reversed with
  | [] => (through, None)
  | e :: rest =>
    if IsTransient e then checkpointScan rest through
    else
      let through := if Z.eqb through 0 then ev_Seq e else through in
      if IsClientReplayEvent e then (through, Some (CloneEvent e)) else checkpointScan rest through
  end.

Definition EventCheckpoint (ref : SessionRef) (st : Store) : result SessionError (Session * (Z * option (Event B))) :=
  readRecord ref (fun r => (CloneSession (rc_session r), checkpointScan (rev (rc_events r)) 0)) st.

Definition LoadSession (ref : SessionRef) (limit : Z) (includeTransient : bool) (st : Store)
  : result SessionError (Session * list (Event B) * gmap string Any) :=
  readRecord ref (fun r => (CloneSession (rc_session r),
                            FilterEvents (Some <$> rc_events r) limit includeTransient, rc_state r)) st.

(** ** One step of the store: any operation with any arguments *)

Inductive store_op : Store -> Store -> Prop :=
| op_start now req st : store_op st (StartSession now req st).2
| op_append now req st : store_op st (AppendEventWithOutcome now req st).2
| op_append_conditional now req related st : store_op st (AppendEventWithOutcomeConditional now req related st).2
| op_append_events now ref expected guard events st : store_op st (AppendEvents now ref expected guard events st).2
| op_append_state now ref expected guard tid md events update st :
    store_op st (AppendEventsAndUpdateState now ref expected guard tid md events update st).2
| op_settle now req st : store_op st (SettlePendingApproval now req st).2
| op_bind now ref guard binding st : store_op st (BindController now ref guard binding st).2
| op_bind_event now ref expected guard tid md binding event update st :
    store_op st (BindControllerWithEvent now ref expected guard tid md binding event update st).2
| op_put now ref rev guard expected binding st : store_op st (PutParticipant now ref rev guard expected binding st).2
| op_put_event now ref rev guard expected binding event st :
    store_op st (PutParticipantWithEvent now ref rev guard expected binding event st).2
| op_remove now ref rev guard pid expected st : store_op st (RemoveParticipant now ref rev guard pid expected st).2
| op_remove_event now ref rev guard pid expected event st :
    store_op st (RemoveParticipantWithEvent now ref rev guard pid expected event st).2
| op_replace_state now ref expected guard state st : store_op st (ReplaceState now ref expected guard state st).2
| op_update_state now ref expected guard update st : store_op st (UpdateState now ref expected guard update st).2
| op_acquire now ref owner fid tok st : store_op st (AcquireSessionFence now ref owner fid tok st).2
| op_replace ok now ref owner fid tok st :
    store_op st (ReplacePriorHostSessionFence ok now ref owner fid tok st).2
| op_release req st : store_op st (ReleaseSessionFence req st).2
| op_idle_release now req st : store_op st (ReleaseSessionFenceForIdleCompaction now req st).2
| op_idle_grant now window event st : store_op st (IssueIdleCompactionGrant now window event st).2
| op_idle_append now1 now2 now3 now4 req st : store_op st (AppendIdleCompactionCheckpoint now1 now2 now3 now4 req st).2
| op_idle_revoke now window st : store_op st (RevokeIdleCompaction now window st).2
| op_attempt_begin now req st : store_op st (BeginCompactionAttempt now req st).2
| op_attempt_stage now ticket res st : store_op st (StageCompactionReceipt now ticket res st).2
| op_attempt_finalize now ticket st : store_op st (FinalizeCompactionReceipt now ticket st).2
| op_attempt_cancel now req st : store_op st (CancelCompactionReservation now req st).2
| op_attempt_recover ok now ref host st : store_op st (RecoverCompactionReceipts ok now ref host st).2.

(** ** What a step may do to one record *)

Definition log_ids (events : list (Event B)) : gset string := list_to_set (map ev_ID events).

Inductive rec_step (r r' : record) : Prop :=
| rs_idle : r' = set_idle (rc_idle r') r -> rec_step r r'
| rs_commit (new : list (Event B)) :
    s_Ref (rc_session r') = s_Ref (rc_session r) ->
    s_Revision (rc_session r') = u64_succ (s_Revision (rc_session r)) ->
    rc_events r' = (rc_events r ++ new)%list ->
    batch_fresh (LastEventSeq (Some <$> rc_events r)) (log_ids (rc_events r))
      (list_to_set (log_keys (rc_events r))) new ->
    rc_fence r' = rc_fence r -> rc_fenceEpoch r' = rc_fenceEpoch r ->
    rc_applied r ⊆ rc_applied r' ->
    (dom (rc_digests r) = rc_applied r -> dom (rc_digests r') = rc_applied r') ->
    ("" ∉ rc_applied r -> "" ∉ rc_applied r') ->
    rec_step r r'
| rs_fence :
    r' = set_fence (rc_fence r') (rc_fenceEpoch r') (set_idle (rc_idle r') r) ->
    (rc_fence r' = no_fence /\ rc_fenceEpoch r' = rc_fenceEpoch r) \/
    (rc_fence r' = rc_fence r /\ rc_fenceEpoch r' = u64_succ (rc_fenceEpoch r)) \/
    (FencingToken (rc_fence r') = rc_fenceEpoch r' /\ claimToken (rc_fence r') = "" /\
     rc_fenceEpoch r' = u64_succ (rc_fenceEpoch r)) ->
    rec_step r r'.

(** *** Invariant of a record stored under [k] *)
Record rec_inv (k : string) (r : record) : Prop := {
  ri_key : SessionID (s_Ref (rc_session r)) = k;
  ri_norm : NormalizeSessionRef (s_Ref (rc_session r)) = s_Ref (rc_session r);
  ri_seqs : (Z.of_nat (length (rc_events r)) < u64_modulus)%Z ->
            map ev_Seq (rc_events r) = seqs_after 0 (length (rc_events r));
  ri_ids : NoDup (map ev_ID (rc_events r));
  ri_trimmed : Forall (fun e => trim_space (ev_ID e) = ev_ID e /\ ev_ID e <> "") (rc_events r);
  ri_durable : Forall (fun e => IsTransient e = false) (rc_events r);
  ri_keys : NoDup (log_keys (rc_events r));
  ri_revision : is_u64 (s_Revision (rc_session r));
  ri_claim : claimToken (rc_fence r) = "";
  ri_digests : dom (rc_digests r) = rc_applied r;
  ri_applied : "" ∉ rc_applied r;
}.

Definition store_inv (st : Store) : Prop :=
  FreshSource (st_ids st) /\ map_Forall rec_inv (st_sessions st).

Definition empty_store (ids : IDSource) : Store := MkStore ∅ ids.

Lemma empty_store_inv ids : FreshSource ids -> store_inv (empty_store ids).
Proof. intros Hf. split; [done|]. apply map_Forall_empty. Qed.
End Store.
