(* ===== verification/StoreFacts.v ===== *)
(** * The in-memory store: invariant and step lemmas

    Every operation of [MemStore] is shown to be a [store_step]: it leaves all
    records but one alone, and changes that one by [rec_step].  From that follow
    the invariant of reachable stores and the theorems on the event log,
    revisions and fences. *)

From Stdlib Require Import ZArith Lia String Sorted.
From stdpp Require Import base list strings option gmap relations.
From S2P Require Import Prelude GoStrings Fence Events Append IdleCompaction MemStore.

Local Open Scope string_scope.

Lemma seqs_after_app n a b :
  seqs_after n (a + b) = (seqs_after n a ++ seqs_after (n + Z.of_nat a) b)%list.
Proof.
  revert n. induction a as [|a IH]; intros n; simpl plus.
  - by rewrite Z.add_0_r.
  - rewrite !seqs_after_S, IH. simpl. do 3 f_equal. lia.
Qed.

Section Facts.
Context `{OV : OpenValues} {B : Type} {EC : EventCodec B} {CL : CodecLaws B} {IC : IdleCodec B}.
Variable sha256_hex : string -> string.
Implicit Types st : Store (OV := OV) (B := B).
Implicit Types r : record (OV := OV) (B := B).

(** ** Sequences of the log *)

Lemma LastEventSeq_fold (events : list (Event B)) n :
  (0 <= n)%Z -> (n + Z.of_nat (length events) < u64_modulus)%Z ->
  map ev_Seq events = seqs_after n (length events) ->
  fold_left (fun '(out, index) (o : option (Event B)) =>
    let out' :=
      match o with
      | None => out
      | Some e => let seq := if Z.eqb (ev_Seq e) 0 then index + 1 else ev_Seq e in
                  if out <? seq then seq else out
      end%Z in
    (out', index + 1)) (Some <$> events) (n, n)%Z
  = (n + Z.of_nat (length events), n + Z.of_nat (length events))%Z.
Proof.
  revert n. induction events as [|e events IH]; intros n Hn Hlt Hs.
  { simpl. by rewrite Z.add_0_r. }
  simpl length in Hlt, Hs. rewrite seqs_after_S in Hs. simpl map in Hs. injection Hs as He Hs.
  rewrite u64_small in He by (unfold is_u64; lia).
  cbn [fmap list_fmap fold_left]. rewrite He.
  destruct (Z.eqb_spec (n + 1) 0); [lia|]. destruct (Z.ltb_spec n (n + 1)); [|lia].
  rewrite IH by (lia || done). f_equal; simpl length; lia.
Qed.

Lemma LastEventSeq_log (events : list (Event B)) :
  (Z.of_nat (length events) < u64_modulus)%Z -> map ev_Seq events = seqs_after 0 (length events) ->
  LastEventSeq (Some <$> events) = Z.of_nat (length events).
Proof. intros Hlt Hs. unfold LastEventSeq. by rewrite LastEventSeq_fold. Qed.

Lemma rec_step_inv k r r' : rec_step r r' -> rec_inv k r -> rec_inv k r'.
Proof.
  intros Hst [Hk Hn Hs Hid Htr Hd Hkeys Hrv Hc Hdg Hap].
  destruct Hst as [Heq|new Href Hrev Hev [Hns Hnd Hnf Hnt Hndur [Hnk Hnkf]] Hf _ Happ Hdom Hapn|Heq Hf].
  - rewrite Heq. by constructor.
  - constructor; rewrite ?Href, ?Hev, ?Hf; auto.
    + rewrite length_app, map_app. intros Hlt. rewrite Hns, seqs_after_app, Hs by lia.
      rewrite LastEventSeq_log; [done|lia|by apply Hs; lia].
    + rewrite map_app. apply NoDup_app. split; [done|]. split; [|done]. intros x Hx Hx'.
      apply list_elem_of_fmap in Hx' as (e & -> & He). rewrite Forall_forall in Hnf.
      apply (Hnf e He). unfold log_ids. by apply elem_of_list_to_set.
    + by apply Forall_app.
    + by apply Forall_app.
    + rewrite log_keys_app. apply NoDup_app. split; [done|]. split; [|done]. intros x Hx Hx'.
      rewrite Forall_forall in Hnkf. apply (Hnkf x Hx'). by apply elem_of_list_to_set.
    + rewrite Hrev. apply u64_range.
  - rewrite Heq in *. constructor; simpl in *; auto.
    destruct Hf as [[-> _]|[[-> _]|(_ & Hcl & _)]]; auto.
Qed.

(** ** Steps of the whole store *)

Definition store_step st st' : Prop :=
  (FreshSource (st_ids st) -> FreshSource (st_ids st')) /\
  forall k, match st_sessions st !! k, st_sessions st' !! k with
            | Some r, Some r' => rec_step r r'
            | None, None => True
            | None, Some r' => exists s, r' = empty_record s /\ s_Revision s = 0%Z /\ SessionID (s_Ref s) = k
                               /\ NormalizeSessionRef (s_Ref s) = s_Ref s
            | Some _, None => False
            end.

(** Records other than that of [k0] are untouched. *)
Definition store_frame (k0 : string) st st' : Prop :=
  forall k, k <> k0 -> st_sessions st' !! k = st_sessions st !! k.

Lemma rec_step_refl r : rec_step r r.
Proof. apply rs_idle. by destruct r. Qed.

Lemma store_step_refl st : store_step st st.
Proof. split; [done|]. intros k. case_match; [apply rec_step_refl|done]. Qed.

Lemma store_step_inv st st' : store_step st st' -> store_inv st -> store_inv st'.
Proof.
  intros [Hids Hrec] [Hf Hinv]. split; [auto|]. intros k r' Hk. specialize (Hrec k). rewrite Hk in Hrec.
  destruct (st_sessions st !! k) as [r|] eqn:E.
  - eapply rec_step_inv; [done|]. by apply Hinv.
  - destruct Hrec as (s & -> & Hz & Hs & Hn).
    constructor; simpl; try done;
      first [apply NoDup_nil_2|apply dom_empty_L|set_solver|rewrite Hz; unfold is_u64, u64_modulus; lia].
Qed.

Lemma lookupLocked_sessions st ref r :
  lookupLocked st ref = Some r -> st_sessions st !! SessionID (NormalizeSessionRef ref) = Some r.
Proof. unfold lookupLocked. destruct (_ !! _); [|done]. by case_match. Qed.

(** Storing one record back, and advancing the ID source. *)
Lemma store_step_put st ref r r' ids :
  lookupLocked st ref = Some r -> rec_step r r' ->
  (FreshSource (st_ids st) -> FreshSource ids) ->
  store_step st (withIDs ids (putRecord ref r' st)).
Proof.
  intros Hl Hr Hids. apply lookupLocked_sessions in Hl. split; [done|]. intros k. simpl.
  destruct (decide (SessionID (NormalizeSessionRef ref) = k)) as [<-|Hne].
  - simpl in *. rewrite Hl, lookup_insert_eq. done.
  - simpl in *. rewrite lookup_insert_ne by done. case_match; [apply rec_step_refl|done].
Qed.

(** ** Appending to a record *)

Lemma log_ids_known r k :
  rec_inv k r ->
  log_ids (rc_events r) ⊆ cloneEventIDSet (existingEventIDSet (rc_events r)) ∪ dom (eventIndexByID (Some <$> rc_events r)).
Proof.
  intros [_ _ _ _ Htr _ _ _ _ _ _] x Hx. apply elem_of_union_l.
  unfold log_ids in Hx. apply elem_of_list_to_set, list_elem_of_fmap in Hx as (e & -> & He).
  rewrite Forall_forall in Htr. destruct (Htr e He) as [Ht Hne].
  assert (Hf : forall l : list string, ev_ID e ∈ l -> ev_ID e ∈ List.filter (fun id => negb (id =? "")) l).
  { intros l Hl. apply list_elem_of_In, filter_In. split; [by apply list_elem_of_In|].
    by apply negb_true_iff, String.eqb_neq. }
  unfold cloneEventIDSet. apply elem_of_list_to_set, Hf, list_elem_of_fmap.
  exists (ev_ID e). split; [by rewrite Ht|]. apply elem_of_elements. unfold existingEventIDSet.
  apply elem_of_list_to_set, Hf, list_elem_of_fmap. by exists e.
Qed.

(** Every idempotency key of the log is indexed. *)
Lemma log_keys_known (events : list (Event B)) :
  list_to_set (log_keys events) ⊆ dom (eventIndexByIdempotencyKey (Some <$> events)).
Proof.
  unfold eventIndexByIdempotencyKey, eventIndex.
  assert (Hgen : forall m : gmap string (Event B), dom m ∪ list_to_set (log_keys events) ⊆
    dom (fold_left (fun m o => match o with
      | None => m
      | Some e => if trim_space (ev_IdempotencyKey e) =? "" then m
                  else <[trim_space (ev_IdempotencyKey e) := migratedEventForIndex e]> m end)
      (Some <$> events) m)).
  { induction events as [|e events IH]; intros m; simpl; [set_solver|].
    etransitivity; [|apply IH]. unfold log_keys. simpl.
    destruct (String.eqb_spec (trim_space (ev_IdempotencyKey e)) ""); simpl; [done|].
    rewrite dom_insert_L. set_solver. }
  specialize (Hgen ∅). set_solver.
Qed.

Lemma batch_fresh_mono last (used used' keys keys' : gset string) (new : list (Event B)) :
  used ⊆ used' -> keys ⊆ keys' -> batch_fresh last used' keys' new -> batch_fresh last used keys new.
Proof.
  intros Hsub Hsubk [Hs Hnd Hf Ht Hd [Hk Hkf]]. constructor; auto.
  - eapply Forall_impl; [exact Hf|]. set_solver.
  - split; [done|]. eapply Forall_impl; [exact Hkf|]. set_solver.
Qed.

Lemma apply_step k now r tx ids ids' events mutate update expected tid md :
  rec_inv k r -> FreshSource ids -> keeps_ref mutate ->
  PrepareAppendTransaction (transactionRequest now r events mutate update expected tid md) ids = Ok (tx, ids') ->
  FreshSource ids' /\ rec_step r (applyAppendTransactionToRecord tx r).
Proof.
  intros Hinv Hids Hk Hp. apply PrepareAppendTransaction_inv in Hp as (p & Hpe & Hpt & Hcase).
  apply (PrepareEventsForAppend_fresh FreshSource) in Hpe as [Hids' Hb]; [|apply ensureUniqueEventID_fresh|done].
  split; [done|]. unfold applyAppendTransactionToRecord.
  destruct (pt_Changed tx) eqn:Hch; simpl; [|apply rec_step_refl].
  destruct Hcase as [(_ & Hch' & _)|(_ & _ & Hfin)]; [congruence|].
  apply finishTransaction_inv in Hfin as (_ & Href & Hrev & _ & Htid & _ & Hrt & _); [|done].
  pose proof (ri_norm _ _ Hinv) as Hnorm.
  apply (rs_commit _ _ (map CloneEvent (pa_Persisted p))); simpl; auto.
  - rewrite Href. simpl. by rewrite !Hnorm.
  - by rewrite Hpt.
  - apply clone_batch. eapply batch_fresh_mono; [by eapply log_ids_known|apply log_keys_known|]. apply Hb.
  - case_match; set_solver.
  - intros Hd. case_match; [|done]. by rewrite dom_insert_L, Hd.
  - intros Hn. rewrite Hrt, Htid. simpl. destruct (String.eqb_spec (trim_space tid) ""); simpl; [done|]. set_solver.
Qed.

(** A body of [mutateSession] that steps the record it is given. *)
Definition body_ok {R : Type} (body : record -> IDSource -> result SessionError R * (record * IDSource)) : Prop :=
  forall k r ids, rec_inv k r -> FreshSource ids ->
    FreshSource (body r ids).2.2 /\ rec_step r (body r ids).2.1.

Lemma append_body_ok k now r ids events mutate update expected tid md :
  rec_inv k r -> FreshSource ids -> keeps_ref mutate ->
  FreshSource (appendToRecord now r ids events mutate update expected tid md).2.2 /\
  rec_step r (appendToRecord now r ids events mutate update expected tid md).2.1.
Proof.
  intros Hinv Hids Hk. unfold appendToRecord.
  destruct (PrepareAppendTransaction _ ids) as [[tx ids']|e] eqn:Hp; simpl.
  - eapply apply_step; eauto.
  - split; [done|apply rec_step_refl].
Qed.

Lemma rec_step_idle r i r' : rec_step (set_idle i r) r' -> rec_step r r'.
Proof.
  intros [Heq|new|Heq Hf].
  - apply rs_idle. rewrite Heq at 1. done.
  - eapply rs_commit; eauto.
  - apply rs_fence; [|done]. rewrite Heq at 1. done.
Qed.

Lemma rec_inv_idle k i r : rec_inv k r -> rec_inv k (set_idle i r).
Proof. by intros []. Qed.

Lemma mutateSession_step {R} ref guard (body : record -> IDSource -> result SessionError R * (record * IDSource)) st :
  store_inv st -> body_ok body -> store_step st (mutateSession sha256_hex ref guard body st).2.
Proof.
  intros [Hids Hinv] Hbody. unfold mutateSession.
  destruct (lookupLocked st ref) as [r|] eqn:Hl; [|apply store_step_refl].
  unfold authorizeMutation. destruct (AuthorizeMutationGuard _ _ _) as [u|e]; [|apply store_step_refl].
  pose proof (Hinv _ _ (lookupLocked_sessions _ _ _ Hl)) as Hr.
  destruct (Hbody _ _ (st_ids st) (rec_inv_idle _ (Invalidate (rc_idle r)) _ Hr) Hids) as [Hf Hstep].
  destruct (body _ _) as [res [r' ids']] eqn:Eb. simpl in *.
  eapply store_step_put; eauto. by eapply rec_step_idle.
Qed.

(** ** Every operation steps the store *)

Lemma keeps_ref_none : keeps_ref (B := B) None.
Proof. by intros f. Qed.

Lemma body_ok_append {S} (g : PreparedAppendTransaction B -> S) now events mutate update expected tid md :
  keeps_ref mutate ->
  body_ok (fun r ids => mapResult g (appendToRecord now r ids events mutate update expected tid md)).
Proof. intros Hk k r ids Hr Hids. by eapply append_body_ok. Qed.

(** A row change that keeps the identity and takes the next revision. *)
Lemma rec_step_row r s :
  s_Ref s = s_Ref (rc_session r) -> s_Revision s = u64_succ (s_Revision (rc_session r)) ->
  rec_step r (set_session s r).
Proof.
  intros Href Hrev. apply (rs_commit _ _ []); simpl; auto; [by rewrite app_nil_r|apply batch_fresh_nil].
Qed.

Lemma rec_step_row_state r s state :
  s_Ref s = s_Ref (rc_session r) -> s_Revision s = u64_succ (s_Revision (rc_session r)) ->
  rec_step r (set_state state (set_session s r)).
Proof.
  intros Href Hrev. apply (rs_commit _ _ []); simpl; auto; [by rewrite app_nil_r|apply batch_fresh_nil].
Qed.

Lemma commit_ok {R} (body : record -> result SessionError (R * record)) :
  (forall r x r', body r = Ok (x, r') -> rec_step r r') ->
  body_ok (fun r ids => commit r ids (body r)).
Proof.
  intros Hb k r ids Hr Hids. unfold commit. destruct (body r) as [[x r']|e] eqn:E; simpl.
  - split; [done|]. by eapply Hb.
  - split; [done|apply rec_step_refl].
Qed.

Lemma commitRow_step now r change :
  s_Ref change.1 = s_Ref (rc_session r) -> s_Revision change.1 = s_Revision (rc_session r) ->
  (change.2 = false -> change.1 = rc_session r) ->
  rec_step r (commitRow now r change).2.
Proof.
  destruct change as [s [|]]; simpl; intros Href Hrev Hno.
  - apply rec_step_row; simpl; [done|]. by rewrite Hrev.
  - rewrite Hno by done. apply rs_idle. by destruct r.
Qed.

Lemma PutParticipantBinding_row s b :
  s_Ref (PutParticipantBinding s b).1 = s_Ref s /\ s_Revision (PutParticipantBinding s b).1 = s_Revision s /\
  (PutParticipantBinding s b).2 = true.
Proof. done. Qed.

Lemma RemoveParticipantBinding_row s pid :
  s_Ref (RemoveParticipantBinding s pid).1 = s_Ref s /\ s_Revision (RemoveParticipantBinding s pid).1 = s_Revision s /\
  ((RemoveParticipantBinding s pid).2 = false -> (RemoveParticipantBinding s pid).1 = s).
Proof. unfold RemoveParticipantBinding. by case_match. Qed.

Lemma appendWithMutation_step now ref guard event mutate update expected tid md st :
  store_inv st -> keeps_ref (Some mutate) ->
  store_step st (appendWithMutation sha256_hex now ref guard event mutate update expected tid md st).2.
Proof.
  intros Hinv Hk. apply mutateSession_step; [done|]. intros k r ids Hr Hids. simpl.
  by eapply append_body_ok.
Qed.

Lemma acquire_step now ref owner replace fid tok st :
  store_step st (acquireSessionFence sha256_hex now ref owner replace fid tok st).2.
Proof.
  unfold acquireSessionFence. destruct (lookupLocked st ref) as [r|] eqn:Hl; [|apply store_step_refl].
  destruct (_ =? ""); [apply store_step_refl|]. destruct (_ && _); [apply store_step_refl|].
  destruct fid as [fid|]; [|apply store_step_refl].
  assert (Hput : forall r', rec_step r r' -> store_step st (putRecord ref r' st)).
  { intros r' Hr. by eapply (store_step_put st ref r r' (st_ids st)). }
  destruct (NewSessionFenceClaim _ _ _) as [f|e] eqn:Hc; simpl; apply Hput, rs_fence; simpl; auto.
  right; right. unfold NewSessionFenceClaim in Hc. destruct (_ || _); [done|]. destruct tok; [|done].
  by simplify_eq/=.
Qed.

Lemma nextID_trimmed src : FreshSource src -> trim_space (nextID src).1 = (nextID src).1 /\ FreshSource (nextID src).2.
Proof.
  intros Hf. split.
  - unfold nextID. destruct (custom src); simpl; [case_match; simpl|]; auto using trim_space_idem; apply Hf.
  - eapply fresh_source_eq; [apply nextID_source|done].
Qed.

Lemma withIDs_step ids st : FreshSource ids -> store_step st (withIDs ids st).
Proof. intros Hf. split; [done|]. intros k. simpl. case_match; [apply rec_step_refl|done]. Qed.

Lemma create_step now req ref ids st :
  NormalizeSessionRef ref = ref -> FreshSource ids ->
  store_step st (createOrReuse now req ref (withIDs ids st)).2.
Proof.
  intros Hn Hf. unfold createOrReuse. cbn [st_sessions withIDs].
  destruct (st_sessions st !! SessionID ref) as [ex|] eqn:El; [case_match; by apply withIDs_step|].
  split; [done|]. intros k. simpl. destruct (decide (SessionID ref = k)) as [<-|Hne].
  - rewrite El, lookup_insert_eq. eexists. split; [reflexivity|]. done.
  - rewrite lookup_insert_ne by done. case_match; [apply rec_step_refl|done].
Qed.

Lemma start_step now req st : store_inv st -> store_step st (StartSession now req st).2.
Proof.
  intros [Hids _]. unfold StartSession. destruct (ValidateMetadata _); [|apply store_step_refl].
  destruct (negb _); [apply store_step_refl|]. cbv zeta.
  destruct (_ || _); [apply store_step_refl|]. destruct (_ =? "").
  - destruct (nextID_trimmed (st_ids st) Hids) as [Ht Hf].
    destruct (nextID (st_ids st)) as [id ids]. simpl in Ht, Hf. apply create_step; [|done].
    unfold NormalizeSessionRef. simpl. autorewrite with gostr. by rewrite Ht.
  - replace st with (withIDs (st_ids st) st) at 2 by (by destruct st).
    apply create_step; [apply NormalizeSessionRef_idem|done].
Qed.

Lemma append_outcome_step now req st : store_inv st -> store_step st (AppendEventWithOutcome sha256_hex now req st).2.
Proof.
  intros Hinv. unfold AppendEventWithOutcome. destruct (ae_Event req); [|apply store_step_refl].
  apply mutateSession_step; [done|]. apply body_ok_append, keeps_ref_none.
Qed.

Lemma finishIdle_step r state b : rec_step r (finishIdle state b r).
Proof. unfold finishIdle. destruct b; [apply rs_fence; simpl; auto|by apply rs_idle]. Qed.

Lemma rec_step_then_idle r r' i : rec_step r r' -> rec_step r (set_idle i r').
Proof.
  intros [Heq|new|Heq Hf].
  - apply rs_idle. rewrite Heq. done.
  - eapply rs_commit; eauto.
  - apply rs_fence; [|done]. rewrite Heq at 1. done.
Qed.

(** An update that does not release the fence together with an append. *)
Definition update_ok {X} (update : IdleCompactionState -> SessionFence -> LoadedSession B ->
  result SessionError (X * IdleCompactionState * idleStoreMutation (B := B))) : Prop :=
  forall i f l x state m, update i f l = Ok (x, state, m) -> im_releaseFence m = true -> im_event m = None.

Lemma idleTransaction_step {X} now ref (update : _ -> _ -> _ -> result SessionError (X * _ * _)) st :
  store_inv st -> update_ok update -> store_step st (idleTransaction now ref update st).2.
Proof.
  intros [Hids Hinv] Hu. unfold idleTransaction. destruct (lookupLocked st ref) as [r|] eqn:Hl; [|apply store_step_refl].
  destruct (update _ _ _) as [[[x state] m]|e] eqn:Eu; [|apply store_step_refl].
  destruct (im_event m) as [event|] eqn:Em.
  - destruct (PrepareAppendTransaction _ (st_ids st)) as [[tx ids]|e] eqn:Hp; [|apply store_step_refl].
    destruct (im_validate m); [|apply store_step_refl].
    pose proof (Hinv _ _ (lookupLocked_sessions _ _ _ Hl)) as Hr.
    destruct (apply_step _ _ _ _ _ _ _ _ _ _ _ _ Hr Hids keeps_ref_none Hp) as [Hf Hs].
    apply (store_step_put st ref r); [done| |done]. unfold finishIdle.
    destruct (im_releaseFence m) eqn:Er; [rewrite (Hu _ _ _ _ _ _ Eu Er) in Em; done|]. by apply rec_step_then_idle.
  - apply (store_step_put st ref r _ (st_ids st)); [done|apply finishIdle_step|done].
Qed.

(** Updates that are a function of the idle state, without an event. *)
Lemma update_ok_silent {X Y} (f : IdleCompactionState -> SessionFence -> LoadedSession B -> result SessionError Y)
  (g : Y -> X * IdleCompactionState * idleStoreMutation) :
  (forall y, im_releaseFence (g y).2 = true -> im_event (g y).2 = None) -> update_ok (fun i a l => let! y := f i a l in Ok (g y)).
Proof. intros Hg i a l x state m Hx Hr. apply result_bind_ok in Hx as (y&_&[= Hy]). specialize (Hg y). rewrite Hy in Hg. by apply Hg. Qed.

Lemma recover_step ok now ref host st : store_inv st -> store_step st (RecoverCompactionReceipts ok now ref host st).2.
Proof.
  intros [Hids Hinv]. unfold RecoverCompactionReceipts. destruct (_ =? ""); [apply store_step_refl|]. destruct (negb ok); [apply store_step_refl|].
  destruct (lookupLocked st ref) as [r|] eqn:Hl; [|apply store_step_refl].
  destruct (RecoverReceipts host ref now (rc_idle r)) as [[|e events] state].
  - apply (store_step_put st ref r _ (st_ids st)); [done|by apply rs_idle|done].
  - destruct (PrepareAppendTransaction _ (st_ids st)) as [[tx ids]|err] eqn:Hp; [|apply store_step_refl].
    pose proof (Hinv _ _ (lookupLocked_sessions _ _ _ Hl)) as Hr.
    destruct (apply_step _ _ _ _ _ _ _ _ _ _ _ _ Hr Hids keeps_ref_none Hp) as [Hf Hs].
    apply (store_step_put st ref r); [done|by apply rec_step_then_idle|done].
Qed.

Lemma store_op_step st st' : store_inv st -> store_op sha256_hex st st' -> store_step st st'.
Proof.
  intros Hinv Hop. destruct Hop.
  - by apply start_step.
  - by apply append_outcome_step.
  - unfold AppendEventWithOutcomeConditional. destruct (ae_Event req); [|apply store_step_refl].
    apply mutateSession_step; [done|]. intros k r ids Hr Hids.
    destruct (checkRelated st related); [|by split; [|apply rec_step_refl]].
    by eapply append_body_ok; [| |apply keeps_ref_none].
  - unfold AppendEvents. destruct events; [apply store_step_refl|].
    apply mutateSession_step; [done|]. apply body_ok_append, keeps_ref_none.
  - unfold AppendEventsAndUpdateState. destruct (_ && _); [apply store_step_refl|].
    apply mutateSession_step; [done|]. apply body_ok_append, keeps_ref_none.
  - unfold SettlePendingApproval. destruct (ValidateSettlePendingApprovalRequest req); [|apply store_step_refl].
    destruct (lookupLocked st _); [|apply store_step_refl]. destruct (negb _); [apply store_step_refl|].
    apply mutateSession_step; [done|]. intros k r' ids Hr Hids.
    destruct (CheckExpectedRevision _ _); [|by split; [|apply rec_step_refl]].
    by eapply append_body_ok; [| |apply keeps_ref_none].
  - apply mutateSession_step; [done|]. intros k r ids Hr Hids. split; [done|]. simpl. by apply rec_step_row.
  - apply appendWithMutation_step; [done|]. intros f s p s' b [= <-] [= <- <-]. done.
  - apply mutateSession_step; [done|]. apply commit_ok. intros r x r' Hx.
    apply result_bind_ok in Hx as (_ & _ & Hx). apply result_bind_ok in Hx as (_ & _ & Hx). simplify_eq.
    by apply (commitRow_step now r (PutParticipantBinding (rc_session r) binding)).
  - apply appendWithMutation_step; [done|]. intros f s p s' b [= <-] Hx.
    apply result_bind_ok in Hx as (_ & _ & Hx). by simplify_eq.
  - apply mutateSession_step; [done|]. apply commit_ok. intros r x r' Hx.
    apply result_bind_ok in Hx as (_ & _ & Hx). apply result_bind_ok in Hx as (_ & _ & Hx). simplify_eq.
    destruct (RemoveParticipantBinding_row (rc_session r) pid) as (H1 & H2 & H3).
    by apply (commitRow_step now r (RemoveParticipantBinding (rc_session r) pid)).
  - apply appendWithMutation_step; [done|]. intros f s p s' b [= <-] Hx.
    apply result_bind_ok in Hx as (_ & _ & Hx). injection Hx as Hx.
    destruct (RemoveParticipantBinding_row s pid) as (H1 & _). by rewrite Hx in H1.
  - unfold ReplaceState. destruct (ValidateState state); [|apply store_step_refl].
    apply mutateSession_step; [done|]. apply commit_ok. intros r x r' Hx.
    apply result_bind_ok in Hx as (_ & _ & Hx). simplify_eq. by apply rec_step_row_state.
  - apply mutateSession_step; [done|]. apply commit_ok. intros r x r' Hx.
    apply result_bind_ok in Hx as (_ & _ & Hx). destruct update as [f|]; [|simplify_eq; apply rec_step_refl].
    apply result_bind_ok in Hx as (next & _ & Hx). apply result_bind_ok in Hx as (_ & _ & Hx). cbv zeta in Hx. simplify_eq.
    by apply rec_step_row_state.
  - apply acquire_step.
  - unfold ReplacePriorHostSessionFence. destruct (negb ok); [apply store_step_refl|apply acquire_step].
  - unfold ReleaseSessionFence. destruct (lookupLocked st _) as [r|] eqn:Hl; [|apply store_step_refl].
    destruct (negb _); [apply store_step_refl|].
    apply (store_step_put st _ r _ (st_ids st)); [done| |done]. apply rs_fence; simpl; auto.
  - apply idleTransaction_step; [done|]. apply (update_ok_silent (fun i a l => Release sha256_hex req a l now i)). done.
  - apply idleTransaction_step; [done|]. apply (update_ok_silent (fun i a l => IssueGrant sha256_hex window event a l now i)). done.
  - apply idleTransaction_step; [done|]. intros i a l x state m Hx. apply result_bind_ok in Hx as ([stored|]&_&Hx); [by simplify_eq|].
    apply result_bind_ok in Hx as (?&_&Hx). by simplify_eq.
  - apply idleTransaction_step; [done|]. intros i a l x state m Hx. by simplify_eq.
  - apply idleTransaction_step; [done|]. apply (update_ok_silent (fun i a l => BeginAttempt sha256_hex req a l now i)). done.
  - apply idleTransaction_step; [done|]. apply (update_ok_silent (fun i a l => StageReceipt sha256_hex ticket res i)). done.
  - apply idleTransaction_step; [done|]. intros i a l x state m Hx. apply result_bind_ok in Hx as (event&_&Hx). by simplify_eq.
  - apply idleTransaction_step; [done|]. apply (update_ok_silent (fun i a l => CancelReservation sha256_hex req i)). done.
  - by apply recover_step.
Qed.
End Facts.
