(* ===== verification/TextCodec.v ===== *)
(** * A concrete payload

    An instance of the payload interface of [Events] for events that carry one
    text message or a permission request: what [CloneEvent],
    [CanonicalizeEvent], schema stamping and migration, type backfill and core
    validation do on such events.  It makes the store executable and shows that
    the interface and its laws can be met. *)

From Stdlib Require Import ZArith Lia Ascii String List.
From stdpp Require Import base list strings option gmap.
From S2P Require Import Prelude GoStrings Fence Events Append IdleCompaction MemStore.

Local Open Scope string_scope.

Record TextBody : Type := MkText {
  tb_Role : string;          (* Message.Role; "" when there is no message *)
  tb_Text : string;          (* the text of the message *)
  tb_Permission : bool;      (* Protocol.Permission != nil *)
}.

Global Instance TextBody_eq_dec : EqDecision TextBody.
Proof. solve_decision. Defined.

Definition text_clone (e : Event TextBody) : Event TextBody :=
  MkEvent TextBody (trim_space (ev_ID e)) (trim_space (ev_IdempotencyKey e)) (trim_space (ev_SessionID e)) (ev_Seq e)
    (ev_Schema e) (ev_Type e) (ev_Visibility e) (ev_Time e) (ev_ApprovalRequestID e) (ev_MessageID e)
    ((fun n => MkNotice (trim_space (n_Level n)) (trim_space (n_Text n)) (trim_space (n_Kind n))) <$> ev_Notice e)
    ((fun l => MkLifecycle (trim_space (l_Status l)) (trim_space (l_Reason l))) <$> ev_Lifecycle e)
    (ev_Text e) (ev_Body e).

Definition text_type (e : Event TextBody) : string :=
  if negb (ev_Type e =? "") then ev_Type e
  else if IsNotice e then "notice"
  else match ev_Lifecycle e with
       | Some _ => EventTypeLifecycle
       | None => if tb_Permission (ev_Body e) then EventTypeLifecycle
                 else if tb_Role (ev_Body e) =? "" then EventTypeCustom else tb_Role (ev_Body e)
       end.

Definition set_Schema {B} (v : Z) (e : Event B) : Event B :=
  MkEvent B (ev_ID e) (ev_IdempotencyKey e) (ev_SessionID e) (ev_Seq e) v (ev_Type e) (ev_Visibility e)
    (ev_Time e) (ev_ApprovalRequestID e) (ev_MessageID e) (ev_Notice e) (ev_Lifecycle e) (ev_Text e) (ev_Body e).

Definition text_canonicalize (e : Event TextBody) : Event TextBody := set_Type (text_type e) (text_clone e).

Definition text_validate (e : Event TextBody) : result SessionError unit :=
  if IsTransient e || IsMirror e || IsJournal e then Ok tt
  else if ((text_type e =? EventTypeUser) || (text_type e =? EventTypeAssistant) || (text_type e =? "system")
           || (text_type e =? EventTypeContext)) && (tb_Role (ev_Body e) =? "")
  then Fail (ErrEventValidation "model-visible event is missing durable Event.Message")
  else if (text_type e =? EventTypeCustom) && negb (tb_Role (ev_Body e) =? "")
  then Fail (ErrEventValidation "custom model-visible event with Event.Message must use an explicit model-context event type")
  else Ok tt.

Global Instance text_codec : EventCodec TextBody := {
  CloneEvent := text_clone;
  CanonicalizeEvent := text_canonicalize;
  stampCurrentEventSchemas e := if Z.eqb (ev_Schema e) 0 then set_Schema 2 e else e;
  MigrateEvent e :=
    if ((ev_Schema e <? 0) || (2 <? ev_Schema e))%Z then Fail (ErrSchemaVersion "future schema is unsupported")
    else Ok (set_Schema 2 e);
  EventTypeOf := text_type;
  ValidateDurableCoreEvent := text_validate;
  GeneratedSessionTitle e := if text_type e =? EventTypeUser then trim_space (tb_Text (ev_Body e)) else "";
  HasProtocolPermission e := tb_Permission (ev_Body e);
  IsClientReplayEvent e := negb (IsTransient e) && negb (IsJournal e);
  EventsDigest md es := Ok (md ++ String.concat "|" (map (fun e => tb_Text (ev_Body e)) es));
}.

Global Instance text_laws : CodecLaws TextBody.
Proof.
  split; intros e; try reflexivity.
  - unfold IsTransient, IsNotice. simpl. destruct (ev_Notice e); simpl; [|done].
    by rewrite !trim_space_idem.
  - simpl. destruct (ev_Lifecycle e); simpl; [|done]. split; eauto.
  - unfold CloneEvent; simpl. unfold text_clone. simpl. rewrite !trim_space_idem.
    destruct (ev_Notice e), (ev_Lifecycle e); simpl; by rewrite ?trim_space_idem.
Qed.

(** Scalars as state values; no placement, no execution configuration. *)
Global Instance text_values : OpenValues := {
  Any := string;
  ValidateMap _ := true;
  Placement := unit;
  NormalizePlacement p := p;
  ExecutionConfig := unit;
  ValidateExecutionConfig _ := true;
  EqualExecutionConfig a b := bool_decide (a = b);
}.

(** Checkpoints are user messages of type [compact]; their coverage is fixed.
    Fingerprints keep the text of what they fingerprint. *)
Definition text_checkpoint (e : Event TextBody) : bool :=
  negb (ev_ID e =? "") && (ev_IdempotencyKey e =? ev_ID e) && (ev_Type e =? EventTypeCompact) && Z.eqb (ev_Seq e) 0
  && negb (ev_SessionID e =? "") && (tb_Role (ev_Body e) =? "user") && negb (trim_space (tb_Text (ev_Body e)) =? "").

Definition invocation_text (i : Invocation) : string := iv_ID i ++ "/" ++ iv_Provider i ++ "/" ++ iv_Model i ++ "/" ++ iv_Outcome i.

Global Instance text_idle : IdleCodec TextBody := {
  IsMainInvocationVisibleEvent := IsInvocationVisibleEvent;
  sourceFingerprint s _ events := Ok (SessionID (s_Ref s) ++ String.concat "|" (map (fun e => tb_Text (ev_Body e)) events));
  idleCheckpointHash o :=
    match o with
    | Some e => if text_checkpoint e then Ok (tb_Text (ev_Body e)) else idleDenied "only a fixed canonical checkpoint is allowed"
    | None => idleDenied "only a fixed canonical checkpoint is allowed"
    end;
  CheckpointDataFromEvent _ := Some (MkCheckpoint 1 1 "e" 1 "" "" 1 0 0 []);
  IsModelInvocationReceipt e :=
    IsJournal e && match ev_Lifecycle e with Some l => l_Status l =? "model_invocation" | None => false end
    && (ev_IdempotencyKey e =? "model-invocation:" ++ ev_ID e);
  idleAttemptReceipt i _ ref :=
    MkEvent TextBody (iv_ID i) ("model-invocation:" ++ iv_ID i) (SessionID ref) 0 0 EventTypeLifecycle VisibilityJournal (iv_FinishedAt i)
      "" "" None (Some (MkLifecycle "model_invocation" "")) "" (MkText "" (iv_Outcome i) false);
  stringsFingerprint := String.concat "|";
  attemptFingerprint claim i := claim ++ "/" ++ invocation_text i;
  invocationFingerprint := invocation_text;
  resultFingerprint := at_Outcome;
}.

(** ** Concrete inputs *)

Definition text_event (key role text : string) : Event TextBody :=
  MkEvent TextBody "" key "" 0 0 "" "" 0 "" "" None None "" (MkText role text false).

Definition permission_event (request : string) : Event TextBody :=
  MkEvent TextBody ("perm-" ++ request) "" "" 0 0 "lifecycle" "mirror" 0 request "" None None "" (MkText "" "" true).

Definition settlement_event (request : string) : Event TextBody :=
  MkEvent TextBody "" "" "" 0 0 "lifecycle" "mirror" 0 request "" None (Some (MkLifecycle "settled" "")) ""
    (MkText "" "" false).

(** IDs [e], [e'], [e''], ...: one quote per draw. *)
Fixpoint tick (n : nat) : string := match n with O => "" | S n => String "'"%char (tick n) end.
Definition text_source : IDSource := MkIDSource None (fun n => String "e"%char (tick n)) 0 0.

Lemma tick_inj i j : tick i = tick j -> i = j.
Proof. revert j. induction i as [|i IH]; intros [|j]; simpl; try done. intros [= ?]. f_equal. auto. Qed.

Lemma tick_bytes n : list_ascii_of_string (tick n) = repeat "'"%char n.
Proof. induction n as [|n IH]; simpl; congruence. Qed.

Global Instance text_source_fresh : FreshSource text_source.
Proof.
  split; simpl.
  - intros i j [= ?]. by apply tick_inj.
  - intros i. unfold trim_space, trim_bytes. simpl list_ascii_of_string. rewrite tick_bytes.
    rewrite trim_left_bytes_fixed by (by destruct i as [|[|i]]).
    assert (Hrev : rev ("e"%char :: repeat "'"%char i) = (repeat "'"%char i ++ ["e"%char])%list).
    { simpl. by rewrite rev_repeat. }
    rewrite Hrev.
    assert (Hfix : trim_rev_bytes (repeat "'"%char i ++ ["e"%char]) = (repeat "'"%char i ++ ["e"%char])%list)
      by (by destruct i as [|[|[|i]]]).
    rewrite Hfix, <- Hrev, rev_involutive. simpl. f_equal. rewrite <- tick_bytes.
    apply string_of_list_ascii_of_string.
  - done.
Qed.

Definition text_controller : ControllerBinding := MkController "kernel" "c" "a" "" tt "" "" 0 0 "".
Definition text_ref : SessionRef := MkSessionRef "caelis" "u" "s1" "ws".
Definition text_start : StartSessionRequest := MkStart "caelis" "u" "ws" "/w" "s1" "" ∅ None text_controller.
