(* ===== verification/StoreProps.v ===== *)
(** * The in-memory store: properties

    What any client of the store may rely on, for every payload that meets the
    codec laws: the log of each Session is append-only with consecutive
    sequences, unique IDs and unique idempotency keys; the revision counts the
    changes of the row; fences exclude stale producers; approvals settle once. *)

From Stdlib Require Import ZArith Lia String Sorted.
From stdpp Require Import base list strings option gmap relations.
From S2P Require Import Prelude GoStrings Fence Events Append IdleCompaction MemStore StoreFacts TextCodec.

Local Open Scope string_scope.

Section Lemmas.
Context `{OV : OpenValues} {B : Type} {EC : EventCodec B} {CL : CodecLaws B} {IC : IdleCodec B}.
Variable sha256_hex : string -> string.
Implicit Types st : Store (OV := OV) (B := B).
Implicit Types r : record (OV := OV) (B := B).

Lemma reachable_inv st st' : store_inv st -> rtc (store_op sha256_hex) st st' -> store_inv st'.
Proof.
  intros Hinv Hr. revert Hinv. induction Hr as [|x y z Hxy _ IH]; intros Hinv; [done|].
  apply IH. eapply store_step_inv; [|exact Hinv]. by eapply store_op_step.
Qed.

Lemma rec_step_events r r' : rec_step r r' -> rc_events r `prefix_of` rc_events r'.
Proof. intros [Heq|new _ _ -> _ _ _ _ _ _|Heq _]; [rewrite Heq|exists new|rewrite Heq]; done. Qed.

Lemma rec_step_ref r r' : rec_step r r' -> s_Ref (rc_session r') = s_Ref (rc_session r).
Proof. intros [Heq|new Href|Heq _]; [rewrite Heq|exact Href|rewrite Heq]; done. Qed.

Lemma rec_step_epoch r r' :
  rec_step r r' -> rc_fenceEpoch r' = rc_fenceEpoch r \/ rc_fenceEpoch r' = u64_succ (rc_fenceEpoch r).
Proof.
  intros [Heq|new _ _ _ _ _ He _ _ _|Heq Hf]; [left; by rewrite Heq|by left|].
  destruct Hf as [[_ H]|[[_ H]|(_ & _ & H)]]; auto.
Qed.

(** A record persists over any run, its epoch advancing at most once a step. *)
Lemma nsteps_record n st st' k r :
  store_inv st -> nsteps (store_op sha256_hex) n st st' -> st_sessions st !! k = Some r ->
  store_inv st' /\ exists r' m, st_sessions st' !! k = Some r' /\ rc_events r `prefix_of` rc_events r' /\
    s_Ref (rc_session r') = s_Ref (rc_session r) /\ (m <= n)%nat /\
    u64 (rc_fenceEpoch r') = u64 (rc_fenceEpoch r + Z.of_nat m).
Proof.
  intros Hinv Hn. revert r Hinv. induction Hn as [st|n st st1 st' Hop _ IH]; intros r Hinv Hk.
  - split; [done|]. exists r, 0%nat. split_and!; auto. by rewrite Z.add_0_r.
  - pose proof (store_op_step _ _ _ Hinv Hop) as Hstep.
    pose proof (store_step_inv _ _ Hstep Hinv) as Hinv1. destruct Hstep as [_ Hstep]. specialize (Hstep k).
    rewrite Hk in Hstep. destruct (st_sessions st1 !! k) as [r1|] eqn:H1; [|done].
    destruct (IH r1 Hinv1 eq_refl) as (Hinv' & r' & m & Hk' & Hpre & Href & Hm & Hep).
    split; [done|].
    pose proof (rec_step_events _ _ Hstep). pose proof (rec_step_ref _ _ Hstep).
    destruct (rec_step_epoch _ _ Hstep) as [He|He]; rewrite He in Hep.
    + exists r', m. split_and!; [done|by etransitivity|congruence|lia|done].
    + exists r', (S m). split_and!; [done|by etransitivity|congruence|lia|].
      rewrite Hep. unfold u64_succ. rewrite u64_plus_l. f_equal. lia.
Qed.

Lemma rtc_nsteps_ex st st' : rtc (store_op sha256_hex) st st' -> exists n, nsteps (store_op sha256_hex) n st st'.
Proof. apply rtc_nsteps. Qed.

Lemma mutateSession_frame {R} ref guard (body : record -> IDSource -> result SessionError R * (record * IDSource)) st :
  exists k0, store_frame k0 st (mutateSession sha256_hex ref guard body st).2.
Proof.
  exists (SessionID (NormalizeSessionRef ref)). intros k Hk. unfold mutateSession.
  destruct (lookupLocked st ref); [|done]. destruct (authorizeMutation _ _ _); [|done].
  destruct (body _ _) as [res [r' ids']]. simpl in *. by rewrite lookup_insert_ne.
Qed.

Lemma put_frame ref r st : exists k0, store_frame k0 st (putRecord ref r st).
Proof.
  exists (SessionID (NormalizeSessionRef ref)). intros k Hk. simpl in *. by rewrite lookup_insert_ne.
Qed.

Lemma put_ids_frame ref r ids st : exists k0, store_frame k0 st (withIDs ids (putRecord ref r st)).
Proof. apply (put_frame ref r st). Qed.

Lemma same_frame st : exists k0, store_frame k0 st st.
Proof. by exists "". Qed.

Lemma create_frame now req ref ids st : exists k0, store_frame k0 st (createOrReuse now req ref (withIDs ids st)).2.
Proof.
  exists (SessionID ref). intros k Hk. unfold createOrReuse. cbn [st_sessions withIDs].
  destruct (st_sessions st !! SessionID ref); [by case_match|]. simpl. by rewrite lookup_insert_ne.
Qed.

Lemma acquire_frame now ref owner replace fid tok st :
  exists k0, store_frame k0 st (acquireSessionFence sha256_hex now ref owner replace fid tok st).2.
Proof.
  unfold acquireSessionFence. repeat case_match; simpl; eauto using same_frame, put_frame.
Qed.

Lemma idleTransaction_frame {X} now ref (update : _ -> _ -> _ -> result SessionError (X * _ * _)) st :
  exists k0, store_frame k0 st (idleTransaction now ref update st).2.
Proof. unfold idleTransaction. repeat case_match; simpl; eauto using same_frame, put_frame, put_ids_frame. Qed.

Lemma store_op_frame st st' : store_op sha256_hex st st' -> exists k0, store_frame k0 st st'.
Proof.
  intros [].
  - unfold StartSession. destruct (ValidateMetadata _); [|apply same_frame]. cbv zeta.
    destruct (negb _); [apply same_frame|]. destruct (_ || _); [apply same_frame|].
    destruct (_ =? ""); [destruct (nextID _); apply create_frame|].
    destruct (create_frame now req (NormalizeSessionRef (MkSessionRef (ss_AppName req) (ss_UserID req)
      (ss_PreferredSessionID req) (ss_WorkspaceKey req))) (st_ids st0) st0) as [k0 Hk0].
    exists k0. by destruct st0.
  - unfold AppendEventWithOutcome. case_match; [apply mutateSession_frame|apply same_frame].
  - unfold AppendEventWithOutcomeConditional. case_match; [apply mutateSession_frame|apply same_frame].
  - unfold AppendEvents. case_match; [apply same_frame|apply mutateSession_frame].
  - unfold AppendEventsAndUpdateState. case_match; [apply same_frame|apply mutateSession_frame].
  - unfold SettlePendingApproval. repeat case_match; eauto using same_frame, mutateSession_frame.
  - apply mutateSession_frame.
  - apply mutateSession_frame.
  - apply mutateSession_frame.
  - apply mutateSession_frame.
  - apply mutateSession_frame.
  - apply mutateSession_frame.
  - unfold ReplaceState. case_match; [apply mutateSession_frame|apply same_frame].
  - apply mutateSession_frame.
  - apply acquire_frame.
  - unfold ReplacePriorHostSessionFence. case_match; [apply same_frame|apply acquire_frame].
  - unfold ReleaseSessionFence. repeat case_match; simpl; eauto using same_frame, put_frame.
  - apply idleTransaction_frame.
  - apply idleTransaction_frame.
  - apply idleTransaction_frame.
  - apply idleTransaction_frame.
  - apply idleTransaction_frame.
  - apply idleTransaction_frame.
  - apply idleTransaction_frame.
  - apply idleTransaction_frame.
  - unfold RecoverCompactionReceipts. repeat case_match; simpl; eauto using same_frame, put_frame, put_ids_frame.
Qed.

Lemma acquire_ok now ref owner replace fid tok st f st' :
  acquireSessionFence sha256_hex now ref owner replace fid tok st = (Ok f, st') ->
  exists r, lookupLocked st ref = Some r /\ SessionFenceIsHeld f = true /\
    FencingToken f = u64_succ (rc_fenceEpoch r) /\
    st' = putRecord ref (set_fence (SessionFenceForStorage f) (FencingToken f)
                           (set_fence (rc_fence r) (FencingToken f) (set_idle (Invalidate (rc_idle r)) r))) st.
Proof.
  unfold acquireSessionFence. destruct (lookupLocked st ref) as [r|]; [|done].
  destruct (_ =? ""); [done|]. destruct (_ && _); [done|]. destruct fid as [fid|]; [|done].
  destruct (NewSessionFenceClaim _ _ _) as [g|e] eqn:Hc; [|done]. intros [= -> <-]. exists r.
  unfold NewSessionFenceClaim in Hc. destruct (negb (SessionFenceIsHeld _)) eqn:Hh; [done|].
  destruct (_ || _); [done|]. destruct tok; [|done]. injection Hc as <-.
  apply negb_false_iff in Hh. done.
Qed.

Lemma lookup_put ref r st : (forall r0, lookupLocked st ref = Some r0 -> s_Ref (rc_session r) = s_Ref (rc_session r0)) ->
  is_Some (lookupLocked st ref) -> lookupLocked (putRecord ref r st) ref = Some r.
Proof.
  intros Href [r0 Hr0]. specialize (Href _ Hr0). unfold lookupLocked in *. simpl in *.
  rewrite lookup_insert_eq. destruct (st_sessions st !! _) as [r1|]; [|done].
  destruct (_ && _) eqn:E in Hr0; [|done]. injection Hr0 as ->. by rewrite Href, E.
Qed.

(** A guard that relies on a fence and carries another fencing token fails. *)
Lemma other_token_rejected active guard :
  SessionFenceIsHeld active = true -> g_FencingToken guard <> FencingToken active ->
  Authority guard = MutationAuthorityRuntime \/ trim_space (g_FenceID guard) <> "" ->
  is_ok (AuthorizeMutationGuard sha256_hex active guard) = false.
Proof.
  intros Hheld Htok Hrel. destruct (AuthorizeMutationGuard _ active guard) as [[]|e] eqn:E; [|done].
  destruct (authorize_held_inv _ _ _ Hheld E) as [(Ha & Hf & _)|Hm].
  - destruct Hrel as [Hrel|Hrel]; [|done]. rewrite Hrel in Ha. done.
  - by apply mutation_authorized_inv in Hm as (_ & _ & Ht & _).
Qed.

(** Appends of a record outside any recorded transaction. *)
Lemma append_plain_inv k now r ids events expected tx r' ids' :
  rec_inv k r ->
  appendToRecord now r ids events None None expected "" "" = (Ok tx, (r', ids')) ->
  CheckExpectedRevision (rc_session r) expected = Ok tt /\ r' = applyAppendTransactionToRecord tx r /\
  (pt_Changed tx = true -> s_Revision (rc_session r') = u64_succ (s_Revision (rc_session r))).
Proof.
  intros Hr. unfold appendToRecord. destruct (PrepareAppendTransaction _ ids) as [[tx' ids0]|e] eqn:Hp; [|done].
  intros [= <- <- <-].
  apply PrepareAppendTransaction_inv in Hp as (p & _ & _ & [(Happ & _)|(_ & Hrev & Hfin)]).
  - simpl in Happ. apply bool_decide_eq_true in Happ. exfalso. by apply (ri_applied _ _ Hr).
  - split; [done|]. split; [done|]. intros Hch. unfold applyAppendTransactionToRecord. rewrite Hch. simpl.
    apply finishTransaction_inv in Hfin as (_ & _ & Hrv & _); [by apply Hrv|]. by intros f.
Qed.

(** A successful append of one event that names a revision. *)
Lemma append_event_inv now req st st' stored changed expected :
  store_inv st -> AppendEventWithOutcome sha256_hex now req st = (Ok (stored, changed), st') ->
  ae_ExpectedRevision req = Some expected ->
  exists r r' ids, lookupLocked st (ae_SessionRef req) = Some r /\ s_Revision (rc_session r) = expected /\
    (changed = true -> s_Revision (rc_session r') = u64_succ expected) /\
    st' = withIDs ids (putRecord (ae_SessionRef req) r' st).
Proof.
  intros [Hids Hi] Ha He. unfold AppendEventWithOutcome in Ha. destruct (ae_Event req) as [e|]; [|done].
  unfold mutateSession in Ha. destruct (lookupLocked st (ae_SessionRef req)) as [r|] eqn:Hl; [|done].
  unfold authorizeMutation in Ha. destruct (AuthorizeMutationGuard _ _ _); [|done].
  pose proof (Hi _ _ (lookupLocked_sessions _ _ _ Hl)) as Hr.
  apply (rec_inv_idle _ (Invalidate (rc_idle r))) in Hr.
  rewrite He in Ha. destruct (appendToRecord _ _ _ _ _ _ _ _ _) as [[tx|err] [r' ids]] eqn:Eb; [|done].
  simpl in Ha. unfold appendOutcome in Ha. injection Ha as <- <- <-.
  apply (append_plain_inv _ _ _ _ _ _ _ _ _ Hr) in Eb as (Hc & _ & Hrv). simpl in Hc.
  destruct (Z.eqb_spec expected (s_Revision (rc_session r))) as [->|]; [|done].
  exists r, r', ids. auto.
Qed.

(** Preparing one event either persists that event or nothing. *)
Lemma prepare_single {A} sid o existing ids last now (alloc : option (A -> Event B -> gset string -> Event B * A)) gen p gen' :
  PrepareEventsForAppend sid [o] existing ids last now alloc gen = Ok (p, gen') ->
  pa_Persisted p = [] \/ (exists n, pa_Persisted p = [CloneEvent n] /\ pa_Events p = [CloneEvent n]).
Proof.
  simpl. intros (st & Hst & Hp)%result_bind_ok. injection Hp as <- <-.
  apply result_bind_ok in Hst as (st1 & H1 & [= ->]). unfold prepareOne in H1.
  apply result_bind_ok in H1 as (n & _ & H1). destruct (IsTransient n); [injection H1 as <-; by left|].
  destruct (priorEvent _ n) as [q|]; [destruct (sameIdempotentEvent q n); [injection H1 as <-; by left|done]|].
  injection H1 as <-. right. unfold persistEvent. case_match; case_match; simplify_eq; simpl; eauto.
Qed.

(** A plain append changes the record exactly when it persists events. *)
Lemma plain_changed k now r ids o expected tx r' ids' :
  rec_inv k r ->
  appendToRecord now r ids [o] None None expected "" "" = (Ok tx, (r', ids')) -> pt_Changed tx = true ->
  exists n, rc_events r' = (rc_events r ++ [CloneEvent n])%list /\ pa_Events (pt_Prepared tx) = [CloneEvent n] /\
            s_Ref (rc_session r') = s_Ref (rc_session r).
Proof.
  intros Hr. unfold appendToRecord. destruct (PrepareAppendTransaction _ ids) as [[tx' ids0]|e] eqn:Hp; [|done].
  intros [= <- <- <-] Hch. unfold applyAppendTransactionToRecord. rewrite Hch. simpl.
  apply PrepareAppendTransaction_inv in Hp as (p & Hpe & Hpt & [(_ & Hno & _)|(_ & _ & Hfin)]); [congruence|].
  pose proof Hfin as Hfin'. apply finishTransaction_inv in Hfin' as (_ & Href & _); [|by intros f].
  rewrite Hpt. destruct (prepare_single _ _ _ _ _ _ _ _ _ _ Hpe) as [Hnil|(n & Hper & Hev)].
  - exfalso. unfold finishTransaction in Hfin. simpl in Hfin. unfold ApplyPreparedAppendToSession in Hfin.
    rewrite Hnil in Hfin. simpl in Hfin. apply (f_equal (fun x => match x with Ok t => pt_Changed t | Fail _ => false end)) in Hfin.
    simpl in Hfin. congruence.
  - exists n. rewrite Hper. simpl. rewrite clone_clone. split; [done|]. split; [done|].
    rewrite Href. simpl. by rewrite !(ri_norm _ _ Hr).
Qed.

(** A successful settlement stored its event last. *)
Lemma settle_ok now req st st' e :
  store_inv st -> SettlePendingApproval sha256_hex now req st = (Ok (true, Some e), st') ->
  exists r r' ids, lookupLocked st (sp_SessionRef req) = Some r /\
    (exists pre, rc_events r' = (pre ++ [e])%list) /\ s_Ref (rc_session r') = s_Ref (rc_session r) /\
    st' = withIDs ids (putRecord (sp_SessionRef req) r' st).
Proof.
  intros [Hids Hi] Ha. unfold SettlePendingApproval in Ha.
  destruct (ValidateSettlePendingApprovalRequest req); [|done].
  destruct (lookupLocked st (sp_SessionRef req)) as [r|] eqn:Hl; [|done].
  destruct (negb _); [done|]. unfold mutateSession in Ha. rewrite Hl in Ha.
  unfold authorizeMutation in Ha. destruct (AuthorizeMutationGuard _ _ _); [|done].
  pose proof (rec_inv_idle _ (Invalidate (rc_idle r)) _ (Hi _ _ (lookupLocked_sessions _ _ _ Hl))) as Hr.
  destruct (CheckExpectedRevision _ _); [|done].
  destruct (appendToRecord _ _ _ _ _ _ _ _ _) as [[tx|err] [r' ids]] eqn:Eb; [|done].
  simpl in Ha. injection Ha as Hch He <-.
  destruct (plain_changed _ _ _ _ _ _ _ _ _ Hr Eb Hch) as (n & Hev & Hpe & Href).
  rewrite Hpe in He. simpl in He. rewrite clone_clone in He. injection He as <-.
  exists r, r', ids. split_and!; auto. eexists. exact Hev.
Qed.

(** One event whose retry identity is known prepares to the stored event. *)
Lemma prepare_retry {A} sid o n q existing ids last now (alloc : option (A -> Event B -> gset string -> Event B * A)) gen :
  normalizeForAppend sid now o = Ok n -> IsTransient n = false ->
  priorEvent (initialPrep existing ids last gen) n = Some q ->
  PrepareEventsForAppend sid [o] existing ids last now alloc gen
  = if sameIdempotentEvent q n then Ok (MkPrepared [CloneEvent q] [] 0 "", gen)
    else Fail (EventConflictError sid (trim_space (ev_ID n)) (trim_space (ev_IdempotencyKey n))).
Proof.
  intros Hn Ht Hq. simpl. unfold prepareOne. rewrite Hn. simpl. rewrite Ht, Hq.
  destruct (sameIdempotentEvent q n); simpl; [|done]. by rewrite clone_clone.
Qed.
End Lemmas.

(** ** A concrete run: one Session, two events *)

Definition demo_sha (_ : string) : string := "d".
Definition demo_guard : MutationGuard := ControlMutationGuard ControlMutationPurposeTest.
Definition demo_append (expected : option Z) (e : Event TextBody) : AppendEventRequest :=
  MkAppend text_ref expected demo_guard (Some e).
Definition demo0 : Store (B := TextBody) := empty_store text_source.
Definition demo1 : Store := (StartSession 5 text_start demo0).2.
Definition demo2 : Store := (AppendEventWithOutcome demo_sha 7 (demo_append (Some 0%Z) (text_event "k1" "user" "hello")) demo1).2.
Definition demo3 : Store := (AppendEventWithOutcome demo_sha 9 (demo_append None (text_event "" "assistant" "hi")) demo2).2.

Lemma demo1_reachable : rtc (store_op demo_sha) demo0 demo1.
Proof. apply rtc_once, op_start. Qed.
Lemma demo2_reachable : rtc (store_op demo_sha) demo0 demo2.
Proof. eapply rtc_r; [apply demo1_reachable|unfold demo2; apply op_append]. Qed.
Lemma demo3_reachable : rtc (store_op demo_sha) demo0 demo3.
Proof. eapply rtc_r; [apply demo2_reachable|unfold demo3; apply op_append]. Qed.
Lemma demo2_inv : store_inv demo2.
Proof. eapply reachable_inv; [apply empty_store_inv, _|apply demo2_reachable]. Qed.

Definition demo_record (st : Store (B := TextBody)) : record :=
  default (empty_record (MkSession text_ref 0 "" None "" ∅ text_controller [] 0 0)) (st_sessions st !! "s1").

(** ** Properties *)

(** C1: in every store reachable from an empty one by any sequence of
    operations with any arguments, the log of every Session holds durable
    events only, their IDs and their idempotency keys are pairwise distinct,
    their sequences are 1, 2, 3, ... without gaps (while fewer than 2^64 were
    stored), and the stored fence keeps no bearer claim. *)
Theorem reachable_log_invariant `{OV : OpenValues} {B : Type} {EC : EventCodec B} {CL : CodecLaws B} {IC : IdleCodec B}
  (sha256_hex : string -> string) (ids : IDSource) (st : Store (B := B)) (k : string) (r : record)
  (Hids : FreshSource ids)
  (Hreach : rtc (store_op sha256_hex) (empty_store ids) st)
  (Hk : st_sessions st !! k = Some r) :
  SessionID (s_Ref (rc_session r)) = k /\
  Forall (fun e => IsTransient e = false) (rc_events r) /\
  NoDup (map ev_ID (rc_events r)) /\ NoDup (log_keys (rc_events r)) /\
  claimToken (rc_fence r) = "" /\
  ((Z.of_nat (length (rc_events r)) < u64_modulus)%Z ->
   map ev_Seq (rc_events r) = map (fun i => Z.of_nat i + 1)%Z (seq 0 (length (rc_events r)))).
Proof.
  assert (Hinv : store_inv st) by (eapply reachable_inv; [by apply empty_store_inv|done]).
  destruct Hinv as [_ Hinv]. destruct (Hinv k r Hk) as [Hkey _ Hs Hid _ Hd Hkeys _ Hc _ _].
  split_and!; auto. intros Hlt. rewrite Hs by done. unfold seqs_after. apply map_ext_in.
  intros i Hi%in_seq. rewrite u64_small; [lia|]. unfold is_u64. lia.
Qed.

Lemma reachable_log_invariant_witness :
  st_sessions demo3 !! "s1" = Some (demo_record demo3) /\
  length (rc_events (demo_record demo3)) = 2%nat /\
  NoDup (map ev_ID (rc_events (demo_record demo3))).
Proof.
  split; [vm_compute; reflexivity|]. split; [vm_compute; reflexivity|].
  apply (reachable_log_invariant demo_sha text_source demo3 "s1" (demo_record demo3));
    [apply _|apply demo3_reachable|vm_compute; reflexivity].
Defined.

(** C31: the log is append-only and a Session is never dropped or renamed: from
    a consistent store, any number of further operations keeps the record of a
    Session, its identity, and its events as a prefix of the later log. *)
Theorem log_append_only `{OV : OpenValues} {B : Type} {EC : EventCodec B} {CL : CodecLaws B} {IC : IdleCodec B}
  (sha256_hex : string -> string) (st st' : Store (B := B)) (k : string) (r : record)
  (Hinv : store_inv st)
  (Hrun : rtc (store_op sha256_hex) st st')
  (Hk : st_sessions st !! k = Some r) :
  exists r', st_sessions st' !! k = Some r' /\ rc_events r `prefix_of` rc_events r' /\
             s_Ref (rc_session r') = s_Ref (rc_session r).
Proof.
  apply rtc_nsteps_ex in Hrun as [n Hn].
  destruct (nsteps_record _ _ _ _ _ _ Hinv Hn Hk) as (_ & r' & m & Hk' & Hp & Href & _). eauto.
Qed.

Lemma log_append_only_witness :
  exists r', st_sessions demo3 !! "s1" = Some r' /\
    rc_events (demo_record demo2) `prefix_of` rc_events r' /\
    s_Ref (rc_session r') = s_Ref (rc_session (demo_record demo2)).
Proof.
  apply (log_append_only demo_sha demo2 demo3 "s1" (demo_record demo2));
    [apply demo2_inv|apply rtc_once, op_append|vm_compute; reflexivity].
Defined.

(** One operation changes at most one Session, and its revision is exactly
    the change counter: either the row, the log, the state and the applied
    transactions are untouched, or the revision is the successor (modulo 2^64)
    of what it was. *)
Theorem operation_changes_one_revision `{OV : OpenValues} {B : Type} {EC : EventCodec B} {CL : CodecLaws B} {IC : IdleCodec B}
  (sha256_hex : string -> string) (st st' : Store (B := B))
  (Hinv : store_inv st)
  (Hop : store_op sha256_hex st st') :
  (exists k0, forall k, k <> k0 -> st_sessions st' !! k = st_sessions st !! k) /\
  (forall k r, st_sessions st !! k = Some r -> exists r', st_sessions st' !! k = Some r' /\
    ((rc_session r' = rc_session r /\ rc_events r' = rc_events r /\ rc_state r' = rc_state r /\
      rc_applied r' = rc_applied r) \/
     (s_Revision (rc_session r') = u64_succ (s_Revision (rc_session r)) /\
      s_Revision (rc_session r') <> s_Revision (rc_session r)))).
Proof.
  split; [by eapply store_op_frame|]. intros k r Hk.
  pose proof (store_op_step _ _ _ Hinv Hop) as [_ Hstep]. specialize (Hstep k). rewrite Hk in Hstep.
  destruct (st_sessions st' !! k) as [r'|]; [|done]. exists r'. split; [done|].
  destruct Hstep as [Heq|new _ Hrev _ _ _ _ _ _ _|Heq _]; [left; by rewrite Heq| |left; by rewrite Heq].
  right. split; [done|]. rewrite Hrev. apply u64_succ_ne. destruct Hinv as [_ Hinv]. apply (ri_revision _ _ (Hinv k r Hk)).
Qed.

Lemma operation_changes_one_revision_witness :
  (exists k0, forall k, k <> k0 -> st_sessions demo3 !! k = st_sessions demo2 !! k) /\
  s_Revision (rc_session (demo_record demo3)) = 2%Z.
Proof.
  split; [|vm_compute; reflexivity].
  apply (operation_changes_one_revision demo_sha demo2 demo3); [apply demo2_inv|unfold demo3; apply op_append].
Defined.

(** C11: a producer that lost its fence cannot write.  Once a fence was acquired
    for a Session and, any number [n] of operations later, another one is, their
    fencing tokens differ (the epoch would have to wrap around 2^64), and every
    guard that relies on a fence and carries the first token is refused. *)
Theorem stale_fence_rejected `{OV : OpenValues} {B : Type} {EC : EventCodec B} {CL : CodecLaws B} {IC : IdleCodec B}
  (sha256_hex : string -> string) (st0 st1 st2 st3 : Store (B := B)) (n : nat) (ref : SessionRef)
  (now1 now2 : Z) (owner1 owner2 : string) (replace1 replace2 : bool) (fid1 tok1 fid2 tok2 : option string)
  (f1 f2 : SessionFence) (guard : MutationGuard)
  (Hinv : store_inv st0)
  (Hfirst : acquireSessionFence sha256_hex now1 ref owner1 replace1 fid1 tok1 st0 = (Ok f1, st1))
  (Hrun : nsteps (store_op sha256_hex) n st1 st2)
  (Hbound : (Z.of_nat n + 1 < u64_modulus)%Z)
  (Hsecond : acquireSessionFence sha256_hex now2 ref owner2 replace2 fid2 tok2 st2 = (Ok f2, st3))
  (Htoken : g_FencingToken guard = FencingToken f1)
  (Hrelies : Authority guard = MutationAuthorityRuntime \/ trim_space (g_FenceID guard) <> "") :
  FencingToken f2 <> FencingToken f1 /\
  is_ok (ValidateMutationGuard sha256_hex ref guard st3) = false.
Proof.
  pose proof (acquire_step sha256_hex now1 ref owner1 replace1 fid1 tok1 st0) as Hstep.
  rewrite Hfirst in Hstep. simpl in Hstep. pose proof (store_step_inv _ _ Hstep Hinv) as Hinv1.
  apply acquire_ok in Hfirst as (r0 & Hl0 & Hh1 & Ht1 & ->).
  pose proof (nsteps_record _ _ _ _ (SessionID (NormalizeSessionRef ref)) _ Hinv1 Hrun (lookup_insert_eq _ _ _))
    as (_ & r2 & m & Hk2 & _ & _ & Hm & Hep).
  apply acquire_ok in Hsecond as (r & Hl2 & Hh2 & Ht2 & ->).
  pose proof (lookupLocked_sessions _ _ _ Hl2) as Hk. rewrite Hk2 in Hk. injection Hk as ->.
  assert (Hne : FencingToken f2 <> FencingToken f1).
  { rewrite Ht2. simpl in Hep. intros Heq. unfold u64_succ in Heq. rewrite <- u64_plus_l, Hep, u64_plus_l in Heq.
    rewrite <- Z.add_assoc in Heq. assert (Hr : is_u64 (FencingToken f1)) by (rewrite Ht1; apply u64_range).
    unfold u64, is_u64 in *. apply (f_equal (fun x => (x - FencingToken f1) mod u64_modulus)%Z) in Heq.
    rewrite Zminus_mod_idemp_l, Z.sub_diag in Heq.
    replace (FencingToken f1 + (Z.of_nat m + 1) - FencingToken f1)%Z with (Z.of_nat m + 1)%Z in Heq by lia.
    rewrite !Z.mod_small in Heq; lia. }
  split; [done|]. unfold ValidateMutationGuard. rewrite lookup_put; [|by intros ? [= <-]%(eq_trans (eq_sym Hl2))|by eexists].
  simpl. apply other_token_rejected; [by unfold SessionFenceIsHeld|simpl; congruence|done].
Qed.

Definition demo_acquire (owner fid : string) (replace : bool) (st : Store (B := TextBody)) :=
  acquireSessionFence demo_sha 10 text_ref owner replace (Some fid) (Some "token") st.
Definition demo_fence (st : Store (B := TextBody)) : SessionFence := rc_fence (demo_record st).

Lemma stale_fence_rejected_witness :
  exists f1 f2 st1 st3, demo_acquire "host-a" "f1" false demo2 = (Ok f1, st1) /\
    demo_acquire "host-b" "f2" true st1 = (Ok f2, st3) /\
    is_ok (ValidateMutationGuard demo_sha text_ref (RuntimeFenceGuard f1) st1) = true /\
    FencingToken f2 <> FencingToken f1 /\
    is_ok (ValidateMutationGuard demo_sha text_ref (RuntimeFenceGuard f1) st3) = false.
Proof.
  do 4 eexists. split; [vm_compute; reflexivity|]. split; [vm_compute; reflexivity|].
  split; [vm_compute; reflexivity|].
  eapply (stale_fence_rejected demo_sha demo2 _ _ _ 0 text_ref 10 10 "host-a" "host-b" false true
           (Some "f1") (Some "token") (Some "f2") (Some "token"));
    [apply demo2_inv|vm_compute; reflexivity|apply nsteps_O|vm_compute; reflexivity|vm_compute; reflexivity
    |vm_compute; reflexivity|left; vm_compute; reflexivity].
Defined.

(** The expected revision is a compare-and-swap.  An append that names a
    revision and changes the Session found exactly that revision, and any later
    append to the same Session that still names it fails, so one of two writers
    that read the same row is always told. *)
Theorem append_compare_and_swap `{OV : OpenValues} {B : Type} {EC : EventCodec B} {CL : CodecLaws B}
  (sha256_hex : string -> string) (st st' : Store (B := B)) (now now' expected : Z)
  (req req' : AppendEventRequest) (stored : option (Event B))
  (Hinv : store_inv st)
  (Hexp : ae_ExpectedRevision req = Some expected)
  (Hok : AppendEventWithOutcome sha256_hex now req st = (Ok (stored, true), st'))
  (Hsame : ae_SessionRef req' = ae_SessionRef req)
  (Hexp' : ae_ExpectedRevision req' = Some expected) :
  (exists r, lookupLocked st (ae_SessionRef req) = Some r /\ s_Revision (rc_session r) = expected) /\
  is_ok (AppendEventWithOutcome sha256_hex now' req' st').1 = false.
Proof.
  destruct (append_event_inv _ _ _ _ _ _ _ _ Hinv Hok Hexp) as (r & r' & ids & Hl & Hrv & Hrv' & Hst').
  split; [by exists r|]. destruct (AppendEventWithOutcome sha256_hex now' req' st') as [[[o b]|e] sz] eqn:E; [|done].
  exfalso. assert (Hinv' : store_inv st').
  { eapply store_step_inv; [|exact Hinv].
    change st' with (Ok (E := SessionError) (stored, true), st').2. rewrite <- Hok. by apply append_outcome_step. }
  destruct (append_event_inv _ _ _ _ _ _ _ _ Hinv' E Hexp') as (r2 & _ & _ & Hl2 & Hrv2 & _).
  apply lookupLocked_sessions in Hl2. rewrite Hsame, Hst' in Hl2. simpl in Hl2. rewrite lookup_insert_eq in Hl2.
  injection Hl2 as <-. rewrite (Hrv' eq_refl) in Hrv2.
  destruct Hinv as [_ Hi]. pose proof (ri_revision _ _ (Hi _ _ (lookupLocked_sessions _ _ _ Hl))) as Hu.
  rewrite Hrv in Hu. by apply (u64_succ_ne expected).
Qed.

Lemma append_compare_and_swap_witness :
  let first := demo_append (Some 1%Z) (text_event "" "assistant" "hi") in
  let second := demo_append (Some 1%Z) (text_event "" "user" "again") in
  exists stored st', AppendEventWithOutcome demo_sha 9 first demo2 = (Ok (stored, true), st') /\
    (exists r, lookupLocked demo2 text_ref = Some r /\ s_Revision (rc_session r) = 1%Z) /\
    is_ok (AppendEventWithOutcome demo_sha 11 second st').1 = false.
Proof.
  do 2 eexists. split; [vm_compute; reflexivity|].
  eapply (append_compare_and_swap demo_sha demo2 _ 9 11 1 (demo_append (Some 1%Z) (text_event "" "assistant" "hi"))
           (demo_append (Some 1%Z) (text_event "" "user" "again")));
    [apply demo2_inv|reflexivity|vm_compute; reflexivity|reflexivity|reflexivity].
Defined.

(** ** Settled approvals *)

(** A request for approval [id]. *)
Definition requests_approval `{EC : EventCodec B} (id : string) (e : Event B) : Prop :=
  trim_space (ev_ApprovalRequestID e) = id /\ HasProtocolPermission e = true.

(** Behind its settlement an approval stays settled, until it is requested again. *)
Lemma settled_not_pending `{EC : EventCodec B} id pre (e : Event B) later :
  trim_space (ev_ApprovalRequestID e) = id -> is_Some (ev_Lifecycle e) -> HasProtocolPermission e = false ->
  Forall (fun x => ~ requests_approval id x) later -> fold_left (pendingStep id) (pre ++ e :: later) None = None.
Proof.
  intros Hid Hlife Hperm Hlater. rewrite fold_left_app. cbn [fold_left]. unfold pendingStep at 2. rewrite Hid, String.eqb_refl, Hperm. cbn [negb].
  rewrite bool_decide_true by done. induction Hlater as [|x later Hx _ IH]; [done|]. cbn [fold_left]. unfold pendingStep at 2.
  destruct (String.eqb_spec (trim_space (ev_ApprovalRequestID x)) id) as [E|_]; cbn [negb]; [|done].
  destruct (HasProtocolPermission x) eqn:Ep; [by destruct Hx|]. by destruct (bool_decide _).
Qed.

Lemma lookup_later `{OV : OpenValues} {B : Type} {EC : EventCodec B} {CL : CodecLaws B} {IC : IdleCodec B} sha256_hex (st st' : Store (B := B)) ref r :
  store_inv st -> rtc (store_op sha256_hex) st st' -> lookupLocked st ref = Some r ->
  exists r' later, lookupLocked st' ref = Some r' /\ rc_events r' = (rc_events r ++ later)%list.
Proof.
  intros Hinv Hrun Hl. apply rtc_nsteps_ex in Hrun as [n Hn]. pose proof (lookupLocked_sessions _ _ _ Hl) as Hk.
  destruct (nsteps_record _ _ _ _ _ _ Hinv Hn Hk) as (_ & r' & m & Hk' & [later Hp] & Href & _). exists r', later. split; [|done].
  unfold lookupLocked in *. rewrite Hk in Hl. by rewrite Hk', Href; destruct (_ && _).
Qed.

(** C33: an approval is settled once.  When a conditional settlement succeeded
    and what it stored is a settlement of the request — its approval identifier,
    a lifecycle, no permission — then in every store that any operations lead
    to, as long as the request is not made again, every valid settlement of the
    same request on the same Session reports, without an error and without
    touching the store, that there is nothing to settle. *)
Theorem approval_settles_once `{OV : OpenValues} {B : Type} {EC : EventCodec B} {CL : CodecLaws B} {IC : IdleCodec B}
  (sha256_hex : string -> string) (st st' st'' : Store (B := B)) (now now' : Z)
  (req req' : SettlePendingApprovalRequest) (e : Event B)
  (Hinv : store_inv st)
  (Hok : SettlePendingApproval sha256_hex now req st = (Ok (true, Some e), st'))
  (Hid : trim_space (ev_ApprovalRequestID e) = trim_space (sp_ApprovalRequestID req))
  (Hlife : is_Some (ev_Lifecycle e))
  (Hperm : HasProtocolPermission e = false)
  (Hrun : rtc (store_op sha256_hex) st' st'')
  (Hlater : forall r r'' later, lookupLocked st' (sp_SessionRef req) = Some r -> lookupLocked st'' (sp_SessionRef req) = Some r'' ->
    rc_events r'' = (rc_events r ++ later)%list -> Forall (fun x => ~ requests_approval (trim_space (sp_ApprovalRequestID req)) x) later)
  (Hvalid : ValidateSettlePendingApprovalRequest req' = Ok tt)
  (Hsession : sp_SessionRef req' = sp_SessionRef req)
  (Hrequest : trim_space (sp_ApprovalRequestID req') = trim_space (sp_ApprovalRequestID req)) :
  SettlePendingApproval sha256_hex now' req' st'' = (Ok (false, None), st'').
Proof.
  assert (Hinv' : store_inv st').
  { eapply (reachable_inv sha256_hex); [exact Hinv|]. apply rtc_once. pose proof (op_settle sha256_hex now req st) as H. by rewrite Hok in H. }
  destruct (settle_ok _ _ _ _ _ _ Hinv Hok) as (r & r' & ids & Hl & [pre Hlast] & Href & Est).
  assert (Hl' : lookupLocked st' (sp_SessionRef req) = Some r').
  { rewrite Est. apply (lookup_put (sp_SessionRef req) r' st); [|by eexists]. intros r0 Hr0. by simplify_eq. }
  destruct (lookup_later sha256_hex st' st'' _ _ Hinv' Hrun Hl') as (r'' & later & Hl'' & Hev). specialize (Hlater r' r'' later Hl' Hl'' Hev).
  unfold SettlePendingApproval. rewrite Hvalid, Hsession, Hl''. unfold pendingApprovalForEvents.
  rewrite Hrequest, Hev, Hlast, <- app_assoc. cbn [app]. by rewrite settled_not_pending.
Qed.

Definition demo_permission : Store (B := TextBody) :=
  (AppendEventWithOutcome demo_sha 7 (demo_append None (permission_event "a1")) demo1).2.
Definition demo_settle (rev : Z) : SettlePendingApprovalRequest :=
  MkSettle text_ref (Some rev) demo_guard "a1" "perm-a1" 1 (Some (settlement_event "a1")).

Lemma demo_permission_inv : store_inv demo_permission.
Proof.
  eapply reachable_inv; [apply empty_store_inv, _|].
  eapply rtc_r; [apply demo1_reachable|unfold demo_permission; apply op_append].
Qed.

Lemma approval_settles_once_witness :
  exists e st', SettlePendingApproval demo_sha 8 (demo_settle 1) demo_permission = (Ok (true, Some e), st') /\
    let st'' := (AppendEventWithOutcome demo_sha 9 (demo_append None (text_event "" "user" "later")) st').2 in
    SettlePendingApproval demo_sha 10 (demo_settle 2) st'' = (Ok (false, None), st'').
Proof.
  do 2 eexists. split; [vm_compute; reflexivity|].
  eapply (approval_settles_once demo_sha demo_permission _ _ 8 10 (demo_settle 1) (demo_settle 2));
    [apply demo_permission_inv|vm_compute; reflexivity|vm_compute; reflexivity|eexists; vm_compute; reflexivity
    |vm_compute; reflexivity|apply rtc_once, op_append| |vm_compute; reflexivity|vm_compute; reflexivity|vm_compute; reflexivity].
  intros r r'' later Hl Hl'' E. vm_compute in Hl, Hl''. injection Hl as <-. injection Hl'' as <-. vm_compute in E. injection E as <-.
  constructor; [|constructor]. by intros [_ H].
Defined.

(** C32: retries are idempotent and collisions are conflicts.  An append of a
    durable event whose ID or idempotency key the log already knows either has
    the content of the stored event, and then the stored event is returned, the
    revision check aside nothing is appended and the record keeps its row, log,
    state and fence; or it differs, and the append fails with an event conflict. *)
Theorem append_retry `{OV : OpenValues} {B : Type} {EC : EventCodec B} {CL : CodecLaws B}
  (sha256_hex : string -> string) (st : Store (B := B)) (now : Z) (req : AppendEventRequest) (e n q : Event B) (r : record)
  (Hinv : store_inv st)
  (Hvalid : ValidateState (rc_state r) = Ok tt)
  (Hev : ae_Event req = Some e)
  (Hl : lookupLocked st (ae_SessionRef req) = Some r)
  (Hauth : AuthorizeMutationGuard sha256_hex (rc_fence r) (ae_MutationGuard req) = Ok tt)
  (Hrev : CheckExpectedRevision (rc_session r) (ae_ExpectedRevision req) = Ok tt)
  (Hdig : is_ok (appendTransactionDigest "" [Some e]) = true)
  (Hn : normalizeForAppend (SessionID (s_Ref (rc_session r))) now (Some e) = Ok n)
  (Hdur : IsTransient n = false)
  (Hprior : priorEvent (initialPrep (Some <$> rc_events r) (existingEventIDSet (rc_events r))
                          (LastEventSeq (Some <$> rc_events r)) (st_ids st)) n = Some q) :
  AppendEventWithOutcome sha256_hex now req st
  = if sameIdempotentEvent q n
    then (Ok (Some (CloneEvent q), false),
          withIDs (st_ids st) (putRecord (ae_SessionRef req) (set_idle (Invalidate (rc_idle r)) r) st))
    else (Fail (EventConflictError (SessionID (s_Ref (rc_session r))) (trim_space (ev_ID n)) (trim_space (ev_IdempotencyKey n))),
          withIDs (st_ids st) (putRecord (ae_SessionRef req) (set_idle (Invalidate (rc_idle r)) r) st)).
Proof.
  unfold AppendEventWithOutcome. rewrite Hev. unfold mutateSession, authorizeMutation. rewrite Hl, Hauth.
  destruct Hinv as [_ Hi]. pose proof (ri_applied _ _ (Hi _ _ (lookupLocked_sessions _ _ _ Hl))) as Hna.
  assert (Htx : PrepareAppendTransaction (transactionRequest now (set_idle (Invalidate (rc_idle r)) r) [Some e] None None
      (ae_ExpectedRevision req) "" "") (st_ids st)
    = if sameIdempotentEvent q n
      then Ok (MkTx (CloneSession (rc_session r)) (rc_state r) (MkPrepared [CloneEvent q] [] 0 "") false ""
                 match appendTransactionDigest "" [Some e] with Ok d => d | Fail _ => "" end false, st_ids st)
      else Fail (EventConflictError (SessionID (s_Ref (rc_session r))) (trim_space (ev_ID n)) (trim_space (ev_IdempotencyKey n)))).
  { unfold PrepareAppendTransaction. cbn [tx_State transactionRequest rc_state set_idle]. rewrite Hvalid. cbn -[appendTransactionDigest PrepareEventsForAppend].
    destruct (appendTransactionDigest "" [Some e]) as [d|]; [|done]. cbn -[PrepareEventsForAppend].
    rewrite bool_decide_false by done. cbn -[PrepareEventsForAppend]. rewrite Hrev. cbn -[PrepareEventsForAppend].
    rewrite (prepare_retry _ _ n q) by done. by destruct (sameIdempotentEvent q n). }
  unfold appendToRecord. rewrite Htx.
  destruct (sameIdempotentEvent q n); simpl; [|done]. unfold appendOutcome. simpl. by rewrite clone_clone.
Qed.

Definition demo_retry_event : Event TextBody := text_event " k1 " "user" "hello".
Definition demo_prior : Event TextBody :=
  default demo_retry_event (eventIndexByIdempotencyKey (Some <$> rc_events (demo_record demo2)) !! "k1").
Definition demo_normalized : Event TextBody :=
  match normalizeForAppend "s1" 11 (Some demo_retry_event) with Ok n => n | Fail _ => demo_retry_event end.

Lemma append_retry_witness :
  sameIdempotentEvent demo_prior demo_normalized = true /\
  AppendEventWithOutcome demo_sha 11 (demo_append None demo_retry_event) demo2
  = if sameIdempotentEvent demo_prior demo_normalized
    then (Ok (Some (CloneEvent demo_prior), false),
          withIDs (st_ids demo2) (putRecord text_ref (set_idle (Invalidate (rc_idle (demo_record demo2))) (demo_record demo2)) demo2))
    else (Fail (EventConflictError "s1" (trim_space (ev_ID demo_normalized)) (trim_space (ev_IdempotencyKey demo_normalized))),
          withIDs (st_ids demo2) (putRecord text_ref (set_idle (Invalidate (rc_idle (demo_record demo2))) (demo_record demo2)) demo2)).
Proof.
  split; [vm_compute; reflexivity|].
  apply (append_retry demo_sha demo2 11 (demo_append None demo_retry_event) demo_retry_event demo_normalized
           demo_prior (demo_record demo2)); [apply demo2_inv|vm_compute; reflexivity ..].
Defined.

(** ** Paging the log *)

Definition demo_page : EventPageRequest := MkPageRequest text_ref 0 0 1 "".

Lemma read_pages_complete_witness :
  read_pages 3 (Some <$> rc_events (demo_record demo3)) demo_page
  = Some (map CanonicalizeEvent
            (page_candidates (NormalizeEventPageRequest demo_page) (Some <$> rc_events (demo_record demo3)))).
Proof.
  apply (read_pages_complete (Some <$> rc_events (demo_record demo3)) demo_page 3).
  - vm_compute. repeat constructor.
  - vm_compute. lia.
Defined.
