(* ===== verification/IdleProps.v ===== *)
(** * Idle compaction in the store

    What the windows of [IdleCompaction] promise when every operation of the
    in-memory store may run in any order: an open window excludes a held fence,
    any foreground activity revokes it, a checkpoint is committed only under its
    authority, once, and the accounting slots stay bounded. *)

From Stdlib Require Import ZArith Lia String Sorted.
From stdpp Require Import base list strings option gmap relations.
From S2P Require Import Prelude GoStrings Fence Events Append IdleCompaction MemStore StoreFacts TextCodec StoreProps.

Local Open Scope string_scope.

Section Facts.
Context `{OV : OpenValues} {B : Type} {EC : EventCodec B} {CL : CodecLaws B} {IC : IdleCodec B}.
Variable sha256_hex : string -> string.
Implicit Types st : Store (OV := OV) (B := B).
Implicit Types r : record (OV := OV) (B := B).

(** ** What the validators establish *)

Lemma ValidateWindow_inv window active loaded now s w : ValidateWindow sha256_hex window active loaded now s = Ok w ->
  i_Window s = Some w /\ w_Revoked w = false /\ w_Consumed w = false /\ w_Epoch w = i_Epoch s /\ (now < w_ExpiresAt w)%Z
  /\ SessionFenceIsHeld active = false /\ sessionFenceClaimMatches sha256_hex (w_ClaimDigest w) (iw_token window) = true
  /\ CheckpointSourceStamp loaded = Ok (is_Stamp (w_Source w)).
Proof.
  unfold ValidateWindow, windowCurrent. destruct (i_Window s) as [w0|]; [|done].
  destruct (_ || SessionFenceIsHeld active) eqn:E; [done|]. rewrite !orb_false_iff in E. destruct E as [[[[[[[E1 E2] E3] E4] E5] E6] E7] E8].
  intros (stamp&Hs&Hw)%result_bind_ok. destruct (String.eqb_spec stamp (is_Stamp (w_Source w0))) as [->|]; [|done].
  simpl in Hw. injection Hw as <-. apply negb_false_iff in E3, E6, E7. rewrite Z.eqb_eq in E3. rewrite Z.ltb_lt in E7. done.
Qed.

Lemma ValidateAppend_inv req active loaded now s : ValidateAppend sha256_hex req active loaded now s = Ok tt ->
  exists w, ValidateWindow sha256_hex (ig_window (ia_Grant req)) active loaded now s = Ok w
    /\ sessionFenceClaimMatches sha256_hex (w_GrantDigest w) (ig_token (ia_Grant req)) = true /\ (now < w_GrantExpiresAt w)%Z
    /\ idleCheckpointHash (ia_Event req) = Ok (w_CandidateHash w) /\ default "" (ev_ID <$> ia_Event req) = w_CandidateID w
    /\ s_Revision (ls_Session loaded) = ia_ExpectedRevision req.
Proof.
  unfold ValidateAppend. intros (w&Hw&Hx)%result_bind_ok. apply result_bind_ok in Hx as (hash&Hh&Hx). exists w. split; [done|].
  destruct (_ || _) eqn:E; [done|]. rewrite !orb_false_iff in E. destruct E as [[[E1 E2] E3] E4].
  apply negb_false_iff in E1, E2, E3, E4. rewrite Z.ltb_lt in E2. rewrite String.eqb_eq in E3, E4. subst hash.
  unfold CheckExpectedRevision in Hx. destruct (Z.eqb_spec (ia_ExpectedRevision req) (s_Revision (ls_Session loaded))); [|done]. auto.
Qed.

(** ** What one operation does to the window of a record *)

Inductive idle_step r r' : Prop :=
| is_none : rc_idle r' = rc_idle r -> rc_fence r' = rc_fence r \/ rc_fence r' = no_fence -> idle_step r r'
| is_foreground : rc_idle r' = Invalidate (rc_idle r) -> idle_step r r'
| is_install w : SessionFenceIsHeld (rc_fence r) = true -> rc_fence r' = no_fence -> w_Revoked w = false -> w_Consumed w = false ->
    w_Epoch w = u64_succ (i_Epoch (rc_idle r)) -> rc_idle r' = set_window (Some w) (Invalidate (rc_idle r)) -> idle_step r r'
| is_window w w' : i_Window (rc_idle r) = Some w -> w_Epoch w' = w_Epoch w -> w_Revoked w' = w_Revoked w ->
    (w_Consumed w = true -> w_Consumed w' = true) -> rc_fence r' = rc_fence r ->
    rc_idle r' = set_window (Some w') (rc_idle r) -> idle_step r r'
| is_attempts a i : i = rc_idle r \/ i = Invalidate (rc_idle r) -> (size a <= size (i_Attempts (rc_idle r)) \/ size a <= 8)%nat ->
    rc_fence r' = rc_fence r -> rc_idle r' = set_attempts a i -> idle_step r r'.

Lemma idle_step_refl r : idle_step r r.
Proof. apply is_none; auto. Qed.

(** *** The invariant: a window that is not revoked belongs to the current epoch
    and excludes a held fence; at most eight attempts are pending. *)
Record idle_ok r : Prop := {
  io_window : forall w, i_Window (rc_idle r) = Some w -> w_Revoked w = false ->
    SessionFenceIsHeld (rc_fence r) = false /\ w_Epoch w = i_Epoch (rc_idle r);
  io_attempts : (size (i_Attempts (rc_idle r)) <= 8)%nat;
}.

Lemma Invalidate_revoked i w : i_Window (Invalidate i) = Some w -> w_Revoked w = true.
Proof. simpl. by intros (w0&_&->)%fmap_Some. Qed.

Lemma idle_step_ok r r' : idle_step r r' -> idle_ok r -> idle_ok r'.
Proof.
  intros Hst [Hw Ha]. destruct Hst as [Hi Hf|Hi|w Hh Hf Hr Hc He Hi|w w' Hold He Hr Hc Hf Hi|a i Hi0 Hsz Hf Hi]; split.
  - rewrite Hi. intros w H1 H2. destruct (Hw w H1 H2) as [H3 H4]. destruct Hf as [-> | ->]; auto.
  - by rewrite Hi.
  - rewrite Hi. intros w H1 H2. apply Invalidate_revoked in H1. congruence.
  - by rewrite Hi.
  - rewrite Hi, Hf. simpl. intros w' [= <-] _. auto.
  - by rewrite Hi.
  - rewrite Hi, Hf. simpl. intros x [= <-] Hx. rewrite Hr in Hx. rewrite He. by apply Hw.
  - by rewrite Hi.
  - rewrite Hi, Hf. simpl. intros w H1 H2. destruct Hi0 as [-> | ->]; [auto|]. apply Invalidate_revoked in H1. congruence.
  - rewrite Hi. simpl. lia.
Qed.

(** An open window. *)
Definition open_window r : bool :=
  match i_Window (rc_idle r) with Some w => negb (w_Revoked w) && negb (w_Consumed w) | None => false end.

Lemma open_window_spec r :
  open_window r = true <-> exists w, i_Window (rc_idle r) = Some w /\ w_Revoked w = false /\ w_Consumed w = false.
Proof.
  unfold open_window. destruct (i_Window (rc_idle r)) as [w|]; [|naive_solver].
  rewrite andb_true_iff, !negb_true_iff. naive_solver.
Qed.

Lemma idle_step_open r r' : idle_step r r' -> open_window r' = true -> open_window r = true \/ SessionFenceIsHeld (rc_fence r) = true.
Proof.
  rewrite !open_window_spec. intros Hst (w'&Hw&Hr&Hc). destruct Hst as [Hi _|Hi|w Hh _ _ _ _ _|w w0 Hold _ Hr' Hc' _ Hi|a i Hi0 _ _ Hi]; auto.
  - left. exists w'. by rewrite <- Hi.
  - rewrite Hi in Hw. apply Invalidate_revoked in Hw. congruence.
  - left. rewrite Hi in Hw. simpl in Hw. injection Hw as <-. exists w. split_and!; [done|congruence|].
    destruct (w_Consumed w) eqn:E; [rewrite Hc' in Hc by done; done|done].
  - rewrite Hi in Hw. simpl in Hw. destruct Hi0 as [-> | ->]; [left; by exists w'|]. apply Invalidate_revoked in Hw. congruence.
Qed.

(** ** Every operation takes such a step *)

Definition idle_store_step st st' : Prop :=
  forall k, match st_sessions st !! k, st_sessions st' !! k with
            | Some r, Some r' => idle_step r r'
            | None, Some r' => rc_idle r' = empty_idle
            | _, None => True
            end.

Lemma idle_store_refl st : idle_store_step st st.
Proof. intros k. destruct (st_sessions st !! k); [apply idle_step_refl|done]. Qed.

Lemma idle_put st ref r r' ids : lookupLocked st ref = Some r -> idle_step r r' -> idle_store_step st (withIDs ids (putRecord ref r' st)).
Proof.
  intros Hl%lookupLocked_sessions Hs k. simpl. destruct (decide (k = SessionID (NormalizeSessionRef ref))) as [->|Hne].
  - by rewrite Hl, lookup_insert_eq.
  - rewrite lookup_insert_ne by done. destruct (st_sessions st !! k); [apply idle_step_refl|done].
Qed.

Lemma idle_put' st ref r r' : lookupLocked st ref = Some r -> idle_step r r' -> idle_store_step st (putRecord ref r' st).
Proof. intros Hl Hs. apply (idle_put st ref r r' (st_ids st) Hl Hs). Qed.

Definition keeps_idle {R} (body : record (B := B) -> IDSource -> result SessionError R * (record (B := B) * IDSource)) : Prop :=
  forall r ids, rc_idle (body r ids).2.1 = rc_idle r.

Lemma mutateSession_idle {R} ref guard (body : record -> IDSource -> result SessionError R * (record * IDSource)) st :
  keeps_idle body -> idle_store_step st (mutateSession sha256_hex ref guard body st).2.
Proof.
  intros Hb. unfold mutateSession. destruct (lookupLocked st ref) as [r|] eqn:Hl; [|apply idle_store_refl].
  unfold authorizeMutation. destruct (AuthorizeMutationGuard _ _ _); [|apply idle_store_refl].
  specialize (Hb (set_idle (Invalidate (rc_idle r)) r) (st_ids st)). destruct (body _ _) as [res [r' ids']].
  apply (idle_put _ _ r); [done|]. apply is_foreground. done.
Qed.

Lemma apply_idle tx r : rc_idle (applyAppendTransactionToRecord tx r) = rc_idle r /\ rc_fence (applyAppendTransactionToRecord tx r) = rc_fence r.
Proof. unfold applyAppendTransactionToRecord. by destruct (negb _). Qed.

Lemma append_keeps_idle now r ids events mutate update expected tid md :
  rc_idle (appendToRecord now r ids events mutate update expected tid md).2.1 = rc_idle r.
Proof. unfold appendToRecord. destruct (PrepareAppendTransaction _ _) as [[tx ids']|]; simpl; [apply apply_idle|done]. Qed.

Lemma commit_keeps_idle {R} (body : record -> result SessionError (R * record)) :
  (forall r x r', body r = Ok (x, r') -> rc_idle r' = rc_idle r) -> keeps_idle (fun r ids => commit r ids (body r)).
Proof. intros Hb r ids. unfold commit. destruct (body r) as [[x r']|] eqn:E; simpl; [by eapply Hb|done]. Qed.

(** The steps of an idle transaction follow from those of its update. *)
Lemma idleTransaction_idle {X} now ref (update : _ -> _ -> _ -> result SessionError (X * _ * _)) st :
  (forall r x state m r', update (rc_idle r) (rc_fence r) (loadedRecord r) = Ok (x, state, m) ->
     rc_idle r' = state -> rc_fence r' = (if im_releaseFence m then no_fence else rc_fence r) -> idle_step r r') ->
  idle_store_step st (idleTransaction now ref update st).2.
Proof.
  intros Hu. unfold idleTransaction. destruct (lookupLocked st ref) as [r|] eqn:Hl; [|apply idle_store_refl].
  destruct (update _ _ _) as [[[x state] m]|e] eqn:Eu; [|apply idle_store_refl]. destruct (im_event m) as [event|].
  - destruct (PrepareAppendTransaction _ (st_ids st)) as [[tx ids]|e]; [|apply idle_store_refl].
    destruct (im_validate m); [|apply idle_store_refl]. apply (idle_put _ _ r); [done|]. eapply Hu; [exact Eu|done|].
    unfold finishIdle. destruct (apply_idle tx r) as [_ Hf]. by destruct (im_releaseFence m).
  - apply (idle_put' _ _ r); [done|]. eapply Hu; [exact Eu|done|]. unfold finishIdle. by destruct (im_releaseFence m).
Qed.

Lemma release_held active req : SessionFenceReleaseAuthorized sha256_hex active req = true -> SessionFenceIsHeld active = true.
Proof.
  unfold SessionFenceReleaseAuthorized, SessionFenceIsHeld. rewrite !andb_true_iff. tauto.
Qed.

Lemma Release_idle req r now window state r' : Release sha256_hex req (rc_fence r) (loadedRecord r) now (rc_idle r) = Ok (window, state) ->
  rc_idle r' = state -> rc_fence r' = no_fence -> idle_step r r'.
Proof.
  unfold Release. destruct (sameTransition sha256_hex req (rc_idle r)) as [w|].
  - destruct (_ || _); [done|]. intros [= _ <-] Hi Hf. apply is_none; auto.
  - intros ([]&Ha&Hx)%result_bind_ok Hi Hf. injection Hx as _ <-. eapply is_install; [|exact Hf| | | |exact Hi]; try done.
    unfold releaseAllowed in Ha. destruct (SessionFenceReleaseAuthorized _ _ _) eqn:E; [by eapply release_held|done].
Qed.

Lemma IssueGrant_idle window event r now grant state r' :
  IssueGrant sha256_hex window event (rc_fence r) (loadedRecord r) now (rc_idle r) = Ok (grant, state) ->
  rc_idle r' = state -> rc_fence r' = rc_fence r -> idle_step r r'.
Proof.
  unfold IssueGrant. intros (w&Hw&Hx)%result_bind_ok Hi Hf. apply result_bind_ok in Hx as (hash&_&Hx). cbv zeta in Hx.
  apply ValidateWindow_inv in Hw as (Hold&_). destruct (_ || _); [done|]. destruct (_ <? _)%Z; [done|]. destruct (negb _).
  - destruct (_ || _); [done|]. injection Hx as _ <-. apply is_none; auto.
  - injection Hx as _ <-. eapply is_window; [exact Hold|..|exact Hf|exact Hi]; done.
Qed.

Lemma BeginAttempt_idle req r now ticket state r' :
  BeginAttempt sha256_hex req (rc_fence r) (loadedRecord r) now (rc_idle r) = Ok (ticket, state) ->
  rc_idle r' = state -> rc_fence r' = rc_fence r -> idle_step r r'.
Proof.
  unfold BeginAttempt. intros (w&_&Hx)%result_bind_ok Hi Hf. destruct (negb _); [done|]. destruct (receiptIn _ _); [done|].
  destruct (i_Attempts (rc_idle r) !! _) as [old|] eqn:El.
  - destruct (_ || _); [done|]. injection Hx as _ <-. apply is_none; auto.
  - destruct (Nat.leb_spec 8 (size (i_Attempts (rc_idle r)))); [done|]. injection Hx as _ <-.
    eapply is_attempts; [by left| |exact Hf|exact Hi]. right. rewrite map_size_insert_None by done. lia.
Qed.

Lemma attempts_update r r' a : rc_idle r' = set_attempts a (rc_idle r) -> rc_fence r' = rc_fence r ->
  (size a <= size (i_Attempts (rc_idle r)))%nat -> idle_step r r'.
Proof. intros Hi Hf Hs. eapply is_attempts; [by left|by left|done|done]. Qed.

Lemma size_delete_le {A} (m : gmap string A) k : (size (delete k m) <= size m)%nat.
Proof. rewrite map_size_delete. destruct (m !! k); simpl; lia. Qed.

Lemma StageReceipt_idle ticket res r state r' : StageReceipt sha256_hex ticket res (rc_idle r) = Ok state ->
  rc_idle r' = state -> rc_fence r' = rc_fence r -> idle_step r r'.
Proof.
  unfold StageReceipt. destruct (i_Attempts (rc_idle r) !! _) as [a|] eqn:El; [|done].
  destruct (negb _); [done|]. destruct (negb _); [done|]. destruct (Z.eqb _ _); [done|]. destruct (ca_Result a).
  - destruct (negb _); [done|]. intros [= <-] Hi Hf. apply is_none; auto.
  - intros [= <-] Hi Hf. eapply attempts_update; [done..|]. by rewrite map_size_insert_Some by (by rewrite El).
Qed.

Lemma CancelReservation_idle req r state r' : CancelReservation sha256_hex req (rc_idle r) = Ok state ->
  rc_idle r' = state -> rc_fence r' = rc_fence r -> idle_step r r'.
Proof.
  unfold CancelReservation. destruct (i_Attempts (rc_idle r) !! _) as [a|].
  - destruct (_ || _); [done|]. intros [= <-] Hi Hf. eapply attempts_update; [done..|apply size_delete_le].
  - intros [= <-] Hi Hf. apply is_none; auto.
Qed.

(** Recovery keeps the window as it found it, or revokes it. *)
Lemma RecoverReceipts_idle host ref now i : exists a i0, (RecoverReceipts (B := B) host ref now i).2 = set_attempts a i0
  /\ (i0 = i \/ i0 = Invalidate i) /\ (size a <= size (i_Attempts i))%nat.
Proof.
  unfold RecoverReceipts. cbv zeta. set (i0 := match i_Window i with Some _ => _ | None => _ end).
  assert (Hi0 : (i0 = i \/ i0 = Invalidate i) /\ i_Attempts i0 = i_Attempts i).
  { unfold i0. destruct (i_Window i) as [w|]; [|auto]. destruct (_ && _); auto. }
  destruct Hi0 as [Hi0 Ha]. rewrite <- Ha. generalize (sortedIDs (i_Attempts i0)). intros ids.
  assert (Hgen : forall events s, exists a, (fold_left (fun '(events, s) id =>
      match i_Attempts s !! id with
      | None => (events, s)
      | Some r => if staysPending host r then (events, s)
                  else ((events ++ [idleAttemptReceipt (recoveredInvocation now r) r ref])%list, set_attempts (delete id (i_Attempts s)) s)
      end) ids (events : list (Event B), s)).2 = set_attempts a s /\ (size a <= size (i_Attempts s))%nat).
  { induction ids as [|id ids IH]; intros events s; simpl; [exists (i_Attempts s); split; [by destruct s|lia]|].
    destruct (i_Attempts s !! id) as [r|]; [|apply IH]. destruct (staysPending host r); [apply IH|].
    edestruct IH as (a&->&Hs). exists a. split; [done|]. simpl in Hs. etransitivity; [exact Hs|apply size_delete_le]. }
  destruct (Hgen [] i0) as (a&Hr&Hs). exists a, i0. auto.
Qed.

Lemma recover_idle ok now ref host st : idle_store_step st (RecoverCompactionReceipts ok now ref host st).2.
Proof.
  unfold RecoverCompactionReceipts. destruct (_ =? ""); [apply idle_store_refl|]. destruct (negb ok); [apply idle_store_refl|].
  destruct (lookupLocked st ref) as [r|] eqn:Hl; [|apply idle_store_refl].
  destruct (RecoverReceipts_idle host ref now (rc_idle r)) as (a&i0&Hs&Hi0&Hsz).
  destruct (RecoverReceipts host ref now (rc_idle r)) as [events state]. simpl in Hs. subst state.
  destruct events as [|e events].
  - apply (idle_put' _ _ r); [done|]. eapply is_attempts; [exact Hi0|by left|done|done].
  - destruct (PrepareAppendTransaction _ (st_ids st)) as [[tx ids]|err]; [|apply idle_store_refl].
    apply (idle_put _ _ r); [done|]. eapply is_attempts; [exact Hi0|by left|by apply apply_idle|done].
Qed.

Lemma start_idle now req st : idle_store_step st (StartSession now req st).2.
Proof.
  assert (Hc : forall ref ids, idle_store_step st (createOrReuse now req ref (withIDs ids st)).2).
  { intros ref ids k. unfold createOrReuse. cbn [st_sessions withIDs].
    destruct (st_sessions st !! SessionID ref) as [ex|] eqn:El.
    { destruct (negb (EqualExecutionConfig _ _)); simpl; destruct (st_sessions st !! k); try done; apply idle_step_refl. }
    simpl. destruct (decide (k = SessionID ref)) as [->|Hne]; [by rewrite El, lookup_insert_eq|].
    rewrite lookup_insert_ne by done. destruct (st_sessions st !! k); [apply idle_step_refl|done]. }
  unfold StartSession. destruct (ValidateMetadata _); [|apply idle_store_refl]. destruct (negb _); [apply idle_store_refl|].
  cbv zeta. destruct (_ || _); [apply idle_store_refl|]. destruct (_ =? ""); [destruct (nextID _); apply Hc|].
  replace st with (withIDs (st_ids st) st) at 2 by (by destruct st). apply Hc.
Qed.

Lemma acquire_idle now ref owner replace fid tok st : idle_store_step st (acquireSessionFence sha256_hex now ref owner replace fid tok st).2.
Proof.
  unfold acquireSessionFence. destruct (lookupLocked st ref) as [r|] eqn:Hl; [|apply idle_store_refl].
  destruct (_ =? ""); [apply idle_store_refl|]. destruct (_ && _); [apply idle_store_refl|]. destruct fid as [fid|]; [|apply idle_store_refl].
  destruct (NewSessionFenceClaim _ _ _) as [f|e]; apply (idle_put' _ _ r); try done; by apply is_foreground.
Qed.

Lemma body_append_idle {S} (g : PreparedAppendTransaction B -> S) now events mutate update expected tid md :
  keeps_idle (fun r ids => mapResult g (appendToRecord now r ids events mutate update expected tid md)).
Proof. intros r ids. apply append_keeps_idle. Qed.

Lemma store_op_idle st st' : store_op sha256_hex st st' -> idle_store_step st st'.
Proof.
  intros Hop. destruct Hop.
  - apply start_idle.
  - unfold AppendEventWithOutcome. destruct (ae_Event req); [apply mutateSession_idle, body_append_idle|apply idle_store_refl].
  - unfold AppendEventWithOutcomeConditional. destruct (ae_Event req); [|apply idle_store_refl].
    apply mutateSession_idle. intros r ids. destruct (checkRelated st related); [apply body_append_idle|done].
  - unfold AppendEvents. destruct events; [apply idle_store_refl|apply mutateSession_idle, body_append_idle].
  - unfold AppendEventsAndUpdateState. destruct (_ && _); [apply idle_store_refl|apply mutateSession_idle, body_append_idle].
  - unfold SettlePendingApproval. destruct (ValidateSettlePendingApprovalRequest req); [|apply idle_store_refl].
    destruct (lookupLocked st _); [|apply idle_store_refl]. destruct (negb _); [apply idle_store_refl|].
    apply mutateSession_idle. intros r' ids. destruct (CheckExpectedRevision _ _); [apply body_append_idle|done].
  - by apply mutateSession_idle.
  - apply mutateSession_idle. intros r ids. apply append_keeps_idle.
  - apply mutateSession_idle, commit_keeps_idle. intros r x r' Hx.
    apply result_bind_ok in Hx as (?&_&Hx). apply result_bind_ok in Hx as (?&_&Hx). by simplify_eq.
  - apply mutateSession_idle. intros r ids. apply append_keeps_idle.
  - apply mutateSession_idle, commit_keeps_idle. intros r x r' Hx.
    apply result_bind_ok in Hx as (?&_&Hx). apply result_bind_ok in Hx as (?&_&Hx). by simplify_eq.
  - apply mutateSession_idle. intros r ids. apply append_keeps_idle.
  - unfold ReplaceState. destruct (ValidateState state); [|apply idle_store_refl].
    apply mutateSession_idle, commit_keeps_idle. intros r x r' Hx. apply result_bind_ok in Hx as (?&_&Hx). by simplify_eq.
  - apply mutateSession_idle, commit_keeps_idle. intros r x r' Hx. apply result_bind_ok in Hx as (?&_&Hx).
    destruct update as [f|]; [|by simplify_eq]. apply result_bind_ok in Hx as (next&_&Hx). apply result_bind_ok in Hx as (?&_&Hx).
    cbv zeta in Hx. by simplify_eq.
  - apply acquire_idle.
  - unfold ReplacePriorHostSessionFence. destruct (negb ok); [apply idle_store_refl|apply acquire_idle].
  - unfold ReleaseSessionFence. destruct (lookupLocked st _) as [r|] eqn:Hl; [|apply idle_store_refl].
    destruct (negb _); [apply idle_store_refl|]. apply (idle_put' _ _ r); [done|by apply is_foreground].
  - apply idleTransaction_idle. intros r x state m r' Hx Hi Hf. apply result_bind_ok in Hx as ([w s]&Hr&Hx). simplify_eq/=.
    by eapply Release_idle.
  - apply idleTransaction_idle. intros r x state m r' Hx Hi Hf. apply result_bind_ok in Hx as ([w s]&Hr&Hx). simplify_eq/=.
    by eapply IssueGrant_idle.
  - apply idleTransaction_idle. intros r x state m r' Hx Hi Hf. apply result_bind_ok in Hx as ([stored|]&_&Hx).
    { simplify_eq/=. apply is_none; auto. }
    apply result_bind_ok in Hx as ([]&Hv&Hx). injection Hx as _ Hs <-. rewrite <- Hs in Hi. simpl in Hf.
    apply ValidateAppend_inv in Hv as (w&Hw&_). apply ValidateWindow_inv in Hw as (Hold&_). rewrite Hold in Hi. by apply (is_window _ _ w (consume w)).
  - apply idleTransaction_idle. intros r x state m r' Hx Hi Hf. injection Hx as _ Hs <-. rewrite <- Hs in Hi. unfold RevokeWindow in Hi.
    destruct (i_Window (rc_idle r)) as [w|]; [destruct (_ && _)|]; first [by apply is_foreground|apply is_none; by auto].
  - apply idleTransaction_idle. intros r x state m r' Hx Hi Hf. apply result_bind_ok in Hx as ([w s]&Hr&Hx). simplify_eq/=.
    by eapply BeginAttempt_idle.
  - apply idleTransaction_idle. intros r x state m r' Hx Hi Hf. apply result_bind_ok in Hx as (s&Hr&Hx). simplify_eq/=.
    by eapply StageReceipt_idle.
  - apply idleTransaction_idle. intros r x state m r' Hx Hi Hf. apply result_bind_ok in Hx as (event&_&Hx).
    injection Hx as _ Hs <-. rewrite <- Hs in Hi. eapply attempts_update; [exact Hi|done|apply size_delete_le].
  - apply idleTransaction_idle. intros r x state m r' Hx Hi Hf. apply result_bind_ok in Hx as (s&Hr&Hx). simplify_eq/=.
    by eapply CancelReservation_idle.
  - apply recover_idle.
Qed.

Lemma reachable_idle st st' : rtc (store_op sha256_hex) st st' ->
  (forall k r, st_sessions st !! k = Some r -> idle_ok r) -> forall k r, st_sessions st' !! k = Some r -> idle_ok r.
Proof.
  induction 1 as [st|st s1 st' Hop _ IH]; [done|]. intros Hok. apply IH. intros k r Hk.
  pose proof (store_op_idle _ _ Hop k) as Hs. rewrite Hk in Hs. destruct (st_sessions st !! k) as [r0|] eqn:E.
  - eapply idle_step_ok; [exact Hs|]. by eapply Hok.
  - split; rewrite Hs; simpl; [done|]. rewrite map_size_empty. lia.
Qed.

(** A window opens only in a step that starts with a held fence. *)
Lemma window_reopens k st st' : store_inv st -> rtc (store_op sha256_hex) st st' ->
  forall r r', st_sessions st !! k = Some r -> st_sessions st' !! k = Some r' ->
  open_window r = false -> open_window r' = true ->
  exists sa ra, rtc (store_op sha256_hex) st sa /\ rtc (store_op sha256_hex) sa st' /\ st_sessions sa !! k = Some ra
    /\ SessionFenceIsHeld (rc_fence ra) = true.
Proof.
  intros Hinv Hr. induction Hr as [st|st s1 st' Hop Hrest IH]; intros r r' Hk Hk' Hc Ho; [congruence|].
  pose proof (store_op_idle _ _ Hop k) as Hs. pose proof (store_op_step _ _ _ Hinv Hop) as Hstep.
  pose proof (proj2 Hstep k) as Hrec. rewrite Hk in Hs, Hrec. destruct (st_sessions s1 !! k) as [r1|] eqn:E1; [|done].
  destruct (open_window r1) eqn:Eo.
  - destruct (idle_step_open _ _ Hs Eo) as [?|Hh]; [congruence|]. exists st, r. split_and!; [done| |done|done]. by eapply rtc_l.
  - destruct (IH (store_step_inv _ _ Hstep Hinv) r1 r' eq_refl Hk' Eo Ho) as (sa&ra&Ha&Hb&Hka&Hh). exists sa, ra.
    split_and!; [by eapply rtc_l|done|done|done].
Qed.

(** A plain append of one event adds that event, or nothing. *)
Lemma plain_append k now r ids e tx ids' : rec_inv k r ->
  PrepareAppendTransaction (transactionRequest now r [Some e] None None None "" "") ids = Ok (tx, ids') ->
  exists new, rc_events (applyAppendTransactionToRecord tx r) = (rc_events r ++ new)%list /\ (length new <= 1)%nat.
Proof.
  intros Hr Hp. destruct (pt_Changed tx) eqn:Hch.
  - destruct (plain_changed k now r ids (Some e) None tx (applyAppendTransactionToRecord tx r) ids' Hr) as (n&Hn&_).
    + unfold appendToRecord. by rewrite Hp.
    + done.
    + exists [CloneEvent n]. by split.
  - exists []. unfold applyAppendTransactionToRecord. rewrite Hch. simpl. rewrite app_nil_r. split; [done|lia].
Qed.

(** C14: An idle window excludes the foreground.  In every reachable store, a window that is not revoked belongs to the
    current epoch and the Session fence is free, so no Turn is running while a checkpoint may still be committed; and at
    most eight model attempts are pending in the accounting of a Session. *)
Theorem idle_window_invariant (ids : IDSource) (st : Store) (k : string) (r : record) :
  rtc (store_op sha256_hex) (empty_store ids) st -> st_sessions st !! k = Some r ->
  (forall w, i_Window (rc_idle r) = Some w -> w_Revoked w = false ->
     SessionFenceIsHeld (rc_fence r) = false /\ w_Epoch w = i_Epoch (rc_idle r))
  /\ (size (i_Attempts (rc_idle r)) <= 8)%nat.
Proof.
  intros Hr Hk. assert (Hok : idle_ok r); [|split; apply Hok]. eapply reachable_idle; [exact Hr| |exact Hk].
  intros k0 r0 H0. simpl in H0. by rewrite lookup_empty in H0.
Qed.

(** C15: A checkpoint is committed only under the authority of an open window, and once.  When a checkpoint that the log
    does not hold yet is accepted, the window was neither revoked nor consumed, the fence was free, window and grant
    had not expired when the commit was checked, the grant was issued for exactly this checkpoint, the source
    the summary was made from and the revision are unchanged, and at most that one event is appended.  The window is
    consumed: another one opens only after a later Turn held the fence. *)
Theorem idle_checkpoint_once (st st' : Store) (now1 now2 now3 now4 : Z)
  (req : AppendIdleCompactionCheckpointRequest (B := B)) (r : record) (e : Event B) (stored : option (Event B)) :
  store_inv st -> lookupLocked st (iw_ref (ig_window (ia_Grant req))) = Some r -> ia_Event req = Some e ->
  existsb (sameIdentity e) (rc_events r) = false ->
  AppendIdleCompactionCheckpoint sha256_hex now1 now2 now3 now4 req st = (Ok stored, st') ->
  exists w r' new,
    (i_Window (rc_idle r) = Some w /\ w_Revoked w = false /\ w_Consumed w = false /\ SessionFenceIsHeld (rc_fence r) = false
     /\ (now2 < w_ExpiresAt w)%Z /\ (now4 < w_ExpiresAt w)%Z /\ (now4 < w_GrantExpiresAt w)%Z
     /\ sessionFenceClaimMatches sha256_hex (w_ClaimDigest w) (iw_token (ig_window (ia_Grant req))) = true
     /\ sessionFenceClaimMatches sha256_hex (w_GrantDigest w) (ig_token (ia_Grant req)) = true
     /\ idleCheckpointHash (Some e) = Ok (w_CandidateHash w) /\ ev_ID e = w_CandidateID w
     /\ CheckpointSourceStamp (loadedRecord r) = Ok (is_Stamp (w_Source w)) /\ s_Revision (rc_session r) = ia_ExpectedRevision req)
    /\ st_sessions st' !! SessionID (NormalizeSessionRef (iw_ref (ig_window (ia_Grant req)))) = Some r'
    /\ rc_events r' = (rc_events r ++ new)%list /\ (length new <= 1)%nat /\ i_Window (rc_idle r') = Some (consume w)
    /\ forall st2 r2, rtc (store_op sha256_hex) st' st2 ->
         st_sessions st2 !! SessionID (NormalizeSessionRef (iw_ref (ig_window (ia_Grant req)))) = Some r2 -> open_window r2 = true ->
         exists sa ra, rtc (store_op sha256_hex) st' sa /\ rtc (store_op sha256_hex) sa st2
           /\ st_sessions sa !! SessionID (NormalizeSessionRef (iw_ref (ig_window (ia_Grant req)))) = Some ra
           /\ SessionFenceIsHeld (rc_fence ra) = true.
Proof.
  intros Hinv Hl He Hnew Happ. pose proof (store_op_step _ _ _ Hinv (op_idle_append sha256_hex now1 now2 now3 now4 req st)) as Hstep.
  rewrite Happ in Hstep. simpl in Hstep. pose proof (store_step_inv _ _ Hstep Hinv) as Hinv'.
  pose proof (proj2 Hinv _ _ (lookupLocked_sessions _ _ _ Hl)) as Hr.
  unfold AppendIdleCompactionCheckpoint, idleTransaction, sndResult in Happ. rewrite Hl in Happ.
  assert (Hreplay : IdleCheckpointReplay (loadedRecord r) (ia_Event req) now1 = Ok None).
  { unfold IdleCheckpointReplay. rewrite He. simpl. destruct (List.find (sameIdentity e) (rc_events r)) as [old|] eqn:Ef; [|done].
    apply find_some in Ef as [Hin Hs]. rewrite <- not_true_iff_false in Hnew. destruct Hnew. apply existsb_exists. eauto. }
  rewrite Hreplay in Happ. simpl in Happ.
  destruct (ValidateAppend sha256_hex req (rc_fence r) (loadedRecord r) now2 (rc_idle r)) as [[]|] eqn:Hv2; [|done].
  cbn [result_bind im_event im_validate im_releaseFence] in Happ. rewrite He in Happ.
  destruct (PrepareAppendTransaction _ (st_ids st)) as [[tx ids]|] eqn:Hp; [|done].
  destruct (ValidateAppend sha256_hex req (rc_fence r) (loadedRecord r) now4 (rc_idle r)) as [[]|] eqn:Hv4; [|done].
  injection Happ as _ <-. apply ValidateAppend_inv in Hv2 as (w&Hw2&_), Hv4 as (w4&Hw4&Hg&Hgx&Hh&Hid&Hrev).
  apply ValidateWindow_inv in Hw2 as (Hi&Hrv&Hc&_&Hx2&Hf&Hcl&Hst), Hw4 as (Hi4&_&_&_&Hx4&_).
  rewrite Hi in Hi4. injection Hi4 as <-. rewrite He in Hh, Hid. rewrite Hi in *. cbn [fmap option_fmap option_map] in *.
  destruct (plain_append _ _ _ _ _ _ _ Hr Hp) as (new&Hlog&Hlen).
  eexists w, _, new. split; [done|]. cbn [st_sessions withIDs putRecord]. split; [by rewrite lookup_insert_eq|].
  split; [exact Hlog|]. split; [done|]. split; [done|]. intros st2 r2 Hrun Hk2 Ho.
  eapply (window_reopens _ _ _ Hinv' Hrun); [simpl; by rewrite lookup_insert_eq|exact Hk2| |exact Ho].
  unfold open_window. simpl. by rewrite Hrv.
Qed.
End Facts.

(** ** A concrete run: a Turn ends, its window commits one checkpoint *)

Definition ok_or {A : Type} (d : A) (m : result SessionError A) : A := match m with Ok a => a | Fail _ => d end.

Definition idle_fence : SessionFence := ok_or no_fence (AcquireSessionFence demo_sha 10 text_ref "host" (Some "f1") (Some "tok") demo2).1.
Definition idle1 : Store (B := TextBody) := (AcquireSessionFence demo_sha 10 text_ref "host" (Some "f1") (Some "tok") demo2).2.
Definition idle_window : IdleCompactionWindow := MkWindow text_ref "job" "wtok" 0.
Definition idle_request : ReleaseForIdleCompactionRequest :=
  MkIdleRelease (SessionFenceReleaseRequest idle_fence)
    (MkIdleSource "job" "host" "act" "turn" "s1hello" 1 (MkCoverage 1 1 1 "e")) idle_window.
Definition idle2 : Store (B := TextBody) := (ReleaseSessionFenceForIdleCompaction demo_sha 20 idle_request idle1).2.
Definition idle_checkpoint : Event TextBody :=
  MkEvent TextBody "cp1" "cp1" "s1" 0 0 EventTypeCompact "" 0 "" "" None None "" (MkText "user" "summary" false).
Definition idle_grant : IdleCompactionGrant :=
  ok_or (MkIdleGrant idle_window "") (IssueIdleCompactionGrant demo_sha 30 idle_window (Some idle_checkpoint) idle2).1.
Definition idle3 : Store (B := TextBody) := (IssueIdleCompactionGrant demo_sha 30 idle_window (Some idle_checkpoint) idle2).2.
Definition idle_append : AppendIdleCompactionCheckpointRequest := MkIdleAppend idle_grant (Some idle_checkpoint) 1.

Lemma idle3_reachable : rtc (store_op demo_sha) demo0 idle3.
Proof.
  eapply rtc_r; [|unfold idle3; apply op_idle_grant]. eapply rtc_r; [|unfold idle2; apply op_idle_release].
  eapply rtc_r; [apply demo2_reachable|unfold idle1; apply op_acquire].
Qed.

Lemma idle_window_invariant_witness :
  exists w, i_Window (rc_idle (demo_record idle3)) = Some w /\ w_Revoked w = false
    /\ SessionFenceIsHeld (rc_fence (demo_record idle3)) = false.
Proof.
  destruct (i_Window (rc_idle (demo_record idle3))) as [w|] eqn:E; [|vm_compute in E; discriminate].
  exists w. split; [done|]. assert (Hr : w_Revoked w = false) by (vm_compute in E; by injection E as <-). split; [done|].
  assert (Hk : st_sessions idle3 !! "s1" = Some (demo_record idle3)) by (vm_compute; reflexivity).
  exact (proj1 (proj1 (idle_window_invariant demo_sha text_source idle3 "s1" _ idle3_reachable Hk) w E Hr)).
Defined.

Lemma idle_checkpoint_once_witness :
  exists w r' new, i_Window (rc_idle (demo_record idle3)) = Some w /\ w_Consumed w = false
    /\ st_sessions (AppendIdleCompactionCheckpoint demo_sha 31 31 31 31 idle_append idle3).2 !! "s1" = Some r'
    /\ rc_events r' = (rc_events (demo_record idle3) ++ new)%list /\ i_Window (rc_idle r') = Some (consume w).
Proof.
  assert (Hinv : store_inv idle3) by (eapply reachable_inv; [apply empty_store_inv, _|apply idle3_reachable]).
  destruct (AppendIdleCompactionCheckpoint demo_sha 31 31 31 31 idle_append idle3) as [[stored|err] st'] eqn:E.
  2: { apply (f_equal (fun x => is_ok x.1)) in E. vm_compute in E. discriminate. }
  destruct (idle_checkpoint_once demo_sha idle3 st' 31 31 31 31 idle_append (demo_record idle3) idle_checkpoint stored Hinv)
    as (w&r'&new&(Hw&_&Hc&_)&Hk&Hev&_&Hc'&_); [vm_compute; reflexivity|reflexivity|vm_compute; reflexivity|exact E|].
  exists w, r', new. split; [exact Hw|]. split; [exact Hc|]. split; [exact Hk|]. split; [exact Hev|exact Hc'].
Defined.
