(* ===== verification/StoreLists.v ===== *)
(** * Listings of the in-memory store

    Models [ListSessions] and [PendingApprovals] of
    [agent-sdk/session/memory/store.go] with the opaque list cursor of
    [list_cursor.go].  A Go map is walked in any order; both listings sort what
    they found, by a total order on keys that are distinct, so the listing does
    not depend on the walk. *)

From Stdlib Require Import ZArith Lia Ascii String Sorted.
From stdpp Require Import base list strings option gmap sorting relations.
From S2P Require Import Prelude GoStrings Fence Events Append IdleCompaction MemStore StoreFacts TextCodec StoreProps.

Local Open Scope string_scope.

(** ** [sort.Search] *)

(** The smallest index in [[i, j)] with [f], when [f] is monotone: the
    half-open interval shrinks with every probe, so its length is enough fuel. *)
Fixpoint search_loop (fuel : nat) (f : nat -> bool) (i j : nat) : nat :=
  match fuel with
  | O => i
  | S fuel =>
    if (i <? j)%nat then
      let h := ((i + j) / 2)%nat in
      if f h then search_loop fuel f i h else search_loop fuel f (S h) j
    else i
  end.

Definition Search (n : nat) (f : nat -> bool) : nat := search_loop n f 0 n.

Lemma search_loop_spec fuel f i j k : (i <= k <= j)%nat -> (j - i <= fuel)%nat ->
  (forall x, (i <= x < k)%nat -> f x = false) -> (forall x, (k <= x < j)%nat -> f x = true) -> search_loop fuel f i j = k.
Proof.
  revert i j. induction fuel as [|fuel IH]; intros i j Hk Hf Hlo Hhi; cbn [search_loop]; [lia|].
  destruct (Nat.ltb_spec i j); [|lia]. pose proof (Nat.div_mod (i + j) 2 ltac:(lia)) as Hd.
  pose proof (Nat.mod_upper_bound (i + j) 2 ltac:(lia)) as Hm. set (h := ((i + j) / 2)%nat) in *.
  destruct (f h) eqn:Eh.
  - assert (k <= h)%nat. { destruct (Nat.le_gt_cases k h); [done|]. rewrite Hlo in Eh by lia. done. }
    apply IH; [lia|lia|done|]. intros x Hx. apply Hhi. lia.
  - assert (h < k)%nat. { destruct (Nat.le_gt_cases k h); [|done]. rewrite Hhi in Eh by lia. done. }
    apply IH; [lia|lia| |done]. intros x Hx. apply Hlo. lia.
Qed.

(** ** Session listings *)

Record SessionListCursor : Type := MkCursor { lc_UpdatedAt : Z; lc_SessionID : string }.

(** The payload of a cursor as [encoding/json] and [base64.RawURLEncoding] carry
    it: a version, Unix nanoseconds and a Session identifier. *)
Class CursorCodec : Type := {
  encode_cursor : Z -> Z -> string -> string;
  decode_cursor : string -> option (Z * Z * string);
  clean_path : string -> string;                      (* filepath.Clean, folded on Windows *)
}.
(** What paging relies on: a cursor that was encoded decodes to itself and is
    printable text. *)
Class CursorLaws {C : CursorCodec} (portable : string -> Prop) : Prop := {
  cursor_roundtrip v ns id : portable id -> decode_cursor (encode_cursor v ns id) = Some (v, ns, id);
  cursor_text v ns id : trim_space (encode_cursor v ns id) = encode_cursor v ns id /\ encode_cursor v ns id <> "";
}.

Section Lists.
Context `{OV : OpenValues} {B : Type} `{EC : EventCodec B} `{CU : CursorCodec}.
Implicit Types st : Store (OV := OV) (B := B).

Record SessionSummary : Type := MkSummary {
  su_Ref : SessionRef; su_CWD : string; su_Title : string; su_Metadata : gmap string Any; su_UpdatedAt : Z;
}.
Record ListSessionsRequest : Type := MkList {
  lr_AppName : string; lr_UserID : string; lr_WorkspaceKey : string; lr_CWD : string; lr_Cursor : string; lr_Limit : Z;
}.

Definition sessionListCursorVersion : Z := 1.
(** The Unix epoch on the scale of [zero_time]. *)
Definition unix_epoch : Z := 62135596800 * 1000000000.
Definition UnixNano (t : Z) : Z := i64 (t - unix_epoch).

Definition EncodeSessionListCursor (c : SessionListCursor) : result SessionError string :=
  let id := trim_space (lc_SessionID c) in
  if id =? "" then Fail (ErrInvalidValue "list cursor session id is required")
  else Ok (encode_cursor sessionListCursorVersion (UnixNano (lc_UpdatedAt c)) id).

Definition DecodeSessionListCursor (encoded : string) : result SessionError SessionListCursor :=
  let encoded := trim_space encoded in
  if encoded =? "" then Fail (ErrInvalidValue "list cursor is required") else
  match decode_cursor encoded with
  | None => Fail (ErrInvalidValue "decode list cursor")
  | Some (v, ns, id) =>
    if negb (Z.eqb v sessionListCursorVersion) || (trim_space id =? "") then Fail (ErrInvalidValue "invalid list cursor")
    else Ok (MkCursor (ns + unix_epoch) (trim_space id))
  end.

(** [cwdpath.key]. *)
Definition cwd_key (path : string) : string := let path := trim_space path in if path =? "" then "" else clean_path path.

Definition field_selects (wanted actual : string) : bool := (wanted =? "") || (actual =? trim_space wanted).

Definition selected (req : ListSessionsRequest) (r : record (B := B)) : bool :=
  let ref := s_Ref (rc_session r) in
  field_selects (lr_AppName req) (AppName ref) && field_selects (lr_UserID req) (UserID ref)
  && field_selects (lr_WorkspaceKey req) (WorkspaceKey ref)
  && ((trim_space (lr_CWD req) =? "") || (cwd_key (s_CWD (rc_session r)) =? cwd_key (lr_CWD req))).

Definition summary (r : record (B := B)) : SessionSummary :=
  let s := rc_session r in MkSummary (s_Ref s) (s_CWD s) (s_Title s) (s_Metadata s) (s_UpdatedAt s).

Definition row_id (x : SessionSummary) : string := SessionID (su_Ref x).

(** The comparison of [sort.Slice]: newest first, then by identifier. *)
Definition row_less (a b : SessionSummary) : bool :=
  if negb (Z.eqb (su_UpdatedAt a) (su_UpdatedAt b)) then (su_UpdatedAt b <? su_UpdatedAt a)%Z else String.ltb (row_id a) (row_id b).
Definition row_le (a b : SessionSummary) : Prop := row_less b a = false.

Global Instance row_le_dec : RelDecision row_le.
Proof. intros a b. unfold row_le. apply _. Defined.

Definition listedRows (req : ListSessionsRequest) st : list SessionSummary :=
  merge_sort row_le (map summary (List.filter (selected req) (map snd (map_to_list (st_sessions st))))).

Definition after_cursor (c : SessionListCursor) (x : SessionSummary) : bool :=
  (su_UpdatedAt x <? lc_UpdatedAt c)%Z || (Z.eqb (su_UpdatedAt x) (lc_UpdatedAt c) && String.ltb (lc_SessionID c) (row_id x)).

Definition CloneSessionSummary (x : SessionSummary) : SessionSummary :=
  MkSummary (NormalizeSessionRef (su_Ref x)) (trim_space (su_CWD x)) (trim_space (su_Title x)) (su_Metadata x) (su_UpdatedAt x).

(** The rows from the cursor on. *)
Definition rowsFrom (req : ListSessionsRequest) (rows : list SessionSummary) : result SessionError (list SessionSummary) :=
  let encoded := trim_space (lr_Cursor req) in
  if encoded =? "" then Ok rows else
  let! c := DecodeSessionListCursor encoded in
  Ok (drop (Search (length rows) (fun i => match rows !! i with Some x => after_cursor c x | None => false end)) rows).

(** One page of the listing and the cursor of the next one. *)
Definition ListSessions (req : ListSessionsRequest) st : result SessionError (list SessionSummary * string) :=
  let! rows := rowsFrom req (listedRows req st) in
  let hasMore := (0 <? lr_Limit req)%Z && (lr_Limit req <? Z.of_nat (length rows))%Z in
  let page := if hasMore then take (Z.to_nat (lr_Limit req)) rows else rows in
  match (if hasMore then last page else None) with
  | None => Ok (map CloneSessionSummary page, "")
  | Some x =>
    let! next := EncodeSessionListCursor (MkCursor (su_UpdatedAt x) (row_id x)) in
    Ok (map CloneSessionSummary page, next)
  end.

Definition with_cursor (c : string) (req : ListSessionsRequest) : ListSessionsRequest :=
  MkList (lr_AppName req) (lr_UserID req) (lr_WorkspaceKey req) (lr_CWD req) c (lr_Limit req).

(** A client that follows the cursors. *)
Fixpoint list_all (fuel : nat) (req : ListSessionsRequest) st : result SessionError (list SessionSummary) :=
  match fuel with
  | O => Fail (ErrInvalidValue "out of fuel")
  | S fuel =>
    let! page := ListSessions req st in
    if page.2 =? "" then Ok page.1 else let! rest := list_all fuel (with_cursor page.2 req) st in Ok (page.1 ++ rest)%list
  end.

(** *** The order of the rows *)

Lemma ltb_false_le a b : String.ltb b a = false <-> String.le a b.
Proof.
  unfold String.le, String.leb, String.ltb. rewrite (String.compare_antisym a b). destruct (String.compare b a); simpl; split; done.
Qed.

Lemma row_le_spec a b : row_le a b <-> (su_UpdatedAt b < su_UpdatedAt a)%Z \/ su_UpdatedAt a = su_UpdatedAt b /\ String.le (row_id a) (row_id b).
Proof.
  unfold row_le, row_less. rewrite <- ltb_false_le. destruct (Z.eqb_spec (su_UpdatedAt b) (su_UpdatedAt a)) as [E|E]; simpl.
  - rewrite E. intuition lia.
  - rewrite Z.ltb_ge. intuition lia.
Qed.

Global Instance row_le_total : Total row_le.
Proof.
  intros a b. rewrite !row_le_spec. destruct (Z.lt_trichotomy (su_UpdatedAt a) (su_UpdatedAt b)) as [?|[E|?]]; [auto| |auto].
  destruct (total String.le (row_id a) (row_id b)); auto.
Qed.

Global Instance row_le_trans : Transitive row_le.
Proof.
  intros a b c. rewrite !row_le_spec. intros [H1|[H1 H1']] [H2|[H2 H2']]; [left; lia..|right]. split; [congruence|by etransitivity].
Qed.

Lemma row_less_strict a b : row_less a b = false -> row_less b a = false -> row_id a = row_id b.
Proof.
  intros H1 H2. apply row_le_spec in H1, H2. destruct H1 as [?|[? H1]], H2 as [?|[? H2]]; try lia. by apply (anti_symm String.le).
Qed.

Lemma after_row x y : after_cursor (MkCursor (su_UpdatedAt x) (row_id x)) y = row_less x y.
Proof.
  unfold after_cursor, row_less. simpl. rewrite (Z.eqb_sym (su_UpdatedAt y)).
  destruct (Z.eqb_spec (su_UpdatedAt x) (su_UpdatedAt y)) as [E|E]; simpl; [|by rewrite orb_false_r].
  by rewrite E, Z.ltb_irrefl.
Qed.

(** The binary search finds the rows after the last one of the previous page. *)
Lemma rows_after pre x post : StronglySorted row_le (pre ++ x :: post) -> NoDup (map row_id (pre ++ x :: post)) ->
  let rows := (pre ++ x :: post)%list in
  drop (Search (length rows) (fun i => match rows !! i with Some y => after_cursor (MkCursor (su_UpdatedAt x) (row_id x)) y | None => false end)) rows
  = post.
Proof.
  intros Hs Hn. cbv zeta. assert (Hrows : (pre ++ x :: post = (pre ++ [x]) ++ post)%list) by (by rewrite <- (assoc_L (++))).
  unfold Search. rewrite (search_loop_spec _ _ 0 _ (length (pre ++ [x]))).
  - by rewrite Hrows, drop_app_length.
  - rewrite !length_app. simpl. lia.
  - lia.
  - intros i Hi. destruct ((pre ++ x :: post)%list !! i) as [y|] eqn:Ey; [|done]. rewrite after_row.
    assert (Hy : y ∈ (pre ++ [x])%list).
    { rewrite Hrows, lookup_app_l in Ey by lia. by apply list_elem_of_lookup_2 in Ey. }
    apply elem_of_app in Hy as [Hy|Hy]; [|apply list_elem_of_singleton in Hy as ->].
    + apply StronglySorted_app in Hs as (Hs&_&_). apply (Hs y x); [done|apply list_elem_of_here].
    + change (row_le x x). apply row_le_spec. by right.
  - intros i Hi. destruct ((pre ++ x :: post)%list !! i) as [y|] eqn:Ey.
    2: { apply lookup_ge_None in Ey. lia. }
    rewrite after_row. rewrite Hrows, lookup_app_r in Ey by lia. apply list_elem_of_lookup_2 in Ey.
    apply StronglySorted_app in Hs as (_&_&Hs). apply StronglySorted_cons in Hs as [Hx _]. rewrite Forall_forall in Hx. specialize (Hx y Ey).
    destruct (row_less x y) eqn:El; [done|]. exfalso. pose proof (row_less_strict x y El Hx) as Hid.
    rewrite Hrows, map_app in Hn. apply NoDup_app in Hn as (_&Hd&_). apply (Hd (row_id x)).
    + rewrite map_app. apply elem_of_app. right. apply list_elem_of_here.
    + rewrite Hid. apply list_elem_of_fmap. eauto.
Qed.

(** *** Following the cursors *)

Definition in_unix_range (t : Z) : Prop := (- 9223372036854775808 <= t - unix_epoch < 9223372036854775808)%Z.

Lemma UnixNano_back t : in_unix_range t -> (UnixNano t + unix_epoch = t)%Z.
Proof. unfold in_unix_range, UnixNano, i64. intros H. rewrite Z.mod_small by lia. lia. Qed.

Definition row_ok (portable : string -> Prop) (x : SessionSummary) : Prop :=
  trim_space (row_id x) = row_id x /\ row_id x <> "" /\ portable (row_id x) /\ in_unix_range (su_UpdatedAt x).

Lemma cursor_back (portable : string -> Prop) {L : CursorLaws portable} x : row_ok portable x ->
  exists next, EncodeSessionListCursor (MkCursor (su_UpdatedAt x) (row_id x)) = Ok next /\ next <> "" /\ trim_space next = next
    /\ DecodeSessionListCursor next = Ok (MkCursor (su_UpdatedAt x) (row_id x)).
Proof.
  intros (Ht&Hne&Hp&Hr). unfold EncodeSessionListCursor. simpl. rewrite Ht, (proj2 (String.eqb_neq _ _) Hne).
  destruct (cursor_text (portable := portable) sessionListCursorVersion (UnixNano (su_UpdatedAt x)) (row_id x)) as [Htx Hnx].
  eexists. split; [done|]. split; [done|]. split; [done|]. unfold DecodeSessionListCursor.
  rewrite Htx, (proj2 (String.eqb_neq _ _) Hnx), cursor_roundtrip by done. simpl.
  by rewrite Ht, (proj2 (String.eqb_neq _ _) Hne), UnixNano_back.
Qed.

Lemma listed_with_cursor c req st : listedRows (with_cursor c req) st = listedRows req st.
Proof. done. Qed.

Lemma list_all_suffix (portable : string -> Prop) {L : CursorLaws portable} st fuel req pre rows : (0 < lr_Limit req)%Z ->
  StronglySorted row_le (listedRows req st) -> NoDup (map row_id (listedRows req st)) -> Forall (row_ok portable) (listedRows req st) ->
  listedRows req st = (pre ++ rows)%list -> rowsFrom req (listedRows req st) = Ok rows -> (length rows < fuel)%nat ->
  list_all fuel req st = Ok (map CloneSessionSummary rows).
Proof.
  revert req pre rows. induction fuel as [|fuel IH]; intros req pre rows Hl Hs Hn Hok Hsplit Hfrom Hf; [lia|].
  cbn [list_all]. unfold ListSessions. rewrite Hfrom. cbn [result_bind].
  destruct (Z.ltb_spec 0 (lr_Limit req)); [|lia]. destruct (Z.ltb_spec (lr_Limit req) (Z.of_nat (length rows))) as [Hmore|Hless]; simpl.
  - assert (Hlen : length (take (Z.to_nat (lr_Limit req)) rows) = Z.to_nat (lr_Limit req)) by (rewrite length_take; lia).
    destruct (last (take (Z.to_nat (lr_Limit req)) rows)) as [x|] eqn:Elast.
    2: { apply last_None in Elast. rewrite Elast in Hlen. simpl in Hlen. lia. }
    apply last_Some in Elast as [page' Epage].
    assert (Hrows : rows = (page' ++ x :: drop (Z.to_nat (lr_Limit req)) rows)%list).
    { rewrite <- (take_drop (Z.to_nat (lr_Limit req)) rows) at 1. rewrite Epage, <- (assoc_L (++)). done. }
    destruct (cursor_back portable x) as (next&Henc&Hnx&Htx&Hdec).
    { rewrite Hsplit, Hrows in Hok. rewrite !Forall_app, Forall_cons in Hok. tauto. }
    rewrite Henc. simpl. rewrite (proj2 (String.eqb_neq _ _) Hnx).
    rewrite (IH (with_cursor next req) (pre ++ page' ++ [x])%list (drop (Z.to_nat (lr_Limit req)) rows)); try done.
    + simpl. rewrite <- map_app, take_drop. done.
    + rewrite listed_with_cursor, Hsplit, Hrows at 1. by rewrite <- !(assoc_L (++)).
    + rewrite listed_with_cursor. unfold rowsFrom. cbn [lr_Cursor with_cursor]. rewrite !Htx, (proj2 (String.eqb_neq _ _) Hnx), Hdec. cbn [result_bind].
      f_equal. rewrite Hsplit in Hs, Hn |- *. generalize dependent (drop (Z.to_nat (lr_Limit req)) rows). intros post Hrows.
      rewrite Hrows, (assoc_L (++)) in Hs, Hn |- *. by apply rows_after.
    + rewrite length_drop. lia.
  - done.
Qed.

(** *** What is listed *)

Lemma listed_elem req st x : x ∈ listedRows req st <-> exists k r, st_sessions st !! k = Some r /\ selected req r = true /\ x = summary r.
Proof.
  unfold listedRows. rewrite merge_sort_Permutation, list_elem_of_fmap. split.
  - intros (r&->&Hin). apply list_elem_of_In, filter_In in Hin as [Hin Hsel]. apply list_elem_of_In, list_elem_of_fmap in Hin as ([k r']&->&Hkr).
    apply elem_of_map_to_list in Hkr. eauto.
  - intros (k&r&Hk&Hsel&->). exists r. split; [done|]. apply list_elem_of_In, filter_In. split; [|done].
    apply list_elem_of_In, list_elem_of_fmap. exists (k, r). split; [done|]. by apply elem_of_map_to_list.
Qed.

Lemma listed_nodup req st : store_inv st -> NoDup (map row_id (listedRows req st)).
Proof.
  intros [_ Hinv]. assert (Hp : map row_id (listedRows req st)
    ≡ₚ map row_id (map summary (List.filter (selected req) (map snd (map_to_list (st_sessions st)))))).
  { apply fmap_Permutation. apply merge_sort_Permutation. }
  rewrite Hp, map_map. assert (Hall : Forall (fun kr => row_id (summary (snd kr)) = fst kr) (map_to_list (st_sessions st))).
  { apply Forall_forall. intros [k r] Hkr%elem_of_map_to_list. apply (ri_key _ _ (Hinv k r Hkr)). }
  pose proof (NoDup_fst_map_to_list (st_sessions st)) as Hn. revert Hall Hn. generalize (map_to_list (st_sessions st)).
  intros l. induction l as [|[k r] l IH]; simpl; [constructor|]. intros [Hk Hl]%Forall_cons [Hx Hn]%NoDup_cons. simpl in *.
  destruct (selected req r); [|by apply IH]. simpl. apply NoDup_cons. split; [|by apply IH]. rewrite Hk.
  intros (r'&Er&Hin)%list_elem_of_fmap. apply list_elem_of_In, filter_In in Hin as [Hin _]. apply list_elem_of_In, list_elem_of_fmap in Hin as ([k' r'']&->&Hin).
  apply Hx. apply list_elem_of_fmap. exists (k', r''). split; [|done]. rewrite Forall_forall in Hl. specialize (Hl _ Hin). simpl in *. congruence.
Qed.

(** C16: Paging through the Sessions is complete.  On a store that does not change, a client that starts without a
    cursor and follows the returned cursors ends after at most one call per Session and one more, and received every
    Session its filters select exactly once, newest first; every cursor is found again by the binary search although
    it is opaque text. *)
Theorem session_listing_complete (portable : string -> Prop) {L : CursorLaws portable} st (req : ListSessionsRequest) :
  store_inv st -> (0 < lr_Limit req)%Z -> trim_space (lr_Cursor req) = "" ->
  (forall k r, st_sessions st !! k = Some r -> k <> "" /\ portable k /\ in_unix_range (s_UpdatedAt (rc_session r))) ->
  list_all (S (size (st_sessions st))) req st = Ok (map CloneSessionSummary (listedRows req st))
  /\ StronglySorted row_le (listedRows req st) /\ NoDup (map row_id (listedRows req st))
  /\ forall x, x ∈ listedRows req st <-> exists k r, st_sessions st !! k = Some r /\ selected req r = true /\ x = summary r.
Proof.
  intros Hinv Hl Hc Hok. assert (Hs : StronglySorted row_le (listedRows req st)) by apply (StronglySorted_merge_sort _).
  split; [|split; [done|split; [by apply listed_nodup|apply listed_elem]]].
  apply (list_all_suffix portable st _ req []); try done.
  - by apply listed_nodup.
  - apply Forall_forall. intros x (k&r&Hk&_&->)%listed_elem. destruct (Hok k r Hk) as (Hne&Hp&Hr). pose proof (proj2 Hinv k r Hk) as Hi.
    assert (Ht : trim_space k = k).
    { rewrite <- (ri_key _ _ Hi). change (SessionID (NormalizeSessionRef (s_Ref (rc_session r))) = SessionID (s_Ref (rc_session r))).
      by rewrite (ri_norm _ _ Hi). }
    unfold row_ok, row_id. simpl. by rewrite (ri_key _ _ Hi).
  - unfold rowsFrom. by rewrite Hc.
  - unfold listedRows. rewrite merge_sort_Permutation, length_map. apply Nat.lt_succ_r.
    etransitivity; [apply List.filter_length_le|]. by rewrite length_map, length_map_to_list.
Qed.
End Lists.

(** ** Approvals without a settlement *)

Section Pending.
Context `{OV : OpenValues} {B : Type} {EC : EventCodec B} {CL : CodecLaws B}.
Implicit Types st : Store (OV := OV) (B := B).

(** One pass over a log: the open request of every identifier. *)
Definition pendingUpdate (m : gmap string (Event B)) (e : Event B) : gmap string (Event B) :=
  let id := trim_space (ev_ApprovalRequestID e) in
  if id =? "" then m else
  if HasProtocolPermission e then <[id := e]> m else
  if bool_decide (is_Some (ev_Lifecycle e)) then delete id m else m.

Definition pendingOf (events : list (Event B)) : gmap string (Event B) := fold_left pendingUpdate events ∅.

Record PendingApproval : Type := MkPending { pn_Ref : SessionRef; pn_Revision : Z; pn_Request : Event B }.

(** A key of the listing: Session and request identifiers, and the approval. *)
#[local] Abbreviation Key := (string * string * PendingApproval)%type.

Definition key_le (a b : Key) : Prop :=
  if negb (a.1.1 =? b.1.1) then String.le a.1.1 b.1.1 else String.le a.1.2 b.1.2.
Global Instance key_le_dec : RelDecision key_le.
Proof. intros a b. unfold key_le. destruct (negb _); apply _. Defined.

Definition recordKeys (r : record (B := B)) : list Key :=
  map (fun p => (SessionID (s_Ref (rc_session r)), p.1, MkPending (s_Ref (rc_session r)) (s_Revision (rc_session r)) (CloneEvent p.2)))
    (map_to_list (pendingOf (rc_events r))).

Definition pendingKeys st : list Key := map_to_list (st_sessions st) ≫= fun x => recordKeys x.2.

Definition PendingApprovals st : list PendingApproval := map snd (merge_sort key_le (pendingKeys st)).

(** *** The one-pass scan agrees with the scan for one identifier *)

Lemma pendingOf_lookup events id : trim_space id = id -> id <> "" -> pendingOf events !! id = pendingApprovalForEvents events id.
Proof.
  intros Ht Hne. unfold pendingOf, pendingApprovalForEvents. rewrite Ht.
  assert (Hgen : forall m o, m !! id = o -> fold_left pendingUpdate events m !! id = fold_left (pendingStep id) events o).
  { induction events as [|e events IH]; intros m o Hm; simpl; [done|]. apply IH. unfold pendingUpdate, pendingStep. cbv zeta.
    destruct (String.eqb_spec (trim_space (ev_ApprovalRequestID e)) id) as [->|Hx]; simpl.
    - rewrite (proj2 (String.eqb_neq _ _) Hne). destruct (HasProtocolPermission e); [by rewrite lookup_insert_eq|].
      destruct (bool_decide _); [by rewrite lookup_delete_eq|done].
    - destruct (_ =? ""); [done|]. destruct (HasProtocolPermission e); [by rewrite lookup_insert_ne|].
      destruct (bool_decide _); [by rewrite lookup_delete_ne|done]. }
  by apply Hgen.
Qed.

Lemma pendingOf_keys events id e : pendingOf events !! id = Some e ->
  trim_space id = id /\ id <> "" /\ HasProtocolPermission e = true /\ trim_space (ev_ApprovalRequestID e) = id.
Proof.
  unfold pendingOf. assert (Hgen : forall m : gmap string (Event B), (forall id e, m !! id = Some e ->
      trim_space id = id /\ id <> "" /\ HasProtocolPermission e = true /\ trim_space (ev_ApprovalRequestID e) = id) ->
    forall id e, fold_left pendingUpdate events m !! id = Some e ->
      trim_space id = id /\ id <> "" /\ HasProtocolPermission e = true /\ trim_space (ev_ApprovalRequestID e) = id).
  { induction events as [|x events IH]; intros m Hm; simpl; [done|]. apply IH. intros k y. unfold pendingUpdate. cbv zeta.
    destruct (String.eqb_spec (trim_space (ev_ApprovalRequestID x)) ""); [apply Hm|].
    destruct (HasProtocolPermission x) eqn:Hp.
    - intros [[<- <-]|[_ Hk]]%lookup_insert_Some; [|by apply Hm]. by rewrite trim_space_idem.
    - destruct (bool_decide _); [|apply Hm]. intros [_ Hk]%lookup_delete_Some. by apply Hm. }
  apply Hgen. intros k y. by rewrite lookup_empty.
Qed.

Lemma record_keys_elem r x : x ∈ recordKeys r <-> exists id e, pendingOf (rc_events r) !! id = Some e
  /\ x = (SessionID (s_Ref (rc_session r)), id, MkPending (s_Ref (rc_session r)) (s_Revision (rc_session r)) (CloneEvent e)).
Proof.
  unfold recordKeys. rewrite list_elem_of_fmap. split.
  - intros ([id e]&->&Hin%elem_of_map_to_list). eauto.
  - intros (id&e&Hid&->). exists (id, e). split; [done|]. by apply elem_of_map_to_list.
Qed.

Lemma pending_elem st p : p ∈ PendingApprovals st <-> exists k r id e, st_sessions st !! k = Some r
  /\ pendingOf (rc_events r) !! id = Some e /\ p = MkPending (s_Ref (rc_session r)) (s_Revision (rc_session r)) (CloneEvent e).
Proof.
  unfold PendingApprovals, pendingKeys. rewrite list_elem_of_fmap. split.
  - intros (x&->&Hx). rewrite merge_sort_Permutation in Hx. apply list_elem_of_bind in Hx as ([k r]&Hx&Hkr%elem_of_map_to_list).
    apply record_keys_elem in Hx as (id&e&Hid&->). by exists k, r, id, e.
  - intros (k&r&id&e&Hk&Hid&->). eexists. split; [|rewrite merge_sort_Permutation; apply list_elem_of_bind; exists (k, r);
      split; [apply record_keys_elem; eauto|by apply elem_of_map_to_list]]. done.
Qed.

Lemma fmap_bind_list {X Y Z' : Type} (f : Y -> Z') (g : X -> list Y) (l : list X) : f <$> (l ≫= g) = l ≫= fun x => f <$> g x.
Proof. induction l as [|x l IH]; [done|]. csimpl. by rewrite fmap_app, IH. Qed.

(** One entry per Session and request. *)
Lemma pending_keys_nodup st : store_inv st -> NoDup (map fst (merge_sort key_le (pendingKeys st))).
Proof.
  intros [_ Hinv]. assert (Hp : map fst (merge_sort key_le (pendingKeys st)) ≡ₚ map fst (pendingKeys st)) by (apply fmap_Permutation, merge_sort_Permutation).
  rewrite Hp. clear Hp. unfold pendingKeys. change (map fst) with (fmap (M := list) (fst (A := string * string) (B := PendingApproval))).
  rewrite fmap_bind_list. apply NoDup_bind.
  - intros [k1 r1] [k2 r2] [sid rid] H1%elem_of_map_to_list H2%elem_of_map_to_list Hx Hy.
    apply list_elem_of_fmap in Hx as (x&Ex&(i1&e1&_&->)%record_keys_elem). apply list_elem_of_fmap in Hy as (y&Ey&(i2&e2&_&->)%record_keys_elem).
    simpl in Ex, Ey. injection Ex as -> _. injection Ey as Es _. rewrite (ri_key _ _ (Hinv _ _ H1)), (ri_key _ _ (Hinv _ _ H2)) in Es. subst k2.
    congruence.
  - intros [k r] _. unfold recordKeys. simpl. rewrite <- list_fmap_compose.
    assert (Hinj : Inj (=) (=) (fun id : string => (SessionID (s_Ref (rc_session r)), id))) by (intros ? ? [= ->]; done).
    pose proof (NoDup_fst_map_to_list (pendingOf (rc_events r))) as Hn. apply (NoDup_fmap_2 _) in Hn. rewrite <- list_fmap_compose in Hn. exact Hn.
  - apply NoDup_map_to_list.
Qed.

Lemma lookup_own st k r : store_inv st -> st_sessions st !! k = Some r -> lookupLocked st (s_Ref (rc_session r)) = Some r.
Proof.
  intros [_ Hinv] Hk. pose proof (Hinv k r Hk) as Hi. unfold lookupLocked. rewrite (ri_norm _ _ Hi), (ri_key _ _ Hi), Hk.
  unfold ref_field_matches. by rewrite !String.eqb_refl, !orb_true_r.
Qed.

(** The settlement a recovery builds from a snapshot. *)
Definition settlement_of (p : PendingApproval) (guard : MutationGuard) (settlement : option (Event B)) : SettlePendingApprovalRequest (B := B) :=
  MkSettle (pn_Ref p) (Some (pn_Revision p)) guard (ev_ApprovalRequestID (pn_Request p)) (ev_ID (pn_Request p)) (ev_Seq (pn_Request p)) settlement.

(** C17: The recovery listing is exact.  It holds exactly one entry for every permission request of every Session that has no
    later settlement, with the reference and revision of its Session, and nothing else; and as long as the store
    does not change, the conditional settlement built from an entry finds its Session at that revision and passes
    the check that the request is still pending. *)
Theorem pending_approvals_exact st : store_inv st ->
  (forall p, p ∈ PendingApprovals st <-> exists k r id e, st_sessions st !! k = Some r /\ trim_space id = id /\ id <> ""
     /\ pendingApprovalForEvents (rc_events r) id = Some e
     /\ p = MkPending (s_Ref (rc_session r)) (s_Revision (rc_session r)) (CloneEvent e))
  /\ NoDup (map fst (merge_sort key_le (pendingKeys st)))
  /\ (forall p guard settlement, p ∈ PendingApprovals st -> let req := settlement_of p guard settlement in
      exists r, lookupLocked st (sp_SessionRef req) = Some r /\ sp_ExpectedRevision req = Some (s_Revision (rc_session r))
        /\ PendingApprovalMatches (pendingApprovalForEvents (rc_events r) (sp_ApprovalRequestID req)) req = true).
Proof.
  intros Hinv. assert (Hiff : forall p, p ∈ PendingApprovals st <-> exists k r id e, st_sessions st !! k = Some r /\ trim_space id = id /\ id <> ""
     /\ pendingApprovalForEvents (rc_events r) id = Some e
     /\ p = MkPending (s_Ref (rc_session r)) (s_Revision (rc_session r)) (CloneEvent e)).
  { intros p. rewrite pending_elem. split; intros (k&r&id&e&Hk&H).
    - destruct H as [He ->]. pose proof (pendingOf_keys _ _ _ He) as (Ht&Hne&_). exists k, r, id, e. by rewrite <- pendingOf_lookup.
    - destruct H as (Ht&Hne&He&->). exists k, r, id, e. by rewrite pendingOf_lookup. }
  split; [exact Hiff|]. split; [by apply pending_keys_nodup|]. intros p guard settlement (k&r&id&e&Hk&Ht&Hne&He&->)%Hiff. exists r.
  split; [by eapply lookup_own|]. split; [done|]. unfold settlement_of. cbn [sp_ApprovalRequestID pn_Request].
  rewrite clone_Approval. pose proof He as He'. rewrite <- pendingOf_lookup in He' by done. apply pendingOf_keys in He' as (_&_&Hp&Hid).
  assert (Hsame : pendingApprovalForEvents (rc_events r) (ev_ApprovalRequestID e) = pendingApprovalForEvents (rc_events r) id).
  { unfold pendingApprovalForEvents. by rewrite Ht, Hid. }
  rewrite Hsame, He. unfold PendingApprovalMatches. cbn [sp_ApprovalRequestID sp_ExpectedRequestEventID sp_ExpectedRequestSeq pn_Request].
  rewrite clone_ID, clone_Seq, trim_space_idem, !String.eqb_refl, Z.eqb_refl, Hp. done.
Qed.
End Pending.

(** ** Concrete listings *)

(** Cursors as numbers in unary. *)
#[local] Instance text_cursor : CursorCodec := {
  encode_cursor v ns id := String "e"%char (tick (Pos.to_nat (encode (v, ns, id))));
  decode_cursor s := match s with String _ t => decode (Pos.of_nat (String.length t)) | EmptyString => None end;
  clean_path p := p;
}.

Lemma tick_length n : String.length (tick n) = n.
Proof. induction n as [|n IH]; simpl; congruence. Qed.

#[local] Instance text_cursor_laws : CursorLaws (fun _ => True).
Proof.
  split.
  - intros v ns id _. unfold decode_cursor, encode_cursor, text_cursor. rewrite tick_length, Pos2Nat.id. apply decode_encode.
  - intros v ns id. split; [|done]. apply (fresh_trim (src := text_source)).
Qed.

Definition list_request : ListSessionsRequest := MkList "caelis" "u" "" "" "" 1.
Definition list_times : Z := (unix_epoch + 5)%Z.
Definition listed1 : Store (B := TextBody) := (StartSession list_times text_start demo0).2.
Definition listed2 : Store (B := TextBody) :=
  (StartSession (list_times + 1) (MkStart "caelis" "u" "ws" "/w" "s2" "" ∅ None text_controller) listed1).2.

Lemma listed2_inv : store_inv listed2.
Proof.
  eapply reachable_inv; [apply (empty_store_inv text_source), _|]. eapply rtc_r; [|unfold listed2; apply (op_start demo_sha)].
  eapply rtc_r; [|unfold listed1; apply (op_start demo_sha)]. done.
Qed.

Lemma listed2_rows k r : st_sessions listed2 !! k = Some r -> k <> "" /\ True /\ in_unix_range (s_UpdatedAt (rc_session r)).
Proof.
  intros Hk%elem_of_map_to_list.
  assert (Hall : forallb (fun x => negb (fst x =? "") && (unix_epoch <=? s_UpdatedAt (rc_session (snd x)))%Z
                                  && (s_UpdatedAt (rc_session (snd x)) <=? unix_epoch + 9)%Z) (map_to_list (st_sessions listed2)) = true)
    by (vm_compute; reflexivity).
  rewrite forallb_forall in Hall. apply list_elem_of_In in Hk. specialize (Hall _ Hk). simpl in Hall.
  rewrite !andb_true_iff, negb_true_iff, String.eqb_neq, !Z.leb_le in Hall. unfold in_unix_range. split_and!; [tauto|done|lia|lia].
Qed.

Lemma session_listing_complete_witness :
  list_all (S (size (st_sessions listed2))) list_request listed2 = Ok (map CloneSessionSummary (listedRows list_request listed2))
  /\ map row_id (listedRows list_request listed2) = ["s2"; "s1"].
Proof.
  split; [|vm_compute; reflexivity].
  apply (session_listing_complete (fun _ => True) listed2 list_request); [apply listed2_inv|done|reflexivity|apply listed2_rows].
Defined.

Lemma pending_approvals_exact_witness :
  exists p, p ∈ PendingApprovals demo_permission /\ exists r, lookupLocked demo_permission (pn_Ref p) = Some r
    /\ s_Revision (rc_session r) = pn_Revision p.
Proof.
  destruct (PendingApprovals demo_permission) as [|p l] eqn:E; [apply (f_equal (fun x => length x)) in E; vm_compute in E; discriminate|].
  exists p. split; [apply list_elem_of_here|].
  destruct (proj2 (proj2 (pending_approvals_exact demo_permission demo_permission_inv)) p demo_guard None) as (r&Hl&Hrev&_).
  - rewrite E. apply list_elem_of_here.
  - exists r. split; [exact Hl|]. simpl in Hrev. by injection Hrev as ->.
Defined.
