(* ===== verification/RingBuffer.v ===== *)
(** * The output ring buffer of a command session

    Models [agent-sdk/sandbox/backend/cmdsession/ring_buffer.go]: a fixed array
    with a write and a read position and a [full] flag, which keeps the newest
    [capacity] bytes of a command's output.  The theorems show that the array
    arithmetic implements the abstract queue "append, then keep the last
    [capacity] bytes", that the counters account for every byte written, and
    that a client following its marker sees each byte exactly once unless the
    buffer had to drop it. *)

From Stdlib Require Import ZArith Lia.
From stdpp Require Import base list.
From S2P Require Import Prelude.


Section Ring.
Context {byte : Type} (zero : byte).

Record RingBuffer : Type := MkRing {
  data : list byte;
  capacity : nat;
  writePos : nat;
  readPos : nat;
  full : bool;
  lastWrite : Z;
  totalBytes : Z;
  dropped : Z;
}.

Definition NewRingBuffer (cap now : Z) : RingBuffer :=
  let cap := if cap <=? 0 then 64 * 1024 else cap in
  MkRing (replicate (Z.to_nat cap) zero) (Z.to_nat cap) 0 0 false now 0 0.

Definition lenLocked (rb : RingBuffer) : nat :=
  if full rb then capacity rb
  else if (readPos rb <=? writePos rb)%nat then (writePos rb - readPos rb)%nat
  else (capacity rb - readPos rb + writePos rb)%nat.

(** Go's [copy]: as many elements as fit, from the front. *)
Definition go_copy (dst src : list byte) : list byte := take (length dst) src ++ drop (length src) dst.

(** One iteration of the loop of [Write]. *)
Definition writeByte (rb : RingBuffer) (b : byte) : RingBuffer :=
  let overwrite := full rb && (writePos rb =? readPos rb)%nat in
  let readPos' := if overwrite then ((readPos rb + 1) mod capacity rb)%nat else readPos rb in
  let writePos' := ((writePos rb + 1) mod capacity rb)%nat in
  MkRing (<[writePos rb := b]> (data rb)) (capacity rb) writePos' readPos'
    (if (writePos' =? readPos')%nat then true else full rb) (lastWrite rb) (totalBytes rb)
    (if overwrite then i64 (dropped rb + 1) else dropped rb).

Definition Write (now : Z) (p : list byte) (rb : RingBuffer) : nat * RingBuffer :=
  match p with
  | [] => (0%nat, rb)
  | _ =>
    let total := i64 (totalBytes rb + Z.of_nat (length p)) in
    if (capacity rb <=? length p)%nat then
      (length p,
       MkRing (go_copy (data rb) (drop (length p - capacity rb) p)) (capacity rb) 0 0 true now total
         (i64 (dropped rb + Z.of_nat (lenLocked rb + length p - capacity rb))))
    else
      (length p,
       fold_left writeByte p
         (MkRing (data rb) (capacity rb) (writePos rb) (readPos rb) (full rb) now total (dropped rb)))
  end.

Definition readAllLocked (rb : RingBuffer) : list byte :=
  if (writePos rb =? readPos rb)%nat && negb (full rb) then [] else
  if full rb || (writePos rb <? readPos rb)%nat then
    let result := replicate (capacity rb) zero in
    let result := go_copy result (drop (readPos rb) (data rb)) in
    let result := take (capacity rb - readPos rb) result
                  ++ go_copy (drop (capacity rb - readPos rb) result) (take (writePos rb) (data rb)) in
    if negb (full rb) then take (capacity rb - readPos rb + writePos rb) result else result
  else
    go_copy (replicate (writePos rb - readPos rb) zero)
      (take (writePos rb - readPos rb) (drop (readPos rb) (data rb))).

Definition ReadAll (rb : RingBuffer) : list byte := readAllLocked rb.

Definition ReadAndConsume (rb : RingBuffer) : list byte * RingBuffer :=
  (readAllLocked rb,
   MkRing (data rb) (capacity rb) (writePos rb) (writePos rb) false (lastWrite rb) (totalBytes rb) (dropped rb)).

Definition ReadNewSince (marker : Z) (rb : RingBuffer) : list byte * Z :=
  let currentTotal := totalBytes rb in
  if currentTotal <=? marker then ([], currentTotal) else
  let newBytes := i64 (currentTotal - marker) in
  let newBytes := if Z.of_nat (capacity rb) <? newBytes then Z.of_nat (lenLocked rb) else newBytes in
  let d := readAllLocked rb in
  ((if newBytes <? Z.of_nat (length d) then drop (Z.to_nat (Z.of_nat (length d) - newBytes)) d else d), currentTotal).

Definition EarliestMarker (rb : RingBuffer) : Z := i64 (totalBytes rb - Z.of_nat (lenLocked rb)).

Definition Reset (now : Z) (rb : RingBuffer) : RingBuffer :=
  MkRing (data rb) (capacity rb) 0 0 false now 0 0.

(** ** Representation invariant and contents *)

Record ring_inv (rb : RingBuffer) : Prop := {
  inv_data : length (data rb) = capacity rb;
  inv_cap : (0 < capacity rb)%nat;
  inv_write : (writePos rb < capacity rb)%nat;
  inv_read : (readPos rb < capacity rb)%nat;
  inv_full : full rb = true -> writePos rb = readPos rb;
}.

(** The stored bytes in order: [lenLocked] of them from [readPos] on, wrapping. *)
Definition contents (rb : RingBuffer) : list byte :=
  take (lenLocked rb) (drop (readPos rb) (data rb) ++ take (readPos rb) (data rb)).

(** The abstract queue: the last [n] elements. *)
Definition lastn (n : nat) (l : list byte) : list byte := drop (length l - n) l.

Lemma lenLocked_le rb : ring_inv rb -> (lenLocked rb <= capacity rb)%nat.
Proof. intros []. unfold lenLocked. destruct (full rb); [lia|].
  destruct (_ <=? _)%nat eqn:E; [apply Nat.leb_le in E|apply Nat.leb_gt in E]; lia. Qed.

Lemma contents_length rb : ring_inv rb -> length (contents rb) = lenLocked rb.
Proof.
  intros H. pose proof (lenLocked_le rb H). destruct H.
  unfold contents. rewrite length_take, length_app, length_drop, length_take. lia.
Qed.

Lemma go_copy_exact dst src : length src = length dst -> go_copy dst src = src.
Proof.
  intros H. unfold go_copy. rewrite H, drop_all, app_nil_r, <- H. apply take_ge. lia.
Qed.

Lemma readAll_contents rb : ring_inv rb -> readAllLocked rb = contents rb.
Proof.
  intros H. pose proof H as []. unfold readAllLocked, contents, lenLocked.
  set (d := data rb) in *. set (c := capacity rb) in *. set (w := writePos rb) in *. set (r := readPos rb) in *.
  assert (Hwrap : let result := go_copy (replicate c zero) (drop r d) in
    take (c - r) result = drop r d /\ length (drop (c - r) result) = r).
  { unfold go_copy. simpl. rewrite length_replicate, length_drop, (take_ge (drop r d)) by (rewrite length_drop; lia).
    rewrite take_app_length' by (rewrite length_drop; lia). split; [done|].
    rewrite drop_app_length' by (rewrite length_drop; lia). rewrite length_drop, length_replicate. lia. }
  cbv zeta in Hwrap. destruct Hwrap as [Hw1 Hw2]. destruct (full rb) eqn:Hf; simpl.
  - rewrite andb_false_r, Hw1, (inv_full0 eq_refl), go_copy_exact by (rewrite Hw2, length_take; lia).
    symmetry. apply take_ge. rewrite length_app, length_drop, length_take. lia.
  - rewrite andb_true_r. destruct (w =? r)%nat eqn:E.
    { apply Nat.eqb_eq in E. rewrite E, Nat.leb_refl, Nat.sub_diag. done. }
    apply Nat.eqb_neq in E. destruct (r <=? w)%nat eqn:L.
    + apply Nat.leb_le in L. rewrite (proj2 (Nat.ltb_ge w r)) by lia.
      rewrite go_copy_exact by (rewrite length_take, length_drop, length_replicate; lia).
      rewrite take_app_le by (rewrite length_drop; lia). done.
    + apply Nat.leb_gt in L. rewrite (proj2 (Nat.ltb_lt w r)) by lia. rewrite Hw1.
      rewrite !take_app_ge by (rewrite length_drop; lia). f_equal. rewrite length_drop.
      revert Hw2. generalize (drop (c - r) (go_copy (replicate c zero) (drop r d))). intros rest Hw2.
      unfold go_copy. rewrite Hw2. replace (c - r + w - (length d - r))%nat with w by lia.
      rewrite take_app_le by (rewrite !length_take; lia). rewrite !take_take. f_equal. lia.
Qed.

(** ** Writing *)

Definition rot (r : nat) (d : list byte) : list byte := drop r d ++ take r d.

Lemma rot_length r d : length (rot r d) = length d.
Proof. unfold rot. rewrite length_app, length_drop, length_take. lia. Qed.

Lemma rot_insert r w b d : (r <= length d)%nat -> (w < length d)%nat ->
  rot r (<[w := b]> d) = <[(if (r <=? w)%nat then w - r else length d - r + w)%nat := b]> (rot r d).
Proof.
  intros Hr Hw. unfold rot. destruct (r <=? w)%nat eqn:E.
  - apply Nat.leb_le in E. rewrite insert_app_l by (rewrite length_drop; lia).
    rewrite drop_insert_ge, take_insert_ge by lia. done.
  - apply Nat.leb_gt in E. rewrite insert_app_r_alt by (rewrite length_drop; lia).
    rewrite drop_insert_lt, take_insert_lt by lia. do 2 f_equal. rewrite length_drop. lia.
Qed.

Lemma take_insert_snoc i b (l : list byte) : (i < length l)%nat -> take (S i) (<[i := b]> l) = take i l ++ [b].
Proof.
  intros H. rewrite (take_S_r _ _ b) by (apply list_lookup_insert_eq; lia). by rewrite take_insert_ge.
Qed.

Lemma rot_full r b d : (r < length d)%nat ->
  rot ((r + 1) mod length d) (<[r := b]> d) = tail (rot r d) ++ [b].
Proof.
  intros Hr. destruct (lookup_lt_is_Some_2 d r Hr) as [x Hx].
  unfold rot at 2. rewrite (drop_S _ _ _ Hx). simpl.
  destruct (decide (r + 1 = length d)%nat) as [E|E].
  - rewrite E, Nat.Div0.mod_same. unfold rot. rewrite drop_0, take_0, app_nil_r, (drop_ge d) by lia.
    simpl. rewrite <- (take_insert_snoc r b d Hr). rewrite take_ge; [done|]. rewrite length_insert. lia.
  - rewrite Nat.mod_small by lia. unfold rot. replace (r + 1)%nat with (S r) by lia.
    rewrite take_insert_snoc, drop_insert_lt by lia. by rewrite (assoc_L (++)).
Qed.

Lemma lastn_short n l : (length l <= n)%nat -> lastn n l = l.
Proof. intros H. unfold lastn. replace (length l - n)%nat with 0%nat by lia. apply drop_0. Qed.

Lemma lastn_length n l : length (lastn n l) = Nat.min n (length l).
Proof. unfold lastn. rewrite length_drop. lia. Qed.

Lemma lastn_app_lastn n l k : lastn n (lastn n l ++ k) = lastn n (l ++ k).
Proof.
  unfold lastn. rewrite !length_app, length_drop.
  destruct (decide (length l <= n)%nat) as [E|E].
  - replace (length l - n)%nat with 0%nat by lia. rewrite drop_0. f_equal. lia.
  - rewrite <- (skipn_O (drop _ l ++ k)), <- (drop_app_le l k (length l - n)) by lia.
    rewrite !drop_drop. f_equal. lia.
Qed.

Lemma writeByte_spec rb b : ring_inv rb ->
  ring_inv (writeByte rb b) /\ capacity (writeByte rb b) = capacity rb
  /\ contents (writeByte rb b) = lastn (capacity rb) (contents rb ++ [b])
  /\ dropped (writeByte rb b) = (if full rb then i64 (dropped rb + 1) else dropped rb)
  /\ totalBytes (writeByte rb b) = totalBytes rb.
Proof.
  intros H. pose proof (contents_length rb H) as Hlen. destruct H as [Hd Hc Hw Hr Hf].
  assert (Hmod : forall x, (x mod capacity rb < capacity rb)%nat) by (intros x; apply Nat.mod_upper_bound; lia).
  unfold writeByte. destruct (full rb) eqn:Hfull.
  - rewrite (Hf eq_refl), Nat.eqb_refl. simpl. rewrite Nat.eqb_refl. split_and!; try done.
    + constructor; simpl; rewrite ?length_insert; auto; apply Hmod.
    + unfold contents at 1, lenLocked. simpl. fold (rot ((readPos rb + 1) mod capacity rb) (<[readPos rb := b]> (data rb))).
      rewrite <- Hd. rewrite rot_full by lia. unfold contents, lenLocked. rewrite Hfull, <- Hd.
      fold (rot (readPos rb) (data rb)). rewrite (take_ge (rot _ _)) by (rewrite rot_length; lia).
      assert (Hl : length (rot (readPos rb) (data rb)) = length (data rb)) by apply rot_length.
      destruct (rot (readPos rb) (data rb)) as [|x l]; simpl in *; [lia|].
      rewrite take_ge by (rewrite length_app; simpl; lia). unfold lastn. simpl. rewrite length_app. simpl.
      replace (S (length l + 1) - length (data rb))%nat with 1%nat by lia. done.
  - simpl. assert (Hshort : (lenLocked rb < capacity rb)%nat).
    { unfold lenLocked. rewrite Hfull. destruct (_ <=? _)%nat eqn:E; [apply Nat.leb_le in E|apply Nat.leb_gt in E]; lia. }
    assert (Hlen' : forall d' now total dr,
      lenLocked (MkRing d' (capacity rb) ((writePos rb + 1) mod capacity rb) (readPos rb)
        (if ((writePos rb + 1) mod capacity rb =? readPos rb)%nat then true else false) now total dr)
      = S (lenLocked rb)).
    { intros. unfold lenLocked. simpl. rewrite Hfull.
      destruct (decide (writePos rb + 1 = capacity rb)%nat) as [E|E];
        [rewrite E, Nat.Div0.mod_same|rewrite Nat.mod_small by lia];
        repeat match goal with
        | |- context [(?x =? ?y)%nat] => destruct (Nat.eqb_spec x y)
        | |- context [(?x <=? ?y)%nat] => destruct (Nat.leb_spec x y)
        end; lia. }
    split_and!; try done.
    + constructor; simpl; rewrite ?length_insert; auto. destruct (_ =? _)%nat eqn:E; [|done].
      intros _. by apply Nat.eqb_eq.
    + unfold contents at 1. rewrite Hlen'. simpl. fold (rot (readPos rb) (<[writePos rb := b]> (data rb))).
      rewrite rot_insert by lia.
      replace (if (readPos rb <=? writePos rb)%nat then (writePos rb - readPos rb)%nat
               else (length (data rb) - readPos rb + writePos rb)%nat) with (lenLocked rb)
        by (unfold lenLocked; rewrite Hfull, Hd; done).
      rewrite take_insert_snoc by (rewrite rot_length; lia). rewrite lastn_short; [done|].
      rewrite length_app, Hlen. simpl. lia.
Qed.

(** Bytes lost when [n] bytes are appended to a buffer holding [len]. *)
Definition overflow (cap len n : nat) : nat := (len + n - cap)%nat.

Lemma i64_small x : -9223372036854775808 <= x < 9223372036854775808 -> i64 x = x.
Proof. intros H. unfold i64. rewrite Z.mod_small; lia. Qed.

Lemma i64_add x y : i64 (i64 x + y) = i64 (x + y).
Proof.
  unfold i64. f_equal. replace (_ - _ + y + _)%Z with ((x + 9223372036854775808) mod 18446744073709551616 + y) by lia.
  rewrite Z.add_mod_idemp_l by lia. f_equal. lia.
Qed.

Lemma i64_idem x : i64 (i64 x) = i64 x.
Proof. pose proof (i64_add x 0) as H. by rewrite !Z.add_0_r in H. Qed.

Lemma writeBytes_spec p rb : ring_inv rb -> (length p < capacity rb)%nat ->
  let rb' := fold_left writeByte p rb in
  ring_inv rb' /\ capacity rb' = capacity rb
  /\ contents rb' = lastn (capacity rb) (contents rb ++ p)
  /\ i64 (dropped rb') = i64 (dropped rb + Z.of_nat (overflow (capacity rb) (lenLocked rb) (length p)))
  /\ totalBytes rb' = totalBytes rb.
Proof.
  revert rb. induction p as [|b p IH]; intros rb H Hp; simpl in *.
  - pose proof (contents_length rb H) as Hl. pose proof (lenLocked_le rb H). rewrite app_nil_r, lastn_short by lia.
    unfold overflow. replace (lenLocked rb + 0 - capacity rb)%nat with 0%nat by lia. rewrite Z.add_0_r. done.
  - destruct (writeByte_spec rb b H) as (H1&H2&H3&H4&H5).
    destruct (IH (writeByte rb b) H1 ltac:(lia)) as (K1&K2&K3&K4&K5).
    rewrite K2, K3, K4, K5, H2, H3, H5, H4. split_and!; try done.
    + rewrite lastn_app_lastn. by rewrite <- (assoc_L (++)).
    + rewrite <- (contents_length _ H1), H3, lastn_length, length_app, (contents_length _ H). simpl.
      pose proof (lenLocked_le rb H). unfold overflow. destruct (full rb) eqn:Hf.
      * assert (lenLocked rb = capacity rb) as -> by (unfold lenLocked; by rewrite Hf).
        rewrite i64_add. f_equal. lia.
      * assert (lenLocked rb < capacity rb)%nat.
        { destruct H. unfold lenLocked. rewrite Hf.
          destruct (_ <=? _)%nat eqn:E; [apply Nat.leb_le in E|apply Nat.leb_gt in E]; lia. }
        do 2 f_equal. lia.
Qed.

Lemma Write_spec now p rb : ring_inv rb ->
  let rb' := snd (Write now p rb) in
  ring_inv rb' /\ capacity rb' = capacity rb
  /\ contents rb' = lastn (capacity rb) (contents rb ++ p)
  /\ i64 (dropped rb') = i64 (dropped rb + Z.of_nat (overflow (capacity rb) (lenLocked rb) (length p)))
  /\ i64 (totalBytes rb') = i64 (totalBytes rb + Z.of_nat (length p)).
Proof.
  intros H. pose proof (contents_length rb H) as Hl. pose proof (lenLocked_le rb H) as Hle. unfold Write.
  destruct p as [|b p]; [|generalize (b :: p); intros q].
  - simpl. rewrite app_nil_r, lastn_short by lia. unfold overflow.
    replace (lenLocked rb + 0 - capacity rb)%nat with 0%nat by lia. rewrite !Z.add_0_r. done.
  - destruct (capacity rb <=? length q)%nat eqn:E; [apply Nat.leb_le in E|apply Nat.leb_gt in E]; cbn [snd].
    + destruct H as [Hd Hc Hw Hr Hf].
      assert (Hq : length (drop (length q - capacity rb) q) = length (data rb)) by (rewrite length_drop; lia).
      split_and!; [|done| | |].
      * constructor; cbn [data capacity writePos readPos full]; [rewrite go_copy_exact; lia|lia..|done].
      * unfold contents at 1, lenLocked. simpl. rewrite go_copy_exact, app_nil_r by done. rewrite drop_0, take_ge by (rewrite Hq; lia).
        unfold lastn. rewrite length_app, drop_app_ge by lia. f_equal. lia.
      * simpl. by rewrite i64_idem.
      * simpl. by rewrite i64_idem.
    + match goal with |- context [fold_left writeByte q ?s] => set (rb0 := s) end.
      assert (H0 : ring_inv rb0) by (destruct H; constructor; done).
      destruct (writeBytes_spec q rb0 H0 E) as (K1&K2&K3&K4&K5).
      split_and!; [done|done|done|done|]. rewrite K5. simpl.
      by rewrite i64_idem.
Qed.

(** ** The abstract queue *)

Inductive ring_op : Type :=
| OpWrite (now : Z) (p : list byte)
| OpConsume
| OpReset (now : Z).

Definition ring_step (rb : RingBuffer) (op : ring_op) : RingBuffer :=
  match op with
  | OpWrite now p => snd (Write now p rb)
  | OpConsume => snd (ReadAndConsume rb)
  | OpReset now => Reset now rb
  end.

(** Unbounded counters; [q_consumed] is what readers took away. *)
Record queue : Type := MkQueue { q_bytes : list byte; q_total : Z; q_dropped : Z; q_consumed : Z }.

Definition queue_step (cap : nat) (q : queue) (op : ring_op) : queue :=
  match op with
  | OpWrite _ p =>
    MkQueue (lastn cap (q_bytes q ++ p)) (q_total q + Z.of_nat (length p))
      (q_dropped q + Z.of_nat (overflow cap (length (q_bytes q)) (length p))) (q_consumed q)
  | OpConsume => MkQueue [] (q_total q) (q_dropped q) (q_consumed q + Z.of_nat (length (q_bytes q)))
  | OpReset _ => MkQueue [] 0 0 0
  end.

Record ring_sim (cap : nat) (rb : RingBuffer) (q : queue) : Prop := {
  sim_inv : ring_inv rb;
  sim_cap : capacity rb = cap;
  sim_bytes : contents rb = q_bytes q;
  sim_total : i64 (totalBytes rb) = i64 (q_total q);
  sim_dropped : i64 (dropped rb) = i64 (q_dropped q);
  sim_sum : q_total q = q_dropped q + q_consumed q + Z.of_nat (length (q_bytes q));
}.

Lemma empty_contents d c w n t dr : contents (MkRing d c w w false n t dr) = [].
Proof. unfold contents, lenLocked. simpl. by rewrite Nat.leb_refl, Nat.sub_diag. Qed.

Lemma i64_add_congr x y z : i64 x = i64 y -> i64 (x + z) = i64 (y + z).
Proof. intros H. by rewrite <- (i64_add x), <- (i64_add y), H. Qed.

Lemma ring_sim_step cap rb q op : ring_sim cap rb q -> ring_sim cap (ring_step rb op) (queue_step cap q op).
Proof.
  intros [Hi Hc Hb Ht Hd Hs]. destruct op as [now p| |now]; simpl.
  - pose proof (contents_length rb Hi) as Hl. rewrite Hb in Hl. pose proof (lenLocked_le rb Hi).
    destruct (Write_spec now p rb Hi) as (H1&H2&H3&H4&H5). rewrite Hc, Hb in H3. rewrite Hc in H4.
    constructor; simpl; try done.
    + by rewrite H2.
    + rewrite H5. by apply i64_add_congr.
    + rewrite H4, Hl. by apply i64_add_congr.
    + rewrite lastn_length, length_app, Hs. unfold overflow. lia.
  - destruct Hi. constructor; try done; [simpl; by rewrite empty_contents|simpl; lia].
  - destruct Hi. constructor; try done.
Qed.

Lemma ring_sim_new cap now :
  let rb := NewRingBuffer cap now in ring_sim (capacity rb) rb (MkQueue [] 0 0 0).
Proof.
  cbv zeta. set (rb := NewRingBuffer cap now).
  assert (0 < capacity rb)%nat by (unfold rb, NewRingBuffer; simpl; destruct (cap <=? 0) eqn:E; [|apply Z.leb_gt in E]; lia).
  constructor; try done.
  constructor; try done. unfold rb, NewRingBuffer. simpl. apply length_replicate.
Qed.

(** C40: The ring buffer is the bounded queue it stands for.  After any sequence
    of writes, consuming reads and resets of a new buffer, what [ReadAll]
    returns is what the queue "append, then keep the last [capacity] bytes"
    holds; the reported length is its length; and the counters agree, modulo
    2^64, with counters in which every byte written was dropped, was consumed
    or is still stored. *)
Theorem ring_buffer_refines_queue (cap now : Z) (ops : list ring_op) :
  let rb := fold_left ring_step ops (NewRingBuffer cap now) in
  let q := fold_left (queue_step (capacity (NewRingBuffer cap now))) ops (MkQueue [] 0 0 0) in
  ReadAll rb = q_bytes q /\ lenLocked rb = length (q_bytes q)
  /\ i64 (totalBytes rb) = i64 (q_total q) /\ i64 (dropped rb) = i64 (q_dropped q)
  /\ q_total q = q_dropped q + q_consumed q + Z.of_nat (length (q_bytes q)).
Proof.
  assert (Hsim : forall ops cap rb q, ring_sim cap rb q ->
    ring_sim cap (fold_left ring_step ops rb) (fold_left (queue_step cap) ops q)).
  { clear. induction ops as [|op ops IH]; intros cap rb q H; simpl; [done|]. by apply IH, ring_sim_step. }
  cbv zeta. destruct (Hsim ops _ _ _ (ring_sim_new cap now)) as [Hi Hc Hb Ht Hd Hs].
  split_and!; [unfold ReadAll; by rewrite readAll_contents| |exact Ht|exact Hd|exact Hs].
  by rewrite <- (contents_length _ Hi), Hb.
Qed.

Definition writes (now : Z) (chunks : list (list byte)) (rb : RingBuffer) : RingBuffer :=
  fold_left (fun rb p => snd (Write now p rb)) chunks rb.

Lemma writes_spec now chunks rb : ring_inv rb ->
  let rb' := writes now chunks rb in
  ring_inv rb' /\ capacity rb' = capacity rb
  /\ contents rb' = lastn (capacity rb) (contents rb ++ concat chunks)
  /\ i64 (totalBytes rb') = i64 (totalBytes rb + Z.of_nat (length (concat chunks))).
Proof.
  unfold writes. revert rb. induction chunks as [|p chunks IH]; intros rb H; simpl.
  - rewrite app_nil_r, lastn_short, Z.add_0_r; [done|]. rewrite contents_length by done. by apply lenLocked_le.
  - destruct (Write_spec now p rb H) as (H1&H2&H3&_&H5). destruct (IH _ H1) as (K1&K2&K3&K4).
    rewrite K2, K3, K4, H2, H3. split_and!; try done.
    + by rewrite lastn_app_lastn, <- (assoc_L (++)).
    + rewrite (i64_add_congr _ _ _ H5). f_equal. rewrite length_app. lia.
Qed.

Lemma totals_fold l s : totalBytes (fold_left writeByte l s) = totalBytes s.
Proof. revert s. induction l as [|c l IH]; intros s; simpl; [done|]. by rewrite IH. Qed.

Lemma totals_normal now chunks rb : i64 (totalBytes rb) = totalBytes rb ->
  i64 (totalBytes (writes now chunks rb)) = totalBytes (writes now chunks rb).
Proof.
  unfold writes. revert rb. induction chunks as [|p chunks IH]; intros rb H; simpl; [done|]. apply IH.
  unfold Write. destruct p as [|b p]; [done|]. destruct (_ <=? _)%nat; cbn [snd]; [apply i64_idem|].
  rewrite totals_fold. apply i64_idem.
Qed.

(** Following a marker loses nothing that is still stored.  A client that
    takes the marker [totalBytes] and reads again after any number of further
    writes gets exactly the bytes written since, or the last [capacity] of
    them when more were written, and the new marker; nothing it saw before is
    repeated.  The total stays below 2^63. *)
Theorem read_new_since_marker (rb : RingBuffer) (now : Z) (chunks : list (list byte)) :
  ring_inv rb -> 0 <= totalBytes rb ->
  totalBytes rb + Z.of_nat (length (concat chunks)) < 9223372036854775808 ->
  ReadNewSince (totalBytes rb) (writes now chunks rb) =
    (lastn (capacity rb) (concat chunks), totalBytes rb + Z.of_nat (length (concat chunks))).
Proof.
  intros Hi H0 Hb. destruct (writes_spec now chunks rb Hi) as (H1&H2&H3&H4).
  rewrite totals_normal, i64_small in H4 by (rewrite ?i64_small; lia).
  unfold ReadNewSince. rewrite H4, H2, readAll_contents by done. set (n := length (concat chunks)) in *.
  destruct (_ <=? totalBytes rb) eqn:E; [apply Z.leb_le in E|apply Z.leb_gt in E].
  { f_equal. assert (n = 0)%nat by lia. destruct (concat chunks); [done|simpl in *; lia]. }
  f_equal. rewrite i64_small by lia. replace (totalBytes rb + Z.of_nat n - totalBytes rb) with (Z.of_nat n) by lia.
  pose proof (contents_length rb Hi). pose proof (lenLocked_le rb Hi).
  assert (Hl : length (contents (writes now chunks rb)) = Nat.min (capacity rb) (length (contents rb) + n)%nat)
    by (rewrite H3, lastn_length, length_app; done).
  rewrite <- (contents_length _ H1). rewrite Hl, H3. unfold lastn. rewrite length_app. fold n.
  destruct (Z.of_nat (capacity rb) <? Z.of_nat n) eqn:C; [apply Z.ltb_lt in C|apply Z.ltb_ge in C].
  - rewrite Z.ltb_irrefl, drop_app_ge by lia. f_equal. lia.
  - replace (n - capacity rb)%nat with 0%nat by lia. rewrite drop_0.
    destruct (_ <? _) eqn:D; [apply Z.ltb_lt in D|apply Z.ltb_ge in D].
    + rewrite drop_drop, drop_app_ge by lia. replace (_ - _)%nat with 0%nat by lia. apply drop_0.
    + rewrite drop_app_ge by lia. replace (_ - _)%nat with 0%nat by lia. apply drop_0.
Qed.
End Ring.

Lemma read_new_since_marker_witness :
  let rb := NewRingBuffer 0%nat 4 0 in
  ReadNewSince 0%nat (totalBytes rb) (writes 1 [[1%nat; 2%nat]; [3%nat]; [4%nat; 5%nat; 6%nat]] rb)
  = ([3%nat; 4%nat; 5%nat; 6%nat], 6).
Proof.
  apply (read_new_since_marker 0%nat (NewRingBuffer 0%nat 4 0) 1 [[1%nat; 2%nat]; [3%nat]; [4%nat; 5%nat; 6%nat]]);
    [|vm_compute; congruence..].
  constructor; simpl; try lia; reflexivity.
Defined.
