(* ===== verification/Utf8Stream.v ===== *)
(** * Decoding command output as UTF-8 across chunks

    Models [agent-sdk/sandbox/textstream/utf8.go]: a decoder that receives
    command output in arbitrary chunks, holds back an incomplete rune at the
    end of a chunk and replaces invalid bytes by U+FFFD.  Of the standard
    library it uses [utf8.FullRune], [utf8.DecodeRune], [utf8.Valid] and
    [strings.ToValidUTF8], which are modelled from their [unicode/utf8]
    tables.  A byte is a [Z] between 0 and 255. *)

From Stdlib Require Import ZArith Lia.
From stdpp Require Import base list.
From S2P Require Import Prelude.

(** ** [unicode/utf8] *)

(** The [first] and [acceptRanges] tables: the length of the encoding a byte
    starts and the range of its second byte; [None] for a byte that starts no
    encoding. *)
Definition first (b : Z) : option (nat * Z * Z) :=
  if (0 <=? b) && (b <=? 127) then Some (1%nat, 0, 0)
  else if (194 <=? b) && (b <=? 223) then Some (2%nat, 128, 191)
  else if b =? 224 then Some (3%nat, 160, 191)
  else if (225 <=? b) && (b <=? 236) then Some (3%nat, 128, 191)
  else if b =? 237 then Some (3%nat, 128, 159)
  else if (238 <=? b) && (b <=? 239) then Some (3%nat, 128, 191)
  else if b =? 240 then Some (4%nat, 144, 191)
  else if (241 <=? b) && (b <=? 243) then Some (4%nat, 128, 191)
  else if b =? 244 then Some (4%nat, 128, 143)
  else None.

Definition outside (lo hi b : Z) : bool := (b <? lo) || (hi <? b).
Definition no_continuation : Z -> bool := outside 128 191.

(** [utf8.FullRune]: an invalid encoding counts as a full rune of width 1. *)
Definition FullRune (p : list Z) : bool :=
  match p with
  | [] => false
  | b0 :: rest =>
    match first b0 with
    | None => true
    | Some (size, lo, hi) =>
      if (size <=? length p)%nat then true else
      match rest with
      | [] => false
      | b1 :: rest =>
        if outside lo hi b1 then true else
        match rest with [] => false | b2 :: _ => no_continuation b2 end
      end
    end
  end.

(** [utf8.DecodeRune] as far as the decoder looks at it: the width, and
    whether the rune is other than the width-1 error. *)
Definition DecodeRune (p : list Z) : nat * bool :=
  match p with
  | [] => (0%nat, false)
  | b0 :: rest =>
    match first b0 with
    | None => (1%nat, false)
    | Some (size, lo, hi) =>
      if (size =? 1)%nat then (1%nat, true) else
      if (length p <? size)%nat then (1%nat, false) else
      match rest with
      | [] => (1%nat, false)
      | b1 :: rest =>
        if outside lo hi b1 then (1%nat, false) else
        if (size <=? 2)%nat then (2%nat, true) else
        match rest with
        | [] => (1%nat, false)
        | b2 :: rest =>
          if no_continuation b2 then (1%nat, false) else
          if (size <=? 3)%nat then (3%nat, true) else
          match rest with
          | [] => (1%nat, false)
          | b3 :: _ => if no_continuation b3 then (1%nat, false) else (4%nat, true)
          end
        end
      end
    end
  end.

(** U+FFFD. *)
Definition RuneError : list Z := [239; 191; 189].

(** [utf8.Valid]; the fuel is the length. *)
Fixpoint valid_fuel (fuel : nat) (p : list Z) : bool :=
  match p, fuel with
  | [], _ => true
  | _, O => false
  | _, S fuel => let '(size, ok) := DecodeRune p in ok && valid_fuel fuel (drop size p)
  end.

Definition Valid (p : list Z) : bool := valid_fuel (length p) p.

(** [strings.ToValidUTF8]: each run of invalid bytes becomes one replacement. *)
Fixpoint to_valid (fuel : nat) (invalid : bool) (p replacement : list Z) : list Z :=
  match p, fuel with
  | [], _ => []
  | _, O => []
  | _, S fuel =>
    let '(size, ok) := DecodeRune p in
    if ok then take size p ++ to_valid fuel false (drop size p) replacement
    else (if invalid then [] else replacement) ++ to_valid fuel true (drop 1 p) replacement
  end.

Definition ToValidUTF8 (p replacement : list Z) : list Z := to_valid (length p) false p replacement.

(** ** The decoder *)

Record UTF8Decoder : Type := MkDecoder { pending : list Z }.

Definition PendingBytes (d : UTF8Decoder) : nat := length (pending d).
Definition ResetDecoder (d : UTF8Decoder) : UTF8Decoder := MkDecoder [].

(** The loop of [Decode]: output and the bytes held back. *)
Fixpoint decode_loop (fuel : nat) (data : list Z) : list Z * list Z :=
  match data, fuel with
  | [], _ => ([], [])
  | _, O => ([], data)
  | _, S fuel =>
    if negb (FullRune data) then ([], data) else
    let '(size, ok) := DecodeRune data in
    let '(out, rest) := decode_loop fuel (if ok then drop size data else drop 1 data) in
    ((if ok then take size data else RuneError) ++ out, rest)
  end.

Definition Decode (chunk : list Z) (d : UTF8Decoder) : list Z * UTF8Decoder :=
  match chunk with
  | [] => ([], d)
  | _ =>
    let data := pending d ++ chunk in
    let '(out, rest) := decode_loop (length data) data in (out, MkDecoder rest)
  end.

Definition Flush (d : UTF8Decoder) : list Z * UTF8Decoder :=
  match pending d with
  | [] => ([], d)
  | p => (ToValidUTF8 p RuneError, MkDecoder [])
  end.

(** ** Facts about one rune *)

Ltac rune_cases :=
  repeat match goal with
  | |- context [first ?b] => destruct (first b) as [[[? ?] ?]|] eqn:?
  | |- context [if ?b then _ else _] => destruct b eqn:?
  | H : context [if ?b then _ else _] |- _ => destruct b eqn:?
  end.

Lemma first_size b size lo hi : first b = Some (size, lo, hi) -> (1 <= size <= 4)%nat.
Proof. unfold first. intros H. rune_cases; simplify_eq; lia. Qed.

Lemma DecodeRune_size p : p <> [] -> (1 <= fst (DecodeRune p) <= length p)%nat.
Proof.
  intros Hp. destruct p as [|b0 [|b1 [|b2 [|b3 p]]]]; [done|..]; simpl; rune_cases; simpl; lia.
Qed.

Lemma DecodeRune_invalid p : p <> [] -> snd (DecodeRune p) = false -> fst (DecodeRune p) = 1%nat.
Proof.
  intros Hp. destruct p as [|b0 [|b1 [|b2 [|b3 p]]]]; [done|..]; simpl; rune_cases; done.
Qed.

(** A full rune is decided by its own bytes: later bytes change nothing. *)
Lemma FullRune_app a b : FullRune a = true -> FullRune (a ++ b) = true.
Proof.
  destruct a as [|b0 [|b1 [|b2 a]]]; simpl; try done;
    destruct (first b0) as [[[size lo] hi]|] eqn:E; try done; pose proof (first_size _ _ _ _ E);
    repeat match goal with
    | |- context [(?x <=? ?y)%nat] => destruct (Nat.leb_spec x y)
    | |- context [outside ?x ?y ?z] => destruct (outside x y z)
    end; try done; rewrite ?length_app in *; simpl in *; lia.
Qed.

Ltac size_cases :=
  repeat match goal with
  | |- context [(?x <=? ?y)%nat] => destruct (Nat.leb_spec x y)
  | |- context [(?x <? ?y)%nat] => destruct (Nat.ltb_spec x y)
  | |- context [(?x =? ?y)%nat] => destruct (Nat.eqb_spec x y)
  | |- context [outside ?x ?y ?z] => destruct (outside x y z) eqn:?
  | |- context [no_continuation ?z] => destruct (no_continuation z) eqn:?
  end.

Lemma DecodeRune_app a b : FullRune a = true -> DecodeRune (a ++ b) = DecodeRune a.
Proof.
  destruct a as [|b0 [|b1 [|b2 [|b3 a]]]]; simpl; try done;
    destruct (first b0) as [[[size lo] hi]|] eqn:E; try done; pose proof (first_size _ _ _ _ E) as Hs;
    rewrite ?length_app; simpl; size_cases; intros; try done; try lia; destruct b; simpl in *; size_cases; try done; lia.
Qed.

Lemma DecodeRune_full p : snd (DecodeRune p) = true -> FullRune p = true.
Proof.
  destruct p as [|b0 [|b1 [|b2 [|b3 p]]]]; simpl; try done;
    destruct (first b0) as [[[size lo] hi]|] eqn:E; try done; pose proof (first_size _ _ _ _ E) as Hs;
    size_cases; simpl; intros; try done; lia.
Qed.

(** The bytes of a valid rune decode to it again, whatever follows. *)
Lemma DecodeRune_take p q : snd (DecodeRune p) = true ->
  DecodeRune (take (fst (DecodeRune p)) p ++ q) = DecodeRune p.
Proof.
  destruct p as [|b0 [|b1 [|b2 [|b3 p]]]]; simpl; try done;
    destruct (first b0) as [[[size lo] hi]|] eqn:E; try done; pose proof (first_size _ _ _ _ E) as Hs;
    size_cases; simpl; intros; try done; try lia; rewrite E; size_cases; simpl in *; try done; try lia; congruence.
Qed.

(** ** The loop *)

Lemma decode_loop_fuel n m data : (length data <= n)%nat -> (length data <= m)%nat ->
  decode_loop n data = decode_loop m data.
Proof.
  revert m data. induction n as [|n IH]; intros m [|b data] Hn Hm; try (by destruct m); [simpl in Hn; lia|].
  destruct m as [|m]; [simpl in Hm; lia|]. cbn [decode_loop]. destruct (negb _); [done|].
  pose proof (DecodeRune_size (b :: data) ltac:(done)) as Hs.
  destruct (DecodeRune (b :: data)) as [size ok]. simpl in Hs. rewrite (IH m); [done|..];
    destruct ok; rewrite length_drop; simpl in *; lia.
Qed.

Definition loop (data : list Z) : list Z * list Z := decode_loop (length data) data.

Lemma loop_nil : loop [] = ([], []).
Proof. done. Qed.

Lemma loop_incomplete data : FullRune data = false -> loop data = ([], data).
Proof. unfold loop. intros H. destruct data; [done|]. cbn [length decode_loop]. by rewrite H. Qed.

Lemma loop_step data : FullRune data = true ->
  loop data =
  let '(size, ok) := DecodeRune data in
  let '(out, rest) := loop (drop size data) in ((if ok then take size data else RuneError) ++ out, rest).
Proof.
  intros H. destruct data as [|b data]; [done|].
  pose proof (DecodeRune_size (b :: data) ltac:(done)) as Hs.
  pose proof (DecodeRune_invalid (b :: data) ltac:(done)) as Hi.
  unfold loop at 1. cbn [length decode_loop]. rewrite H. cbn [negb].
  destruct (DecodeRune (b :: data)) as [size ok]. cbn [fst snd] in *.
  assert (Hd : (if ok then drop size (b :: data) else drop 1 (b :: data)) = drop size (b :: data))
    by (destruct ok; [done|by rewrite Hi]).
  rewrite Hd. unfold loop. erewrite (decode_loop_fuel (length data)); [done| |done].
  rewrite length_drop. cbn [length]. lia.
Qed.

Lemma loop_pending data : let '(_, rest) := loop data in FullRune rest = false.
Proof.
  induction data as [data IH] using (induction_ltof1 _ (@length Z)). unfold ltof in IH.
  destruct (FullRune data) eqn:E; [|by rewrite loop_incomplete].
  rewrite loop_step by done. assert (data <> []) as Hne by (by intros ->).
  pose proof (DecodeRune_size data Hne) as Hs. destruct (DecodeRune data) as [size ok]. simpl in Hs.
  specialize (IH (drop size data)). rewrite length_drop in IH. specialize (IH ltac:(lia)).
  by destruct (loop (drop size data)).
Qed.

Lemma loop_app a b :
  loop (a ++ b) = let '(out, rest) := loop a in let '(out', rest') := loop (rest ++ b) in (out ++ out', rest').
Proof.
  revert b. induction a as [a IH] using (induction_ltof1 _ (@length Z)). unfold ltof in IH. intros b.
  destruct (FullRune a) eqn:E; [|rewrite (loop_incomplete a) by done; simpl; by destruct (loop (a ++ b))].
  assert (a <> []) as Hne by (by intros ->).
  rewrite (loop_step a), (loop_step (a ++ b)), DecodeRune_app by auto using FullRune_app.
  pose proof (DecodeRune_size a Hne) as Hs. destruct (DecodeRune a) as [size ok]. simpl in Hs.
  rewrite drop_app_le, take_app_le by lia. rewrite IH by (rewrite length_drop; lia).
  destruct (loop (drop size a)) as [out rest]. destruct (loop (rest ++ b)) as [out' rest'].
  by rewrite (assoc_L (++)).
Qed.

(** ** Validity *)

Lemma valid_fuel_irrel n m p : (length p <= n)%nat -> (length p <= m)%nat -> valid_fuel n p = valid_fuel m p.
Proof.
  revert m p. induction n as [|n IH]; intros m [|b p] Hn Hm; try (by destruct m); [simpl in Hn; lia|].
  destruct m as [|m]; [simpl in Hm; lia|]. cbn [valid_fuel].
  pose proof (DecodeRune_size (b :: p) ltac:(done)) as Hs.
  destruct (DecodeRune (b :: p)) as [size ok]. simpl in Hs. rewrite (IH m); [done|..]; rewrite length_drop; simpl in *; lia.
Qed.

Lemma Valid_step p : p <> [] -> Valid p = snd (DecodeRune p) && Valid (drop (fst (DecodeRune p)) p).
Proof.
  intros Hp. destruct p as [|b p]; [done|]. pose proof (DecodeRune_size (b :: p) Hp) as Hs.
  unfold Valid at 1. cbn [length valid_fuel]. destruct (DecodeRune (b :: p)) as [size ok]. cbn [fst snd] in *.
  f_equal. apply valid_fuel_irrel; [|done]. rewrite length_drop. cbn [length]. lia.
Qed.

Lemma Valid_rune p q : snd (DecodeRune p) = true -> Valid q = true -> Valid (take (fst (DecodeRune p)) p ++ q) = true.
Proof.
  intros Hp Hq. assert (p <> []) as Hne by (by intros ->). pose proof (DecodeRune_size p Hne) as Hs.
  rewrite Valid_step by (destruct p; [done|]; destruct (DecodeRune _) as [[] ?]; simpl in *; [lia|done]).
  rewrite DecodeRune_take, Hp by done. simpl. rewrite drop_app_length' by (rewrite length_take; lia). done.
Qed.

Lemma Valid_replacement q : Valid q = true -> Valid (RuneError ++ q) = true.
Proof. apply (Valid_rune RuneError). done. Qed.

Lemma Valid_app p q : Valid p = true -> Valid q = true -> Valid (p ++ q) = true.
Proof.
  induction p as [p IH] using (induction_ltof1 _ (@length Z)). unfold ltof in IH. intros Hp Hq.
  destruct (decide (p = [])) as [->|Hne]; [done|]. rewrite Valid_step in Hp by done.
  apply andb_true_iff in Hp as [Ho Hp]. pose proof (DecodeRune_size p Hne) as Hs.
  rewrite <- (take_drop (fst (DecodeRune p)) p), <- (assoc_L (++)). apply Valid_rune; [done|].
  apply IH; [rewrite length_drop; lia|done|done].
Qed.

Lemma to_valid_valid n invalid p : (length p <= n)%nat -> Valid (to_valid n invalid p RuneError) = true.
Proof.
  revert invalid p. induction n as [|n IH]; intros invalid [|b p] Hn; try done.
  cbn [to_valid]. pose proof (DecodeRune_size (b :: p) ltac:(done)) as Hs.
  pose proof (Valid_rune (b :: p)) as Hv. destruct (DecodeRune (b :: p)) as [size ok]. cbn [fst snd] in *.
  destruct ok; [|destruct invalid].
  - apply Hv; [done|]. apply IH. rewrite length_drop. cbn [length] in *. lia.
  - rewrite app_nil_l. apply IH. rewrite length_drop. cbn [length] in *. lia.
  - apply Valid_replacement, IH. rewrite length_drop. cbn [length] in *. lia.
Qed.

Lemma loop_valid data : Valid (fst (loop data)) = true.
Proof.
  induction data as [data IH] using (induction_ltof1 _ (@length Z)). unfold ltof in IH.
  destruct (FullRune data) eqn:E; [|by rewrite loop_incomplete].
  assert (data <> []) as Hne by (by intros ->). pose proof (DecodeRune_size data Hne) as Hs.
  rewrite loop_step by done. pose proof (Valid_rune data) as Hv.
  destruct (DecodeRune data) as [size ok]. cbn [fst snd] in *. specialize (IH (drop size data)).
  rewrite length_drop in IH. specialize (IH ltac:(lia)). destruct (loop (drop size data)) as [out rest]. cbn [fst] in *.
  destruct ok; [by apply Hv|by apply Valid_replacement].
Qed.

Lemma loop_transparent data : Valid data = true -> loop data = (data, []).
Proof.
  induction data as [data IH] using (induction_ltof1 _ (@length Z)). unfold ltof in IH. intros Hv.
  destruct (decide (data = [])) as [->|Hne]; [done|]. rewrite Valid_step in Hv by done.
  apply andb_true_iff in Hv as [Ho Hv]. pose proof (DecodeRune_size data Hne) as Hs.
  rewrite loop_step by (by apply DecodeRune_full). destruct (DecodeRune data) as [size ok]. cbn [fst snd] in *. subst.
  rewrite (IH (drop size data)) by (rewrite ?length_drop; auto; lia). by rewrite take_drop.
Qed.

Lemma incomplete_short p : FullRune p = false -> (length p <= 3)%nat.
Proof.
  destruct p as [|b0 [|b1 [|b2 [|b3 p]]]]; simpl; try lia.
  destruct (first b0) as [[[size lo] hi]|] eqn:E; [|done]. pose proof (first_size _ _ _ _ E).
  size_cases; try done; lia.
Qed.

(** ** The stream *)

Fixpoint decode_all (chunks : list (list Z)) (d : UTF8Decoder) : list Z * UTF8Decoder :=
  match chunks with
  | [] => ([], d)
  | chunk :: chunks =>
    let '(out, d) := Decode chunk d in
    let '(out', d) := decode_all chunks d in (out ++ out', d)
  end.

Lemma Decode_loop chunk d : FullRune (pending d) = false ->
  Decode chunk d = let '(out, rest) := loop (pending d ++ chunk) in (out, MkDecoder rest).
Proof.
  intros H. destruct chunk; [|done]. rewrite app_nil_r, loop_incomplete by done. by destruct d.
Qed.

Lemma decode_all_loop chunks d : FullRune (pending d) = false ->
  decode_all chunks d = let '(out, rest) := loop (pending d ++ concat chunks) in (out, MkDecoder rest).
Proof.
  revert d. induction chunks as [|c chunks IH]; intros d H; simpl.
  - rewrite app_nil_r, loop_incomplete by done. by destruct d.
  - rewrite Decode_loop, (assoc_L (++)), (loop_app (pending d ++ c)) by done. pose proof (loop_pending (pending d ++ c)) as Hp.
    destruct (loop (pending d ++ c)) as [out rest].
    rewrite IH by done. simpl. by destruct (loop (rest ++ concat chunks)).
Qed.

(** Decoding does not depend on how the output was cut into chunks:
    feeding the chunks one by one gives the same text and holds back the same
    bytes as feeding their concatenation at once. *)
Theorem utf8_chunk_independent (chunks : list (list Z)) :
  decode_all chunks (MkDecoder []) = Decode (concat chunks) (MkDecoder []).
Proof. by rewrite decode_all_loop, Decode_loop. Qed.

(** Whatever bytes a command prints, in whatever chunks, the decoded text
    is valid UTF-8, also with the flushed remainder appended, and at most
    three bytes are ever held back. *)
Theorem utf8_output_valid (chunks : list (list Z)) :
  let '(out, d) := decode_all chunks (MkDecoder []) in
  Valid out = true /\ (PendingBytes d <= 3)%nat /\ Valid (out ++ fst (Flush d)) = true.
Proof.
  rewrite decode_all_loop by done. simpl. pose proof (loop_valid (concat chunks)) as Hv.
  pose proof (loop_pending (concat chunks)) as Hp. destruct (loop (concat chunks)) as [out rest]. simpl in Hv.
  split_and!; [done|by apply incomplete_short|]. apply Valid_app; [done|].
  unfold Flush. simpl. destruct rest as [|b rest]; [done|]. by apply to_valid_valid.
Qed.

(** Valid output passes through unchanged: if the bytes of all chunks
    together are valid UTF-8, the decoded text is those bytes and nothing is
    held back, even when runes were cut between chunks. *)
Theorem utf8_transparent (chunks : list (list Z)) :
  Valid (concat chunks) = true ->
  decode_all chunks (MkDecoder []) = (concat chunks, MkDecoder []).
Proof. intros H. rewrite decode_all_loop by done. simpl. by rewrite loop_transparent. Qed.

Lemma utf8_transparent_witness :
  let chunks := [[65; 226]; [130]; [172; 240; 159]; [152; 128]] in
  Valid (concat chunks) = true /\ decode_all chunks (MkDecoder []) = (concat chunks, MkDecoder []).
Proof.
  split; [vm_compute; reflexivity|].
  apply (utf8_transparent [[65; 226]; [130]; [172; 240; 159]; [152; 128]]). vm_compute. reflexivity.
Defined.
