(* ===== verification/Runes.v ===== *)
(** * Go strings by runes

    [[]rune(s)], [string(runes)] and ranging over a string, on the bytes of
    [String.string] and with the tables of [Utf8Stream]: an invalid byte is
    one rune, U+FFFD. *)

From Stdlib Require Import ZArith Lia Ascii String.
From stdpp Require Import base list strings.
From S2P Require Import Prelude GoStrings Utf8Stream.

(** ** Bytes *)

Definition byte_of (a : ascii) : Z := Z.of_N (N_of_ascii a).
Definition ascii_of (b : Z) : ascii := ascii_of_N (Z.to_N b).
Definition bytes_of (s : string) : list Z := map byte_of (list_ascii_of_string s).
Definition string_of (p : list Z) : string := string_of_list_ascii (map ascii_of p).

Definition is_byte (b : Z) : Prop := 0 <= b < 256.

Lemma byte_of_range a : is_byte (byte_of a).
Proof. unfold is_byte, byte_of. pose proof (N_ascii_bounded a). lia. Qed.

Lemma ascii_of_byte a : ascii_of (byte_of a) = a.
Proof. unfold ascii_of, byte_of. by rewrite N2Z.id, ascii_N_embedding. Qed.

Lemma byte_of_ascii b : is_byte b -> byte_of (ascii_of b) = b.
Proof. unfold is_byte, byte_of, ascii_of. intros H. rewrite N_ascii_embedding; lia. Qed.

Lemma string_of_bytes s : string_of (bytes_of s) = s.
Proof.
  unfold string_of, bytes_of. rewrite map_map. rewrite (map_ext _ (fun x => x)) by apply ascii_of_byte.
  by rewrite map_id, string_of_list_ascii_of_string.
Qed.

Lemma bytes_of_string p : Forall is_byte p -> bytes_of (string_of p) = p.
Proof.
  unfold string_of, bytes_of. intros Hp. rewrite list_ascii_of_string_of_list_ascii, map_map.
  induction Hp as [|b p Hb _ IH]; [done|]. simpl. by rewrite byte_of_ascii, IH.
Qed.

Lemma bytes_of_bytes s : Forall is_byte (bytes_of s).
Proof. unfold bytes_of. apply Forall_forall. intros b (a&->&_)%list_elem_of_fmap. apply byte_of_range. Qed.

Lemma bytes_of_nil s : bytes_of s = [] <-> s = ""%string.
Proof. unfold bytes_of. destruct s; simpl; split; done. Qed.

(** ** Runes *)

(** The encodings of [[]rune(s)], in order; the fuel is the length. *)
Fixpoint runes_fuel (fuel : nat) (p : list Z) : list (list Z) :=
  match p, fuel with
  | [], _ => []
  | _, O => []
  | _, S fuel =>
    let '(size, ok) := DecodeRune p in
    (if ok then take size p else RuneError) :: runes_fuel fuel (drop size p)
  end.

Definition runes (p : list Z) : list (list Z) := runes_fuel (length p) p.

Lemma runes_fuel_irrel n m p : (length p <= n)%nat -> (length p <= m)%nat -> runes_fuel n p = runes_fuel m p.
Proof.
  revert m p. induction n as [|n IH]; intros m [|b p] Hn Hm; try (by destruct m); [simpl in Hn; lia|].
  destruct m as [|m]; [simpl in Hm; lia|]. cbn [runes_fuel].
  pose proof (DecodeRune_size (b :: p) ltac:(done)) as Hs.
  destruct (DecodeRune (b :: p)) as [size ok]. simpl in Hs. rewrite (IH m); [done|..]; rewrite length_drop; simpl in *; lia.
Qed.

Lemma runes_step p : p <> [] ->
  runes p = (if snd (DecodeRune p) then take (fst (DecodeRune p)) p else RuneError) :: runes (drop (fst (DecodeRune p)) p).
Proof.
  intros Hp. destruct p as [|b p]; [done|]. pose proof (DecodeRune_size (b :: p) Hp) as Hs.
  unfold runes at 1. cbn [length runes_fuel]. destruct (DecodeRune (b :: p)) as [size ok]. cbn [fst snd] in *.
  f_equal. apply runes_fuel_irrel; [|done]. rewrite length_drop. cbn [length]. lia.
Qed.

(** The encoding of one rune: it decodes to itself whatever follows. *)
Definition rune (r : list Z) : Prop :=
  r <> [] /\ Forall is_byte r /\ forall q, DecodeRune (r ++ q) = (length r, true).

Lemma RuneError_rune : rune RuneError.
Proof. split; [done|]. split; [repeat constructor; unfold is_byte; lia|]. done. Qed.

Lemma decoded_rune p : snd (DecodeRune p) = true -> Forall is_byte p -> rune (take (fst (DecodeRune p)) p).
Proof.
  intros Hp Hb. assert (p <> []) as Hne by (by intros ->). pose proof (DecodeRune_size p Hne) as Hs.
  split; [destruct p; [done|]; destruct (DecodeRune _) as [[] ?]; simpl in *; [lia|done]|].
  split; [by apply Forall_take|]. intros q. rewrite DecodeRune_take by done. rewrite length_take, Nat.min_l by lia.
  destruct (DecodeRune p); simpl in *; congruence.
Qed.

Lemma runes_rune p : Forall is_byte p -> Forall rune (runes p).
Proof.
  induction p as [p IH] using (induction_ltof1 _ (@length Z)). unfold ltof in IH. intros Hb.
  destruct (decide (p = [])) as [->|Hne]; [constructor|]. rewrite runes_step by done.
  pose proof (DecodeRune_size p Hne) as Hs. constructor.
  - destruct (snd (DecodeRune p)) eqn:E; [by apply decoded_rune|apply RuneError_rune].
  - apply IH; [rewrite length_drop; lia|by apply Forall_drop].
Qed.

(** Encoding runes and ranging over the result gives the runes back. *)
Lemma runes_concat rs q : Forall rune rs -> runes (concat rs ++ q) = rs ++ runes q.
Proof.
  induction 1 as [|r rs (Hne&_&Hr) _ IH]; [done|]. simpl. rewrite <- (assoc_L (++)).
  rewrite runes_step by (destruct r; done). rewrite Hr. cbn [fst snd].
  rewrite take_app_length, drop_app_length, IH. done.
Qed.

Lemma runes_concat_nil rs : Forall rune rs -> runes (concat rs) = rs.
Proof. intros H. rewrite <- (app_nil_r (concat rs)), runes_concat by done. by rewrite app_nil_r. Qed.

(** ** Ranging over a string *)

(** [for i, r := range s]: the bytes that each rune takes, and whether they
    encode a rune; invalid bytes come one by one. *)
Fixpoint chunks_fuel (fuel : nat) (p : list Z) : list (list Z * bool) :=
  match p, fuel with
  | [], _ => []
  | _, O => []
  | _, S fuel => let '(size, ok) := DecodeRune p in (take size p, ok) :: chunks_fuel fuel (drop size p)
  end.

Definition chunks (p : list Z) : list (list Z * bool) := chunks_fuel (length p) p.

(** The rune of a step, U+FFFD for an invalid byte. *)
Definition shown (c : list Z * bool) : list Z := if snd c then fst c else RuneError.

Lemma chunks_fuel_irrel n m p : (length p <= n)%nat -> (length p <= m)%nat -> chunks_fuel n p = chunks_fuel m p.
Proof.
  revert m p. induction n as [|n IH]; intros m [|b p] Hn Hm; try (by destruct m); [simpl in Hn; lia|].
  destruct m as [|m]; [simpl in Hm; lia|]. cbn [chunks_fuel].
  pose proof (DecodeRune_size (b :: p) ltac:(done)) as Hs.
  destruct (DecodeRune (b :: p)) as [size ok]. simpl in Hs. rewrite (IH m); [done|..]; rewrite length_drop; simpl in *; lia.
Qed.

Lemma chunks_step p : p <> [] ->
  chunks p = (take (fst (DecodeRune p)) p, snd (DecodeRune p)) :: chunks (drop (fst (DecodeRune p)) p).
Proof.
  intros Hp. destruct p as [|b p]; [done|]. pose proof (DecodeRune_size (b :: p) Hp) as Hs.
  unfold chunks at 1. cbn [length chunks_fuel]. destruct (DecodeRune (b :: p)) as [size ok]. cbn [fst snd] in *.
  f_equal. apply chunks_fuel_irrel; [|done]. rewrite length_drop. cbn [length]. lia.
Qed.

(** Induction over the runes of a string. *)
Lemma rune_ind (P : list Z -> Prop) :
  P [] -> (forall p, p <> [] -> P (drop (fst (DecodeRune p)) p) -> P p) -> forall p, P p.
Proof.
  intros H0 HS p. induction p as [p IH] using (induction_ltof1 _ (@length Z)). unfold ltof in IH.
  destruct (decide (p = [])) as [->|Hne]; [done|]. pose proof (DecodeRune_size p Hne) as Hs.
  apply HS; [done|]. apply IH. rewrite length_drop. lia.
Qed.

Lemma chunks_concat p : concat (map fst (chunks p)) = p.
Proof.
  induction p as [|p Hne IH] using rune_ind; [done|]. rewrite chunks_step by done. cbn [map concat fst]. by rewrite IH, take_drop.
Qed.

Lemma chunks_shown p : map shown (chunks p) = runes p.
Proof.
  induction p as [|p Hne IH] using rune_ind; [done|]. rewrite chunks_step, runes_step by done. cbn [map]. by rewrite IH.
Qed.

Lemma Valid_chunks p : Valid p = forallb snd (chunks p).
Proof.
  induction p as [|p Hne IH] using rune_ind; [done|]. rewrite chunks_step, Valid_step by done. cbn [forallb snd]. by rewrite IH.
Qed.

Lemma Valid_shown p : Valid p = true -> runes p = map fst (chunks p).
Proof.
  rewrite Valid_chunks, <- chunks_shown. induction (chunks p) as [|[r ok] l IH]; [done|]. simpl.
  intros (->&Hl)%andb_true_iff. by rewrite IH.
Qed.

Lemma Valid_runes p : Valid p = true -> concat (runes p) = p.
Proof. intros H. by rewrite Valid_shown, chunks_concat. Qed.

Lemma rune_Valid r : rune r -> Valid r = true.
Proof.
  intros (Hne&_&Hr). specialize (Hr []). rewrite app_nil_r in Hr. rewrite Valid_step by done.
  rewrite Hr. cbn [fst snd]. by rewrite drop_all.
Qed.

Lemma Valid_concat rs : Forall rune rs -> Valid (concat rs) = true.
Proof. induction 1 as [|r rs Hr _ IH]; [done|]. simpl. apply Valid_app; [by apply rune_Valid|done]. Qed.

(** Valid text is ranged over piece by piece. *)
Lemma chunks_app p q : Valid p = true -> chunks (p ++ q) = chunks p ++ chunks q.
Proof.
  induction p as [|p Hne IH] using rune_ind; [done|]. rewrite Valid_step by done. intros (Ho&Hv)%andb_true_iff.
  pose proof (DecodeRune_size p Hne) as Hs. rewrite (chunks_step p), (chunks_step (p ++ q)) by (done || by destruct p).
  rewrite DecodeRune_app by (by apply DecodeRune_full). rewrite take_app_le, drop_app_le by lia. simpl. by rewrite IH.
Qed.

Lemma rune_chunks r : rune r -> chunks r = [(r, true)].
Proof.
  intros (Hne&_&Hr). specialize (Hr []). rewrite app_nil_r in Hr. rewrite chunks_step by done. rewrite Hr. cbn [fst snd].
  by rewrite take_ge, drop_all by done.
Qed.

(** ** Runes and white space *)

Lemma ws2_first a b : ws2 a b = true -> N_of_ascii a = 194%N.
Proof. unfold ws2. destruct (N_of_ascii a) as [|p]; [done|]. repeat (destruct p as [p|p|]; try done). Qed.

Lemma ws3_first a b c : ws3 a b c = true -> (225 <= N_of_ascii a <= 227)%N.
Proof. unfold ws3. destruct (N_of_ascii a) as [|p]; [done|]. repeat (destruct p as [p|p|]; try done); lia. Qed.

Lemma ascii_of_N_byte b : is_byte b -> N_of_ascii (ascii_of b) = Z.to_N b.
Proof. intros H. pose proof (byte_of_ascii b H). unfold byte_of in *. lia. Qed.

(** Whether a string starts with a space is decided by its first rune. *)
Lemma rune_space r x : rune r -> starts_space (map ascii_of (r ++ x)) = starts_space (map ascii_of r).
Proof.
  intros (Hne&Hb&Hr). specialize (Hr []). rewrite app_nil_r in Hr.
  assert (N2 : forall b c, is_byte b -> b <> 194 -> ws2 (ascii_of b) c = false).
  { intros b c Hbb Hn. destruct (ws2 _ c) eqn:E; [|done]. apply ws2_first in E. rewrite ascii_of_N_byte in E by done.
    unfold is_byte in *. lia. }
  assert (N3 : forall b c d, is_byte b -> (b < 225)%Z -> ws3 (ascii_of b) c d = false).
  { intros b c d Hbb Hn. destruct (ws3 _ c d) eqn:E; [|done]. apply ws3_first in E. rewrite ascii_of_N_byte in E by done.
    unfold is_byte in *. lia. }
  destruct r as [|b0 [|b1 [|b2 r]]]; [done|..].
  - apply Forall_cons in Hb as [Hb _]. simpl in Hr.
    assert (Hlt : (b0 <= 127)%Z).
    { unfold first in Hr. repeat case_match; simplify_eq; try lia. }
    destruct x as [|y [|z x]]; simpl; rewrite ?N2, ?N3 by (done || lia); by rewrite ?orb_false_r.
  - apply Forall_cons in Hb as [Hb _]. simpl in Hr.
    assert (Hlt : (b0 < 225)%Z).
    { unfold first in Hr. repeat case_match; simplify_eq; try lia. }
    destruct x as [|y x]; simpl; [done|]. by rewrite N3, orb_false_r.
  - done.
Qed.

Lemma map_ascii_bytes s : map ascii_of (bytes_of s) = list_ascii_of_string s.
Proof. unfold bytes_of. rewrite map_map, (map_ext _ (fun x => x)) by apply ascii_of_byte. apply map_id. Qed.

Lemma trim_space_starts s : starts_space (list_ascii_of_string (trim_space s)) = false.
Proof.
  unfold trim_space, trim_bytes. rewrite list_ascii_of_string_of_list_ascii.
  set (t := trim_left_bytes (list_ascii_of_string s)). destruct (trim_rev_bytes_suffix (rev t)) as [w Hw].
  apply (starts_space_prefix _ (rev w)). rewrite <- rev_app_distr, <- Hw, rev_involutive. apply trim_left_bytes_starts.
Qed.

(** ** Truncation with an ellipsis *)

Definition ellipsis : list Z := [46; 46; 46].

(** [string(runes[:n]) + "..."]. *)
Definition cut_runes (n : nat) (s : string) : string := string_of (concat (take n (runes (bytes_of s))) ++ ellipsis).

Lemma cut_runes_bytes n s : bytes_of (cut_runes n s) = concat (take n (runes (bytes_of s))) ++ ellipsis.
Proof.
  apply bytes_of_string, Forall_app. split; [|repeat constructor; unfold is_byte; lia].
  pose proof (runes_rune _ (bytes_of_bytes s)) as Hr. apply (Forall_take _ n) in Hr.
  induction Hr as [|r rs (_&Hb&_) _ IH]; [constructor|]. simpl. by apply Forall_app.
Qed.

Lemma cut_runes_count n s : (n <= length (runes (bytes_of s)))%nat -> length (runes (bytes_of (cut_runes n s))) = (n + 3)%nat.
Proof.
  intros Hn. rewrite cut_runes_bytes, runes_concat by (apply Forall_take, runes_rune, bytes_of_bytes).
  rewrite length_app, length_take. simpl. lia.
Qed.

(** A cut text starts like the text and ends in a dot, so it is trimmed. *)
Lemma cut_runes_trimmed n s : trim_space s = s -> trim_space (cut_runes n s) = cut_runes n s.
Proof.
  intros Hs. set (l := list_ascii_of_string (cut_runes n s)).
  assert (Hl : l = map ascii_of (concat (take n (runes (bytes_of s))) ++ ellipsis)).
  { unfold l. by rewrite <- map_ascii_bytes, cut_runes_bytes. }
  assert (Hst : starts_space l = false).
  { rewrite Hl. pose proof (runes_rune _ (bytes_of_bytes s)) as Hr. destruct (decide (bytes_of s = [])) as [->|Hne].
    { destruct n; reflexivity. }
    rewrite runes_step in Hr |- * by done. destruct n as [|n]; [done|]. apply Forall_cons in Hr as [Hr _].
    simpl take. simpl concat. rewrite <- (assoc_L (++)), rune_space by done.
    destruct (snd (DecodeRune (bytes_of s))) eqn:E; [|done].
    rewrite <- (rune_space _ (drop (fst (DecodeRune (bytes_of s))) (bytes_of s))) by done.
    rewrite take_drop, map_ascii_bytes, <- Hs. apply trim_space_starts. }
  unfold trim_space, trim_bytes. fold l. rewrite trim_left_bytes_fixed by done.
  assert (Hrev : trim_rev_bytes (rev l) = rev l).
  { rewrite Hl, map_app, rev_app_distr. simpl. reflexivity. }
  rewrite Hrev, rev_involutive. apply string_of_list_ascii_of_string.
Qed.
