(* ===== verification/ShellParse.v ===== *)
(** * Shell text

    Models [agent-sdk/policy/presets/shell_parse.go]: the approximate parser
    that the command policy reads shell text with.  A text is cut into fields
    at white space and at command separators; a command starts at the first
    field of a segment after [env], [command], [sudo] and assignments; the text
    given to a shell with [-c] is a payload that is parsed again.

    [strings.ToLower] is an operation of the class [Lower]; its law says what it
    does on ASCII text. *)

From Stdlib Require Import ZArith Lia Ascii String.
From stdpp Require Import base list strings option.
From S2P Require Import Prelude GoStrings GoText.

Open Scope string_scope.

(** ** Case mapping *)

Class Lower : Type := { ToLower : string -> string }.

Definition lower_byte (a : ascii) : ascii :=
  let n := nat_of_ascii a in if ((65 <=? n) && (n <=? 90))%nat then ascii_of_nat (n + 32) else a.
Definition lower_ascii (s : string) : string := text (map lower_byte (bytes s)).
Definition is_ascii (s : string) : bool := forallb (fun a => (nat_of_ascii a <? 128)%nat) (bytes s).

Class LowerLaws {L : Lower} : Prop := { ToLower_ascii : forall s, is_ascii s = true -> ToLower s = lower_ascii s }.

(** ** Fields *)

Definition quotes : string := String "034" "'".

Definition trimShellToken (token : string) : string := Trim (trim_space token) quotes.

Definition separators : list string := [";"; "&&"; "||"; "|"; "&"].
Definition isShellCommandSeparator (token : string) : bool := one_of separators token.

Definition spaced (sep : string) : list ascii := (" "%char :: bytes sep ++ [" "%char])%list.

(** The [strings.Replacer] of [shellishFields]. *)
Fixpoint shell_replace (l : list ascii) : list ascii :=
  match l with
  | [] => []
  | a :: r =>
    if Ascii.eqb a "013" then
      match r with
      | b :: r2 => if Ascii.eqb b "010" then spaced ";" ++ shell_replace r2 else spaced ";" ++ shell_replace r
      | [] => spaced ";"
      end
    else if Ascii.eqb a "010" then spaced ";" ++ shell_replace r
    else if Ascii.eqb a "&" then
      match r with
      | b :: r2 => if Ascii.eqb b "&" then spaced "&&" ++ shell_replace r2 else spaced "&" ++ shell_replace r
      | [] => spaced "&"
      end
    else if Ascii.eqb a "|" then
      match r with
      | b :: r2 => if Ascii.eqb b "|" then spaced "||" ++ shell_replace r2 else spaced "|" ++ shell_replace r
      | [] => spaced "|"
      end
    else if Ascii.eqb a ";" then spaced ";" ++ shell_replace r
    else a :: shell_replace r
  end%list.

Definition nonempty (s : string) : bool := negb (s =? "").

Definition shellishFields (command : string) : list string :=
  List.filter nonempty (map trimShellToken (Fields (text (shell_replace (bytes command))))).

Section Shell.
Context {L : Lower}.

(** [filepath.Base] of a path without a separator is the path, or a dot for the empty one, which [pathBase] returns before. *)
Definition pathBase (path : string) : string :=
  let path := TrimRight path "/" in
  if path =? "" then "" else List.last (Split path "/") "".

Definition executableBase (token : string) : string :=
  let token := ToLower (trimShellToken token) in
  let token := replace_byte "\" "/" token in
  trim_space (pathBase (TrimSuffix (TrimSuffix token ".cmd") ".bat")).

Definition isEnvAssignment (token : string) : bool :=
  if (token =? "") || HasPrefix token "-" then false else
  match index_byte "=" token with Some (S _) => true | _ => false end.

(** ** [sudo] options *)

Fixpoint short_value (i : nat) (s : list ascii) : option nat :=
  match s with
  | [] => None
  | a :: r => if in_set "ughpcdrt" a then Some i else short_value (S i) r
  end.

Definition sudoShortValueOptionIndex (lower : string) : option nat :=
  if negb (HasPrefix lower "-") || HasPrefix lower "--" then None else short_value 1 (tail (bytes lower)).

Definition sudo_value_names : list string :=
  ["--user"; "--group"; "--host"; "--prompt"; "--close-from"; "--chdir"; "--role"; "--type"; "--login-class"; "--command-timeout"; "--other-user"].

Definition sudoOptionNeedsValue (token : string) : bool :=
  let lower := ToLower (trim_space token) in
  if (lower =? "") || (lower =? "-") then false else
  if HasPrefix lower "--" then
    let name := match index_byte "=" lower with Some i => String.substring 0 i lower | None => lower end in
    one_of sudo_value_names name
  else if negb (HasPrefix lower "-") then false
  else bool_decide (is_Some (sudoShortValueOptionIndex lower)).

Definition sudoOptionHasInlineValue (token : string) : bool :=
  let lower := ToLower (trim_space token) in
  if contains lower "=" then true else
  if HasPrefix lower "--" then false else
  match sudoShortValueOptionIndex lower with Some idx => (S idx <? String.length lower)%nat | None => false end.

(** The loop of [skipSudoPrefix], on the fields from index [i]. *)
Fixpoint skip_sudo (i : nat) (l : list string) : nat :=
  match l with
  | [] => i
  | f :: r =>
    let token := trimShellToken f in
    if token =? "" then skip_sudo (S i) r else
    if isShellCommandSeparator token then i else
    if token =? "--" then S i else
    if isEnvAssignment token then skip_sudo (S i) r else
    if negb (HasPrefix token "-") || (token =? "-") then i else
    if sudoOptionNeedsValue token && negb (sudoOptionHasInlineValue token)
    then match r with [] => S i | _ :: r2 => skip_sudo (S (S i)) r2 end
    else skip_sudo (S i) r
  end.

Definition skipSudoPrefix (fields : list string) (start : nat) : nat := skip_sudo start (drop start fields).

(** ** Where commands start *)

(** The loop of [commandStartIndexInSegment]; [None] is its [-1]. *)
Fixpoint segment_loop (fuel : nat) (fields : list string) (inEnv : bool) (i : nat) : option nat :=
  match fuel, fields !! i with
  | S fuel, Some f =>
    let token := trimShellToken f in
    if token =? "" then segment_loop fuel fields inEnv (S i) else
    if isShellCommandSeparator token then None else
    let base := executableBase token in
    if (base =? "env") || (base =? "command") then segment_loop fuel fields (base =? "env") (S i) else
    if base =? "sudo" then segment_loop fuel fields inEnv (skipSudoPrefix fields (S i)) else
    if isEnvAssignment token then segment_loop fuel fields inEnv (S i) else
    if inEnv && HasPrefix token "-" then segment_loop fuel fields inEnv (S i) else Some i
  | _, _ => None
  end.

Definition commandStartIndexInSegment (fields : list string) (start : nat) : option nat :=
  segment_loop (S (length fields)) fields false start.

(** [commandStartIndexes]: one pass over the fields; [inSegment] says that the segment of field [i] was looked at. *)
Fixpoint start_indexes (fields : list string) (inSegment : bool) (i : nat) (l : list string) : list nat :=
  match l with
  | [] => []
  | f :: r =>
    if isShellCommandSeparator (trimShellToken f) then start_indexes fields false (S i) r else
    if inSegment then start_indexes fields true (S i) r else
    (option_list (commandStartIndexInSegment fields i) ++ start_indexes fields true (S i) r)%list
  end.

Definition commandStartIndexes (fields : list string) : list nat := start_indexes fields false 0 fields.

(** ** Shell payloads *)

Definition shellOptionNeedsValue (token : string) : bool := one_of ["-o"; "--option"] (ToLower (trim_space token)).

Fixpoint posix_payload (i : nat) (l : list string) : option nat :=
  match l with
  | [] => None
  | f :: r =>
    let token := trimShellToken f in
    if token =? "" then posix_payload (S i) r else
    if isShellCommandSeparator token then None else
    if HasPrefix token "-" && negb (token =? "-") then
      if contains (TrimLeft (ToLower token) "-") "c" then Some (S i) else
      if shellOptionNeedsValue token then match r with [] => None | _ :: r2 => posix_payload (S (S i)) r2 end
      else posix_payload (S i) r
    else None
  end.

Fixpoint cmd_payload (i : nat) (l : list string) : option nat :=
  match l with
  | [] => None
  | f :: r =>
    let token := ToLower (trimShellToken f) in
    if token =? "" then cmd_payload (S i) r else
    if isShellCommandSeparator token then None else
    if (token =? "/c") || (token =? "-c") then Some (S i) else cmd_payload (S i) r
  end.

Definition powershellOptionNeedsValue (token : string) : bool :=
  one_of ["-executionpolicy"; "-encodedcommand"; "-ec"; "-configurationname"; "-workingdirectory"; "-inputformat"; "-outputformat"; "-windowstyle"] token.

Fixpoint powershell_payload (i : nat) (l : list string) : option nat :=
  match l with
  | [] => None
  | f :: r =>
    let token := ToLower (trimShellToken f) in
    if token =? "" then powershell_payload (S i) r else
    if isShellCommandSeparator token then None else
    if one_of ["-command"; "-c"; "/c"] token then Some (S i) else
    if one_of ["-file"; "-f"] token then None else
    if powershellOptionNeedsValue token then match r with [] => None | _ :: r2 => powershell_payload (S (S i)) r2 end
    else powershell_payload (S i) r
  end.

Definition posixShellPayloadStart (fields : list string) (start : nat) : option nat := posix_payload start (drop start fields).
Definition cmdPayloadStart (fields : list string) (start : nat) : option nat := cmd_payload start (drop start fields).
Definition powershellPayloadStart (fields : list string) (start : nat) : option nat := powershell_payload start (drop start fields).

Definition posix_shells : list string :=
  ["sh"; "sh.exe"; "bash"; "bash.exe"; "zsh"; "zsh.exe"; "dash"; "dash.exe"; "ksh"; "ksh.exe"; "fish"; "fish.exe"; "ash"; "ash.exe"].

Definition shellPayloadStart (fields : list string) (commandIndex : nat) : option nat :=
  match fields !! commandIndex with
  | None => None
  | Some f =>
    let base := executableBase f in
    if one_of posix_shells base then posixShellPayloadStart fields (S commandIndex) else
    if one_of ["cmd"; "cmd.exe"] base then cmdPayloadStart fields (S commandIndex) else
    if one_of ["powershell"; "powershell.exe"; "pwsh"; "pwsh.exe"] base then powershellPayloadStart fields (S commandIndex) else None
  end.

Definition payload_of (fields : list string) (command : string) (i : nat) : list string :=
  match shellPayloadStart fields i with
  | Some start =>
    if (start <? length fields)%nat then
      let payload := trim_space (Join (drop start fields) " ") in
      if nonempty payload && negb (payload =? trim_space command) then [payload] else []
    else []
  | None => []
  end.

Definition shellCommandPayloads (command : string) : list string :=
  let fields := shellishFields command in commandStartIndexes fields ≫= payload_of fields command.

(** ** Recursive deletes *)

Definition isRmCommand (token : string) : bool :=
  let token := trimShellToken token in
  if token =? "" then false else one_of ["rm"; "rm.exe"] (executableBase token).

(** The arguments of one [rm]: whether it recurses and forces, and its operands. *)
Fixpoint rm_args (recursive force dashes : bool) (operands : list string) (l : list string) : bool * bool * list string :=
  match l with
  | [] => (recursive, force, operands)
  | f :: r =>
    let token := trimShellToken f in
    if (token =? "") || isShellCommandSeparator token then (recursive, force, operands) else
    if negb dashes && (token =? "--") then rm_args recursive force true operands r else
    let lower := ToLower token in
    if negb dashes && HasPrefix token "-" && negb (token =? "-") then
      rm_args (recursive || contains_any "rR" token || contains lower "recursive")
              (force || contains lower "f" || contains lower "force") dashes operands r
    else rm_args recursive force dashes (operands ++ [token]) r
  end.

Definition rmTargets (command : string) (requireForce : bool) : list string :=
  let fields := shellishFields command in
  commandStartIndexes fields ≫= fun i =>
    if isRmCommand (fields !!! i) then
      let '(recursive, force, operands) := rm_args false false false [] (drop (S i) fields) in
      if recursive && (negb requireForce || force) then operands else []
    else [].

Definition recursiveRemoveTargets (command : string) : list string := rmTargets command false.

(** The fields are scanned up to the end of the segment. *)
Fixpoint segment_has (f : string -> bool) (fields : list string) : bool :=
  match fields with
  | [] => false
  | x :: r =>
    let token := ToLower (trimShellToken x) in
    if (token =? "") || isShellCommandSeparator token then false else f token || segment_has f r
  end.

Definition commandSegmentHasFlag (fields names : list string) : bool := segment_has (one_of (map ToLower names)) fields.

Definition commandSegmentHasSlashFlag (fields : list string) (flag : string) : bool :=
  let flag := ToLower (trim_space flag) in
  let flagName := TrimPrefix flag "/" in
  segment_has (fun token => (token =? flag) || (HasPrefix token "/" && one_of (Split (TrimLeft token "/") "/") flagName)) fields.

Definition isRecursiveWindowsDelete (command : string) (args : list string) : bool :=
  let base := executableBase command in
  if one_of ["remove-item"; "remove-item.exe"; "ri"; "ri.exe"] base then commandSegmentHasFlag args ["-recurse"; "-recursive"] else
  if one_of ["del"; "erase"; "rd"; "rmdir"] base
  then commandSegmentHasFlag args ["-recurse"; "-recursive"] || commandSegmentHasSlashFlag args "/s" else
  if one_of ["del.exe"; "erase.exe"; "rd.exe"; "rmdir.exe"] base then commandSegmentHasSlashFlag args "/s" else false.

Definition commandContainsRecursiveDelete (command : string) : bool :=
  negb (bool_decide (recursiveRemoveTargets command = []))
  || (let fields := shellishFields command in
      existsb (fun i => isRecursiveWindowsDelete (fields !!! i) (drop (S i) fields)) (commandStartIndexes fields)).
End Shell.
