(* ===== verification/ShellFacts.v ===== *)
(** * Facts about shell fields

    The fields of a shell text are tokens ([shell_token]): words without white
    space, outer quotes or separator characters, or separators.  Joining tokens
    with spaces and parsing again gives the same tokens, so a payload is parsed
    to exactly the fields it was cut from; and a payload holds strictly fewer
    solid bytes than its command, which bounds the depth of nested shells. *)

From Stdlib Require Import ZArith Lia Ascii String Wf_nat.
From stdpp Require Import base list strings option sets.
From S2P Require Import Prelude GoStrings GoText ShellParse.

Open Scope string_scope.

Definition special (a : ascii) : bool := in_set ";|&" a || Ascii.eqb a "010" || Ascii.eqb a "013".
Definition plain (l : list ascii) : Prop := Forall (fun a => special a = false) l.
Definition no_blank (l : list ascii) : Prop := Forall (fun a => a <> " "%char) l.

Definition shell_token (w : string) : Prop :=
  a_word w /\ Trim w quotes = w /\ (plain (bytes w) \/ w ∈ separators).

(** ** Replacement *)

(** The shape of [shell_replace] at one special byte. *)
Lemma replace_step a r :
  (special a = false /\ shell_replace (a :: r) = a :: shell_replace r)
  \/ exists sep r', sep ∈ separators /\ shell_replace (a :: r) = (spaced sep ++ shell_replace r')%list /\ r' `suffix_of` r.
Proof.
  assert (Hr : r `suffix_of` r) by done.
  assert (Hone : forall sep, sep ∈ separators -> shell_replace (a :: r) = (spaced sep ++ shell_replace r)%list ->
    exists sep r', sep ∈ separators /\ shell_replace (a :: r) = (spaced sep ++ shell_replace r')%list /\ r' `suffix_of` r).
  { intros sep Hs H. by exists sep, r. }
  assert (Htwo : forall sep b r2, r = b :: r2 -> sep ∈ separators -> shell_replace (a :: r) = (spaced sep ++ shell_replace r2)%list ->
    exists sep r', sep ∈ separators /\ shell_replace (a :: r) = (spaced sep ++ shell_replace r')%list /\ r' `suffix_of` r).
  { intros sep b r2 -> Hs H. exists sep, r2. split; [done|]. split; [done|]. by exists [b]. }
  cbn [shell_replace] in *. unfold special. cbn [in_set existsb list_ascii_of_string]. unfold separators in *.
  destruct (Ascii.eqb_spec a "013") as [->|H13].
  { right. destruct r as [|b r2]; [eapply Hone; [|by rewrite app_nil_r]; set_solver|].
    destruct (Ascii.eqb b "010"); [eapply Htwo; [done| |done]; set_solver|eapply Hone; [|done]; set_solver]. }
  destruct (Ascii.eqb_spec a "010") as [->|H10]; [right; eapply Hone; [|done]; set_solver|].
  destruct (Ascii.eqb_spec a "&") as [->|Hamp].
  { right. destruct r as [|b r2]; [eapply Hone; [|by rewrite app_nil_r]; set_solver|].
    destruct (Ascii.eqb b "&"); [eapply Htwo; [done| |done]; set_solver|eapply Hone; [|done]; set_solver]. }
  destruct (Ascii.eqb_spec a "|") as [->|Hbar].
  { right. destruct r as [|b r2]; [eapply Hone; [|by rewrite app_nil_r]; set_solver|].
    destruct (Ascii.eqb b "|"); [eapply Htwo; [done| |done]; set_solver|eapply Hone; [|done]; set_solver]. }
  destruct (Ascii.eqb_spec a ";") as [->|Hsemi]; [right; eapply Hone; [|done]; set_solver|].
  left. done.
Qed.

Lemma separator_solid sep : sep ∈ separators -> (1 <= solid sep <= 2)%nat /\ (solid sep = 2 -> sep = "&&" \/ sep = "||")%nat.
Proof. unfold separators. rewrite !elem_of_cons, elem_of_nil. intros [->|[->|[->|[->|[->|[]]]]]]; vm_compute; intuition (auto; try lia; discriminate). Qed.

Lemma part_split w u v : no_blank w -> part w (u ++ " "%char :: v) -> part w u \/ part w v.
Proof.
  intros Hw (x&y&H). revert x H. induction u as [|a u IH]; intros x H; simpl in H.
  - right. destruct x as [|b x]; simpl in H; [|injection H as _ ->; by exists x, y].
    destruct w as [|b w]; [exists [], v; done|]. injection H as <- _. by apply Forall_cons in Hw as [[] _].
  - destruct x as [|b x]; simpl in H; [|injection H as -> H; apply IH in H as [(p&q&->)|H]; [left; by exists (b :: p), q|by right]].
    left. exists []. simpl. clear IH. change (a :: (u ++ " "%char :: v)%list) with ((a :: u) ++ " "%char :: v)%list in H.
    revert H. generalize (a :: u). intros k H. revert k H. induction Hw as [|b w Hb Hw IHw]; intros k H; [by exists k|].
    destruct k as [|c k]; simpl in H; [injection H as <- _; done|]. injection H as -> H.
    destruct (IHw k H) as [z ->]. by exists z.
Qed.

Lemma plain_prefix w l z : no_blank w -> shell_replace l = (w ++ z)%list -> plain w.
Proof.
  revert l. induction w as [|a w IH]; intros l Hw H; [constructor|]. apply Forall_cons in Hw as [Ha Hw].
  destruct l as [|b r]; [done|]. destruct (replace_step b r) as [[Hb E]|(sep&r'&_&E&_)]; rewrite E in H; injection H as Hab H; [|done].
  subst b. constructor; [done|]. by apply (IH r).
Qed.

(** A word cut out of a replaced text is plain or a separator. *)
Lemma replaced_word w l : no_blank w -> part w (shell_replace l) -> w <> [] -> plain w \/ text w ∈ separators.
Proof.
  intros Hw. induction l as [l IH] using (induction_ltof1 _ (@length ascii)). unfold ltof in IH. intros Hp Hne.
  destruct l as [|a r]; [destruct Hp as (x&y&H); symmetry in H; apply app_eq_nil in H as [_ [-> _]%app_eq_nil]; done|].
  destruct (replace_step a r) as [[Ha E]|(sep&r'&Hsep&E&[z Hz])].
  - rewrite E in Hp. destruct Hp as (x&y&H). destruct x as [|b x].
    + left. apply (plain_prefix w (a :: r) y); [done|]. by rewrite E.
    + injection H as _ H. apply (IH r); [simpl; lia| |done]. by exists x, y.
  - rewrite E in Hp. unfold spaced in Hp. cbn [app] in Hp. rewrite <- app_assoc in Hp. cbn [app] in Hp.
    apply (part_split w []) in Hp as [Hp|Hp]; [destruct Hp as (x&y&H); symmetry in H; apply app_eq_nil in H as [_ [-> _]%app_eq_nil]; done| |done].
    apply part_split in Hp as [Hp|Hp]; [|apply (IH r'); [subst r; simpl; rewrite length_app; lia|done|done]|done].
    right. clear -Hp Hsep Hne. destruct Hp as (x&y&H). unfold separators in *. rewrite !elem_of_cons, elem_of_nil in Hsep.
    destruct Hsep as [->|[->|[->|[->|[->|[]]]]]]; cbn in H;
      destruct x as [|? [|? [|? x]]]; destruct w as [|? [|? [|? w]]]; simpl in H; try done; injection H; intros; subst; set_solver.
Qed.

(** ** Fields are tokens *)

Lemma trimShellToken_word w : spaceless (bytes w) = true -> trimShellToken w = Trim w quotes.
Proof. intros H. unfold trimShellToken. by rewrite trim_space_word. Qed.

Lemma trimShellToken_part w : part (bytes (trimShellToken w)) (bytes w).
Proof. eapply part_trans; [apply Trim_part|apply trim_space_part]. Qed.

Lemma token_trim w : shell_token w -> trimShellToken w = w.
Proof. intros [[_ Hw] [Ht _]]. by rewrite trimShellToken_word. Qed.

Lemma nonempty_spec s : nonempty s = true <-> s <> "".
Proof. unfold nonempty. rewrite negb_true_iff. apply String.eqb_neq. Qed.

Lemma shellish_elem c w : w ∈ shellishFields c -> exists f, f ∈ Fields (text (shell_replace (bytes c))) /\ w = trimShellToken f /\ w <> "".
Proof.
  unfold shellishFields. rewrite list_elem_of_In, filter_In, <- list_elem_of_In, nonempty_spec. intros [(f&->&Hf)%list_elem_of_fmap Hne]. eauto.
Qed.

Lemma shellish_tokens c : Forall shell_token (shellishFields c).
Proof.
  apply Forall_forall. intros w (f&Hf&Hw&Hne)%shellish_elem.
  pose proof (proj1 (Forall_forall _ _) (Fields_words _) f Hf) as [_ Hs]. apply Fields_part in Hf. rewrite bytes_text in Hf.
  assert (Hp : part (bytes w) (bytes f)) by (subst w; apply trimShellToken_part).
  assert (Hw1 : spaceless (bytes w) = true) by (by eapply spaceless_part).
  split; [done|]. split; [rewrite Hw, trimShellToken_word by done; apply Trim_idem|].
  destruct (replaced_word (bytes w) (bytes c)) as [H|H]; [by apply spaceless_no_blank|by eapply part_trans| |by left|].
  - intros H. apply Hne. by rewrite <- (text_bytes w), H.
  - right. by rewrite text_bytes in H.
Qed.

(** ** Parsing joined tokens *)

Lemma replace_plain w l : plain w -> shell_replace (w ++ l)%list = (w ++ shell_replace l)%list.
Proof.
  induction 1 as [|a w Ha Hw IH]; [done|]. cbn [app]. destruct (replace_step a (w ++ l)) as [[_ ->]|(sep&r&_&E&_)]; [by rewrite IH|].
  unfold special in Ha. cbn [in_set existsb list_ascii_of_string] in Ha. rewrite !orb_false_iff in Ha. destruct Ha as [[(Hs&Hb&Ha&_) H10] H13].
  cbn [shell_replace]. rewrite H13, H10, Ha, Hb, Hs, IH. done.
Qed.

Lemma replace_separator sep l : sep ∈ separators -> ends_word l -> shell_replace (bytes sep ++ l)%list = (spaced sep ++ shell_replace l)%list.
Proof.
  unfold separators. rewrite !elem_of_cons, elem_of_nil. intros Hs Hl.
  destruct Hs as [->|[->|[->|[->|[->|[]]]]]]; destruct Hl as [->|[r ->]]; reflexivity.
Qed.

Lemma spaceless_separator sep : sep ∈ separators -> spaceless (bytes sep) = true.
Proof. unfold separators. rewrite !elem_of_cons, elem_of_nil. intros [->|[->|[->|[->|[->|[]]]]]]; reflexivity. Qed.

Lemma replace_ends l : ends_word l -> ends_word (shell_replace l).
Proof. intros [->|[r ->]]; [by left|right]. by exists (shell_replace r). Qed.

Lemma flush_token w : shell_token w -> flush (bytes w) = [w].
Proof. intros [[Hne _] _]. destruct w as [|a w]; [done|]. change ([text (bytes (String a w))] = [String a w]). by rewrite text_bytes. Qed.

Lemma fields_token w l : shell_token w -> ends_word l ->
  fields_loop [] (shell_replace (bytes w ++ l)) = (w :: fields_loop [] (shell_replace l))%list.
Proof.
  intros Hw Hl. pose proof (replace_ends l Hl) as He. pose proof (flush_token w Hw) as Hf. destruct Hw as [[Hne Hs] [_ [Hp|Hp]]].
  - rewrite replace_plain, (fields_word [] (bytes w)) by done. cbn [app].
    destruct He as [->|[r ->]]; [exact Hf|]. by rewrite fields_space, Hf.
  - rewrite replace_separator by done. unfold spaced. cbn [app]. rewrite fields_space. cbn [flush app]. rewrite <- app_assoc.
    rewrite (fields_word [] (bytes w)); [|done|right; by eexists]. cbn [app]. rewrite fields_space, Hf. cbn [app].
    destruct He as [->|[r ->]]; done.
Qed.

Lemma fields_join_tokens ws : Forall shell_token ws -> fields_loop [] (shell_replace (bytes (Join ws " "))) = ws.
Proof.
  induction 1 as [|w ws Hw Hws IH]; [done|]. destruct ws as [|v ws].
  - change (Join [w] " ") with w. rewrite <- (app_nil_r (bytes w)), fields_token by (done || by left). done.
  - change (Join (w :: v :: ws) " ") with (w ++ " " ++ Join (v :: ws) " "). rewrite !bytes_app.
    rewrite fields_token; [|done|right; by eexists]. f_equal.
    etrans; [|exact IH]. done.
Qed.

(** The approximate shell parser is stable: the fields of any text, joined by single spaces, are parsed to the
    same fields again.  So the text of a shell payload, which is built by joining fields, is read as exactly the
    fields behind [-c]. *)
Lemma shellish_fields_stable (command : string) (n : nat) :
  shellishFields (Join (drop n (shellishFields command)) " ") = drop n (shellishFields command).
Proof.
  assert (Hd : Forall shell_token (drop n (shellishFields command))) by apply Forall_drop, shellish_tokens.
  unfold shellishFields at 1, Fields. rewrite bytes_text, fields_join_tokens by done.
  induction Hd as [|w ws Hw Hws IH]; [done|]. simpl. rewrite token_trim by done.
  rewrite (proj2 (nonempty_spec w)) by apply Hw. by rewrite IH.
Qed.

(** ** Payloads *)

Lemma token_solid w : shell_token w -> (1 <= solid w)%nat.
Proof.
  intros [[Hne Hs] _]. apply spaceless_no_blank in Hs. destruct w as [|a w]; [done|]. unfold solid. cbn [list_ascii_of_string] in *.
  apply Forall_cons in Hs as [Ha _]. rewrite solid_bytes_cons. destruct (Ascii.eqb_spec a " "); [done|lia].
Qed.

Lemma replace_solid l : (solid_bytes (shell_replace l) <= solid_bytes l)%nat.
Proof.
  induction l as [l IH] using (induction_ltof1 _ (@length ascii)). unfold ltof in IH. destruct l as [|a r]; [done|].
  assert (Hone : forall k, solid_bytes (spaced ";" ++ k) = S (solid_bytes k) /\ solid_bytes (spaced "&" ++ k) = S (solid_bytes k)
    /\ solid_bytes (spaced "|" ++ k) = S (solid_bytes k) /\ solid_bytes (spaced "&&" ++ k) = S (S (solid_bytes k))
    /\ solid_bytes (spaced "||" ++ k) = S (S (solid_bytes k))) by (intros k; split_and!; reflexivity).
  assert (IH1 : (solid_bytes (shell_replace r) <= solid_bytes r)%nat) by (apply IH; simpl; lia).
  assert (IH2 : forall b r2, r = b :: r2 -> (solid_bytes (shell_replace r2) <= solid_bytes r2)%nat) by (intros b r2 ->; apply IH; simpl; lia).
  rewrite solid_bytes_cons. cbn [shell_replace].
  destruct (Ascii.eqb_spec a "013") as [->|_]; [|destruct (Ascii.eqb_spec a "010") as [->|_]; [rewrite (proj1 (Hone _)); change (if Ascii.eqb "010" " " then 0%nat else 1%nat) with 1%nat; lia|]].
  { destruct r as [|b r2]; [vm_compute; lia|]. specialize (IH2 b r2 eq_refl). destruct (Ascii.eqb b "010"); rewrite (proj1 (Hone _)).
    - rewrite solid_bytes_cons. change (if Ascii.eqb "013" " " then 0%nat else 1%nat) with 1%nat. lia.
    - change (if Ascii.eqb "013" " " then 0%nat else 1%nat) with 1%nat. lia. }
  destruct (Ascii.eqb_spec a "&") as [->|_]; [|destruct (Ascii.eqb_spec a "|") as [->|_]].
  - change (if Ascii.eqb "&" " " then 0%nat else 1%nat) with 1%nat. destruct r as [|b r2]; [done|]. specialize (IH2 b r2 eq_refl).
    destruct (Ascii.eqb_spec b "&") as [->|_]; [rewrite solid_bytes_cons; change (if Ascii.eqb "&" " " then 0%nat else 1%nat) with 1%nat|];
      destruct (Hone (shell_replace r2)) as (_&_&_&->&_) || destruct (Hone (shell_replace (b :: r2))) as (_&->&_); lia.
  - change (if Ascii.eqb "|" " " then 0%nat else 1%nat) with 1%nat. destruct r as [|b r2]; [done|]. specialize (IH2 b r2 eq_refl).
    destruct (Ascii.eqb_spec b "|") as [->|_]; [rewrite solid_bytes_cons; change (if Ascii.eqb "|" " " then 0%nat else 1%nat) with 1%nat|];
      destruct (Hone (shell_replace r2)) as (_&_&_&_&->) || destruct (Hone (shell_replace (b :: r2))) as (_&_&->&_); lia.
  - destruct (Ascii.eqb_spec a ";") as [->|_]; [rewrite (proj1 (Hone _)); change (if Ascii.eqb ";" " " then 0%nat else 1%nat) with 1%nat; lia|]. rewrite solid_bytes_cons. lia.
Qed.

Lemma solids_trimmed l : (solids (List.filter nonempty (map trimShellToken l)) <= solids l)%nat.
Proof.
  induction l as [|w l IH]; [done|]. simpl. pose proof (part_solid _ _ (trimShellToken_part w)) as Hw. rewrite solids_cons.
  destruct (nonempty (trimShellToken w)); [rewrite solids_cons; unfold solid in *; lia|lia].
Qed.

Lemma shellish_solid c : (solids (shellishFields c) <= solid c)%nat.
Proof.
  unfold shellishFields. etrans; [apply solids_trimmed|]. etrans; [apply Fields_solid|]. rewrite solid_text. apply replace_solid.
Qed.

Section Facts.
Context {L : Lower}.

Lemma segment_start_elem fuel fields inEnv i j : segment_loop fuel fields inEnv i = Some j -> is_Some (fields !! j).
Proof.
  revert inEnv i. induction fuel as [|fuel IH]; intros inEnv i; cbn [segment_loop]; [done|].
  destruct (fields !! i) eqn:Hi; [|done]. repeat case_match; try (by apply IH); try done. intros [= <-]. by rewrite Hi.
Qed.

Lemma start_indexes_elem fields l j : forall b i, j ∈ start_indexes fields b i l -> is_Some (fields !! j).
Proof.
  induction l as [|f r IH]; intros b i; cbn [start_indexes]; [by intros ?%elem_of_nil|].
  repeat case_match; try apply IH. intros [Hj|Hj]%elem_of_app; [|by eapply IH].
  destruct (commandStartIndexInSegment fields i) eqn:E; simpl in Hj; [|by apply elem_of_nil in Hj].
  apply list_elem_of_singleton in Hj as ->. by eapply segment_start_elem.
Qed.

Lemma start_index_elem fields j : j ∈ commandStartIndexes fields -> is_Some (fields !! j).
Proof. apply start_indexes_elem. Qed.

Lemma posix_payload_gt l : forall i j, posix_payload i l = Some j -> (i < j)%nat.
Proof.
  induction l as [l IH] using (induction_ltof1 _ (@length string)). unfold ltof in IH. intros i j.
  destruct l as [|f r]; cbn [posix_payload]; [done|]. repeat case_match; try done; intros Hj;
    first [injection Hj as <-; lia|apply IH in Hj; [lia|subst; simpl; lia]].
Qed.

Lemma cmd_payload_gt l : forall i j, cmd_payload i l = Some j -> (i < j)%nat.
Proof.
  induction l as [|f r IH]; intros i j; cbn [cmd_payload]; [done|].
  repeat case_match; try done; intros Hj; first [injection Hj as <-; lia|apply IH in Hj; lia].
Qed.

Lemma powershell_payload_gt l : forall i j, powershell_payload i l = Some j -> (i < j)%nat.
Proof.
  induction l as [l IH] using (induction_ltof1 _ (@length string)). unfold ltof in IH. intros i j.
  destruct l as [|f r]; cbn [powershell_payload]; [done|]. repeat case_match; try done; intros Hj;
    first [injection Hj as <-; lia|apply IH in Hj; [lia|subst; simpl; lia]].
Qed.

Lemma payload_start_gt fields i start : shellPayloadStart fields i = Some start -> (S i < start)%nat.
Proof.
  unfold shellPayloadStart, posixShellPayloadStart, cmdPayloadStart, powershellPayloadStart.
  repeat case_match; try done; [apply posix_payload_gt|apply cmd_payload_gt|apply powershell_payload_gt].
Qed.

(** A payload is the joined fields behind its shell; it parses to them and is smaller than the command. *)
Lemma payload_facts c p : p ∈ shellCommandPayloads c -> exists start,
  p = Join (drop start (shellishFields c)) " " /\ shellishFields p = drop start (shellishFields c) /\ (solid p < solid c)%nat.
Proof.
  unfold shellCommandPayloads. set (fs := shellishFields c). intros (i&Hp&Hi)%list_elem_of_bind. apply start_index_elem in Hi as [f Hf].
  unfold payload_of in Hp. destruct (shellPayloadStart fs i) as [start|] eqn:Hs; [|by apply elem_of_nil in Hp].
  apply payload_start_gt in Hs. destruct (Nat.ltb_spec start (length fs)) as [Hlt|]; [|by apply elem_of_nil in Hp].
  assert (Htok : Forall shell_token (drop start fs)) by apply Forall_drop, shellish_tokens.
  rewrite trim_space_joined in Hp; [| |eapply Forall_impl; [exact Htok|by intros ? []]].
  2:{ intros H%(f_equal length). rewrite length_drop in H. simpl in H. lia. }
  cbv zeta in Hp. destruct (_ && _); [|by apply elem_of_nil in Hp]. apply list_elem_of_singleton in Hp as ->.
  exists start. split; [done|]. split; [apply shellish_fields_stable|]. rewrite solid_join.
  pose proof (solids_lookup fs i f Hf) as H1. pose proof (shellish_solid c) as H2. fold fs in H2.
  assert (H3 : (1 <= solid f)%nat) by (eapply token_solid, (proj1 (Forall_forall _ _) (shellish_tokens c)), list_elem_of_lookup_2, Hf).
  assert (H4 : (solids (drop start fs) <= solids (drop (S i) fs))%nat).
  { replace start with (S i + (start - S i))%nat by lia. rewrite <- drop_drop. apply solids_drop. }
  lia.
Qed.
End Facts.
