(* ===== verification/ShellScript.v ===== *)
(** * Scripts, and how their text is read

    A grammar of shell scripts that says which programs run without a parser:
    commands with assignments and launchers before them, joined by operators,
    and scripts given to a shell in quotes, to any depth.  [print] writes a
    script down; [shellish_print] shows that the parser of [ShellParse] finds
    its words, and [flat_walk] that it finds its commands.  The completeness
    of the classifiers is stated on these scripts. *)

From Stdlib Require Import ZArith Lia Ascii String Wf_nat.
From stdpp Require Import base list strings option sets.
From S2P Require Import Prelude GoStrings GoText ShellParse ShellFacts.

Open Scope string_scope.

(** ** Words *)

(** Words without quotes, operators or white space. *)
Definition simple_byte (a : ascii) : bool :=
  let n := nat_of_ascii a in (33 <=? n)%nat && (n <=? 126)%nat && negb (existsb (Ascii.eqb a) (bytes "\`'|&;(){}#<>" ++ ["034"%char])).
Definition simple_bytes (l : list ascii) : Prop := Forall (fun a => simple_byte a = true) l.
Definition simple_word (w : string) : Prop := w <> "" /\ simple_bytes (bytes w).

(** The name of a program: its last path component, in lower case. *)
Definition program_name (w : string) : string := List.last (Split (lower_ascii w) "/") "".

Definition identifier_byte (a : ascii) : bool :=
  let n := nat_of_ascii a in
  ((48 <=? n) && (n <=? 57) || (65 <=? n) && (n <=? 90) || (97 <=? n) && (n <=? 122) || (n =? 95))%nat.

(** [NAME=value]. *)
Definition assignment (w : string) : Prop :=
  exists name value, w = name ++ "=" ++ value /\ name <> "" /\ Forall (fun a => identifier_byte a = true) (bytes name) /\ simple_bytes (bytes value).

(** A word that names a program. *)
Definition program_word (w : string) : Prop :=
  simple_word w /\ index_byte "=" w = None /\ HasPrefix w "-" = false /\ program_name w <> ""
  /\ HasSuffix (lower_ascii w) ".cmd" = false /\ HasSuffix (lower_ascii w) ".bat" = false.

Definition launchers : list string := ["env"; "command"; "sudo"].

(** What may stand before a program. *)
Definition launch_word (w : string) : Prop := assignment w \/ program_word w /\ program_name w ∈ launchers.

(** ** Simple words *)

(** Deciding what a word is. *)
Lemma simple_word_dec w : nonempty w && forallb simple_byte (bytes w) = true -> simple_word w.
Proof.
  rewrite andb_true_iff, forallb_forall. intros [Hn Hw]. split; [by apply nonempty_spec|]. apply Forall_forall. intros a Ha. apply Hw. by apply list_elem_of_In.
Qed.

Lemma program_word_dec w : nonempty w && forallb simple_byte (bytes w) && bool_decide (index_byte "=" w = None) && negb (HasPrefix w "-")
  && nonempty (program_name w) && negb (HasSuffix (lower_ascii w) ".cmd") && negb (HasSuffix (lower_ascii w) ".bat") = true -> program_word w.
Proof.
  rewrite !andb_true_iff, !negb_true_iff, bool_decide_eq_true. intros ((((((Hn&Hw)&Hi)&Hd)&Hp)&Hc)&Hb). split; [apply simple_word_dec; by rewrite Hn, Hw|].
  split_and!; try done. by apply nonempty_spec.
Qed.

Lemma assignment_dec name value : nonempty name && forallb identifier_byte (bytes name) && forallb simple_byte (bytes value) = true -> assignment (name ++ "=" ++ value).
Proof.
  rewrite !andb_true_iff, !forallb_forall. intros ((Hn&Hi)&Hv). exists name, value. split; [done|]. split; [by apply nonempty_spec|].
  split; apply Forall_forall; intros a Ha%list_elem_of_In; auto.
Qed.

Lemma ascii_cases (P : ascii -> Prop) : (forall n, (n < 256)%nat -> P (ascii_of_nat n)) -> forall a, P a.
Proof. intros H a. rewrite <- (ascii_nat_embedding a). apply H, nat_ascii_bounded. Qed.

Lemma simple_range a : simple_byte a = true -> (33 <= nat_of_ascii a <= 126)%nat.
Proof. unfold simple_byte. cbv zeta. rewrite !andb_true_iff, !Nat.leb_le. intuition. Qed.

Lemma simple_lower a : simple_byte a = true -> simple_byte (lower_byte a) = true /\ Ascii.eqb (lower_byte a) "\" = false.
Proof. destruct a as [[] [] [] [] [] [] [] []]; vm_compute; auto. Qed.

Lemma not_in_simple a l : simple_byte a = false -> simple_bytes l -> a ∉ l.
Proof. intros Ha Hl Hin. by rewrite (proj1 (Forall_forall _ _) Hl a Hin) in Ha. Qed.

Lemma simple_spaceless l : simple_bytes l -> spaceless l = true.
Proof.
  induction 1 as [|a l Ha Hl IH]; [done|]. cbn [spaceless]. rewrite IH, andb_true_r, negb_true_iff.
  assert (H : ws1 a = false /\ (forall b, ws2 a b = false) /\ (forall b c, ws3 a b c = false)).
  { apply simple_range in Ha. clear -Ha. rewrite <- (ascii_nat_embedding a). revert Ha. generalize (nat_of_ascii a). intros n [H1 H2].
    do 127 (destruct n as [|n]; [try lia; split_and!; reflexivity|]). lia. }
  destruct H as (H1&H2&H3). destruct l as [|b [|c l]]; cbn; by rewrite ?H1, ?H2, ?H3.
Qed.

Lemma simple_special a : simple_byte a = true -> special a = false.
Proof. destruct a as [[] [] [] [] [] [] [] []]; vm_compute; auto. Qed.

Lemma simple_plain l : simple_bytes l -> plain l.
Proof. intros H. eapply Forall_impl; [exact H|]. intros a. apply simple_special. Qed.

Lemma simple_quote a : simple_byte a = true -> in_set quotes a = false.
Proof. destruct a as [[] [] [] [] [] [] [] []]; vm_compute; auto. Qed.

Lemma drop_simple l k : simple_bytes l -> l <> [] -> drop_while (in_set quotes) (l ++ k) = (l ++ k)%list.
Proof. intros Hl Hne. destruct Hl as [|a l Ha _]; [done|]. cbn [app drop_while]. by rewrite simple_quote. Qed.

Definition quote_byte (a : ascii) : Prop := a = "'"%char \/ a = "034"%char.

Lemma drop_quotes q k : Forall quote_byte q -> drop_while (in_set quotes) (q ++ k) = drop_while (in_set quotes) k.
Proof. induction 1 as [|a q [-> | ->] _ IH]; [done|exact IH|exact IH]. Qed.

Lemma quoted_spaceless q l r : Forall quote_byte q -> simple_bytes l -> Forall quote_byte r -> spaceless (q ++ l ++ r) = true.
Proof.
  intros Hq Hl Hr. assert (H : Forall (fun a => ws1 a = false /\ (forall b, ws2 a b = false) /\ (forall b c, ws3 a b c = false)) (q ++ l ++ r)).
  { assert (Hquote : forall a, quote_byte a -> ws1 a = false /\ (forall b, ws2 a b = false) /\ (forall b c, ws3 a b c = false)) by (intros a [-> | ->]; split_and!; reflexivity).
    rewrite !Forall_app. split_and!; [eapply Forall_impl; [exact Hq|done]| |eapply Forall_impl; [exact Hr|done]].
    eapply Forall_impl; [exact Hl|]. intros a Ha%simple_range. clear -Ha. rewrite <- (ascii_nat_embedding a). revert Ha. generalize (nat_of_ascii a). intros n [H1 H2].
    do 127 (destruct n as [|n]; [try lia; split_and!; reflexivity|]). lia. }
  induction H as [|a k (H1&H2&H3) _ IH]; [done|]. cbn [spaceless]. rewrite IH, andb_true_r, negb_true_iff.
  destruct k as [|b [|c k]]; cbn; by rewrite ?H1, ?H2, ?H3.
Qed.

(** Quotes around a simple word are trimmed. *)
Lemma trim_quoted q w r : Forall quote_byte q -> simple_word w -> Forall quote_byte r -> trimShellToken (text (q ++ bytes w ++ r)) = w.
Proof.
  intros Hq [Hne Hw] Hr. rewrite trimShellToken_word by (rewrite bytes_text; by apply quoted_spaceless).
  assert (Hn : bytes w <> []) by (intros E; apply Hne; by rewrite <- (text_bytes w), E).
  unfold Trim, TrimLeft, TrimRight. rewrite !bytes_text, drop_quotes, drop_simple by done. rewrite rev_app_distr, drop_quotes by by apply Forall_rev.
  rewrite <- (app_nil_r (rev (bytes w))), drop_simple, app_nil_r, rev_involutive, text_bytes; [done|by apply Forall_rev|].
  intros E. apply Hn. by rewrite <- (rev_involutive (bytes w)), E.
Qed.

Lemma simple_trim w : simple_word w -> trimShellToken w = w.
Proof. intros Hw. pose proof (trim_quoted [] w [] ltac:(done) Hw ltac:(done)) as H. cbn [app] in H. by rewrite app_nil_r, text_bytes in H. Qed.

Lemma simple_separator w : simple_word w -> isShellCommandSeparator w = false.
Proof.
  intros [_ Hw]. unfold isShellCommandSeparator, one_of, separators. apply bool_decide_eq_false.
  rewrite !elem_of_cons, elem_of_nil. intros [->|[->|[->|[->|[->|[]]]]]]; apply Forall_cons in Hw as [Hw _]; done.
Qed.

Lemma simple_nonempty w : simple_word w -> (w =? "") = false.
Proof. intros [Hw _]. by apply String.eqb_neq. Qed.

Lemma existsb_elem {A} (f : A -> bool) l : existsb f l = true <-> exists x, x ∈ l /\ f x = true.
Proof. rewrite existsb_exists. split; intros (x&Hx&Hf); exists x; (split; [by apply list_elem_of_In|done]). Qed.

(** ** Program names *)

Lemma simple_ascii w : simple_bytes (bytes w) -> is_ascii w = true.
Proof.
  intros Hw. unfold is_ascii. apply forallb_forall. intros a Ha%list_elem_of_In. apply Nat.ltb_lt.
  pose proof (simple_range a (proj1 (Forall_forall _ _) Hw a Ha)). lia.
Qed.

Lemma lower_bytes w : bytes (lower_ascii w) = map lower_byte (bytes w).
Proof. apply bytes_text. Qed.

Lemma lower_simple w : simple_bytes (bytes w) -> simple_bytes (bytes (lower_ascii w)).
Proof. intros Hw. rewrite lower_bytes. apply Forall_map. eapply Forall_impl; [exact Hw|]. intros a Ha. by apply simple_lower. Qed.

Lemma split_nonempty c l : forall word, split_byte c word l <> [].
Proof. induction l as [|a l IH]; intros word; cbn [split_byte]; [done|]. destruct (Ascii.eqb a c); [done|apply IH]. Qed.

Lemma split_last_cons c word a l : List.last (split_byte c word (a :: l)) "" =
  if Ascii.eqb a c then List.last (split_byte c [] l) "" else List.last (split_byte c (word ++ [a]) l) "".
Proof. cbn [split_byte]. destruct (Ascii.eqb a c); [|done]. destruct (split_byte c [] l) eqn:E; [by destruct (split_nonempty c l [])|done]. Qed.

Lemma split_simple c l : simple_bytes l -> forall word, simple_bytes word -> simple_bytes (bytes (List.last (split_byte c word l) "")).
Proof.
  intros Hl. induction Hl as [|a l Ha Hl IH]; intros word Hw; [cbn [split_byte List.last]; by rewrite bytes_text|].
  rewrite split_last_cons. destruct (Ascii.eqb a c); apply IH; [constructor|]. apply Forall_app. by repeat constructor.
Qed.

Lemma split_last_slash l : forall word, List.last (split_byte "/" word (l ++ ["/"%char])) "" = "".
Proof.
  induction l as [|a l IH]; intros word; [done|]. cbn [app]. rewrite split_last_cons. destruct (Ascii.eqb a "/"); apply IH.
Qed.

(** A text that does not end in a slash keeps its end. *)
Lemma trim_slash s : List.last (Split s "/") "" <> "" -> TrimRight s "/" = s.
Proof.
  intros Hs. unfold TrimRight. assert (H : drop_while (in_set "/") (rev (bytes s)) = rev (bytes s)).
  { destruct (rev (bytes s)) as [|a l] eqn:E; [done|]. cbn [drop_while]. destruct (in_set "/" a) eqn:Ha; [|done]. exfalso. apply Hs.
    unfold in_set in Ha. cbn [existsb list_ascii_of_string] in Ha. rewrite orb_false_r in Ha. apply Ascii.eqb_eq in Ha as ->.
    unfold Split. rewrite <- (rev_involutive (bytes s)), E. cbn [rev]. apply split_last_slash. }
  by rewrite H, rev_involutive, text_bytes.
Qed.

Section Names.
Context {L : Lower} {LL : LowerLaws}.

Lemma simple_to_lower w : simple_bytes (bytes w) -> ToLower w = lower_ascii w.
Proof. intros Hw. by apply ToLower_ascii, simple_ascii. Qed.

(** The program name that the parser finds. *)
Lemma program_base w : program_word w -> executableBase w = program_name w.
Proof.
  intros (Hw&_&_&Hn&Hc&Hb). unfold executableBase. rewrite simple_trim, simple_to_lower by (done || apply Hw).
  assert (E : replace_byte "\" "/" (lower_ascii w) = lower_ascii w).
  { unfold replace_byte. rewrite lower_bytes. transitivity (text (map lower_byte (bytes w))); [|done]. f_equal. rewrite map_map.
    destruct Hw as [_ Hw]. induction Hw as [|a l Ha _ IH]; [done|]. cbn [map]. rewrite IH, (proj2 (simple_lower a Ha)). done. }
  rewrite E. unfold TrimSuffix. rewrite Hc, Hb. unfold pathBase. rewrite trim_slash by exact Hn.
  assert (Hl : lower_ascii w <> "").
  { intros El. apply Hn. unfold program_name. by rewrite El. }
  rewrite (proj2 (String.eqb_neq _ _) Hl). apply trim_space_word, simple_spaceless. unfold Split. apply split_simple; [|constructor].
  apply lower_simple, Hw.
Qed.

Lemma assignment_simple w : assignment w -> simple_word w /\ isEnvAssignment w = true /\ HasPrefix w "-" = false.
Proof.
  intros (name&value&->&Hne&Hn&Hv). assert (Hid : forall a, identifier_byte a = true -> simple_byte a = true /\ Ascii.eqb a "=" = false /\ Ascii.eqb a "-" = false).
  { intros a. destruct a as [[] [] [] [] [] [] [] []]; vm_compute; auto. }
  assert (Hs : simple_bytes (bytes (name ++ "=" ++ value))).
  { rewrite !bytes_app. unfold simple_bytes. rewrite !Forall_app. split_and!; [|by repeat constructor|done]. eapply Forall_impl; [exact Hn|]. intros a Ha. by apply Hid. }
  destruct name as [|b name]; [done|]. apply Forall_cons in Hn as [Hb Hn]. destruct (Hid b Hb) as (_&He&Hd).
  assert (Hp : HasPrefix (String b name ++ "=" ++ value) "-" = false).
  { apply Ascii.eqb_neq in Hd. unfold HasPrefix. change (String.prefix "-" (String b (name ++ "=" ++ value)) = false). cbn [String.prefix].
    by destruct (ascii_dec "-" b). }
  split_and!; [by split| |done]. unfold isEnvAssignment. rewrite Hp. change (String b name ++ "=" ++ value) with (String b (name ++ String "=" value)).
  cbn [String.eqb index_byte orb]. rewrite He.
  assert (Hi : is_Some (index_byte "=" (name ++ String "=" value))).
  { clear -Hn Hid. induction name as [|c name IH]; [by exists 0%nat|]. apply Forall_cons in Hn as [Hc Hn].
    change (String c name ++ String "=" value) with (String c (name ++ String "=" value)). cbn [index_byte].
    destruct (Ascii.eqb c "="); [by exists 0%nat|]. destruct (IH Hn) as [n ->]. by exists (S n). }
  by destruct Hi as [n ->].
Qed.

Lemma program_not_assignment w : program_word w -> isEnvAssignment w = false.
Proof. intros (_&He&_). unfold isEnvAssignment. rewrite He. by destruct (_ || _). Qed.

Lemma launch_simple w : launch_word w -> simple_word w /\ HasPrefix w "-" = false.
Proof. intros [Ha%assignment_simple|[Hp _]]; [split; apply Ha|split; apply Hp]. Qed.

(** ** Where a program is found *)

Lemma skip_sudo_launch i launch program tail : Forall launch_word launch -> program_word program ->
  exists l1 l2, launch = (l1 ++ l2)%list /\ skip_sudo i (launch ++ program :: tail) = (i + length l1)%nat.
Proof.
  intros Hl Hp. revert i. induction Hl as [|w launch Hw Hl IH]; intros i; cbn [app skip_sudo].
  - exists [], []. split; [done|]. cbn [length]. rewrite Nat.add_0_r. pose proof Hp as (Hs&_&Hd&_).
    rewrite simple_trim, simple_nonempty, simple_separator, program_not_assignment, Hd by done.
    by destruct (String.eqb_spec program "--") as [->|].
  - destruct (launch_simple w Hw) as [Hs Hd]. rewrite simple_trim, simple_nonempty, simple_separator, Hd by done.
    destruct (String.eqb_spec w "--") as [->|]; [done|]. destruct (isEnvAssignment w).
    + destruct (IH (S i)) as (l1&l2&->&->). exists (w :: l1), l2. split; [done|]. cbn [length]. lia.
    + exists [], (w :: launch). split; [done|]. cbn [negb orb length]. lia.
Qed.

(** The loop passes assignments and launchers. *)
Lemma segment_program launch : Forall launch_word launch -> forall program pre tail fuel inEnv,
  program_word program -> program_name program ∉ launchers -> (length launch < fuel)%nat ->
  segment_loop fuel (pre ++ launch ++ program :: tail) inEnv (length pre) = Some (length pre + length launch)%nat.
Proof.
  induction launch as [launch IH] using (induction_ltof1 _ (@length string)). unfold ltof in IH.
  intros Hl program pre tail fuel inEnv Hp Hn Hf. destruct fuel as [|fuel]; [lia|]. cbn [segment_loop].
  rewrite (lookup_app_r pre), Nat.sub_diag by lia. destruct launch as [|w launch].
  - cbn [app lookup list_lookup length]. rewrite Nat.add_0_r. pose proof Hp as (Hs&_&Hd&_).
    rewrite simple_trim, simple_nonempty, simple_separator, program_not_assignment, Hd, program_base, andb_false_r by done.
    assert (E : forall x, x ∈ launchers -> (program_name program =? x) = false) by (intros x Hx; apply String.eqb_neq; by intros E; rewrite E in Hn).
    rewrite !E by (unfold launchers; set_solver). done.
  - apply Forall_cons in Hl as [Hw Hl]. destruct (launch_simple w Hw) as [Hs Hd]. cbn [app lookup list_lookup].
    rewrite simple_trim, simple_nonempty, simple_separator by done.
    assert (Hnext : forall l1 l2 b, launch = (l1 ++ l2)%list ->
      segment_loop fuel (pre ++ w :: launch ++ program :: tail) b (S (length pre) + length l1) = Some (length pre + length (w :: launch))%nat).
    { intros l1 l2 b ->. apply Forall_app in Hl as [_ Hl]. cbn [length] in Hf, IH |- *. rewrite !length_app in *.
      assert (Hl2 : (length l2 < S (length l1 + length l2))%nat) by lia.
      pose proof (IH l2 Hl2 Hl program (pre ++ w :: l1)%list tail fuel b Hp Hn ltac:(lia)) as E. rewrite length_app in E. cbn [length] in E.
      rewrite <- !app_assoc in E |- *. cbn [app] in E.
      replace (S (length pre) + length l1)%nat with (length pre + S (length l1))%nat by lia. rewrite E. f_equal. lia. }
    pose proof (fun b => Hnext [] launch b eq_refl) as Hone. cbn [length] in Hone. rewrite Nat.add_0_r in Hone.
    destruct (_ || _) eqn:Henv; [apply Hone|]. destruct (_ =? "sudo") eqn:Hsudo.
    + assert (E : drop (S (length pre)) (pre ++ w :: launch ++ program :: tail) = (launch ++ program :: tail)%list).
      { change (w :: launch ++ program :: tail)%list with ([w] ++ launch ++ program :: tail)%list. rewrite (app_assoc pre). apply drop_app_length'. rewrite length_app. cbn. lia. }
      unfold skipSudoPrefix. rewrite E. destruct (skip_sudo_launch (S (length pre)) launch program tail Hl Hp) as (l1&l2&El&->). by apply (Hnext l1 l2).
    + destruct Hw as [(_&->&_)%assignment_simple|[Hwp Hwn]]; [apply Hone|]. exfalso. rewrite program_base in * by done.
      apply orb_false_iff in Henv as [H1%String.eqb_neq H2%String.eqb_neq].
      apply String.eqb_neq in Hsudo. revert Hwn. unfold launchers. set_solver.
Qed.
End Names.

(** ** Scripts *)

Inductive operator : Type := Semicolon | NewLine | AndThen | OrElse | Pipe | Background.

Definition operator_text (op : operator) : string :=
  match op with
  | Semicolon => ";" | NewLine => String "010" "" | AndThen => "&&" | OrElse => "||" | Pipe => "|" | Background => "&"
  end.

(** An operator with the blanks around it. *)
Record joint : Type := MkJoint { jt_before : bool; jt_operator : operator; jt_after : bool }.

Definition blank (b : bool) : string := if b then " " else "".
Definition joint_text (j : joint) : string := blank (jt_before j) ++ operator_text (jt_operator j) ++ blank (jt_after j).

(** A global option of Git: a flag, or a name and its value. *)
Inductive global : Type := Flag (name : string) | Setting (name value : string).
Definition global_words (g : global) : list string := match g with Flag name => [name] | Setting name value => [name; value] end.

(** A program that is neither Git nor a shell, a Git command, a script that is
    given to a shell as [launch shell options flag 'body'], and two scripts
    after each other. *)
Inductive script : Type :=
| Run (launch : list string) (program : string) (args : list string)
| Git (launch : list string) (program : string) (globals : list global) (verb : string) (args : list string)
| Shell (launch : list string) (program : string) (options : list string) (flag : string) (quote : ascii) (body : script)
| Seq (first : script) (j : joint) (second : script).

Definition git_words (launch : list string) (program : string) (globals : list global) (verb : string) (args : list string) : list string :=
  (launch ++ program :: (globals ≫= global_words) ++ verb :: args)%list.

Fixpoint print (s : script) : string :=
  match s with
  | Run launch program args => Join (launch ++ program :: args) " "
  | Git launch program globals verb args => Join (git_words launch program globals verb args) " "
  | Shell launch program options flag quote body =>
    Join (launch ++ program :: options ++ [flag]) " " ++ " " ++ String quote (print body ++ String quote "")
  | Seq a j b => print a ++ joint_text j ++ print b
  end.

(** The Git commands that a script runs: verb and arguments. *)
Fixpoint git_runs (s : script) : list (string * list string) :=
  match s with
  | Run _ _ _ => []
  | Git _ _ _ verb args => [(verb, args)]
  | Shell _ _ _ _ _ body => git_runs body
  | Seq a _ b => (git_runs a ++ git_runs b)%list
  end.

Definition git_programs : list string := ["git"; "git.exe"].
Definition other_shells : list string := ["cmd"; "cmd.exe"; "powershell"; "powershell.exe"; "pwsh"; "pwsh.exe"].
Definition reserved : list string := ["if"; "then"; "elif"; "else"; "fi"; "while"; "until"; "for"; "do"; "done"; "case"; "esac"; "!"; "time"].

Definition git_setting (name : string) : bool := one_of ["-c"; "--git-dir"; "--work-tree"; "--namespace"; "--exec-path"; "--config-env"] (lower_ascii name).
Definition global_ok (g : global) : Prop :=
  match g with
  | Flag name => simple_word name /\ HasPrefix name "-" = true /\ git_setting name = false
  | Setting name value => simple_word name /\ HasPrefix name "-" = true /\ git_setting name = true /\ simple_word value
  end.

(** A Git verb: small letters and dashes. *)
Definition verb_byte (a : ascii) : bool := let n := nat_of_ascii a in ((97 <=? n) && (n <=? 122) || (n =? 45))%nat.
Definition verb_ok (verb : string) : Prop :=
  Forall (fun a => verb_byte a = true) (bytes verb) /\ HasPrefix verb "-" = false /\ verb <> "" /\ verb <> "env".

Definition letter_c (w : string) : bool := existsb (fun a => Ascii.eqb a "c" || Ascii.eqb a "C") (bytes w).

(** An option of a shell that takes no value and has no letter c, and one that
    has: [-c], alone or with other letters. *)
Definition option_word (w : string) : Prop :=
  simple_word w /\ HasPrefix w "-" = true /\ w <> "-" /\ letter_c w = false /\ ~ lower_ascii w ∈ ["-o"; "--option"].
Definition command_flag (w : string) : Prop := simple_word w /\ HasPrefix w "-" = true /\ HasPrefix w "--" = false /\ letter_c w = true.

Fixpoint script_ok (s : script) : Prop :=
  match s with
  | Run launch program args =>
    Forall launch_word launch /\ program_word program /\ Forall simple_word args
    /\ program_name program ∉ (launchers ++ git_programs ++ posix_shells ++ other_shells ++ reserved)%list
  | Git launch program globals verb args =>
    Forall launch_word launch /\ program_word program /\ program_name program ∈ git_programs
    /\ Forall global_ok globals /\ verb_ok verb /\ Forall simple_word args
  | Shell launch program options flag quote body =>
    Forall launch_word launch /\ program_word program /\ program_name program ∈ posix_shells
    /\ Forall option_word options /\ command_flag flag /\ quote_byte quote /\ script_ok body
  | Seq a _ b => script_ok a /\ script_ok b
  end.

(** ** Flat scripts

    What the parser sees of a script: segments, each a command behind the
    shells it is given to, and the tokens of the operators between them. *)

Definition shell_head : Type := list string * string * list string.
Definition command : Type := list string * string * list string.
Definition segment : Type := list shell_head * (command * option (string * list string)).
Definition flat : Type := segment * list (string * segment).

(** The words of a segment as launch words, program and the rest. *)
Definition segment_parts (s : segment) : command :=
  (fix go (heads : list shell_head) : command :=
     match heads with
     | [] => s.2.1
     | (launch, program, options) :: heads =>
       let '(l, p, r) := go heads in (launch, program, options ++ l ++ p :: r)
     end%list) s.1.
Definition segment_words (s : segment) : list string := let '(l, p, r) := segment_parts s in (l ++ p :: r)%list.
Definition rest_words (t : list (string * segment)) : list string := concat (map (fun x => x.1 :: segment_words x.2) t).
Definition flat_words (f : flat) : list string := (segment_words f.1 ++ rest_words f.2)%list.

Definition operator_token (op : operator) : string := match op with NewLine => ";" | _ => operator_text op end.

Fixpoint flatten (s : script) : flat :=
  match s with
  | Run launch program args => (([], ((launch, program, args), None)), [])
  | Git launch program globals verb args =>
    (([], ((launch, program, (globals ≫= global_words) ++ verb :: args), Some (verb, args))), [])
  | Shell launch program options flag _ body =>
    let '((heads, c), t) := flatten body in (((launch, program, options ++ [flag]) :: heads, c), t)
  | Seq a j b => let '(sa, ta) := flatten a in let '(sb, tb) := flatten b in (sa, ta ++ (operator_token (jt_operator j), sb) :: tb)
  end%list.

Definition segments (f : flat) : list segment := f.1 :: map snd f.2.

Lemma segment_words_shell launch program options heads c :
  segment_words ((launch, program, options) :: heads, c) = (launch ++ program :: options ++ segment_words (heads, c))%list.
Proof. unfold segment_words, segment_parts. cbn [fst snd]. destruct (_ heads) as [[l p] r]. done. Qed.

Lemma rest_words_app t u : rest_words (t ++ u) = (rest_words t ++ rest_words u)%list.
Proof. unfold rest_words. by rewrite map_app, concat_app. Qed.

(** The words of a script, one after the other. *)
Fixpoint script_words (s : script) : list string :=
  match s with
  | Run launch program args => launch ++ program :: args
  | Git launch program globals verb args => git_words launch program globals verb args
  | Shell launch program options flag _ body => launch ++ program :: (options ++ [flag]) ++ script_words body
  | Seq a j b => script_words a ++ operator_token (jt_operator j) :: script_words b
  end%list.

Lemma flatten_words s : flat_words (flatten s) = script_words s.
Proof.
  induction s as [launch program args|launch program globals verb args|launch program options flag quote body IH|a IHa j b IHb]; cbn [flatten script_words].
  - apply app_nil_r.
  - apply app_nil_r.
  - destruct (flatten body) as [[heads c] t]. unfold flat_words in *. cbn [fst snd] in *. rewrite segment_words_shell, <- IH.
    rewrite <- !app_assoc. cbn [app]. by rewrite <- !app_assoc.
  - destruct (flatten a) as [sa ta], (flatten b) as [sb tb]. unfold flat_words in *. cbn [fst snd] in *. rewrite <- IHa, <- IHb, rest_words_app.
    unfold rest_words at 2. cbn [map concat]. fold (rest_words tb). cbn [fst snd]. rewrite <- !app_assoc. cbn [app]. by rewrite <- ?app_assoc.
Qed.

Lemma flatten_git s : omap (fun x => x.2.2) (segments (flatten s)) = git_runs s.
Proof.
  induction s as [launch program args|launch program globals verb args|launch program options flag quote body IH|a IHa j b IHb]; cbn [flatten git_runs]; [done..| |].
  - destruct (flatten body) as [[heads c] t]. unfold segments in *. cbn [fst snd omap list_omap] in *. exact IH.
  - destruct (flatten a) as [sa ta], (flatten b) as [sb tb]. unfold segments in *. cbn [fst snd] in *. rewrite <- IHa, <- IHb, map_app. cbn [map snd].
    change (sa :: map snd ta ++ sb :: map snd tb)%list with ((sa :: map snd ta) ++ sb :: map snd tb)%list. apply omap_app.
Qed.

(** ** Reading a script *)

Definition read_words (l : list ascii) : list string := List.filter nonempty (map trimShellToken (fields_loop [] (shell_replace l))).

Lemma shellish_read c : shellishFields c = read_words (bytes c).
Proof. unfold shellishFields, Fields. by rewrite bytes_text. Qed.

(** What may follow a word. *)
Definition follows (k : list ascii) : Prop := ends_word (shell_replace k).

Lemma quotes_plain q : Forall quote_byte q -> plain q.
Proof. intros Hq. eapply Forall_impl; [exact Hq|]. by intros a [-> | ->]. Qed.

Lemma read_word q w r k : Forall quote_byte q -> simple_word w -> Forall quote_byte r -> follows k ->
  read_words (q ++ bytes w ++ r ++ k) = w :: read_words k.
Proof.
  intros Hq Hw Hr Hk. unfold read_words. set (d := (q ++ bytes w ++ r)%list).
  assert (Ed : (q ++ bytes w ++ r ++ k)%list = (d ++ k)%list) by (subst d; by rewrite <- !app_assoc). rewrite Ed.
  assert (Hd : plain d) by (subst d; apply Forall_app; split; [by apply quotes_plain|apply Forall_app; split; [apply simple_plain, Hw|by apply quotes_plain]]).
  assert (Hne : d <> []).
  { subst d. intros [_ [E _]%app_eq_nil]%app_eq_nil. destruct Hw as [Hw _]. by destruct w. }
  rewrite replace_plain, fields_word by (done || (apply quoted_spaceless; [done|apply Hw|done])). cbn [app].
  assert (Hf : flush d = [text d]) by (by destruct d).
  assert (E : fields_loop d (shell_replace k) = text d :: fields_loop [] (shell_replace k)).
  { destruct Hk as [->|[x ->]]; [exact Hf|]. rewrite !fields_space, Hf. done. }
  rewrite E. cbn [map List.filter]. subst d. rewrite trim_quoted by done. by rewrite (proj2 (nonempty_spec w) (proj1 Hw)).
Qed.

Lemma read_blank k : read_words (" "%char :: k) = read_words k.
Proof. unfold read_words. change (shell_replace (" "%char :: k)) with (" "%char :: shell_replace k). by rewrite fields_space. Qed.

Lemma follows_nil : follows [].
Proof. by left. Qed.
Lemma follows_blank k : follows (" "%char :: k).
Proof. right. by exists (shell_replace k). Qed.

Lemma follows_joint j k : follows (bytes (joint_text j) ++ k).
Proof.
  destruct j as [[] op after]; unfold joint_text; cbn [jt_before jt_operator jt_after blank]; rewrite !bytes_app, <- !app_assoc; [apply follows_blank|].
  destruct op; unfold follows; cbn [operator_text list_ascii_of_string app shell_replace Ascii.eqb Bool.eqb];
    try (right; by eexists); destruct after, k as [|a k]; cbn [blank list_ascii_of_string app]; try (destruct (Ascii.eqb a _)); right; by eexists.
Qed.

(** A text that starts with a simple byte or a quote. *)
Definition opens (k : list ascii) : Prop := exists a x, k = a :: x /\ (simple_byte a = true \/ quote_byte a).

Lemma replace_operator op b k : Ascii.eqb b "&" = false -> Ascii.eqb b "|" = false ->
  shell_replace (bytes (operator_text op) ++ b :: k) = (spaced (operator_token op) ++ shell_replace (b :: k))%list.
Proof. intros H1 H2. by destruct op; simpl; rewrite ?H1, ?H2. Qed.

Lemma read_operator op b k : Ascii.eqb b "&" = false -> Ascii.eqb b "|" = false ->
  read_words (bytes (operator_text op) ++ b :: k) = operator_token op :: read_words (b :: k).
Proof.
  intros H1 H2. unfold read_words. rewrite replace_operator by done. unfold spaced. cbn [app]. rewrite fields_space. cbn [flush app]. rewrite <- app_assoc.
  assert (Hs : operator_token op ∈ separators) by (destruct op; unfold separators; cbn [operator_token operator_text]; set_solver).
  rewrite (fields_word [] (bytes (operator_token op))); [|by apply spaceless_separator|right; by eexists]. cbn [app]. rewrite fields_space.
  by destruct op.
Qed.

Lemma read_joint j k : opens k -> read_words (bytes (joint_text j) ++ k) = operator_token (jt_operator j) :: read_words k.
Proof.
  intros (a&x&->&Ha). assert (He : Ascii.eqb a "&" = false /\ Ascii.eqb a "|" = false).
  { destruct Ha as [Hs%simple_special|[-> | ->]]; [|done..]. unfold special in Hs. cbn [in_set existsb list_ascii_of_string] in Hs. rewrite !orb_false_iff in Hs. intuition. }
  destruct He as [H1 H2]. unfold joint_text. rewrite !bytes_app, <- !app_assoc.
  assert (E : read_words (bytes (operator_text (jt_operator j)) ++ bytes (blank (jt_after j)) ++ a :: x) = operator_token (jt_operator j) :: read_words (a :: x)).
  { destruct (jt_after j); cbn [blank list_ascii_of_string app]; rewrite read_operator by done; [by rewrite read_blank|done]. }
  destruct (jt_before j); cbn [blank list_ascii_of_string app]; [by rewrite read_blank|exact E].
Qed.

Lemma read_join ws r k : Forall simple_word ws -> ws <> [] -> Forall quote_byte r -> follows k ->
  forall q, Forall quote_byte q -> read_words (q ++ bytes (Join ws " ") ++ r ++ k) = (ws ++ read_words k)%list.
Proof.
  intros Hws Hne Hr Hk. induction Hws as [|w ws Hw Hws IH]; [done|]. intros q Hq. destruct ws as [|v ws].
  - by rewrite read_word.
  - change (Join (w :: v :: ws) " ") with (w ++ " " ++ Join (v :: ws) " "). rewrite !bytes_app, <- !app_assoc.
    pose proof (read_word q w [] (" "%char :: bytes (Join (v :: ws) " ") ++ r ++ k) Hq Hw ltac:(constructor) (follows_blank _)) as E. cbn [app] in E.
    etrans; [exact E|]. rewrite read_blank. cbn [app]. f_equal. exact (IH ltac:(done) [] ltac:(constructor)).
Qed.

Section Reading.
Context {L : Lower} {LL : LowerLaws}.

Lemma launches_simple launch : Forall launch_word launch -> Forall simple_word launch.
Proof. intros H. eapply Forall_impl; [exact H|]. intros w Hw. by apply launch_simple. Qed.

Lemma globals_simple globals : Forall global_ok globals -> Forall simple_word (globals ≫= global_words).
Proof.
  induction 1 as [|g globals Hg _ IH]; [constructor|]. cbn [mbind list_bind]. apply Forall_app. split; [|exact IH].
  destruct g; cbn in *; repeat constructor; apply Hg.
Qed.

Lemma verb_simple verb : verb_ok verb -> simple_word verb.
Proof.
  intros (Hv&_&Hne&_). split; [done|]. eapply Forall_impl; [exact Hv|]. intros a. destruct a as [[] [] [] [] [] [] [] []]; vm_compute; auto.
Qed.

Lemma command_words_simple launch program rest : Forall launch_word launch -> program_word program -> Forall simple_word rest ->
  Forall simple_word (launch ++ program :: rest).
Proof. intros Hl [Hp _] Hr. apply Forall_app. split; [by apply launches_simple|by constructor]. Qed.

Lemma git_rest_simple globals verb args : Forall global_ok globals -> verb_ok verb -> Forall simple_word args ->
  Forall simple_word ((globals ≫= global_words) ++ verb :: args).
Proof. intros Hg Hv Ha. apply Forall_app. split; [by apply globals_simple|]. constructor; [by apply verb_simple|done]. Qed.

Lemma shell_rest_simple options flag : Forall option_word options -> command_flag flag -> Forall simple_word (options ++ [flag]).
Proof. intros Ho [Hf _]. apply Forall_app. split; [|by constructor]. eapply Forall_impl; [exact Ho|]. by intros w []. Qed.

Lemma join_opens ws : Forall simple_word ws -> ws <> [] -> forall k, opens (bytes (Join ws " ") ++ k).
Proof.
  intros Hws Hne k. destruct Hws as [|w ws [Hw Hs] _]; [done|]. destruct w as [|a w]; [done|]. apply Forall_cons in Hs as [Ha _].
  destruct ws; (eexists a, _; split; [reflexivity|by left]).
Qed.

Lemma print_opens s : script_ok s -> forall k, opens (bytes (print s) ++ k).
Proof.
  induction s as [launch program args|launch program globals verb args|launch program options flag quote body IH|a IHa j b IHb]; cbn [script_ok print]; intros Hs k.
  - destruct Hs as (Hl&Hp&Ha&_). apply join_opens; [by apply command_words_simple|by destruct launch].
  - destruct Hs as (Hl&Hp&_&Hg&Hv&Ha). apply join_opens; [apply command_words_simple; [done..|by apply git_rest_simple]|by destruct launch].
  - destruct Hs as (Hl&Hp&_&Ho&Hf&_). rewrite bytes_app, <- app_assoc. apply join_opens; [apply command_words_simple; [done..|by apply shell_rest_simple]|by destruct launch].
  - destruct Hs as [Ha _]. rewrite bytes_app, <- app_assoc. by apply IHa.
Qed.

(** The parser reads the words of a script, whatever quotes are around it. *)
Lemma read_print s : script_ok s -> forall q r k, Forall quote_byte q -> Forall quote_byte r -> follows k ->
  read_words (q ++ bytes (print s) ++ r ++ k) = (script_words s ++ read_words k)%list.
Proof.
  induction s as [launch program args|launch program globals verb args|launch program options flag quote body IH|a IHa j b IHb];
    cbn [script_ok print script_words]; intros Hs q r k Hq Hr Hk.
  - destruct Hs as (Hl&Hp&Ha&_). apply read_join; try done; [by apply command_words_simple|by destruct launch].
  - destruct Hs as (Hl&Hp&_&Hg&Hv&Ha). apply read_join; try done; [apply command_words_simple; [done..|by apply git_rest_simple]|by destruct launch].
  - destruct Hs as (Hl&Hp&_&Ho&Hf&Hqu&Hb). rewrite !bytes_app, <- !app_assoc.
    pose proof (read_join (launch ++ program :: options ++ [flag]) [] (" "%char :: quote :: bytes (print body ++ String quote "") ++ r ++ k)
      ltac:(apply command_words_simple; [done..|by apply shell_rest_simple]) ltac:(by destruct launch) ltac:(constructor) (follows_blank _) q Hq) as E.
    cbn [app] in E. etrans; [exact E|]. rewrite read_blank.
    assert (Eb : (bytes (print body ++ String quote "") ++ r ++ k = bytes (print body) ++ quote :: r ++ k)%list) by (by rewrite bytes_app, <- app_assoc).
    rewrite Eb. pose proof (IH Hb [quote] (quote :: r) k ltac:(by constructor) ltac:(by constructor) Hk) as E2. cbn [app] in E2.
    rewrite E2, <- !app_assoc. cbn [app]. by rewrite <- !app_assoc.
  - destruct Hs as [Ha Hb]. rewrite !bytes_app, <- !app_assoc.
    pose proof (IHa Ha q [] (bytes (joint_text j) ++ bytes (print b) ++ r ++ k)%list Hq ltac:(constructor) (follows_joint _ _)) as E. cbn [app] in E.
    etrans; [exact E|]. f_equal. rewrite read_joint by by apply print_opens. cbn [app]. f_equal. exact (IHb Hb [] r k ltac:(constructor) Hr Hk).
Qed.

(** ** A script has no space around it *)

Definition closes (k : list ascii) : Prop := exists x a, k = (x ++ [a])%list /\ (simple_byte a = true \/ quote_byte a).

Lemma ws2_high b a : ws2 b a = true -> (128 <= N_of_ascii a)%N.
Proof.
  unfold ws2. destruct (N_of_ascii b) as [|p]; [done|].
  do 8 (destruct p; try done); destruct (N_of_ascii a) as [|q]; try done; do 8 (destruct q as [q|q|]; try done; try lia).
Qed.

Lemma ws3_high b c a : ws3 b c a = true -> (128 <= N_of_ascii a)%N.
Proof.
  unfold ws3. destruct (N_of_ascii b) as [|p]; [done|].
  do 8 (destruct p; try done); destruct (N_of_ascii c) as [|q]; try done; do 8 (destruct q as [q|q|]; try done);
    generalize (N_of_ascii a); intros n Hn; destruct (N.leb_spec 128 n); try lia; exfalso; revert Hn;
    rewrite ?orb_true_iff, ?andb_true_iff, ?N.eqb_eq, ?N.leb_le; try lia; destruct n as [|q]; try done; do 8 (destruct q as [q|q|]; try done; try lia).
Qed.

Lemma printed_space a : simple_byte a = true \/ quote_byte a ->
  ws1 a = false /\ (forall b, ws2 a b = false /\ ws2 b a = false) /\ (forall b c, ws3 a b c = false /\ ws3 b c a = false).
Proof.
  intros Ha. assert (Hr : (33 <= nat_of_ascii a <= 126)%nat) by (destruct Ha as [|[-> | ->]]; [by apply simple_range|vm_compute; lia..]).
  assert (Hl : (N_of_ascii a < 128)%N) by (unfold nat_of_ascii in Hr; lia).
  assert (Hleft : ws1 a = false /\ (forall b, ws2 a b = false) /\ (forall b c, ws3 a b c = false)).
  { clear -Hr. rewrite <- (ascii_nat_embedding a). revert Hr. generalize (nat_of_ascii a). intros n [H1 H2].
    do 127 (destruct n as [|n]; [try lia; split_and!; reflexivity|]). lia. }
  destruct Hleft as (H1&H2&H3). split_and!; [done| |].
  - intros b. split; [done|]. apply not_true_is_false. intros H%ws2_high. lia.
  - intros b c. split; [done|]. apply not_true_is_false. intros H%ws3_high. lia.
Qed.

Lemma trim_space_printed s : opens (bytes s) -> closes (bytes s) -> trim_space s = s.
Proof.
  intros (a&x&Ea&Ha) (y&b&Eb&Hb). unfold trim_space, trim_bytes. rewrite trim_left_bytes_fixed.
  - rewrite Eb, rev_app_distr. cbn [rev app].
    assert (E : trim_rev_bytes (b :: rev y) = b :: rev y).
    { destruct (printed_space b Hb) as (H1&H2&H3). cbn [trim_rev_bytes]. rewrite H1. destruct (rev y) as [|c [|d r]]; [done|by rewrite (proj2 (H2 c))|rewrite (proj2 (H2 c))].
      by rewrite (proj2 (H3 d c)). }
    rewrite E. cbn [rev]. rewrite rev_involutive, <- Eb. apply text_bytes.
  - rewrite Ea. destruct (printed_space a Ha) as (H1&H2&H3). destruct x as [|c [|d r]]; cbn [starts_space]; rewrite H1; [done|by rewrite (proj1 (H2 c))|by rewrite (proj1 (H2 c)), (proj1 (H3 c d))].
Qed.

Lemma closes_app k l : closes l -> closes (k ++ l).
Proof. intros (x&a&->&Ha). exists (k ++ x)%list, a. by rewrite app_assoc. Qed.

Lemma join_closes ws : Forall simple_word ws -> ws <> [] -> closes (bytes (Join ws " ")).
Proof.
  induction 1 as [|w ws [Hne Hw] Hws IH]; [done|]. intros _. destruct ws as [|v ws].
  - change (Join [w] " ") with w. destruct (rev (bytes w)) as [|a r] eqn:E; apply (f_equal (@rev ascii)) in E; rewrite rev_involutive in E.
    { exfalso. apply Hne. by rewrite <- (text_bytes w), E. }
    cbn [rev] in E. exists (rev r), a. split; [done|]. left. rewrite E in Hw. apply Forall_app in Hw as [_ Hw]. by apply Forall_cons in Hw as [Hw _].
  - change (Join (w :: v :: ws) " ") with (w ++ " " ++ Join (v :: ws) " "). rewrite !bytes_app. by apply closes_app, closes_app, IH.
Qed.

Lemma print_closes s : script_ok s -> closes (bytes (print s)).
Proof.
  induction s as [launch program args|launch program globals verb args|launch program options flag quote body IH|a IHa j b IHb]; cbn [script_ok print]; intros Hs.
  - destruct Hs as (Hl&Hp&Ha&_). apply join_closes; [by apply command_words_simple|by destruct launch].
  - destruct Hs as (Hl&Hp&_&Hg&Hv&Ha). apply join_closes; [apply command_words_simple; [done..|by apply git_rest_simple]|by destruct launch].
  - destruct Hs as (_&_&_&_&_&Hq&_). rewrite !bytes_app. apply closes_app, closes_app.
    change (closes (quote :: bytes (print body ++ String quote ""))). rewrite bytes_app. exists (quote :: bytes (print body))%list, quote. split; [done|by right].
  - destruct Hs as [_ Hb]. rewrite !bytes_app. by apply closes_app, closes_app, IHb.
Qed.

Lemma print_trim s : script_ok s -> trim_space (print s) = print s.
Proof.
  intros Hs. apply trim_space_printed; [|by apply print_closes]. pose proof (print_opens s Hs []) as Ho. by rewrite app_nil_r in Ho.
Qed.

Lemma shellish_print s : script_ok s -> shellishFields (print s) = flat_words (flatten s).
Proof.
  intros Hs. rewrite flatten_words, shellish_read. pose proof (read_print s Hs [] [] [] ltac:(constructor) ltac:(constructor) follows_nil) as E.
  cbn [app] in E. rewrite app_nil_r in E. rewrite E. apply app_nil_r.
Qed.

(** ** Well-formed flat scripts *)

Definition head_ok (h : shell_head) : Prop :=
  let '(launch, program, options) := h in
  Forall launch_word launch /\ program_word program /\ program_name program ∈ posix_shells /\
  (exists os flag, options = (os ++ [flag])%list /\ Forall option_word os /\ command_flag flag).

Definition plain_names : list string := (launchers ++ posix_shells ++ other_shells)%list.

Definition command_ok (c : command * option (string * list string)) : Prop :=
  let '(launch, program, rest) := c.1 in
  Forall launch_word launch /\ program_word program /\ (program_name program ∉ plain_names) /\ Forall simple_word rest /\
  match c.2 with
  | Some (verb, args) => program_name program ∈ git_programs /\ verb_ok verb /\ Forall simple_word args /\
                         (exists globals, rest = ((globals ≫= global_words) ++ verb :: args)%list /\ Forall global_ok globals)
  | None => program_name program ∉ git_programs
  end.

Definition segment_ok (s : segment) : Prop := Forall head_ok s.1 /\ command_ok s.2.
Definition rest_ok (t : list (string * segment)) : Prop := Forall (fun x => x.1 ∈ separators /\ segment_ok x.2) t.
Definition flat_ok (f : flat) : Prop := segment_ok f.1 /\ rest_ok f.2.

Lemma git_not_plain x : x ∈ git_programs -> x ∉ plain_names.
Proof. unfold git_programs, plain_names, launchers, posix_shells, other_shells. set_solver. Qed.
Lemma shell_not_launcher x : x ∈ posix_shells -> x ∉ launchers.
Proof. unfold posix_shells, launchers. set_solver. Qed.

Lemma flatten_ok s : script_ok s -> flat_ok (flatten s).
Proof.
  induction s as [launch program args|launch program globals verb args|launch program options flag quote body IH|a IHa j b IHb]; cbn [script_ok flatten].
  - intros (Hl&Hp&Ha&Hn). split; [|constructor]. split; [constructor|]. unfold command_ok, plain_names. cbn [fst snd]. set_solver.
  - intros (Hl&Hp&Hn&Hg&Hv&Ha). split; [|constructor]. split; [constructor|]. cbn. split_and!; try done; [by apply git_not_plain|by apply git_rest_simple|].
    by exists globals.
  - intros (Hl&Hp&Hn&Ho&Hf&_&Hb). specialize (IH Hb). destruct (flatten body) as [[heads c] t]. destruct IH as [[Hh Hc] Ht]. split; [|done].
    split; [|done]. constructor; [|done]. cbn. split_and!; try done. by exists options, flag.
  - intros [Ha Hb]. specialize (IHa Ha). specialize (IHb Hb). destruct (flatten a) as [sa ta], (flatten b) as [sb tb]. destruct IHa as [Hsa Hta], IHb as [Hsb Htb].
    split; [done|]. apply Forall_app. split; [done|]. constructor; [|done]. split; [|done]. destruct (jt_operator j); cbn; unfold separators; set_solver.
Qed.

(** A segment starts with launch words and a program that is no launcher. *)
Lemma segment_parts_ok s : segment_ok s -> let '(l, p, r) := segment_parts s in
  Forall launch_word l /\ program_word p /\ (program_name p ∉ launchers) /\ Forall simple_word r.
Proof.
  destruct s as [heads c]. intros [Hh Hc]. cbn [fst snd] in *. induction Hh as [|[[launch program] options] heads Hd _ IH].
  - unfold segment_parts. cbn [fst snd]. unfold command_ok in Hc. destruct (fst c) as [[l p] r]. destruct Hc as (Hl&Hp&Hn&Hr&_). split_and!; try done.
    unfold plain_names in Hn. rewrite !not_elem_of_app in Hn. tauto.
  - destruct Hd as (Hl&Hp&Hn&os&flag&->&Ho&Hf). unfold segment_parts in *. cbn [fst snd] in *. destruct (_ heads) as [[l p] r]. destruct IH as (Hl'&Hp'&_&Hr').
    split_and!; try done; [by apply shell_not_launcher|]. apply Forall_app. split; [by apply shell_rest_simple|]. by apply command_words_simple.
Qed.

Lemma segment_simple s : segment_ok s -> Forall simple_word (segment_words s).
Proof.
  intros Hs%segment_parts_ok. unfold segment_words. destruct (segment_parts s) as [[l p] r]. destruct Hs as (Hl&Hp&_&Hr). by apply command_words_simple.
Qed.

Lemma simple_token w : simple_word w -> shell_token w.
Proof.
  intros Hw. pose proof Hw as [Hne Hs]. split; [split; [done|by apply simple_spaceless]|]. split; [|left; by apply simple_plain].
  rewrite <- trimShellToken_word by by apply simple_spaceless. by apply simple_trim.
Qed.

Lemma separator_token op : op ∈ separators -> shell_token op.
Proof. intros Hop. pose proof Hop as H. unfold separators in H. rewrite !elem_of_cons, elem_of_nil in H. destruct H as [->|[->|[->|[->|[->|[]]]]]]; (split; [by split|]); split; (done || by right). Qed.

Lemma rest_tokens t : rest_ok t -> Forall shell_token (rest_words t).
Proof.
  induction 1 as [|[op s] t [Hop Hs] _ IH]; [constructor|]. unfold rest_words. cbn [map concat fst snd]. apply Forall_app. split; [|exact IH].
  constructor; [by apply separator_token|]. eapply Forall_impl; [by apply segment_simple|apply simple_token].
Qed.

Lemma flat_tokens f : flat_ok f -> Forall shell_token (flat_words f).
Proof. intros [Hs Ht]. apply Forall_app. split; [eapply Forall_impl; [by apply segment_simple|apply simple_token]|by apply rest_tokens]. Qed.

(** ** The commands of a flat script *)

Definition launch_length (s : segment) : nat := length (segment_parts s).1.1.

Lemma start_skip all ws i r : Forall simple_word ws -> start_indexes all true i (ws ++ r) = start_indexes all true (i + length ws) r.
Proof.
  intros Hws. revert i. induction Hws as [|w ws Hw _ IH]; intros i; [by rewrite Nat.add_0_r|]. cbn [app start_indexes].
  rewrite simple_trim, simple_separator by done. rewrite IH. f_equal. cbn [length]. lia.
Qed.

Fixpoint walk {A} (g : segment -> list (string * segment) -> list A) (s : segment) (t : list (string * segment)) : list A :=
  (g s t ++ match t with [] => [] | (_, s') :: t' => walk g s' t' end)%list.

Lemma start_segment all pre s r : all = (pre ++ segment_words s ++ r)%list -> segment_ok s ->
  start_indexes all false (length pre) (segment_words s ++ r)
  = (length pre + launch_length s)%nat :: start_indexes all true (length pre + length (segment_words s)) r.
Proof.
  intros -> Hs. pose proof (segment_parts_ok s Hs) as Hp. pose proof (segment_simple s Hs) as Hw. unfold launch_length, segment_words in *.
  destruct (segment_parts s) as [[l p] ws]. destruct Hp as (Hl&Hp&Hn&_). cbn [fst snd].
  assert (Hstart : commandStartIndexInSegment (pre ++ (l ++ p :: ws) ++ r) (length pre) = Some (length pre + length l)%nat).
  { unfold commandStartIndexInSegment. rewrite <- app_assoc. cbn [app]. apply segment_program; try done. rewrite !length_app. lia. }
  revert Hstart. generalize (pre ++ (l ++ p :: ws) ++ r)%list. intros all Hstart. clear Hl Hp Hn.
  destruct (l ++ p :: ws)%list as [|w words] eqn:E; [by destruct l|]. apply Forall_cons in Hw as [Hw Hws]. cbn [app start_indexes].
  rewrite simple_trim, simple_separator, Hstart, start_skip by done. cbn [option_list app length]. do 2 f_equal. lia.
Qed.

Lemma starts_walk {A} all (f : nat -> list A) g :
  (forall pre s t, all = (pre ++ segment_words s ++ rest_words t)%list -> segment_ok s -> rest_ok t -> f (length pre + launch_length s)%nat = g s t) ->
  forall t s pre, all = (pre ++ segment_words s ++ rest_words t)%list -> segment_ok s -> rest_ok t ->
  start_indexes all false (length pre) (segment_words s ++ rest_words t) ≫= f = walk g s t.
Proof.
  intros Hf. induction t as [|[op s'] t IH]; intros s pre Hall Hs Ht; rewrite (start_segment all pre s _ Hall Hs); cbn [mbind list_bind walk];
    rewrite (Hf pre s _ Hall Hs Ht); apply (f_equal (app _)); [done|].
  apply Forall_cons in Ht as [[Hop Hs'] Ht]. unfold rest_words in *. cbn [map concat fst snd app] in *. cbn [start_indexes].
  rewrite (token_trim op) by by apply separator_token. assert (Eo : isShellCommandSeparator op = true) by by apply one_of_spec. rewrite Eo.
  replace (S (length pre + length (segment_words s)))%nat with (length (pre ++ segment_words s ++ [op])%list) by (rewrite !length_app; cbn [length]; lia).
  apply IH; [|done..]. rewrite Hall, <- !app_assoc. done.
Qed.

Lemma flat_walk {A} (f : flat) (at_ : list string -> nat -> list A) g : flat_ok f ->
  (forall pre s t, flat_words f = (pre ++ segment_words s ++ rest_words t)%list -> segment_ok s -> rest_ok t ->
    at_ (flat_words f) (length pre + launch_length s)%nat = g s t) ->
  commandStartIndexes (flat_words f) ≫= at_ (flat_words f) = walk g f.1 f.2.
Proof. intros [Hs Ht] Hg. by apply (starts_walk (flat_words f) (at_ (flat_words f)) g Hg f.2 f.1 []). Qed.

(** A script from one of its segments on. *)
Definition tail_of (f f' : flat) : Prop := f' = f \/ exists before op, f.2 = (before ++ (op, f'.1) :: f'.2)%list.

Lemma walk_elem {A} (g : segment -> list (string * segment) -> list A) x s t :
  x ∈ walk g s t <-> exists f', tail_of (s, t) f' /\ x ∈ g f'.1 f'.2.
Proof.
  revert s. induction t as [|[op s'] t IH]; intros s; cbn [walk]; rewrite elem_of_app.
  - split; [intros [|H]; [exists (s, []); by split; [left|]|by apply elem_of_nil in H]|]. intros (f'&[->|(before&op&E)]&H); [by left|by destruct before].
  - rewrite IH. split.
    + intros [H|(f'&[->|(before&op'&E)]&H)]; [exists (s, (op, s') :: t); by split; [left|]|exists (s', t); split; [right; by exists [], op|done]|].
      exists f'. split; [|done]. right. exists ((op, s') :: before), op'. cbn [snd] in *. by rewrite E.
    + intros (f'&[->|(before&op'&E)]&H); [by left|]. right. cbn [snd] in E. destruct before as [|x' before]; cbn [app] in E; simplify_eq.
      * exists f'. split; [left; by destruct f'|done].
      * exists f'. split; [right; by exists before, op'|done].
Qed.

Definition shells (f : flat) : nat := sum_list_with (fun s => length s.1) (segments f).

Lemma tail_facts f f' : tail_of f f' -> (flat_ok f -> flat_ok f') /\ (shells f' <= shells f)%nat /\ (forall s, s ∈ segments f' -> s ∈ segments f).
Proof.
  destruct f as [s t], f' as [s' t']. intros [[= -> ->]|(before&op&E)]; [done|]. cbn [fst snd] in E. subst t. unfold shells, segments, flat_ok. cbn [fst snd]. split_and!.
  - intros [_ Ht]. apply Forall_app in Ht as [_ Ht]. apply Forall_cons in Ht as [[_ Hs] Ht]. done.
  - rewrite map_app. cbn [map snd]. cbn [sum_list_with]. rewrite sum_list_with_app. cbn [sum_list_with]. lia.
  - intros x Hx. rewrite map_app. cbn [map snd]. apply elem_of_cons. right. apply elem_of_app. by right.
Qed.

Lemma segment_tail f s : s ∈ segments f -> exists f', tail_of f f' /\ f'.1 = s.
Proof.
  destruct f as [s0 t]. intros [->|Hs]%elem_of_cons; [exists (s0, t); by split; [left|]|]. cbn [snd] in Hs. apply list_elem_of_fmap in Hs as ([op s']&->&Hin).
  apply list_elem_of_split in Hin as (before&t'&->). exists (s', t'). split; [right; by exists before, op|done].
Qed.

(** ** Payloads *)

Lemma contains_byte c s : contains s (String c "") = existsb (Ascii.eqb c) (bytes s).
Proof.
  induction s as [|a s IH]; [done|]. change (bytes (String a s)) with (a :: bytes s). cbn [contains existsb String.prefix]. rewrite IH. f_equal.
  destruct (ascii_dec c a) as [<-|Hn]; [rewrite Ascii.eqb_refl; by destruct s|]. symmetry. by apply Ascii.eqb_neq.
Qed.

Lemma flag_letter w : simple_word w -> contains (TrimLeft (ToLower w) "-") "c" = letter_c w.
Proof.
  intros [_ Hw]. rewrite contains_byte, simple_to_lower by done. unfold TrimLeft. rewrite bytes_text, lower_bytes. unfold letter_c.
  assert (Hdrop : forall l, existsb (Ascii.eqb "c") (drop_while (in_set "-") l) = existsb (Ascii.eqb "c") l).
  { induction l as [|a l IH]; [done|]. cbn [drop_while existsb]. destruct (in_set "-" a) eqn:E; [|done]. rewrite IH.
    unfold in_set in E. cbn [existsb list_ascii_of_string] in E. rewrite orb_false_r in E. by apply Ascii.eqb_eq in E as ->. }
  rewrite Hdrop. clear Hw. induction (bytes w) as [|a l IH]; [done|]. cbn [map existsb]. rewrite IH. f_equal.
  by destruct a as [[] [] [] [] [] [] [] []].
Qed.

Lemma simple_trim_space w : simple_word w -> trim_space w = w.
Proof. intros [_ Hw]. by apply trim_space_word, simple_spaceless. Qed.

Lemma posix_found os flag tail i : Forall option_word os -> command_flag flag ->
  posix_payload i (os ++ flag :: tail) = Some (i + length os + 1)%nat.
Proof.
  intros Hos (Hf&Hd&_&Hc). revert i. induction Hos as [|w os (Hw&Hwd&Hn&Hwc&Ho) _ IH]; intros i; cbn [app posix_payload].
  - rewrite simple_trim, simple_nonempty, simple_separator, Hd, flag_letter, Hc by done.
    destruct (String.eqb_spec flag "-") as [->|]; [done|]. cbn [negb andb length]. f_equal. lia.
  - rewrite simple_trim, simple_nonempty, simple_separator, Hwd, flag_letter, Hwc by done. rewrite (proj2 (String.eqb_neq w "-")) by done.
    unfold shellOptionNeedsValue. rewrite simple_trim_space, simple_to_lower by (done || apply Hw).
    assert (E : one_of ["-o"; "--option"] (lower_ascii w) = false) by (apply not_true_is_false; by rewrite one_of_spec). rewrite E. cbn [negb andb].
    rewrite IH. f_equal. cbn [length]. lia.
Qed.

(** Without an option that has the letter c there is no payload. *)
Lemma posix_none ws i : Forall (fun w => simple_word w /\ (HasPrefix w "-" = true -> letter_c w = false)) ws -> posix_payload i ws = None.
Proof.
  revert i. induction ws as [ws IH] using (induction_ltof1 _ (@length string)). unfold ltof in IH. intros i Hws.
  destruct Hws as [|w ws [Hw Hc] Hws]; [done|]. cbn [posix_payload]. rewrite simple_trim, simple_nonempty, simple_separator by done.
  destruct (HasPrefix w "-") eqn:Hd; [|done]. rewrite flag_letter, Hc by done. destruct (negb (w =? "-")); [|done]. cbn [andb].
  destruct (shellOptionNeedsValue w); [|apply IH; [cbn [length]; lia|done]]. destruct Hws as [|v ws _ Hws]; [done|]. apply IH; [cbn [length]; lia|done].
Qed.

Lemma program_not_in program names x : program_word program -> program_name program ∉ names -> incl x names -> one_of x (executableBase program) = false.
Proof.
  intros Hp Hn Hi. rewrite program_base by done. apply not_true_is_false. rewrite one_of_spec. intros Hx. apply Hn.
  apply list_elem_of_In, Hi. by apply list_elem_of_In.
Qed.
End Reading.
