(* ===== verification/GitPolicy.v ===== *)
(** * Git commands in shell text

    Models [agent-sdk/policy/presets/git_policy.go]: which Git commands need an
    approval because they discard work or reach a remote.  The classifier
    descends into shell payloads at any depth; [gitCommandApprovalReason] runs
    with one unit of fuel per solid byte of the command and one more, and
    [git_reason_total] shows that this is enough. *)

From Stdlib Require Import ZArith Lia Ascii String Wf_nat.
From stdpp Require Import base option strings list sets.
From S2P Require Import Prelude GoStrings GoText ShellParse ShellFacts ShellScript.

Open Scope string_scope.

Record gitCommand : Type := MkGit { Subcommand : string; Args : list string }.

Section Git.
Context {L : Lower}.

(** ** Flags *)

Definition gitExactFlag (name token : string) : bool := token =? name.
Definition gitLongFlag (name token : string) : bool := (token =? name) || HasPrefix token (name ++ "=").
Definition gitLongPrefixFlag (name token : string) : bool := (token =? name) || HasPrefix token (name ++ "=") || HasPrefix token name.
Definition gitShortClusterFlag (short token : string) : bool :=
  HasPrefix token "-" && negb (HasPrefix token "--") && contains (TrimPrefix token "-") short.

Definition gitHasFlag (args : list string) (matchers : list (string -> bool)) : bool :=
  existsb (fun arg => let token := ToLower (trimShellToken arg) in nonempty token && existsb (fun m => m token) matchers) args.

Definition gitCleanDryRun (args : list string) : bool :=
  gitHasFlag args [gitExactFlag "-n"; gitShortClusterFlag "n"; gitLongFlag "--dry-run"].

Definition gitPushForce (args : list string) : bool :=
  gitHasFlag args [gitLongFlag "--force"; gitLongPrefixFlag "--force-with-lease"; gitLongPrefixFlag "--force-if-includes"; gitShortClusterFlag "f"].

Fixpoint checkout_discards (afterDoubleDash : bool) (args : list string) : bool :=
  match args with
  | [] => false
  | arg :: r =>
    let token := trimShellToken arg in
    if token =? "--" then checkout_discards true r else
    if afterDoubleDash && nonempty token then true else
    if (token =? ".") || (token =? ":/") then true else checkout_discards afterDoubleDash r
  end.
Definition gitCheckoutDiscardsWorktree (args : list string) : bool := checkout_discards false args.

Definition gitRestoreDiscardsWorktree (args : list string) : bool :=
  let tokens := map trimShellToken args in
  let hasPath := existsb (fun token => nonempty token && negb (one_of ["--staged"; "--worktree"; "--"] token) && negb (HasPrefix token "-")) tokens in
  hasPath && (negb (one_of tokens "--staged") || one_of tokens "--worktree").

(** ** Classification *)

Definition classifyGitCommand (git : gitCommand) : string :=
  if gitHasFlag (Args git) [gitLongFlag "--help"; gitExactFlag "-h"] then "" else
  if Subcommand git =? "clean" then
    if negb (gitCleanDryRun (Args git)) then "git clean without dry-run can irreversibly remove untracked files" else "" else
  if Subcommand git =? "reset" then
    if gitHasFlag (Args git) [gitLongFlag "--hard"] then "git reset --hard discards index and worktree changes" else "" else
  if Subcommand git =? "checkout" then
    if gitCheckoutDiscardsWorktree (Args git) then "git checkout path restore discards worktree changes" else "" else
  if Subcommand git =? "restore" then
    if gitRestoreDiscardsWorktree (Args git) then "git restore discards worktree changes" else "" else
  if Subcommand git =? "push" then
    if gitPushForce (Args git) then "forced git push can rewrite remote history"
    else "git push may update the remote before a later local Git metadata write fails in the sandbox"
  else "".

(** ** Git commands of a text *)

Definition isGitGlobalOptionWithSeparateValue (token : string) : bool :=
  let lower := ToLower (trim_space token) in
  if contains lower "=" then false
  else one_of ["-c"; "--git-dir"; "--work-tree"; "--namespace"; "--exec-path"; "--config-env"] lower.

Definition isGitCommand (token : string) : bool := one_of ["git"; "git.exe"] (executableBase token).

(** The loop of [gitSubcommand], on the fields from index [i]. *)
Fixpoint git_subcommand (i : nat) (l : list string) : option (string * nat) :=
  match l with
  | [] => None
  | f :: r =>
    let token := trimShellToken f in
    if (token =? "") || isShellCommandSeparator token then None else
    if isEnvAssignment token then git_subcommand (S i) r else
    if (token =? "env") || (executableBase token =? "env") || (executableBase token =? "env.exe") then git_subcommand (S i) r else
    if isGitGlobalOptionWithSeparateValue token then match r with [] => None | _ :: r2 => git_subcommand (S (S i)) r2 end else
    if HasPrefix token "-" then git_subcommand (S i) r else
    Some (ToLower token, S i)
  end.
Definition gitSubcommand (fields : list string) (start : nat) : option (string * nat) := git_subcommand start (drop start fields).

(** The arguments up to the end of the segment. *)
Fixpoint git_args (l : list string) : list string :=
  match l with
  | [] => []
  | f :: r => let token := trimShellToken f in if (token =? "") || isShellCommandSeparator token then [] else token :: git_args r
  end.

Definition git_at (fields : list string) (i : nat) : list gitCommand :=
  if isGitCommand (fields !!! i) then
    match gitSubcommand fields (S i) with
    | Some (subcommand, argsStart) => [MkGit subcommand (git_args (drop argsStart fields))]
    | None => []
    end
  else [].

Definition git_commands_of (fields : list string) : list gitCommand := commandStartIndexes fields ≫= git_at fields.
Definition gitCommands (command : string) : list gitCommand := git_commands_of (shellishFields command).

(** The first reason that is not empty. *)
Fixpoint first_reason (reasons : list string) : string :=
  match reasons with
  | [] => ""
  | r :: rest => if r =? "" then first_reason rest else r
  end.

(** [gitCommandApprovalReason]; [None] when the fuel runs out. *)
Fixpoint git_reason (fuel : nat) (command : string) : option string :=
  match fuel with
  | O => None
  | S fuel =>
    let here := first_reason (map classifyGitCommand (gitCommands command)) in
    if here =? "" then first_reason <$> mapM (git_reason fuel) (shellCommandPayloads command) else Some here
  end.

Definition gitCommandApprovalReason (command : string) : string := default "" (git_reason (S (solid command)) command).

(** ** Facts *)

Lemma git_reason_more n m c : (solid c < n)%nat -> (solid c < m)%nat -> git_reason n c = git_reason m c /\ is_Some (git_reason n c).
Proof.
  revert m c. induction n as [|n IH]; intros m c Hn Hm; [lia|]. destruct m as [|m]; [lia|]. cbn [git_reason].
  destruct (first_reason _ =? ""); [|done].
  assert (H : Forall (fun p => git_reason n p = git_reason m p /\ is_Some (git_reason n p)) (shellCommandPayloads c)).
  { apply Forall_forall. intros p (start&_&_&Hp)%payload_facts. apply IH; lia. }
  induction H as [|p ps [Hp [r Hr]] Hps IHp]; [done|]. cbn [mapM]. rewrite <- Hp, Hr. cbn [mbind option_bind].
  destruct IHp as [E1 [s Hs]]. destruct (mapM (git_reason n) ps) as [x|] eqn:En, (mapM (git_reason m) ps) as [y|]; cbn in *; try done.
  injection E1 as E1. by rewrite E1.
Qed.

(** The recursive equation of the source. *)
Lemma git_reason_equation c :
  gitCommandApprovalReason c
  = first_reason (map classifyGitCommand (gitCommands c) ++ map gitCommandApprovalReason (shellCommandPayloads c)).
Proof.
  assert (Happ : forall l k, first_reason (l ++ k) = if first_reason l =? "" then first_reason k else first_reason l).
  { intros l k. induction l as [|x l IH]; [done|]. simpl. destruct (String.eqb_spec x ""); [done|]. by apply String.eqb_neq in n as ->. }
  rewrite Happ. unfold gitCommandApprovalReason at 1. cbn [git_reason]. destruct (first_reason _ =? ""); [|done].
  assert (H : Forall (fun p => git_reason (solid c) p = Some (gitCommandApprovalReason p)) (shellCommandPayloads c)).
  { apply Forall_forall. intros p (start&_&_&Hp)%payload_facts. unfold gitCommandApprovalReason.
    destruct (git_reason_more (S (solid p)) (solid c) p) as [E [r Hr]]; [lia..|]. by rewrite <- E, Hr. }
  assert (E : mapM (git_reason (solid c)) (shellCommandPayloads c) = Some (map gitCommandApprovalReason (shellCommandPayloads c))).
  { apply mapM_Some. induction H; constructor; auto. }
  by rewrite E.
Qed.

(** Any fuel above the size of the command gives the result, so the recursion of the source ends. *)
Lemma git_reason_total n c : (solid c < n)%nat -> git_reason n c = Some (gitCommandApprovalReason c).
Proof.
  intros Hn. unfold gitCommandApprovalReason. destruct (git_reason_more n (S (solid c)) c Hn) as [E [r Hr]]; [lia|]. by rewrite <- E, Hr.
Qed.

Lemma first_reason_empty l : first_reason l = "" <-> Forall (fun r => r = "") l.
Proof.
  induction l as [|r l IH]; [by split|]. simpl. rewrite Forall_cons. destruct (String.eqb_spec r ""); [|naive_solver]. by rewrite IH; intuition.
Qed.

(** ** The Git commands a text runs *)

(** Directly, or through the payload of a shell, at any depth. *)
Inductive runs_git : string -> gitCommand -> Prop :=
| runs_here c g : g ∈ gitCommands c -> runs_git c g
| runs_in_payload c p g : p ∈ shellCommandPayloads c -> runs_git p g -> runs_git c g.

Lemma git_reason_iff c : gitCommandApprovalReason c <> "" <-> exists g, runs_git c g /\ classifyGitCommand g <> "".
Proof.
  split.
  - induction c as [c IH] using (induction_ltof1 _ solid). unfold ltof in IH. rewrite git_reason_equation, first_reason_empty.
    intros H. apply not_Forall_Exists in H; [|intros x; apply _]. apply Exists_exists in H as (r&[(g&->&Hg)%list_elem_of_fmap|(p&->&Hp)%list_elem_of_fmap]%elem_of_app&Hr).
    + exists g. split; [by constructor|done].
    + destruct (payload_facts c p Hp) as (start&_&_&Hlt). destruct (IH p Hlt Hr) as (g&Hg&Hne). exists g. split; [by eapply runs_in_payload|done].
  - intros (g&Hg&Hne). induction Hg as [c g Hg|c p g Hp _ IH]; rewrite git_reason_equation, first_reason_empty, Forall_app, !Forall_forall.
    + intros [H _]. apply Hne, H. by apply list_elem_of_fmap_2.
    + intros [_ H]. apply (IH Hne), H. by apply list_elem_of_fmap_2.
Qed.

(** ** Where a written command is found *)

Definition segment_begin (before : list string) : Prop :=
  before = [] \/ exists b s, before = (b ++ [s])%list /\ isShellCommandSeparator (trimShellToken s) = true.

Lemma start_indexes_found fs f rest j : forall before inSegment i,
  (before = [] -> inSegment = false) -> (before <> [] -> segment_begin before) ->
  isShellCommandSeparator (trimShellToken f) = false -> commandStartIndexInSegment fs (i + length before) = Some j ->
  j ∈ start_indexes fs inSegment i (before ++ f :: rest).
Proof.
  induction before as [|x before IH]; intros inSegment i Hnil Hb Hf Hj.
  - cbn [app start_indexes]. rewrite Hf, Hnil by done. rewrite Nat.add_0_r in Hj. rewrite Hj. by left.
  - assert (Hnext : forall b', (before = [] -> b' = false) -> j ∈ start_indexes fs b' (S i) (before ++ f :: rest)).
    { intros b' Hb'. apply IH; [done| |done|by rewrite Nat.add_succ_comm]. intros Hne.
      destruct (Hb ltac:(done)) as [|(b&s&E&Hs)]; [done|]. destruct b as [|y b]; [by injection E as _ ->|].
      injection E as -> ->. right. by exists b, s. }
    cbn [app start_indexes]. destruct (isShellCommandSeparator (trimShellToken x)) eqn:Hx; [by apply Hnext|].
    assert (Hne : before <> []).
    { intros ->. destruct (Hb ltac:(done)) as [|(b&s&E&Hs)]; [done|]. destruct b as [|y [|z b]]; by injection E as ->; rewrite ?Hx in Hs. }
    destruct inSegment; [by apply Hnext|]. apply elem_of_app. right. by apply Hnext.
Qed.

Lemma starts_found fs before f rest j :
  fs = (before ++ f :: rest)%list -> segment_begin before -> isShellCommandSeparator (trimShellToken f) = false ->
  commandStartIndexInSegment fs (length before) = Some j -> j ∈ commandStartIndexes fs.
Proof. intros -> Hb Hf Hj. apply start_indexes_found; auto. Qed.
End Git.

(** ** Which Git commands need an approval *)

Definition long_option (name a : string) : Prop := lower_ascii a = name \/ HasPrefix (lower_ascii a) (name ++ "=") = true.
Definition short_option (c : ascii) (a : string) : Prop :=
  HasPrefix (lower_ascii a) "-" = true /\ HasPrefix (lower_ascii a) "--" = false /\ c ∈ bytes (lower_ascii a).

Definition asks_help (args : list string) : Prop := exists a, a ∈ args /\ (lower_ascii a = "-h" \/ long_option "--help" a).
Definition dry_run (args : list string) : Prop := exists a, a ∈ args /\ (short_option "n" a \/ long_option "--dry-run" a).
Definition names_paths (args : list string) : Prop :=
  "." ∈ args \/ ":/" ∈ args \/ exists before after path, args = (before ++ "--" :: after)%list /\ path ∈ after /\ path <> "--".
Definition only_index (args : list string) : Prop := "--staged" ∈ args /\ "--worktree" ∉ args.

(** A push, and what throws away work: a hard reset, a clean that is no dry
    run, a checkout of paths, a restore of paths of the worktree. *)
Inductive destructive (args : list string) : string -> Prop :=
| destructive_push : destructive args "push"
| destructive_reset a : a ∈ args -> long_option "--hard" a -> destructive args "reset"
| destructive_clean : ~ dry_run args -> destructive args "clean"
| destructive_checkout : names_paths args -> destructive args "checkout"
| destructive_restore path : path ∈ args -> HasPrefix path "-" = false -> ~ only_index args -> destructive args "restore".

Definition needs_approval (run : string * list string) : Prop := ~ asks_help run.2 /\ destructive run.2 run.1.

Section Meaning.
Context {L : Lower} {LL : LowerLaws}.

Lemma has_flag args matchers : Forall simple_word args ->
  gitHasFlag args matchers = true <-> exists a, a ∈ args /\ existsb (fun m => m (lower_ascii a)) matchers = true.
Proof.
  intros Ha. unfold gitHasFlag. rewrite existsb_elem. split; intros (a&Hin&H); exists a.
  all: pose proof (proj1 (Forall_forall _ _) Ha a) as Hs.
  - specialize (Hs Hin). cbv zeta in H. rewrite simple_trim, simple_to_lower in H by (done || apply Hs). apply andb_true_iff in H as [_ H]. by split.
  - specialize (Hs Hin). split; [done|]. cbv zeta. rewrite simple_trim, simple_to_lower, H, andb_true_r by (done || apply Hs).
    apply nonempty_spec. intros E. apply Hs. apply (f_equal bytes) in E. rewrite lower_bytes in E. by destruct a.
Qed.

Lemma long_flag name a : gitLongFlag name (lower_ascii a) = true <-> long_option name a.
Proof. unfold gitLongFlag, long_option. by rewrite orb_true_iff, String.eqb_eq. Qed.

Lemma help_flag args : Forall simple_word args -> gitHasFlag args [gitLongFlag "--help"; gitExactFlag "-h"] = true <-> asks_help args.
Proof.
  intros Ha. rewrite has_flag by done. unfold asks_help. f_equiv. intros a. cbn [existsb]. rewrite !orb_true_iff, long_flag. unfold gitExactFlag.
  rewrite String.eqb_eq. intuition discriminate.
Qed.

Lemma hard_flag args : Forall simple_word args -> gitHasFlag args [gitLongFlag "--hard"] = true <-> exists a, a ∈ args /\ long_option "--hard" a.
Proof. intros Ha. rewrite has_flag by done. f_equiv. intros a. cbn [existsb]. rewrite orb_false_r, long_flag. done. Qed.

Lemma cluster_flag c a : c <> "-"%char -> gitShortClusterFlag (String c "") (lower_ascii a) = true <-> short_option c a.
Proof.
  intros Hc. unfold gitShortClusterFlag, short_option. rewrite !andb_true_iff, negb_true_iff, contains_byte, existsb_elem.
  setoid_rewrite Ascii.eqb_eq. unfold TrimPrefix. split.
  - intros [[H1 H2] (x&Hx&<-)]. split_and!; [done..|]. rewrite H1 in Hx. destruct (lower_ascii a); [done|]. by right.
  - intros (H1&H2&Hx). split; [done|]. exists c. split; [|done]. rewrite H1. destruct (lower_ascii a) as [|b w]; [done|].
    change (c ∈ b :: bytes w) in Hx. apply elem_of_cons in Hx as [->|]; [|done]. exfalso. unfold HasPrefix in H1. cbn [String.prefix] in H1.
    by destruct (ascii_dec "-" b).
Qed.

Lemma dry_flag args : Forall simple_word args -> gitCleanDryRun args = true <-> dry_run args.
Proof.
  intros Ha. unfold gitCleanDryRun. rewrite has_flag by done. unfold dry_run. f_equiv. intros a. cbn [existsb]. rewrite !orb_true_iff, long_flag, cluster_flag by done.
  unfold gitExactFlag. rewrite String.eqb_eq. split; [|intuition discriminate]. intros (Hin&[E|[|[|]]]); [|by auto..|done]. split; [done|]. left.
  unfold short_option. rewrite E. split_and!; [done..|]. cbn. set_solver.
Qed.

Lemma checkout_paths args : Forall simple_word args -> gitCheckoutDiscardsWorktree args = true <-> names_paths args.
Proof.
  intros Ha. unfold gitCheckoutDiscardsWorktree.
  assert (G : forall b, checkout_discards b args = true <-> names_paths args \/ b = true /\ exists p, p ∈ args /\ p <> "--").
  { induction Ha as [|w args Hw Ha IH]; intros b; cbn [checkout_discards].
    - split; [done|]. intros [[H|[H|(x&y&p&E&_)]]|(_&p&H&_)]; [by apply elem_of_nil in H..|by destruct x|by apply elem_of_nil in H].
    - rewrite simple_trim by done. destruct (String.eqb_spec w "--") as [->|Hd].
      + rewrite IH. unfold names_paths. split.
        * intros [[?|[?|(x&y&p&->&?)]]|(_&p&Hp&Hn)]; [left; set_solver..| |]; left; right; right; [by exists ("--" :: x), y, p|by exists [], args, p].
        * intros [[[|]%elem_of_cons|[[|]%elem_of_cons|(x&y&p&E&Hp&Hn)]]|(_&p&[->|]%elem_of_cons&Hn)]; try done; [left; auto..| |right; split; [done|by exists p]].
          destruct x as [|x' x]; cbn [app] in E; simplify_eq; [right; split; [done|by exists p]|]. left. right. right. by exists x, y, p.
      + assert (Hne : nonempty w = true) by apply nonempty_spec, Hw. rewrite Hne, andb_true_r. destruct b; [split; [|done]; intros _; right; split; [done|]; exists w; set_solver|].
        destruct ((w =? ".") || (w =? ":/")) eqn:E.
        * split; [|done]. intros _. left. apply orb_true_iff in E as [->%String.eqb_eq| ->%String.eqb_eq]; [left|right; left]; set_solver.
        * apply orb_false_iff in E as [E1%String.eqb_neq E2%String.eqb_neq]. rewrite IH. unfold names_paths. split.
          -- intros [[?|[?|(x&y&p&->&?)]]|[? _]]; [left; set_solver..| |done]. left. right. right. by exists (w :: x), y, p.
          -- intros [[[|]%elem_of_cons|[[|]%elem_of_cons|(x&y&p&E&Hp&Hn)]]|[? _]]; try done; [left; auto..|]. left. right. right.
             destruct x as [|x' x]; cbn [app] in E; simplify_eq. by exists x, y, p. }
  rewrite G. split; [intros [|[? _]]; done|by left].
Qed.

Lemma restore_paths args : Forall simple_word args ->
  gitRestoreDiscardsWorktree args = true <-> (exists path, path ∈ args /\ HasPrefix path "-" = false) /\ ~ only_index args.
Proof.
  intros Ha. unfold gitRestoreDiscardsWorktree. assert (E : map trimShellToken args = args) by (induction Ha; [done|]; cbn; by rewrite simple_trim; f_equal).
  rewrite E, andb_true_iff, existsb_elem. apply ZifyClasses.and_morph.
  - f_equiv. intros p. split; intros [Hin H]; (split; [done|]).
    + rewrite !andb_true_iff, negb_true_iff in H. by apply negb_true_iff, H.
    + pose proof (proj1 (Forall_forall _ _) Ha p Hin) as [Hne _]. rewrite H, (proj2 (nonempty_spec p) Hne). cbn [negb andb]. rewrite andb_true_r.
      apply negb_true_iff, not_true_is_false. rewrite one_of_spec. rewrite !elem_of_cons, elem_of_nil. by intros [->|[->|[->|[]]]].
  - unfold only_index. rewrite orb_true_iff, negb_true_iff, <- not_true_iff_false, !one_of_spec. destruct (decide ("--worktree" ∈ args)), (decide ("--staged" ∈ args)); tauto.
Qed.

(** The classifier answers as the description says. *)
Lemma classify_spec verb args : Forall simple_word args -> classifyGitCommand (MkGit verb args) <> "" <-> needs_approval (verb, args).
Proof.
  intros Ha. unfold classifyGitCommand, needs_approval. cbn [Subcommand Args fst snd].
  pose proof (help_flag args Ha) as Hh. destruct (gitHasFlag args [gitLongFlag "--help"; gitExactFlag "-h"]).
  { split; [done|]. intros [Hn _]. by destruct Hn; apply Hh. }
  assert (Hn : ~ asks_help args) by (rewrite <- Hh; done). clear Hh.
  enough (Hd : (if verb =? "clean" then negb (gitCleanDryRun args) else if verb =? "reset" then gitHasFlag args [gitLongFlag "--hard"]
    else if verb =? "checkout" then gitCheckoutDiscardsWorktree args else if verb =? "restore" then gitRestoreDiscardsWorktree args
    else verb =? "push") = true <-> destructive args verb).
  { rewrite <- Hd. repeat (destruct (verb =? _); [case_match; naive_solver|]). naive_solver. }
  destruct (String.eqb_spec verb "clean") as [->|H1].
  { rewrite negb_true_iff, <- not_true_iff_false, (dry_flag args Ha). split; [by apply destructive_clean|by inversion 1]. }
  destruct (String.eqb_spec verb "reset") as [->|H2].
  { rewrite (hard_flag args Ha). split; [intros (a&?&?); by eapply destructive_reset|inversion 1; eauto]. }
  destruct (String.eqb_spec verb "checkout") as [->|H3].
  { rewrite (checkout_paths args Ha). split; [by apply destructive_checkout|by inversion 1]. }
  destruct (String.eqb_spec verb "restore") as [->|H4].
  { rewrite (restore_paths args Ha). split; [intros [(p&?&?) ?]; by eapply destructive_restore|inversion 1; eauto]. }
  rewrite String.eqb_eq. split; [intros ->; constructor|by inversion 1].
Qed.
End Meaning.

(** ** The Git commands of a script *)

Section Scripts.
Context {L : Lower} {LL : LowerLaws}.

Lemma drop_str_elem n s a t : drop_str n s = String a t -> a ∈ bytes s.
Proof.
  revert s. induction n as [|n IH]; intros s; destruct s as [|b s]; cbn [drop_str]; try done; [intros [= -> _]; by left|].
  intros H%IH. by right.
Qed.

Lemma suffix_byte s a t : a ∉ bytes s -> HasSuffix s (String a t) = false.
Proof.
  intros Ha. unfold HasSuffix. apply andb_false_iff. right. apply String.eqb_neq. intros E. apply Ha. by eapply drop_str_elem.
Qed.

Lemma verb_lower l : Forall (fun a => verb_byte a = true) l -> map lower_byte l = l.
Proof. induction 1 as [|a l Ha _ IH]; [done|]. cbn [map]. rewrite IH. f_equal. by destruct a as [[] [] [] [] [] [] [] []]. Qed.

Lemma verb_program verb : verb_ok verb -> lower_ascii verb = verb /\ program_word verb /\ program_name verb = verb /\ program_name verb <> "env" /\ program_name verb <> "env.exe".
Proof.
  intros Hv. pose proof Hv as (Hb&Hd&Hne&Hn). assert (Hl : lower_ascii verb = verb) by (unfold lower_ascii; by rewrite verb_lower, text_bytes).
  assert (Hnot : forall a, verb_byte a = false -> a ∉ bytes verb) by (intros a Ha Hin; by rewrite (proj1 (Forall_forall _ _) Hb a Hin) in Ha).
  assert (Hp : program_name verb = verb).
  { unfold program_name, Split. rewrite Hl. pose proof (Hnot "/"%char eq_refl) as Hs. clear -Hs. rewrite <- (text_bytes verb) at 2.
    change (bytes verb) with ([] ++ bytes verb)%list at 2. revert Hs. generalize (@nil ascii). induction (bytes verb) as [|a l IH]; intros word Hs; [by rewrite app_nil_r|].
    rewrite split_last_cons. apply not_elem_of_cons in Hs as [Ha Hs]. rewrite (proj2 (Ascii.eqb_neq a "/")) by done. rewrite (IH (word ++ [a])%list Hs). by rewrite <- app_assoc. }
  split; [done|]. split; [|split; [done|rewrite Hp; split; [done|]]].
  - split; [by apply verb_simple|]. rewrite Hl, Hp. split_and!; [|done|done|apply suffix_byte; by apply Hnot..].
    pose proof (Hnot "="%char eq_refl) as Hs. clear -Hs. induction verb as [|a s IH]; [done|]. change (bytes (String a s)) with (a :: bytes s) in Hs.
    apply not_elem_of_cons in Hs as [Ha Hs]. cbn [index_byte]. rewrite (proj2 (Ascii.eqb_neq a "=")) by done. by rewrite IH.
  - intros ->. by apply (Hnot "."%char eq_refl), list_elem_of_In; cbn; tauto.
Qed.

Lemma dash_not_assignment w : HasPrefix w "-" = true -> isEnvAssignment w = false.
Proof. intros Hd. unfold isEnvAssignment. by rewrite Hd, orb_true_r. Qed.

Lemma setting_spec w : simple_word w -> isGitGlobalOptionWithSeparateValue w = true <-> contains (lower_ascii w) "=" = false /\ git_setting w = true.
Proof.
  intros Hw. unfold isGitGlobalOptionWithSeparateValue, git_setting. rewrite simple_trim_space, simple_to_lower by (done || apply Hw).
  destruct (contains _ _); split; [done|by intros []|by split|by intros []].
Qed.

Lemma git_subcommand_globals globals verb args tail i : Forall global_ok globals -> verb_ok verb ->
  git_subcommand i ((globals ≫= global_words) ++ verb :: args ++ tail) = Some (verb, (i + length (globals ≫= global_words) + 1)%nat).
Proof.
  intros Hg Hv. revert i. induction Hg as [|g globals Hg _ IH]; intros i; cbn [mbind list_bind].
  - destruct (verb_program verb Hv) as (Hl&Hp&Hn&He&Hx). pose proof (verb_simple verb Hv) as Hs. cbn [app git_subcommand length].
    rewrite simple_trim, simple_nonempty, simple_separator, program_not_assignment, program_base, Hn by done. rewrite Hn in He, Hx.
    rewrite (proj2 (String.eqb_neq verb "env")), (proj2 (String.eqb_neq verb "env.exe")) by done. cbn [orb].
    assert (E : isGitGlobalOptionWithSeparateValue verb = false).
    { apply not_true_is_false. intros [_ H]%setting_spec; [|done]. unfold git_setting in H. rewrite Hl in H. apply one_of_spec in H. destruct Hv as (_&Hd&_).
      rewrite !elem_of_cons, elem_of_nil in H. by destruct H as [->|[->|[->|[->|[->|[->|[]]]]]]]. }
    rewrite E. destruct Hv as (_&Hd&_). rewrite Hd, simple_to_lower, Hl by apply Hs. do 2 f_equal. lia.
  - destruct g as [name|name value]; cbn [global_words global_ok app length] in *; cbn [git_subcommand].
    + destruct Hg as (Hw&Hd&Hset). rewrite simple_trim, simple_nonempty, simple_separator, dash_not_assignment by done.
      assert (E : isGitGlobalOptionWithSeparateValue name = false) by (apply not_true_is_false; intros [_ H]%setting_spec; [by rewrite H in Hset|done]).
      rewrite E, Hd. fold (globals ≫= global_words). rewrite IH. cbn [orb]. case_match; do 2 f_equal; lia.
    + destruct Hg as (Hw&Hd&Hset&Hval). rewrite simple_trim, simple_nonempty, simple_separator, dash_not_assignment by done.
      assert (Hb : (name =? "env") = false /\ (executableBase name =? "env") = false /\ (executableBase name =? "env.exe") = false /\ contains (lower_ascii name) "=" = false).
      { unfold git_setting in Hset. apply one_of_spec in Hset. rewrite !elem_of_cons, elem_of_nil in Hset.
        split; [apply String.eqb_neq; intros ->; done|]. unfold executableBase. rewrite simple_trim, simple_to_lower by (done || apply Hw).
        destruct Hset as [->|[->|[->|[->|[->|[->|[]]]]]]]; vm_compute; auto. }
      destruct Hb as (->&->&->&Hc). cbn [orb]. rewrite (proj2 (setting_spec name Hw)) by done. fold (globals ≫= global_words). rewrite IH. do 2 f_equal. lia.
Qed.

Lemma git_args_words args tail : Forall simple_word args -> tail = [] \/ (exists op r, op ∈ separators /\ tail = op :: r) -> git_args (args ++ tail) = args.
Proof.
  intros Ha Ht. induction Ha as [|w args Hw _ IH]; cbn [app git_args].
  - destruct Ht as [->|(op&r&Hop&->)]; [done|]. cbn [git_args]. rewrite (token_trim op) by by apply separator_token.
    assert (E : isShellCommandSeparator op = true) by by apply one_of_spec. by rewrite E, orb_true_r.
  - rewrite simple_trim, simple_nonempty, simple_separator by done. cbn [orb]. by rewrite IH.
Qed.

Lemma rest_start t : rest_ok t -> rest_words t = [] \/ (exists op r, op ∈ separators /\ rest_words t = op :: r).
Proof. destruct 1 as [|[op s] t [Hop _] _]; [by left|right]. exists op. by eexists. Qed.

(** The command at the place of a segment. *)
Lemma git_at_segment pre s t : segment_ok s -> rest_ok t ->
  git_at (pre ++ segment_words s ++ rest_words t) (length pre + launch_length s)
  = match s with ([], (_, Some (verb, args))) => [MkGit verb args] | _ => [] end.
Proof.
  intros Hs Ht. unfold git_at. unfold segment_words, launch_length. pose proof (segment_parts_ok s Hs) as Hp. destruct (segment_parts s) as [[l p] r] eqn:Ep.
  destruct Hp as (_&Hp&_&_). cbn [fst snd]. set (all := (pre ++ (l ++ p :: r) ++ rest_words t)%list).
  assert (Hall : all = ((pre ++ l) ++ p :: r ++ rest_words t)%list) by (subst all; by rewrite <- !app_assoc).
  assert (Hat : all !!! (length pre + length l)%nat = p).
  { rewrite Hall, <- length_app. apply list_lookup_total_middle. done. }
  assert (Hdrop : drop (S (length pre + length l)) all = (r ++ rest_words t)%list).
  { rewrite Hall, <- length_app, <- Nat.add_1_r, <- drop_drop, drop_app_length. done. }
  rewrite Hat. unfold isGitCommand. rewrite program_base by done. destruct s as [[|[[l' p'] os] heads] [cmd git]]; destruct Hs as [Hh Hc]; cbn [fst snd] in *.
  - unfold segment_parts in Ep. cbn [fst snd] in Ep. subst cmd. unfold command_ok in Hc. cbn [fst snd] in Hc. destruct Hc as (_&_&_&_&Hg). destruct git as [[verb args]|].
    + destruct Hg as (Hgit&Hv&Ha&globals&->&Hgl). assert (E : one_of ["git"; "git.exe"] (program_name p) = true) by by apply one_of_spec. rewrite E.
      unfold gitSubcommand. rewrite Hdrop, <- app_assoc. cbn [app]. rewrite git_subcommand_globals by done.
      assert (Ed : drop (S (length pre + length l) + length (globals ≫= global_words) + 1) all = (args ++ rest_words t)%list).
      { rewrite <- Nat.add_assoc, <- drop_drop, Hdrop, <- app_assoc. rewrite <- drop_drop, drop_app_length. done. }
      rewrite Ed, git_args_words; [done..|by apply rest_start].
    + assert (E : one_of ["git"; "git.exe"] (program_name p) = false) by (apply not_true_is_false; by rewrite one_of_spec). by rewrite E.
  - apply Forall_cons in Hh as [(_&_&Hn&_) _]. unfold segment_parts in Ep. cbn [fst snd] in Ep. destruct (_ heads) as [[l2 p2] r2]. injection Ep as <- <- <-.
    assert (E : one_of ["git"; "git.exe"] (program_name p') = false); [|by rewrite E].
    apply not_true_is_false. rewrite one_of_spec. intros Hg%git_not_plain. apply Hg. unfold plain_names. rewrite !elem_of_app. auto.
Qed.

(** The payload at the place of a segment: what the outermost shell is given,
    with all that follows. *)
Lemma payload_segment command pre s t : segment_ok s -> rest_ok t ->
  shellishFields command = (pre ++ segment_words s ++ rest_words t)%list -> trim_space command = command ->
  payload_of (pre ++ segment_words s ++ rest_words t) command (length pre + launch_length s)
  = match s with (_ :: heads, c) => [Join (flat_words ((heads, c), t)) " "] | ([], _) => [] end.
Proof.
  intros Hs Ht Hfields Htrim. unfold payload_of. unfold segment_words, launch_length in *. pose proof (segment_parts_ok s Hs) as Hp.
  destruct (segment_parts s) as [[l p] r] eqn:Ep. destruct Hp as (_&Hp&_&_). cbn [fst snd]. set (all := (pre ++ (l ++ p :: r) ++ rest_words t)%list) in *.
  assert (Hall : all = ((pre ++ l) ++ p :: r ++ rest_words t)%list) by (subst all; by rewrite <- !app_assoc).
  assert (Hat : all !! (length pre + length l)%nat = Some p).
  { rewrite Hall, <- length_app. by apply list_lookup_middle. }
  assert (Hdrop : drop (S (length pre + length l)) all = (r ++ rest_words t)%list).
  { rewrite Hall, <- length_app, <- Nat.add_1_r, <- drop_drop, drop_app_length. done. }
  unfold shellPayloadStart. rewrite Hat, program_base by done. destruct s as [[|[[l' p'] os] heads] [cmd git]]; destruct Hs as [Hh Hc]; cbn [fst snd] in *.
  - unfold segment_parts in Ep. cbn [fst snd] in Ep. subst cmd. destruct Hc as (_&_&Hn&_). unfold plain_names in Hn. rewrite !not_elem_of_app in Hn. destruct Hn as (_&Hn&Ho).
    assert (E : forall x names : list string, (program_name p ∉ names) -> (forall y, y ∈ x -> y ∈ names) -> one_of x (program_name p) = false).
    { intros x names Hnot Hx. apply not_true_is_false. rewrite one_of_spec. intros Hin. by apply Hnot, Hx. }
    rewrite (E posix_shells posix_shells), (E ["cmd"; "cmd.exe"] other_shells), (E ["powershell"; "powershell.exe"; "pwsh"; "pwsh.exe"] other_shells); [done|..|done|].
    all: try done; unfold other_shells; intros y; rewrite !elem_of_cons; tauto.
  - apply Forall_cons in Hh as [(_&_&Hn&opts&flag&->&Hopts&Hflag) Hh]. unfold segment_parts in Ep. cbn [fst snd] in Ep.
    assert (Ew : exists l2 p2 r2, segment_parts (heads, (cmd, git)) = (l2, p2, r2) /\ r = ((opts ++ [flag]) ++ l2 ++ p2 :: r2)%list /\ l = l' /\ p = p').
    { unfold segment_parts. cbn [fst snd]. destruct (_ heads) as [[l2 p2] r2]. injection Ep as <- <- <-. eauto 10. }
    destruct Ew as (l2&p2&r2&Eparts&->&_&->). assert (E : one_of posix_shells (program_name p') = true) by by apply one_of_spec. rewrite E.
    unfold posixShellPayloadStart. rewrite Hdrop, <- !app_assoc. cbn [app]. rewrite posix_found by done.
    assert (Hwords : drop (S (length pre + length l) + length opts + 1) all = flat_words ((heads, (cmd, git)), t)).
    { rewrite <- Nat.add_assoc, <- drop_drop, Hdrop, <- !app_assoc, <- drop_drop, drop_app_length. cbn [app drop]. unfold flat_words, segment_words. cbn [fst snd].
      rewrite Eparts, <- app_assoc. done. }
    assert (Hok : flat_ok ((heads, (cmd, git)), t)) by done. pose proof (flat_tokens _ Hok) as Htok.
    assert (Hne : flat_words ((heads, (cmd, git)), t) <> []).
    { unfold flat_words, segment_words. cbn [fst snd]. rewrite Eparts. by destruct l2. }
    assert (Hlen : (S (length pre + length l) + length opts + 1 <? length all)%nat = true).
    { apply Nat.ltb_lt. rewrite <- Hwords in Hne. destruct (Nat.le_gt_cases (length all) (S (length pre + length l) + length opts + 1)); [|done]. by rewrite drop_ge in Hne. }
    rewrite Hlen, Hwords, trim_space_joined; [|done|eapply Forall_impl; [exact Htok|by intros ? []]]. cbv zeta.
    assert (Hn1 : nonempty (Join (flat_words ((heads, (cmd, git)), t)) " ") = true).
    { apply nonempty_spec. intros E0. apply (f_equal solid) in E0. rewrite solid_join in E0. destruct (flat_words _) as [|w ws]; [done|]. apply Forall_cons in Htok as [Hw _].
      apply token_solid in Hw. rewrite solids_cons in E0. change (solid "") with 0%nat in E0. lia. }
    assert (Hn2 : (Join (flat_words ((heads, (cmd, git)), t)) " " =? trim_space command) = false).
    { apply String.eqb_neq. intros E0. rewrite Htrim in E0. apply (f_equal solid) in E0. rewrite solid_join, <- Hwords in E0.
      pose proof (shellish_solid command) as H1. rewrite Hfields in H1. pose proof (solids_lookup all _ p' Hat) as H2.
      assert (H3 : (1 <= solid p')%nat) by (apply token_solid, simple_token, Hp).
      pose proof (solids_drop (length opts + 1) (drop (S (length pre + length l)) all)) as H4. rewrite drop_drop, Nat.add_assoc in H4. lia. }
    by rewrite Hn1, Hn2.
Qed.

Lemma shellish_join ws : Forall shell_token ws -> shellishFields (Join ws " ") = ws.
Proof.
  intros Hws. unfold shellishFields, Fields. rewrite bytes_text, fields_join_tokens by done. induction Hws as [|w ws Hw _ IH]; [done|].
  cbn [map List.filter]. by rewrite token_trim, (proj2 (nonempty_spec w) (proj1 (proj1 Hw))), IH.
Qed.

(** A text that is read as a flat script. *)
Definition reads (c : string) (f : flat) : Prop := flat_ok f /\ shellishFields c = flat_words f /\ trim_space c = c.

Lemma reads_join f : flat_ok f -> reads (Join (flat_words f) " ") f.
Proof.
  intros Hf. pose proof (flat_tokens f Hf) as Ht. split; [done|]. split; [by apply shellish_join|]. apply trim_space_joined; [|eapply Forall_impl; [exact Ht|by intros ? []]].
  unfold flat_words, segment_words. destruct (segment_parts f.1) as [[l p] r]. by destruct l.
Qed.

Lemma reads_git c f g : reads c f -> g ∈ gitCommands c <-> exists f', tail_of f f' /\ match f'.1 with ([], (_, Some (verb, args))) => g = MkGit verb args | _ => False end.
Proof.
  intros (Hf&Hw&_). unfold gitCommands, git_commands_of. rewrite Hw.
  rewrite (flat_walk f git_at (fun s t => match s with ([], (_, Some (verb, args))) => [MkGit verb args] | _ => [] end) Hf).
  - rewrite walk_elem. destruct f as [s t]. f_equiv. intros f'. destruct (f'.1) as [[|h heads] [cmd [[verb args]|]]]; rewrite ?list_elem_of_singleton, ?elem_of_nil; tauto.
  - intros pre s t -> Hs Ht. by apply git_at_segment.
Qed.

Lemma reads_payload c f p : reads c f -> p ∈ shellCommandPayloads c <-> exists f', tail_of f f' /\
  match f'.1 with (_ :: heads, k) => p = Join (flat_words ((heads, k), f'.2)) " " | ([], _) => False end.
Proof.
  intros (Hf&Hw&Ht). unfold shellCommandPayloads. cbv zeta. rewrite Hw.
  rewrite (flat_walk f (fun fs => payload_of fs c) (fun s t => match s with (_ :: heads, k) => [Join (flat_words ((heads, k), t)) " "] | ([], _) => [] end) Hf).
  - rewrite walk_elem. destruct f as [s t]. f_equiv. intros f'. destruct (f'.1) as [[|h heads] k]; rewrite ?list_elem_of_singleton, ?elem_of_nil; tauto.
  - intros pre s t E Hs Ht'. rewrite E. apply payload_segment; [done..| |done]. by rewrite Hw.
Qed.

Lemma unwrapped heads h k t f : tail_of f ((h :: heads, k), t) -> flat_ok f ->
  flat_ok ((heads, k), t) /\ (shells ((heads, k), t) < shells f)%nat /\
  (forall s, s ∈ segments ((heads, k), t) -> exists s', s' ∈ segments f /\ s'.2 = s.2).
Proof.
  intros Ht Hf. destruct (tail_facts _ _ Ht) as (Hok&Hsh&Hin). destruct (Hok Hf) as [[Hh Hk] Htl]. apply Forall_cons in Hh as [_ Hh]. split_and!; [done| |].
  - unfold shells, segments in *. cbn [fst snd sum_list_with length] in *. lia.
  - intros s [->|Hs]%elem_of_cons; [exists (h :: heads, k)|exists s]; (split; [apply Hin|done]); [by left|by right].
Qed.

(** The parser runs the Git commands of the segments. *)
Lemma reads_runs f : forall c g, reads c f ->
  runs_git c g <-> exists s, s ∈ segments f /\ s.2.2 = Some (Subcommand g, Args g).
Proof.
  induction f as [f IH] using (induction_ltof1 _ shells). unfold ltof in IH. intros c g Hr. pose proof (proj1 Hr) as Hf. split.
  - intros Hg. destruct Hg as [c g Hg|c p g Hp Hg].
    + apply (reads_git c f g Hr) in Hg as (f'&Ht&Hm). destruct (tail_facts _ _ Ht) as (_&_&Hin). exists f'.1. split; [apply Hin; by left|].
      destruct (f'.1) as [[|h heads] [cmd [[verb args]|]]]; try done. by subst g.
    + apply (reads_payload c f p Hr) in Hp as (f'&Ht&Hm). destruct f' as [[[|h heads] k] t]; cbn [fst snd] in Hm; [done|]. subst p.
      destruct (unwrapped _ _ _ _ _ Ht Hf) as (Hok&Hlt&Hin). apply (IH _ Hlt) in Hg as (s&Hs&Eg); [|by apply reads_join].
      destruct (Hin s Hs) as (s'&Hs'&E'). exists s'. by rewrite E'.
  - intros (s&(f'&Ht&<-)%segment_tail&Eg). destruct f' as [[[|h heads] [cmd git]] t]; cbn [fst snd] in Eg; subst git.
    + apply runs_here, (reads_git c f g Hr). eexists. split; [exact Ht|]. cbn. by destruct g.
    + destruct (unwrapped _ _ _ _ _ Ht Hf) as (Hok&Hlt&_). eapply runs_in_payload; [apply (reads_payload c f _ Hr); eexists; split; [exact Ht|reflexivity]|].
      apply (IH _ Hlt); [by apply reads_join|]. exists (heads, (cmd, Some (Subcommand g, Args g))). split; [by left|done].
Qed.

Lemma segment_args s x verb args : script_ok s -> x ∈ segments (flatten s) -> x.2.2 = Some (verb, args) -> Forall simple_word args.
Proof.
  intros Hs%flatten_ok Hx E. assert (Hok : segment_ok x).
  { destruct Hs as [H1 H2]. apply elem_of_cons in Hx as [->|Hx]; [done|]. apply list_elem_of_fmap in Hx as (y&->&Hy). by apply (proj1 (Forall_forall _ _) H2 y). }
  destruct Hok as [_ Hc]. unfold command_ok in Hc. destruct (x.2) as [[[l p] r] git]. cbn in E. subst git. apply Hc.
Qed.

End Scripts.

(** ** On concrete scripts *)

Module Machine.
#[local] Instance ascii_lower : Lower := {| ToLower := lower_ascii |}.
#[local] Instance ascii_laws : LowerLaws.
Proof. by split. Qed.

(** [cd repo && GIT_TRACE=1 sudo bash -l -c 'ls; /usr/bin/git -C sub reset --hard']. *)
Definition nested : script :=
  Seq (Run [] "cd" ["repo"]) (MkJoint true AndThen true)
    (Shell ["GIT_TRACE=1"; "sudo"] "bash" ["-l"] "-c" "'"
       (Seq (Run [] "ls" []) (MkJoint false Semicolon true) (Git [] "/usr/bin/git" [Setting "-C" "sub"] "reset" ["--hard"]))).

Ltac words := repeat (constructor; [apply simple_word_dec; reflexivity|]); constructor.
Ltac not_listed := apply not_true_is_false; vm_compute; reflexivity.

Lemma nested_ok : script_ok nested.
Proof.
  assert (Hlist : forall names x, one_of names x = false -> x ∉ names) by (intros names x H Hx%one_of_spec; by rewrite H in Hx).
  split; [split_and!; [constructor|by apply program_word_dec|words|by apply Hlist]|]. split; [|split_and!].
  - constructor; [left; by apply (assignment_dec "GIT_TRACE" "1")|]. constructor; [right|constructor].
    split; [by apply program_word_dec|by apply one_of_spec].
  - by apply program_word_dec.
  - by apply one_of_spec.
  - constructor; [|constructor]. split_and!; [by apply simple_word_dec|done|done|done|by apply Hlist].
  - split_and!; [by apply simple_word_dec|done..].
  - by left.
  - split; (split_and!; [constructor|by apply program_word_dec|..]).
    + constructor.
    + by apply Hlist.
    + by apply one_of_spec.
    + constructor; [|constructor]. split_and!; [by apply simple_word_dec|done|done|by apply simple_word_dec].
    + split_and!; [by repeat constructor|done..].
    + words.
Qed.


(** What the grammar leaves out is not always seen: a group, a shell option
    with the letter c before [-c], a keyword before the command. *)
Example git_hidden : map gitCommandApprovalReason
  ["(git reset --hard)"; "bash --norc -c 'git reset --hard'"; "if true; then git reset --hard; fi"; "! git push"] = ["" ; ""; ""; ""].
Proof. vm_compute. reflexivity. Qed.
End Machine.
