(* ===== verification/SpoolFormat.v ===== *)
(** * The on-disk format of the stream spool

    Models [control/streamspool/file/format.go] and the identity digest of
    [control/streamspool/store.go]: segment headers, records with a CRC-32C,
    and the length-delimited preimage of [DigestStrings].  A byte is a [Z]
    between 0 and 255, a file is the list of its bytes; a decoder takes the
    bytes at the read position and returns those it left. *)

From Stdlib Require Import ZArith Lia Ascii String.
From stdpp Require Import base list strings.
From S2P Require Import Prelude GoStrings RingBuffer.

(** ** [encoding/binary] and [hash/crc32] *)

(** [binary.BigEndian.PutUint16/32/64]: the low [n] bytes, high byte first. *)
Fixpoint put_be (n : nat) (x : Z) : list Z :=
  match n with
  | O => []
  | S n => put_be n (x / 256) ++ [x mod 256]
  end.

Definition get_be (bs : list Z) : Z := fold_left (fun acc b => 256 * acc + b) bs 0.

(** The Castagnoli table is built entry by entry from the reversed polynomial. *)
Definition castagnoli : Z := 0x82F63B78.
Definition crc_shift (crc : Z) : Z :=
  if Z.odd crc then Z.lxor (Z.shiftr crc 1) castagnoli else Z.shiftr crc 1.
Definition crc_entry (i : Z) : Z := Nat.iter 8 crc_shift i.
Definition crc_update (crc b : Z) : Z := Z.lxor (crc_entry (Z.lxor (Z.land crc 255) b)) (Z.shiftr crc 8).
Definition checksum (bs : list Z) : Z := Z.lxor (fold_left crc_update bs 0xFFFFFFFF) 0xFFFFFFFF mod 4294967296.

Lemma put_be_length n x : length (put_be n x) = n.
Proof. revert x. induction n as [|n IH]; intros x; simpl; [done|]. rewrite length_app, IH. simpl. lia. Qed.

Lemma get_put_be n x : 0 <= x < 256 ^ Z.of_nat n -> get_be (put_be n x) = x.
Proof.
  unfold get_be. revert x. induction n as [|n IH]; intros x Hx; [simpl in *; lia|].
  cbn [put_be]. rewrite fold_left_app, IH; [simpl; pose proof (Z.div_mod x 256); lia|].
  rewrite Nat2Z.inj_succ, Z.pow_succ_r in Hx by lia.
  split; [apply Z.div_pos; lia|apply Z.div_lt_upper_bound; lia].
Qed.

Lemma checksum_range bs : 0 <= checksum bs < 256 ^ Z.of_nat 4.
Proof. apply Z.mod_pos_bound. lia. Qed.

(** A slice [buf[a:b]]. *)
Definition slice {A} (a b : nat) (buf : list A) : list A := take (b - a) (drop a buf).

(** [io.ReadFull] of [n] bytes. *)
Inductive SpoolError : Type :=
| ErrCorrupt (detail : string)
| ErrLimit
| IoEOF
| IoUnexpectedEOF.

Definition read_full (n : nat) (input : list Z) : result SpoolError (list Z * list Z) :=
  if (n <=? length input)%nat then Ok (take n input, drop n input)
  else if (length input =? 0)%nat then Fail IoEOF else Fail IoUnexpectedEOF.

(** ** Keys *)

Definition NamespaceTask : Z := 1.
Definition NamespaceSession : Z := 2.
Definition NamespaceValid (n : Z) : bool := (n =? NamespaceTask) || (n =? NamespaceSession).

Record Key : Type := MkKey {
  Namespace : Z;
  Digest : list Z;       (* 32 bytes *)
  Epoch : list Z;        (* 16 bytes *)
  Incarnation : list Z;  (* 16 bytes *)
}.
Global Instance Key_eq_dec : EqDecision Key.
Proof. solve_decision. Defined.

(** The array lengths and the byte ranges of the Go types. *)
Definition key_wf (k : Key) : Prop :=
  0 <= Namespace k < 256 /\ length (Digest k) = 32%nat /\ length (Epoch k) = 16%nat /\ length (Incarnation k) = 16%nat.

(** ** Segment headers *)

Definition segmentMagic : list Z := [67; 65; 69; 76; 83; 80; 48; 49].
Definition FormatVersion : Z := 1.
Definition segmentHeaderSize : nat := 98.
Definition recordPrefixSize : nat := 4.
Definition recordFixedBody : nat := 24.   (* 8 + 2 + 2 + 8 + 4 *)
Definition recordChecksumSize : nat := 4.

Record decodedHeader : Type := MkHeader { h_key : Key; h_base : Z; h_originComplete : bool }.

(** Bytes 0 to 93 of the header. *)
Definition headerFields (key : Key) (originComplete : bool) (base createdAt : Z) : list Z :=
  segmentMagic ++ put_be 2 FormatVersion ++ put_be 2 (Z.of_nat segmentHeaderSize)
  ++ [Namespace key; if originComplete then 1 else 0]
  ++ Digest key ++ Epoch key ++ Incarnation key ++ put_be 8 (u64 base) ++ put_be 8 (u64 createdAt).

Definition encodeSegmentHeader (key : Key) (originComplete : bool) (base createdAt : Z) : list Z :=
  let fields := headerFields key originComplete base createdAt in
  fields ++ put_be 4 (checksum fields).

Definition decodeSegmentHeader (input : list Z) : result SpoolError (decodedHeader * list Z) :=
  match read_full segmentHeaderSize input with
  | Fail _ => Fail (ErrCorrupt "segment header")
  | Ok (buf, rest) =>
    if negb (bool_decide (slice 0 8 buf = segmentMagic)) || negb (get_be (slice 8 10 buf) =? FormatVersion)
       || negb (get_be (slice 10 12 buf) =? Z.of_nat segmentHeaderSize)
    then Fail (ErrCorrupt "invalid segment header") else
    if negb (get_be (slice 94 98 buf) =? checksum (slice 0 94 buf))
    then Fail (ErrCorrupt "segment header checksum") else
    let key := MkKey (get_be (slice 12 13 buf)) (slice 14 46 buf) (slice 46 62 buf) (slice 62 78 buf) in
    if negb (NamespaceValid (Namespace key)) then Fail (ErrCorrupt "invalid namespace") else
    Ok (MkHeader key (get_be (slice 78 86 buf)) (Z.odd (get_be (slice 13 14 buf))), rest)
  end.

(** ** Records *)

(** [OccurredAt] is the [int64] of [UnixNano]. *)
Record SpoolRecord : Type := MkSpoolRecord { r_Offset : Z; r_Type : Z; r_OccurredAt : Z; r_Payload : list Z }.

(** The checksummed bytes of a record, after the length prefix. *)
Definition recordBody (offset recordType occurredAt : Z) (payload : list Z) : list Z :=
  put_be 8 (u64 offset) ++ put_be 2 recordType ++ [0; 0] ++ put_be 8 (u64 occurredAt)
  ++ put_be 4 (Z.of_nat (length payload)) ++ payload.

Definition encodeRecord (offset recordType occurredAt : Z) (payload : list Z) : result SpoolError (list Z) :=
  let bodyLen := (recordFixedBody + length payload + recordChecksumSize)%nat in
  if 4294967295 <? Z.of_nat bodyLen then Fail ErrLimit else
  let body := recordBody offset recordType occurredAt payload in
  Ok (put_be 4 (Z.of_nat bodyLen) ++ body ++ put_be 4 (checksum body)).

Definition decodeRecord (maxPayload : nat) (input : list Z) : result SpoolError (SpoolRecord * list Z) :=
  let! (prefix, input) := read_full recordPrefixSize input in
  let bodyLen := get_be prefix in
  if (bodyLen <? Z.of_nat (recordFixedBody + recordChecksumSize))
     || (Z.of_nat (maxPayload + recordFixedBody + recordChecksumSize) <? bodyLen)
  then Fail (ErrCorrupt "invalid record length") else
  match read_full (Z.to_nat bodyLen) input with
  | Fail _ => Fail (ErrCorrupt "record body")
  | Ok (body, rest) =>
    let payloadLen := get_be (slice 20 24 body) in
    if (Z.of_nat maxPayload <? payloadLen)
       || negb (Z.of_nat recordFixedBody + payloadLen + Z.of_nat recordChecksumSize =? Z.of_nat (length body))
    then Fail (ErrCorrupt "invalid payload length") else
    let checksumAt := (length body - recordChecksumSize)%nat in
    if negb (get_be (drop checksumAt body) =? checksum (take checksumAt body))
    then Fail (ErrCorrupt "record checksum") else
    Ok (MkSpoolRecord (get_be (slice 0 8 body)) (get_be (slice 8 10 body)) (i64 (get_be (slice 12 20 body)))
          (slice 24 (24 + Z.to_nat payloadLen) body), rest)
  end.

(** ** Slices of concatenations *)

Lemma slice_skip {A} (l buf : list A) a b : (length l <= a)%nat -> slice a b (l ++ buf) = slice (a - length l) (b - length l) buf.
Proof. intros H. unfold slice. rewrite drop_app_ge by done. f_equal. lia. Qed.

Lemma slice_head {A} (l buf : list A) b : length l = b -> slice 0 b (l ++ buf) = l.
Proof. intros <-. unfold slice. rewrite drop_0, Nat.sub_0_r. apply take_app_length. Qed.

Lemma slice_all {A} (l : list A) b : length l = b -> slice 0 b l = l.
Proof. intros <-. unfold slice. rewrite drop_0, Nat.sub_0_r. by apply take_ge. Qed.

Create Rewrite HintDb len.
#[export] Hint Rewrite put_be_length @length_app @length_cons @length_nil : len.

(** Finds the field at the start of a slice: skips the fields before it. *)
Ltac slice_field lens :=
  repeat (rewrite slice_skip by (autorewrite with len; lens; cbn; lia);
          autorewrite with len; lens; cbn [Nat.sub length segmentMagic Nat.add]);
  first [rewrite slice_head by (autorewrite with len; lens; cbn; lia)
        |rewrite slice_all by (autorewrite with len; lens; cbn; lia)].

Lemma u64_be x : get_be (put_be 8 (u64 x)) = u64 x.
Proof. apply get_put_be, u64_range. Qed.

Lemma headerFields_length key oc base at' : key_wf key -> length (headerFields key oc base at') = 94%nat.
Proof. intros (_&H1&H2&H3). unfold headerFields. autorewrite with len. rewrite H1, H2, H3. done. Qed.

Lemma slice_prefix {A} (l buf : list A) a b : (b <= length l)%nat -> slice a b (l ++ buf) = slice a b l.
Proof.
  intros H. unfold slice. destruct (decide (a <= length l)%nat).
  - rewrite drop_app_le by lia. rewrite take_app_le by (rewrite length_drop; lia). done.
  - replace (b - a)%nat with 0%nat by lia. done.
Qed.

(** The fields at their offsets. *)
Lemma headerFields_slices key oc base at' : key_wf key ->
  let f := headerFields key oc base at' in
  slice 0 8 f = segmentMagic /\ get_be (slice 8 10 f) = FormatVersion
  /\ get_be (slice 10 12 f) = Z.of_nat segmentHeaderSize
  /\ get_be (slice 12 13 f) = Namespace key /\ get_be (slice 13 14 f) = (if oc then 1 else 0)
  /\ slice 14 46 f = Digest key /\ slice 46 62 f = Epoch key /\ slice 62 78 f = Incarnation key
  /\ get_be (slice 78 86 f) = u64 base.
Proof.
  intros (_&H1&H2&H3). cbv zeta. unfold headerFields.
  assert (Hc : forall (x y : Z) l, [x; y] ++ l = [x] ++ [y] ++ l) by done. rewrite Hc.
  split_and!; [slice_field ltac:(rewrite ?H1, ?H2, ?H3)..]; try done.
  apply u64_be.
Qed.

(** A segment header read back is the header written: whatever follows
    it in the file, decoding an encoded header yields its key, base offset and
    origin flag, and leaves the reader at the first record. *)
Theorem segment_header_roundtrip (key : Key) (originComplete : bool) (base createdAt : Z) (rest : list Z) :
  key_wf key -> NamespaceValid (Namespace key) = true -> is_u64 base ->
  decodeSegmentHeader (encodeSegmentHeader key originComplete base createdAt ++ rest) =
    Ok (MkHeader key base originComplete, rest).
Proof.
  intros Hk Hn Hb. pose proof (headerFields_length key originComplete base createdAt Hk) as Hf.
  destruct (headerFields_slices key originComplete base createdAt Hk) as (F1&F2&F3&F4&F5&F6&F7&F8&F9).
  unfold encodeSegmentHeader. cbv zeta. set (fields := headerFields key originComplete base createdAt) in *.
  set (buf := fields ++ put_be 4 (checksum fields)).
  assert (Hbuf : length buf = segmentHeaderSize) by (unfold buf; autorewrite with len; rewrite Hf; done).
  unfold decodeSegmentHeader, read_full. rewrite length_app, Hbuf, (proj2 (Nat.leb_le _ _)) by lia.
  rewrite take_app_length', drop_app_length' by done.
  assert (Hsum : get_be (slice 94 98 buf) = checksum (slice 0 94 buf)).
  { unfold buf. rewrite slice_skip, Hf, slice_all, (slice_head fields) by (rewrite ?put_be_length; lia).
    apply get_put_be, checksum_range. }
  rewrite Hsum. unfold buf. rewrite !slice_prefix by lia.
  rewrite F1, F2, F3, F4, F5, F6, F7, F8, F9, bool_decide_true, !Z.eqb_refl by done. cbn [negb orb Namespace].
  rewrite Hn, u64_small by done. cbn [negb]. destruct key, originComplete; done.
Qed.

(** The body of a record, field by field. *)
Lemma recordBody_length offset ty at' payload :
  length (recordBody offset ty at' payload) = (24 + length payload)%nat.
Proof. unfold recordBody. autorewrite with len. lia. Qed.

Lemma recordBody_slices offset ty at' payload :
  0 <= ty < 65536 -> Z.of_nat (length payload) < 4294967296 ->
  let f := recordBody offset ty at' payload in
  get_be (slice 0 8 f) = u64 offset /\ get_be (slice 8 10 f) = ty /\ get_be (slice 12 20 f) = u64 at'
  /\ get_be (slice 20 24 f) = Z.of_nat (length payload) /\ slice 24 (24 + length payload) f = payload.
Proof.
  intros Ht Hp. cbv zeta. unfold recordBody.
  split_and!; slice_field idtac; try apply u64_be; try (apply get_put_be; lia); done.
Qed.

Lemma i64_u64 x : -9223372036854775808 <= x < 9223372036854775808 -> i64 (u64 x) = x.
Proof.
  intros H. unfold i64, u64, u64_modulus. destruct (Z.ltb_spec x 0).
  - rewrite <- (Z.mod_add x 1) by lia. rewrite (Z.mod_small (x + _)), <- (Z.mod_add _ (-1)), Z.mod_small by lia. lia.
  - rewrite (Z.mod_small x), Z.mod_small by lia. lia.
Qed.

(** A record read back is the record written: decoding an encoded record,
    with anything after it, yields its offset, type, time and payload and
    leaves the reader at the next record, as long as the payload is within
    the reader's limit. *)
Theorem record_roundtrip (offset recordType occurredAt : Z) (payload encoded rest : list Z) (maxPayload : nat) :
  encodeRecord offset recordType occurredAt payload = Ok encoded ->
  is_u64 offset -> 0 <= recordType < 65536 -> -9223372036854775808 <= occurredAt < 9223372036854775808 ->
  (length payload <= maxPayload)%nat ->
  decodeRecord maxPayload (encoded ++ rest) = Ok (MkSpoolRecord offset recordType occurredAt payload, rest).
Proof.
  intros He Ho Ht Ha Hm. unfold encodeRecord in He. destruct (4294967295 <? _) eqn:Hlim; [done|].
  apply Z.ltb_ge in Hlim. cbv zeta in He. apply Ok_inj in He as <-. unfold recordFixedBody, recordChecksumSize in *.
  pose proof (recordBody_length offset recordType occurredAt payload) as Hl.
  destruct (recordBody_slices offset recordType occurredAt payload Ht ltac:(lia)) as (F1&F2&F3&F4&F5).
  set (body := recordBody offset recordType occurredAt payload) in *.
  unfold decodeRecord, read_full. autorewrite with len. rewrite (proj2 (Nat.leb_le _ _)) by (unfold recordPrefixSize; lia).
  cbn [result_bind]. rewrite <- !(assoc_L (++)), take_app_length', drop_app_length' by (by rewrite put_be_length).
  rewrite get_put_be by lia. unfold recordFixedBody, recordChecksumSize.
  rewrite (proj2 (Z.ltb_ge _ _)), (proj2 (Z.ltb_ge _ _)) by lia. cbn [orb].
  rewrite Nat2Z.id. autorewrite with len. rewrite (proj2 (Nat.leb_le _ _)) by lia.
  assert (Hw : length (body ++ put_be 4 (checksum body)) = (24 + length payload + 4)%nat)
    by (autorewrite with len; lia).
  rewrite (assoc_L (++)), take_app_length', (drop_app_length' (body ++ put_be 4 (checksum body)) rest) by (by rewrite Hw).
  rewrite !(slice_prefix body) by lia. rewrite F1, F2, F3, F4, Hw, (proj2 (Z.ltb_ge _ _)) by lia. cbn [orb].
  replace (Z.of_nat 24 + _ + Z.of_nat 4) with (Z.of_nat (24 + length payload + 4)) by lia. rewrite Z.eqb_refl. cbn [negb].
  replace (24 + length payload + 4 - 4)%nat with (length body) by lia.
  rewrite drop_app_length, take_app_length, get_put_be, Z.eqb_refl by apply checksum_range. cbn [negb].
  rewrite Nat2Z.id, F5, (u64_small offset), i64_u64 by (done || lia). done.
Qed.

Lemma w_key_wf : key_wf (MkKey 1 (replicate 32 7) (replicate 16 8) (replicate 16 9)).
Proof. repeat split; simpl; lia. Defined.

Lemma segment_header_roundtrip_witness :
  let key := MkKey 1 (replicate 32 7) (replicate 16 8) (replicate 16 9) in
  decodeSegmentHeader (encodeSegmentHeader key true 5 1700000000 ++ [1; 2]) = Ok (MkHeader key 5 true, [1; 2]).
Proof.
  apply (segment_header_roundtrip (MkKey 1 (replicate 32 7) (replicate 16 8) (replicate 16 9)) true 5 1700000000 [1; 2]);
    [apply w_key_wf|reflexivity|]. unfold is_u64, u64_modulus. lia.
Defined.

(** The check value of CRC-32C: the checksum of the digits 1 to 9. *)
Example crc32c_check_value : checksum [49; 50; 51; 52; 53; 54; 55; 56; 57] = 0xE3069283.
Proof. vm_compute. reflexivity. Qed.

Lemma record_roundtrip_witness :
  exists encoded, encodeRecord 3 1 (-5) [104; 105] = Ok encoded /\
  decodeRecord 16 (encoded ++ [255]) = Ok (MkSpoolRecord 3 1 (-5) [104; 105], [255]).
Proof.
  eexists. split; [vm_compute; reflexivity|].
  apply (record_roundtrip 3 1 (-5) [104; 105] _ [255] 16); [vm_compute; reflexivity|..]; unfold is_u64, u64_modulus; simpl; lia.
Defined.

(** ** Identity digests ([DigestStrings] of [control/streamspool/store.go]) *)

Definition hex_digit (d : Z) : ascii :=
  ascii_of_nat (Z.to_nat (if d <? 10 then 48 + d else 87 + d)).

Fixpoint put_hex (width : nat) (n : Z) : list ascii :=
  match width with
  | O => []
  | S width => put_hex width (n / 16) ++ [hex_digit (n mod 16)]
  end.

(** [fmt.Fprintf(h, "%08x", n)]: at least eight digits, more when needed. *)
Definition hex8 (n : Z) : list ascii := put_hex (Z.to_nat (Z.max 8 (Z.log2 n / 4 + 1))) n.

(** What [DigestStrings] feeds to SHA-256. *)
Definition digest_preimage (parts : list string) : list ascii :=
  concat (map (fun part => let part := list_ascii_of_string (trim_space part) in
                           hex8 (Z.of_nat (length part)) ++ part) parts).

Definition DigestStrings (sha256 : list ascii -> list Z) (parts : list string) : list Z :=
  sha256 (digest_preimage parts).

Lemma put_hex_length w n : length (put_hex w n) = w.
Proof. revert n. induction w as [|w IH]; intros n; simpl; [done|]. rewrite length_app, IH. simpl. lia. Qed.

Lemma hex_digit_inj a b : 0 <= a < 16 -> 0 <= b < 16 -> hex_digit a = hex_digit b -> a = b.
Proof.
  intros Ha Hb H. apply (f_equal nat_of_ascii) in H. unfold hex_digit in H.
  rewrite !nat_ascii_embedding in H by (repeat case_match; lia).
  repeat case_match; repeat match goal with H : (_ <? _) = _ |- _ => first [apply Z.ltb_lt in H|apply Z.ltb_ge in H] end; lia.
Qed.

Lemma put_hex_inj w a b : 0 <= a < 16 ^ Z.of_nat w -> 0 <= b < 16 ^ Z.of_nat w -> put_hex w a = put_hex w b -> a = b.
Proof.
  revert a b. induction w as [|w IH]; intros a b Ha Hb H; [simpl in *; lia|]. cbn [put_hex] in H.
  apply app_inj_2 in H as [H1 H2]; [|done]. injection H2 as H2. rewrite Nat2Z.inj_succ, Z.pow_succ_r in Ha, Hb by lia.
  apply hex_digit_inj in H2; [|apply Z.mod_pos_bound; lia..].
  apply IH in H1; [|split; [apply Z.div_pos|apply Z.div_lt_upper_bound]; lia..].
  pose proof (Z.div_mod a 16). pose proof (Z.div_mod b 16). lia.
Qed.

Lemma hex8_width n : 0 <= n < 4294967296 -> hex8 n = put_hex 8 n.
Proof.
  intros H. unfold hex8. f_equal. assert (Z.log2 n <= 31).
  { destruct (Z.eq_dec n 0) as [->|]; [done|]. apply Z.lt_succ_r, Z.log2_lt_pow2; [lia|]. simpl. lia. }
  rewrite Z.max_l; [done|]. pose proof (Z.log2_nonneg n). pose proof (Z.div_le_mono (Z.log2 n) 31 4). change (31 / 4) with 7 in *. lia.
Qed.

(** Length-delimited identities do not alias: two tuples of identity
    components (each shorter than 2^32 bytes) that give SHA-256 the same
    input are equal component by component, up to surrounding white space.
    Plain concatenation would not have this property. *)
Theorem digest_preimage_injective (parts parts' : list string) :
  Forall (fun p => Z.of_nat (length (list_ascii_of_string (trim_space p))) < 4294967296) parts ->
  Forall (fun p => Z.of_nat (length (list_ascii_of_string (trim_space p))) < 4294967296) parts' ->
  digest_preimage parts = digest_preimage parts' -> map trim_space parts = map trim_space parts'.
Proof.
  unfold digest_preimage. intros H. revert parts'.
  induction H as [|p parts Hp _ IH]; intros parts' H' E; destruct H' as [|q parts' Hq H']; simpl in *; try done.
  - rewrite hex8_width in E by lia. apply (f_equal length) in E. rewrite !length_app, put_hex_length in E. simpl in E. lia.
  - rewrite hex8_width in E by lia. apply (f_equal length) in E. rewrite !length_app, put_hex_length in E. simpl in E. lia.
  - rewrite !hex8_width, <- !(assoc_L (++)) in E by lia. apply app_inj_1 in E as [E1 E]; [|by rewrite !put_hex_length].
    apply put_hex_inj in E1; [|change (16 ^ Z.of_nat 8) with 4294967296; lia..].
    apply app_inj_1 in E as [E2 E]; [|lia]. f_equal; [|by apply IH].
    apply (f_equal string_of_list_ascii) in E2. by rewrite !string_of_list_ascii_of_string in E2.
Qed.

Lemma digest_preimage_injective_witness :
  digest_preimage ["ab"; " c"]%string <> digest_preimage ["a"; "bc"]%string /\
  map trim_space ["ab"; " c"]%string = map trim_space [" ab "; "c"]%string.
Proof.
  split.
  - intros E. discriminate (digest_preimage_injective ["ab"; " c"]%string ["a"; "bc"]%string
      ltac:(repeat constructor) ltac:(repeat constructor) E).
  - apply (digest_preimage_injective ["ab"; " c"]%string [" ab "; "c"]%string); [repeat constructor..|].
    vm_compute. reflexivity.
Defined.
