(* ===== verification/SpoolStore.v ===== *)
(** * The stream spool

    Models [control/streamspool/file/store.go], [writer.go], [reader.go],
    [retention.go] and [gc.go]: one process epoch of the cache in which Control
    keeps live output.  A partition is an append-only log of records in segment
    files; retention discards whole segments from the front, a reader follows
    one log from its own offset.

    A partition object is named by its key; incarnations are random and do not
    repeat, so [s.partitions[key] == p] says that the key is registered.  A
    removed partition keeps its object for the writers and readers that hold
    it.  A file is the list of its bytes, found by directory and name.  Each
    fallible file operation takes its outcome from the oracle [io], the clock
    its value from [clock]; reading bytes of an open file does not fail.  A call
    that waits for a record returns [Wait].  Offsets and counters are integers;
    the theorems bound them. *)

From Stdlib Require Import ZArith Lia Ascii String.
From stdpp Require Import base option strings list gmap sets sorting.
From S2P Require Import Prelude GoStrings GoText SpoolFormat.

Open Scope list_scope.
Open Scope Z_scope.

Inductive State : Type := StatePending | StateOpen | StateEmptyTerminal | StateSealed | StatePoisoned | StateStoreClosed.
Global Instance State_eq_dec : EqDecision State.
Proof. solve_decision. Defined.

(** The errors of the package; [ErrFormat] carries those of the record format, [ErrIO] any error of the file system. *)
Inductive StoreError : Type :=
| ErrUnavailable | ErrInUse | ErrNotFound | ErrExpired | ErrClosed | ErrEmptyTerminal | ErrEOF | ErrInvalidKey | ErrContext | ErrIO
| ErrFormat (e : SpoolError).

Record Config : Type := MkConfig {
  SegmentBytes : Z; MaxRecordBytes : Z; MaxBytes : Z; MaxStreamBytes : Z; MaxRegistrations : Z; MaxReaders : Z; MaxReadersPerPartition : Z;
  MaxPartitions : Z; MaxSegments : Z; MaxSegmentsPerPartition : Z; PartitionAllocationCharge : Z; SegmentAllocationCharge : Z; TerminalTTL : Z;
}.

(** The bounds of [withDefaults], without the intervals of the collector and the lock. *)
Definition withDefault (v d : Z) : Z := if v <=? 0 then d else v.
Definition MaximumRecordBytes : Z := Z.shiftl 4 20.
Definition withDefaults (c : Config) : Config :=
  MkConfig (withDefault (SegmentBytes c) (Z.shiftl 1 20)) (withDefault (MaxRecordBytes c) MaximumRecordBytes)
    (withDefault (MaxBytes c) (Z.shiftl 1 30)) (withDefault (MaxStreamBytes c) (Z.shiftl 16 20))
    (withDefault (MaxRegistrations c) 4096) (withDefault (MaxReaders c) 8192) (withDefault (MaxReadersPerPartition c) 64)
    (withDefault (MaxPartitions c) 16384) (withDefault (MaxSegments c) 32768) (withDefault (MaxSegmentsPerPartition c) 32)
    (withDefault (PartitionAllocationCharge c) (Z.shiftl 32 10)) (withDefault (SegmentAllocationCharge c) (Z.shiftl 8 10))
    (withDefault (TerminalTTL c) (24 * 3600 * 1000000000)).

(** ** Names of files *)

Abbreviation Path := (string * string)%type.
Definition LogicalKey : Type := Z * list Z.
Definition logical (k : Key) : LogicalKey := (Namespace k, Digest k).

Global Instance Key_countable : Countable Key.
Proof.
  apply (inj_countable' (fun k => (Namespace k, Digest k, Epoch k, Incarnation k)) (fun '(n, d, e, i) => MkKey n d e i)). by intros [].
Defined.

Definition NamespaceString (n : Z) : string :=
  if n =? NamespaceTask then "tasks"%string else if n =? NamespaceSession then "sessions"%string else "unknown"%string.

Definition hex_bytes (bs : list Z) : string := text (bs ≫= fun b => [hex_digit (b / 16); hex_digit (b mod 16)]).

Definition partitionRelativeDir (k : Key) : string :=
  Join [NamespaceString (Namespace k); String.substring 0 2 (hex_bytes (Digest k)); hex_bytes (Digest k); hex_bytes (Epoch k); hex_bytes (Incarnation k)] "/".

Fixpoint put_dec (width : nat) (n : Z) : list ascii :=
  match width with
  | O => []
  | S width => put_dec width (n / 10) ++ [hex_digit (n mod 10)]
  end.
Definition segmentFilename (offset : Z) : string := (text (put_dec 20 offset) ++ ".log")%string.

(** ** State *)

Record Segment : Type := MkSegment { sg_base : Z; sg_path : Path; sg_bytes : Z }.
Global Instance Segment_eq_dec : EqDecision Segment.
Proof. solve_decision. Defined.

Record Partition : Type := MkPartition {
  p_key : Key; p_originComplete : bool; p_published : bool; p_dir : string; p_state : State; p_low : Z; p_high : Z;
  p_segments : list Segment; p_active : option Path; p_activeBytes : Z; p_accounted : Z; p_physical : bool; p_allocSegments : Z;
  p_readers : Z; p_leases : gset nat; p_writerActive : bool; p_updatedAt : Z;
}.
Global Instance Partition_inhabited : Inhabited Partition := populate (MkPartition (MkKey 0 [] [] []) false false "" StatePending 0 0 [] None 0 0 false 0 0 ∅ false 0).

(** [r.file] with its position; [r.segment] is the path of the open file. *)
Record Reader : Type := MkReader {
  rd_partition : Key; rd_offset : Z; rd_closed : bool; rd_file : option (Path * nat); rd_nextOffset : Z;
}.

Record Spool : Type := MkSpool {
  sp_closed : bool; sp_partitions : gmap Key Partition; sp_removed : gmap Key Partition; sp_current : gmap LogicalKey Key;
  sp_usedBytes : Z; sp_physicalParts : Z; sp_segmentCount : Z; sp_registrations : Z; sp_readerCount : Z; sp_readers : gmap nat Reader;
  sp_disk : gmap Path (list Z); sp_tick : nat;
}.

Definition set_p_published (v : bool) (x : Partition) : Partition := MkPartition (p_key x) (p_originComplete x) v (p_dir x) (p_state x) (p_low x) (p_high x) (p_segments x) (p_active x) (p_activeBytes x) (p_accounted x) (p_physical x) (p_allocSegments x) (p_readers x) (p_leases x) (p_writerActive x) (p_updatedAt x).
Definition set_p_state (v : State) (x : Partition) : Partition := MkPartition (p_key x) (p_originComplete x) (p_published x) (p_dir x) v (p_low x) (p_high x) (p_segments x) (p_active x) (p_activeBytes x) (p_accounted x) (p_physical x) (p_allocSegments x) (p_readers x) (p_leases x) (p_writerActive x) (p_updatedAt x).
Definition set_p_low (v : Z) (x : Partition) : Partition := MkPartition (p_key x) (p_originComplete x) (p_published x) (p_dir x) (p_state x) v (p_high x) (p_segments x) (p_active x) (p_activeBytes x) (p_accounted x) (p_physical x) (p_allocSegments x) (p_readers x) (p_leases x) (p_writerActive x) (p_updatedAt x).
Definition set_p_high (v : Z) (x : Partition) : Partition := MkPartition (p_key x) (p_originComplete x) (p_published x) (p_dir x) (p_state x) (p_low x) v (p_segments x) (p_active x) (p_activeBytes x) (p_accounted x) (p_physical x) (p_allocSegments x) (p_readers x) (p_leases x) (p_writerActive x) (p_updatedAt x).
Definition set_p_segments (v : list Segment) (x : Partition) : Partition := MkPartition (p_key x) (p_originComplete x) (p_published x) (p_dir x) (p_state x) (p_low x) (p_high x) v (p_active x) (p_activeBytes x) (p_accounted x) (p_physical x) (p_allocSegments x) (p_readers x) (p_leases x) (p_writerActive x) (p_updatedAt x).
Definition set_p_active (v : option Path) (x : Partition) : Partition := MkPartition (p_key x) (p_originComplete x) (p_published x) (p_dir x) (p_state x) (p_low x) (p_high x) (p_segments x) v (p_activeBytes x) (p_accounted x) (p_physical x) (p_allocSegments x) (p_readers x) (p_leases x) (p_writerActive x) (p_updatedAt x).
Definition set_p_activeBytes (v : Z) (x : Partition) : Partition := MkPartition (p_key x) (p_originComplete x) (p_published x) (p_dir x) (p_state x) (p_low x) (p_high x) (p_segments x) (p_active x) v (p_accounted x) (p_physical x) (p_allocSegments x) (p_readers x) (p_leases x) (p_writerActive x) (p_updatedAt x).
Definition set_p_accounted (v : Z) (x : Partition) : Partition := MkPartition (p_key x) (p_originComplete x) (p_published x) (p_dir x) (p_state x) (p_low x) (p_high x) (p_segments x) (p_active x) (p_activeBytes x) v (p_physical x) (p_allocSegments x) (p_readers x) (p_leases x) (p_writerActive x) (p_updatedAt x).
Definition set_p_physical (v : bool) (x : Partition) : Partition := MkPartition (p_key x) (p_originComplete x) (p_published x) (p_dir x) (p_state x) (p_low x) (p_high x) (p_segments x) (p_active x) (p_activeBytes x) (p_accounted x) v (p_allocSegments x) (p_readers x) (p_leases x) (p_writerActive x) (p_updatedAt x).
Definition set_p_allocSegments (v : Z) (x : Partition) : Partition := MkPartition (p_key x) (p_originComplete x) (p_published x) (p_dir x) (p_state x) (p_low x) (p_high x) (p_segments x) (p_active x) (p_activeBytes x) (p_accounted x) (p_physical x) v (p_readers x) (p_leases x) (p_writerActive x) (p_updatedAt x).
Definition set_p_readers (v : Z) (x : Partition) : Partition := MkPartition (p_key x) (p_originComplete x) (p_published x) (p_dir x) (p_state x) (p_low x) (p_high x) (p_segments x) (p_active x) (p_activeBytes x) (p_accounted x) (p_physical x) (p_allocSegments x) v (p_leases x) (p_writerActive x) (p_updatedAt x).
Definition set_p_leases (v : gset nat) (x : Partition) : Partition := MkPartition (p_key x) (p_originComplete x) (p_published x) (p_dir x) (p_state x) (p_low x) (p_high x) (p_segments x) (p_active x) (p_activeBytes x) (p_accounted x) (p_physical x) (p_allocSegments x) (p_readers x) v (p_writerActive x) (p_updatedAt x).
Definition set_p_writerActive (v : bool) (x : Partition) : Partition := MkPartition (p_key x) (p_originComplete x) (p_published x) (p_dir x) (p_state x) (p_low x) (p_high x) (p_segments x) (p_active x) (p_activeBytes x) (p_accounted x) (p_physical x) (p_allocSegments x) (p_readers x) (p_leases x) v (p_updatedAt x).
Definition set_p_updatedAt (v : Z) (x : Partition) : Partition := MkPartition (p_key x) (p_originComplete x) (p_published x) (p_dir x) (p_state x) (p_low x) (p_high x) (p_segments x) (p_active x) (p_activeBytes x) (p_accounted x) (p_physical x) (p_allocSegments x) (p_readers x) (p_leases x) (p_writerActive x) v.

Definition set_rd_offset (v : Z) (x : Reader) : Reader := MkReader (rd_partition x) v (rd_closed x) (rd_file x) (rd_nextOffset x).
Definition set_rd_closed (v : bool) (x : Reader) : Reader := MkReader (rd_partition x) (rd_offset x) v (rd_file x) (rd_nextOffset x).
Definition set_rd_file (v : option (Path * nat)) (x : Reader) : Reader := MkReader (rd_partition x) (rd_offset x) (rd_closed x) v (rd_nextOffset x).
Definition set_rd_nextOffset (v : Z) (x : Reader) : Reader := MkReader (rd_partition x) (rd_offset x) (rd_closed x) (rd_file x) v.

Definition set_sp_closed (v : bool) (x : Spool) : Spool := MkSpool v (sp_partitions x) (sp_removed x) (sp_current x) (sp_usedBytes x) (sp_physicalParts x) (sp_segmentCount x) (sp_registrations x) (sp_readerCount x) (sp_readers x) (sp_disk x) (sp_tick x).
Definition set_sp_partitions (v : gmap Key Partition) (x : Spool) : Spool := MkSpool (sp_closed x) v (sp_removed x) (sp_current x) (sp_usedBytes x) (sp_physicalParts x) (sp_segmentCount x) (sp_registrations x) (sp_readerCount x) (sp_readers x) (sp_disk x) (sp_tick x).
Definition set_sp_removed (v : gmap Key Partition) (x : Spool) : Spool := MkSpool (sp_closed x) (sp_partitions x) v (sp_current x) (sp_usedBytes x) (sp_physicalParts x) (sp_segmentCount x) (sp_registrations x) (sp_readerCount x) (sp_readers x) (sp_disk x) (sp_tick x).
Definition set_sp_current (v : gmap LogicalKey Key) (x : Spool) : Spool := MkSpool (sp_closed x) (sp_partitions x) (sp_removed x) v (sp_usedBytes x) (sp_physicalParts x) (sp_segmentCount x) (sp_registrations x) (sp_readerCount x) (sp_readers x) (sp_disk x) (sp_tick x).
Definition set_sp_usedBytes (v : Z) (x : Spool) : Spool := MkSpool (sp_closed x) (sp_partitions x) (sp_removed x) (sp_current x) v (sp_physicalParts x) (sp_segmentCount x) (sp_registrations x) (sp_readerCount x) (sp_readers x) (sp_disk x) (sp_tick x).
Definition set_sp_physicalParts (v : Z) (x : Spool) : Spool := MkSpool (sp_closed x) (sp_partitions x) (sp_removed x) (sp_current x) (sp_usedBytes x) v (sp_segmentCount x) (sp_registrations x) (sp_readerCount x) (sp_readers x) (sp_disk x) (sp_tick x).
Definition set_sp_segmentCount (v : Z) (x : Spool) : Spool := MkSpool (sp_closed x) (sp_partitions x) (sp_removed x) (sp_current x) (sp_usedBytes x) (sp_physicalParts x) v (sp_registrations x) (sp_readerCount x) (sp_readers x) (sp_disk x) (sp_tick x).
Definition set_sp_registrations (v : Z) (x : Spool) : Spool := MkSpool (sp_closed x) (sp_partitions x) (sp_removed x) (sp_current x) (sp_usedBytes x) (sp_physicalParts x) (sp_segmentCount x) v (sp_readerCount x) (sp_readers x) (sp_disk x) (sp_tick x).
Definition set_sp_readerCount (v : Z) (x : Spool) : Spool := MkSpool (sp_closed x) (sp_partitions x) (sp_removed x) (sp_current x) (sp_usedBytes x) (sp_physicalParts x) (sp_segmentCount x) (sp_registrations x) v (sp_readers x) (sp_disk x) (sp_tick x).
Definition set_sp_readers (v : gmap nat Reader) (x : Spool) : Spool := MkSpool (sp_closed x) (sp_partitions x) (sp_removed x) (sp_current x) (sp_usedBytes x) (sp_physicalParts x) (sp_segmentCount x) (sp_registrations x) (sp_readerCount x) v (sp_disk x) (sp_tick x).
Definition set_sp_disk (v : gmap Path (list Z)) (x : Spool) : Spool := MkSpool (sp_closed x) (sp_partitions x) (sp_removed x) (sp_current x) (sp_usedBytes x) (sp_physicalParts x) (sp_segmentCount x) (sp_registrations x) (sp_readerCount x) (sp_readers x) v (sp_tick x).

Definition NewSpool : Spool := MkSpool false ∅ ∅ ∅ 0 0 0 0 0 ∅ ∅ 0.

(** The object of a key, registered or removed. *)
Definition object (k : Key) (s : Spool) : option Partition :=
  match sp_partitions s !! k with Some p => Some p | None => sp_removed s !! k end.
Definition put_object (p : Partition) (s : Spool) : Spool :=
  match sp_partitions s !! p_key p with
  | Some _ => set_sp_partitions (<[p_key p := p]> (sp_partitions s)) s
  | None => set_sp_removed (<[p_key p := p]> (sp_removed s)) s
  end.

(** What a file operation does when it fails: the bytes a write got out, the files a removal left. *)
Inductive IoOutcome : Type :=
| IoOk
| IoFail (written : nat) (kept : Path -> bool).

Definition bump (s : Spool) : Spool :=
  MkSpool (sp_closed s) (sp_partitions s) (sp_removed s) (sp_current s) (sp_usedBytes s) (sp_physicalParts s) (sp_segmentCount s)
    (sp_registrations s) (sp_readerCount s) (sp_readers s) (sp_disk s) (S (sp_tick s)).

Section Spool.
Context (cfg : Config) (io : nat -> IoOutcome) (clock : nat -> Z) (epoch : list Z).

Definition draw (s : Spool) : IoOutcome * Spool := (io (sp_tick s), bump s).
Definition io_ok (s : Spool) : bool * Spool := (match io (sp_tick s) with IoOk => true | _ => false end, bump s).
Definition read_clock (s : Spool) : Z * Spool := (clock (sp_tick s), bump s).

(** ** Accounting *)

Definition reserve (bytes : Z) (newPartition newSegment : bool) (s : Spool) : option StoreError * Spool :=
  if sp_closed s then (Some ErrClosed, s) else
  if (bytes <? 0) || (MaxBytes cfg - bytes <? sp_usedBytes s) then (Some (ErrFormat ErrLimit), s) else
  if newPartition && (MaxPartitions cfg <=? sp_physicalParts s) then (Some (ErrFormat ErrLimit), s) else
  if newSegment && (MaxSegments cfg <=? sp_segmentCount s) then (Some (ErrFormat ErrLimit), s) else
  let s := set_sp_usedBytes (sp_usedBytes s + bytes) s in
  let s := if newPartition then set_sp_physicalParts (sp_physicalParts s + 1) s else s in
  (None, if newSegment then set_sp_segmentCount (sp_segmentCount s + 1) s else s).

Definition release (bytes : Z) (partition segment : bool) (s : Spool) : Spool :=
  let s := if 0 <? bytes then set_sp_usedBytes (sp_usedBytes s - Z.min (sp_usedBytes s) bytes) s else s in
  let s := if partition && (0 <? sp_physicalParts s) then set_sp_physicalParts (sp_physicalParts s - 1) s else s in
  if segment && (0 <? sp_segmentCount s) then set_sp_segmentCount (sp_segmentCount s - 1) s else s.

Definition finishWriterLocked (p : Partition) (s : Spool) : Partition * Spool :=
  if p_writerActive p
  then (set_p_writerActive false p, if 0 <? sp_registrations s then set_sp_registrations (sp_registrations s - 1) s else s)
  else (p, s).

(** [p.active.Close()] when the result is ignored. *)
Definition close_active (p : Partition) (s : Spool) : Partition * Spool :=
  match p_active p with Some _ => (set_p_active None p, snd (io_ok s)) | None => (p, s) end.

Definition poisonLocked (p : Partition) (s : Spool) : Partition * Spool :=
  if bool_decide (p_state p = StatePoisoned \/ p_state p = StateStoreClosed) then (p, s) else
  let '(p, s) := close_active p s in
  let '(now, s) := read_clock s in
  finishWriterLocked (set_p_updatedAt now (set_p_state StatePoisoned p)) s.

Definition stateError (state : State) : StoreError :=
  match state with
  | StateEmptyTerminal => ErrEmptyTerminal
  | StateSealed => ErrEOF
  | StateStoreClosed => ErrClosed
  | _ => ErrUnavailable
  end.

(** ** Removing files and partitions *)

(** [removeManagedPartition]: a failure may leave any part of the directory. *)
Definition removeManagedPartition (dir : string) (s : Spool) : bool * Spool :=
  let '(o, s) := draw s in
  match o with
  | IoOk => (true, set_sp_disk (filter (fun f => f.1.1 <> dir) (sp_disk s)) s)
  | IoFail _ kept => (false, set_sp_disk (filter (fun f => f.1.1 <> dir \/ kept f.1 = true) (sp_disk s)) s)
  end.

(** [fsroot.Remove] of one file. *)
Definition remove_file (path : Path) (s : Spool) : bool * Spool :=
  let '(ok, s) := io_ok s in
  if ok && bool_decide (is_Some (sp_disk s !! path)) then (true, set_sp_disk (delete path (sp_disk s)) s) else (false, s).

(** The readers of a partition let go of a file. *)
Definition close_leases (p : Partition) (path : Path) (s : Spool) : Spool :=
  set_sp_readers (map_imap (fun id r => Some (
    if bool_decide (id ∈ p_leases p /\ fst <$> rd_file r = Some path) then set_rd_file None r else r)) (sp_readers s)) s.

(** Callers check that there is a segment. *)
Definition discardFirstSegmentLocked (p : Partition) (s : Spool) : option StoreError * (Partition * Spool) :=
  match p_segments p with
  | [] => (None, (p, s))
  | seg :: rest =>
    let '(closed, (p, s)) :=
      match rest, p_active p with
      | [], Some _ => let '(ok, s) := io_ok s in (ok, (if ok then set_p_activeBytes 0 (set_p_active None p) else p, s))
      | _, _ => (true, (p, s))
      end in
    if negb closed then (Some ErrIO, (p, s)) else
    let s := close_leases p (sg_path seg) s in
    let '(removed, s) := remove_file (sg_path seg) s in
    if negb removed then (Some ErrIO, (p, s)) else
    let charge := sg_bytes seg + SegmentAllocationCharge cfg in
    let p := set_p_low (match rest with [] => p_high p | next :: _ => sg_base next end) (set_p_segments rest p) in
    let p := set_p_accounted (p_accounted p - charge) (set_p_allocSegments (p_allocSegments p - 1) p) in
    let s := release charge false true s in
    match rest with
    | _ :: _ => (None, (p, s))
    | [] =>
      let '(ok, s) := removeManagedPartition (p_dir p) s in
      if negb ok then (Some ErrIO, (p, s)) else
      let charge := PartitionAllocationCharge cfg in
      (None, (set_p_accounted (p_accounted p - charge) (set_p_physical false p), release charge true false s))
    end
  end.

Definition saturating_sub (a b : Z) : Z := a - Z.min a b.

Definition removePartitionLocked (k : Key) (s : Spool) : option StoreError * Spool :=
  match object k s with
  | None => (None, s)
  | Some p =>
    if bool_decide (p_state p = StateStoreClosed) then (None, s) else
    if (0 <? p_readers p) || bool_decide (p_state p = StatePending \/ p_state p = StateOpen) then (Some ErrInUse, s) else
    let '(p, s) := close_active p s in
    let '(ok, s) := if p_physical p then removeManagedPartition (p_dir p) s else (true, s) in
    if negb ok then (Some ErrIO, put_object p s) else
    if bool_decide (sp_partitions s !! k = None) then (None, put_object p s) else
    let s := set_sp_partitions (delete k (sp_partitions s)) s in
    let s := if bool_decide (sp_current s !! logical k = Some k) then set_sp_current (delete (logical k) (sp_current s)) s else s in
    let s := if 0 <? p_accounted p then set_sp_usedBytes (saturating_sub (sp_usedBytes s) (p_accounted p)) s else s in
    let s := if p_physical p && (0 <? sp_physicalParts s) then set_sp_physicalParts (sp_physicalParts s - 1) s else s in
    let s := if 0 <? p_allocSegments p then set_sp_segmentCount (saturating_sub (sp_segmentCount s) (p_allocSegments p)) s else s in
    let s := if p_writerActive p && (0 <? sp_registrations s) then set_sp_registrations (sp_registrations s - 1) s else s in
    (None, set_sp_removed (<[k := set_p_state StateStoreClosed (set_p_writerActive false p)]> (sp_removed s)) s)
  end.

(** ** Retention *)

Definition len (bs : list Z) : Z := Z.of_nat (length bs).

(** What appending would reserve, and whether it starts a segment. *)
Definition append_cost (p : Partition) (bytes : Z) : Z * bool :=
  let roll := negb (p_physical p) || bool_decide (p_active p = None) || (SegmentBytes cfg <? p_activeBytes p + bytes) in
  (bytes + (if p_physical p then 0 else PartitionAllocationCharge cfg)
         + (if roll then SegmentAllocationCharge cfg + Z.of_nat segmentHeaderSize else 0), roll).

Definition fits_stream (bytes : Z) (p : Partition) (s : Spool) : bool :=
  let '(n, roll) := append_cost p bytes in
  (p_accounted p + n <=? MaxStreamBytes cfg) && (negb roll || (p_allocSegments p <? MaxSegmentsPerPartition cfg)).

Definition fits_store (bytes : Z) (p : Partition) (s : Spool) : bool :=
  let '(n, roll) := append_cost p bytes in
  (sp_usedBytes s <=? MaxBytes cfg - n) && (p_physical p || (sp_physicalParts s <? MaxPartitions cfg))
  && (negb roll || (sp_segmentCount s <? MaxSegments cfg)).

(** Segments are discarded until the condition holds, none is left, or a discard fails. *)
Fixpoint discard_until (fits : Partition -> Spool -> bool) (fuel : nat) (p : Partition) (s : Spool) : option StoreError * (Partition * Spool) :=
  match fuel with
  | O => (None, (p, s))
  | S fuel =>
    if bool_decide (p_segments p = []) || fits p s then (None, (p, s)) else
    match discardFirstSegmentLocked p s with
    | (Some e, ps) => (Some e, ps)
    | (None, (p, s)) => discard_until fits fuel p s
    end
  end.

Definition discard_fuel (p : Partition) : nat := S (length (p_segments p)).

Definition older (a b : Key * Z) : Prop := a.2 <= b.2.
Global Instance older_dec a b : Decision (older a b) := Z_le_dec a.2 b.2.

(** The published windows of other streams, least recently updated first; [walk] is the order of the map. *)
Definition candidates (p : Partition) (walk : list Key) (s : Spool) : list Key :=
  map fst (merge_sort older (walk ≫= fun k =>
    match sp_partitions s !! k with
    | Some other => if negb (bool_decide (k = p_key p)) && p_physical other && p_published other
                       && negb (bool_decide (p_state other = StateStoreClosed)) then [(k, p_updatedAt other)] else []
    | None => []
    end)).

(** The loop over the candidates: an error, or whether the append fits. *)
Fixpoint reclaim (bytes : Z) (p : Partition) (keys : list Key) (s : Spool) : result StoreError bool * Spool :=
  match keys with
  | [] => (Ok false, s)
  | k :: keys =>
    match object k s with
    | None => reclaim bytes p keys s
    | Some other =>
      if bool_decide (p_state other = StateStoreClosed) then reclaim bytes p keys s else
      match discard_until (fun _ s => fits_store bytes p s) (discard_fuel other) other s with
      | (Some e, (other, s)) => (Fail e, put_object other s)
      | (None, (other, s)) =>
        let s := put_object other s in
        let s := if negb (p_writerActive other) && (p_readers other =? 0) then snd (removePartitionLocked k s) else s in
        if fits_store bytes p s then (Ok true, s) else reclaim bytes p keys s
      end
    end
  end.

Definition makeRoomLocked (bytes : Z) (walk : list Key) (p : Partition) (s : Spool) : option StoreError * (Partition * Spool) :=
  match discard_until (fits_stream bytes) (discard_fuel p) p s with
  | (Some e, ps) => (Some e, ps)
  | (None, (p, s)) =>
    if negb (fits_stream bytes p s) then (Some (ErrFormat ErrLimit), (p, s)) else
    if fits_store bytes p s then (None, (p, s)) else
    match reclaim bytes p (candidates p walk s) s with
    | (Fail e, s) => (Some e, (p, s))
    | (Ok true, s) => (None, (p, s))
    | (Ok false, s) =>
      match discard_until (fits_store bytes) (discard_fuel p) p s with
      | (Some e, ps) => (Some e, ps)
      | (None, (p, s)) => (if fits_store bytes p s then None else Some (ErrFormat ErrLimit), (p, s))
      end
    end
  end.

(** ** Appending *)

(** [openExclusiveRegular]: a failure may leave an empty file. *)
Definition open_exclusive (path : Path) (s : Spool) : bool * Spool :=
  let '(o, s) := draw s in
  if bool_decide (is_Some (sp_disk s !! path)) then (false, s) else
  match o with
  | IoOk => (true, set_sp_disk (<[path := []]> (sp_disk s)) s)
  | IoFail _ kept => (false, if kept path then set_sp_disk (<[path := []]> (sp_disk s)) s else s)
  end.

(** [file.Write] at the end of a file: the bytes written, and whether that was all. *)
Definition write_file (path : Path) (bytes : list Z) (s : Spool) : bool * nat * Spool :=
  let '(o, s) := draw s in
  let n := match o with IoOk => length bytes | IoFail n _ => Nat.min n (length bytes) end in
  (match o with IoOk => true | _ => false end, n, set_sp_disk (<[path := default [] (sp_disk s !! path) ++ take n bytes]> (sp_disk s)) s).

Definition rollLocked (p : Partition) (s : Spool) : option StoreError * (Partition * Spool) :=
  let '(closed, (p, s)) :=
    match p_active p with Some _ => let '(ok, s) := io_ok s in (ok, (set_p_active None p, s)) | None => (true, (p, s)) end in
  if negb closed then (Some ErrIO, (p, s)) else
  let '(made, s) := io_ok s in
  if negb made then (Some ErrIO, (p, s)) else
  let path := (p_dir p, segmentFilename (p_high p)) in
  let '(opened, s) := open_exclusive path s in
  if negb opened then (Some ErrIO, (p, s)) else
  let '(now, s) := read_clock s in
  let header := encodeSegmentHeader (p_key p) (p_originComplete p) (p_high p) now in
  let '(written, _, s) := write_file path header s in
  if negb written then (Some ErrIO, (p, snd (remove_file path s))) else
  (None, (set_p_segments (p_segments p ++ [MkSegment (p_high p) path (len header)]) (set_p_activeBytes (len header) (set_p_active (Some path) p)), s)).

Definition last_bytes (bytes : Z) (segments : list Segment) : list Segment :=
  match rev segments with
  | [] => []
  | seg :: before => rev before ++ [MkSegment (sg_base seg) (sg_path seg) bytes]
  end.

(** The write of [appendEncodedLocked], after the reservation. *)
Definition write_records (encoded : list Z) (count : Z) (p : Partition) (s : Spool) : result StoreError Z * (Partition * Spool) :=
  match p_active p with
  | None => (Fail ErrUnavailable, (p, s))
  | Some path =>
    let startSize := p_activeBytes p in
    let '(written, n, s) := write_file path encoded s in
    if negb written then
      let '(stat, s) := io_ok s in
      let size := if stat then len (default [] (sp_disk s !! path)) else startSize + Z.of_nat n in
      let p := set_p_activeBytes size p in
      let unused := len encoded - Z.min (len encoded) (Z.max (size - startSize) 0) in
      let '(p, s) := if 0 <? unused then (set_p_accounted (p_accounted p - unused) p, release unused false false s) else (p, s) in
      (Fail ErrUnavailable, poisonLocked p s)
    else
      let offset := p_high p in
      let p := set_p_activeBytes (startSize + len encoded) (set_p_high (u64 (offset + count)) p) in
      let p := set_p_state StateOpen (set_p_segments (last_bytes (startSize + len encoded) (p_segments p)) p) in
      let '(now, s) := read_clock s in
      (Ok offset, (set_p_updatedAt now p, s))
  end.

(** [appendEncodedLocked] after [makeRoomLocked]: the reservation, the segment and the write. *)
Definition append_reserved (encoded : list Z) (count : Z) (p : Partition) (s : Spool) : result StoreError Z * (Partition * Spool) :=
  let newPartition := negb (p_physical p) in
  let newSegment := newPartition || bool_decide (p_active p = None) || (SegmentBytes cfg <? p_activeBytes p + len encoded) in
  if newSegment && (MaxSegmentsPerPartition cfg <=? p_allocSegments p) then (Fail (ErrFormat ErrLimit), poisonLocked p s) else
  let amount := len encoded + (if newPartition then PartitionAllocationCharge cfg else 0)
                 + (if newSegment then SegmentAllocationCharge cfg + Z.of_nat segmentHeaderSize else 0) in
  if MaxStreamBytes cfg <? p_accounted p + amount then (Fail (ErrFormat ErrLimit), poisonLocked p s) else
  match reserve amount newPartition newSegment s with
  | (Some e, s) => (Fail e, poisonLocked p s)
  | (None, s) =>
    let p := set_p_accounted (p_accounted p + amount) p in
    let p := if newPartition then set_p_physical true p else p in
    let p := if newSegment then set_p_allocSegments (p_allocSegments p + 1) p else p in
    if newSegment then
      match rollLocked p s with
      | (Some e, (p, s)) =>
        let '(cleaned, s) := if newPartition then removeManagedPartition (p_dir p) s else (true, s) in
        if newPartition && cleaned then
          let p := set_p_allocSegments (p_allocSegments p - 1) (set_p_physical false (set_p_accounted (p_accounted p - amount) p)) in
          (Fail e, poisonLocked p (release amount true true s))
        else
          (Fail e, poisonLocked (set_p_accounted (p_accounted p - len encoded) p) (release (len encoded) false false s))
      | (None, (p, s)) => write_records encoded count p s
      end
    else write_records encoded count p s
  end.

Definition appendEncodedLocked (encoded : list Z) (count : Z) (walk : list Key) (p : Partition) (s : Spool)
  : result StoreError Z * (Partition * Spool) :=
  match makeRoomLocked (len encoded) walk p s with
  | (Some e, (p, s)) => (Fail e, poisonLocked p s)
  | (None, (p, s)) => append_reserved encoded count p s
  end.

(** The records of one write: as many as fit the segment, at least one. *)
Fixpoint encode_chunk (available offset : Z) (encoded : list Z) (count : nat) (records : list SpoolRecord) : result StoreError (list Z * nat) :=
  match records with
  | [] => Ok (encoded, count)
  | r :: rest =>
    if MaxRecordBytes cfg <? len (r_Payload r) then Fail (ErrFormat ErrLimit) else
    match encodeRecord (offset + Z.of_nat count) (r_Type r) (r_OccurredAt r) (r_Payload r) with
    | Fail e => Fail (ErrFormat e)
    | Ok next =>
      if (0 <? Z.of_nat count) && (available <? len encoded + len next) then Ok (encoded, count)
      else encode_chunk available offset (encoded ++ next) (S count) rest
    end
  end.

(** A unit of fuel per record. *)
Fixpoint append_loop (fuel : nat) (records : list SpoolRecord) (walk : list Key) (p : Partition) (s : Spool)
  : option StoreError * (Partition * Spool) :=
  match fuel, records with
  | _, [] => (None, (p, s))
  | O, _ => (None, (p, s))
  | S fuel, _ =>
    let available := match p_active p with None => SegmentBytes cfg - Z.of_nat segmentHeaderSize | Some _ => SegmentBytes cfg - p_activeBytes p end in
    match encode_chunk available (p_high p) [] 0 records with
    | Fail e => (Some e, poisonLocked p s)
    | Ok (encoded, count) =>
      match appendEncodedLocked encoded (Z.of_nat count) walk p s with
      | (Fail e, ps) => (Some e, ps)
      | (Ok _, (p, s)) => append_loop fuel (drop count records) walk p s
      end
    end
  end.

(** The offset of the first record, also with an error; [cancelled] is the state of the context. *)
Definition AppendBatch (cancelled : bool) (k : Key) (records : list SpoolRecord) (walk : list Key) (s : Spool) : Z * option StoreError * Spool :=
  if cancelled then (0, Some ErrContext, s) else
  match object k s with
  | None => (0, Some ErrUnavailable, s)
  | Some p =>
    if negb (bool_decide (p_state p = StatePending \/ p_state p = StateOpen)) then (0, Some (stateError (p_state p)), s) else
    let '(e, (p', s)) := append_loop (length records) records walk p s in
    let s := put_object p' s in
    let forget := bool_decide (p_state p' = StatePoisoned) && negb (p_physical p') && (p_readers p' =? 0) in
    (p_high p, e, if forget then snd (removePartitionLocked k s) else s)
  end.

Definition Append (cancelled : bool) (k : Key) (recordType occurredAt : Z) (payload : list Z) (walk : list Key) (s : Spool) :=
  AppendBatch cancelled k [MkSpoolRecord 0 recordType occurredAt payload] walk s.

(** ** The other operations of a writer *)

Definition FinishEmpty (cancelled : bool) (k : Key) (s : Spool) : option StoreError * Spool :=
  if cancelled then (Some ErrContext, s) else
  match object k s with
  | None => (Some ErrUnavailable, s)
  | Some p =>
    if negb (bool_decide (p_state p = StatePending)) || negb (p_high p =? 0) then
      (if bool_decide (p_state p = StateOpen) then None else Some (stateError (p_state p)), s)
    else
      let '(now, s) := read_clock s in
      let '(p, s) := finishWriterLocked (set_p_updatedAt now (set_p_state StateEmptyTerminal p)) s in
      let s := put_object p s in
      (None, if p_readers p =? 0 then snd (removePartitionLocked k s) else s)
  end.

Definition Seal (cancelled : bool) (k : Key) (s : Spool) : option StoreError * Spool :=
  if cancelled then (Some ErrContext, s) else
  match object k s with
  | None => (Some ErrUnavailable, s)
  | Some p =>
    if bool_decide (p_state p = StateSealed) then (None, s) else
    if negb (bool_decide (p_state p = StatePending \/ p_state p = StateOpen)) then (Some (stateError (p_state p)), s) else
    let '(closed, (p, s)) :=
      match p_active p with Some _ => let '(ok, s) := io_ok s in (ok, (set_p_active None p, s)) | None => (true, (p, s)) end in
    if negb closed then let '(p, s) := poisonLocked p s in (Some ErrUnavailable, put_object p s) else
    let p := set_p_state (if p_high p =? 0 then StateEmptyTerminal else StateSealed) p in
    let '(now, s) := read_clock s in
    let '(p, s) := finishWriterLocked (set_p_updatedAt now p) s in
    let s := put_object p s in
    let forget := bool_decide (p_state p = StateEmptyTerminal) && (p_readers p =? 0) in
    (None, if forget then snd (removePartitionLocked k s) else s)
  end.

Definition Invalidate (k : Key) (s : Spool) : option StoreError * Spool :=
  match object k s with
  | None => (Some ErrUnavailable, s)
  | Some p => let '(p, s) := poisonLocked p s in (None, put_object p s)
  end.

Record Bounds : Type := MkBounds { b_Low : Z; b_High : Z; b_OriginComplete : bool; b_State : State }.
Definition bounds (p : Partition) : Bounds := MkBounds (p_low p) (p_high p) (p_originComplete p) (p_state p).

Definition WriterBounds (cancelled : bool) (k : Key) (s : Spool) : result StoreError Bounds :=
  match object k s with
  | None => Fail ErrUnavailable
  | Some p => if cancelled then Fail ErrContext else Ok (bounds p)
  end.

(** ** The store *)

Definition validateLogicalKey (l : LogicalKey) : bool := NamespaceValid l.1 && negb (bool_decide (l.2 = replicate 32 0)).

(** [incarnation] is drawn; a failed draw is [None]. *)
Definition Register (cancelled : bool) (l : LogicalKey) (originComplete unpublished : bool) (incarnation : option (list Z)) (s : Spool)
  : result StoreError Key * Spool :=
  if negb (validateLogicalKey l) then (Fail ErrInvalidKey, s) else
  if cancelled then (Fail ErrContext, s) else
  if sp_closed s then (Fail ErrClosed, s) else
  if negb unpublished && bool_decide (is_Some (sp_current s !! l ≫= fun k => sp_partitions s !! k)) then (Fail ErrInUse, s) else
  if (MaxRegistrations cfg <=? sp_registrations s) || (MaxPartitions cfg <=? Z.of_nat (size (sp_partitions s))) then (Fail (ErrFormat ErrLimit), s) else
  match incarnation with
  | None => (Fail ErrIO, s)
  | Some i =>
    let k := MkKey l.1 l.2 epoch i in
    let '(now, s) := read_clock s in
    let p := MkPartition k originComplete (negb unpublished) (partitionRelativeDir k) StatePending 0 0 [] None 0 0 false 0 0 ∅ true now in
    let s := set_sp_partitions (<[k := p]> (sp_partitions s)) s in
    let s := if unpublished then s else set_sp_current (<[l := k]> (sp_current s)) s in
    (Ok k, set_sp_registrations (sp_registrations s + 1) s)
  end.

Definition lookup_key (cancelled : bool) (k : Key) (s : Spool) : result StoreError Partition :=
  if cancelled then Fail ErrContext else
  if sp_closed s then Fail ErrClosed else
  match sp_partitions s !! k with Some p => Ok p | None => Fail ErrNotFound end.

Definition Publish (cancelled : bool) (k : Key) (s : Spool) : option StoreError * Spool :=
  match lookup_key cancelled k s with
  | Fail e => (Some e, s)
  | Ok p =>
    if negb (bool_decide (p_state p = StatePending \/ p_state p = StateOpen)) then (Some (stateError (p_state p)), s) else
    let previous := sp_current s !! logical k ≫= fun k => if bool_decide (is_Some (sp_partitions s !! k)) then Some k else None in
    let s := put_object (set_p_published true p) (set_sp_current (<[logical k := k]> (sp_current s)) s) in
    (None, match previous with
           | Some q => if bool_decide (q = k) then s else snd (Seal false q s)
           | None => s
           end)
  end.

Definition Resolve (cancelled : bool) (l : LogicalKey) (s : Spool) : result StoreError (Key * Bounds) :=
  if cancelled then Fail ErrContext else
  if sp_closed s then Fail ErrClosed else
  match sp_current s !! l with
  | None => Fail ErrNotFound
  | Some k => match sp_partitions s !! k with Some p => Ok (k, bounds p) | None => Fail ErrNotFound end
  end.

Definition StoreBounds (cancelled : bool) (k : Key) (s : Spool) : result StoreError Bounds :=
  let! p := lookup_key cancelled k s in Ok (bounds p).

Definition Remove (cancelled : bool) (k : Key) (s : Spool) : option StoreError * Spool :=
  match lookup_key cancelled k s with Fail e => (Some e, s) | Ok _ => removePartitionLocked k s end.

(** Every object that is registered when the store closes. *)
Definition close_partition (p : Partition) : Partition := set_p_writerActive false (set_p_state StateStoreClosed (set_p_active None p)).
Definition Close (s : Spool) : Spool :=
  if sp_closed s then s else set_sp_partitions (close_partition <$> sp_partitions s) (set_sp_closed true s).

(** [Collect]: expired terminal partitions without readers; [walk] is the order of the map. *)
Fixpoint collect_loop (now : Z) (walk : list Key) (s : Spool) : list StoreError * Spool :=
  match walk with
  | [] => ([], s)
  | k :: walk =>
    let '(e, s) :=
      match object k s with
      | Some p =>
        let terminal := bool_decide (p_state p = StateEmptyTerminal \/ p_state p = StateSealed \/ p_state p = StatePoisoned) in
        let expired := negb (p_updatedAt p =? 0) && (TerminalTTL cfg <=? now - p_updatedAt p) in
        if terminal && expired && (p_readers p =? 0) then removePartitionLocked k s else (None, s)
      | None => (None, s)
      end in
    let '(errors, s) := collect_loop now walk s in
    (match e with Some e => e :: errors | None => errors end, s)
  end.

Definition Collect (cancelled : bool) (walk : list Key) (s : Spool) : list StoreError * Spool :=
  if cancelled then ([ErrContext], s) else
  if sp_closed s then ([ErrClosed], s) else
  let '(now, s) := read_clock s in
  collect_loop now (filter (fun k => is_Some (sp_partitions s !! k)) walk) s.

(** ** Readers *)

Definition readerForPartition (k : Key) (offset : Z) (s : Spool) : result StoreError nat * Spool :=
  match object k s with
  | None => (Fail ErrNotFound, s)
  | Some p =>
    if offset <? p_low p then (Fail ErrExpired, s) else
    if p_high p <? offset then (Fail ErrNotFound, s) else
    if MaxReadersPerPartition cfg <=? p_readers p then (Fail (ErrFormat ErrLimit), s) else
    if sp_closed s then (Fail ErrClosed, s) else
    if bool_decide (p_state p = StateStoreClosed) || bool_decide (sp_partitions s !! k = None) then (Fail ErrNotFound, s) else
    if MaxReaders cfg <=? sp_readerCount s then (Fail (ErrFormat ErrLimit), s) else
    let id := fresh (dom (sp_readers s)) in
    let s := set_sp_readers (<[id := MkReader k offset false None 0]> (sp_readers s)) (set_sp_readerCount (sp_readerCount s + 1) s) in
    (Ok id, put_object (set_p_leases ({[id]} ∪ p_leases p) (set_p_readers (p_readers p + 1) p)) s)
  end.

Definition OpenReader (cancelled : bool) (k : Key) (offset : Z) (s : Spool) : result StoreError nat * Spool :=
  match lookup_key cancelled k s with Fail e => (Fail e, s) | Ok _ => readerForPartition k offset s end.

(** The last segment that starts at the offset or before. *)
Fixpoint select_segment (offset : Z) (segments : list Segment) (selected : option Segment) : option Segment :=
  match segments with
  | [] => selected
  | seg :: rest => if offset <? sg_base seg then selected else select_segment offset rest (Some seg)
  end.

(** One record from the position of an open file. *)
Definition decode_at (content : list Z) (position : nat) : result SpoolError (SpoolRecord * nat) :=
  let! (record, rest) := decodeRecord (Z.to_nat (MaxRecordBytes cfg)) (drop position content) in
  Ok (record, (length content - length rest)%nat).

Definition discontinuity : StoreError := ErrFormat (ErrCorrupt "segment offset discontinuity").
Definition normalizeReadError (e : SpoolError) : StoreError :=
  match e with IoEOF | IoUnexpectedEOF => ErrFormat (ErrCorrupt "incomplete record") | _ => ErrFormat e end.

(** Where a failed [decodeRecord] leaves the file: after the prefix, or after the bytes of the body that were there. *)
Definition failed_at (content : list Z) (position : nat) : nat :=
  match read_full recordPrefixSize (drop position content) with
  | Fail _ => length content
  | Ok (prefix, rest) =>
    let bodyLen := get_be prefix in
    if (bodyLen <? Z.of_nat (recordFixedBody + recordChecksumSize))
       || (Z.of_nat (Z.to_nat (MaxRecordBytes cfg) + recordFixedBody + recordChecksumSize) <? bodyLen)
    then (position + recordPrefixSize)%nat
    else Nat.min (length content) (position + recordPrefixSize + Z.to_nat bodyLen)
  end.

(** [decodeRecord] at [nextOffset], and the check of its offset. *)
Definition read_next (content : list Z) (r : Reader) (path : Path) (position : nat) : result StoreError SpoolRecord * Reader :=
  match decode_at content position with
  | Fail e => (Fail (normalizeReadError e), set_rd_file (Some (path, failed_at content position)) r)
  | Ok (record, position) =>
    let r := set_rd_file (Some (path, position)) r in
    if r_Offset record =? rd_nextOffset r then (Ok record, set_rd_nextOffset (rd_nextOffset r + 1) r) else (Fail discontinuity, r)
  end.

(** Records before the offset are skipped, one unit of fuel each. *)
Fixpoint skip_records (fuel : nat) (content : list Z) (path : Path) (offset : Z) (r : Reader) : option StoreError * Reader :=
  match fuel with
  | O => (None, r)
  | S fuel =>
    if rd_nextOffset r <? offset then
      match rd_file r with
      | None => (Some ErrUnavailable, r)
      | Some (_, position) =>
        match read_next content r path position with
        | (Fail e, r) => (Some e, r)
        | (Ok _, r) => skip_records fuel content path offset r
        end
      end
    else (None, r)
  end.

(** [openReadOnlyRegular] and [validateSegmentHeader]. *)
Definition open_segment (r : Reader) (seg : Segment) (originComplete : bool) (s : Spool) : option StoreError * (Reader * Spool) :=
  let r := set_rd_file None r in
  let '(ok, s) := io_ok s in
  match sp_disk s !! sg_path seg with
  | None => (Some ErrIO, (r, s))
  | Some content =>
    if negb ok then (Some ErrIO, (r, s)) else
    match decodeSegmentHeader content with
    | Fail e => (Some (ErrFormat e), (r, s))
    | Ok (header, rest) =>
      if bool_decide (h_key header = rd_partition r) && (h_base header =? sg_base seg) && Bool.eqb (h_originComplete header) originComplete
      then (None, (set_rd_nextOffset (sg_base seg) (set_rd_file (Some (sg_path seg, (length content - length rest)%nat)) r), s))
      else (Some (ErrFormat (ErrCorrupt "segment identity mismatch")), (r, s))
    end
  end.

Definition readOffset (offset : Z) (segments : list Segment) (originComplete : bool) (r : Reader) (s : Spool)
  : result StoreError SpoolRecord * (Reader * Spool) :=
  match select_segment offset segments None with
  | None => (Fail (ErrFormat (ErrCorrupt "no segment for offset")), (r, s))
  | Some seg =>
    if rd_closed r then (Fail ErrClosed, (r, s)) else
    let '(e, (r, s)) :=
      if bool_decide (fst <$> rd_file r = Some (sg_path seg)) && (rd_nextOffset r <=? offset) then (None, (r, s))
      else open_segment r seg originComplete s in
    match e with
    | Some e => (Fail e, (r, s))
    | None =>
      let content := default [] (sp_disk s !! sg_path seg) in
      match skip_records (Z.to_nat (offset - rd_nextOffset r)) content (sg_path seg) offset r with
      | (Some e, r) => (Fail e, (r, s))
      | (None, r) =>
        match rd_file r with
        | None => (Fail ErrUnavailable, (r, s))
        | Some (_, position) => let '(result, r) := read_next content r (sg_path seg) position in (result, (r, s))
        end
      end
    end
  end.

(** A record, an error, or nothing yet. *)
Inductive NextResult : Type :=
| Got (record : SpoolRecord)
| NextError (e : StoreError)
| Wait.

Definition put_reader (id : nat) (r : Reader) (s : Spool) : Spool := set_sp_readers (<[id := r]> (sp_readers s)) s.

Definition Next (id : nat) (s : Spool) : NextResult * Spool :=
  match sp_readers s !! id with
  | None => (NextError ErrUnavailable, s)
  | Some r =>
    if rd_closed r then (NextError ErrClosed, s) else
    match object (rd_partition r) s with
    | None => (NextError ErrUnavailable, s)
    | Some p =>
      let offset := rd_offset r in
      if offset <? p_low p then (NextError ErrExpired, s) else
      if offset <? p_high p then
        match readOffset offset (p_segments p) (p_originComplete p) r s with
        | (Fail e, (r, s)) => (NextError e, put_reader id r s)
        | (Ok record, (r, s)) =>
          if r_Offset record =? offset then (Got record, put_reader id (set_rd_offset (u64 (offset + 1)) r) s)
          else (NextError (ErrFormat (ErrCorrupt "offset")), put_reader id r s)
        end
      else
        match p_state p with
        | StatePending | StateOpen => (Wait, s)
        | state => (NextError (stateError state), s)
        end
    end
  end.

Definition CloseReader (id : nat) (s : Spool) : Spool :=
  match sp_readers s !! id with
  | None => s
  | Some r =>
    if rd_closed r then s else
    let s := put_reader id (set_rd_file None (set_rd_closed true r)) s in
    match object (rd_partition r) s with
    | None => s
    | Some p =>
      let p := set_p_readers (if 0 <? p_readers p then p_readers p - 1 else p_readers p) (set_p_leases (p_leases p ∖ {[id]}) p) in
      let s := put_object p s in
      let s := if 0 <? sp_readerCount s then set_sp_readerCount (sp_readerCount s - 1) s else s in
      let forget := (p_readers p =? 0) && negb (p_physical p) && bool_decide (p_state p = StateEmptyTerminal \/ p_state p = StatePoisoned) in
      if forget then snd (removePartitionLocked (rd_partition r) s) else s
    end
  end.
End Spool.
