(* ===== verification/SpoolFacts.v ===== *)
(** * The stream spool: files and accounts

    What the proofs about [SpoolStore] share: names of files are distinct,
    sums over partitions, and records found at their positions in the bytes of
    a segment. *)

From Stdlib Require Import ZArith Lia Ascii String.
From stdpp Require Import base option strings list gmap sets sorting.
From S2P Require Import Prelude GoStrings GoText GoPath SpoolFormat SpoolStore.

Open Scope list_scope.
Open Scope Z_scope.

(** ** Sums over a map *)

Section Sums.
Context {K A : Type} `{Countable K} (f : A -> Z).

Definition total (m : gmap K A) : Z := map_fold (fun _ x acc => f x + acc) 0 m.

Lemma total_insert_new k x m : m !! k = None -> total (<[k := x]> m) = f x + total m.
Proof. intros Hk. unfold total. rewrite map_fold_insert_L; [done| |done]. intros. lia. Qed.

Lemma total_delete k x m : m !! k = Some x -> total (delete k m) = total m - f x.
Proof.
  intros Hk. enough (total m = f x + total (delete k m)) by lia. unfold total.
  apply (map_fold_delete_L (fun _ x acc => f x + acc) 0 k x m); [intros; lia|done].
Qed.

Lemma total_insert k x y m : m !! k = Some x -> total (<[k := y]> m) = total m - f x + f y.
Proof.
  intros Hk. rewrite <- insert_delete_eq, total_insert_new by apply lookup_delete_eq. rewrite (total_delete k x m Hk). lia.
Qed.

Lemma total_empty : total ∅ = 0.
Proof. unfold total. apply map_fold_empty. Qed.

Lemma total_nonneg m : (forall k x, m !! k = Some x -> 0 <= f x) -> 0 <= total m.
Proof.
  induction m as [|k x m Hk IH] using map_ind; intros Hf; [by rewrite total_empty|]. rewrite total_insert_new by done.
  assert (0 <= f x) by (apply (Hf k), lookup_insert_eq). assert (0 <= total m); [|lia]. apply IH. intros k' y Hy. apply (Hf k').
  rewrite lookup_insert_ne by (intros ->; congruence). done.
Qed.

Lemma total_ge k x m : (forall k x, m !! k = Some x -> 0 <= f x) -> m !! k = Some x -> f x <= total m.
Proof.
  intros Hf Hk. pose proof (total_delete k x m Hk). assert (0 <= total (delete k m)); [|lia].
  apply total_nonneg. intros k' y [_ Hy]%lookup_delete_Some. by apply (Hf k').
Qed.
End Sums.

Lemma total_le {K A} `{Countable K} (f g : A -> Z) (m : gmap K A) :
  (forall k x, m !! k = Some x -> f x <= g x) -> total f m <= total g m.
Proof.
  induction m as [|k x m Hk IH] using map_ind; intros Hf; [by rewrite !total_empty|]. rewrite !total_insert_new by done.
  assert (f x <= g x) by (apply (Hf k), lookup_insert_eq). assert (total f m <= total g m); [|lia]. apply IH. intros k' y Hy. apply (Hf k').
  rewrite lookup_insert_ne by (intros ->; congruence). done.
Qed.

Lemma total_fmap {K A B} `{Countable K} (f : B -> Z) (g : A -> B) (m : gmap K A) : total f (g <$> m) = total (fun x => f (g x)) m.
Proof.
  induction m as [|k x m Hk IH] using map_ind; [by rewrite fmap_empty|].
  rewrite fmap_insert, !total_insert_new, IH by (by rewrite ?lookup_fmap, ?Hk). done.
Qed.

Lemma total_ext {K A} `{Countable K} (f g : A -> Z) (m : gmap K A) : (forall k x, m !! k = Some x -> f x = g x) -> total f m = total g m.
Proof. intros Hf. apply Z.le_antisymm; apply total_le; intros k x Hk; rewrite (Hf k x Hk); lia. Qed.

Lemma total_zero {K A} `{Countable K} (m : gmap K A) : total (fun _ => 0) m = 0.
Proof. induction m as [|k x m Hk IH] using map_ind; [apply total_empty|]. by rewrite total_insert_new. Qed.

Lemma total_plus {K A} `{Countable K} (f g : A -> Z) (m : gmap K A) : total (fun x => f x + g x) m = total f m + total g m.
Proof. induction m as [|k x m Hk IH] using map_ind; [by rewrite !total_empty|]. rewrite !total_insert_new, IH by done. lia. Qed.

(** ** Bytes on disk *)

Definition disk_bytes (disk : gmap Path (list Z)) : Z := total len disk.
Definition dir_bytes (d : string) (disk : gmap Path (list Z)) : Z := disk_bytes (filter (fun f => f.1.1 = d) disk).

Lemma len_nonneg l : 0 <= len l.
Proof. unfold len. lia. Qed.

Lemma dir_bytes_nonneg d disk : 0 <= dir_bytes d disk.
Proof. apply total_nonneg. intros. apply len_nonneg. Qed.

Lemma dir_bytes_ext d disk disk' : (forall f : Path, f.1 = d -> disk' !! f = disk !! f) -> dir_bytes d disk' = dir_bytes d disk.
Proof.
  intros Hf. unfold dir_bytes. f_equal. apply map_eq. intros f. rewrite !map_lookup_filter. destruct (decide (f.1 = d)) as [E|E].
  - by rewrite Hf.
  - destruct (disk !! f), (disk' !! f); cbn; rewrite ?option_guard_False by done; done.
Qed.

Lemma dir_bytes_insert (f : Path) c c' disk : disk !! f = Some c -> dir_bytes f.1 (<[f := c']> disk) = dir_bytes f.1 disk - len c + len c'.
Proof.
  intros Hf. unfold dir_bytes, disk_bytes. rewrite map_filter_insert_True by done. apply total_insert. by apply map_lookup_filter_Some.
Qed.

Lemma dir_bytes_insert_new (f : Path) c disk : disk !! f = None -> dir_bytes f.1 (<[f := c]> disk) = dir_bytes f.1 disk + len c.
Proof.
  intros Hf. unfold dir_bytes, disk_bytes. rewrite map_filter_insert_True by done. rewrite total_insert_new; [lia|].
  apply map_lookup_filter_None. by left.
Qed.

Lemma dir_bytes_delete (f : Path) c disk : disk !! f = Some c -> dir_bytes f.1 (delete f disk) = dir_bytes f.1 disk - len c.
Proof.
  intros Hf. unfold dir_bytes, disk_bytes. rewrite map_filter_delete. apply total_delete. by apply map_lookup_filter_Some.
Qed.

Lemma dir_bytes_filter (P : Path * list Z -> Prop) `{!forall x, Decision (P x)} d disk : dir_bytes d (filter P disk) <= dir_bytes d disk.
Proof.
  unfold dir_bytes, disk_bytes. induction disk as [|f c disk Hf IH] using map_ind; [by rewrite !map_filter_empty|].
  assert (Hn : filter P disk !! f = None) by (apply map_lookup_filter_None; by left).
  assert (Hd : forall m, m !! f = None -> total len (filter (fun f => f.1.1 = d) (<[f := c]> m)) =
    (if decide (f.1 = d) then len c else 0) + total len (filter (fun f => f.1.1 = d) m)).
  { intros m Hm. case_decide; [rewrite map_filter_insert_True by done; rewrite total_insert_new; [done|apply map_lookup_filter_None; by left]|].
    rewrite map_filter_insert_False, delete_id by done. lia. }
  rewrite Hd by done. destruct (decide (P (f, c))).
  - rewrite map_filter_insert_True, Hd by done. lia.
  - rewrite map_filter_insert_False, delete_id by done. pose proof (len_nonneg c). case_decide; lia.
Qed.

Lemma dir_bytes_none d disk : (forall f : Path, f.1 = d -> disk !! f = None) -> dir_bytes d disk = 0.
Proof. intros Hf. rewrite (dir_bytes_ext d ∅); [|intros f E; by rewrite Hf]. unfold dir_bytes. rewrite map_filter_empty. apply total_empty. Qed.

(** When each file is in a directory of the map, the sums over the directories cover the disk. *)
Lemma disk_bytes_covered {K A} `{Countable K} (dir : A -> string) (m : gmap K A) (disk : gmap Path (list Z)) :
  (forall (f : Path) c, disk !! f = Some c -> exists k x, m !! k = Some x /\ f.1 = dir x) ->
  disk_bytes disk <= total (fun x => dir_bytes (dir x) disk) m.
Proof.
  unfold disk_bytes. induction disk as [|f c disk Hf IH] using map_ind; intros Hc.
  - rewrite total_empty. apply total_nonneg. intros. apply dir_bytes_nonneg.
  - rewrite total_insert_new by done. assert (IH' : total len disk <= total (fun x => dir_bytes (dir x) disk) m).
    { apply IH. intros f' c' Hf'. apply (Hc f' c'). rewrite lookup_insert_ne by (intros ->; discriminate (eq_trans (eq_sym Hf) Hf')). done. }
    destruct (Hc f c) as (k&x&Hk&E); [apply lookup_insert_eq|].
    assert (Hx : total (fun x => dir_bytes (dir x) disk) m + total (fun x => if decide (f.1 = dir x) then len c else 0) m
      <= total (fun x => dir_bytes (dir x) (<[f := c]> disk)) m).
    { rewrite <- total_plus. apply total_le. intros k' y _. case_decide as Hd.
      - rewrite <- Hd, dir_bytes_insert_new by done. lia.
      - rewrite (dir_bytes_ext (dir y) disk (<[f := c]> disk)); [lia|]. intros f' E'. apply lookup_insert_ne. congruence. }
    pose proof (total_ge (fun x => if decide (f.1 = dir x) then len c else 0) k x m) as Hge. cbv beta in Hge. rewrite decide_True in Hge by done.
    pose proof (len_nonneg c). assert (len c <= total (fun x => if decide (f.1 = dir x) then len c else 0) m); [|lia].
    apply Hge; [|done]. intros. case_decide; lia.
Qed.

(** ** Names of files *)

Definition byte (b : Z) : Prop := 0 <= b < 256.

(** The keys that the store makes. *)
Definition good_key (k : Key) : Prop :=
  key_wf k /\ NamespaceValid (Namespace k) = true /\ Forall byte (Digest k) /\ Forall byte (Epoch k) /\ Forall byte (Incarnation k).

Lemma text_inj l k : text l = text k -> l = k.
Proof. intros E. apply (f_equal bytes) in E. by rewrite !bytes_text in E. Qed.

Lemma hex_bytes_inj l k : Forall byte l -> Forall byte k -> hex_bytes l = hex_bytes k -> l = k.
Proof.
  unfold hex_bytes. intros Hl Hk E%text_inj. revert k Hk E. induction Hl as [|x l Hx Hl IH]; intros k Hk E; destruct Hk as [|y k Hy Hk]; try done.
  cbn in E. injection E as E1 E2 E. unfold byte in *.
  apply hex_digit_inj in E1; [|split; [apply Z.div_pos|apply Z.div_lt_upper_bound]; lia..].
  apply hex_digit_inj in E2; [|apply Z.mod_pos_bound; lia..]. f_equal; [|by apply IH].
  pose proof (Z.div_mod x 16). pose proof (Z.div_mod y 16). lia.
Qed.

Lemma hex_digit_slash d : 0 <= d < 16 -> hex_digit d <> "/"%char.
Proof. intros Hd E. assert (Hc : d = 0 \/ d = 1 \/ d = 2 \/ d = 3 \/ d = 4 \/ d = 5 \/ d = 6 \/ d = 7 \/ d = 8 \/ d = 9 \/ d = 10 \/ d = 11 \/ d = 12 \/ d = 13 \/ d = 14 \/ d = 15) by lia.
  destruct_or! Hc; subst d; vm_compute in E; discriminate. Qed.

Lemma hex_no_slash l : Forall byte l -> no_slash (hex_bytes l).
Proof.
  unfold no_slash, hex_bytes. rewrite bytes_text. intros Hl Hin. apply list_elem_of_bind in Hin as (b&Hin&Hb). rewrite Forall_forall in Hl. specialize (Hl b Hb).
  unfold byte in Hl. rewrite !elem_of_cons, elem_of_nil in Hin. destruct Hin as [E|[E|[]]]; symmetry in E; apply hex_digit_slash in E; try done.
  - split; [apply Z.div_pos|apply Z.div_lt_upper_bound]; lia.
  - apply Z.mod_pos_bound. lia.
Qed.

Lemma namespace_no_slash n : no_slash (NamespaceString n).
Proof. unfold NamespaceString, no_slash. repeat case_match; vm_compute; set_solver. Qed.

Lemma substring_no_slash n m s : no_slash s -> no_slash (String.substring n m s).
Proof.
  unfold no_slash. intros Hs Hin. apply Hs. clear Hs. revert n m Hin. induction s as [|a s IH]; intros n m; destruct n, m; cbn; try done.
  all: try (intros ?%elem_of_nil; done). all: rewrite ?elem_of_cons; try (intros [?|?]; [by left|right; by eapply IH]). all: intros ?; right; by eapply IH.
Qed.

Lemma partition_dir_inj k k' : good_key k -> good_key k' -> partitionRelativeDir k = partitionRelativeDir k' -> k = k'.
Proof.
  intros (Hw&Hn&Hd&He&Hi) (Hw'&Hn'&Hd'&He'&Hi') E. unfold partitionRelativeDir in E. apply (f_equal (fun s => Split s "/"%char)) in E.
  rewrite !split_join in E; try done.
  2-3: repeat constructor; auto using namespace_no_slash, hex_no_slash, substring_no_slash.
  injection E as E1 _ E2 E3 E4. apply hex_bytes_inj in E2, E3, E4; [|done..]. destruct k as [n d e i], k' as [n' d' e' i']. cbn in *. subst.
  f_equal. unfold NamespaceString, NamespaceValid in *. repeat case_match; try done; lia.
Qed.

Lemma put_dec_inj w a b : 0 <= a < 10 ^ Z.of_nat w -> 0 <= b < 10 ^ Z.of_nat w -> put_dec w a = put_dec w b -> a = b.
Proof.
  revert a b. induction w as [|w IH]; intros a b Ha Hb E; [simpl in *; lia|]. cbn [put_dec] in E.
  apply app_inj_2 in E as [E1 E2]; [|done]. injection E2 as E2. rewrite Nat2Z.inj_succ, Z.pow_succ_r in Ha, Hb by lia.
  apply hex_digit_inj in E2; [|pose proof (Z.mod_pos_bound a 10); pose proof (Z.mod_pos_bound b 10); lia..].
  apply IH in E1; [|split; [apply Z.div_pos|apply Z.div_lt_upper_bound]; lia..].
  pose proof (Z.div_mod a 10). pose proof (Z.div_mod b 10). lia.
Qed.

Lemma segmentFilename_inj a b : is_u64 a -> is_u64 b -> segmentFilename a = segmentFilename b -> a = b.
Proof.
  unfold is_u64, u64_modulus, segmentFilename. intros Ha Hb E. apply (f_equal bytes) in E. rewrite !bytes_app, !bytes_text in E.
  apply app_inj_2 in E as [E _]; [|done]. apply put_dec_inj in E; [done|change (10 ^ Z.of_nat 20) with 100000000000000000000; lia..].
Qed.

(** ** Logs and their bytes *)

(** A record that [encodeRecord] takes and [decodeRecord] gives back. *)
Definition record_ok (maxPayload : Z) (r : SpoolRecord) : Prop :=
  0 <= r_Type r < 65536 /\ -9223372036854775808 <= r_OccurredAt r < 9223372036854775808 /\ len (r_Payload r) <= maxPayload
  /\ Z.of_nat (recordFixedBody + length (r_Payload r) + recordChecksumSize) <= 4294967295.

Definition enc (r : SpoolRecord) : list Z :=
  match encodeRecord (r_Offset r) (r_Type r) (r_OccurredAt r) (r_Payload r) with Ok bytes => bytes | Fail _ => [] end.
Definition encs (rs : list SpoolRecord) : list Z := rs ≫= enc.

(** The records at offsets [a] to [b]. *)
Definition recs (a b : Z) (l : list SpoolRecord) : list SpoolRecord := slice (Z.to_nat a) (Z.to_nat b) l.

Definition high (l : list SpoolRecord) : Z := Z.of_nat (length l).

(** A log: every record has its index as offset. *)
Definition log_ok (maxPayload : Z) (l : list SpoolRecord) : Prop :=
  high l < u64_modulus /\ forall i r, l !! i = Some r -> r_Offset r = Z.of_nat i /\ record_ok maxPayload r.

Lemma enc_ok maxPayload r : record_ok maxPayload r -> encodeRecord (r_Offset r) (r_Type r) (r_OccurredAt r) (r_Payload r) = Ok (enc r).
Proof. intros (_&_&_&H). unfold enc, encodeRecord. rewrite (proj2 (Z.ltb_ge _ _)) by lia. done. Qed.

Lemma encs_app l k : encs (l ++ k) = encs l ++ encs k.
Proof. apply bind_app. Qed.

Lemma recs_nil a l : recs a a l = [].
Proof. unfold recs, slice. by rewrite Nat.sub_diag. Qed.

Lemma recs_full l : recs 0 (high l) l = l.
Proof. unfold recs, slice, high. rewrite drop_0. apply take_ge. lia. Qed.

Lemma recs_split a b c l : 0 <= a <= b -> b <= c -> recs a c l = recs a b l ++ recs b c l.
Proof.
  intros Ha Hb. unfold recs, slice. replace (Z.to_nat c - Z.to_nat a)%nat with ((Z.to_nat b - Z.to_nat a) + (Z.to_nat c - Z.to_nat b))%nat by lia.
  rewrite <- take_take_drop, drop_drop. do 3 f_equal. lia.
Qed.

Lemma recs_app a b l k : 0 <= a -> b <= high l -> recs a b (l ++ k) = recs a b l.
Proof.
  intros Ha Hb. unfold recs, slice, high in *. destruct (decide (Z.to_nat a <= length l)%nat).
  - rewrite drop_app_le by done. rewrite take_app_le by (rewrite length_drop; lia). done.
  - replace (Z.to_nat b - Z.to_nat a)%nat with 0%nat by lia. done.
Qed.

Lemma recs_end l k : recs (high l) (high (l ++ k)) (l ++ k) = k.
Proof. unfold recs, slice, high. rewrite length_app, !Nat2Z.id, drop_app_length, take_ge by lia. done. Qed.

Lemma recs_one a l r : 0 <= a -> l !! Z.to_nat a = Some r -> recs a (a + 1) l = [r].
Proof.
  intros Ha Hr. unfold recs, slice. replace (Z.to_nat (a + 1) - Z.to_nat a)%nat with 1%nat by lia.
  rewrite (drop_S _ _ _ Hr). done.
Qed.

Lemma log_lookup a l : 0 <= a < high l -> exists r, l !! Z.to_nat a = Some r.
Proof. intros Ha. apply lookup_lt_is_Some. unfold high in Ha. lia. Qed.

(** The record at an offset, with what follows it in the file. *)
Lemma recs_cons a b l : 0 <= a < b -> b <= high l -> exists r, l !! Z.to_nat a = Some r /\ recs a b l = r :: recs (a + 1) b l.
Proof.
  intros Ha Hb. destruct (log_lookup a l) as [r Hr]; [lia|]. exists r. split; [done|].
  rewrite (recs_split a (a + 1) b) by lia. by rewrite (recs_one a l r) by (done || lia).
Qed.

Lemma log_ok_app maxPayload l k :
  log_ok maxPayload l -> high (l ++ k) < u64_modulus ->
  (forall i r, k !! i = Some r -> r_Offset r = high l + Z.of_nat i /\ record_ok maxPayload r) -> log_ok maxPayload (l ++ k).
Proof.
  intros (_&Hl) Hh Hk. split; [done|]. intros i r [Hr|(Hi&Hr)]%lookup_app_Some; [by apply Hl|]. apply Hk in Hr as [Ho Hr].
  split; [|done]. rewrite Ho. unfold high. lia.
Qed.

(** ** Reading a segment *)

Section Decode.
Context (cfg : Config).

(** Decoding where a record starts gives the record, and stops at the next. *)
Lemma decode_at_ok maxPayload before r rest :
  maxPayload = MaxRecordBytes cfg -> record_ok maxPayload r -> is_u64 (r_Offset r) ->
  decode_at cfg (before ++ enc r ++ rest) (length before) = Ok (r, (length before + length (enc r))%nat).
Proof.
  intros -> Hr Ho. unfold decode_at. rewrite drop_app_length. pose proof (enc_ok _ _ Hr) as He. destruct Hr as (H1&H2&H3&_).
  rewrite (record_roundtrip _ _ _ _ _ _ _ He) by (done || unfold len in *; lia). cbn [result_bind]. destruct r. cbn. do 2 f_equal.
  rewrite !length_app. lia.
Qed.

Lemma u64_offset maxPayload l i r : log_ok maxPayload l -> l !! i = Some r -> is_u64 (r_Offset r).
Proof. intros (Hh&Hl) Hr. destruct (Hl i r Hr) as [-> _]. apply lookup_lt_Some in Hr. unfold is_u64, high in *. lia. Qed.

(** Reading at an offset of a log from a file that holds the records from [base] to [e]. *)
Lemma read_next_ok l r path header base e junk :
  log_ok (MaxRecordBytes cfg) l -> 0 <= base -> base <= rd_nextOffset r < e -> e <= high l ->
  exists x, l !! Z.to_nat (rd_nextOffset r) = Some x /\
  read_next cfg (header ++ encs (recs base e l) ++ junk) r path (length (header ++ encs (recs base (rd_nextOffset r) l))) =
    (Ok x, set_rd_nextOffset (rd_nextOffset r + 1)
             (set_rd_file (Some (path, length (header ++ encs (recs base (rd_nextOffset r + 1) l)))) r)).
Proof.
  intros Hl Hb Hn He. destruct (recs_cons (rd_nextOffset r) e l) as (x&Hx&E); [lia..|]. exists x. split; [done|].
  unfold read_next. rewrite (recs_split base (rd_nextOffset r) e), encs_app, E by lia. cbn [encs mbind list_bind].
  rewrite <- !(assoc_L (++)). rewrite (assoc_L (++) header).
  pose proof (proj2 Hl _ _ Hx) as [Ho Hr].
  rewrite (decode_at_ok (MaxRecordBytes cfg)); [|done|done|by eapply u64_offset].
  rewrite Ho, Z2Nat.id, Z.eqb_refl by lia. do 4 f_equal. rewrite (recs_split base (rd_nextOffset r) (rd_nextOffset r + 1)) by lia.
  rewrite (recs_one (rd_nextOffset r) l x), encs_app by (done || lia). cbn [encs mbind list_bind]. rewrite !length_app. cbn [length]. f_equal. lia.
Qed.
End Decode.
