(* ===== verification/SpoolChain.v ===== *)
(** * The stream spool: the segments of a partition

    The invariant of one partition of [SpoolStore]: its segments follow each
    other from the low to the high offset of its log, each file holds the
    header and the records of its part of the log, and the charges of the
    partition cover its bytes on disk.  The lemmas say what the operations on
    the list of segments do to it, and which segment holds an offset. *)

From Stdlib Require Import ZArith Lia Ascii String.
From stdpp Require Import base option strings list gmap sets sorting.
From S2P Require Import Prelude GoStrings GoText GoPath SpoolFormat SpoolStore SpoolFacts.

Open Scope list_scope.
Open Scope Z_scope.

Abbreviation Disk := (gmap Path (list Z)).

Definition segment_path (k : Key) (base : Z) : Path := (partitionRelativeDir k, segmentFilename base).

(** The file of the segment that starts at [base] and holds the records before [e]. *)
Definition holds (k : Key) (oc : bool) (l : list SpoolRecord) (base e : Z) (c : list Z) : Prop :=
  exists t junk, c = encodeSegmentHeader k oc base t ++ encs (recs base e l) ++ junk.

(** Segments from the offset [a] to [b]; a file may be missing after a failed removal. *)
Fixpoint chain (k : Key) (oc : bool) (l : list SpoolRecord) (disk : Disk) (a : Z) (segments : list Segment) (b : Z) : Prop :=
  match segments with
  | [] => a = b
  | sg :: rest =>
    sg_base sg = a /\ sg_path sg = segment_path k a /\
    exists e, a <= e /\ (rest <> [] -> a < e)
      /\ (forall c, disk !! sg_path sg = Some c -> holds k oc l a e c /\ 0 <= sg_bytes sg <= len c)
      /\ chain k oc l disk e rest b
  end.

Section Chain.
Context (k : Key) (oc : bool) (Hkey : good_key k).
Implicit Types (l : list SpoolRecord) (disk : Disk) (segments : list Segment).

Lemma header_length base t : length (encodeSegmentHeader k oc base t) = segmentHeaderSize.
Proof. unfold encodeSegmentHeader. cbv zeta. rewrite length_app, headerFields_length, put_be_length by apply Hkey. done. Qed.

Lemma chain_le l disk a segments b : chain k oc l disk a segments b -> a <= b.
Proof. revert a. induction segments as [|sg rest IH]; intros a; [intros ->; lia|]. intros (_&_&e&He&_&_&Hc). apply IH in Hc. lia. Qed.

Lemma chain_in l disk a segments b sg :
  chain k oc l disk a segments b -> sg ∈ segments -> sg_path sg = segment_path k (sg_base sg) /\ a <= sg_base sg <= b.
Proof.
  revert a. induction segments as [|sg' rest IH]; intros a Hc Hin; [by apply elem_of_nil in Hin|].
  pose proof (chain_le _ _ _ _ _ Hc). destruct Hc as (Hb&Hp&e&He&_&_&Hc). apply elem_of_cons in Hin as [->|Hin].
  - rewrite Hb. split; [done|lia].
  - apply IH in Hc as [? ?]; [|done]. split; [done|lia].
Qed.

Lemma chain_first l disk a sg rest b sg' : chain k oc l disk a (sg :: rest) b -> sg' ∈ rest -> sg_base sg < sg_base sg'.
Proof.
  intros (->&_&e&_&Hlt&_&Hc) Hin. assert (rest <> []) by (intros ->; by apply elem_of_nil in Hin).
  apply (chain_in _ _ _ _ _ _ Hc) in Hin. specialize (Hlt ltac:(done)). lia.
Qed.

Lemma segment_path_inj a b : 0 <= a < u64_modulus -> 0 <= b < u64_modulus -> segment_path k a = segment_path k b -> a = b.
Proof. intros Ha Hb E. apply (f_equal snd) in E. exact (segmentFilename_inj a b Ha Hb E). Qed.

(** Growing the log, and losing files, adding bytes at their end, or touching files of no segment. *)
Lemma chain_log l l' disk a segments b : 0 <= a -> b <= high l -> chain k oc l disk a segments b -> chain k oc (l ++ l') disk a segments b.
Proof.
  revert a. induction segments as [|sg rest IH]; intros a Ha Hb; [done|]. intros (Hg&Hp&e&He&Hlt&Hf&Hc). split_and!; [done..|].
  pose proof (chain_le _ _ _ _ _ Hc). exists e. split_and!; [done..| |apply IH; (done || lia)].
  intros c Hd. apply Hf in Hd as [(t&junk&->) Hd]. split; [|done]. exists t, junk. by rewrite recs_app by lia.
Qed.

Lemma chain_disk l disk disk' a segments b :
  (forall sg c', sg ∈ segments -> disk' !! sg_path sg = Some c' -> exists c more, disk !! sg_path sg = Some c /\ c' = c ++ more) ->
  chain k oc l disk a segments b -> chain k oc l disk' a segments b.
Proof.
  revert a. induction segments as [|sg rest IH]; intros a Hd; [done|]. intros (Hg&Hp&e&He&Hlt&Hf&Hc). split_and!; [done..|].
  exists e. split_and!; [done..| |].
  - intros c' Hc'. destruct (Hd sg c') as (c&more&Hc1&->); [left|done|]. apply Hf in Hc1 as [(t&junk&->) Hb].
    split; [exists t, (junk ++ more); by rewrite <- !(assoc_L (++))|]. unfold len in *. rewrite !length_app in *. lia.
  - apply IH; [|done]. intros sg' c Hin. apply Hd. by right.
Qed.

(** A new segment at the end. *)
Lemma chain_snoc l disk a segments b sg :
  chain k oc l disk a segments b -> (forall sg', sg' ∈ segments -> sg_base sg' < b) ->
  sg_base sg = b -> sg_path sg = segment_path k b ->
  (forall c, disk !! sg_path sg = Some c -> holds k oc l b b c /\ 0 <= sg_bytes sg <= len c) ->
  chain k oc l disk a (segments ++ [sg]) b.
Proof.
  intros Hc Hlt Hb Hp Hf. revert a Hc. induction segments as [|sg' rest IH]; intros a Hc.
  - cbn in Hc. subst a. split_and!; [done..|]. exists b. split_and!; [lia|done|done|done].
  - destruct Hc as (Hg&Hp'&e&He&Hlt'&Hf'&Hc). split_and!; [done..|]. exists e. split_and!; [done| |done|apply IH; [|done]].
    + intros _. destruct rest; [|by apply Hlt']. cbn in Hc. subst e a. apply Hlt. left.
    + intros sg'' Hin. apply Hlt. by right.
Qed.

(** More records in the last segment. *)
Lemma chain_grow l disk a before sg b b' bytes :
  chain k oc l disk a (before ++ [sg]) b -> b <= b' ->
  (forall c, disk !! sg_path sg = Some c -> holds k oc l (sg_base sg) b' c /\ 0 <= bytes <= len c) ->
  chain k oc l disk a (before ++ [MkSegment (sg_base sg) (sg_path sg) bytes]) b'.
Proof.
  intros Hc Hb Hf. revert a Hc. induction before as [|sg' rest IH]; intros a Hc.
  - destruct Hc as (Hg&Hp&e&He&_&_&Hc). cbn in Hc. subst e. split_and!; [done..|]. exists b'. split_and!; [lia|done| |done].
    cbn. intros c Hd. apply Hf in Hd. by rewrite Hg in Hd.
  - destruct Hc as (Hg&Hp'&e&He&Hlt'&Hf'&Hc). split_and!; [done..|]. exists e. split_and!; [done| |done|by apply IH].
    intros _. apply Hlt'. by destruct rest.
Qed.

Lemma last_bytes_snoc bytes before sg : last_bytes bytes (before ++ [sg]) = before ++ [MkSegment (sg_base sg) (sg_path sg) bytes].
Proof. unfold last_bytes. rewrite rev_app_distr. cbn. by rewrite rev_involutive. Qed.

(** The segment of an offset. *)
Lemma chain_select l disk a segments b offset selected :
  chain k oc l disk a segments b -> a <= offset < b ->
  exists sg e, select_segment offset segments selected = Some sg /\ sg ∈ segments /\ sg_base sg <= offset < e /\ e <= b
    /\ forall c, disk !! sg_path sg = Some c -> holds k oc l (sg_base sg) e c.
Proof.
  revert a selected. induction segments as [|sg rest IH]; intros a selected Hc Ho; [cbn in Hc; lia|].
  destruct Hc as (Hg&Hp&e&He&Hlt&Hf&Hc). pose proof (chain_le _ _ _ _ _ Hc). cbn [select_segment]. rewrite Hg, (proj2 (Z.ltb_ge _ _)) by lia.
  destruct (decide (offset < e)) as [Hin|Hout].
  - exists sg, e. split_and!; [|left|lia..|].
    + destruct rest as [|sg' rest]; [done|]. destruct Hc as (Hg'&_). cbn. by rewrite (proj2 (Z.ltb_lt _ _)) by lia.
    + rewrite Hg. intros c Hd. by apply Hf in Hd as [Hd _].
  - destruct (IH e (Some sg) Hc) as (sg'&e'&?&?&?&?&?); [lia|]. exists sg', e'. split_and!; [done|by right|lia|lia|done|done].
Qed.
End Chain.
