(* ===== verification/SpoolLocal.v ===== *)
(** * The stream spool: operations on one partition

    The invariant [Local] of a partition [p] that an operation holds, in the
    store [s], since it took [p0] from the store [s0]: what the operation
    leaves alone, the accounts it keeps, the structure of the partition and
    the positions of its readers.  Each step of the operations of [SpoolStore]
    on one partition preserves it. *)

From Stdlib Require Import ZArith Lia Ascii String.
From stdpp Require Import base option strings list gmap sets sorting.
From S2P Require Import Prelude GoStrings GoText GoPath SpoolFormat SpoolStore SpoolFacts SpoolChain.

Open Scope list_scope.
Open Scope Z_scope.

#[local] Arguments encodeSegmentHeader : simpl never.
#[local] Arguments segmentFilename : simpl never.

Definition writable (st : State) : Prop := st = StatePending \/ st = StateOpen.
Global Instance writable_dec st : Decision (writable st) := or_dec (State_eq_dec st StatePending) (State_eq_dec st StateOpen).

Definition rank (st : State) : Z :=
  match st with StatePending => 0 | StateOpen => 1 | StateEmptyTerminal => 2 | StateSealed => 2 | StatePoisoned => 3 | StateStoreClosed => 4 end.

(** States only move on. *)
Definition state_le (a b : State) : Prop := a = b \/ rank a < rank b.
Lemma state_le_refl a : state_le a a.
Proof. by left. Qed.
Lemma state_le_trans a b c : state_le a b -> state_le b c -> state_le a c.
Proof. unfold state_le. intros [->|?] [->|?]; auto. right. lia. Qed.

Definition flag (b : bool) : Z := if b then 1 else 0.
Lemma flag_nonneg b : 0 <= flag b.
Proof. by destruct b. Qed.

Section Local.
Context (cfg : Config) (io : nat -> IoOutcome) (clock : nat -> Z).

Record good_config : Prop := {
  gc_partition : 0 < PartitionAllocationCharge cfg; gc_segment : 0 < SegmentAllocationCharge cfg; gc_record : 0 < MaxRecordBytes cfg;
  gc_stream : 0 < MaxStreamBytes cfg /\ 0 < MaxSegmentsPerPartition cfg /\ 0 < MaxReadersPerPartition cfg;
  gc_store : 0 < MaxBytes cfg /\ 0 < MaxPartitions cfg /\ 0 < MaxSegments cfg /\ 0 < MaxRegistrations cfg /\ 0 < MaxReaders cfg;
}.

Definition charges (p : Partition) : Z :=
  (if p_physical p then PartitionAllocationCharge cfg else 0) + SegmentAllocationCharge cfg * p_allocSegments p.

(** ** The structure of a partition *)

Record Wf (l : list SpoolRecord) (disk : Disk) (p : Partition) : Prop := {
  wf_key : good_key (p_key p);
  wf_dir : p_dir p = partitionRelativeDir (p_key p);
  wf_low : 0 <= p_low p;
  wf_high : p_high p = high l;
  wf_log : log_ok (MaxRecordBytes cfg) l;
  wf_chain : chain (p_key p) (p_originComplete p) l disk (p_low p) (p_segments p) (p_high p);
  wf_physical : p_physical p = false -> p_segments p = [] /\ p_active p = None /\ forall f, f.1 = p_dir p -> disk !! f = None;
  wf_active : forall path, p_active p = Some path -> writable (p_state p) /\ exists before sg t c,
    p_segments p = before ++ [sg] /\ sg_path sg = path /\ disk !! path = Some c /\ p_activeBytes p = len c
    /\ c = encodeSegmentHeader (p_key p) (p_originComplete p) (sg_base sg) t ++ encs (recs (sg_base sg) (p_high p) l);
  wf_alloc : Z.of_nat (length (p_segments p)) <= p_allocSegments p;
  wf_charge : dir_bytes (p_dir p) disk + charges p <= p_accounted p;
  wf_stream : p_accounted p <= MaxStreamBytes cfg /\ p_allocSegments p <= MaxSegmentsPerPartition cfg;
}.

(** Between operations: the last segment of a stream that takes records is not empty. *)
Definition Ready (p : Partition) : Prop :=
  (writable (p_state p) -> forall sg, sg ∈ p_segments p -> sg_base sg < p_high p) /\ (p_state p = StatePending -> p_active p = None).

(** An open file of a reader: a segment of the partition, at the record [nextOffset]. *)
Record reader_ok (l : list SpoolRecord) (disk : Disk) (p : Partition) (r : Reader) : Prop := {
  ro_offset : 0 <= rd_offset r <= p_high p;
  ro_file : forall path position, rd_file r = Some (path, position) -> exists sg,
    sg ∈ p_segments p /\ sg_path sg = path /\ is_Some (disk !! path) /\ sg_base sg <= rd_nextOffset r <= rd_offset r
    /\ position = (segmentHeaderSize + length (encs (recs (sg_base sg) (rd_nextOffset r) l)))%nat;
}.

Definition Readers (l : list SpoolRecord) (p : Partition) (s : Spool) : Prop :=
  forall id r, id ∈ p_leases p -> sp_readers s !! id = Some r -> reader_ok l (sp_disk s) p r.

(** ** What an operation leaves alone, and the accounts *)

Record Frame (p0 : Partition) (s0 : Spool) (p : Partition) (s : Spool) : Prop := {
  fr_key : p_key p = p_key p0; fr_origin : p_originComplete p = p_originComplete p0; fr_dir : p_dir p = p_dir p0;
  fr_readers : p_readers p = p_readers p0; fr_leases : p_leases p = p_leases p0;
  fr_closed : sp_closed s = sp_closed s0; fr_partitions : sp_partitions s = sp_partitions s0; fr_removed : sp_removed s = sp_removed s0;
  fr_current : sp_current s = sp_current s0; fr_count : sp_readerCount s = sp_readerCount s0;
  fr_disk : forall f, f.1 <> p_dir p0 -> sp_disk s !! f = sp_disk s0 !! f;
  fr_open : forall id, sp_readers s !! id = sp_readers s0 !! id \/
    (id ∈ p_leases p0 /\ exists r, sp_readers s0 !! id = Some r /\ sp_readers s !! id = Some (set_rd_file None r));
  fr_used : p_accounted p <= sp_usedBytes s /\ sp_usedBytes s - p_accounted p = sp_usedBytes s0 - p_accounted p0;
  fr_parts : flag (p_physical p) <= sp_physicalParts s /\ sp_physicalParts s - flag (p_physical p) = sp_physicalParts s0 - flag (p_physical p0);
  fr_segs : p_allocSegments p <= sp_segmentCount s /\ sp_segmentCount s - p_allocSegments p = sp_segmentCount s0 - p_allocSegments p0;
  fr_regs : flag (p_writerActive p) <= sp_registrations s
    /\ sp_registrations s - flag (p_writerActive p) = sp_registrations s0 - flag (p_writerActive p0);
  fr_limits : sp_usedBytes s <= MaxBytes cfg /\ sp_physicalParts s <= MaxPartitions cfg /\ sp_segmentCount s <= MaxSegments cfg
    /\ sp_registrations s <= MaxRegistrations cfg;
  fr_low : p_low p0 <= p_low p;
  fr_state : state_le (p_state p0) (p_state p);
}.

Record Local (p0 : Partition) (s0 : Spool) (l : list SpoolRecord) (p : Partition) (s : Spool) : Prop := {
  lc_frame : Frame p0 s0 p s;
  lc_wf : Wf l (sp_disk s) p;
  lc_readers : Readers l p s;
}.

Context (Hcfg : good_config) (p0 : Partition) (s0 : Spool).

Lemma local_bump l p s : Local p0 s0 l p s -> Local p0 s0 l p (bump s).
Proof. intros [[] ? ?]. split; [by constructor|done|done]. Qed.

Lemma local_updated l p s at' : Local p0 s0 l p s -> Local p0 s0 l (set_p_updatedAt at' p) s.
Proof. intros [[] [] Hr]. split; [by constructor|by constructor|]. intros id r Hid Hs. destruct (Hr id r Hid Hs). by constructor. Qed.

(** A terminal state, with no file open. *)
Lemma local_state l p s st :
  Local p0 s0 l p s -> state_le (p_state p) st -> (p_active p = None \/ writable st) -> Local p0 s0 l (set_p_state st p) s.
Proof.
  intros [[] [] Hr] Hst Ha. split; constructor; cbn; try done.
  - by eapply state_le_trans.
  - intros path Hp. destruct Ha as [Ha|Ha]; [congruence|]. split; [done|]. by apply wf_active0.
  - by destruct (Hr _ _ H H0).
  - by destruct (Hr _ _ H H0).
Qed.

Lemma local_inactive l p s : Local p0 s0 l p s -> Local p0 s0 l (set_p_active None p) s.
Proof.
  intros [[] [] Hr]. split; constructor; cbn; try done.
  - intros Hp. by destruct (wf_physical0 Hp) as (?&?&?).
  - by destruct (Hr _ _ H H0).
  - by destruct (Hr _ _ H H0).
Qed.

Lemma local_close_active l p s p' s' : close_active io p s = (p', s') -> Local p0 s0 l p s -> Local p0 s0 l p' s' /\ p_active p' = None
  /\ p_state p' = p_state p.
Proof.
  unfold close_active. intros E H. destruct (p_active p) eqn:Ha; injection E as <- <-; [|done]. split_and!; [|done|done].
  by apply local_bump, local_inactive.
Qed.

Lemma local_finish l p s p' s' : finishWriterLocked p s = (p', s') -> Local p0 s0 l p s ->
  Local p0 s0 l p' s' /\ p_writerActive p' = false /\ p_state p' = p_state p /\ p_active p' = p_active p.
Proof.
  unfold finishWriterLocked. intros E H. pose proof H as [[] [] Hr]. destruct (p_writerActive p) eqn:Hw; injection E as <- <-; [clear H|done]. cbn [flag] in *.
  rewrite (proj2 (Z.ltb_lt _ _)) by lia. split; [|done]. split; [constructor|constructor|]; cbn; try done; try lia.
  intros id r Hid Hs. destruct (Hr id r Hid Hs). by constructor.
Qed.

(** ** [poisonLocked] *)

(** The file is closed first, so it need not be exact. *)
Lemma local_poison l p s p' s' :
  poisonLocked io clock p s = (p', s') -> Local p0 s0 l (set_p_active None p) s -> (p_active p <> None -> writable (p_state p)) ->
  Local p0 s0 l p' s' /\ (p_state p' = StatePoisoned \/ p_state p' = StateStoreClosed).
Proof.
  unfold poisonLocked. intros E H Hw. case_bool_decide as Hst.
  - injection E as <- <-. split; [|done]. destruct (p_active p) as [path|] eqn:Ha; [|by destruct p; cbn in *; subst].
    destruct Hw as [Hw|Hw]; [done|rewrite Hw in Hst; naive_solver..].
  - destruct (close_active io p s) as [p1 s1] eqn:E1. cbn [read_clock] in E.
    assert (H1 : Local p0 s0 l p1 s1 /\ p_active p1 = None /\ p_state p1 = p_state p).
    { unfold close_active in E1. destruct (p_active p) eqn:Ha; injection E1 as <- <-; [by split_and!; [apply local_bump|..]|].
      split_and!; try done. destruct p; cbn in *; subst; done. }
    destruct H1 as (H1&Ha&Hs1). apply local_finish with (l := l) in E as (H2&_&Hs2&_); [split; [done|]; left; by rewrite Hs2|].
    apply local_updated, local_state; [by apply local_bump| |by left]. right. rewrite Hs1. clear - Hst.
    destruct (p_state p); cbn; try lia; exfalso; apply Hst; [by left|by right].
Qed.

Lemma local_poison_now l p s p' s' : poisonLocked io clock p s = (p', s') -> Local p0 s0 l p s ->
  Local p0 s0 l p' s' /\ (p_state p' = StatePoisoned \/ p_state p' = StateStoreClosed).
Proof.
  intros E H. eapply local_poison; [done|by apply local_inactive|]. destruct H as [_ [] _]. destruct (p_active p) eqn:Ha; [|done].
  intros _. by eapply wf_active0.
Qed.

(** ** Discarding the first segment *)

Lemma release_exact bytes pa se s :
  0 < bytes <= sp_usedBytes s -> flag pa <= sp_physicalParts s -> flag se <= sp_segmentCount s ->
  release bytes pa se s =
    set_sp_segmentCount (sp_segmentCount s - flag se) (set_sp_physicalParts (sp_physicalParts s - flag pa) (set_sp_usedBytes (sp_usedBytes s - bytes) s)).
Proof.
  intros Hb Hp Hs. unfold release. rewrite (proj2 (Z.ltb_lt 0 bytes)), Z.min_r by lia. destruct s as [? ? ? ? ? parts segs].
  destruct pa; cbn -[Z.ltb Z.sub] in *; [rewrite (proj2 (Z.ltb_lt 0 parts)) by lia|]; destruct se; cbn -[Z.ltb Z.sub] in *;
    try rewrite (proj2 (Z.ltb_lt 0 segs)) by lia; cbn -[Z.sub]; rewrite ?Z.sub_0_r; done.
Qed.

Lemma local_close_leases l p s path : Local p0 s0 l p s -> let s' := close_leases p path s in
  Local p0 s0 l p s' /\ (forall id r, id ∈ p_leases p -> sp_readers s' !! id = Some r -> fst <$> rd_file r <> Some path).
Proof.
  intros [[] ? Hr]. cbv zeta.
  assert (Hl : forall id, sp_readers (close_leases p path s) !! id =
    (fun r => if bool_decide (id ∈ p_leases p /\ fst <$> rd_file r = Some path) then set_rd_file None r else r) <$> sp_readers s !! id).
  { intros id. unfold close_leases. cbn. rewrite map_lookup_imap. by destruct (sp_readers s !! id). }
  split.
  - split; [constructor; try done|done|].
    + intros id. rewrite Hl. destruct (fr_open0 id) as [->|(Hid&r&Hr0&->)].
      * destruct (sp_readers s0 !! id) as [r|] eqn:Hr0; cbn; [|by left]. case_bool_decide as Hd; [|by left]. right.
        split; [rewrite <- fr_leases0; by apply Hd|by exists r].
      * cbn. right. split; [done|]. exists r. split; [done|]. by case_bool_decide.
    + intros id r Hid Hs. rewrite Hl in Hs. apply fmap_Some in Hs as (r'&Hs&->). destruct (Hr id r' Hid Hs) as [Ho Hf].
      case_bool_decide; [|by constructor]. by constructor.
  - intros id r Hid Hs. rewrite Hl in Hs. apply fmap_Some in Hs as (r'&Hs&->). case_bool_decide as Hd; [done|]. intros E. by apply Hd.
Qed.

Lemma wf_high_u64 l disk p : Wf l disk p -> 0 <= p_high p < u64_modulus.
Proof. intros []. rewrite wf_high0. destruct wf_log0 as [H _]. unfold high in *. lia. Qed.

(** The file of another segment. *)
Lemma wf_path_ne l disk p sg rest sg' :
  Wf l disk p -> p_segments p = sg :: rest -> sg' ∈ rest -> sg_path sg' <> sg_path sg.
Proof.
  intros H Hs Hin E. pose proof (wf_high_u64 _ _ _ H). destruct H. rewrite Hs in wf_chain0. pose proof (chain_first _ _ _ _ _ _ _ _ _ wf_chain0 Hin) as Hlt.
  destruct (chain_in _ _ _ _ _ _ _ sg' wf_chain0) as [Hp' Hb']; [by right|]. destruct (chain_in _ _ _ _ _ _ _ sg wf_chain0) as [Hp Hb]; [left|].
  rewrite Hp, Hp' in E. apply segment_path_inj in E; lia.
Qed.

Definition dropped (p : Partition) (sg : Segment) (rest : list Segment) : Partition :=
  let p := set_p_low (match rest with [] => p_high p | next :: _ => sg_base next end) (set_p_segments rest p) in
  set_p_accounted (p_accounted p - (sg_bytes sg + SegmentAllocationCharge cfg)) (set_p_allocSegments (p_allocSegments p - 1) p).

Lemma wf_drop l disk p sg rest c :
  Wf l disk p -> p_segments p = sg :: rest -> (rest = [] -> p_active p = None) -> disk !! sg_path sg = Some c ->
  Wf l (delete (sg_path sg) disk) (dropped p sg rest) /\ p_low p <= p_low (dropped p sg rest) /\ 0 <= sg_bytes sg <= len c
  /\ sg_bytes sg + SegmentAllocationCharge cfg <= p_accounted p /\ 1 <= p_allocSegments p.
Proof.
  intros H Hs Ha Hc. pose proof (wf_path_ne _ _ _ _ _ sg H Hs) as _. pose proof (fun sg' => wf_path_ne _ _ _ _ _ sg' H Hs) as Hne.
  destruct H. rewrite Hs in wf_chain0. pose proof wf_chain0 as (Hb&Hp&e&He&Hlt&Hf&Hch). destruct (Hf c Hc) as [_ Hbytes].
  assert (Hdir : (sg_path sg).1 = p_dir p) by (rewrite Hp, wf_dir0; done).
  pose proof (dir_bytes_delete _ _ _ Hc) as Hdel. rewrite Hdir in Hdel.
  assert (Hlow : match rest with [] => p_high p | next :: _ => sg_base next end = e)
    by (destruct rest; [by symmetry|by destruct Hch as (->&_)]).
  rewrite Hs in wf_alloc0. cbn [length] in wf_alloc0. assert (Hcharge := wf_charge0). unfold charges in Hcharge.
  assert (0 <= dir_bytes (p_dir p) disk - len c) by (rewrite <- Hdel; apply dir_bytes_nonneg). destruct Hcfg.
  assert (0 <= if p_physical p then PartitionAllocationCharge cfg else 0) by (destruct (p_physical p); lia).
  assert (Hone : 1 <= p_allocSegments p) by lia.
  assert (SegmentAllocationCharge cfg * 1 <= SegmentAllocationCharge cfg * p_allocSegments p) by (apply Z.mul_le_mono_nonneg_l; lia).
  split; [|split_and!; [cbn; lia|lia..]]. constructor; cbn; try done; rewrite ?Hlow; try lia.
  - eapply chain_disk; [|done]. intros sg' c' Hin Hd. apply lookup_delete_Some in Hd as [_ Hd]. exists c', []. by rewrite app_nil_r.
  - intros Hph. destruct (wf_physical0 Hph) as (E&_). congruence.
  - intros path Hpa. destruct (wf_active0 path Hpa) as (Hw&before&sg'&t&c'&E&Hsg&Hd&Hn&Hcc). split; [done|].
    destruct rest as [|sg1 rest]; [rewrite Ha in Hpa; done|]. rewrite Hs in E. destruct before as [|sg2 before]; [done|]. injection E as <- E.
    exists before, sg', t, c'. split_and!; try done. rewrite lookup_delete_ne; [done|]. rewrite <- Hsg. intros E'. symmetry in E'. revert E'. apply Hne.
    rewrite E. apply elem_of_app. right. left.
  - unfold charges in *. cbn in *. lia.
Qed.

Lemma local_drop l p s sg rest c :
  Local p0 s0 l p s -> p_segments p = sg :: rest -> (rest = [] -> p_active p = None) -> sp_disk s !! sg_path sg = Some c ->
  (forall id r, id ∈ p_leases p -> sp_readers s !! id = Some r -> fst <$> rd_file r <> Some (sg_path sg)) ->
  Local p0 s0 l (dropped p sg rest)
    (release (sg_bytes sg + SegmentAllocationCharge cfg) false true (set_sp_disk (delete (sg_path sg) (sp_disk s)) s)).
Proof.
  intros [Hf Hw Hr] Hs Ha Hc Hn. destruct (wf_drop _ _ _ _ _ _ Hw Hs Ha Hc) as (Hw'&Hlow&Hb&Hacc&Halloc).
  assert (Hdir : (sg_path sg).1 = p_dir p).
  { destruct Hw. rewrite Hs in wf_chain0. destruct wf_chain0 as (_&->&_). done. }
  destruct Hf. destruct Hcfg. pose proof (flag_nonneg (p_physical p)). rewrite release_exact; [|cbn; lia..]. split; [constructor; cbn in *; try done; try lia|done|].
  - intros f Hfd. rewrite lookup_delete_ne by congruence. by apply fr_disk0.
  - intros id r Hid Hsr. destruct (Hr id r Hid Hsr) as [Ho Hf]. constructor; [done|]. intros path position Hp.
    destruct (Hf path position Hp) as (sg'&Hin&Hsg&Hd&Hx). rewrite Hs in Hin. apply elem_of_cons in Hin as [->|Hin].
    + destruct (Hn id r Hid Hsr). rewrite Hp. by rewrite Hsg.
    + destruct Hx as [[Hx1 Hx2] Hx3]. exists sg'. split_and!; try done. change (is_Some (delete (sg_path sg) (sp_disk s) !! path)); rewrite lookup_delete_ne; [done|]. intros E. apply (Hn id r Hid Hsr). rewrite Hp. cbn. by rewrite E.
Qed.

(** Removing the files of a partition that no reader has open; a failure leaves some of them. *)
Lemma local_unlink l p s b s' :
  removeManagedPartition io (p_dir p) s = (b, s') -> Local p0 s0 l p s -> p_active p = None ->
  (forall id r, id ∈ p_leases p -> sp_readers s !! id = Some r -> rd_file r = None) ->
  Local p0 s0 l p s' /\ dir_bytes (p_dir p) (sp_disk s') <= dir_bytes (p_dir p) (sp_disk s)
  /\ (b = true -> forall f, f.1 = p_dir p -> sp_disk s' !! f = None).
Proof.
  unfold removeManagedPartition, draw. intros E [[] [] Hr] Ha Hs.
  assert (Hgen : forall (P : Path * list Z -> Prop) (dec : forall f, Decision (P f)), (forall f c, f.1 <> p_dir p -> P (f, c)) ->
    Local p0 s0 l p (set_sp_disk (filter P (sp_disk s)) (bump s))).
  { intros P dec HP. pose proof (dir_bytes_filter P (p_dir p) (sp_disk s)). split; constructor; cbn; try done; try lia; try congruence.
    - intros f Hfd. rewrite <- fr_disk0 by done. rewrite <- fr_dir0 in Hfd. rewrite map_lookup_filter. destruct (sp_disk s !! f); cbn; [|done].
      by rewrite option_guard_True by auto.
    - eapply chain_disk; [|done]. intros sg c Hin Hc. apply map_lookup_filter_Some in Hc as [Hc _]. exists c, []. by rewrite app_nil_r.
    - intros Hp. destruct (wf_physical0 Hp) as (?&?&Hn). split_and!; [done|done|]. intros f Hfd. apply map_lookup_filter_None. left. by apply Hn.
    - by destruct (Hr _ _ H0 H1).
    - intros path position Hp. rewrite (Hs _ _ H0 H1) in Hp. done. }
  destruct (io (sp_tick s)); injection E as <- <-; (split_and!; [apply Hgen; cbn; auto|apply dir_bytes_filter|]); [|done].
  intros _ f Hfd. apply map_lookup_filter_None. right. cbn. intros c _ Hx. by apply Hx.
Qed.

Lemma no_files l p s : Local p0 s0 l p s -> p_segments p = [] ->
  forall id r, id ∈ p_leases p -> sp_readers s !! id = Some r -> rd_file r = None.
Proof.
  intros [_ _ Hr] Hs id r Hid Hsr. destruct (Hr id r Hid Hsr) as [_ Hf]. destruct (rd_file r) as [[path position]|] eqn:E; [|done].
  destruct (Hf _ _ eq_refl) as (sg&Hin&_). rewrite Hs in Hin. by apply elem_of_nil in Hin.
Qed.

Lemma local_unphysical l p s :
  Local p0 s0 l p s -> p_segments p = [] -> p_active p = None -> p_physical p = true ->
  (forall f, f.1 = p_dir p -> sp_disk s !! f = None) ->
  Local p0 s0 l (set_p_accounted (p_accounted p - PartitionAllocationCharge cfg) (set_p_physical false p))
    (release (PartitionAllocationCharge cfg) true false s).
Proof.
  intros [[] [] Hr] Hs Ha Hp Hn. rewrite Hp in *. pose proof (dir_bytes_none _ _ Hn) as Hd.
  unfold charges in wf_charge0. rewrite Hp, Hd in wf_charge0. rewrite Hs in wf_alloc0. cbn [length flag] in *.
  destruct Hcfg. assert (0 <= SegmentAllocationCharge cfg * p_allocSegments p) by (apply Z.mul_nonneg_nonneg; lia).
  rewrite release_exact; [|cbn; lia..]. split; [constructor|constructor|]; cbn in *; try done; try lia.
  - rewrite Hs. cbn. lia.
  - unfold charges. cbn. lia.
  - intros id r Hid Hsr. destruct (Hr id r Hid Hsr). by constructor.
Qed.

(** What the parts of an operation keep besides [Local]. *)
Definition keeps (p p' : Partition) : Prop := p_state p' = p_state p /\ (Ready p -> Ready p').

Lemma keeps_segments_refl p : keeps p p.
Proof. done. Qed.
Lemma keeps_segments_trans p p' p'' : keeps p p' -> keeps p' p'' -> keeps p p''.
Proof. intros [? ?] [? ?]. split; [congruence|auto]. Qed.

Lemma keeps_sub p p' :
  p_state p' = p_state p -> p_high p' = p_high p -> (forall sg, sg ∈ p_segments p' -> sg ∈ p_segments p) ->
  (p_active p' = p_active p \/ p_active p' = None) -> keeps p p'.
Proof.
  intros Hst Hh Hs Ha. split; [done|]. intros [Hw Hp]. split; rewrite Hst.
  - intros Hwr sg Hin. rewrite Hh. by apply Hw, Hs.
  - intros E. destruct Ha as [->|]; auto.
Qed.

Lemma local_high l p s p' s' : Local p0 s0 l p s -> Local p0 s0 l p' s' -> p_high p' = p_high p.
Proof. intros [_ [] _] [_ [] _]. congruence. Qed.

(** Closing the active file before its segment goes. *)
Lemma local_close_last l p s sg rest closed p' s' :
  match rest, p_active p with
  | [], Some _ => let '(ok, s) := io_ok io s in (ok, (if ok then set_p_activeBytes 0 (set_p_active None p) else p, s))
  | _, _ => (true, (p, s))
  end = (closed, (p', s')) ->
  Local p0 s0 l p s -> p_segments p = sg :: rest ->
  Local p0 s0 l p' s' /\ keeps p p' /\ p_segments p' = p_segments p /\ p_physical p' = p_physical p /\ (closed = true -> rest = [] -> p_active p' = None).
Proof.
  intros E H Hs. destruct rest; [|injection E as <- <- <-; by split_and!]. destruct (p_active p) eqn:Ha; [|injection E as <- <- <-; by split_and!].
  unfold io_ok in E. destruct (io (sp_tick s)); injection E as <- <- <-; [|by split_and!; [apply local_bump|..]].
  split_and!; try done; [|apply keeps_sub; cbn; auto]. apply local_bump. apply local_inactive in H as [[] [] Hr].
  split; [by constructor|by constructor|]. intros id r Hid Hsr. destruct (Hr id r Hid Hsr). by constructor.
Qed.

Lemma local_discard l p s e p' s' :
  discardFirstSegmentLocked cfg io p s = (e, (p', s')) -> Local p0 s0 l p s ->
  Local p0 s0 l p' s' /\ keeps p p' /\ (e = None -> p_segments p <> [] -> (length (p_segments p') < length (p_segments p))%nat).
Proof.
  unfold discardFirstSegmentLocked. intros E H. destruct (p_segments p) as [|sg rest] eqn:Hs; [by injection E as <- <- <-|].
  assert (Hph : p_physical p = true) by (destruct H as [_ [] _], (p_physical p) eqn:Hph; [done|destruct wf_physical0; congruence]).
  destruct (match rest with [] => _ | _ => _ end) as [closed [p1 s1]] eqn:E1.
  destruct (local_close_last _ _ _ _ _ _ _ _ E1 H Hs) as (H1&Hk1&Hs1&Hp1&Ha1). clear E1. rewrite Hs in Hs1.
  destruct closed; cbn [negb] in E; [|injection E as <- <- <-; by split_and!]. specialize (Ha1 eq_refl).
  destruct (local_close_leases l p1 s1 (sg_path sg) H1) as [H2 Hn]. cbv zeta in H2, Hn. set (s2 := close_leases p1 (sg_path sg) s1) in *.
  unfold remove_file, io_ok in E. destruct (bool_decide (is_Some (sp_disk (bump s2) !! sg_path sg))) eqn:Hd;
    [|rewrite andb_false_r in E; injection E as <- <- <-; split_and!; [by apply local_bump|done|done]].
  apply bool_decide_eq_true in Hd as [c Hc]. destruct (io (sp_tick s2)); cbn [andb negb] in E;
    [|injection E as <- <- <-; split_and!; [by apply local_bump|done|done]].
  pose proof (local_drop l p1 (bump s2) sg rest c (local_bump _ _ _ H2) Hs1 Ha1 Hc Hn) as H3.
  assert (Hk : keeps p (dropped p1 sg rest)).
  { eapply keeps_segments_trans; [done|]. apply keeps_sub; cbn; auto. intros sg' Hin. rewrite Hs1. by right. }
  fold (dropped p1 sg rest) in E. destruct rest as [|sg' rest].
  2: { injection E as <- <- <-. split_and!; [done|done|]. intros _ _. cbn. lia. }
  destruct (removeManagedPartition _ _ _) as [b s3] eqn:E3.
  destruct (local_unlink _ _ _ _ _ E3 H3) as (H4&_&Hz); [by apply Ha1|by apply (no_files _ _ _ H3)|]. destruct b; cbn [negb] in E; injection E as <- <- <-.
  - split_and!; [|done|by intros; cbn; lia]. apply local_unphysical; [done|done|by apply Ha1| |by apply Hz]. cbn. congruence.
  - by split_and!.
Qed.

Lemma local_discard_until fits fuel l p s e p' s' :
  discard_until cfg io fits fuel p s = (e, (p', s')) -> Local p0 s0 l p s ->
  Local p0 s0 l p' s' /\ keeps p p' /\ (e = None -> (length (p_segments p) < fuel)%nat -> p_segments p' = [] \/ fits p' s' = true).
Proof.
  revert p s. induction fuel as [|fuel IH]; intros p s E H; cbn [discard_until] in E; [injection E as <- <- <-; split_and!; [done|done|]; intros; lia|].
  case_bool_decide as Hs; cbn [orb] in E; [injection E as <- <- <-; split_and!; [done|done|by left]|].
  destruct (fits p s) eqn:Hf; [injection E as <- <- <-; split_and!; [done|done|by right]|].
  destruct (discardFirstSegmentLocked cfg io p s) as [[e1|] [p1 s1]] eqn:E1; destruct (local_discard _ _ _ _ _ _ E1 H) as (H1&Hk1&Hl1).
  - by injection E as <- <- <-.
  - destruct (IH _ _ E H1) as (H2&Hk2&Hl2). split_and!; [done|by eapply keeps_segments_trans|]. intros -> Hfu. apply Hl2; [done|].
    specialize (Hl1 eq_refl Hs). lia.
Qed.
End Local.
