(* ===== verification/SpoolAppend.v ===== *)
(** * The stream spool: writing records

    The steps of [appendEncodedLocked] after room was made: the reservation,
    the new segment, and the write, with every failure of the file system. *)

From Stdlib Require Import ZArith Lia Ascii String.
From stdpp Require Import base option strings list gmap sets sorting.
From S2P Require Import Prelude GoStrings GoText GoPath SpoolFormat SpoolStore SpoolFacts SpoolChain SpoolLocal.

Open Scope list_scope.
Open Scope Z_scope.

#[local] Arguments encodeSegmentHeader : simpl never.
#[local] Arguments segmentFilename : simpl never.

Section Append.
Context (cfg : Config) (io : nat -> IoOutcome) (clock : nat -> Z) (Hcfg : good_config cfg) (p0 : Partition) (s0 : Spool).
Abbreviation Local := (Local cfg p0 s0).
Implicit Types (l : list SpoolRecord) (p : Partition) (s : Spool).

(** Bytes that the account holds for a write to come. *)
Definition room (p : Partition) (s : Spool) (n : Z) : Prop := dir_bytes (p_dir p) (sp_disk s) + charges cfg p + n <= p_accounted p.

Lemma local_room l p s : Local l p s -> room p s 0.
Proof. intros [_ [] _]. unfold room. lia. Qed.

(** ** The reservation *)

Definition reserved (amount : Z) (newPartition newSegment : bool) (p : Partition) : Partition :=
  let p := set_p_accounted (p_accounted p + amount) p in
  let p := if newPartition then set_p_physical true p else p in
  if newSegment then set_p_allocSegments (p_allocSegments p + 1) p else p.

Lemma local_reserve l p s x (newSegment : bool) s' :
  let newPartition := negb (p_physical p) in
  let amount := x + (if newPartition then PartitionAllocationCharge cfg else 0) + (if newSegment then SegmentAllocationCharge cfg + Z.of_nat segmentHeaderSize else 0) in
  reserve cfg amount newPartition newSegment s = (None, s') -> Local l p s -> 0 <= x ->
  p_accounted p + amount <= MaxStreamBytes cfg -> (newSegment = true -> p_allocSegments p < MaxSegmentsPerPartition cfg) ->
  Local l (reserved amount newPartition newSegment p) s'
  /\ room (reserved amount newPartition newSegment p) s' (x + (if newSegment then Z.of_nat segmentHeaderSize else 0))
  /\ (newSegment = true -> Z.of_nat (length (p_segments p)) < p_allocSegments (reserved amount newPartition newSegment p)).
Proof.
  cbv zeta. set (amount := x + _ + _). intros E [[] [] Hr] Hx Hst Hseg. unfold reserve in E.
  destruct (sp_closed s) eqn:Hcl; [done|]. destruct ((amount <? 0) || _) eqn:E1; [done|]. apply orb_false_elim in E1 as [E1 E2]. apply Z.ltb_ge in E1, E2.
  destruct (_ && (MaxPartitions cfg <=? _)) eqn:E3; [done|]. destruct (_ && (MaxSegments cfg <=? _)) eqn:E4; [done|]. injection E as <-.
  assert (Hh : 0 <= Z.of_nat segmentHeaderSize) by lia. destruct Hcfg. unfold room, charges in *.
  split_and!; [split; [constructor|constructor|]| |];
    destruct (p_physical p) eqn:Hph, newSegment; cbn in E3, E4; try apply Z.leb_gt in E3; try apply Z.leb_gt in E4;
    try specialize (Hseg eq_refl); subst amount; cbn -[Z.of_nat Z.mul] in *; rewrite ?Hph; cbn -[Z.of_nat Z.mul] in *; try done; try lia;
    unfold charges; cbn -[Z.of_nat Z.mul]; rewrite ?Hph; cbn -[Z.of_nat Z.mul]; try lia; try congruence.
  all: intros id r Hid Hsr; destruct (Hr id r Hid Hsr); by constructor.
Qed.

(** ** Files of no segment *)

Lemma local_disk l p s (f : Path) (disk : Disk) :
  Local l p s -> p_physical p = true -> f.1 = p_dir p -> (forall sg, sg ∈ p_segments p -> sg_path sg <> f) ->
  (forall g, g <> f -> disk !! g = sp_disk s !! g) -> dir_bytes (p_dir p) disk + charges cfg p <= p_accounted p ->
  Local l p (set_sp_disk disk s).
Proof.
  intros [[] [] Hr] Hph Hf Hs Hd Hb. split; [constructor|constructor|]; cbn; try done; try congruence.
  - intros g Hg. rewrite Hd; [by apply fr_disk|]. intros ->. congruence.
  - eapply chain_disk; [|done]. intros sg c Hin Hc. exists c, []. rewrite Hd in Hc by (by apply Hs). by rewrite app_nil_r.
  - intros path Hp. destruct (wf_active path Hp) as (Hw&before&sg&t&c&E&Hsg&Hc&Hx). split; [done|]. exists before, sg, t, c.
    split_and!; try done; try apply Hx. rewrite Hd; [done|]. rewrite <- Hsg. apply Hs. rewrite E. apply elem_of_app. right. left.
  - intros id r Hid Hsr. destruct (Hr id r Hid Hsr) as [Ho Hfile]. constructor; [done|]. intros path position Hp.
    destruct (Hfile path position Hp) as (sg&Hin&Hsg&Hsome&Hx). exists sg. split_and!; try done; try apply Hx. cbn. rewrite Hd; [done|].
    rewrite <- Hsg. by apply Hs.
Qed.

(** [open_exclusive] of a new file, and the header written to it. *)
Lemma local_open l p s f x b s' :
  open_exclusive io f s = (b, s') -> Local l p s -> p_physical p = true -> f.1 = p_dir p -> (forall sg, sg ∈ p_segments p -> sg_path sg <> f) -> room p s x -> 0 <= x ->
  Local l p s' /\ room p s' x /\ (b = true -> sp_disk s' !! f = Some []).
Proof.
  unfold open_exclusive, draw. intros E H Hph Hf Hs Hr Hx. pose proof (local_bump _ _ _ _ _ _ H) as Hb.
  assert (Hnew : sp_disk s !! f = None -> let s' := set_sp_disk (<[f := []]> (sp_disk s)) (bump s) in
    Local l p s' /\ room p s' x /\ (true = true -> sp_disk s' !! f = Some [])).
  { intros Hn. cbv zeta. assert (E' : dir_bytes (p_dir p) (<[f := []]> (sp_disk s)) = dir_bytes (p_dir p) (sp_disk s)).
    { rewrite <- Hf, dir_bytes_insert_new by done. change (len []) with 0. lia. }
    unfold room in *. cbn. rewrite E'. split_and!; [|done|intros; apply lookup_insert_eq].
    eapply (local_disk l p (bump s) f); [done..| |rewrite E'; lia]. intros g Hg. by rewrite lookup_insert_ne. }
  case_bool_decide as Hd; [by injection E as <- <-|]. apply eq_None_not_Some in Hd. destruct (Hnew Hd) as (H1&H2&H3).
  destruct (io _) as [|n kept]; [|destruct (kept f)]; injection E as <- <-; by split_and!.
Qed.

Lemma local_header l p s f bytes x b n s' :
  write_file io f bytes s = (b, n, s') -> Local l p s -> p_physical p = true -> f.1 = p_dir p -> (forall sg, sg ∈ p_segments p -> sg_path sg <> f) ->
  sp_disk s !! f = Some [] -> room p s (len bytes + x) -> 0 <= x ->
  Local l p s' /\ room p s' x /\ exists k, sp_disk s' !! f = Some (take k bytes) /\ (b = true -> take k bytes = bytes).
Proof.
  unfold write_file, draw. intros E H Hph Hf Hs Hd Hr Hx. injection E as <- <- <-.
  set (k := match io (sp_tick s) with IoOk => length bytes | IoFail n _ => Nat.min n (length bytes) end). change (sp_disk (bump s)) with (sp_disk s). rewrite Hd. cbn [default id app].
  assert (Hk : len (take k bytes) <= len bytes) by (unfold len; rewrite length_take; lia).
  assert (E' : dir_bytes (p_dir p) (<[f := take k bytes]> (sp_disk s)) = dir_bytes (p_dir p) (sp_disk s) + len (take k bytes)).
  { rewrite <- Hf, (dir_bytes_insert _ _ _ _ Hd). change (len []) with 0. lia. }
  unfold room in *. cbn. rewrite E'. split_and!; [|lia|].
  - eapply (local_disk l p (bump s) f); [by apply local_bump|done..| |rewrite E'; lia]. intros g Hg. by rewrite lookup_insert_ne.
  - exists k. split; [apply lookup_insert_eq|]. subst k. destruct (io _); [|done]. intros _. by apply take_ge.
Qed.

Lemma local_remove l p s f x b s' :
  remove_file io f s = (b, s') -> Local l p s -> p_physical p = true -> f.1 = p_dir p -> (forall sg, sg ∈ p_segments p -> sg_path sg <> f) -> room p s x -> 0 <= x ->
  Local l p s' /\ room p s' x.
Proof.
  unfold remove_file, io_ok. intros E H Hph Hf Hs Hr Hx. pose proof (local_bump _ _ _ _ _ _ H) as Hb.
  destruct (_ && _) eqn:Hd; injection E as <- <-; [|done]. apply andb_prop in Hd as [_ Hd]. apply bool_decide_eq_true in Hd as [c Hc].
  pose proof (dir_bytes_delete f c _ Hc) as E'. rewrite Hf in E'. pose proof (len_nonneg c). unfold room in *. cbn in *. rewrite E'. split; [|lia].
  eapply (local_disk l p (bump s) f); [done..| |cbn; lia]. intros g Hg. by rewrite lookup_delete_ne.
Qed.

(** ** A new segment *)

Definition rolled (path : Path) (n : Z) (p : Partition) : Partition :=
  set_p_segments (p_segments p ++ [MkSegment (p_high p) path n]) (set_p_activeBytes n (set_p_active (Some path) p)).

Lemma local_rolled l p s t c x :
  let path := (p_dir p, segmentFilename (p_high p)) in
  Local l p s -> writable (p_state p) -> (forall sg, sg ∈ p_segments p -> sg_base sg < p_high p) -> p_physical p = true ->
  Z.of_nat (length (p_segments p)) < p_allocSegments p -> c = encodeSegmentHeader (p_key p) (p_originComplete p) (p_high p) t ->
  sp_disk s !! path = Some c -> room p s x -> Local l (rolled path (len c) p) s /\ room (rolled path (len c) p) s x.
Proof.
  cbv zeta. intros [[] [] Hr] Hw Hlt Hp Ha Hc Hd Hx. split; [|done].
  assert (Hhold : holds (p_key p) (p_originComplete p) l (p_high p) (p_high p) c).
  { exists t, []. rewrite recs_nil. cbn. by rewrite app_nil_r. }
  split; [constructor|constructor|]; cbn; try done.
  - eapply chain_snoc; [done|done|done|by cbn; rewrite wf_dir|cbn]. intros c' Hc'. rewrite Hd in Hc'. injection Hc' as <-.
    split; [done|]. unfold len. lia.
  - congruence.
  - intros path [= <-]. split; [done|]. eexists _, _, t, c. split_and!; [done|done|done|done|]. cbn. by rewrite recs_nil, app_nil_r.
  - rewrite length_app. cbn. lia.
  - intros id r Hid Hsr. destruct (Hr id r Hid Hsr) as [Ho Hf]. constructor; [done|]. intros path position Hpo.
    destruct (Hf _ _ Hpo) as (sg&Hin&Hx'). exists sg. split; [|done]. cbn. apply elem_of_app. by left.
Qed.

Lemma roll_path_ne l p s sg :
  Local l p s -> (forall sg, sg ∈ p_segments p -> sg_base sg < p_high p) -> sg ∈ p_segments p -> sg_path sg <> (p_dir p, segmentFilename (p_high p)).
Proof.
  intros [_ Hw _] Hlt Hin E. pose proof (wf_high_u64 _ _ _ _ Hw). pose proof (Hlt sg Hin). destruct Hw.
  destruct (chain_in _ _ _ _ _ _ _ sg wf_chain Hin) as [Hp Hb]. rewrite Hp, wf_dir in E.
  apply (segment_path_inj (p_key p)) in E; lia.
Qed.

Lemma local_roll l p s x e p' s' :
  rollLocked io clock p s = (e, (p', s')) -> Local l p s -> writable (p_state p) -> (forall sg, sg ∈ p_segments p -> sg_base sg < p_high p) ->
  p_physical p = true -> Z.of_nat (length (p_segments p)) < p_allocSegments p -> room p s (Z.of_nat segmentHeaderSize + x) -> 0 <= x ->
  Local l p' s' /\ room p' s' x /\ p_state p' = p_state p /\ p_dir p' = p_dir p /\
  match e with
  | None => exists path, p_active p' = Some path
  | Some _ => p_active p' = None /\ p_segments p' = p_segments p /\ p_accounted p' = p_accounted p
              /\ p_allocSegments p' = p_allocSegments p /\ p_physical p' = true
  end.
Proof.
  unfold rollLocked. intros E H Hw Hlt Hp Ha Hr Hx.
  set (p1 := set_p_active None p).
  assert (H1 : forall s1, (s1 = s \/ s1 = bump s) -> Local l p1 s1 /\ room p1 s1 (Z.of_nat segmentHeaderSize + x)).
  { intros s1 [->| ->]; (split; [|done]); [|apply local_bump]; by apply local_inactive. }
  assert (Hsame : p_active p = None -> p = p1) by (intros Hn; subst p1; destruct p; cbn in *; subst; done).
  assert (E' : exists (closed : bool) s1, (s1 = s \/ s1 = bump s) /\
    match p_active p with Some _ => let '(ok, s) := io_ok io s in (ok, (set_p_active None p, s)) | None => (true, (p, s)) end = (closed, (p1, s1))).
  { destruct (p_active p) eqn:Hpa; [by eexists _, _; split; [right|]|]. exists true, s. split; [by left|]. by rewrite (Hsame eq_refl) at 1. }
  destruct E' as (closed&s1&Hs1&E'). rewrite E' in E. clear E'. destruct (H1 s1 Hs1) as [HL HR].
  assert (Hfail : forall s2, Local l p1 s2 -> room p1 s2 x -> e <> None -> (e, (p1, s2)) = (e, (p', s')) -> Local l p' s' /\ room p' s' x /\ p_state p' = p_state p /\ p_dir p' = p_dir p /\
    match e with
    | None => exists path, p_active p' = Some path
    | Some _ => p_active p' = None /\ p_segments p' = p_segments p /\ p_accounted p' = p_accounted p
                /\ p_allocSegments p' = p_allocSegments p /\ p_physical p' = true
    end) by (intros s2 ? ? He [= <- <-]; destruct e; [by split_and!|done]).
  assert (HRx : forall s2, room p1 s2 (Z.of_nat segmentHeaderSize + x) -> room p1 s2 x) by (unfold room; intros; lia).
  destruct closed; cbn [negb] in E; [|injection E as <- <- <-; by apply (Hfail s1); [|apply HRx| |]].
  unfold io_ok in E. pose proof (local_bump _ _ _ _ _ _ HL) as HL2. set (s2 := bump s1) in *. assert (HR2 : room p1 s2 (Z.of_nat segmentHeaderSize + x)) by done.
  destruct (io (sp_tick s1)); cbn [negb] in E; [|injection E as <- <- <-; by apply (Hfail s2); [|apply HRx| |]].
  set (path := (p_dir p1, segmentFilename (p_high p1))) in *.
  assert (Hne : forall sg, sg ∈ p_segments p1 -> sg_path sg <> path) by (intros sg Hin; by apply (roll_path_ne l p1 s2)).
  destruct (open_exclusive io path s2) as [opened s3] eqn:E3.
  destruct (local_open l p1 s2 path _ opened s3 E3 HL2 Hp eq_refl Hne HR2) as (HL3&HR3&Hd3); [lia|].
  destruct opened; cbn [negb] in E; [|injection E as <- <- <-; by apply (Hfail s3); [|apply HRx| |]]. specialize (Hd3 eq_refl).
  cbn [read_clock] in E. set (s4 := bump s3) in *. assert (HL4 : Local l p1 s4) by (by apply local_bump).
  set (header := encodeSegmentHeader _ _ _ _) in *.
  assert (Hlen : len header = Z.of_nat segmentHeaderSize) by (unfold len, header; rewrite header_length; [done|]; by destruct HL as [_ [] _]).
  destruct (write_file io path header s4) as [[written n] s5] eqn:E5.
  destruct (local_header l p1 s4 path header x written n s5 E5 HL4 Hp eq_refl Hne Hd3) as (HL5&HR5&k&Hd5&Hk); [by rewrite Hlen|done|].
  destruct written; cbn [negb] in E.
  - injection E as <- <- <-. rewrite (Hk eq_refl) in Hd5. destruct (local_rolled l p1 s5 _ header x HL5 Hw Hlt Hp Ha eq_refl Hd5 HR5) as [HL6 HR6].
    split_and!; [exact HL6|exact HR6|done|done|by eexists].
  - destruct (remove_file io path s5) as [b s6] eqn:E6. injection E as <- <- <-.
    destruct (local_remove l p1 s5 path x b s6 E6 HL5 Hp eq_refl Hne HR5 Hx) as [HL6 HR6]. by apply (Hfail s6).
Qed.

(** ** Encoding records *)

(** The records of a batch with their offsets. *)
Fixpoint stamp (offset : Z) (rs : list SpoolRecord) : list SpoolRecord :=
  match rs with
  | [] => []
  | r :: rs => MkSpoolRecord offset (r_Type r) (r_OccurredAt r) (r_Payload r) :: stamp (offset + 1) rs
  end.

(** The ranges of the Go types. *)
Definition typed (r : SpoolRecord) : Prop := 0 <= r_Type r < 65536 /\ -9223372036854775808 <= r_OccurredAt r < 9223372036854775808.

Lemma stamp_length offset rs : length (stamp offset rs) = length rs.
Proof. revert offset. induction rs as [|r rs IH]; intros offset; cbn; [done|]. by rewrite IH. Qed.

Lemma stamp_app offset rs rs' : stamp offset (rs ++ rs') = stamp offset rs ++ stamp (offset + Z.of_nat (length rs)) rs'.
Proof.
  revert offset. induction rs as [|r rs IH]; intros offset; cbn -[Z.of_nat]; [f_equal; lia|]. rewrite IH. do 2 f_equal. f_equal. lia.
Qed.

Lemma stamp_lookup offset rs i r : stamp offset rs !! i = Some r -> exists r', rs !! i = Some r' /\
  r = MkSpoolRecord (offset + Z.of_nat i) (r_Type r') (r_OccurredAt r') (r_Payload r').
Proof.
  revert offset i. induction rs as [|x rs IH]; intros offset i; cbn; [by destruct i|]. destruct i as [|i]; cbn.
  - intros [= <-]. exists x. split; [done|]. f_equal. lia.
  - intros H. destruct (IH _ _ H) as (r'&Hr&->). exists r'. split; [done|]. f_equal. lia.
Qed.

Definition fits_record (r : SpoolRecord) : Prop := len (r_Payload r) <= MaxRecordBytes cfg
  /\ Z.of_nat (recordFixedBody + length (r_Payload r) + recordChecksumSize) <= 4294967295.

Lemma encode_chunk_ok available offset encoded count records bytes n :
  encode_chunk cfg available offset encoded count records = Ok (bytes, n) ->
  exists k, (n = count + k)%nat /\ (k <= length records)%nat /\ (records <> [] -> count = 0%nat -> 0 < k)%nat /\
    bytes = encoded ++ encs (stamp (offset + Z.of_nat count) (take k records)) /\ Forall fits_record (take k records).
Proof.
  revert encoded count. induction records as [|r rest IH]; intros encoded count; cbn [encode_chunk].
  - intros [= <- <-]. exists 0%nat. cbn. rewrite app_nil_r. split_and!; (done || lia).
  - destruct (MaxRecordBytes cfg <? len (r_Payload r)) eqn:E1; [done|]. apply Z.ltb_ge in E1.
    destruct (encodeRecord _ _ _ _) as [next|] eqn:E2; [|done]. destruct (_ && _) eqn:E3.
    + intros [= <- <-]. exists 0%nat. cbn. rewrite app_nil_r. apply andb_prop in E3 as [E3 _]. apply Z.ltb_lt in E3. split_and!; (done || lia).
    + intros H. destruct (IH _ _ H) as (k&->&Hk&_&->&Hf). exists (S k). cbn [take stamp length]. split_and!; [lia|lia|lia| |].
      * rewrite <- (assoc_L (++)). f_equal. cbn [encs mbind list_bind]. unfold enc at 1. cbn [r_Offset r_Type r_OccurredAt r_Payload].
        rewrite E2. do 2 f_equal. f_equal. lia.
      * constructor; [|done]. split; [done|]. unfold encodeRecord in E2. destruct (4294967295 <? _) eqn:E4; [done|]. by apply Z.ltb_ge in E4.
Qed.

Lemma stamp_ok rs offset i r :
  Forall typed rs -> Forall fits_record rs -> stamp offset rs !! i = Some r -> r_Offset r = offset + Z.of_nat i /\ record_ok (MaxRecordBytes cfg) r.
Proof.
  intros Ht Hf H. apply stamp_lookup in H as (r'&Hr&->). cbn. split; [done|].
  destruct (Forall_lookup_1 _ _ _ _ Ht Hr). destruct (Forall_lookup_1 _ _ _ _ Hf Hr). done.
Qed.

(** ** The write *)

Lemma disk_other (disk : Disk) f c f' : f' <> f -> <[f := c]> disk !! f' = disk !! f'.
Proof. intros. by apply lookup_insert_ne. Qed.

(** After bytes were added to the active file, and it was closed. *)
Lemma local_torn l p s path c more n acc :
  Local l p s -> p_active p = Some path -> sp_disk s !! path = Some c ->
  dir_bytes (p_dir p) (sp_disk s) + len more + charges cfg p <= acc -> acc <= p_accounted p -> 
  Local l (set_p_active None (set_p_accounted acc (set_p_activeBytes n p)))
    (set_sp_usedBytes (sp_usedBytes s - (p_accounted p - acc)) (set_sp_disk (<[path := c ++ more]> (sp_disk s)) s)).
Proof.
  intros [[] [] Hr] Ha Hc Hb Hacc. destruct (wf_active path Ha) as (Hw&before&sg&t&c'&Hs&Hsg&Hd&_).
  assert (Hdir : path.1 = p_dir p).
  { destruct (chain_in _ _ _ _ _ _ _ sg wf_chain) as [Hp _]; [rewrite Hs; apply elem_of_app; right; left|]. rewrite <- Hsg, Hp, wf_dir. done. }
  pose proof (dir_bytes_insert path c (c ++ more) _ Hc) as E. rewrite Hdir in E.
  assert (El : len (c ++ more) = len c + len more) by (unfold len; rewrite length_app; lia).
  split; [constructor|constructor|]; cbn; try done; try lia.
  - intros f Hf. etrans; [apply disk_other; congruence|by apply fr_disk].
  - eapply chain_disk; [|done]. intros sg' c1 _ Hd'. destruct (decide (sg_path sg' = path)) as [Ep|Ep].
    + rewrite Ep in *. rewrite lookup_insert_eq in Hd'. injection Hd' as <-. by exists c, more.
    + rewrite lookup_insert_ne in Hd' by done. exists c1, []. by rewrite app_nil_r.
  - intros Hp. destruct (wf_physical Hp) as (?&?&?). congruence.
  - rewrite E, El. unfold charges in *. cbn. lia.
  - intros id r Hid Hsr. destruct (Hr id r Hid Hsr) as [Ho Hf]. constructor; [done|]. intros path' position Hpo.
    destruct (Hf _ _ Hpo) as (sg'&Hin&Hsg'&Hsome&Hx). exists sg'. split_and!; try done; try apply Hx. cbn.
    destruct (decide (path' = path)) as [->|]; [rewrite lookup_insert_eq; by eexists|by rewrite lookup_insert_ne].
Qed.

Definition written (bytes : list Z) (count : Z) (p : Partition) : Partition :=
  set_p_state StateOpen (set_p_segments (last_bytes (p_activeBytes p + len bytes) (p_segments p))
    (set_p_activeBytes (p_activeBytes p + len bytes) (set_p_high (u64 (p_high p + count)) p))).

Lemma local_written l p s path c rs :
  Local l p s -> p_active p = Some path -> sp_disk s !! path = Some c -> room p s (len (encs (stamp (high l) rs))) ->
  Forall typed rs -> Forall fits_record rs -> high l + Z.of_nat (length rs) < u64_modulus ->
  Local (l ++ stamp (high l) rs) (written (encs (stamp (high l) rs)) (Z.of_nat (length rs)) p)
    (set_sp_disk (<[path := c ++ encs (stamp (high l) rs)]> (sp_disk s)) s).
Proof.
  intros [[] [] Hr] Ha Hc Hb Ht Hfit Hh. destruct (wf_active path Ha) as (Hw&before&sg&t&c'&Hs&Hsg&Hd&Hn&Hcc).
  rewrite Hc in Hd. injection Hd as <-. set (more := encs (stamp (high l) rs)) in *. set (rs' := stamp (high l) rs) in *.
  assert (Hin : sg ∈ p_segments p) by (rewrite Hs; apply elem_of_app; right; left).
  destruct (chain_in _ _ _ _ _ _ _ sg wf_chain Hin) as [Hp Hbase].
  assert (Hdir : path.1 = p_dir p) by (rewrite <- Hsg, Hp, wf_dir; done).
  pose proof (dir_bytes_insert path c (c ++ more) _ Hc) as E. rewrite Hdir in E.
  assert (El : len (c ++ more) = len c + len more) by (unfold len; rewrite length_app; lia).
  assert (Hl' : high (l ++ rs') = high l + Z.of_nat (length rs)) by (unfold high, rs'; rewrite length_app, stamp_length; lia).
  assert (Hu : u64 (p_high p + Z.of_nat (length rs)) = high (l ++ rs')).
  { rewrite Hl', wf_high. apply u64_small. unfold is_u64, high in *. lia. }
  assert (Hcontent : c ++ more = encodeSegmentHeader (p_key p) (p_originComplete p) (sg_base sg) t ++ encs (recs (sg_base sg) (high (l ++ rs')) (l ++ rs'))).
  { rewrite Hcc, wf_high, (recs_split (sg_base sg) (high l) (high (l ++ rs'))) by lia. rewrite recs_app, recs_end, encs_app by lia.
    by rewrite <- !(assoc_L (++)). }
  unfold written. rewrite Hu, Hs, last_bytes_snoc. split; [constructor|constructor|]; cbn; try done; try lia.
  - intros f Hf. etrans; [apply disk_other; congruence|by apply fr_disk].
  - eapply state_le_trans; [done|]. destruct Hw as [->| ->]; [right; cbn; lia|by left].
  - apply log_ok_app; [done|lia|]. intros i r Hi. by apply (stamp_ok rs).
  - rewrite wf_high, Hs in wf_chain. eapply chain_grow with (b := high l); [|lia|].
    + apply chain_log; [done|unfold high; lia|]. eapply chain_disk; [|done]. intros sg' c1 _ Hd'. destruct (decide (sg_path sg' = path)) as [Ep|Ep].
      * rewrite Ep in *. rewrite lookup_insert_eq in Hd'. injection Hd' as <-. by exists c, more.
      * rewrite lookup_insert_ne in Hd' by done. exists c1, []. by rewrite app_nil_r.
    + rewrite Hsg, lookup_insert_eq. intros c1 [= <-]. split; [exists t, []; by rewrite app_nil_r|]. unfold len in *. lia.
  - intros E'. destruct (wf_physical E') as (?&?&?). congruence.
  - intros path' Hpa. assert (path' = path) as -> by congruence. split; [by right|]. eexists before, _, t, (c ++ more).
    split_and!; [done|done|apply lookup_insert_eq| |done]. lia.
  - rewrite Hs in wf_alloc. rewrite !length_app in *. done.
  - unfold room, charges in *. cbn. lia.
  - intros id r Hid Hsr. destruct (Hr id r Hid Hsr) as [Ho Hf]. rewrite wf_high in Ho. constructor; cbn; [lia|]. intros path' position Hpo.
    destruct (Hf _ _ Hpo) as (sg'&Hin'&Hsg'&Hsome&[Hx1 Hx2]&Hx3).
    destruct (chain_in _ _ _ _ _ _ _ sg' wf_chain Hin') as [_ Hb'].
    exists (if decide (sg' = sg) then MkSegment (sg_base sg) (sg_path sg) (p_activeBytes p + len more) else sg'). split_and!.
    + case_decide; [apply elem_of_app; right; left|]. rewrite Hs in Hin'.
      apply elem_of_app in Hin' as [?|?%list_elem_of_singleton]; [apply elem_of_app; by left|done].
    + case_decide; subst; done.
    + destruct (decide (path' = path)) as [->|]; [rewrite lookup_insert_eq; by eexists|by rewrite lookup_insert_ne].
    + case_decide; subst; done.
    + done.
    + rewrite Hx3. case_decide; subst; cbn; rewrite recs_app by lia; done.
Qed.

(** What a write leaves: the records appended, or a stream that takes no more. *)
Definition appended (l : list SpoolRecord) (rs : list SpoolRecord) (res : result StoreError Z) (p : Partition) (s : Spool) : Prop :=
  match res with
  | Ok offset => offset = high l /\ Local (l ++ stamp (high l) rs) p s /\ Ready p /\ p_state p = StateOpen
  | Fail _ => Local l p s /\ (p_state p = StatePoisoned \/ p_state p = StateStoreClosed)
  end.

Lemma local_write_failed l p s path c encoded n stat p' s' :
  Local l p s -> p_active p = Some path -> sp_disk s !! path = Some c -> p_activeBytes p = len c -> room p s (len encoded) ->
  (n <= length encoded)%nat ->
  let size := if (stat : bool) then len (c ++ take n encoded) else p_activeBytes p + Z.of_nat n in
  let unused := len encoded - Z.min (len encoded) (Z.max (size - p_activeBytes p) 0) in
  let s1 := bump (set_sp_disk (<[path := c ++ take n encoded]> (sp_disk s)) (bump s)) in
  (let p1 := set_p_activeBytes size p in
   let '(p2, s2) := if 0 <? unused then (set_p_accounted (p_accounted p1 - unused) p1, release unused false false s1) else (p1, s1) in
   poisonLocked io clock p2 s2) = (p', s') ->
  Local l p' s' /\ (p_state p' = StatePoisoned \/ p_state p' = StateStoreClosed).
Proof.
  intros H Ha Hc Hn Hr Hle. cbv zeta. assert (Hl : len (take n encoded) = Z.of_nat n) by (unfold len; rewrite length_take; lia).
  assert (Hsize : (if stat then len (c ++ take n encoded) else p_activeBytes p + Z.of_nat n) = len c + Z.of_nat n).
  { destruct stat; [|lia]. unfold len in *. rewrite length_app. lia. }
  rewrite Hsize, Hn. set (size := len c + Z.of_nat n). set (unused := len encoded - _).
  assert (Hu : unused = len encoded - Z.of_nat n) by (unfold unused, size, len; lia).
  assert (Hw : writable (p_state p)) by (destruct H as [_ [] _]; by eapply wf_active).
  pose proof (local_torn l p s path c (take n encoded) size (p_accounted p - unused) H Ha Hc) as HT.
  assert (HL : Local l (set_p_active None (set_p_accounted (p_accounted p - unused) (set_p_activeBytes size p)))
    (bump (bump (set_sp_usedBytes (sp_usedBytes s - unused) (set_sp_disk (<[path := c ++ take n encoded]> (sp_disk s)) s))))).
  { do 2 apply local_bump. replace unused with (p_accounted p - (p_accounted p - unused)) at 2 by lia. apply HT; unfold room, len in *; lia. }
  clear HT. destruct (0 <? unused) eqn:Hz; intros E.
  - apply Z.ltb_lt in Hz. eapply local_poison; [exact E| |done].
    destruct H as [[] [] _]. pose proof (flag_nonneg (p_physical p)). unfold room, charges in *.
    pose proof (dir_bytes_nonneg (p_dir p) (sp_disk s)). destruct Hcfg.
    assert (0 <= SegmentAllocationCharge cfg * p_allocSegments p) by (apply Z.mul_nonneg_nonneg; lia).
    assert (0 <= if p_physical p then PartitionAllocationCharge cfg else 0) by (destruct (p_physical p); lia).
    rewrite release_exact; [|cbn; lia..]. destruct s. cbn -[len] in *. rewrite !Z.sub_0_r. exact HL.
  - apply Z.ltb_ge in Hz. assert (unused = 0) as E0 by (unfold len in *; lia). rewrite E0, Z.sub_0_r in HL.
    eapply local_poison; [exact E| |done]. rewrite Z.sub_0_r in HL. destruct p, s. exact HL.
Qed.

Lemma local_write_records l p s rs res p' s' :
  write_records io clock (encs (stamp (high l) rs)) (Z.of_nat (length rs)) p s = (res, (p', s')) ->
  Local l p s -> is_Some (p_active p) -> room p s (len (encs (stamp (high l) rs))) -> rs <> [] ->
  Forall typed rs -> Forall fits_record rs -> high l + Z.of_nat (length rs) < u64_modulus ->
  appended l rs res p' s'.
Proof.
  intros E H [path Ha] Hr Hne Ht Hf Hh. set (encoded := encs (stamp (high l) rs)) in *.
  assert (Hc : exists c, sp_disk s !! path = Some c /\ p_activeBytes p = len c).
  { destruct H as [_ [] _]. destruct (wf_active path Ha) as (_&before&sg&t&c&_&_&Hd&Hn&_). by exists c. }
  destruct Hc as (c&Hc&Hn). unfold write_records in E. rewrite Ha in E. unfold write_file, draw, io_ok in E. cbn [read_clock] in E.
  change (sp_disk (bump s)) with (sp_disk s) in E. rewrite Hc in E. cbn [default id] in E.
  destruct (io (sp_tick s)) as [|n kept] eqn:Ho; cbn [negb] in E.
  - rewrite take_ge in E by lia. apply (f_equal (fun x => (x.1, x.2))) in E. cbn in E. injection E as <- <- <-.
    unfold appended. pose proof (local_written l p s path c rs H Ha Hc Hr Ht Hf Hh) as HL.
    assert (Hhigh : p_high p = high l) by (by destruct H as [_ [] _]).
    split_and!; [done|apply local_bump, local_updated; exact (local_bump _ _ _ _ _ _ HL)| |done].
    destruct HL as [_ Hwf _]. split; [|done]. intros _ sg Hin.
    assert (Hin' : exists sg', sg' ∈ p_segments p /\ sg_base sg' = sg_base sg).
    { destruct H as [_ [] _]. destruct (wf_active path Ha) as (_&before&sg1&_&_&Hs&_). cbn in Hin. rewrite Hs, last_bytes_snoc in Hin. rewrite Hs.
      apply elem_of_app in Hin as [Hin|Hin%list_elem_of_singleton]; [exists sg; split; [apply elem_of_app; by left|done]|].
      subst sg. exists sg1. split; [apply elem_of_app; right; left|done]. }
    destruct Hin' as (sg'&Hin'&Hb). assert (Hle : sg_base sg' <= p_high p) by (destruct H as [_ [] _]; by eapply chain_in).
    pose proof (wf_high _ _ _ _ Hwf) as Hhw. cbn in Hhw. cbn [p_high set_p_updatedAt]. rewrite Hhw. unfold high in *. rewrite length_app, stamp_length.
    assert (length rs <> 0%nat) by (by intros ?%nil_length_inv). cbn. lia.
  - set (m := Nat.min n (length encoded)) in *. set (s1 := set_sp_disk _ _) in *.
    assert (Hc1 : sp_disk (bump s1) !! path = Some (c ++ take m encoded)) by apply lookup_insert_eq.
    rewrite Hc1 in E. cbn [default id] in E. set (stat := match io (sp_tick s1) with IoOk => true | _ => false end) in *.
    unfold appended. destruct (0 <? _) eqn:Hz in E; (assert (exists e0, res = Fail e0) as [e0 ->] by (injection E as <- _; by eexists));
      apply (f_equal snd) in E; cbn [snd] in E; eapply (local_write_failed l p s path c encoded m stat); try done; try lia; cbv zeta; by rewrite Hz.
Qed.

(** [appendEncodedLocked] after room was made. *)
Lemma local_append_reserved l p s rs res p' s' :
  append_reserved cfg io clock (encs (stamp (high l) rs)) (Z.of_nat (length rs)) p s = (res, (p', s')) ->
  Local l p s -> Ready p -> writable (p_state p) -> rs <> [] ->
  Forall typed rs -> Forall fits_record rs -> high l + Z.of_nat (length rs) < u64_modulus -> appended l rs res p' s'.
Proof.
  unfold append_reserved. intros E H [Hlt _] Hw Hne Ht Hf Hh. specialize (Hlt Hw). set (encoded := encs (stamp (high l) rs)) in *.
  set (newP := negb (p_physical p)) in *. set (newS := newP || _ || _) in *.
  assert (Hfail : forall e p1 s1, Local l p1 s1 -> (Fail e, poisonLocked io clock p1 s1) = (res, (p', s')) -> appended l rs res p' s').
  { intros e p1 s1 H1 E1. injection E1 as <- E1. by eapply local_poison_now. }
  destruct (newS && _) eqn:E1; [by eapply Hfail|]. set (amount := len encoded + _ + _) in *.
  destruct (MaxStreamBytes cfg <? _) eqn:E2; [by eapply Hfail|]. apply Z.ltb_ge in E2.
  destruct (reserve cfg amount newP newS s) as [[e|] s1] eqn:E3.
  { eapply Hfail; [|exact E]. replace s1 with s; [done|]. unfold reserve in E3. repeat (case_match; try congruence). }
  destruct (local_reserve l p s (len encoded) newS s1 E3 H) as (H1&Hr1&Hseg); [unfold len; lia|done| |].
  { intros HS. rewrite HS in E1. cbn in E1. by apply Z.leb_gt in E1. }
  fold newP in H1, Hr1, Hseg. fold amount in H1, Hr1, Hseg. fold (reserved amount newP newS p) in E. set (p1 := reserved amount newP newS p) in *.
  assert (Hp1 : p_physical p1 = true /\ p_state p1 = p_state p /\ p_segments p1 = p_segments p /\ p_high p1 = p_high p /\ p_active p1 = p_active p).
  { subst p1 newP. unfold reserved. destruct (p_physical p) eqn:Hp, newS; cbn; by rewrite ?Hp. }
  destruct Hp1 as (Hph&Hst&Hsegs&Hhigh&Hact). destruct newS eqn:HS.
  - destruct (rollLocked io clock p1 s1) as [e1 [p2 s2]] eqn:E4.
    destruct (local_roll l p1 s1 (len encoded) e1 p2 s2 E4 H1) as (H2&Hr2&Hst2&Hdir2&He1);
      [by rewrite Hst|by rewrite Hsegs, Hhigh|done|rewrite Hsegs; by apply Hseg|unfold room in *; lia|unfold len; lia|].
    destruct e1 as [e1|]; [|by eapply local_write_records].
    destruct He1 as (Ha2&Hs2&Hacc2&Halloc2&Hph2).
    assert (Hgive : forall s2, Local l p2 s2 -> room p2 s2 (len encoded) -> Local l (set_p_accounted (p_accounted p2 - len encoded) p2) (release (len encoded) false false s2)).
    { clear E Hr2 H2 E4. intros s2' [[] [] Hrd] Hr2. unfold room in Hr2. pose proof (dir_bytes_nonneg (p_dir p2) (sp_disk s2')).
      pose proof (flag_nonneg (p_physical p2)). destruct Hcfg. unfold charges in *. 
      assert (0 <= SegmentAllocationCharge cfg * p_allocSegments p2) by (apply Z.mul_nonneg_nonneg; lia). rewrite Hph2 in *.
      assert (0 <= len encoded) by (unfold len; lia).
      assert (Hu : release (len encoded) false false s2' = set_sp_usedBytes (sp_usedBytes s2' - len encoded) s2').
      { destruct (decide (len encoded = 0)) as [E0|E0]; [|rewrite release_exact by (cbn in *; lia); destruct s2'; cbn; by rewrite !Z.sub_0_r].
        rewrite E0. destruct s2'. cbn. by rewrite Z.sub_0_r. }
      rewrite Hu. split; [constructor|constructor|]; cbn in *; rewrite ?Hph2; try done; try lia.
      - unfold charges. cbn. rewrite Hph2. lia.
      - intros id r Hid Hsr. destruct (Hrd id r Hid Hsr). by constructor. }
    destruct newP eqn:HP; cbn [andb] in E; [|by eapply Hfail; [apply Hgive|exact E]].
    destruct (removeManagedPartition io (p_dir p2) s2) as [cleaned s3] eqn:E5.
    assert (Hp0 : p_physical p = false) by (by apply negb_true_iff).
    assert (Hs0 : p_segments p = []) by (destruct H as [_ [] _]; by apply wf_physical).
    assert (Hsn : p_segments p2 = []) by congruence.
    destruct (local_unlink _ _ _ _ l p2 s2 cleaned s3 E5 H2 Ha2) as (H3&Hle&Hz); [by apply (no_files _ _ _ _ _ _ H2)|].
    destruct cleaned; [|eapply Hfail; [apply Hgive; [exact H3|unfold room in *; lia]|exact E]]. eapply Hfail; [|exact E]. clear E Hgive Hfail. specialize (Hz eq_refl). pose proof (dir_bytes_none _ _ Hz) as Hz0.
    assert (Hacc1 : p_accounted p1 = p_accounted p + amount) by done.
    assert (Hal1 : p_allocSegments p1 = p_allocSegments p + 1) by done.
    destruct H as [_ [] _]. destruct H3 as [[] [] Hrd]. destruct Hcfg. unfold charges in *. rewrite Hp0 in wf_charge. rewrite Hs0 in wf_alloc.
    pose proof (dir_bytes_nonneg (p_dir p) (sp_disk s)). rewrite Hph2, Hacc2, Hacc1, Halloc2, Hal1, Hsn, Hz0 in *. cbn [length flag] in *.
    assert (0 < amount) by (unfold amount, len; lia).
    rewrite release_exact; [|cbn; lia..]. split; [constructor|constructor|]; cbn -[amount] in *; try done; try lia.
    + rewrite Hsn. done.
    + intros path Hpa. congruence.
    + rewrite Hsn. cbn. lia.
    + unfold charges. cbn. lia.
    + intros id r Hid Hsr. destruct (Hrd id r Hid Hsr). by constructor.
  - apply (local_write_records l p1 s1); try done; [|fold encoded; cbv iota in Hr1; unfold room in *; lia]. rewrite Hact.
    destruct (p_active p); [done|]. unfold newS in HS. rewrite bool_decide_eq_true_2, orb_true_r in HS by done. done.
Qed.
End Append.
