(* ===== verification/SpoolInv.v ===== *)
(** * The stream spool: the invariant of a store

    Every partition satisfies the invariant of [SpoolLocal] for its log, the
    counters of the store are the sums over its partitions, files belong to
    registered partitions, and open readers hold leases.  The logs, the low
    marks and the states that clients may rely on are the abstract streams. *)

From Stdlib Require Import ZArith Lia Ascii String.
From stdpp Require Import base option strings list gmap sets sorting.
From S2P Require Import Prelude GoStrings GoText GoPath SpoolFormat SpoolStore SpoolFacts SpoolChain SpoolLocal SpoolAppend.

Open Scope list_scope.
Open Scope Z_scope.

(** ** Abstract streams *)

(** An append-only log of which the records before [st_low] may be gone. *)
Record Stream : Type := MkStream { st_log : list SpoolRecord; st_low : Z; st_state : State }.
Abbreviation Streams := (gmap Key Stream).

(** The stream and the next offset of an open reader. *)
Abbreviation Cursors := (gmap nat (Key * Z)).

Section Inv.
Context (cfg : Config) (io : nat -> IoOutcome) (clock : nat -> Z) (Hcfg : good_config cfg).
Implicit Types (A : Streams) (B : Cursors) (m : gmap Key Partition) (s : Spool).

(** The partition a reader or a writer of a stream may see. *)
Record part_ok (k : Key) (a : Stream) (p : Partition) (s : Spool) : Prop := {
  po_key : p_key p = k;
  po_ready : Ready p;
  po_wf : Wf cfg (st_log a) (sp_disk s) p;
  po_readers : Readers (st_log a) p s;
  po_low : st_low a <= p_low p;
  po_state : state_le (st_state a) (p_state p);
  po_count : p_readers p = Z.of_nat (size (p_leases p)) /\ p_readers p <= MaxReadersPerPartition cfg;
}.

Record removed_ok (k : Key) (a : Stream) (p : Partition) : Prop := {
  ro_key : p_key p = k;
  ro_state : p_state p = StateStoreClosed;
  ro_high : p_high p = high (st_log a);
  ro_low : st_low a <= p_low p /\ 0 <= p_low p <= p_high p;
  ro_log : log_ok (MaxRecordBytes cfg) (st_log a);
}.

(** [m] are the partitions of [s], with the one an operation has in hand. *)
Record Inv (A : Streams) (B : Cursors) (m : gmap Key Partition) (s : Spool) : Prop := {
  iv_part : forall k p, m !! k = Some p -> exists a, A !! k = Some a /\ part_ok k a p s;
  iv_removed : forall k p, sp_removed s !! k = Some p -> m !! k = None /\ exists a, A !! k = Some a /\ removed_ok k a p;
  iv_streams : forall k, is_Some (A !! k) -> is_Some (m !! k) \/ is_Some (sp_removed s !! k);
  iv_files : forall f c, sp_disk s !! f = Some c -> exists k p, m !! k = Some p /\ f.1 = p_dir p;
  iv_readers : forall id r, sp_readers s !! id = Some r -> rd_closed r = false ->
    B !! id = Some (rd_partition r, rd_offset r) /\ exists p, m !! rd_partition r = Some p /\ id ∈ p_leases p;
  iv_cursors : forall id b, B !! id = Some b -> exists r, sp_readers s !! id = Some r /\ rd_closed r = false;
  iv_leases : forall k p id, m !! k = Some p -> id ∈ p_leases p ->
    exists r, sp_readers s !! id = Some r /\ rd_closed r = false /\ rd_partition r = k;
  iv_count : sp_readerCount s = total p_readers m /\ sp_readerCount s <= MaxReaders cfg;
  iv_used : sp_usedBytes s = total p_accounted m;
  iv_parts : sp_physicalParts s = total (fun p => flag (p_physical p)) m;
  iv_segs : sp_segmentCount s = total p_allocSegments m;
  iv_regs : total (fun p => flag (p_writerActive p)) m <= sp_registrations s;
  iv_limits : sp_usedBytes s <= MaxBytes cfg /\ sp_physicalParts s <= MaxPartitions cfg /\ sp_segmentCount s <= MaxSegments cfg
    /\ sp_registrations s <= MaxRegistrations cfg;
  iv_size : Z.of_nat (size m) <= MaxPartitions cfg;
  iv_current : forall l k, sp_current s !! l = Some k -> logical k = l;
}.

Lemma wf_nonneg l disk p : Wf cfg l disk p -> 0 <= p_accounted p /\ 0 <= p_allocSegments p.
Proof.
  intros []. destruct Hcfg. pose proof (dir_bytes_nonneg (p_dir p) disk). unfold charges in *.
  assert (0 <= SegmentAllocationCharge cfg * p_allocSegments p) by (apply Z.mul_nonneg_nonneg; lia).
  destruct (p_physical p); lia.
Qed.

(** Taking a partition in hand. *)
Lemma inv_local A B m s k p a : Inv A B m s -> m !! k = Some p -> A !! k = Some a -> Local cfg p s (st_log a) p s.
Proof.
  intros HI Hk Ha. destruct (iv_part _ _ _ _ HI k p Hk) as (a'&Ha'&[]). assert (a' = a) as -> by congruence.
  assert (Hn : forall k p, m !! k = Some p -> 0 <= p_accounted p /\ 0 <= p_allocSegments p).
  { intros k' p' Hk'. destruct (iv_part _ _ _ _ HI k' p' Hk') as (a'&_&[]). by eapply wf_nonneg. }
  split; [|done|done]. destruct HI. constructor; try done; try (by left); try lia.
  - rewrite iv_used0. split; [|done]. apply (total_ge p_accounted k p m); [|done]. intros. by eapply Hn.
  - rewrite iv_parts0. split; [|done]. apply (total_ge (fun p => flag (p_physical p)) k p m); [|done]. intros. apply flag_nonneg.
  - rewrite iv_segs0. split; [|done]. apply (total_ge p_allocSegments k p m); [|done]. intros. by eapply Hn.
  - split; [|done]. etrans; [|done]. apply (total_ge (fun p => flag (p_writerActive p)) k p m); [|done]. intros. apply flag_nonneg.
Qed.

(** What happens in another directory does not matter. *)
Lemma wf_frame l disk disk' p : (forall f, f.1 = p_dir p -> disk' !! f = disk !! f) -> Wf cfg l disk p -> Wf cfg l disk' p.
Proof.
  intros Hd []. constructor; try done.
  - eapply chain_disk; [|done]. intros sg c Hin Hc. exists c, []. rewrite app_nil_r. split; [|done]. rewrite <- Hd; [done|].
    destruct (chain_in _ _ _ _ _ _ _ sg wf_chain Hin) as [-> _]. done.
  - intros Hp. destruct (wf_physical Hp) as (?&?&Hn). split_and!; [done..|]. intros f Hf. rewrite Hd by done. by apply Hn.
  - intros path Hp. destruct (wf_active path Hp) as (Hw&before&sg&t&c&Hs&Hsg&Hc&Hx). split; [done|]. exists before, sg, t, c.
    split_and!; try done; try apply Hx. rewrite Hd; [done|]. rewrite <- Hsg.
    destruct (chain_in _ _ _ _ _ _ _ sg wf_chain) as [-> _]; [|done]. rewrite Hs. apply elem_of_app. right. left.
  - rewrite (dir_bytes_ext (p_dir p) disk) by done. done.
Qed.

Lemma readers_frame l disk p r disk' :
  Wf cfg l disk p -> (forall f, f.1 = p_dir p -> disk' !! f = disk !! f) -> reader_ok l disk p r -> reader_ok l disk' p r.
Proof.
  intros [] Hd [Ho Hf]. constructor; [done|]. intros path position Hp. destruct (Hf _ _ Hp) as (sg&Hin&Hsg&Hs&Hx). exists sg.
  split_and!; try done; try apply Hx. rewrite Hd; [done|]. rewrite <- Hsg. destruct (chain_in _ _ _ _ _ _ _ sg wf_chain Hin) as [-> _]. done.
Qed.

(** Putting it back after the steps of [Local]. *)
Lemma inv_put A B m s k p a l' p' s' :
  Inv A B m s -> m !! k = Some p -> A !! k = Some a -> Local cfg p s l' p' s' -> Ready p' ->
  Inv (<[k := MkStream l' (st_low a) (st_state a)]> A) B (<[k := p']> m) s'.
Proof.
  intros HI Hk Ha [Hf Hw Hr] Hrd. destruct (iv_part _ _ _ _ HI k p Hk) as (a'&Ha'&[]). assert (a' = a) as -> by congruence. destruct Hf.
  assert (Hother : forall k' q, k' <> k -> m !! k' = Some q -> exists a', A !! k' = Some a' /\ part_ok k' a' q s').
  { intros k' q Hne Hk'. destruct (iv_part _ _ _ _ HI k' q Hk') as (a'&Ha2&Hq). exists a'. split; [done|].
    assert (Hd : forall f, f.1 = p_dir q -> sp_disk s' !! f = sp_disk s !! f).
    { intros f E. apply fr_disk. rewrite E. destruct po_wf0, Hq. destruct po_wf0. rewrite wf_dir, wf_dir0. intros E'.
      apply partition_dir_inj in E'; [congruence|done|done]. }
    pose proof Hq as Hq'. destruct Hq. constructor; try done; [by eapply wf_frame|].
    intros id r Hid Hs. destruct (fr_open id) as [E|(Hid'&_)]; [|exfalso].
    - rewrite E in Hs. eapply readers_frame; [done|done|by eapply po_readers1].
    - destruct (iv_leases _ _ _ _ HI k p id Hk Hid') as (r1&Hr1&_&E1). destruct (iv_leases _ _ _ _ HI k' q id Hk' Hid) as (r2&Hr2&_&E2). congruence. }
  assert (Hopen : forall id r', sp_readers s' !! id = Some r' -> exists r, sp_readers s !! id = Some r /\ rd_closed r' = rd_closed r
    /\ rd_partition r' = rd_partition r /\ rd_offset r' = rd_offset r).
  { intros id r' Hs. destruct (fr_open id) as [E|(_&r&E1&E2)]; [exists r'; by rewrite <- E|]. rewrite E2 in Hs. injection Hs as <-. by exists r. }
  assert (Hopen' : forall id r, sp_readers s !! id = Some r -> exists r', sp_readers s' !! id = Some r' /\ rd_closed r' = rd_closed r
    /\ rd_partition r' = rd_partition r).
  { intros id r Hs. destruct (fr_open id) as [E|(_&r1&E1&E2)]; [exists r; by rewrite E|]. exists (set_rd_file None r1). by rewrite Hs in E1; injection E1 as <-. }
  assert (Hm : forall k' q, <[k := p']> m !! k' = Some q -> exists q0, m !! k' = Some q0 /\ p_dir q = p_dir q0 /\ p_leases q = p_leases q0).
  { intros k' q Hq. destruct (decide (k' = k)) as [->|]; [|rewrite lookup_insert_ne in Hq by done; by exists q].
    rewrite lookup_insert_eq in Hq. injection Hq as <-. by exists p. }
  assert (Hm' : forall k' q, m !! k' = Some q -> exists q', <[k := p']> m !! k' = Some q' /\ p_dir q' = p_dir q /\ p_leases q' = p_leases q).
  { intros k' q Hq. destruct (decide (k' = k)) as [->|]; [|rewrite lookup_insert_ne by done; by exists q].
    rewrite lookup_insert_eq. assert (q = p) as -> by congruence. by exists p'. }
  destruct HI. constructor.
  - intros k' q Hq. destruct (decide (k' = k)) as [->|Hne].
    + rewrite lookup_insert_eq in Hq. injection Hq as <-. eexists. rewrite lookup_insert_eq. split; [done|].
      constructor; cbn; try done; try congruence; [lia|by eapply state_le_trans].
    + rewrite lookup_insert_ne in Hq by done. rewrite lookup_insert_ne by done. by apply Hother.
  - intros k' q Hq. rewrite fr_removed in Hq. destruct (iv_removed0 k' q Hq) as (Hn&a'&Ha2&Hrm).
    assert (k' <> k) by congruence. rewrite !lookup_insert_ne by done. split; [done|]. by exists a'.
  - intros k' Hk'. rewrite fr_removed. destruct (decide (k' = k)) as [->|Hne]; [left; rewrite lookup_insert_eq; by eexists|].
    rewrite lookup_insert_ne in Hk' by done. rewrite (lookup_insert_ne m) by done. by apply iv_streams0.
  - intros f c Hc. destruct (decide (f.1 = p_dir p)) as [E|E].
    + exists k, p'. rewrite lookup_insert_eq. split; [done|congruence].
    + rewrite fr_disk in Hc by done. destruct (iv_files0 f c Hc) as (k'&q&Hq&Ef). destruct (Hm' k' q Hq) as (q'&Hq'&Ed&_).
      exists k', q'. split; [done|congruence].
  - intros id r' Hs Hcl. destruct (Hopen id r' Hs) as (r&Hs0&E1&E2&E3). rewrite E1 in Hcl. destruct (iv_readers0 id r Hs0 Hcl) as [HB (q&Hq&Hid)].
    rewrite E2, E3. split; [done|]. destruct (Hm' _ q Hq) as (q'&Hq'&_&El). exists q'. split; [done|]. by rewrite El.
  - intros id b Hb. destruct (iv_cursors0 id b Hb) as (r&Hs&Hcl). destruct (Hopen' id r Hs) as (r'&Hs'&E&_). exists r'. split; [done|congruence].
  - intros k' q id Hq Hid. destruct (Hm k' q Hq) as (q0&Hq0&_&El). rewrite El in Hid. destruct (iv_leases0 k' q0 id Hq0 Hid) as (r&Hs&Hcl&E).
    destruct (Hopen' id r Hs) as (r'&Hs'&E1&E2). exists r'. split_and!; [done|congruence..].
  - rewrite (total_insert p_readers k p p') by done. lia.
  - rewrite (total_insert p_accounted k p p') by done. lia.
  - rewrite (total_insert _ k p p') by done. lia.
  - rewrite (total_insert p_allocSegments k p p') by done. lia.
  - rewrite (total_insert _ k p p') by done. lia.
  - lia.
  - rewrite map_size_insert_Some by by eexists. done.
  - by rewrite fr_current.
Qed.

(** ** A partition in hand *)

Definition over (o : option Partition) (m : gmap Key Partition) : gmap Key Partition :=
  match o with Some p => <[p_key p := p]> m | None => m end.

Definition Held A B (o : option Partition) s : Prop :=
  Inv A B (over o (sp_partitions s)) s /\ forall p, o = Some p -> is_Some (sp_partitions s !! p_key p).

Lemma inv_same A B m s s' :
  sp_removed s' = sp_removed s -> sp_usedBytes s' = sp_usedBytes s -> sp_physicalParts s' = sp_physicalParts s ->
  sp_segmentCount s' = sp_segmentCount s -> sp_registrations s' = sp_registrations s -> sp_readerCount s' = sp_readerCount s ->
  sp_readers s' = sp_readers s -> sp_disk s' = sp_disk s -> sp_current s' = sp_current s -> Inv A B m s -> Inv A B m s'.
Proof.
  intros E1 E2 E3 E4 E5 E6 E7 E8 E9 []. constructor; rewrite ?E1, ?E2, ?E3, ?E4, ?E5, ?E6, ?E7, ?E8, ?E9; try done.
  intros k p Hk. destruct (iv_part0 k p Hk) as (a&Ha&[]). exists a. split; [done|]. constructor; rewrite ?E8; try done.
  intros id r. rewrite E7, E8. apply po_readers0.
Qed.

Lemma inv_bump A B m s : Inv A B m s -> Inv A B m (bump s).
Proof. by apply inv_same. Qed.

Lemma inv_key A B m s k p : Inv A B m s -> m !! k = Some p -> p_key p = k.
Proof. intros HI Hk. by destruct (iv_part _ _ _ _ HI k p Hk) as (a&_&[]). Qed.

Lemma held_take A B s k p : Held A B None s -> sp_partitions s !! k = Some p -> p_key p = k /\ Held A B (Some p) s.
Proof.
  intros [HI _] Hk. pose proof (inv_key _ _ _ _ _ _ HI Hk) as E. split; [done|]. split; cbn; [|intros ? [= <-]; rewrite E; by eexists].
  rewrite E, insert_id by done. done.
Qed.

Lemma held_local A B p s : Held A B (Some p) s -> exists a, A !! p_key p = Some a /\ part_ok (p_key p) a p s /\ Local cfg p s (st_log a) p s.
Proof.
  intros [HI _]. cbn in HI. assert (Hk : <[p_key p := p]> (sp_partitions s) !! p_key p = Some p) by apply lookup_insert_eq.
  destruct (iv_part _ _ _ _ HI _ _ Hk) as (a&Ha&Hp). exists a. split_and!; [done|done|]. by eapply inv_local.
Qed.

Lemma held_append A B p s a l' p' s' :
  Held A B (Some p) s -> A !! p_key p = Some a -> Local cfg p s l' p' s' -> Ready p' ->
  Held (<[p_key p := MkStream l' (st_low a) (st_state a)]> A) B (Some p') s'.
Proof.
  intros [HI Hk] Ha HL Hr. pose proof HL as [[] _ _]. cbn in HI. split; cbn.
  - rewrite fr_key, fr_partitions. rewrite <- (insert_insert_eq (sp_partitions s) (p_key p) p' p). eapply inv_put; [done|apply lookup_insert_eq|done..].
  - intros q [= <-]. rewrite fr_key, fr_partitions. by apply Hk.
Qed.

Lemma held_step A B p s a p' s' :
  Held A B (Some p) s -> A !! p_key p = Some a -> Local cfg p s (st_log a) p' s' -> Ready p' -> Held A B (Some p') s'.
Proof.
  intros HH Ha HL Hr. pose proof (held_append _ _ _ _ _ _ _ _ HH Ha HL Hr) as H'. destruct a. cbn in H'. by rewrite insert_id in H'.
Qed.

Lemma put_object_registered p s : is_Some (sp_partitions s !! p_key p) -> put_object p s = set_sp_partitions (<[p_key p := p]> (sp_partitions s)) s.
Proof. intros [q Hq]. unfold put_object. by rewrite Hq. Qed.

Lemma held_give A B p s : Held A B (Some p) s -> Held A B None (put_object p s).
Proof. intros [HI Hk]. rewrite put_object_registered by by apply Hk. split; [|done]. cbn in *. by apply (inv_same _ _ _ s). Qed.

(** Steps of another partition. *)
Lemma held_other A B o s k q a q' s' :
  Held A B o s -> sp_partitions s !! k = Some q -> (forall p, o = Some p -> p_key p <> k) -> A !! k = Some a ->
  Local cfg q s (st_log a) q' s' -> Ready q' -> Held A B o (put_object q' s') /\ (forall k', k' <> k -> sp_partitions (put_object q' s') !! k' = sp_partitions s !! k').
Proof.
  intros [HI Hk] Hq Hne Ha HL Hr. pose proof HL as [[] _ _].
  assert (Hm : over o (sp_partitions s) !! k = Some q) by (destruct o; cbn; [rewrite lookup_insert_ne by by apply Hne|]; done).
  pose proof (inv_key _ _ _ _ _ _ HI Hm) as E. rewrite put_object_registered by (rewrite fr_partitions, fr_key, E; by eexists).
  rewrite fr_partitions, fr_key, E. cbn. split; [split; cbn|].
  - replace (over o (<[k := q']> (sp_partitions s))) with (<[k := q']> (over o (sp_partitions s))).
    + pose proof (inv_put _ _ _ _ _ _ _ _ _ _ HI Hm Ha HL Hr) as HP. destruct a. cbn in HP. rewrite insert_id in HP by done. by apply (inv_same _ _ _ s').
    + destruct o as [p|]; cbn; [|done]. rewrite insert_insert_ne; [done|]. intros ->. by apply (Hne p).
  - intros p Ho. destruct (decide (p_key p = k)) as [->|]; [rewrite lookup_insert_eq; by eexists|]. rewrite lookup_insert_ne by done. by apply Hk.
  - intros k' Hk'. by rewrite lookup_insert_ne.
Qed.

(** The object of a key, when it is not in hand. *)
Lemma object_registered k s p : sp_partitions s !! k = Some p -> object k s = Some p.
Proof. intros Hk. unfold object. by rewrite Hk. Qed.

Lemma object_removed A B o s k p : Held A B o s -> sp_partitions s !! k = None -> object k s = Some p -> p_state p = StateStoreClosed /\ put_object p s = s.
Proof.
  intros [HI _] Hn Hk. unfold object in Hk. rewrite Hn in Hk. destruct (iv_removed _ _ _ _ HI k p Hk) as (_&a&_&[]). split; [done|].
  unfold put_object. rewrite ro_key0, Hn. rewrite insert_id by done. by destruct s.
Qed.

(** ** Removing a partition *)

Definition gone (k : Key) (p : Partition) (s : Spool) : Spool :=
  MkSpool (sp_closed s) (delete k (sp_partitions s)) (<[k := set_p_state StateStoreClosed (set_p_writerActive false p)]> (sp_removed s))
    (if bool_decide (sp_current s !! logical k = Some k) then delete (logical k) (sp_current s) else sp_current s)
    (sp_usedBytes s - p_accounted p) (sp_physicalParts s - flag (p_physical p)) (sp_segmentCount s - p_allocSegments p)
    (sp_registrations s - flag (p_writerActive p)) (sp_readerCount s) (sp_readers s) (sp_disk s) (sp_tick s).

Lemma inv_gone A B m s k p :
  Inv A B m s -> m !! k = Some p -> p_readers p = 0 -> (forall f, f.1 = p_dir p -> sp_disk s !! f = None) ->
  Inv A B (delete k m) (gone k p s).
Proof.
  intros HI Hk Hr Hd. destruct (iv_part _ _ _ _ HI k p Hk) as (a&Ha&[]). destruct (wf_nonneg _ _ _ po_wf0).
  assert (Hl : p_leases p = ∅) by (apply leibniz_equiv, size_empty_iff; lia).
  assert (Hm : forall k' q, delete k m !! k' = Some q -> k' <> k /\ m !! k' = Some q) by (intros k' q [? ?]%lookup_delete_Some; done).
  destruct HI. constructor; cbn.
  - intros k' q Hq. apply Hm in Hq as [_ Hq]. destruct (iv_part0 k' q Hq) as (a'&Ha'&Hq'). exists a'. split; [done|]. by destruct Hq'.
  - intros k' q Hq. destruct (decide (k' = k)) as [->|Hne].
    + rewrite lookup_insert_eq in Hq. injection Hq as <-. split; [apply lookup_delete_eq|]. exists a. split; [done|].
      destruct po_wf0. pose proof (chain_le _ _ _ _ _ _ _ wf_chain). constructor; cbn; try done; lia.
    + rewrite lookup_insert_ne in Hq by done. destruct (iv_removed0 k' q Hq) as (Hn&Hx). split; [|done]. rewrite lookup_delete_None. by right.
  - intros k' Hk'. destruct (decide (k' = k)) as [->|Hne]; [right; rewrite lookup_insert_eq; by eexists|].
    rewrite lookup_delete_ne, lookup_insert_ne by done. by apply iv_streams0.
  - intros f c Hc. destruct (iv_files0 f c Hc) as (k'&q&Hq&E). exists k', q. split; [|done]. rewrite lookup_delete_ne; [done|].
    intros ->. assert (q = p) as -> by congruence. rewrite Hd in Hc by done. done.
  - intros id r Hs Hcl. destruct (iv_readers0 id r Hs Hcl) as (HB&q&Hq&Hid). split; [done|]. exists q. split; [|done]. rewrite lookup_delete_ne; [done|].
    intros E. rewrite <- E in Hq. assert (q = p) as -> by congruence. rewrite Hl in Hid. set_solver.
  - done.
  - intros k' q id Hq. apply Hm in Hq as [_ Hq]. by apply iv_leases0.
  - rewrite (total_delete p_readers k p) by done. lia.
  - rewrite (total_delete p_accounted k p) by done. lia.
  - rewrite (total_delete _ k p) by done. lia.
  - rewrite (total_delete p_allocSegments k p) by done. lia.
  - rewrite (total_delete _ k p) by done. lia.
  - pose proof (flag_nonneg (p_physical p)). pose proof (flag_nonneg (p_writerActive p)). lia.
  - rewrite map_size_delete_Some by by eexists. lia.
  - intros l k' Hlk. case_bool_decide; [|by apply iv_current0]. apply lookup_delete_Some in Hlk as [_ Hlk]. by apply iv_current0.
Qed.

Lemma over_delete (o : option Partition) k m : (forall p, o = Some p -> p_key p <> k) -> over o (delete k m) = delete k (over o m).
Proof. intros Ho. destruct o as [p|]; [|done]. cbn. rewrite delete_insert_ne; [done|]. intros E. by apply (Ho p). Qed.

Lemma over_lookup (o : option Partition) k m : (forall p, o = Some p -> p_key p <> k) -> over o m !! k = m !! k.
Proof. intros Ho. destruct o as [p|]; [|done]. cbn. by rewrite lookup_insert_ne by by apply Ho. Qed.

Lemma release_used n s : 0 <= n <= sp_usedBytes s ->
  (if 0 <? n then set_sp_usedBytes (saturating_sub (sp_usedBytes s) n) s else s) = set_sp_usedBytes (sp_usedBytes s - n) s.
Proof.
  intros H. unfold saturating_sub. destruct (0 <? n) eqn:E; [by rewrite Z.min_r by lia|]. apply Z.ltb_ge in E.
  assert (n = 0) as -> by lia. destruct s. cbn. by rewrite Z.sub_0_r.
Qed.

Lemma release_segs n s : 0 <= n <= sp_segmentCount s ->
  (if 0 <? n then set_sp_segmentCount (saturating_sub (sp_segmentCount s) n) s else s) = set_sp_segmentCount (sp_segmentCount s - n) s.
Proof.
  intros H. unfold saturating_sub. destruct (0 <? n) eqn:E; [by rewrite Z.min_r by lia|]. apply Z.ltb_ge in E.
  assert (n = 0) as -> by lia. destruct s. cbn. by rewrite Z.sub_0_r.
Qed.

Lemma release_part b s : flag b <= sp_physicalParts s ->
  (if b && (0 <? sp_physicalParts s) then set_sp_physicalParts (sp_physicalParts s - 1) s else s) = set_sp_physicalParts (sp_physicalParts s - flag b) s.
Proof. intros H. destruct b; cbn in *; [by rewrite (proj2 (Z.ltb_lt _ _)) by lia|]. destruct s. cbn. by rewrite Z.sub_0_r. Qed.

Lemma release_reg b s : flag b <= sp_registrations s ->
  (if b && (0 <? sp_registrations s) then set_sp_registrations (sp_registrations s - 1) s else s) = set_sp_registrations (sp_registrations s - flag b) s.
Proof. intros H. destruct b; cbn in *; [by rewrite (proj2 (Z.ltb_lt _ _)) by lia|]. destruct s. cbn. by rewrite Z.sub_0_r. Qed.

Lemma held_remove A B o s k e s' :
  removePartitionLocked io k s = (e, s') -> Held A B o s -> (forall p, o = Some p -> p_key p <> k) ->
  Held A B o s' /\ (forall k', k' <> k -> sp_partitions s' !! k' = sp_partitions s !! k').
Proof.
  unfold removePartitionLocked. intros E HH Ho. destruct (object k s) as [p|] eqn:Hob; [|by injection E as <- <-].
  case_bool_decide as Hst; [by injection E as <- <-|]. destruct (_ || _) eqn:Hb; [by injection E as <- <-|].
  apply orb_false_elim in Hb as [Hr0 Hw]. apply Z.ltb_ge in Hr0. apply bool_decide_eq_false in Hw.
  destruct (sp_partitions s !! k) as [p'|] eqn:Hk; [|by destruct (object_removed _ _ _ _ _ _ HH Hk Hob)].
  rewrite (object_registered _ _ _ Hk) in Hob. injection Hob as ->. pose proof HH as [HI Hin].
  assert (Hm : over o (sp_partitions s) !! k = Some p) by (by rewrite over_lookup).
  destruct (iv_part _ _ _ _ HI k p Hm) as (a&Ha&[]). pose proof (inv_local _ _ _ _ _ _ _ HI Hm Ha) as HL.
  assert (Hact : p_active p = None) by (destruct (p_active p) eqn:Hpa; [|done]; destruct po_wf0, (wf_active _ Hpa); done).
  unfold close_active in E. rewrite Hact in E.
  assert (Hl : p_leases p = ∅) by (apply leibniz_equiv, size_empty_iff; lia).
  assert (HU : exists ok s1, (if p_physical p then removeManagedPartition io (p_dir p) s else (true, s)) = (ok, s1) /\ Local cfg p s (st_log a) p s1
    /\ (ok = true -> forall f, f.1 = p_dir p -> sp_disk s1 !! f = None)).
  { destruct (p_physical p) eqn:Hp.
    - destruct (removeManagedPartition io (p_dir p) s) as [ok s1] eqn:E1. exists ok, s1. split; [done|].
      destruct (local_unlink _ _ _ _ _ _ _ _ _ E1 HL Hact) as (?&_&?); [intros id r Hid; rewrite Hl in Hid; set_solver|done].
    - exists true, s. split_and!; [done|done|]. intros _. destruct po_wf0. by destruct (wf_physical Hp) as (_&_&?). }
  destruct HU as (ok&s1&E1&HL1&Hd). rewrite E1 in E. clear E1. destruct ok; cbn [negb] in E.
  2: { injection E as <- <-. by eapply held_other. }
  pose proof (inv_put _ _ _ _ _ _ _ _ _ _ HI Hm Ha HL1 po_ready0) as HI1. destruct a as [l low st]. cbn in HI1. rewrite !insert_id in HI1 by done.
  pose proof HL1 as [[] Hwf _]. destruct (wf_nonneg _ _ _ Hwf). rewrite fr_partitions, Hk in E. rewrite bool_decide_eq_false_2 in E by done.
  injection E as <- <-. specialize (Hd eq_refl). pose proof (inv_gone _ _ _ _ _ _ HI1 Hm) as HG.
  match goal with |- Held _ _ _ ?s2 /\ _ => assert (Hs2 : s2 = gone k p s1) end.
  { unfold gone. rewrite fr_partitions. destruct (bool_decide (_ = Some k)).
    all: rewrite release_used, release_part, release_segs, release_reg by (cbn; lia); reflexivity. }
  rewrite Hs2. split; [split|].
  - cbn. rewrite over_delete by done. rewrite fr_partitions. apply HG; [lia|done].
  - intros q Hq. cbn. rewrite lookup_delete_ne by (intros E; by apply (Ho q)). rewrite fr_partitions. by apply Hin.
  - intros k' Hk'. cbn. rewrite lookup_delete_ne by done. by rewrite fr_partitions.
Qed.

(** ** Making room and appending *)

Lemma candidates_ne p walk s k : k ∈ candidates p walk s -> k <> p_key p.
Proof.
  unfold candidates. intros Hk. apply list_elem_of_fmap in Hk as ([k' at']&->&Hk). rewrite merge_sort_Permutation in Hk.
  apply list_elem_of_bind in Hk as (k1&Hin&_). cbn. destruct (sp_partitions s !! k1) as [other|]; [|by apply elem_of_nil in Hin].
  destruct (_ && _) eqn:E; [|by apply elem_of_nil in Hin]. apply list_elem_of_singleton in Hin. injection Hin as -> ->.
  repeat (apply andb_prop in E as [E _]). apply negb_true_iff in E. by apply bool_decide_eq_false in E.
Qed.

Lemma held_reclaim A B bytes p keys s res s' :
  reclaim cfg io bytes p keys s = (res, s') -> Held A B (Some p) s -> (forall k, k ∈ keys -> k <> p_key p) -> Held A B (Some p) s'.
Proof.
  revert s. induction keys as [|k keys IH]; intros s E HH Hne; cbn [reclaim] in E; [by injection E as <- <-|].
  assert (Hne' : forall k, k ∈ keys -> k <> p_key p) by (intros; apply Hne; by right).
  assert (Ho : forall q, Some p = Some q -> p_key q <> k) by (intros q [= <-] E'; apply (Hne k); [left|done]).
  destruct (object k s) as [other|] eqn:Hob; [|by eapply IH]. case_bool_decide as Hst; [by eapply IH|].
  destruct (sp_partitions s !! k) as [other'|] eqn:Hk; [|by destruct (object_removed _ _ _ _ _ _ HH Hk Hob)].
  rewrite (object_registered _ _ _ Hk) in Hob. injection Hob as ->. pose proof HH as [HI _].
  assert (Hm : over (Some p) (sp_partitions s) !! k = Some other) by (by rewrite over_lookup).
  destruct (iv_part _ _ _ _ HI k other Hm) as (a&Ha&[]). pose proof (inv_local _ _ _ _ _ _ _ HI Hm Ha) as HL.
  destruct (discard_until cfg io _ _ other s) as [e1 [other1 s1]] eqn:E1. destruct (local_discard_until _ _ Hcfg _ _ _ _ _ _ _ _ _ _ E1 HL) as (HL1&[_ Hk1]&_).
  pose proof (held_other _ _ _ _ _ _ _ _ _ HH Hk Ho Ha HL1 (Hk1 po_ready0)) as [H2 _].
  destruct e1 as [e1|]; [by injection E as <- <-|]. set (s2 := put_object other1 s1) in *.
  assert (H3 : forall s3, s3 = (if negb (p_writerActive other1) && (p_readers other1 =? 0) then snd (removePartitionLocked io k s2) else s2) -> Held A B (Some p) s3).
  { intros s3 ->. destruct (_ && _); [|done]. destruct (removePartitionLocked io k s2) as [e3 s3] eqn:E3. by eapply held_remove. }
  specialize (H3 _ eq_refl). destruct (fits_store _ _ _ _); [by injection E as <- <-|by eapply IH].
Qed.

Lemma held_discard A B p s fits fuel e p' s' :
  discard_until cfg io fits fuel p s = (e, (p', s')) -> Held A B (Some p) s -> Held A B (Some p') s' /\ p_key p' = p_key p /\ p_state p' = p_state p.
Proof.
  intros E HH. destruct (held_local _ _ _ _ HH) as (a&Ha&[]&HL). destruct (local_discard_until _ _ Hcfg _ _ _ _ _ _ _ _ _ _ E HL) as (HL1&[Hs Hk]&_).
  split_and!; [by eapply held_step; eauto|by destruct HL1 as [[] _ _]|done].
Qed.

Lemma held_make_room A B bytes walk p s e p' s' :
  makeRoomLocked cfg io bytes walk p s = (e, (p', s')) -> Held A B (Some p) s -> Held A B (Some p') s' /\ p_key p' = p_key p /\ p_state p' = p_state p.
Proof.
  unfold makeRoomLocked. intros E HH. destruct (discard_until cfg io (fits_stream cfg bytes) _ p s) as [e1 [p1 s1]] eqn:E1.
  destruct (held_discard _ _ _ _ _ _ _ _ _ E1 HH) as (H1&Hk1&Hs1). destruct e1; [by injection E as <- <- <-|].
  destruct (negb _); [by injection E as <- <- <-|]. destruct (fits_store _ _ _ _); [by injection E as <- <- <-|].
  destruct (reclaim cfg io bytes p1 _ s1) as [res s2] eqn:E2.
  assert (H2 : Held A B (Some p1) s2) by (eapply held_reclaim; [done|done|]; apply candidates_ne).
  destruct res as [[]|]; [by injection E as <- <- <-| |by injection E as <- <- <-].
  destruct (discard_until cfg io (fits_store cfg bytes) _ p1 s2) as [e3 [p3 s3]] eqn:E3.
  destruct (held_discard _ _ _ _ _ _ _ _ _ E3 H2) as (H3&Hk3&Hs3). destruct e3; [injection E as <- <- <-|injection E as _ <- <-]; split_and!; (done || congruence).
Qed.

Lemma stopped_ready p : p_state p = StatePoisoned \/ p_state p = StateStoreClosed -> Ready p.
Proof. intros Hs. split; [intros [Hw|Hw]|intros Hw]; destruct Hs; congruence. Qed.

Lemma held_poison A B p s p' s' : poisonLocked io clock p s = (p', s') -> Held A B (Some p) s ->
  Held A B (Some p') s' /\ p_key p' = p_key p /\ (p_state p' = StatePoisoned \/ p_state p' = StateStoreClosed).
Proof.
  intros E HH. destruct (held_local _ _ _ _ HH) as (a&Ha&[]&HL). destruct (local_poison_now _ _ _ _ _ _ _ _ _ _ E HL) as [HL1 Hs].
  split_and!; [eapply held_step; [done|done|done|by apply stopped_ready]|by destruct HL1 as [[] _ _]|done].
Qed.

(** A batch: the prefix [take n records] got into the log; all of it, or the stream stops. *)
Definition grown (a : Stream) (rs : list SpoolRecord) : Stream := MkStream (st_log a ++ stamp (high (st_log a)) rs) (st_low a) (st_state a).

Lemma grown_grown a rs rs' : grown (grown a rs) rs' = grown a (rs ++ rs').
Proof.
  unfold grown. cbn. rewrite stamp_app, (assoc_L (++)). do 3 f_equal. unfold high. rewrite length_app, stamp_length. lia.
Qed.

Lemma grown_nil a : grown a [] = a.
Proof. unfold grown. cbn. rewrite app_nil_r. by destruct a. Qed.

Lemma held_append_loop A B fuel records walk p s a e p' s' :
  append_loop cfg io clock fuel records walk p s = (e, (p', s')) -> Held A B (Some p) s -> A !! p_key p = Some a -> writable (p_state p) ->
  Forall typed records -> high (st_log a) + Z.of_nat (length records) < u64_modulus -> (length records <= fuel)%nat ->
  p_key p' = p_key p /\ exists n, (n <= length records)%nat /\ Held (<[p_key p := grown a (take n records)]> A) B (Some p') s' /\
  match e with None => n = length records | Some _ => p_state p' = StatePoisoned \/ p_state p' = StateStoreClosed end.
Proof.
  revert A a records p s. induction fuel as [|fuel IH]; intros A a records p s E HH Ha Hw Ht Hh Hf.
  - assert (records = []) as -> by (apply nil_length_inv; lia). injection E as <- <- <-. split; [done|]. exists 0%nat.
    cbn. rewrite grown_nil, insert_id by done. by split_and!.
  - destruct (decide (records = [])) as [->|Hne].
    { injection E as <- <- <-. split; [done|]. exists 0%nat. cbn. rewrite grown_nil, insert_id by done. by split_and!. }
    destruct (held_local _ _ _ _ HH) as (a'&Ha'&[]&HL). assert (a' = a) as -> by congruence. pose proof (wf_high _ _ _ _ po_wf0) as Hhigh.
    assert (E' : append_loop cfg io clock (S fuel) records walk p s =
      match encode_chunk cfg (match p_active p with None => SegmentBytes cfg - Z.of_nat segmentHeaderSize | Some _ => SegmentBytes cfg - p_activeBytes p end) (p_high p) [] 0 records with
      | Fail e => (Some e, poisonLocked io clock p s)
      | Ok (encoded, count) =>
        match appendEncodedLocked cfg io clock encoded (Z.of_nat count) walk p s with
        | (Fail e, ps) => (Some e, ps)
        | (Ok _, (p, s)) => append_loop cfg io clock fuel (drop count records) walk p s
        end
      end) by (by destruct records). rewrite E' in E. clear E'.
    assert (Hstop : forall e1 p1 s1, poisonLocked io clock p1 s1 = (p', s') -> Held A B (Some p1) s1 -> p_key p1 = p_key p -> e = Some e1 ->
      p_key p' = p_key p /\ exists n, (n <= length records)%nat /\ Held (<[p_key p := grown a (take n records)]> A) B (Some p') s' /\
      match e with None => n = length records | Some _ => p_state p' = StatePoisoned \/ p_state p' = StateStoreClosed end).
    { intros e1 p1 s1 Ep H1 Hk1 ->. destruct (held_poison _ _ _ _ _ _ Ep H1) as (H2&Hk2&Hs2). split; [congruence|]. exists 0%nat.
      cbn. rewrite grown_nil, insert_id by done. split_and!; [lia|done|done]. }
    destruct (encode_chunk _ _ _ _ _ _) as [[encoded count]|e1] eqn:E1; [|injection E as <- E; by eapply Hstop].
    apply encode_chunk_ok in E1 as (k&->&Hk&Hpos&->&Hfit). cbn [Nat.add app] in E. specialize (Hpos Hne eq_refl).
    rewrite Z.add_0_r, Hhigh in E. unfold appendEncodedLocked in E.
    destruct (makeRoomLocked _ _ _ _ p s) as [e2 [p2 s2]] eqn:E2. destruct (held_make_room _ _ _ _ _ _ _ _ _ E2 HH) as (H2&Hk2&Hs2).
    destruct e2 as [e2|]; [injection E as <- E; by eapply Hstop|].
    rewrite <- Hk2 in Ha. destruct (held_local _ _ _ _ H2) as (a'&Ha2&[]&HL2). assert (a' = a) as -> by congruence.
    set (rs := take k records) in *. assert (Hlen : length rs = k) by (unfold rs; rewrite length_take; lia). rewrite <- Hlen in E.
    destruct (append_reserved _ _ _ _ _ p2 s2) as [res [p3 s3]] eqn:E3.
    assert (Happ : appended cfg p2 s2 (st_log a) rs res p3 s3).
    { eapply local_append_reserved; try done; [by rewrite Hs2|intros Hr; rewrite Hr in Hlen; cbn in Hlen; lia|by apply Forall_take|lia]. }
    destruct res as [off|e3]; cbn in Happ.
    + destruct Happ as (_&HL3&Hr3&Hs3). pose proof (held_append _ _ _ _ _ _ _ _ H2 Ha HL3 Hr3) as H3. rewrite Hk2 in H3.
      assert (Hk3 : p_key p3 = p_key p) by (destruct HL3 as [[] _ _]; congruence).
      change (MkStream _ _ _) with (grown a rs) in H3.
      destruct (IH (<[p_key p := grown a rs]> A) (grown a rs) (drop (length rs) records) p3 s3) as (Hk'&n&Hn&H4&He); try done.
      * rewrite Hk3. apply lookup_insert_eq.
      * by right.
      * by apply Forall_drop.
      * cbn. unfold high in *. rewrite length_app, stamp_length, length_drop. lia.
      * rewrite length_drop. lia.
      * split; [congruence|]. rewrite length_drop in Hn. exists (k + n)%nat. rewrite Hk3, insert_insert_eq, grown_grown, Hlen in H4.
        unfold rs in H4. rewrite take_take_drop in H4. split_and!; [lia|done|]. destruct e; [done|]. rewrite length_drop in He. lia.
    + destruct Happ as [HL3 Hs3]. injection E as <- <- <-. assert (Hk3 : p_key p3 = p_key p) by (destruct HL3 as [[] _ _]; congruence).
      split; [done|]. exists 0%nat. cbn. rewrite grown_nil, insert_id by by rewrite <- Hk2. split_and!; [lia| |done].
      eapply held_step; [done|done|done|by apply stopped_ready].
Qed.
End Inv.
