(* ===== verification/SpoolSpec.v ===== *)
(** * The stream spool: what it promises

    A stream is an append-only log with a rising low mark and a state that
    only moves on; a reader is an offset in one stream.  [op_step] says what
    each operation of the store may do to them and answer: an append adds its
    records, or a prefix of them when it fails and stops the stream; a reader
    gets the record at its offset, waits at the end of a stream that takes
    records, and otherwise learns why there is none.  Between operations the
    cache may only forget the oldest records and stop streams ([evolve]). *)

From Stdlib Require Import ZArith Lia Ascii String.
From stdpp Require Import base option strings list gmap sets sorting.
From S2P Require Import Prelude GoStrings GoText SpoolFormat SpoolStore SpoolFacts SpoolChain SpoolLocal SpoolAppend SpoolInv.

Open Scope list_scope.
Open Scope Z_scope.

(** ** Operations and their answers *)

Inductive Op : Type :=
| OpRegister (cancelled : bool) (l : LogicalKey) (originComplete unpublished : bool) (incarnation : option (list Z))
| OpPublish (cancelled : bool) (k : Key)
| OpAppend (cancelled : bool) (k : Key) (records : list SpoolRecord) (walk : list Key)
| OpFinishEmpty (cancelled : bool) (k : Key)
| OpSeal (cancelled : bool) (k : Key)
| OpInvalidate (k : Key)
| OpWriterBounds (cancelled : bool) (k : Key)
| OpBounds (cancelled : bool) (k : Key)
| OpResolve (cancelled : bool) (l : LogicalKey)
| OpReader (cancelled : bool) (k : Key) (offset : Z)
| OpNext (id : nat)
| OpCloseReader (id : nat)
| OpRemove (cancelled : bool) (k : Key)
| OpCollect (cancelled : bool) (walk : list Key)
| OpClose.

Inductive Out : Type :=
| OutKey (r : result StoreError Key)
| OutAppend (start : Z) (e : option StoreError)
| OutError (e : option StoreError)
| OutBounds (r : result StoreError Bounds)
| OutResolve (r : result StoreError (Key * Bounds))
| OutReader (r : result StoreError nat)
| OutNext (r : NextResult)
| OutErrors (es : list StoreError).

(** One operation of the store. *)
Definition exec (cfg : Config) (io : nat -> IoOutcome) (clock : nat -> Z) (epoch : list Z) (op : Op) (s : Spool) : Out * Spool :=
  match op with
  | OpRegister c l oc unpublished i => let '(r, s) := Register cfg clock epoch c l oc unpublished i s in (OutKey r, s)
  | OpPublish c k => let '(e, s) := Publish io clock c k s in (OutError e, s)
  | OpAppend c k records walk => let '(start, e, s) := AppendBatch cfg io clock c k records walk s in (OutAppend start e, s)
  | OpFinishEmpty c k => let '(e, s) := FinishEmpty io clock c k s in (OutError e, s)
  | OpSeal c k => let '(e, s) := Seal io clock c k s in (OutError e, s)
  | OpInvalidate k => let '(e, s) := Invalidate io clock k s in (OutError e, s)
  | OpWriterBounds c k => (OutBounds (WriterBounds c k s), s)
  | OpBounds c k => (OutBounds (StoreBounds c k s), s)
  | OpResolve c l => (OutResolve (Resolve c l s), s)
  | OpReader c k offset => let '(r, s) := OpenReader cfg c k offset s in (OutReader r, s)
  | OpNext id => let '(r, s) := Next cfg io id s in (OutNext r, s)
  | OpCloseReader id => (OutError None, CloseReader io id s)
  | OpRemove c k => let '(e, s) := Remove io c k s in (OutError e, s)
  | OpCollect c walk => let '(es, s) := Collect cfg io clock c walk s in (OutErrors es, s)
  | OpClose => (OutError None, Close s)
  end.

Fixpoint exec_all (cfg : Config) (io : nat -> IoOutcome) (clock : nat -> Z) (epoch : list Z) (ops : list Op) (s : Spool) : list (Op * Out) * Spool :=
  match ops with
  | [] => ([], s)
  | op :: ops =>
    let '(out, s) := exec cfg io clock epoch op s in
    let '(trace, s) := exec_all cfg io clock epoch ops s in ((op, out) :: trace, s)
  end.

(** ** The specification *)

Definition evolve (A A' : Streams) : Prop :=
  (forall k, is_Some (A' !! k) -> is_Some (A !! k)) /\
  forall k a, A !! k = Some a -> exists a', A' !! k = Some a' /\ st_log a' = st_log a
    /\ st_low a <= st_low a' <= high (st_log a) /\ state_le (st_state a) (st_state a').

Definition with_state (a : Stream) (st : State) : Stream := MkStream (st_log a) (st_low a) st.
Definition matches (b : Bounds) (a : Stream) : Prop := b_Low b = st_low a /\ b_High b = high (st_log a) /\ b_State b = st_state a.
Definition terminal_of (a : Stream) : State := if decide (st_log a = []) then StateEmptyTerminal else StateSealed.

(** Why [Next] has no record. *)
Definition no_record (a : Stream) (offset : Z) (e : StoreError) : Prop :=
  (e = ErrExpired /\ offset < st_low a)
  \/ (e = stateError (st_state a) /\ offset = high (st_log a) /\ ~ writable (st_state a))
  \/ (e = ErrIO /\ st_low a <= offset < high (st_log a)).

Inductive op_step (A : Streams) (B : Cursors) : Op -> Out -> Streams -> Cursors -> Prop :=
| step_register c l oc unpublished i k :
    A !! k = None -> logical k = l -> Incarnation k = i ->
    op_step A B (OpRegister c l oc unpublished (Some i)) (OutKey (Ok k)) (<[k := MkStream [] 0 StatePending]> A) B
| step_register_fail c l oc unpublished i e : op_step A B (OpRegister c l oc unpublished i) (OutKey (Fail e)) A B
| step_append c k records walk a :
    A !! k = Some a -> writable (st_state a) ->
    op_step A B (OpAppend c k records walk) (OutAppend (high (st_log a)) None) (<[k := grown a records]> A) B
| step_append_fail c k records walk a n e :
    A !! k = Some a -> writable (st_state a) -> (n <= length records)%nat ->
    op_step A B (OpAppend c k records walk) (OutAppend (high (st_log a)) (Some e)) (<[k := with_state (grown a (take n records)) StatePoisoned]> A) B
| step_append_refused c k records walk e :
    (c = true \/ forall a, A !! k = Some a -> ~ writable (st_state a)) ->
    op_step A B (OpAppend c k records walk) (OutAppend 0 (Some e)) A B
| step_finish_empty c k a :
    A !! k = Some a -> st_state a = StatePending -> st_log a = [] ->
    op_step A B (OpFinishEmpty c k) (OutError None) (<[k := with_state a StateEmptyTerminal]> A) B
| step_finish_open c k a : A !! k = Some a -> st_state a = StateOpen -> op_step A B (OpFinishEmpty c k) (OutError None) A B
| step_finish_fail c k e : op_step A B (OpFinishEmpty c k) (OutError (Some e)) A B
| step_seal c k a :
    A !! k = Some a -> writable (st_state a) ->
    op_step A B (OpSeal c k) (OutError None) (<[k := with_state a (terminal_of a)]> A) B
| step_sealed c k a : A !! k = Some a -> st_state a = StateSealed -> op_step A B (OpSeal c k) (OutError None) A B
| step_seal_fail c k e : op_step A B (OpSeal c k) (OutError (Some e)) A B
| step_invalidate k a :
    A !! k = Some a -> op_step A B (OpInvalidate k) (OutError None)
      (<[k := with_state a (if decide (st_state a = StateStoreClosed) then StateStoreClosed else StatePoisoned)]> A) B
| step_invalidate_fail k e : op_step A B (OpInvalidate k) (OutError (Some e)) A B
| step_writer_bounds c k a b : A !! k = Some a -> matches b a -> op_step A B (OpWriterBounds c k) (OutBounds (Ok b)) A B
| step_writer_bounds_fail c k e : op_step A B (OpWriterBounds c k) (OutBounds (Fail e)) A B
| step_bounds c k a b : A !! k = Some a -> matches b a -> op_step A B (OpBounds c k) (OutBounds (Ok b)) A B
| step_bounds_fail c k e : op_step A B (OpBounds c k) (OutBounds (Fail e)) A B
| step_resolve c l k a b : A !! k = Some a -> logical k = l -> matches b a -> op_step A B (OpResolve c l) (OutResolve (Ok (k, b))) A B
| step_resolve_fail c l e : op_step A B (OpResolve c l) (OutResolve (Fail e)) A B
| step_reader c k offset a id :
    A !! k = Some a -> st_low a <= offset <= high (st_log a) -> B !! id = None ->
    op_step A B (OpReader c k offset) (OutReader (Ok id)) A (<[id := (k, offset)]> B)
| step_reader_fail c k offset e :
    (e = ErrExpired -> exists a, A !! k = Some a /\ offset < st_low a) ->
    op_step A B (OpReader c k offset) (OutReader (Fail e)) A B
| step_next id k offset a r :
    B !! id = Some (k, offset) -> A !! k = Some a -> st_low a <= offset -> st_log a !! Z.to_nat offset = Some r ->
    op_step A B (OpNext id) (OutNext (Got r)) A (<[id := (k, offset + 1)]> B)
| step_wait id k a :
    B !! id = Some (k, high (st_log a)) -> A !! k = Some a -> writable (st_state a) -> op_step A B (OpNext id) (OutNext Wait) A B
| step_next_error id k offset a e :
    B !! id = Some (k, offset) -> A !! k = Some a -> no_record a offset e -> op_step A B (OpNext id) (OutNext (NextError e)) A B
| step_next_closed id e : B !! id = None -> op_step A B (OpNext id) (OutNext (NextError e)) A B
| step_close_reader id : op_step A B (OpCloseReader id) (OutError None) A (delete id B)
| step_publish c k e : op_step A B (OpPublish c k) (OutError e) A B
| step_remove c k e : op_step A B (OpRemove c k) (OutError e) A B
| step_collect c walk es : op_step A B (OpCollect c walk) (OutErrors es) A B
| step_close : op_step A B OpClose (OutError None) A B.

(** A run of the specification: the cache evolves before each operation, and at the end. *)
Inductive spec_run : Streams -> Cursors -> list (Op * Out) -> Streams -> Cursors -> Prop :=
| run_end A B A' : evolve A A' -> spec_run A B [] A' B
| run_step A B A1 op out A2 B2 trace A' B' :
    evolve A A1 -> op_step A1 B op out A2 B2 -> spec_run A2 B2 trace A' B' -> spec_run A B ((op, out) :: trace) A' B'.
