(* ===== verification/SpoolSim.v ===== *)
(** * The stream spool: the store does what the specification says

    One operation of [SpoolStore], from a store that satisfies the invariant of
    [SpoolInv] for the streams [A] and the readers [B], is one step of
    [SpoolSpec] from [A] and [B] to streams and readers for which the
    invariant holds again. *)

From Stdlib Require Import ZArith Lia Ascii String.
From stdpp Require Import base option strings list gmap sets sorting.
From S2P Require Import Prelude GoStrings GoText GoPath SpoolFormat SpoolStore SpoolFacts SpoolChain SpoolLocal SpoolAppend SpoolInv SpoolSpec.

Open Scope list_scope.
Open Scope Z_scope.

#[local] Arguments encodeSegmentHeader : simpl never.
#[local] Arguments segmentFilename : simpl never.
#[local] Arguments partitionRelativeDir : simpl never.

Section Sim.
Context (cfg : Config) (io : nat -> IoOutcome) (clock : nat -> Z) (epoch : list Z) (Hcfg : good_config cfg).
Implicit Types (A : Streams) (B : Cursors) (s : Spool).
Abbreviation Held := (Held cfg).
Abbreviation Inv := (Inv cfg).

(** ** The streams, exactly *)

(** The low marks and states of [A] are those of the store. *)
Definition exact A s : Prop := forall k p, object k s = Some p -> exists a, A !! k = Some a /\ st_low a = p_low p /\ st_state a = p_state p.

Lemma inv_relax A A' B m s :
  Inv A B m s -> (forall k, is_Some (A' !! k) -> is_Some (A !! k)) ->
  (forall k p a, m !! k = Some p \/ sp_removed s !! k = Some p -> A !! k = Some a ->
     exists a', A' !! k = Some a' /\ st_log a' = st_log a /\ st_low a' <= p_low p /\ state_le (st_state a') (p_state p)) ->
  Inv A' B m s.
Proof.
  intros [] Hd Ha. constructor; try done.
  - intros k p Hk. destruct (iv_part k p Hk) as (a&Hka&[]). destruct (Ha k p a (or_introl Hk) Hka) as (a'&Ha'&El&Hlow&Hst).
    exists a'. split; [done|]. constructor; rewrite ?El; done.
  - intros k p Hk. destruct (iv_removed k p Hk) as (Hn&a&Hka&[]). split; [done|]. destruct (Ha k p a (or_intror Hk) Hka) as (a'&Ha'&El&Hlow&Hst).
    exists a'. split; [done|]. constructor; rewrite ?El; try done. lia.
  - intros k Hk. apply iv_streams. by apply Hd.
Qed.

Lemma object_cases A B s k p : Held A B None s -> object k s = Some p ->
  p_key p = k /\ exists a, A !! k = Some a /\ p_high p = high (st_log a) /\ 0 <= p_low p <= p_high p /\ st_low a <= p_low p
    /\ state_le (st_state a) (p_state p) /\ log_ok (MaxRecordBytes cfg) (st_log a)
    /\ (sp_partitions s !! k = Some p \/ (sp_partitions s !! k = None /\ sp_removed s !! k = Some p /\ p_state p = StateStoreClosed)).
Proof.
  intros [HI _] Hk. cbn in HI. unfold object in Hk. destruct (sp_partitions s !! k) as [q|] eqn:Hp.
  - injection Hk as ->. destruct (iv_part _ _ _ _ _ HI k p Hp) as (a&Ha&[]). split; [done|]. exists a. pose proof po_wf as [].
    pose proof (chain_le _ _ _ _ _ _ _ wf_chain). split_and!; try done. by left.
  - destruct (iv_removed _ _ _ _ _ HI k p Hk) as (_&a&Ha&[]). split; [done|]. exists a. split_and!; try done; try apply ro_low; [|by right].
    rewrite ro_state. destruct (st_state a); [right..|left]; cbn; lia || done.
Qed.

Lemma object_none A B s k : Held A B None s -> object k s = None -> A !! k = None.
Proof.
  intros [HI _] Hk. cbn in HI. destruct (A !! k) as [a|] eqn:Ha; [|done]. destruct (iv_streams _ _ _ _ _ HI k) as [[p Hp]|[p Hp]]; [by eexists|..].
  - rewrite (object_registered _ _ _ Hp) in Hk. done.
  - unfold object in Hk. destruct (sp_partitions s !! k); congruence.
Qed.

Definition tightened A s : Streams :=
  map_imap (fun k a => Some (match object k s with Some p => MkStream (st_log a) (p_low p) (p_state p) | None => a end)) A.

Lemma tighten A B s : Held A B None s -> exists A', evolve A A' /\ Held A' B None s /\ exact A' s.
Proof.
  intros HH. exists (tightened A s).
  assert (Hl : forall k, tightened A s !! k = (fun a => match object k s with Some p => MkStream (st_log a) (p_low p) (p_state p) | None => a end) <$> A !! k).
  { intros k. unfold tightened. rewrite map_lookup_imap. by destruct (A !! k). }
  assert (Hob : forall k p, sp_partitions s !! k = Some p \/ sp_removed s !! k = Some p -> object k s = Some p).
  { intros k p [Hk|Hk]; [by apply object_registered|]. unfold object. destruct HH as [HI _]. cbn in HI.
    destruct (iv_removed _ _ _ _ _ HI k p Hk) as [-> _]. done. }
  split_and!.
  - split; [intros k; rewrite Hl, fmap_is_Some; done|]. intros k a Ha. rewrite Hl, Ha. cbn. eexists. split; [done|].
    destruct (object k s) as [p|] eqn:Hk.
    + destruct (object_cases _ _ _ _ _ HH Hk) as (_&a'&Ha'&Hh&Hlow&Hle&Hst&_). assert (a' = a) as -> by congruence. cbn. split_and!; [done|lia..|done].
    + by rewrite (object_none _ _ _ _ HH Hk) in Ha.
  - destruct HH as [HI Ho]. split; [|done]. eapply inv_relax; [done|intros k; rewrite Hl, fmap_is_Some; done|].
    intros k p a Hk Ha. rewrite Hl, Ha. cbn. rewrite (Hob k p Hk). eexists. split; [done|]. cbn. split_and!; [done|lia|by left].
  - intros k p Hk. destruct (object_cases _ _ _ _ _ HH Hk) as (_&a&Ha&_). rewrite Hl, Ha. cbn. rewrite Hk. by eexists.
Qed.

(** What the specification knows of an object. *)
Lemma exact_object A B s k p : Held A B None s -> exact A s -> object k s = Some p ->
  p_key p = k /\ exists a, A !! k = Some a /\ st_low a = p_low p /\ st_state a = p_state p /\ p_high p = high (st_log a)
    /\ (writable (p_state p) -> sp_partitions s !! k = Some p).
Proof.
  intros HH He Hk. destruct (object_cases _ _ _ _ _ HH Hk) as (E&a&Ha&Hh&_&_&_&_&Hc). split; [done|]. destruct (He k p Hk) as (a'&Ha'&El&Es).
  assert (a' = a) as -> by congruence. exists a. split_and!; try done. intros [Hw|Hw]; destruct Hc as [?|(_&_&Hc)]; congruence.
Qed.

Lemma exact_bounds A B s k p : Held A B None s -> exact A s -> object k s = Some p -> exists a, A !! k = Some a /\ matches (bounds p) a.
Proof.
  intros HH He Hk. destruct (exact_object _ _ _ _ _ HH He Hk) as (_&a&Ha&El&Es&Eh&_). exists a. split; [done|]. split_and!; cbn; congruence.
Qed.

(** A stream of which the state is known to have moved on. *)
Lemma held_with_state A B s k a st :
  Held A B None s -> A !! k = Some a -> (forall p, object k s = Some p -> state_le st (p_state p)) -> Held (<[k := with_state a st]> A) B None s.
Proof.
  intros HH Ha Hst. pose proof HH as [HI Ho]. split; [|done]. eapply inv_relax; [done| |].
  - intros k'. destruct (decide (k' = k)) as [->|]; [intros _; by eexists|by rewrite lookup_insert_ne].
  - intros k' p a' Hk' Ha'. assert (Hob : object k' s = Some p).
    { destruct Hk' as [Hk'|Hk']; [by apply object_registered|]. unfold object. cbn in HI. destruct (iv_removed _ _ _ _ _ HI k' p Hk') as [-> _]. done. }
    destruct (object_cases _ _ _ _ _ HH Hob) as (_&a1&Ha1&_&_&Hlow&Hle&_). assert (a1 = a') as -> by congruence.
    destruct (decide (k' = k)) as [->|].
    + rewrite lookup_insert_eq. assert (a' = a) as -> by congruence. eexists. split; [done|]. cbn. split_and!; [done|done|by apply Hst].
    + rewrite lookup_insert_ne by done. by exists a'.
Qed.

Lemma held_bump A B o s : Held A B o s -> Held A B o (bump s).
Proof. intros [HI Ho]. split; [by apply inv_bump|done]. Qed.

(** ** Queries *)

Lemma sim_writer_bounds A B s c k : Held A B None s -> exact A s -> op_step A B (OpWriterBounds c k) (OutBounds (WriterBounds c k s)) A B.
Proof.
  intros HH He. unfold WriterBounds. destruct (object k s) as [p|] eqn:Hk; [|constructor]. destruct c; [constructor|].
  destruct (exact_bounds _ _ _ _ _ HH He Hk) as (a&Ha&Hm). by econstructor.
Qed.

Lemma lookup_key_ok c k s p : lookup_key c k s = Ok p -> sp_partitions s !! k = Some p /\ sp_closed s = false /\ c = false.
Proof. unfold lookup_key. repeat case_match; naive_solver. Qed.

Lemma sim_bounds A B s c k : Held A B None s -> exact A s -> op_step A B (OpBounds c k) (OutBounds (StoreBounds c k s)) A B.
Proof.
  intros HH He. unfold StoreBounds. destruct (lookup_key c k s) as [p|e] eqn:Hk; cbn; [|constructor]. apply lookup_key_ok in Hk as (Hk&_).
  destruct (exact_bounds _ _ _ _ _ HH He (object_registered _ _ _ Hk)) as (a&Ha&Hm). by econstructor.
Qed.

Lemma sim_resolve A B s c l : Held A B None s -> exact A s -> op_step A B (OpResolve c l) (OutResolve (Resolve c l s)) A B.
Proof.
  intros HH He. unfold Resolve. destruct c; [constructor|]. destruct (sp_closed s); [constructor|].
  destruct (sp_current s !! l) as [k|] eqn:Hl; [|constructor]. destruct (sp_partitions s !! k) as [p|] eqn:Hk; [|constructor].
  destruct (exact_bounds _ _ _ _ _ HH He (object_registered _ _ _ Hk)) as (a&Ha&Hm). econstructor; [done| |done].
  destruct HH as [HI _]. by apply (iv_current _ _ _ _ _ HI).
Qed.

(** ** Writers *)

Lemma object_put p s : is_Some (sp_partitions s !! p_key p) -> object (p_key p) (put_object p s) = Some p.
Proof. intros Hk. rewrite put_object_registered by done. unfold object. cbn. by rewrite lookup_insert_eq. Qed.

(** The partition put back, in the state it has now. *)
Lemma held_put_state A B p s k a :
  Held A B (Some p) s -> p_key p = k -> A !! k = Some a -> Held (<[k := with_state a (p_state p)]> A) B None (put_object p s).
Proof.
  intros HH E Ha. eapply held_with_state; [by apply held_give|done|]. intros q Hq. subst k. destruct HH as [_ Hk].
  rewrite object_put in Hq by by apply Hk. injection Hq as <-. by left.
Qed.

Lemma held_remove_none A B s k : Held A B None s -> Held A B None (snd (removePartitionLocked io k s)).
Proof. intros HH. destruct (removePartitionLocked io k s) as [e s'] eqn:E. by eapply held_remove. Qed.

Lemma ready_stopped p : ~ writable (p_state p) -> Ready p.
Proof. intros Hw. split; [done|]. intros E. destruct Hw. by left. Qed.

Lemma terminal_stopped a : ~ writable (terminal_of a).
Proof. unfold terminal_of, writable. case_decide; intros [E|E]; discriminate. Qed.

Lemma sim_finish_empty A B s c k e s' :
  FinishEmpty io clock c k s = (e, s') -> Held A B None s -> exact A s ->
  exists A', op_step A B (OpFinishEmpty c k) (OutError e) A' B /\ Held A' B None s'.
Proof.
  unfold FinishEmpty. intros E HH He. destruct c; [injection E as <- <-; eexists; split; [constructor|done]|].
  destruct (object k s) as [p|] eqn:Hk; [|injection E as <- <-; eexists; split; [constructor|done]].
  destruct (exact_object _ _ _ _ _ HH He Hk) as (Ek&a&Ha&_&Es&Eh&Hreg). destruct (_ || _) eqn:Hc.
  - case_bool_decide as Ho; injection E as <- <-; eexists; (split; [|done]); [eapply step_finish_open; [done|congruence]|constructor].
  - apply orb_false_elim in Hc as [Hp Hz]. apply negb_false_iff, bool_decide_eq_true in Hp. apply negb_false_iff, Z.eqb_eq in Hz.
    specialize (Hreg (or_introl Hp)). destruct (held_take _ _ _ _ _ _ HH Hreg) as [_ H1]. destruct (held_local _ Hcfg _ _ _ _ H1) as (a1&Ha1&[]&HL).
    assert (a1 = a) as -> by congruence. cbn [read_clock] in E. destruct (finishWriterLocked _ _) as [p2 s2] eqn:E2.
    apply local_finish with (cfg := cfg) (p0 := p) (s0 := s) (l := st_log a) in E2 as (HL2&_&Hs2&_).
    2: { apply local_updated, local_state; [by apply local_bump|rewrite Hp; right; cbn; lia|]. left. by apply po_ready. }
    cbn in Hs2. assert (H2 : Ready p2 -> Held A B (Some p2) s2) by (intros; eapply held_step; eauto). assert (Hk2 : p_key p2 = k) by (destruct HL2 as [[] _ _]; congruence).
    pose proof (held_put_state _ _ _ _ _ _ (H2 (ready_stopped _ ltac:(rewrite Hs2; by intros [|]))) Hk2 Ha) as H3. rewrite Hs2 in H3.
    injection E as <- <-. eexists. split; [eapply step_finish_empty; [done|congruence|]|].
    + apply nil_length_inv. unfold high in Eh. lia.
    + destruct (_ =? 0); [by apply held_remove_none|done].
Qed.

Lemma sim_seal A B s c k e s' :
  Seal io clock c k s = (e, s') -> Held A B None s -> exact A s ->
  exists A', op_step A B (OpSeal c k) (OutError e) A' B /\ Held A' B None s'.
Proof.
  unfold Seal. intros E HH He. destruct c; [injection E as <- <-; eexists; split; [constructor|done]|].
  destruct (object k s) as [p|] eqn:Hk; [|injection E as <- <-; eexists; split; [constructor|done]].
  destruct (exact_object _ _ _ _ _ HH He Hk) as (Ek&a&Ha&_&Es&Eh&Hreg). case_bool_decide as Hsl.
  { injection E as <- <-. eexists. split; [eapply step_sealed; [done|congruence]|done]. }
  destruct (negb (bool_decide (_ \/ _))) eqn:Hw; [injection E as <- <-; eexists; split; [constructor|done]|].
  apply negb_false_iff, bool_decide_eq_true in Hw. specialize (Hreg Hw).
  destruct (held_take _ _ _ _ _ _ HH Hreg) as [_ H1]. destruct (held_local _ Hcfg _ _ _ _ H1) as (a1&Ha1&[]&HL). assert (a1 = a) as -> by congruence.
  assert (E1 : exists (closed : bool) p1 s1, match p_active p with Some _ => let '(ok, s) := io_ok io s in (ok, (set_p_active None p, s)) | None => (true, (p, s)) end = (closed, (p1, s1))
    /\ Local cfg p s (st_log a) p1 s1 /\ p_state p1 = p_state p /\ p_high p1 = p_high p /\ p_active p1 = None).
  { destruct (p_active p) eqn:Hpa; [|exists true, p, s; by split_and!]. eexists _, _, _. split; [reflexivity|].
    split_and!; [by apply local_bump, local_inactive|done..]. }
  destruct E1 as (closed&p1&s1&E1&HL1&Hs1&Hh1&Ha1'). rewrite E1 in E. clear E1. destruct closed; cbn [negb] in E.
  - cbn [read_clock] in E. destruct (finishWriterLocked _ _) as [p2 s2] eqn:E2.
    apply local_finish with (cfg := cfg) (p0 := p) (s0 := s) (l := st_log a) in E2 as (HL2&_&Hs2&_).
    2: { apply local_updated, local_state; [by apply local_bump| |by left]. rewrite Hs1. right.
      destruct Hw as [Hw|Hw]; rewrite Hw; destruct (p_high p1 =? 0); cbn; lia. }
    cbn in Hs2. rewrite Hh1 in Hs2. assert (Hst : p_state p2 = terminal_of a).
    { rewrite Hs2, Eh. unfold terminal_of, high. destruct (st_log a); [by rewrite decide_True|by rewrite decide_False]. }
    assert (H2 : Ready p2 -> Held A B (Some p2) s2) by (intros; eapply held_step; eauto). assert (Hk2 : p_key p2 = k) by (destruct HL2 as [[] _ _]; congruence).
    pose proof (held_put_state _ _ _ _ _ _ (H2 (ready_stopped _ ltac:(rewrite Hst; apply terminal_stopped))) Hk2 Ha) as H3.
    rewrite Hst in H3. injection E as <- <-. eexists. split; [eapply step_seal; [done|by rewrite Es]|].
    destruct (_ && _); [by apply held_remove_none|done].
  - destruct (poisonLocked io clock p1 s1) as [p2 s2] eqn:E2. destruct (local_poison_now _ _ _ _ _ _ _ _ _ _ E2 HL1) as [HL2 Hs2].
    injection E as <- <-. eexists. split; [apply step_seal_fail|]. apply held_give. eapply held_step; [done|done|done|by apply stopped_ready].
Qed.

Lemma sim_invalidate A B s k e s' :
  Invalidate io clock k s = (e, s') -> Held A B None s -> exact A s ->
  exists A', op_step A B (OpInvalidate k) (OutError e) A' B /\ Held A' B None s'.
Proof.
  unfold Invalidate. intros E HH He. destruct (object k s) as [p|] eqn:Hk; [|injection E as <- <-; eexists; split; [constructor|done]].
  destruct (exact_object _ _ _ _ _ HH He Hk) as (Ek&a&Ha&_&Es&Eh&_).
  destruct (poisonLocked io clock p s) as [p1 s1] eqn:E1. injection E as <- <-. eexists. split; [by eapply step_invalidate|].
  destruct (sp_partitions s !! k) as [q|] eqn:Hq.
  - rewrite (object_registered _ _ _ Hq) in Hk. injection Hk as ->. destruct (held_take _ _ _ _ _ _ HH Hq) as [_ H1].
    destruct (held_poison _ _ _ Hcfg _ _ _ _ _ _ E1 H1) as (H2&Hk2&Hs2).
    pose proof (held_put_state _ _ _ _ k a H2 ltac:(congruence) Ha) as H3. replace (if decide _ then _ else _) with (p_state p1); [done|].
    rewrite Es. case_decide as Hc.
    + unfold poisonLocked in E1. rewrite bool_decide_eq_true_2 in E1 by by right. injection E1 as <- <-. done.
    + destruct Hs2 as [?|Hs2]; [done|]. unfold poisonLocked in E1. case_bool_decide as Hd; [injection E1 as <- <-; congruence|].
      destruct (held_local _ Hcfg _ _ _ _ H1) as (a1&Ha1&[]&HL). destruct (close_active io p s) as [p2 s2] eqn:E2. cbn [read_clock] in E1.
      unfold finishWriterLocked in E1. destruct (p_writerActive _) in E1; injection E1 as <- <-; done.
  - destruct (object_removed _ _ _ _ _ _ _ HH Hq Hk) as [Hs Hput]. unfold poisonLocked in E1. rewrite bool_decide_eq_true_2 in E1 by by right.
    injection E1 as <- <-. rewrite Hput, Es, decide_True by done. replace (with_state a StateStoreClosed) with a; [by rewrite insert_id|].
    destruct a. cbn in *. unfold with_state. cbn. congruence.
Qed.

Lemma sim_append A B s c k records walk start e s' :
  AppendBatch cfg io clock c k records walk s = (start, e, s') -> Held A B None s -> exact A s ->
  Forall typed records -> (forall a, A !! k = Some a -> high (st_log a) + Z.of_nat (length records) < u64_modulus) ->
  exists A', op_step A B (OpAppend c k records walk) (OutAppend start e) A' B /\ Held A' B None s'.
Proof.
  unfold AppendBatch. intros E HH He Ht Hh.
  destruct c; [injection E as <- <- <-; eexists; split; [constructor; by left|done]|].
  destruct (object k s) as [p|] eqn:Hk.
  2: { injection E as <- <- <-. eexists. split; [constructor; right|done]. intros a Ha. by rewrite (object_none _ _ _ _ HH Hk) in Ha. }
  destruct (exact_object _ _ _ _ _ HH He Hk) as (Ek&a&Ha&_&Es&Eh&Hreg). destruct (negb _) eqn:Hw.
  { injection E as <- <- <-. eexists. split; [constructor; right|done]. intros a' Ha'. assert (a' = a) as -> by congruence.
    apply negb_true_iff, bool_decide_eq_false in Hw. by rewrite Es. }
  apply negb_false_iff, bool_decide_eq_true in Hw. specialize (Hreg Hw). destruct (held_take _ _ _ _ _ _ HH Hreg) as [_ H1].
  destruct (append_loop _ _ _ _ records walk p s) as [e1 [p1 s1]] eqn:E1.
  destruct (held_append_loop _ _ _ Hcfg _ _ _ _ _ _ _ a _ _ _ E1 H1) as (Hk1&n&Hn&H2&He1); [congruence|done|done|by apply Hh|lia|].
  rewrite Ek in H2. injection E as <- <- <-. rewrite Eh. destruct e1 as [e1|].
  - exists (<[k := with_state (grown a (take n records)) StatePoisoned]> A). split; [eapply step_append_fail; [done|by rewrite Es|done]|].
    assert (H3 : Held (<[k := with_state (grown a (take n records)) StatePoisoned]> A) B None (put_object p1 s1)).
    { rewrite <- (insert_insert_eq A k _ (grown a (take n records))). eapply held_with_state; [by apply held_give|apply lookup_insert_eq|].
      intros q Hq. destruct H2 as [_ Hreg1]. replace k with (p_key p1) in Hq by congruence. rewrite object_put in Hq by by apply Hreg1. injection Hq as <-.
      destruct He1 as [->| ->]; [by left|right; cbn; lia]. }
    destruct (_ && _); [by apply held_remove_none|done].
  - subst n. rewrite firstn_all in H2. exists (<[k := grown a records]> A). split; [eapply step_append; [done|by rewrite Es]|].
    destruct (_ && _); [by apply held_remove_none, held_give|by apply held_give].
Qed.

(** ** The store *)

Lemma held_set_current A B o s c :
  Held A B o s -> (forall l k, c !! l = Some k -> logical k = l) -> Held A B o (set_sp_current c s).
Proof. intros [[] Ho] Hc. split; [|done]. constructor; try done. intros k p Hk. destruct (iv_part k p Hk) as (a&Ha&[]). by exists a. Qed.

(** Streams of which nothing but marks and states moved on. *)
Definition later A A' : Prop :=
  (forall k, is_Some (A' !! k) -> is_Some (A !! k)) /\
  forall k a, A !! k = Some a -> exists a', A' !! k = Some a' /\ st_log a' = st_log a /\ st_low a <= st_low a' /\ state_le (st_state a) (st_state a').

Lemma evolve_later A A' : evolve A A' -> later A A'.
Proof. intros [Hd He]. split; [done|]. intros k a Ha. destruct (He k a Ha) as (a'&?&?&?&?). exists a'. split_and!; (done || lia). Qed.

Lemma later_trans A A' A'' : later A A' -> later A' A'' -> later A A''.
Proof.
  intros [Hd H1] [Hd' H2]. split; [by eauto|]. intros k a Ha. destruct (H1 k a Ha) as (a'&Ha'&El&?&?). destruct (H2 k a' Ha') as (a''&?&El'&?&?).
  exists a''. split_and!; [done|congruence|lia|by eapply state_le_trans].
Qed.

Lemma later_with_state A k a st : A !! k = Some a -> state_le (st_state a) st -> later A (<[k := with_state a st]> A).
Proof.
  intros Ha Hst. split; intros k'; (destruct (decide (k' = k)) as [->|]; [|rewrite lookup_insert_ne by done]); [intros _; by eexists|done| |].
  - intros a' Ha'. rewrite lookup_insert_eq. assert (a' = a) as -> by congruence. eexists. split; [done|]. cbn. split_and!; [done|lia|done].
  - intros a' Ha'. exists a'. split_and!; [done|done|lia|by left].
Qed.

Lemma loosen A A' B s : Held A' B None s -> later A A' -> Held A B None s.
Proof.
  intros HH [Hd Hl]. pose proof HH as [HI Ho]. split; [|done]. cbn in *. eapply inv_relax; [done| |].
  - intros k [a Ha]. destruct (Hl k a Ha) as (a'&Ha'&_). by eexists.
  - intros k p a' Hk Ha'. destruct (Hd k) as [a Ha]; [by eexists|]. destruct (Hl k a Ha) as (a1&Ha1&El&Hlow&Hst). assert (a1 = a') as -> by congruence.
    exists a. split; [done|]. split; [done|]. destruct Hk as [Hk|Hk].
    + destruct (iv_part _ _ _ _ _ HI k p Hk) as (a2&Ha2&[]). assert (a2 = a') as -> by congruence. split; [lia|by eapply state_le_trans].
    + destruct (iv_removed _ _ _ _ _ HI k p Hk) as (_&a2&Ha2&[]). assert (a2 = a') as -> by congruence. split; [lia|].
      rewrite ro_state. destruct (st_state a); [right..|left]; cbn; lia || done.
Qed.

Lemma local_published l p0 s0 p s : Local cfg p0 s0 l p s -> Local cfg p0 s0 l (set_p_published true p) s.
Proof. intros [[] [] Hr]. split; [by constructor|by constructor|]. intros id r Hid Hs. destruct (Hr id r Hid Hs). by constructor. Qed.

Lemma later_refl A : later A A.
Proof. split; [done|]. intros k a Ha. exists a. split_and!; [done|done|lia|by left]. Qed.

Lemma seal_later A A' B B' c k e : op_step A B (OpSeal c k) (OutError e) A' B' -> later A A'.
Proof.
  inversion 1; subst; try apply later_refl. apply later_with_state; [done|]. right. unfold terminal_of.
  match goal with Hw : writable _ |- _ => destruct Hw as [Hw|Hw]; rewrite Hw end; case_decide; cbn; lia.
Qed.

Lemma held_seal A B s k : Held A B None s -> Held A B None (snd (Seal io clock false k s)).
Proof.
  intros HH. destruct (Seal io clock false k s) as [e s'] eqn:E. destruct (tighten _ _ _ HH) as (A1&Hev&H1&He).
  destruct (sim_seal _ _ _ _ _ _ _ E H1 He) as (A2&Hop&H2). eapply loosen; [done|].
  eapply later_trans; [by apply evolve_later|by eapply seal_later].
Qed.

Lemma sim_publish A B s c k : Held A B None s -> Held A B None (snd (Publish io clock c k s)).
Proof.
  intros HH. unfold Publish. destruct (lookup_key c k s) as [p|e] eqn:Hk; [|done]. apply lookup_key_ok in Hk as (Hk&_).
  destruct (negb _); [done|]. set (s1 := set_sp_current _ s). 
  assert (H1 : Held A B None s1).
  { apply held_set_current; [done|]. intros l k' Hl. destruct (decide (l = logical k)) as [->|]; [rewrite lookup_insert_eq in Hl; by injection Hl as <-|].
    rewrite lookup_insert_ne in Hl by done. destruct HH as [HI _]. by apply (iv_current _ _ _ _ _ HI). }
  destruct (held_take _ _ _ _ _ _ H1 Hk) as [_ H2]. destruct (held_local _ Hcfg _ _ _ _ H2) as (a&Ha&[]&HL).
  assert (H3 : Held A B None (put_object (set_p_published true p) s1)).
  { apply held_give. eapply held_step; [done|done|by apply local_published|]. by destruct po_ready. }
  cbn [snd]. destruct (_ ≫= _) as [q|]; [|done]. case_bool_decide; [done|]. by apply held_seal.
Qed.

Lemma sim_remove A B s c k : Held A B None s -> Held A B None (snd (Remove io c k s)).
Proof. intros HH. unfold Remove. destruct (lookup_key c k s); [|done]. by apply held_remove_none. Qed.

Lemma held_collect A B now walk s : Held A B None s -> Held A B None (snd (collect_loop cfg io now walk s)).
Proof.
  revert s. induction walk as [|k walk IH]; intros s HH; cbn [collect_loop]; [done|].
  set (step := match object k s with Some p => _ | None => _ end).
  assert (H1 : Held A B None step.2).
  { subst step. destruct (object k s) as [p|]; [|done]. cbv zeta.
    match goal with |- context [if ?b then _ else _] => destruct b end; [by apply held_remove_none|done]. }
  destruct step as [e s1]. cbn in H1. specialize (IH s1 H1). destruct (collect_loop cfg io now walk s1) as [es s2]. done.
Qed.

Lemma sim_collect A B s c walk : Held A B None s -> Held A B None (snd (Collect cfg io clock c walk s)).
Proof.
  intros HH. unfold Collect. destruct c; [done|]. destruct (sp_closed s); [done|]. cbn [read_clock]. by apply held_collect, held_bump.
Qed.

Lemma sim_close A B s : Held A B None s -> Held A B None (Close s).
Proof.
  intros HH. unfold Close. destruct (sp_closed s); [done|]. destruct HH as [HI _]. split; [|done]. cbn in *.
  assert (Hm : forall k q, (close_partition <$> sp_partitions s) !! k = Some q -> exists p, sp_partitions s !! k = Some p /\ q = close_partition p).
  { intros k q Hq. rewrite lookup_fmap in Hq. apply fmap_Some in Hq as (p&Hp&->). by exists p. }
  destruct HI. constructor; cbn; try done.
  - intros k q Hq. destruct (Hm k q Hq) as (p&Hp&->). destruct (iv_part k p Hp) as (a&Ha&[]). exists a. split; [done|].
    destruct po_wf. constructor; cbn; try done.
    + split; [by intros [|]|done].
    + constructor; cbn; try done. intros Hph. by destruct (wf_physical Hph) as (?&_&?).
    + intros id r Hid Hs. destruct (po_readers id r Hid Hs). by constructor.
    + destruct (st_state a); [right..|left]; cbn; lia || done.
  - intros k q Hq. destruct (iv_removed k q Hq) as (Hn&Hx). split; [|done]. by rewrite lookup_fmap, Hn.
  - intros k Hk. destruct (iv_streams k Hk) as [?|?]; [left|by right]. by rewrite lookup_fmap, fmap_is_Some.
  - intros f c Hc. destruct (iv_files f c Hc) as (k&p&Hp&E). exists k, (close_partition p). by rewrite lookup_fmap, Hp.
  - intros id r Hs Hcl. destruct (iv_readers id r Hs Hcl) as (HB&p&Hp&Hid). split; [done|]. exists (close_partition p). by rewrite lookup_fmap, Hp.
  - intros k q id Hq Hid. destruct (Hm k q Hq) as (p&Hp&->). by apply (iv_leases k p id Hp).
  - by rewrite total_fmap.
  - by rewrite total_fmap.
  - by rewrite total_fmap.
  - by rewrite total_fmap.
  - rewrite total_fmap. cbn. rewrite total_zero. etrans; [|done]. apply total_nonneg. intros. apply flag_nonneg.
  - by rewrite map_size_fmap.
Qed.

(** ** Registration *)

Lemma sim_register A B s c l oc unpublished i r s' :
  Register cfg clock epoch c l oc unpublished i s = (r, s') -> Held A B None s ->
  length l.2 = 32%nat -> Forall byte l.2 -> length epoch = 16%nat -> Forall byte epoch ->
  (forall j, i = Some j -> length j = 16%nat /\ Forall byte j /\ forall k, is_Some (A !! k) -> Incarnation k <> j) ->
  exists A', op_step A B (OpRegister c l oc unpublished i) (OutKey r) A' B /\ Held A' B None s'.
Proof.
  unfold Register. intros E HH Hd Hdb Hep Hepb Hi. destruct (negb (validateLogicalKey l)) eqn:Hv; [injection E as <- <-; eexists; split; [constructor|done]|].
  destruct c; [injection E as <- <-; eexists; split; [constructor|done]|]. destruct (sp_closed s); [injection E as <- <-; eexists; split; [constructor|done]|].
  destruct (_ && _); [injection E as <- <-; eexists; split; [constructor|done]|].
  destruct (_ || _) eqn:Hlim; [injection E as <- <-; eexists; split; [constructor|done]|].
  destruct i as [i|]; [|injection E as <- <-; eexists; split; [constructor|done]].
  apply orb_false_elim in Hlim as [Hlim1 Hlim2]. apply Z.leb_gt in Hlim1, Hlim2. destruct (Hi i eq_refl) as (Hil&Hib&Hfresh).
  apply negb_false_iff, andb_prop in Hv as [Hns _]. cbn [read_clock] in E.
  set (k := MkKey l.1 l.2 epoch i) in *. injection E as <- <-.
  assert (Hgood : good_key k).
  { split_and!; try done. split_and!; try done; cbn; unfold NamespaceValid, NamespaceTask, NamespaceSession in Hns; apply orb_prop in Hns as [Hns|Hns]; apply Z.eqb_eq in Hns; lia. }
  assert (HA : A !! k = None) by (destruct (A !! k) eqn:HA; [|done]; destruct (Hfresh k); [by eexists|done]).
  pose proof HH as [HI _]. cbn in HI.
  assert (Hnp : sp_partitions s !! k = None).
  { destruct (sp_partitions s !! k) as [p|] eqn:Hp; [|done]. destruct (iv_part _ _ _ _ _ HI k p Hp) as (a&Ha&_). congruence. }
  assert (Hnr : sp_removed s !! k = None).
  { destruct (sp_removed s !! k) as [p|] eqn:Hp; [|done]. destruct (iv_removed _ _ _ _ _ HI k p Hp) as (_&a&Ha&_). congruence. }
  assert (Hnf : forall f, f.1 = partitionRelativeDir k -> sp_disk s !! f = None).
  { intros f Ef. destruct (sp_disk s !! f) as [c|] eqn:Hf; [|done]. destruct (iv_files _ _ _ _ _ HI f c Hf) as (k'&p&Hp&Ep).
    destruct (iv_part _ _ _ _ _ HI k' p Hp) as (a&_&[]). destruct po_wf. rewrite Ef, wf_dir in Ep. apply partition_dir_inj in Ep; [|done|done]. congruence. }
  exists (<[k := MkStream [] 0 StatePending]> A). split; [by constructor; destruct l|].
  set (p := MkPartition _ _ _ _ _ _ _ _ _ _ _ _ _ _ _ _ _).
  assert (Hwf : Wf cfg [] (sp_disk s) p).
  { destruct Hcfg. constructor; cbn; try done; try lia.
    - rewrite dir_bytes_none by done. unfold charges. cbn. lia. }
  assert (Hlk : logical k = l) by (by destruct l). clearbody k.
  split; [|done]. cbn. set (m := <[k := p]> (sp_partitions s)).
  assert (HI2 : Inv (<[k := MkStream [] 0 StatePending]> A) B m (set_sp_registrations (sp_registrations s + 1) (bump s))).
  { assert (Hm : forall k' q, m !! k' = Some q -> (k' = k /\ q = p) \/ (k' <> k /\ sp_partitions s !! k' = Some q)).
    { intros k' q Hq. destruct (decide (k' = k)) as [->|]; [left; unfold m in Hq; rewrite lookup_insert_eq in Hq; by injection Hq|].
      right. unfold m in Hq. by rewrite lookup_insert_ne in Hq. }
    destruct HI. constructor; cbn; try done; try lia.
    - intros k' q Hq. destruct (Hm k' q Hq) as [[-> ->]|[Hne Hq']].
      + eexists. rewrite lookup_insert_eq. split; [done|]. destruct Hcfg. constructor; cbn; try done; [|by left|].
        * split; [intros _ sg Hin; by apply elem_of_nil in Hin|done].
        * rewrite size_empty. lia.
      + rewrite lookup_insert_ne by done. destruct (iv_part k' q Hq') as (a&Ha&[]). exists a. split; [done|]. by constructor.
    - intros k' q Hq. destruct (iv_removed k' q Hq) as (Hn&a&Ha&Hr). assert (k' <> k) by congruence. unfold m. rewrite !lookup_insert_ne by done.
      split; [done|]. by exists a.
    - intros k' Hk'. unfold m. destruct (decide (k' = k)) as [->|]; [left; rewrite lookup_insert_eq; by eexists|].
      rewrite lookup_insert_ne in Hk' by done. rewrite lookup_insert_ne by done. by apply iv_streams.
    - intros f c Hc. destruct (iv_files f c Hc) as (k'&q&Hq&E). exists k', q. split; [|done]. unfold m. rewrite lookup_insert_ne; [done|]. intros E'. rewrite <- E' in Hq. congruence.
    - intros id r Hs Hcl. destruct (iv_readers id r Hs Hcl) as (HB&q&Hq&Hid). split; [done|]. exists q. split; [|done].
      unfold m. rewrite lookup_insert_ne; [done|]. intros E'. rewrite <- E' in Hq. congruence.
    - intros k' q id Hq Hid. destruct (Hm k' q Hq) as [[-> ->]|[_ Hq']]; [by apply elem_of_empty in Hid|by eapply iv_leases].
    - unfold m. rewrite total_insert_new by done. cbn. lia.
    - unfold m. rewrite total_insert_new by done. cbn. lia.
    - unfold m. rewrite total_insert_new by done. cbn. lia.
    - unfold m. rewrite total_insert_new by done. cbn. lia.
    - unfold m. rewrite total_insert_new by done. cbn. lia.
    - unfold m. rewrite map_size_insert_None by done. lia. }
  destruct unpublished; [by apply (inv_same _ _ _ _ (set_sp_registrations (sp_registrations s + 1) (bump s)))|].
  assert (HI3 : Held (<[k := MkStream [] 0 StatePending]> A) B None (set_sp_current (<[l := k]> (sp_current s)) (set_sp_registrations (sp_registrations s + 1) (set_sp_partitions m (bump s))))).
  { apply held_set_current; [split; [|done]; by apply (inv_same _ _ _ _ (set_sp_registrations (sp_registrations s + 1) (bump s)))|].
    intros l' k' Hl. destruct (decide (l' = l)) as [->|]; [rewrite lookup_insert_eq in Hl; by injection Hl as <-|].
    rewrite lookup_insert_ne in Hl by done. by apply (iv_current _ _ _ _ _ HI). }
  exact (proj1 HI3).
Qed.

(** ** Readers *)

(** A reader of [k] that moved, or failed to. *)
Lemma inv_reader A B m s id r r' p a :
  Inv A B m s -> sp_readers s !! id = Some r -> rd_closed r = false -> m !! rd_partition r = Some p -> A !! rd_partition r = Some a ->
  reader_ok (st_log a) (sp_disk s) p r' -> rd_closed r' = false -> rd_partition r' = rd_partition r ->
  Inv A (<[id := (rd_partition r, rd_offset r')]> B) m (put_reader id r' s).
Proof.
  intros HI Hr Hcl Hp Ha Hok Hcl' Hpart. destruct (iv_readers _ _ _ _ _ HI id r Hr Hcl) as (HB&p'&Hp'&Hid). assert (p' = p) as -> by congruence.
  destruct HI. constructor; cbn; try done.
  - intros k q Hq. destruct (iv_part k q Hq) as (a'&Ha'&[]). exists a'. split; [done|]. constructor; cbn; try done.
    intros id' x Hid' Hx. change (<[id := r']> (sp_readers s) !! id' = Some x) in Hx.
    destruct (decide (id' = id)) as [->|]; [|rewrite lookup_insert_ne in Hx by done; by apply (po_readers id')].
    rewrite lookup_insert_eq in Hx. injection Hx as <-. destruct (iv_leases k q id Hq Hid') as (r1&Hr1&_&Ek).
    assert (r1 = r) as -> by congruence. subst k. assert (q = p) as -> by congruence. assert (a' = a) as -> by congruence. exact Hok.
  - intros id' x Hx Hc. destruct (decide (id' = id)) as [->|].
    + rewrite lookup_insert_eq in Hx. injection Hx as <-. rewrite lookup_insert_eq, Hpart. split; [done|]. by exists p.
    + rewrite lookup_insert_ne in Hx by done. rewrite lookup_insert_ne by done. by apply iv_readers.
  - intros id' b Hb. destruct (decide (id' = id)) as [->|]; [rewrite lookup_insert_eq; by eexists|].
    rewrite lookup_insert_ne in Hb by done. rewrite lookup_insert_ne by done. by eapply iv_cursors.
  - intros k q id' Hq Hid'. destruct (iv_leases k q id' Hq Hid') as (r1&Hr1&Hc1&Ek). destruct (decide (id' = id)) as [->|].
    + rewrite lookup_insert_eq. exists r'. assert (r1 = r) as -> by congruence. split_and!; [done|done|congruence].
    + rewrite lookup_insert_ne by done. by exists r1.
Qed.

Lemma sim_reader A B s c k offset r s' :
  OpenReader cfg c k offset s = (r, s') -> Held A B None s -> exact A s -> 0 <= offset ->
  exists B', op_step A B (OpReader c k offset) (OutReader r) A B' /\ Held A B' None s'.
Proof.
  unfold OpenReader, readerForPartition. intros E HH He Hof. destruct (lookup_key c k s) as [p0|e] eqn:Hk.
  2: { injection E as <- <-. eexists. split; [constructor; intros ->|done]. unfold lookup_key in Hk. repeat case_match; done. }
  apply lookup_key_ok in Hk as (Hk&_). rewrite (object_registered _ _ _ Hk) in E.
  destruct (exact_object _ _ _ _ _ HH He (object_registered _ _ _ Hk)) as (Ek&a&Ha&El&Es&Eh&_).
  destruct (offset <? p_low p0) eqn:Hlow.
  { injection E as <- <-. apply Z.ltb_lt in Hlow. eexists. split; [constructor; intros _|done]. exists a. split; [done|lia]. }
  destruct (p_high p0 <? offset) eqn:Hhigh; [injection E as <- <-; eexists; split; [by constructor|done]|]. apply Z.ltb_ge in Hlow, Hhigh.
  destruct (_ <=? p_readers p0) eqn:Hrd; [injection E as <- <-; eexists; split; [by constructor|done]|]. apply Z.leb_gt in Hrd.
  destruct (sp_closed s); [injection E as <- <-; eexists; split; [by constructor|done]|].
  destruct (_ || _); [injection E as <- <-; eexists; split; [by constructor|done]|].
  destruct (_ <=? sp_readerCount s) eqn:Hrc; [injection E as <- <-; eexists; split; [by constructor|done]|]. apply Z.leb_gt in Hrc.
  set (id := fresh (dom (sp_readers s))) in *. injection E as <- <-.
  assert (Hid : sp_readers s !! id = None) by (apply not_elem_of_dom, is_fresh). pose proof HH as [HI _]. cbn in HI.
  assert (HBid : B !! id = None).
  { destruct (B !! id) as [b|] eqn:Hb; [|done]. destruct (iv_cursors _ _ _ _ _ HI id b Hb) as (r&Hr&_). congruence. }
  exists (<[id := (k, offset)]> B). split; [eapply step_reader; [done|lia|done]|].
  assert (Hnl : forall k q, sp_partitions s !! k = Some q -> id ∉ p_leases q).
  { intros k' q Hq Hin. destruct (iv_leases _ _ _ _ _ HI k' q id Hq Hin) as (r&Hr&_). congruence. }
  set (p := set_p_leases _ _). set (s1 := set_sp_readers _ _).
  rewrite put_object_registered by (cbn; rewrite Ek; by eexists). split; [|done]. cbn -[p]. change (p_key p) with (p_key p0). rewrite Ek.
  set (m := <[k := p]> (sp_partitions s)).
  assert (HI2 : Inv A (<[id := (k, offset)]> B) m s1); [|by apply (inv_same _ _ _ _ s1)].
  assert (Hm : forall k' q, m !! k' = Some q -> (k' = k /\ q = p) \/ (k' <> k /\ sp_partitions s !! k' = Some q)).
  { intros k' q Hq. destruct (decide (k' = k)) as [->|]; [left; unfold m in Hq; rewrite lookup_insert_eq in Hq; by injection Hq|].
    right. unfold m in Hq. by rewrite lookup_insert_ne in Hq. }
  assert (Hm' : forall k' q, sp_partitions s !! k' = Some q -> exists q', m !! k' = Some q' /\ p_dir q' = p_dir q /\ p_leases q ⊆ p_leases q').
  { intros k' q Hq. destruct (decide (k' = k)) as [->|]; unfold m; [rewrite lookup_insert_eq|rewrite lookup_insert_ne by done; by exists q].
    exists p. assert (q = p0) as -> by congruence. split_and!; [done|done|]. cbn. set_solver. }
  destruct HI. constructor; cbn -[p]; try done.
  - intros k' q Hq. destruct (Hm k' q Hq) as [[-> ->]|[Hne Hq']].
    + exists a. split; [done|]. destruct (iv_part k p0 Hk) as (a'&Ha'&[]). assert (a' = a) as -> by congruence. constructor; try done.
      * destruct po_wf. by constructor.
      * intros id' x Hid' Hx. cbn in Hx, Hid'. destruct (decide (id' = id)) as [->|].
        -- rewrite lookup_insert_eq in Hx. injection Hx as <-. constructor; [cbn; lia|done].
        -- rewrite lookup_insert_ne in Hx by done. destruct (po_readers id' x) as [? ?]; [set_solver|done|]. by constructor.
      * cbn. rewrite size_union by (specialize (Hnl _ _ Hk); set_solver). rewrite size_singleton. lia.
    + destruct (iv_part k' q Hq') as (a'&Ha'&[]). exists a'. split; [done|]. constructor; try done.
      intros id' x Hid' Hx. cbn in Hx. rewrite lookup_insert_ne in Hx; [by apply (po_readers id')|]. intros <-. by apply (Hnl k' q).
  - intros k' q Hq. destruct (iv_removed k' q Hq) as (Hn&Hx). assert (k' <> k) by congruence. unfold m. rewrite lookup_insert_ne by done. by split.
  - intros k' Hk'. destruct (iv_streams k' Hk') as [[q Hq]|?]; [left|by right]. destruct (Hm' _ _ Hq) as (q'&?&_). by exists q'.
  - intros f x Hx. destruct (iv_files f x Hx) as (k'&q&Hq&Ef). destruct (Hm' _ _ Hq) as (q'&?&Ed&_). exists k', q'. split; [done|congruence].
  - intros id' x Hx Hc. destruct (decide (id' = id)) as [->|].
    + rewrite lookup_insert_eq in Hx. injection Hx as <-. rewrite lookup_insert_eq. split; [done|]. cbn. exists p. unfold m. rewrite lookup_insert_eq.
      split; [done|]. cbn. set_solver.
    + rewrite lookup_insert_ne in Hx by done. rewrite lookup_insert_ne by done. destruct (iv_readers id' x Hx Hc) as (HB&q&Hq&Hin). split; [done|].
      destruct (Hm' _ _ Hq) as (q'&?&_&Hsub). exists q'. split; [done|]. set_solver.
  - intros id' b Hb. destruct (decide (id' = id)) as [->|]; [rewrite lookup_insert_eq; by eexists|].
    rewrite lookup_insert_ne in Hb by done. rewrite lookup_insert_ne by done. by eapply iv_cursors.
  - intros k' q id' Hq Hin. destruct (decide (id' = id)) as [->|].
    + destruct (Hm k' q Hq) as [[-> ->]|[_ Hq']]; [rewrite lookup_insert_eq; by eexists|]. by destruct (Hnl _ _ Hq').
    + rewrite lookup_insert_ne by done. destruct (Hm k' q Hq) as [[-> ->]|[_ Hq']]; [|by eapply iv_leases].
      apply (iv_leases k p0 id' Hk). cbn in Hin. set_solver.
  - unfold m. rewrite (total_insert p_readers k p0) by done. cbn. lia.
  - unfold m. rewrite (total_insert _ k p0) by done. cbn. lia.
  - unfold m. rewrite (total_insert _ k p0) by done. cbn. lia.
  - unfold m. rewrite (total_insert _ k p0) by done. cbn. lia.
  - unfold m. rewrite (total_insert _ k p0) by done. cbn. lia.
  - unfold m. rewrite map_size_insert_Some by by eexists. done.
Qed.

Lemma cursor_closed A B m s id : Inv A B m s -> (forall r, sp_readers s !! id = Some r -> rd_closed r = true) -> B !! id = None.
Proof.
  intros HI Hc. destruct (B !! id) as [b|] eqn:Hb; [|done]. destruct (iv_cursors _ _ _ _ _ HI id b Hb) as (r&Hr&Hcl).
  rewrite (Hc r Hr) in Hcl. done.
Qed.

Lemma sim_close_reader A B s id : Held A B None s -> Held A (delete id B) None (CloseReader io id s).
Proof.
  intros HH. unfold CloseReader. pose proof HH as [HI _]. cbn in HI. destruct (sp_readers s !! id) as [r|] eqn:Hr.
  2: { rewrite delete_id; [done|]. eapply cursor_closed; [done|]. by rewrite Hr. }
  destruct (rd_closed r) eqn:Hcl; [rewrite delete_id; [done|]; eapply cursor_closed; [done|]; intros r'; rewrite Hr; by intros [= <-]|].
  destruct (iv_readers _ _ _ _ _ HI id r Hr Hcl) as (HB&p&Hp&Hid). set (k := rd_partition r) in *.
  set (r1 := set_rd_file None (set_rd_closed true r)). change (object k (put_reader id r1 s)) with (object k s).
  rewrite (object_registered _ _ _ Hp). set (p1 := set_p_readers _ _). cbv zeta.
  destruct (iv_part _ _ _ _ _ HI k p Hp) as (a&Ha&[]). destruct po_count as [Hcount Hmax].
  assert (Hsize : Z.of_nat (size (p_leases p ∖ {[id]})) = p_readers p - 1).
  { rewrite size_difference by set_solver. rewrite size_singleton. assert (size (p_leases p) <> 0)%nat; [|lia].
    intros E. apply size_empty_iff in E. set_solver. }
  assert (Hge : p_readers p <= sp_readerCount s).
  { rewrite (proj1 (iv_count _ _ _ _ _ HI)). apply (total_ge p_readers k p); [|done]. intros k' q Hq.
    destruct (iv_part _ _ _ _ _ HI k' q Hq) as (a'&_&[]). lia. }
  assert (Hp1 : p_readers p1 = p_readers p - 1) by (cbn; rewrite (proj2 (Z.ltb_lt _ _)) by lia; done).
  assert (Hkey : p_key p1 = k) by done. set (s1 := put_reader id r1 s).
  assert (Hput : put_object p1 s1 = set_sp_partitions (<[k := p1]> (sp_partitions s)) s1) by (rewrite put_object_registered by (cbn; rewrite po_key; by eexists); cbn; by rewrite po_key).
  rewrite Hput. set (s2 := set_sp_partitions _ s1).
  match goal with |- context [if 0 <? ?c then ?x else ?y] => replace (if 0 <? c then x else y) with (set_sp_readerCount (sp_readerCount s - 1) s2)
    by (rewrite (proj2 (Z.ltb_lt _ _)) by (cbn; lia); done) end.
  assert (H3 : Held A (delete id B) None (set_sp_readerCount (sp_readerCount s - 1) s2)); [|case_match; [by apply held_remove_none|done]].
  split; [|done]. cbn -[p1]. set (m := <[k := p1]> (sp_partitions s)).
  apply (inv_same _ _ _ _ (set_sp_readerCount (sp_readerCount s - 1) s1)); try done.
  assert (Hm : forall k' q, m !! k' = Some q -> (k' = k /\ q = p1) \/ (k' <> k /\ sp_partitions s !! k' = Some q)).
  { intros k' q Hq. destruct (decide (k' = k)) as [->|]; [left; unfold m in Hq; rewrite lookup_insert_eq in Hq; by injection Hq|].
    right. unfold m in Hq. by rewrite lookup_insert_ne in Hq. }
  assert (Hm' : forall k' q, sp_partitions s !! k' = Some q -> exists q', m !! k' = Some q' /\ p_dir q' = p_dir q /\ p_leases q ⊆ {[id]} ∪ p_leases q').
  { intros k' q Hq. destruct (decide (k' = k)) as [->|]; unfold m; [rewrite lookup_insert_eq|rewrite lookup_insert_ne by done; exists q; split_and!; [done|done|set_solver]].
    exists p1. assert (q = p) as -> by congruence. split_and!; [done|done|]. cbn. intros x Hx. destruct (decide (x = id)); set_solver. }
  destruct HI. constructor; cbn -[p1]; try done.
  - intros k' q Hq. destruct (Hm k' q Hq) as [[-> ->]|[Hne Hq']].
    + exists a. split; [done|]. constructor; try done.
      * by destruct po_wf.
      * intros id' x Hid' Hx. cbn in Hx, Hid'. rewrite lookup_insert_ne in Hx by set_solver. destruct (po_readers id' x) as [? ?]; [set_solver|done|]. by constructor.
      * rewrite Hp1. cbn. rewrite Hsize. lia.
    + destruct (iv_part k' q Hq') as (a'&Ha'&[]). exists a'. split; [done|]. constructor; try done.
      intros id' x Hid' Hx. cbn in Hx. rewrite lookup_insert_ne in Hx; [by apply (po_readers0 id')|]. intros <-.
      destruct (iv_leases k' q id Hq' Hid') as (r2&Hr2&_&E2). destruct Hne. unfold k. congruence.
  - intros k' q Hq. destruct (iv_removed k' q Hq) as (Hn&Hx). assert (k' <> k) by congruence. unfold m. rewrite lookup_insert_ne by done. by split.
  - intros k' Hk'. destruct (iv_streams k' Hk') as [[q Hq]|?]; [left|by right]. destruct (Hm' _ _ Hq) as (q'&?&_). by exists q'.
  - intros f x Hx. destruct (iv_files f x Hx) as (k'&q&Hq&Ef). destruct (Hm' _ _ Hq) as (q'&?&Ed&_). exists k', q'. split; [done|congruence].
  - intros id' x Hx Hc. destruct (decide (id' = id)) as [->|]; [rewrite lookup_insert_eq in Hx; injection Hx as <-; done|].
    rewrite lookup_insert_ne in Hx by done. rewrite lookup_delete_ne by done. destruct (iv_readers id' x Hx Hc) as (HB'&q&Hq&Hin). split; [done|].
    destruct (Hm' _ _ Hq) as (q'&?&_&Hsub). exists q'. split; [done|]. set_solver.
  - intros id' b Hb. apply lookup_delete_Some in Hb as [Hne Hb]. rewrite lookup_insert_ne by done. by eapply iv_cursors.
  - intros k' q id' Hq Hin. destruct (Hm k' q Hq) as [[-> ->]|[Hne Hq']].
    + cbn in Hin. rewrite lookup_insert_ne by set_solver. apply (iv_leases k p id' Hp). set_solver.
    + destruct (iv_leases k' q id' Hq' Hin) as (r2&Hr2&Hc2&E2). rewrite lookup_insert_ne; [by exists r2|]. intros <-.
      destruct Hne. unfold k. congruence.
  - unfold m. rewrite (total_insert p_readers k p) by done. lia.
  - unfold m. rewrite (total_insert _ k p) by done. cbn. lia.
  - unfold m. rewrite (total_insert _ k p) by done. cbn. lia.
  - unfold m. rewrite (total_insert _ k p) by done. cbn. lia.
  - unfold m. rewrite (total_insert _ k p) by done. cbn. lia.
  - unfold m. rewrite map_size_insert_Some by by eexists. done.
Qed.

(** ** Reading *)

Section Read.
Context (l : list SpoolRecord) (header junk : list Z) (base e : Z) (path : Path).
Context (Hl : log_ok (MaxRecordBytes cfg) l) (Hbase : 0 <= base) (He : e <= high l).
Let content := header ++ encs (recs base e l) ++ junk.

(** A reader with the file open at its next record. *)
Definition positioned (r : Reader) : Prop :=
  rd_file r = Some (path, length (header ++ encs (recs base (rd_nextOffset r) l))) /\ base <= rd_nextOffset r.

(** Reading forward: nothing else of the reader changes. *)
Definition forward (next : Z) (r r' : Reader) : Prop :=
  positioned r' /\ rd_nextOffset r' = next /\ rd_closed r' = rd_closed r /\ rd_partition r' = rd_partition r /\ rd_offset r' = rd_offset r.

Lemma read_forward r : positioned r -> rd_nextOffset r < e ->
  exists x r', l !! Z.to_nat (rd_nextOffset r) = Some x
    /\ (forall position, rd_file r = Some (path, position) -> read_next cfg content r path position = (Ok x, r'))
    /\ forward (rd_nextOffset r + 1) r r'.
Proof.
  intros [Hf Hb] Hn. destruct (read_next_ok cfg l r path header base e junk Hl Hbase) as (x&Hx&E); [lia|done|].
  eexists x, _. split; [done|]. split; [intros position Hp; rewrite Hf in Hp; injection Hp as <-; exact E|]. split_and!; try done. split; [done|cbn; lia].
Qed.

Lemma skip_forward fuel offset r :
  positioned r -> rd_nextOffset r <= offset < e -> fuel = Z.to_nat (offset - rd_nextOffset r) ->
  exists r', skip_records cfg fuel content path offset r = (None, r') /\ forward offset r r'.
Proof.
  revert r. induction fuel as [|fuel IH]; intros r Hp Hn Hf; cbn [skip_records].
  - exists r. split; [done|]. split_and!; [done|lia|done..].
  - rewrite (proj2 (Z.ltb_lt _ _)) by lia. destruct (read_forward r Hp) as (x&r1&_&E&(Hp1&Hn1&Hc1&Hk1&Ho1)); [lia|].
    destruct Hp as [Hfile Hb]. rewrite Hfile. rewrite (E _ Hfile). destruct (IH r1 Hp1) as (r2&E2&(Hp2&Hn2&Hc2&Hk2&Ho2)); [lia|lia|].
    exists r2. split; [done|]. split_and!; try done; congruence.
Qed.
End Read.

Lemma positioned_ok l p sg c disk r header base path :
  Wf cfg l disk p -> sg ∈ p_segments p -> sg_path sg = path -> sg_base sg = base -> disk !! path = Some c -> length header = segmentHeaderSize ->
  positioned l header base path r -> rd_nextOffset r <= rd_offset r -> 0 <= rd_offset r <= p_high p -> reader_ok l disk p r.
Proof.
  intros Hwf Hin Hp Hb Hc Hh [Hf Hle] Hn Ho. constructor; [done|]. intros path' position Hpos. rewrite Hf in Hpos. injection Hpos as <- <-.
  exists sg. split_and!; try done; [lia|]. rewrite length_app, Hh, Hb. done.
Qed.

Lemma sim_read l p s r res r' s' :
  readOffset cfg io (rd_offset r) (p_segments p) (p_originComplete p) r s = (res, (r', s')) ->
  Wf cfg l (sp_disk s) p -> reader_ok l (sp_disk s) p r -> rd_closed r = false -> rd_partition r = p_key p -> p_low p <= rd_offset r < p_high p ->
  (s' = s \/ s' = bump s) /\ rd_closed r' = false /\ rd_partition r' = rd_partition r /\ rd_offset r' = rd_offset r /\
  ((exists x, res = Ok x /\ l !! Z.to_nat (rd_offset r) = Some x /\ reader_ok l (sp_disk s) p (set_rd_offset (rd_offset r + 1) r'))
   \/ (res = Fail ErrIO /\ reader_ok l (sp_disk s) p r')).
Proof.
  unfold readOffset. intros E Hwf [Ho Hfile] Hcl Hpart Hoff. pose proof Hwf as [].
  destruct (chain_select _ _ _ _ _ _ _ _ None wf_chain Hoff) as (sg&e&Hsel&Hin&Hbe&Hehigh&Hcont).
  destruct (chain_in _ _ _ _ _ _ _ sg wf_chain Hin) as [Hpath Hbase]. rewrite Hsel, Hcl in E.
  assert (Hmain : forall r1 s1 c, sp_disk s !! sg_path sg = Some c -> (s1 = s \/ s1 = bump s) ->
    rd_closed r1 = false -> rd_partition r1 = rd_partition r -> rd_offset r1 = rd_offset r -> sg_base sg <= rd_nextOffset r1 <= rd_offset r ->
    rd_file r1 = Some (sg_path sg, (segmentHeaderSize + length (encs (recs (sg_base sg) (rd_nextOffset r1) l)))%nat) ->
    (let content := default [] (sp_disk s1 !! sg_path sg) in
      match skip_records cfg (Z.to_nat (rd_offset r - rd_nextOffset r1)) content (sg_path sg) (rd_offset r) r1 with
      | (Some e, r) => (Fail e, (r, s1))
      | (None, r) =>
        match rd_file r with
        | None => (Fail ErrUnavailable, (r, s1))
        | Some (_, position) => let '(result, r) := read_next cfg content r (sg_path sg) position in (result, (r, s1))
        end
      end) = (res, (r', s')) ->
    (s' = s \/ s' = bump s) /\ rd_closed r' = false /\ rd_partition r' = rd_partition r /\ rd_offset r' = rd_offset r /\
    ((exists x, res = Ok x /\ l !! Z.to_nat (rd_offset r) = Some x /\ reader_ok l (sp_disk s) p (set_rd_offset (rd_offset r + 1) r'))
     \/ (res = Fail ErrIO /\ reader_ok l (sp_disk s) p r'))).
  { clear E. intros r1 s1 c Hc Hs1 Hcl1 Hp1 Ho1 Hn1 Hf1 E. destruct (Hcont c Hc) as (t&junk&Hcc).
    set (header := encodeSegmentHeader _ _ _ _) in Hcc. assert (Hh : length header = segmentHeaderSize) by (by apply header_length).
    assert (Hs1c : sp_disk s1 !! sg_path sg = Some c) by (destruct Hs1 as [-> | ->]; done). cbv zeta in E. rewrite Hs1c in E. cbn [default id] in E.
    assert (Hpos : positioned l header (sg_base sg) (sg_path sg) r1) by (split; [by rewrite length_app, Hh|lia]).
    rewrite Hcc in E. destruct (skip_forward l header junk (sg_base sg) e (sg_path sg) wf_log ltac:(lia) ltac:(lia) _ (rd_offset r) r1 Hpos ltac:(lia) eq_refl)
      as (r2&E2&(Hpos2&Hn2&Hc2&Hk2&Ho2)). rewrite E2 in E.
    destruct (read_forward l header junk (sg_base sg) e (sg_path sg) wf_log ltac:(lia) ltac:(lia) r2 Hpos2 ltac:(lia))
      as (x&r3&Hx&E3&(Hpos3&Hn3&Hc3&Hk3&Ho3)). pose proof Hpos2 as [Hf2 _]. rewrite Hf2, (E3 _ Hf2) in E. injection E as <- <- <-.
    split_and!; [done|congruence|congruence|congruence|]. left. exists x. rewrite Hn2 in Hx. split_and!; [done|done|].
    eapply (positioned_ok l p sg c _ _ header (sg_base sg) (sg_path sg)); try done; cbn; lia. }
  destruct (bool_decide (_ = Some (sg_path sg)) && _) eqn:Hreuse.
  - apply andb_prop in Hreuse as [Hf Hn]. apply bool_decide_eq_true in Hf. apply Z.leb_le in Hn.
    destruct (rd_file r) as [[path position]|] eqn:Hfr; [|done]. cbn in Hf. injection Hf as ->.
    destruct (Hfile _ _ eq_refl) as (sg'&Hin'&Hsg'&[c Hc]&Hb'&Hpos). destruct (chain_in _ _ _ _ _ _ _ sg' wf_chain Hin') as [Hpath' Hbase'].
    assert (Hb : sg_base sg' = sg_base sg).
    { rewrite Hpath, Hpath' in Hsg'. pose proof (wf_high_u64 _ _ _ _ Hwf). apply (segment_path_inj (p_key p)) in Hsg'; lia. }
    rewrite Hb in *. eapply (Hmain r s c); try done; [by left|by rewrite Hfr, Hpos].
  - unfold open_segment, io_ok in E. cbn [sp_disk bump] in E. destruct (sp_disk s !! sg_path sg) as [c|] eqn:Hc.
    2: { injection E as <- <- <-. split_and!; [by right|done|done|done|]. right. split; [done|]. by constructor. }
    destruct (io (sp_tick s)); cbn [negb] in E.
    2: { injection E as <- <- <-. split_and!; [by right|done|done|done|]. right. split; [done|]. by constructor. }
    destruct (Hcont c eq_refl) as (t&junk&Hcc).
    assert (Hdec : decodeSegmentHeader c = Ok (MkHeader (p_key p) (sg_base sg) (p_originComplete p), encs (recs (sg_base sg) e l) ++ junk)).
    { rewrite Hcc. apply segment_header_roundtrip; [apply wf_key..|]. pose proof (wf_high_u64 _ _ _ _ Hwf). unfold is_u64. lia. }
    rewrite Hdec in E. cbn [h_key h_base h_originComplete] in E. change (rd_partition (set_rd_file None r)) with (rd_partition r) in E.
    rewrite Hpart, bool_decide_eq_true_2, Z.eqb_refl, Bool.eqb_reflx in E by done. cbn [andb] in E.
    eapply (Hmain _ (bump s) c); [done|by right| | | | | |exact E]; try done; [cbn; lia|]. cbn. rewrite recs_nil. cbn. do 2 f_equal.
    rewrite Hcc, length_app, header_length by apply wf_key. unfold segmentHeaderSize. lia.
Qed.

Lemma sim_next A B s id r s' :
  Next cfg io id s = (r, s') -> Held A B None s -> exact A s ->
  exists B', op_step A B (OpNext id) (OutNext r) A B' /\ Held A B' None s'.
Proof.
  unfold Next. intros E HH He. pose proof HH as [HI _]. cbn in HI. destruct (sp_readers s !! id) as [rd|] eqn:Hr.
  2: { injection E as <- <-. eexists. split; [apply step_next_closed; eapply cursor_closed; [done|]; by rewrite Hr|done]. }
  destruct (rd_closed rd) eqn:Hcl.
  { injection E as <- <-. eexists. split; [apply step_next_closed; eapply cursor_closed; [done|]; intros r'; rewrite Hr; by intros [= <-]|done]. }
  destruct (iv_readers _ _ _ _ _ HI id rd Hr Hcl) as (HB&p&Hp&Hid). set (k := rd_partition rd) in *.
  rewrite (object_registered _ _ _ Hp) in E. destruct (exact_object _ _ _ _ _ HH He (object_registered _ _ _ Hp)) as (Ek&a&Ha&El&Es&Eh&_).
  destruct (iv_part _ _ _ _ _ HI k p Hp) as (a'&Ha'&[]). assert (a' = a) as -> by congruence. pose proof (po_readers id rd Hid Hr) as Hok.
  destruct (rd_offset rd <? p_low p) eqn:Hlow.
  { apply Z.ltb_lt in Hlow. injection E as <- <-. eexists. split; [eapply step_next_error; [done|done|left; split; [done|lia]]|done]. }
  apply Z.ltb_ge in Hlow. destruct (rd_offset rd <? p_high p) eqn:Hhigh.
  - apply Z.ltb_lt in Hhigh. destruct (readOffset _ _ _ _ _ rd s) as [res [r1 s1]] eqn:E1.
    destruct (sim_read (st_log a) p s rd res r1 s1 E1 po_wf Hok Hcl (eq_sym Ek)) as (Hs1&Hc1&Hp1&Ho1&Hres); [lia|].
    assert (Hput : forall r2, reader_ok (st_log a) (sp_disk s) p r2 -> rd_closed r2 = false -> rd_partition r2 = k ->
      Held A (<[id := (k, rd_offset r2)]> B) None (put_reader id r2 s1)).
    { intros r2 Hok2 Hc2 Hp2. assert (HH1 : Held A B None s1) by (destruct Hs1 as [-> | ->]; [done|by apply held_bump]).
      destruct HH1 as [HI1 _]. split; [|done]. cbn in *. assert (Hr1 : sp_readers s1 !! id = Some rd) by (destruct Hs1 as [-> | ->]; done).
      assert (Hpp : sp_partitions s1 = sp_partitions s /\ sp_disk s1 = sp_disk s) by (destruct Hs1 as [-> | ->]; done). destruct Hpp as [Hpp Hdd].
      rewrite Hpp in *. apply (inv_reader _ _ _ _ _ rd r2 p a HI1 Hr1 Hcl Hp Ha); [by rewrite Hdd|done|done]. }
    destruct Hres as [(x&->&Hx&Hok2)|[-> Hok2]].
    + pose proof (proj2 (wf_log _ _ _ _ po_wf) _ _ Hx) as [Hxo _].
      assert (Hoff : r_Offset x = rd_offset rd) by (rewrite Hxo, Z2Nat.id; [done|]; destruct Hok; lia).
      rewrite Hoff, Z.eqb_refl in E. injection E as <- <-. eexists. split; [eapply step_next; [done|done|lia|done]|].
      assert (Hu : u64 (rd_offset rd + 1) = rd_offset rd + 1).
      { apply u64_small. pose proof (wf_high_u64 _ _ _ _ po_wf). destruct Hok. unfold is_u64. lia. }
      rewrite Hu. apply (Hput _ Hok2); [done|exact Hp1].
    + injection E as <- <-. exists B. split; [eapply step_next_error; [done|done|right; right; split; [done|lia]]|].
      replace B with (<[id := (k, rd_offset r1)]> B) by (rewrite insert_id; [done|by rewrite Ho1]). apply (Hput _ Hok2); [done|exact Hp1].
  - apply Z.ltb_ge in Hhigh. assert (Heq : rd_offset rd = high (st_log a)) by (destruct Hok; lia).
    destruct (decide (writable (p_state p))) as [Hw|Hw].
    + assert (Ew : (Wait, s) = (r, s')) by (destruct Hw as [Hw|Hw]; rewrite Hw in E; done). injection Ew as <- <-. exists B. split; [|done].
      rewrite Heq in HB. eapply step_wait; [done|done|by rewrite Es].
    + assert (Ew : (NextError (stateError (p_state p)), s) = (r, s')) by (destruct (p_state p); try done; exfalso; apply Hw; [by left|by right]).
      injection Ew as <- <-. exists B. split; [|done]. eapply step_next_error; [done|done|]. right. left. rewrite Es. done.
Qed.
End Sim.
