(* ===== verification/SpoolProps.v ===== *)
(** * The stream spool: theorems

    Every run of the store, with any faults of the file system, is a run of
    the specification of [SpoolSpec]; a reader gets consecutive records of the
    log that was appended; and the store stays within its bounds. *)

From Stdlib Require Import ZArith Lia Ascii String.
From stdpp Require Import base option strings list gmap sets sorting.
From S2P Require Import Prelude GoStrings GoText GoPath SpoolFormat SpoolStore SpoolFacts SpoolChain SpoolLocal SpoolAppend SpoolInv SpoolSpec SpoolSim.

Open Scope list_scope.
Open Scope Z_scope.

(** ** Runs *)

(** The ranges of the Go types. *)
Definition op_typed (op : Op) : Prop :=
  match op with
  | OpRegister _ l _ _ i => length l.2 = 32%nat /\ Forall byte l.2 /\ forall j, i = Some j -> length j = 16%nat /\ Forall byte j
  | OpAppend _ _ records _ => Forall typed records
  | OpReader _ _ offset => 0 <= offset
  | _ => True
  end.

Definition drawn (op : Op) : option (list Z) := match op with OpRegister _ _ _ _ i => i | _ => None end.
Definition batch (op : Op) : Z := match op with OpAppend _ _ records _ => Z.of_nat (length records) | _ => 0 end.
Definition batches (ops : list Op) : Z := fold_right (fun op n => batch op + n) 0 ops.

Lemma batches_nonneg ops : 0 <= batches ops.
Proof. unfold batches. induction ops as [|op ops IH]; cbn; [done|]. destruct op; cbn; lia. Qed.

(** Random incarnations do not repeat, and no offset wraps around. *)
Record run_ok (epoch : list Z) (ops : list Op) : Prop := {
  ok_epoch : length epoch = 16%nat /\ Forall byte epoch;
  ok_typed : Forall op_typed ops;
  ok_drawn : NoDup (omap drawn ops);
  ok_batches : batches ops < u64_modulus;
}.

Lemma good_defaults c : good_config (withDefaults c).
Proof.
  assert (Hd : forall v d, 0 < d -> 0 < withDefault v d).
  { intros v d Hd. unfold withDefault. destruct (v <=? 0) eqn:E; [done|]. by apply Z.leb_gt in E. }
  constructor; cbn -[withDefault Z.shiftl MaximumRecordBytes]; split_and?; apply Hd; reflexivity.
Qed.

Section Run.
Context (cfg : Config) (io : nat -> IoOutcome) (clock : nat -> Z) (epoch : list Z) (Hcfg : good_config cfg).
Context (Hepoch : length epoch = 16%nat /\ Forall byte epoch).

Lemma new_held : Held cfg ∅ ∅ None NewSpool.
Proof.
  clear Hepoch. destruct Hcfg. split; [|done]. constructor; cbn; try (by intros; simplify_map_eq); rewrite ?total_empty; try lia; try done. rewrite map_size_empty. lia.
Qed.

Lemma sim_step A B op s out s' :
  exec cfg io clock epoch op s = (out, s') -> Held cfg A B None s -> op_typed op ->
  (forall k i, is_Some (A !! k) -> drawn op = Some i -> Incarnation k <> i) ->
  (forall k a, A !! k = Some a -> high (st_log a) + batch op < u64_modulus) ->
  exists A1 A' B', evolve A A1 /\ op_step A1 B op out A' B' /\ Held cfg A' B' None s'.
Proof.
  intros E HH Ht Hi Hb. destruct (tighten cfg A B s HH) as (A1&Hev&H1&He). exists A1.
  assert (Hb1 : forall k a, A1 !! k = Some a -> high (st_log a) + batch op < u64_modulus).
  { intros k a Ha. destruct Hev as [Hd Hev]. destruct (Hd k) as [a0 Ha0]; [by eexists|]. destruct (Hev k a0 Ha0) as (a'&Ha'&El&_).
    assert (a' = a) as -> by congruence. rewrite El. by eapply Hb. }
  assert (Hi1 : forall k i, is_Some (A1 !! k) -> drawn op = Some i -> Incarnation k <> i) by (intros k i Hk; apply Hi, Hev, Hk).
  destruct op; cbn [exec] in E.
  - destruct (Register _ _ _ _ _ _ _ _ _) as [r s1] eqn:E1. injection E as <- <-. destruct Ht as (Hl1&Hl2&Hj).
    destruct (sim_register cfg clock epoch Hcfg _ _ _ _ _ _ _ _ _ _ E1 H1 Hl1 Hl2 (proj1 Hepoch) (proj2 Hepoch)) as (A'&Hop&H2); [|by exists A', B].
    intros j Hj'. destruct (Hj j Hj') as [??]. split_and!; [done|done|]. intros k Hk. by apply Hi1.
  - destruct (Publish _ _ _ _ _) as [e s1] eqn:E1. injection E as <- <-. exists A1, B. split_and!; [done|constructor|].
    change s1 with (snd (e, s1)). rewrite <- E1. by apply sim_publish.
  - destruct (AppendBatch _ _ _ _ _ _ _ _) as [[start e] s1] eqn:E1. injection E as <- <-.
    destruct (sim_append cfg io clock Hcfg _ _ _ _ _ _ _ _ _ _ E1 H1 He Ht (Hb1 _)) as (A'&Hop&H2). by exists A', B.
  - destruct (FinishEmpty _ _ _ _ _) as [e s1] eqn:E1. injection E as <- <-.
    destruct (sim_finish_empty cfg io clock Hcfg _ _ _ _ _ _ _ E1 H1 He) as (A'&Hop&H2). by exists A', B.
  - destruct (Seal _ _ _ _ _) as [e s1] eqn:E1. injection E as <- <-.
    destruct (sim_seal cfg io clock Hcfg _ _ _ _ _ _ _ E1 H1 He) as (A'&Hop&H2). by exists A', B.
  - destruct (Invalidate _ _ _ _) as [e s1] eqn:E1. injection E as <- <-.
    destruct (sim_invalidate cfg io clock Hcfg _ _ _ _ _ _ E1 H1 He) as (A'&Hop&H2). by exists A', B.
  - injection E as <- <-. exists A1, B. split_and!; [done|by eapply sim_writer_bounds|done].
  - injection E as <- <-. exists A1, B. split_and!; [done|by eapply sim_bounds|done].
  - injection E as <- <-. exists A1, B. split_and!; [done|by eapply sim_resolve|done].
  - destruct (OpenReader _ _ _ _ _) as [r s1] eqn:E1. injection E as <- <-.
    destruct (sim_reader cfg io clock Hcfg _ _ _ _ _ _ _ _ E1 H1 He Ht) as (B'&Hop&H2). by exists A1, B'.
  - destruct (Next _ _ _ _) as [r s1] eqn:E1. injection E as <- <-.
    destruct (sim_next cfg io _ _ _ _ _ _ E1 H1 He) as (B'&Hop&H2). by exists A1, B'.
  - injection E as <- <-. exists A1, (delete id B). split_and!; [done|constructor|by apply sim_close_reader].
  - destruct (Remove _ _ _ _) as [e s1] eqn:E1. injection E as <- <-. exists A1, B. split_and!; [done|constructor|].
    change s1 with (snd (e, s1)). rewrite <- E1. by apply sim_remove.
  - destruct (Collect _ _ _ _ _ _) as [es s1] eqn:E1. injection E as <- <-. exists A1, B. split_and!; [done|constructor|].
    change s1 with (snd (es, s1)). rewrite <- E1. by apply sim_collect.
  - injection E as <- <-. exists A1, B. split_and!; [done|constructor|by apply sim_close].
Qed.

(** What an operation does to the keys and the lengths of the logs. *)
Lemma op_step_keys A B op out A' B' k a' :
  op_step A B op out A' B' -> A' !! k = Some a' ->
  (exists a, A !! k = Some a /\ high (st_log a') <= high (st_log a) + batch op) \/ (drawn op = Some (Incarnation k) /\ high (st_log a') = 0).
Proof.
  assert (Hself : forall op, A !! k = Some a' -> (exists a, A !! k = Some a /\ high (st_log a') <= high (st_log a) + batch op)).
  { intros op' Ha. exists a'. split; [done|]. destruct op'; cbn; lia. }
  assert (Hset : forall k' a op n, A !! k' = Some a -> n <= high (st_log a) + batch op -> 0 <= batch op ->
    forall x, high (st_log x) = n -> <[k' := x]> A !! k = Some a' -> exists a, A !! k = Some a /\ high (st_log a') <= high (st_log a) + batch op).
  { intros k' a op' n Ha Hn H0 x Hx Hk. destruct (decide (k = k')) as [->|]; [|rewrite lookup_insert_ne in Hk by done; by apply Hself].
    rewrite lookup_insert_eq in Hk. injection Hk as <-. exists a. split; [done|lia]. }
  intros Hop Hk. inversion Hop; subst; try (left; by apply Hself).
  - destruct (decide (k0 = k)) as [->|]; [|rewrite lookup_insert_ne in Hk by done; left; by apply Hself].
    right. split; [done|]. rewrite lookup_insert_eq in Hk. by injection Hk as <-.
  - left. eapply Hset; [done| | |reflexivity|done]; cbn; unfold high; rewrite ?length_app, ?stamp_length; lia.
  - left. eapply Hset; [done| | |reflexivity|done]; cbn; unfold high; rewrite ?length_app, ?stamp_length, ?length_take; lia.
  - left. eapply Hset; [done| | |reflexivity|done]; cbn; lia.
  - left. eapply Hset; [done| | |reflexivity|done]; cbn; lia.
  - left. eapply Hset; [done| | |reflexivity|done]; cbn; lia.
Qed.

Lemma sim_run ops A B s trace s' :
  exec_all cfg io clock epoch ops s = (trace, s') -> Held cfg A B None s -> Forall op_typed ops -> NoDup (omap drawn ops) ->
  (forall k, is_Some (A !! k) -> Incarnation k ∉ omap drawn ops) ->
  (forall k a, A !! k = Some a -> high (st_log a) + batches ops < u64_modulus) -> batches ops < u64_modulus ->
  exists A' B', spec_run A B trace A' B' /\ Held cfg A' B' None s' /\ exact A' s'.
Proof.
  revert A B s trace. induction ops as [|op ops IH]; intros A B s trace E HH Ht Hnd Hi Hb Hall; cbn [exec_all] in E.
  - injection E as <- <-. destruct (tighten cfg A B s HH) as (A1&Hev&H1&He). exists A1, B. split_and!; [by constructor|done|done].
  - destruct (exec _ _ _ _ op s) as [out s1] eqn:E1. destruct (exec_all _ _ _ _ ops s1) as [trace1 s2] eqn:E2. injection E as <- <-.
    apply Forall_cons in Ht as [Ht1 Ht]. change (batches (op :: ops)) with (batch op + batches ops) in *.
    pose proof (batches_nonneg ops) as Hpos.
    assert (Hop0 : 0 <= batch op) by (destruct op; cbn; lia).
    destruct (sim_step A B op s out s1 E1 HH Ht1) as (A1&A2&B2&Hev&Hop&H2).
    + intros k i Hk Hd. pose proof (Hi k Hk) as Hn. intros <-. apply Hn. cbn [omap list_omap]. rewrite Hd. left.
    + intros k a Ha. pose proof (Hb k a Ha). lia.
    + assert (Hkeys : forall k a2, A2 !! k = Some a2 ->
        (exists a, A !! k = Some a /\ high (st_log a2) <= high (st_log a) + batch op) \/ (drawn op = Some (Incarnation k) /\ high (st_log a2) = 0)).
      { intros k a2 Ha2. destruct (op_step_keys _ _ _ _ _ _ _ _ Hop Ha2) as [(a1&Ha1&Hle)|?]; [left|by right].
        destruct Hev as [Hd Hev]. destruct (Hd k) as [a Ha]; [by eexists|]. destruct (Hev k a Ha) as (a'&Ha'&El&_).
        assert (a' = a1) as -> by congruence. exists a. split; [done|]. by rewrite <- El. }
      destruct (IH A2 B2 s1 trace1 E2 H2 Ht) as (A'&B'&Hrun&H3&He3).
      * cbn [omap list_omap] in Hnd. destruct (drawn op); [by apply NoDup_cons in Hnd as [_ ?]|done].
      * intros k [a2 Ha2]. destruct (Hkeys k a2 Ha2) as [(a&Ha&_)|[Hd _]].
        -- pose proof (Hi k ltac:(by eexists)) as Hn. cbn [omap list_omap] in Hn. destruct (drawn op); [|done]. intros Hin. apply Hn. by right.
        -- cbn [omap list_omap] in Hnd. rewrite Hd in Hnd. by apply NoDup_cons in Hnd as [? _].
      * intros k a2 Ha2. destruct (Hkeys k a2 Ha2) as [(a&Ha&Hle)|[_ ->]]; [pose proof (Hb k a Ha); lia|lia].
      * lia.
      * exists A', B'. split_and!; [by econstructor|done|done].
Qed.
End Run.

Lemma run_simulated c io clock epoch ops trace s :
  run_ok epoch ops -> exec_all (withDefaults c) io clock epoch ops NewSpool = (trace, s) ->
  exists A B, spec_run ∅ ∅ trace A B /\ Held (withDefaults c) A B None s /\ exact A s.
Proof.
  intros [He Ht Hn Hb] E. eapply (sim_run (withDefaults c) io clock epoch (good_defaults c) He ops); try done.
  - apply new_held, good_defaults.
  - intros k [a Ha]. by simplify_map_eq.
Qed.

(** C2: The spool is a set of append-only logs.  Whatever the operations, the
    order in which the map of partitions is walked, the clock and the faults of
    the file system, the answers of the store are a run of the specification
    [SpoolSpec]: an append that succeeds adds its records at the offset it
    reports, one that fails adds a prefix of them and stops the stream; a
    reader gets the record at its offset with its type, time and payload, waits
    at the end of a stream that takes records, and learns why otherwise, which
    is never a corrupt record; offsets below the low mark are expired and
    nothing else is.  At the end the low marks and states are those of the
    store. *)
Theorem spool_refines_log (c : Config) (io : nat -> IoOutcome) (clock : nat -> Z) (epoch : list Z) (ops : list Op) :
  run_ok epoch ops ->
  exists A B, spec_run ∅ ∅ (exec_all (withDefaults c) io clock epoch ops NewSpool).1 A B
    /\ exact A (exec_all (withDefaults c) io clock epoch ops NewSpool).2.
Proof.
  intros Hok. destruct (exec_all _ _ _ _ ops NewSpool) as [trace s] eqn:E. destruct (run_simulated _ _ _ _ _ _ _ Hok E) as (A&B&Hrun&_&He).
  by exists A, B.
Qed.

(** ** What a reader gets *)

(** The records that a reader got, and those that successful appends added to a stream. *)
Definition got (id : nat) (trace : list (Op * Out)) : list SpoolRecord :=
  trace ≫= fun x => match x with (OpNext i, OutNext (Got r)) => if decide (i = id) then [r] else [] | _ => [] end.
Definition appended_to (k : Key) (trace : list (Op * Out)) : list SpoolRecord :=
  trace ≫= fun x => match x with (OpAppend _ k' records _, OutAppend _ None) => if decide (k' = k) then records else [] | _ => [] end.

Definition failed_to (k : Key) (trace : list (Op * Out)) : list (list SpoolRecord) :=
  trace ≫= fun x => match x with (OpAppend _ k' records _, OutAppend _ (Some _)) => if decide (k' = k) then [records] else [] | _ => [] end.

Definition log_of (A : Streams) (k : Key) : list SpoolRecord := match A !! k with Some a => st_log a | None => [] end.
Definition known (A : Streams) (k : Key) : Prop := is_Some (A !! k).

(** A stream that took a prefix of a batch takes no more. *)
Definition follows (A : Streams) (k : Key) (rs : list SpoolRecord) (failed : list (list SpoolRecord)) : Prop :=
  match A !! k with
  | Some a => exists rest, st_log a = stamp 0 (rs ++ rest) /\ (writable (st_state a) -> rest = [])
      /\ (rest = [] \/ exists batch n, batch ∈ failed /\ rest = take n batch)
  | None => rs = []
  end.

Lemma evolve_log A A' k : evolve A A' -> log_of A' k = log_of A k /\ (known A k -> known A' k).
Proof.
  intros [Hd He]. unfold log_of, known. destruct (A !! k) as [a|] eqn:Ha.
  - destruct (He k a Ha) as (a'&Ha'&El&_). rewrite Ha'. by split.
  - destruct (A' !! k) as [a'|] eqn:Ha'; [|done]. destruct (Hd k) as [a Ha2]; [by eexists|]. congruence.
Qed.

Lemma evolve_follows A A' k rs failed : evolve A A' -> follows A k rs failed -> follows A' k rs failed.
Proof.
  intros [Hd He]. unfold follows. destruct (A !! k) as [a|] eqn:Ha.
  - destruct (He k a Ha) as (a'&Ha'&El&_&Hst). rewrite Ha', El. intros (rest&Hl&Hw&Hf). exists rest. split; [done|]. split; [|done]. intros Hw'. apply Hw.
    destruct Hst as [->|Hr]; [done|]. destruct Hw' as [E|E]; rewrite E in Hr; destruct (st_state a); cbn in Hr; try lia. by left.
  - destruct (A' !! k) as [a'|] eqn:Ha'; [|done]. destruct (Hd k) as [a Ha2]; [by eexists|]. congruence.
Qed.

Lemma step_log A B op out A' B' k : op_step A B op out A' B' -> known A k -> log_of A k `prefix_of` log_of A' k /\ known A' k.
Proof.
  intros Hop [a Ha]. unfold log_of, known. inversion Hop; subst; try (split; [done|by eexists]).
  all: match goal with |- context [<[?k' := _]> _ !! _] => destruct (decide (k = k')) as [->|] end;
    [rewrite lookup_insert_eq|rewrite lookup_insert_ne by done; split; [done|by eexists]].
  1: congruence.
  all: simplify_map_eq; split; [|by eexists]; cbn; try done; by apply prefix_app_r.
Qed.

Lemma step_follows A B op out A' B' k rs failed :
  op_step A B op out A' B' -> follows A k rs failed -> follows A' k (rs ++ appended_to k [(op, out)]) (failed ++ failed_to k [(op, out)]).
Proof.
  intros Hop Hf. unfold appended_to, failed_to.
  assert (Hsame : forall rs' failed', rs' = [] -> follows A k (rs ++ rs') (failed ++ failed')).
  { intros ? failed' ->. rewrite app_nil_r. unfold follows in *. destruct (A !! k); [|done]. destruct Hf as (rest&?&?&Hr). exists rest. split_and!; try done.
    destruct Hr as [?|(b&n&Hb&?)]; [by left|right; exists b, n]. split; [apply elem_of_app; by left|done]. }
  inversion Hop; subst; cbn -[follows]; try (by apply Hsame).
  all: try case_decide; subst; rewrite ?app_nil_r; unfold follows in *;
    try match goal with |- context [<[?k' := _]> _ !! _] => destruct (decide (k = k')) as [->|] end;
    rewrite ?lookup_insert_eq, ?lookup_insert_ne by done; try done; simplify_map_eq; try destruct Hf as (rest&Hl&Hw&Hr).
  - exists []. split_and!; try done. by left.
  - rewrite (Hw ltac:(done)), app_nil_r in Hl. exists []. rewrite app_nil_r. cbn. rewrite Hl, stamp_app.
    unfold high. rewrite stamp_length. split_and!; [done|done|by left].
  - rewrite (Hw ltac:(done)), app_nil_r in Hl. exists (take n records). cbn. rewrite Hl, stamp_app.
    unfold high. rewrite stamp_length. split_and!; [done|by intros [|]|]. right. exists records, n. split; [|done]. apply elem_of_app. right. left.
  - exists rest. split_and!; [done|by intros [|]|done].
  - exists rest. split_and!; [done| |done]. intros Hst. by destruct (terminal_stopped _ Hst).
  - exists rest. split_and!; [done|by intros [|]|done].
  - exists rest. split_and!; [done|by intros [|]|done].
Qed.

Lemma run_follows A B trace A' B' k rs failed :
  spec_run A B trace A' B' -> follows A k rs failed -> follows A' k (rs ++ appended_to k trace) (failed ++ failed_to k trace).
Proof.
  intros Hrun. revert rs failed. induction Hrun as [A B A' Hev|A B A1 op out A2 B2 trace A' B' Hev Hop Hrun IH]; intros rs failed Hf.
  - rewrite !app_nil_r. by eapply evolve_follows.
  - eapply evolve_follows in Hf; [|done]. eapply step_follows in Hf; [|done]. apply IH in Hf. rewrite <- !(assoc_L (++)) in Hf.
    unfold appended_to, failed_to in *. cbn in *. by rewrite !app_nil_r in Hf.
Qed.

Lemma run_log A B trace A' B' k : spec_run A B trace A' B' -> known A k -> log_of A k `prefix_of` log_of A' k /\ known A' k.
Proof.
  induction 1 as [A B A' Hev|A B A1 op out A2 B2 trace A' B' Hev Hop Hrun IH]; intros Hk.
  - destruct (evolve_log _ _ k Hev) as [-> ?]. split; [done|auto].
  - destruct (evolve_log _ _ k Hev) as [E Hk1]. destruct (step_log _ _ _ _ _ _ k Hop (Hk1 Hk)) as [H1 H2]. destruct (IH H2) as [H3 H4].
    split; [|done]. rewrite <- E. by etrans.
Qed.

Definition closes (id : nat) (trace : list (Op * Out)) : Prop := exists out, (OpCloseReader id, out) ∈ trace.

(** From its cursor on, a reader that stays open gets consecutive records of the log. *)
Lemma run_got A B trace A' B' id k offset :
  spec_run A B trace A' B' -> B !! id = Some (k, offset) -> known A k -> 0 <= offset -> ~ closes id trace ->
  got id trace = recs offset (offset + Z.of_nat (length (got id trace))) (log_of A' k)
  /\ offset + Z.of_nat (length (got id trace)) <= Z.max offset (high (log_of A' k)).
Proof.
  intros Hrun. revert offset. induction Hrun as [A B A' Hev|A B A1 op out A2 B2 trace A' B' Hev Hop Hrun IH]; intros offset HB Hk Ho Hcl.
  - cbn. rewrite Z.add_0_r, recs_nil. split; [done|lia].
  - assert (Hcl' : ~ closes id trace) by (intros [o Hin]; apply Hcl; exists o; by right).
    destruct (evolve_log _ _ k Hev) as [_ Hk1]. destruct (step_log _ _ _ _ _ _ k Hop (Hk1 Hk)) as [_ Hk2].
    assert (Hskip : B2 !! id = Some (k, offset) -> got id ((op, out) :: trace) = got id trace ->
      got id ((op, out) :: trace) = recs offset (offset + Z.of_nat (length (got id ((op, out) :: trace)))) (log_of A' k)
      /\ offset + Z.of_nat (length (got id ((op, out) :: trace))) <= Z.max offset (high (log_of A' k))).
    { intros HB2 ->. by apply IH. }
    inversion Hop; subst; try (apply Hskip; done).
    + apply Hskip; [|done]. rewrite lookup_insert_ne; [done|]. congruence.
    + destruct (decide (id0 = id)) as [->|Hne].
      * assert (k0 = k /\ offset0 = offset) as [-> ->] by (split; congruence). rewrite lookup_insert_eq in IH.
        destruct (IH (offset + 1) eq_refl Hk2 ltac:(lia) Hcl') as [E Hle]. clear IH Hskip.
        assert (Hg : got id ((OpNext id, OutNext (Got r)) :: trace) = r :: got id trace) by (unfold got; cbn; by rewrite decide_True).
        rewrite Hg. cbn [length]. set (n := Z.of_nat (length (got id trace))) in *.
        replace (offset + Z.of_nat (S (length (got id trace)))) with (offset + 1 + n) by lia.
        destruct (run_log _ _ _ _ _ k Hrun Hk2) as [[more Hmore] _]. assert (Hla : log_of A2 k = st_log a) by (unfold log_of; by simplify_map_eq).
        rewrite Hla in Hmore.
        assert (Hr : log_of A' k !! Z.to_nat offset = Some r) by (rewrite Hmore; by apply lookup_app_l_Some).
        assert (Hhi : offset < high (log_of A' k)) by (apply lookup_lt_Some in Hr; unfold high; lia).
        rewrite (recs_split offset (offset + 1) (offset + 1 + n)), (recs_one offset _ r) by (done || lia). split; [|lia]. cbn. by f_equal.
      * apply Hskip; [by rewrite lookup_insert_ne|]. unfold got. cbn. by rewrite decide_False.
    + destruct (decide (id0 = id)) as [->|Hne]; [destruct Hcl; exists (OutError None); left|]. apply Hskip; [by rewrite lookup_delete_ne|done].
Qed.

Lemma run_split A B pre op out mid A' B' :
  spec_run A B (pre ++ (op, out) :: mid) A' B' -> exists A1 B1 A2 B2, op_step A1 B1 op out A2 B2 /\ spec_run A2 B2 mid A' B'.
Proof.
  revert A B. induction pre as [|x pre IH]; intros A B Hrun; inversion Hrun; subst; [by repeat eexists|by eapply IH].
Qed.

Lemma exec_all_ops cfg io clock epoch ops s : (exec_all cfg io clock epoch ops s).1.*1 = ops.
Proof.
  revert s. induction ops as [|op ops IH]; intros s; cbn [exec_all]; [done|]. destruct (exec _ _ _ _ op s) as [out s1].
  specialize (IH s1). destruct (exec_all _ _ _ _ ops s1) as [trace s2]. cbn in *. by rewrite IH.
Qed.

(** C3: A reader sees the log.  What a reader gets from the moment it is opened
    at an offset, for as long as it is not closed, whatever else the store
    does, are the records of its stream from that offset on, consecutively,
    none twice and none skipped, with the types, times and payloads that were
    appended and their positions as offsets; the only records besides those
    of successful appends are a prefix of one batch that failed. *)
Theorem reader_sees_log (c : Config) (io : nat -> IoOutcome) (clock : nat -> Z) (epoch : list Z) (ops : list Op)
    (trace pre mid : list (Op * Out)) (cancelled : bool) (k : Key) (offset : Z) (id : nat) :
  run_ok epoch ops -> trace = (exec_all (withDefaults c) io clock epoch ops NewSpool).1 ->
  trace = pre ++ (OpReader cancelled k offset, OutReader (Ok id)) :: mid -> ~ closes id mid ->
  exists rest, (rest = [] \/ exists batch n, batch ∈ failed_to k trace /\ rest = take n batch) /\
    got id mid = recs offset (offset + Z.of_nat (length (got id mid))) (stamp 0 (appended_to k trace ++ rest)).
Proof.
  intros Hok Htrace Hsplit Hcl. pose proof (exec_all_ops (withDefaults c) io clock epoch ops NewSpool) as Hops. rewrite <- Htrace in Hops.
  destruct (exec_all _ _ _ _ ops NewSpool) as [trace' s] eqn:E. cbn in Htrace. subst trace'.
  destruct (run_simulated _ _ _ _ _ _ _ Hok E) as (A&B&Hrun&_&_).
  pose proof (run_follows _ _ _ _ _ k [] [] Hrun) as Hf. unfold follows in Hf. rewrite lookup_empty in Hf. specialize (Hf eq_refl). cbn [app] in Hf.
  rewrite Hsplit in Hrun. destruct (run_split _ _ _ _ _ _ _ _ Hrun) as (A1&B1&A2&B2&Hop&Hrun2).
  assert (Ho : 0 <= offset).
  { destruct Hok as [_ Ht _ _]. rewrite Forall_forall in Ht. apply (Ht (OpReader cancelled k offset)). rewrite <- Hops, Hsplit.
    apply list_elem_of_fmap. exists (OpReader cancelled k offset, OutReader (Ok id)). split; [done|]. apply elem_of_app. right. left. }
  inversion Hop; subst. destruct (run_got _ _ _ _ _ id k offset Hrun2) as [Hgot _]; [apply lookup_insert_eq|by eexists|done|done|].
  destruct (run_log _ _ _ _ _ k Hrun2) as [_ [a' Ha']]; [by eexists|]. rewrite Ha' in Hf. destruct Hf as (rest&Hl&_&Hrest).
  exists rest. split; [done|]. unfold log_of in Hgot. by rewrite Ha', Hl in Hgot.
Qed.

(** ** Bounds *)

(** C4: The spool stays within its bounds.  In every store that operations and
    faults can lead to, the bytes of all its files, also those left by failed
    writes and removals, are at most the bytes it accounts for, which are at
    most [MaxBytes]; each stream has at most [MaxStreamBytes] bytes on disk and
    [MaxSegmentsPerPartition] segments; and the registered partitions, those
    with files, the segments, the active writers, and the readers of a
    partition and of the store are within their limits. *)
Theorem spool_quota (c : Config) (io : nat -> IoOutcome) (clock : nat -> Z) (epoch : list Z) (ops : list Op) :
  run_ok epoch ops ->
  let cfg := withDefaults c in
  let s := (exec_all cfg io clock epoch ops NewSpool).2 in
  disk_bytes (sp_disk s) <= sp_usedBytes s <= MaxBytes cfg
  /\ (forall k p, sp_partitions s !! k = Some p ->
        dir_bytes (p_dir p) (sp_disk s) <= p_accounted p <= MaxStreamBytes cfg
        /\ Z.of_nat (length (p_segments p)) <= MaxSegmentsPerPartition cfg
        /\ Z.of_nat (size (p_leases p)) <= MaxReadersPerPartition cfg)
  /\ Z.of_nat (size (sp_partitions s)) <= MaxPartitions cfg
  /\ total (fun p => flag (p_physical p)) (sp_partitions s) <= MaxPartitions cfg
  /\ total (fun p => Z.of_nat (length (p_segments p))) (sp_partitions s) <= MaxSegments cfg
  /\ total (fun p => flag (p_writerActive p)) (sp_partitions s) <= MaxRegistrations cfg
  /\ total (fun p => Z.of_nat (size (p_leases p))) (sp_partitions s) <= MaxReaders cfg.
Proof.
  intros Hok. cbv zeta. destruct (exec_all _ _ _ _ ops NewSpool) as [trace s] eqn:E.
  destruct (run_simulated _ _ _ _ _ _ _ Hok E) as (A&B&_&[HI _]&_). pose proof (good_defaults c) as Hg.
  set (cfg := withDefaults c) in *. clearbody cfg. cbn in HI |- *.
  assert (Hp : forall k p, sp_partitions s !! k = Some p -> exists l, Wf cfg l (sp_disk s) p
    /\ p_readers p = Z.of_nat (size (p_leases p)) /\ p_readers p <= MaxReadersPerPartition cfg).
  { intros k p Hk. destruct (iv_part _ _ _ _ _ HI k p Hk) as (a&_&[]). exists (st_log a). by split. }
  assert (Hdir : forall k p, sp_partitions s !! k = Some p -> dir_bytes (p_dir p) (sp_disk s) <= p_accounted p).
  { intros k p Hk. destruct (Hp k p Hk) as (l&Hwf&_). destruct (wf_nonneg _ Hg _ _ _ Hwf) as [_ Hn]. destruct Hwf, Hg. unfold charges in *.
    assert (0 <= SegmentAllocationCharge cfg * p_allocSegments p) by (apply Z.mul_nonneg_nonneg; lia). destruct (p_physical p); lia. }
  destruct HI. split_and!; try lia.
  - rewrite iv_used. etrans; [apply (disk_bytes_covered p_dir (sp_partitions s)); apply iv_files|]. by apply total_le.
  - intros k p Hk. pose proof (Hdir k p Hk). destruct (Hp k p Hk) as (l&[]&?&?). split_and!; lia.
  - etrans; [|apply iv_limits]. rewrite iv_segs. apply total_le. intros k p Hk. by destruct (Hp k p Hk) as (l&[]&_).
  - rewrite (total_ext _ p_readers); [lia|]. intros k p Hk. by destruct (Hp k p Hk) as (l&_&?&_).
Qed.

(** ** A run: the file system fails in the middle of a batch *)

Module Sample.
Definition key : Key := MkKey 2 (replicate 32 1) (replicate 16 2) (replicate 16 3).
Definition config : Config := MkConfig 150 0 0 0 0 0 0 0 0 0 0 0 0.
Definition io (n : nat) : IoOutcome := if (n =? 15)%nat then IoFail 3 (fun _ => true) else IoOk.
Definition clock (n : nat) : Z := Z.of_nat n.
Definition first : SpoolRecord := MkSpoolRecord 0 1 5 [7; 8].
Definition second : SpoolRecord := MkSpoolRecord 0 2 (-6) [9; 9; 9].
Definition ops : list Op :=
  [OpRegister false (2, replicate 32 1) true false (Some (replicate 16 3)); OpReader false key 0; OpAppend false key [first] [];
   OpNext 0; OpAppend false key [second; first; first] []; OpNext 0; OpNext 0].
Definition epoch : list Z := replicate 16 2.

Lemma ops_ok : run_ok epoch ops.
Proof.
  assert (Hb : forall n x, 0 <= x < 256 -> Forall byte (replicate n x)) by (intros; by apply Forall_replicate).
  split; [split; [done|apply Hb; lia]| |vm_compute; repeat constructor; set_solver|vm_compute; done].
  unfold ops. repeat (apply Forall_cons; split); cbn; try done.
  - split_and!; [done|apply (Hb 32%nat); lia|]. intros j [= <-]. split; [done|apply (Hb 16%nat); lia].
Defined.

Definition trace : list (Op * Out) := Eval vm_compute in (exec_all (withDefaults config) io clock epoch ops NewSpool).1.
Lemma trace_is : trace = (exec_all (withDefaults config) io clock epoch ops NewSpool).1.
Proof. vm_cast_no_check (eq_refl trace). Defined.

Lemma spool_refines_log_witness :
  exists A B, spec_run ∅ ∅ trace A B /\ exact A (exec_all (withDefaults config) io clock epoch ops NewSpool).2.
Proof. rewrite trace_is. exact (spool_refines_log config io clock epoch ops ops_ok). Defined.

(** The batch that failed got one record into the log. *)
Lemma reader_sees_log_witness :
  got 0 (drop 2 trace) = [MkSpoolRecord 0 1 5 [7; 8]; MkSpoolRecord 1 2 (-6) [9; 9; 9]] /\
  exists rest, (rest = [] \/ exists batch n, batch ∈ [[second; first; first]] /\ rest = take n batch) /\
    got 0 (drop 2 trace) = recs 0 2 (stamp 0 ([first] ++ rest)).
Proof.
  split; [reflexivity|].
  apply (reader_sees_log config io clock epoch ops trace (take 1 trace) (drop 2 trace) false key 0 0 ops_ok trace_is); [reflexivity|].
  intros [out Hin]. cbn in Hin. repeat (apply elem_of_cons in Hin as [Hin|Hin]; [discriminate|]). by apply elem_of_nil in Hin.
Defined.

Lemma spool_quota_witness :
  disk_bytes (sp_disk (exec_all (withDefaults config) io clock epoch ops NewSpool).2) <= MaxBytes (withDefaults config).
Proof. destruct (spool_quota config io clock epoch ops ops_ok) as [[Hdisk Hused] _]. exact (Z.le_trans _ _ _ Hdisk Hused). Defined.
End Sample.
