(* ===== verification/Approval.v ===== *)
(** * Approval decisions

    Models [agent-sdk/approval/strict_options.go], [native_response.go] and the
    review resolution of [approval.go]: which decision an answer to a
    permission request carries.  A strict consumer derives the decision from
    the canonical kind of an offered option; the reviewer path of
    [ResolveReviewResult] matches option text.

    [strings.ToLower] is the parameter [to_lower]; nothing is assumed of it. *)

From Stdlib Require Import ZArith Lia Ascii String.
From stdpp Require Import base list strings option gmap.
From S2P Require Import Prelude GoStrings GoText Fence.

Local Open Scope string_scope.

(** [approval.Option] and [session.ProtocolApprovalOption]. *)
Record Option : Type := MkOption { o_ID : string; o_Name : string; o_Kind : string }.
Global Instance Option_eq_dec : EqDecision Option.
Proof. solve_decision. Defined.

(** [agent.ApprovalResponse]. *)
Record ApprovalResponse : Type := MkResponse {
  a_Outcome : string; a_OptionID : string; a_Approved : bool; a_Reason : string; a_ReviewText : string;
}.

Definition set_decision (outcome optionID : string) (approved : bool) (r : ApprovalResponse) : ApprovalResponse :=
  MkResponse outcome optionID approved (a_Reason r) (a_ReviewText r).

Inductive OptionDecision : Type := OptionDecisionAllow | OptionDecisionDeny.
Global Instance OptionDecision_eq_dec : EqDecision OptionDecision.
Proof. solve_decision. Defined.

Inductive ApprovalError : Type :=
| ErrNoID (index : nat)
| ErrDuplicateID (id : string)
| ErrUnsupportedKind (id kind : string)
| ErrWhitespaceID (id : string)
| ErrNonACPKind (id kind : string)
| ErrOptionRequired
| ErrOptionUnavailable (id : string)
| ErrCancelledSelects
| ErrUnsupportedOutcome (outcome : string)
| ErrOutcomeConflict
| ErrNotOffered
| ErrNoAllowOption.

Section Options.
Variable to_lower : string -> string.

Definition strictOptionDecision (kind : string) : option OptionDecision :=
  let k := to_lower (trim_space kind) in
  if one_of ["allow"; "allow_once"; "allow_always"] k then Some OptionDecisionAllow
  else if one_of ["deny"; "deny_once"; "deny_always"; "reject"; "reject_once"; "reject_always"] k
       then Some OptionDecisionDeny
  else None.

Definition strictNormalize (o : Option) : Option :=
  MkOption (trim_space (o_ID o)) (trim_space (o_Name o)) (to_lower (trim_space (o_Kind o))).

(** The loop of [normalizeStrictOptions]. *)
Fixpoint strict_loop (index : nat) (seen : gset string) (options : list Option) : result ApprovalError (list Option) :=
  match options with
  | [] => Ok []
  | o :: rest =>
    let n := strictNormalize o in
    if o_ID n =? "" then Fail (ErrNoID index) else
    if bool_decide (o_ID n ∈ seen) then Fail (ErrDuplicateID (o_ID n)) else
    match strictOptionDecision (o_Kind n) with
    | None => Fail (ErrUnsupportedKind (o_ID n) (o_Kind n))
    | Some _ => let! out := strict_loop (S index) ({[o_ID n]} ∪ seen) rest in Ok (n :: out)
    end
  end.

Definition normalizeStrictOptions (options : list Option) : result ApprovalError (list Option) :=
  strict_loop 0 ∅ options.

Definition ValidateStrictOptions (options : list Option) : result ApprovalError unit :=
  let! _ := normalizeStrictOptions options in Ok tt.

Fixpoint acp_loop (options : list Option) : result ApprovalError unit :=
  match options with
  | [] => Ok tt
  | o :: rest =>
    if negb (o_ID o =? trim_space (o_ID o)) then Fail (ErrWhitespaceID (o_ID o)) else
    if negb (one_of ["allow_once"; "allow_always"; "reject_once"; "reject_always"] (o_Kind o))
    then Fail (ErrNonACPKind (o_ID o) (o_Kind o)) else acp_loop rest
  end.

Definition ValidateACPOptions (options : list Option) : result ApprovalError unit :=
  let! _ := normalizeStrictOptions options in acp_loop options.

Definition StrictOptionIDs (options : list Option) : result ApprovalError (list string) :=
  let! normalized := normalizeStrictOptions options in Ok (map o_ID normalized).

Definition ResolveStrictOption (options : list Option) (optionID : string)
  : result ApprovalError (Option * option OptionDecision) :=
  let! normalized := normalizeStrictOptions options in
  let id := trim_space optionID in
  if id =? "" then Fail ErrOptionRequired else
  match List.find (fun o => o_ID o =? id) normalized with
  | Some o => Ok (o, strictOptionDecision (o_Kind o))
  | None => Fail (ErrOptionUnavailable id)
  end.

Definition StrictOptionIDForDecision (options : list Option) (decision : OptionDecision)
  : result ApprovalError (option string) :=
  let! normalized := normalizeStrictOptions options in
  Ok (o_ID <$> List.find (fun o => bool_decide (strictOptionDecision (o_Kind o) = Some decision)) normalized).

(** ** [ResolveNativeResponse]

    [options] is [None] for a nil permission. *)
Definition ResolveNativeResponse (options : option (list Option)) (response : ApprovalResponse)
  : result ApprovalError ApprovalResponse :=
  if a_Outcome response =? "cancelled" then
    if negb (a_OptionID response =? "") then Fail ErrCancelledSelects
    else Ok (set_decision (a_Outcome response) (a_OptionID response) false response)
  else
  match options with
  | None | Some [] => Ok response
  | Some options =>
    let! _ := ValidateStrictOptions options in
    if negb (one_of [""; "approved"; "rejected"; "selected"] (a_Outcome response))
    then Fail (ErrUnsupportedOutcome (a_Outcome response)) else
    if (a_Outcome response =? "selected") || negb (a_OptionID response =? "") then
      match List.find (fun o => o_ID o =? a_OptionID response) options with
      | None => Fail ErrNotOffered
      | Some o =>
        let allow := bool_decide (strictOptionDecision (o_Kind o) = Some OptionDecisionAllow) in
        if (a_Outcome response =? "approved") && negb allow || (a_Outcome response =? "rejected") && allow
        then Fail ErrOutcomeConflict else
        Ok (set_decision (if a_Outcome response =? "" then "selected" else a_Outcome response)
              (a_OptionID response) allow response)
      end
    else
      let approved := if a_Outcome response =? "approved" then true
                      else if a_Outcome response =? "rejected" then false else a_Approved response in
      let response := set_decision (a_Outcome response) (a_OptionID response) approved response in
      if approved then
        match StrictOptionIDForDecision options OptionDecisionAllow with
        | Ok (Some _) => Ok response
        | _ => Fail ErrNoAllowOption
        end
      else Ok response
  end.

(** ** Review results ([approval.go]) *)

Record ReviewResult : Type := MkReview {
  v_Outcome : string; v_OptionID : string; v_Approved : bool;
  v_Risk : string; v_Authorization : string; v_Rationale : string; v_DisplayText : string;
}.

Definition set_review (outcome optionID : string) (approved : bool) (r : ReviewResult) : ReviewResult :=
  MkReview outcome optionID approved (v_Risk r) (v_Authorization r) (v_Rationale r) (v_DisplayText r).

Definition NormalizeOptions (options : list Option) : list Option :=
  List.filter (fun o => negb ((o_ID o =? "") && (o_Name o =? "") && (o_Kind o =? "")))
    (map (fun o => MkOption (trim_space (o_ID o)) (trim_space (o_Name o)) (trim_space (o_Kind o))) options).

(** The text of kind, identifier and name decides. *)
Definition optionMatchesDecision (o : Option) (approved : bool) : bool :=
  let value := to_lower (trim_space (o_Kind o ++ " " ++ o_ID o ++ " " ++ o_Name o)) in
  if approved then String.prefix "allow" value || contains value " allow"
  else String.prefix "reject" value || contains value " reject" || String.prefix "deny" value || contains value " deny".

Definition optionIDForDecision (options : list Option) (approved : bool) : string :=
  match List.find (fun o => optionMatchesDecision o approved) options with
  | Some o => trim_space (o_ID o)
  | None => ""
  end.

Definition lookupOptionByID (options : list Option) (optionID : string) : option Option :=
  let id := trim_space optionID in
  if id =? "" then None else List.find (fun o => trim_space (o_ID o) =? id) options.

Definition approvedFromReviewOutcome (r : ReviewResult) : bool :=
  let outcome := to_lower (trim_space (v_Outcome r)) in
  if one_of ["allow"; "approved"] outcome then true
  else if one_of ["deny"; "denied"; "reject"; "rejected"] outcome then false
  else v_Approved r.

Definition ResolveReviewResult (options : list Option) (r : ReviewResult) : ReviewResult :=
  let fallback :=
    let approved := approvedFromReviewOutcome r in
    let id := optionIDForDecision options approved in
    if negb (id =? "") then set_review "selected" id approved r else
    set_review (if trim_space (v_Outcome r) =? "" then if approved then "approved" else "rejected" else v_Outcome r)
      id approved r in
  if negb (trim_space (v_OptionID r) =? "") then
    match lookupOptionByID options (trim_space (v_OptionID r)) with
    | Some o => set_review "selected" (trim_space (o_ID o)) (optionMatchesDecision o true) r
    | None => fallback
    end
  else fallback.

(** ** Facts about the loops *)

Lemma strict_loop_inv index seen options out : strict_loop index seen options = Ok out ->
  out = map strictNormalize options /\ NoDup (map o_ID out)
  /\ Forall (fun n => o_ID n <> "" /\ (o_ID n ∉ seen) /\ is_Some (strictOptionDecision (o_Kind n))) out.
Proof.
  revert index seen out. induction options as [|o options IH]; intros index seen out; simpl.
  - intros [= <-]. split_and!; constructor.
  - destruct (trim_space (o_ID o) =? "") eqn:E; [done|]. apply String.eqb_neq in E.
    destruct (bool_decide _) eqn:Hs; [done|]. apply bool_decide_eq_false in Hs.
    destruct (strictOptionDecision _) as [d|] eqn:Hd; [|done].
    intros (rest&Hrest&[= <-])%result_bind_ok. destruct (IH _ _ _ Hrest) as (->&Hn&Hf).
    rewrite Forall_forall in Hf. split_and!; [done| |].
    + cbn [map]. constructor; [|done]. intros (n&Hi&Hin)%list_elem_of_fmap.
      destruct (Hf n Hin) as (_&Hns&_). set_solver.
    + constructor; [by eauto|]. apply Forall_forall. intros n Hin. destruct (Hf n Hin) as (?&?&?). set_solver.
Qed.

Lemma strict_relabel f index seen options :
  is_ok (strict_loop index seen (map (fun o => MkOption (o_ID o) (f o) (o_Kind o)) options))
  = is_ok (strict_loop index seen options)
  /\ forall e, strict_loop index seen (map (fun o => MkOption (o_ID o) (f o) (o_Kind o)) options) = Fail e <->
               strict_loop index seen options = Fail e.
Proof.
  revert index seen. induction options as [|o options IH]; intros index seen; simpl; [done|].
  destruct (_ =? ""); [done|]. destruct (bool_decide _); [done|].
  destruct (strictOptionDecision _); [|done]. destruct (IH (S index) ({[trim_space (o_ID o)]} ∪ seen)) as [H1 H2].
  destruct (strict_loop _ _ (map _ options)) as [?|e1], (strict_loop _ _ options) as [?|e2]; simpl in *; try done;
    split; try done; intros e; split; intros H; injection H as ->; f_equal; pose proof (proj1 (H2 _) eq_refl); congruence.
Qed.

Lemma find_relabel {A} (g : A -> A) (p : A -> bool) l : (forall x, p (g x) = p x) ->
  List.find p (map g l) = g <$> List.find p l.
Proof. intros Hp. induction l as [|x l IH]; simpl; [done|]. rewrite Hp. by destruct (p x). Qed.

Definition relabel (f : Option -> string) (o : Option) : Option := MkOption (o_ID o) (f o) (o_Kind o).

Lemma validate_relabel f options : ValidateStrictOptions (map (relabel f) options) = ValidateStrictOptions options.
Proof.
  unfold ValidateStrictOptions, normalizeStrictOptions. destruct (strict_relabel f 0 ∅ options) as [H1 H2].
  fold (relabel f) in *. unfold relabel in *.
  destruct (strict_loop _ _ (map _ options)) as [?|e1], (strict_loop _ _ options) as [?|e2]; simpl in *; try done.
  pose proof (proj1 (H2 _) eq_refl). congruence.
Qed.

Lemma normalize_relabel f options out : normalizeStrictOptions options = Ok out ->
  exists out', normalizeStrictOptions (map (relabel f) options) = Ok out' /\ map o_Kind out' = map o_Kind out.
Proof.
  intros H. pose proof (strict_relabel f 0 ∅ options) as [Hr _].
  unfold normalizeStrictOptions in *. unfold relabel. rewrite H in Hr.
  destruct (strict_loop 0 ∅ (map _ options)) as [out'|] eqn:E; [|done]. exists out'. split; [done|].
  apply strict_loop_inv in E as (->&_). apply strict_loop_inv in H as (->&_). rewrite !map_map. done.
Qed.

Lemma find_kinds (p : string -> bool) l l' : map o_Kind l = map o_Kind l' ->
  is_Some (List.find (fun o => p (o_Kind o)) l) <-> is_Some (List.find (fun o => p (o_Kind o)) l').
Proof.
  revert l'. induction l as [|o l IH]; intros [|o' l']; simpl; try done. intros [= E H]. rewrite E.
  destruct (p (o_Kind o')); [by split|by apply IH].
Qed.

Lemma native_options_cases options response : options <> [] -> a_Outcome response <> "cancelled" ->
  ResolveNativeResponse (Some options) response =
  let! _ := ValidateStrictOptions options in
  if negb (one_of [""; "approved"; "rejected"; "selected"] (a_Outcome response))
  then Fail (ErrUnsupportedOutcome (a_Outcome response)) else
  if (a_Outcome response =? "selected") || negb (a_OptionID response =? "") then
    match List.find (fun o => o_ID o =? a_OptionID response) options with
    | None => Fail ErrNotOffered
    | Some o =>
      let allow := bool_decide (strictOptionDecision (o_Kind o) = Some OptionDecisionAllow) in
      if (a_Outcome response =? "approved") && negb allow || (a_Outcome response =? "rejected") && allow
      then Fail ErrOutcomeConflict else
      Ok (set_decision (if a_Outcome response =? "" then "selected" else a_Outcome response)
            (a_OptionID response) allow response)
    end
  else
    let approved := if a_Outcome response =? "approved" then true
                    else if a_Outcome response =? "rejected" then false else a_Approved response in
    let response := set_decision (a_Outcome response) (a_OptionID response) approved response in
    if approved then
      match StrictOptionIDForDecision options OptionDecisionAllow with
      | Ok (Some _) => Ok response
      | _ => Fail ErrNoAllowOption
      end
    else Ok response.
Proof.
  intros Hne Hc%String.eqb_neq. unfold ResolveNativeResponse. rewrite Hc. by destruct options.
Qed.

(** Labels never grant authority.  Replacing the human-facing names of the
    offered options, in any way, does not change how [ResolveNativeResponse]
    answers any response: identifiers and canonical kinds alone decide. *)
Theorem option_labels_never_decide (f : Option -> string) (options : list Option) (response : ApprovalResponse) :
  ResolveNativeResponse (Some (map (relabel f) options)) response = ResolveNativeResponse (Some options) response.
Proof.
  destruct options as [|o options]; [done|]. set (os := o :: options).
  destruct (decide (a_Outcome response = "cancelled")) as [E|E];
    [unfold ResolveNativeResponse; rewrite E; done|].
  rewrite !native_options_cases by done. rewrite validate_relabel.
  destruct (ValidateStrictOptions os) as [u|] eqn:Hv; [|done]. cbn [result_bind].
  destruct (negb (one_of _ _)); [done|]. rewrite find_relabel by done.
  destruct (_ || _); [by destruct (List.find _ os)|].
  destruct (if a_Outcome response =? "approved" then _ else _); [|done].
  unfold ValidateStrictOptions in Hv. apply result_bind_ok in Hv as (out&Hn&_).
  destruct (normalize_relabel f os out Hn) as (out'&Hn'&Hk).
  unfold StrictOptionIDForDecision. rewrite Hn, Hn'. cbn [result_bind].
  pose proof (find_kinds (fun k => bool_decide (strictOptionDecision k = Some OptionDecisionAllow)) out' out Hk) as Hf.
  destruct (List.find _ out'), (List.find _ out); simpl; try done.
  - destruct (proj1 Hf) as [? ?]; [by eexists|done].
  - destruct (proj2 Hf) as [? ?]; [by eexists|done].
Qed.

(** C35: An approval of offered options needs an allow option.  When
    [ResolveNativeResponse] accepts a response as approved, then either no options
    were offered, as in older approvals, and the response is returned as it
    came; or an option of an allow kind was offered, and when the response names
    an option, that option was offered under exactly this identifier and its own
    kind is the allowing one, whatever the response claimed. *)
Theorem approval_needs_allow_option (offered : option (list Option)) (response final : ApprovalResponse) :
  ResolveNativeResponse offered response = Ok final -> a_Approved final = true ->
  let options := default [] offered in
  (options = [] /\ final = response) \/
  (exists o, o ∈ options /\
     (strictOptionDecision (o_Kind o) = Some OptionDecisionAllow
      \/ strictOptionDecision (o_Kind (strictNormalize o)) = Some OptionDecisionAllow))
  /\ (a_OptionID final <> "" ->
      exists o, o ∈ options /\ o_ID o = a_OptionID final /\ strictOptionDecision (o_Kind o) = Some OptionDecisionAllow).
Proof.
  intros Hr Ha options. destruct (decide (a_Outcome response = "cancelled")) as [E|E].
  { unfold ResolveNativeResponse in Hr. rewrite E in Hr. simpl in Hr. destruct (negb _); [done|]. by injection Hr as <-. }
  destruct (decide (options = [])) as [He|Hne].
  { left. split; [done|]. unfold ResolveNativeResponse in Hr. rewrite (proj2 (String.eqb_neq _ _) E) in Hr.
    destruct offered as [[|]|]; [|done|]; by injection Hr as <-. }
  right. destruct offered as [os|]; [|done]. subst options. cbn [default from_option id] in Hne |- *.
  rewrite native_options_cases in Hr by done. apply result_bind_ok in Hr as (u&Hv&Hr).
  destruct (negb (one_of _ _)); [done|]. destruct (_ || _) eqn:Hsel.
  - destruct (List.find _ os) as [o|] eqn:Hf; [|done]. apply find_some in Hf as [Hin Hid].
    apply String.eqb_eq in Hid. apply list_elem_of_In in Hin. cbv zeta in Hr. destruct (_ || _) in Hr; [done|].
    injection Hr as <-. simpl in Ha. apply bool_decide_eq_true in Ha. split; eauto.
  - cbv zeta in Hr. apply orb_false_iff in Hsel as [_ Hid]. apply negb_false_iff, String.eqb_eq in Hid.
    destruct (if a_Outcome response =? "approved" then _ else _) in Hr; [|by injection Hr as <-].
    destruct (StrictOptionIDForDecision _ _) as [[id|]|] eqn:Hs; try done. injection Hr as <-. simpl. split; [|done].
    unfold StrictOptionIDForDecision in Hs. apply result_bind_ok in Hs as (out&Hn&Hs).
    apply strict_loop_inv in Hn as (->&_). injection Hs as Hs. apply fmap_Some in Hs as (n&Hf&_).
    apply find_some in Hf as [Hin Hd]. apply bool_decide_eq_true in Hd. apply in_map_iff in Hin as (o&<-&Hin).
    exists o. rewrite list_elem_of_In. auto.
Qed.

(** Strict option sets.  Accepted options keep their order and number;
    their identifiers are trimmed, non-empty and pairwise different, and every
    kind has a decision; so [ResolveStrictOption] finds each of them under its
    identifier. *)
Theorem strict_options_resolvable (options normalized : list Option) :
  normalizeStrictOptions options = Ok normalized ->
  normalized = map strictNormalize options /\ NoDup (map o_ID normalized)
  /\ forall o, o ∈ options ->
       exists d, ResolveStrictOption options (o_ID o) = Ok (strictNormalize o, Some d)
                 /\ strictOptionDecision (o_Kind (strictNormalize o)) = Some d.
Proof.
  intros H. pose proof (strict_loop_inv _ _ _ _ H) as (->&Hn&Hf). split_and!; [done..|].
  intros o Ho. unfold ResolveStrictOption. rewrite H. cbn [result_bind].
  assert (Hin : strictNormalize o ∈ map strictNormalize options) by (by apply list_elem_of_fmap_2).
  rewrite Forall_forall in Hf. destruct (Hf _ Hin) as (Hne&_&[d Hd]). apply String.eqb_neq in Hne.
  change (trim_space (o_ID o)) with (o_ID (strictNormalize o)). rewrite Hne. exists d. split; [|done].
  enough (List.find (fun n => o_ID n =? o_ID (strictNormalize o)) (map strictNormalize options) = Some (strictNormalize o))
    as -> by (by rewrite Hd).
  revert Hn Hin. generalize (strictNormalize o). generalize (map strictNormalize options). clear.
  intros l. induction l as [|n l IH]; intros x; [by rewrite elem_of_nil|]. simpl.
  intros [Hn Hl]%NoDup_cons. rewrite elem_of_cons. intros [<-|Hx]; [by rewrite String.eqb_refl|].
  destruct (o_ID n =? o_ID x) eqn:E; [|by apply IH]. apply String.eqb_eq in E. exfalso. apply Hn. rewrite E.
  by apply list_elem_of_fmap_2.
Qed.
End Options.

(** ** On concrete options *)

Definition w_options : list Option :=
  [MkOption "ok" "Allow" "allow_once"; MkOption "no" "Do not allow" "reject_once"].

Lemma approval_needs_allow_option_witness :
  let response := MkResponse "" "ok" false "" "" in
  exists final, ResolveNativeResponse id (Some w_options) response = Ok final /\ a_Approved final = true /\
  exists o, o ∈ w_options /\ o_ID o = a_OptionID final /\ strictOptionDecision id (o_Kind o) = Some OptionDecisionAllow.
Proof.
  eexists. split; [vm_compute; reflexivity|]. split; [reflexivity|].
  destruct (approval_needs_allow_option id (Some w_options) (MkResponse "" "ok" false "" "") (MkResponse "selected" "ok" true "" ""))
    as [[H _]|[_ H]]; [vm_compute; reflexivity|reflexivity|discriminate H|]. apply H. discriminate.
Defined.

Lemma strict_options_resolvable_witness :
  exists normalized, normalizeStrictOptions id w_options = Ok normalized /\ NoDup (map o_ID normalized).
Proof.
  eexists. split; [vm_compute; reflexivity|].
  refine (proj1 (proj2 (strict_options_resolvable id w_options _ _))). vm_compute. reflexivity.
Defined.

(** [strings.ToLower] on ASCII. *)
Definition lower_byte (a : ascii) : ascii :=
  let n := N_of_ascii a in if ((65 <=? n) && (n <=? 90))%N then ascii_of_N (n + 32) else a.
Definition lower_ascii (s : string) : string := string_of_list_ascii (map lower_byte (list_ascii_of_string s)).

(** The reviewer path reads the label.  The rejecting option above has a
    deny kind, and [ResolveNativeResponse] resolves its selection as not
    approved; but [ResolveReviewResult] resolves a reviewer's selection of the
    same option as approved, because its name contains the word allow. *)
Theorem review_label_decides :
  strictOptionDecision lower_ascii "reject_once" = Some OptionDecisionDeny
  /\ (a_Approved <$> match ResolveNativeResponse lower_ascii (Some w_options) (MkResponse "selected" "no" true "" "") with
                     | Ok r => Some r | Fail _ => None end) = Some false
  /\ v_Approved (ResolveReviewResult lower_ascii w_options (MkReview "" "no" false "" "" "" "")) = true.
Proof. split_and!; vm_compute; reflexivity. Qed.
