(* ===== verification/ApprovalSubject.v ===== *)
(** * Decision evidence of an approval

    Models [agent-sdk/session/approval_subject.go]: the bounded, redacted
    evidence of what an approval is about, which every client displays.  A
    field has a state, a text and a sensitivity mark; copying a subject
    normalises every field, withdraws marked text and bounds the lists. *)

From Stdlib Require Import ZArith Lia Ascii String.
From stdpp Require Import base option strings list.
From S2P Require Import Prelude GoStrings Utf8Stream Runes.

Local Open Scope string_scope.

(** [ApprovalFieldState] is a string type; normalisation sends an unknown one
    to unavailable. *)
Definition ApprovalFieldKnown : string := "known".
Definition ApprovalFieldUnavailable : string := "unavailable".
Definition ApprovalFieldTruncated : string := "truncated".
Definition ApprovalFieldOpaque : string := "opaque".

Record ApprovalField : Type := MkField { af_State : string; af_Text : string; af_Sensitive : bool }.
Record ApprovalGrant : Type := MkGrant { ag_OptionID : string; ag_Scope : ApprovalField }.

Record ApprovalSubject : Type := MkSubject {
  as_Title : option ApprovalField; as_Description : option ApprovalField; as_Kind : string;
  as_Tool : ApprovalField; as_Operation : ApprovalField; as_Targets : list ApprovalField;
  as_Effect : ApprovalField; as_Scope : ApprovalField; as_Grants : list ApprovalGrant;
  as_TargetsTruncated : bool; as_SensitiveInput : bool; as_OpaqueInput : bool;
  as_GrantsTruncated : bool; as_Reported : bool;
}.

Global Instance ApprovalField_eq_dec : EqDecision ApprovalField.
Proof. solve_decision. Defined.
Global Instance ApprovalGrant_eq_dec : EqDecision ApprovalGrant.
Proof. solve_decision. Defined.
Global Instance ApprovalSubject_eq_dec : EqDecision ApprovalSubject.
Proof. solve_decision. Defined.

Definition approvalFieldLimit : nat := 512.
Definition approvalTargetLimit : nat := 16.
Definition approvalGrantLimit : nat := 32.

Definition unavailable_field : ApprovalField := MkField ApprovalFieldUnavailable "" false.
Definition opaque_field : ApprovalField := MkField ApprovalFieldOpaque "" false.

(** ** Copying *)

Definition normalizeApprovalField (f : ApprovalField) : ApprovalField :=
  if af_Sensitive f then MkField ApprovalFieldOpaque "" true else
  if (af_State f =? ApprovalFieldKnown) || (af_State f =? ApprovalFieldTruncated) then
    let text := trim_space (af_Text f) in
    if text =? "" then unavailable_field else
    if (approvalFieldLimit <? length (runes (bytes_of text)))%nat
    then MkField ApprovalFieldTruncated (cut_runes (approvalFieldLimit - 3) text) (af_Sensitive f)
    else MkField (af_State f) text (af_Sensitive f)
  else if af_State f =? ApprovalFieldOpaque then opaque_field else unavailable_field.

Definition KnownApprovalField (text : string) : ApprovalField := normalizeApprovalField (MkField ApprovalFieldKnown text false).

(** The closure [opaque] of [CloneApprovalSubject]. *)
Definition withdraw (f : ApprovalField) : ApprovalField :=
  if af_State f =? ApprovalFieldUnavailable then f else MkField ApprovalFieldOpaque "" (af_Sensitive f).

Definition withdrawSubject (s : ApprovalSubject) : ApprovalSubject :=
  MkSubject (withdraw <$> as_Title s) (withdraw <$> as_Description s) (as_Kind s) (withdraw (as_Tool s))
    (withdraw (as_Operation s)) (map withdraw (as_Targets s)) (withdraw (as_Effect s)) (withdraw (as_Scope s))
    (map (fun g => MkGrant (ag_OptionID g) (withdraw (ag_Scope g))) (as_Grants s))
    (as_TargetsTruncated s) (as_SensitiveInput s) (as_OpaqueInput s) (as_GrantsTruncated s) (as_Reported s).

Definition field_sensitive (f : option ApprovalField) : bool := match f with Some f => af_Sensitive f | None => false end.

Definition subject_sensitive (s : ApprovalSubject) : bool :=
  as_SensitiveInput s || af_Sensitive (as_Tool s) || af_Sensitive (as_Operation s) || af_Sensitive (as_Effect s)
  || af_Sensitive (as_Scope s) || field_sensitive (as_Title s) || field_sensitive (as_Description s)
  || existsb af_Sensitive (as_Targets s) || existsb (fun g => af_Sensitive (ag_Scope g)) (as_Grants s).

Definition known_kind (kind : string) : bool :=
  (kind =? "command") || (kind =? "file") || (kind =? "network") || (kind =? "app_access").

Definition normalizeSubject (s : ApprovalSubject) : ApprovalSubject :=
  let targets := map normalizeApprovalField (take approvalTargetLimit (as_Targets s)) in
  MkSubject (normalizeApprovalField <$> as_Title s) (normalizeApprovalField <$> as_Description s)
    (if known_kind (as_Kind s) then as_Kind s else "opaque")
    (normalizeApprovalField (as_Tool s)) (normalizeApprovalField (as_Operation s))
    (match targets with [] => [unavailable_field] | _ => targets end)
    (normalizeApprovalField (as_Effect s)) (normalizeApprovalField (as_Scope s))
    (map (fun g => MkGrant (ag_OptionID g) (normalizeApprovalField (ag_Scope g))) (take approvalGrantLimit (as_Grants s)))
    (as_TargetsTruncated s || (approvalTargetLimit <? length (as_Targets s))%nat) (subject_sensitive s) (as_OpaqueInput s)
    (as_GrantsTruncated s || (approvalGrantLimit <? length (as_Grants s))%nat) (as_Reported s).

Definition CloneApprovalSubject (s : ApprovalSubject) : ApprovalSubject :=
  let out := normalizeSubject s in
  if as_Reported out && (as_SensitiveInput out || as_OpaqueInput out) then withdrawSubject out else out.

(** ** The subject of an approval *)

(** The scope joined to one offered option: the only grant of its identifier. *)
Fixpoint join_grant (id : string) (matched : bool) (field : ApprovalField) (grants : list ApprovalGrant) : ApprovalField :=
  match grants with
  | [] => field
  | g :: grants =>
    if negb (ag_OptionID g =? id) then join_grant id matched field grants
    else if matched then unavailable_field
    else join_grant id true (normalizeApprovalField (ag_Scope g)) grants
  end.

Definition with_grants (grants : list ApprovalGrant) (s : ApprovalSubject) : ApprovalSubject :=
  MkSubject (as_Title s) (as_Description s) (as_Kind s) (as_Tool s) (as_Operation s) (as_Targets s) (as_Effect s)
    (as_Scope s) grants (as_TargetsTruncated s) (as_SensitiveInput s) (as_OpaqueInput s) (as_GrantsTruncated s) (as_Reported s).

(** An approval is what [ApprovalSubjectOf] reads of it: whether there is one,
    its subject, the identifiers of its options and the name of its tool call
    with [NamePresent]. *)
Definition ApprovalSubjectOf (present : bool) (subject : option ApprovalSubject) (optionIDs : list string)
  (toolName : string) (namePresent : option bool) : ApprovalSubject :=
  match present, subject with
  | true, Some s =>
    let out := CloneApprovalSubject s in
    CloneApprovalSubject (with_grants (map (fun id => MkGrant id (join_grant id false unavailable_field (as_Grants s))) optionIDs) out)
  | _, _ =>
    CloneApprovalSubject
      (MkSubject None None "opaque"
         (if present then match namePresent with Some false => opaque_field | _ => KnownApprovalField toolName end
          else opaque_field)
         opaque_field [opaque_field] opaque_field opaque_field
         (if present then map (fun id => MkGrant id opaque_field) optionIDs else []) false false false false false)
  end.

(** ** Normal form of a field *)

(** What a client may rely on: text only in a known or truncated field that is
    not marked sensitive, trimmed and of at most 512 runes. *)
Record field_safe (f : ApprovalField) : Prop := {
  fs_sensitive : af_Sensitive f = true -> af_Text f = "";
  fs_text : af_Text f <> "" -> af_State f = ApprovalFieldKnown \/ af_State f = ApprovalFieldTruncated;
  fs_trimmed : trim_space (af_Text f) = af_Text f;
  fs_bounded : (length (runes (bytes_of (af_Text f))) <= approvalFieldLimit)%nat;
}.

Lemma empty_field_safe state sensitive : field_safe (MkField state "" sensitive).
Proof. split; simpl; try done. unfold approvalFieldLimit. cbn. lia. Qed.

Lemma normalize_safe f : field_safe (normalizeApprovalField f).
Proof.
  unfold normalizeApprovalField. destruct (af_Sensitive f); [apply empty_field_safe|].
  destruct (_ || _) eqn:Hst; [|destruct (af_State f =? ApprovalFieldOpaque); apply empty_field_safe].
  destruct (trim_space (af_Text f) =? ""); [apply empty_field_safe|]. apply orb_true_iff in Hst. rewrite !String.eqb_eq in Hst.
  destruct (_ <? _)%nat eqn:Hlen.
  - apply Nat.ltb_lt in Hlen. split; cbn [af_Sensitive af_Text af_State]; [done|auto|by rewrite cut_runes_trimmed by apply trim_space_idem|].
    rewrite cut_runes_count; unfold approvalFieldLimit in *; lia.
  - apply Nat.ltb_ge in Hlen. split; simpl; [done|auto|apply trim_space_idem|done].
Qed.

Lemma normalize_sensitive f : af_Sensitive (normalizeApprovalField f) = af_Sensitive f.
Proof. unfold normalizeApprovalField. destruct (af_Sensitive f) eqn:E; [done|]. repeat case_match; done. Qed.

Lemma normalize_idem f : normalizeApprovalField (normalizeApprovalField f) = normalizeApprovalField f.
Proof.
  unfold normalizeApprovalField at 2 3. destruct (af_Sensitive f) eqn:Es; [done|].
  destruct (_ || _) eqn:Hst; [|by destruct (af_State f =? ApprovalFieldOpaque)].
  destruct (trim_space (af_Text f) =? "") eqn:Et; [done|]. destruct (_ <? _)%nat eqn:Hlen.
  - unfold normalizeApprovalField. cbn [af_Sensitive af_State af_Text].
    rewrite cut_runes_trimmed by apply trim_space_idem. apply Nat.ltb_lt in Hlen.
    assert (Hc : length (runes (bytes_of (cut_runes (approvalFieldLimit - 3) (trim_space (af_Text f))))) = approvalFieldLimit).
    { rewrite cut_runes_count; unfold approvalFieldLimit in *; lia. }
    destruct (cut_runes _ _ =? "") eqn:Ec; [apply String.eqb_eq in Ec; by rewrite Ec in Hc|].
    rewrite Hc. replace (ApprovalFieldTruncated =? ApprovalFieldKnown) with false by done.
    rewrite String.eqb_refl, Nat.ltb_irrefl. done.
  - unfold normalizeApprovalField. cbn [af_Sensitive af_State af_Text]. by rewrite Hst, trim_space_idem, Et, Hlen.
Qed.

Lemma withdraw_safe f : field_safe f -> field_safe (withdraw f).
Proof. intros H. unfold withdraw. destruct (_ =? _); [done|apply empty_field_safe]. Qed.

Lemma withdraw_normal f : normalizeApprovalField f = f -> normalizeApprovalField (withdraw f) = withdraw f.
Proof.
  intros H. unfold withdraw. destruct (_ =? _); [done|]. unfold normalizeApprovalField. simpl. by destruct (af_Sensitive f).
Qed.

Lemma withdraw_idem f : withdraw (withdraw f) = withdraw f.
Proof. unfold withdraw. destruct (af_State f =? _) eqn:E; [by rewrite E|done]. Qed.

Lemma withdraw_sensitive f : af_Sensitive (withdraw f) = af_Sensitive f.
Proof. unfold withdraw. by destruct (_ =? _). Qed.

Lemma withdraw_text f : normalizeApprovalField f = f -> af_Text (withdraw f) = "".
Proof.
  intros H. unfold withdraw. destruct (_ =? _) eqn:E; [|done]. apply String.eqb_eq in E. rewrite <- H.
  unfold normalizeApprovalField. rewrite E. by destruct (af_Sensitive f).
Qed.

(** ** Normal form of a subject *)

Definition subject_fields (s : ApprovalSubject) : list ApprovalField :=
  (option_list (as_Title s) ++ option_list (as_Description s) ++ [as_Tool s; as_Operation s; as_Effect s; as_Scope s]
   ++ as_Targets s ++ map ag_Scope (as_Grants s))%list.

Definition subject_normal (s : ApprovalSubject) : Prop :=
  Forall (fun f => normalizeApprovalField f = f) (subject_fields s)
  /\ (length (as_Targets s) <= approvalTargetLimit)%nat /\ as_Targets s <> []
  /\ (length (as_Grants s) <= approvalGrantLimit)%nat
  /\ as_SensitiveInput s = subject_sensitive s /\ (known_kind (as_Kind s) = true \/ as_Kind s = "opaque").

Lemma map_fixed {A} (f : A -> A) l : Forall (fun x => f x = x) l -> map f l = l.
Proof. induction 1 as [|x l Hx _ IH]; [done|]. simpl. by rewrite Hx, IH. Qed.

Lemma normalize_fixed s : subject_normal s -> normalizeSubject s = s.
Proof.
  intros (Hf&Ht&Hne&Hg&Hs&Hk). unfold subject_fields in Hf. rewrite !Forall_app in Hf.
  destruct Hf as (Hti&Hde&Hh&Hta&Hgr). repeat (apply Forall_cons in Hh as [? Hh]). unfold normalizeSubject.
  rewrite !take_ge by lia. rewrite (map_fixed normalizeApprovalField) by done.
  assert (Hg' : map (fun g => MkGrant (ag_OptionID g) (normalizeApprovalField (ag_Scope g))) (as_Grants s) = as_Grants s).
  { apply map_fixed. rewrite Forall_forall. rewrite Forall_forall in Hgr. intros [id sc] Hin. simpl. f_equal. apply Hgr.
    apply list_elem_of_fmap. by exists (MkGrant id sc). }
  rewrite Hg'. destruct s as [ti de k to op ta ef sc gr tt si oi gt re]. cbn [as_Title as_Description as_Kind as_Tool as_Operation
    as_Targets as_Effect as_Scope as_Grants as_TargetsTruncated as_SensitiveInput as_OpaqueInput as_GrantsTruncated as_Reported] in *.
  assert (Ho : forall o : option ApprovalField, Forall (fun f => normalizeApprovalField f = f) (option_list o) -> normalizeApprovalField <$> o = o).
  { intros [f|] H'; [|done]. apply Forall_cons in H' as [H' _]. simpl. by rewrite H'. }
  rewrite !Ho by done. f_equal; try done.
  - destruct Hk as [-> | ->]; done.
  - by destruct ta.
  - destruct (Nat.ltb_spec approvalTargetLimit (length ta)); [lia|apply orb_false_r].
  - destruct (Nat.ltb_spec approvalGrantLimit (length gr)); [lia|apply orb_false_r].
Qed.

Lemma Forall_map_normal l : Forall (fun f => normalizeApprovalField f = f) (map normalizeApprovalField l).
Proof. apply Forall_forall. intros f (g&->&_)%list_elem_of_fmap. apply normalize_idem. Qed.

Lemma existsb_map_normal l : existsb af_Sensitive (map normalizeApprovalField l) = existsb af_Sensitive l.
Proof. induction l as [|f l IH]; [done|]. simpl. by rewrite normalize_sensitive, IH. Qed.

Lemma existsb_take {A} (p : A -> bool) n l : existsb p (take n l) = true -> existsb p l = true.
Proof.
  revert n. induction l as [|x l IH]; intros [|n]; simpl; try done. rewrite !orb_true_iff. naive_solver.
Qed.

Lemma field_sensitive_normal o : field_sensitive (normalizeApprovalField <$> o) = field_sensitive o.
Proof. destruct o; simpl; [apply normalize_sensitive|done]. Qed.

(** The sensitivity of the copy is the recorded one: a mark that was cut off
    with a long list stays recorded. *)
Lemma normalize_subject_sensitive s : subject_sensitive (normalizeSubject s) = subject_sensitive s.
Proof.
  unfold subject_sensitive at 1. cbn [normalizeSubject as_SensitiveInput as_Tool as_Operation as_Effect as_Scope as_Title
    as_Description as_Targets as_Grants]. rewrite !normalize_sensitive, !field_sensitive_normal.
  destruct (subject_sensitive s) eqn:E; [done|]. unfold subject_sensitive in E. rewrite !orb_false_iff in E.
  destruct E as ((((((((_&->)&->)&->)&->)&->)&->)&Ht)&Hg).
  assert (Ht' : existsb af_Sensitive (as_Targets (normalizeSubject s)) = false).
  { cbn [normalizeSubject as_Targets]. destruct (map normalizeApprovalField _) as [|f l] eqn:El; [done|]. rewrite <- El, existsb_map_normal.
    destruct (existsb af_Sensitive (take _ _)) eqn:E; [|done]. apply existsb_take in E. congruence. }
  assert (Hg' : existsb (fun g => af_Sensitive (ag_Scope g)) (as_Grants (normalizeSubject s)) = false).
  { cbn [normalizeSubject as_Grants]. apply not_true_is_false. intros E. enough (true = false) by done. rewrite <- Hg. symmetry.
    apply (existsb_take _ approvalGrantLimit). revert E. generalize (take approvalGrantLimit (as_Grants s)). intros l'.
    induction l' as [|g l' IH]; [done|]. cbn [map existsb ag_Scope]. rewrite normalize_sensitive, !orb_true_iff. naive_solver. }
  cbn [normalizeSubject as_Targets as_Grants] in Ht', Hg'. by rewrite Ht', Hg'.
Qed.

Lemma normalize_normal s : subject_normal (normalizeSubject s).
Proof.
  assert (Ho : forall o : option ApprovalField, Forall (fun f => normalizeApprovalField f = f) (option_list (normalizeApprovalField <$> o))).
  { intros [f|]; repeat constructor. apply normalize_idem. }
  unfold subject_normal. split_and!.
  - unfold subject_fields, normalizeSubject. cbn [as_Tool as_Operation as_Effect as_Scope as_Title
      as_Description as_Targets as_Grants]. rewrite !Forall_app. split_and!; auto.
    + repeat constructor; apply normalize_idem.
    + destruct (map _ _) eqn:El; [by repeat constructor|]. rewrite <- El. apply Forall_map_normal.
    + rewrite map_map. simpl. rewrite <- (map_map ag_Scope normalizeApprovalField). apply Forall_map_normal.
  - cbn [normalizeSubject as_Targets]. destruct (map _ _) eqn:El; [unfold approvalTargetLimit; simpl; lia|].
    rewrite <- El, length_map, length_take. lia.
  - cbn [normalizeSubject as_Targets]. by destruct (map _ _).
  - cbn [normalizeSubject as_Grants]. rewrite length_map, length_take. lia.
  - by rewrite normalize_subject_sensitive.
  - cbn [normalizeSubject as_Kind]. destruct (known_kind (as_Kind s)) eqn:E; auto.
Qed.

Lemma withdraw_fields s : subject_fields (withdrawSubject s) = map withdraw (subject_fields s).
Proof.
  unfold subject_fields, withdrawSubject. cbn [as_Tool as_Operation as_Effect as_Scope as_Title as_Description as_Targets as_Grants].
  rewrite !map_app, !map_map. simpl. repeat f_equal; by destruct (as_Title s), (as_Description s).
Qed.

Lemma withdraw_subject_sensitive s : subject_sensitive (withdrawSubject s) = subject_sensitive s.
Proof.
  unfold subject_sensitive. cbn [withdrawSubject as_SensitiveInput as_Tool as_Operation as_Effect as_Scope as_Title
    as_Description as_Targets as_Grants]. rewrite !withdraw_sensitive.
  assert (Ht : forall l, existsb af_Sensitive (map withdraw l) = existsb af_Sensitive l).
  { induction l as [|f l IH]; [done|]. simpl. by rewrite withdraw_sensitive, IH. }
  assert (Hg : forall l, existsb (fun g => af_Sensitive (ag_Scope g)) (map (fun g => MkGrant (ag_OptionID g) (withdraw (ag_Scope g))) l)
                         = existsb (fun g => af_Sensitive (ag_Scope g)) l).
  { induction l as [|f l IH]; [done|]. simpl. by rewrite withdraw_sensitive, IH. }
  assert (Ho : forall o, field_sensitive (withdraw <$> o) = field_sensitive o) by (intros [f|]; [apply withdraw_sensitive|done]).
  by rewrite Ht, Hg, !Ho.
Qed.

Lemma withdraw_subject_normal s : subject_normal s -> subject_normal (withdrawSubject s).
Proof.
  intros (Hf&Ht&Hne&Hg&Hs&Hk). split_and!.
  - rewrite withdraw_fields. rewrite Forall_forall in Hf |- *. intros f (g&->&Hin)%list_elem_of_fmap. auto using withdraw_normal.
  - cbn. by rewrite length_map.
  - cbn. by destruct (as_Targets s).
  - cbn. by rewrite length_map.
  - by rewrite withdraw_subject_sensitive.
  - done.
Qed.

Lemma clone_normal s : subject_normal (CloneApprovalSubject s).
Proof. unfold CloneApprovalSubject. destruct (_ && _); [apply withdraw_subject_normal|]; apply normalize_normal. Qed.

Lemma withdraw_subject_idem s : withdrawSubject (withdrawSubject s) = withdrawSubject s.
Proof.
  unfold withdrawSubject. cbn. f_equal; try apply withdraw_idem.
  - destruct (as_Title s); simpl; [by rewrite withdraw_idem|done].
  - destruct (as_Description s); simpl; [by rewrite withdraw_idem|done].
  - rewrite map_map. apply map_ext, withdraw_idem.
  - rewrite map_map. apply map_ext. intros g. simpl. by rewrite withdraw_idem.
Qed.

(** Every copy taken of a copied subject is the subject itself. *)
Lemma clone_subject_idem (s : ApprovalSubject) :
  CloneApprovalSubject (CloneApprovalSubject s) = CloneApprovalSubject s.
Proof.
  unfold CloneApprovalSubject at 1. rewrite (normalize_fixed _ (clone_normal s)).
  unfold CloneApprovalSubject. destruct (as_Reported (normalizeSubject s) && _) eqn:E; [|by rewrite E].
  change (as_Reported (withdrawSubject _) && _) with (as_Reported (normalizeSubject s) && (as_SensitiveInput (normalizeSubject s) || as_OpaqueInput (normalizeSubject s))).
  rewrite E. apply withdraw_subject_idem.
Qed.

(** What a client may display of an approval.  In every copied subject, marked text is gone, text is trimmed and of at
    most 512 runes and only in known or truncated fields, at most 16 targets and 32 grants are kept and at least
    one target; a sensitivity mark anywhere in the original, kept or cut off, is recorded; and a reported subject
    with sensitive or opaque input carries no text at all. *)
Theorem clone_subject_safe (s : ApprovalSubject) :
  let out := CloneApprovalSubject s in
  Forall field_safe (subject_fields out)
  /\ (length (as_Targets out) <= approvalTargetLimit)%nat /\ as_Targets out <> []
  /\ (length (as_Grants out) <= approvalGrantLimit)%nat
  /\ as_SensitiveInput out = subject_sensitive s
  /\ (as_Reported s && (subject_sensitive s || as_OpaqueInput s) = true -> Forall (fun f => af_Text f = "") (subject_fields out)).
Proof.
  cbv zeta. destruct (clone_normal s) as (Hf&Ht&Hne&Hg&Hs&_). split_and!; try done.
  - rewrite Forall_forall in Hf |- *. intros f Hin. rewrite <- Hf by done. apply normalize_safe.
  - unfold CloneApprovalSubject. by destruct (_ && _).
  - intros E. unfold CloneApprovalSubject.
    change (as_Reported s && (subject_sensitive s || as_OpaqueInput s)) with
      (as_Reported (normalizeSubject s) && (as_SensitiveInput (normalizeSubject s) || as_OpaqueInput (normalizeSubject s))) in E.
    rewrite E, withdraw_fields. destruct (normalize_normal s) as (Hn&_). rewrite Forall_forall in Hn |- *.
    intros f (g&->&Hin)%list_elem_of_fmap. auto using withdraw_text.
Qed.

(** ** Grants *)

Definition grants_of (id : string) (grants : list ApprovalGrant) : list ApprovalGrant :=
  List.filter (fun g => ag_OptionID g =? id) grants.

Lemma join_grant_matched id field grants :
  join_grant id true field grants = match grants_of id grants with [] => field | _ => unavailable_field end.
Proof. induction grants as [|g grants IH]; simpl; [done|]. destruct (ag_OptionID g =? id); simpl; [done|apply IH]. Qed.

Lemma join_grant_spec id grants :
  join_grant id false unavailable_field grants =
  match grants_of id grants with [g] => normalizeApprovalField (ag_Scope g) | _ => unavailable_field end.
Proof.
  induction grants as [|g grants IH]; simpl; [done|]. destruct (ag_OptionID g =? id); simpl; [|apply IH].
  rewrite join_grant_matched. by destruct (grants_of id grants).
Qed.

Lemma clone_grant_ids s : map ag_OptionID (as_Grants (CloneApprovalSubject s)) = take approvalGrantLimit (map ag_OptionID (as_Grants s)).
Proof.
  assert (H : map ag_OptionID (as_Grants (normalizeSubject s)) = take approvalGrantLimit (map ag_OptionID (as_Grants s)))
    by (cbn [normalizeSubject as_Grants]; rewrite map_map, <- firstn_map; done).
  unfold CloneApprovalSubject. destruct (_ && _); [|done]. rewrite <- H. cbn. by rewrite map_map.
Qed.

(** The grants of a displayed approval are the offered options.  [ApprovalSubjectOf] lists exactly the first 32 offered
    option identifiers, in order; and when no text is withdrawn, the scope shown for an option is the normalised
    scope of the one grant of exactly that identifier: an option without a grant, or with two, has none. *)
Theorem subject_grants_are_options (s : ApprovalSubject) (ids : list string) (toolName : string) (namePresent : option bool) :
  let out := ApprovalSubjectOf true (Some s) ids toolName namePresent in
  map ag_OptionID (as_Grants out) = take approvalGrantLimit ids
  /\ (as_Reported s = false -> forall i g, as_Grants out !! i = Some g ->
        ag_Scope g = match grants_of (ag_OptionID g) (as_Grants s) with
                     | [x] => normalizeApprovalField (ag_Scope x)
                     | _ => unavailable_field
                     end).
Proof.
  cbv zeta. unfold ApprovalSubjectOf. split.
  - rewrite clone_grant_ids. cbn [with_grants as_Grants]. by rewrite map_map, map_id.
  - intros Hr i g. set (grants := map _ ids).
    assert (Hrep : as_Reported (CloneApprovalSubject s) = false) by (unfold CloneApprovalSubject; by destruct (_ && _)).
    unfold CloneApprovalSubject at 1.
    change (as_Reported (normalizeSubject (with_grants grants (CloneApprovalSubject s)))) with (as_Reported (CloneApprovalSubject s)).
    rewrite Hrep. cbn [andb normalizeSubject with_grants as_Grants]. unfold grants. rewrite <- firstn_map, map_map. intros Hg.
    apply list_elem_of_lookup_2 in Hg. rewrite firstn_map in Hg. apply list_elem_of_fmap in Hg as (id&->&_). cbn [ag_Scope ag_OptionID].
    rewrite join_grant_spec. destruct (grants_of id (as_Grants s)) as [|x [|y l]]; [done|apply normalize_idem|done].
Qed.
