(* ===== verification/GoValues.v ===== *)
(** * Dynamic Go values

    A value of type [any] as the session package meets it: scalars by their
    type and text, [[]any], [map[string]any] with its keys in increasing order,
    and values of struct types by their fields.  Deep copies
    ([internal/jsonvalue.Clone]) are the identity on them; [reflect.DeepEqual]
    is equality. *)

From Stdlib Require Import ZArith Lia Ascii String.
From stdpp Require Import base option strings list.
From S2P Require Import Prelude GoStrings.

Local Open Scope string_scope.

(** Leaves: nil, booleans, integers ([int], [int32], [int64] and the unsigned
    types of these widths) in decimal, [float64] and [json.Number] by
    their token, strings and [json.RawMessage]; [KOther] for values of any
    other type.  Nodes: [[]any], [[]string], [map[string]any],
    [[]ProtocolToolCallContent], its elements, other structs. *)
Inductive leaf_kind : Type := KNil | KBool | KInt | KFloat | KNumber | KString | KRaw | KOther.
Inductive node_kind : Type := NSlice | NStrings | NMap | NContents | NContent | NStruct.

Inductive GoValue : Type :=
| Leaf (kind : leaf_kind) (text : string)
| Node (kind : node_kind) (items : list (string * GoValue)).

Global Instance leaf_kind_eq_dec : EqDecision leaf_kind.
Proof. solve_decision. Defined.
Global Instance node_kind_eq_dec : EqDecision node_kind.
Proof. solve_decision. Defined.

Lemma GoValue_ind' (P : GoValue -> Prop) :
  (forall k t, P (Leaf k t)) -> (forall k items, Forall (fun x => P (snd x)) items -> P (Node k items)) -> forall v, P v.
Proof.
  intros HL HN. fix IH 1. intros [k t|k items]; [apply HL|]. apply HN.
  induction items as [|[n v] items IHi]; constructor; [apply IH|apply IHi].
Qed.

Global Instance GoValue_eq_dec : EqDecision GoValue.
Proof.
  refine (fix go (a b : GoValue) {struct a} : Decision (a = b) :=
    match a, b with
    | Leaf k t, Leaf k' t' => cast_if_and (decide (k = k')) (decide (t = t'))
    | Node k l, Node k' l' =>
      cast_if_and (decide (k = k'))
        ((fix items (l l' : list (string * GoValue)) {struct l} : Decision (l = l') :=
            match l, l' with
            | [], [] => left _
            | (n, v) :: l, (n', v') :: l' => cast_if_and3 (decide (n = n')) (go v v') (items l l')
            | _, _ => right _
            end) l l')
    | _, _ => right _
    end); clear go; abstract congruence.
Defined.

(** A [map[string]any] field: [None] is the nil map. *)
Definition GoMap : Type := option (list (string * GoValue)).

Definition go_nil : GoValue := Leaf KNil "".
Definition go_string (s : string) : GoValue := Leaf KString s.
Definition go_object (items : list (string * GoValue)) : GoValue := Node NMap items.

(** [m[key]] of a map: nil when absent. *)
Fixpoint assoc (key : string) (items : list (string * GoValue)) : option GoValue :=
  match items with
  | [] => None
  | (k, v) :: items => if k =? key then Some v else assoc key items
  end.
Definition map_index (m : GoMap) (key : string) : option GoValue := m ≫= assoc key.

(** Type assertions [v.(string)], [v.(map[string]any)]. *)
Definition as_string (v : GoValue) : option string := match v with Leaf KString s => Some s | _ => None end.
Definition as_object (v : GoValue) : option (list (string * GoValue)) := match v with Node NMap items => Some items | _ => None end.

(** The string field of a map, empty when absent or of another type. *)
Definition string_field (key : string) (items : list (string * GoValue)) : string :=
  default "" (assoc key items ≫= as_string).

(** [m[key] = value]: the keys stay in increasing order. *)
Fixpoint map_set (key : string) (value : GoValue) (items : list (string * GoValue)) : list (string * GoValue) :=
  match items with
  | [] => [(key, value)]
  | (k, v) :: rest =>
    if k =? key then (key, value) :: rest
    else if String.ltb key k then (key, value) :: (k, v) :: rest
    else (k, v) :: map_set key value rest
  end.

(** [delete(m, key)]. *)
Definition map_delete (key : string) (items : list (string * GoValue)) : list (string * GoValue) :=
  List.filter (fun x => negb (fst x =? key)) items.

Lemma assoc_map_set key value items k : assoc k (map_set key value items) = if key =? k then Some value else assoc k items.
Proof.
  induction items as [|[k0 v0] items IH]; simpl; [done|]. destruct (String.eqb_spec k0 key) as [->|Hne].
  - simpl. by destruct (String.eqb_spec key k).
  - destruct (String.ltb key k0); [done|]. simpl. rewrite IH. destruct (String.eqb_spec k0 k) as [->|]; [|done].
    by rewrite (proj2 (String.eqb_neq key k)) by congruence.
Qed.

Lemma assoc_map_delete key items k : assoc k (map_delete key items) = if key =? k then None else assoc k items.
Proof.
  induction items as [|[k0 v0] items IH]; simpl; [by destruct (key =? k)|]. destruct (String.eqb_spec k0 key) as [->|Hne]; simpl.
  - rewrite IH. by destruct (String.eqb_spec key k).
  - rewrite IH. destruct (String.eqb_spec k0 k) as [->|]; [|done]. by rewrite (proj2 (String.eqb_neq key k)) by congruence.
Qed.

(** [nestedAny]. *)
Fixpoint nestedAny (current : GoValue) (path : list string) : GoValue :=
  match path with
  | [] => current
  | key :: path =>
    match as_object current with
    | None => go_nil
    | Some items => nestedAny (default go_nil (assoc key items)) path
    end
  end.
