(* ===== verification/GoJson.v ===== *)
(** * JSON as [encoding/json] reads and writes it

    [json.Marshal] of the values of [GoValues] and [json.Unmarshal] into [any]
    and into [map[string]any], on bytes: escaping as for HTML, invalid UTF-8
    replaced, object keys sorted, the last of equal keys kept, nesting bounded.
    Reading what was written gives the value back ([json_roundtrip]).  The
    decimal text of a float64, and how values of other types are written, are
    parameters. *)

From Stdlib Require Import ZArith Lia Ascii String.
From stdpp Require Import base option strings list sorting.
From S2P Require Import Prelude GoStrings Utf8Stream Runes GoValues.

Local Open Scope Z_scope.

(** ** Writing *)

Definition hex (n : Z) : Z := if n <? 10 then 48 + n else 87 + n.

(** [\u00XX] of a byte. *)
Definition unicode_byte (b : Z) : list Z := [92; 117; 48; 48; hex (b / 16); hex (b mod 16)].

Definition html_unsafe (b : Z) : bool := (b =? 60) || (b =? 62) || (b =? 38).

(** One rune of a string: [appendString] with its table [htmlSafeSet]. *)
Definition quote_byte (b : Z) : list Z :=
  if (b =? 34) || (b =? 92) then [92; b]
  else if b =? 8 then [92; 98]
  else if b =? 12 then [92; 102]
  else if b =? 10 then [92; 110]
  else if b =? 13 then [92; 114]
  else if b =? 9 then [92; 116]
  else if (b <? 32) || html_unsafe b then unicode_byte b
  else [b].

(** U+2028 and U+2029. *)
Definition line_separator (r : list Z) : bool := bool_decide (r = [226; 128; 168]) || bool_decide (r = [226; 128; 169]).

Definition quote_rune (c : list Z * bool) : list Z :=
  let '(r, ok) := c in
  if negb ok then bytes_of "\ufffd" else
  match r with
  | [b] => quote_byte b
  | _ => if line_separator r then bytes_of "\u202" ++ [hex (List.last r 0 mod 16)] else r
  end.

Definition quote_body (p : list Z) : list Z := concat (map quote_rune (chunks p)).
Definition quote (p : list Z) : list Z := 34 :: quote_body p ++ [34].

(** ** Numbers *)

Definition is_digit (b : Z) : bool := (48 <=? b) && (b <=? 57).

Fixpoint span_digits (p : list Z) : list Z * list Z :=
  match p with
  | b :: q => if is_digit b then let '(d, r) := span_digits q in (b :: d, r) else ([], p)
  | [] => ([], [])
  end.

Definition digits1 (p : list Z) : option (list Z * list Z) :=
  let '(d, r) := span_digits p in match d with [] => None | _ => Some (d, r) end.

Definition int_part (p : list Z) : option (list Z * list Z) :=
  match p with
  | b :: q => if b =? 48 then Some ([48], q) else digits1 p
  | [] => None
  end.

Definition frac_part (p : list Z) : option (list Z * list Z) :=
  match p with
  | b :: q => if b =? 46 then '(d, r) ← digits1 q; Some (46 :: d, r) else Some ([], p)
  | [] => Some ([], [])
  end.

Definition exp_sign (p : list Z) : list Z * list Z :=
  match p with
  | b :: q => if (b =? 43) || (b =? 45) then ([b], q) else ([], p)
  | [] => ([], [])
  end.

Definition exp_part (p : list Z) : option (list Z * list Z) :=
  match p with
  | b :: q =>
    if (b =? 101) || (b =? 69) then
      let '(s, r) := exp_sign q in '(d, r) ← digits1 r; Some (b :: s ++ d, r)
    else Some ([], p)
  | [] => Some ([], [])
  end.

Definition minus_sign (p : list Z) : list Z * list Z :=
  match p with
  | b :: q => if b =? 45 then ([b], q) else ([], p)
  | [] => ([], [])
  end.

(** The longest number at the start of a text, and the rest. *)
Definition number (p : list Z) : option (list Z * list Z) :=
  let '(s, p) := minus_sign p in
  '(i, p) ← int_part p; '(f, p) ← frac_part p; '(e, p) ← exp_part p; Some (s ++ i ++ f ++ e, p).

(** A whole number literal ([isValidNumber]). *)
Definition number_literal (p : list Z) : bool :=
  match number p with Some (_, []) => true | _ => false end.

(** ** Reading strings *)

Definition hex_value (b : Z) : option Z :=
  if is_digit b then Some (b - 48)
  else if (97 <=? b) && (b <=? 102) then Some (b - 87)
  else if (65 <=? b) && (b <=? 70) then Some (b - 55)
  else None.

(** [getu4] after the [\u]. *)
Definition hex4 (p : list Z) : option Z :=
  match p with
  | a :: b :: c :: d :: _ =>
    a ← hex_value a; b ← hex_value b; c ← hex_value c; d ← hex_value d; Some (((a * 16 + b) * 16 + c) * 16 + d)
  | _ => None
  end.

(** [utf8.EncodeRune] of a code point that is not a surrogate. *)
Definition EncodeRune (u : Z) : list Z :=
  if u <? 128 then [u]
  else if u <? 2048 then [192 + u / 64; 128 + u mod 64]
  else if u <? 65536 then [224 + u / 4096; 128 + (u / 64) mod 64; 128 + u mod 64]
  else [240 + u / 262144; 128 + (u / 4096) mod 64; 128 + (u / 64) mod 64; 128 + u mod 64].

Definition surrogate (u : Z) : bool := (55296 <=? u) && (u <? 57344).

(** The second half of a surrogate pair ([utf16.DecodeRune]). *)
Definition low_surrogate (p : list Z) : option Z :=
  match p with
  | a :: b :: q =>
    if (a =? 92) && (b =? 117) then
      u ← hex4 q; if (56320 <=? u) && (u <? 57344) then Some u else None
    else None
  | _ => None
  end.

(** The rune of an escape [\uXXXX] and what follows it; a surrogate without
    its other half becomes U+FFFD. *)
Definition unicode_escape (u : Z) (q : list Z) : list Z * list Z :=
  if surrogate u then
    match low_surrogate q with
    | Some u2 => if u <? 56320 then (EncodeRune ((u - 55296) * 1024 + (u2 - 56320) + 65536), drop 6 q) else (RuneError, q)
    | None => (RuneError, q)
    end
  else (EncodeRune u, q).

Definition escape (c : Z) : option Z :=
  if (c =? 34) || (c =? 92) || (c =? 47) then Some c
  else if c =? 98 then Some 8
  else if c =? 102 then Some 12
  else if c =? 110 then Some 10
  else if c =? 114 then Some 13
  else if c =? 116 then Some 9
  else None.

(** The first rune of the rest of a string literal that has not ended: its
    bytes and what follows. *)
Definition literal_rune (p : list Z) : option (list Z * list Z) :=
  match p with
  | [] => None
  | b :: q =>
    if b =? 92 then
      match q with
      | [] => None
      | c :: q => if c =? 117 then u ← hex4 q; Some (unicode_escape u (drop 4 q)) else e ← escape c; Some ([e], q)
      end
    else if b <? 32 then None
    else let '(size, ok) := DecodeRune p in Some (if ok then take size p else RuneError, drop size p)
  end.

(** A string literal after its opening quote; the fuel exceeds the length. *)
Fixpoint string_fuel (fuel : nat) (p : list Z) : option (list Z * list Z) :=
  match fuel, p with
  | O, _ | _, [] => None
  | S fuel, b :: q =>
    if b =? 34 then Some ([], q) else
    '(r, p) ← literal_rune p; '(s, rest) ← string_fuel fuel p; Some (r ++ s, rest)
  end.

Definition string_literal (p : list Z) : option (list Z * list Z) := string_fuel (S (length p)) p.

(** ** Reading values *)

Definition is_space (b : Z) : bool := (b =? 32) || (b =? 9) || (b =? 10) || (b =? 13).

Fixpoint skip_space (p : list Z) : list Z :=
  match p with
  | b :: q => if is_space b then skip_space q else p
  | [] => []
  end.

Fixpoint strip (prefix p : list Z) : option (list Z) :=
  match prefix, p with
  | [], _ => Some p
  | a :: prefix, b :: p => if a =? b then strip prefix p else None
  | _, [] => None
  end.

Definition keyword (p : list Z) : option (GoValue * list Z) :=
  match strip (bytes_of "null") p with
  | Some r => Some (go_nil, r)
  | None =>
    match strip (bytes_of "true") p with
    | Some r => Some (Leaf KBool "true", r)
    | None => r ← strip (bytes_of "false") p; Some (Leaf KBool "false", r)
    end
  end.

(** What is read: a value, or the rest of an array or object of which some
    elements or members have been read. *)
Inductive mode : Type := MValue | MElements (acc : list GoValue) | MMembers (acc : list (string * GoValue)).

Section Parse.
Variable num : list Z -> option GoValue.

Fixpoint parse (fuel : nat) (depth : Z) (m : mode) (p : list Z) : option (GoValue * list Z) :=
  match fuel with
  | O => None
  | S fuel =>
    match m with
    | MValue =>
      match skip_space p with
      | [] => None
      | b :: q =>
        if b =? 123 then
          if depth <=? 0 then None else
          match skip_space q with
          | c :: r => if c =? 125 then Some (go_object [], r) else parse fuel (depth - 1) (MMembers []) q
          | [] => None
          end
        else if b =? 91 then
          if depth <=? 0 then None else
          match skip_space q with
          | c :: r => if c =? 93 then Some (Node NSlice [], r) else parse fuel (depth - 1) (MElements []) q
          | [] => None
          end
        else if b =? 34 then '(s, r) ← string_literal q; Some (go_string (string_of s), r)
        else if (b =? 45) || is_digit b then '(t, r) ← number (b :: q); v ← num t; Some (v, r)
        else keyword (b :: q)
      end
    | MElements acc =>
      '(v, q) ← parse fuel depth MValue p;
      match skip_space q with
      | c :: r =>
        if c =? 44 then parse fuel depth (MElements (acc ++ [v])) r
        else if c =? 93 then Some (Node NSlice (map (pair EmptyString) (acc ++ [v])), r)
        else None
      | [] => None
      end
    | MMembers acc =>
      match skip_space p with
      | c :: q =>
        if c =? 34 then
          '(k, q) ← string_literal q;
          match skip_space q with
          | c :: q =>
            if c =? 58 then
              '(v, q) ← parse fuel depth MValue q;
              match skip_space q with
              | c :: r =>
                if c =? 44 then parse fuel depth (MMembers (map_set (string_of k) v acc)) r
                else if c =? 125 then Some (go_object (map_set (string_of k) v acc), r)
                else None
              | [] => None
              end
            else None
          | [] => None
          end
        else None
      | [] => None
      end
    end
  end.

(** A text that holds one value and nothing after it. *)
Definition read (depth : Z) (p : list Z) : option GoValue :=
  match parse (2 * length p + 2) depth MValue p with
  | Some (v, r) => match skip_space r with [] => Some v | _ => None end
  | None => None
  end.
End Parse.

(** [maxNestingDepth]. *)
Definition maxNestingDepth : Z := 10000.

(** [json.Valid]. *)
Definition json_valid (p : list Z) : bool :=
  match read (fun t => Some (Leaf KNumber (string_of t))) maxNestingDepth p with Some _ => true | None => false end.

(** [compact] of a valid [json.RawMessage], outside strings, inside, or after a
    backslash. *)
Inductive scan_state : Type := Outside | Inside | Escaped.

Definition scan_next (st : scan_state) (b : Z) : scan_state :=
  match st with
  | Outside => if b =? 34 then Inside else Outside
  | Inside => if b =? 34 then Outside else if b =? 92 then Escaped else Inside
  | Escaped => Inside
  end.

Fixpoint compact (st : scan_state) (p : list Z) : list Z :=
  match p with
  | [] => []
  | b :: q =>
    (match st with
     | Outside => if is_space b then [] else if html_unsafe b then unicode_byte b else [b]
     | _ => if html_unsafe b then unicode_byte b else [b]
     end) ++ compact (scan_next st b) q
  end.

(** Line separators are escaped before, so that [compact] sees bytes. *)
Fixpoint escape_separators (fuel : nat) (p : list Z) : list Z :=
  match fuel, p with
  | S fuel, b :: q =>
    if line_separator (take 3 p) then bytes_of "\u202" ++ [hex (List.last (take 3 p) 0 mod 16)] ++ escape_separators fuel (drop 3 p)
    else b :: escape_separators fuel q
  | _, _ => []
  end.

(** ** The package *)

(** What the model leaves open: the text that the package writes for the
    float64 nearest to a number literal, [None] when there is none; how values
    of types other than those of [GoValues] are written; [fmt.Sprint]. *)
Class Json : Type := {
  float_text : list Z -> option (list Z);
  other_json : GoValue -> option (list Z);
  Sprint : GoValue -> list Z;
}.

(** The text of a float64 is a number and stands for the same float64; what is
    written is bytes. *)
Class JsonLaws `{Json} : Prop := {
  float_text_literal t u : float_text t = Some u -> number u = Some (u, []);
  float_text_bytes t u : float_text t = Some u -> Forall is_byte u;
  float_text_idem t u : float_text t = Some u -> float_text u = Some u;
  other_json_bytes v d : other_json v = Some d -> Forall is_byte d;
}.

Section Package.
Context `{Json}.

Definition float_value (t : list Z) : option GoValue := (fun u => Leaf KFloat (string_of u)) <$> float_text t.

(** [json.Unmarshal] into an [any]. *)
Definition Unmarshal (p : list Z) : option GoValue := read float_value maxNestingDepth p.

(** [json.Unmarshal] into a nil [map[string]any]: [null] leaves it nil. *)
Definition Unmarshal_map (p : list Z) : option GoMap :=
  match Unmarshal p with
  | Some (Node NMap items) => Some (Some items)
  | Some (Leaf KNil _) => Some None
  | _ => None
  end.

Definition marshal_raw (t : list Z) : option (list Z) :=
  match t with
  | [] => Some (bytes_of "null")
  | _ => if json_valid t then Some (compact Outside (escape_separators (length t) t)) else None
  end.

Definition marshal_leaf (k : leaf_kind) (t : string) : option (list Z) :=
  match k with
  | KNil => Some (bytes_of "null")
  | KBool | KInt => Some (bytes_of t)
  | KFloat => if number_literal (bytes_of t) then Some (bytes_of t) else None
  | KNumber =>
    if String.eqb t "" then Some (bytes_of "0") else if number_literal (bytes_of t) then Some (bytes_of t) else None
  | KString => Some (quote (bytes_of t))
  | KRaw => marshal_raw (bytes_of t)
  | KOther => other_json (Leaf k t)
  end.

Fixpoint commas (ds : list (list Z)) : list Z :=
  match ds with
  | [] => []
  | [d] => d
  | d :: ds => d ++ 44 :: commas ds
  end.

Definition array (ds : list (list Z)) : list Z := 91 :: commas ds ++ [93].
Definition object (ms : list (list Z)) : list Z := 123 :: commas ms ++ [125].
Definition member (k : string) (d : list Z) : list Z := quote (bytes_of k) ++ 58 :: d.

(** [json.Marshal]; the items of a map are in increasing order of their keys. *)
Fixpoint Marshal (v : GoValue) : option (list Z) :=
  match v with
  | Leaf k t => marshal_leaf k t
  | Node k items =>
    let fix elements (items : list (string * GoValue)) : option (list (list Z)) :=
      match items with
      | [] => Some []
      | (_, v) :: items => d ← Marshal v; ds ← elements items; Some (d :: ds)
      end in
    let fix members (items : list (string * GoValue)) : option (list (list Z)) :=
      match items with
      | [] => Some []
      | (k, v) :: items => d ← Marshal v; ds ← members items; Some (member k d :: ds)
      end in
    match k with
    | NSlice | NStrings => array <$> elements items
    | NMap => object <$> members items
    | _ => other_json v
    end
  end.

(** A nil map is written as [null]. *)
Definition Marshal_map (m : GoMap) : option (list Z) :=
  match m with Some items => Marshal (go_object items) | None => Some (bytes_of "null") end.
End Package.
