(* ===== verification/GoJsonFacts.v ===== *)
(** * Reading what was written as JSON

    The values that [Unmarshal] yields ([json_value]); what is written for one
    is read back as the same value, and the fuel of the parser is enough. *)

From Stdlib Require Import ZArith Lia Ascii String.
From stdpp Require Import base option strings list sorting.
From S2P Require Import Prelude GoStrings Utf8Stream Runes GoValues GoJson.

Local Open Scope Z_scope.

(** ** Strings *)

Lemma unicode_escape_shorter u q : (length (snd (unicode_escape u q)) <= length q)%nat.
Proof.
  unfold unicode_escape. destruct (surrogate u); [|done]. destruct (low_surrogate q); [|done].
  destruct (u <? 56320); [|done]. cbn [snd]. rewrite length_drop. lia.
Qed.

Lemma literal_rune_shorter p r q : literal_rune p = Some (r, q) -> (length q < length p)%nat.
Proof.
  destruct p as [|b p]; [done|]. unfold literal_rune. destruct (b =? 92).
  - destruct p as [|c p]; [done|]. destruct (c =? 117).
    + destruct (hex4 p) as [u|]; [|done]. cbn [mbind option_bind]. intros E. injection E as E.
      pose proof (unicode_escape_shorter u (drop 4 p)) as Hs. rewrite E in Hs. cbn [snd] in Hs.
      rewrite length_drop in Hs. cbn [length]. lia.
    + destruct (escape c); [|done]. intros [= <- <-]. cbn [length]. lia.
  - destruct (b <? 32); [done|]. pose proof (DecodeRune_size (b :: p) ltac:(done)) as Hs.
    destruct (DecodeRune (b :: p)) as [size ok]. intros [= <- <-]. cbn [fst] in Hs. rewrite length_drop. lia.
Qed.

Lemma string_fuel_irrel n m p : (length p < n)%nat -> (length p < m)%nat -> string_fuel n p = string_fuel m p.
Proof.
  revert m p. induction n as [|n IH]; intros m p Hn Hm; [lia|]. destruct m as [|m]; [lia|].
  destruct p as [|b q]; [done|]. cbn [string_fuel]. destruct (b =? 34); [done|].
  destruct (literal_rune (b :: q)) as [[r p]|] eqn:E; [|done]. apply literal_rune_shorter in E. cbn [mbind option_bind].
  rewrite (IH m); [done|lia|lia].
Qed.

Lemma string_step b q : b <> 34 -> string_literal (b :: q) = '(r, p) ← literal_rune (b :: q); '(s, rest) ← string_literal p; Some (r ++ s, rest).
Proof.
  intros Hb. unfold string_literal at 1. cbn [string_fuel]. rewrite (proj2 (Z.eqb_neq _ _)) by done.
  destruct (literal_rune (b :: q)) as [[r p]|] eqn:E; [|done]. apply literal_rune_shorter in E. cbn [mbind option_bind].
  unfold string_literal. rewrite (string_fuel_irrel _ (S (length p))) by lia. done.
Qed.

Lemma string_shorter n p s r : string_fuel n p = Some (s, r) -> (length r < length p)%nat.
Proof.
  revert p s r. induction n as [|n IH]; intros p s r; [done|]. destruct p as [|b q]; [done|]. cbn [string_fuel].
  destruct (b =? 34); [intros [= <- <-]; cbn [length]; lia|]. destruct (literal_rune (b :: q)) as [[x p]|] eqn:E; [|done].
  apply literal_rune_shorter in E. cbn [mbind option_bind]. destruct (string_fuel n p) as [[y rest]|] eqn:E2; [|done].
  apply IH in E2. cbn [mbind option_bind]. intros [= <- <-]. lia.
Qed.

Lemma hex_value_hex n : 0 <= n < 16 -> hex_value (hex n) = Some n.
Proof.
  intros Hn. unfold hex_value, hex, is_digit. destruct (Z.ltb_spec n 10).
  - rewrite (proj2 (Z.leb_le 48 _)), (proj2 (Z.leb_le (48 + n) 57)) by lia. cbn. f_equal. lia.
  - rewrite (proj2 (Z.leb_gt (87 + n) 57)), andb_false_r by lia.
    rewrite (proj2 (Z.leb_le 97 _)), (proj2 (Z.leb_le (87 + n) 102)) by lia. cbn. f_equal. lia.
Qed.

Lemma hex4_byte b q : 0 <= b < 256 -> hex4 (48 :: 48 :: hex (b / 16) :: hex (b mod 16) :: q) = Some b.
Proof.
  intros Hb. pose proof (Z.mod_pos_bound b 16 ltac:(lia)). assert (0 <= b / 16 < 16) by (split; [apply Z.div_pos|apply Z.div_lt_upper_bound]; lia).
  cbn [hex4]. rewrite !hex_value_hex by lia. cbn. f_equal. pose proof (Z.div_mod b 16 ltac:(lia)). lia.
Qed.

Lemma literal_plain r q : rune r -> (forall b, r = [b] -> b <> 92 /\ 32 <= b) -> literal_rune (r ++ q) = Some (r, q).
Proof.
  intros (Hne&Hb&Hr) Hs. destruct r as [|b r]; [done|]. specialize (Hr q).
  assert (Hb' : b <> 92 /\ 32 <= b).
  { destruct r as [|c r]; [by apply Hs|]. cbn [app] in Hr. unfold DecodeRune in Hr. destruct (first b) as [[[size lo] hi]|] eqn:E.
    - unfold first in E. repeat case_match; simplify_eq; try lia; cbn in Hr; simplify_eq.
    - by injection Hr as Hr. }
  unfold literal_rune. cbn [app]. change (b :: r ++ q) with ((b :: r) ++ q).
  rewrite (proj2 (Z.eqb_neq _ _)), (proj2 (Z.ltb_ge _ _)) by lia. rewrite Hr. by rewrite take_app_length, drop_app_length.
Qed.

Lemma rune_single b : rune [b] -> 0 <= b < 128.
Proof.
  intros (_&_&Hr). specialize (Hr []). cbn in Hr. unfold first in Hr. repeat case_match; simplify_eq; try lia.
Qed.

(** A piece of a string that ranging over it yields. *)
Definition piece (c : list Z * bool) : Prop := if snd c then rune (fst c) else exists b, fst c = [b].

Lemma chunks_pieces p : Forall is_byte p -> Forall piece (chunks p).
Proof.
  induction p as [|p Hne IH] using rune_ind; [constructor|]. intros Hb. rewrite chunks_step by done. constructor.
  - unfold piece. cbn [fst snd]. destruct (snd (DecodeRune p)) eqn:E; [by apply decoded_rune|].
    rewrite DecodeRune_invalid by done. destruct p as [|b p]; [done|]. by exists b.
  - by apply IH, Forall_drop.
Qed.

Lemma quote_byte_read b q : 0 <= b < 128 -> literal_rune (quote_byte b ++ q) = Some ([b], q).
Proof.
  intros Hb. unfold quote_byte.
  destruct ((b =? 34) || (b =? 92)) eqn:E1; [apply orb_true_iff in E1 as [->%Z.eqb_eq| ->%Z.eqb_eq]; reflexivity|].
  apply orb_false_iff in E1 as [H1 H2].
  repeat (match goal with |- context [if ?x =? ?n then _ else _] => destruct (Z.eqb_spec x n) as [->|?]; [reflexivity|] end).
  destruct ((b <? 32) || html_unsafe b) eqn:E2.
  - unfold unicode_byte. cbn [app]. unfold literal_rune. cbn [Z.eqb Pos.eqb]. rewrite hex4_byte by lia. cbn [mbind option_bind drop].
    unfold unicode_escape, surrogate, EncodeRune. rewrite (proj2 (Z.leb_gt _ _)), (proj2 (Z.ltb_lt b 128)) by lia. done.
  - apply orb_false_iff in E2 as [E2 _]. apply (literal_plain [b]).
    + split; [done|]. split; [repeat constructor; unfold is_byte; lia|]. intros x. cbn. unfold first.
      rewrite (proj2 (Z.leb_le 0 b)), (proj2 (Z.leb_le b 127)) by lia. done.
    + intros c [= <-]. lia.
Qed.

Lemma quote_rune_read c q : piece c -> literal_rune (quote_rune c ++ q) = Some (shown c, q).
Proof.
  destruct c as [r ok]. unfold piece, shown. cbn [fst snd]. destruct ok; [|intros _; reflexivity]. intros Hr.
  cbn [quote_rune negb]. destruct r as [|b [|c r]]; [by destruct Hr| |].
  - apply rune_single in Hr. by apply quote_byte_read.
  - destruct (line_separator (b :: c :: r)) eqn:E; [|by apply literal_plain].
    unfold line_separator in E. apply orb_true_iff in E as [E|E]; apply bool_decide_eq_true in E; simplify_eq; reflexivity.
Qed.

Lemma quote_byte_head b : exists x l, quote_byte b = x :: l /\ x <> 34.
Proof.
  unfold quote_byte. repeat case_match; try (by eexists _, _).
  exists b, []. split; [done|]. match goal with H : _ || _ = false |- _ => apply orb_false_iff in H as [?%Z.eqb_neq _] end. done.
Qed.

Lemma quote_rune_head c : piece c -> exists x l, quote_rune c = x :: l /\ x <> 34.
Proof.
  destruct c as [r ok]. unfold piece. cbn [fst snd]. destruct ok; [|by intros _; eexists _, _]. intros Hr.
  cbn [quote_rune negb]. destruct r as [|b [|c r]]; [by destruct Hr|apply quote_byte_head|].
  case_match; [by eexists _, _|]. exists b, (c :: r). split; [done|]. intros ->. destruct Hr as (_&_&Hr). by specialize (Hr []).
Qed.

(** What [quote] writes is read back, with U+FFFD for the invalid bytes. *)
Lemma string_quote p rest : Forall is_byte p -> string_literal (quote_body p ++ 34 :: rest) = Some (concat (runes p), rest).
Proof.
  intros Hb. apply chunks_pieces in Hb. unfold quote_body. rewrite <- chunks_shown.
  induction Hb as [|c l Hc _ IH]; [reflexivity|]. cbn [map concat]. rewrite <- (assoc_L (++)).
  pose proof (quote_rune_read c (concat (map quote_rune l) ++ 34 :: rest) Hc) as Hr.
  destruct (quote_rune_head c Hc) as (x&y&Hx&Hne). rewrite Hx in *. cbn [app] in *.
  rewrite string_step by done. rewrite Hr. cbn [mbind option_bind]. by rewrite IH.
Qed.

Lemma quote_bytes p : Forall is_byte p -> Forall is_byte (quote p).
Proof.
  intros Hb. apply chunks_pieces in Hb. unfold quote. constructor; [unfold is_byte; lia|]. apply Forall_app. split; [|repeat constructor; unfold is_byte; lia].
  unfold quote_body. induction Hb as [|[r ok] l Hc _ IH]; [constructor|]. cbn [map concat]. apply Forall_app. split; [|done].
  unfold piece in Hc. cbn [fst snd] in Hc. destruct ok; cbn [quote_rune negb]; [|apply bytes_of_bytes].
  destruct r as [|b [|c r]]; [by destruct Hc| |].
  - apply rune_single in Hc. unfold quote_byte, unicode_byte, hex.
    pose proof (Z.mod_pos_bound b 16 ltac:(lia)). assert (0 <= b / 16 < 16) by (split; [apply Z.div_pos|apply Z.div_lt_upper_bound]; lia).
    repeat case_match; repeat constructor; unfold is_byte; lia.
  - destruct (line_separator (b :: c :: r)) eqn:E; [|apply Hc].
    unfold line_separator in E. apply orb_true_iff in E as [E|E]; apply bool_decide_eq_true in E; simplify_eq; (apply Forall_app; split;
      [apply bytes_of_bytes|apply Forall_singleton; vm_compute; split; [intros [=]|done]]).
Qed.

(** ** Numbers *)

(** What follows a value that was written: nothing, a comma, or the end of the
    array or object. *)
Definition closing (rest : list Z) : Prop :=
  match rest with [] => True | b :: _ => b = 44 \/ b = 93 \/ b = 125 end.

Lemma closing_head b rest : closing (b :: rest) -> is_digit b = false /\ b <> 46 /\ b <> 101 /\ b <> 69 /\ b <> 43 /\ b <> 45 /\ is_space b = false.
Proof. intros [->|[->| ->]]; by repeat split. Qed.

Lemma span_digits_closing p rest : closing rest ->
  span_digits (p ++ rest) = (fst (span_digits p), snd (span_digits p) ++ rest).
Proof.
  intros Hc. induction p as [|b p IH]; cbn [app span_digits].
  - destruct rest as [|b rest]; [done|]. cbn [span_digits]. by destruct (closing_head b rest Hc) as (->&_).
  - rewrite IH. destruct (is_digit b); [|done]. by destruct (span_digits p).
Qed.

Lemma digits1_closing p rest d r : closing rest -> digits1 p = Some (d, r) -> digits1 (p ++ rest) = Some (d, r ++ rest).
Proof.
  intros Hc. unfold digits1. rewrite span_digits_closing by done. destruct (span_digits p) as [e s]. cbn [fst snd].
  destruct e; [done|]. by intros [= <- <-].
Qed.

Lemma minus_sign_closing p rest : closing rest -> minus_sign (p ++ rest) = (fst (minus_sign p), snd (minus_sign p) ++ rest).
Proof.
  intros Hc. destruct p as [|b p]; cbn [app minus_sign].
  - destruct rest as [|b rest]; [done|]. cbn. destruct (closing_head b rest Hc) as (_&_&_&_&_&H&_). by rewrite (proj2 (Z.eqb_neq _ _)).
  - by destruct (b =? 45).
Qed.

Lemma exp_sign_closing p rest : closing rest -> exp_sign (p ++ rest) = (fst (exp_sign p), snd (exp_sign p) ++ rest).
Proof.
  intros Hc. destruct p as [|b p]; cbn [app exp_sign].
  - destruct rest as [|b rest]; [done|]. cbn. destruct (closing_head b rest Hc) as (_&_&_&_&H1&H2&_).
    by rewrite !(proj2 (Z.eqb_neq _ _)).
  - by destruct (_ || _).
Qed.

Lemma int_part_closing p rest d r : closing rest -> int_part p = Some (d, r) -> int_part (p ++ rest) = Some (d, r ++ rest).
Proof.
  intros Hc. destruct p as [|b p]; [done|]. cbn [app int_part]. destruct (b =? 48); [by intros [= <- <-]|].
  apply (digits1_closing (b :: p)). done.
Qed.

Lemma frac_part_closing p rest d r : closing rest -> frac_part p = Some (d, r) -> frac_part (p ++ rest) = Some (d, r ++ rest).
Proof.
  intros Hc. destruct p as [|b p]; cbn [app frac_part].
  - intros [= <- <-]. destruct rest as [|b rest]; [done|]. cbn. destruct (closing_head b rest Hc) as (_&H&_). by rewrite (proj2 (Z.eqb_neq _ _)).
  - destruct (b =? 46); [|by intros [= <- <-]]. destruct (digits1 p) as [[e s]|] eqn:E; [|done]. cbn [mbind option_bind].
    intros [= <- <-]. by rewrite (digits1_closing _ _ _ _ Hc E).
Qed.

Lemma exp_part_closing p rest d r : closing rest -> exp_part p = Some (d, r) -> exp_part (p ++ rest) = Some (d, r ++ rest).
Proof.
  intros Hc. destruct p as [|b p]; cbn [app exp_part].
  - intros [= <- <-]. destruct rest as [|b rest]; [done|]. cbn. destruct (closing_head b rest Hc) as (_&_&H1&H2&_). by rewrite !(proj2 (Z.eqb_neq _ _)).
  - destruct ((b =? 101) || (b =? 69)); [|by intros [= <- <-]]. rewrite exp_sign_closing by done.
    destruct (exp_sign p) as [s q]. cbn [fst snd]. destruct (digits1 q) as [[e t]|] eqn:E; [|done]. cbn [mbind option_bind].
    intros [= <- <-]. by rewrite (digits1_closing _ _ _ _ Hc E).
Qed.

Lemma number_closing p rest t r : closing rest -> number p = Some (t, r) -> number (p ++ rest) = Some (t, r ++ rest).
Proof.
  intros Hc. unfold number. rewrite minus_sign_closing by done. destruct (minus_sign p) as [s p1]. cbn [fst snd].
  destruct (int_part p1) as [[i p2]|] eqn:E1; [|done]. rewrite (int_part_closing _ _ _ _ Hc E1). cbn [mbind option_bind].
  destruct (frac_part p2) as [[f p3]|] eqn:E2; [|done]. rewrite (frac_part_closing _ _ _ _ Hc E2). cbn [mbind option_bind].
  destruct (exp_part p3) as [[e p4]|] eqn:E3; [|done]. rewrite (exp_part_closing _ _ _ _ Hc E3). cbn [mbind option_bind].
  by intros [= <- <-].
Qed.

Lemma span_digits_app p : fst (span_digits p) ++ snd (span_digits p) = p.
Proof. induction p as [|b p IH]; [done|]. cbn. destruct (is_digit b); [|done]. destruct (span_digits p). cbn in *. by rewrite IH. Qed.

Lemma digits1_app p d r : digits1 p = Some (d, r) -> p = d ++ r /\ d <> [].
Proof.
  unfold digits1. pose proof (span_digits_app p) as Hs. destruct (span_digits p) as [e s]. cbn in Hs.
  destruct e; [done|]. by intros [= <- <-].
Qed.

Lemma number_app p t r : number p = Some (t, r) -> p = t ++ r /\ t <> [].
Proof.
  unfold number. assert (H1 : fst (minus_sign p) ++ snd (minus_sign p) = p) by (destruct p as [|b p]; [done|]; cbn; by destruct (b =? 45)).
  destruct (minus_sign p) as [s p1]. cbn in H1. destruct (int_part p1) as [[i p2]|] eqn:E1; [|done]. cbn [mbind option_bind].
  destruct (frac_part p2) as [[f p3]|] eqn:E2; [|done]. cbn [mbind option_bind].
  destruct (exp_part p3) as [[e p4]|] eqn:E3; [|done]. cbn [mbind option_bind]. intros [= <- <-].
  assert (Hi : p1 = i ++ p2 /\ i <> []).
  { destruct p1 as [|b q]; [done|]. cbn [int_part] in E1. destruct (Z.eqb_spec b 48); [by simplify_eq|by apply digits1_app]. }
  assert (Hf : p2 = f ++ p3).
  { destruct p2 as [|b q]; cbn [frac_part] in E2; [by simplify_eq|]. destruct (Z.eqb_spec b 46); [|by simplify_eq].
    destruct (digits1 q) as [[d x]|] eqn:E; [|done]. apply digits1_app in E as [-> _]. by simplify_eq/=. }
  assert (He : p3 = e ++ p4).
  { destruct p3 as [|b q]; cbn [exp_part] in E3; [by simplify_eq|]. destruct (_ || _); [|by simplify_eq].
    assert (H2 : fst (exp_sign q) ++ snd (exp_sign q) = q) by (destruct q as [|c q]; [done|]; cbn; by destruct (_ || _)).
    destruct (exp_sign q) as [u w]. cbn in H2. destruct (digits1 w) as [[d x]|] eqn:E; [|done]. apply digits1_app in E as [-> _].
    simplify_eq/=. by rewrite <- (assoc_L (++)). }
  destruct Hi as [-> Hi]. subst. split; [by rewrite <- !(assoc_L (++))|]. destruct s, i; done.
Qed.

(** A number starts with a minus sign or a digit. *)
Lemma number_head b p t r : number (b :: p) = Some (t, r) -> (b =? 45) || is_digit b = true.
Proof.
  unfold number. cbn [minus_sign]. destruct (b =? 45) eqn:Eb; [done|]. cbn [int_part]. destruct (Z.eqb_spec b 48) as [->|]; [done|].
  unfold digits1. cbn [span_digits]. by destruct (is_digit b).
Qed.

(** ** The parser's fuel and depth *)

Lemma skip_space_length p : (length (skip_space p) <= length p)%nat.
Proof. induction p as [|b p IH]; [done|]. cbn [skip_space]. destruct (is_space b); cbn [length] in *; lia. Qed.

Lemma skip_space_head p b q : skip_space p = b :: q -> (length q < length p)%nat.
Proof. intros E. pose proof (skip_space_length p) as H. rewrite E in H. cbn [length] in H. lia. Qed.

Lemma strip_shorter x p r : strip x p = Some r -> (length r <= length p)%nat.
Proof.
  revert p. induction x as [|a x IH]; intros p; [destruct p; by intros [= <-]|]. destruct p as [|b p]; [done|]. cbn [strip].
  destruct (a =? b); [|done]. intros H. apply IH in H. cbn [length]. lia.
Qed.

Lemma strip_word_shorter x p r : x <> [] -> strip x p = Some r -> (length r < length p)%nat.
Proof.
  destruct x as [|a x]; [done|]. intros _. destruct p as [|b p]; [done|]. cbn [strip]. destruct (a =? b); [|done].
  intros H%strip_shorter. cbn [length]. lia.
Qed.

Lemma keyword_shorter p v r : keyword p = Some (v, r) -> (length r < length p)%nat.
Proof.
  unfold keyword. destruct (strip (bytes_of "null") p) eqn:E1; [intros [= <- <-]; by apply strip_word_shorter in E1|].
  destruct (strip (bytes_of "true") p) eqn:E2; [intros [= <- <-]; by apply strip_word_shorter in E2|].
  destruct (strip (bytes_of "false") p) eqn:E3; [|done]. intros [= <- <-]. by apply strip_word_shorter in E3.
Qed.

Lemma string_literal_shorter p s r : string_literal p = Some (s, r) -> (length r < length p)%nat.
Proof. apply string_shorter. Qed.

Lemma number_shorter p t r : number p = Some (t, r) -> (length r < length p)%nat.
Proof. intros (->&Hne)%number_app. rewrite length_app. destruct t; [done|]. cbn [length]. lia. Qed.

Section ParseFacts.
Variable num : list Z -> option GoValue.

Lemma parse_shorter fuel depth m p v r : parse num fuel depth m p = Some (v, r) -> (length r < length p)%nat.
Proof.
  revert depth m p v r. induction fuel as [|fuel IH]; intros depth m p v r; [done|]. destruct m as [|acc|acc]; cbn [parse].
  - destruct (skip_space p) as [|b q] eqn:E; [done|]. apply skip_space_head in E.
    destruct (b =? 123); [|destruct (b =? 91); [|destruct (b =? 34); [|destruct ((b =? 45) || is_digit b)]]].
    + destruct (depth <=? 0); [done|]. destruct (skip_space q) as [|c q'] eqn:E2; [done|]. apply skip_space_head in E2.
      destruct (c =? 125); [intros [= <- <-]; lia|]. intros H%IH. lia.
    + destruct (depth <=? 0); [done|]. destruct (skip_space q) as [|c q'] eqn:E2; [done|]. apply skip_space_head in E2.
      destruct (c =? 93); [intros [= <- <-]; lia|]. intros H%IH. lia.
    + destruct (string_literal q) as [[s q1]|] eqn:E1; [|done]. apply string_literal_shorter in E1. intros [= <- <-]. lia.
    + destruct (number (b :: q)) as [[t q1]|] eqn:E1; [|done]. apply number_shorter in E1. cbn [mbind option_bind length] in *.
      destruct (num t); [|done]. intros [= <- <-]. lia.
    + intros H%keyword_shorter. cbn [length] in H. lia.
  - destruct (parse num fuel depth MValue p) as [[x q]|] eqn:E; [|done]. cbn [mbind option_bind]. apply IH in E.
    destruct (skip_space q) as [|c q'] eqn:E2; [done|]. apply skip_space_head in E2.
    destruct (c =? 44); [intros H%IH; lia|]. destruct (c =? 93); [|done]. intros [= <- <-]. lia.
  - destruct (skip_space p) as [|b q] eqn:E; [done|]. apply skip_space_head in E. destruct (b =? 34); [|done].
    destruct (string_literal q) as [[s q1]|] eqn:E1; [|done]. apply string_literal_shorter in E1. cbn [mbind option_bind].
    destruct (skip_space q1) as [|c q2] eqn:E2; [done|]. apply skip_space_head in E2. destruct (c =? 58); [|done].
    destruct (parse num fuel depth MValue q2) as [[x q3]|] eqn:E3; [|done]. cbn [mbind option_bind]. apply IH in E3.
    destruct (skip_space q3) as [|e q4] eqn:E4; [done|]. apply skip_space_head in E4.
    destruct (e =? 44); [intros H%IH; lia|]. destruct (e =? 125); [|done]. intros [= <- <-]. lia.
Qed.

Definition work (m : mode) (p : list Z) : nat := match m with MValue => 2 * length p | _ => 2 * length p + 1 end.

(** Enough fuel is as good as any. *)
Lemma parse_fuel n k depth m p : (work m p < n)%nat -> (work m p < k)%nat -> parse num n depth m p = parse num k depth m p.
Proof.
  revert k depth m p. induction n as [|n IH]; intros k depth m p Hn Hk; [lia|]. destruct k as [|k]; [lia|].
  destruct m as [|acc|acc]; cbn [parse work] in *.
  - destruct (skip_space p) as [|b q] eqn:E; [done|]. apply skip_space_head in E.
    rewrite (IH k (depth - 1) (MMembers []) q), (IH k (depth - 1) (MElements []) q) by (cbn [work]; lia). done.
  - rewrite (IH k depth MValue p) by (cbn [work]; lia). destruct (parse num k depth MValue p) as [[x q]|] eqn:E; [|done].
    cbn [mbind option_bind]. apply parse_shorter in E. destruct (skip_space q) as [|c r] eqn:E2; [done|]. apply skip_space_head in E2.
    rewrite (IH k depth _ r) by (cbn [work]; lia). done.
  - destruct (skip_space p) as [|b q] eqn:E; [done|]. apply skip_space_head in E. destruct (b =? 34); [|done].
    destruct (string_literal q) as [[s q1]|] eqn:E1; [|done]. apply string_literal_shorter in E1. cbn [mbind option_bind].
    destruct (skip_space q1) as [|c q2] eqn:E2; [done|]. apply skip_space_head in E2. destruct (c =? 58); [|done].
    rewrite (IH k depth MValue q2) by (cbn [work]; lia). destruct (parse num k depth MValue q2) as [[x q3]|] eqn:E3; [|done].
    cbn [mbind option_bind]. apply parse_shorter in E3. destruct (skip_space q3) as [|e r] eqn:E4; [done|]. apply skip_space_head in E4.
    rewrite (IH k depth _ r) by (cbn [work]; lia). done.
Qed.

(** A larger bound on the nesting reads as much. *)
Lemma parse_depth fuel d d' m p x : d <= d' -> parse num fuel d m p = Some x -> parse num fuel d' m p = Some x.
Proof.
  revert d d' m p x. induction fuel as [|fuel IH]; intros d d' m p x Hd; [done|]. destruct m as [|acc|acc]; cbn [parse].
  - destruct (skip_space p) as [|b q]; [done|].
    destruct (b =? 123); [|destruct (b =? 91); [|done]].
    + destruct (Z.leb_spec d 0); [done|]. rewrite (proj2 (Z.leb_gt d' 0)) by lia. destruct (skip_space q); [done|].
      destruct (_ =? _); [done|]. apply IH. lia.
    + destruct (Z.leb_spec d 0); [done|]. rewrite (proj2 (Z.leb_gt d' 0)) by lia. destruct (skip_space q); [done|].
      destruct (_ =? _); [done|]. apply IH. lia.
  - destruct (parse num fuel d MValue p) as [[y q]|] eqn:E; [|done]. rewrite (IH _ _ _ _ _ Hd E). cbn [mbind option_bind].
    destruct (skip_space q) as [|c r]; [done|]. destruct (c =? 44); [|done]. by apply IH.
  - destruct (skip_space p) as [|b q]; [done|]. destruct (b =? 34); [|done]. destruct (string_literal q) as [[s q1]|]; [|done].
    cbn [mbind option_bind]. destruct (skip_space q1) as [|c q2]; [done|]. destruct (c =? 58); [|done].
    destruct (parse num fuel d MValue q2) as [[y q3]|] eqn:E; [|done]. rewrite (IH _ _ _ _ _ Hd E). cbn [mbind option_bind].
    destruct (skip_space q3) as [|e r]; [done|]. destruct (e =? 44); [|done]. by apply IH.
Qed.

Lemma read_depth d d' p v : d <= d' -> read num d p = Some v -> read num d' p = Some v.
Proof.
  intros Hd. unfold read. destruct (parse num _ d MValue p) as [x|] eqn:E; [|done]. by rewrite (parse_depth _ _ _ _ _ _ Hd E).
Qed.
End ParseFacts.

(** ** Values *)

Definition key_lt (a b : string) : Prop := String.ltb a b = true.
Definition sorted_keys (items : list (string * GoValue)) : Prop := StronglySorted key_lt (map fst items).

Section Values.
Context `{JL : JsonLaws}.

(** The values that [Unmarshal] builds. *)
Inductive json_value : GoValue -> Prop :=
| json_null : json_value go_nil
| json_bool t : t = "true"%string \/ t = "false"%string -> json_value (Leaf KBool t)
| json_float t : float_text (bytes_of t) = Some (bytes_of t) -> json_value (Leaf KFloat t)
| json_string t : Valid (bytes_of t) = true -> json_value (go_string t)
| json_array vs : Forall json_value vs -> json_value (Node NSlice (map (pair EmptyString) vs))
| json_object items : sorted_keys items -> Forall (fun x => Valid (bytes_of (fst x)) = true) items ->
    Forall json_value (map snd items) -> json_value (go_object items).

(** How deep a value nests. *)
Fixpoint nesting (v : GoValue) : Z :=
  match v with
  | Leaf _ _ => 0
  | Node _ items => 1 + (fix go items := match items with [] => 0 | (_, v) :: items => Z.max (nesting v) (go items) end) items
  end.

Definition deepest (vs : list GoValue) : Z := foldr (fun v n => Z.max (nesting v) n) 0 vs.

Lemma nesting_node k items : nesting (Node k items) = 1 + deepest (map snd items).
Proof. cbn [nesting]. f_equal. induction items as [|[n v] items IH]; [done|]. cbn. by rewrite IH. Qed.

Lemma nesting_nonneg v : 0 <= nesting v.
Proof.
  destruct v as [|k items]; [done|]. rewrite nesting_node. assert (0 <= deepest (map snd items)); [|lia].
  induction items as [|x items IH]; [done|]. cbn [map deepest foldr]. fold (deepest (map snd items)). lia.
Qed.

Fixpoint marshal_elements (vs : list GoValue) : option (list (list Z)) :=
  match vs with [] => Some [] | v :: vs => d ← Marshal v; ds ← marshal_elements vs; Some (d :: ds) end.
Fixpoint marshal_members (items : list (string * GoValue)) : option (list (list Z)) :=
  match items with [] => Some [] | (k, v) :: items => d ← Marshal v; ds ← marshal_members items; Some (member k d :: ds) end.

Lemma Marshal_array k items : k = NSlice \/ k = NStrings -> Marshal (Node k items) = array <$> marshal_elements (map snd items).
Proof.
  intros Hk. assert (E : forall l, (fix elements (l : list (string * GoValue)) : option (list (list Z)) :=
    match l with [] => Some [] | (_, v) :: l => d ← Marshal v; ds ← elements l; Some (d :: ds) end) l = marshal_elements (map snd l)).
  { induction l as [|[n v] l IH]; [done|]. cbn. by rewrite <- IH. }
  cbn [Marshal]. destruct Hk as [->| ->]; f_equal; apply E.
Qed.

Lemma Marshal_object items : Marshal (go_object items) = object <$> marshal_members items.
Proof. done. Qed.

Lemma marshal_elements_cons v vs ds : marshal_elements (v :: vs) = Some ds ->
  exists d ds', Marshal v = Some d /\ marshal_elements vs = Some ds' /\ ds = d :: ds'.
Proof.
  cbn [marshal_elements]. destruct (Marshal v) as [d|]; [|done]. cbn [mbind option_bind].
  destruct (marshal_elements vs) as [ds'|]; [|done]. intros [= <-]. by exists d, ds'.
Qed.

Lemma marshal_members_cons x items ds : marshal_members (x :: items) = Some ds ->
  exists d ds', Marshal (snd x) = Some d /\ marshal_members items = Some ds' /\ ds = member (fst x) d :: ds'.
Proof.
  destruct x as [k v]. cbn [marshal_members fst snd]. destruct (Marshal v) as [d|]; [|done]. cbn [mbind option_bind].
  destruct (marshal_members items) as [ds'|]; [|done]. intros [= <-]. by exists d, ds'.
Qed.

Lemma json_value_ind' (P : GoValue -> Prop) :
  P go_nil -> (forall t, t = "true"%string \/ t = "false"%string -> P (Leaf KBool t)) ->
  (forall t, float_text (bytes_of t) = Some (bytes_of t) -> P (Leaf KFloat t)) ->
  (forall t, Valid (bytes_of t) = true -> P (go_string t)) ->
  (forall vs, Forall json_value vs -> Forall P vs -> P (Node NSlice (map (pair EmptyString) vs))) ->
  (forall items, sorted_keys items -> Forall (fun x => Valid (bytes_of (fst x)) = true) items ->
     Forall json_value (map snd items) -> Forall P (map snd items) -> P (go_object items)) ->
  forall v, json_value v -> P v.
Proof.
  intros H0 H1 H2 H3 H4 H5. fix IH 2. intros v Hv. destruct Hv as [|t Ht|t Ht|t Ht|vs Hvs|items Hs Hk Hvs]; auto.
  - apply H4; [done|]. clear -IH Hvs. induction Hvs; constructor; auto.
  - apply H5; try done. clear -IH Hvs. induction Hvs; constructor; auto.
Qed.

(** What is written for a value starts like one. *)
Lemma marshal_head v d : json_value v -> Marshal v = Some d ->
  exists b q, d = b :: q /\ is_space b = false /\ b <> 93 /\ b <> 125.
Proof.
  destruct 1 as [|t Ht|t Ht|t Ht|vs Hvs|items Hs Hk Hvs].
  - intros [= <-]. by eexists _, _.
  - destruct Ht as [->| ->]; intros [= <-]; by eexists _, _.
  - cbn. destruct (number_literal (bytes_of t)) eqn:E; [|done]. intros [= <-]. unfold number_literal in E.
    destruct (number (bytes_of t)) as [[u r]|] eqn:En; [|done]. destruct (bytes_of t) as [|b q] eqn:Eb; [done|].
    exists b, q. split; [done|]. apply number_head in En. apply orb_true_iff in En as [->%Z.eqb_eq|En]; [done|].
    unfold is_digit in En. apply andb_true_iff in En as [?%Z.leb_le ?%Z.leb_le]. split; [|lia].
    unfold is_space. by rewrite !(proj2 (Z.eqb_neq _ _)) by lia.
  - intros [= <-]. by eexists _, _.
  - rewrite Marshal_array by auto. destruct (marshal_elements _); [|done]. intros [= <-]. by eexists _, _.
  - rewrite Marshal_object. destruct (marshal_members _); [|done]. intros [= <-]. by eexists _, _.
Qed.

Fixpoint weight (v : GoValue) : nat :=
  match v with
  | Leaf _ _ => 1
  | Node _ items => S (sum_list (map (fun x => S (weight (snd x))) items))
  end.
Definition weights (vs : list GoValue) : nat := sum_list (map (fun v => S (weight v)) vs).

Lemma weight_node k items : weight (Node k items) = S (weights (map snd items)).
Proof. cbn [weight]. unfold weights. by rewrite map_map. Qed.

Lemma weights_cons v vs : weights (v :: vs) = (S (weight v) + weights vs)%nat.
Proof. done. Qed.
Lemma deepest_cons v vs : deepest (v :: vs) = Z.max (nesting v) (deepest vs).
Proof. done. Qed.

(** Reading what was written, followed by something else. *)
Definition reads_back (v : GoValue) : Prop := forall d fuel depth rest,
  Marshal v = Some d -> closing rest -> (weight v <= fuel)%nat -> nesting v <= depth ->
  parse float_value fuel depth MValue (d ++ rest) = Some (v, rest).

Lemma skip_plain b q : is_space b = false -> skip_space (b :: q) = b :: q.
Proof. intros Hs. cbn. by rewrite Hs. Qed.

Lemma commas_cons d ds : commas (d :: ds) = d ++ match ds with [] => [] | _ => 44 :: commas ds end.
Proof. destruct ds; [by rewrite app_nil_r|done]. Qed.

Lemma parse_array_rest vs : Forall json_value vs -> Forall reads_back vs -> vs <> [] ->
  forall acc ds fuel depth rest, marshal_elements vs = Some ds -> (weights vs <= fuel)%nat -> deepest vs <= depth ->
  parse float_value fuel depth (MElements acc) (commas ds ++ 93 :: rest) = Some (Node NSlice (map (pair EmptyString) (acc ++ vs)), rest).
Proof.
  induction 1 as [|v vs Hv Hvs IH]; [done|]. intros Hr _. apply Forall_cons in Hr as [Hr Hrs].
  intros acc ds fuel depth rest (d&ds'&Hd&Hds&->)%marshal_elements_cons Hw Hn. rewrite weights_cons in Hw. rewrite deepest_cons in Hn. destruct fuel as [|fuel]; [lia|]. cbn [parse]. rewrite commas_cons, <- (assoc_L (++)).
  rewrite (Hr d); [|done|by destruct ds' as [|? [|]]; cbn; auto|lia|lia]. cbn [mbind option_bind].
  destruct vs as [|w vs].
  - injection Hds as <-. cbn. done.
  - destruct (marshal_elements_cons _ _ _ Hds) as (e&es&He&Hes&->). cbn [app]. rewrite skip_plain by done. cbn [Z.eqb Pos.eqb].
    rewrite IH; [by rewrite <- (assoc_L (++))|done|done|done|lia|lia].
Qed.

Lemma map_set_last k v items : Forall (fun x => key_lt (fst x) k) items -> map_set k v items = items ++ [(k, v)].
Proof.
  induction 1 as [|[k0 v0] items Hlt _ IH]; [done|]. cbn [map_set app]. unfold key_lt in Hlt. cbn [fst] in Hlt.
  assert (Hne : k0 <> k).
  { intros ->. unfold String.ltb in Hlt. pose proof (String.compare_antisym k k) as Ha. by destruct (String.compare k k). }
  rewrite (proj2 (String.eqb_neq _ _)) by done.
  assert (Hf : String.ltb k k0 = false).
  { unfold String.ltb in *. rewrite String.compare_antisym. by destruct (String.compare k0 k). }
  by rewrite Hf, IH.
Qed.

Lemma member_read k d rest : string_literal (quote_body (bytes_of k) ++ 34 :: 58 :: d ++ rest) =
  Some (concat (runes (bytes_of k)), 58 :: d ++ rest).
Proof. apply string_quote, bytes_of_bytes. Qed.

Lemma member_app k d rest : member k d ++ rest = 34 :: quote_body (bytes_of k) ++ 34 :: 58 :: d ++ rest.
Proof. unfold member, quote. cbn. f_equal. by rewrite <- !(assoc_L (++)). Qed.

Lemma parse_object_rest items : items <> [] ->
  Forall (fun x => Valid (bytes_of (fst x)) = true) items -> Forall json_value (map snd items) -> Forall reads_back (map snd items) ->
  forall acc ds fuel depth rest, sorted_keys (acc ++ items) -> marshal_members items = Some ds ->
  (weights (map snd items) <= fuel)%nat -> deepest (map snd items) <= depth ->
  parse float_value fuel depth (MMembers acc) (commas ds ++ 125 :: rest) = Some (go_object (acc ++ items), rest).
Proof.
  induction items as [|[k v] items IH]; [done|]. intros _ Hk Hv Hr acc ds fuel depth rest Hs (d&ds'&Hd&Hds&->)%marshal_members_cons Hw Hn.
  apply Forall_cons in Hk as [Hk Hks], Hv as [Hv Hvs], Hr as [Hr Hrs]. cbn [map snd fst] in *.
  rewrite weights_cons in Hw. rewrite deepest_cons in Hn. destruct fuel as [|fuel]; [lia|]. cbn [parse].
  rewrite commas_cons, <- (assoc_L (++)), member_app. rewrite skip_plain by done. cbn [Z.eqb Pos.eqb].
  rewrite member_read. cbn [mbind option_bind]. rewrite skip_plain by done. cbn [Z.eqb Pos.eqb].
  rewrite (Hr d); [|done|by destruct ds' as [|? [|]]; cbn; auto|lia|lia]. cbn [mbind option_bind].
  rewrite Valid_runes, string_of_bytes by done.
  assert (Ha : map_set k v acc = acc ++ [(k, v)]).
  { apply map_set_last, Forall_forall. intros x Hx. unfold sorted_keys in Hs. rewrite map_app in Hs. cbn [map fst] in Hs.
    eapply StronglySorted_app_1_elem_of; [exact Hs|by apply list_elem_of_fmap_2|by left]. }
  rewrite Ha. destruct items as [|y items].
  - injection Hds as <-. cbn. done.
  - destruct (marshal_members_cons _ _ _ Hds) as (e&es&He&Hes&->). cbn [app]. rewrite skip_plain by done. cbn [Z.eqb Pos.eqb].
    rewrite IH; [by rewrite <- (assoc_L (++))|done|done|done|done|by rewrite <- (assoc_L (++))|done|lia|lia].
Qed.

(** Everything [Unmarshal] yields is read back from what is written for it. *)
Lemma parse_marshal v : json_value v -> reads_back v.
Proof.
  induction 1 as [|t Ht|t Ht|t Ht|vs Hvs IH|items Hs Hk Hvs IH] using json_value_ind'; intros d fuel depth rest Hd Hc Hw Hn;
    (destruct fuel as [|fuel]; [cbn in Hw; lia|]).
  - injection Hd as <-. done.
  - destruct Ht as [->| ->]; by injection Hd as <-.
  - cbn in Hd. destruct (number_literal (bytes_of t)); [|done]. injection Hd as <-. pose proof (float_text_literal _ _ Ht) as Hl.
    pose proof (number_closing _ _ _ _ Hc Hl) as Hnum. destruct (number_app _ _ _ Hl) as [_ Hne].
    destruct (bytes_of t) as [|b q] eqn:Eb; [done|]. pose proof (number_head _ _ _ _ Hl) as Hh.
    cbn [parse app]. assert (Hr : b = 45 \/ 48 <= b <= 57).
    { unfold is_digit in Hh. apply orb_true_iff in Hh as [?%Z.eqb_eq|[?%Z.leb_le ?%Z.leb_le]%andb_true_iff]; lia. }
    rewrite skip_plain by (unfold is_space; by rewrite !(proj2 (Z.eqb_neq _ _)) by lia).
    rewrite !(proj2 (Z.eqb_neq _ _)) by lia. rewrite Hh. cbn [app] in Hnum. rewrite Hnum. cbn [mbind option_bind app].
    unfold float_value. rewrite Ht. cbn [fmap option_fmap option_map mbind option_bind]. by rewrite <- Eb, string_of_bytes.
  - injection Hd as <-. unfold go_string, quote. cbn [parse]. change ((34 :: ?x) ++ ?y) with (34 :: (x ++ y)).
    cbn [app]. rewrite skip_plain by done. cbn [Z.eqb Pos.eqb]. rewrite <- (assoc_L (++)). cbn [app].
    rewrite string_quote by apply bytes_of_bytes. cbn [mbind option_bind]. by rewrite Valid_runes, string_of_bytes.
  - rewrite Marshal_array in Hd by auto. rewrite map_map in Hd. cbn in Hd. rewrite map_id in Hd.
    destruct (marshal_elements vs) as [ds|] eqn:Eds; [|done]. injection Hd as <-. rewrite weight_node, map_map in Hw. cbn in Hw.
    rewrite map_id in Hw. rewrite nesting_node, map_map in Hn. cbn in Hn. rewrite map_id in Hn.
    unfold array. cbn [parse app]. rewrite skip_plain by done. cbn [Z.eqb Pos.eqb].
    assert (Hdeep : 0 <= deepest vs) by (clear; induction vs; [done|rewrite deepest_cons; lia]).
    rewrite (proj2 (Z.leb_gt depth 0)) by lia. rewrite <- (assoc_L (++)). cbn [app].
    destruct vs as [|v vs]; [injection Eds as <-; done|].
    pose proof (parse_array_rest (v :: vs) Hvs IH ltac:(done) [] ds fuel (depth - 1) rest Eds ltac:(lia) ltac:(lia)) as Hp.
    destruct (marshal_elements_cons _ _ _ Eds) as (e&es&He&Hes&->). apply Forall_cons in Hvs as [Hv _].
    destruct (marshal_head _ _ Hv He) as (b&q&->&Hb1&Hb2&_). rewrite commas_cons in *. cbn [app] in *. rewrite skip_plain by done.
    rewrite (proj2 (Z.eqb_neq _ _)) by done. exact Hp.
  - rewrite Marshal_object in Hd. destruct (marshal_members items) as [ds|] eqn:Eds; [|done]. injection Hd as <-.
    unfold go_object in Hw, Hn. rewrite weight_node in Hw. rewrite nesting_node in Hn. unfold object. cbn [parse app]. rewrite skip_plain by done. cbn [Z.eqb Pos.eqb].
    assert (Hdeep : 0 <= deepest (map snd items)) by (clear; induction (map snd items); [done|rewrite deepest_cons; lia]).
    rewrite (proj2 (Z.leb_gt depth 0)) by lia. rewrite <- (assoc_L (++)). cbn [app].
    destruct items as [|[k v] items]; [injection Eds as <-; done|].
    pose proof (parse_object_rest ((k, v) :: items) ltac:(done) Hk Hvs IH [] ds fuel (depth - 1) rest Hs Eds ltac:(lia) ltac:(lia)) as Hp.
    destruct (marshal_members_cons _ _ _ Eds) as (e&es&He&Hes&->). rewrite commas_cons, <- (assoc_L (++)), member_app in *.
    rewrite skip_plain by done. cbn [Z.eqb Pos.eqb]. exact Hp.
Qed.

Lemma commas_length ds : (length (concat ds) + length ds <= S (length (commas ds)))%nat.
Proof.
  induction ds as [|d ds IH]; [cbn; lia|]. rewrite commas_cons, length_app. cbn [concat length]. rewrite length_app.
  destruct ds; [cbn; lia|cbn [length] in *; lia].
Qed.

Lemma weight_length v : json_value v -> forall d, Marshal v = Some d -> (weight v <= 2 * length d)%nat.
Proof.
  induction 1 as [|t Ht|t Ht|t Ht|vs Hvs IH|items Hs Hk Hvs IH] using json_value_ind'; intros d Hd.
  - injection Hd as <-. cbn. lia.
  - destruct Ht as [->| ->]; injection Hd as <-; cbn; lia.
  - cbn in Hd. destruct (number_literal (bytes_of t)); [|done]. injection Hd as <-. apply float_text_literal, number_app in Ht as [_ Hne].
    cbn [weight]. destruct (bytes_of t); [done|]. cbn [length]. lia.
  - injection Hd as <-. unfold quote. cbn. lia.
  - rewrite Marshal_array in Hd by auto. rewrite map_map in Hd. cbn in Hd. rewrite map_id in Hd.
    destruct (marshal_elements vs) as [ds|] eqn:Eds; [|done]. injection Hd as <-. rewrite weight_node, map_map. cbn [snd]. rewrite map_id.
    unfold array. cbn [length]. rewrite length_app. cbn [length]. pose proof (commas_length ds) as Hc.
    assert (Hw : (weights vs <= 2 * length (concat ds) + length ds)%nat); [|lia]. clear Hc.
    revert ds Eds. induction IH as [|v vs Hv _ IHv]; intros ds Eds; [injection Eds as <-; done|].
    destruct (marshal_elements_cons _ _ _ Eds) as (e&es&He&Hes&->). apply Forall_cons in Hvs as [_ Hvs]. rewrite weights_cons. cbn [concat length]. rewrite length_app.
    specialize (Hv _ He). specialize (IHv Hvs _ Hes). lia.
  - rewrite Marshal_object in Hd. destruct (marshal_members items) as [ds|] eqn:Eds; [|done]. injection Hd as <-.
    unfold go_object. rewrite weight_node. unfold object. cbn [length]. rewrite length_app. cbn [length]. pose proof (commas_length ds) as Hc.
    assert (Hw : (weights (map snd items) <= 2 * length (concat ds) + length ds)%nat); [|lia]. clear Hc Hs Hk Hvs.
    revert ds Eds. induction items as [|[k v] items IHi]; intros ds Eds; [injection Eds as <-; done|].
    destruct (marshal_members_cons _ _ _ Eds) as (e&es&He&Hes&->). cbn [map fst snd] in *. apply Forall_cons in IH as [Hv IH].
    rewrite weights_cons. cbn [concat length]. rewrite length_app. specialize (Hv _ He). specialize (IHi IH _ Hes).
    unfold member. rewrite length_app. cbn [length]. lia.
Qed.

Lemma read_marshal v d depth : json_value v -> Marshal v = Some d -> nesting v <= depth -> read float_value depth d = Some v.
Proof.
  intros Hv Hd Hn. unfold read. pose proof (weight_length v Hv d Hd) as Hw.
  pose proof (parse_marshal v Hv d (2 * length d + 2)%nat depth [] Hd I ltac:(lia) Hn) as Hp. rewrite app_nil_r in Hp. by rewrite Hp.
Qed.

(** Whatever is read from the text of a value is that value. *)
Lemma Unmarshal_Marshal v d w : json_value v -> Marshal v = Some d -> Unmarshal d = Some w -> w = v.
Proof.
  intros Hv Hd Hw. unfold Unmarshal in Hw. apply (read_depth _ _ (Z.max maxNestingDepth (nesting v))) in Hw; [|lia].
  rewrite (read_marshal v) in Hw; [congruence|done|done|lia].
Qed.

(** *** What is read *)

Lemma first_table (f : Z -> nat * Z * Z) lo n :
  forallb (fun b => bool_decide (first b = Some (f b))) (seqZ lo n) = true -> forall b, lo <= b < lo + n -> first b = Some (f b).
Proof.
  intros H0 b Hb. rewrite forallb_forall in H0. eapply bool_decide_eq_true_1, H0, list_elem_of_In, elem_of_seqZ. lia.
Qed.

Lemma first2 b : 194 <= b < 224 -> first b = Some (2%nat, 128, 191).
Proof. intros Hb. apply (first_table (fun _ => (2%nat, 128, 191)) 194 30); [done|lia]. Qed.
Lemma first3 b : 224 <= b < 240 -> first b = Some (3%nat, if b =? 224 then 160 else 128, if b =? 237 then 159 else 191).
Proof. intros Hb. apply (first_table (fun b => (3%nat, if b =? 224 then 160 else 128, if b =? 237 then 159 else 191)) 224 16); [done|lia]. Qed.
Lemma first4 b : 240 <= b < 245 -> first b = Some (4%nat, if b =? 240 then 144 else 128, if b =? 244 then 143 else 191).
Proof. intros Hb. apply (first_table (fun b => (4%nat, if b =? 240 then 144 else 128, if b =? 244 then 143 else 191)) 240 5); [done|lia]. Qed.

Lemma continuation b : 0 <= b < 64 -> no_continuation (128 + b) = false.
Proof. intros Hb. unfold no_continuation, outside. by rewrite !(proj2 (Z.ltb_ge _ _)) by lia. Qed.

Lemma rune2 a b : 2 <= a < 32 -> 0 <= b < 64 -> rune [192 + a; 128 + b].
Proof.
  intros Ha Hb. split; [done|]. split; [repeat constructor; unfold is_byte; lia|]. intros q. cbn -[Z.add first outside].
  rewrite first2 by lia. cbn -[Z.add outside]. change (outside 128 191 ?x) with (no_continuation x). by rewrite continuation.
Qed.

Lemma rune3 a b c : 0 <= a < 16 -> 0 <= b < 64 -> 0 <= c < 64 -> (a = 0 -> 32 <= b) -> (a = 13 -> b < 32) ->
  rune [224 + a; 128 + b; 128 + c].
Proof.
  intros Ha Hb Hc H1 H2. split; [done|]. split; [repeat constructor; unfold is_byte; lia|]. intros q. cbn -[Z.add first outside].
  rewrite first3 by lia. cbn -[Z.add outside]. unfold outside.
  rewrite (proj2 (Z.ltb_ge (128 + b) _)) by (destruct (Z.eqb_spec (224 + a) 224); lia).
  rewrite (proj2 (Z.ltb_ge _ (128 + b))) by (destruct (Z.eqb_spec (224 + a) 237); lia).
  cbn -[Z.add]. by rewrite continuation.
Qed.

Lemma rune4 a b c d : 0 <= a < 5 -> 0 <= b < 64 -> 0 <= c < 64 -> 0 <= d < 64 -> (a = 0 -> 16 <= b) -> (a = 4 -> b < 16) ->
  rune [240 + a; 128 + b; 128 + c; 128 + d].
Proof.
  intros Ha Hb Hc Hd H1 H2. split; [done|]. split; [repeat constructor; unfold is_byte; lia|]. intros q. cbn -[Z.add first outside].
  rewrite first4 by lia. cbn -[Z.add outside]. unfold outside.
  rewrite (proj2 (Z.ltb_ge (128 + b) _)) by (destruct (Z.eqb_spec (240 + a) 240); lia).
  rewrite (proj2 (Z.ltb_ge _ (128 + b))) by (destruct (Z.eqb_spec (240 + a) 244); lia).
  cbn -[Z.add]. by rewrite !continuation.
Qed.

Lemma EncodeRune_rune u : 0 <= u < 1114112 -> surrogate u = false -> rune (EncodeRune u).
Proof.
  intros Hu Hs. unfold surrogate in Hs. assert (Hs' : u < 55296 \/ 57344 <= u).
  { apply andb_false_iff in Hs as [?%Z.leb_gt|?%Z.ltb_ge]; lia. } clear Hs.
  unfold EncodeRune. destruct (Z.ltb_spec u 128).
  { split; [done|]. split; [repeat constructor; unfold is_byte; lia|]. intros q. cbn. unfold first.
    by rewrite (proj2 (Z.leb_le 0 u)), (proj2 (Z.leb_le u 127)) by lia. }
  destruct (Z.ltb_spec u 2048); [|destruct (Z.ltb_spec u 65536)].
  - apply rune2; Z.to_euclidean_division_equations; lia.
  - apply rune3; Z.to_euclidean_division_equations; lia.
  - apply rune4; Z.to_euclidean_division_equations; lia.
Qed.

Lemma hex_value_range b v : hex_value b = Some v -> 0 <= v < 16.
Proof.
  unfold hex_value, is_digit. intros E.
  destruct ((48 <=? b) && (b <=? 57)) eqn:E1; [apply andb_true_iff in E1 as [?%Z.leb_le ?%Z.leb_le]; injection E; lia|].
  destruct ((97 <=? b) && (b <=? 102)) eqn:E2; [apply andb_true_iff in E2 as [?%Z.leb_le ?%Z.leb_le]; injection E; lia|].
  destruct ((65 <=? b) && (b <=? 70)) eqn:E3; [apply andb_true_iff in E3 as [?%Z.leb_le ?%Z.leb_le]; injection E; lia|done].
Qed.

Lemma hex4_range p u : hex4 p = Some u -> 0 <= u < 65536.
Proof.
  destruct p as [|a [|b [|c [|d p]]]]; try done. cbn [hex4].
  destruct (hex_value a) eqn:Ea; [|done]. destruct (hex_value b) eqn:Eb; [|done].
  destruct (hex_value c) eqn:Ec; [|done]. destruct (hex_value d) eqn:Ed; [|done].
  apply hex_value_range in Ea, Eb, Ec, Ed. cbn [mbind option_bind]. intros [= <-]. lia.
Qed.

Lemma unicode_escape_ok u p : 0 <= u < 65536 -> Forall is_byte p ->
  rune (fst (unicode_escape u p)) /\ Forall is_byte (snd (unicode_escape u p)).
Proof.
  intros Hu Hp. unfold unicode_escape. destruct (surrogate u) eqn:Es; [|by split; [apply EncodeRune_rune; [lia|]|]].
  destruct (low_surrogate p) as [u2|] eqn:El; [|by split; [apply RuneError_rune|]].
  destruct (Z.ltb_spec u 56320); [|by split; [apply RuneError_rune|]]. split; [|by apply Forall_drop].
  assert (H2 : 56320 <= u2 < 57344).
  { destruct p as [|a [|b p]]; try done. cbn in El. destruct (_ && _); [|done]. destruct (hex4 p) as [w|]; [|done]. cbn in El.
    destruct (_ && _) eqn:E; [|done]. injection El as <-. apply andb_true_iff in E as [?%Z.leb_le ?%Z.ltb_lt]. lia. }
  unfold surrogate in Es. apply andb_true_iff in Es as [?%Z.leb_le ?%Z.ltb_lt].
  apply EncodeRune_rune; [lia|]. unfold surrogate. rewrite (proj2 (Z.ltb_ge _ 57344)) by lia. apply andb_false_r.
Qed.

Lemma ascii_rune b : 0 <= b < 128 -> rune [b].
Proof. intros Hb. pose proof (EncodeRune_rune b ltac:(lia)) as Hr. unfold EncodeRune in Hr. rewrite (proj2 (Z.ltb_lt _ _)) in Hr by lia.
  apply Hr. unfold surrogate. by rewrite (proj2 (Z.leb_gt _ _)) by lia.
Qed.

Lemma escape_range c e : escape c = Some e -> 0 <= e < 128.
Proof.
  unfold escape. destruct ((c =? 34) || (c =? 92) || (c =? 47)) eqn:E1.
  - intros [= <-]. apply orb_true_iff in E1 as [E1|?%Z.eqb_eq]; [|lia]. apply orb_true_iff in E1 as [?%Z.eqb_eq|?%Z.eqb_eq]; lia.
  - repeat (match goal with |- context [if ?b then _ else _] => destruct b end); intros H0; simplify_eq; lia.
Qed.

Lemma literal_rune_ok p r q : Forall is_byte p -> literal_rune p = Some (r, q) -> rune r /\ Forall is_byte q.
Proof.
  intros Hp. destruct p as [|b p]; [done|]. unfold literal_rune. destruct (b =? 92).
  - apply Forall_cons in Hp as [_ Hp]. destruct p as [|c p]; [done|]. apply Forall_cons in Hp as [_ Hp]. destruct (c =? 117).
    + destruct (hex4 p) as [u|] eqn:Eu; [|done]. cbn [mbind option_bind]. intros [= E]. apply hex4_range in Eu.
      destruct (unicode_escape_ok u (drop 4 p) Eu) as [H1 H2]; [by apply Forall_drop|]. rewrite E in H1, H2. done.
    + destruct (escape c) as [e|] eqn:Ee; [|done]. intros [= <- <-]. split; [|done]. apply ascii_rune. by eapply escape_range.
  - destruct (b <? 32); [done|]. pose proof (decoded_rune (b :: p)) as Hd. destruct (DecodeRune (b :: p)) as [size ok]. cbn [fst snd] in Hd.
    intros [= <- <-]. split; [|by apply Forall_drop]. destruct ok; [by apply Hd|apply RuneError_rune].
Qed.

Lemma string_fuel_ok n p s r : Forall is_byte p -> string_fuel n p = Some (s, r) ->
  Valid s = true /\ Forall is_byte s /\ Forall is_byte r.
Proof.
  revert p s r. induction n as [|n IH]; intros p s r Hp; [done|]. destruct p as [|b p]; [done|]. cbn [string_fuel].
  destruct (b =? 34); [intros [= <- <-]; apply Forall_cons in Hp as [_ Hp]; done|].
  destruct (literal_rune (b :: p)) as [[x q]|] eqn:E; [|done]. destruct (literal_rune_ok _ _ _ Hp E) as [Hx Hq].
  cbn [mbind option_bind]. destruct (string_fuel n q) as [[y z]|] eqn:E2; [|done]. destruct (IH _ _ _ Hq E2) as (Hy&Hy2&Hz).
  cbn [mbind option_bind]. intros [= <- <-]. split; [|split; [|done]].
  - apply Valid_app; [by apply rune_Valid|done].
  - apply Forall_app. split; [apply Hx|done].
Qed.

Lemma string_literal_ok p s r : Forall is_byte p -> string_literal p = Some (s, r) ->
  Valid (bytes_of (string_of s)) = true /\ Forall is_byte r.
Proof. intros Hp (H1&H2&H3)%string_fuel_ok; [|done]. by rewrite bytes_of_string. Qed.

Lemma skip_space_bytes p : Forall is_byte p -> Forall is_byte (skip_space p).
Proof. induction 1 as [|b p Hb Hp IH]; [constructor|]. cbn. destruct (is_space b); [done|by constructor]. Qed.

Lemma strip_app x p r : strip x p = Some r -> p = x ++ r.
Proof.
  revert p. induction x as [|a x IH]; intros p; [by intros [= <-]|]. destruct p as [|b p]; [done|]. cbn.
  destruct (Z.eqb_spec a b) as [->|]; [|done]. intros H0%IH. by rewrite H0.
Qed.

Lemma keyword_ok p v r : Forall is_byte p -> keyword p = Some (v, r) -> json_value v /\ Forall is_byte r.
Proof.
  intros Hp. unfold keyword. destruct (strip (bytes_of "null") p) eqn:E1.
  { intros [= <- <-]. apply strip_app in E1. rewrite E1 in Hp. apply Forall_app in Hp as [_ Hp]. split; [constructor|done]. }
  destruct (strip (bytes_of "true") p) eqn:E2.
  { intros [= <- <-]. apply strip_app in E2. rewrite E2 in Hp. apply Forall_app in Hp as [_ Hp]. split; [constructor; auto|done]. }
  destruct (strip (bytes_of "false") p) eqn:E3; [|done]. intros [= <- <-]. apply strip_app in E3. rewrite E3 in Hp.
  apply Forall_app in Hp as [_ Hp]. split; [constructor; auto|done].
Qed.

Lemma number_ok p t r v : Forall is_byte p -> number p = Some (t, r) -> float_value t = Some v -> json_value v /\ Forall is_byte r.
Proof.
  intros Hp [-> _]%number_app. apply Forall_app in Hp as [_ Hp]. unfold float_value. destruct (float_text t) as [u|] eqn:E; [|done].
  intros [= <-]. split; [|done]. constructor. rewrite bytes_of_string by (by eapply float_text_bytes). by eapply float_text_idem.
Qed.

Lemma ltb_le a b : String.ltb b a = false <-> String.le a b.
Proof.
  unfold String.le, String.leb, String.ltb. rewrite (String.compare_antisym a b). destruct (String.compare b a); done.
Qed.

Lemma key_lt_le a b : key_lt a b <-> String.le a b /\ a <> b.
Proof.
  unfold key_lt. split.
  - intros Hl. split.
    + destruct (total String.le a b) as [|Hba]; [done|]. apply ltb_le in Hba. congruence.
    + intros ->. unfold String.ltb in Hl. pose proof (String.compare_antisym b b) as Ha. by destruct (String.compare b b).
  - intros [Hle Hne]. destruct (String.ltb a b) eqn:E; [done|]. apply ltb_le in E. destruct Hne. by apply (anti_symm String.le).
Qed.

Lemma key_lt_trans a b c : key_lt a b -> key_lt b c -> key_lt a c.
Proof.
  rewrite !key_lt_le. intros [H1 N1] [H2 N2]. split; [by etrans|]. intros ->. apply N1. by apply (anti_symm String.le).
Qed.

Lemma map_set_Forall (P : string * GoValue -> Prop) k v items : P (k, v) -> Forall P items -> Forall P (map_set k v items).
Proof.
  intros Hk. induction 1 as [|[k0 v0] items H0 Hi IH]; [by repeat constructor|]. cbn [map_set].
  destruct (k0 =? k)%string; [by constructor|]. destruct (String.ltb k k0); by repeat constructor.
Qed.

Lemma map_set_sorted k v items : sorted_keys items -> sorted_keys (map_set k v items).
Proof.
  unfold sorted_keys. induction items as [|[k0 v0] items IH]; intros Hs; [repeat constructor|]. cbn [map fst map_set] in *.
  apply StronglySorted_inv in Hs as [Hs Hk0]. destruct (String.eqb_spec k0 k) as [->|Hne]; [by constructor|].
  destruct (String.ltb k k0) eqn:E; cbn [map fst].
  - constructor; [by constructor|]. constructor; [done|]. eapply Forall_impl; [exact Hk0|]. intros x. by apply key_lt_trans.
  - constructor; [by apply IH|]. rewrite Forall_map in Hk0 |- *. apply (map_set_Forall (fun x => key_lt k0 (fst x))); [|done].
    cbn. apply key_lt_le. split; [by apply ltb_le|done].
Qed.

(** The elements or members read so far. *)
Definition mode_ok (m : mode) : Prop :=
  match m with
  | MValue => True
  | MElements acc => Forall json_value acc
  | MMembers acc => sorted_keys acc /\ Forall (fun x => Valid (bytes_of (fst x)) = true) acc /\ Forall (fun x => json_value (snd x)) acc
  end.

Lemma parse_ok fuel depth m p v r : Forall is_byte p -> mode_ok m -> parse float_value fuel depth m p = Some (v, r) ->
  json_value v /\ Forall is_byte r.
Proof.
  revert depth m p v r. induction fuel as [|fuel IH]; intros depth m p v r Hp Hm; [done|]. destruct m as [|acc|acc]; cbn [parse].
  - apply skip_space_bytes in Hp. destruct (skip_space p) as [|b q]; [done|]. pose proof Hp as [_ Hq]%Forall_cons.
    destruct (b =? 123); [|destruct (b =? 91); [|destruct (b =? 34); [|destruct ((b =? 45) || is_digit b)]]].
    + destruct (depth <=? 0); [done|]. pose proof (skip_space_bytes _ Hq) as Hr. destruct (skip_space q) as [|c q']; [done|].
      destruct (c =? 125); [|by apply IH; [|by repeat constructor]]. intros [= <- <-]. apply Forall_cons in Hr as [_ Hr].
      split; [|done]. constructor; repeat constructor.
    + destruct (depth <=? 0); [done|]. pose proof (skip_space_bytes _ Hq) as Hr. destruct (skip_space q) as [|c q']; [done|].
      destruct (c =? 93); [|by apply IH; [|by repeat constructor]]. intros [= <- <-]. apply Forall_cons in Hr as [_ Hr].
      split; [|done]. apply (json_array []). constructor.
    + destruct (string_literal q) as [[s q1]|] eqn:E1; [|done]. destruct (string_literal_ok _ _ _ Hq E1) as [Hs Hq1].
      intros [= <- <-]. split; [by apply json_string|done].
    + destruct (number (b :: q)) as [[t q1]|] eqn:E1; [|done]. cbn [mbind option_bind].
      destruct (float_value t) as [w|] eqn:Ew; [|done]. intros [= <- <-]. exact (number_ok _ _ _ _ Hp E1 Ew).
    + intros Hk. exact (keyword_ok _ _ _ Hp Hk).
  - destruct (parse float_value fuel depth MValue p) as [[x q]|] eqn:E; [|done]. cbn [mbind option_bind].
    apply IH in E as [Hx Hq]; [|done|done]. apply skip_space_bytes in Hq. destruct (skip_space q) as [|c q']; [done|]. apply Forall_cons in Hq as [_ Hq].
    assert (Ha : Forall json_value (acc ++ [x])) by (apply Forall_app; split; [done|by constructor]).
    destruct (c =? 44); [by apply IH|]. destruct (c =? 93); [|done]. intros [= <- <-]. split; [by apply json_array|done].
  - apply skip_space_bytes in Hp. destruct (skip_space p) as [|b q]; [done|]. apply Forall_cons in Hp as [_ Hp]. destruct (b =? 34); [|done].
    destruct (string_literal q) as [[s q1]|] eqn:E1; [|done]. destruct (string_literal_ok _ _ _ Hp E1) as [Hs Hq1]. cbn [mbind option_bind].
    apply skip_space_bytes in Hq1. destruct (skip_space q1) as [|c q2]; [done|]. apply Forall_cons in Hq1 as [_ Hq2]. destruct (c =? 58); [|done].
    destruct (parse float_value fuel depth MValue q2) as [[x q3]|] eqn:E3; [|done]. cbn [mbind option_bind].
    apply IH in E3 as [Hx Hq3]; [|done|done]. apply skip_space_bytes in Hq3. destruct (skip_space q3) as [|e q4]; [done|]. apply Forall_cons in Hq3 as [_ Hq4].
    destruct Hm as (Hm1&Hm2&Hm3).
    pose proof (map_set_sorted (string_of s) x acc Hm1) as Hn1. pose proof (map_set_Forall _ (string_of s) x acc Hs Hm2) as Hn2.
    pose proof (map_set_Forall (fun y => json_value (snd y)) (string_of s) x acc Hx Hm3) as Hn3.
    destruct (e =? 44); [by apply IH|]. destruct (e =? 125); [|done]. intros [= <- <-]. split; [|done].
    apply json_object; [done|done|by rewrite Forall_map].
Qed.

Lemma Unmarshal_value p v : Forall is_byte p -> Unmarshal p = Some v -> json_value v.
Proof.
  intros Hp. unfold Unmarshal, read. destruct (parse _ _ _ _ _) as [[w r]|] eqn:E; [|done].
  apply parse_ok in E as [Hw _]; [|done|done]. destruct (skip_space r); [|done]. by intros [= <-].
Qed.

(** *** What is written *)

Lemma Marshal_total v : json_value v -> exists d, Marshal v = Some d /\ Forall is_byte d.
Proof.
  assert (B : forall s, Forall is_byte (bytes_of s)) by apply bytes_of_bytes.
  assert (C : forall ds, Forall (Forall is_byte) ds -> Forall is_byte (commas ds)).
  { induction 1 as [|d ds Hd Hds IH]; [constructor|]. rewrite commas_cons. apply Forall_app. split; [done|].
    destruct ds; constructor; [unfold is_byte; lia|done]. }
  assert (W : forall a z d, is_byte a -> is_byte z -> Forall is_byte d -> Forall is_byte (a :: d ++ [z])).
  { intros a z d Ha Hz Hd. constructor; [done|]. apply Forall_app. split; [done|by apply Forall_singleton]. }
  induction 1 as [|t Ht|t Ht|t Ht|vs Hvs IH|items Hs Hk Hvs IH] using json_value_ind'.
  - eexists. split; [done|apply B].
  - eexists. split; [done|apply B].
  - exists (bytes_of t). split; [|apply B]. cbn. unfold number_literal. by rewrite (float_text_literal _ _ Ht).
  - eexists. split; [done|]. apply quote_bytes, B.
  - assert (E : exists ds, marshal_elements vs = Some ds /\ Forall (Forall is_byte) ds).
    { clear Hvs. induction IH as [|v vs (d&Hd&Hb) _ (ds&Hds&Hbs)]; [by exists []|].
      exists (d :: ds). split; [cbn; by rewrite Hd, Hds|by constructor]. }
    destruct E as (ds&Hds&Hb). exists (array ds). rewrite Marshal_array by auto. rewrite map_map. cbn. rewrite map_id, Hds.
    split; [done|]. apply W; [unfold is_byte; lia..|by apply C].
  - assert (E : exists ds, marshal_members items = Some ds /\ Forall (Forall is_byte) ds).
    { clear Hvs Hs Hk. induction items as [|[k v] items IHi]; [by exists []|]. cbn in IH.
      apply Forall_cons in IH as [(d&Hd&Hb) IH]. destruct (IHi IH) as (ds&Hds&Hbs).
      exists (member k d :: ds). split; [cbn; by rewrite Hd, Hds|]. constructor; [|done]. unfold member.
      apply Forall_app. split; [apply quote_bytes, B|]. constructor; [unfold is_byte; lia|done]. }
    destruct E as (ds&Hds&Hb). exists (object ds). rewrite Marshal_object, Hds.
    split; [done|]. apply W; [unfold is_byte; lia..|by apply C].
Qed.

(** A value that nests no deeper than the package allows is read back from what
    is written for it. *)
Lemma json_read_back v : json_value v -> nesting v <= maxNestingDepth -> exists d, Marshal v = Some d /\ Unmarshal d = Some v.
Proof. intros Hv Hn. destruct (Marshal_total v Hv) as (d&Hd&_). exists d. split; [done|]. by apply read_marshal. Qed.
End Values.
