(* ===== verification/SandboxPolicy.v ===== *)
(** * Execution constraints and policy decisions

    Models the constraint part of [agent-sdk/sandbox/sandbox.go] and
    [policy_snapshot.go], the decision contract of [agent-sdk/policy/policy.go]
    with [profile.go] and [registry.go], the writable cache roots of
    [agent-sdk/policy/devcache/roots.go], and the constraint helpers of
    [agent-sdk/policy/presets].

    The process environment is the class [Host]: environment variables, home
    and working directories, and the file system as the answers of [os.Lstat]
    and [filepath.EvalSymlinks]; [json_marshals] and [reflect_supports] stand for
    [encoding/json] and [reflect] on dynamic values.  Paths are Unix paths. *)

From Stdlib Require Import ZArith Lia Ascii String.
From stdpp Require Import base option strings list gmap.
From S2P Require Import Prelude GoStrings GoText GoPath ShellParse GoValues.

Open Scope string_scope.

Class Host : Type := {
  GOOS : string;
  Getenv : string -> string;
  UserHomeDir : option string;
  UserCacheDir : option string;
  Getwd : string;
  TempDir : string;
  Lstat : string -> bool;
  EvalSymlinks : string -> option string;
  Quote : string -> string;
  json_marshals : GoMap -> bool;
  reflect_supports : string -> bool;
}.

(** ** Constraints *)

Record PathRule : Type := MkRule { pr_Path : string; pr_Access : string }.
Definition PathAccessReadWrite : string := "read_write".
Definition PathAccessHidden : string := "hidden".

Record Constraints : Type := MkConstraints {
  cn_Route : string; cn_Backend : string; cn_Permission : string; cn_Isolation : string; cn_Network : string; cn_PathRules : list PathRule;
}.
Record Descriptor : Type := MkDescriptor { de_Backend : string; de_Isolation : string; de_DefaultConstraints : Constraints }.

Definition RouteHost : string := "host".
Definition RouteSandbox : string := "sandbox".
Definition BackendHost : string := "host".
Definition PermissionDefault : string := "default".
Definition PermissionWorkspaceWrite : string := "workspace_write".
Definition PermissionFullAccess : string := "danger_full_access".
Definition IsolationHost : string := "host".
Definition IsolationProcess : string := "process".
Definition IsolationContainer : string := "container".
Definition NetworkInherit : string := "inherit".
Definition NetworkEnabled : string := "enabled".
Definition NetworkDisabled : string := "disabled".

Global Instance PathRule_eq_dec : EqDecision PathRule.
Proof. solve_decision. Defined.
Global Instance Constraints_eq_dec : EqDecision Constraints.
Proof. solve_decision. Defined.

Definition ClonePathRules (rules : list PathRule) : list PathRule := map (fun r => MkRule (trim_space (pr_Path r)) (trim_space (pr_Access r))) rules.

Definition NormalizeConstraints (c : Constraints) : Constraints :=
  MkConstraints (trim_space (cn_Route c)) (trim_space (cn_Backend c)) (trim_space (cn_Permission c)) (trim_space (cn_Isolation c))
    (trim_space (cn_Network c)) (ClonePathRules (cn_PathRules c)).

Definition ConstraintsRequestExplicitHost (c : Constraints) : bool :=
  let c := NormalizeConstraints c in
  (cn_Backend c =? BackendHost) || (cn_Route c =? RouteHost) || (cn_Permission c =? PermissionFullAccess).

Definition CloneDescriptor (d : Descriptor) : Descriptor :=
  MkDescriptor (trim_space (de_Backend d)) (trim_space (de_Isolation d)) (NormalizeConstraints (de_DefaultConstraints d)).

Definition DescriptorImpliesHostExecution (d : Descriptor) : bool :=
  let d := CloneDescriptor d in (de_Backend d =? BackendHost) || ConstraintsRequestExplicitHost (de_DefaultConstraints d).

(** ** The policy snapshot *)

Record PolicySnapshot : Type := MkSnapshot {
  sn_Route : string; sn_Backend : string; sn_Permission : string; sn_Isolation : string; sn_Network : string;
  sn_WritableRoots : list string; sn_ReadOnlySubpaths : list string;
}.

(** Trimmed values without empty ones and repetitions. *)
Fixpoint distinct_trimmed (seen : list string) (values : list string) : list string :=
  match values with
  | [] => []
  | raw :: rest =>
    let value := trim_space raw in
    if (value =? "") || one_of seen value then distinct_trimmed seen rest else value :: distinct_trimmed (value :: seen) rest
  end.
Definition normalizeStringSlice (values : list string) : list string := distinct_trimmed [] values.

Definition windows_backends : list string :=
  ["windows"; "windows-restricted-token"; "windows_restricted_token"; "windows-elevated"; "windows_elevated"; "windows elevated"; "elevated"].

Section Snapshot.
Context {L : Lower}.

Definition CanonicalBackend (backend : string) : string :=
  let tx := ToLower (trim_space backend) in
  if one_of [""; "auto"; "default"] tx then "" else
  if one_of ["host"; "seatbelt"; "bwrap"; "landlock"] tx then tx else
  if one_of windows_backends tx then "windows" else
  if tx =? "custom" then "custom" else trim_space backend.

Definition ClonePolicySnapshot (s : PolicySnapshot) : PolicySnapshot :=
  MkSnapshot (trim_space (sn_Route s)) (CanonicalBackend (sn_Backend s)) (trim_space (sn_Permission s)) (trim_space (sn_Isolation s))
    (trim_space (sn_Network s)) (normalizeStringSlice (sn_WritableRoots s)) (normalizeStringSlice (sn_ReadOnlySubpaths s)).

Definition PolicySnapshotEmpty (s : PolicySnapshot) : bool :=
  let s := ClonePolicySnapshot s in
  (sn_Route s =? "") && (sn_Backend s =? "") && (sn_Permission s =? "") && (sn_Isolation s =? "") && (sn_Network s =? "")
  && bool_decide (sn_WritableRoots s = []) && bool_decide (sn_ReadOnlySubpaths s = []).
End Snapshot.

(** ** Decisions *)

Definition ActionAllow : string := "allow".
Definition ActionDeny : string := "deny".
Definition ActionAskApproval : string := "ask_approval".

Record ModeOptions : Type := MkOptions {
  mo_WorkspaceRoot : string; mo_TempRoot : string; mo_ExtraReadRoots : list string; mo_WritableRoots : list string; mo_NetworkEnabled : option bool;
}.

(** An approval option; the tool call that is asked about; the approval without its subject and title. *)
Record ApprovalOption : Type := MkApprovalOption { ao_ID : string; ao_Name : string; ao_Kind : string }.
Record ApprovalCall : Type := MkApprovalCall { ac_ID : string; ac_Name : string; ac_Kind : string; ac_Status : string; ac_RawInput : GoMap }.
Record ProtocolRequest : Type := MkRequest { rq_ToolCall : ApprovalCall; rq_Options : list ApprovalOption }.

Record Decision : Type := MkDecision {
  dc_Action : string; dc_Reason : string; dc_Constraints : Constraints; dc_Metadata : GoMap; dc_Approval : option ProtocolRequest;
}.

Inductive PolicyError : Type :=
| ToolInputDecodeError (tool : string)
| DecisionError (mode detail : string)
| RegistryError (detail : string)
| PathError (message : string)
| ArgumentError (message : string).

Definition no_constraints : Constraints := MkConstraints "" "" "" "" "" [].

Definition CloneRequest (r : ProtocolRequest) : ProtocolRequest :=
  MkRequest (MkApprovalCall (trim_space (ac_ID (rq_ToolCall r))) (trim_space (ac_Name (rq_ToolCall r))) (trim_space (ac_Kind (rq_ToolCall r)))
               (trim_space (ac_Status (rq_ToolCall r))) (ac_RawInput (rq_ToolCall r)))
    (map (fun o => MkApprovalOption (trim_space (ao_ID o)) (trim_space (ao_Name o)) (trim_space (ao_Kind o))) (rq_Options r)).

Definition CloneDecision (d : Decision) : Decision :=
  MkDecision (trim_space (dc_Action d)) (trim_space (dc_Reason d)) (NormalizeConstraints (dc_Constraints d)) (dc_Metadata d)
    (CloneRequest <$> dc_Approval d).

(** Every value of a decision is one the backends know. *)
Definition ruleSupported (r : PathRule) : bool :=
  negb (trim_space (pr_Path r) =? "") && one_of [PathAccessReadWrite; PathAccessHidden] (pr_Access r).

Definition validateConstraints (c : Constraints) : bool :=
  one_of [""; RouteHost; RouteSandbox] (cn_Route c)
  && one_of [""; PermissionDefault; PermissionWorkspaceWrite; PermissionFullAccess] (cn_Permission c)
  && one_of [""; IsolationHost; IsolationProcess; IsolationContainer] (cn_Isolation c)
  && one_of [""; NetworkInherit; NetworkEnabled; NetworkDisabled] (cn_Network c)
  && forallb ruleSupported (cn_PathRules c).

Section Decisions.
Context {L : Lower} {H : Host}.

(** [jsonvalue.ValidateMap]: finite numbers and supported kinds at every depth, and an object that marshals.  Dynamic
    values here have no cycles; [reflect_supports] answers for values of other Go types. *)
Fixpoint validateReflect (v : GoValue) : bool :=
  match v with
  | Leaf KFloat text => negb (one_of ["NaN"; "+Inf"; "-Inf"] text)
  | Leaf KOther text => reflect_supports text
  | Leaf _ _ => true
  | Node _ items =>
    (fix each (items : list (string * GoValue)) : bool :=
       match items with [] => true | (_, v) :: rest => validateReflect v && each rest end) items
  end.
Definition jsonvalue_ValidateMap (m : GoMap) : bool := validateReflect (go_object (default [] m)) && json_marshals m.

Definition NormalizeDecision (mode : string) (d : Decision) : result PolicyError Decision :=
  let out := CloneDecision d in
  if negb (one_of [ActionAllow; ActionDeny; ActionAskApproval] (dc_Action out)) then
    Fail (DecisionError mode (if dc_Action out =? "" then "decision action is required" else "unsupported decision action"))
  else if negb (validateConstraints (dc_Constraints out)) then Fail (DecisionError mode "invalid constraints")
  else if negb (jsonvalue_ValidateMap (dc_Metadata out)) then Fail (DecisionError mode "invalid metadata")
  else Ok out.

Definition cloneStringSlice (values : list string) : list string := List.filter nonempty (map trim_space values).

Definition CloneModeOptions (o : ModeOptions) : ModeOptions :=
  MkOptions (trim_space (mo_WorkspaceRoot o)) (trim_space (mo_TempRoot o)) (cloneStringSlice (mo_ExtraReadRoots o))
    (cloneStringSlice (mo_WritableRoots o)) (mo_NetworkEnabled o).

(** ** Profiles and modes *)

Definition ProfileWorkspaceWrite : string := "workspace-write".
Definition ModeDangerFullAccess : string := "danger-full-access".

Definition NormalizeProfileName (profile : string) : string :=
  let p := ToLower (trim_space profile) in
  if one_of [""; "manual"; "auto"; "auto-review"; "auto_review"; "autoreview"] p then "" else
  if one_of ["default"; "plan"; "full_control"; "full_access"; "workspace-write"; "workspace_write"; "workspacewrite"] p
  then ProfileWorkspaceWrite else trim_space profile.

Definition NormalizeModeName (mode : string) : string :=
  let normalized := NormalizeProfileName mode in
  if trim_space normalized =? "" then ProfileWorkspaceWrite else normalized.

(** A registry of modes by their lower-case name. *)
Definition mode_key (name : string) : string := trim_space (ToLower name).

Definition Register {M : Type} (name : string) (mode : M) (modes : gmap string M) : result PolicyError (gmap string M) :=
  let key := mode_key (trim_space name) in
  if key =? "" then Fail (RegistryError "mode name is required") else Ok (<[key := mode]> modes).

Fixpoint NewMemory {M : Type} (l : list (string * M)) (modes : gmap string M) : result PolicyError (gmap string M) :=
  match l with
  | [] => Ok modes
  | (name, mode) :: rest => let! modes := Register name mode modes in NewMemory rest modes
  end.

Definition LookupMode {M : Type} (modes : gmap string M) (name : string) : option M := modes !! mode_key name.

(** ** Cache roots that a sandboxed build may write *)

(** [appendRoot]: a root that is set, cleaned. *)
Definition cache_root (path : string) : list string :=
  let path := trim_space path in
  if (path =? "") || (path =? "off") then [] else if nonempty (trim_space path) then [Clean (trim_space path)] else [].

Definition userCacheRoot (home : string) : string :=
  let cache := trim_space (Getenv "XDG_CACHE_HOME") in
  if nonempty cache then Clean cache else
  match UserCacheDir with
  | Some dir => if nonempty (trim_space dir) then Clean dir else
      if trim_space home =? "" then "" else if GOOS =? "darwin" then path_join [home; "Library"; "Caches"] else path_join [home; ".cache"]
  | None =>
      if trim_space home =? "" then "" else if GOOS =? "darwin" then path_join [home; "Library"; "Caches"] else path_join [home; ".cache"]
  end.

(** [filepath.SplitList] on Unix. *)
Definition SplitList (path : string) : list string := if path =? "" then [] else Split path ":".

Definition appendNonEmpty (values : list string) : list string :=
  map Clean (List.filter nonempty (map trim_space values)).

Definition goPathRoots (home : string) : list string :=
  let raw := trim_space (Getenv "GOPATH") in
  if raw =? "" then
    if trim_space home =? "" then [] else appendNonEmpty (List.filter nonempty (map trim_space (SplitList (path_join [home; "go"]))))
  else appendNonEmpty (List.filter nonempty (map trim_space (SplitList raw))).

Definition home_caches : list (list string) :=
  [[".npm"]; [".cargo"; "registry"]; [".cargo"; "git"]; [".m2"; "repository"]; [".gradle"; "caches"]; [".gradle"; "wrapper"];
   [".nuget"; "packages"]; [".bun"; "install"; "cache"]; [".pnpm-store"]; [".local"; "share"; "pnpm"; "store"]].
Definition cache_names : list string := ["go-build"; "pip"; "uv"; "yarn"; "node-gyp"; "pnpm"].

Definition WritableRoots : list string :=
  let home := default "" UserHomeDir in
  let cacheRoot := userCacheRoot home in
  (cache_root cacheRoot
  ++ (if (GOOS =? "darwin") && nonempty (trim_space home) then cache_root (path_join [home; "Library"; "Caches"]) else [])
  ++ cache_root (Getenv "GOCACHE") ++ cache_root (Getenv "GOMODCACHE")
  ++ concat (map (fun gopath => cache_root (path_join [gopath; "pkg"; "mod"]) ++ cache_root (path_join [gopath; "pkg"; "sumdb"])) (goPathRoots home))
  ++ concat (map (fun key => cache_root (Getenv key)) ["npm_config_cache"; "NPM_CONFIG_CACHE"; "YARN_CACHE_FOLDER"; "PIP_CACHE_DIR"; "UV_CACHE_DIR"])
  ++ (if nonempty (trim_space home) then concat (map (fun names => cache_root (path_join (home :: names))) home_caches) else [])
  ++ (if nonempty cacheRoot then concat (map (fun name => cache_root (path_join [cacheRoot; name])) cache_names) else [])
  ++ (let cargo := trim_space (Getenv "CARGO_HOME") in
      if nonempty cargo then cache_root (path_join [cargo; "registry"]) ++ cache_root (path_join [cargo; "git"]) else [])
  ++ (let gradle := trim_space (Getenv "GRADLE_USER_HOME") in
      if nonempty gradle then cache_root (path_join [gradle; "caches"]) ++ cache_root (path_join [gradle; "wrapper"]) else []))%list.

Definition defaultDeveloperWritableRoots : list string := if GOOS =? "windows" then [] else WritableRoots.

(** ** Constraints of the presets *)

Definition hostExecutionConstraints : Constraints :=
  MkConstraints RouteHost BackendHost PermissionFullAccess IsolationHost NetworkInherit [].

Definition defaultNetworkPolicy (o : ModeOptions) : string :=
  match mo_NetworkEnabled o with Some false => NetworkDisabled | _ => NetworkEnabled end.

(** [appendRule] with read-write access. *)
Definition write_rule (path : string) : list PathRule :=
  let path := trim_space path in if path =? "" then [] else [MkRule path PathAccessReadWrite].

Definition workspaceWriteConstraints (o : ModeOptions) : Constraints :=
  MkConstraints RouteSandbox "" PermissionWorkspaceWrite IsolationContainer (defaultNetworkPolicy o)
    ((if GOOS =? "windows" then [] else write_rule (mo_TempRoot o))
     ++ concat (map write_rule defaultDeveloperWritableRoots) ++ concat (map write_rule (mo_WritableRoots o)))%list.

(** One rule of [mergePathRules]. *)
Definition merge_rule (out : list PathRule) (rule : PathRule) : list PathRule :=
  let path := Clean (trim_space (pr_Path rule)) in
  if (path =? ".") || (path =? "") || (pr_Access rule =? "") then out else
  if existsb (fun r => Clean (trim_space (pr_Path r)) =? path) out then out else (out ++ [MkRule path (pr_Access rule)])%list.
Definition mergePathRules (base extra : list PathRule) : list PathRule := fold_left merge_rule extra (ClonePathRules base).

Definition withPathWriteGrants (base : Constraints) (paths : list string) : Constraints :=
  let out := NormalizeConstraints base in
  MkConstraints (cn_Route out) (cn_Backend out) (cn_Permission out) (cn_Isolation out) (cn_Network out)
    (mergePathRules (cn_PathRules out) (concat (map write_rule paths))).
End Decisions.
