(* ===== verification/PathPolicy.v ===== *)
(** * Where tools may read and write

    Models [agent-sdk/sandbox/backend/fsboundary/boundary.go] and
    [agent-sdk/policy/presets/filesystem_policy.go]: the physical location of a
    path, its containment in roots, and the decisions on built-in filesystem
    tools.  The class [Host] answers what the file system says.

    The climb of [ResolvePathWithSymlinks] to an existing parent takes one unit
    of fuel per name of the path and two more ([resolve_climb]). *)

From Stdlib Require Import ZArith Lia Ascii String.
From stdpp Require Import base option strings list.
From S2P Require Import Prelude GoStrings GoText GoPath ShellParse GoValues SandboxPolicy.

Open Scope string_scope.

(** ** Physical paths *)

Record PathContext : Type := MkContext { cx_Getwd : string; cx_UserHomeDir : option string }.

Section Paths.
Context {H : Host}.

Definition context_home (ctx : option PathContext) : option string :=
  match ctx with Some c => cx_UserHomeDir c | None => UserHomeDir end.
Definition context_wd (ctx : option PathContext) : string :=
  let wd := match ctx with Some c => cx_Getwd c | None => "" end in if wd =? "" then Getwd else wd.

(** [~/] is the home directory when there is one. *)
Definition expand_home (home : option string) (path : string) : string :=
  if HasPrefix path "~/" then match home with Some home => path_join [home; drop_str 2 path] | None => path end else path.

Definition ResolveAbsPath (path : string) (ctx : option PathContext) : string :=
  let path := trim_space path in
  if path =? "" then "" else
  let path := expand_home (context_home ctx) path in
  Clean (if IsAbs path then path else path_join [context_wd ctx; path]).

Definition ResolveAbsRoot (root : string) (ctx : option PathContext) : string :=
  let root := trim_space root in
  if root =? "" then "" else
  if IsAbs root then Clean root else
  let wd := context_wd ctx in
  if wd =? "" then "" else Clean (path_join [wd; root]).

(** The loop of [ResolvePathWithSymlinks]; [None] when the fuel runs out. *)
Fixpoint climb (fuel : nat) (clean cur : string) (suffix : list string) : option string :=
  match fuel with
  | O => None
  | S fuel =>
    if cur =? "" then Some clean else
    if Lstat cur then
      match EvalSymlinks cur with
      | None => Some clean
      | Some resolved => Some (Clean (fold_left (fun path name => path_join [path; name]) suffix (Clean resolved)))
      end
    else
      let parent := Dir cur in
      if parent =? cur then Some clean else climb fuel clean parent (Base cur :: suffix)
  end.

Definition ResolvePathWithSymlinks (path : string) : string :=
  let path := trim_space path in
  if path =? "" then "" else
  let clean := Clean path in
  match EvalSymlinks clean with
  | Some resolved => Clean resolved
  | None => default clean (climb (S (S (length (path_names clean)))) clean clean [])
  end.

Definition PathIsUnder (target root : string) : bool :=
  (target =? root) || HasPrefix target (if HasSuffix root "/" then root else root ++ "/").

Definition physical_path (path : string) (ctx : option PathContext) : string := ResolvePathWithSymlinks (ResolveAbsPath path ctx).
Definition physical_root (root : string) (ctx : option PathContext) : string := ResolvePathWithSymlinks (ResolveAbsRoot root ctx).

Definition IsWithinRoots (target : string) (roots : list string) (ctx : option PathContext) : bool :=
  let absTarget := physical_path target ctx in
  existsb (fun root => let absRoot := physical_root root ctx in nonempty absRoot && PathIsUnder absTarget absRoot) roots.

Definition IsWithinReadOnlySubpaths (target : string) (subpaths : list string) (ctx : option PathContext) : bool :=
  IsWithinRoots target subpaths ctx.

Definition scratchRoots (ctx : option PathContext) : list string :=
  let tmp := trim_space TempDir in
  let home := match ctx with Some c => default "" (cx_UserHomeDir c) | None => "" end in
  let home := if home =? "" then default "" UserHomeDir else home in
  normalizeStringSlice
    ((if tmp =? "" then [] else [ResolvePathWithSymlinks (Clean tmp)])
     ++ map (fun root => ResolvePathWithSymlinks (Clean root)) ["/tmp"; "/var/tmp"; "/private/tmp"]
     ++ (if trim_space home =? "" then [] else [ResolvePathWithSymlinks (path_join [home; ".cache"])])).

Definition IsWithinScratchRoots (target : string) (ctx : option PathContext) : bool :=
  let absTarget := physical_path target ctx in existsb (PathIsUnder absTarget) (scratchRoots ctx).

(** ** Lexical paths of the policy *)

Definition normalizeTarget (value : string) : string :=
  let value := trim_space value in
  if value =? "" then "" else Clean (if IsAbs value then value else path_join ["/"; value]).

Definition withinAnyRoot (target : string) (roots : list string) : bool :=
  let target := normalizeTarget target in
  if target =? "" then true else
  existsb (fun root => let root := normalizeTarget root in nonempty root && ((target =? root) || HasPrefix target (root ++ "/"))) roots.

Definition writableRoots (o : ModeOptions) : list string := (appendNonEmpty [mo_TempRoot o] ++ appendNonEmpty (mo_WritableRoots o))%list.
Definition approvedOverrideRoots (o : ModeOptions) : list string := (appendNonEmpty (mo_WritableRoots o) ++ appendNonEmpty (mo_ExtraReadRoots o))%list.

Definition hidden_names : list (list string) :=
  [[".ssh"]; [".gnupg"]; [".aws"]; [".kube"]; [".docker"]; [".netrc"]; [".npmrc"]; [".config"; "gh"]; [".config"; "gcloud"]].

Definition defaultHiddenUserRoots : list string :=
  match UserHomeDir with
  | Some home => if trim_space home =? "" then [] else map (fun names => path_join (home :: names)) hidden_names
  | None => []
  end.

(** A target under a sensitive path that no approved root opens. *)
Definition blocked (approvedRoots : list string) (one : string) : bool :=
  let target := ResolvePathWithSymlinks (normalizeTarget one) in
  negb (target =? "") && negb (IsWithinRoots target approvedRoots None) && IsWithinRoots target defaultHiddenUserRoots None.

Definition ensurePathsOutsideDefaultHiddenRoots (paths approvedRoots : list string) (action : string) : result PolicyError unit :=
  match List.find (blocked approvedRoots) paths with
  | Some one => Fail (PathError (action ++ " target " ++ Quote one ++ " is under a sensitive user configuration path and is blocked"))
  | None => Ok tt
  end.

(** A write target outside the roots and the scratch roots. *)
Definition outside (roots : list string) (one : string) : bool :=
  negb (trim_space one =? "") && negb (IsWithinRoots one roots None) && negb (IsWithinScratchRoots one None).

Definition ensureFilesystemWritePaths (paths roots : list string) : result PolicyError unit :=
  match List.find (outside roots) paths with
  | Some one => Fail (PathError ("write target " ++ Quote one ++ " is outside allowed roots"))
  | None => Ok tt
  end.

Definition resolvePolicyPath (value workspaceRoot : string) : string :=
  let value := trim_space value in
  if value =? "" then "" else
  let value :=
    if HasPrefix value "~/" then
      match UserHomeDir with
      | Some home => if trim_space home =? "" then value else path_join [home; drop_str 2 value]
      | None => value
      end
    else value in
  if IsAbs value then Clean value else
  let base := trim_space workspaceRoot in
  Clean (path_join [if base =? "" then "/" else base; value]).

Definition resolvePathsAgainstWorkspace (paths : list string) (workspaceRoot : string) : list string :=
  List.filter nonempty (map (fun path => resolvePolicyPath path workspaceRoot) paths).

(** What precedes the first wildcard. *)
Fixpoint before_wildcard (l : list ascii) : list ascii :=
  match l with
  | [] => []
  | a :: r => if in_set "*?[" a then [] else a :: before_wildcard r
  end.

Definition glob_root (workspaceRoot pattern : string) : list string :=
  let pattern := trim_space pattern in
  if pattern =? "" then [] else
  let root := TrimRight (text (before_wildcard (bytes (resolvePolicyPath pattern workspaceRoot)))) "/" in
  [if root =? "" then "/" else root].
Definition globRoots (patterns : list string) (workspaceRoot : string) : list string := concat (map (glob_root workspaceRoot) patterns).

(** Strings of an argument: a string, or strings in lists at any depth. *)
Fixpoint stringValues (value : GoValue) : list string :=
  match value with
  | Leaf KString s => let s := trim_space s in if s =? "" then [] else [s]
  | Node NSlice items | Node NStrings items =>
    (fix each (items : list (string * GoValue)) : list string :=
       match items with [] => [] | (_, v) :: rest => (stringValues v ++ each rest)%list end) items
  | _ => []
  end.

(** ** Tool classes and arguments *)

Inductive builtinPolicyClass : Type :=
| builtinPolicyUnknown | builtinPolicyReadPath | builtinPolicySearchPath | builtinPolicyGlobPath | builtinPolicyWritePath | builtinPolicyCommand.

#[global] Instance builtinPolicyClass_eq_dec : EqDecision builtinPolicyClass.
Proof. solve_decision. Defined.

Definition builtinPolicyClassForName (name : string) : builtinPolicyClass :=
  if one_of ["Read"; "ViewImage"] name then builtinPolicyReadPath else
  if name =? "Grep" then builtinPolicySearchPath else
  if name =? "Glob" then builtinPolicyGlobPath else
  if one_of ["Write"; "Patch"] name then builtinPolicyWritePath else
  if name =? "RunCommand" then builtinPolicyCommand else builtinPolicyUnknown.

(** A tool call: its input decodes to an object, or not ([None]). *)
Record ToolContext : Type := MkToolContext {
  tc_ToolName : string; tc_CommandExec : bool; tc_CallID : string; tc_CallName : string; tc_Args : option GoMap;
  tc_Sandbox : Descriptor; tc_SandboxPolicy : PolicySnapshot; tc_Options : ModeOptions;
}.

Definition CallArgs (input : ToolContext) : result PolicyError GoMap :=
  match tc_Args input with Some args => Ok args | None => Fail (ToolInputDecodeError (trim_space (tc_CallName input))) end.

Definition policyClass (input : ToolContext) : builtinPolicyClass :=
  match builtinPolicyClassForName (tc_ToolName input) with
  | builtinPolicyUnknown => if tc_CommandExec input then builtinPolicyCommand else builtinPolicyUnknown
  | class => class
  end.

Definition argument (args : GoMap) (name : string) : GoValue := default go_nil (map_index args name).

Definition candidatePaths (input : ToolContext) : result PolicyError (list string) :=
  let! args := CallArgs input in
  let ws := mo_WorkspaceRoot (tc_Options input) in
  let paths := resolvePathsAgainstWorkspace (stringValues (argument args "path")) ws in
  Ok (match policyClass input with
      | builtinPolicyReadPath | builtinPolicyWritePath => paths
      | builtinPolicySearchPath => match paths with [] => resolvePathsAgainstWorkspace ["."] ws | _ => paths end
      | builtinPolicyGlobPath => match paths with [] => globRoots (stringValues (argument args "pattern")) ws | _ => paths end
      | _ => []
      end).

Definition ensureReadPathsOutsideDefaultHiddenRoots (input : ToolContext) : result PolicyError unit :=
  let! paths := candidatePaths input in
  ensurePathsOutsideDefaultHiddenRoots paths (approvedOverrideRoots (tc_Options input)) "read".
End Paths.
