(* ===== verification/PathProps.v ===== *)
(** * Containment of paths

    What [PathPolicy] decides, in terms of the names of physical paths: the
    climb to an existing parent ends, physical paths are cleaned absolute paths,
    and containment is the prefix relation of their names. *)

From Stdlib Require Import ZArith Lia Ascii String.
From stdpp Require Import base option strings list sets.
From S2P Require Import Prelude GoStrings GoText GoPath ShellParse GoValues SandboxPolicy PathPolicy.

Open Scope string_scope.

(** What the operating system promises: an absolute path has an absolute physical path, and the working and home
    directories are absolute when they are known. *)
Class HostLaws {H : Host} : Prop := {
  EvalSymlinks_abs : forall p q, IsAbs p = true -> EvalSymlinks p = Some q -> IsAbs q = true;
  Getwd_abs : IsAbs Getwd = true;
  UserHomeDir_abs : forall home, UserHomeDir = Some home -> IsAbs home = true;
}.

Lemma abs_names p : IsAbs p = true -> Clean p = p -> p = rooted_path (path_names p) /\ Forall path_name (path_names p).
Proof. intros Ha Hc. rewrite <- Hc at 1. rewrite Clean_abs by done. split; [done|]. by apply path_names_abs. Qed.

(** A cleaned absolute path. *)
Definition canonical (p : string) : Prop := IsAbs p = true /\ Clean p = p.

Lemma Clean_canonical p : IsAbs p = true -> canonical (Clean p).
Proof. intros H. split; [by apply Clean_IsAbs|by apply Clean_idem_abs]. Qed.

Lemma rooted_canonical l : Forall path_name l -> canonical (rooted_path l).
Proof. intros Hl. split; [apply IsAbs_rooted|]. rewrite Clean_abs by apply IsAbs_rooted. by rewrite rooted_path_names. Qed.

(** [PathIsUnder] on canonical paths is the prefix relation of their names, the root directory included. *)
Lemma PathIsUnder_names target root : canonical target -> canonical root ->
  PathIsUnder target root = true <-> path_names root `prefix_of` path_names target.
Proof.
  intros [Ht1 Ht2] [Hr1 Hr2]. destruct (abs_names target Ht1 Ht2) as [Et Hnt], (abs_names root Hr1 Hr2) as [Er Hnr].
  rewrite Et, Er, !rooted_path_names by done. revert Hnt Hnr. generalize (path_names target) (path_names root). clear. intros ts rs Hnt Hnr.
  unfold PathIsUnder. destruct rs as [|r rs].
  - split; [intros _; by exists ts|]. intros _. apply orb_true_iff. right. exact (IsAbs_rooted ts).
  - assert (Hs : HasSuffix (rooted_path (r :: rs)) "/" = false); [|rewrite Hs; by apply under_prefix].
    destruct (exists_last (l := r :: rs) ltac:(done)) as (l&x&E). rewrite E in *.
    apply Forall_app in Hnr as [_ Hx]. apply Forall_cons in Hx as [(Hxe&_&_&Hx) _].
    assert (E2 : exists s, rooted_path (l ++ [x]) = s ++ x).
    { destruct l as [|y l]; [by exists "/"|]. exists (rooted_path (y :: l) ++ "/"). unfold rooted_path. rewrite Join_snoc by done.
      generalize (Join (y :: l) "/"). intros s. change (String "/" (s ++ ("/" ++ x)) = String "/" ((s ++ "/") ++ x)). f_equal.
      induction s as [|a s IH]; [done|]. exact (f_equal (String a) IH). }
    destruct E2 as [s ->]. unfold HasSuffix. apply andb_false_iff. right. apply String.eqb_neq.
    assert (Hd : forall u v, drop_str (String.length (u ++ v) - String.length v) (u ++ v) = v).
    { intros u v. induction u as [|a u IH]; [simpl; by rewrite Nat.sub_diag; destruct v|].
      change (String.length (String a u ++ v)) with (S (String.length (u ++ v))). 
      assert (Hle : (String.length v <= String.length (u ++ v))%nat) by (clear; induction u as [|c u IHu]; [done|change (String.length v <= S (String.length (u ++ v)))%nat; lia]).
      rewrite Nat.sub_succ_l by done. exact IH. }
    destruct (exists_last (l := bytes x)) as (w&c&Ew); [intros E0; apply Hxe; by rewrite <- (text_bytes x), E0|].
    assert (Ex : s ++ x = (s ++ text w) ++ text [c]).
    { rewrite <- (text_bytes x), Ew, text_app. clear. induction s as [|a s IH]; [done|]. exact (f_equal (String a) IH). }
    rewrite Ex. change (String.length "/") with (String.length (text [c])). rewrite Hd. intros Hc. injection Hc as ->.
    apply Hx. rewrite Ew. apply elem_of_app. right. by left.
Qed.

Section Props.
Context {H : Host} {HL : HostLaws}.

(** ** Physical paths *)

Lemma fold_join_abs names p : IsAbs p = true -> IsAbs (fold_left (fun path name => path_join [path; name]) names p) = true.
Proof. revert p. induction names as [|n names IH]; intros p Hp; [done|]. apply IH. by apply path_join_abs. Qed.

(** The climb ends within its fuel, with a cleaned absolute path. *)
Lemma resolve_climb fuel clean suffix l : canonical clean -> Forall path_name l -> (length l < fuel)%nat ->
  exists p, climb fuel clean (rooted_path l) suffix = Some p /\ canonical p.
Proof.
  intros Hc. revert fuel suffix. induction l as [|x l IH] using rev_ind; intros fuel suffix Hl Hf; (destruct fuel as [|fuel]; [lia|]); cbn [climb].
  all: match goal with |- context [rooted_path ?k =? ""] => assert (Hne : (rooted_path k =? "") = false) by done; rewrite Hne; clear Hne end.
  - destruct (Lstat (rooted_path [])).
    + destruct (EvalSymlinks (rooted_path [])) as [q|] eqn:E; [|by exists clean]. eexists. split; [done|]. apply Clean_canonical, fold_join_abs, Clean_IsAbs.
      eapply EvalSymlinks_abs; [|exact E]. apply IsAbs_rooted.
    + change (Dir (rooted_path []) =? rooted_path []) with true. by exists clean.
  - destruct (Lstat (rooted_path (l ++ [x]))).
    + destruct (EvalSymlinks (rooted_path (l ++ [x]))) as [q|] eqn:E; [|by exists clean]. eexists. split; [done|]. apply Clean_canonical, fold_join_abs, Clean_IsAbs.
      eapply EvalSymlinks_abs; [|exact E]. apply IsAbs_rooted.
    + rewrite Dir_rooted by done. rewrite (proj2 (String.eqb_neq _ _)) by by apply rooted_path_snoc_ne.
      apply IH; [by apply Forall_app in Hl as [? _]|]. rewrite length_app in Hf. simpl in Hf. lia.
Qed.

Lemma resolve_canonical p : IsAbs p = true -> canonical (ResolvePathWithSymlinks p).
Proof.
  intros Hp. apply trim_space_abs in Hp. unfold ResolvePathWithSymlinks. cbv zeta. destruct (String.eqb_spec (trim_space p) ""); [by rewrite e in Hp|].
  destruct (EvalSymlinks (Clean (trim_space p))) as [q|] eqn:E.
  - apply Clean_canonical. eapply EvalSymlinks_abs; [|exact E]. by apply Clean_IsAbs.
  - destruct (resolve_climb (S (S (length (path_names (Clean (trim_space p)))))) (Clean (trim_space p)) [] (path_names (trim_space p)))
      as (q&Hq&Hc); [by apply Clean_canonical|by apply path_names_abs|rewrite (Clean_abs _ Hp), rooted_path_names by (by apply path_names_abs); lia|].
    rewrite <- (Clean_abs _ Hp) in Hq. rewrite Hq. exact Hc.
Qed.

Lemma ResolveAbsPath_abs p : trim_space p <> "" -> IsAbs (ResolveAbsPath p None) = true.
Proof.
  intros Hp. unfold ResolveAbsPath. cbv zeta. rewrite (proj2 (String.eqb_neq _ _) Hp). apply Clean_IsAbs.
  set (q := expand_home _ _). destruct (IsAbs q) eqn:E; [done|]. apply path_join_abs. cbn. apply Getwd_abs.
Qed.

Lemma ResolveAbsRoot_abs p : trim_space p <> "" -> IsAbs (ResolveAbsRoot p None) = true.
Proof.
  intros Hp. unfold ResolveAbsRoot. cbv zeta. rewrite (proj2 (String.eqb_neq _ _) Hp). destruct (IsAbs (trim_space p)) eqn:E; [by apply Clean_IsAbs|].
  pose proof Getwd_abs as Hw. change (context_wd None) with Getwd.
  destruct (String.eqb_spec Getwd "") as [Ew|]; [by rewrite Ew in Hw|]. by apply Clean_IsAbs, path_join_abs.
Qed.

(** The names of the physical location of a path, and of a root. *)
Definition place (p : string) : list string := path_names (physical_path p None).
Definition root_place (p : string) : list string := path_names (physical_root p None).

Lemma physical_path_canonical p : trim_space p <> "" -> canonical (physical_path p None).
Proof. intros Hp. by apply resolve_canonical, ResolveAbsPath_abs. Qed.

Lemma physical_root_canonical p : trim_space p <> "" -> canonical (physical_root p None).
Proof. intros Hp. by apply resolve_canonical, ResolveAbsRoot_abs. Qed.

Lemma physical_root_blank p : trim_space p = "" -> physical_root p None = "".
Proof. intros Hp. unfold physical_root, ResolveAbsRoot. cbv zeta. by rewrite Hp. Qed.

Lemma canonical_nonempty p : canonical p -> nonempty p = true.
Proof. intros [Ha _]. by destruct p. Qed.

(** Being within roots: some root is a prefix of the physical location. *)
Lemma IsWithinRoots_spec target roots : trim_space target <> "" ->
  IsWithinRoots target roots None = true <-> exists root, root ∈ roots /\ trim_space root <> "" /\ root_place root `prefix_of` place target.
Proof.
  intros Ht. unfold IsWithinRoots. cbv zeta. rewrite existsb_exists. pose proof (physical_path_canonical target Ht) as Hc. split.
  - intros (root&Hin&[Hne Hu]%andb_true_iff). exists root. rewrite list_elem_of_In. split; [done|].
    destruct (decide (trim_space root = "")) as [E|Hr]; [by rewrite (physical_root_blank root E) in Hne|]. split; [done|].
    apply PathIsUnder_names; [done|by apply physical_root_canonical|done].
  - intros (root&Hin%list_elem_of_In&Hr&Hp). exists root. pose proof (physical_root_canonical root Hr) as Hcr. split; [done|]. apply andb_true_iff.
    split; [by apply canonical_nonempty|]. by apply PathIsUnder_names.
Qed.

Lemma distinct_trimmed_elem seen l x : x ∈ distinct_trimmed seen l -> exists y, y ∈ l /\ x = trim_space y /\ x <> "".
Proof.
  revert seen. induction l as [|y l IH]; intros seen; cbn [distinct_trimmed]; [by intros ?%elem_of_nil|]. cbv zeta.
  destruct (String.eqb_spec (trim_space y) ""); cbn [orb].
  - intros (z&Hz&?)%IH. exists z. split; [by right|done].
  - destruct (one_of seen (trim_space y)); [intros (z&Hz&?)%IH; exists z; split; [by right|done]|].
    intros [->|Hx]%elem_of_cons; [exists y; split; [by left|done]|]. apply IH in Hx as (z&Hz&?). exists z. split; [by right|done].
Qed.

(** ** Lexical containment *)

(** The names of a path read from the root directory. *)
Definition lexical_names (value : string) : list string := path_names (normalizeTarget value).

Lemma normalizeTarget_canonical v : trim_space v <> "" -> canonical (normalizeTarget v).
Proof.
  intros Hv. unfold normalizeTarget. cbv zeta. rewrite (proj2 (String.eqb_neq _ _) Hv). apply Clean_canonical.
  destruct (IsAbs (trim_space v)) eqn:E; [done|]. by apply path_join_abs.
Qed.

Lemma normalizeTarget_blank v : trim_space v = "" -> normalizeTarget v = "".
Proof. intros Hv. unfold normalizeTarget. cbv zeta. by rewrite Hv. Qed.

(** The lexical test of the command policy cannot be escaped by spelling: a target, however it is written, counts as
    inside the roots exactly when it is blank or when the names of some root, with [.] and [..] resolved, are the
    first names of the target; the root directory itself contains only itself. *)
Theorem within_root_names (target : string) (roots : list string) :
  withinAnyRoot target roots = true <->
  trim_space target = "" \/ exists root, root ∈ roots /\ trim_space root <> "" /\
    (if decide (lexical_names root = []) then lexical_names target = [] else lexical_names root `prefix_of` lexical_names target).
Proof.
  unfold withinAnyRoot. cbv zeta. destruct (decide (trim_space target = "")) as [E|Ht]; [rewrite (normalizeTarget_blank _ E); naive_solver|].
  pose proof (normalizeTarget_canonical _ Ht) as Hc. rewrite (proj2 (String.eqb_neq _ _)) by (intros E; by rewrite E in Hc; destruct Hc).
  rewrite existsb_exists. destruct (abs_names _ (proj1 Hc) (proj2 Hc)) as [Et Hnt].
  assert (Hroot : forall root, trim_space root <> "" ->
    (normalizeTarget target =? normalizeTarget root) || HasPrefix (normalizeTarget target) (normalizeTarget root ++ "/") = true
    <-> if decide (lexical_names root = []) then lexical_names target = [] else lexical_names root `prefix_of` lexical_names target).
  { intros root Hr. pose proof (normalizeTarget_canonical _ Hr) as Hcr. destruct (abs_names _ (proj1 Hcr) (proj2 Hcr)) as [Er Hnr].
    unfold lexical_names. rewrite Et, Er. rewrite !rooted_path_names by done. destruct (decide (path_names (normalizeTarget root) = [])) as [E|Hne]; [|by apply under_prefix].
    rewrite E. split; [|by intros ->]. rewrite orb_true_iff, String.eqb_eq. intros [H0%rooted_path_inj|H0]; [done|done|constructor|].
    destruct Hnt as [|n names (Hn&_&_&Hs) _]; [done|]. exfalso. destruct n as [|c n]; [done|].
    assert (E0 : HasPrefix (rooted_path (String c n :: names)) (rooted_path [] ++ "/") = String.prefix "/" (Join (String c n :: names) "/"))
      by exact (prefix_cons "/" "/" (Join (String c n :: names) "/")).
    rewrite E0 in H0. assert (Hj : exists s, Join (String c n :: names) "/" = String c s) by (destruct names; eexists; reflexivity).
    destruct Hj as [s Hj]. rewrite Hj in H0. cbn [String.prefix] in H0. destruct (ascii_dec "/" c) as [<-|]; [|done]. apply Hs. by left. }
  split.
  - intros (root&Hin&[Hne Hu]%andb_true_iff). right. exists root. rewrite list_elem_of_In. split; [done|].
    destruct (decide (trim_space root = "")) as [E|Hr]; [by rewrite (normalizeTarget_blank _ E) in Hne|]. split; [done|]. by apply Hroot.
  - intros [|(root&Hin%list_elem_of_In&Hr&Hp)]; [done|]. exists root. split; [done|]. apply andb_true_iff. split; [|by apply Hroot].
    by apply canonical_nonempty, normalizeTarget_canonical.
Qed.
End Props.
