(* ===== verification/CommandPolicy.v ===== *)
(** * Workspace-write decisions

    Models [agent-sdk/policy/presets/command_policy.go],
    [command_sandbox_permissions.go], the decisions of [filesystem_policy.go]
    and the modes of [presets.go]: what a tool call may do without asking, what
    needs an approval, and what is denied.

    An approval is modelled without its display evidence (title and subject).
    [strings.EqualFold] is an operation of the class [Fold]. *)

From Stdlib Require Import ZArith Lia Ascii String.
From stdpp Require Import base option strings list gmap.
From S2P Require Import Prelude GoStrings GoText GoPath ShellParse GitPolicy RemoteScript GoValues SandboxPolicy PathPolicy.

Open Scope string_scope.

Class Fold : Type := { EqualFold : string -> string -> bool }.

Record commandClass : Type := MkClass { cc_Action : string; cc_Reason : string; cc_RiskClass : string; cc_Constraints : Constraints }.
Definition no_class : commandClass := MkClass "" "" "" no_constraints.

Definition riskClassMachine : string := "machine".
Definition riskClassVCSDestructive : string := "vcs_destructive".
Definition riskClassPathEscape : string := "path_escape".
Definition riskClassHostExec : string := "host_exec".
Definition riskClassRemoteScript : string := "remote_script".

Record commandSandboxRequest : Type := MkSandboxRequest { sr_SandboxPermissions : string; sr_Justification : string }.
Definition CommandSandboxPermissionUseDefault : string := "use_default".
Definition CommandSandboxPermissionRequireEscalated : string := "require_escalated".
Definition CommandSandboxPermissionLegacyAdditional : string := "with_additional_permissions".

Definition justification_required : string :=
  "require_escalated requires justification: state the command intent, why sandbox/default permissions are insufficient, and how it serves the user task".

Definition explicitEscalationDenyReason (r : commandSandboxRequest) : string :=
  if negb (sr_SandboxPermissions r =? CommandSandboxPermissionRequireEscalated) then "" else
  if nonempty (sr_Justification r) then "" else justification_required.

Section Command.
Context {L : Lower} {FO : Fold} {H : Host}.

(** ** The sandbox permissions of a call *)

Definition CommandSandboxPermissionAllowedValues (allowLegacy : bool) : string :=
  if allowLegacy
  then CommandSandboxPermissionUseDefault ++ ", " ++ CommandSandboxPermissionRequireEscalated ++ ", or " ++ CommandSandboxPermissionLegacyAdditional
  else CommandSandboxPermissionUseDefault ++ " or " ++ CommandSandboxPermissionRequireEscalated.

Definition NormalizeCommandSandboxPermission (value : string) (allowLegacy : bool) : result PolicyError string :=
  let v := ToLower (trim_space value) in
  if one_of [""; CommandSandboxPermissionUseDefault] v then Ok CommandSandboxPermissionUseDefault else
  if v =? CommandSandboxPermissionRequireEscalated then Ok CommandSandboxPermissionRequireEscalated else
  if (v =? CommandSandboxPermissionLegacyAdditional) && allowLegacy then Ok CommandSandboxPermissionUseDefault else
  Fail (ArgumentError ("arg " ++ Quote "sandbox_permissions" ++ " must be " ++ CommandSandboxPermissionAllowedValues allowLegacy)).

(** A string argument that may be absent or null. *)
Definition optional_string (args : GoMap) (name : string) : result PolicyError (option string) :=
  match map_index args name with
  | None | Some (Leaf KNil _) => Ok None
  | Some v => match as_string v with Some s => Ok (Some s) | None => Fail (ArgumentError (name ++ " must be a string")) end
  end.

Definition parseCommandSandboxRequest (input : ToolContext) : result PolicyError commandSandboxRequest :=
  let! args := CallArgs input in
  let! raw := optional_string args "sandbox_permissions" in
  let! permission := match raw with
                     | None => Ok CommandSandboxPermissionUseDefault
                     | Some value => NormalizeCommandSandboxPermission value true
                     end in
  let! why := optional_string args "justification" in
  Ok (MkSandboxRequest permission (match why with Some s => trim_space s | None => "" end)).

Definition error_text (e : PolicyError) : string :=
  match e with
  | PathError m | ArgumentError m | RegistryError m => m
  | ToolInputDecodeError tool => if nonempty tool then "decode tool call input for " ++ tool else "decode tool call input"
  | DecisionError mode detail => detail
  end.

Definition commandArg (input : ToolContext) : result PolicyError string :=
  let! args := CallArgs input in
  Ok (trim_space (default "" (map_index args "command" ≫= as_string))).

(** ** Delete targets *)

Definition expandDeleteTarget (value : string) : string :=
  let value := trim_space value in
  if value =? "" then "" else
  match UserHomeDir with
  | Some home =>
    if home =? "" then value else
    let lower := ToLower value in
    if value =? "~" then home else
    if HasPrefix value "~/" then path_join [home; drop_str 2 value] else
    if EqualFold value "$home" || EqualFold value "%userprofile%" then home else
    if HasPrefix lower "$home/" then path_join [home; drop_str 6 value] else
    if HasPrefix lower "%userprofile%/" then path_join [home; drop_str 14 value] else value
  | None => value
  end.

Fixpoint path_operands (fields : list string) : list string :=
  match fields with
  | [] => []
  | f :: r =>
    let token := trimShellToken f in
    if (token =? "") || isShellCommandSeparator token then [] else
    if HasPrefix token "-" || HasPrefix token "/" then path_operands r else token :: path_operands r
  end.
Definition commandSegmentPathOperands (fields : list string) : list string := path_operands fields.

Definition windowsRecursiveDeleteTargets (command : string) : list string :=
  let fields := shellishFields command in
  commandStartIndexes fields ≫= fun i =>
    if isRecursiveWindowsDelete (fields !!! i) (drop (S i) fields) then commandSegmentPathOperands (drop (S i) fields) else [].

Definition rawRecursiveDeleteTargets (command : string) : list string :=
  (recursiveRemoveTargets command ++ windowsRecursiveDeleteTargets command)%list.

Definition recursiveDeleteTargets (command : string) (o : ModeOptions) : list string :=
  List.filter nonempty (map (fun one => resolvePolicyPath (expandDeleteTarget one) (mo_WorkspaceRoot o)) (rawRecursiveDeleteTargets command)).

(** The roots on Unix. *)
Definition catastrophicSystemRoots : list string :=
  ["/bin"; "/sbin"; "/usr"; "/etc"; "/var"; "/boot"; "/dev"; "/proc"; "/sys"; "/System"; "/Library"].

Definition isCatastrophicDeleteTarget (target : string) (o : ModeOptions) : bool :=
  let target := normalizeTarget (expandDeleteTarget target) in
  if target =? "" then false else
  if withinAnyRoot target (writableRoots o) then false else
  if target =? "/" then true else
  match UserHomeDir with
  | Some home =>
    if home =? "" then false
    else let home := normalizeTarget home in (target =? home) || (target =? normalizeTarget (Dir home))
  | None => false
  end
  || existsb (fun root => target =? normalizeTarget root) catastrophicSystemRoots.

Definition catastrophicRecursiveDeleteReason (command : string) (o : ModeOptions) : string :=
  if negb (commandContainsRecursiveDelete command) then "" else
  if existsb (fun t => isCatastrophicDeleteTarget t o) (rawRecursiveDeleteTargets command ++ recursiveDeleteTargets command o)
  then "recursive filesystem delete of a system or home root is blocked" else "".

Definition outOfRootsRecursiveDeleteReason (command : string) (o : ModeOptions) : string :=
  if negb (commandContainsRecursiveDelete command) then "" else
  match recursiveDeleteTargets command o with
  | [] => "recursive filesystem delete has unresolved targets"
  | targets =>
    if existsb (fun t => negb (isCatastrophicDeleteTarget t o) && negb (withinAnyRoot t (writableRoots o))) targets
    then "recursive filesystem delete targets paths outside allowed roots" else ""
  end.

(** ** Classification *)

Definition commandLooksLikeDeviceWipe (compact : string) : bool :=
  if contains compact "mkfs" || contains compact "diskpart" then true else
  if contains compact "cipher/w" || contains compact "cipher/w:" then true else
  if negb (contains compact "dd") then false else
  contains compact "of=/dev/" || contains compact "of=\\.\".

Definition deny_class (reason risk : string) : commandClass := MkClass ActionDeny reason risk no_constraints.

Definition classifyMachineHardDeny (command : string) (o : ModeOptions) : commandClass :=
  let compact := ToLower (Join (Fields (trim_space command)) "") in
  if compact =? "" then no_class else
  if contains compact ":(){" then deny_class "dangerous shell command is blocked" riskClassMachine else
  if contains compact "yes>/dev/null" then deny_class "dangerous shell command is blocked" riskClassMachine else
  if contains compact "/dev/tcp/" then deny_class "dangerous network shell command is blocked" riskClassMachine else
  if commandLooksLikeDeviceWipe compact then deny_class "device or filesystem wipe command is blocked" riskClassMachine else
  let reason := catastrophicRecursiveDeleteReason command o in
  if nonempty reason then deny_class reason riskClassMachine else no_class.

Definition scanCommandTree (command : string) (o : ModeOptions) (classify : string -> ModeOptions -> commandClass) : commandClass :=
  default no_class (List.find (fun class => nonempty (cc_Action class)) (map (fun text => classify text o) (command :: shellCommandPayloads command))).

Definition commandHostApprovalRequired (r : commandSandboxRequest) (d : Descriptor) : bool :=
  (sr_SandboxPermissions r =? CommandSandboxPermissionRequireEscalated) || DescriptorImpliesHostExecution d.

Definition approvalGatedCommand (reason risk : string) (r : commandSandboxRequest) (d : Descriptor) (o : ModeOptions) : option commandClass :=
  let hostExecution := commandHostApprovalRequired r d in
  if negb (nonempty reason) && negb hostExecution then None else
  if hostExecution then
    let denyReason := explicitEscalationDenyReason r in
    if nonempty denyReason then Some (deny_class denyReason riskClassHostExec) else
    Some (MkClass ActionAskApproval (if nonempty reason then reason else "host execution requested")
            (if nonempty risk then risk else riskClassHostExec) hostExecutionConstraints)
  else Some (MkClass ActionAskApproval reason risk (workspaceWriteConstraints o)).

(** The reason for an approval and its risk class, empty when the command needs none. *)
Definition commandRisk (command : string) (o : ModeOptions) : string * string :=
  let gitReason := gitCommandApprovalReason command in
  let pathReason := outOfRootsRecursiveDeleteReason command o in
  let risk := if nonempty gitReason then (gitReason, riskClassVCSDestructive)
              else if nonempty pathReason then (pathReason, riskClassPathEscape) else ("", "") in
  if remoteScriptExecution command then ("remote script execution requires approval", riskClassRemoteScript) else risk.

Definition classifyRUNCommand (command : string) (o : ModeOptions) (r : commandSandboxRequest) (d : Descriptor) : commandClass :=
  let class := scanCommandTree command o classifyMachineHardDeny in
  if cc_Action class =? ActionDeny then class else
  let '(reason, risk) := commandRisk command o in
  default no_class (approvalGatedCommand reason risk r d o).

(** ** Decisions *)

Definition allow (c : Constraints) : Decision := MkDecision ActionAllow "" c None None.
Definition deny (reason : string) : Decision := MkDecision ActionDeny (trim_space reason) no_constraints None None.

Definition policyErrorOrDeny (e : PolicyError) : result PolicyError Decision :=
  match e with ToolInputDecodeError _ => Fail e | _ => Ok (deny (error_text e)) end.

Definition toolKind (name : string) : string :=
  if one_of ["Read"; "ViewImage"; "Skill"] name then "read" else
  if one_of ["Write"; "Patch"] name then "edit" else
  if one_of ["Glob"; "Grep"; "WebSearch"; "WebFetch"] name then "search" else
  if one_of ["RunCommand"; "Task"; "StartThread"; "SendMessage"] name then "execute" else "other".

Definition snapshot_value (s : PolicySnapshot) : GoValue :=
  let s := ClonePolicySnapshot s in
  Node NStruct [("route", go_string (sn_Route s)); ("backend", go_string (sn_Backend s)); ("permission", go_string (sn_Permission s));
                ("isolation", go_string (sn_Isolation s)); ("network", go_string (sn_Network s));
                ("writable_roots", Node NStrings (map (fun x => ("", go_string x)) (sn_WritableRoots s)));
                ("read_only_subpaths", Node NStrings (map (fun x => ("", go_string x)) (sn_ReadOnlySubpaths s)))].

Definition MetadataSandboxPolicy : string := "runtime_sandbox_policy".

Definition askApproval (reason : string) (c : Constraints) (input : ToolContext) : result PolicyError Decision :=
  let! call := CallArgs input in
  Ok (MkDecision ActionAskApproval (trim_space reason) c
        (if PolicySnapshotEmpty (tc_SandboxPolicy input) then None else Some [(MetadataSandboxPolicy, snapshot_value (tc_SandboxPolicy input))])
        (Some (MkRequest (MkApprovalCall (trim_space (tc_CallID input)) (tc_ToolName input) (toolKind (tc_ToolName input)) "pending" call)
                 [MkApprovalOption "allow_once" "Allow once" "allow_once"; MkApprovalOption "reject_once" "Reject once" "reject_once"]))).

Definition with_metadata (entries : list (string * GoValue)) (d : Decision) : Decision :=
  MkDecision (dc_Action d) (dc_Reason d) (dc_Constraints d)
    (Some (fold_left (fun m e => map_set e.1 e.2 m) entries (default [] (dc_Metadata d)))) (dc_Approval d).

Definition approvalMetadata (r : commandSandboxRequest) (reason : string) : list (string * GoValue) :=
  (("approval_reason", go_string (trim_space reason)) :: ("sandbox_permissions", go_string (sr_SandboxPermissions r))
   :: if nonempty (sr_Justification r) then [("justification", go_string (sr_Justification r))] else [])%list.

Definition askCommandApproval (input : ToolContext) (r : commandSandboxRequest) (class : commandClass) : result PolicyError Decision :=
  let reason := trim_space (cc_Reason class) in
  let reason := if nonempty reason then reason else "host execution requires approval" in
  let! decision := askApproval reason (cc_Constraints class) input in
  let risk := trim_space (cc_RiskClass class) in
  Ok (with_metadata (approvalMetadata r reason ++ [("risk_class", go_string (if nonempty risk then risk else riskClassHostExec))]) decision).

Definition decideCommand (input : ToolContext) (def : Constraints) : result PolicyError Decision :=
  let! command := commandArg input in
  match parseCommandSandboxRequest input with
  | Fail e => Ok (deny (error_text e))
  | Ok req =>
    let class := classifyRUNCommand command (tc_Options input) req (tc_Sandbox input) in
    if cc_Action class =? ActionDeny then Ok (deny (cc_Reason class)) else
    if cc_Action class =? ActionAskApproval then askCommandApproval input req class else Ok (allow def)
  end.

Definition askPathWriteApproval (input : ToolContext) (def : Constraints) (paths : list string) : result PolicyError Decision :=
  let reason := "write outside allowed roots requires approval" in
  let! decision := askApproval reason (withPathWriteGrants def paths) input in
  Ok (with_metadata [("approval_reason", go_string reason); ("risk_class", go_string riskClassPathEscape)] decision).

Definition decideFilesystemWrite (input : ToolContext) (def : Constraints) : result PolicyError Decision :=
  match candidatePaths input with
  | Fail e => policyErrorOrDeny e
  | Ok paths =>
    match ensurePathsOutsideDefaultHiddenRoots paths (approvedOverrideRoots (tc_Options input)) "write" with
    | Fail e => Ok (deny (error_text e))
    | Ok _ =>
      match ensureFilesystemWritePaths paths (writableRoots (tc_Options input)) with
      | Ok _ => Ok (allow def)
      | Fail _ => askPathWriteApproval input def paths
      end
    end
  end.

(** The workspace-write mode. *)
Definition workspaceWriteDecide (input : ToolContext) : result PolicyError Decision :=
  let def := workspaceWriteConstraints (tc_Options input) in
  match policyClass input with
  | builtinPolicyReadPath | builtinPolicySearchPath | builtinPolicyGlobPath =>
    match ensureReadPathsOutsideDefaultHiddenRoots input with Fail e => policyErrorOrDeny e | Ok _ => Ok (allow def) end
  | builtinPolicyWritePath => decideFilesystemWrite input def
  | builtinPolicyCommand => decideCommand input def
  | builtinPolicyUnknown => Ok (allow def)
  end.

Definition dangerFullAccessDecide (input : ToolContext) : result PolicyError Decision := Ok (allow hostExecutionConstraints).

Definition CloneToolContext (input : ToolContext) : ToolContext :=
  MkToolContext (trim_space (tc_ToolName input)) (tc_CommandExec input) (tc_CallID input) (trim_space (tc_CallName input)) (tc_Args input)
    (CloneDescriptor (tc_Sandbox input)) (ClonePolicySnapshot (tc_SandboxPolicy input)) (CloneModeOptions (tc_Options input)).

(** [NamedMode.DecideTool] of a mode with a decision function. *)
Definition DecideTool (mode : string) (decide : ToolContext -> result PolicyError Decision) (input : ToolContext) : result PolicyError Decision :=
  let! decision := decide (CloneToolContext input) in NormalizeDecision (trim_space mode) decision.

Definition WorkspaceWriteMode : ToolContext -> result PolicyError Decision := DecideTool ProfileWorkspaceWrite workspaceWriteDecide.

Definition NewRegistry : result PolicyError (gmap string (ToolContext -> result PolicyError Decision)) :=
  NewMemory [(ProfileWorkspaceWrite, WorkspaceWriteMode);
             ("auto-review", DecideTool "auto-review" WorkspaceWriteMode); ("manual", DecideTool "manual" WorkspaceWriteMode)] ∅.
End Command.
