(* ===== verification/PolicyProps.v ===== *)
(** * What the policy guarantees

    The decisions of [CommandPolicy], against the promises of the presets: what
    may run without asking, what is always denied, when the host is reached,
    where writes land, and when a decision fails. *)

From Stdlib Require Import ZArith Lia Ascii String.
From stdpp Require Import base option strings list gmap sets.
From S2P Require Import Prelude GoStrings GoText GoPath ShellParse ShellFacts GitPolicy RemoteScript GoValues SandboxPolicy PathPolicy PathProps CommandPolicy.

Open Scope string_scope.

(** Values that [encoding/json] encodes whatever their texts are: strings, and structs and slices of them. *)
Inductive textual : GoValue -> Prop :=
| textual_string s : textual (go_string s)
| textual_node k items : k = NStruct \/ k = NStrings -> Forall (fun x => textual x.2) items -> textual (Node k items).

Definition textual_map (m : GoMap) : Prop := Forall (fun x => textual x.2) (default [] m).

Class JsonLaws {H : Host} : Prop := { json_textual : forall m, textual_map m -> json_marshals m = true }.

Section Props.
Context {L : Lower} {FO : Fold} {H : Host}.

(** ** Constraints of the policy *)

Definition good_rule (r : PathRule) : Prop := trim_space (pr_Path r) <> "" /\ pr_Access r = PathAccessReadWrite.

Lemma clone_rules_supported rules : Forall good_rule rules -> forallb ruleSupported (ClonePathRules rules) = true.
Proof.
  induction 1 as [|r rules [Hp Ha] _ IH]; [done|]. cbn [ClonePathRules map forallb]. fold (ClonePathRules rules). rewrite IH, andb_true_r.
  unfold ruleSupported. cbn [pr_Path pr_Access]. rewrite Ha, trim_space_idem. by rewrite (proj2 (String.eqb_neq _ _) Hp).
Qed.

Lemma write_rule_good path : Forall good_rule (write_rule path).
Proof.
  unfold write_rule. cbv zeta. destruct (String.eqb_spec (trim_space path) ""); constructor; [|done].
  split; [|done]. cbn [pr_Path]. by rewrite trim_space_idem.
Qed.

Lemma write_rules_good paths : Forall good_rule (concat (map write_rule paths)).
Proof. induction paths; [constructor|]. cbn [map concat]. apply Forall_app. split; [apply write_rule_good|done]. Qed.

Lemma workspace_rules_good o : Forall good_rule (cn_PathRules (workspaceWriteConstraints o)).
Proof.
  unfold workspaceWriteConstraints. cbn [cn_PathRules]. rewrite !Forall_app. split_and!; [|apply write_rules_good..].
  destruct (GOOS =? "windows"); [constructor|apply write_rule_good].
Qed.

Lemma network_known o : trim_space (defaultNetworkPolicy o) = defaultNetworkPolicy o
  /\ one_of [""; NetworkInherit; NetworkEnabled; NetworkDisabled] (defaultNetworkPolicy o) = true.
Proof. unfold defaultNetworkPolicy. by destruct (mo_NetworkEnabled o) as [[]|]. Qed.

Lemma workspace_constraints_valid o : validateConstraints (NormalizeConstraints (workspaceWriteConstraints o)) = true.
Proof.
  destruct (network_known o) as [E1 E2]. pose proof (clone_rules_supported _ (workspace_rules_good o)) as Hr.
  unfold validateConstraints, NormalizeConstraints. cbn [cn_Network cn_Route cn_Permission cn_Isolation cn_PathRules].
  change (cn_Network (workspaceWriteConstraints o)) with (defaultNetworkPolicy o). by rewrite E1, E2, Hr.
Qed.

Lemma clean_trim_abs p : IsAbs p = true -> trim_space (Clean (trim_space p)) <> "".
Proof. intros Hp%trim_space_abs%Clean_IsAbs%trim_space_abs E. by rewrite E in Hp. Qed.

Lemma merge_good paths out : Forall good_rule out -> Forall (fun p => IsAbs p = true) paths ->
  Forall good_rule (fold_left merge_rule (concat (map write_rule paths)) out).
Proof.
  intros Ho Hp. revert out Ho. induction Hp as [|p paths Hp _ IH]; intros out Ho; [done|]. cbn [map concat]. rewrite fold_left_app. apply IH.
  unfold write_rule. cbv zeta. destruct (trim_space p =? ""); [done|]. cbn [fold_left]. unfold merge_rule. cbv zeta. cbn [pr_Path pr_Access].
  repeat case_match; [done..|]. apply Forall_app. split; [done|]. constructor; [|done]. split; [|done]. cbn [pr_Path]. rewrite trim_space_idem. by apply clean_trim_abs.
Qed.

Lemma clone_rules_good rules : Forall good_rule rules -> Forall good_rule (ClonePathRules rules).
Proof. induction 1 as [|r rules [Hp Ha] _ IH]; [constructor|]. constructor; [|done]. split; cbn [pr_Path pr_Access]; [by rewrite trim_space_idem|by rewrite Ha]. Qed.

Lemma granted_constraints_valid o paths : Forall (fun p => IsAbs p = true) paths ->
  validateConstraints (NormalizeConstraints (withPathWriteGrants (workspaceWriteConstraints o) paths)) = true.
Proof.
  intros Hp. destruct (network_known o) as [E1 E2].
  assert (Hr : forallb ruleSupported (ClonePathRules (cn_PathRules (withPathWriteGrants (workspaceWriteConstraints o) paths))) = true).
  { apply clone_rules_supported. unfold withPathWriteGrants, mergePathRules. cbn [cn_PathRules]. apply merge_good; [|done].
    apply clone_rules_good. unfold NormalizeConstraints. cbn [cn_PathRules]. apply clone_rules_good, workspace_rules_good. }
  unfold validateConstraints. unfold NormalizeConstraints at 1 2 3 4 5. cbn [cn_Network cn_Route cn_Permission cn_Isolation cn_PathRules]. rewrite Hr.
  unfold withPathWriteGrants, NormalizeConstraints. cbn [cn_Network cn_Route cn_Permission cn_Isolation].
  change (cn_Network (workspaceWriteConstraints o)) with (defaultNetworkPolicy o). by rewrite !E1, E2.
Qed.

(** ** Normal decisions *)

(** A decision that normalizes without an error. *)
Definition normal (d : Decision) : Prop :=
  dc_Action d ∈ [ActionAllow; ActionDeny; ActionAskApproval] /\ validateConstraints (NormalizeConstraints (dc_Constraints d)) = true
  /\ textual_map (dc_Metadata d).

Lemma textual_valid items : Forall (fun x => textual x.2) items -> validateReflect (go_object items) = true.
Proof.
  assert (Hv : forall v, textual v -> validateReflect v = true).
  { induction v as [k t|k its IH] using GoValue_ind'; [by inversion 1|]. inversion_clear 1 as [|? ? _ Hits]. cbn [validateReflect].
    induction Hits as [|[n v] its Hvv _ IHits]; [done|]. apply Forall_cons in IH as [IH1 IH2]. cbn in IH1, Hvv. rewrite IH1 by done. by apply IHits. }
  intros Hi. cbn [go_object validateReflect]. induction Hi as [|[n v] items Hvv _ IH]; [done|]. cbn in Hvv. by rewrite (Hv v Hvv).
Qed.

Lemma normal_decision {JL : JsonLaws} mode d : normal d -> NormalizeDecision mode d = Ok (CloneDecision d).
Proof.
  intros (Ha&Hc&Hm). unfold NormalizeDecision. cbv zeta.
  assert (E : one_of [ActionAllow; ActionDeny; ActionAskApproval] (dc_Action (CloneDecision d)) = true).
  { unfold CloneDecision. cbn [dc_Action]. rewrite !elem_of_cons, elem_of_nil in Ha. by destruct Ha as [->|[->|[->|[]]]]. }
  rewrite E. cbn [negb]. change (dc_Constraints (CloneDecision d)) with (NormalizeConstraints (dc_Constraints d)). rewrite Hc. cbn [negb].
  change (dc_Metadata (CloneDecision d)) with (dc_Metadata d).
  unfold jsonvalue_ValidateMap. by rewrite textual_valid, json_textual.
Qed.

Lemma map_set_textual k v items : textual v -> Forall (fun x => textual x.2) items -> Forall (fun x => textual x.2) (map_set k v items).
Proof.
  intros Hv. induction 1 as [|[k0 v0] items H0 Hi IH]; cbn [map_set]; [by repeat constructor|].
  destruct (k0 =? k); [by constructor|]. destruct (String.ltb k k0); by repeat constructor.
Qed.

Lemma with_metadata_textual entries d : textual_map (dc_Metadata d) -> Forall (fun x => textual x.2) entries -> textual_map (dc_Metadata (with_metadata entries d)).
Proof.
  unfold textual_map, with_metadata. cbn [dc_Metadata default]. intros Hd He. generalize dependent (default [] (dc_Metadata d)).
  induction He as [|[k v] entries Hv _ IH]; intros m Hm; [done|]. cbn [fold_left]. apply IH. by apply map_set_textual.
Qed.

Lemma snapshot_textual s : textual (snapshot_value s).
Proof.
  assert (Hl : forall l, Forall (fun x => textual x.2) (map (fun x => ("", go_string x)) l)) by (intros l; induction l; repeat constructor; done).
  unfold snapshot_value. constructor; [by left|]. repeat apply Forall_cons_2; try apply textual_string; [| |constructor].
  all: cbn [snd]; constructor; [by right|apply Hl].
Qed.

Lemma ask_normal reason c input d : askApproval reason c input = Ok d -> validateConstraints (NormalizeConstraints c) = true ->
  normal d /\ dc_Action d = ActionAskApproval /\ dc_Constraints d = c.
Proof.
  unfold askApproval. intros (call&_&[= <-])%result_bind_ok Hc. split; [|done]. split_and!; cbn; [set_solver|done|].
  unfold textual_map. cbn. destruct (PolicySnapshotEmpty _); [constructor|]. apply Forall_cons_2; [apply snapshot_textual|constructor].
Qed.

Lemma allow_normal c : validateConstraints (NormalizeConstraints c) = true -> normal (allow c).
Proof. intros Hc. split_and!; [cbn; set_solver|done|constructor]. Qed.

Lemma deny_normal reason : normal (deny reason).
Proof. split_and!; [cbn; set_solver|done|constructor]. Qed.

(** ** Commands *)

Lemma scan_hard_deny command o :
  (cc_Action (scanCommandTree command o classifyMachineHardDeny) = ActionDeny /\
   exists text, text ∈ command :: shellCommandPayloads command /\ classifyMachineHardDeny text o = scanCommandTree command o classifyMachineHardDeny) \/
  (scanCommandTree command o classifyMachineHardDeny = no_class /\
   forall text, text ∈ command :: shellCommandPayloads command -> classifyMachineHardDeny text o = no_class).
Proof.
  assert (Hclass : forall text, cc_Action (classifyMachineHardDeny text o) = ActionDeny \/ classifyMachineHardDeny text o = no_class).
  { intros text. unfold classifyMachineHardDeny. cbv zeta. repeat case_match; auto. }
  unfold scanCommandTree. set (texts := command :: shellCommandPayloads command). destruct (List.find _ _) as [class|] eqn:E.
  - left. apply find_some in E as [(text&->&Hin)%list_elem_of_In%list_elem_of_fmap Hne]. cbn [default]. split; [|by exists text].
    cbn beta in *. destruct (Hclass text) as [|E]; [done|]. by rewrite E in Hne.
  - right. split; [done|]. intros text Hin. destruct (Hclass text) as [Ha|]; [|done].
    pose proof (find_none _ _ E (classifyMachineHardDeny text o)) as Hn. rewrite <- list_elem_of_In in Hn.
    specialize (Hn (list_elem_of_fmap_2 (fun text => classifyMachineHardDeny text o) _ _ Hin)). cbn in Hn. by rewrite Ha in Hn.
Qed.

(** The risks of a command that ask for an approval. *)
Definition deletes_inside (command : string) (o : ModeOptions) : Prop :=
  commandContainsRecursiveDelete command = true -> recursiveDeleteTargets command o <> [] /\
  forall t, t ∈ recursiveDeleteTargets command o -> isCatastrophicDeleteTarget t o = true \/ withinAnyRoot t (writableRoots o) = true.

Definition riskless (command : string) (o : ModeOptions) : Prop :=
  (forall g, runs_git command g -> classifyGitCommand g = "") /\ deletes_inside command o /\ remoteScriptExecution command = false.

Lemma out_of_roots_spec command o : outOfRootsRecursiveDeleteReason command o = "" <-> deletes_inside command o.
Proof.
  unfold outOfRootsRecursiveDeleteReason, deletes_inside. destruct (commandContainsRecursiveDelete command); [|split; [by intros _ ?|done]]. cbn [negb].
  destruct (recursiveDeleteTargets command o) as [|t ts]; [split; [done|]; intros Hd; by destruct (Hd eq_refl)|].
  assert (Hne : t :: ts <> []) by done. revert Hne. generalize (t :: ts). clear t ts. intros targets Hne. destruct (existsb _ _) eqn:E.
  - split; [done|]. intros Hd. destruct (Hd eq_refl) as [_ Ht]. apply existsb_exists in E as (t&Hin%list_elem_of_In&[E1 E2]%andb_true_iff).
    apply negb_true_iff in E1, E2. destruct (Ht t Hin); congruence.
  - split; [|done]. intros _ _. split; [done|]. intros t Hin.
    destruct (isCatastrophicDeleteTarget t o) eqn:E1; [by left|]. right. apply not_false_is_true. intros E2.
    apply not_true_iff_false in E. apply E. apply existsb_exists. exists t. rewrite <- list_elem_of_In. by rewrite E1, E2.
Qed.

Lemma git_quiet command : gitCommandApprovalReason command = "" <-> forall g, runs_git command g -> classifyGitCommand g = "".
Proof.
  pose proof (git_reason_iff command) as Hg. split.
  - intros E g Hr. destruct (decide (classifyGitCommand g = "")) as [|Hne]; [done|]. by destruct (proj2 Hg (ex_intro _ g (conj Hr Hne))).
  - intros Hq. destruct (decide (gitCommandApprovalReason command = "")) as [|Hne]; [done|]. apply Hg in Hne as (g&Hr&Hne). by destruct Hne; apply Hq.
Qed.

Lemma riskless_spec command o : (commandRisk command o).1 = "" <-> riskless command o.
Proof.
  unfold riskless, commandRisk. cbv zeta. rewrite <- git_quiet, <- out_of_roots_spec. unfold nonempty.
  destruct (remoteScriptExecution command); [naive_solver|].
  destruct (String.eqb_spec (gitCommandApprovalReason command) "") as [->|]; cbn [negb fst]; [|naive_solver].
  destruct (String.eqb_spec (outOfRootsRecursiveDeleteReason command o) "") as [->|]; cbn [negb fst]; naive_solver.
Qed.

(** No text of the command is denied outright. *)
Definition not_denied (command : string) (o : ModeOptions) : Prop :=
  forall text, text ∈ command :: shellCommandPayloads command -> classifyMachineHardDeny text o = no_class.

(** The three outcomes of a command without a hard deny. *)
Lemma classify_gate command o r d : not_denied command o ->
  classifyRUNCommand command o r d =
    if commandHostApprovalRequired r d then
      if nonempty (sr_Justification r) || negb (sr_SandboxPermissions r =? CommandSandboxPermissionRequireEscalated)
      then MkClass ActionAskApproval (if nonempty (commandRisk command o).1 then (commandRisk command o).1 else "host execution requested")
             (if nonempty (commandRisk command o).2 then (commandRisk command o).2 else riskClassHostExec) hostExecutionConstraints
      else deny_class justification_required riskClassHostExec
    else if nonempty (commandRisk command o).1
    then MkClass ActionAskApproval (commandRisk command o).1 (commandRisk command o).2 (workspaceWriteConstraints o) else no_class.
Proof.
  intros Hn. unfold classifyRUNCommand. cbv zeta. destruct (scan_hard_deny command o) as [(Ha&text&Hin&E)|[-> _]]; [by rewrite <- E, (Hn text Hin) in Ha|].
  cbn [cc_Action no_class]. change ("" =? ActionDeny) with false. cbn match. destruct (commandRisk command o) as [reason risk]. cbn [fst snd].
  unfold approvalGatedCommand, explicitEscalationDenyReason. cbv zeta.
  destruct (commandHostApprovalRequired r d); [|by destruct (nonempty reason)]. rewrite andb_false_r.
  destruct (_ =? CommandSandboxPermissionRequireEscalated); cbn [negb]; [|by rewrite orb_true_r].
  by destruct (nonempty (sr_Justification r)).
Qed.

Lemma classify_denied command o r d text : text ∈ command :: shellCommandPayloads command -> cc_Action (classifyMachineHardDeny text o) = ActionDeny ->
  cc_Action (classifyRUNCommand command o r d) = ActionDeny.
Proof.
  intros Hin Ht. unfold classifyRUNCommand. cbv zeta. destruct (scan_hard_deny command o) as [[Ha _]|[_ Hn]]; [|by rewrite (Hn text Hin) in Ht].
  by rewrite Ha.
Qed.

Lemma denied_or_not command o : not_denied command o \/ exists text, text ∈ command :: shellCommandPayloads command /\ cc_Action (classifyMachineHardDeny text o) = ActionDeny.
Proof. destruct (scan_hard_deny command o) as [(Ha&text&Hin&E)|[_ Hn]]; [right|by left]. exists text. by rewrite E. Qed.

(** ** The mode *)

Lemma mode_normal {JL : JsonLaws} mode decide input d : decide (CloneToolContext input) = Ok d -> normal d ->
  DecideTool mode decide input = Ok (CloneDecision d).
Proof. intros E Hn. unfold DecideTool. rewrite E. cbn [result_bind]. by apply normal_decision. Qed.

Lemma mode_inv mode decide input d : DecideTool mode decide input = Ok d -> exists d0, decide (CloneToolContext input) = Ok d0 /\ d = CloneDecision d0.
Proof.
  unfold DecideTool. intros (d0&E&Hn)%result_bind_ok. exists d0. split; [done|]. unfold NormalizeDecision in Hn. cbv zeta in Hn. repeat case_match; congruence.
Qed.

Lemma command_decided input : policyClass input = builtinPolicyCommand ->
  workspaceWriteDecide input = decideCommand input (workspaceWriteConstraints (tc_Options input)).
Proof. unfold workspaceWriteDecide. cbv zeta. by intros ->. Qed.

Lemma decide_command_some input def command r : commandArg input = Ok command -> parseCommandSandboxRequest input = Ok r ->
  decideCommand input def =
    let class := classifyRUNCommand command (tc_Options input) r (tc_Sandbox input) in
    if cc_Action class =? ActionDeny then Ok (deny (cc_Reason class)) else
    if cc_Action class =? ActionAskApproval then askCommandApproval input r class else Ok (allow def).
Proof. unfold decideCommand. intros -> ->. done. Qed.

Lemma command_args input command : commandArg input = Ok command -> exists args, CallArgs input = Ok args.
Proof. unfold commandArg. intros (args&E&_)%result_bind_ok. by exists args. Qed.

(** Asking always succeeds on decoded arguments. *)
Lemma ask_command input r class args : CallArgs input = Ok args -> validateConstraints (NormalizeConstraints (cc_Constraints class)) = true ->
  exists d, askCommandApproval input r class = Ok d /\ normal d /\ dc_Action d = ActionAskApproval /\ dc_Constraints d = cc_Constraints class.
Proof.
  intros Ha Hc. unfold askCommandApproval. cbv zeta. unfold askApproval. rewrite Ha. cbn [result_bind].
  eexists. split; [done|]. split; [|done]. split; [cbn; set_solver|]. split; [done|]. apply with_metadata_textual.
  - unfold textual_map. cbn [dc_Metadata]. destruct (PolicySnapshotEmpty _); [constructor|]. apply Forall_cons_2; [apply snapshot_textual|constructor].
  - apply Forall_app. split; [|repeat constructor]. unfold approvalMetadata. destruct (nonempty (sr_Justification r)); repeat constructor.
Qed.

(** The constraints of a class that is asked about. *)
Lemma classify_constraints command o r d : cc_Action (classifyRUNCommand command o r d) = ActionAskApproval ->
  validateConstraints (NormalizeConstraints (cc_Constraints (classifyRUNCommand command o r d))) = true.
Proof.
  destruct (denied_or_not command o) as [Hn|(text&Hin&Ht)]; [|by rewrite (classify_denied _ _ _ _ _ Hin Ht)]. rewrite (classify_gate _ _ _ _ Hn).
  repeat case_match; try done. intros _. apply workspace_constraints_valid.
Qed.

(** Every command with decoded arguments gets a decision, of the action of its class. *)
Lemma command_outcome input def command r : commandArg input = Ok command -> parseCommandSandboxRequest input = Ok r ->
  validateConstraints (NormalizeConstraints def) = true ->
  let class := classifyRUNCommand command (tc_Options input) r (tc_Sandbox input) in
  exists d, decideCommand input def = Ok d /\ normal d /\
    (cc_Action class = ActionDeny /\ d = deny (cc_Reason class) \/
     cc_Action class = ActionAskApproval /\ dc_Action d = ActionAskApproval /\ dc_Constraints d = cc_Constraints class \/
     class = no_class /\ d = allow def).
Proof.
  intros Hc Hr Hd class. rewrite (decide_command_some _ _ _ _ Hc Hr). cbv zeta. fold class.
  assert (Hclass : cc_Action class = ActionDeny \/ cc_Action class = ActionAskApproval \/ class = no_class).
  { subst class. destruct (denied_or_not command (tc_Options input)) as [Hn|(text&Hin&Ht)]; [|left; by eapply classify_denied].
    rewrite (classify_gate _ _ _ _ Hn). repeat case_match; auto. }
  destruct Hclass as [Ha|[Ha|Ha]].
  - rewrite Ha. eexists. split; [done|]. split; [apply deny_normal|by left].
  - rewrite Ha. destruct (command_args _ _ Hc) as [args Hargs].
    destruct (ask_command input r class args Hargs) as (d&E&Hn&E1&E2); [by apply classify_constraints|]. exists d. split; [done|]. split; [done|]. right. by left.
  - rewrite Ha. eexists. split; [done|]. split; [by apply allow_normal|by right; right].
Qed.

(** C22: When a command runs without asking.  The workspace-write mode allows a command, as it stands in the decoded
    arguments, if and only if its permissions decode and do not escalate, the sandbox is not the host, no hard deny
    matches the command or the payload of a shell in it, and the classifiers find no risk: no reason in the Git
    commands that [gitCommands] finds in it and in the payloads found, to any depth; no execution of a remote script by
    [remoteScriptExecution]; and, if the outer text has a recursive delete, targets that the outer text names, each
    inside the writable roots or a system root.  Recursive deletes in the payload of a shell are not read
    ([wrapped_delete_unasked]); what the two classifiers see and miss of a script is the matter of [GitPolicy] and [RemoteScript]. *)
Theorem command_allowed_exactly {JL : JsonLaws} (input : ToolContext) (command : string) :
  let i := CloneToolContext input in
  policyClass i = builtinPolicyCommand -> commandArg i = Ok command ->
  (exists d, WorkspaceWriteMode input = Ok d /\ dc_Action d = ActionAllow) <->
  exists r, parseCommandSandboxRequest i = Ok r /\ sr_SandboxPermissions r <> CommandSandboxPermissionRequireEscalated
    /\ DescriptorImpliesHostExecution (tc_Sandbox i) = false /\ not_denied command (tc_Options i) /\ riskless command (tc_Options i).
Proof.
  intros i Hp Hc. unfold WorkspaceWriteMode. split.
  - intros (d&(d0&E&->)%mode_inv&Ha). fold i in E. rewrite (command_decided i Hp) in E. change (trim_space (dc_Action d0) = ActionAllow) in Ha.
    destruct (parseCommandSandboxRequest i) as [r|e] eqn:Hr; [|unfold decideCommand in E; rewrite Hc, Hr in E; by injection E as <-].
    destruct (command_outcome i _ command r Hc Hr (workspace_constraints_valid (tc_Options i))) as (d&E2&_&Hd).
    rewrite E in E2. injection E2 as ->. destruct Hd as [[_ ->]|[(_&Hd&_)|[Hd _]]]; [done|by rewrite Hd in Ha|]. exists r. split; [done|].
    destruct (denied_or_not command (tc_Options i)) as [Hn|(text&Hin&Ht)]; [|pose proof (classify_denied _ _ r (tc_Sandbox i) _ Hin Ht) as Hx; by rewrite Hd in Hx].
    rewrite (classify_gate _ _ _ _ Hn) in Hd. apply (f_equal cc_Action) in Hd. unfold commandHostApprovalRequired in Hd.
    destruct (String.eqb_spec (sr_SandboxPermissions r) CommandSandboxPermissionRequireEscalated); cbn [orb] in Hd; [by destruct (_ || _) in Hd|].
    destruct (DescriptorImpliesHostExecution _); cbn [orb] in Hd; [by destruct (_ || _) in Hd|]. split_and!; [done..|]. apply riskless_spec.
    unfold nonempty in Hd. destruct (String.eqb_spec (commandRisk command (tc_Options i)).1 ""); done.
  - intros (r&Hr&Hs&Hh&Hn&Hk%riskless_spec). exists (CloneDecision (allow (workspaceWriteConstraints (tc_Options i)))). split; [|done].
    apply mode_normal; [|apply allow_normal, workspace_constraints_valid]. fold i. rewrite (command_decided i Hp), (decide_command_some _ _ _ _ Hc Hr).
    cbv zeta. rewrite (classify_gate _ _ _ _ Hn). unfold commandHostApprovalRequired. by rewrite (proj2 (String.eqb_neq _ _) Hs), Hh, Hk.
Qed.

(** C25: A hard deny is final.  When the command, or the payload of a shell in it, is classified as a machine-level
    catastrophe, the mode denies the call whatever permissions and justification it asks for, and the denial carries
    neither constraints nor an approval request. *)
Theorem hard_deny_final {JL : JsonLaws} (input : ToolContext) (command text : string) :
  let i := CloneToolContext input in
  policyClass i = builtinPolicyCommand -> commandArg i = Ok command ->
  text ∈ command :: shellCommandPayloads command -> cc_Action (classifyMachineHardDeny text (tc_Options i)) = ActionDeny ->
  exists reason, WorkspaceWriteMode input = Ok (MkDecision ActionDeny reason no_constraints None None).
Proof.
  intros i Hp Hc Hin Ht.
  assert (E : exists reason, workspaceWriteDecide i = Ok (deny reason)).
  { rewrite (command_decided i Hp). destruct (parseCommandSandboxRequest i) as [r|e] eqn:Hr; [|unfold decideCommand; rewrite Hc, Hr; by eexists].
    rewrite (decide_command_some _ _ _ _ Hc Hr). cbv zeta. rewrite (classify_denied _ _ _ _ _ Hin Ht). by eexists. }
  destruct E as [reason E]. exists (trim_space (trim_space reason)). unfold WorkspaceWriteMode. rewrite (mode_normal _ _ _ _ E (deny_normal reason)). done.
Qed.

(** ** Every tool class *)

Lemma explicit_host_normalized c : ConstraintsRequestExplicitHost (NormalizeConstraints c) = ConstraintsRequestExplicitHost c.
Proof. unfold ConstraintsRequestExplicitHost, NormalizeConstraints. cbn [cn_Backend cn_Route cn_Permission]. by rewrite !trim_space_idem. Qed.

(** A write outside the roots asks for a grant of its paths. *)
Lemma write_outcome input def d : decideFilesystemWrite input def = Ok d ->
  (exists reason, d = deny reason) \/
  exists paths, candidatePaths input = Ok paths /\ Forall (fun p => blocked (approvedOverrideRoots (tc_Options input)) p = false) paths /\
    (d = allow def /\ Forall (fun p => outside (writableRoots (tc_Options input)) p = false) paths \/
     dc_Action d = ActionAskApproval /\ dc_Constraints d = withPathWriteGrants def paths /\ textual_map (dc_Metadata d)).
Proof.
  unfold decideFilesystemWrite. destruct (candidatePaths input) as [paths|e]; [|destruct e; cbn; try done; intros [= <-]; left; by eexists].
  assert (Hfind : forall f : string -> bool, List.find f paths = None -> Forall (fun p => f p = false) paths).
  { intros f Hf. apply Forall_forall. intros p Hp. apply (find_none _ _ Hf). by apply list_elem_of_In. }
  unfold ensurePathsOutsideDefaultHiddenRoots, ensureFilesystemWritePaths. destruct (List.find (blocked _) paths) eqn:Eb; [intros [= <-]; left; by eexists|].
  destruct (List.find (outside _) paths) eqn:Eo.
  - unfold askPathWriteApproval. intros (d0&Ha&[= <-])%result_bind_ok. right. exists paths. split; [done|]. split; [by apply Hfind|]. right.
    revert Ha. unfold askApproval. intros (call&_&[= <-])%result_bind_ok. split_and!; [done..|]. apply with_metadata_textual; [|repeat constructor].
    unfold textual_map. cbn [dc_Metadata]. destruct (PolicySnapshotEmpty _); [constructor|]. apply Forall_cons_2; [apply snapshot_textual|constructor].
  - intros [= <-]. right. exists paths. split; [done|]. split; [by apply Hfind|]. left. split; [done|by apply Hfind].
Qed.

(** Tools other than commands never leave the sandbox. *)
Lemma other_constraints input d : workspaceWriteDecide input = Ok d -> policyClass input <> builtinPolicyCommand ->
  ConstraintsRequestExplicitHost (dc_Constraints d) = false.
Proof.
  intros E Hp. set (o := tc_Options input).
  assert (Hread : forall d, match ensureReadPathsOutsideDefaultHiddenRoots input with Fail e => policyErrorOrDeny e | Ok _ => Ok (allow (workspaceWriteConstraints o)) end = Ok d ->
    ConstraintsRequestExplicitHost (dc_Constraints d) = false).
  { intros d' Hd. destruct (ensureReadPathsOutsideDefaultHiddenRoots input) as [u|e]; [by injection Hd as <-|]. destruct e; cbn in Hd; try done; by injection Hd as <-. }
  unfold workspaceWriteDecide in E. cbv zeta in E. fold o in E. destruct (policyClass input); [by injection E as <-|by apply Hread..| |done].
  apply write_outcome in E as [[reason ->]|(paths&_&_&[[-> _]|(_&->&_)])]; [done..|]. done.
Qed.

(** C24: The host is reached only with an approval.  Whenever the mode's decision has constraints that leave the sandbox,
    it asks for an approval, the call is a command without a hard deny, and the host was asked for by the call's
    permissions, then with a justification, or is implied by the sandbox of the tool. *)
Theorem host_execution_asked (input : ToolContext) (d : Decision) :
  let i := CloneToolContext input in
  WorkspaceWriteMode input = Ok d -> ConstraintsRequestExplicitHost (dc_Constraints d) = true ->
  dc_Action d = ActionAskApproval /\ policyClass i = builtinPolicyCommand /\
  exists command r, commandArg i = Ok command /\ parseCommandSandboxRequest i = Ok r /\ not_denied command (tc_Options i) /\
    (sr_SandboxPermissions r = CommandSandboxPermissionRequireEscalated /\ sr_Justification r <> "" \/
     sr_SandboxPermissions r <> CommandSandboxPermissionRequireEscalated /\ DescriptorImpliesHostExecution (tc_Sandbox i) = true).
Proof.
  intros i (d0&E&->)%mode_inv Hh. fold i in E. change (dc_Constraints (CloneDecision d0)) with (NormalizeConstraints (dc_Constraints d0)) in Hh.
  rewrite explicit_host_normalized in Hh. assert (Hp : policyClass i = builtinPolicyCommand).
  { destruct (policyClass i) eqn:Ep; [..|done]; by rewrite (other_constraints i d0 E) in Hh by (by rewrite Ep). }
  rewrite (command_decided i Hp) in E. destruct (commandArg i) as [command|] eqn:Hc; [|by unfold decideCommand in E; rewrite Hc in E].
  destruct (parseCommandSandboxRequest i) as [r|] eqn:Hr; [|unfold decideCommand in E; rewrite Hc, Hr in E; by injection E as <-].
  destruct (command_outcome i _ command r Hc Hr (workspace_constraints_valid (tc_Options i))) as (d1&E1&_&Hd). rewrite E in E1. injection E1 as <-.
  destruct Hd as [[_ ->]|[(Ha&Ha'&Hcs)|[_ ->]]]; [done| |done]. unfold CloneDecision. cbn [dc_Action]. rewrite Ha'. split; [done|]. split; [done|].
  exists command, r. split; [done|]. split; [done|]. rewrite Hcs in Hh.
  destruct (denied_or_not command (tc_Options i)) as [Hn|(text&Hin&Ht)]; [|pose proof (classify_denied _ _ r (tc_Sandbox i) _ Hin Ht) as Hx; by rewrite Ha in Hx].
  split; [done|]. rewrite (classify_gate _ _ _ _ Hn) in Ha, Hh. unfold commandHostApprovalRequired in *.
  destruct (String.eqb_spec (sr_SandboxPermissions r) CommandSandboxPermissionRequireEscalated) as [Es|Es]; cbn [orb negb] in *.
  - left. split; [done|]. rewrite orb_false_r in Ha. destruct (nonempty (sr_Justification r)) eqn:Ej; [by apply nonempty_spec|done].
  - right. split; [done|]. destruct (DescriptorImpliesHostExecution (tc_Sandbox i)); [done|]. by destruct (nonempty _) in Hh.
Qed.

(** ** Well-formed decisions *)

Lemma clone_rules_idem rules : ClonePathRules (ClonePathRules rules) = ClonePathRules rules.
Proof. unfold ClonePathRules. rewrite map_map. apply map_ext. intros r. cbn [pr_Path pr_Access]. by rewrite !trim_space_idem. Qed.

Lemma normalize_constraints_idem c : NormalizeConstraints (NormalizeConstraints c) = NormalizeConstraints c.
Proof.
  unfold NormalizeConstraints. cbn [cn_Route cn_Backend cn_Permission cn_Isolation cn_Network cn_PathRules]. by rewrite !trim_space_idem, clone_rules_idem.
Qed.

Lemma clone_request_idem r : CloneRequest (CloneRequest r) = CloneRequest r.
Proof.
  unfold CloneRequest. cbn [rq_ToolCall rq_Options ac_ID ac_Name ac_Kind ac_Status ac_RawInput]. rewrite !trim_space_idem, map_map. f_equal. apply map_ext. intros o. cbn [ao_ID ao_Name ao_Kind]. by rewrite !trim_space_idem.
Qed.

Lemma clone_decision_idem d : CloneDecision (CloneDecision d) = CloneDecision d.
Proof.
  unfold CloneDecision. cbn [dc_Action dc_Reason dc_Constraints dc_Metadata dc_Approval]. rewrite !trim_space_idem, normalize_constraints_idem. f_equal.
  destruct (dc_Approval d); cbn; [by rewrite clone_request_idem|done].
Qed.

(** C26: Only well-formed decisions leave a mode, whoever wrote it.  Whatever the decision function of a mode returns,
    the mode answers with one of the three actions and with constraints and metadata that the backends understand, in
    a form that a second normalization, by any mode, leaves unchanged; an empty action is never an implicit allow. *)
Theorem decision_well_formed (mode other : string) (decide : ToolContext -> result PolicyError Decision) (input : ToolContext) (d : Decision) :
  DecideTool mode decide input = Ok d ->
  dc_Action d ∈ [ActionAllow; ActionDeny; ActionAskApproval] /\ validateConstraints (dc_Constraints d) = true
  /\ jsonvalue_ValidateMap (dc_Metadata d) = true /\ NormalizeDecision other d = Ok d.
Proof.
  unfold DecideTool. intros (d0&_&Hn)%result_bind_ok. unfold NormalizeDecision in Hn |- *. cbv zeta in Hn |- *.
  destruct (one_of _ (dc_Action (CloneDecision d0))) eqn:E1; cbn [negb] in Hn; [|by repeat case_match].
  destruct (validateConstraints (dc_Constraints (CloneDecision d0))) eqn:E2; cbn [negb] in Hn; [|done].
  destruct (jsonvalue_ValidateMap (dc_Metadata (CloneDecision d0))) eqn:E3; cbn [negb] in Hn; [|done].
  injection Hn as <-. rewrite clone_decision_idem, E1, E2, E3. split; [by apply one_of_spec|done].
Qed.

(** ** Errors *)

(** The workspace root is absolute, or unknown. *)
Definition rooted_workspace (o : ModeOptions) : Prop := trim_space (mo_WorkspaceRoot o) = "" \/ IsAbs (trim_space (mo_WorkspaceRoot o)) = true.

Lemma resolved_abs value workspace : trim_space workspace = "" \/ IsAbs (trim_space workspace) = true ->
  nonempty (resolvePolicyPath value workspace) = true -> IsAbs (resolvePolicyPath value workspace) = true.
Proof.
  intros Hw. unfold resolvePolicyPath. cbv zeta. destruct (trim_space value =? ""); [done|]. intros _. set (v := if HasPrefix _ _ then _ else _).
  destruct (IsAbs v) eqn:Ev; [by apply Clean_IsAbs|]. apply Clean_IsAbs, path_join_abs.
  destruct (String.eqb_spec (trim_space workspace) ""); [done|]. by destruct Hw.
Qed.

Lemma resolved_paths_abs paths workspace : trim_space workspace = "" \/ IsAbs (trim_space workspace) = true ->
  Forall (fun p => IsAbs p = true) (resolvePathsAgainstWorkspace paths workspace).
Proof.
  intros Hw. apply Forall_forall. intros p [(v&<-&_)%in_map_iff Hne]%list_elem_of_In%filter_In. by apply resolved_abs.
Qed.

Lemma write_paths_abs input paths : policyClass input = builtinPolicyWritePath -> rooted_workspace (tc_Options input) ->
  candidatePaths input = Ok paths -> Forall (fun p => IsAbs p = true) paths.
Proof. intros Hp Hw. unfold candidatePaths. rewrite Hp. intros (args&_&[= <-])%result_bind_ok. by apply resolved_paths_abs. Qed.

(** The decision of a decoded call, or of a tool without a class, is normal. *)
Lemma workspace_decides input : rooted_workspace (tc_Options input) -> is_Some (tc_Args input) \/ policyClass input = builtinPolicyUnknown ->
  exists d, workspaceWriteDecide input = Ok d /\ normal d.
Proof.
  intros Hw Ha. set (def := workspaceWriteConstraints (tc_Options input)). pose proof (workspace_constraints_valid (tc_Options input)) as Hdef. fold def in Hdef.
  destruct (decide (policyClass input = builtinPolicyUnknown)) as [Hp|Hp].
  { exists (allow def). split; [|by apply allow_normal]. unfold workspaceWriteDecide. by rewrite Hp. }
  destruct Ha as [[args Ha]|]; [|done]. assert (Hargs : CallArgs input = Ok args) by (unfold CallArgs; by rewrite Ha).
  assert (Hpaths : exists paths, candidatePaths input = Ok paths) by (unfold candidatePaths; rewrite Hargs; by eexists). destruct Hpaths as [paths Hpaths].
  assert (Hread : exists d, match ensureReadPathsOutsideDefaultHiddenRoots input with Fail e => policyErrorOrDeny e | Ok _ => Ok (allow def) end = Ok d /\ normal d).
  { unfold ensureReadPathsOutsideDefaultHiddenRoots, ensurePathsOutsideDefaultHiddenRoots. rewrite Hpaths. cbn [result_bind].
    destruct (List.find _ paths); [eexists; split; [done|apply deny_normal]|eexists; split; [done|by apply allow_normal]]. }
  unfold workspaceWriteDecide. cbv zeta. fold def. destruct (policyClass input) eqn:Hc; [done|exact Hread..| |].
  - assert (E : exists d, decideFilesystemWrite input def = Ok d).
    { unfold decideFilesystemWrite. rewrite Hpaths. destruct (ensurePathsOutsideDefaultHiddenRoots _ _ _); [|by eexists].
      destruct (ensureFilesystemWritePaths _ _); [by eexists|]. unfold askPathWriteApproval, askApproval. rewrite Hargs. by eexists. }
    destruct E as [d E]. exists d. split; [done|]. apply write_outcome in E as [[reason ->]|(paths'&Hp'&_&[[-> _]|(Ea&Ec&Em)])];
      [apply deny_normal|by apply allow_normal|]. split_and!; [rewrite Ea; set_solver|rewrite Ec; by apply granted_constraints_valid; eapply write_paths_abs|done].
  - assert (Hcmd : exists command, commandArg input = Ok command) by (unfold commandArg; rewrite Hargs; by eexists). destruct Hcmd as [command Hcmd].
    destruct (parseCommandSandboxRequest input) as [r|e] eqn:Hr.
    + destruct (command_outcome input def command r Hcmd Hr Hdef) as (d&E&Hn&_). by exists d.
    + eexists. split; [unfold decideCommand; rewrite Hcmd, Hr; done|apply deny_normal].
Qed.

(** Policy errors fail closed and say why.  With an absolute or unknown workspace root the mode decides every call,
    with one exception: a call of a classified tool whose input does not decode gets the decoding error, and no
    decision.  No other error can occur, so the validation of a decision never rejects what the mode decided. *)
Theorem policy_error_closed {JL : JsonLaws} (input : ToolContext) (e : PolicyError) :
  let i := CloneToolContext input in
  rooted_workspace (tc_Options i) ->
  WorkspaceWriteMode input = Fail e <->
  tc_Args i = None /\ policyClass i <> builtinPolicyUnknown /\ e = ToolInputDecodeError (trim_space (tc_CallName i)).
Proof.
  intros i Hw. destruct (decide (is_Some (tc_Args i) \/ policyClass i = builtinPolicyUnknown)) as [Ha|Ha].
  - destruct (workspace_decides i Hw Ha) as (d&E&Hn). unfold WorkspaceWriteMode. rewrite (mode_normal _ _ _ _ E Hn). split; [done|].
    intros (E1&E2&_). destruct Ha as [[? Ha]|]; [by rewrite Ha in E1|done].
  - assert (Hargs : tc_Args i = None) by (destruct (tc_Args i); [destruct Ha; left; by eexists|done]).
    assert (Hp : policyClass i <> builtinPolicyUnknown) by (intros ?; destruct Ha; by right).
    assert (E : workspaceWriteDecide i = Fail (ToolInputDecodeError (trim_space (tc_CallName i)))).
    { assert (Hc : CallArgs i = Fail (ToolInputDecodeError (trim_space (tc_CallName i)))) by (unfold CallArgs; by rewrite Hargs).
      unfold workspaceWriteDecide. cbv zeta. destruct (policyClass i); [done|..];
        unfold ensureReadPathsOutsideDefaultHiddenRoots, decideFilesystemWrite, decideCommand, commandArg, candidatePaths; by rewrite Hc. }
    unfold WorkspaceWriteMode, DecideTool. fold i. rewrite E. cbn [result_bind]. split; [intros [= <-]; done|intros (_&_&->); done].
Qed.

(** ** Where writes land *)

Lemma abs_not_blank p : IsAbs p = true -> trim_space p <> "".
Proof. intros Hp%trim_space_abs E. by rewrite E in Hp. Qed.

Lemma hidden_root_abs {HL : HostLaws} root : root ∈ defaultHiddenUserRoots -> IsAbs root = true.
Proof.
  unfold defaultHiddenUserRoots. destruct UserHomeDir as [home|] eqn:Eh; [|by intros ?%elem_of_nil]. destruct (trim_space home =? ""); [by intros ?%elem_of_nil|].
  intros (names&->&_)%list_elem_of_fmap. by apply path_join_abs, UserHomeDir_abs.
Qed.

(** The physical location the sensitive paths are tested on. *)
Definition write_target (p : string) : string := ResolvePathWithSymlinks (normalizeTarget p).

Lemma blocked_spec {HL : HostLaws} approved p : IsAbs p = true -> blocked approved p = false ->
  (exists root, root ∈ approved /\ trim_space root <> "" /\ root_place root `prefix_of` place (write_target p)) \/
  (forall root, root ∈ defaultHiddenUserRoots -> ~ root_place root `prefix_of` place (write_target p)).
Proof.
  intros Hp. unfold blocked. cbv zeta. fold (write_target p).
  assert (Ht : canonical (write_target p)) by (apply resolve_canonical, normalizeTarget_canonical, abs_not_blank, Hp).
  pose proof (abs_not_blank _ (proj1 Ht)) as Hne. rewrite (proj2 (String.eqb_neq _ _)) by (intros E; by rewrite E in Ht; destruct Ht).
  destruct (IsWithinRoots (write_target p) approved None) eqn:Ea; [intros _; left; by apply IsWithinRoots_spec|]. cbn [negb andb]. intros Eh.
  right. intros root Hin Hpre. apply not_true_iff_false in Eh. apply Eh. apply IsWithinRoots_spec; [done|]. exists root.
  split; [done|]. split; [by apply abs_not_blank, hidden_root_abs|done].
Qed.

(** C23: A write that is allowed without asking stays inside.  Every path that the call names lies, by the names of its
    physical location, under a writable root or under a scratch root of the system; and it lies under no sensitive
    path of the user's home unless an approved root contains it. *)
Theorem write_stays_inside {HL : HostLaws} (input : ToolContext) (d : Decision) :
  let i := CloneToolContext input in
  rooted_workspace (tc_Options i) -> policyClass i = builtinPolicyWritePath ->
  WorkspaceWriteMode input = Ok d -> dc_Action d = ActionAllow ->
  exists paths, candidatePaths i = Ok paths /\ forall p, p ∈ paths ->
    ((exists root, root ∈ writableRoots (tc_Options i) /\ trim_space root <> "" /\ root_place root `prefix_of` place p) \/
     (exists root, root ∈ scratchRoots None /\ PathIsUnder (physical_path p None) root = true)) /\
    ((exists root, root ∈ approvedOverrideRoots (tc_Options i) /\ trim_space root <> "" /\ root_place root `prefix_of` place (write_target p)) \/
     (forall root, root ∈ defaultHiddenUserRoots -> ~ root_place root `prefix_of` place (write_target p))).
Proof.
  intros i Hw Hp (d0&E&->)%mode_inv Ha. fold i in E. unfold workspaceWriteDecide in E. cbv zeta in E. rewrite Hp in E.
  apply write_outcome in E as [[reason ->]|(paths&Hpaths&Hb&[[-> Ho]|(Ha'&_)])]; [done| |unfold CloneDecision in Ha; cbn [dc_Action] in Ha; by rewrite Ha' in Ha].
  exists paths. split; [done|]. intros p Hin. pose proof (write_paths_abs i paths Hp Hw Hpaths) as Habs. rewrite Forall_forall in Habs, Hb, Ho.
  specialize (Habs p Hin). pose proof (abs_not_blank p Habs) as Hne. split; [|by apply blocked_spec; [|apply Hb]].
  specialize (Ho p Hin). unfold outside in Ho. rewrite (proj2 (String.eqb_neq _ _) Hne) in Ho. cbn [negb andb] in Ho.
  destruct (IsWithinRoots p (writableRoots (tc_Options i)) None) eqn:E1; [left; by apply IsWithinRoots_spec|]. right.
  cbn [negb andb] in Ho. apply negb_false_iff in Ho. unfold IsWithinScratchRoots in Ho. cbv zeta in Ho. apply existsb_exists in Ho as (root&Hr%list_elem_of_In&Hu).
  by exists root.
Qed.
End Props.

(** ** A machine *)

Module Machine.

(** A Linux host without symbolic links whose every path exists; the workspace and the temporary directory are writable. *)
Definition ascii_lower : Lower := {| ToLower := lower_ascii |}.
Definition ascii_fold : Fold := {| EqualFold := fun a b => lower_ascii a =? lower_ascii b |}.
Definition linux : Host := {|
  GOOS := "linux"; Getenv := fun _ => ""; UserHomeDir := Some "/home/u"; UserCacheDir := None; Getwd := "/ws"; TempDir := "/tmp";
  Lstat := fun _ => true; EvalSymlinks := Some; Quote := fun s => s; json_marshals := fun _ => true; reflect_supports := fun _ => false;
|}.
#[local] Existing Instances ascii_lower ascii_fold linux.

#[local] Instance linux_laws : HostLaws.
Proof. split; [intros p q Hp Hq; cbn in Hq; congruence|done|]. intros home E. cbn in E. by injection E as <-. Qed.
#[local] Instance linux_json : JsonLaws.
Proof. by split. Qed.

Definition options : ModeOptions := MkOptions "/ws" "/tmp" [] ["/ws"] None.
Definition sandboxed : Descriptor := MkDescriptor "bwrap" "" no_constraints.
Definition no_snapshot : PolicySnapshot := MkSnapshot "" "" "" "" "" [] [].

(** A call of [RunCommand], and one of [Write]. *)
Definition run (command : string) (more : list (string * GoValue)) : ToolContext :=
  MkToolContext "RunCommand" true "1" "RunCommand" (Some (Some (("command", go_string command) :: more))) sandboxed no_snapshot options.
Definition write (path : string) : ToolContext :=
  MkToolContext "Write" false "1" "Write" (Some (Some [("path", go_string path)])) sandboxed no_snapshot options.
Definition action (input : ToolContext) : string := match WorkspaceWriteMode input with Ok d => dc_Action d | Fail _ => "" end.
Definition escalated (why : string) : list (string * GoValue) :=
  [("justification", go_string why); ("sandbox_permissions", go_string "require_escalated")].

Example allowed_delete : action (run "rm -rf ./build" []) = ActionAllow. Proof. vm_compute. reflexivity. Qed.
Example asked_delete : action (run "rm -rf /data" []) = ActionAskApproval. Proof. vm_compute. reflexivity. Qed.
Example asked_push : action (run "sh -c 'bash -lc git push'" []) = ActionAskApproval. Proof. vm_compute. reflexivity. Qed.
Example denied_home : action (run "rm -rf $HOME" (escalated "clean")) = ActionDeny. Proof. vm_compute. reflexivity. Qed.

Lemma command_allowed_exactly_witness :
  exists d, WorkspaceWriteMode (run "rm -rf ./build" []) = Ok d /\ dc_Action d = ActionAllow.
Proof.
  apply (command_allowed_exactly (run "rm -rf ./build" []) "rm -rf ./build"); [vm_compute; reflexivity..|].
  exists (MkSandboxRequest "use_default" ""). split; [vm_compute; reflexivity|]. split; [vm_compute; discriminate|]. split; [vm_compute; reflexivity|]. split.
  - intros text. change (shellCommandPayloads "rm -rf ./build") with (@nil string). intros ->%list_elem_of_singleton. vm_compute. reflexivity.
  - apply riskless_spec. vm_compute. reflexivity.
Defined.

Lemma hard_deny_final_witness :
  exists reason, WorkspaceWriteMode (run "sh -c 'rm -rf /'" (escalated "clean")) = Ok (MkDecision ActionDeny reason no_constraints None None).
Proof.
  apply (hard_deny_final (run "sh -c 'rm -rf /'" (escalated "clean")) "sh -c 'rm -rf /'" "rm -rf /"); [vm_compute; reflexivity..| |vm_compute; reflexivity].
  change (shellCommandPayloads "sh -c 'rm -rf /'") with ["rm -rf /"]. right. by left.
Defined.

Lemma host_execution_asked_witness :
  exists d, WorkspaceWriteMode (run "make install" (escalated "needs the system prefix")) = Ok d
    /\ ConstraintsRequestExplicitHost (dc_Constraints d) = true /\ dc_Action d = ActionAskApproval.
Proof.
  destruct (WorkspaceWriteMode (run "make install" (escalated "needs the system prefix"))) as [d|e] eqn:E; [|exfalso; vm_compute in E; discriminate].
  assert (Hh : ConstraintsRequestExplicitHost (dc_Constraints d) = true) by (vm_compute in E; injection E as <-; vm_compute; reflexivity).
  exists d. split; [reflexivity|]. split; [exact Hh|]. apply (host_execution_asked _ _ E Hh).
Defined.

Definition undecodable : ToolContext := MkToolContext "Write" false "1" "Write" None sandboxed no_snapshot options.
Lemma decision_well_formed_witness : exists d, DecideTool "plan" workspaceWriteDecide (write "/etc/hosts") = Ok d /\ NormalizeDecision "other" d = Ok d.
Proof.
  destruct (DecideTool "plan" workspaceWriteDecide (write "/etc/hosts")) as [d|e] eqn:E; [|exfalso; vm_compute in E; discriminate].
  exists d. split; [reflexivity|]. apply (decision_well_formed "plan" "other" workspaceWriteDecide (write "/etc/hosts") d E).
Defined.

Lemma policy_error_closed_witness : WorkspaceWriteMode undecodable = Fail (ToolInputDecodeError "Write").
Proof.
  apply (policy_error_closed undecodable (ToolInputDecodeError "Write")); [right; vm_compute; reflexivity|].
  split; [reflexivity|]. split; [vm_compute; discriminate|vm_compute; reflexivity].
Defined.

Lemma write_stays_inside_witness :
  exists paths, candidatePaths (CloneToolContext (write "src/main.go")) = Ok paths /\ forall p, p ∈ paths ->
    ((exists root, root ∈ writableRoots options /\ trim_space root <> "" /\ root_place root `prefix_of` place p) \/
     (exists root, root ∈ scratchRoots None /\ PathIsUnder (physical_path p None) root = true)) /\
    ((exists root, root ∈ approvedOverrideRoots options /\ trim_space root <> "" /\ root_place root `prefix_of` place (write_target p)) \/
     (forall root, root ∈ defaultHiddenUserRoots -> ~ root_place root `prefix_of` place (write_target p))).
Proof.
  destruct (WorkspaceWriteMode (write "src/main.go")) as [d|e] eqn:E; [|exfalso; vm_compute in E; discriminate].
  assert (Ha : dc_Action d = ActionAllow) by (vm_compute in E; injection E as <-; reflexivity).
  refine (write_stays_inside (write "src/main.go") d _ _ E Ha); [right; vm_compute; reflexivity|vm_compute; reflexivity].
Defined.

(** A recursive delete of a directory of the workspace is taken for a delete of a system directory of the same name. *)
Lemma workspace_directory_denied :
  recursiveDeleteTargets "rm -rf bin" options = ["/ws/bin"] /\ withinAnyRoot "/ws/bin" (writableRoots options) = true
  /\ action (run "rm -rf bin" []) = ActionDeny /\ action (run "rm -rf build" []) = ActionAllow.
Proof. vm_compute. by split_and!. Qed.

Definition double_quoted_sh (payload : string) : string := "bash -c " ++ String "034" (payload ++ String "034" "").

(** Recursive deletes behind shells: not asked about in a payload, and not denied in the payload of a payload. *)
Lemma wrapped_delete_unasked :
  action (run "rm -rf /data" []) = ActionAskApproval /\ action (run "bash -c 'rm -rf /data'" []) = ActionAllow
  /\ action (run "bash -c 'rm -rf /'" []) = ActionDeny /\ action (run (double_quoted_sh "sh -c 'rm -rf /'") []) = ActionAllow.
Proof. vm_compute. by split_and!. Qed.
End Machine.
