(* ===== verification/Checkpoint.v ===== *)
(** * The checkpoint contract

    Models [agent-sdk/session/checkpoint_contract.go]: the coverage of a
    checkpoint and its encoding in the metadata of the checkpoint event, where
    integers are canonical decimal strings.  What [encoding/json] does with the
    remaining fields, the type assertion on a [CheckpointData] value and the
    integer value of a [float64] are the operations of [CheckpointCodec]. *)

From Stdlib Require Import ZArith Lia Ascii String.
From stdpp Require Import base option strings list gmap.
From S2P Require Import Prelude GoStrings Fence Events Append IdleCompaction Decimal GoValues.

Local Open Scope string_scope.

Class CheckpointCodec : Type := {
  struct_checkpoint : GoValue -> option CheckpointData;                    (* raw.(CheckpointData) *)
  json_checkpoint : list (string * GoValue) -> option CheckpointData;      (* json.Marshal, then json.Unmarshal *)
  float_integer : string -> option Z;                                      (* the value of an integral float64 *)
}.

Definition CheckpointMetadataKey : string := "compact".

Definition add_tool (out : list string) (name : string) : list string :=
  let name := trim_space name in if (name =? "") || bool_decide (name ∈ out) then out else (out ++ [name])%list.

Definition normalizeDiscoveredTools (names : list string) : list string := fold_left add_tool names [].

Definition normalizeCheckpointData (d : CheckpointData) : CheckpointData :=
  MkCheckpoint (cd_Revision d) (Z.max 0 (cd_ContractVersion d)) (trim_space (cd_SummarizedThroughID d)) (cd_SummarizedThroughSeq d)
    (trim_space (cd_Generator d)) (trim_space (cd_Trigger d)) (Z.max 0 (cd_SourceEventCount d)) (cd_TotalTokens d)
    (cd_ContextWindowTokens d) (normalizeDiscoveredTools (cd_DiscoveredTools d)).

(** ** Encoding *)

(** One assignment of [CheckpointDataValue]; the assignments are listed in the
    order of their keys. *)
Definition entry (present : bool) (key : string) (value : GoValue) : list (string * GoValue) :=
  if present then [(key, value)] else [].
Definition entry_int (key : string) (n : Z) : list (string * GoValue) := entry (negb (Z.eqb n 0)) key (go_string (FormatInt n)).
Definition entry_text (key s : string) : list (string * GoValue) := entry (negb (s =? "")) key (go_string s).
Definition go_strings (l : list string) : GoValue := Node NStrings (map (fun s => ("", go_string s)) l).

Definition CheckpointDataValue (d : CheckpointData) : list (string * GoValue) :=
  let d := normalizeCheckpointData d in
  (entry_int "context_window_tokens" (cd_ContextWindowTokens d) ++ entry_int "contract_version" (cd_ContractVersion d)
   ++ entry (bool_decide (cd_DiscoveredTools d <> [])) "discovered_tools" (go_strings (cd_DiscoveredTools d))
   ++ entry_text "generator" (cd_Generator d) ++ entry_int "revision" (cd_Revision d)
   ++ entry_int "source_event_count" (cd_SourceEventCount d) ++ entry_text "summarized_through_id" (cd_SummarizedThroughID d)
   ++ entry (negb (Z.eqb (cd_SummarizedThroughSeq d) 0)) "summarized_through_seq" (go_string (FormatUint (cd_SummarizedThroughSeq d)))
   ++ entry_int "total_tokens" (cd_TotalTokens d) ++ entry_text "trigger" (cd_Trigger d))%list.

(** ** Decoding *)

Section Decode.
Context `{CC : CheckpointCodec}.

Definition compactUint64 (v : GoValue) : option Z :=
  match v with
  | Leaf KString s | Leaf KNumber s => n ← ParseUint s; if FormatUint n =? s then Some n else None
  | Leaf KInt s => ParseUint s
  | Leaf KFloat s => n ← float_integer s; if ((0 <=? n) && (n <=? 2 ^ 53 - 1))%Z then Some n else None
  | _ => None
  end.

Definition maxInt : Z := 9223372036854775807.

Definition compactIntegerKeys : list string :=
  ["revision"; "contract_version"; "summarized_through_seq"; "source_event_count"; "total_tokens"; "context_window_tokens"].

(** The value of one integer field: its old value when the key is absent. *)
Definition integer_field (limit : Z) (items : list (string * GoValue)) (key : string) (old : Z) : option Z :=
  match assoc key items with
  | None => Some old
  | Some v => n ← compactUint64 v; if (limit <? n)%Z then None else Some n
  end.

Definition decodeCompactIntegers (items : list (string * GoValue)) (d : CheckpointData) : option CheckpointData :=
  revision ← integer_field maxInt items "revision" (cd_Revision d);
  version ← integer_field maxInt items "contract_version" (cd_ContractVersion d);
  count ← integer_field maxInt items "source_event_count" (cd_SourceEventCount d);
  total ← integer_field maxInt items "total_tokens" (cd_TotalTokens d);
  window ← integer_field maxInt items "context_window_tokens" (cd_ContextWindowTokens d);
  seq ← integer_field (u64_modulus - 1) items "summarized_through_seq" (cd_SummarizedThroughSeq d);
  Some (MkCheckpoint revision version (cd_SummarizedThroughID d) seq (cd_Generator d) (cd_Trigger d) count total window (cd_DiscoveredTools d)).

Definition checkpointDataFromMeta (meta : GoMap) : option CheckpointData :=
  raw ← map_index meta CheckpointMetadataKey;
  match struct_checkpoint raw with
  | Some d => Some (normalizeCheckpointData d)
  | None =>
    items ← as_object raw;
    out ← json_checkpoint (fold_left (fun m key => map_delete key m) compactIntegerKeys items);
    d ← decodeCompactIntegers items out;
    Some (normalizeCheckpointData d)
  end.

(** ** Round trip *)

(** The fields [encoding/json] carries. *)
Definition open_fields (id generator trigger : string) (tools : list string) : list (string * GoValue) :=
  (entry (bool_decide (tools <> [])) "discovered_tools" (go_strings tools) ++ entry_text "generator" generator
   ++ entry_text "summarized_through_id" id ++ entry_text "trigger" trigger)%list.

Class CheckpointLaws (portable : string -> Prop) : Prop := {
  map_is_no_struct items : struct_checkpoint (go_object items) = None;
  json_open_fields id generator trigger tools :
    portable id -> portable generator -> portable trigger -> Forall portable tools ->
    json_checkpoint (open_fields id generator trigger tools) = Some (MkCheckpoint 0 0 id 0 generator trigger 0 0 0 tools);
}.

Lemma assoc_entry key present k v rest : assoc key (entry present k v ++ rest)%list = if present && (k =? key) then Some v else assoc key rest.
Proof. by destruct present. Qed.

Lemma delete_entry key present k v rest :
  map_delete key (entry present k v ++ rest)%list = (entry (present && negb (k =? key)) k v ++ map_delete key rest)%list.
Proof. destruct present; simpl; [|done]. by destruct (k =? key). Qed.

Lemma entry_false k v : entry false k v = [].
Proof. done. Qed.

Lemma value_open_fields d : fold_left (fun m key => map_delete key m) compactIntegerKeys (CheckpointDataValue d)
  = let d := normalizeCheckpointData d in
    open_fields (cd_SummarizedThroughID d) (cd_Generator d) (cd_Trigger d) (cd_DiscoveredTools d).
Proof.
  unfold CheckpointDataValue, open_fields. cbv zeta. generalize (normalizeCheckpointData d). clear d. intros d.
  cbn [compactIntegerKeys fold_left]. unfold entry_int, entry_text.
  rewrite <- (app_nil_r (entry (negb (cd_Trigger d =? "")) "trigger" _)). rewrite !delete_entry.
  change (map_delete ?k []) with (@nil (string * GoValue)). cbn [String.eqb Ascii.eqb Bool.eqb negb].
  rewrite ?andb_false_r, ?andb_true_r, ?andb_false_l. rewrite !entry_false. done.
Qed.

Lemma integer_decodes n : (0 <= n <= maxInt)%Z -> compactUint64 (go_string (FormatInt n)) = Some n.
Proof.
  unfold maxInt. intros Hn. unfold FormatInt. destruct (Z.ltb_spec n 0); [lia|]. cbn -[FormatUint ParseUint].
  rewrite ParseUint_FormatUint by (unfold is_u64, u64_modulus; lia). cbn -[FormatUint]. by rewrite String.eqb_refl.
Qed.

Lemma negative_fails n : (n < 0)%Z -> compactUint64 (go_string (FormatInt n)) = None.
Proof. intros Hn. unfold FormatInt. destruct (Z.ltb_spec n 0); [|lia]. done. Qed.

(** What an integer key of the encoding decodes to. *)
Lemma integer_field_int items key n : (0 <= n <= maxInt)%Z ->
  assoc key items = (if negb (Z.eqb n 0) then Some (go_string (FormatInt n)) else None) -> integer_field maxInt items key 0 = Some n.
Proof.
  intros Hn Ha. unfold integer_field. rewrite Ha. destruct (Z.eqb_spec n 0) as [->|Hne]; cbn [negb]; [done|].
  rewrite integer_decodes by done. cbn. destruct (Z.ltb_spec maxInt n); [lia|done].
Qed.

Lemma integer_field_seq items key n : is_u64 n ->
  assoc key items = (if negb (Z.eqb n 0) then Some (go_string (FormatUint n)) else None) ->
  integer_field (u64_modulus - 1) items key 0 = Some n.
Proof.
  intros Hn Ha. unfold integer_field. rewrite Ha. destruct (Z.eqb_spec n 0) as [->|Hne]; cbn [negb]; [done|].
  cbn -[FormatUint ParseUint u64_modulus Z.sub]. rewrite ParseUint_FormatUint by done. cbn -[FormatUint u64_modulus Z.sub].
  rewrite String.eqb_refl. cbn -[u64_modulus Z.sub]. destruct (Z.ltb_spec (u64_modulus - 1) n); [unfold is_u64 in Hn; lia|done].
Qed.

Lemma add_tool_ok out name : Forall (fun s => trim_space s = s /\ s <> "") out -> NoDup out ->
  Forall (fun s => trim_space s = s /\ s <> "") (add_tool out name) /\ NoDup (add_tool out name).
Proof.
  intros Hf Hn. unfold add_tool. destruct (String.eqb_spec (trim_space name) ""); [done|]. simpl. case_bool_decide; [done|].
  split; [apply Forall_app; repeat constructor; auto using trim_space_idem|].
  apply NoDup_app. split_and!; [done|by intros x Hx ->%list_elem_of_singleton|apply NoDup_singleton].
Qed.

Lemma tools_normal names : Forall (fun s => trim_space s = s /\ s <> "") (normalizeDiscoveredTools names) /\ NoDup (normalizeDiscoveredTools names).
Proof.
  unfold normalizeDiscoveredTools. assert (Hgen : forall out, Forall (fun s => trim_space s = s /\ s <> "") out -> NoDup out ->
    Forall (fun s => trim_space s = s /\ s <> "") (fold_left add_tool names out) /\ NoDup (fold_left add_tool names out)).
  { induction names as [|name names IH]; intros out H1 H2; simpl; [done|]. destruct (add_tool_ok out name H1 H2). by apply IH. }
  apply Hgen; [constructor|apply NoDup_nil_2].
Qed.

Lemma tools_fixed out names : Forall (fun s => trim_space s = s /\ s <> "") names -> NoDup (out ++ names) ->
  fold_left add_tool names out = (out ++ names)%list.
Proof.
  revert out. induction names as [|name names IH]; intros out Hf Hn; simpl; [by rewrite app_nil_r|].
  apply Forall_cons in Hf as [[Ht Hne] Hf]. unfold add_tool at 2. rewrite Ht, (proj2 (String.eqb_neq _ _) Hne). simpl.
  rewrite bool_decide_eq_false_2 by (apply NoDup_app in Hn as (_&Hd&_); intros Hin; apply (Hd name Hin), list_elem_of_here).
  rewrite IH; [by rewrite <- (assoc_L (++))|done|]. rewrite <- (assoc_L (++)). done.
Qed.

Lemma normalizeCheckpointData_idem d : normalizeCheckpointData (normalizeCheckpointData d) = normalizeCheckpointData d.
Proof.
  unfold normalizeCheckpointData. cbn [cd_Revision cd_ContractVersion cd_SummarizedThroughID cd_SummarizedThroughSeq cd_Generator cd_Trigger
    cd_SourceEventCount cd_TotalTokens cd_ContextWindowTokens cd_DiscoveredTools]. rewrite !trim_space_idem.
  f_equal; try lia. destruct (tools_normal (cd_DiscoveredTools d)) as [H1 H2]. unfold normalizeDiscoveredTools at 1. by rewrite tools_fixed.
Qed.

(** The integer keys of the encoding. *)
Lemma value_integers d : let m := normalizeCheckpointData d in
  let at_ key n := assoc key (CheckpointDataValue d) = if negb (Z.eqb n 0) then Some (go_string (FormatInt n)) else None in
  at_ "revision" (cd_Revision m) /\ at_ "contract_version" (cd_ContractVersion m) /\ at_ "source_event_count" (cd_SourceEventCount m)
  /\ at_ "total_tokens" (cd_TotalTokens m) /\ at_ "context_window_tokens" (cd_ContextWindowTokens m)
  /\ assoc "summarized_through_seq" (CheckpointDataValue d)
     = if negb (Z.eqb (cd_SummarizedThroughSeq m) 0) then Some (go_string (FormatUint (cd_SummarizedThroughSeq m))) else None.
Proof.
  unfold CheckpointDataValue. cbv zeta. generalize (normalizeCheckpointData d). clear d. intros d. unfold entry_int, entry_text.
  rewrite <- (app_nil_r (entry (negb (cd_Trigger d =? "")) "trigger" _)).
  split_and!; rewrite !assoc_entry; cbn [String.eqb Ascii.eqb Bool.eqb assoc]; by rewrite ?andb_false_r, ?andb_true_r.
Qed.

(** The coverage of a checkpoint survives its metadata.  What [CheckpointDataValue] writes,
    [CheckpointDataFromEvent] reads back as the normalised coverage, for every coverage with counters in the range of
    [int], a 64-bit sequence and texts that JSON carries unchanged; a negative revision or token count is written but
    makes the checkpoint unreadable. *)
Theorem checkpoint_roundtrip (portable : string -> Prop) {L : CheckpointLaws portable} (d : CheckpointData) (meta : GoMap) :
  map_index meta CheckpointMetadataKey = Some (go_object (CheckpointDataValue d)) ->
  let m := normalizeCheckpointData d in
  portable (cd_SummarizedThroughID m) -> portable (cd_Generator m) -> portable (cd_Trigger m) -> Forall portable (cd_DiscoveredTools m) ->
  is_u64 (cd_SummarizedThroughSeq d) ->
  (cd_Revision d <= maxInt)%Z -> (cd_ContractVersion d <= maxInt)%Z -> (cd_SourceEventCount d <= maxInt)%Z ->
  (cd_TotalTokens d <= maxInt)%Z -> (cd_ContextWindowTokens d <= maxInt)%Z ->
  checkpointDataFromMeta meta
  = if ((0 <=? cd_Revision d) && (0 <=? cd_TotalTokens d) && (0 <=? cd_ContextWindowTokens d))%Z then Some m else None.
Proof.
  intros Hm m Hid Hgen Htr Htools Hseq Hrev Hver Hcnt Htot Hwin. unfold checkpointDataFromMeta. rewrite Hm.
  cbn [mbind option_bind]. rewrite map_is_no_struct. cbn [as_object go_object mbind option_bind]. rewrite value_open_fields. cbv zeta.
  rewrite json_open_fields by done. cbn [mbind option_bind].
  destruct (value_integers d) as (E1&E2&E3&E4&E5&E6). cbv zeta in E1, E2, E3, E4, E5, E6. fold m in E1, E2, E3, E4, E5, E6.
  assert (Hneg : forall key n, (n < 0)%Z -> assoc key (CheckpointDataValue d) = (if negb (Z.eqb n 0) then Some (go_string (FormatInt n)) else None) ->
    integer_field maxInt (CheckpointDataValue d) key 0 = None).
  { intros key n Hn Ha. unfold integer_field. rewrite Ha. destruct (Z.eqb_spec n 0); [lia|]. cbn [negb]. by rewrite negative_fails. }
  assert (Hv1 : (0 <= cd_ContractVersion m <= maxInt)%Z) by (unfold m, normalizeCheckpointData, maxInt in *; cbn [cd_ContractVersion]; lia).
  assert (Hv2 : (0 <= cd_SourceEventCount m <= maxInt)%Z) by (unfold m, normalizeCheckpointData, maxInt in *; cbn [cd_SourceEventCount]; lia).
  unfold decodeCompactIntegers. cbn [cd_Revision cd_ContractVersion cd_SourceEventCount cd_TotalTokens cd_ContextWindowTokens
    cd_SummarizedThroughSeq cd_SummarizedThroughID cd_Generator cd_Trigger cd_DiscoveredTools].
  destruct (Z.leb_spec 0 (cd_Revision d)) as [H1|H1]; [|by rewrite (Hneg _ _ H1 E1)]. simpl andb.
  rewrite (integer_field_int _ _ (cd_Revision m) (conj H1 Hrev) E1). cbn [mbind option_bind].
  rewrite (integer_field_int _ _ (cd_ContractVersion m) Hv1 E2). cbn [mbind option_bind].
  rewrite (integer_field_int _ _ (cd_SourceEventCount m) Hv2 E3). cbn [mbind option_bind].
  destruct (Z.leb_spec 0 (cd_TotalTokens d)) as [H2|H2]; [|by rewrite (Hneg _ _ H2 E4)]. simpl andb.
  rewrite (integer_field_int _ _ (cd_TotalTokens m) (conj H2 Htot) E4). cbn [mbind option_bind].
  destruct (Z.leb_spec 0 (cd_ContextWindowTokens d)) as [H3|H3]; [|by rewrite (Hneg _ _ H3 E5)].
  rewrite (integer_field_int _ _ (cd_ContextWindowTokens m) (conj H3 Hwin) E5). cbn [mbind option_bind].
  rewrite (integer_field_seq _ _ (cd_SummarizedThroughSeq m) Hseq E6). cbn [mbind option_bind]. f_equal.
  exact (normalizeCheckpointData_idem d).
Qed.
End Decode.

(** ** A concrete encoding *)

Definition strings_of (v : GoValue) : list string :=
  match v with Node NStrings items => omap (fun x => as_string (snd x)) items | _ => [] end.

#[local] Instance plain_checkpoints : CheckpointCodec := {
  struct_checkpoint _ := None;
  json_checkpoint items := Some (MkCheckpoint 0 0 (string_field "summarized_through_id" items) 0 (string_field "generator" items)
    (string_field "trigger" items) 0 0 0 (default [] (strings_of <$> assoc "discovered_tools" items)));
  float_integer _ := None;
}.

Lemma strings_of_go l : strings_of (go_strings l) = l.
Proof. unfold go_strings, strings_of. induction l as [|s l IH]; [done|]. cbn. by f_equal. Qed.

#[local] Instance plain_laws : CheckpointLaws (fun _ => True).
Proof.
  split; [done|]. intros id gen tr tools _ _ _ _. unfold json_checkpoint, plain_checkpoints, open_fields, string_field, entry_text.
  rewrite <- (app_nil_r (entry (negb (tr =? "")) "trigger" _)). rewrite !assoc_entry. cbn [String.eqb Ascii.eqb Bool.eqb assoc].
  rewrite ?andb_false_r, ?andb_true_r.
  assert (Ht : forall s, default "" ((if negb (s =? "") then Some (go_string s) else None) ≫= as_string) = s) by (by intros []).
  rewrite !Ht. do 2 f_equal. case_bool_decide as H; [exact (strings_of_go tools)|]. by destruct tools; [|destruct H].
Qed.

Definition sample_coverage : CheckpointData := MkCheckpoint 3 1 " e9 " 9 "model" "idle" 7 12000 200000 ["grep"; " grep"; ""].

Lemma checkpoint_roundtrip_witness :
  checkpointDataFromMeta (Some [(CheckpointMetadataKey, go_object (CheckpointDataValue sample_coverage))])
  = Some (MkCheckpoint 3 1 "e9" 9 "model" "idle" 7 12000 200000 ["grep"]).
Proof.
  rewrite (checkpoint_roundtrip (fun _ => True) sample_coverage (Some [(CheckpointMetadataKey, go_object (CheckpointDataValue sample_coverage))]));
    try (vm_compute; done); try (vm_compute; discriminate). by apply Forall_true.
Defined.
