(* ===== verification/Payload.v ===== *)
(** * Event payloads

    The payload structs of a Session event ([agent-sdk/session/event.go],
    [protocol.go], [semantic.go], [child_origin.go], [permission_context.go],
    [diff_content.go], [usage.go], [agent-sdk/model/model.go]) and the functions
    that copy them ([clone.go] and its neighbours).  A nil and an empty slice
    are the same list where the copy makes both nil; where the copy keeps the
    difference the field is an [option].  A [map[string]any] is a [GoMap], a
    [json.RawMessage] its bytes. *)

From Stdlib Require Import ZArith Lia Ascii String.
From stdpp Require Import base option strings list.
From S2P Require Import Prelude GoStrings Fence Execution Utf8Stream Runes ApprovalSubject GoValues.

Local Open Scope string_scope.

(** ** Origin of an event *)

Record ActorRef : Type := MkActor { ac_Kind : string; ac_ID : string; ac_Role : string; ac_Name : string }.
Record ControllerRef : Type := MkControllerRef { cr_Kind : string; cr_ID : string; cr_EpochID : string }.
Record ParticipantRef : Type := MkParticipantRef { pr_ID : string; pr_Kind : string; pr_Role : string; pr_DelegationID : string }.
Record ACPRef : Type := MkACPRef { ar_SessionID : string; ar_EventType : string }.
Record EventScope : Type := MkScope {
  sc_TurnID : string; sc_Source : string; sc_Executor : ActorRef; sc_Controller : ControllerRef;
  sc_Participant : ParticipantRef; sc_ACP : ACPRef;
}.
Record EventInvocation : Type := MkInvocation {
  in_Provider : string; in_Model : string; in_ContextWindowTokens : Z;
  in_PromptPrefixFingerprint : string; in_PromptPrefixTokens : Z;
}.
Record EventChildOrigin : Type := MkChildOrigin {
  co_Scope : string; co_ScopeID : string; co_TaskID : string; co_DelegationID : string; co_ParticipantID : string;
  co_ACPSessionID : string; co_SourceEventID : string; co_ParentCallID : string; co_ParentName : string;
}.
(** [Amount] is a float64, by its bits. *)
Record ContextUsageCost : Type := MkCost { cc_Amount : Z; cc_Currency : string; cc_Meta : list (string * string) }.
Record ContextUsageSnapshot : Type := MkUsage {
  cu_Size : Z; cu_Used : Z; cu_Cost : option ContextUsageCost; cu_Meta : list (string * string);
}.

Definition CloneActorRef (a : ActorRef) : ActorRef :=
  MkActor (ac_Kind a) (trim_space (ac_ID a)) (trim_space (ac_Role a)) (trim_space (ac_Name a)).

Definition CloneEventScope (s : EventScope) : EventScope :=
  MkScope (trim_space (sc_TurnID s)) (trim_space (sc_Source s)) (CloneActorRef (sc_Executor s))
    (MkControllerRef (cr_Kind (sc_Controller s)) (trim_space (cr_ID (sc_Controller s))) (trim_space (cr_EpochID (sc_Controller s))))
    (MkParticipantRef (trim_space (pr_ID (sc_Participant s))) (pr_Kind (sc_Participant s)) (pr_Role (sc_Participant s))
       (trim_space (pr_DelegationID (sc_Participant s))))
    (MkACPRef (trim_space (ar_SessionID (sc_ACP s))) (trim_space (ar_EventType (sc_ACP s)))).

Definition CloneEventInvocation (i : EventInvocation) : EventInvocation :=
  MkInvocation (trim_space (in_Provider i)) (trim_space (in_Model i)) (in_ContextWindowTokens i)
    (trim_space (in_PromptPrefixFingerprint i)) (in_PromptPrefixTokens i).

Definition CloneEventChildOrigin (o : EventChildOrigin) : EventChildOrigin :=
  MkChildOrigin (co_Scope o) (trim_space (co_ScopeID o)) (trim_space (co_TaskID o)) (trim_space (co_DelegationID o))
    (trim_space (co_ParticipantID o)) (trim_space (co_ACPSessionID o)) (trim_space (co_SourceEventID o))
    (trim_space (co_ParentCallID o)) (trim_space (co_ParentName o)).

Definition CloneContextUsageSnapshot (u : ContextUsageSnapshot) : ContextUsageSnapshot :=
  MkUsage (cu_Size u) (cu_Used u)
    ((fun c => MkCost (cc_Amount c) (trim_space (cc_Currency c)) (cc_Meta c)) <$> cu_Cost u) (cu_Meta u).

Definition ActorRefHasIdentity (a : ActorRef) : bool :=
  negb (ac_Kind a =? "") || negb (trim_space (ac_ID a) =? "") || negb (trim_space (ac_Name a) =? "").

Definition EventChildScopeSubagent : string := "subagent".
Definition EventChildScopeParticipant : string := "participant".

Definition ValidateEventChildOrigin (origin : EventChildOrigin) : result string unit :=
  let o := CloneEventChildOrigin origin in
  if negb ((co_Scope o =? EventChildScopeSubagent) || (co_Scope o =? EventChildScopeParticipant))
  then Fail "child origin scope is invalid" else
  if co_ScopeID o =? "" then Fail "child origin scope_id is required" else
  if co_SourceEventID o =? "" then Fail "child origin source_event_id is required" else
  if co_Scope o =? EventChildScopeSubagent then
    if (co_TaskID o =? "") && (co_DelegationID o =? "") then Fail "subagent child origin task or delegation id is required" else
    if (co_ParentCallID o =? "") && negb (co_ParentName o =? "")
    then Fail "subagent child origin named parent tool call is required" else Ok tt
  else Ok tt.

(** [strings.ContainsAny(value, "\r\n")]. *)
Definition multi_line (s : string) : bool :=
  existsb (fun a => Ascii.eqb a "010"%char || Ascii.eqb a "013"%char) (list_ascii_of_string s).

(** ** Model messages *)

Record CitationSource : Type := MkSource {
  cs_RefID : string; cs_Title : string; cs_URL : string; cs_Snippet : string; cs_Source : string; cs_PublishedAt : string;
}.
Record Citation : Type := MkCitation { ci_StartIndex : Z; ci_EndIndex : Z; ci_Sources : list CitationSource }.
Record TextPart : Type := MkTextPart { tp_Text : string; tp_Citations : list Citation }.
Record ReplayMeta : Type := MkReplay { rm_Provider : string; rm_Kind : string; rm_Token : string }.
Record ReasoningPart : Type := MkReasoning {
  rp_VisibleText : option string; rp_Visibility : string; rp_Replay : option ReplayMeta;
  rp_ProviderDetails : option (list (string * string));
}.
Record ToolUsePart : Type := MkToolUse {
  tu_ID : string; tu_Name : string; tu_Input : string; tu_Replay : option ReplayMeta;
  tu_ProviderDetails : option (list (string * string));
}.
Record MediaSource : Type := MkMediaSource {
  md_Kind : string; md_Data : string; md_URI : string; md_FileID : string; md_LocalRef : string;
}.
Record MediaPart : Type := MkMedia { mp_Modality : string; mp_Source : MediaSource; mp_MimeType : string; mp_Name : string }.
Record FileRefPart : Type := MkFileRef {
  fr_Name : string; fr_MimeType : string; fr_URI : string; fr_FileID : string; fr_LocalRef : string;
}.
Record MessageOrigin : Type := MkOrigin {
  mo_Provider : string; mo_Model : string; mo_RawFinishReason : string; mo_CreatedAt : string;
}.
(** [ToolResultPart] without its content. *)
Record ToolResultHead : Type := MkResultHead { tr_ToolUseID : string; tr_Name : string; tr_IsError : bool }.

(** A part without a tool result. *)
Record PartHead : Type := MkHead {
  ph_Kind : string; ph_Text : option TextPart; ph_Reasoning : option ReasoningPart; ph_ToolUse : option ToolUsePart;
  ph_Media : option MediaPart; ph_JSON : option string; ph_FileRef : option FileRefPart;
}.

(** The content of a tool result is a list of parts; it is empty without one. *)
Inductive Part : Type := MkPart (head : PartHead) (tool_result : option ToolResultHead) (content : list Part).

Record Message : Type := MkMessage { m_Role : string; m_Parts : list Part; m_Origin : option MessageOrigin }.

Definition part_head (p : Part) : PartHead := match p with MkPart h _ _ => h end.
Definition part_result (p : Part) : option (ToolResultHead * list Part) :=
  match p with MkPart _ (Some r) c => Some (r, c) | MkPart _ None _ => None end.

Definition cloneCitations (l : list Citation) : list Citation :=
  map (fun c => MkCitation (ci_StartIndex c) (ci_EndIndex c) (ci_Sources c)) l.

Definition clone_head (h : PartHead) : PartHead :=
  MkHead (ph_Kind h) ((fun t => MkTextPart (tp_Text t) (cloneCitations (tp_Citations t))) <$> ph_Text h)
    (ph_Reasoning h) (ph_ToolUse h) (ph_Media h) (ph_JSON h) (ph_FileRef h).

Fixpoint clone_part (p : Part) : Part :=
  match p with MkPart h r content => MkPart (clone_head h) r (map clone_part content) end.

Definition CloneParts (parts : list Part) : list Part := map clone_part parts.

Definition CloneMessage (m : Message) : Message := MkMessage (m_Role m) (CloneParts (m_Parts m)) (m_Origin m).

Definition newline : string := String "010"%char "".

Definition TextContent (m : Message) : string :=
  String.concat newline (List.filter (fun t => negb (t =? "")) (omap (fun p => tp_Text <$> ph_Text (part_head p)) (m_Parts m))).

Definition ToolUses (m : Message) : list ToolUsePart := omap (fun p => ph_ToolUse (part_head p)) (m_Parts m).
Definition ToolResults (m : Message) : list (ToolResultHead * list Part) := omap part_result (m_Parts m).

(** ** Tools and plans *)

Record ProtocolDiffChange : Type := MkDiffChange {
  dc_Operation : string; dc_Path : string; dc_OldPath : option string; dc_FileType : option string;
  dc_MimeType : option string; dc_Meta : GoMap;
}.
Record ProtocolDiffPatch : Type := MkDiffPatch { dp_Meta : GoMap; dp_Format : string; dp_Text : string }.

Record EventToolContent : Type := MkToolContent {
  ec_Type : string; ec_Text : string; ec_TerminalID : string; ec_Path : string; ec_OldText : option string;
  ec_NewText : string; ec_Changes : option (list ProtocolDiffChange); ec_Patch : option ProtocolDiffPatch; ec_Meta : GoMap;
}.
Record ToolLocation : Type := MkLocation { lo_Path : string; lo_Line : option Z }.

Record EventTool : Type := MkTool {
  et_ModelCall : option ToolCall; et_ID : string; et_TurnComplete : bool; et_Name : string; et_Kind : string;
  et_Title : string; et_Status : string; et_Input : GoMap; et_Output : GoMap;
  et_Content : list EventToolContent; et_Locations : list ToolLocation;
}.

(** Deep copies: the identity on values. *)
Definition CloneProtocolDiffChanges (l : option (list ProtocolDiffChange)) : option (list ProtocolDiffChange) :=
  map (fun c => MkDiffChange (dc_Operation c) (dc_Path c) (dc_OldPath c) (dc_FileType c) (dc_MimeType c) (dc_Meta c)) <$> l.
Definition CloneProtocolDiffPatch (p : option ProtocolDiffPatch) : option ProtocolDiffPatch :=
  (fun p => MkDiffPatch (dp_Meta p) (dp_Format p) (dp_Text p)) <$> p.

(** The literal of [CloneEventTool] lists the fields it copies: [TurnComplete]
    is not among them. *)
Definition CloneEventTool (t : EventTool) : EventTool :=
  MkTool (et_ModelCall t) (et_ID t) false (trim_space (et_Name t)) (trim_space (et_Kind t)) (trim_space (et_Title t))
    (trim_space (et_Status t)) (et_Input t) (et_Output t)
    (map (fun c => MkToolContent (trim_space (ec_Type c)) (ec_Text c) (trim_space (ec_TerminalID c)) (trim_space (ec_Path c))
            (ec_OldText c) (ec_NewText c) (CloneProtocolDiffChanges (ec_Changes c)) (CloneProtocolDiffPatch (ec_Patch c)) (ec_Meta c))
       (et_Content t))
    (map (fun l => MkLocation (trim_space (lo_Path l)) (lo_Line l)) (et_Locations t)).

(** [EventPlanEntry] and [ProtocolPlanEntry]. *)
Record PlanEntry : Type := MkPlanEntry { pe_Content : string; pe_Status : string; pe_Priority : string }.

Definition clone_plan_entry (e : PlanEntry) : PlanEntry :=
  MkPlanEntry (trim_space (pe_Content e)) (trim_space (pe_Status e)) (trim_space (pe_Priority e)).

(** [EventPlanPayload]: its entries, nil or not. *)
Definition cloneEventPlanPayload (entries : option (list PlanEntry)) : option (list PlanEntry) := map clone_plan_entry <$> entries.

(** ** The protocol payload *)

Record ProtocolApprovalOption : Type := MkApprovalOption { po_ID : string; po_Name : string; po_Kind : string }.

(** The elements of [Content] are structs, [NContent] nodes. *)
Record ProtocolToolCall : Type := MkProtocolToolCall {
  pt_ID : string; pt_Name : string; pt_NamePresent : option bool; pt_Kind : string; pt_Title : string; pt_Status : string;
  pt_RawInput : GoMap; pt_RawOutput : GoMap; pt_Content : option (list GoValue);
}.
Record PermissionContext : Type := MkPermission {
  px_Title : string; px_Description : option string; px_RawSubject : string; px_NativeRequestID : string;
  px_DisplaySubjectHint : option ApprovalSubject;
}.
Record ProtocolApproval : Type := MkApproval {
  pa_ToolCall : ProtocolToolCall; pa_Options : list ProtocolApprovalOption; pa_Subject : option ApprovalSubject;
  pa_Context : option PermissionContext;
}.
Record ProtocolUpdate : Type := MkUpdate {
  pu_SessionUpdate : string; pu_Content : GoValue; pu_MessageID : string; pu_Replacement : bool; pu_PreviouslyObserved : bool;
  pu_ReplacedFields : option (list string); pu_ToolCallID : string; pu_Name : option string; pu_Title : string;
  pu_Kind : string; pu_Status : string; pu_RawInput : GoMap; pu_RawOutput : GoMap;
  pu_Locations : list ToolLocation; pu_Entries : list PlanEntry; pu_Meta : GoMap;
}.
Record EventProtocol : Type := MkProtocol {
  ep_Method : string; ep_Update : option ProtocolUpdate; ep_Permission : option ProtocolApproval;
  ep_AgentCommunication : option string;
}.

Definition ProtocolMethodSessionUpdate : string := "session/update".
Definition ProtocolMethodRequestPermission : string := "session/request_permission".
Definition ProtocolMethodParticipantUpdate : string := "caelis/participant".
Definition ProtocolMethodControllerHandoff : string := "caelis/handoff".
Definition ProtocolMethodRuntimeLifecycle : string := "caelis/lifecycle".
Definition ProtocolMethodContextCheckpoint : string := "caelis/context_checkpoint".
Definition ProtocolMethodAgentCommunication : string := "caelis/agent_communication".

Definition ProtocolUpdateTypeUserMessage : string := "user_message_chunk".
Definition ProtocolUpdateTypeAgentMessage : string := "agent_message_chunk".
Definition ProtocolUpdateTypeAgentThought : string := "agent_thought_chunk".
Definition ProtocolUpdateTypeToolCall : string := "tool_call".
Definition ProtocolUpdateTypeToolUpdate : string := "tool_call_update".
Definition ProtocolUpdateTypePlan : string := "plan".

(** The trimmed string fields of a [ProtocolToolCallContent]. *)
Definition trimmed_field (name : string) : bool := (name =? "Type") || (name =? "TerminalID") || (name =? "Path").
Definition trim_leaf (v : GoValue) : GoValue := match v with Leaf KString s => Leaf KString (trim_space s) | _ => v end.

(** [cloneProtocolAny], and [cloneProtocolToolCallContents] on an element when
    [element] is set: maps are copied as they are, slices and tool contents
    element by element. *)
Fixpoint clone_any (element : bool) (v : GoValue) : GoValue :=
  match v with
  | Leaf _ _ => v
  | Node kind items =>
    match kind, element with
    | NSlice, false => Node NSlice (map (fun x => (fst x, clone_any false (snd x))) items)
    | NContents, false => Node NContents (map (fun x => (fst x, clone_any true (snd x))) items)
    | NContent, true =>
      Node NContent (map (fun x => (fst x, if fst x =? "Content" then clone_any false (snd x)
                                           else if trimmed_field (fst x) then trim_leaf (snd x) else snd x)) items)
    | _, _ => v
    end
  end.

Definition cloneProtocolAny (v : GoValue) : GoValue := clone_any false v.
Definition cloneProtocolToolCallContents (l : option (list GoValue)) : option (list GoValue) := map (clone_any true) <$> l.

Definition cloneProtocolToolCall (c : ProtocolToolCall) : ProtocolToolCall :=
  MkProtocolToolCall (trim_space (pt_ID c))
    (match pt_NamePresent c with Some true => pt_Name c | _ => trim_space (pt_Name c) end) (pt_NamePresent c)
    (trim_space (pt_Kind c)) (trim_space (pt_Title c)) (trim_space (pt_Status c)) (pt_RawInput c) (pt_RawOutput c)
    (cloneProtocolToolCallContents (pt_Content c)).

Definition ClonePermissionContext (c : PermissionContext) : PermissionContext :=
  MkPermission (px_Title c) (px_Description c) (px_RawSubject c) (px_NativeRequestID c)
    (CloneApprovalSubject <$> px_DisplaySubjectHint c).

Definition cloneProtocolApproval (a : ProtocolApproval) : ProtocolApproval :=
  let call := cloneProtocolToolCall (pa_ToolCall a) in
  let raw := pa_ToolCall a in
  let context := match pa_Context a with Some _ => true | None => false end in
  MkApproval
    (if context then
       MkProtocolToolCall (pt_ID raw) (pt_Name raw) (pt_NamePresent call) (pt_Kind raw) (pt_Title raw) (pt_Status raw)
         (pt_RawInput call) (pt_RawOutput call) (pt_Content call)
     else call)
    (map (fun o => MkApprovalOption (trim_space (po_ID o)) (if context then po_Name o else trim_space (po_Name o))
                     (trim_space (po_Kind o))) (pa_Options a))
    (CloneApprovalSubject <$> pa_Subject a) (ClonePermissionContext <$> pa_Context a).

Definition cloneProtocolUpdate (u : ProtocolUpdate) : ProtocolUpdate :=
  MkUpdate (trim_space (pu_SessionUpdate u)) (cloneProtocolAny (pu_Content u)) (pu_MessageID u) (pu_Replacement u)
    (pu_PreviouslyObserved u) (pu_ReplacedFields u) (pu_ToolCallID u) (pu_Name u) (trim_space (pu_Title u))
    (trim_space (pu_Kind u)) (trim_space (pu_Status u)) (pu_RawInput u) (pu_RawOutput u) (pu_Locations u)
    (map clone_plan_entry (pu_Entries u)) (pu_Meta u).

Definition CloneEventProtocol (p : EventProtocol) : EventProtocol :=
  let method := trim_space (ep_Method p) in
  MkProtocol
    (if negb (method =? "") then method else
     match ep_AgentCommunication p, ep_Permission p, ep_Update p with
     | Some _, _, _ => ProtocolMethodAgentCommunication
     | None, Some _, _ => ProtocolMethodRequestPermission
     | None, None, Some _ => ProtocolMethodSessionUpdate
     | None, None, None => method
     end)
    (cloneProtocolUpdate <$> ep_Update p) (cloneProtocolApproval <$> ep_Permission p)
    (trim_space <$> ep_AgentCommunication p).

(** ** Decidable equality *)

Lemma Part_ind' (P : Part -> Prop) :
  (forall h r content, Forall P content -> P (MkPart h r content)) -> forall p, P p.
Proof.
  intros H. fix IH 1. intros [h r content]. apply H. induction content as [|p content IHc]; constructor; [apply IH|apply IHc].
Qed.

Global Instance ActorRef_eq_dec : EqDecision ActorRef.
Proof. solve_decision. Defined.
Global Instance EventScope_eq_dec : EqDecision EventScope.
Proof.
  assert (EqDecision ControllerRef) by solve_decision. assert (EqDecision ParticipantRef) by solve_decision.
  assert (EqDecision ACPRef) by solve_decision. solve_decision.
Defined.
Global Instance EventInvocation_eq_dec : EqDecision EventInvocation.
Proof. solve_decision. Defined.
Global Instance EventChildOrigin_eq_dec : EqDecision EventChildOrigin.
Proof. solve_decision. Defined.
Global Instance ContextUsageSnapshot_eq_dec : EqDecision ContextUsageSnapshot.
Proof. assert (EqDecision ContextUsageCost) by solve_decision. solve_decision. Defined.
Global Instance ReplayMeta_eq_dec : EqDecision ReplayMeta.
Proof. solve_decision. Defined.
Global Instance PartHead_eq_dec : EqDecision PartHead.
Proof.
  assert (EqDecision CitationSource) by solve_decision. assert (EqDecision Citation) by solve_decision.
  assert (EqDecision TextPart) by solve_decision. assert (EqDecision ReasoningPart) by solve_decision.
  assert (EqDecision ToolUsePart) by solve_decision. assert (EqDecision MediaSource) by solve_decision.
  assert (EqDecision MediaPart) by solve_decision. assert (EqDecision FileRefPart) by solve_decision. solve_decision.
Defined.
Global Instance ToolResultHead_eq_dec : EqDecision ToolResultHead.
Proof. solve_decision. Defined.
Global Instance Part_eq_dec : EqDecision Part.
Proof.
  refine (fix go (a b : Part) {struct a} : Decision (a = b) :=
    match a, b with
    | MkPart h r l, MkPart h' r' l' =>
      cast_if_and3 (decide (h = h')) (decide (r = r'))
        ((fix items (l l' : list Part) {struct l} : Decision (l = l') :=
            match l, l' with
            | [], [] => left _
            | x :: l, x' :: l' => cast_if_and (go x x') (items l l')
            | _, _ => right _
            end) l l')
    end); clear go; abstract congruence.
Defined.
Global Instance Message_eq_dec : EqDecision Message.
Proof. assert (EqDecision MessageOrigin) by solve_decision. solve_decision. Defined.
Global Instance ToolCall_eq_dec : EqDecision ToolCall.
Proof. solve_decision. Defined.
Global Instance ToolLocation_eq_dec : EqDecision ToolLocation.
Proof. solve_decision. Defined.
Global Instance EventTool_eq_dec : EqDecision EventTool.
Proof.
  assert (EqDecision ProtocolDiffChange) by solve_decision. assert (EqDecision ProtocolDiffPatch) by solve_decision.
  assert (EqDecision EventToolContent) by solve_decision. solve_decision.
Defined.
Global Instance PlanEntry_eq_dec : EqDecision PlanEntry.
Proof. solve_decision. Defined.
Global Instance ProtocolApproval_eq_dec : EqDecision ProtocolApproval.
Proof.
  assert (EqDecision ProtocolApprovalOption) by solve_decision. assert (EqDecision ProtocolToolCall) by solve_decision.
  assert (EqDecision PermissionContext) by solve_decision. solve_decision.
Defined.
Global Instance EventProtocol_eq_dec : EqDecision EventProtocol.
Proof. assert (EqDecision ProtocolUpdate) by solve_decision. solve_decision. Defined.
Global Instance JournalEntry_eq_dec {A M} `{EqDecision A, EqDecision M} : EqDecision (ExecutionJournalEntry A M).
Proof.
  assert (EqDecision ExecutionRecord) by solve_decision. assert (EqDecision ExecutionKey) by solve_decision.
  assert (EqDecision Binding) by solve_decision. assert (EqDecision ToolExecution) by solve_decision.
  assert (EqDecision (PauseToken A M)) by solve_decision. solve_decision.
Defined.

(** ** A copy of a copy is the copy *)

Lemma map_idem {A} (f : A -> A) l : (forall x, f (f x) = f x) -> map f (map f l) = map f l.
Proof. intros H. rewrite map_map. by apply map_ext. Qed.

Lemma fmap_idem {A} (f : A -> A) (o : option A) : (forall x, f (f x) = f x) -> f <$> (f <$> o) = f <$> o.
Proof. intros H. destruct o; simpl; [by rewrite H|done]. Qed.

Create Rewrite HintDb clone.
#[export] Hint Rewrite trim_space_idem : clone.

Lemma CloneActorRef_idem a : CloneActorRef (CloneActorRef a) = CloneActorRef a.
Proof. unfold CloneActorRef. simpl. by autorewrite with clone. Qed.
#[export] Hint Rewrite CloneActorRef_idem : clone.

Lemma CloneEventScope_idem s : CloneEventScope (CloneEventScope s) = CloneEventScope s.
Proof. unfold CloneEventScope. simpl. by autorewrite with clone. Qed.

Lemma CloneEventInvocation_idem i : CloneEventInvocation (CloneEventInvocation i) = CloneEventInvocation i.
Proof. unfold CloneEventInvocation. simpl. by autorewrite with clone. Qed.

Lemma CloneEventChildOrigin_idem o : CloneEventChildOrigin (CloneEventChildOrigin o) = CloneEventChildOrigin o.
Proof. unfold CloneEventChildOrigin. simpl. by autorewrite with clone. Qed.

Lemma CloneContextUsageSnapshot_idem u : CloneContextUsageSnapshot (CloneContextUsageSnapshot u) = CloneContextUsageSnapshot u.
Proof. unfold CloneContextUsageSnapshot. destruct (cu_Cost u); simpl; by autorewrite with clone. Qed.

Lemma clone_part_id p : clone_part p = p.
Proof.
  induction p as [h r content IH] using Part_ind'. simpl. f_equal.
  - unfold clone_head, cloneCitations. destruct h as [k [[t c]|] re tu me js fi]; simpl; [|done]. repeat f_equal.
    induction c as [|[] c IHc]; simpl; congruence.
  - induction IH as [|x l Hx _ IHl]; simpl; congruence.
Qed.

(** A copied message has the same value. *)
Lemma CloneMessage_id m : CloneMessage m = m.
Proof.
  unfold CloneMessage, CloneParts. destruct m as [role parts origin]. simpl. f_equal.
  induction parts as [|p parts IH]; simpl; [done|]. by rewrite clone_part_id, IH.
Qed.

Lemma CloneProtocolDiffChanges_id l : CloneProtocolDiffChanges l = l.
Proof. unfold CloneProtocolDiffChanges. destruct l as [l|]; simpl; [|done]. f_equal. induction l as [|[] l IH]; simpl; congruence. Qed.

Lemma CloneProtocolDiffPatch_id p : CloneProtocolDiffPatch p = p.
Proof. by destruct p as [[]|]. Qed.

Lemma CloneEventTool_idem t : CloneEventTool (CloneEventTool t) = CloneEventTool t.
Proof.
  unfold CloneEventTool. simpl. autorewrite with clone. f_equal; apply map_idem.
  - intros c. simpl. by rewrite !CloneProtocolDiffChanges_id, !CloneProtocolDiffPatch_id, !trim_space_idem.
  - intros l. simpl. by rewrite trim_space_idem.
Qed.

Lemma clone_plan_entry_idem e : clone_plan_entry (clone_plan_entry e) = clone_plan_entry e.
Proof. unfold clone_plan_entry. simpl. by autorewrite with clone. Qed.

Lemma cloneEventPlanPayload_idem p : cloneEventPlanPayload (cloneEventPlanPayload p) = cloneEventPlanPayload p.
Proof. unfold cloneEventPlanPayload. destruct p; simpl; [|done]. f_equal. apply map_idem, clone_plan_entry_idem. Qed.

Lemma trim_leaf_idem v : trim_leaf (trim_leaf v) = trim_leaf v.
Proof. destruct v as [[]|]; simpl; by rewrite ?trim_space_idem. Qed.

Lemma clone_any_idem element v : clone_any element (clone_any element v) = clone_any element v.
Proof.
  revert element. induction v as [k t|k items IH] using GoValue_ind'; intros element; [done|].
  assert (Hmap : forall f : string * GoValue -> GoValue,
    (forall x, x ∈ items -> f (fst x, f x) = f x) ->
    map (fun x => (fst x, f x)) (map (fun x => (fst x, f x)) items) = map (fun x => (fst x, f x)) items).
  { intros f Hf. rewrite map_map. apply map_ext_in. intros x Hx. simpl. f_equal. apply Hf. by apply list_elem_of_In. }
  rewrite Forall_forall in IH.
  destruct k, element; simpl; try done; f_equal.
  - apply (Hmap (fun x => clone_any false (snd x))). intros x Hx. simpl. by apply IH.
  - apply (Hmap (fun x => clone_any true (snd x))). intros x Hx. simpl. by apply IH.
  - apply (Hmap (fun x => if fst x =? "Content" then clone_any false (snd x)
                          else if trimmed_field (fst x) then trim_leaf (snd x) else snd x)).
    intros x Hx. simpl. destruct (fst x =? "Content"); [by apply IH|]. destruct (trimmed_field (fst x)); [apply trim_leaf_idem|done].
Qed.

Lemma cloneProtocolToolCall_idem c : cloneProtocolToolCall (cloneProtocolToolCall c) = cloneProtocolToolCall c.
Proof.
  unfold cloneProtocolToolCall, cloneProtocolToolCallContents. simpl. autorewrite with clone. f_equal.
  - by destruct (pt_NamePresent c) as [[]|]; rewrite ?trim_space_idem.
  - destruct (pt_Content c); simpl; [|done]. f_equal. apply map_idem, clone_any_idem.
Qed.

Lemma ClonePermissionContext_idem c : ClonePermissionContext (ClonePermissionContext c) = ClonePermissionContext c.
Proof.
  unfold ClonePermissionContext. simpl. f_equal. destruct (px_DisplaySubjectHint c); simpl; [|done]. f_equal.
  apply clone_subject_idem.
Qed.

Lemma cloneProtocolApproval_idem a : cloneProtocolApproval (cloneProtocolApproval a) = cloneProtocolApproval a.
Proof.
  pose proof (cloneProtocolToolCall_idem (pa_ToolCall a)) as Hc. unfold cloneProtocolApproval.
  destruct (pa_Context a) as [ctx|]; simpl.
  - f_equal.
    + f_equal. unfold cloneProtocolToolCall, cloneProtocolToolCallContents. simpl. destruct (pt_Content (pa_ToolCall a)); simpl; [|done].
      f_equal. apply map_idem, clone_any_idem.
    + apply map_idem. intros o. simpl. by autorewrite with clone.
    + apply fmap_idem, clone_subject_idem.
    + by rewrite ClonePermissionContext_idem.
  - f_equal; [done| |apply fmap_idem, clone_subject_idem]. apply map_idem. intros o. simpl. by autorewrite with clone.
Qed.

Lemma cloneProtocolUpdate_idem u : cloneProtocolUpdate (cloneProtocolUpdate u) = cloneProtocolUpdate u.
Proof.
  unfold cloneProtocolUpdate, cloneProtocolAny. simpl. autorewrite with clone. f_equal; [apply clone_any_idem|].
  apply map_idem, clone_plan_entry_idem.
Qed.

Lemma CloneEventProtocol_idem p : CloneEventProtocol (CloneEventProtocol p) = CloneEventProtocol p.
Proof.
  unfold CloneEventProtocol. simpl. f_equal.
  - destruct (trim_space (ep_Method p) =? "") eqn:E; simpl.
    + destruct (ep_AgentCommunication p), (ep_Permission p), (ep_Update p); simpl; try done. by rewrite !trim_space_idem, E.
    + by rewrite trim_space_idem, E.
  - apply fmap_idem, cloneProtocolUpdate_idem.
  - apply fmap_idem, cloneProtocolApproval_idem.
  - apply fmap_idem, trim_space_idem.
Qed.
