(* ===== verification/TruncateText.v ===== *)
(** * Bounding text by an estimate of tokens

    Models the text half of [agent-sdk/tool/truncate.go]: the estimate (four
    bytes a token), cutting the middle out of a string on rune boundaries,
    keeping the first and last lines of a long output, and the text that fits
    when it is written as a JSON string.  Text is its bytes; a Go [int] has 64
    bits, and lengths of texts in memory are far from its bounds. *)

From Stdlib Require Import ZArith Lia Ascii String.
From stdpp Require Import base option strings list.
From S2P Require Import Prelude GoStrings GoText Decimal Utf8Stream Runes GoJson.

Local Open Scope list_scope.
Local Open Scope Z_scope.

(** ** Estimates *)

Definition approxBytesPerToken : Z := 4.

(** [len(s)]. *)
Definition len (s : list Z) : Z := Z.of_nat (length s).

Definition approxTokensFromBytes (bytes : Z) : Z :=
  if bytes <=? 0 then 0 else
  let tokens := bytes / approxBytesPerToken in
  if negb (bytes mod approxBytesPerToken =? 0) then tokens + 1 else tokens.

Definition estimateTextTokens (s : list Z) : Z :=
  match s with
  | [] => 0
  | _ =>
    let tokens := len s / approxBytesPerToken in
    if negb (len s mod approxBytesPerToken =? 0) then tokens + 1 else tokens
  end.

Definition estimateTokensForJSONString (s : list Z) : Z := estimateTextTokens (quote s).

(** ** Policies *)

Record TruncationPolicy : Type := MkPolicy { MaxTokens : Z; MaxBytes : Z }.

Definition DefaultTruncationPolicy : TruncationPolicy := MkPolicy 10000 0.

Definition tokens_policy (n : Z) : TruncationPolicy := MkPolicy n 0.

Definition tokenBudget (p : TruncationPolicy) : Z :=
  if 0 <? MaxTokens p then MaxTokens p
  else if 0 <? MaxBytes p then approxTokensFromBytes (MaxBytes p)
  else 0.

Definition byteBudget (p : TruncationPolicy) : Z :=
  if 0 <? MaxBytes p then MaxBytes p
  else if 0 <? MaxTokens p then i64 (MaxTokens p * approxBytesPerToken)
  else 0.

Definition subTruncationPolicy (policy : TruncationPolicy) (usedTokens usedBytes : Z) : TruncationPolicy :=
  MkPolicy (if 0 <? MaxTokens policy then Z.max (MaxTokens policy - usedTokens) 0 else MaxTokens policy)
    (if 0 <? MaxBytes policy then Z.max (MaxBytes policy - usedBytes) 0 else MaxBytes policy).

(** ** Cutting the middle out of a string *)

(** [utf8.RuneLen] of the rune that ranging over a string yields: three for
    the U+FFFD of an invalid byte. *)
Definition RuneLen (c : list Z * bool) : Z := len (shown c).

(** The loop of [splitUTF8Bounds] over the runes from position [idx]: the end
    of the prefix, and the start of the suffix where it breaks. *)
Fixpoint bounds_loop (cs : list (list Z * bool)) (idx leftBudget targetSuffix prefixEnd : Z) : Z * option Z :=
  match cs with
  | [] => (prefixEnd, None)
  | c :: cs =>
    let end_ := idx + RuneLen c in
    let prefixEnd := if end_ <=? leftBudget then end_ else prefixEnd in
    if targetSuffix <=? idx then (prefixEnd, Some idx)
    else bounds_loop cs (idx + len (fst c)) leftBudget targetSuffix prefixEnd
  end.

Definition splitUTF8Bounds (s : list Z) (leftBudget rightBudget : Z) : Z * Z :=
  let leftBudget := if leftBudget <? 0 then 0 else leftBudget in
  let rightBudget := if rightBudget <? 0 then 0 else rightBudget in
  let targetSuffix := Z.max (len s - rightBudget) 0 in
  let '(prefixEnd, start) := bounds_loop (chunks s) 0 leftBudget targetSuffix 0 in
  let suffixStart := default (len s) start in
  (prefixEnd, if suffixStart <? prefixEnd then prefixEnd else suffixStart).

Definition formatTruncationMarker (policy : TruncationPolicy) (removedTokens removedBytes : Z) : list Z :=
  if 0 <? MaxTokens policy then
    if removedTokens <=? 0 then bytes_of "...truncated..."
    else bytes_of "..." ++ bytes_of (FormatInt removedTokens) ++ bytes_of " tokens truncated..."
  else if removedBytes <=? 0 then bytes_of "...truncated..."
  else bytes_of "..." ++ bytes_of (FormatInt removedBytes) ++ bytes_of " chars truncated...".

Definition truncateStringWithKeepBudget (s : list Z) (policy : TruncationPolicy) (keepBudget : Z) : list Z * Z :=
  let keepBudget := Z.max keepBudget 0 in
  let leftBudget := keepBudget / 2 in
  let rightBudget := keepBudget - leftBudget in
  let '(prefixEnd, suffixStart) := splitUTF8Bounds s leftBudget rightBudget in
  let left := take (Z.to_nat prefixEnd) s in
  let right := drop (Z.to_nat suffixStart) s in
  let removedBytes := len s - (len left + len right) in
  let removedTokens := approxTokensFromBytes removedBytes in
  (left ++ formatTruncationMarker policy removedTokens removedBytes ++ right, removedTokens).

(** The loop of [TruncateString]; what is kept shrinks each time, so its size
    is fuel enough. *)
Fixpoint keep_loop (fuel : nat) (s : list Z) (policy : TruncationPolicy) (keepBudget : Z) : list Z * Z :=
  let '(out, removedTokens) := truncateStringWithKeepBudget s policy keepBudget in
  if (estimateTextTokens out <=? tokenBudget policy) || (keepBudget <=? 0) then (out, removedTokens) else
  match fuel with
  | O => (out, removedTokens)
  | S fuel =>
    let overBytes := Z.max ((estimateTextTokens out - tokenBudget policy) * approxBytesPerToken) 1 in
    keep_loop fuel s policy (Z.max (keepBudget - overBytes) 0)
  end.

Definition TruncateString (s : list Z) (policy : TruncationPolicy) : list Z * Z :=
  match s with
  | [] => (s, 0)
  | _ =>
    let budgetBytes := byteBudget policy in
    if (budgetBytes <=? 0) || (len s <=? budgetBytes) then (s, 0)
    else keep_loop (Z.to_nat budgetBytes) s policy budgetBytes
  end.

(** ** Keeping lines *)

(** [strings.Split(s, "\n")] and [strings.Join(lines, "\n")]. *)
Fixpoint split_lines (word s : list Z) : list (list Z) :=
  match s with
  | [] => [word]
  | b :: s => if b =? 10 then word :: split_lines [] s else split_lines (word ++ [b]) s
  end.
Definition lines_of (s : list Z) : list (list Z) := split_lines [] s.

Fixpoint join_lines (lines : list (list Z)) : list Z :=
  match lines with
  | [] => []
  | [l] => l
  | l :: lines => l ++ 10 :: join_lines lines
  end.

Definition has_newline (s : list Z) : bool := existsb (Z.eqb 10) s.

Definition truncateLineUnit (line : list Z) (budgetTokens : Z) : list Z :=
  if (budgetTokens <=? 0) || (estimateTextTokens line <=? budgetTokens) then line
  else fst (TruncateString line (tokens_policy budgetTokens)).

Definition omitted_lines (n : Z) : list Z := bytes_of "..." ++ bytes_of (FormatInt n) ++ bytes_of " lines omitted...".

Definition sum (l : list Z) : Z := foldr Z.add 0 l.

Definition estimateLineTruncationTokens (lineTok : list Z) (headCount tailCount : nat) : Z :=
  let n := length lineTok in
  if (n =? 0)%nat || (headCount + tailCount =? 0)%nat then 0 else
  if (n <=? headCount + tailCount)%nat then
    sum lineTok + (if (1 <? n)%nat then approxTokensFromBytes (Z.of_nat n - 1) else 0)
  else
    let tailStart := Nat.max (n - tailCount) headCount in
    let omitted := Z.of_nat n - Z.of_nat headCount - Z.of_nat tailCount in
    let parts := Z.of_nat headCount + Z.of_nat tailCount + 1 in
    sum (take headCount lineTok) + sum (drop tailStart lineTok)
    + (if 1 <? parts then approxTokensFromBytes (parts - 1) else 0)
    + (if 0 <? omitted then estimateTextTokens (omitted_lines omitted) else 0).

Definition buildLineTruncation (lines : list (list Z)) (headCount tailCount : nat) (lineBudget : Z) : list Z :=
  let n := length lines in
  let unit := fun line => truncateLineUnit line lineBudget in
  if (n =? 0)%nat then [] else
  if (n <=? headCount + tailCount)%nat then join_lines (map unit lines) else
  let omitted := Z.of_nat n - Z.of_nat headCount - Z.of_nat tailCount in
  let tailStart := Nat.max (n - tailCount) headCount in
  join_lines (map unit (take headCount lines) ++ (if 0 <? omitted then [omitted_lines omitted] else [])
    ++ map unit (drop tailStart lines)).

(** The loop that keeps one more line at the head and at the tail while the
    estimate allows; every turn but the last keeps one, so the number of lines
    is fuel enough. *)
Fixpoint grow_lines (fuel : nat) (lineTok : list Z) (budgetTokens : Z) (head tail : nat) : nat * nat :=
  match fuel with
  | O => (head, tail)
  | S fuel =>
    let n := length lineTok in
    let more_head := (head + tail <? n)%nat && (estimateLineTruncationTokens lineTok (S head) tail <=? budgetTokens) in
    let head' := if more_head then S head else head in
    let more_tail := (head' + tail <? n)%nat && (estimateLineTruncationTokens lineTok head' (S tail) <=? budgetTokens) in
    let tail' := if more_tail then S tail else tail in
    if more_head || more_tail then grow_lines fuel lineTok budgetTokens head' tail' else (head, tail)
  end.

(** The loop that gives each line less while the result is too long. *)
Fixpoint shrink_lines (fuel : nat) (lines : list (list Z)) (head tail : nat) (budgetTokens lineBudget : Z) : list Z :=
  let best := buildLineTruncation lines head tail lineBudget in
  if (budgetTokens <? estimateTextTokens best) && (1 <? lineBudget) then
    match fuel with
    | O => best
    | S fuel => shrink_lines fuel lines head tail budgetTokens (Z.max (lineBudget * 8 / 10) 1)
    end
  else best.

Definition truncateLineUnits (s : list Z) (policy : TruncationPolicy) : list Z * Z :=
  let budgetTokens := tokenBudget policy in
  if (budgetTokens <=? 0) || (estimateTextTokens s <=? budgetTokens) then (s, 0) else
  if negb (has_newline s) then TruncateString s policy else
  let lines := lines_of s in
  let lineBudget := Z.max (Z.min (budgetTokens / 3) 1024) 8 in
  let lineTok := map (fun line => estimateTextTokens (truncateLineUnit line lineBudget)) lines in
  let '(head, tail) := grow_lines (S (length lines)) lineTok budgetTokens 0 0 in
  let best := shrink_lines (Z.to_nat lineBudget) lines head tail budgetTokens lineBudget in
  if budgetTokens <? estimateTextTokens best then TruncateString s policy
  else (best, Z.max (estimateTextTokens s - estimateTextTokens best) 1).

Definition truncateTextWithLinePrefix (original prefix body : list Z) (policy : TruncationPolicy) : list Z * Z :=
  let prefixCost := estimateTextTokens prefix in
  if (tokenBudget policy <=? prefixCost) && (0 <? tokenBudget policy) then TruncateString original policy else
  let '(truncatedBody, removed) := truncateLineUnits body (subTruncationPolicy policy prefixCost (len prefix)) in
  (prefix ++ truncatedBody, removed).

(** [strconv.Atoi]. *)
Definition Atoi (s : string) : option Z :=
  match s with
  | String a t =>
    let digits := if Ascii.eqb a "-" || Ascii.eqb a "+" then t else s in
    n ← ParseUint digits;
    let n := if Ascii.eqb a "-" then - n else n in
    if (-9223372036854775808 <=? n) && (n <=? 9223372036854775807) then Some n else None
  | EmptyString => None
  end.

(** [strings.Cut(s, "\n\n")]. *)
Fixpoint cut_blank_line (s : list Z) : option (list Z * list Z) :=
  match s with
  | b :: q =>
    match q with
    | c :: r => if (b =? 10) && (c =? 10) then Some ([], r) else '(header, body) ← cut_blank_line q; Some (b :: header, body)
    | [] => None
    end
  | [] => None
  end.

Definition total_lines : list Z := bytes_of "Total output lines: ".

(** The header with its blank line, the body, and the number of lines. *)
Definition splitExistingTotalOutputHeader (s : list Z) : option (list Z * list Z * Z) :=
  if negb (bool_decide (take (length total_lines) s = total_lines)) then None else
  '(header, body) ← cut_blank_line s;
  let countText := trim_space (string_of (drop (length total_lines) header)) in
  totalLines ← Atoi countText;
  if totalLines <=? 0 then None else Some (header ++ [10; 10], body, totalLines).

(** [strings.Count(s, "\n") + 1]. *)
Definition count_lines (s : list Z) : Z := Z.of_nat (length (List.filter (Z.eqb 10) s)) + 1.

Definition TruncateText (s : list Z) (policy : TruncationPolicy) : list Z * Z :=
  match splitExistingTotalOutputHeader s with
  | Some (prefix, body, _) => truncateTextWithLinePrefix s prefix body policy
  | None =>
    if (estimateTextTokens s <=? tokenBudget policy) || (tokenBudget policy <=? 0) then (s, 0) else
    if has_newline s then
      truncateTextWithLinePrefix s (total_lines ++ bytes_of (FormatInt (count_lines s)) ++ [10; 10]) s policy
    else TruncateString s policy
  end.

(** ** Text in JSON *)

(** The retries of [truncateTextForJSONBudget]. *)
Fixpoint json_attempts (attempts : nat) (s out : list Z) (textBudget budgetTokens : Z) : list Z :=
  match attempts with
  | O => out
  | S attempts =>
    if estimateTokensForJSONString out <=? budgetTokens then out else
    let over := estimateTokensForJSONString out - budgetTokens in
    let textBudget := Z.max (Z.max (textBudget - over) (Z.quot (i64 (textBudget * 7)) 10)) 1 in
    json_attempts attempts s (fst (TruncateText s (tokens_policy textBudget))) textBudget budgetTokens
  end.

Definition truncateTextForJSONBudget (s : list Z) (budgetTokens : Z) : list Z * bool :=
  if budgetTokens <=? 0 then ([], false) else
  if estimateTokensForJSONString s <=? budgetTokens then (s, true) else
  let textBudget := Z.max (Z.quot (i64 (budgetTokens * 3)) 4) 1 in
  let out := json_attempts 5 s (fst (TruncateText s (tokens_policy textBudget))) textBudget budgetTokens in
  (out, estimateTokensForJSONString out <=? budgetTokens).
