(* ===== verification/TruncateTextFacts.v ===== *)
(** * What cutting text keeps

    The loops of [TruncateText] end, a string that is cut keeps its two ends
    around a marker, and valid text stays valid. *)

From Stdlib Require Import ZArith Lia Ascii String.
From stdpp Require Import base option strings list.
From S2P Require Import Prelude GoStrings GoText Decimal Utf8Stream Runes GoJson TruncateText.

Local Open Scope list_scope.
Local Open Scope Z_scope.

(** ** The estimate is a ceiling *)

Lemma text_len_nonneg s : 0 <= len s.
Proof. unfold len. lia. Qed.

Lemma len_app a b : len (a ++ b) = len a + len b.
Proof. unfold len. rewrite length_app. lia. Qed.

Lemma ceiling n : 0 <= n -> (let t := n / 4 in if negb (n mod 4 =? 0) then t + 1 else t) = (n + 3) / 4.
Proof. intros Hn. cbv zeta. destruct (Z.eqb_spec (n mod 4) 0); cbn [negb]; Z.to_euclidean_division_equations; lia. Qed.

Lemma estimate_ceiling s : estimateTextTokens s = (len s + 3) / 4.
Proof. unfold estimateTextTokens. destruct s as [|b s]; [done|]. unfold approxBytesPerToken. rewrite <- ceiling; [done|apply text_len_nonneg]. Qed.

Lemma approx_ceiling n : approxTokensFromBytes n = (Z.max n 0 + 3) / 4.
Proof.
  unfold approxTokensFromBytes, approxBytesPerToken. destruct (Z.leb_spec n 0).
  - by rewrite Z.max_r by lia.
  - rewrite Z.max_l by lia. apply ceiling. lia.
Qed.

Lemma estimate_mono a b : len a <= len b -> estimateTextTokens a <= estimateTextTokens b.
Proof. intros Hl. rewrite !estimate_ceiling. apply Z.div_le_mono; lia. Qed.

Lemma estimate_nonneg s : 0 <= estimateTextTokens s.
Proof. rewrite estimate_ceiling. pose proof (text_len_nonneg s). apply Z.div_pos; lia. Qed.

Lemma estimate_pos s : s <> [] -> 1 <= estimateTextTokens s.
Proof.
  intros Hs. rewrite estimate_ceiling. assert (1 <= len s) by (unfold len; destruct s; [done|cbn [length]; lia]).
  apply Z.div_le_lower_bound; lia.
Qed.

(** ** Where a string is cut *)

Lemma bounds_loop_range cs idx leftBudget target prefixEnd : 0 <= prefixEnd <= Z.max leftBudget 0 -> 0 <= idx ->
  0 <= fst (bounds_loop cs idx leftBudget target prefixEnd) <= Z.max leftBudget 0 /\
  forall i, snd (bounds_loop cs idx leftBudget target prefixEnd) = Some i -> idx <= i <= idx + len (concat (map fst cs)).
Proof.
  revert idx prefixEnd. induction cs as [|c cs IH]; intros idx prefixEnd Hp Hi; [done|]. cbn [bounds_loop map concat].
  rewrite len_app. pose proof (text_len_nonneg (fst c)). pose proof (text_len_nonneg (concat (map fst cs))).
  assert (Hp' : 0 <= (if idx + RuneLen c <=? leftBudget then idx + RuneLen c else prefixEnd) <= Z.max leftBudget 0).
  { destruct (Z.leb_spec (idx + RuneLen c) leftBudget); [|done]. pose proof (text_len_nonneg (shown c)). unfold RuneLen in *. lia. }
  destruct (target <=? idx); cbn [fst snd]; [split; [done|]; intros i [= <-]; lia|].
  destruct (IH (idx + len (fst c)) _ Hp' ltac:(lia)) as [H1 H2]. split; [done|]. intros i Hs. apply H2 in Hs. lia.
Qed.

Lemma split_range s left right i j : splitUTF8Bounds s left right = (i, j) -> Z.max left 0 <= len s -> 0 <= i <= j /\ j <= len s.
Proof.
  unfold splitUTF8Bounds. set (l := if left <? 0 then 0 else left). set (r := if right <? 0 then 0 else right). set (t := Z.max (len s - r) 0).
  intros E Hl. assert (Hl0 : l = Z.max left 0) by (unfold l; destruct (Z.ltb_spec left 0); lia).
  destruct (bounds_loop_range (chunks s) 0 l t 0 ltac:(lia) ltac:(lia)) as [H1 H2]. rewrite chunks_concat in H2.
  destruct (bounds_loop (chunks s) 0 l t 0) as [p q]. cbn [fst snd] in *. pose proof (text_len_nonneg s).
  assert (Hq : 0 <= default (len s) q <= len s) by (destruct q as [q|]; cbn; [specialize (H2 q eq_refl); lia|lia]).
  destruct (Z.ltb_spec (default (len s) q) p); simplify_eq; lia.
Qed.

(** A position between two runes of valid text. *)
Definition boundary (s : list Z) (n : Z) : Prop :=
  0 <= n <= len s /\ Valid (take (Z.to_nat n) s) = true /\ Valid (drop (Z.to_nat n) s) = true.

Lemma boundary_app a b : Valid a = true -> Valid b = true -> boundary (a ++ b) (len a).
Proof.
  intros Ha Hb. unfold boundary. rewrite len_app. pose proof (text_len_nonneg a). pose proof (text_len_nonneg b). split; [lia|].
  unfold len. rewrite Nat2Z.id, take_app_length, drop_app_length. done.
Qed.

Lemma chunks_take_valid s : Valid s = true -> forall cs ds, chunks s = cs ++ ds ->
  Valid (concat (map fst cs)) = true /\ Valid (concat (map fst ds)) = true /\ s = concat (map fst cs) ++ concat (map fst ds).
Proof.
  intros Hv cs. revert s Hv. induction cs as [|c cs IH]; intros s Hv ds E.
  - cbn in *. rewrite <- E, chunks_concat. done.
  - assert (Hne : s <> []) by (by intros ->). rewrite chunks_step in E by done. rewrite Valid_step in Hv by done.
    apply andb_true_iff in Hv as [Ho Hv]. cbn [app] in E. injection E as <- E. destruct (IH _ Hv _ E) as (H1&H2&H3).
    cbn [map fst concat]. split; [by apply Valid_rune|]. split; [done|]. by rewrite <- (assoc_L (++)), <- H3, take_drop.
Qed.

Lemma chunk_boundary s cs ds : Valid s = true -> chunks s = cs ++ ds -> boundary s (len (concat (map fst cs))).
Proof. intros Hv E. destruct (chunks_take_valid s Hv _ _ E) as (H1&H2&->). by apply boundary_app. Qed.

Lemma bounds_loop_boundary s cs ds leftBudget target prefixEnd : Valid s = true -> chunks s = cs ++ ds -> boundary s prefixEnd ->
  let r := bounds_loop ds (len (concat (map fst cs))) leftBudget target prefixEnd in
  boundary s (fst r) /\ forall i, snd r = Some i -> boundary s i.
Proof.
  intros Hv. revert cs prefixEnd. induction ds as [|d ds IH]; intros cs prefixEnd E Hp; [done|]. cbn [bounds_loop].
  assert (E' : chunks s = (cs ++ [d]) ++ ds) by (by rewrite <- (assoc_L (++))).
  assert (Hi : len (concat (map fst cs)) + len (fst d) = len (concat (map fst (cs ++ [d])))).
  { rewrite map_app, concat_app, len_app. cbn. by rewrite app_nil_r. }
  assert (Hd : shown d = fst d).
  { unfold shown. pose proof (Valid_chunks s) as Hc. rewrite Hv, E, forallb_app in Hc. cbn in Hc.
    symmetry in Hc. apply andb_true_iff in Hc as [_ Hc]. apply andb_true_iff in Hc as [-> _]. done. }
  unfold RuneLen. rewrite Hd, Hi.
  assert (Hp' : boundary s (if len (concat (map fst (cs ++ [d]))) <=? leftBudget then len (concat (map fst (cs ++ [d]))) else prefixEnd)).
  { destruct (_ <=? leftBudget); [by eapply chunk_boundary|done]. }
  destruct (target <=? len (concat (map fst cs))); cbn [fst snd]; [|by apply IH].
  split; [done|]. intros i [= <-]. by eapply chunk_boundary.
Qed.

Lemma split_boundary s left right i j : Valid s = true -> splitUTF8Bounds s left right = (i, j) -> boundary s i /\ boundary s j.
Proof.
  intros Hv. unfold splitUTF8Bounds. set (l := if left <? 0 then 0 else left). set (r := if right <? 0 then 0 else right). set (t := Z.max (len s - r) 0).
  assert (H0 : boundary s 0) by (split; [pose proof (text_len_nonneg s); lia|done]).
  destruct (bounds_loop_boundary s [] (chunks s) l t 0 Hv eq_refl H0) as [H1 H2]. cbn [map concat] in H1, H2. change (len []) with 0 in *.
  destruct (bounds_loop (chunks s) 0 l t 0) as [p q]. cbn [fst snd] in *.
  assert (Hq : boundary s (default (len s) q)).
  { destruct q as [q|]; [by apply H2|]. cbn. pose proof (boundary_app s [] Hv eq_refl) as Hb. by rewrite app_nil_r in Hb. }
  destruct (default (len s) q <? p); intros [= <- <-]; done.
Qed.

(** Runes have at most four bytes: the prefix ends, and the suffix starts, at most
    three bytes from where they may. *)
Definition short_rune (c : list Z * bool) : Prop := shown c = fst c /\ 0 <= len (fst c) <= 4.

Lemma bounds_ends cs idx l t p : Forall short_rune cs -> l <= t -> idx <= t + 3 -> p = idx \/ l - 4 < p ->
  l <= idx + len (concat (map fst cs)) ->
  l - 4 < fst (bounds_loop cs idx l t p) /\ default (idx + len (concat (map fst cs))) (snd (bounds_loop cs idx l t p)) <= t + 3.
Proof.
  intros Hc Hlt. revert idx p. induction Hc as [|c cs [Hs Hn] Hcs IH]; intros idx p Hi Hp Hl.
  { change (len (concat (map fst []))) with 0 in *. cbn [bounds_loop fst snd default from_option id]. lia. }
  cbn [bounds_loop map concat] in *. rewrite len_app in *. unfold RuneLen. rewrite Hs.
  assert (Hp' : idx + len (fst c) <= l /\ (if idx + len (fst c) <=? l then idx + len (fst c) else p) = idx + len (fst c) \/
    l - 4 < (if idx + len (fst c) <=? l then idx + len (fst c) else p)) by (destruct (Z.leb_spec (idx + len (fst c)) l); lia).
  destruct (Z.leb_spec t idx); cbn [fst snd default from_option id]; [lia|]. rewrite Z.add_assoc. apply IH; lia.
Qed.

Lemma bounds_loop_start cs idx l t p i : snd (bounds_loop cs idx l t p) = Some i -> t <= i.
Proof.
  revert idx p. induction cs as [|c cs IH]; intros idx p; [done|]. cbn [bounds_loop]. destruct (Z.leb_spec t idx); [|apply IH].
  cbn [snd]. intros [= <-]. lia.
Qed.

Lemma DecodeRune_four p : (fst (DecodeRune p) <= 4)%nat.
Proof. destruct p as [|b0 [|b1 [|b2 [|b3 p]]]]; simpl; rune_cases; simpl; lia. Qed.

Lemma short_runes s : Valid s = true -> Forall short_rune (chunks s).
Proof.
  induction s as [|s Hne IH] using rune_ind; [constructor|]. rewrite Valid_step, chunks_step by done. intros [Ho Hv]%andb_true_iff.
  constructor; [|by apply IH]. split; [unfold shown; cbn [snd fst]; by rewrite Ho|]. cbn [fst].
  pose proof (DecodeRune_four s). unfold len. rewrite length_take. lia.
Qed.

Lemma split_ends s left right i j : Valid s = true -> 0 <= left -> 0 <= right -> left + right <= len s -> splitUTF8Bounds s left right = (i, j) ->
  left - 3 <= i /\ right - 3 <= len s - j.
Proof.
  intros Hv Hl Hr Hs. unfold splitUTF8Bounds. rewrite (proj2 (Z.ltb_ge left 0)), (proj2 (Z.ltb_ge right 0)), Z.max_l by lia.
  destruct (bounds_ends (chunks s) 0 left (len s - right) 0) as [H1 H2]; [by apply short_runes|lia|lia|by left|rewrite chunks_concat; lia|].
  destruct (bounds_loop_range (chunks s) 0 left (len s - right) 0 ltac:(lia) ltac:(lia)) as [H3 _]. rewrite chunks_concat in H2.
  destruct (bounds_loop _ _ _ _ _) as [p q]. cbn [fst snd] in *. rewrite Z.add_0_l in H2. destruct (Z.ltb_spec (default (len s) q) p); intros [= <- <-]; lia.
Qed.

(** What is kept is within its budgets. *)
Lemma split_kept s left right i j : 0 <= left -> 0 <= right -> left + right <= len s -> splitUTF8Bounds s left right = (i, j) ->
  i + (len s - j) <= left + right.
Proof.
  intros Hl Hr Hs. unfold splitUTF8Bounds. rewrite (proj2 (Z.ltb_ge left 0)), (proj2 (Z.ltb_ge right 0)), Z.max_l by lia.
  destruct (bounds_loop_range (chunks s) 0 left (len s - right) 0 ltac:(lia) ltac:(lia)) as [H1 _].
  pose proof (bounds_loop_start (chunks s) 0 left (len s - right) 0) as H2. destruct (bounds_loop _ _ _ _ _) as [p q]. cbn [fst snd] in *.
  assert (len s - right <= default (len s) q) by (destruct q as [q|]; cbn; [by apply H2|lia]).
  destruct (Z.ltb_spec (default (len s) q) p); intros [= <- <-]; lia.
Qed.

(** A marker has at most 43 bytes, 20 of them digits. *)
Lemma format_length n : 0 <= n -> len (bytes_of (FormatInt n)) <= 20.
Proof.
  intros Hn. unfold FormatInt. rewrite (proj2 (Z.ltb_ge n 0)) by done. unfold FormatUint.
  assert (L : forall fuel m acc, len (bytes_of (format_loop fuel m acc)) <= Z.of_nat fuel + len (bytes_of acc)).
  { induction fuel as [|fuel IH]; intros m acc; [cbn [format_loop]; lia|]. cbn [format_loop].
    assert (Hc : forall a, len (bytes_of (String a acc)) = 1 + len (bytes_of acc)) by (intros a; unfold len, bytes_of; cbn [list_ascii_of_string map length]; lia).
    destruct (m <? 10); [rewrite Hc; lia|]. specialize (IH (m / 10) (String (digit (m mod 10)) acc)). rewrite Hc in IH. lia. }
  apply (L 20%nat n EmptyString).
Qed.

Lemma marker_length policy n m : len (formatTruncationMarker policy n m) <= 43.
Proof.
  unfold formatTruncationMarker. destruct (0 <? MaxTokens policy); [destruct (Z.leb_spec n 0)|destruct (Z.leb_spec m 0)]; [by vm_compute| |by vm_compute|];
    rewrite !len_app.
  - pose proof (format_length n ltac:(lia)). change (len (bytes_of "...")) with 3. change (len (bytes_of " tokens truncated...")) with 20. lia.
  - pose proof (format_length m ltac:(lia)). change (len (bytes_of "...")) with 3. change (len (bytes_of " chars truncated...")) with 19. lia.
Qed.

(** ** Strings *)

(** [out] is [s] with the bytes from [i] to [j] replaced by a marker that tells
    how many tokens they are. *)
Definition cut_at (s : list Z) (policy : TruncationPolicy) (i j : Z) (out : list Z) (removed : Z) : Prop :=
  0 <= i <= j /\ j <= len s /\ removed = approxTokensFromBytes (j - i) /\
  out = take (Z.to_nat i) s ++ formatTruncationMarker policy removed (j - i) ++ drop (Z.to_nat j) s.

Lemma keep_cut s policy keep : 0 <= keep <= len s -> exists i j,
  cut_at s policy i j (fst (truncateStringWithKeepBudget s policy keep)) (snd (truncateStringWithKeepBudget s policy keep)) /\
  (keep = 0 -> i = 0 /\ j = len s) /\ i + (len s - j) <= keep /\
  (Valid s = true -> keep / 2 - 3 <= i /\ keep / 2 - 3 <= len s - j) /\ (Valid s = true -> boundary s i /\ boundary s j).
Proof.
  intros Hk. unfold truncateStringWithKeepBudget. rewrite Z.max_l by lia.
  assert (Hh : 0 <= keep / 2 <= keep) by (Z.to_euclidean_division_equations; lia).
  destruct (splitUTF8Bounds s (keep / 2) (keep - keep / 2)) as [i j] eqn:E. cbn [fst snd].
  destruct (split_range _ _ _ _ _ E ltac:(lia)) as [Hi Hj]. exists i, j.
  assert (Hl : len (take (Z.to_nat i) s) = i) by (unfold len in *; rewrite length_take; lia).
  assert (Hr : len (drop (Z.to_nat j) s) = len s - j) by (unfold len in *; rewrite length_drop; lia).
  rewrite Hl, Hr. replace (len s - (i + (len s - j))) with (j - i) by lia. split; [done|]. split; [|split; [|split]].
  - intros ->. pose proof (split_kept s (0 / 2) (0 - 0 / 2) i j ltac:(done) ltac:(done) ltac:(cbn; lia) E) as Hz. change (0 / 2) with 0 in Hz. lia.
  - pose proof (split_kept s (keep / 2) (keep - keep / 2) i j ltac:(lia) ltac:(lia) ltac:(lia) E). lia.
  - intros Hv. pose proof (split_ends s (keep / 2) (keep - keep / 2) i j Hv ltac:(lia) ltac:(lia) ltac:(lia) E). Z.to_euclidean_division_equations. lia.
  - intros Hv. by eapply split_boundary.
Qed.

(** The bytes that are always kept: a turn of the loop lowers them to the budget
    less a marker and the rounding of the estimate, at most. *)
Definition kept_bytes (policy : TruncationPolicy) : Z := 4 * tokenBudget policy - 46.

Lemma keep_loop_spec fuel s policy keep : 0 <= keep <= len s -> keep <= Z.of_nat fuel -> exists i j,
  cut_at s policy i j (fst (keep_loop fuel s policy keep)) (snd (keep_loop fuel s policy keep)) /\
  (estimateTextTokens (fst (keep_loop fuel s policy keep)) <= tokenBudget policy \/ i = 0 /\ j = len s) /\
  (Valid s = true -> Z.min keep (kept_bytes policy) / 2 - 3 <= i /\ Z.min keep (kept_bytes policy) / 2 - 3 <= len s - j) /\
  (Valid s = true -> boundary s i /\ boundary s j).
Proof.
  assert (Hmin : forall a b, Z.min a b / 2 <= a / 2) by (intros a b; apply Z.div_le_mono; lia).
  revert keep. induction fuel as [|fuel IH]; intros keep Hk Hf; cbn [keep_loop];
    destruct (keep_cut s policy keep Hk) as (i&j&Hc&H0&Hkept&He&Hv); destruct (truncateStringWithKeepBudget s policy keep) as [out removed]; cbn [fst snd] in Hc.
  - exists i, j. replace ((_ <=? _) || _) with true by (rewrite (proj2 (Z.leb_le keep 0)) by lia; by rewrite orb_true_r).
    cbn [fst snd]. split; [done|]. split; [right; apply H0; lia|]. split; [|done]. intros Hs. specialize (Hmin keep (kept_bytes policy)). specialize (He Hs). lia.
  - destruct ((estimateTextTokens out <=? tokenBudget policy) || (keep <=? 0)) eqn:E.
    + exists i, j. cbn [fst snd]. split; [done|].
      split; [apply orb_true_iff in E as [?%Z.leb_le|?%Z.leb_le]; [by left|right; apply H0; lia]|].
      split; [|done]. intros Hs. specialize (Hmin keep (kept_bytes policy)). specialize (He Hs). lia.
    + apply orb_false_iff in E as [Eo%Z.leb_gt E%Z.leb_gt].
      set (keep' := Z.max (keep - _) 0). assert (Hk' : Z.min keep (kept_bytes policy) <= keep').
      { assert (4 * estimateTextTokens out <= keep + 46); [|unfold keep', kept_bytes, approxBytesPerToken; lia].
        destruct Hc as (Hij&Hj&_&->). rewrite estimate_ceiling, !len_app. pose proof (marker_length policy removed (j - i)).
        assert (len (take (Z.to_nat i) s) = i) as -> by (unfold len in *; rewrite length_take; lia).
        assert (len (drop (Z.to_nat j) s) = len s - j) as -> by (unfold len in *; rewrite length_drop; lia).
        Z.to_euclidean_division_equations. lia. }
      destruct (IH keep') as (i'&j'&H1&H2&H3&H4); [unfold keep'; lia|unfold keep'; lia|]. exists i', j'. split; [done|]. split; [done|]. split; [|done].
      intros Hs. specialize (H3 Hs). assert (Z.min keep (kept_bytes policy) / 2 <= Z.min keep' (kept_bytes policy) / 2) by (apply Z.div_le_mono; lia). lia.
Qed.

(** What [TruncateString] returns: the string, or its ends around a marker;
    within the budget unless only the marker is left. *)
Lemma TruncateString_spec s policy :
  TruncateString s policy = (s, 0) /\ (byteBudget policy <= 0 \/ len s <= byteBudget policy) \/
  byteBudget policy < len s /\ exists i j, cut_at s policy i j (fst (TruncateString s policy)) (snd (TruncateString s policy)) /\
    (estimateTextTokens (fst (TruncateString s policy)) <= tokenBudget policy \/ i = 0 /\ j = len s) /\
    (Valid s = true -> Z.min (byteBudget policy) (kept_bytes policy) / 2 - 3 <= i /\ Z.min (byteBudget policy) (kept_bytes policy) / 2 - 3 <= len s - j) /\
    (Valid s = true -> boundary s i /\ boundary s j).
Proof.
  unfold TruncateString. destruct s as [|b s]; [left; split; [done|]; change (len []) with 0; lia|]. set (t := b :: s).
  destruct (Z.leb_spec (byteBudget policy) 0); [left; split; [done|by left]|].
  destruct (Z.leb_spec (len t) (byteBudget policy)); [left; split; [done|by right]|].
  right. split; [done|]. cbn [orb]. apply keep_loop_spec; [lia|]. lia.
Qed.

(** ** Validity *)

Definition is_ascii (b : Z) : Prop := 0 <= b < 128.

Lemma first_ascii b : is_ascii b -> first b = Some (1%nat, 0, 0).
Proof. intros Hb. unfold is_ascii in Hb. unfold first. by rewrite (proj2 (Z.leb_le 0 b)), (proj2 (Z.leb_le b 127)) by lia. Qed.

Lemma ascii_Valid p : Forall is_ascii p -> Valid p = true.
Proof.
  induction 1 as [|b p Hb _ IH]; [done|]. rewrite Valid_step by done.
  assert (Hd : DecodeRune (b :: p) = (1%nat, true)) by (cbn; by rewrite first_ascii). by rewrite Hd.
Qed.

(** Bytes after the first of a rune are not ASCII. *)
Lemma rune_tail s k b : snd (DecodeRune s) = true -> (1 <= k < fst (DecodeRune s))%nat -> s !! k = Some b -> 128 <= b.
Proof.
  destruct s as [|b0 [|b1 [|b2 [|b3 s]]]]; cbn -[first outside]; try lia;
    destruct (first b0) as [[[size lo] hi]|] eqn:E; cbn -[outside]; try lia; intros Hs Hk Hb; unfold first in E;
    repeat (match type of E with (if ?c then _ else _) = _ => destruct c end; simplify_eq); cbn -[outside] in *; try lia;
    unfold no_continuation, outside in *;
    repeat match goal with
    | H : context [?x <? ?y] |- _ => destruct (Z.ltb_spec x y); cbn in *
    end; try done; try lia;
    destruct k as [|[|[|[|k]]]]; cbn in Hb; simplify_eq; try lia.
Qed.

(** Valid text can be divided at an ASCII byte. *)
Lemma Valid_divide p b q : is_ascii b -> Valid (p ++ b :: q) = true -> Valid p = true /\ Valid q = true.
Proof.
  intros Hb. induction p as [p IH] using (induction_ltof1 _ (@length Z)). unfold ltof in IH. intros Hv.
  destruct p as [|a p].
  - rewrite Valid_step in Hv by done. apply andb_true_iff in Hv as [_ Hv]. cbn [app DecodeRune] in Hv. rewrite first_ascii in Hv by done. by split.
  - set (x := a :: p) in *. assert (Hne : x <> []) by done. rewrite Valid_step in Hv by done. apply andb_true_iff in Hv as [Ho Hv].
    pose proof (DecodeRune_size (x ++ b :: q) ltac:(done)) as Hs. set (n := fst (DecodeRune (x ++ b :: q))) in *.
    assert (Hn : (n <= length x)%nat).
    { destruct (decide (n <= length x)%nat) as [|Hgt]; [done|]. exfalso.
      assert (128 <= b); [|unfold is_ascii in *; lia]. apply (rune_tail (x ++ b :: q) (length x) b Ho).
      - unfold x in *. cbn [length] in *. fold n. lia.
      - rewrite lookup_app_r by lia. by rewrite Nat.sub_diag. }
    assert (Hx : Valid (take n x ++ drop n x) = true /\ Valid q = true); [|by rewrite take_drop in Hx].
    rewrite drop_app_le in Hv by done. destruct (IH (drop n x)) as [H1 H2]; [rewrite length_drop; lia|done|]. split; [|done].
    rewrite <- (take_app_le x (b :: q)) by done. by apply Valid_rune.
Qed.

Definition ascii_text (s : string) : Prop := Forall is_ascii (bytes_of s).

Lemma ascii_text_cons a s : is_ascii (byte_of a) -> ascii_text s -> ascii_text (String a s).
Proof. intros Ha Hs. by constructor. Qed.

Lemma format_ascii n : ascii_text (FormatInt n).
Proof.
  assert (D : forall m, is_ascii (byte_of (digit (m mod 10)))).
  { intros m. pose proof (Z.mod_pos_bound m 10 ltac:(lia)). pose proof (nat_ascii_embedding (48 + Z.to_nat (m mod 10)) ltac:(lia)) as He.
    unfold digit, byte_of, is_ascii. unfold nat_of_ascii in He. lia. }
  assert (L : forall fuel m acc, ascii_text acc -> ascii_text (format_loop fuel m acc)).
  { induction fuel as [|fuel IH]; intros m acc Ha; [done|]. cbn [format_loop]. destruct (m <? 10); [by apply ascii_text_cons|].
    apply IH. by apply ascii_text_cons. }
  assert (U : forall m, ascii_text (FormatUint m)) by (intros m; apply L; constructor).
  unfold FormatInt. destruct (n <? 0); [|apply U]. apply ascii_text_cons; [by split|apply U].
Qed.

#[local] Hint Resolve format_ascii : core.

Lemma words_valid a n b : ascii_text a -> ascii_text b -> Valid (bytes_of a ++ bytes_of (FormatInt n) ++ bytes_of b) = true.
Proof. intros Ha Hb. apply ascii_Valid. repeat (apply Forall_app; split); auto. apply format_ascii. Qed.

Ltac ascii_const := unfold ascii_text; repeat constructor; done.

Lemma marker_valid policy n m : Valid (formatTruncationMarker policy n m) = true.
Proof.
  unfold formatTruncationMarker. repeat case_match; try reflexivity; apply words_valid; ascii_const.
Qed.

Lemma omitted_lines_valid n : Valid (omitted_lines n) = true.
Proof. apply words_valid; ascii_const. Qed.

Lemma TruncateString_valid s policy : Valid s = true -> Valid (fst (TruncateString s policy)) = true.
Proof.
  intros Hv. destruct (TruncateString_spec s policy) as [[E _]|(_&i&j&(_&_&_&E)&_&_&Hb)]; rewrite E; [done|].
  destruct (Hb Hv) as [(_&Hi&_) (_&_&Hj)]. apply Valid_app; [done|]. apply Valid_app; [apply marker_valid|done].
Qed.

Lemma unit_valid line n : Valid line = true -> Valid (truncateLineUnit line n) = true.
Proof. intros Hv. unfold truncateLineUnit. destruct (_ || _); [done|by apply TruncateString_valid]. Qed.

Definition valid_lines (ls : list (list Z)) : Prop := Forall (fun l => Valid l = true) ls.

Lemma lines_valid s : Valid s = true -> valid_lines (lines_of s).
Proof.
  unfold lines_of. assert (G : forall word, Valid (word ++ s) = true -> valid_lines (split_lines word s)); [|by apply (G [])].
  induction s as [|b s IH]; intros word Hv; cbn [split_lines].
  - rewrite app_nil_r in Hv. by constructor.
  - destruct (Z.eqb_spec b 10) as [->|].
    + apply Valid_divide in Hv as [H1 H2]; [|unfold is_ascii; lia]. constructor; [done|]. by apply IH.
    + apply IH. by rewrite <- (assoc_L (++)).
Qed.

Lemma join_valid ls : valid_lines ls -> Valid (join_lines ls) = true.
Proof.
  induction 1 as [|l ls Hl Hls IH]; [done|]. cbn [join_lines]. destruct ls as [|l' ls]; [done|].
  apply Valid_app; [done|]. change (10 :: join_lines (l' :: ls)) with ([10] ++ join_lines (l' :: ls)). by apply Valid_app.
Qed.

Lemma units_valid ls n : valid_lines ls -> valid_lines (map (fun l => truncateLineUnit l n) ls).
Proof. intros Hl. apply Forall_map. eapply Forall_impl; [exact Hl|]. intros l. by apply unit_valid. Qed.

Lemma build_valid ls head tail n : valid_lines ls -> Valid (buildLineTruncation ls head tail n) = true.
Proof.
  intros Hl. unfold buildLineTruncation. destruct (_ =? _)%nat; [done|]. destruct (_ <=? _)%nat; [by apply join_valid, units_valid|].
  apply join_valid. apply Forall_app. split; [by apply units_valid, Forall_take|]. apply Forall_app. split; [|by apply units_valid, Forall_drop].
  destruct (0 <? _); [|constructor]. apply Forall_singleton, omitted_lines_valid.
Qed.

Lemma shrink_valid fuel ls head tail budget n : valid_lines ls -> Valid (shrink_lines fuel ls head tail budget n) = true.
Proof.
  intros Hl. revert n. induction fuel as [|fuel IH]; intros n; cbn [shrink_lines]; (destruct (_ && _); [|by apply build_valid]); [by apply build_valid|apply IH].
Qed.

Lemma line_units_valid s policy : Valid s = true -> Valid (fst (truncateLineUnits s policy)) = true.
Proof.
  intros Hv. unfold truncateLineUnits. destruct (_ || _); [done|]. destruct (negb _); [by apply TruncateString_valid|].
  destruct (grow_lines _ _ _ _ _) as [head tail]. destruct (_ <? _); [by apply TruncateString_valid|]. by apply shrink_valid, lines_valid.
Qed.

Lemma prefixed_valid s prefix body policy : Valid s = true -> Valid prefix = true -> Valid body = true ->
  Valid (fst (truncateTextWithLinePrefix s prefix body policy)) = true.
Proof.
  intros Hs Hp Hb. unfold truncateTextWithLinePrefix. destruct (_ && _); [by apply TruncateString_valid|].
  pose proof (line_units_valid body (subTruncationPolicy policy (estimateTextTokens prefix) (len prefix)) Hb) as Hv.
  destruct (truncateLineUnits _ _). cbn [fst] in *. by apply Valid_app.
Qed.

Lemma cut_blank_line_app s header body : cut_blank_line s = Some (header, body) -> s = header ++ 10 :: 10 :: body.
Proof.
  revert header body. induction s as [|b q IH]; intros header body; [done|]. cbn [cut_blank_line].
  destruct q as [|c r]; [done|]. destruct ((b =? 10) && (c =? 10)) eqn:E.
  - apply andb_true_iff in E as [->%Z.eqb_eq ->%Z.eqb_eq]. by intros [= <- <-].
  - destruct (cut_blank_line (c :: r)) as [[h bd]|] eqn:E2; [|done]. cbn [mbind option_bind]. intros [= <- <-]. cbn [app]. f_equal. by apply IH.
Qed.

Lemma header_app s prefix body n : splitExistingTotalOutputHeader s = Some (prefix, body, n) -> s = prefix ++ body /\ exists header, prefix = header ++ [10; 10].
Proof.
  unfold splitExistingTotalOutputHeader. destruct (negb _); [done|]. destruct (cut_blank_line s) as [[h bd]|] eqn:E; [|done]. cbn [mbind option_bind].
  destruct (Atoi _) as [m|]; [|done]. cbn [mbind option_bind]. destruct (m <=? 0); [done|]. intros [= <- <- <-].
  apply cut_blank_line_app in E. rewrite E. split; [by rewrite <- (assoc_L (++))|by exists h].
Qed.

Lemma TruncateText_valid s policy : Valid s = true -> Valid (fst (TruncateText s policy)) = true.
Proof.
  intros Hv. unfold TruncateText. destruct (splitExistingTotalOutputHeader s) as [[[prefix body] n]|] eqn:E.
  - destruct (header_app _ _ _ _ E) as [-> (h&->)]. rewrite <- (assoc_L (++)) in Hv. cbn [app] in Hv.
    apply Valid_divide in Hv as [Hh Hb]; [|unfold is_ascii; lia]. apply (Valid_divide []) in Hb as [_ Hb]; [|unfold is_ascii; lia].
    assert (Hp : Valid (h ++ [10; 10]) = true) by (by apply Valid_app). apply prefixed_valid; [by apply Valid_app|done|done].
  - destruct (_ || _); [done|]. destruct (has_newline s); [|by apply TruncateString_valid]. apply prefixed_valid; [done| |done].
    apply (words_valid "Total output lines: " (count_lines s) (string_of [10; 10])); ascii_const.
Qed.

Lemma attempts_valid n s out textBudget budget : Valid s = true -> Valid out = true -> Valid (json_attempts n s out textBudget budget) = true.
Proof.
  intros Hs. revert out textBudget. induction n as [|n IH]; intros out textBudget Ho; cbn [json_attempts]; [done|].
  destruct (_ <=? _); [done|]. apply IH. by apply TruncateText_valid.
Qed.

Lemma json_budget_valid s budget : Valid s = true -> Valid (fst (truncateTextForJSONBudget s budget)) = true.
Proof.
  intros Hv. unfold truncateTextForJSONBudget. destruct (_ <=? _); [done|]. destruct (_ <=? _); [done|]. cbn [fst].
  apply attempts_valid; [done|]. by apply TruncateText_valid.
Qed.

(** Text that is accepted fits its budget when it is written as a JSON string. *)
Lemma json_budget_fits s budget : snd (truncateTextForJSONBudget s budget) = true ->
  estimateTokensForJSONString (fst (truncateTextForJSONBudget s budget)) <= budget.
Proof.
  unfold truncateTextForJSONBudget. destruct (_ <=? _); [done|]. destruct (Z.leb_spec (estimateTokensForJSONString s) budget); [done|].
  cbn [fst snd]. intros Hf%Z.leb_le. done.
Qed.
