(* ===== verification/Truncate.v ===== *)
(** * Bounding a tool result

    Models the rest of [agent-sdk/tool/truncate.go]: a result is a list of
    parts, its cost the estimated tokens of the JSON in which the model sees
    it.  A result over its budget is cut value by value, strings that hold
    JSON inside; fields that the caller protects are kept.  A Go [range] over
    the protected map runs in some order, here that of the list. *)

From Stdlib Require Import ZArith Lia Ascii String.
From stdpp Require Import base option strings list sorting.
From S2P Require Import Prelude GoStrings Utf8Stream Runes GoValues GoJson TruncateText ApprovalSubject Payload.

Local Open Scope list_scope.
Local Open Scope Z_scope.

Record TruncationInfo : Type := MkInfo {
  ti_Truncated : bool; ti_Policy : string; ti_MaxTokens : Z; ti_MaxBytes : Z; ti_EstimatedTokens : Z;
  ti_EstimatedBytes : Z; ti_RemovedTokens : Z; ti_RemovedBytes : Z; ti_OmittedItems : Z;
}.

Definition newTruncationInfo (policy : TruncationPolicy) : TruncationInfo :=
  MkInfo false (if (0 <? MaxBytes policy) && (MaxTokens policy <=? 0) then "bytes" else "tokens")
    (MaxTokens policy) (MaxBytes policy) 0 0 0 0 0.

(** The estimate is noted, and what was removed from it. *)
Definition with_estimate (total : Z) (i : TruncationInfo) : TruncationInfo :=
  MkInfo (ti_Truncated i) (ti_Policy i) (ti_MaxTokens i) (ti_MaxBytes i) total (total * approxBytesPerToken)
    (ti_RemovedTokens i) (ti_RemovedBytes i) (ti_OmittedItems i).
Definition with_removed (total budget omitted : Z) (i : TruncationInfo) : TruncationInfo :=
  let removed := Z.max (total - budget) 0 in
  MkInfo true (ti_Policy i) (ti_MaxTokens i) (ti_MaxBytes i) (ti_EstimatedTokens i) (ti_EstimatedBytes i)
    removed (removed * approxBytesPerToken) omitted.

Definition truncationInfoForText (text : list Z) (policy : TruncationPolicy) : TruncationInfo :=
  let total := estimateTextTokens text in
  with_removed total (tokenBudget policy) 0 (with_estimate total (newTruncationInfo policy)).

(** *** Metadata of a truncation *)

Definition go_int (n : Z) : GoValue := Leaf KInt (Decimal.FormatInt n).
Definition go_bool (b : bool) : GoValue := Leaf KBool (if b then "true" else "false").
Definition map_of (items : list (string * GoValue)) : list (string * GoValue) :=
  foldl (fun m x => map_set (fst x) (snd x) m) [] items.

(** An entry that [compactTruncationMeta] keeps. *)
Definition meta_kept (x : string * GoValue) : bool :=
  match snd x with
  | Leaf KInt n => negb (String.eqb n "0") || String.eqb (fst x) "max_tokens" || String.eqb (fst x) "max_bytes"
  | Leaf KBool b => String.eqb b "true" || String.eqb (fst x) "truncated"
  | Leaf KString s => negb (String.eqb (trim_space s) "")
  | _ => true
  end.

Definition compactTruncationMeta (meta : list (string * GoValue)) : list (string * GoValue) := List.filter meta_kept meta.

Definition TruncationMetadata (info : TruncationInfo) : GoMap :=
  if negb (ti_Truncated info) then None else
  Some (compactTruncationMeta (map_of [
    ("truncated", go_bool (ti_Truncated info)); ("policy", go_string (ti_Policy info));
    ("max_tokens", go_int (ti_MaxTokens info)); ("max_bytes", go_int (ti_MaxBytes info));
    ("estimated_tokens", go_int (ti_EstimatedTokens info)); ("estimated_bytes", go_int (ti_EstimatedBytes info));
    ("removed_tokens", go_int (ti_RemovedTokens info)); ("removed_bytes", go_int (ti_RemovedBytes info));
    ("omitted_items", go_int (ti_OmittedItems info))]%string)).

(** *** Nested JSON *)

(** How many ASCII bytes the texts of a value hold at most: JSON inside a text
    has fewer, so this bounds how deep texts nest. *)
Definition ascii_count (s : list Z) : nat := length (List.filter (fun b => b <? 128) s).

Fixpoint text_size (v : GoValue) : nat :=
  match v with
  | Leaf KString t => ascii_count (bytes_of t)
  | Leaf _ _ => 0
  | Node _ items => foldr Nat.max O (map (fun x => text_size (snd x)) items)
  end.

Definition is_nil (v : GoValue) : bool := bool_decide (v = go_nil).

Section Truncate.
Context `{Json}.

Fixpoint estimateTokensForValue (v : GoValue) : Z :=
  match v with
  | Leaf KString t | Leaf KRaw t => estimateTextTokens (bytes_of t)
  | Node NMap items => sum (map (fun x => estimateTextTokens (bytes_of (fst x)) + estimateTokensForValue (snd x)) items)
  | Node NSlice items => sum (map (fun x => estimateTokensForValue (snd x)) items)
  | _ => estimateTextTokens (Sprint v)
  end.

Definition estimateTokensForJSONValue (v : GoValue) : Z :=
  match Marshal v with
  | Some data => estimateTextTokens data
  | None => estimateTokensForValue v
  end.

(** Of a [map[string]any] that may be nil. *)
Definition estimate_map (m : GoMap) : Z :=
  match m with Some items => estimateTokensForJSONValue (go_object items) | None => estimateTextTokens (bytes_of "null") end.

Definition mustMarshalMap (m : GoMap) : list Z :=
  match m with Some items => default (bytes_of "{}") (Marshal (go_object items)) | None => bytes_of "{}" end.
Definition mustMarshalAny (v : GoValue) : list Z := default (bytes_of "null") (Marshal v).

(** ** Values *)

(** [truncateValue] takes what remains of the budget and the number of omitted
    items, and gives both back with the value; nil stands for nothing left. *)
Definition truncation : Type := Z -> Z -> GoValue * Z * Z.

Section Nested.
(** How the JSON inside a text is truncated. *)
Variable nested : GoValue -> truncation.

Definition truncateJSONText (s : list Z) (remaining omitted : Z) : option (list Z) * Z :=
  let trimmed := bytes_of (trim_space (string_of s)) in
  if negb (match trimmed with b :: _ => (b =? 123) || (b =? 91) | [] => false end) then (None, omitted) else
  match Unmarshal trimmed with
  | None => (None, omitted)
  | Some parsed =>
    let '(truncated, _, omitted) := nested parsed remaining omitted in
    if is_nil truncated then (None, omitted) else
    match Marshal truncated with
    | None => (None, omitted)
    | Some result =>
      if remaining <? estimateTokensForJSONString result then
        let '(text, ok) := truncateTextForJSONBudget result remaining in
        (if ok then Some text else None, omitted)
      else (Some result, omitted)
    end
  end.

Definition truncate_string (t : string) : truncation := fun remaining omitted =>
  let v := bytes_of t in
  let cost := estimateTokensForJSONString v in
  if cost <=? remaining then (go_string t, remaining - cost, omitted) else
  let '(inside, omitted) := truncateJSONText v remaining omitted in
  match (truncated ← inside; if estimateTokensForJSONString truncated <=? remaining then Some truncated else None) with
  | Some truncated => (go_string (string_of truncated), remaining - estimateTokensForJSONString truncated, omitted)
  | None =>
    let '(text, ok) := truncateTextForJSONBudget v remaining in
    if negb ok then (go_nil, remaining, omitted + 1)
    else (go_string (string_of text), Z.max (remaining - estimateTokensForJSONString text) 0, omitted)
  end.

(** The entries of a map by increasing cost, then by key; [below] is how the
    value of an entry is truncated. *)
Record entry : Type := MkEntry { en_key : string; en_cost : Z; en_below : truncation }.

Definition entry_before (a b : entry) : bool :=
  if en_cost a =? en_cost b then String.ltb (en_key a) (en_key b) else en_cost a <? en_cost b.

Fixpoint insert_entry (e : entry) (es : list entry) : list entry :=
  match es with
  | [] => [e]
  | x :: es => if entry_before e x then e :: x :: es else x :: insert_entry e es
  end.
Definition sort_entries (es : list entry) : list entry := foldr insert_entry [] es.

Fixpoint truncate_entries (es : list entry) (out : list (string * GoValue)) (remaining omitted : Z)
    : list (string * GoValue) * Z * Z :=
  match es with
  | [] => (out, remaining, omitted)
  | e :: es =>
    if remaining <=? 0 then truncate_entries es out remaining (omitted + 1) else
    let keyCost := estimateTokensForJSONString (bytes_of (en_key e)) in
    if remaining <=? keyCost then truncate_entries es out remaining (omitted + 1) else
    let remaining := remaining - keyCost in
    let remainingKeys := Z.of_nat (length es) in
    let valueBudget := Z.max (remaining - remainingKeys) 1 in
    let set v out := if is_nil v then out else map_set (en_key e) v out in
    if valueBudget <? en_cost e then
      let '(v, subRemaining, omitted) := en_below e valueBudget omitted in
      truncate_entries es (set v out) (Z.max (remaining - (valueBudget - subRemaining)) 0) omitted
    else
      let '(v, remaining, omitted) := en_below e remaining omitted in
      truncate_entries es (set v out) remaining omitted
  end.

Fixpoint truncate_items (es : list truncation) (out : list GoValue) (remaining omitted : Z) : list GoValue * Z * Z :=
  match es with
  | [] => (out, remaining, omitted)
  | below :: es =>
    if remaining <=? 0 then truncate_items es out remaining (omitted + 1) else
    let '(v, remaining, omitted) := below remaining omitted in
    truncate_items es (if is_nil v then out else out ++ [v]) remaining omitted
  end.

Fixpoint truncate_node (v : GoValue) : truncation := fun remaining omitted =>
  if remaining <=? 0 then (go_nil, remaining, omitted + 1) else
  match v with
  | Leaf KString t => truncate_string t remaining omitted
  | Node NMap items =>
    let es := map (fun x => MkEntry (fst x) (estimateTokensForJSONValue (snd x)) (truncate_node (snd x))) items in
    let '(out, remaining, omitted) := truncate_entries (sort_entries es) [] remaining omitted in
    (go_object out, remaining, omitted)
  | Node NSlice items =>
    let '(out, remaining, omitted) := truncate_items (map (fun x => truncate_node (snd x)) items) [] remaining omitted in
    (Node NSlice (map (pair EmptyString) out), remaining, omitted)
  | _ =>
    let cost := estimateTokensForJSONValue v in
    if cost <=? remaining then (v, remaining - cost, omitted) else (go_nil, remaining, omitted + 1)
  end.
End Nested.

(** Each level of JSON inside a text takes one unit of fuel. *)
Fixpoint truncate_value (fuel : nat) : GoValue -> truncation :=
  truncate_node (match fuel with
                 | O => fun _ remaining omitted => (go_nil, remaining, omitted)
                 | S fuel => truncate_value fuel
                 end).

Definition truncateValue (v : GoValue) : truncation := truncate_value (text_size v) v.

(** ** Objects *)

(** The part of the input that may be truncated, and the fields to keep. *)
Definition protect (budgetTokens : Z) (key : string) (value : GoValue)
    (s : list (string * GoValue) * list (string * GoValue)) : list (string * GoValue) * list (string * GoValue) :=
  let '(body, protected) := s in
  let candidate := map_set key value protected in
  if estimateTokensForJSONValue (go_object candidate) <? budgetTokens then (map_delete key body, candidate) else s.

Definition splitProtectedJSONFields (input : list (string * GoValue)) (budgetTokens : Z)
    (trusted : list (string * GoValue)) : list (string * GoValue) * list (string * GoValue) :=
  let s := foldl (fun s x => if String.eqb (trim_space (fst x)) "" then s else protect budgetTokens (fst x) (snd x) s)
             (input, []) trusted in
  let hint := string_field "system_hint" (fst s) in
  if String.eqb (trim_space hint) "" then s else protect budgetTokens "system_hint" (go_string hint) s.

Definition mergeProtectedJSONFields (target protected : list (string * GoValue)) : list (string * GoValue) :=
  foldl (fun m x => map_set (fst x) (snd x) m) target protected.

Definition result_object (text : list Z) : list (string * GoValue) := [("result"%string, go_string (string_of text))].

(** The loop of [compactJSONMapFallback]; each turn lowers the estimate of the
    text, which is fuel enough. *)
Fixpoint compact_loop (fuel : nat) (text : list Z) (budgetTokens : Z) : list (string * GoValue) :=
  if (budgetTokens <? estimateTokensForJSONValue (go_object (result_object text))) && negb (bool_decide (text = [])) then
    match fuel with
    | O => result_object []
    | S fuel =>
      let nextBudget := Z.max (estimateTokensForJSONString text - 1) 0 in
      let '(next, ok) := truncateTextForJSONBudget text nextBudget in
      if negb ok || bool_decide (next = text) then result_object [] else compact_loop fuel next budgetTokens
    end
  else if budgetTokens <? estimateTokensForJSONValue (go_object (result_object text)) then []
  else result_object text.

Definition compactJSONMapFallback (input : list (string * GoValue)) (budgetTokens : Z) : list (string * GoValue) :=
  if budgetTokens <=? 0 then [] else
  let emptyCost := estimateTokensForJSONValue (go_object (result_object [])) in
  if budgetTokens <=? emptyCost then [] else
  let raw := default (Sprint (go_object input)) (Marshal (go_object input)) in
  let '(text, ok) := truncateTextForJSONBudget raw (budgetTokens - emptyCost) in
  if negb ok then result_object []
  else compact_loop (Z.to_nat (estimateTokensForJSONString text)) text budgetTokens.

(** The eight attempts of [truncateMapToJSONBudget]: a result that fits, or the
    omissions of the last attempt and the next target. *)
Fixpoint map_attempts (attempts : nat) (body protected : list (string * GoValue)) (budgetTokens target omitted : Z)
    : (list (string * GoValue) * Z) + (Z * Z) :=
  match attempts with
  | O => inr (omitted, target)
  | S attempts =>
    let '(truncated, _, omitted) := truncateValue (go_object body) target 0 in
    let out := mergeProtectedJSONFields (default [] (as_object truncated)) protected in
    if estimateTokensForJSONValue (go_object out) <=? budgetTokens then inl (out, omitted) else
    let over := estimateTokensForJSONValue (go_object out) - budgetTokens in
    let target := Z.min (Z.max (target - over - 8) 1) (Z.max (Z.quot (i64 (target * 9)) 10) 1) in
    map_attempts attempts body protected budgetTokens target omitted
  end.

Definition truncateMapToJSONBudget (input : list (string * GoValue)) (budgetTokens : Z)
    (trusted : list (string * GoValue)) : GoMap * Z :=
  let '(body, protected) := splitProtectedJSONFields input budgetTokens trusted in
  let target := match protected with
                | [] => budgetTokens
                | _ => Z.max (budgetTokens - estimateTokensForJSONValue (go_object protected)) 1
                end in
  match map_attempts 8 body protected budgetTokens target 0 with
  | inl (out, omitted) => (Some out, omitted)
  | inr (omitted, target) =>
    let fallback := mergeProtectedJSONFields (compactJSONMapFallback body target) protected in
    if estimateTokensForJSONValue (go_object fallback) <=? budgetTokens then (Some fallback, omitted + 1)
    else (match protected with [] => None | _ => Some protected end, omitted + 1)
  end.

(** The protected fields with a name, set in an object. *)
Definition set_protected (protected : list (string * GoValue)) (items : list (string * GoValue)) : list (string * GoValue) :=
  foldl (fun m x => if String.eqb (trim_space (fst x)) "" then m else map_set (fst x) (snd x) m) items protected.

Definition truncateMapWithProtectedJSONFields (input : GoMap) (policy : TruncationPolicy)
    (protected : list (string * GoValue)) : GoMap * TruncationInfo :=
  let info := newTruncationInfo policy in
  let budgetTokens := tokenBudget policy in
  match input with
  | None => (None, info)
  | Some items =>
    if budgetTokens <=? 0 then (input, info) else
    let prepared := set_protected protected items in
    let totalTokens := estimateTokensForJSONValue (go_object prepared) in
    let info := with_estimate totalTokens info in
    if totalTokens <=? budgetTokens then (Some prepared, info) else
    let '(out, omitted) := truncateMapToJSONBudget prepared budgetTokens protected in
    (out, with_removed totalTokens budgetTokens omitted info)
  end.

Definition TruncateMap (input : GoMap) (policy : TruncationPolicy) : GoMap * TruncationInfo :=
  truncateMapWithProtectedJSONFields input policy [].

Definition truncateJSONWithProtectedFields (raw : list Z) (policy : TruncationPolicy) (protected : list (string * GoValue))
    : list Z * TruncationInfo :=
  let info := newTruncationInfo policy in
  if (length raw =? 0)%nat || (tokenBudget policy <=? 0) then (raw, info) else
  match Unmarshal raw with
  | None =>
    let '(text, removed) := TruncateText raw policy in
    if removed =? 0 then (raw, info) else (mustMarshalAny (go_string (string_of text)), truncationInfoForText raw policy)
  | Some parsed =>
    match parsed with
    | Node NMap payload =>
      let '(out, mapInfo) := truncateMapWithProtectedJSONFields (Some payload) policy protected in
      (mustMarshalMap out, mapInfo)
    | _ =>
      let '(out, mapInfo) := TruncateMap (Some [("result"%string, parsed)]) policy in
      match map_index out "result" with
      | Some value => (mustMarshalAny value, mapInfo)
      | None => (mustMarshalMap out, mapInfo)
      end
    end
  end.

(** ** Parts *)

(** The cost of a JSON part: of its text as it is, and of the object in which
    it is stored. *)
Definition json_cost (value : list Z) : Z :=
  let cost := estimateTextTokens value in
  match Unmarshal value with
  | None => cost
  | Some decoded =>
    let payload := match decoded with
                   | Node NMap _ => decoded
                   | _ => go_object [("result"%string, decoded)]
                   end in
    Z.max cost (estimateTokensForJSONValue payload)
  end.

Definition text_cost (text : list Z) : Z := estimateTokensForJSONValue (go_object (result_object text)).

Fixpoint estimate_part (part : Part) : Z :=
  match part with
  | MkPart h result content =>
    match ph_Text h with
    | Some t => text_cost (bytes_of (tp_Text t))
    | None =>
      match ph_JSON h with
      | Some value => json_cost (bytes_of value)
      | None => match result with Some _ => sum (map estimate_part content) | None => 0 end
      end
    end
  end.

Definition estimateTokensForParts (parts : list Part) : Z := sum (map estimate_part parts).

Definition ResultNeedsTruncation (content : list Part) (policy : TruncationPolicy) : bool :=
  let policy := if tokenBudget policy <=? 0 then DefaultTruncationPolicy else policy in
  tokenBudget policy <? estimateTokensForParts content.

Definition PartKindText : string := "text".
Definition PartKindJSON : string := "json".
Definition NewTextPart (text : string) : Part :=
  MkPart (MkHead PartKindText (Some (MkTextPart text [])) None None None None None) None [].
Definition NewJSONPart (raw : string) : Part :=
  MkPart (MkHead PartKindJSON None None None None (Some raw) None) None [].

Definition omissionNotice : Part := NewTextPart "[additional tool result content omitted]".

Definition set_json (raw : string) (part : Part) : Part :=
  match part with
  | MkPart h r c => MkPart (MkHead (ph_Kind h) (ph_Text h) (ph_Reasoning h) (ph_ToolUse h) (ph_Media h) (Some raw) (ph_FileRef h)) r c
  end.
Definition set_text (text : string) (part : Part) : Part :=
  match part with
  | MkPart h r c =>
    MkPart (MkHead (ph_Kind h) ((fun t => MkTextPart text (tp_Citations t)) <$> ph_Text h)
              (ph_Reasoning h) (ph_ToolUse h) (ph_Media h) (ph_JSON h) (ph_FileRef h)) r c
  end.

Definition part_json (part : Part) : option string := ph_JSON (part_head part).
Definition part_text (part : Part) : option TextPart := ph_Text (part_head part).

(** The first JSON part that decodes into a map receives the protected fields:
    the parts and its index.  [null] decodes into a nil map, and setting a field
    of it panics ([None]). *)
Fixpoint inject_fields (index : Z) (parts : list Part) (protected : list (string * GoValue)) : option (list Part * Z) :=
  match parts with
  | [] => Some ([], -1)
  | part :: parts =>
    let skip := '(parts, i) ← inject_fields (index + 1) parts protected; Some (part :: parts, i) in
    match part_json part with
    | None => skip
    | Some value =>
      match Unmarshal_map (bytes_of value) with
      | None => skip
      | Some (Some payload) =>
        Some (set_json (string_of (mustMarshalMap (Some (set_protected protected payload)))) part :: parts, index)
      | Some None =>
        if forallb (fun x => String.eqb (trim_space (fst x)) "") protected
        then Some (set_json (string_of (mustMarshalMap None)) part :: parts, index)
        else None
      end
    end
  end.

Definition injectProtectedJSONFields (parts : list Part) (protected : list (string * GoValue)) : option (list Part * Z) :=
  match protected with
  | [] => Some (CloneParts parts, -1)
  | _ => inject_fields 0 (CloneParts parts) protected
  end.

(** The loop of [truncatePartsWithProtectedJSONFields] over the prepared parts. *)
Section Loop.
Variable protected : list (string * GoValue).
Variables protectedPart protectedReserve : Z.

Fixpoint parts_loop (parts : list Part) (index remaining omitted : Z) : list Part * Z :=
  match parts with
  | [] => ([], omitted)
  | part :: parts =>
    let available := if index <? protectedPart then Z.max (remaining - protectedReserve) 0 else remaining in
    let cost := estimate_part part in
    let next := parts_loop parts (index + 1) in
    let keep (part : Part) (r : list Part * Z) := (part :: fst r, snd r) in
    match part_json part, part_text part with
    | Some raw, _ =>
      if available <=? 0 then next remaining (omitted + 1)
      else if cost <=? available then keep part (next (remaining - cost) omitted)
      else
        let fields := if index =? protectedPart then protected else [] in
        let '(truncatedRaw, subInfo) := truncateJSONWithProtectedFields (bytes_of raw) (tokens_policy available) fields in
        keep (set_json (string_of truncatedRaw) part) (next (remaining - available) (omitted + ti_OmittedItems subInfo))
    | None, Some text =>
      if available <=? 0 then next remaining (omitted + 1)
      else if cost <=? available then keep part (next (remaining - cost) omitted)
      else
        let '(payload, subInfo) := TruncateMap (Some (result_object (bytes_of (tp_Text text)))) (tokens_policy available) in
        match map_index payload "result" ≫= as_string with
        | Some t => keep (set_text t part) (next (remaining - available) (omitted + ti_OmittedItems subInfo))
        | None => next (remaining - available) (omitted + 1 + ti_OmittedItems subInfo)
        end
    | None, None => keep part (next remaining omitted)
    end
  end.
End Loop.

Definition is_content (part : Part) : bool :=
  match part_text part, part_json part with None, None => false | _, _ => true end.

(** [None] is a panic. *)
Definition truncatePartsWithProtectedJSONFields (parts : list Part) (policy : TruncationPolicy)
    (protected : list (string * GoValue)) : option (list Part * TruncationInfo) :=
  let info := newTruncationInfo policy in
  let budgetTokens := tokenBudget policy in
  if budgetTokens <=? 0 then Some (CloneParts parts, info) else
  '(prepared, protectedPart) ← injectProtectedJSONFields parts protected;
  let totalTokens := estimateTokensForParts prepared in
  let info := with_estimate totalTokens info in
  if totalTokens <=? budgetTokens then Some (prepared, info) else
  let contentParts := length (List.filter is_content prepared) in
  let remaining := if (1 <? contentParts)%nat then Z.max (budgetTokens - estimateTokensForParts [omissionNotice]) 0 else budgetTokens in
  let cost := estimateTokensForJSONValue (go_object (map_of protected)) + 1 in
  let protectedReserve := if (0 <=? protectedPart) && (cost <=? remaining) then cost else 0 in
  let '(out, omitted) := parts_loop protected protectedPart protectedReserve prepared 0 remaining 0 in
  let out := if (0 <? omitted) && (estimateTokensForParts out + estimateTokensForParts [omissionNotice] <=? budgetTokens)
             then out ++ [omissionNotice] else out in
  Some (out, with_removed totalTokens budgetTokens omitted info).
End Truncate.
