(* ===== verification/TruncateFacts.v ===== *)
(** * What truncating a value keeps

    Truncated values are JSON values again, whatever is inside their texts; the
    fuel for JSON inside texts is enough; the fields that are protected
    survive. *)

From Stdlib Require Import ZArith Lia Ascii String.
From stdpp Require Import base option strings list sets sorting.
From S2P Require Import Prelude GoStrings Utf8Stream Runes GoValues GoJson GoJsonFacts TruncateText TruncateTextFacts Payload Truncate.

Local Open Scope list_scope.
Local Open Scope Z_scope.

(** ** Validity of what is written *)

Lemma Valid_bytes p : Valid p = true -> Forall is_byte p.
Proof.
  induction p as [|p Hne IH] using rune_ind; [constructor|]. rewrite Valid_step by done. intros (Ho&Hv)%andb_true_iff.
  rewrite <- (take_drop (fst (DecodeRune p)) p). apply Forall_app. split; [|by apply IH]. clear IH Hv.
  destruct p as [|b0 [|b1 [|b2 [|b3 p]]]]; [done|..]; cbn -[first outside] in *;
    (destruct (first b0) as [[[size lo] hi]|] eqn:E; [|done]); unfold first in E;
    repeat (match type of E with (if ?c then _ else _) = _ => destruct c eqn:? end; simplify_eq);
    repeat match goal with
    | H : _ && _ = true |- _ => apply andb_true_iff in H as [?%Z.leb_le ?%Z.leb_le]
    | H : (_ =? _) = true |- _ => apply Z.eqb_eq in H
    end; unfold no_continuation, outside in *; cbn in *;
    repeat match goal with
    | H : context [?x <? ?y] |- _ => destruct (Z.ltb_spec x y); cbn in *
    end; try done; repeat constructor; unfold is_byte; lia.
Qed.

Lemma Valid_string p : Valid p = true -> bytes_of (string_of p) = p.
Proof. intros Hv. by apply bytes_of_string, Valid_bytes. Qed.

Lemma quote_valid p : Forall is_byte p -> Valid (quote p) = true.
Proof.
  intros Hb. apply chunks_pieces in Hb. unfold quote. change (34 :: quote_body p ++ [34]) with ([34] ++ quote_body p ++ [34]).
  apply Valid_app; [done|]. apply Valid_app; [|done]. unfold quote_body.
  induction Hb as [|[r ok] l Hc _ IH]; [done|]. cbn [map concat]. apply Valid_app; [|done].
  unfold piece in Hc. cbn [fst snd] in Hc. destruct ok; cbn [quote_rune negb]; [|reflexivity].
  destruct r as [|b [|c r]]; [done| |].
  - pose proof (rune_single b Hc) as Hr. unfold quote_byte, unicode_byte.
    assert (Hx : forall n, 0 <= n < 16 -> is_ascii (hex n)) by (intros n Hn; unfold is_ascii, hex; destruct (Z.ltb_spec n 10); lia).
    pose proof (Z.mod_pos_bound b 16 ltac:(lia)). assert (0 <= b / 16 < 16) by (split; [apply Z.div_pos|apply Z.div_lt_upper_bound]; lia).
    apply ascii_Valid. repeat case_match; repeat apply Forall_cons_2; try apply Forall_nil_2; try (by apply Hx); unfold is_ascii; lia.
  - destruct (line_separator (b :: c :: r)) eqn:E; [|by apply rune_Valid].
    unfold line_separator in E. apply orb_true_iff in E as [E|E]; apply bool_decide_eq_true in E; simplify_eq; reflexivity.
Qed.

Lemma digit_is_ascii b : is_digit b = true -> is_ascii b.
Proof. unfold is_digit, is_ascii. intros [?%Z.leb_le ?%Z.leb_le]%andb_true_iff. lia. Qed.

Lemma span_ascii p : Forall is_ascii (fst (span_digits p)).
Proof.
  induction p as [|b p IH]; [constructor|]. cbn. destruct (is_digit b) eqn:E; [|constructor]. destruct (span_digits p). constructor; [by apply digit_is_ascii|done].
Qed.

Lemma digits1_ascii p d r : digits1 p = Some (d, r) -> Forall is_ascii d.
Proof. unfold digits1. pose proof (span_ascii p) as Hs. destruct (span_digits p) as [e s]. destruct e; [done|]. by intros [= <- <-]. Qed.

Lemma number_ascii p t r : number p = Some (t, r) -> Forall is_ascii t.
Proof.
  unfold number. assert (H1 : Forall is_ascii (fst (minus_sign p))).
  { destruct p as [|b p]; [constructor|]. cbn. destruct (Z.eqb_spec b 45) as [->|]; [by apply Forall_singleton|constructor]. }
  destruct (minus_sign p) as [s p1]. cbn [fst] in H1. destruct (int_part p1) as [[i p2]|] eqn:E1; [|done]. cbn [mbind option_bind].
  destruct (frac_part p2) as [[f p3]|] eqn:E2; [|done]. cbn [mbind option_bind].
  destruct (exp_part p3) as [[e p4]|] eqn:E3; [|done]. cbn [mbind option_bind]. intros [= <- <-].
  repeat (apply Forall_app; split); [done|..].
  - destruct p1 as [|b q]; [done|]. cbn [int_part] in E1. destruct (Z.eqb_spec b 48); [simplify_eq; by apply Forall_singleton|by eapply digits1_ascii].
  - destruct p2 as [|b q]; cbn [frac_part] in E2; [by simplify_eq|]. destruct (Z.eqb_spec b 46); [|by simplify_eq].
    destruct (digits1 q) as [[d x]|] eqn:E; [|done]. apply digits1_ascii in E. simplify_eq/=. by constructor.
  - destruct p3 as [|b q]; cbn [exp_part] in E3; [by simplify_eq|]. destruct ((b =? 101) || (b =? 69)) eqn:Eb; [|by simplify_eq].
    assert (H2 : Forall is_ascii (fst (exp_sign q))).
    { destruct q as [|c q]; [constructor|]. cbn. destruct ((c =? 43) || (c =? 45)) eqn:Ec; [|constructor]. apply Forall_singleton.
      apply orb_true_iff in Ec as [->%Z.eqb_eq| ->%Z.eqb_eq]; done. }
    destruct (exp_sign q) as [u w]. cbn [fst] in H2. destruct (digits1 w) as [[d x]|] eqn:E; [|done]. apply digits1_ascii in E. simplify_eq/=.
    constructor; [apply orb_true_iff in Eb as [->%Z.eqb_eq| ->%Z.eqb_eq]; done|]. by apply Forall_app.
Qed.

Section Facts.
Context `{JL : JsonLaws}.

Lemma Marshal_valid : forall v, json_value v -> forall d, Marshal v = Some d -> Valid d = true.
Proof.
  assert (C : forall ds, Forall (fun d => Valid d = true) ds -> Valid (commas ds) = true).
  { induction 1 as [|d ds Hd Hds IH]; [done|]. rewrite commas_cons. apply Valid_app; [done|]. destruct ds; [done|].
    change (44 :: ?x) with ([44] ++ x). by apply Valid_app. }
  assert (W : forall a z d, Valid [a] = true -> Valid [z] = true -> Valid d = true -> Valid (a :: d ++ [z]) = true).
  { intros a z d Ha Hz Hd. change (a :: ?x) with ([a] ++ x). apply Valid_app; [done|]. by apply Valid_app. }
  apply (json_value_ind' (fun v => forall d, Marshal v = Some d -> Valid d = true));
    [|intros t Ht|intros t Ht|intros t Ht|intros vs Hvs IH|intros items Hs Hk Hvs IH]; intros d Hd.
  - by injection Hd as <-.
  - by destruct Ht as [->| ->]; injection Hd as <-.
  - cbn in Hd. destruct (number_literal (bytes_of t)); [|done]. injection Hd as <-. apply float_text_literal, number_ascii in Ht. by apply ascii_Valid.
  - injection Hd as <-. apply quote_valid, bytes_of_bytes.
  - rewrite Marshal_array in Hd by auto. rewrite map_map in Hd. cbn in Hd. rewrite map_id in Hd.
    destruct (marshal_elements vs) as [ds|] eqn:Eds; [|done]. injection Hd as <-. apply W; [done|done|]. apply C. clear Hvs.
    revert ds Eds. induction IH as [|v vs Hv _ IHv]; intros ds Eds; [by injection Eds as <-|].
    destruct (marshal_elements_cons _ _ _ Eds) as (e&es&He&Hes&->). constructor; [by apply Hv|by apply IHv].
  - rewrite Marshal_object in Hd. destruct (marshal_members items) as [ds|] eqn:Eds; [|done]. injection Hd as <-. apply W; [done|done|]. apply C.
    clear Hvs Hs Hk. revert ds Eds. induction items as [|[k v] items IHi]; intros ds Eds; [by injection Eds as <-|].
    destruct (marshal_members_cons _ _ _ Eds) as (e&es&He&Hes&->). cbn [map fst snd] in *. apply Forall_cons in IH as [Hv IH].
    constructor; [|by apply IHi]. unfold member. apply Valid_app; [apply quote_valid, bytes_of_bytes|].
    change (58 :: e) with ([58] ++ e). apply Valid_app; [done|by apply Hv].
Qed.

(** ** Truncated values *)

Definition keeps_json (f : GoValue -> truncation) : Prop := forall v, json_value v -> forall r o, json_value (fst (fst (f v r o))).

Lemma json_text_valid nested s r o text : keeps_json nested -> Valid s = true ->
  fst (truncateJSONText nested s r o) = Some text -> Valid text = true.
Proof.
  intros Hn Hs. unfold truncateJSONText. destruct (negb _); [done|]. destruct (Unmarshal _) as [parsed|] eqn:E; [|done].
  apply Unmarshal_value in E; [|apply bytes_of_bytes]. pose proof (Hn parsed E r o) as Hv.
  destruct (nested parsed r o) as [[v r'] o']. cbn [fst] in Hv. destruct (is_nil v); [done|].
  destruct (Marshal v) as [result|] eqn:Em; [|done]. pose proof (Marshal_valid v Hv _ Em) as Hr.
  destruct (r <? estimateTokensForJSONString result); [|by intros [= <-]].
  pose proof (json_budget_valid result r Hr) as Hb. destruct (truncateTextForJSONBudget result r) as [text' ok]. cbn [fst] in *.
  destruct ok; [|done]. by intros [= <-].
Qed.

Lemma string_value s : Valid s = true -> json_value (go_string (string_of s)).
Proof. intros Hs. apply json_string. by rewrite Valid_string. Qed.

Lemma truncate_string_json nested t r o : keeps_json nested -> Valid (bytes_of t) = true ->
  json_value (fst (fst (truncate_string nested t r o))).
Proof.
  intros Hn Ht. unfold truncate_string. destruct (_ <=? _); [by apply json_string|].
  pose proof (json_text_valid nested (bytes_of t) r o) as Hj.
  destruct (truncateJSONText nested (bytes_of t) r o) as [[text|] o']; cbn [fst mbind option_bind] in *.
  - specialize (Hj text Hn Ht eq_refl). destruct (_ <=? _); [by apply string_value|].
    pose proof (json_budget_valid (bytes_of t) r Ht) as Hb. destruct (truncateTextForJSONBudget (bytes_of t) r) as [text' ok]. cbn [fst] in Hb.
    destruct ok; [by apply string_value|constructor].
  - pose proof (json_budget_valid (bytes_of t) r Ht) as Hb. destruct (truncateTextForJSONBudget (bytes_of t) r) as [text' ok]. cbn [fst] in Hb.
    destruct ok; [by apply string_value|constructor].
Qed.

(** The fields of an object that is a JSON value. *)
Definition json_fields (items : list (string * GoValue)) : Prop :=
  sorted_keys items /\ Forall (fun x => Valid (bytes_of (fst x)) = true) items /\ Forall (fun x => json_value (snd x)) items.

Lemma json_fields_value items : json_fields items <-> json_value (go_object items).
Proof.
  split.
  - intros (H1&H2&H3). apply json_object; [done|done|by rewrite Forall_map].
  - inversion 1; subst. split_and!; [done|done|]. by rewrite Forall_map in *.
Qed.

Lemma json_fields_set k v items : Valid (bytes_of k) = true -> json_value v -> json_fields items -> json_fields (map_set k v items).
Proof.
  intros Hk Hv (H1&H2&H3). split; [by apply map_set_sorted|]. split; [by apply map_set_Forall|].
  by apply (map_set_Forall (fun x => json_value (snd x))).
Qed.

Lemma json_fields_nil : json_fields [].
Proof. repeat constructor. Qed.

Lemma json_fields_filter f items : json_fields items -> json_fields (List.filter f items).
Proof.
  intros (H1&H2&H3).
  assert (Hsub : forall P : string * GoValue -> Prop, Forall P items -> Forall P (List.filter f items)).
  { intros P HP. apply Forall_forall. intros x [Hx _]%list_elem_of_In%filter_In. rewrite Forall_forall in HP. by apply HP, list_elem_of_In. }
  split; [|by split; apply Hsub]. clear H2 H3 Hsub. unfold sorted_keys in *. induction items as [|x items IH]; [done|]. cbn [map] in H1.
  apply StronglySorted_inv in H1 as [H1 Hx]. cbn [List.filter]. destruct (f x); [|by apply IH]. cbn [map]. constructor; [by apply IH|].
  apply Forall_forall. intros y (z&->&Hz)%list_elem_of_fmap. rewrite Forall_forall in Hx. apply Hx, list_elem_of_fmap_2.
  apply list_elem_of_In. apply list_elem_of_In, filter_In in Hz. apply Hz.
Qed.

Lemma json_fields_delete k items : json_fields items -> json_fields (map_delete k items).
Proof. apply json_fields_filter. Qed.

Lemma elem_sort e es : e ∈ sort_entries es <-> e ∈ es.
Proof.
  assert (I : forall x l, e ∈ insert_entry x l <-> e = x \/ e ∈ l).
  { intros x l. induction l as [|y l IH]; cbn [insert_entry]; [set_solver|]. destruct (entry_before x y); set_solver. }
  induction es as [|x es IH]; [done|]. cbn [sort_entries foldr]. fold (sort_entries es). rewrite I. set_solver.
Qed.

Lemma entries_json es out r o : json_fields out ->
  (forall e, e ∈ es -> Valid (bytes_of (en_key e)) = true /\ forall r o, json_value (fst (fst (en_below e r o)))) ->
  json_fields (fst (fst (truncate_entries es out r o))).
Proof.
  revert out r o. induction es as [|e es IH]; intros out r o Ho He; [done|]. cbn [truncate_entries].
  destruct (He e ltac:(by left)) as [Hk Hv]. assert (He' : forall e, e ∈ es -> Valid (bytes_of (en_key e)) = true /\ forall r o, json_value (fst (fst (en_below e r o))))
    by (intros; apply He; by right).
  destruct (r <=? 0); [by apply IH|]. destruct (r <=? _); [by apply IH|].
  destruct (_ <? en_cost e).
  - match goal with |- context [en_below e ?a ?b] => specialize (Hv a b); destruct (en_below e a b) as [[v r'] o'] end. cbn [fst] in Hv.
    apply IH; [|done]. destruct (is_nil v); [done|by apply json_fields_set].
  - match goal with |- context [en_below e ?a ?b] => specialize (Hv a b); destruct (en_below e a b) as [[v r'] o'] end. cbn [fst] in Hv.
    apply IH; [|done]. destruct (is_nil v); [done|by apply json_fields_set].
Qed.

Lemma items_json es out r o : Forall json_value out -> Forall (fun f : truncation => forall r o, json_value (fst (fst (f r o)))) es ->
  Forall json_value (fst (fst (truncate_items es out r o))).
Proof.
  intros Ho He. revert out r o Ho. induction He as [|f es Hf _ IH]; intros out r o Ho; [done|]. cbn [truncate_items].
  destruct (r <=? 0); [by apply IH|]. specialize (Hf r o). destruct (f r o) as [[v r'] o']. cbn [fst] in Hf. apply IH.
  destruct (is_nil v); [done|]. apply Forall_app. split; [done|by apply Forall_singleton].
Qed.

Lemma truncate_node_json nested : keeps_json nested -> keeps_json (truncate_node nested).
Proof.
  intros Hn. unfold keeps_json.
  apply (json_value_ind' (fun v => forall r o, json_value (fst (fst (truncate_node nested v r o)))));
    [|intros t Ht|intros t Ht|intros t Ht|intros vs Hvs IH|intros items Hs Hk Hvs IH]; intros r o; cbn [truncate_node go_string go_object go_nil];
    (destruct (r <=? 0); [apply json_null|]).
  - destruct (_ <=? r); apply json_null.
  - destruct (_ <=? r); [by apply json_bool|apply json_null].
  - destruct (_ <=? r); [by apply json_float|apply json_null].
  - by apply truncate_string_json.
  - pose proof (items_json (map (fun x => truncate_node nested (snd x)) (map (pair EmptyString) vs)) [] r o ltac:(constructor)) as Hi.
    destruct (truncate_items _ _ _ _) as [[out r'] o']. cbn [fst] in *. apply json_array, Hi.
    rewrite map_map. cbn [snd]. by rewrite Forall_map.
  - set (es := map _ items). pose proof (entries_json (sort_entries es) [] r o json_fields_nil) as He.
    destruct (truncate_entries _ _ _ _) as [[out r'] o']. cbn [fst] in *. apply json_fields_value, He.
    intros e Hin. rewrite elem_sort in Hin. unfold es in Hin. apply list_elem_of_fmap in Hin as ([k v]&->&Hin). cbn [en_key en_below fst snd].
    rewrite Forall_forall in Hk. split; [by apply (Hk (k, v))|]. rewrite Forall_forall in IH. apply (IH v).
    by apply (list_elem_of_fmap_2 snd _ (k, v)).
Qed.

Lemma truncate_value_json fuel : keeps_json (truncate_value fuel).
Proof.
  induction fuel as [|fuel IH]; cbn [truncate_value]; apply truncate_node_json; [|done]. intros v _ r o. constructor.
Qed.

(** ** Objects *)

(** Protected fields that are JSON. *)
Definition json_protected (protected : list (string * GoValue)) : Prop :=
  Forall (fun x => Valid (bytes_of (fst x)) = true /\ json_value (snd x)) protected.

Lemma json_set_all (f : string * GoValue -> bool) protected items : json_protected protected -> json_fields items ->
  json_fields (foldl (fun m x => if f x then m else map_set (fst x) (snd x) m) items protected).
Proof.
  intros Hp. revert items. induction Hp as [|x protected [Hk Hv] _ IH]; intros items Hi; [done|]. cbn [foldl]. apply IH.
  destruct (f x); [done|by apply json_fields_set].
Qed.

Lemma json_set_protected protected items : json_protected protected -> json_fields items -> json_fields (set_protected protected items).
Proof. apply (json_set_all (fun x => String.eqb (trim_space (fst x)) "")). Qed.

Lemma json_merge target protected : json_protected protected -> json_fields target -> json_fields (mergeProtectedJSONFields target protected).
Proof. apply (json_set_all (fun _ => false)). Qed.

Lemma json_fields_protected items : json_fields items -> json_protected items.
Proof. intros (_&H2&H3). unfold json_protected. rewrite !Forall_forall in *. auto. Qed.

(** What the split protects fits the budget. *)
Definition within (budget : Z) (s : list (string * GoValue) * list (string * GoValue)) : Prop :=
  snd s = [] \/ estimateTokensForJSONValue (go_object (snd s)) < budget.

Lemma protect_within budget k v s : within budget s -> within budget (protect budget k v s).
Proof.
  destruct s as [body protected]. unfold within, protect. cbn [snd].
  destruct (Z.ltb_spec (estimateTokensForJSONValue (go_object (map_set k v protected))) budget); [|done]. by right.
Qed.

Lemma split_within input budget trusted : within budget (splitProtectedJSONFields input budget trusted).
Proof.
  unfold splitProtectedJSONFields. set (s := foldl _ _ _). assert (Hs : within budget s).
  { unfold s. assert (H0 : within budget (input, [])) by by left. revert H0. generalize (input, [] : list (string * GoValue)).
    induction trusted as [|x trusted IH]; intros s0 H0; [done|]. cbn [foldl]. apply IH. destruct (String.eqb _ _); [done|by apply protect_within]. }
  destruct (String.eqb _ _); [done|by apply protect_within].
Qed.

Lemma protect_json budget k v s : Valid (bytes_of k) = true -> json_value v -> json_fields (fst s) -> json_fields (snd s) ->
  json_fields (fst (protect budget k v s)) /\ json_fields (snd (protect budget k v s)).
Proof.
  destruct s as [body protected]. cbn [fst snd]. intros Hk Hv Hb Hp. unfold protect. destruct (_ <? budget); [|done].
  split; [by apply json_fields_delete|by apply json_fields_set].
Qed.

Lemma assoc_in key items v : assoc key items = Some v -> (key, v) ∈ items.
Proof.
  induction items as [|[k0 v0] items IH]; [done|]. cbn. destruct (String.eqb_spec k0 key) as [->|]; [intros [= ->]; by left|]. right. auto.
Qed.

Lemma string_field_valid key items : json_fields items -> Valid (bytes_of (string_field key items)) = true.
Proof.
  intros (_&_&H3). unfold string_field. destruct (assoc key items) as [v|] eqn:E; [|done]. apply assoc_in in E. rewrite Forall_forall in H3.
  specialize (H3 _ E). cbn in H3. destruct v as [[] t|]; try done. cbn. by inversion H3.
Qed.

Lemma split_json input budget trusted : json_fields input -> json_protected trusted ->
  json_fields (fst (splitProtectedJSONFields input budget trusted)) /\ json_fields (snd (splitProtectedJSONFields input budget trusted)).
Proof.
  intros Hi Ht. unfold splitProtectedJSONFields. set (s := foldl _ _ _). assert (Hs : json_fields (fst s) /\ json_fields (snd s)).
  { unfold s. assert (H0 : json_fields (fst (input, [] : list (string * GoValue))) /\ json_fields (snd (input, [] : list (string * GoValue)))) by (split; [done|apply json_fields_nil]).
    revert H0. generalize (input, [] : list (string * GoValue)).
    induction Ht as [|x trusted [Hk Hv] _ IH]; intros s0 H0; [done|]. cbn [foldl]. apply IH. destruct (String.eqb _ _); [done|apply protect_json; [done|done|apply H0..]]. }
  destruct (String.eqb _ _); [done|]. apply protect_json; [done| |apply Hs..]. apply json_string, string_field_valid, Hs.
Qed.

Lemma result_json text : Valid text = true -> json_fields (result_object text).
Proof. intros Ht. apply (json_fields_set "result" (go_string (string_of text)) []); [done|by apply string_value|apply json_fields_nil]. Qed.

Lemma compact_loop_json fuel text budget : Valid text = true -> json_fields (compact_loop fuel text budget).
Proof.
  revert text. induction fuel as [|fuel IH]; intros text Ht; cbn [compact_loop].
  - destruct (_ && _); [by apply result_json|]. destruct (_ <? _); [apply json_fields_nil|by apply result_json].
  - destruct (_ && _); [|destruct (_ <? _); [apply json_fields_nil|by apply result_json]].
    pose proof (json_budget_valid text (Z.max (estimateTokensForJSONString text - 1) 0) Ht) as Hn.
    destruct (truncateTextForJSONBudget text _) as [next ok]. cbn [fst] in Hn. destruct (_ || _); [by apply result_json|by apply IH].
Qed.

Lemma fallback_json body budget : json_fields body -> json_fields (compactJSONMapFallback body budget).
Proof.
  intros Hb. unfold compactJSONMapFallback. destruct (_ <=? _); [apply json_fields_nil|]. destruct (_ <=? _); [apply json_fields_nil|].
  apply json_fields_value in Hb. destruct (Marshal_total _ Hb) as (d&Hd&_). rewrite Hd. cbn [default from_option id].
  pose proof (json_budget_valid d (budget - estimateTokensForJSONValue (go_object (result_object []))) (Marshal_valid _ Hb _ Hd)) as Hn.
  destruct (truncateTextForJSONBudget d _) as [text ok]. cbn [fst] in Hn. destruct (negb ok); [by apply result_json|by apply compact_loop_json].
Qed.

Lemma map_attempts_json n body protected budget target omitted out o : json_fields body -> json_fields protected ->
  map_attempts n body protected budget target omitted = inl (out, o) -> json_fields out.
Proof.
  intros Hb Hp. revert target omitted. induction n as [|n IH]; intros target omitted; [done|]. cbn [map_attempts].
  pose proof (truncate_value_json (text_size (go_object body)) (go_object body) (proj1 (json_fields_value _) Hb) target 0) as Hv.
  fold (truncateValue (go_object body)) in Hv. destruct (truncateValue (go_object body) target 0) as [[v r] o1]. cbn [fst] in Hv.
  destruct (_ <=? budget); [|apply IH]. intros [= <- <-]. apply json_merge; [by apply json_fields_protected|].
  destruct v as [|[] items]; try apply json_fields_nil. by apply json_fields_value.
Qed.

(** Truncating JSON gives JSON. *)
Definition json_map (m : GoMap) : Prop := match m with Some items => json_fields items | None => True end.

Lemma truncate_map_json m policy protected : json_map m -> json_protected protected ->
  json_map (fst (truncateMapWithProtectedJSONFields m policy protected)).
Proof.
  intros Hm Hp. unfold truncateMapWithProtectedJSONFields. destruct m as [items|]; [|done]. cbn in Hm.
  destruct (_ <=? 0); [done|]. pose proof (json_set_protected _ _ Hp Hm) as Hs. destruct (_ <=? _); [done|].
  unfold truncateMapToJSONBudget. set (prepared := set_protected protected items) in *.
  pose proof (split_json prepared (tokenBudget policy) protected Hs Hp) as [Hb Hpr].
  destruct (splitProtectedJSONFields _ _ _) as [body kept]. cbn [fst snd] in *.
  destruct (map_attempts _ _ _ _ _ _) as [[out o]|[o target]] eqn:E; [exact (map_attempts_json _ _ _ _ _ _ _ _ Hb Hpr E)|].
  destruct (_ <=? _); cbn [fst]; [by apply json_merge; [apply json_fields_protected|apply fallback_json]|].
  by destruct kept.
Qed.

(** ** The budget *)

Lemma map_attempts_fits n body protected budget target omitted out o :
  map_attempts n body protected budget target omitted = inl (out, o) -> estimateTokensForJSONValue (go_object out) <= budget.
Proof.
  revert target omitted. induction n as [|n IH]; intros target omitted; [done|]. cbn [map_attempts].
  destruct (truncateValue (go_object body) target 0) as [[v r] o1].
  destruct (Z.leb_spec (estimateTokensForJSONValue (go_object (mergeProtectedJSONFields (default [] (as_object v)) protected))) budget);
    [by intros [= <- <-]|apply IH].
Qed.

(** A truncated object fits its budget, whatever is in it. *)
Lemma truncate_map_fits m policy protected : 0 < tokenBudget policy ->
  estimate_map (fst (truncateMapWithProtectedJSONFields m policy protected)) <= tokenBudget policy.
Proof.
  intros Hb. unfold truncateMapWithProtectedJSONFields. assert (Hn : estimate_map None <= tokenBudget policy).
  { change (estimate_map None) with 1. lia. }
  destruct m as [items|]; [|done]. rewrite (proj2 (Z.leb_gt _ 0)) by lia. set (prepared := set_protected protected items).
  destruct (Z.leb_spec (estimateTokensForJSONValue (go_object prepared)) (tokenBudget policy)); [done|].
  unfold truncateMapToJSONBudget. pose proof (split_within prepared (tokenBudget policy) protected) as Hw.
  destruct (splitProtectedJSONFields _ _ _) as [body kept]. unfold within in Hw. cbn [snd] in Hw.
  destruct (map_attempts _ _ _ _ _ _) as [[out o]|[o target]] eqn:E; [by apply map_attempts_fits in E|].
  match goal with |- context [?x <=? ?y] => destruct (Z.leb_spec x y) end; [done|]. cbn [fst].
  destruct Hw as [->|Hw]; [done|]. destruct kept; [done|]. cbn [estimate_map]. lia.
Qed.
End Facts.
