(* ===== verification/TruncateFuel.v ===== *)
(** * JSON inside texts ends

    A text that holds JSON is truncated inside, and so are the texts in that
    JSON.  Each level has fewer ASCII bytes than the text around it, so the fuel
    of [truncateValue] is enough ([truncate_value_enough]); the loops that keep
    lines and the fallback end as well. *)

From Stdlib Require Import ZArith Lia Ascii String.
From stdpp Require Import base option strings list sets sorting.
From S2P Require Import Prelude GoStrings GoText Utf8Stream Runes GoValues GoJson GoJsonFacts TruncateText TruncateTextFacts Truncate TruncateFacts.

Local Open Scope list_scope.
Local Open Scope Z_scope.

(** ** ASCII bytes *)

Lemma ascii_app a b : ascii_count (a ++ b) = (ascii_count a + ascii_count b)%nat.
Proof. unfold ascii_count. by rewrite List.filter_app, length_app. Qed.

Lemma ascii_cons b s : ascii_count (b :: s) = ((if (b <? 128)%Z then 1 else 0) + ascii_count s)%nat.
Proof. unfold ascii_count. cbn. by destruct (b <? 128). Qed.

Lemma ascii_cons_low b s : b < 128 -> ascii_count (b :: s) = S (ascii_count s).
Proof. intros Hb. rewrite ascii_cons. by rewrite (proj2 (Z.ltb_lt _ _)). Qed.

Lemma ascii_take_drop n s : (ascii_count (take n s) + ascii_count (drop n s) = ascii_count s)%nat.
Proof. by rewrite <- ascii_app, take_drop. Qed.

Lemma ascii_drop n s : (ascii_count (drop n s) <= ascii_count s)%nat.
Proof. pose proof (ascii_take_drop n s). lia. Qed.

Lemma trim_ascii t : (ascii_count (bytes_of (trim_space t)) <= ascii_count (bytes_of t))%nat.
Proof.
  destruct (trim_space_part t) as (x&y&E). unfold bytes_of. rewrite E, !map_app, !ascii_app. lia.
Qed.

(** ** What reading consumes *)

Lemma EncodeRune_ascii u : 0 <= u < 1114112 -> (ascii_count (EncodeRune u) <= 1)%nat.
Proof.
  intros Hu. assert (0 <= u / 64) by (apply Z.div_pos; lia). assert (0 <= u / 4096) by (apply Z.div_pos; lia).
  assert (0 <= u / 262144) by (apply Z.div_pos; lia).
  pose proof (Z.mod_pos_bound u 64 ltac:(lia)). pose proof (Z.mod_pos_bound (u / 64) 64 ltac:(lia)). pose proof (Z.mod_pos_bound (u / 4096) 64 ltac:(lia)).
  unfold EncodeRune. repeat case_match; rewrite !ascii_cons; repeat (rewrite (proj2 (Z.ltb_ge _ _)) by lia); unfold ascii_count; cbn;
    repeat case_match; lia.
Qed.

Lemma unicode_escape_ascii u q : 0 <= u < 65536 ->
  (ascii_count (fst (unicode_escape u q)) + ascii_count (snd (unicode_escape u q)) <= 1 + ascii_count q)%nat.
Proof.
  intros Hu. unfold unicode_escape. destruct (surrogate u) eqn:Es; cbn [fst snd].
  - destruct (low_surrogate q) as [u2|] eqn:El; [|cbn [fst snd]; change (ascii_count RuneError) with 0%nat; lia].
    destruct (Z.ltb_spec u 56320); cbn [fst snd]; [|change (ascii_count RuneError) with 0%nat; lia].
    assert (H2 : 56320 <= u2 < 57344).
    { destruct q as [|a [|b q]]; try done. cbn in El. destruct (_ && _); [|done]. destruct (hex4 q) as [w|]; [|done]. cbn in El.
      destruct (_ && _) eqn:E; [|done]. injection El as <-. apply andb_true_iff in E as [?%Z.leb_le ?%Z.ltb_lt]. lia. }
    unfold surrogate in Es. apply andb_true_iff in Es as [?%Z.leb_le ?%Z.ltb_lt].
    pose proof (EncodeRune_ascii ((u - 55296) * 1024 + (u2 - 56320) + 65536) ltac:(lia)). pose proof (ascii_drop 6 q). lia.
  - pose proof (EncodeRune_ascii u ltac:(lia)). lia.
Qed.

Lemma literal_rune_ascii p r q : literal_rune p = Some (r, q) -> (ascii_count r + ascii_count q <= ascii_count p)%nat.
Proof.
  destruct p as [|b p]; [done|]. unfold literal_rune. destruct (Z.eqb_spec b 92) as [->|].
  - rewrite ascii_cons_low by lia. destruct p as [|c p]; [done|]. destruct (Z.eqb_spec c 117) as [->|].
    + rewrite ascii_cons_low by lia. destruct (hex4 p) as [u|] eqn:Eu; [|done]. cbn [mbind option_bind]. intros [= E].
      apply hex4_range in Eu. pose proof (unicode_escape_ascii u (drop 4 p) Eu) as Hu. rewrite E in Hu. cbn [fst snd] in Hu.
      pose proof (ascii_drop 4 p). lia.
    + destruct (escape c) as [e|] eqn:Ee; [|done]. intros [= <- <-]. rewrite (ascii_cons c), (ascii_cons e).
      unfold ascii_count. cbn. destruct (e <? 128), (c <? 128); lia.
  - destruct (b <? 32); [done|]. destruct (DecodeRune (b :: p)) as [size ok]. intros [= <- <-].
    pose proof (ascii_take_drop size (b :: p)). destruct ok; [lia|]. change (ascii_count RuneError) with 0%nat. lia.
Qed.

Lemma string_literal_ascii n p s r : string_fuel n p = Some (s, r) -> (ascii_count s + ascii_count r < ascii_count p)%nat.
Proof.
  revert p s r. induction n as [|n IH]; intros p s r; [done|]. destruct p as [|b p]; [done|]. cbn [string_fuel].
  destruct (Z.eqb_spec b 34) as [->|]; [intros [= <- <-]; rewrite ascii_cons_low by lia; change (ascii_count []) with 0%nat; lia|].
  destruct (literal_rune (b :: p)) as [[x q]|] eqn:E; [|done]. apply literal_rune_ascii in E. cbn [mbind option_bind].
  destruct (string_fuel n q) as [[y z]|] eqn:E2; [|done]. apply IH in E2. cbn [mbind option_bind]. intros [= <- <-]. rewrite ascii_app. lia.
Qed.

Lemma skip_space_ascii p : (ascii_count (skip_space p) <= ascii_count p)%nat.
Proof. induction p as [|b p IH]; [done|]. cbn [skip_space]. destruct (is_space b); [rewrite ascii_cons; lia|done]. Qed.

Lemma number_ascii_count p t r : number p = Some (t, r) -> (ascii_count r < ascii_count p)%nat.
Proof.
  intros Hn. pose proof (number_ascii _ _ _ Hn) as Ht. apply number_app in Hn as [-> Hne]. rewrite ascii_app.
  destruct t as [|b t]; [done|]. apply Forall_cons in Ht as [Hb _]. unfold is_ascii in Hb. rewrite ascii_cons_low by lia. lia.
Qed.

Lemma keyword_ascii p v r : keyword p = Some (v, r) -> (ascii_count r < ascii_count p)%nat /\ text_size v = 0%nat.
Proof.
  assert (W : forall w, (0 < ascii_count (bytes_of w))%nat -> strip (bytes_of w) p = Some r -> (ascii_count r < ascii_count p)%nat).
  { intros w Hw ->%strip_app. rewrite ascii_app. lia. }
  unfold keyword. destruct (strip (bytes_of "null") p) eqn:E1; [intros [= <- <-]; split; [by apply (W "null"%string); [vm_compute; lia|]|done]|].
  destruct (strip (bytes_of "true") p) eqn:E2; [intros [= <- <-]; split; [by apply (W "true"%string); [vm_compute; lia|]|done]|].
  destruct (strip (bytes_of "false") p) eqn:E3; [|done]. intros [= <- <-]. split; [by apply (W "false"%string); [vm_compute; lia|]|done].
Qed.

Definition sizes (vs : list GoValue) : nat := foldr Nat.max O (map text_size vs).

Lemma text_size_node k items : text_size (Node k items) = sizes (map snd items).
Proof. cbn [text_size]. unfold sizes. by rewrite map_map. Qed.

Lemma sizes_cons v vs : sizes (v :: vs) = Nat.max (text_size v) (sizes vs).
Proof. done. Qed.

Lemma sizes_snoc vs v : sizes (vs ++ [v]) = Nat.max (sizes vs) (text_size v).
Proof. induction vs as [|w vs IH]; cbn [app]; rewrite !sizes_cons; [change (sizes []) with 0%nat; lia|rewrite IH; lia]. Qed.

Lemma sizes_set k v items : (sizes (map snd (map_set k v items)) <= Nat.max (text_size v) (sizes (map snd items)))%nat.
Proof.
  induction items as [|[k0 v0] items IH]; cbn [map_set map snd]; [rewrite sizes_cons; change (sizes []) with 0%nat; lia|].
  destruct (String.eqb k0 k); cbn [map snd]; [rewrite !sizes_cons; lia|].
  destruct (String.ltb k k0); cbn [map snd]; rewrite !sizes_cons; lia.
Qed.

Section Fuel.
Context `{JL : JsonLaws}.

Definition mode_size (m : mode) : nat :=
  match m with MValue => 0 | MElements acc => sizes acc | MMembers acc => sizes (map snd acc) end.

(** The texts of what is read have fewer ASCII bytes than what was read. *)
Lemma parse_ascii fuel depth m p v r : Forall is_byte p -> mode_ok m -> parse float_value fuel depth m p = Some (v, r) ->
  (ascii_count r < ascii_count p)%nat /\ (text_size v <= Nat.max (mode_size m) (ascii_count p - 1))%nat.
Proof.
  revert depth m p v r. induction fuel as [|fuel IH]; intros depth m p v r Hp Hm; [done|].
  pose proof (skip_space_bytes p Hp) as Hsp. pose proof (skip_space_ascii p) as Has.
  assert (HV : forall depth p v r, Forall is_byte p -> parse float_value fuel depth MValue p = Some (v, r) ->
    (ascii_count r < ascii_count p)%nat /\ (text_size v < ascii_count p)%nat /\ json_value v /\ Forall is_byte r).
  { intros d' p' v' r' Hp' E. destruct (parse_ok _ _ MValue _ _ _ Hp' I E) as [Hj Hb]. apply IH in E as [H1 H2]; [|done|done]. cbn [mode_size] in H2. split; [done|]. split; [lia|done]. }
  assert (HC : forall c q, skip_space q = c :: r -> c < 128 -> (ascii_count r < ascii_count q)%nat).
  { intros c q E Hc. pose proof (skip_space_ascii q) as Hq. rewrite E, ascii_cons_low in Hq by done. lia. }
  destruct m as [|acc|acc]; cbn [parse mode_size].
  - destruct (skip_space p) as [|b q]; [done|]. pose proof Hsp as [_ Hq]%Forall_cons.
    destruct (Z.eqb_spec b 123) as [->|]; [|destruct (Z.eqb_spec b 91) as [->|]; [|destruct (Z.eqb_spec b 34) as [->|]; [|destruct ((b =? 45) || is_digit b)]]];
      try rewrite ascii_cons_low in Has by lia.
    + destruct (depth <=? 0); [done|]. destruct (skip_space q) as [|c q'] eqn:E2; [done|].
      destruct (Z.eqb_spec c 125) as [->|].
      * intros [= <- <-]. apply HC in E2; [|lia]. cbn. lia.
      * intros H0. apply IH in H0 as [H1 H2]; [|done|repeat constructor]. cbn in H2. lia.
    + destruct (depth <=? 0); [done|]. destruct (skip_space q) as [|c q'] eqn:E2; [done|].
      destruct (Z.eqb_spec c 93) as [->|].
      * intros [= <- <-]. apply HC in E2; [|lia]. cbn. lia.
      * intros H0. apply IH in H0 as [H1 H2]; [|done|repeat constructor]. cbn in H2. lia.
    + destruct (string_literal q) as [[s q1]|] eqn:E1; [|done]. destruct (string_fuel_ok _ _ _ _ Hq E1) as (_&Hs&_).
      apply string_literal_ascii in E1. intros [= <- <-]. cbn [text_size go_string]. rewrite bytes_of_string by done. lia.
    + destruct (number (b :: q)) as [[t q1]|] eqn:E1; [|done]. apply number_ascii_count in E1. cbn [mbind option_bind].
      unfold float_value. destruct (float_text t); [|done]. intros [= <- <-]. cbn [text_size]. lia.
    + intros [H1 ->]%keyword_ascii. lia.
  - destruct (parse float_value fuel depth MValue p) as [[x q]|] eqn:E; [|done]. cbn [mbind option_bind].
    apply HV in E as (H1&H2&Hx&Hq); [|done]. destruct (skip_space q) as [|c q'] eqn:E2; [done|].
    pose proof (skip_space_bytes q Hq) as Hq'. rewrite E2 in Hq'. apply Forall_cons in Hq' as [_ Hq'].
    pose proof (skip_space_ascii q) as Ha. rewrite E2 in Ha.
    destruct (Z.eqb_spec c 44) as [->|]; [|destruct (Z.eqb_spec c 93) as [->|]; [|done]]; rewrite ascii_cons_low in Ha by lia.
    + intros H0. apply IH in H0 as [H3 H4]; [|done|apply Forall_app; split; [done|by apply Forall_singleton]].
      cbn [mode_size] in H4. rewrite sizes_snoc in H4. lia.
    + intros [= <- <-]. rewrite text_size_node, map_map. cbn [snd]. rewrite map_id, sizes_snoc. lia.
  - destruct (skip_space p) as [|b q]; [done|]. apply Forall_cons in Hsp as [_ Hsp]. destruct (Z.eqb_spec b 34) as [->|]; [|done].
    rewrite ascii_cons_low in Has by lia.
    destruct (string_literal q) as [[s q1]|] eqn:E1; [|done]. destruct (string_fuel_ok _ _ _ _ Hsp E1) as (Hs1&Hs2&Hq1).
    destruct (string_literal_ok _ _ _ Hsp E1) as [Hs _]. apply string_literal_ascii in E1. cbn [mbind option_bind].
    pose proof (skip_space_ascii q1) as Ha1. apply skip_space_bytes in Hq1. destruct (skip_space q1) as [|c q2]; [done|].
    apply Forall_cons in Hq1 as [_ Hq2]. destruct (Z.eqb_spec c 58) as [->|]; [|done]. rewrite ascii_cons_low in Ha1 by lia.
    destruct (parse float_value fuel depth MValue q2) as [[x q3]|] eqn:E3; [|done]. cbn [mbind option_bind].
    apply HV in E3 as (H1&H2&Hx&Hq3); [|done]. pose proof (skip_space_ascii q3) as Ha3. apply skip_space_bytes in Hq3.
    destruct (skip_space q3) as [|e q4]; [done|]. apply Forall_cons in Hq3 as [_ Hq4]. destruct Hm as (Hm1&Hm2&Hm3).
    pose proof (sizes_set (string_of s) x acc) as Hz.
    destruct (Z.eqb_spec e 44) as [->|]; [|destruct (Z.eqb_spec e 125) as [->|]; [|done]]; rewrite ascii_cons_low in Ha3 by lia.
    + intros H0. apply IH in H0 as [H3 H4]; [|done|].
      * cbn [mode_size] in H4. lia.
      * split; [by apply map_set_sorted|]. split; [by apply map_set_Forall|by apply (map_set_Forall (fun y => json_value (snd y)))].
    + intros [= <- <-]. unfold go_object. rewrite text_size_node. lia.
Qed.

Lemma Unmarshal_size p v : Forall is_byte p -> Unmarshal p = Some v -> (text_size v < ascii_count p)%nat.
Proof.
  intros Hp. unfold Unmarshal, read. destruct (parse _ _ _ _ _) as [[w r]|] eqn:E; [|done]. apply parse_ascii in E as [H1 H2]; [|done|done].
  destruct (skip_space r); [|done]. intros [= <-]. cbn [mode_size] in H2. lia.
Qed.

(** ** Nested truncation *)

Lemma truncate_string_nested f g t r o :
  (forall v, (text_size v < ascii_count (bytes_of t))%nat -> forall r o, f v r o = g v r o) ->
  truncate_string f t r o = truncate_string g t r o.
Proof.
  intros Hfg. unfold truncate_string. destruct (_ <=? r); [done|].
  assert (E : truncateJSONText f (bytes_of t) r o = truncateJSONText g (bytes_of t) r o); [|by rewrite E].
  unfold truncateJSONText. rewrite string_of_bytes. destruct (negb _); [done|].
  destruct (Unmarshal (bytes_of (trim_space t))) as [parsed|] eqn:E; [|done]. apply Unmarshal_size in E; [|apply bytes_of_bytes].
  rewrite Hfg; [done|]. pose proof (trim_ascii t). lia.
Qed.

(** Entries that truncate alike. *)
Definition same_entry (a b : entry) : Prop := en_key a = en_key b /\ en_cost a = en_cost b /\ forall r o, en_below a r o = en_below b r o.

Lemma truncate_entries_same es es' : Forall2 same_entry es es' -> forall out r o, truncate_entries es out r o = truncate_entries es' out r o.
Proof.
  induction 1 as [|e e' es es' (Hk&Hc&Hb) Hrest IH]; intros out r o; [done|]. cbn [truncate_entries].
  rewrite Hk, Hc, (Forall2_length _ _ _ Hrest). repeat (destruct (_ <=? _); [apply IH|]).
  destruct (_ <? _); rewrite Hb; destruct (en_below e' _ _) as [[w r'] o']; apply IH.
Qed.

Lemma insert_same a b es es' : same_entry a b -> Forall2 same_entry es es' -> Forall2 same_entry (insert_entry a es) (insert_entry b es').
Proof.
  intros Hab. induction 1 as [|x y es es' Hxy Hes IH]; cbn [insert_entry]; [by apply Forall2_cons|].
  assert (Hbf : entry_before a x = entry_before b y).
  { unfold entry_before. destruct Hab as (->&->&_), Hxy as (->&->&_). done. }
  rewrite Hbf. destruct (entry_before b y); repeat (apply Forall2_cons; split; [done|]); done.
Qed.

Lemma sort_same es es' : Forall2 same_entry es es' -> Forall2 same_entry (sort_entries es) (sort_entries es').
Proof. induction 1; [constructor|]. by apply insert_same. Qed.

Lemma truncate_items_same es es' : Forall2 (fun f g : truncation => forall r o, f r o = g r o) es es' ->
  forall out r o, truncate_items es out r o = truncate_items es' out r o.
Proof.
  induction 1 as [|f g es es' Hfg _ IH]; intros out r o; [done|]. cbn [truncate_items]. rewrite Hfg.
  destruct (r <=? 0); [apply IH|]. destruct (g r o) as [[w r'] o']. apply IH.
Qed.

Lemma size_item (x : string * GoValue) items : x ∈ items -> (text_size (snd x) <= sizes (map snd items))%nat.
Proof.
  intros Hx. induction items as [|y items IH]; [set_solver|]. cbn [map]. rewrite sizes_cons.
  apply elem_of_cons in Hx as [->|Hx]; [lia|]. specialize (IH Hx). lia.
Qed.

Lemma Forall2_map_in {A B} (R : B -> B -> Prop) (f g : A -> B) l : (forall x, x ∈ l -> R (f x) (g x)) -> Forall2 R (map f l) (map g l).
Proof. induction l as [|x l IH]; intros Hx; constructor; [apply Hx; by left|]. apply IH. intros y Hy. apply Hx. by right. Qed.

Lemma truncate_node_nested f g v :
  (forall w, (text_size w < text_size v)%nat -> forall r o, f w r o = g w r o) ->
  forall r o, truncate_node f v r o = truncate_node g v r o.
Proof.
  induction v as [k t|k items IH] using GoValue_ind'; intros Hfg r o; cbn [truncate_node]; (destruct (r <=? 0); [done|]).
  - destruct k; try done. apply truncate_string_nested. intros w Hw. by apply Hfg.
  - assert (IH' : forall x, x ∈ items -> forall r o, truncate_node f (snd x) r o = truncate_node g (snd x) r o).
    { intros x Hx. rewrite Forall_forall in IH. apply (IH x Hx). intros w Hw. apply Hfg. rewrite text_size_node.
      pose proof (size_item x items Hx). lia. }
    destruct k; try done.
    + rewrite (truncate_items_same _ (map (fun x => truncate_node g (snd x)) items)); [done|]. by apply Forall2_map_in.
    + erewrite truncate_entries_same; [done|]. apply sort_same, Forall2_map_in. intros x Hx. split_and!; [done|done|by apply IH'].
Qed.

(** More fuel than the texts need changes nothing. *)
Lemma truncate_value_enough fuel v : (text_size v <= fuel)%nat -> forall r o, truncate_value fuel v r o = truncateValue v r o.
Proof.
  unfold truncateValue. enough (G : forall n m v, (text_size v <= n)%nat -> (text_size v <= m)%nat -> forall r o, truncate_value n v r o = truncate_value m v r o)
    by (intros; by apply G). clear fuel v. induction n as [|n IH]; intros m v Hn Hm r o.
  - destruct m as [|m]; [done|]. cbn [truncate_value]. apply truncate_node_nested. intros w Hw. lia.
  - destruct m as [|m]; cbn [truncate_value]; apply truncate_node_nested; intros w Hw r' o'; [lia|]. apply IH; lia.
Qed.
End Fuel.
