(* ===== verification/TruncateParts.v ===== *)
(** * Truncated parts

    How deep truncated values nest, what one truncated part costs, and that its
    JSON still reads. *)

From Stdlib Require Import ZArith Lia Ascii String.
From stdpp Require Import base option strings list sets sorting.
From S2P Require Import Prelude GoStrings Utf8Stream Runes GoValues GoJson GoJsonFacts TruncateText TruncateTextFacts ApprovalSubject Payload Truncate TruncateFacts TruncateFuel.

Local Open Scope list_scope.
Local Open Scope Z_scope.

Section Parts.
Context `{JL : JsonLaws}.

(** ** Nesting *)

Lemma deepest_set k v items : deepest (map snd (map_set k v items)) <= Z.max (nesting v) (deepest (map snd items)).
Proof.
  induction items as [|[k0 v0] items IH]; cbn [map_set map snd]; [rewrite deepest_cons; change (deepest []) with 0; lia|].
  destruct (String.eqb k0 k); cbn [map snd]; [rewrite !deepest_cons; lia|].
  destruct (String.ltb k k0); cbn [map snd]; rewrite !deepest_cons; lia.
Qed.

Lemma deepest_snoc vs v : deepest (vs ++ [v]) = Z.max (deepest vs) (nesting v).
Proof.
  pose proof (nesting_nonneg v). induction vs as [|w vs IH]; cbn [app]; rewrite !deepest_cons; [change (deepest []) with 0; lia|rewrite IH; lia].
Qed.

Lemma deepest_nonneg vs : 0 <= deepest vs.
Proof. induction vs as [|v vs IH]; [done|]. rewrite deepest_cons. lia. Qed.

Lemma nesting_object items : nesting (go_object items) = 1 + deepest (map snd items).
Proof. apply nesting_node. Qed.

(** What is read nests no deeper than allowed. *)
Lemma parse_nesting num fuel depth m p v r : (forall t w, num t = Some w -> nesting w = 0) -> 0 <= depth ->
  parse num fuel depth m p = Some (v, r) ->
  match m with
  | MValue => nesting v <= depth
  | MElements acc => deepest acc <= depth -> nesting v <= depth + 1
  | MMembers acc => deepest (map snd acc) <= depth -> nesting v <= depth + 1
  end.
Proof.
  intros Hnum. revert depth m p v r. induction fuel as [|fuel IH]; intros depth m p v r Hd; [done|]. destruct m as [|acc|acc]; cbn [parse].
  - destruct (skip_space p) as [|b q]; [done|].
    destruct (b =? 123); [|destruct (b =? 91); [|destruct (b =? 34); [|destruct ((b =? 45) || is_digit b)]]].
    + destruct (Z.leb_spec depth 0); [done|]. destruct (skip_space q) as [|c q']; [done|].
      destruct (c =? 125); [intros [= <- <-]; rewrite nesting_object; cbn; lia|]. intros E. apply IH in E; [|lia].
      specialize (E ltac:(cbn; lia)). lia.
    + destruct (Z.leb_spec depth 0); [done|]. destruct (skip_space q) as [|c q']; [done|].
      destruct (c =? 93); [intros [= <- <-]; rewrite nesting_node; cbn; lia|]. intros E. apply IH in E; [|lia].
      specialize (E ltac:(cbn; lia)). lia.
    + destruct (string_literal q) as [[s q1]|]; [|done]. by intros [= <- <-].
    + destruct (number (b :: q)) as [[t q1]|]; [|done]. cbn [mbind option_bind]. destruct (num t) as [w|] eqn:Ew; [|done].
      intros [= <- <-]. rewrite (Hnum _ _ Ew). lia.
    + unfold keyword. destruct (strip _ _); [by intros [= <- <-]|]. destruct (strip _ _); [by intros [= <- <-]|].
      destruct (strip _ _); [by intros [= <- <-]|done].
  - destruct (parse num fuel depth MValue p) as [[x q]|] eqn:E; [|done]. cbn [mbind option_bind]. apply IH in E; [|done].
    destruct (skip_space q) as [|c q']; [done|]. destruct (c =? 44).
    + intros E2 Ha. apply IH in E2; [|done]. apply E2. rewrite deepest_snoc. lia.
    + destruct (c =? 93); [|done]. intros [= <- <-] Ha. rewrite nesting_node, map_map. cbn [snd]. rewrite map_id, deepest_snoc. lia.
  - destruct (skip_space p) as [|b q]; [done|]. destruct (b =? 34); [|done]. destruct (string_literal q) as [[s q1]|]; [|done].
    cbn [mbind option_bind]. destruct (skip_space q1) as [|c q2]; [done|]. destruct (c =? 58); [|done].
    destruct (parse num fuel depth MValue q2) as [[x q3]|] eqn:E; [|done]. cbn [mbind option_bind]. apply IH in E; [|done].
    pose proof (deepest_set (string_of s) x acc) as Hs. destruct (skip_space q3) as [|e q4]; [done|]. destruct (e =? 44).
    + intros E2 Ha. apply IH in E2; [|done]. apply E2. lia.
    + destruct (e =? 125); [|done]. intros [= <- <-] Ha. rewrite nesting_object. lia.
Qed.

Lemma Unmarshal_nesting p v : Unmarshal p = Some v -> nesting v <= maxNestingDepth.
Proof.
  unfold Unmarshal, read. destruct (parse _ _ _ _ _) as [[w r]|] eqn:E; [|done].
  apply parse_nesting in E; [|intros t x; unfold float_value; destruct (float_text t); [by intros [= <-]|done]|done].
  destruct (skip_space r); [|done]. by intros [= <-].
Qed.

Lemma entries_nesting n es out r o : deepest (map snd out) <= n -> (forall e, e ∈ es -> forall r o, nesting (fst (fst (en_below e r o))) <= n) ->
  deepest (map snd (fst (fst (truncate_entries es out r o)))) <= n.
Proof.
  revert out r o. induction es as [|e es IH]; intros out r o Ho He; [done|]. cbn [truncate_entries].
  assert (He' : forall e, e ∈ es -> forall r o, nesting (fst (fst (en_below e r o))) <= n) by (intros; apply He; by right).
  specialize (He e ltac:(by left)). repeat (destruct (_ <=? _); [by apply IH|]).
  destruct (_ <? en_cost e);
    match goal with |- context [en_below e ?a ?b] => specialize (He a b); destruct (en_below e a b) as [[v r'] o'] end; cbn [fst] in He;
    (apply IH; [|done]); (destruct (is_nil v); [done|]); pose proof (deepest_set (en_key e) v out); lia.
Qed.

Lemma items_nesting n es out r o : deepest out <= n -> Forall (fun f : truncation => forall r o, nesting (fst (fst (f r o))) <= n) es ->
  deepest (fst (fst (truncate_items es out r o))) <= n.
Proof.
  intros Ho He. revert out r o Ho. induction He as [|f es Hf _ IH]; intros out r o Ho; [done|]. cbn [truncate_items].
  destruct (r <=? 0); [by apply IH|]. specialize (Hf r o). destruct (f r o) as [[v r'] o']. cbn [fst] in Hf. apply IH.
  destruct (is_nil v); [done|]. rewrite deepest_snoc. lia.
Qed.

Lemma deepest_in (x : string * GoValue) items : x ∈ items -> nesting (snd x) <= deepest (map snd items).
Proof.
  intros Hx. induction items as [|y items IH]; [set_solver|]. cbn [map]. rewrite deepest_cons.
  apply elem_of_cons in Hx as [->|Hx]; [lia|]. specialize (IH Hx). lia.
Qed.

(** Truncating never nests deeper. *)
Lemma truncate_node_nesting nested v r o : nesting (fst (fst (truncate_node nested v r o))) <= nesting v.
Proof.
  revert r o. induction v as [k t|k items IH] using GoValue_ind'; intros r o; cbn [truncate_node].
  - destruct (r <=? 0); [done|]. destruct k; try (destruct (_ <=? r); done).
    unfold truncate_string. destruct (_ <=? r); [done|]. destruct (truncateJSONText _ _ _ _) as [inside o']. destruct (_ ≫= _); [done|].
    destruct (truncateTextForJSONBudget _ _) as [text ok]. by destruct ok.
  - pose proof (nesting_nonneg (Node k items)). destruct (r <=? 0); [done|].
    assert (IH' : forall x, x ∈ items -> forall r o, nesting (fst (fst (truncate_node nested (snd x) r o))) <= deepest (map snd items)).
    { intros x Hx r' o'. rewrite Forall_forall in IH. pose proof (IH x Hx r' o'). pose proof (deepest_in x items Hx). lia. }
    destruct k; try (destruct (_ <=? r); cbn [fst]; [lia|change (nesting go_nil) with 0; lia]).
    + pose proof (items_nesting (deepest (map snd items)) (map (fun x => truncate_node nested (snd x)) items) [] r o (deepest_nonneg _)) as Hi.
      destruct (truncate_items _ _ _ _) as [[out r'] o']. cbn [fst] in *. rewrite !nesting_node, map_map. cbn [snd]. rewrite map_id.
      assert (Hout : deepest out <= deepest (map snd items)); [|lia]. apply Hi. rewrite Forall_map. by apply Forall_forall.
    + set (es := map _ items). pose proof (entries_nesting (deepest (map snd items)) (sort_entries es) [] r o (deepest_nonneg _)) as He.
      destruct (truncate_entries _ _ _ _) as [[out r'] o']. cbn [fst] in *. rewrite nesting_object, nesting_node.
      assert (Hout : deepest (map snd out) <= deepest (map snd items)); [|lia]. apply He.
      intros e Hin. rewrite elem_sort in Hin. unfold es in Hin. apply list_elem_of_fmap in Hin as (x&->&Hin). cbn [en_below]. by apply IH'.
Qed.

Lemma truncateValue_nesting v r o : nesting (fst (fst (truncateValue v r o))) <= nesting v.
Proof. unfold truncateValue. destruct (text_size v); apply truncate_node_nesting. Qed.

Definition depth_of (items : list (string * GoValue)) : Z := deepest (map snd items).

Lemma depth_set_all (f : string * GoValue -> bool) n protected items : depth_of protected <= n -> depth_of items <= n ->
  depth_of (foldl (fun m x => if f x then m else map_set (fst x) (snd x) m) items protected) <= n.
Proof.
  revert items. induction protected as [|x protected IH]; intros items Hp Hi; [done|]. unfold depth_of in Hp. cbn [map] in Hp.
  rewrite deepest_cons in Hp. cbn [foldl]. apply IH; [unfold depth_of; lia|]. destruct (f x); [done|].
  unfold depth_of in *. pose proof (deepest_set (fst x) (snd x) items). lia.
Qed.

Lemma depth_merge n target protected : depth_of protected <= n -> depth_of target <= n -> depth_of (mergeProtectedJSONFields target protected) <= n.
Proof. apply (depth_set_all (fun _ => false)). Qed.

Lemma depth_delete k items : depth_of (map_delete k items) <= depth_of items.
Proof.
  unfold depth_of, map_delete. induction items as [|x items IH]; [done|]. cbn [List.filter map]. rewrite deepest_cons.
  destruct (negb _); [cbn [map]; rewrite deepest_cons|]; lia.
Qed.

Definition depth_within (n : Z) (s : list (string * GoValue) * list (string * GoValue)) : Prop := depth_of (fst s) <= n /\ depth_of (snd s) <= n.

Lemma protect_depth n budget k v s : nesting v <= n -> depth_within n s -> depth_within n (protect budget k v s).
Proof.
  destruct s as [body kept]. unfold depth_within, protect. cbn [fst snd]. intros Hv [Hb Hk]. destruct (_ <? budget); [|done].
  cbn [fst snd]. pose proof (depth_delete k body). pose proof (deepest_set k v kept). unfold depth_of in *. lia.
Qed.

Lemma split_depth n input budget trusted : depth_of input <= n -> depth_of trusted <= n ->
  depth_within n (splitProtectedJSONFields input budget trusted).
Proof.
  intros Hi Ht. assert (H0 : 0 <= n) by (pose proof (deepest_nonneg (map snd input)); unfold depth_of in *; lia).
  unfold splitProtectedJSONFields. set (s := foldl _ _ _). assert (Hs : depth_within n s).
  { unfold s. assert (Hin : depth_within n (input, [])) by (split; done). clear s. revert Hin Ht. generalize (input, [] : list (string * GoValue)).
    induction trusted as [|x trusted IH]; intros s0 Hin Ht; [done|]. unfold depth_of in Ht. cbn [map] in Ht. rewrite deepest_cons in Ht.
    cbn [foldl]. apply IH; [|unfold depth_of; lia]. destruct (String.eqb _ _); [done|]. apply protect_depth; [lia|done]. }
  destruct (String.eqb _ _); [done|]. by apply protect_depth.
Qed.

Lemma fallback_depth body budget : depth_of (compactJSONMapFallback body budget) = 0.
Proof.
  unfold compactJSONMapFallback. destruct (_ <=? _); [done|]. destruct (_ <=? _); [done|].
  destruct (truncateTextForJSONBudget _ _) as [text ok]. destruct (negb ok); [done|]. generalize (Z.to_nat (estimateTokensForJSONString text)).
  intros fuel. revert text. induction fuel as [|fuel IH]; intros text; cbn [compact_loop]; (destruct (_ && _); [|by destruct (_ <? _)]); [done|].
  destruct (truncateTextForJSONBudget _ _) as [next ok']. destruct (_ || _); [done|apply IH].
Qed.

Lemma attempts_depth n k body kept budget target omitted out o : depth_of body <= n -> depth_of kept <= n ->
  map_attempts k body kept budget target omitted = inl (out, o) -> depth_of out <= n.
Proof.
  intros Hb Hk. revert target omitted. induction k as [|k IH]; intros target omitted; [done|]. cbn [map_attempts].
  pose proof (truncateValue_nesting (go_object body) target 0) as Hv. destruct (truncateValue (go_object body) target 0) as [[v r] o1]. cbn [fst] in Hv.
  destruct (_ <=? budget); [|apply IH]. intros [= <- <-]. apply depth_merge; [done|]. rewrite nesting_object in Hv. pose proof (deepest_nonneg (map snd body)).
  unfold depth_of in *. destruct v as [|[] items]; cbn [as_object default from_option id]; try (change (deepest (map snd [])) with 0; lia).
  change (Node NMap items) with (go_object items) in Hv. rewrite nesting_object in Hv. lia.
Qed.

Lemma truncate_map_depth n items policy protected out : depth_of items <= n -> depth_of protected <= n ->
  fst (truncateMapWithProtectedJSONFields (Some items) policy protected) = Some out -> depth_of out <= n.
Proof.
  intros Hi Hp. unfold truncateMapWithProtectedJSONFields. destruct (_ <=? 0); [by intros [= <-]|].
  pose proof (depth_set_all (fun x => String.eqb (trim_space (fst x)) "") n protected items Hp Hi) as Hs. fold (set_protected protected items) in Hs.
  destruct (_ <=? _); [by intros [= <-]|]. unfold truncateMapToJSONBudget. set (prepared := set_protected protected items) in *.
  pose proof (split_depth n prepared (tokenBudget policy) protected Hs Hp) as [Hb Hk].
  destruct (splitProtectedJSONFields _ _ _) as [body kept]. cbn [fst snd] in *.
  destruct (map_attempts _ _ _ _ _ _) as [[out' o]|[o target]] eqn:E; [intros [= <-]; exact (attempts_depth _ _ _ _ _ _ _ _ _ Hb Hk E)|].
  destruct (_ <=? _); cbn [fst].
  - intros [= <-]. apply depth_merge; [done|]. rewrite fallback_depth. pose proof (deepest_nonneg (map snd body)). unfold depth_of in *. lia.
  - by destruct kept; intros [= <-].
Qed.

(** ** Envelopes *)

Definition result_entry (v : GoValue) : list (string * GoValue) := [("result"%string, v)].

Lemma entry_depth v : depth_of (result_entry v) = nesting v.
Proof. unfold depth_of, result_entry. cbn [map snd]. rewrite deepest_cons. change (deepest []) with 0. pose proof (nesting_nonneg v). lia. Qed.

(** What is left of an envelope [{"result": v}]. *)
Definition envelope (m : GoMap) : Prop := m = None \/ m = Some [] \/ exists w, m = Some (result_entry w).

Lemma compact_loop_shape fuel text budget : compact_loop fuel text budget = [] \/ exists t, compact_loop fuel text budget = result_object t.
Proof.
  revert text. induction fuel as [|fuel IH]; intros text; cbn [compact_loop];
    (destruct (_ && _); [|destruct (_ <? _); [by left|right; by eexists]]); [right; by eexists|].
  destruct (truncateTextForJSONBudget _ _) as [next ok]. destruct (_ || _); [right; by eexists|apply IH].
Qed.

Lemma fallback_shape body budget : compactJSONMapFallback body budget = [] \/ exists t, compactJSONMapFallback body budget = result_object t.
Proof.
  unfold compactJSONMapFallback. destruct (_ <=? _); [by left|]. destruct (_ <=? _); [by left|].
  destruct (truncateTextForJSONBudget _ _) as [text ok]. destruct (negb ok); [right; by eexists|apply compact_loop_shape].
Qed.

Lemma entries_one e r o : fst (fst (truncate_entries [e] [] r o)) = [] \/ exists w, fst (fst (truncate_entries [e] [] r o)) = [(en_key e, w)].
Proof.
  cbn [truncate_entries]. destruct (r <=? 0); [by left|]. destruct (r <=? _); [by left|].
  match goal with |- context [if ?a <? ?b then _ else _] => destruct (a <? b) end;
    match goal with |- context [en_below e ?a ?b] => destruct (en_below e a b) as [[w r2] o2] end;
    (destruct (is_nil w); [by left|right; by exists w]).
Qed.

Lemma truncate_envelope nested v r o : fst (fst (truncate_node nested (go_object (result_entry v)) r o)) = go_nil \/
  exists l, fst (fst (truncate_node nested (go_object (result_entry v)) r o)) = go_object l /\ (l = [] \/ exists x, l = result_entry x).
Proof.
  unfold go_object, result_entry at 1 2. cbn [truncate_node]. destruct (r <=? 0); [by left|]. right. cbn [map fst snd sort_entries foldr insert_entry].
  set (e := MkEntry "result" _ _). destruct (entries_one e r o) as [E|(w&E)]; destruct (truncate_entries [e] [] r o) as [[out r'] o']; cbn [fst] in *; subst;
    eexists; (split; [done|]); [by left|right; by exists w].
Qed.

Lemma attempts_envelope n v budget target omitted out o :
  map_attempts n (result_entry v) [] budget target omitted = inl (out, o) -> envelope (Some out).
Proof.
  revert target omitted. induction n as [|n IH]; intros target omitted; [done|]. cbn [map_attempts].
  assert (Hw : fst (fst (truncateValue (go_object (result_entry v)) target 0)) = go_nil \/
    exists l, fst (fst (truncateValue (go_object (result_entry v)) target 0)) = go_object l /\ (l = [] \/ exists x, l = result_entry x)).
  { unfold truncateValue. destruct (text_size _); apply truncate_envelope. }
  destruct (truncateValue (go_object (result_entry v)) target 0) as [[w r] o1]. cbn [fst] in Hw.
  destruct (_ <=? budget); [|apply IH]. intros [= <- <-]. unfold mergeProtectedJSONFields. cbn [foldl].
  unfold envelope. destruct Hw as [->|(l&->&[->|(x&->)])]; cbn; eauto.
Qed.

Lemma TruncateMap_envelope v policy : envelope (fst (TruncateMap (Some (result_entry v)) policy)).
Proof.
  assert (HE : envelope (Some (result_entry v))) by (right; right; by eexists).
  unfold TruncateMap, truncateMapWithProtectedJSONFields. destruct (_ <=? 0); [done|]. cbn [set_protected foldl].
  destruct (_ <=? _); [done|]. unfold truncateMapToJSONBudget, splitProtectedJSONFields. cbn [foldl fst].
  change (String.eqb (trim_space (string_field "system_hint" (result_entry v))) "") with true. cbn [fst].
  destruct (map_attempts _ _ _ _ _ _) as [[out o]|[o target]] eqn:E; [exact (attempts_envelope _ _ _ _ _ _ _ E)|].
  destruct (_ <=? _); cbn [fst]; [|by left]. unfold mergeProtectedJSONFields. cbn [foldl].
  destruct (fallback_shape (result_entry v) target) as [->|(t&->)]; [by right; left|right; right; by eexists].
Qed.

(** ** Costs *)

Lemma estimate_marshal v d : Marshal v = Some d -> estimateTokensForJSONValue v = estimateTextTokens d.
Proof. intros Hd. unfold estimateTokensForJSONValue. by rewrite Hd. Qed.

Lemma entry_marshal w d : Marshal w = Some d -> Marshal (go_object (result_entry w)) = Some (123 :: member "result" d ++ [125]).
Proof. intros Hd. rewrite Marshal_object. unfold result_entry. cbn [marshal_members]. by rewrite Hd. Qed.

Lemma entry_costs_more w d : Marshal w = Some d -> estimateTextTokens d <= estimateTokensForJSONValue (go_object (result_entry w)).
Proof.
  intros Hd. rewrite (estimate_marshal _ _ (entry_marshal w d Hd)). apply estimate_mono. unfold len, member, quote. cbn [length].
  repeat (rewrite length_app; cbn [length]). lia.
Qed.

(** What is written for a JSON object costs what the object costs. *)
Lemma json_cost_object items d : json_fields items -> Marshal (go_object items) = Some d -> json_cost d = estimateTextTokens d.
Proof.
  intros Hi Hd. unfold json_cost. destruct (Unmarshal d) as [w|] eqn:E; [|done].
  apply (Unmarshal_Marshal (go_object items)) in E as ->; [|by apply json_fields_value|done]. cbn [go_object].
  change (Node NMap items) with (go_object items). rewrite (estimate_marshal _ _ Hd). lia.
Qed.

Lemma json_cost_entry w d n : json_value w -> Marshal w = Some d -> estimateTokensForJSONValue (go_object (result_entry w)) <= n -> json_cost d <= n.
Proof.
  intros Hw Hd Hn. pose proof (entry_costs_more w d Hd) as He. unfold json_cost. destruct (Unmarshal d) as [x|] eqn:E; [|lia].
  apply (Unmarshal_Marshal w) in E as ->; [|done|done].
  apply Z.max_lub; [lia|]. destruct w as [k t|k items]; [exact Hn|]. destruct k; try exact Hn. rewrite (estimate_marshal _ _ Hd). lia.
Qed.

Lemma json_cost_braces : json_cost (bytes_of "{}") = 1.
Proof. reflexivity. Qed.

(** JSON that still decodes when it is wrapped in an object. *)
Definition reads (raw : list Z) : Prop :=
  exists v, Unmarshal raw = Some v /\ (nesting v < maxNestingDepth \/ exists items, v = go_object items).

Lemma mustMarshal_cost m n : json_map m -> 0 < n -> estimate_map m <= n -> json_cost (mustMarshalMap m) <= n.
Proof.
  intros Hm Hn He. destruct m as [items|]; [|unfold mustMarshalMap; rewrite json_cost_braces; lia]. cbn [json_map estimate_map] in *.
  pose proof Hm as Hv. apply json_fields_value in Hv. destruct (Marshal_total _ Hv) as (d&Hd&_). unfold mustMarshalMap. rewrite Hd. cbn [default from_option id].
  rewrite (json_cost_object items) by done. by rewrite <- (estimate_marshal _ _ Hd).
Qed.

Lemma mustMarshal_reads m : json_map m -> (forall items, m = Some items -> depth_of items < maxNestingDepth) ->
  reads (mustMarshalMap m) /\ Forall is_byte (mustMarshalMap m).
Proof.
  intros Hm Hd. destruct m as [items|]; [|split; [exists (go_object []); split; [done|by right; eexists]|apply bytes_of_bytes]]. cbn [json_map] in Hm. apply json_fields_value in Hm.
  specialize (Hd items eq_refl). destruct (json_read_back (go_object items) Hm) as (d&E&Hr); [rewrite nesting_object; unfold depth_of in Hd; lia|].
  destruct (Marshal_total _ Hm) as (d'&E'&Hb). rewrite E in E'. injection E' as <-. unfold mustMarshalMap. rewrite E. split; [exists (go_object items); eauto|done].
Qed.

Lemma value_reads w d : json_value w -> nesting w < maxNestingDepth -> Marshal w = Some d -> reads d.
Proof. intros Hw Hn Hd. destruct (json_read_back w Hw ltac:(lia)) as (d'&E&Hr). rewrite Hd in E. injection E as <-. exists w. auto. Qed.

(** Protected fields that are JSON and do not nest to the limit. *)
Definition fit_protected (protected : list (string * GoValue)) : Prop :=
  json_protected protected /\ depth_of protected < maxNestingDepth.

(** A JSON part that is truncated costs no more than it may, and reads. *)
Lemma truncated_json_cost raw n fields : Forall is_byte raw -> reads raw -> 0 < n -> fit_protected fields ->
  let t := fst (truncateJSONWithProtectedFields raw (tokens_policy n) fields) in json_cost t <= n /\ reads t /\ Forall is_byte t.
Proof.
  intros Hraw (parsed&Hp&Hlow) Hn [Hf Hfd] t. pose proof (Unmarshal_value _ _ Hraw Hp) as Hv. pose proof (Unmarshal_nesting _ _ Hp) as Hnest.
  assert (Hbud : tokenBudget (tokens_policy n) = n) by (unfold tokenBudget; cbn; by rewrite (proj2 (Z.ltb_lt 0 n))).
  assert (Hne : (length raw =? 0)%nat = false).
  { destruct raw; [by vm_compute in Hp|done]. }
  assert (Henv : forall (fields : list (string * GoValue)), (forall items, parsed <> go_object items) -> truncateJSONWithProtectedFields raw (tokens_policy n) fields =
    let '(out, mapInfo) := TruncateMap (Some (result_entry parsed)) (tokens_policy n) in
    match map_index out "result" with Some value => (mustMarshalAny value, mapInfo) | None => (mustMarshalMap out, mapInfo) end).
  { intros fs Hno. unfold truncateJSONWithProtectedFields. rewrite Hne, Hbud, (proj2 (Z.leb_gt n 0)), Hp by lia. cbn [orb].
    destruct parsed as [k s|k items]; [done|]. destruct k; try done. by destruct (Hno items). }
  destruct (match parsed with Node NMap _ => true | _ => false end) eqn:Ek.
  - destruct parsed as [k s|k items]; [done|]. destruct k; try done. clear Henv. change (Node NMap items) with (go_object items) in *.
    unfold t, truncateJSONWithProtectedFields. rewrite Hne, Hbud, (proj2 (Z.leb_gt n 0)), Hp by lia. cbn [orb go_object].
    pose proof (truncate_map_fits (Some items) (tokens_policy n) fields ltac:(lia)) as Hfit.
    pose proof (truncate_map_json (Some items) (tokens_policy n) fields (proj2 (json_fields_value _) Hv) Hf) as Hj.
    rewrite nesting_object in Hnest. fold (depth_of items) in Hnest.
    pose proof (fun out => truncate_map_depth (maxNestingDepth - 1) items (tokens_policy n) fields out ltac:(lia) ltac:(lia)) as Hd.
    destruct (truncateMapWithProtectedJSONFields (Some items) (tokens_policy n) fields) as [out info]. cbn [fst] in *. rewrite Hbud in Hfit.
    split; [by apply mustMarshal_cost|]. apply mustMarshal_reads; [done|]. intros x ->. specialize (Hd x eq_refl). lia.
  - assert (Hno : forall items, parsed <> go_object items) by (by intros items ->). unfold t. rewrite (Henv fields Hno).
    assert (Hi : json_fields (result_entry parsed)) by (apply (json_fields_set "result" parsed []); [done|done|apply json_fields_nil]).
    pose proof (truncate_map_fits (Some (result_entry parsed)) (tokens_policy n) [] ltac:(lia)) as Hfit.
    pose proof (truncate_map_json (Some (result_entry parsed)) (tokens_policy n) [] Hi ltac:(constructor)) as Hj.
    assert (Hdp : depth_of (result_entry parsed) <= maxNestingDepth - 1) by (rewrite entry_depth; destruct Hlow as [|[items ->]]; [lia|done]).
    pose proof (fun out => truncate_map_depth (maxNestingDepth - 1) (result_entry parsed) (tokens_policy n) [] out Hdp ltac:(done)) as Hd.
    pose proof (TruncateMap_envelope parsed (tokens_policy n)) as Hshape. unfold TruncateMap in *.
    destruct (truncateMapWithProtectedJSONFields (Some (result_entry parsed)) (tokens_policy n) []) as [out info]. cbn [fst] in *. rewrite Hbud in Hfit.
    destruct Hshape as [->|[->|(w&->)]].
    + cbn [map_index mbind option_bind fst]. split; [by apply mustMarshal_cost|]. by apply mustMarshal_reads.
    + cbn [map_index mbind option_bind assoc fst]. split; [by apply mustMarshal_cost|]. apply mustMarshal_reads; [done|]. by intros items [= <-].
    + change (map_index (Some (result_entry w)) "result") with (Some w). cbn [fst]. cbn [json_map estimate_map] in *.
      destruct Hj as (_&_&Hj). apply Forall_inv in Hj. cbn [snd] in Hj. destruct (Marshal_total w Hj) as (d&Hdm&Hdb).
      unfold mustMarshalAny. rewrite Hdm. cbn [default from_option id]. split; [by apply (json_cost_entry w)|]. split; [|done].
      apply (value_reads w); [done| |done]. specialize (Hd _ eq_refl). rewrite entry_depth in Hd. lia.
Qed.

(** ** Lists of parts *)

(** A part whose JSON, when it has any, is JSON and all it has. *)
Definition ok_part (part : Part) : Prop :=
  match part_json part with
  | Some raw => part_text part = None /\ reads (bytes_of raw)
  | None => match part_text part with Some text => Valid (bytes_of (tp_Text text)) = true | None => True end
  end.

(** What texts and JSON cost; the other parts, media, are not truncated. *)
Definition content_cost (parts : list Part) : Z := sum (map (fun p => if is_content p then estimate_part p else 0) parts).
Definition media (parts : list Part) : list Part := List.filter (fun p => negb (is_content p)) parts.

Lemma text_cost_eq text : text_cost text = (13 + len (quote_body (bytes_of (string_of text))) + 3) / 4.
Proof.
  unfold text_cost. rewrite (estimate_marshal _ (123 :: member "result" (quote (bytes_of (string_of text))) ++ [125])); [|done].
  rewrite estimate_ceiling. f_equal. unfold member. change (quote (bytes_of "result")) with (bytes_of (String "034" "result") ++ [34]).
  unfold quote, len. cbn [length]. repeat (rewrite length_app; cbn [length]). change (length (bytes_of (String "034" "result"))) with 7%nat. lia.
Qed.

Lemma json_cost_nonneg raw : 0 <= json_cost raw.
Proof. unfold json_cost. pose proof (estimate_nonneg raw). destruct (Unmarshal raw); lia. Qed.

Lemma text_cost_nonneg text : 0 <= text_cost text.
Proof. rewrite text_cost_eq. apply Z.div_pos; [|lia]. pose proof (text_len_nonneg (quote_body (bytes_of (string_of text)))). lia. Qed.

Lemma sum_nonneg l : Forall (fun n => 0 <= n) l -> 0 <= sum l.
Proof. unfold sum. induction 1; cbn [foldr]; lia. Qed.

Lemma estimate_part_nonneg part : 0 <= estimate_part part.
Proof.
  revert part. fix IH 1. intros [h result content]. cbn [estimate_part]. destruct (ph_Text h); [apply text_cost_nonneg|].
  destruct (ph_JSON h); [apply json_cost_nonneg|]. destruct result; [|done]. apply sum_nonneg.
  induction content as [|p content IHc]; constructor; [apply IH|apply IHc].
Qed.

Lemma estimate_cons p ps : estimateTokensForParts (p :: ps) = estimate_part p + estimateTokensForParts ps.
Proof. done. Qed.

Lemma estimate_app ps qs : estimateTokensForParts (ps ++ qs) = estimateTokensForParts ps + estimateTokensForParts qs.
Proof. induction ps as [|p ps IH]; [done|]. cbn [app]. rewrite !estimate_cons, IH. lia. Qed.

Lemma content_cons p ps : content_cost (p :: ps) = (if is_content p then estimate_part p else 0) + content_cost ps.
Proof. done. Qed.

Lemma content_app ps qs : content_cost (ps ++ qs) = content_cost ps + content_cost qs.
Proof. induction ps as [|p ps IH]; [done|]. cbn [app]. rewrite !content_cons, IH. lia. Qed.

Lemma content_nonneg ps : 0 <= content_cost ps.
Proof. apply sum_nonneg. rewrite Forall_map. apply Forall_forall. intros p _. destruct (is_content p); [apply estimate_part_nonneg|done]. Qed.

Lemma content_estimate ps : content_cost ps <= estimateTokensForParts ps.
Proof.
  induction ps as [|p ps IH]; [done|]. rewrite content_cons, estimate_cons. pose proof (estimate_part_nonneg p). destruct (is_content p); lia.
Qed.

Lemma estimate_json part raw : part_json part = Some raw -> part_text part = None -> estimate_part part = json_cost (bytes_of raw).
Proof. destruct part as [h r c]. unfold part_json, part_text. cbn. by intros -> ->. Qed.

Lemma estimate_set_json part raw : part_text part = None -> estimate_part (set_json raw part) = json_cost (bytes_of raw).
Proof. destruct part as [h r c]. unfold part_text. cbn. by intros ->. Qed.

Lemma estimate_set_text part text t : part_text part = Some text -> estimate_part (set_text t part) = text_cost (bytes_of t).
Proof. destruct part as [h r c]. unfold part_text. cbn. by intros ->. Qed.

Lemma set_json_ok part raw : part_text part = None -> reads (bytes_of raw) -> ok_part (set_json raw part).
Proof. destruct part as [h r c]. unfold ok_part, part_text, part_json. cbn. intros ->. auto. Qed.

Lemma ok_reads part raw : ok_part part -> part_json part = Some raw -> part_text part = None /\ reads (bytes_of raw).
Proof. unfold ok_part. intros Ho Hj. by rewrite Hj in Ho. Qed.

(** The truncated text of a text part fits what it may cost, and is UTF-8. *)
Lemma truncated_text_cost text n t : 0 < n -> Valid text = true ->
  map_index (fst (TruncateMap (Some (result_object text)) (tokens_policy n))) "result" ≫= as_string = Some t ->
  text_cost (bytes_of t) <= n /\ Valid (bytes_of t) = true.
Proof.
  intros Hn Ht. pose proof (TruncateMap_envelope (go_string (string_of text)) (tokens_policy n)) as Hshape.
  assert (Hbud : tokenBudget (tokens_policy n) = n) by (unfold tokenBudget; cbn; by rewrite (proj2 (Z.ltb_lt 0 n))).
  pose proof (truncate_map_fits (Some (result_object text)) (tokens_policy n) [] ltac:(lia)) as Hfit.
  pose proof (truncate_map_json (Some (result_object text)) (tokens_policy n) [] (result_json text Ht) ltac:(constructor)) as Hj.
  change (result_object text) with (result_entry (go_string (string_of text))) in *. unfold TruncateMap in *.
  destruct (truncateMapWithProtectedJSONFields _ _ _) as [out info]. cbn [fst] in *. rewrite Hbud in Hfit.
  destruct Hshape as [->|[->|(w&->)]]; [done|done|]. change (map_index (Some (result_entry w)) "result") with (Some w). cbn [mbind option_bind].
  destruct w as [[] s|]; try done. intros [= ->]. split.
  - unfold text_cost, result_object. rewrite string_of_bytes. exact Hfit.
  - cbn [json_map] in Hj. destruct Hj as (_&_&Hj). apply Forall_inv in Hj. cbn [snd] in Hj. by inversion Hj.
Qed.
End Parts.
