(* ===== verification/TruncateLoop.v ===== *)
(** * What is left of the parts of a tool result

    The loop over the parts of a result ([Truncate.v]) and what is prepared for
    it: the content that is kept fits the budget, media is untouched, what is
    omitted is counted and leaves a trace. *)

From Stdlib Require Import ZArith Lia Ascii String.
From stdpp Require Import base option strings list sets sorting.
From S2P Require Import Prelude GoStrings Utf8Stream Runes GoValues GoJson GoJsonFacts TruncateText TruncateTextFacts ApprovalSubject Payload Truncate TruncateFacts TruncateFuel TruncateParts.

Local Open Scope list_scope.
Local Open Scope Z_scope.

Section Loop.
Context `{JL : JsonLaws}.

(** ** Omitted items are counted, never forgotten *)

Definition counts (f : truncation) : Prop := forall r o, o <= snd (f r o).

Lemma json_text_counts nested s r o : (forall v, counts (nested v)) -> o <= snd (truncateJSONText nested s r o).
Proof.
  intros Hc. unfold truncateJSONText. destruct (negb _); [cbn; lia|]. destruct (Unmarshal _) as [parsed|]; [|cbn; lia].
  pose proof (Hc parsed r o) as Hp. destruct (nested parsed r o) as [[v r'] o']. cbn [snd] in Hp.
  destruct (is_nil v); [done|]. destruct (Marshal v) as [result|]; [|done]. destruct (_ <? _); [|done].
  by destruct (truncateTextForJSONBudget result r).
Qed.

Lemma string_counts nested t : (forall v, counts (nested v)) -> counts (truncate_string nested t).
Proof.
  intros Hc r o. unfold truncate_string. destruct (_ <=? r); [cbn; lia|].
  pose proof (json_text_counts nested (bytes_of t) r o Hc) as Hj. destruct (truncateJSONText nested (bytes_of t) r o) as [inside o']. cbn [snd] in Hj.
  destruct (inside ≫= _); [done|]. destruct (truncateTextForJSONBudget _ _) as [text ok]. destruct ok; cbn [negb snd]; lia.
Qed.

Lemma entries_counts es : Forall (fun e => counts (en_below e)) es -> forall out r o, o <= snd (truncate_entries es out r o).
Proof.
  induction 1 as [|e es He Hes IH]; intros out r o; [done|]. cbn [truncate_entries].
  destruct (r <=? 0); [specialize (IH out r (o + 1)); lia|]. destruct (r <=? _); [specialize (IH out r (o + 1)); lia|].
  destruct (_ <? en_cost e); match goal with |- context [en_below e ?r ?o] => pose proof (He r o) as Ho; destruct (en_below e r o) as [[v r'] o'] end;
    cbn [snd] in Ho; (etransitivity; [exact Ho|apply IH]).
Qed.

Lemma items_counts es : Forall counts es -> forall out r o, o <= snd (truncate_items es out r o).
Proof.
  induction 1 as [|f es Hf Hes IH]; intros out r o; [done|]. cbn [truncate_items]. destruct (r <=? 0); [specialize (IH out r (o + 1)); lia|].
  pose proof (Hf r o) as Ho. destruct (f r o) as [[v r'] o']. cbn [snd] in Ho. etransitivity; [exact Ho|apply IH].
Qed.

Lemma node_counts nested v : (forall v, counts (nested v)) -> counts (truncate_node nested v).
Proof.
  intros Hc. induction v as [k t|k items IH] using GoValue_ind'; intros r o; cbn [truncate_node]; (destruct (r <=? 0); [cbn; lia|]).
  - destruct k; try (destruct (_ <=? r); cbn; lia). by apply string_counts.
  - destruct k; try (destruct (_ <=? r); cbn; lia).
    + pose proof (fun H => items_counts (map (fun x => truncate_node nested (snd x)) items) H [] r o) as Hi.
      destruct (truncate_items _ _ _ _) as [[out r'] o']. apply Hi. by rewrite Forall_map.
    + match goal with |- context [sort_entries ?es] => pose proof (fun H => entries_counts (sort_entries es) H [] r o) as Hi end.
      destruct (truncate_entries _ _ _ _) as [[out r'] o']. apply Hi. apply Forall_forall. intros e He. rewrite elem_sort in He.
      apply list_elem_of_fmap in He as (x&->&Hx). exact (proj1 (Forall_forall _ _) IH x Hx).
Qed.

Lemma value_counts v : counts (truncateValue v).
Proof.
  unfold truncateValue. generalize (text_size v) as fuel. intros fuel. revert v. induction fuel as [|fuel IH]; intros v; apply node_counts; [|done].
  intros w r o. cbn. lia.
Qed.

Lemma attempts_count n body kept budget target omitted : 0 <= omitted ->
  match map_attempts n body kept budget target omitted with inl (_, o) | inr (o, _) => 0 <= o end.
Proof.
  revert target omitted. induction n as [|n IH]; intros target omitted Ho; [done|]. cbn [map_attempts].
  pose proof (value_counts (go_object body) target 0) as Hc. destruct (truncateValue _ _ _) as [[v r] o]. cbn [snd] in Hc.
  destruct (_ <=? budget); [done|]. by apply IH.
Qed.

Lemma map_omitted m policy protected : 0 <= ti_OmittedItems (snd (truncateMapWithProtectedJSONFields m policy protected)).
Proof.
  unfold truncateMapWithProtectedJSONFields. destruct m as [items|]; [|done]. destruct (_ <=? 0); [done|]. destruct (_ <=? _); [done|].
  unfold truncateMapToJSONBudget. destruct (splitProtectedJSONFields _ _ _) as [body kept].
  match goal with |- context [map_attempts ?n ?b ?k ?bt ?t ?o] => pose proof (attempts_count n b k bt t o ltac:(lia)) as Ha; destruct (map_attempts n b k bt t o) as [[out o']|[o' target]] end;
    [exact Ha|]. destruct (_ <=? _); cbn; lia.
Qed.

Lemma json_omitted raw policy protected : 0 <= ti_OmittedItems (snd (truncateJSONWithProtectedFields raw policy protected)).
Proof.
  unfold truncateJSONWithProtectedFields. destruct (_ || _); [done|]. destruct (Unmarshal raw) as [parsed|].
  - assert (He : 0 <= ti_OmittedItems (snd (let '(out, mapInfo) := TruncateMap (Some [("result"%string, parsed)]) policy in
      match map_index out "result" with Some value => (mustMarshalAny value, mapInfo) | None => (mustMarshalMap out, mapInfo) end))).
    { pose proof (map_omitted (Some [("result"%string, parsed)]) policy []) as Hm. unfold TruncateMap.
      destruct (truncateMapWithProtectedJSONFields _ _ _) as [out info]. cbn [snd] in Hm. by destruct (map_index out "result"). }
    destruct parsed as [k t|k items]; [exact He|]. destruct k; try exact He.
    pose proof (map_omitted (Some items) policy protected) as Hm. by destruct (truncateMapWithProtectedJSONFields _ _ _).
  - destruct (TruncateText raw policy) as [text removed]. by destruct (removed =? 0).
Qed.

(** ** The loop over the parts *)

Lemma json_content part raw : part_json part = Some raw -> is_content part = true.
Proof. unfold is_content. intros ->. by destruct (part_text part). Qed.

Lemma text_content part t text : part_text part = Some text -> is_content (set_text t part) = true.
Proof. destruct part as [h r c]. unfold is_content, part_text. cbn. by intros ->. Qed.

Lemma set_text_parts part t text : part_text part = Some text ->
  part_json (set_text t part) = part_json part /\ part_text (set_text t part) = Some (MkTextPart t (tp_Citations text)).
Proof. destruct part as [h r c]. unfold part_text, part_json. cbn. by intros ->. Qed.

Lemma media_cons p ps : media (p :: ps) = if is_content p then media ps else p :: media ps.
Proof. unfold media. cbn [List.filter]. by destruct (is_content p). Qed.

(** What the loop makes of parts: their content fits, media stays, and when the
    content is gone something is counted as omitted. *)
Definition bounded (parts : list Part) (remaining omitted : Z) (r : list Part * Z) : Prop :=
  content_cost (fst r) <= remaining /\ Forall ok_part (fst r) /\ media (fst r) = media parts /\ omitted <= snd r /\
  (existsb is_content parts = true -> existsb is_content (fst r) = true \/ omitted < snd r).

Lemma bounded_keep part part' parts remaining omitted k o r : is_content part = true -> is_content part' = true -> ok_part part' ->
  estimate_part part' <= k -> omitted <= o -> bounded parts (remaining - k) o r ->
  bounded (part :: parts) remaining omitted (part' :: fst r, snd r).
Proof.
  intros Hc Hc' Ho Hk Hs (H1&H2&H3&H4&H5). unfold bounded. cbn [fst snd existsb]. rewrite content_cons, !media_cons, Hc, Hc'.
  split; [lia|]. split; [by constructor|]. split; [done|]. split; [lia|]. by left.
Qed.

Lemma bounded_skip part parts remaining omitted r o : is_content part = true -> omitted < o ->
  forall less, less <= remaining -> bounded parts less o r -> bounded (part :: parts) remaining omitted r.
Proof.
  intros Hc Ho less Hl (H1&H2&H3&H4&H5). unfold bounded. rewrite media_cons, Hc. split; [lia|]. split; [done|]. split; [done|].
  split; [lia|]. intros _. right. lia.
Qed.

Lemma parts_loop_bounded protected pp reserve parts : fit_protected protected -> 0 <= reserve -> Forall ok_part parts ->
  forall index remaining omitted, 0 <= remaining ->
  bounded parts remaining omitted (parts_loop protected pp reserve parts index remaining omitted).
Proof.
  intros Hp Hres. induction 1 as [|part parts Ho Hos IH]; intros index remaining omitted Hr; [repeat split; [done|constructor|cbn; lia|done]|].
  cbn [parts_loop]. set (available := if index <? pp then Z.max (remaining - reserve) 0 else remaining).
  assert (Ha : 0 <= available <= remaining) by (unfold available; destruct (index <? pp); lia). clearbody available.
  assert (Hskip : forall o less, is_content part = true -> omitted < o -> 0 <= less <= remaining ->
    bounded (part :: parts) remaining omitted (parts_loop protected pp reserve parts (index + 1) less o)).
  { intros o less Hc Hoo Hl. apply (bounded_skip _ _ _ _ _ o Hc Hoo less); [lia|]. apply IH. lia. }
  assert (Hkeep : forall part' k o, is_content part = true -> is_content part' = true -> ok_part part' -> estimate_part part' <= k -> k <= remaining -> omitted <= o ->
    bounded (part :: parts) remaining omitted (part' :: fst (parts_loop protected pp reserve parts (index + 1) (remaining - k) o),
      snd (parts_loop protected pp reserve parts (index + 1) (remaining - k) o))).
  { intros part' k o Hc Hc' Ho' Hk Hkr Hoo. apply (bounded_keep _ _ _ _ _ k o); try done. apply IH. lia. }
  destruct (part_json part) as [raw|] eqn:Ej; [|destruct (part_text part) as [text|] eqn:Et].
  - assert (Hc : is_content part = true) by exact (json_content _ _ Ej).
    destruct (Z.leb_spec available 0); [apply Hskip; [done|lia|lia]|]. destruct (Z.leb_spec (estimate_part part) available); [apply Hkeep; [done|done|done|lia|lia|lia]|].
    destruct (ok_reads part raw Ho Ej) as [Ht0 Hrd].
    set (fields := if index =? pp then protected else []).
    assert (Hf : fit_protected fields) by (unfold fields; destruct (index =? pp); [done|split; [constructor|done]]).
    destruct (truncated_json_cost (bytes_of raw) available fields (bytes_of_bytes raw) Hrd ltac:(lia) Hf) as (Hu1&Hu2&Hu3).
    pose proof (json_omitted (bytes_of raw) (tokens_policy available) fields) as Hoi.
    destruct (truncateJSONWithProtectedFields (bytes_of raw) (tokens_policy available) fields) as [t info]. cbn [fst snd] in *.
    apply Hkeep; [done|apply (json_content _ (string_of t)); by destruct part|apply set_json_ok; [done|by rewrite bytes_of_string]| |lia|lia].
    by rewrite estimate_set_json, bytes_of_string.
  - assert (Hc : is_content part = true) by (unfold is_content; by rewrite Et).
    destruct (Z.leb_spec available 0); [apply Hskip; [done|lia|lia]|]. destruct (Z.leb_spec (estimate_part part) available); [apply Hkeep; [done|done|done|lia|lia|lia]|].
    assert (Hv : Valid (bytes_of (tp_Text text)) = true) by (unfold ok_part in Ho; by rewrite Ej, Et in Ho).
    pose proof (fun t => truncated_text_cost (bytes_of (tp_Text text)) available t ltac:(lia) Hv) as Htc.
    pose proof (map_omitted (Some (result_object (bytes_of (tp_Text text)))) (tokens_policy available) []) as Hoi. unfold TruncateMap in *.
    destruct (truncateMapWithProtectedJSONFields _ (tokens_policy available) []) as [payload info]. cbn [fst snd] in *.
    destruct (map_index payload "result" ≫= as_string) as [t|]; [|apply Hskip; [done|lia|lia]].
    apply Hkeep; [done|by apply (text_content _ _ text)| | |lia|lia].
    + unfold ok_part. destruct (set_text_parts part t text Et) as [Ej' ->]. rewrite Ej', Ej. cbn [tp_Text]. by apply Htc.
    + rewrite (estimate_set_text _ text) by done. by apply Htc.
  - assert (Hc : is_content part = false) by (unfold is_content; by rewrite Ej, Et).
    destruct (IH (index + 1) remaining omitted Hr) as (H1&H2&H3&H4&H5). unfold bounded. cbn [fst snd existsb].
    rewrite content_cons, !media_cons, Hc, H3. split; [lia|]. split; [by constructor|]. split; [done|]. by split.
Qed.


Lemma CloneParts_id parts : CloneParts parts = parts.
Proof. unfold CloneParts. rewrite (map_ext _ (fun p => p)) by apply clone_part_id. apply map_id. Qed.

Lemma some_pair {A B} (a c : A) (b d : B) : Some (a, b) = Some (c, d) -> a = c /\ b = d.
Proof. by intros [= -> ->]. Qed.

(** What replacing the JSON of parts keeps. *)
Definition same_shape (parts prepared : list Part) : Prop :=
  Forall ok_part prepared /\ media prepared = media parts /\ existsb is_content prepared = existsb is_content parts.

Lemma set_json_shape m part raw parts : part_json part = Some raw -> ok_part part -> Forall ok_part parts -> json_map m ->
  (forall items, m = Some items -> depth_of items < maxNestingDepth) ->
  same_shape (part :: parts) (set_json (string_of (mustMarshalMap m)) part :: parts).
Proof.
  intros Ej Ho Hos Hm Hd. destruct (mustMarshal_reads m Hm Hd) as [Hr Hb]. destruct (ok_reads _ _ Ho Ej) as [Ht _].
  assert (Hc : is_content (set_json (string_of (mustMarshalMap m)) part) = true)
    by (apply (json_content _ (string_of (mustMarshalMap m))); by destruct part).
  split; [|split].
  - constructor; [|done]. apply set_json_ok; [done|by rewrite bytes_of_string].
  - by rewrite !media_cons, Hc, (json_content _ _ Ej).
  - cbn [existsb]. by rewrite Hc, (json_content _ _ Ej).
Qed.

(** A map that is read is JSON, as deep as it may be. *)
Lemma Unmarshal_map_ok raw payload : Forall is_byte raw -> Unmarshal_map raw = Some (Some payload) ->
  json_fields payload /\ depth_of payload < maxNestingDepth.
Proof.
  unfold Unmarshal_map. intros Hb E. destruct (Unmarshal raw) as [v|] eqn:Ev; [|done]. pose proof (Unmarshal_value _ _ Hb Ev) as Hv.
  apply Unmarshal_nesting in Ev. destruct v as [[] t|[] items]; try done. injection E as <-.
  change (Node NMap items) with (go_object items) in *. rewrite nesting_object in Ev. split; [by apply json_fields_value|]. unfold depth_of. lia.
Qed.

Lemma inject_shape protected parts index out i : fit_protected protected -> Forall ok_part parts ->
  inject_fields index parts protected = Some (out, i) -> same_shape parts out.
Proof.
  intros [Hp Hpd] Ho. revert index out i. induction Ho as [|part parts Hok Hos IH]; intros index out i; [intros [= <- <-]; by repeat split|].
  cbn [inject_fields].
  assert (Hskip : ('(parts, i) ← inject_fields (index + 1) parts protected; Some (part :: parts, i)) = Some (out, i) -> same_shape (part :: parts) out).
  { destruct (inject_fields (index + 1) parts protected) as [[qs j]|] eqn:E; [|done]. cbn [mbind option_bind]. intros [= <- <-].
    destruct (IH _ _ _ E) as (H1&H2&H3). split; [by constructor|]. rewrite !media_cons, H2. cbn [existsb]. by rewrite H3. }
  destruct (part_json part) as [raw|] eqn:Ej; [|done]. destruct (Unmarshal_map (bytes_of raw)) as [[payload|]|] eqn:Eu; [| |done].
  - intros (<-&<-)%some_pair. destruct (Unmarshal_map_ok _ _ (bytes_of_bytes raw) Eu) as [Hj Hd]. apply (set_json_shape _ _ raw); try done.
    + by apply json_set_protected.
    + intros items [= <-]. assert (Hle : depth_of (set_protected protected payload) <= maxNestingDepth - 1); [|lia].
      apply (depth_set_all (fun x => String.eqb (trim_space (fst x)) "")); lia.
  - destruct (forallb _ protected); [|done]. intros (<-&<-)%some_pair. by apply (set_json_shape _ _ raw).
Qed.

Lemma injected_shape protected parts prepared i : fit_protected protected -> Forall ok_part parts ->
  injectProtectedJSONFields parts protected = Some (prepared, i) -> same_shape parts prepared.
Proof.
  intros Hp Ho. unfold injectProtectedJSONFields. rewrite CloneParts_id. destruct protected as [|x protected]; [intros [= <- <-]; by repeat split|].
  by apply inject_shape.
Qed.

Lemma reserve_nonneg protected : fit_protected protected -> 0 <= estimateTokensForJSONValue (go_object (map_of protected)) + 1.
Proof.
  intros [Hp _]. assert (Hm : json_fields (map_of protected)) by (apply (json_set_all (fun _ => false)); [done|apply json_fields_nil]).
  apply json_fields_value in Hm. destruct (Marshal_total _ Hm) as (d&Hd&_). rewrite (estimate_marshal _ _ Hd). pose proof (estimate_nonneg d). lia.
Qed.

Lemma notice_content : is_content omissionNotice = true.
Proof. done. Qed.

(** Truncated parts: their content fits, media stays as it was, and content
    never goes without a trace unless media leaves no room for the notice. *)
Lemma truncate_parts_ok parts policy protected out info : 0 < tokenBudget policy -> fit_protected protected -> Forall ok_part parts ->
  truncatePartsWithProtectedJSONFields parts policy protected = Some (out, info) ->
  content_cost out <= tokenBudget policy /\ Forall ok_part out /\ media out = media parts /\
  (existsb is_content parts = true -> estimateTokensForParts (media parts) + estimateTokensForParts [omissionNotice] <= tokenBudget policy ->
   existsb is_content out = true).
Proof.
  intros Hb Hp Ho. unfold truncatePartsWithProtectedJSONFields. rewrite (proj2 (Z.leb_gt _ 0)) by lia.
  destruct (injectProtectedJSONFields parts protected) as [[prepared pp]|] eqn:Ei; [|done]. cbn [mbind option_bind].
  destruct (injected_shape _ _ _ _ Hp Ho Ei) as (Hpo&Hpm&Hpc).
  destruct (Z.leb_spec (estimateTokensForParts prepared) (tokenBudget policy)).
  { intros [= <- <-]. pose proof (content_estimate prepared). split; [lia|]. split; [done|]. split; [done|]. by rewrite Hpc. }
  set (remaining := if (1 <? length (List.filter is_content prepared))%nat then Z.max (tokenBudget policy - estimateTokensForParts [omissionNotice]) 0 else tokenBudget policy).
  set (reserve := if _ && _ then _ else 0).
  assert (Hrem : 0 <= remaining <= tokenBudget policy).
  { pose proof (estimate_part_nonneg omissionNotice) as Hn. unfold remaining. rewrite estimate_cons. change (estimateTokensForParts []) with 0.
    destruct (_ <? _)%nat; lia. }
  assert (Hres : 0 <= reserve) by (unfold reserve; destruct (_ && _); [by apply reserve_nonneg|done]).
  destruct (parts_loop_bounded protected pp reserve prepared Hp Hres Hpo 0 remaining 0 ltac:(lia)) as (Hc&Hout&Hmed&_&Hgone).
  destruct (parts_loop protected pp reserve prepared 0 remaining 0) as [ps omitted]. cbn [fst snd] in *. rewrite Hpm, Hpc in *.
  destruct ((0 <? omitted) && _) eqn:En; intros [= <- <-].
  - apply andb_true_iff in En as [_ En%Z.leb_le]. rewrite <- estimate_app in En. pose proof (content_estimate (ps ++ [omissionNotice])).
    split; [lia|]. split; [apply Forall_app; split; [done|by apply Forall_singleton]|].
    split; [unfold media in *; rewrite List.filter_app, Hmed; apply app_nil_r|]. intros _ _. rewrite existsb_app. cbn [existsb]. by rewrite notice_content, orb_true_r.
  - split; [lia|]. split; [done|]. split; [done|]. intros He Hn. destruct (Hgone He) as [|Hom]; [done|].
    destruct (existsb is_content ps) eqn:Ec; [done|]. apply andb_false_iff in En as [En%Z.ltb_ge|En%Z.leb_gt]; [lia|].
    assert (Hme : media ps = ps); [|rewrite <- Hmed, Hme in Hn; lia].
    clear - Ec. induction ps as [|p ps IH]; [done|]. cbn [existsb] in Ec. apply orb_false_iff in Ec as [E1 E2]. rewrite media_cons, E1. by rewrite IH.
Qed.
End Loop.
