(* ===== verification/TruncateKeep.v ===== *)
(** * Protected fields survive truncation

    The fields that a caller protects are in what is left of a JSON object, and
    of the part of a result that holds one, whatever else is cut, when they fit
    the budget by themselves. *)

From Stdlib Require Import ZArith Lia Ascii String.
From stdpp Require Import base option strings list sets sorting.
From S2P Require Import Prelude GoStrings Utf8Stream Runes GoValues GoJson GoJsonFacts TruncateText TruncateTextFacts ApprovalSubject Payload Truncate TruncateFacts TruncateFuel TruncateParts TruncateLoop.

Local Open Scope list_scope.
Local Open Scope Z_scope.

(** ** Maps built field by field *)

Lemma assoc_none_key key items : assoc key items = None <-> key ∉ map fst items.
Proof.
  induction items as [|[k v] items IH]; [split; [intros _; apply not_elem_of_nil|done]|]. cbn [assoc map fst]. rewrite not_elem_of_cons.
  destruct (String.eqb_spec k key) as [->|Hne]; [naive_solver|]. rewrite IH. split; [intros ?; by split; [congruence|]|by intros []].
Qed.

Lemma assoc_set_all key target fields : NoDup (map fst fields) ->
  assoc key (foldl (fun m x => map_set (fst x) (snd x) m) target fields) =
    match assoc key fields with Some v => Some v | None => assoc key target end.
Proof.
  revert target. induction fields as [|[k v] fields IH]; intros target Hn; [done|]. cbn [map fst] in Hn. apply NoDup_cons in Hn as [Hk Hn].
  cbn [foldl fst snd assoc]. rewrite IH by done. rewrite assoc_map_set. destruct (String.eqb_spec k key) as [->|]; [|done].
  apply assoc_none_key in Hk. by rewrite Hk.
Qed.

Lemma assoc_member key v fields : NoDup (map fst fields) -> (key, v) ∈ fields -> assoc key fields = Some v.
Proof.
  induction fields as [|[k w] fields IH]; intros Hn Hin; [by apply not_elem_of_nil in Hin|]. cbn [map fst] in Hn. apply NoDup_cons in Hn as [Hk Hn].
  cbn [assoc]. apply elem_of_cons in Hin as [[= -> ->]|Hin]; [by rewrite String.eqb_refl|].
  destruct (String.eqb_spec k key) as [->|]; [|by apply IH]. destruct Hk. apply list_elem_of_fmap. by exists (key, v).
Qed.

(** Every field of a list is in a map. *)
Definition holds (fields items : list (string * GoValue)) : Prop := forall key v, (key, v) ∈ fields -> assoc key items = Some v.

Lemma holds_merge fields kept target : NoDup (map fst kept) -> holds fields kept -> holds fields (mergeProtectedJSONFields target kept).
Proof. intros Hn Hh key v Hin. unfold mergeProtectedJSONFields. by rewrite assoc_set_all, (Hh key v Hin). Qed.

(** Fields under distinct names that are not blank. *)
Definition named (fields : list (string * GoValue)) : Prop :=
  NoDup (map fst fields) /\ Forall (fun x => String.eqb (trim_space (fst x)) "" = false) fields.

Lemma foldl_named {A} (f : A -> string * GoValue -> A) a fields : Forall (fun x => String.eqb (trim_space (fst x)) "" = false) fields ->
  foldl (fun s x => if String.eqb (trim_space (fst x)) "" then s else f s x) a fields = foldl f a fields.
Proof. intros Hf. revert a. induction Hf as [|x fields Hx Hf IH]; intros a; [done|]. cbn [foldl]. by rewrite Hx, IH. Qed.

Lemma holds_prepared fields items : named fields -> holds fields (set_protected fields items).
Proof.
  intros [Hn Hb] key v Hin. unfold set_protected. rewrite foldl_named by done. rewrite assoc_set_all by done. by rewrite (assoc_member key v).
Qed.

Lemma sorted_nodup items : sorted_keys items -> NoDup (map fst items).
Proof.
  unfold sorted_keys. induction 1 as [|k keys Hs IH Hk]; constructor; [|done]. intros Hin.
  by destruct (proj1 (key_lt_le k k) (proj1 (Forall_forall _ _) Hk k Hin)) as [_ ?].
Qed.

Section Keep.
Context `{JL : JsonLaws}.

(** ** What fields cost *)

(** The bytes of a member and its separator. *)
Definition member_size (x : string * GoValue) : Z := match Marshal (snd x) with Some d => len (member (fst x) d) + 1 | None => 0 end.
Definition size (items : list (string * GoValue)) : Z := sum (map member_size items).

Lemma size_cons x items : size (x :: items) = member_size x + size items.
Proof. done. Qed.

Lemma member_size_nonneg x : 0 <= member_size x.
Proof. unfold member_size. destruct (Marshal (snd x)) as [d|]; [|done]. pose proof (text_len_nonneg (member (fst x) d)). lia. Qed.

Lemma size_nonneg items : 0 <= size items.
Proof. apply sum_nonneg. rewrite Forall_map. apply Forall_forall. intros x _. apply member_size_nonneg. Qed.

Lemma members_size items ms : marshal_members items = Some ms -> len (commas ms) = Z.max 0 (size items - 1).
Proof.
  revert ms. induction items as [|x items IH]; intros ms E; [by injection E as <-|].
  apply marshal_members_cons in E as (d&ds&Hd&Hds&->). rewrite commas_cons, len_app, size_cons. specialize (IH ds Hds).
  unfold member_size at 1. rewrite Hd. pose proof (size_nonneg items). pose proof (text_len_nonneg (member (fst x) d)).
  destruct items as [|y items]; [injection Hds as <-; change (size []) with 0; change (len []) with 0; lia|].
  apply marshal_members_cons in Hds as (e&es&He&Hes&->). rewrite size_cons in *. unfold member_size in *. rewrite He in *.
  pose proof (size_nonneg items). pose proof (text_len_nonneg (member (fst y) e)).
  change (len (44 :: commas (member (fst y) e :: es))) with (Z.of_nat (S (length (commas (member (fst y) e :: es))))). rewrite Nat2Z.inj_succ.
  fold (len (commas (member (fst y) e :: es))). rewrite IH. lia.
Qed.

Lemma estimate_size items : json_fields items -> estimateTokensForJSONValue (go_object items) = (Z.max 0 (size items - 1) + 5) / 4.
Proof.
  intros Hi. apply json_fields_value in Hi. destruct (Marshal_total _ Hi) as (d&Hd&_). rewrite (estimate_marshal _ _ Hd), estimate_ceiling.
  rewrite Marshal_object in Hd. destruct (marshal_members items) as [ms|] eqn:E; [|done]. injection Hd as <-.
  pose proof (members_size items ms E) as Hl. unfold object, len in *. cbn [length]. rewrite length_app. cbn [length]. f_equal. lia.
Qed.

Lemma estimate_size_mono a b : json_fields a -> json_fields b -> size a <= size b ->
  estimateTokensForJSONValue (go_object a) <= estimateTokensForJSONValue (go_object b).
Proof. intros Ha Hb Hs. rewrite !estimate_size by done. apply Z.div_le_mono; lia. Qed.

Lemma size_set k v items : assoc k items = None -> size (map_set k v items) = member_size (k, v) + size items.
Proof.
  induction items as [|[k' v'] items IH]; [done|]. cbn [assoc map_set]. destruct (String.eqb_spec k' k) as [|Hne]; [done|]. intros Hn.
  destruct (String.ltb k k'); [done|]. rewrite !size_cons, IH by done. lia.
Qed.

Lemma size_set_all fields target : NoDup (map fst fields) -> (forall k, k ∈ map fst fields -> assoc k target = None) ->
  size (foldl (fun m x => map_set (fst x) (snd x) m) target fields) = size fields + size target.
Proof.
  revert target. induction fields as [|[k v] fields IH]; intros target Hn Ht; [done|]. cbn [map fst] in Hn. apply NoDup_cons in Hn as [Hk Hn].
  cbn [foldl fst snd]. rewrite IH; [|done|].
  - rewrite size_set, size_cons; [lia|]. apply Ht. cbn. by left.
  - intros k' Hk'. rewrite assoc_map_set. destruct (String.eqb_spec k k') as [->|]; [done|]. apply Ht. cbn. by right.
Qed.

Lemma size_map_of fields : NoDup (map fst fields) -> size (map_of fields) = size fields.
Proof. intros Hn. unfold map_of. rewrite size_set_all by done. change (size []) with 0. lia. Qed.

Lemma map_of_json fields : json_protected fields -> json_fields (map_of fields).
Proof. intros Hp. apply (json_set_all (fun _ => false)); [done|apply json_fields_nil]. Qed.

(** ** Splitting and merging *)

Section Fields.
Variable fields : list (string * GoValue).
Hypothesis fields_json : json_protected fields.
Hypothesis fields_named : named fields.

Lemma map_of_app done rest : map_of (done ++ rest) = foldl (fun m x => map_set (fst x) (snd x) m) (map_of done) rest.
Proof. unfold map_of. by rewrite foldl_app. Qed.

Lemma map_of_prefix_size a b : fields = a ++ b -> size (map_of a) <= size (map_of fields) /\ json_fields (map_of a).
Proof.
  destruct fields_named as [Hn _]. intros ->. rewrite map_app in Hn. pose proof Hn as Hn'. apply NoDup_app in Hn' as (Ha&_&_).
  rewrite <- map_app in Hn. rewrite !size_map_of by done. unfold json_protected in fields_json. apply Forall_app in fields_json as [Hja _]. split; [|by apply map_of_json].
  pose proof (size_nonneg b). assert (E : size (a ++ b) = size a + size b); [|lia].
  clear. induction a as [|x a IH]; [done|]. cbn [app]. rewrite !size_cons, IH. lia.
Qed.

(** Protecting field after field protects them all when they fit together. *)
Lemma protect_all budget : estimateTokensForJSONValue (go_object (map_of fields)) < budget ->
  forall rest a, fields = a ++ rest -> forall body,
  let s := foldl (fun s x => protect budget (fst x) (snd x) s) (body, map_of a) rest in
  snd s = map_of fields /\ (forall k, k ∈ map fst rest -> assoc k (fst s) = None) /\
  (forall k, assoc k body = None -> assoc k (fst s) = None).
Proof.
  intros Hb rest. induction rest as [|x rest IH]; intros a E body; [rewrite app_nil_r in E; subst a; split; [done|]; split; [intros k Hk; by apply not_elem_of_nil in Hk|done]|].
  cbn [foldl]. assert (E' : fields = (a ++ [x]) ++ rest) by (by rewrite <- app_assoc).
  assert (Hp : protect budget (fst x) (snd x) (body, map_of a) = (map_delete (fst x) body, map_of (a ++ [x]))).
  { unfold protect. rewrite map_of_app. cbn [foldl]. destruct (map_of_prefix_size (a ++ [x]) rest E') as [Hs Hj].
    rewrite map_of_app in Hs, Hj. cbn [foldl] in Hs, Hj. destruct (map_of_prefix_size fields [] ltac:(by rewrite app_nil_r)) as [_ Hjf].
    pose proof (estimate_size_mono _ _ Hj Hjf Hs). by rewrite (proj2 (Z.ltb_lt _ _)) by lia. }
  rewrite Hp. destruct (IH (a ++ [x]) E' (map_delete (fst x) body)) as (H1&H2&H3). split; [done|]. split.
  - intros k Hk. cbn [map] in Hk. apply elem_of_cons in Hk as [->|Hk]; [|by apply H2]. apply H3. by rewrite assoc_map_delete, String.eqb_refl.
  - intros k Hk. apply H3. rewrite assoc_map_delete. by destruct (String.eqb _ _).
Qed.

Lemma split_holds input budget : estimateTokensForJSONValue (go_object (map_of fields)) < budget ->
  holds fields (snd (splitProtectedJSONFields input budget fields)).
Proof.
  intros Hb. unfold splitProtectedJSONFields. rewrite (foldl_named (fun s x => protect budget (fst x) (snd x) s)) by apply fields_named.
  destruct (protect_all budget Hb fields [] eq_refl input) as (H1&H2&_). change (map_of []) with (@nil (string * GoValue)) in *.
  set (s := foldl _ _ _) in *. cbv zeta in *. fold s in H1, H2. clearbody s.
  assert (Hs : holds fields (snd s)).
  { intros k v Hin. rewrite H1. unfold map_of. destruct fields_named as [Hn _]. rewrite assoc_set_all by done. by rewrite (assoc_member k v). }
  destruct (String.eqb _ _) eqn:Eh; [done|]. unfold protect. destruct s as [body kept]. cbn [fst snd] in *.
  destruct (_ <? budget); [|done]. intros k v Hin. cbn [snd]. rewrite assoc_map_set. destruct (String.eqb_spec "system_hint" k) as [<-|]; [|by apply Hs].
  exfalso. unfold string_field in Eh. rewrite H2 in Eh; [done|]. apply list_elem_of_fmap. by exists ("system_hint"%string, v).
Qed.

Lemma attempts_hold n body kept budget target omitted out o : NoDup (map fst kept) -> holds fields kept ->
  map_attempts n body kept budget target omitted = inl (out, o) -> holds fields out.
Proof.
  intros Hn Hk. revert target omitted. induction n as [|n IH]; intros target omitted; [done|]. cbn [map_attempts].
  destruct (truncateValue _ _ _) as [[v r] o']. destruct (_ <=? budget); [|apply IH]. intros [= <- _]. by apply holds_merge.
Qed.

(** What is left of an object has the protected fields. *)
Lemma map_holds items policy : json_fields items -> fields <> [] -> estimateTokensForJSONValue (go_object (map_of fields)) < tokenBudget policy ->
  exists o, fst (truncateMapWithProtectedJSONFields (Some items) policy fields) = Some o /\ holds fields o.
Proof.
  intros Hi Hne Hb. unfold truncateMapWithProtectedJSONFields. destruct (Z.leb_spec (tokenBudget policy) 0).
  { destruct (map_of_prefix_size fields [] ltac:(by rewrite app_nil_r)) as [_ Hj]. apply json_fields_value in Hj.
    destruct (Marshal_total _ Hj) as (d&Hd&_). rewrite (estimate_marshal _ _ Hd) in Hb. pose proof (estimate_nonneg d). lia. }
  destruct (_ <=? tokenBudget policy); [eexists; split; [done|by apply holds_prepared]|].
  pose proof (json_set_protected fields items fields_json Hi) as Hp. set (prepared := set_protected fields items) in *. clearbody prepared.
  unfold truncateMapToJSONBudget. pose proof (split_json prepared (tokenBudget policy) fields Hp fields_json) as [_ Hkj].
  pose proof (split_holds prepared (tokenBudget policy) Hb) as Hh. destruct (splitProtectedJSONFields _ _ _) as [body kept]. cbn [fst snd] in *.
  pose proof (sorted_nodup kept (proj1 Hkj)) as Hnd.
  destruct (map_attempts _ _ _ _ _ _) as [[out o]|[o target]] eqn:E; [exists out; split; [done|exact (attempts_hold _ _ _ _ _ _ _ _ Hnd Hh E)]|].
  destruct (_ <=? tokenBudget policy); cbn [fst].
  - eexists. split; [done|by apply holds_merge].
  - exists kept. split; [|done]. destruct kept as [|x kept]; [|done]. destruct fields as [|[k v] fs] eqn:Ef; [done|].
    specialize (Hh k v ltac:(by left)). done.
Qed.

(** ** Parts *)

Hypothesis fields_deep : depth_of fields < maxNestingDepth.
Hypothesis fields_some : fields <> [].

(** A part of JSON that decodes into an object with the protected fields. *)
Definition kept_part (part : Part) : Prop :=
  exists raw o, part_json part = Some raw /\ Unmarshal (bytes_of raw) = Some (go_object o) /\ holds fields o.

Lemma kept_object items part : json_fields items -> depth_of items < maxNestingDepth -> holds fields items ->
  kept_part (set_json (string_of (mustMarshalMap (Some items))) part).
Proof.
  intros Hi Hd Hh. exists (string_of (mustMarshalMap (Some items))), items. split; [by destruct part|]. split; [|done].
  apply json_fields_value in Hi. destruct (json_read_back (go_object items) Hi) as (d&E&Hr); [rewrite nesting_object; unfold depth_of in Hd; lia|].
  destruct (Marshal_total _ Hi) as (d'&E'&Hb). rewrite E in E'. injection E' as <-. unfold mustMarshalMap. rewrite E. cbn [default from_option id].
  by rewrite bytes_of_string.
Qed.

Lemma set_protected_depth items : depth_of items < maxNestingDepth -> depth_of (set_protected fields items) < maxNestingDepth.
Proof.
  intros Hd. assert (H' : depth_of (set_protected fields items) <= maxNestingDepth - 1); [|lia].
  apply (depth_set_all (fun x => String.eqb (trim_space (fst x)) "")); lia.
Qed.

Lemma fields_estimate : 0 <= estimateTokensForJSONValue (go_object (map_of fields)).
Proof.
  destruct (map_of_prefix_size fields [] ltac:(by rewrite app_nil_r)) as [_ Hj]. apply json_fields_value in Hj.
  destruct (Marshal_total _ Hj) as (d&Hd&_). rewrite (estimate_marshal _ _ Hd). apply estimate_nonneg.
Qed.

(** Where the fields were put. *)
Lemma inject_form parts index prepared i : 0 <= index -> Forall ok_part parts -> inject_fields index parts fields = Some (prepared, i) ->
  i = -1 \/ exists pre part post items, prepared = pre ++ part :: post /\ i = index + Z.of_nat (length pre) /\ json_fields items /\ depth_of items < maxNestingDepth /\
    part_text part = None /\ part = set_json (string_of (mustMarshalMap (Some (set_protected fields items)))) part.
Proof.
  intros Hix Ho. revert index prepared i Hix. induction Ho as [|p parts Hp Hps IH]; intros index prepared i Hix; [intros [= _ <-]; by left|]. cbn [inject_fields].
  assert (Hskip : ('(parts, i) ← inject_fields (index + 1) parts fields; Some (p :: parts, i)) = Some (prepared, i) ->
    i = -1 \/ exists pre part post items, prepared = pre ++ part :: post /\ i = index + Z.of_nat (length pre) /\ json_fields items /\ depth_of items < maxNestingDepth /\
    part_text part = None /\ part = set_json (string_of (mustMarshalMap (Some (set_protected fields items)))) part).
  { destruct (inject_fields (index + 1) parts fields) as [[qs j]|] eqn:E; [|done]. cbn [mbind option_bind]. intros (<-&<-)%some_pair.
    destruct (IH (index + 1) qs j ltac:(lia) E) as [->|(pre&part&post&items&->&->&Hrest)]; [by left|]. right. exists (p :: pre), part, post, items.
    split; [done|]. split; [cbn [length]; lia|done]. }
  destruct (part_json p) as [raw|] eqn:Ej; [|done]. destruct (Unmarshal_map (bytes_of raw)) as [[payload|]|] eqn:Eu; [| |done].
  - intros (<-&<-)%some_pair. right. destruct (Unmarshal_map_ok _ _ (bytes_of_bytes raw) Eu) as [Hj Hd]. destruct (ok_reads _ _ Hp Ej) as [Ht _].
    exists [], (set_json (string_of (mustMarshalMap (Some (set_protected fields payload)))) p), parts, payload.
    split; [done|]. split; [cbn; lia|]. split; [done|]. split; [done|]. by destruct p.
  - destruct fields_named as [_ Hb]. destruct fields as [|x fs]; [done|]. apply Forall_cons in Hb as [Hx _]. cbn [forallb]. by rewrite Hx.
Qed.

Lemma loop_keeps pp reserve items part post : json_fields items -> depth_of items < maxNestingDepth -> part_text part = None ->
  part = set_json (string_of (mustMarshalMap (Some (set_protected fields items)))) part ->
  reserve = estimateTokensForJSONValue (go_object (map_of fields)) + 1 ->
  forall pre index remaining omitted, index + Z.of_nat (length pre) = pp -> reserve <= remaining ->
  exists p, p ∈ fst (parts_loop fields pp reserve (pre ++ part :: post) index remaining omitted) /\ kept_part p.
Proof.
  intros Hi Hd Ht Hpart Hres pre. pose proof fields_estimate as Hpos.
  induction pre as [|p pre IH]; intros index remaining omitted Hix Hrem.
  - cbn [app parts_loop length] in *. assert (Hpp : index = pp) by lia. rewrite Hpp, Z.ltb_irrefl, Z.eqb_refl.
    assert (Ej : part_json part = Some (string_of (mustMarshalMap (Some (set_protected fields items))))) by (rewrite Hpart; by destruct part).
    rewrite Ej. rewrite (proj2 (Z.leb_gt remaining 0)) by lia. pose proof (json_set_protected fields items fields_json Hi) as Hsj.
    destruct (_ <=? remaining).
    { exists part. cbn [fst]. split; [by left|]. rewrite Hpart. apply kept_object; [done|by apply set_protected_depth|by apply holds_prepared]. }
    assert (Hun : Unmarshal (mustMarshalMap (Some (set_protected fields items))) = Some (go_object (set_protected fields items))).
    { apply json_fields_value in Hsj. pose proof (set_protected_depth items Hd) as Hsd.
      destruct (json_read_back (go_object (set_protected fields items)) Hsj) as (d&E&Hr); [rewrite nesting_object; unfold depth_of in Hsd; lia|].
      unfold mustMarshalMap. by rewrite E. }
    destruct (mustMarshal_reads (Some (set_protected fields items)) Hsj) as [_ Hb]; [intros its [= <-]; by apply set_protected_depth|].
    rewrite bytes_of_string by done. unfold truncateJSONWithProtectedFields.
    assert (Hne : (length (mustMarshalMap (Some (set_protected fields items))) =? 0)%nat = false).
    { destruct (mustMarshalMap _); [by vm_compute in Hun|done]. }
    assert (Hbud : tokenBudget (tokens_policy remaining) = remaining) by (unfold tokenBudget; cbn; by rewrite (proj2 (Z.ltb_lt 0 remaining)) by lia).
    rewrite Hne, Hbud, (proj2 (Z.leb_gt remaining 0)), Hun by lia. cbn [orb go_object].
    destruct (map_holds (set_protected fields items) (tokens_policy remaining) Hsj fields_some ltac:(rewrite Hbud; lia)) as (o&Ho&Hh).
    pose proof (truncate_map_json (Some (set_protected fields items)) (tokens_policy remaining) fields Hsj fields_json) as Hoj.
    pose proof (truncate_map_depth (maxNestingDepth - 1) (set_protected fields items) (tokens_policy remaining) fields o
      ltac:(pose proof (set_protected_depth items Hd); lia) ltac:(lia)) as Hod.
    destruct (truncateMapWithProtectedJSONFields _ _ _) as [out info]. cbn [fst] in *. subst out. specialize (Hod eq_refl).
    eexists. split; [by left|]. apply kept_object; [done|lia|done].
  - cbn [app parts_loop]. cbn [length] in Hix. rewrite (proj2 (Z.ltb_lt index pp)) by lia.
    set (available := Z.max (remaining - reserve) 0).
    assert (Hnext : forall less o, reserve <= less ->
      exists q, q ∈ fst (parts_loop fields pp reserve (pre ++ part :: post) (index + 1) less o) /\ kept_part q) by (intros less o Hl; apply IH; [lia|done]).
    assert (Hkeep : forall p' less o, reserve <= less -> exists q, q ∈ p' :: fst (parts_loop fields pp reserve (pre ++ part :: post) (index + 1) less o) /\ kept_part q).
    { intros p' less o Hl. destruct (Hnext less o Hl) as (q&Hq&Hk). exists q. split; [by right|done]. }
    destruct (part_json p) as [raw|]; [|destruct (part_text p) as [text|]].
    + destruct (Z.leb_spec available 0); [by apply Hnext|]. assert (available = remaining - reserve) by lia.
      destruct (Z.leb_spec (estimate_part p) available); [apply Hkeep; lia|].
      destruct (truncateJSONWithProtectedFields _ _ _) as [t info]. apply Hkeep. lia.
    + destruct (Z.leb_spec available 0); [by apply Hnext|]. assert (available = remaining - reserve) by lia.
      destruct (Z.leb_spec (estimate_part p) available); [apply Hkeep; lia|].
      destruct (TruncateMap _ _) as [payload info]. destruct (_ ≫= as_string); [apply Hkeep; lia|apply Hnext; lia].
    + by apply Hkeep.
Qed.

Lemma parts_hold parts policy prepared pp out info : Forall ok_part parts ->
  injectProtectedJSONFields parts fields = Some (prepared, pp) -> 0 <= pp ->
  estimateTokensForJSONValue (go_object (map_of fields)) + 1 + estimateTokensForParts [omissionNotice] <= tokenBudget policy ->
  truncatePartsWithProtectedJSONFields parts policy fields = Some (out, info) -> exists p, p ∈ out /\ kept_part p.
Proof.
  intros Ho Hi Hpp Hb. pose proof fields_estimate as Hr.
  pose proof (estimate_part_nonneg omissionNotice) as Hn. assert (Hn' : 0 <= estimateTokensForParts [omissionNotice]) by (rewrite estimate_cons; change (estimateTokensForParts []) with 0; lia).
  unfold truncatePartsWithProtectedJSONFields. destruct (Z.leb_spec (tokenBudget policy) 0); [lia|]. rewrite Hi. cbn [mbind option_bind].
  assert (Hform : inject_fields 0 parts fields = Some (prepared, pp)).
  { unfold injectProtectedJSONFields in Hi. rewrite CloneParts_id in Hi. by destruct fields. }
  destruct (inject_form parts 0 prepared pp ltac:(lia) Ho Hform) as [->|(pre&part&post&items&->&Hix&Hij&Hid&Ht&Hpart)]; [lia|].
  destruct (_ <=? tokenBudget policy).
  { intros (<-&_)%some_pair. exists part. split; [apply elem_of_app; right; by left|]. rewrite Hpart.
    apply kept_object; [by apply json_set_protected|by apply set_protected_depth|by apply holds_prepared]. }
  set (remaining := if (1 <? _)%nat then Z.max (tokenBudget policy - estimateTokensForParts [omissionNotice]) 0 else tokenBudget policy).
  assert (Hrem : estimateTokensForJSONValue (go_object (map_of fields)) + 1 <= remaining) by (unfold remaining; destruct (1 <? _)%nat; lia).
  clearbody remaining. rewrite (proj2 (Z.leb_le 0 pp) Hpp), (proj2 (Z.leb_le _ remaining) Hrem). cbn [andb].
  destruct (loop_keeps pp _ items part post Hij Hid Ht Hpart eq_refl pre 0 remaining 0 ltac:(lia) Hrem) as (p&Hp&Hk).
  destruct (parts_loop _ _ _ _ _ _ _) as [ps omitted]. cbn [fst] in Hp. intros (<-&_)%some_pair. exists p. split; [|done].
  destruct (_ && _); [apply elem_of_app; by left|done].
Qed.
End Fields.
End Keep.
