(* ===== verification/SessionCodec.v ===== *)
(** * The event payload of the session package

    The instance of the payload interface of [Events] for the events the
    program stores: [CloneEvent] ([clone.go]), [CanonicalizeEvent] ([event.go],
    [event_canonicalize.go]), [EventTypeOf] ([event_type.go]), schema stamping and
    migration ([schema_migration.go]), [ValidateDurableCoreEvent]
    ([event_validation.go]), the replay lane ([event_visibility.go],
    [approval_review.go]) and generated titles ([append_prepare.go]).

    Unicode case mapping, [crypto/sha256] and [encoding/json] are the operations
    of [Platform], together with the functions of other packages that
    validation calls on open values; [PlatformLaws] is what copying relies on. *)

From Stdlib Require Import ZArith Lia Ascii String.
From stdpp Require Import base option strings list gmap.
From S2P Require Import Prelude GoStrings Fence Execution Utf8Stream Runes ApprovalSubject GoValues Payload Events.

Local Open Scope string_scope.

#[local] Abbreviation Journal := (ExecutionJournalEntry ProtocolApproval GoMap).

(** ** The payload *)

(** The fields of [Event] outside the envelope, and the metadata maps of its
    notice and its lifecycle. *)
Record Payload : Type := MkPayload {
  pl_Actor : ActorRef; pl_Scope : option EventScope; pl_ChildOrigin : option EventChildOrigin;
  pl_Invocation : option EventInvocation; pl_ContextUsage : option ContextUsageSnapshot;
  pl_Compaction : option (list string); pl_Message : option Message; pl_Tool : option EventTool;
  pl_Plan : option (option (list PlanEntry)); pl_NoticeMeta : GoMap; pl_LifecycleMeta : GoMap;
  pl_Journal : option Journal; pl_Protocol : option EventProtocol; pl_Meta : GoMap;
}.

Global Instance Payload_eq_dec : EqDecision Payload.
Proof. solve_decision. Defined.

#[local] Abbreviation SEvent := (Event Payload).

Definition set_Body {B} (v : B) (e : Event B) : Event B :=
  MkEvent B (ev_ID e) (ev_IdempotencyKey e) (ev_SessionID e) (ev_Seq e) (ev_Schema e) (ev_Type e) (ev_Visibility e)
    (ev_Time e) (ev_ApprovalRequestID e) (ev_MessageID e) (ev_Notice e) (ev_Lifecycle e) (ev_Text e) v.
Definition set_MessageID {B} (v : string) (e : Event B) : Event B :=
  MkEvent B (ev_ID e) (ev_IdempotencyKey e) (ev_SessionID e) (ev_Seq e) (ev_Schema e) (ev_Type e) (ev_Visibility e)
    (ev_Time e) (ev_ApprovalRequestID e) v (ev_Notice e) (ev_Lifecycle e) (ev_Text e) (ev_Body e).
Definition set_EventSchema {B} (v : Z) (e : Event B) : Event B :=
  MkEvent B (ev_ID e) (ev_IdempotencyKey e) (ev_SessionID e) (ev_Seq e) v (ev_Type e) (ev_Visibility e)
    (ev_Time e) (ev_ApprovalRequestID e) (ev_MessageID e) (ev_Notice e) (ev_Lifecycle e) (ev_Text e) (ev_Body e).
Definition set_Protocol (v : option EventProtocol) (b : Payload) : Payload :=
  MkPayload (pl_Actor b) (pl_Scope b) (pl_ChildOrigin b) (pl_Invocation b) (pl_ContextUsage b) (pl_Compaction b) (pl_Message b)
    (pl_Tool b) (pl_Plan b) (pl_NoticeMeta b) (pl_LifecycleMeta b) (pl_Journal b) v (pl_Meta b).
Definition set_Journal (v : option Journal) (b : Payload) : Payload :=
  MkPayload (pl_Actor b) (pl_Scope b) (pl_ChildOrigin b) (pl_Invocation b) (pl_ContextUsage b) (pl_Compaction b) (pl_Message b)
    (pl_Tool b) (pl_Plan b) (pl_NoticeMeta b) (pl_LifecycleMeta b) v (pl_Protocol b) (pl_Meta b).

(** ** The platform *)

Class Platform : Type := {
  to_lower : string -> string;                              (* strings.ToLower *)
  equal_fold : string -> string -> bool;                    (* strings.EqualFold *)
  sha256_hex : string -> string;                            (* crypto/sha256, hexadecimal *)
  json_strings : list string -> string;                     (* json.Marshal of strings *)
  json_decode : string -> option GoValue;                   (* json.Unmarshal into any *)
  json_equal : GoMap -> GoMap -> bool;                      (* sameCanonicalJSON *)
  json_problem : SEvent -> option string;                   (* jsonvalue.Validate(event) *)
  journal_problem : Journal -> option string;               (* jsonvalue.Validate(entry) *)
  marshal_problem : SEvent -> option SessionError;          (* json.Marshal fails *)
  json_event : SEvent -> result SessionError SEvent;        (* json.Unmarshal of the encoding *)
  json_digest_input : string -> list SEvent -> result SessionError string; (* json.Marshal *)
  receipt_media_ref : string -> bool;                       (* an event_media source in a receipt, by gjson *)
  mcp_envelope : string -> option (string * string * bool); (* a json.Decoder on the envelope of ParseMCPCall *)
  input_object : string -> GoMap;                           (* a json.Decoder on a map, as in mustInputObject *)
  output_problem : GoMap -> option string;                  (* JSON encoding and tool.TruncateMap *)
  has_usage : SEvent -> bool;                               (* UsageSnapshotFromSessionEvent(e) != nil *)
}.

(** Lower-casing after trimming the lower-cased text changes nothing, and keeps
    blank text blank; digests have no surrounding space. *)
Class PlatformLaws (P : Platform) : Prop := {
  lower_trim s : trim_space (to_lower (trim_space (to_lower s))) = trim_space (to_lower s);
  lower_blank s : trim_space (to_lower s) = "" <-> trim_space s = "";
  digest_trim s : trim_space (sha256_hex s) = sha256_hex s;
}.

Section Codec.
Context `{P : Platform}.

Definition approval_context (a : ProtocolApproval) : bool := match pa_Context a with Some _ => true | None => false end.

Definition CloneJournal (j : Journal) : Journal :=
  CloneExecutionJournalEntry sha256_hex json_strings cloneProtocolApproval approval_context j.

(** ** [clone.go] *)

Definition clone_body (b : Payload) : Payload :=
  MkPayload (CloneActorRef (pl_Actor b)) (CloneEventScope <$> pl_Scope b) (CloneEventChildOrigin <$> pl_ChildOrigin b)
    (CloneEventInvocation <$> pl_Invocation b) (CloneContextUsageSnapshot <$> pl_ContextUsage b) (pl_Compaction b)
    (CloneMessage <$> pl_Message b) (CloneEventTool <$> pl_Tool b) (cloneEventPlanPayload <$> pl_Plan b)
    (pl_NoticeMeta b) (pl_LifecycleMeta b) (CloneJournal <$> pl_Journal b) (CloneEventProtocol <$> pl_Protocol b) (pl_Meta b).

Definition SessionCloneEvent (e : SEvent) : SEvent :=
  MkEvent Payload (trim_space (ev_ID e)) (trim_space (ev_IdempotencyKey e)) (trim_space (ev_SessionID e)) (ev_Seq e)
    (ev_Schema e) (ev_Type e) (ev_Visibility e) (ev_Time e) (ev_ApprovalRequestID e) (ev_MessageID e)
    ((fun n => MkNotice (trim_space (to_lower (n_Level n))) (trim_space (n_Text n)) (trim_space (n_Kind n))) <$> ev_Notice e)
    ((fun l => MkLifecycle (trim_space (l_Status l)) (trim_space (l_Reason l))) <$> ev_Lifecycle e)
    (ev_Text e) (clone_body (ev_Body e)).

(** ** Protocol views ([protocol.go]) *)

(** [textFromProtocolContent] on a decoded value, which holds no raw JSON. *)
Fixpoint decoded_text (v : GoValue) : string :=
  match v with
  | Leaf KString s => s
  | Leaf _ _ => ""
  | Node NMap items =>
    let text := string_field "text" items in if negb (text =? "") then text else string_field "content" items
  | Node NSlice items =>
    String.concat newline (List.filter (fun t => negb (t =? "")) (map (fun x => decoded_text (snd x)) items))
  | Node _ _ => ""
  end.

Fixpoint textFromProtocolContent (v : GoValue) : string :=
  match v with
  | Leaf KString s => s
  | Leaf KRaw raw => if raw =? "" then "" else match json_decode raw with Some d => decoded_text d | None => raw end
  | Leaf _ _ => ""
  | Node NMap items =>
    let text := string_field "text" items in if negb (text =? "") then text else string_field "content" items
  | Node NSlice items =>
    String.concat newline (List.filter (fun t => negb (t =? "")) (map (fun x => textFromProtocolContent (snd x)) items))
  | Node _ _ => ""
  end.

Definition is_nil (v : GoValue) : bool := match v with Leaf KNil _ => true | _ => false end.

(** [ProtocolTextContent] of a non-empty text. *)
Definition ProtocolTextContent (text : string) : GoValue :=
  if text =? "" then go_nil else go_object [("text", go_string text); ("type", go_string "text")].

Definition ProtocolUpdateOf (e : SEvent) : option ProtocolUpdate :=
  pl_Protocol (ev_Body e) ≫= fun p => ep_Update (CloneEventProtocol p).

Definition ProtocolSessionUpdateType (e : SEvent) : string :=
  match ProtocolUpdateOf e with Some u => trim_space (pu_SessionUpdate u) | None => "" end.

Definition protocolUpdateCarriesMessageIdentity (u : ProtocolUpdate) : bool :=
  let t := trim_space (pu_SessionUpdate u) in
  (t =? ProtocolUpdateTypeUserMessage) || (t =? ProtocolUpdateTypeAgentMessage) || (t =? ProtocolUpdateTypeAgentThought).

Definition protocolUpdateHasAgentCommunicationMeta (u : ProtocolUpdate) : bool :=
  match map_index (pu_Meta u) "caelis" ≫= as_object with
  | Some caelis => match assoc "agent_communication" caelis with Some _ => true | None => false end
  | None => false
  end.

Definition protocolContentIsText (content : GoValue) (want : string) : bool :=
  let want := trim_space want in
  if (want =? "") || is_nil content then false else trim_space (textFromProtocolContent content) =? want.

Definition empty_map (m : GoMap) : bool := match m with None | Some [] => true | _ => false end.

Definition protocolUpdateHasOnlySessionUpdate (u : ProtocolUpdate) : bool :=
  (pu_ToolCallID u =? "") && bool_decide (pu_Name u = None) && (trim_space (pu_Title u) =? "")
  && (trim_space (pu_Kind u) =? "") && (trim_space (pu_Status u) =? "") && (pu_MessageID u =? "")
  && negb (pu_Replacement u) && (match pu_ReplacedFields u with None | Some [] => true | _ => false end)
  && is_nil (pu_Content u) && empty_map (pu_RawInput u) && empty_map (pu_RawOutput u)
  && bool_decide (pu_Locations u = []) && bool_decide (pu_Entries u = []) && empty_map (pu_Meta u).

Definition IsAgentCommunicationProtocol (e : SEvent) : bool :=
  match pl_Protocol (ev_Body e) with
  | None => false
  | Some p =>
    let n := CloneEventProtocol p in
    if ep_Method n =? ProtocolMethodAgentCommunication then true else
    (ev_Type e =? EventTypeContext) && (ep_Method n =? ProtocolMethodSessionUpdate)
    && match ep_Update n with
       | Some u => (trim_space (pu_SessionUpdate u) =? ProtocolUpdateTypeUserMessage) && protocolUpdateHasAgentCommunicationMeta u
       | None => false
       end
  end.

Definition EventMessageID (e : SEvent) : string :=
  if negb (ev_MessageID e =? "") then ev_MessageID e else
  match ProtocolUpdateOf e with
  | Some u => if protocolUpdateCarriesMessageIdentity u then pu_MessageID u else ""
  | None => ""
  end.

(** The text of an Agent communication; [None] when the event is not one. *)
Definition ProtocolAgentCommunicationOf (e : SEvent) : option string :=
  if negb (IsAgentCommunicationProtocol e) then None else
  match CloneEventProtocol <$> pl_Protocol (ev_Body e) with
  | None => None
  | Some n =>
    let legacy := if ep_Method n =? ProtocolMethodAgentCommunication then ep_AgentCommunication n else None in
    match legacy with
    | Some text => if trim_space text =? "" then None else Some text
    | None =>
      match ep_Update n with
      | None => None
      | Some u =>
        if negb (ep_Method n =? ProtocolMethodSessionUpdate)
           || negb (trim_space (pu_SessionUpdate u) =? ProtocolUpdateTypeUserMessage)
           || negb (protocolUpdateHasAgentCommunicationMeta u) then None else
        let observation := IsUIOnly e || IsMirror e in
        let trim t := if observation then t else trim_space t in
        let text := trim match pl_Message (ev_Body e) with
                         | Some m => if observation && is_nil (pu_Content u) then TextContent m
                                     else textFromProtocolContent (pu_Content u)
                         | None => textFromProtocolContent (pu_Content u)
                         end in
        let text := if text =? "" then trim (ev_Text e) else text in
        if negb (text =? "") then Some text else
        if negb observation || (EventMessageID e =? "")
           || (negb (pu_Replacement u) && negb (bool_decide ("_meta" ∈ default [] (pu_ReplacedFields u))))
        then None else Some text
      end
    end
  end.

(** ** [event_type.go] *)

Definition tool_terminal (status : string) : bool :=
  let s := to_lower (trim_space status) in
  (s =? "completed") || (s =? "failed") || (s =? "error") || (s =? "interrupted") || (s =? "cancelled")
  || (s =? "canceled") || (s =? "terminated").

Definition EventTypePlan : string := "plan".
Definition EventTypeToolCall : string := "tool_call".
Definition EventTypeToolResult : string := "tool_result".
Definition EventTypeParticipant : string := "participant".
Definition EventTypeHandoff : string := "handoff".
Definition EventTypeNotice : string := "notice".
Definition EventTypeSystem : string := "system".

(** The switch on the session update, and the one on the method. *)
Definition update_type (t : string) : option string :=
  if t =? ProtocolUpdateTypeUserMessage then Some EventTypeUser else
  if (t =? ProtocolUpdateTypeAgentMessage) || (t =? ProtocolUpdateTypeAgentThought) then Some EventTypeAssistant else
  if t =? ProtocolUpdateTypeToolCall then Some EventTypeToolCall else
  if t =? ProtocolUpdateTypeToolUpdate then Some EventTypeToolResult else
  if t =? ProtocolUpdateTypePlan then Some EventTypePlan else None.

Definition method_type (m : string) : option string :=
  if m =? ProtocolMethodParticipantUpdate then Some EventTypeParticipant else
  if m =? ProtocolMethodControllerHandoff then Some EventTypeHandoff else
  if (m =? ProtocolMethodRuntimeLifecycle) || (m =? ProtocolMethodRequestPermission) then Some EventTypeLifecycle else
  if m =? ProtocolMethodContextCheckpoint then Some EventTypeCompact else
  if m =? ProtocolMethodAgentCommunication then Some EventTypeContext else None.

Definition protocol_type (p : EventProtocol) : option string :=
  let n := CloneEventProtocol p in
  match ep_Update n ≫= fun u => update_type (trim_space (pu_SessionUpdate u)) with
  | Some t => Some t
  | None =>
    match method_type (trim_space (ep_Method n)) with
    | Some t => Some t
    | None => match ep_Permission n with Some _ => Some EventTypeLifecycle | None => None end
    end
  end.

Definition message_type (m : Message) : string :=
  if m_Role m =? "user" then EventTypeUser else
  if m_Role m =? "assistant" then
    match ToolUses m with [] => EventTypeAssistant | _ => EventTypeToolCall end else
  if m_Role m =? "tool" then EventTypeToolResult else
  if m_Role m =? "system" then EventTypeSystem else EventTypeCustom.

Definition SessionEventTypeOf (e : SEvent) : string :=
  if negb (ev_Type e =? "") then ev_Type e else
  match pl_Plan (ev_Body e) with
  | Some _ => EventTypePlan
  | None =>
    if IsNotice e then EventTypeNotice else
    match ev_Lifecycle e with
    | Some _ => EventTypeLifecycle
    | None =>
      match pl_Protocol (ev_Body e) ≫= protocol_type with
      | Some t => t
      | None =>
        match pl_Tool (ev_Body e) with
        | Some t => if tool_terminal (et_Status t) then EventTypeToolResult else EventTypeToolCall
        | None => match pl_Message (ev_Body e) with Some m => message_type m | None => EventTypeCustom end
        end
      end
    end
  end.

(** ** [event_canonicalize.go] *)

Definition set_event_protocol (v : option EventProtocol) (e : SEvent) : SEvent := set_Body (set_Protocol v (ev_Body e)) e.

Definition runtimeText (e : SEvent) : string :=
  match pl_Message (ev_Body e) with
  | Some m => if negb (TextContent m =? "") then TextContent m else ev_Text e
  | None => ev_Text e
  end.

Definition zero_update : ProtocolUpdate :=
  MkUpdate "" go_nil "" false false None "" None "" "" "" None None [] [] None.

Definition update_with (sessionUpdate : string) (content : GoValue) (messageID : string) (u : ProtocolUpdate) : ProtocolUpdate :=
  MkUpdate sessionUpdate content messageID (pu_Replacement u) (pu_PreviouslyObserved u) (pu_ReplacedFields u) (pu_ToolCallID u)
    (pu_Name u) (pu_Title u) (pu_Kind u) (pu_Status u) (pu_RawInput u) (pu_RawOutput u) (pu_Locations u) (pu_Entries u) (pu_Meta u).

Definition protocol_with (u : option ProtocolUpdate) (p : EventProtocol) : EventProtocol :=
  MkProtocol (ep_Method p) u (ep_Permission p) (ep_AgentCommunication p).

(** The type of the text update an event without a message gets. *)
Definition text_update_type (e : SEvent) : option string :=
  let t := SessionEventTypeOf e in
  if t =? EventTypeUser then Some ProtocolUpdateTypeUserMessage else
  if t =? EventTypeAssistant then
    Some (if ProtocolSessionUpdateType e =? "" then ProtocolUpdateTypeAgentMessage else ProtocolSessionUpdateType e) else
  if t =? EventTypeToolCall then Some ProtocolUpdateTypeToolCall else
  if t =? EventTypeCompact then Some "compact" else None.

Definition ensureProtocolText (e : SEvent) : SEvent :=
  let text := runtimeText e in
  if text =? "" then e else
  match text_update_type e with
  | None => e
  | Some updateType =>
    let base := match pl_Protocol (ev_Body e) with
                | Some p => p
                | None => MkProtocol (if SessionEventTypeOf e =? EventTypeCompact then ProtocolMethodContextCheckpoint else "") None None None
                end in
    let protocol := CloneEventProtocol base in
    let u := default zero_update (ep_Update protocol) in
    let sessionUpdate := if pu_SessionUpdate u =? "" then updateType else pu_SessionUpdate u in
    let u := update_with sessionUpdate (pu_Content u) (pu_MessageID u) u in
    let messageID := if (pu_MessageID u =? "") && protocolUpdateCarriesMessageIdentity u then ev_MessageID e else pu_MessageID u in
    let content := if is_nil (pu_Content u) then ProtocolTextContent text else pu_Content u in
    set_event_protocol (Some (protocol_with (Some (update_with sessionUpdate content messageID u)) protocol)) e
  end.

(** Nothing is left of a plain session update. *)
Definition drop_empty_update (p : EventProtocol) : option EventProtocol :=
  if (ep_Method p =? ProtocolMethodSessionUpdate) && bool_decide (ep_Update p = None) && bool_decide (ep_Permission p = None)
  then None else Some p.

Definition removeModelProjectionContent (e : SEvent) : SEvent :=
  match pl_Message (ev_Body e), pl_Protocol (ev_Body e) with
  | Some m, Some p =>
    let protocol := CloneEventProtocol p in
    match ep_Update protocol with
    | None => set_event_protocol (Some protocol) e
    | Some u =>
      let content := if protocolContentIsText (pu_Content u) (TextContent m) then go_nil else pu_Content u in
      let u := update_with (pu_SessionUpdate u) content (pu_MessageID u) u in
      let messageID := if protocolUpdateCarriesMessageIdentity u && negb (ev_MessageID e =? "") && (pu_MessageID u =? ev_MessageID e)
                       then "" else pu_MessageID u in
      let u := update_with (pu_SessionUpdate u) content messageID u in
      let t := SessionEventTypeOf e in
      let update := if ((t =? EventTypeUser) || (t =? EventTypeAssistant)) && protocolUpdateHasOnlySessionUpdate u
                       && bool_decide (ep_Permission protocol = None) then None else Some u in
      set_event_protocol (drop_empty_update (protocol_with update protocol)) e
    end
  | _, _ => e
  end.

Definition removeToolProjectionProtocol (e : SEvent) : SEvent :=
  match pl_Tool (ev_Body e), pl_Protocol (ev_Body e) with
  | Some _, Some p =>
    let protocol := CloneEventProtocol p in
    let update := match ep_Update protocol with
                  | Some u => let t := trim_space (pu_SessionUpdate u) in
                              if (t =? ProtocolUpdateTypeToolCall) || (t =? ProtocolUpdateTypeToolUpdate) then None else Some u
                  | None => None
                  end in
    set_event_protocol (drop_empty_update (protocol_with update protocol)) e
  | _, _ => e
  end.

Definition SessionCanonicalizeEvent (e : SEvent) : SEvent :=
  let out := SessionCloneEvent e in
  let out := if ev_Type out =? "" then set_Type (SessionEventTypeOf out) out else out in
  let out := set_MessageID (EventMessageID out) out in
  let out := match pl_Tool (ev_Body out) with Some _ => removeToolProjectionProtocol out | None => out end in
  match pl_Message (ev_Body out) with
  | Some _ => removeModelProjectionContent out
  | None => ensureProtocolText out
  end.

(** ** [schema_migration.go] *)

Definition EventSchemaVersion : Z := 2.
Definition RunSchemaVersion : Z := ExecutionJournalSchemaVersion.

Definition set_run_schema (v : Z) (r : ExecutionRecord) : ExecutionRecord :=
  MkExecution v (er_Kind r) (er_SessionID r) (er_RunID r) (er_TurnID r) (er_StepID r) (er_Identity r) (er_Revision r) (er_Status r)
    (er_RecoveredFrom r) (er_Error r) (er_Reason r) (er_CreatedAt r) (er_UpdatedAt r).
Definition set_tool_schema (v : Z) (t : ToolExecution) : ToolExecution :=
  MkToolExecution (te_ModelCall t) (te_Binding t) v (te_Key t) (te_Identity t) (te_Revision t) (te_ToolName t) (te_EffectClass t)
    (te_Status t) (te_RecoveredFrom t) (te_Input t) (te_Result t) (te_Error t) (te_Reason t) (te_CreatedAt t) (te_UpdatedAt t).
Definition set_token_schema (v : Z) (t : PauseToken ProtocolApproval GoMap) : PauseToken ProtocolApproval GoMap :=
  MkPauseToken _ _ v (pk_TokenID t) (pk_SessionID t) (pk_RunID t) (pk_TurnID t) (pk_ToolCallID t) (pk_ToolName t) (pk_ItemID t)
    (pk_Revision t) (pk_Status t) (pk_Input t) (pk_Approval t) (pk_Presentation t) (pk_Metadata t) (pk_Outcome t) (pk_OptionID t)
    (pk_Approved t) (pk_Reason t) (pk_ReviewText t) (pk_CreatedAt t) (pk_UpdatedAt t).

(** The schema of a nested record that has none. *)
Definition stamp_schema {A} (get : A -> Z) (set : Z -> A -> A) (v : Z) (r : A) : A := if Z.eqb (get r) 0 then set v r else r.

Definition SessionStamp (e : SEvent) : SEvent :=
  if negb (Z.eqb (ev_Schema e) 0) then e else
  set_Body (set_Journal ((fun j : Journal =>
      MkEntry _ _ ExecutionJournalSchemaVersion (je_Kind j)
        (stamp_schema er_Schema set_run_schema RunSchemaVersion <$> je_Execution j)
        (stamp_schema te_Schema set_tool_schema ToolExecutionSchemaVersion <$> je_ToolExecution j)
        (stamp_schema pk_Schema set_token_schema ExecutionJournalSchemaVersion <$> je_PauseToken j))
      <$> pl_Journal (ev_Body e)) (ev_Body e)) (set_EventSchema EventSchemaVersion e).

(** [rawSchemaVersion]: an absent schema is 0. *)
Definition schema_version (kind : string) (v current : Z) : result SessionError Z :=
  if (v <? 0)%Z then Fail (ErrSchemaVersion (kind ++ ": schema must be a non-negative integer")) else
  if (current <? v)%Z then Fail (ErrSchemaVersion (kind ++ ": future schema is unsupported")) else Ok v.

(** [migrateJournalV0ToV1]: the journal and its records become version 1. *)
Definition migrateJournalV0ToV1 (j : Journal) : Journal :=
  MkEntry _ _ ExecutionJournalSchemaVersion (je_Kind j) (set_run_schema 1 <$> je_Execution j)
    (set_tool_schema 1 <$> je_ToolExecution j) (set_token_schema 1 <$> je_PauseToken j).

(** [legacyPluginContextObject]. *)
Definition legacyPluginContext (e : SEvent) : bool :=
  ((ev_Type e =? "") || (ev_Type e =? EventTypeCustom)) && bool_decide (pl_Message (ev_Body e) <> None)
  && bool_decide (map_index (pl_Meta (ev_Body e)) "source" = Some (go_string "plugin_hook")).

Definition migrateEventV0ToV1 (e : SEvent) : SEvent :=
  let e1 := set_EventSchema 1 (if legacyPluginContext e then set_Type EventTypeContext e else e) in
  set_Body (set_Journal (migrateJournalV0ToV1 <$> pl_Journal (ev_Body e)) (ev_Body e)) e1.

(** [rejectLegacyEventMedia]: media references of the message, and of the
    receipt of the tool execution. *)
Fixpoint media_refs (p : Part) : bool :=
  match p with
  | MkPart h r content =>
    (match ph_Media h with Some m => (ph_Kind h =? "media") && (md_Kind (mp_Source m) =? "event_media") | None => false end)
    || ((ph_Kind h =? "tool_result") && bool_decide (r <> None) && existsb media_refs content)
  end.

Definition rejectLegacyEventMedia (e : SEvent) : bool :=
  match pl_Message (ev_Body e) with Some m => existsb media_refs (m_Parts m) | None => false end
  || match pl_Journal (ev_Body e) ≫= je_ToolExecution with Some t => receipt_media_ref (te_Result t) | None => false end.

Definition migrateEventV1ToV2 (e : SEvent) : result SessionError SEvent :=
  if rejectLegacyEventMedia e then Fail (ErrSchemaVersion "event: legacy event cannot contain an event media reference")
  else Ok (set_EventSchema 2 e).

(** One nested record of a journal, brought to version 1. *)
Definition migrate_nested {A} (kind : string) (get : A -> Z) (set : Z -> A -> A) (r : option A) : result SessionError (option A) :=
  match r with
  | None => Ok None
  | Some r => let! v := schema_version kind (get r) 1 in Ok (Some (if Z.eqb v 1 then r else set 1 r))
  end.

Definition migrateJournal (journal : Journal) : result SessionError Journal :=
  let! v := schema_version "journal" (je_Schema journal) ExecutionJournalSchemaVersion in
  let j := if Z.eqb v 0 then migrateJournalV0ToV1 journal else journal in
  let! run := migrate_nested "run" er_Schema set_run_schema (je_Execution j) in
  let! tool := migrate_nested "tool_execution" te_Schema set_tool_schema (je_ToolExecution j) in
  let! token := migrate_nested "pause_token" pk_Schema set_token_schema (je_PauseToken j) in
  Ok (MkEntry _ _ (je_Schema j) (je_Kind j) run tool token).

(** The migration of the encoded event, read on the event it encodes. *)
Definition migrateEvent (e : SEvent) : result SessionError SEvent :=
  let! v := schema_version "event" (ev_Schema e) EventSchemaVersion in
  let e1 := if Z.eqb v 0 then migrateEventV0ToV1 e else e in
  let! e2 := if Z.eqb v 2 then Ok e1 else migrateEventV1ToV2 e1 in
  match pl_Journal (ev_Body e2) with
  | None => Ok e2
  | Some j => let! j := migrateJournal j in Ok (set_Body (set_Journal (Some j) (ev_Body e2)) e2)
  end.

(** Encoding, migration, decoding; the display text is not encoded. *)
Definition SessionMigrateEvent (e : SEvent) : result SessionError SEvent :=
  match marshal_problem e with
  | Some err => Fail err
  | None =>
    let! migrated := migrateEvent e in
    let! decoded := json_event migrated in
    Ok (set_Text (ev_Text e) decoded)
  end.

(** ** [agent_communication.go] *)

Definition ValidateAgentCommunicationActor (actor : ActorRef) : result string unit :=
  let a := CloneActorRef actor in
  if negb (ActorRefHasIdentity a) then Fail "agent communication requires source identity" else
  if (ac_ID a =? "") && (ac_Name a =? "") then Fail "agent communication requires a source ID or name" else
  if equal_fold (trim_space (ac_Kind a)) "user" then Fail "agent communication source cannot be a user" else
  if multi_line (ac_Kind a) then Fail "agent communication source kind must be single-line" else
  if multi_line (ac_ID a) then Fail "agent communication source ID must be single-line" else
  if multi_line (ac_Name a) then Fail "agent communication source name must be single-line" else
  if multi_line (ac_Role a) then Fail "agent communication source role must be single-line" else Ok tt.

(** ** [event_validation.go] *)

Definition coreEventValidationError (detail : string) : result SessionError unit := Fail (ErrEventValidation (trim_space detail)).

(** [validateDurableCoreMeta]: the first output field found in the metadata. *)
Definition validateDurableCoreMeta (meta : GoMap) : result SessionError unit :=
  match List.find (fun key => match map_index meta key with Some _ => true | None => false end)
          ["stdout"; "stderr"; "result"; "error"; "exit_code"] with
  | Some key => coreEventValidationError ("tool output field " ++ key ++ " is stored in event meta")
  | None => Ok tt
  end.

(** ** [tool/mcp_call.go] *)

Definition MCPCallToolName : string := "mcp_call".
Definition ErrorCodeInvalidInput : string := "invalid_input".

(** The code and the text of a tool error. *)
Definition CallError : Type := string * string.

(** The envelope is read by [encoding/json] into its name and the raw text of its
    arguments, unknown fields refused; the flag tells that only white space follows.
    Raw JSON is never blank, so that the arguments have a first character. *)
Definition ParseMCPCall (call : ToolCall) : result CallError ToolCall :=
  match mcp_envelope (tc_Args call) with
  | None => Fail (ErrorCodeInvalidInput, "invalid mcp_call envelope")
  | Some (_, _, false) => Fail (ErrorCodeInvalidInput, "mcp_call requires exactly one JSON object")
  | Some (name, arguments, true) =>
    if (name =? "") || negb (name =? trim_space name) || (arguments =? "") || negb (String.prefix "{" (trim_space arguments))
    then Fail (ErrorCodeInvalidInput, "mcp_call requires an exact tool_name and object arguments")
    else Ok (MkToolCall (tc_ID call) name arguments "")
  end.

Definition mustInputObject (raw : string) : GoMap := input_object raw.

Definition validateRoutedModelCall (t : EventTool) : result SessionError unit :=
  match et_ModelCall t with
  | None => Ok tt
  | Some original =>
    match ParseMCPCall original with
    | Ok actual =>
      if negb (tc_Name original =? MCPCallToolName) || negb (tc_ID actual =? et_ID t) || negb (tc_Name actual =? et_Name t)
      then coreEventValidationError "invalid routed model tool call" else
      let input := mustInputObject (tc_Args actual) in
      if (negb (empty_map input) || negb (empty_map (et_Input t))) && negb (json_equal input (et_Input t))
      then coreEventValidationError "routed model tool arguments do not match real input" else Ok tt
    | Fail _ => coreEventValidationError "invalid routed model tool call"
    end
  end.

(** [toolMessageOutputPayload]: the first JSON part, or the joined text parts. *)
Definition toolMessageOutputPayload (content : list Part) : result string GoMap :=
  match List.find (fun p => match ph_JSON (part_head p) with Some raw => negb (raw =? "") | None => false end) content with
  | Some p =>
    match json_decode (default "" (ph_JSON (part_head p))) with
    | None => Fail "tool message result is not JSON"
    | Some (Node NMap items) => Ok (Some items)
    | Some v => Ok (Some [("result", v)])
    end
  | None =>
    match omap (fun p => tp_Text <$> ph_Text (part_head p)) content with
    | [] => Ok None
    | texts => Ok (Some [("result", go_string (String.concat newline texts))])
    end
  end.

Definition validateDurableCoreToolMessageOutput (t : EventTool) (message : option Message) : result SessionError unit :=
  match message with
  | None => Ok tt
  | Some m =>
    if empty_map (et_Output t) then Ok tt else
    let results := ToolResults m in
    match results with
    | [] => Ok tt
    | first :: rest =>
      let toolID := trim_space (et_ID t) in
      if (toolID =? "") && bool_decide (rest <> [])
      then coreEventValidationError "durable Event.Tool id is required when tool message carries multiple results" else
      if (toolID =? "") && negb (trim_space (tr_ToolUseID (fst first)) =? "")
      then coreEventValidationError "durable Event.Tool id is required to match tool message result" else
      match List.find (fun r => trim_space (tr_ToolUseID (fst r)) =? toolID) results with
      | None => coreEventValidationError "tool message result does not match durable Event.Tool id"
      | Some (matched, content) =>
        let! _ := match et_ModelCall t with Some _ => validateRoutedModelCall t | None => Ok tt end in
        let expectedName := match et_ModelCall t with Some c => tc_Name c | None => et_Name t end in
        if negb (expectedName =? "") && negb (trim_space (tr_Name matched) =? "")
           && negb (trim_space (tr_Name matched) =? trim_space expectedName)
        then coreEventValidationError "tool message result does not match durable Event.Tool name" else
        match toolMessageOutputPayload content with
        | Fail detail => coreEventValidationError detail
        | Ok payload =>
          if empty_map payload then coreEventValidationError "tool message result is missing payload" else
          if negb (json_equal (et_Output t) payload)
          then coreEventValidationError "tool message result diverges from durable Event.Tool output" else Ok tt
        end
      end
    end
  end.

Definition validateDurableCoreToolResult (e : SEvent) : result SessionError unit :=
  match pl_Tool (ev_Body e) with
  | Some t =>
    let! _ := if empty_map (et_Output t) then Ok tt
              else match output_problem (et_Output t) with Some detail => coreEventValidationError detail | None => Ok tt end in
    let! _ := validateDurableCoreToolMessageOutput t (pl_Message (ev_Body e)) in
    validateDurableCoreMeta (pl_Meta (ev_Body e))
  | None =>
    match pl_Message (ev_Body e) with
    | Some m =>
      match ToolResults m with
      | [] => coreEventValidationError "tool result is missing durable Event.Tool or model tool-result payload"
      | _ => validateDurableCoreMeta (pl_Meta (ev_Body e))
      end
    | None => coreEventValidationError "tool result is missing durable Event.Tool or model tool-result payload"
    end
  end.

Definition eventSchemasCurrent (e : SEvent) : bool :=
  Z.eqb (ev_Schema e) EventSchemaVersion &&
  match pl_Journal (ev_Body e) with
  | None => true
  | Some j =>
    Z.eqb (je_Schema j) ExecutionJournalSchemaVersion
    && match je_Execution j with Some r => Z.eqb (er_Schema r) RunSchemaVersion | None => true end
    && match je_ToolExecution j with Some t => Z.eqb (te_Schema t) ToolExecutionSchemaVersion | None => true end
    && match je_PauseToken j with Some t => Z.eqb (pk_Schema t) ExecutionJournalSchemaVersion | None => true end
  end.

Definition journal_text (err : ExecutionError) : string :=
  match err with
  | ExecutionTransitionError _ _ _ _ d | ToolExecutionTransitionError _ _ _ d | PauseTokenTransitionError _ _ _ d | JournalError d => d
  end.

Definition missing_message : result SessionError unit :=
  coreEventValidationError "model-visible event is missing durable Event.Message".

(** The checks of a canonical history event, by type. *)
Definition validateCanonicalEvent (e : SEvent) : result SessionError unit :=
  let t := SessionEventTypeOf e in
  let message := pl_Message (ev_Body e) in
  if (t =? EventTypeUser) || (t =? EventTypeAssistant) || (t =? EventTypeSystem) then
    match message with Some _ => Ok tt | None => missing_message end
  else if t =? EventTypeContext then
    match message with
    | None => missing_message
    | Some _ =>
      if negb (IsAgentCommunicationProtocol e) then Ok tt else
      match ProtocolAgentCommunicationOf e with
      | None => coreEventValidationError "Agent communication is missing durable display text"
      | Some _ =>
        match ValidateAgentCommunicationActor (pl_Actor (ev_Body e)) with
        | Fail detail => coreEventValidationError detail
        | Ok _ => Ok tt
        end
      end
    end
  else if t =? EventTypeToolCall then
    match pl_Tool (ev_Body e) with
    | None => coreEventValidationError "tool call is missing durable Event.Tool"
    | Some tool =>
      let! _ := validateRoutedModelCall tool in
      if match message with Some m => bool_decide (ToolUses m = []) | None => false end
      then coreEventValidationError "tool call Event.Message is missing model tool-call payload"
      else validateDurableCoreMeta (pl_Meta (ev_Body e))
    end
  else if t =? EventTypeToolResult then validateDurableCoreToolResult e
  else if (t =? EventTypeCustom) && bool_decide (message <> None)
  then coreEventValidationError "custom model-visible event with Event.Message must use an explicit model-context event type"
  else Ok tt.

Definition ValidateJournal (j : Journal) : result ExecutionError unit :=
  ValidateExecutionJournalEntry sha256_hex json_strings cloneProtocolApproval approval_context journal_problem j.

Definition SessionValidate (event : SEvent) : result SessionError unit :=
  if IsTransient event then Ok tt else
  let! e := if eventSchemasCurrent event then Ok event
            else match SessionMigrateEvent event with
                 | Ok e => Ok e
                 | Fail _ => Fail (ErrEventValidation "schema migration")
                 end in
  match json_problem e with
  | Some detail => coreEventValidationError ("event contains invalid JSON-compatible value: " ++ detail)
  | None =>
    let! _ := match pl_Journal (ev_Body e) with
              | Some j => match ValidateJournal j with Ok _ => Ok tt | Fail err => coreEventValidationError (journal_text err) end
              | None => Ok tt
              end in
    let! _ := match pl_ChildOrigin (ev_Body e) with
              | Some o =>
                match ValidateEventChildOrigin o with
                | Fail detail => coreEventValidationError detail
                | Ok _ => if IsMirror e then Ok tt else coreEventValidationError "child origin requires mirror visibility"
                end
              | None => Ok tt
              end in
    if negb (IsCanonicalHistoryEvent e) then Ok tt else validateCanonicalEvent e
  end.

(** ** The replay lane ([event_visibility.go], [approval_review.go]) *)

Definition ResolvedApprovalReview (e : SEvent) : option (PauseToken ProtocolApproval GoMap) :=
  if negb (IsJournal e) || negb (SessionEventTypeOf e =? EventTypeLifecycle) then None else
  match pl_Journal (ev_Body e) with
  | None => None
  | Some j =>
    if negb (je_Kind j =? JournalKindPauseToken) then None else
    match je_PauseToken j with
    | None => None
    | Some token =>
      if negb (pk_Status token =? PauseTokenResolved) || (trim_space (pk_ReviewText token) =? "") then None else
      if (trim_space (pk_ToolCallID token) =? "")
         && match pk_Approval token with Some a => negb (approval_context a) | None => true end
      then None else Some token
    end
  end.

Definition SessionIsClientReplayEvent (e : SEvent) : bool :=
  if IsTransient e then false else
  if IsJournal e then match ResolvedApprovalReview e with Some _ => true | None => false end else
  if (SessionEventTypeOf e =? EventTypeContext) && bool_decide (pl_Protocol (ev_Body e) = None) && negb (has_usage e) then false else
  if IsAgentCommunicationProtocol e
     && (bool_decide (ProtocolAgentCommunicationOf e = None) || negb (is_ok (ValidateAgentCommunicationActor (pl_Actor (ev_Body e)))))
  then false else
  IsCanonicalHistoryEvent e || IsMirror e.

(** ** Generated titles ([append_prepare.go], [event.go]) *)

Definition EventText (e : SEvent) : string :=
  let message := match pl_Message (ev_Body e) with Some m => TextContent m | None => "" end in
  let notice := match ev_Notice e with Some n => trim_space (n_Text n) | None => "" end in
  if negb (message =? "") then message else
  if negb (ev_Text e =? "") then ev_Text e else
  if negb (notice =? "") then notice else
  match ProtocolUpdateOf e with Some u => textFromProtocolContent (pu_Content u) | None => "" end.

Definition EventDisplayText (e : SEvent) : string :=
  match ProtocolAgentCommunicationOf e with
  | Some text => text
  | None => if negb (ev_Text e =? "") then ev_Text e else EventText e
  end.

Definition hiddenTranscriptMeta (v : option GoValue) : bool :=
  match v with
  | Some (Leaf KBool b) => b =? "true"
  | Some (Leaf KString s) => equal_fold (trim_space s) "true"
  | _ => false
  end.

Definition titleHiddenEvent (e : SEvent) : bool :=
  hiddenTranscriptMeta (map_index (pl_Meta (ev_Body e)) "hidden_from_transcript")
  || bool_decide (map_index (pl_Meta (ev_Body e)) "source" = Some (go_string "plugin_hook")).

Definition maxTitleRunes : nat := 80.

(** The bytes before the [n]-th rune. *)
Fixpoint rune_prefix (n fuel : nat) (p : list Z) : list Z :=
  match n, fuel, p with
  | O, _, _ | _, O, _ | _, _, [] => []
  | S n, S fuel, _ => let size := fst (DecodeRune p) in (take size p ++ rune_prefix n fuel (drop size p))%list
  end.

Definition truncateGeneratedSessionTitle (text : string) : string :=
  let p := bytes_of (trim_space text) in
  let p := rune_prefix maxTitleRunes (length p) p in
  string_of (if Valid p then p else ToValidUTF8 p RuneError).

Definition SessionTitle (e : SEvent) : string :=
  if negb (SessionEventTypeOf e =? EventTypeUser) || titleHiddenEvent e then "" else
  match pl_Message (ev_Body e) with
  | Some m => if m_Role m =? "user" then truncateGeneratedSessionTitle (EventDisplayText e) else ""
  | None => ""
  end.

(** ** The instance *)

Definition session_digest (mutation : string) (events : list SEvent) : result SessionError string :=
  let! raw := json_digest_input mutation events in Ok (sha256_hex raw).

#[global] Instance session_codec : EventCodec Payload := {
  CloneEvent := SessionCloneEvent;
  CanonicalizeEvent := SessionCanonicalizeEvent;
  stampCurrentEventSchemas := SessionStamp;
  MigrateEvent := SessionMigrateEvent;
  EventTypeOf := SessionEventTypeOf;
  ValidateDurableCoreEvent := SessionValidate;
  GeneratedSessionTitle := SessionTitle;
  HasProtocolPermission e := match pl_Protocol (ev_Body e) with Some p => bool_decide (ep_Permission p <> None) | None => false end;
  IsClientReplayEvent := SessionIsClientReplayEvent;
  EventsDigest := session_digest;
}.

Context {PL : PlatformLaws P}.

Lemma NormalizeExecutionRecord_idem r :
  NormalizeExecutionRecord sha256_hex json_strings (NormalizeExecutionRecord sha256_hex json_strings r)
  = NormalizeExecutionRecord sha256_hex json_strings r.
Proof.
  unfold NormalizeExecutionRecord, ExecutionRecordIdentity. simpl. autorewrite with gostr.
  destruct (trim_space (er_Identity r) =? "") eqn:E; rewrite ?digest_trim, ?trim_space_idem, ?E; [|done].
  by destruct (sha256_hex _ =? "") eqn:?.
Qed.

Lemma NormalizeToolExecution_idem t :
  NormalizeToolExecution sha256_hex json_strings (NormalizeToolExecution sha256_hex json_strings t)
  = NormalizeToolExecution sha256_hex json_strings t.
Proof.
  unfold NormalizeToolExecution, ExecutionIdentity, NormalizeExecutionKey. simpl. autorewrite with gostr.
  destruct (trim_space (te_Identity t) =? "") eqn:E; rewrite ?digest_trim, ?trim_space_idem, ?E; [|done].
  by destruct (sha256_hex _ =? "") eqn:?.
Qed.

Lemma approval_context_clone a : approval_context (cloneProtocolApproval a) = approval_context a.
Proof. unfold approval_context, cloneProtocolApproval. simpl. by destruct (pa_Context a). Qed.

Lemma ClonePauseToken_idem (t : PauseToken ProtocolApproval GoMap) :
  ClonePauseToken cloneProtocolApproval approval_context (ClonePauseToken cloneProtocolApproval approval_context t)
  = ClonePauseToken cloneProtocolApproval approval_context t.
Proof.
  unfold ClonePauseToken. simpl. autorewrite with gostr. f_equal.
  - destruct (pk_Approval t) as [a|]; simpl; [rewrite approval_context_clone; destruct (approval_context a)|]; by autorewrite with gostr.
  - destruct (pk_Approval t) as [a|]; simpl; [rewrite approval_context_clone; destruct (approval_context a)|]; by autorewrite with gostr.
  - apply fmap_idem, cloneProtocolApproval_idem.
  - apply fmap_idem, cloneProtocolApproval_idem.
Qed.

Lemma CloneJournal_idem j : CloneJournal (CloneJournal j) = CloneJournal j.
Proof.
  unfold CloneJournal, CloneExecutionJournalEntry. simpl. autorewrite with gostr. f_equal.
  - apply fmap_idem, NormalizeExecutionRecord_idem.
  - apply fmap_idem, NormalizeToolExecution_idem.
  - apply fmap_idem, ClonePauseToken_idem.
Qed.

Lemma clone_body_idem b : clone_body (clone_body b) = clone_body b.
Proof.
  unfold clone_body. simpl. f_equal;
    auto using fmap_idem, CloneActorRef_idem, CloneEventScope_idem, CloneEventChildOrigin_idem, CloneEventInvocation_idem,
      CloneContextUsageSnapshot_idem, CloneEventTool_idem, cloneEventPlanPayload_idem, CloneJournal_idem, CloneEventProtocol_idem.
  destruct (pl_Message b); simpl; by rewrite ?CloneMessage_id.
Qed.

#[global] Instance session_laws : CodecLaws Payload.
Proof.
  split; intros e; try reflexivity.
  - unfold IsTransient, IsNotice. simpl. destruct (ev_Notice e) as [n|]; simpl; [|done]. rewrite !trim_space_idem. do 3 f_equal.
    apply eq_bool_prop_intro. rewrite !Is_true_true, !String.eqb_eq. apply lower_blank.
  - simpl. destruct (ev_Lifecycle e); simpl; [|done]. split; eauto.
  - simpl. destruct (pl_Protocol (ev_Body e)) as [p|]; simpl; [|done]. apply bool_decide_ext. by destruct (ep_Permission p).
  - change (SessionCloneEvent (SessionCloneEvent e) = SessionCloneEvent e). unfold SessionCloneEvent. simpl. rewrite clone_body_idem.
    autorewrite with gostr. f_equal.
    + destruct (ev_Notice e); simpl; [|done]. by rewrite lower_trim, !trim_space_idem.
    + destruct (ev_Lifecycle e); simpl; [|done]. by rewrite !trim_space_idem.
Qed.
End Codec.
