(* ===== verification/CodecProps.v ===== *)
(** * Properties of the event payload

    Migration reaches the current schemas and changes nothing else, and the
    titles generated from events are bounded. *)

From Stdlib Require Import ZArith Lia Ascii String.
From stdpp Require Import base option strings list gmap.
From S2P Require Import Prelude GoStrings Fence Execution Utf8Stream Runes ApprovalSubject Approval GoValues Payload Events SessionCodec.

Local Open Scope string_scope.

Section Props.
Context `{P : Platform}.
#[local] Abbreviation SEvent := (Event Payload).
#[local] Abbreviation Journal := (ExecutionJournalEntry ProtocolApproval GoMap).

(** ** Migration *)

Lemma schema_version_ok kind v current x : schema_version kind v current = Ok x -> x = v /\ (0 <= v <= current)%Z.
Proof.
  unfold schema_version. destruct (Z.ltb_spec v 0); [done|]. destruct (Z.ltb_spec current v); [done|]. intros [= <-]. split; [done|lia].
Qed.

Lemma migrate_nested_ok {A} kind (get : A -> Z) set r r' : (forall v x, get (set v x) = v) ->
  migrate_nested kind get set r = Ok r' -> match r' with Some x => get x = 1%Z | None => True end.
Proof.
  intros Hset. unfold migrate_nested. destruct r as [r|]; [|by intros [= <-]].
  intros (v&[-> Hv]%schema_version_ok&H)%result_bind_ok. injection H as <-.
  destruct (Z.eqb_spec (get r) 1); [done|apply Hset].
Qed.

Lemma migrate_nested_current {A} kind (get : A -> Z) set r :
  match r with Some x => get x = 1%Z | None => True end -> migrate_nested kind get set r = Ok r.
Proof.
  unfold migrate_nested. destruct r as [r|]; [|done]. intros H. rewrite H. done.
Qed.

Lemma migrateJournal_current j j' : migrateJournal j = Ok j' ->
  je_Schema j' = 1%Z /\ match je_Execution j' with Some r => er_Schema r = 1%Z | None => True end
  /\ match je_ToolExecution j' with Some t => te_Schema t = 1%Z | None => True end
  /\ match je_PauseToken j' with Some t => pk_Schema t = 1%Z | None => True end.
Proof.
  unfold migrateJournal. intros (v&[-> Hv]%schema_version_ok&H)%result_bind_ok. revert H.
  set (j1 := if Z.eqb (je_Schema j) 0 then migrateJournalV0ToV1 j else j).
  assert (Hs : je_Schema j1 = 1%Z).
  { unfold j1. destruct (Z.eqb_spec (je_Schema j) 0); [done|]. unfold ExecutionJournalSchemaVersion in Hv. lia. }
  intros (run&Hrun&(tool&Htool&(token&Htoken&H)%result_bind_ok)%result_bind_ok)%result_bind_ok. injection H as <-. simpl.
  apply migrate_nested_ok in Hrun; [|done]. apply migrate_nested_ok in Htool; [|done]. apply migrate_nested_ok in Htoken; [|done].
  done.
Qed.

Lemma migrateJournal_id j :
  je_Schema j = 1%Z -> match je_Execution j with Some r => er_Schema r = 1%Z | None => True end ->
  match je_ToolExecution j with Some t => te_Schema t = 1%Z | None => True end ->
  match je_PauseToken j with Some t => pk_Schema t = 1%Z | None => True end -> migrateJournal j = Ok j.
Proof.
  intros H1 H2 H3 H4. unfold migrateJournal, schema_version. rewrite H1. cbn. rewrite !migrate_nested_current by done.
  cbn. destruct j as [s k ex to pt]. cbn in *. by rewrite H1.
Qed.

Lemma schemas_current (e : SEvent) : eventSchemasCurrent e = true <->
  ev_Schema e = 2%Z /\ match pl_Journal (ev_Body e) with
  | None => True
  | Some j => je_Schema j = 1%Z /\ match je_Execution j with Some r => er_Schema r = 1%Z | None => True end
    /\ match je_ToolExecution j with Some t => te_Schema t = 1%Z | None => True end
    /\ match je_PauseToken j with Some t => pk_Schema t = 1%Z | None => True end
  end.
Proof.
  unfold eventSchemasCurrent, EventSchemaVersion, RunSchemaVersion, ExecutionJournalSchemaVersion, ToolExecutionSchemaVersion.
  rewrite andb_true_iff, Z.eqb_eq. destruct (pl_Journal (ev_Body e)) as [j|]; [|tauto].
  rewrite !andb_true_iff, Z.eqb_eq.
  destruct (je_Execution j), (je_ToolExecution j), (je_PauseToken j); rewrite ?Z.eqb_eq; intuition.
Qed.

(** The migrated event carries the current schemas, and everything else but a
    legacy plugin type as before. *)
Definition same_but_schemas (e e' : SEvent) : Prop :=
  ev_ID e' = ev_ID e /\ ev_IdempotencyKey e' = ev_IdempotencyKey e /\ ev_SessionID e' = ev_SessionID e /\ ev_Seq e' = ev_Seq e
  /\ ev_Visibility e' = ev_Visibility e /\ ev_Time e' = ev_Time e /\ ev_ApprovalRequestID e' = ev_ApprovalRequestID e
  /\ ev_MessageID e' = ev_MessageID e /\ ev_Notice e' = ev_Notice e /\ ev_Lifecycle e' = ev_Lifecycle e
  /\ set_Journal None (ev_Body e') = set_Journal None (ev_Body e)
  /\ (pl_Journal (ev_Body e') = None <-> pl_Journal (ev_Body e) = None).

(** Migration reaches exactly the current schemas.  If migrating an event succeeds, the event and every record of its
    journal carry the current schema versions, the version it came from was not negative and not newer than the
    program, and nothing else changed but the type of a legacy plugin context; an event whose schemas are
    current is left as it is. *)
Theorem migration_reaches_current (e : SEvent) :
  (forall e', migrateEvent e = Ok e' ->
     eventSchemasCurrent e' = true /\ (0 <= ev_Schema e <= EventSchemaVersion)%Z /\ same_but_schemas e e'
     /\ (ev_Type e' = ev_Type e \/ (ev_Schema e = 0%Z /\ legacyPluginContext e = true /\ ev_Type e' = EventTypeContext)))
  /\ (eventSchemasCurrent e = true -> migrateEvent e = Ok e).
Proof.
  split.
  - intros e'. unfold migrateEvent. intros (v&[-> Hv]%schema_version_ok&H)%result_bind_ok. revert H.
    set (e1 := if Z.eqb (ev_Schema e) 0 then migrateEventV0ToV1 e else e).
    assert (H1 : same_but_schemas e e1 /\ (ev_Schema e1 = 1 /\ ev_Schema e <> 2 \/ ev_Schema e1 = 2 /\ ev_Schema e = 2)%Z
      /\ (ev_Type e1 = ev_Type e \/ (ev_Schema e = 0%Z /\ legacyPluginContext e = true /\ ev_Type e1 = EventTypeContext))).
    { unfold e1, EventSchemaVersion in *. destruct (Z.eqb_spec (ev_Schema e) 0) as [E|E]; [|split; [by split_and!|split; [lia|by left]]].
      unfold migrateEventV0ToV1. split; [|split; [left; split; [by destruct (legacyPluginContext e)|lia]|]].
      - unfold same_but_schemas. destruct (legacyPluginContext e); simpl; split_and!; try done; by destruct (pl_Journal (ev_Body e)).
      - destruct (legacyPluginContext e); simpl; auto. }
    clearbody e1. destruct H1 as (Hs&Hsch&Ht). intros (e2&H2&H)%result_bind_ok.
    assert (H2' : ev_Schema e2 = 2%Z /\ same_but_schemas e e2 /\ ev_Type e2 = ev_Type e1).
    { unfold migrateEventV1ToV2 in H2. destruct (Z.eqb_spec (ev_Schema e) 2) as [E|E].
      - injection H2 as <-. split; [lia|done].
      - destruct (rejectLegacyEventMedia e1); [done|]. injection H2 as <-. done. }
    destruct H2' as (Hs2&Hsame&Ht2).
    assert (Hfin : eventSchemasCurrent e' = true /\ same_but_schemas e e' /\ ev_Type e' = ev_Type e2).
    { destruct (pl_Journal (ev_Body e2)) as [j|] eqn:Ej.
      - apply result_bind_ok in H as (j'&Hj%migrateJournal_current&H). injection H as <-. split_and!; [|..|done].
        + apply schemas_current. done.
        + unfold same_but_schemas in *. simpl. destruct Hsame as (?&?&?&?&?&?&?&?&?&?&?&Hn). rewrite Ej in Hn.
          split_and!; try done. split; [done|]. intros Hx. by apply Hn in Hx.
      - injection H as <-. split_and!; [|done|done]. apply schemas_current. by rewrite Ej. }
    destruct Hfin as (?&?&Htf). split_and!; try done; [lia|unfold EventSchemaVersion in *; lia|]. rewrite Htf, Ht2. done.
  - intros Hc. apply schemas_current in Hc as [Hs Hj]. unfold migrateEvent, schema_version. rewrite Hs. cbn.
    destruct (pl_Journal (ev_Body e)) as [j|] eqn:Ej; [|done]. destruct Hj as (?&?&?&?).
    rewrite migrateJournal_id by done. cbn. f_equal. destruct e as [? ? ? ? ? ? ? ? ? ? ? ? ? b]. unfold set_Body. simpl in *.
    rewrite <- Ej. by destruct b.
Qed.

(** ** Generated titles *)

Lemma DecodeRune_prefix p k : p <> [] -> snd (DecodeRune p) = false ->
  DecodeRune (take 1 p ++ take k (drop 1 p))%list = (1%nat, false).
Proof.
  intros Hp Hd. replace (take 1 p ++ take k (drop 1 p))%list with (take (S k) p) by (by destruct p as [|? [|? ?]]).
  assert (Hne : take (S k) p <> []) by (by destruct p).
  destruct (DecodeRune (take (S k) p)) as [size ok] eqn:E. destruct ok.
  - pose proof (DecodeRune_app (take (S k) p) (drop (S k) p)) as Ha. rewrite take_drop in Ha.
    rewrite Ha, E in Hd by (apply DecodeRune_full; by rewrite E). done.
  - pose proof (DecodeRune_invalid _ Hne) as Hi. rewrite E in Hi. cbn in Hi. by rewrite Hi.
Qed.

(** The truncated bytes are a prefix of at most [n] runes. *)
Lemma rune_prefix_runes n fuel p : (length p <= fuel)%nat ->
  (length (runes (rune_prefix n fuel p)) <= n)%nat /\ exists k, rune_prefix n fuel p = take k p.
Proof.
  revert fuel p. induction n as [|n IH]; intros fuel p Hf; [split; [simpl; lia|by exists 0%nat; rewrite take_0; destruct fuel]|].
  destruct fuel as [|fuel]; [destruct p; [|simpl in Hf; lia]; split; [simpl; lia|by exists 0%nat]|].
  destruct (decide (p = [])) as [->|Hne]; [split; [simpl; lia|by exists 0%nat]|].
  pose proof (DecodeRune_size p Hne) as Hs.
  assert (Hr : rune_prefix (S n) (S fuel) p = (take (fst (DecodeRune p)) p ++ rune_prefix n fuel (drop (fst (DecodeRune p)) p))%list)
    by (by destruct p).
  rewrite Hr. clear Hr. destruct (IH fuel (drop (fst (DecodeRune p)) p)) as [Hc [k Hk]]; [rewrite length_drop; lia|].
  split; [|exists (fst (DecodeRune p) + k)%nat; rewrite Hk, take_take_drop; done].
  assert (Hd : fst (DecodeRune (take (fst (DecodeRune p)) p ++ rune_prefix n fuel (drop (fst (DecodeRune p)) p))%list) = fst (DecodeRune p)).
  { destruct (snd (DecodeRune p)) eqn:E; [by rewrite DecodeRune_take|].
    rewrite Hk, (DecodeRune_invalid p Hne E). by rewrite DecodeRune_prefix. }
  rewrite runes_step by (destruct p; [done|]; destruct (fst (DecodeRune _)); [lia|done]). rewrite Hd.
  rewrite drop_app_length' by (rewrite length_take; lia). simpl. lia.
Qed.

(** Replacing the invalid bytes of a string keeps it within its runes. *)
Lemma to_valid_runes n invalid p : (length p <= n)%nat ->
  (length (runes (to_valid n invalid p RuneError)) <= length (runes p))%nat.
Proof.
  revert invalid p. induction n as [|n IH]; intros invalid p Hn; [destruct p; simpl in *; lia|].
  destruct (decide (p = [])) as [->|Hne]; [done|]. pose proof (DecodeRune_size p Hne) as Hs.
  rewrite (runes_step p) by done. replace (to_valid (S n) invalid p RuneError) with
    (if snd (DecodeRune p) then (take (fst (DecodeRune p)) p ++ to_valid n false (drop (fst (DecodeRune p)) p) RuneError)%list
     else ((if invalid then [] else RuneError) ++ to_valid n true (drop 1 p) RuneError)%list)
    by (destruct p; [done|]; cbn [to_valid]; by destruct (DecodeRune _)).
  destruct (snd (DecodeRune p)) eqn:E.
  - rewrite runes_step by (destruct p; [done|]; destruct (fst (DecodeRune _)); [lia|done]).
    rewrite DecodeRune_take by done. rewrite E, drop_app_length' by (rewrite length_take; lia). simpl.
    apply le_n_S, IH. rewrite length_drop. lia.
  - rewrite (DecodeRune_invalid p Hne E). simpl (length (_ :: _)).
    specialize (IH true (drop 1 p)). rewrite length_drop in IH. specialize (IH ltac:(lia)).
    destruct invalid; [simpl (_ ++ _)%list; lia|].
    change RuneError with (concat [RuneError]) at 1.
    rewrite runes_concat by (constructor; [apply RuneError_rune|constructor]). simpl. lia.
Qed.

Lemma to_valid_bytes n invalid p : Forall is_byte p -> Forall is_byte (to_valid n invalid p RuneError).
Proof.
  revert invalid p. induction n as [|n IH]; intros invalid p Hp; [by destruct p|]. destruct p as [|b p]; [done|].
  cbn [to_valid]. destruct (DecodeRune (b :: p)) as [size ok]. destruct ok; apply Forall_app; split;
    auto using Forall_take, Forall_drop. destruct invalid; [constructor|apply RuneError_rune].
Qed.

Lemma truncate_title_ok text :
  (length (runes (bytes_of (truncateGeneratedSessionTitle text))) <= maxTitleRunes)%nat
  /\ Valid (bytes_of (truncateGeneratedSessionTitle text)) = true.
Proof.
  unfold truncateGeneratedSessionTitle. set (p := bytes_of (trim_space text)).
  destruct (rune_prefix_runes maxTitleRunes (length p) p) as [Hc [k Hk]]; [done|].
  set (q := rune_prefix maxTitleRunes (length p) p) in *.
  assert (Hq : Forall is_byte q) by (rewrite Hk; apply Forall_take, bytes_of_bytes).
  destruct (Valid q) eqn:E; rewrite bytes_of_string; [done|done| |by apply to_valid_bytes].
  split; [|by apply to_valid_valid]. unfold ToValidUTF8. pose proof (to_valid_runes (length q) false q). lia.
Qed.

(** Generated titles are safe to show.  The title a Session takes from an event is valid UTF-8 of at most 80
    runes, whatever bytes the message holds, and only a visible user message of a user event gives one. *)
Theorem generated_title_bounded (e : SEvent) :
  (length (runes (bytes_of (SessionTitle e))) <= maxTitleRunes)%nat /\ Valid (bytes_of (SessionTitle e)) = true
  /\ (SessionTitle e = "" \/ (SessionEventTypeOf e = EventTypeUser /\ titleHiddenEvent e = false
      /\ exists m, pl_Message (ev_Body e) = Some m /\ m_Role m = "user")).
Proof.
  unfold SessionTitle. destruct (SessionEventTypeOf e =? EventTypeUser) eqn:Et; simpl; [|by split_and!; [lia|done|left]].
  apply String.eqb_eq in Et. destruct (titleHiddenEvent e) eqn:Eh; [by split_and!; [simpl; lia|done|left]|].
  destruct (pl_Message (ev_Body e)) as [m|] eqn:Em; [|by split_and!; [simpl; lia|done|left]].
  destruct (m_Role m =? "user") eqn:Er; [|by split_and!; [simpl; lia|done|left]]. apply String.eqb_eq in Er.
  split_and!; [apply truncate_title_ok..|right; eauto 7].
Qed.
End Props.
