(* ===== verification/Canonical.v ===== *)
(** * Canonical forms of events

    What canonicalisation does to the protocol of an event, that the stored form
    is stable under it, and what copying loses. *)

From Stdlib Require Import ZArith Lia Ascii String.
From stdpp Require Import base option strings list gmap.
From S2P Require Import Prelude GoStrings Fence Execution ApprovalSubject GoValues Payload Events SessionCodec.

Local Open Scope string_scope.

Section Canonical.
Context `{P : Platform}.
#[local] Abbreviation SEvent := (Event Payload).

(** ** Canonicalisation on the protocol *)

(** After the copy, canonicalisation changes the type, the message identifier
    and the protocol only; these are its steps on the protocol of an event of
    type [ty] with message identifier [mid]. *)
Definition remove_tool (p : option EventProtocol) : option EventProtocol :=
  p ≫= fun p =>
    let protocol := CloneEventProtocol p in
    drop_empty_update (protocol_with
      (match ep_Update protocol with
       | Some u => let t := trim_space (pu_SessionUpdate u) in
                   if (t =? ProtocolUpdateTypeToolCall) || (t =? ProtocolUpdateTypeToolUpdate) then None else Some u
       | None => None
       end) protocol).

Definition model_update (mid text : string) (u : ProtocolUpdate) : ProtocolUpdate :=
  let content := if protocolContentIsText (pu_Content u) text then go_nil else pu_Content u in
  let messageID := if protocolUpdateCarriesMessageIdentity u && negb (mid =? "") && (pu_MessageID u =? mid) then "" else pu_MessageID u in
  update_with (pu_SessionUpdate u) content messageID u.

Definition remove_model (ty mid text : string) (p : option EventProtocol) : option EventProtocol :=
  p ≫= fun p =>
    let protocol := CloneEventProtocol p in
    match ep_Update protocol with
    | None => Some protocol
    | Some u =>
      let u := model_update mid text u in
      drop_empty_update (protocol_with
        (if ((ty =? EventTypeUser) || (ty =? EventTypeAssistant)) && protocolUpdateHasOnlySessionUpdate u
            && bool_decide (ep_Permission protocol = None) then None else Some u) protocol)
    end.

Definition default_update (ty : string) : option string :=
  if ty =? EventTypeUser then Some ProtocolUpdateTypeUserMessage else
  if ty =? EventTypeAssistant then Some ProtocolUpdateTypeAgentMessage else
  if ty =? EventTypeToolCall then Some ProtocolUpdateTypeToolCall else
  if ty =? EventTypeCompact then Some "compact" else None.

Definition text_update (mid text updateType : string) (u : ProtocolUpdate) : ProtocolUpdate :=
  let sessionUpdate := if pu_SessionUpdate u =? "" then updateType else pu_SessionUpdate u in
  let u := update_with sessionUpdate (pu_Content u) (pu_MessageID u) u in
  update_with sessionUpdate (if is_nil (pu_Content u) then ProtocolTextContent text else pu_Content u)
    (if (pu_MessageID u =? "") && protocolUpdateCarriesMessageIdentity u then mid else pu_MessageID u) u.

(** The protocol the text is added to. *)
Definition text_base (ty : string) (p : option EventProtocol) : EventProtocol :=
  default (MkProtocol (if ty =? EventTypeCompact then ProtocolMethodContextCheckpoint else "") None None None) p.

Definition ensure_text (ty mid text : string) (p : option EventProtocol) : option EventProtocol :=
  if text =? "" then p else
  match default_update ty with
  | None => p
  | Some updateType =>
    let protocol := CloneEventProtocol (text_base ty p) in
    Some (protocol_with (Some (text_update mid text updateType (default zero_update (ep_Update protocol)))) protocol)
  end.

Definition canonical_protocol (ty mid : string) (tool : bool) (message : option string) (text : string)
    (p : option EventProtocol) : option EventProtocol :=
  let p := if tool then remove_tool p else p in
  match message with Some m => remove_model ty mid m p | None => ensure_text ty mid text p end.

Lemma set_protocol_id (e : SEvent) : set_event_protocol (pl_Protocol (ev_Body e)) e = e.
Proof. destruct e as [? ? ? ? ? ? ? ? ? ? ? ? ? b]. by destruct b. Qed.

Lemma typed (e : SEvent) : ev_Type e <> "" -> SessionEventTypeOf e = ev_Type e.
Proof. intros H. unfold SessionEventTypeOf. by destruct (String.eqb_spec (ev_Type e) ""). Qed.

Lemma remove_tool_step (e : SEvent) t : pl_Tool (ev_Body e) = Some t ->
  removeToolProjectionProtocol e = set_event_protocol (remove_tool (pl_Protocol (ev_Body e))) e.
Proof.
  intros Ht. unfold removeToolProjectionProtocol, remove_tool. rewrite Ht.
  destruct (pl_Protocol (ev_Body e)) eqn:Ep; [done|]. by rewrite <- (set_protocol_id e), Ep at 1.
Qed.

Lemma remove_model_step (e : SEvent) m : ev_Type e <> "" -> pl_Message (ev_Body e) = Some m ->
  removeModelProjectionContent e
  = set_event_protocol (remove_model (ev_Type e) (ev_MessageID e) (TextContent m) (pl_Protocol (ev_Body e))) e.
Proof.
  intros Ht Hm. unfold removeModelProjectionContent, remove_model. rewrite Hm, (typed _ Ht).
  destruct (pl_Protocol (ev_Body e)) as [p|] eqn:Ep; [|by rewrite <- (set_protocol_id e), Ep at 1]. cbn [mbind option_bind].
  by destruct (ep_Update (CloneEventProtocol p)).
Qed.

Lemma ensure_text_step (e : SEvent) : ev_Type e <> "" -> pl_Message (ev_Body e) = None ->
  ensureProtocolText e
  = set_event_protocol (ensure_text (ev_Type e) (ev_MessageID e) (ev_Text e) (pl_Protocol (ev_Body e))) e.
Proof.
  intros Ht Hm. unfold ensureProtocolText, ensure_text, text_base, runtimeText, text_update_type, default_update. rewrite Hm, (typed _ Ht).
  destruct (ev_Text e =? ""); [by rewrite set_protocol_id|].
  destruct (ev_Type e =? EventTypeUser); [by destruct (pl_Protocol (ev_Body e))|].
  destruct (ev_Type e =? EventTypeAssistant); last first.
  { destruct (ev_Type e =? EventTypeToolCall); [by destruct (pl_Protocol (ev_Body e))|].
    destruct (ev_Type e =? EventTypeCompact); [by destruct (pl_Protocol (ev_Body e))|by rewrite set_protocol_id]. }
  unfold ProtocolSessionUpdateType, ProtocolUpdateOf.
  destruct (pl_Protocol (ev_Body e)) as [p|]; [|done]. simpl. destruct (ep_Update p) as [u|]; [|done]. simpl.
  rewrite trim_space_idem. unfold text_update. simpl. by destruct (trim_space (pu_SessionUpdate u) =? "") eqn:E; rewrite ?E.
Qed.

(** The copy with its type and message identifier. *)
Definition typed_copy (e : SEvent) : SEvent :=
  let out := SessionCloneEvent e in if ev_Type out =? "" then set_Type (SessionEventTypeOf out) out else out.
Definition identified (e : SEvent) : SEvent := set_MessageID (EventMessageID (typed_copy e)) (typed_copy e).

Definition is_some {A} (o : option A) : bool := match o with Some _ => true | None => false end.

(** Canonicalisation as one replacement of the protocol. *)
Definition canonical (e : SEvent) : SEvent :=
  set_event_protocol (canonical_protocol (ev_Type e) (ev_MessageID e) (is_some (pl_Tool (ev_Body e)))
    (TextContent <$> pl_Message (ev_Body e)) (ev_Text e) (pl_Protocol (ev_Body e))) e.

Lemma update_type_some t x : update_type t = Some x -> x <> "".
Proof. unfold update_type. repeat case_match; naive_solver. Qed.

Lemma method_type_some m x : method_type m = Some x -> x <> "".
Proof. unfold method_type. repeat case_match; naive_solver. Qed.

Lemma protocol_type_some p x : protocol_type p = Some x -> x <> "".
Proof.
  unfold protocol_type. cbv zeta. destruct (ep_Update (CloneEventProtocol p) ≫= _) as [t|] eqn:Eu.
  - intros [= <-]. destruct (ep_Update (CloneEventProtocol p)); [|done]. by eapply update_type_some.
  - destruct (method_type _) as [t|] eqn:Em; [intros [= <-]; by eapply method_type_some|].
    destruct (ep_Permission _); naive_solver.
Qed.

Lemma type_never_blank (e : SEvent) : SessionEventTypeOf e <> "".
Proof.
  unfold SessionEventTypeOf. destruct (String.eqb_spec (ev_Type e) ""); [|done]. simpl.
  destruct (pl_Plan (ev_Body e)); [done|]. destruct (IsNotice e); [done|]. destruct (ev_Lifecycle e); [done|].
  destruct (pl_Protocol (ev_Body e) ≫= protocol_type) as [t|] eqn:Et.
  - destruct (pl_Protocol (ev_Body e)); [|done]. by eapply protocol_type_some.
  - destruct (pl_Tool (ev_Body e)) as [t|]; [by destruct (tool_terminal _)|].
    destruct (pl_Message (ev_Body e)) as [m|]; [|done]. unfold message_type. repeat case_match; done.
Qed.

Lemma identified_type (e : SEvent) : ev_Type (identified e) <> "".
Proof. unfold identified, typed_copy. simpl. destruct (String.eqb_spec (ev_Type e) ""); [apply type_never_blank|done]. Qed.

Lemma canonicalize_canonical (e : SEvent) : SessionCanonicalizeEvent e = canonical (identified e).
Proof.
  unfold SessionCanonicalizeEvent. fold (typed_copy e). fold (identified e). cbv zeta. pose proof (identified_type e) as Ht.
  generalize dependent (identified e). clear e. intros e Ht. unfold canonical, canonical_protocol.
  destruct (pl_Tool (ev_Body e)) as [t|] eqn:E; cbn [is_some]; [rewrite (remove_tool_step e t E)|];
    (destruct (pl_Message (ev_Body e)) as [m|] eqn:Em; cbn [fmap option_fmap option_map];
     [rewrite (remove_model_step _ m)|rewrite ensure_text_step]; try done; simpl; rewrite ?Em; done).
Qed.

(** ** Canonical forms are stable *)

Abbreviation N := CloneEventProtocol.

Definition droppable (p : EventProtocol) : bool :=
  (ep_Method p =? ProtocolMethodSessionUpdate) && bool_decide (ep_Permission p = None).

(** A session update names its type. *)
Definition named (p : option EventProtocol) : Prop :=
  match p ≫= ep_Update with Some u => trim_space (pu_SessionUpdate u) <> "" | None => True end.

(** The message identifier the update of a protocol carries. *)
Definition carried (p : option EventProtocol) : string :=
  match p ≫= ep_Update with Some u => if protocolUpdateCarriesMessageIdentity u then pu_MessageID u else "" | None => "" end.

(** What copying fixes, in terms of the parts. *)
Lemma normal_parts p : N p = p ->
  trim_space (ep_Method p) = ep_Method p /\ cloneProtocolUpdate <$> ep_Update p = ep_Update p
  /\ cloneProtocolApproval <$> ep_Permission p = ep_Permission p /\ trim_space <$> ep_AgentCommunication p = ep_AgentCommunication p
  /\ (ep_Method p = "" -> ep_Update p = None /\ ep_Permission p = None /\ ep_AgentCommunication p = None).
Proof.
  destruct p as [method u perm agent]. unfold CloneEventProtocol. simpl. intros [= Hm Hu Hp Ha]. split_and!; try done.
  - destruct (String.eqb_spec (trim_space method) ""); simpl in Hm; [|done]. destruct agent, perm, u; subst; try done.
  - intros ->. destruct agent, perm, u; done.
Qed.

Lemma normal_with p u : N p = p -> cloneProtocolUpdate <$> u = u -> ep_Method p <> "" \/ u = None ->
  N (protocol_with u p) = protocol_with u p.
Proof.
  intros (Hm&_&Hp&Ha&Hb)%normal_parts Hu Hor. unfold CloneEventProtocol, protocol_with. simpl. rewrite Hm, Hu, Hp, Ha.
  destruct (String.eqb_spec (ep_Method p) "") as [E|E]; simpl; [|done]. destruct (Hb E) as (_&->&->).
  by destruct Hor as [?| ->].
Qed.

Lemma normal_update p u : N p = p -> ep_Update p = Some u -> cloneProtocolUpdate u = u /\ ep_Method p <> "".
Proof.
  intros (_&Hu&_&_&Hb)%normal_parts Eu. rewrite Eu in *. injection Hu as Hu. split; [done|]. intros E. by destruct (Hb E).
Qed.

Lemma drop_normal p : N p = p -> N <$> drop_empty_update p = drop_empty_update p.
Proof. intros H. unfold drop_empty_update. destruct (_ && _); [done|]. simpl. by rewrite H. Qed.

Lemma drop_some u p : drop_empty_update (protocol_with (Some u) p) = Some (protocol_with (Some u) p).
Proof. unfold drop_empty_update. simpl. destruct (_ =? _); [|done]. simpl. repeat case_bool_decide; done. Qed.

Lemma drop_none p : drop_empty_update (protocol_with None p) = if droppable p then None else Some (protocol_with None p).
Proof.
  unfold drop_empty_update, droppable. simpl. destruct (_ =? _); [|done]. simpl.
  repeat case_bool_decide; done.
Qed.

Definition tool_update (u : ProtocolUpdate) : bool :=
  let t := trim_space (pu_SessionUpdate u) in (t =? ProtocolUpdateTypeToolCall) || (t =? ProtocolUpdateTypeToolUpdate).

(** A protocol that the removal of tool projections leaves alone. *)
Definition tool_free (p : option EventProtocol) : Prop :=
  match p with
  | Some p => match ep_Update p with Some u => tool_update u = false | None => droppable p = false end
  | None => True
  end.

Lemma remove_tool_free p : N p = p -> tool_free (Some p) -> remove_tool (Some p) = Some p.
Proof.
  intros HN Hf. unfold remove_tool. cbn [mbind option_bind]. rewrite HN. simpl in Hf.
  destruct (ep_Update p) as [u|] eqn:Eu; [fold (tool_update u)|]; rewrite ?drop_none, Hf, ?drop_some;
    f_equal; destruct p; unfold protocol_with; simpl in *; by rewrite Eu.
Qed.

Lemma remove_tool_normal p : N <$> p = p -> named p ->
  N <$> remove_tool p = remove_tool p /\ tool_free (remove_tool p) /\ named (remove_tool p)
  /\ (carried p = "" -> carried (remove_tool p) = "").
Proof.
  destruct p as [p|]; [|done]. intros [= HN] Hn. unfold remove_tool. cbn [mbind option_bind]. rewrite HN.
  destruct (normal_parts _ HN) as (_&Hu&_). unfold named, carried in *. simpl in *.
  set (u' := match ep_Update p with Some u => _ | None => None end).
  assert (Hu' : u' = ep_Update p /\ (forall u, u' = Some u -> tool_update u = false) \/ u' = None).
  { unfold u'. destruct (ep_Update p) as [u|]; [|by right]. fold (tool_update u). destruct (tool_update u) eqn:E; [by right|].
    left. split; [done|]. by intros ? [= <-]. }
  assert (HN' : N (protocol_with u' p) = protocol_with u' p).
  { apply normal_with; [done|destruct Hu' as [[-> _]| ->]; done|]. destruct (ep_Update p) as [u|] eqn:E; [|by right].
    left. by eapply normal_update. }
  split; [by apply drop_normal|]. destruct u' as [u|] eqn:E.
  - rewrite drop_some. simpl. destruct Hu' as [[H1 H]|?]; [|done].
    rewrite <- H1 in Hn |- *. by split_and!; [apply H|..].
  - rewrite drop_none. unfold tool_free. destruct (droppable p) eqn:Ed; simpl; auto.
Qed.

(** ** Removing model projections *)

Lemma model_update_normal mid text u : cloneProtocolUpdate u = u -> cloneProtocolUpdate (model_update mid text u) = model_update mid text u.
Proof.
  unfold cloneProtocolUpdate, model_update, update_with. simpl. destruct u. simpl. intros [=]. f_equal; try done.
  by destruct (protocolContentIsText _ _).
Qed.

Lemma model_update_idem mid text u : model_update mid text (model_update mid text u) = model_update mid text u.
Proof.
  unfold model_update, update_with, protocolUpdateCarriesMessageIdentity. simpl. f_equal.
  - destruct (protocolContentIsText (pu_Content u) text) eqn:E; [|by rewrite E].
    unfold protocolContentIsText. simpl. by rewrite orb_true_r.
  - set (b := _ || _). destruct b; [|done]. destruct (String.eqb_spec mid ""); [done|]. simpl.
    destruct (String.eqb_spec (pu_MessageID u) mid); [|by destruct (String.eqb_spec (pu_MessageID u) mid)].
    by destruct (String.eqb_spec "" mid).
Qed.

Lemma remove_model_normal ty mid text p : N <$> p = p ->
  let r := remove_model ty mid text p in
  N <$> r = r /\ remove_model ty mid text r = r /\ (tool_free p -> tool_free r) /\ (carried p = "" -> carried r = "").
Proof.
  destruct p as [p|]; [|done]. intros [= HN]. unfold remove_model at 1. cbn [mbind option_bind]. rewrite HN.
  destruct (ep_Update p) as [u|] eqn:Eu.
  2: { cbv zeta. split_and!; [simpl; by rewrite HN| |done|done]. unfold remove_model. cbn [mbind option_bind]. by rewrite HN, Eu. }
  destruct (normal_update _ _ HN Eu) as [Hu Hm]. pose proof (model_update_normal mid text u Hu) as Hu1.
  set (u1 := model_update mid text u) in *. set (only := _ && _ && _). cbv zeta.
  assert (HNn : N (protocol_with None p) = protocol_with None p) by (apply normal_with; auto).
  assert (HNu : N (protocol_with (Some u1) p) = protocol_with (Some u1) p) by (apply normal_with; [done|simpl; by rewrite Hu1|by left]).
  destruct only eqn:Eo.
  - rewrite drop_none. destruct (droppable p) eqn:Ed; [done|].
    split_and!; [simpl; by rewrite HNn| |done|done]. unfold remove_model. cbn [mbind option_bind]. by rewrite HNn.
  - rewrite drop_some. split_and!.
    + simpl. by rewrite HNu.
    + unfold remove_model. cbn [mbind option_bind]. rewrite HNu. cbn [ep_Update protocol_with ep_Permission].
      unfold u1. rewrite model_update_idem. fold u1. fold only. by rewrite Eo, <- drop_some.
    + unfold tool_free. simpl. by rewrite Eu.
    + unfold carried. simpl. rewrite Eu. simpl. unfold u1, model_update, update_with, protocolUpdateCarriesMessageIdentity. simpl.
      set (b := _ || _). destruct b; [|done]. intros ->. by case_match.
Qed.

(** ** Adding the text of an event without a message *)

Lemma text_update_normal mid text ut u : cloneProtocolUpdate u = u -> trim_space ut = ut ->
  cloneProtocolUpdate (text_update mid text ut u) = text_update mid text ut u.
Proof.
  unfold cloneProtocolUpdate, text_update, update_with. simpl. destruct u as [t c]. simpl. intros [=] Hut. f_equal; try done.
  - by destruct (t =? "").
  - destruct (is_nil c); [|done]. unfold ProtocolTextContent. by destruct (text =? "").
Qed.

Lemma text_update_idem mid text ut u : text <> "" -> ut <> "" ->
  text_update mid text ut (text_update mid text ut u) = text_update mid text ut u.
Proof.
  intros Ht Hut. unfold text_update, update_with, protocolUpdateCarriesMessageIdentity. simpl.
  destruct (pu_SessionUpdate u =? "") eqn:E; rewrite ?(proj2 (String.eqb_neq ut "") Hut), ?E.
  all: f_equal; [destruct (is_nil (pu_Content u)) eqn:Ec; rewrite ?Ec; [|done]; unfold ProtocolTextContent;
                 by rewrite (proj2 (String.eqb_neq text "") Ht)|].
  all: set (b := _ || _); destruct b; rewrite ?andb_true_r, ?andb_false_r; [|done].
  all: destruct (String.eqb_spec (pu_MessageID u) ""); [by destruct (mid =? "")|].
  all: by destruct (String.eqb_spec (pu_MessageID u) "").
Qed.

Lemma default_update_some ty ut : default_update ty = Some ut ->
  ut <> "" /\ trim_space ut = ut /\ (ty = EventTypeCompact -> ut = "compact").
Proof. unfold default_update. repeat case_match; intros [= <-]; split_and!; try done; by intros ->. Qed.

(** The protocol after the text was added, copied. *)
Lemma ensured_protocol p u : N p = p -> cloneProtocolUpdate u = u ->
  N (protocol_with (Some u) p)
  = MkProtocol (if ep_Method p =? "" then ProtocolMethodSessionUpdate else ep_Method p) (Some u) (ep_Permission p) (ep_AgentCommunication p).
Proof.
  intros (Hm&_&Hp&Ha&Hb)%normal_parts Hu. unfold CloneEventProtocol, protocol_with. simpl. rewrite Hm, Hu, Hp, Ha.
  destruct (String.eqb_spec (ep_Method p) "") as [E|E]; simpl; [|done]. by destruct (Hb E) as (_&->&->).
Qed.

Lemma text_base_normal ty p : N <$> p = p -> N (text_base ty p) = text_base ty p.
Proof. destruct p as [p|]; simpl; [by intros [= ?]|]. by destruct (ty =? EventTypeCompact). Qed.

(** The copied result, when the event has text and its type shows text. *)
Definition ensured (ty mid text ut : string) (p : option EventProtocol) : EventProtocol :=
  let base := text_base ty p in
  MkProtocol (if ep_Method base =? "" then ProtocolMethodSessionUpdate else ep_Method base)
    (Some (text_update mid text ut (default zero_update (ep_Update base)))) (ep_Permission base) (ep_AgentCommunication base).

Lemma base_update_normal ty mid text ut p : N <$> p = p -> trim_space ut = ut ->
  let u := text_update mid text ut (default zero_update (ep_Update (text_base ty p))) in cloneProtocolUpdate u = u.
Proof.
  intros Hp Hut. apply text_update_normal; [|done]. destruct (ep_Update (text_base ty p)) as [u|] eqn:E; [|done].
  eapply normal_update; [by apply text_base_normal|done].
Qed.

Lemma ensure_ensured ty mid text ut p : N <$> p = p -> text <> "" -> default_update ty = Some ut ->
  N <$> ensure_text ty mid text p = Some (ensured ty mid text ut p).
Proof.
  intros Hp Ht Hd. unfold ensure_text. rewrite (proj2 (String.eqb_neq text "") Ht), Hd. cbv zeta.
  rewrite (text_base_normal ty p Hp). cbn [fmap option_fmap option_map]. f_equal. unfold ensured. cbv zeta.
  rewrite ensured_protocol; [done|by apply text_base_normal|]. eapply (base_update_normal ty mid text ut p); [done|].
  by eapply default_update_some.
Qed.

Lemma ensured_normal ty mid text ut p : N <$> p = p -> text <> "" -> default_update ty = Some ut ->
  N (ensured ty mid text ut p) = ensured ty mid text ut p.
Proof.
  intros Hp Ht Hd. pose proof (ensure_ensured ty mid text ut p Hp Ht Hd) as H.
  destruct (ensure_text ty mid text p); [|done]. cbn [fmap option_fmap option_map] in H.
  apply (inj Some) in H. rewrite <- H. apply CloneEventProtocol_idem.
Qed.

Lemma ensure_again ty mid text ut p : N <$> p = p -> text <> "" -> default_update ty = Some ut ->
  N <$> ensure_text ty mid text (Some (ensured ty mid text ut p)) = Some (ensured ty mid text ut p).
Proof.
  intros Hp Ht Hd. pose proof (ensured_normal ty mid text ut p Hp Ht Hd) as HN.
  rewrite (ensure_ensured _ _ _ ut) by (done || (simpl; by rewrite HN)). f_equal.
  set (b := text_base ty p). set (u := default zero_update (ep_Update b)).
  change (MkProtocol (if (if ep_Method b =? "" then ProtocolMethodSessionUpdate else ep_Method b) =? "" then ProtocolMethodSessionUpdate
                      else if ep_Method b =? "" then ProtocolMethodSessionUpdate else ep_Method b)
            (Some (text_update mid text ut (text_update mid text ut u))) (ep_Permission b) (ep_AgentCommunication b)
          = MkProtocol (if ep_Method b =? "" then ProtocolMethodSessionUpdate else ep_Method b) (Some (text_update mid text ut u))
              (ep_Permission b) (ep_AgentCommunication b)).
  rewrite text_update_idem by (done || by eapply default_update_some). f_equal. destruct (ep_Method b =? "") eqn:E; [done|]. by rewrite E.
Qed.

(** Only the update of a tool call is removed again, and it comes back. *)
Lemma ensure_after_removal ty mid text ut p : N <$> p = p -> named p -> tool_free p -> text <> "" -> default_update ty = Some ut ->
  N <$> ensure_text ty mid text (remove_tool (Some (ensured ty mid text ut p))) = Some (ensured ty mid text ut p).
Proof.
  intros Hp Hn Hf Ht Hd. pose proof (ensured_normal ty mid text ut p Hp Ht Hd) as HN.
  destruct (default_update_some _ _ Hd) as (Hut&Htr&Hc). set (g := ensured ty mid text ut p) in *.
  set (tu := text_update mid text ut (default zero_update (ep_Update (text_base ty p)))).
  destruct (tool_update tu) eqn:Etu; [|rewrite remove_tool_free by done; by apply ensure_again].
  assert (Hnone : ep_Update (text_base ty p) = None).
  { destruct (ep_Update (text_base ty p)) as [u|] eqn:Eu; [|done]. destruct p as [p|]; [|done]. simpl in *.
    unfold named in Hn. simpl in Hn. rewrite Eu in *. simpl in *. unfold tu, tool_update, text_update, update_with in Etu. simpl in Etu.
    destruct (String.eqb_spec (pu_SessionUpdate u) "") as [E|E]; [by rewrite E in Hn|]. unfold tool_update in Hf. congruence. }
  assert (Hty : (ty =? EventTypeCompact) = false).
  { destruct (String.eqb_spec ty EventTypeCompact) as [E|E]; [|done]. unfold tu in Etu. rewrite Hnone, (Hc E) in Etu. done. }
  assert (Hr : remove_tool (Some g) = if droppable g then None else Some (protocol_with None g)).
  { unfold remove_tool. cbn [mbind option_bind]. rewrite HN, <- drop_none. unfold g, ensured. cbv zeta. fold tu.
    cbn [ep_Update]. fold (tool_update tu). by rewrite Etu. }
  rewrite Hr. pose proof (ensure_ensured ty mid text ut p Hp Ht Hd) as He. fold g in He. rewrite <- He.
  destruct (String.eqb_spec (ep_Method (text_base ty p)) "") as [Em|Em].
  - destruct (normal_parts _ (text_base_normal ty p Hp)) as (_&_&_&_&Hb). destruct (Hb Em) as (_&Eperm&Ea).
    assert (Hg : droppable g = true) by (unfold droppable, g, ensured; simpl; by rewrite Em, Eperm). rewrite Hg.
    replace (ensure_text ty mid text p) with (ensure_text ty mid text None); [done|]. unfold ensure_text.
    rewrite (proj2 (String.eqb_neq text "") Ht), Hd.
    replace (text_base ty p) with (text_base ty None); [done|]. unfold text_base at 1. simpl. rewrite Hty.
    destruct (text_base ty p). simpl in *. by subst.
  - destruct p as [p|]; [|unfold text_base in Em; simpl in Em; by rewrite Hty in Em]. simpl in *. rewrite Hnone in Hf.
    assert (Hg : droppable g = false) by (unfold droppable, g, ensured in *; simpl; by rewrite (proj2 (String.eqb_neq _ _) Em)).
    rewrite Hg. do 2 f_equal. unfold g, ensured, protocol_with. simpl. rewrite (proj2 (String.eqb_neq _ _) Em).
    destruct p. simpl in *. by subst.
Qed.

Lemma ensure_carried ty mid text ut p : named p -> mid = "" -> carried p = "" -> carried (Some (ensured ty mid text ut p)) = "".
Proof.
  intros Hn -> Hc. unfold carried, named in *. simpl. destruct p as [p|]; simpl in *.
  - destruct (ep_Update p) as [u|]; simpl in *; unfold text_update, update_with, protocolUpdateCarriesMessageIdentity in *; simpl;
      [|by repeat case_match]. destruct (String.eqb_spec (pu_SessionUpdate u) "") as [E|E]; [by rewrite E in Hn|].
    revert Hc. set (b := _ || _). destruct b; [|done]. intros ->. done.
  - unfold text_update, update_with. simpl. repeat case_match; done.
Qed.

(** ** The protocol of a canonical event *)
Lemma canonical_protocol_stable ty mid tool message text p : N <$> p = p -> named p ->
  let g := N <$> canonical_protocol ty mid tool message text p in
  N <$> canonical_protocol ty mid tool message text g = g /\ (mid = "" -> carried p = "" -> carried g = "").
Proof.
  intros HN Hn. unfold canonical_protocol.
  set (q := if tool then remove_tool p else p).
  assert (Hq : N <$> q = q /\ (tool = true -> tool_free q) /\ named q /\ (carried p = "" -> carried q = "")).
  { unfold q. destruct tool; [|done]. destruct (remove_tool_normal p HN Hn) as (?&?&?&?). auto. }
  clearbody q. destruct Hq as (HNq&Hf&Hnq&Hcq). clear HN Hn.
  destruct message as [m|].
  - destruct (remove_model_normal ty mid m q HNq) as (Hr&Hi&Hft&Hc). set (r := remove_model ty mid m q) in *. rewrite Hr.
    split; [|auto]. assert (Ht : (if tool then remove_tool r else r) = r).
    { destruct tool; [|done]. destruct r as [r|]; [|done]. injection Hr as Hr. apply remove_tool_free; auto. }
    rewrite Ht, Hi. done.
  - cbv zeta. destruct (decide (text = "" \/ default_update ty = None)) as [Hid|Hid].
    + assert (He : forall o, ensure_text ty mid text o = o).
      { intros o. unfold ensure_text. destruct Hid as [->| ->]; [done|by case_match]. }
      rewrite (He q), HNq, He. split; [|auto]. destruct tool; [|done]. destruct q as [q|]; [|done].
      rewrite remove_tool_free by (auto; by injection HNq). done.
    + apply Decidable.not_or in Hid as [Et Ed]. destruct (default_update ty) as [ut|] eqn:E; [|done].
      rewrite (ensure_ensured ty mid text ut q HNq Et E). split; [|auto using ensure_carried].
      destruct tool; [apply ensure_after_removal; auto|by apply ensure_again].
Qed.

(** The form in which an event is stored. *)
Definition stored_form (e : SEvent) : SEvent := SessionCloneEvent (SessionCanonicalizeEvent e).

Lemma clone_set_type t (e : SEvent) : SessionCloneEvent (set_Type t e) = set_Type t (SessionCloneEvent e).
Proof. done. Qed.

Lemma clone_set_message_id m (e : SEvent) : SessionCloneEvent (set_MessageID m e) = set_MessageID m (SessionCloneEvent e).
Proof. done. Qed.

Lemma typed_copy_normal {PL : PlatformLaws P} (e : SEvent) : SessionCloneEvent (typed_copy e) = typed_copy e.
Proof.
  pose proof (clone_clone (CodecLaws := session_laws) e) as H. change (SessionCloneEvent (SessionCloneEvent e) = SessionCloneEvent e) in H.
  unfold typed_copy. cbv zeta. destruct (_ =? ""); rewrite ?clone_set_type, H; done.
Qed.

Lemma identified_normal {PL : PlatformLaws P} (e : SEvent) : SessionCloneEvent (identified e) = identified e.
Proof. unfold identified. by rewrite clone_set_message_id, typed_copy_normal. Qed.

Lemma clone_set_protocol (e : SEvent) q : SessionCloneEvent e = e ->
  SessionCloneEvent (set_event_protocol q e) = set_event_protocol (N <$> q) e.
Proof.
  destruct e as [? ? ? ? ? ? ? ? ? ? ? ? ? b]. unfold SessionCloneEvent, set_event_protocol, set_Body. simpl. intros [=].
  f_equal; try done. destruct b. unfold clone_body, set_Protocol in *. simpl in *. congruence.
Qed.

Lemma EventMessageID_carried (e : SEvent) : SessionCloneEvent e = e ->
  EventMessageID e = if negb (ev_MessageID e =? "") then ev_MessageID e else carried (pl_Protocol (ev_Body e)).
Proof.
  intros He. unfold EventMessageID, carried, ProtocolUpdateOf. destruct (negb _); [done|].
  assert (H : N <$> pl_Protocol (ev_Body e) = pl_Protocol (ev_Body e)) by (rewrite <- He at 2; done).
  destruct (pl_Protocol (ev_Body e)) as [p|]; [|done]. cbn [mbind option_bind fmap option_fmap option_map] in *.
  apply (inj Some) in H. by rewrite H.
Qed.

Lemma identified_carried {PL : PlatformLaws P} (e : SEvent) :
  ev_MessageID (identified e) = "" -> carried (pl_Protocol (ev_Body (identified e))) = "".
Proof.
  change (EventMessageID (typed_copy e) = "" -> carried (pl_Protocol (ev_Body (typed_copy e))) = "").
  rewrite EventMessageID_carried by apply typed_copy_normal. by destruct (String.eqb_spec (ev_MessageID (typed_copy e)) "").
Qed.

Lemma identified_fixed (e : SEvent) : SessionCloneEvent e = e -> ev_Type e <> "" -> EventMessageID e = ev_MessageID e -> identified e = e.
Proof.
  intros Hc Ht Hm. unfold identified, typed_copy. cbv zeta. rewrite Hc, (proj2 (String.eqb_neq _ _) Ht), Hm. by destruct e.
Qed.

(** Canonical forms are stable.  Storing what canonicalisation produced and canonicalising it again changes
    nothing, so readers, which canonicalise what they load, see the events that were stored and a retry of
    a stored event compares equal to it; provided that a session update in the protocol names its type. *)
Theorem canonical_form_stable {PL : PlatformLaws P} (e : SEvent) :
  named (pl_Protocol (ev_Body e)) -> stored_form (stored_form e) = stored_form e.
Proof.
  intros Hn. unfold stored_form at 2 3. rewrite canonicalize_canonical. set (i := identified e).
  pose proof (identified_normal e) as Hi. fold i in Hi. pose proof (identified_type e) as Ht. fold i in Ht.
  assert (Hp : N <$> pl_Protocol (ev_Body i) = pl_Protocol (ev_Body i)) by (rewrite <- Hi at 2; done).
  assert (Hni : named (pl_Protocol (ev_Body i))).
  { replace (pl_Protocol (ev_Body i)) with (N <$> pl_Protocol (ev_Body e))
      by (unfold i, identified, typed_copy; simpl; by destruct (ev_Type e =? "")).
    unfold named in *. destruct (pl_Protocol (ev_Body e)) as [p|]; [|done]. simpl in *. destruct (ep_Update p); [|done].
    simpl. by rewrite trim_space_idem. }
  unfold canonical. rewrite (clone_set_protocol i _ Hi).
  destruct (canonical_protocol_stable (ev_Type i) (ev_MessageID i) (is_some (pl_Tool (ev_Body i)))
    (TextContent <$> pl_Message (ev_Body i)) (ev_Text i) _ Hp Hni) as [Hs Hc].
  match goal with |- stored_form (set_event_protocol ?q i) = _ => set (g := q) in * end. set (f := set_event_protocol g i).
  assert (Hf : SessionCloneEvent f = f).
  { unfold f. rewrite (clone_set_protocol i _ Hi). f_equal. unfold g. destruct (canonical_protocol _ _ _ _ _ _); [|done].
    simpl. f_equal. apply CloneEventProtocol_idem. }
  unfold stored_form. rewrite canonicalize_canonical, (identified_fixed f).
  - unfold canonical. rewrite (clone_set_protocol f _ Hf). 
    change (set_event_protocol (N <$> canonical_protocol (ev_Type i) (ev_MessageID i) (is_some (pl_Tool (ev_Body i)))
      (TextContent <$> pl_Message (ev_Body i)) (ev_Text i) g) i = f). by rewrite Hs.
  - done.
  - done.
  - rewrite EventMessageID_carried by done. change (ev_MessageID f) with (ev_MessageID i).
    destruct (ev_MessageID i =? "") eqn:Em; [|done]. apply String.eqb_eq in Em. rewrite Em.
    change (carried g = ""). apply Hc; [done|]. by apply identified_carried.
Qed.

(** ** What copying loses *)

(** The completion flag of a tool event never reaches the log.  Every event is copied on its way to the store, and
    the copy of a tool drops [TurnComplete]: after canonicalisation the flag is false whatever the event said. *)
Theorem turn_complete_lost (e : SEvent) :
  et_TurnComplete <$> pl_Tool (ev_Body (SessionCanonicalizeEvent e)) = (fun _ => false) <$> pl_Tool (ev_Body e).
Proof.
  assert (H : pl_Tool (ev_Body (SessionCanonicalizeEvent e)) = CloneEventTool <$> pl_Tool (ev_Body e)).
  { rewrite canonicalize_canonical. unfold canonical, identified, typed_copy. simpl. by destruct (ev_Type e =? ""). }
  rewrite H. by destruct (pl_Tool (ev_Body e)).
Qed.
End Canonical.
