(* ===== verification/SessionPlatform.v ===== *)
(** * A platform of the event payload

    [Platform] leaves Unicode case mapping, SHA-256 and JSON open.  This
    instance, lower-casing on ASCII and no JSON failures, satisfies
    [PlatformLaws], so the laws can hold, and the payload theorems are applied
    to concrete events with it. *)

From Stdlib Require Import ZArith Lia Ascii String.
From stdpp Require Import base option strings list gmap.
From S2P Require Import Prelude GoStrings Fence Execution Utf8Stream Runes ApprovalSubject Approval GoValues Payload Events SessionCodec CodecProps Canonical.

Local Open Scope string_scope.

#[global] Instance ascii_platform : Platform := {
  to_lower := lower_ascii;
  equal_fold a b := lower_ascii a =? lower_ascii b;
  sha256_hex := trim_space;
  json_strings := String.concat ",";
  json_decode raw := Some (go_string raw);
  json_equal a b := bool_decide (a = b);
  json_problem _ := None;
  journal_problem _ := None;
  marshal_problem _ := None;
  json_event e := Ok e;
  json_digest_input mutation events := Ok (String.concat "," (mutation :: map ev_Text events));
  receipt_media_ref _ := false;
  mcp_envelope _ := None;
  input_object _ := None;
  output_problem _ := None;
  has_usage _ := false;
}.

(** ** Lower-casing and white space *)

Lemma lower_ws1 a : ws1 (lower_byte a) = ws1 a.
Proof. by destruct a as [[] [] [] [] [] [] [] []]. Qed.

Lemma lower_ws2 a b : ws2 (lower_byte a) (lower_byte b) = ws2 a b.
Proof. destruct a as [[] [] [] [] [] [] [] []]; try reflexivity. by destruct b as [[] [] [] [] [] [] [] []]. Qed.

Lemma lower_ws3 a b c : ws3 (lower_byte a) (lower_byte b) (lower_byte c) = ws3 a b c.
Proof.
  destruct a as [[] [] [] [] [] [] [] []]; try reflexivity; destruct b as [[] [] [] [] [] [] [] []]; try reflexivity;
    by destruct c as [[] [] [] [] [] [] [] []].
Qed.

Lemma lower_byte_idem a : lower_byte (lower_byte a) = lower_byte a.
Proof. by destruct a as [[] [] [] [] [] [] [] []]. Qed.

(** Both directions of trimming take the same steps. *)
Definition trim_step (w2 : ascii -> ascii -> bool) (w3 : ascii -> ascii -> ascii -> bool) (trim : list ascii -> list ascii)
    (a : ascii) (r : list ascii) : list ascii :=
  if ws1 a then trim r else
  match r with
  | [] => a :: r
  | b :: r2 => if w2 a b then trim r2 else match r2 with [] => a :: r | c :: r3 => if w3 a b c then trim r3 else a :: r end
  end.

Lemma trim_lower w2 w3 trim s :
  (forall a b, w2 (lower_byte a) (lower_byte b) = w2 a b) ->
  (forall a b c, w3 (lower_byte a) (lower_byte b) (lower_byte c) = w3 a b c) ->
  trim [] = [] -> (forall a r, trim (a :: r) = trim_step w2 w3 trim a r) ->
  trim (map lower_byte s) = map lower_byte (trim s).
Proof.
  intros H2 H3 Hnil Hstep. induction s as [s IH] using (induction_ltof1 _ (@length ascii)). unfold ltof in IH.
  destruct s as [|a r]; [simpl; by rewrite Hnil|]. cbn [map]. rewrite !Hstep. unfold trim_step. rewrite lower_ws1.
  destruct (ws1 a); [apply IH; simpl; lia|]. destruct r as [|b r]; [done|]. cbn [map]. rewrite H2.
  destruct (w2 a b); [apply IH; simpl; lia|]. destruct r as [|c r]; [done|]. cbn [map]. rewrite H3.
  destruct (w3 a b c); [apply IH; simpl; lia|done].
Qed.

Lemma trim_space_lower s : trim_space (lower_ascii s) = lower_ascii (trim_space s).
Proof.
  unfold trim_space, lower_ascii, trim_bytes. rewrite !list_ascii_of_string_of_list_ascii.
  rewrite (trim_lower ws2 ws3 trim_left_bytes) by (try done; auto using lower_ws2, lower_ws3).
  rewrite <- map_rev. rewrite (trim_lower (fun c b => ws2 b c) (fun c b a => ws3 a b c) trim_rev_bytes)
    by (try done; auto using lower_ws2, lower_ws3). by rewrite map_rev.
Qed.

Lemma lower_idem s : lower_ascii (lower_ascii s) = lower_ascii s.
Proof.
  unfold lower_ascii. rewrite list_ascii_of_string_of_list_ascii. f_equal. rewrite map_map. apply map_ext, lower_byte_idem.
Qed.

#[global] Instance ascii_platform_laws : PlatformLaws ascii_platform.
Proof.
  split; intros s; simpl.
  - rewrite !trim_space_lower, trim_space_idem, lower_idem. done.
  - rewrite trim_space_lower. destruct (trim_space s); done.
  - apply trim_space_idem.
Qed.

(** ** Concrete events *)

Definition text_message (role text : string) : Message :=
  MkMessage role [MkPart (MkHead "text" (Some (MkTextPart text [])) None None None None None) None []] None.

Definition empty_payload : Payload :=
  MkPayload (MkActor "" "" "" "") None None None None None None None None None None None None None.

(** A tool call with text and a projection of the call in its protocol. *)
Definition tool_call_event : Event Payload :=
  MkEvent Payload " e1 " "" "s1" 0 0 "" VisibilityCanonical 0 "" "" None None "reading"
    (MkPayload (MkActor "agent" "a" "" "") None None None None None None
       (Some (MkTool None "call-1" true " read_file" "" "" "pending" None None [] [])) None None None None
       (Some (MkProtocol "" (Some (MkUpdate "tool_call" go_nil "" false false None "call-1" None " Read " "" "" None None [] [] None))
                None None)) None).

Lemma canonical_form_stable_witness :
  stored_form tool_call_event <> tool_call_event
  /\ (ep_Method <$> pl_Protocol (ev_Body (stored_form tool_call_event))) = Some ProtocolMethodSessionUpdate
  /\ stored_form (stored_form tool_call_event) = stored_form tool_call_event.
Proof.
  split_and!; [vm_compute; discriminate|vm_compute; reflexivity|].
  apply (canonical_form_stable tool_call_event). vm_compute. discriminate.
Defined.

(** A plugin context stored before schemas were versioned. *)
Definition legacy_event : Event Payload :=
  MkEvent Payload "e0" "" "s1" 1 0 EventTypeCustom VisibilityCanonical 0 "" "" None None ""
    (MkPayload (MkActor "" "" "" "") None None None None None (Some (text_message "user" "note")) None None None None
       (Some (MkEntry _ _ 0 JournalKindPauseToken None None None)) None (Some [("source", go_string "plugin_hook")])).

Lemma migration_reaches_current_witness :
  exists e, migrateEvent legacy_event = Ok e /\ eventSchemasCurrent e = true /\ ev_Type e = EventTypeContext.
Proof.
  eexists. split; [vm_compute; reflexivity|]. split; [|reflexivity].
  refine (proj1 (proj1 (migration_reaches_current legacy_event) _ _)). vm_compute. reflexivity.
Defined.
