(* ===== verification/SessionIdle.v ===== *)
(** * Idle compaction on the session payload

    The instance of the interface of [IdleCompaction] for the events of the
    program: which events are model context ([event_visibility.go]), the
    accounting receipts ([invocation.go], [compaction_receipt.go]), the shape of
    a checkpoint event and the fingerprints ([idle_compaction.go]).  The JSON
    encodings are the operations of [IdlePlatform]. *)

From Stdlib Require Import ZArith Lia Ascii String.
From stdpp Require Import base option strings list gmap.
From S2P Require Import Prelude GoStrings Fence Execution Utf8Stream Runes ApprovalSubject Decimal GoValues Payload Events Append IdleCompaction Checkpoint SessionCodec.

Local Open Scope string_scope.

#[local] Abbreviation SEvent := (Event Payload).

(** [json.Marshal] of what is fingerprinted. *)
Class IdlePlatform `{OpenValues} : Type := {
  source_json : Session -> gmap string Any -> list SEvent -> result SessionError string;
  checkpoint_json : SEvent -> result SessionError string;
  attempt_json : string -> Invocation -> string;
  invocation_json : Invocation -> string;
  result_json : CompactionAttemptResult -> string;
}.

Section SessionIdle.
Context `{P : Platform} `{OV : OpenValues} `{IP : !IdlePlatform} `{CC : CheckpointCodec}.

(** ** Model context *)

Definition IsSharedDialogueEvent (e : SEvent) : bool :=
  IsCanonicalHistoryEvent e && ((SessionEventTypeOf e =? EventTypeUser) || (SessionEventTypeOf e =? EventTypeAssistant)).

Definition ParticipantRoleDelegated : string := "delegated".

Definition SessionMainVisible (e : SEvent) : bool :=
  if negb (IsInvocationVisibleEvent e) then false else
  if SessionEventTypeOf e =? EventTypeContext then true else
  match pl_Scope (ev_Body e) with
  | None => true
  | Some scope =>
    if trim_space (pr_ID (sc_Participant scope)) =? "" then true else
    if pr_Role (sc_Participant scope) =? ParticipantRoleDelegated then false else IsSharedDialogueEvent e
  end.

(** ** Accounting receipts *)

Definition ActorKindSystem : string := "system".

Definition go_int (n : Z) : GoValue := Leaf KInt (FormatInt n).
Definition go_bool (b : bool) : GoValue := Leaf KBool (if b then "true" else "false").
(** A [time.Time]. *)
Definition go_time (t : Z) : GoValue := Leaf KOther (FormatInt t).

(** [out[key] = value] when [present]. *)
Definition set_if (present : bool) (key : string) (value : GoValue) (m : list (string * GoValue)) : list (string * GoValue) :=
  if present then map_set key value m else m.

Definition ModelUsageMetadata (provider : string) (u : Usage) : list (string * GoValue) :=
  let provider := if (us_CacheReadAccounting u =? "") && equal_fold provider "deepseek"
                     && ((0 <? us_CachedInputTokens u)
                         && (i64 (us_PromptTokens u + us_CachedInputTokens u + us_CompletionTokens u) <=? us_TotalTokens u))%Z
                  then "deepseek-anthropic" else provider in
  set_if (negb (Z.eqb (us_CostMicros u) 0)) "cost_micros" (go_int (us_CostMicros u))
  (set_if (us_CacheWrite1hTokensReported u) "cache_write_1h_tokens_reported" (go_bool true)
  (set_if (us_CacheWrite5mTokensReported u) "cache_write_5m_tokens_reported" (go_bool true)
  (set_if (us_CacheWriteTokensReported u) "cache_write_tokens_reported" (go_bool true)
  (map_set "cached_input_tokens_reported" (go_bool (us_CachedInputTokensReported u || (0 <? us_CachedInputTokens u)%Z))
  (set_if (negb (Z.eqb (us_CacheWrite1hTokens u) 0) || us_CacheWrite1hTokensReported u) "cache_write_1h_tokens" (go_int (us_CacheWrite1hTokens u))
  (set_if (negb (Z.eqb (us_CacheWrite5mTokens u) 0) || us_CacheWrite5mTokensReported u) "cache_write_5m_tokens" (go_int (us_CacheWrite5mTokens u))
  (set_if (negb (Z.eqb (us_CacheWriteTokens u) 0) || us_CacheWriteTokensReported u) "cache_write_tokens" (go_int (us_CacheWriteTokens u))
  (set_if (negb (us_CacheReadAccounting u =? "")) "cache_read_accounting" (go_string (us_CacheReadAccounting u))
  (map_set "total_tokens" (go_int (us_TotalTokens u)) (map_set "reasoning_tokens" (go_int (us_ReasoningTokens u))
  (map_set "completion_tokens" (go_int (us_CompletionTokens u)) (map_set "cached_input_tokens" (go_int (us_CachedInputTokens u))
  (map_set "prompt_tokens" (go_int (us_PromptTokens u)) [("provider", go_string provider)]))))))))))))).

(** The [sdk] map of a receipt. *)
Definition receiptSDK (i : Invocation) (kind : string) : list (string * GoValue) :=
  let sdk := map_set "usage_status" (go_string "unknown") (map_set "outcome" (go_string (iv_Outcome i)) [("invocation_kind", go_string kind)]) in
  let sdk := set_if (negb (Z.eqb (iv_StartedAt i) zero_time)) "started_at" (go_time (iv_StartedAt i)) sdk in
  let sdk := set_if (negb (Z.eqb (iv_FinishedAt i) zero_time)) "finished_at" (go_time (iv_FinishedAt i)) sdk in
  if IsReported (iv_Usage i)
  then map_set "usage" (go_object (ModelUsageMetadata (iv_Provider i) (iv_Usage i))) (map_set "usage_status" (go_string "reported") sdk)
  else sdk.

Definition receiptEvent (i : Invocation) (sdk : list (string * GoValue)) (sessionID : string) (time : Z) : SEvent :=
  MkEvent Payload (iv_ID i) ("model-invocation:" ++ iv_ID i) sessionID 0 0 EventTypeLifecycle VisibilityJournal time "" "" None
    (Some (MkLifecycle "model_invocation" "")) ""
    (MkPayload (MkActor ActorKindSystem "" "" "model-runtime") None None (Some (MkInvocation (iv_Provider i) (iv_Model i) 0 "" 0))
       None None None None None None None None None
       (Some [("caelis", go_object [("sdk", go_object sdk); ("version", go_int 1)])])).

Definition NewModelInvocationReceipt (i : Invocation) (kind : string) : SEvent := receiptEvent i (receiptSDK i kind) "" zero_time.

Definition SessionAttemptReceipt (i : Invocation) (r : CompactionAttemptRecord) (ref : SessionRef) : SEvent :=
  receiptEvent i (map_set "source_turn_id" (go_string (ca_TurnID r)) (map_set "job_id" (go_string (ca_JobID r)) (receiptSDK i "compaction")))
    (SessionID ref) (iv_FinishedAt i).

Definition SessionIsReceipt (e : SEvent) : bool :=
  IsJournal e && (SessionEventTypeOf e =? EventTypeLifecycle)
  && match ev_Lifecycle e with Some l => l_Status l =? "model_invocation" | None => false end
  && (ac_Kind (pl_Actor (ev_Body e)) =? ActorKindSystem) && (ac_Name (pl_Actor (ev_Body e)) =? "model-runtime")
  && bool_decide (is_Some (pl_Invocation (ev_Body e))) && negb (ev_ID e =? "") && (ev_IdempotencyKey e =? "model-invocation:" ++ ev_ID e).

(** ** Checkpoints *)

Definition SessionCheckpointData (e : SEvent) : option CheckpointData := checkpointDataFromMeta (pl_Meta (ev_Body e)).

(** The protocol projection a checkpoint may carry. *)
Definition checkpointProtocol (m : Message) : EventProtocol :=
  MkProtocol ProtocolMethodContextCheckpoint
    (Some (MkUpdate "compact" (ProtocolTextContent (TextContent m)) "" false false None "" None "" "" "" None None [] [] None)) None None.

Definition fixedCheckpoint (e : SEvent) (m : Message) : bool :=
  let b := ev_Body e in
  negb (ev_ID e =? "") && (ev_IdempotencyKey e =? ev_ID e) && (ev_Type e =? EventTypeCompact) && bool_decide (pl_Tool b = None)
  && bool_decide (ev_Lifecycle e = None) && bool_decide (ev_Notice e = None) && bool_decide (pl_Plan b = None)
  && bool_decide (pl_Journal b = None) && bool_decide (pl_ChildOrigin b = None) && bool_decide (pl_Invocation b = None)
  && (ev_ApprovalRequestID e =? "") && Z.eqb (ev_Seq e) 0 && bool_decide (ToolUses m = [])
  && negb (trim_space (TextContent m) =? "") && SessionMainVisible e.

Definition coverageValid (d : option CheckpointData) : bool :=
  match d with
  | None => false
  | Some d => Z.eqb (cd_ContractVersion d) 1 && (0 <? cd_Revision d)%Z && (0 <? cd_SourceEventCount d)%Z
              && negb (Z.eqb (cd_SummarizedThroughSeq d) 0) && negb (cd_SummarizedThroughID d =? "")
  end.

Definition fingerprint (raw : string) : string := sha256_hex raw.

Definition SessionCheckpointHash (event : option SEvent) : result SessionError string :=
  match event with
  | None => idleDenied "only a fixed canonical checkpoint is allowed"
  | Some e =>
    match pl_Message (ev_Body e) with
    | None => idleDenied "only a fixed canonical checkpoint is allowed"
    | Some m =>
      if negb (fixedCheckpoint e m) then idleDenied "only a fixed canonical checkpoint is allowed" else
      if (ev_SessionID e =? "") || bool_decide (is_Some (pl_ContextUsage (ev_Body e))) || bool_decide (is_Some (pl_Compaction (ev_Body e)))
         || negb (m_Role m =? "user") then idleDenied "invalid checkpoint envelope" else
      if match pl_Protocol (ev_Body e) with Some p => negb (bool_decide (p = checkpointProtocol m)) | None => false end
      then idleDenied "unexpected checkpoint protocol payload" else
      if existsb (fun p => bool_decide (ph_Text (part_head p) = None)) (m_Parts m)
      then idleDenied "checkpoint message must contain only text" else
      if negb (coverageValid (SessionCheckpointData e)) then idleDenied "invalid checkpoint coverage" else
      let! raw := checkpoint_json e in Ok (fingerprint raw)
    end
  end.

#[global] Instance session_idle : IdleCodec Payload := {
  IsMainInvocationVisibleEvent := SessionMainVisible;
  sourceFingerprint s state events := let! raw := source_json s state events in Ok (fingerprint raw);
  idleCheckpointHash := SessionCheckpointHash;
  CheckpointDataFromEvent := SessionCheckpointData;
  IsModelInvocationReceipt := SessionIsReceipt;
  idleAttemptReceipt := SessionAttemptReceipt;
  stringsFingerprint l := fingerprint (json_strings l);
  attemptFingerprint claim i := fingerprint (attempt_json claim i);
  invocationFingerprint i := fingerprint (invocation_json i);
  resultFingerprint res := fingerprint (result_json res);
}.

(** ** Accounting facts ([InvocationAccountingEvents]) *)

Definition accounting_key (sessionID id : string) : string := sessionID ++ String "000"%char id.
Definition event_key (e : SEvent) : string := accounting_key (ev_SessionID e) (ev_ID e).

(** The receipt a response or tool call refers to. *)
Definition receipt_ref (e : SEvent) : string :=
  default "" (as_string (nestedAny (match pl_Meta (ev_Body e) with Some m => go_object m | None => go_object [] end)
                                   ["caelis"; "sdk"; "usage_receipt_id"])).

Definition measured_by (receipt e : SEvent) : bool :=
  match pl_Invocation (ev_Body receipt), pl_Invocation (ev_Body e) with
  | Some r, Some i => (in_Provider r =? in_Provider i) && (in_Model r =? in_Model i)
                      && bool_decide (pl_Scope (ev_Body receipt) = pl_Scope (ev_Body e))
  | _, _ => false
  end.

Definition receipts_of (events : list SEvent) : gmap string SEvent :=
  fold_left (fun m e => if SessionIsReceipt e then <[event_key e := e]> m else m) events ∅.

Definition measures (e : SEvent) : bool := (SessionEventTypeOf e =? EventTypeAssistant) || (SessionEventTypeOf e =? EventTypeToolCall).

(** A response or tool call that a receipt measures. *)
Definition superseded (receipts : gmap string SEvent) (e : SEvent) : bool :=
  measures e && match receipts !! accounting_key (ev_SessionID e) (receipt_ref e) with Some receipt => measured_by receipt e | None => false end.

Fixpoint accounting_loop (receipts : gmap string SEvent) (seen : gset string) (events : list SEvent) : list SEvent :=
  match events with
  | [] => []
  | e :: rest =>
    if SessionIsReceipt e then
      if bool_decide (event_key e ∈ seen) then accounting_loop receipts seen rest
      else e :: accounting_loop receipts ({[event_key e]} ∪ seen) rest
    else if superseded receipts e then accounting_loop receipts seen rest
    else e :: accounting_loop receipts seen rest
  end.

Definition InvocationAccountingEvents (events : list SEvent) : list SEvent := accounting_loop (receipts_of events) ∅ events.

(** *** Properties *)

Lemma receipts_of_spec events k r : receipts_of events !! k = Some r -> r ∈ events /\ SessionIsReceipt r = true /\ event_key r = k.
Proof.
  unfold receipts_of. assert (Hgen : forall m : gmap string SEvent,
    (forall k r, m !! k = Some r -> SessionIsReceipt r = true /\ event_key r = k) ->
    fold_left (fun m e => if SessionIsReceipt e then <[event_key e := e]> m else m) events m !! k = Some r ->
    (m !! k = Some r \/ r ∈ events) /\ SessionIsReceipt r = true /\ event_key r = k).
  { induction events as [|e events IH]; intros m Hm Hk; simpl in Hk; [split; [by left|by apply Hm]|].
    apply IH in Hk as [Hin Hr].
    - split; [|done]. destruct Hin as [Hin|Hin]; [|right; set_solver]. destruct (SessionIsReceipt e); [|by left].
      apply lookup_insert_Some in Hin as [[_ ->]|[_ Hin]]; [right; set_solver|by left].
    - intros k0 r0. destruct (SessionIsReceipt e) eqn:Er; [|apply Hm]. intros [[<- <-]|[_ H0]]%lookup_insert_Some; [done|by apply Hm]. }
  intros Hk. destruct (Hgen ∅) as [[Hin|Hin] Hr]; [|exact Hk| |done]; [intros ? ?; by rewrite lookup_empty|]. by rewrite lookup_empty in Hin.
Qed.

Lemma accounting_receipts receipts seen events :
  NoDup (map event_key (List.filter SessionIsReceipt (accounting_loop receipts seen events)))
  /\ Forall (fun k => k ∉ seen) (map event_key (List.filter SessionIsReceipt (accounting_loop receipts seen events)))
  /\ (forall e, e ∈ events -> SessionIsReceipt e = true -> event_key e ∈ seen \/
       exists e', e' ∈ accounting_loop receipts seen events /\ SessionIsReceipt e' = true /\ event_key e' = event_key e).
Proof.
  revert seen. induction events as [|e events IH]; intros seen; simpl.
  { split_and!; [constructor|constructor|by intros e ?%elem_of_nil]. }
  destruct (SessionIsReceipt e) eqn:Er; [case_bool_decide as Hs|].
  - destruct (IH seen) as (H1&H2&H3). split_and!; [done|done|]. intros x [->|Hx]%elem_of_cons Hr; [by left|by apply H3].
  - destruct (IH ({[event_key e]} ∪ seen)) as (H1&H2&H3). simpl. rewrite Er. simpl. split_and!.
    + constructor; [|done]. intros Hin. rewrite Forall_forall in H2. apply (H2 _ Hin). set_solver.
    + constructor; [done|]. eapply Forall_impl; [exact H2|]. set_solver.
    + intros x [->|Hx]%elem_of_cons Hr; [right; exists e; split_and!; [apply list_elem_of_here|done|done]|].
      destruct (H3 x Hx Hr) as [Hk|(e'&He'&?)]; [|right; exists e'; split; [by apply list_elem_of_further|done]].
      apply elem_of_union in Hk as [Hk%elem_of_singleton|Hk]; [|by left]. right. exists e. split_and!; [apply list_elem_of_here|done|done].
  - assert (Hskip : forall x, x ∈ e :: events -> SessionIsReceipt x = true -> x ∈ events).
    { intros x [->|Hx]%elem_of_cons Hr; [congruence|done]. }
    destruct (superseded receipts e); simpl; rewrite ?Er; destruct (IH seen) as (H1&H2&H3); split_and!; try done; intros x Hx Hr.
    + apply H3; auto.
    + destruct (H3 x (Hskip x Hx Hr) Hr) as [?|(e'&He'&?)]; [by left|right; exists e'; split; [by apply list_elem_of_further|done]].
Qed.

Lemma accounting_others receipts seen events e : SessionIsReceipt e = false ->
  e ∈ accounting_loop receipts seen events <-> e ∈ events /\ superseded receipts e = false.
Proof.
  intros Hr. revert seen. induction events as [|x events IH]; intros seen; simpl.
  { split; [by intros ?%elem_of_nil|by intros [?%elem_of_nil _]]. }
  destruct (SessionIsReceipt x) eqn:Ex; [case_bool_decide|destruct (superseded receipts x) eqn:Es]; rewrite ?elem_of_cons, ?IH; naive_solver congruence.
Qed.

Lemma accounting_sublist receipts seen events : accounting_loop receipts seen events `sublist_of` events.
Proof.
  revert seen. induction events as [|e events IH]; intros seen; simpl; [constructor|].
  repeat case_match; first [by apply sublist_skip|by apply sublist_cons].
Qed.

(** Every model invocation is accounted once.  The accounting events are a part of the log in its order; they hold
    exactly one receipt for each invocation of a Session that has receipts; and a response or tool call without a
    receipt of its own is left out exactly when the receipt it refers to is in the log, of the same Session, provider,
    model and scope, so that no historical measurement is dropped without its replacement. *)
Theorem invocation_accounted_once (events : list SEvent) :
  let out := InvocationAccountingEvents events in
  out `sublist_of` events
  /\ NoDup (map event_key (List.filter SessionIsReceipt out))
  /\ (forall e, e ∈ events -> SessionIsReceipt e = true -> exists e', e' ∈ out /\ SessionIsReceipt e' = true /\ event_key e' = event_key e)
  /\ (forall e, SessionIsReceipt e = false -> (e ∈ out <-> e ∈ events /\ superseded (receipts_of events) e = false))
  /\ (forall e, superseded (receipts_of events) e = true -> measures e = true /\ exists receipt, receipt ∈ events
       /\ SessionIsReceipt receipt = true /\ event_key receipt = accounting_key (ev_SessionID e) (receipt_ref e) /\ measured_by receipt e = true).
Proof.
  cbv zeta. unfold InvocationAccountingEvents. destruct (accounting_receipts (receipts_of events) ∅ events) as (H1&_&H3).
  split_and!; [apply accounting_sublist|done| |intros e He; by apply accounting_others|].
  - intros e Hin Hr. destruct (H3 e Hin Hr) as [Hk|Hk]; [set_solver|done].
  - intros e. unfold superseded. rewrite andb_true_iff. intros [Hm Hx]. split; [done|].
    destruct (receipts_of events !! _) as [receipt|] eqn:E; [|done]. apply receipts_of_spec in E as (?&?&?). by exists receipt.
Qed.
End SessionIdle.
