(* ===== verification/ToolResult.v ===== *)
(** * Canonical tool results

    Models the way of a tool result into a session: the bounded result
    ([TruncateResultWithInfo...] in [agent-sdk/tool/truncate.go],
    [canonicalToolResult] in [agent-sdk/runtime/chat/tool_execution.go]), the
    reference to the artifact that holds the whole of it
    ([tool_result_hint.go]), the message and the event made of it
    ([tool_event.go], [tool_helpers.go]), and what the event must satisfy
    ([validateDurableCoreRawOutput], [sameCanonicalJSON] in
    [agent-sdk/session/event_validation.go]).

    Writing and removing artifact files is I/O: [canonicalToolResult] takes the
    outcome of the write.  Maps copied deeply are equal values. *)

From Stdlib Require Import ZArith Lia Ascii String.
From stdpp Require Import base option strings list.
From S2P Require Import Prelude GoStrings Fence Execution Utf8Stream Runes GoValues GoJson TruncateText ApprovalSubject Payload Events SessionCodec Truncate.

Local Open Scope list_scope.
Local Open Scope Z_scope.

(** [tool.Result]. *)
Record Result : Type := MkToolOutput {
  rs_ID : string; rs_Name : string; rs_Content : list Part; rs_TurnComplete : bool;
  rs_Meta : GoMap; rs_IsError : bool; rs_Metadata : GoMap;
}.

Definition set_content (content : list Part) (r : Result) : Result :=
  MkToolOutput (rs_ID r) (rs_Name r) content (rs_TurnComplete r) (rs_Meta r) (rs_IsError r) (rs_Metadata r).

Definition CloneResult (r : Result) : Result :=
  MkToolOutput (rs_ID r) (trim_space (rs_Name r)) (rs_Content r) (rs_TurnComplete r) (rs_Meta r) (rs_IsError r) (rs_Metadata r).

Definition tool_call_failed : list (string * GoValue) := [("error"%string, go_string "tool call failed")].

(** ** Event metadata *)

(** [mergeAnyMap]: maps are merged key by key, other values replaced. *)
Fixpoint merge_value (existing : option GoValue) (incoming : GoValue) : GoValue :=
  match existing, incoming with
  | Some (Node NMap base), Node NMap overlay =>
    go_object ((fix go (out : list (string * GoValue)) (items : list (string * GoValue)) : list (string * GoValue) :=
                  match items with
                  | [] => out
                  | (key, value) :: items => go (map_set key (merge_value (assoc key out) value) out) items
                  end) base overlay)
  | _, _ => incoming
  end.

Definition merge_items (out items : list (string * GoValue)) : list (string * GoValue) :=
  foldl (fun out x => map_set (fst x) (merge_value (assoc (fst x) out) (snd x)) out) out items.

Definition mergeEventMeta (parts : list GoMap) : GoMap :=
  match foldl (fun out part => merge_items out (default [] part)) [] parts with [] => None | out => Some out end.

Definition caelis_runtime (section : list (string * GoValue)) : list (string * GoValue) :=
  map_of [("caelis"%string, go_object (map_of [("version"%string, go_int 1); ("runtime"%string, go_object section)]))].

Definition toolMeta (name : string) : GoMap :=
  let name := trim_space name in
  if String.eqb name "" then None else
  Some (caelis_runtime [("tool"%string, go_object [("name"%string, go_string name)])]).

Definition toolTruncationEventMeta (info : TruncationInfo) : GoMap :=
  match TruncationMetadata info with
  | None | Some [] => None
  | Some truncation => Some (caelis_runtime [("tool"%string, go_object [("truncation"%string, go_object truncation)])])
  end.

Definition toolReservedNamespaceCollisionEventMeta (collision : bool) : GoMap :=
  if negb collision then None else
  Some (caelis_runtime [("tool"%string, go_object [("provenance"%string, go_object [("reserved_namespace_collision"%string, go_bool true)])])]).

Definition MetadataSection : string := "binding".
Definition MetadataTaskResult : string := "task_result".

Definition runtimeTaskResultSourceMeta (trusted : bool) : GoMap :=
  Some [("caelis"%string, go_object [("runtime"%string, go_object [(MetadataSection, go_object [(MetadataTaskResult, go_bool trusted)])])])].

(** A map inside a map, or nothing: [x, _ := m[key].(map[string]any)]. *)
Definition sub_map (key : string) (m : GoMap) : GoMap := map_index m key ≫= as_object.

Definition is_true (v : GoValue) : bool := match v with Leaf KBool b => String.eqb b "true" | _ => false end.

Definition runtimeTaskResultSourceDeclared (metaParts : list GoMap) : bool :=
  existsb (fun meta => match map_index (sub_map MetadataSection (sub_map "runtime" (sub_map "caelis" meta))) MetadataTaskResult with
                       | Some v => is_true v | None => false end) metaParts.

(** The nested map is changed in place, which changes what holds it. *)
Definition update_map (key : string) (f : list (string * GoValue) -> list (string * GoValue)) (m : list (string * GoValue)) : list (string * GoValue) :=
  match assoc key m with Some (Node NMap items) => map_set key (go_object (f items)) m | _ => m end.

Definition withoutUntrustedRuntimeTaskAuthority (trusted : bool) (meta : GoMap) : GoMap :=
  update_map "caelis" (update_map "runtime" (fun items =>
    let items := map_delete MetadataSection items in if trusted then items else map_delete "task" items)) <$> meta.

(** ** JSON of maps *)

Section Canonical.
Context `{Json}.

(** [mustJSON]: the error of [json.Marshal] is dropped. *)
Definition mustJSON (value : GoMap) : string := string_of (default [] (Marshal (go_object (default [] value)))).

(** A decoder with [UseNumber] keeps the text of numbers. *)
Definition number_leaf (t : list Z) : option GoValue := Some (Leaf KNumber (string_of t)).

(** [mustObject]. *)
Definition mustObject (raw : string) : GoMap :=
  let raw := trim_space raw in
  if String.eqb raw "" then None else
  match read number_leaf maxNestingDepth (bytes_of raw) with
  | Some (Node NMap items) => Some items
  | _ => None
  end.

(** ** Bounding a result *)

(** [None] is a panic. *)
Definition truncateResultWithInfo (result : Result) (policy : TruncationPolicy) (protected : list (string * GoValue))
    : option (Result * TruncationInfo) :=
  let policy := if tokenBudget policy <=? 0 then DefaultTruncationPolicy else policy in
  let out := CloneResult result in
  match CloneParts (rs_Content result) with
  | [] =>
    let payload := if rs_IsError result then tool_call_failed else [] in
    Some (set_content [NewJSONPart (string_of (mustMarshalMap (Some payload)))] out, newTruncationInfo policy)
  | content =>
    '(content, info) ← truncatePartsWithProtectedJSONFields content policy protected;
    Some (set_content content out, info)
  end.

Definition TruncateResultWithInfo (result : Result) (policy : TruncationPolicy) : option (Result * TruncationInfo) :=
  truncateResultWithInfo result policy [].
Definition TruncateResultWithInfoAndProtectedJSONFields (result : Result) (policy : TruncationPolicy)
    (protected : list (string * GoValue)) : option (Result * TruncationInfo) :=
  truncateResultWithInfo result policy protected.

(** ** The reference to the artifact *)

Definition toolResultArtifactHintPrefix : string := "Caelis runtime artifact: ".
Definition toolResultRuntimeNamespaceKey : string := "_caelis".

Definition toolResultRuntimeArtifactMetadata (path : string) (collision : bool) : list (string * GoValue) :=
  let artifact := map_of [("path"%string, go_string path); ("model_visible_content_truncated"%string, go_bool true)] in
  let artifact := if collision then map_set "tool_namespace_collision" (go_bool true) artifact else artifact in
  [("runtime"%string, go_object [("artifact"%string, go_object artifact)])].

(** Tools may not use the namespace of the runtime: it is removed from JSON
    parts; the flag tells whether it was used. *)
Definition without_namespace (part : Part) : Part * bool :=
  match part_json part with
  | None => (part, false)
  | Some raw =>
    match Unmarshal_map (bytes_of raw) with
    | Some (Some payload) =>
      match assoc toolResultRuntimeNamespaceKey payload with
      | Some _ => (set_json (mustJSON (Some (map_delete toolResultRuntimeNamespaceKey payload))) part, true)
      | None => (part, false)
      end
    | _ => (part, false)
    end
  end.

Definition toolResultWithoutReservedNamespace (result : Result) : Result * bool :=
  let parts := map without_namespace (CloneParts (rs_Content result)) in
  (set_content (map fst parts) (CloneResult result), existsb snd parts).

(** The part that receives the reference: the first JSON part, else the first
    text part. *)
Fixpoint first_index (f : Part -> bool) (parts : list Part) : option nat :=
  match parts with
  | [] => None
  | part :: parts => if f part then Some O else S <$> first_index f parts
  end.
Definition has_json (part : Part) : bool := match part_json part with Some _ => true | None => false end.
Definition has_text (part : Part) : bool := match part_text part with Some _ => true | None => false end.

Definition hint_index (parts : list Part) : option nat :=
  match first_index has_json parts with
  | Some i => Some i
  | None => first_index has_text parts
  end.

Definition hint_part (path : string) (collision : bool) (part : Part) : option (Part * list (string * GoValue)) :=
  match part_text part, part_json part with
  | Some text, _ =>
    let text := tp_Text text in
    let text := if String.eqb text "" then text else (text ++ newline ++ newline)%string in
    Some (set_text (text ++ toolResultArtifactHintPrefix ++ path ++ newline ++ "Model-visible tool content was truncated.") part, [])
  | None, Some raw =>
    payload ← Unmarshal (bytes_of raw);
    let runtimeMetadata := go_object (toolResultRuntimeArtifactMetadata path collision) in
    let protected := [(toolResultRuntimeNamespaceKey, runtimeMetadata)] in
    match payload with
    | Node NMap object => Some (set_json (mustJSON (Some (map_set toolResultRuntimeNamespaceKey runtimeMetadata object))) part, protected)
    | _ => Some (set_json (mustJSON (Some (map_of [("result"%string, payload); (toolResultRuntimeNamespaceKey, runtimeMetadata)]))) part, protected)
    end
  | None, None => None
  end.

Definition toolResultWithArtifactHint (result : Result) (path : string) (collision : bool) : option (Result * list (string * GoValue)) :=
  let path := trim_space path in
  if String.eqb path "" then None else
  let content := CloneParts (rs_Content result) in
  index ← hint_index content;
  part ← content !! index;
  '(part, protected) ← hint_part path collision part;
  Some (set_content (<[index := part]> content) (CloneResult result), protected).

(** [artifacts] is what the artifact store makes of the write, the path of the
    file or nothing; [None] is no store.  The result is the canonical result,
    its metadata, and the artifact that is removed again. *)
Definition canonicalToolResult (original : Result) (artifacts : option (Result -> option string))
    : option (Result * GoMap * option string) :=
  let policy := DefaultTruncationPolicy in
  let '(result, reservedCollision) := toolResultWithoutReservedNamespace original in
  let written := match artifacts with
                 | Some write => if ResultNeedsTruncation (rs_Content result) policy then write original else None
                 | None => None
                 end in
  let '(result, protected, removed) :=
    match written with
    | None => (result, [], None)
    | Some path =>
      match toolResultWithArtifactHint result path reservedCollision with
      | Some (withHint, protected) => (withHint, protected, None)
      | None => (result, [], Some path)
      end
    end in
  '(canonical, info) ← TruncateResultWithInfoAndProtectedJSONFields result policy protected;
  Some (canonical, mergeEventMeta [toolTruncationEventMeta info; toolReservedNamespaceCollisionEventMeta reservedCollision], removed).

(** ** The message and the event *)

Definition RoleTool : string := "tool".
Definition PartKindToolResult : string := "tool_result".

Definition toolResultMessageFromCanonical (call : ToolCall) (result : Result) : Message :=
  let parts := match CloneParts (rs_Content result) with [] => [NewJSONPart (mustJSON (Some []))] | parts => parts end in
  MkMessage RoleTool
    [MkPart (MkHead PartKindToolResult None None None None None None)
       (Some (MkResultHead (trim_space (tc_ID call)) (trim_space (tc_Name call)) (rs_IsError result))) parts] None.

Definition nonempty_json (part : Part) : option string :=
  match part_json part with Some raw => if String.eqb raw "" then None else Some raw | None => None end.

Definition toolResultRawOutput (result : Result) : list (string * GoValue) :=
  match omap nonempty_json (rs_Content result) with
  | raw :: _ =>
    match Unmarshal (bytes_of raw) with
    | None => [("result"%string, go_string raw)]
    | Some (Node NMap payload) => payload
    | Some decoded => [("result"%string, decoded)]
    end
  | [] =>
    match omap (fun p => tp_Text <$> part_text p) (rs_Content result) with
    | [] => if rs_IsError result then tool_call_failed else []
    | texts => [("result"%string, go_string (String.concat newline texts))]
    end
  end.

(** [ErrorPayload] of an error: its text, and the code, hint and retry flag of
    a [ToolError]; [code] is the classified code of other errors. *)
Record ToolError : Type := MkToolError { er_Code : string; er_Hint : string; er_Retryable : bool }.

Definition ErrorPayload (text : string) (toolErr : option ToolError) (code : string) : list (string * GoValue) :=
  let payload := [("error"%string, go_string (trim_space text))] in
  match toolErr with
  | Some e =>
    let payload := if String.eqb (er_Code e) "" then payload else map_set "error_code" (go_string (er_Code e)) payload in
    let hint := trim_space (er_Hint e) in
    let payload := if String.eqb hint "" then payload else map_set "system_hint" (go_string hint) payload in
    if er_Retryable e then map_set "retryable" (go_bool true) payload else payload
  | None => map_set "error_code" (go_string code) payload
  end.

Definition MetadataExecutionJournal : string := "caelis.execution_journal".

(** What the model sees of an error in place of the result. *)
Definition modelVisibleToolErrorResult (call : ToolCall) (result : Result) (payload : list (string * GoValue)) : Result :=
  MkToolOutput (trim_space (tc_ID call)) (trim_space (tc_Name call)) [NewJSONPart (mustJSON (Some payload))] false None true
    (match map_index (rs_Metadata result) MetadataExecutionJournal with
     | Some v => if is_nil v then None else Some [(MetadataExecutionJournal, v)]
     | None => None
     end).

Definition RunCommandToolName : string := "RunCommand".

(** [intValue(v)] exists and is not zero.  The text of a float is that of
    encoding/json, where a negative exponent means less than one. *)
Definition nonzero_int (v : GoValue) : bool :=
  match v with
  | Leaf KInt n => negb (String.eqb n "0")
  | Leaf KFloat t =>
    let digits := snd (minus_sign (bytes_of t)) in
    negb (match digits with 48 :: _ => true | _ => false end)
    && negb (existsb (fun i => match drop i digits with e :: 45 :: _ => (e =? 101) || (e =? 69) | _ => false end) (seq 0 (length digits)))
  | _ => false
  end.

Section Events.
Context `{P : Platform}.

Definition runtimeTaskKind (meta : GoMap) : string :=
  let taskMeta := sub_map "task" (sub_map "runtime" (sub_map "caelis" meta)) in
  to_lower (trim_space (default EmptyString (map_index taskMeta "kind" ≫= as_string))).

Definition toolCallStatus (call : ToolCall) (result : Result) (rawOutput : list (string * GoValue)) (trustedTaskResult : bool) : string :=
  if rs_IsError result then "failed" else
  if trustedTaskResult && equal_fold (trim_space (tc_Name call)) RunCommandToolName
     && String.eqb (runtimeTaskKind (rs_Metadata result)) "command"
  then
    let state := trim_space (string_field "state" rawOutput) in
    if String.eqb state "" then
      match assoc "exit_code" rawOutput with
      | Some v => if nonzero_int v then "failed" else "completed"
      | None => "completed"
      end
    else if existsb (String.eqb state)
              ["running"; "waiting_input"; "waiting_approval"; "failed"; "interrupted"; "cancelled"; "canceled"; "terminated"]%string
    then state else "completed"
  else "completed".

(** The journal in the metadata of a result; [decode] is encoding/json from a
    value to a journal entry. *)
Definition toolExecutionJournalFromResult (decode : GoValue -> option (ExecutionJournalEntry ProtocolApproval GoMap)) (result : Result)
    : option (ExecutionJournalEntry ProtocolApproval GoMap) :=
  raw ← map_index (rs_Metadata result) MetadataExecutionJournal;
  if is_nil raw then None else
  journal ← decode raw;
  let journal := CloneJournal journal in
  if (je_Schema journal =? ExecutionJournalSchemaVersion) && String.eqb (je_Kind journal) JournalKindToolExecution
     && match je_ToolExecution journal with Some _ => true | None => false end
  then Some journal else None.

Definition toolEventPayload (call : ToolCall) (status : string) (rawInput rawOutput : GoMap) : EventTool :=
  MkTool None (trim_space (tc_ID call)) false (trim_space (tc_Name call)) "" "" (trim_space status) rawInput rawOutput [] [].

Definition empty_payload : Payload :=
  MkPayload (MkActor "" "" "" "") None None None None None None None None None None None None None.

Definition toolEvent (decode : GoValue -> option (ExecutionJournalEntry ProtocolApproval GoMap)) (call : ToolCall) (result : Result)
    (message : option Message) (statusOverride : string) (extraMeta : list GoMap) : Event Payload :=
  let rawInput := mustObject (tc_Args call) in
  let rawOutput := toolResultRawOutput result in
  let journal := toolExecutionJournalFromResult decode result in
  let trustedTaskResult := runtimeTaskResultSourceDeclared extraMeta in
  let resultMetadata := map_delete MetadataExecutionJournal <$> rs_Metadata result in
  let resultMetadata := withoutUntrustedRuntimeTaskAuthority trustedTaskResult resultMetadata in
  let metaParts := resultMetadata :: extraMeta ++ [toolMeta (tc_Name call); runtimeTaskResultSourceMeta trustedTaskResult] in
  let status := trim_space statusOverride in
  let status := if String.eqb status "" then toolCallStatus call result rawOutput trustedTaskResult else status in
  let tool := toolEventPayload call status rawInput (Some rawOutput) in
  let tool := if String.eqb statusOverride "" && negb (rs_IsError result)
              then MkTool (et_ModelCall tool) (et_ID tool) (rs_TurnComplete result) (et_Name tool) (et_Kind tool) (et_Title tool)
                     (et_Status tool) (et_Input tool) (et_Output tool) (et_Content tool) (et_Locations tool)
              else tool in
  MkEvent Payload "" "" "" 0 0 EventTypeToolResult "" 0 "" "" None None (match message with Some m => TextContent m | None => EmptyString end)
    (MkPayload (MkActor "" "" "" "") None None None None None message (Some tool) None None None journal None (mergeEventMeta metaParts)).

Definition toolResultEvent decode (call : ToolCall) (result : Result) (message : option Message) (extraMeta : list GoMap) : Event Payload :=
  toolEvent decode call result message "" extraMeta.
Definition toolProgressEvent decode (call : ToolCall) (result : Result) (extraMeta : list GoMap) : Event Payload :=
  toolEvent decode call result None "in_progress" extraMeta.
End Events.

(** ** What a stored tool result must satisfy *)

Section Validation.
(** The text of an encoding error. *)
Variable marshal_error : GoValue -> string.

Definition validateDurableCoreRawOutput (rawOutput : GoMap) : option string :=
  match Marshal_map rawOutput with
  | None => Some ("tool raw_output is not JSON-serializable: " ++ marshal_error (go_object (default [] rawOutput)))%string
  | Some _ =>
    let '(_, info) := TruncateMap rawOutput DefaultTruncationPolicy in
    if ti_Truncated info
    then Some ("tool raw_output is not canonical-truncated (estimated " ++ Decimal.FormatInt (ti_EstimatedTokens info) ++ " tokens > "
               ++ Decimal.FormatInt (ti_MaxTokens info) ++ " tokens)")%string
    else None
  end.

Definition canonicalJSONBytes (value : GoMap) : option (list Z) := raw ← Marshal_map value; normalized ← Unmarshal raw; Marshal normalized.

Definition sameCanonicalJSON (left right : GoMap) : bool :=
  match canonicalJSONBytes left, canonicalJSONBytes right with
  | Some l, Some r => bool_decide (l = r)
  | _, _ => false
  end.

(** The operations of [Platform] that these functions are. *)
Class JsonPlatform (P : Platform) : Prop := {
  platform_decode raw : json_decode raw = Unmarshal (bytes_of raw);
  platform_equal a b : json_equal a b = sameCanonicalJSON a b;
  platform_output m : output_problem m = validateDurableCoreRawOutput m;
  (** A text that is one object. *)
  platform_input raw items : trim_space raw = raw -> mustObject raw = Some items -> input_object raw = Some items;
  (** The arguments of an envelope are absent or the text of one value. *)
  platform_envelope raw name arguments one : mcp_envelope raw = Some (name, arguments, one) ->
    arguments = ""%string \/ trim_space arguments = arguments /\ read number_leaf maxNestingDepth (bytes_of arguments) <> None;
}.
End Validation.
End Canonical.
