(* ===== verification/McpCall.v ===== *)
(** * Calls of MCP tools

    The model calls an MCP tool through the envelope tool [mcp_call].  Models
    [agent-sdk/runtime/chat/mcp_call.go]: the calls of one response are bound to
    tools of the session before any of them runs ([bindMCPCalls]), and their
    events name the tool that is meant, with the envelope as the model call
    ([presentMCPEvent]).  [agent-sdk/tool]: which definitions are MCP tools or
    the envelope ([tool.go], [mcp_call.go]), the tools that a step shows
    ([visibility.go]) and bindings ([mcp_binding.go]).  [finishToolCall] is the
    end of [executeToolCallAdmitted] ([tool_execution.go]).

    A tool is its definition: what it answers is an argument of
    [finishToolCall].  The tools that a model can use, and the check of arguments
    against a JSON schema, made by the package [jsonschema-go], are arguments. *)

From Stdlib Require Import ZArith Lia Ascii String.
From stdpp Require Import base option strings list gmap.
From S2P Require Import Prelude GoStrings Fence Execution Utf8Stream Runes GoValues GoJson TruncateText ApprovalSubject Payload Events SessionCodec Truncate ToolResult.

Local Open Scope list_scope.
Local Open Scope Z_scope.

(** ** Tool definitions *)

(** The fields of [tool.Definition] that calls are routed by. *)
Record ToolDefinition : Type := MkDefinition { df_Name : string; df_InputSchema : GoMap; df_Metadata : GoMap }.

Definition MetadataToolKind : string := "caelis.tool.kind".
Definition MetadataPluginID : string := "caelis.plugin.id".
Definition MetadataMCPServer : string := "caelis.mcp.server".
Definition MetadataMCPTool : string := "caelis.mcp.tool".
Definition MetadataMCPSourceFingerprint : string := "caelis.mcp.source_fingerprint".
Definition MetadataToolKindMCP : string := "mcp".
Definition MetadataToolKindToolSearch : string := "tool_search".
Definition ToolSearchToolName : string := "tool_search".
Definition ErrorCodeNotFound : string := "not_found".
Definition ErrorCodeStaleRevision : string := "stale_revision".

#[global] Instance Binding_eq_dec : EqDecision Binding.
Proof. solve_decision. Defined.

Section Routing.
Context `{P : Platform} `{J : Json}.

Definition metadata_field (def : ToolDefinition) (k : string) : string :=
  default EmptyString (map_index (df_Metadata def) k ≫= as_string).

Definition definitionKind (def : ToolDefinition) : string := to_lower (trim_space (metadata_field def MetadataToolKind)).
Definition IsMCPDefinition (def : ToolDefinition) : bool := String.eqb (definitionKind def) MetadataToolKindMCP.
Definition IsToolSearchDefinition (def : ToolDefinition) : bool :=
  String.eqb (definitionKind def) MetadataToolKindToolSearch && String.eqb (df_Name def) ToolSearchToolName.
Definition IsMCPCallDefinition (def : ToolDefinition) : bool :=
  String.eqb (df_Name def) MCPCallToolName && String.eqb (definitionKind def) MCPCallToolName.

Definition BindingForDefinition (def : ToolDefinition) : Binding :=
  let remote := metadata_field def MetadataMCPTool in
  let server := metadata_field def MetadataMCPServer in
  let version := metadata_field def MetadataMCPSourceFingerprint in
  if negb (IsMCPDefinition def) || String.eqb remote "" || String.eqb server "" || String.eqb version ""
  then MkBinding "" "" "" else
  MkBinding (df_Name def) (sha256_hex (json_strings [metadata_field def MetadataPluginID; server; remote])) version.

Definition strings_value (l : list string) : GoValue := Node NSlice (map (fun s => (EmptyString, go_string s)) l).

Definition NewMCPCallTool : ToolDefinition :=
  MkDefinition MCPCallToolName
    (Some (map_of
      [("type"%string, go_string "object"); ("additionalProperties"%string, go_bool false);
       ("required"%string, strings_value ["tool_name"%string; "arguments"%string]);
       ("properties"%string, go_object (map_of
         [("tool_name"%string, go_object (map_of [("type"%string, go_string "string"); ("minLength"%string, go_int 1)]));
          ("arguments"%string, go_object (map_of [("type"%string, go_string "object"); ("additionalProperties"%string, go_bool true)]))]))]))
    (Some [(MetadataToolKind, go_string MCPCallToolName)]).

Definition WithMCPCallTool (tools : list ToolDefinition) : list ToolDefinition :=
  if negb (existsb IsToolSearchDefinition tools) || existsb IsMCPCallDefinition tools then tools else tools ++ [NewMCPCallTool].

(** ** The tools of a step *)

(** [tool.AvailableForModel] for the model of the run. *)
Variable AvailableForModel : ToolDefinition -> bool.

(** [NewToolVisibilityForModel]: the map by name; a later tool of a name replaces
    an earlier one. *)
Definition NewToolVisibilityForModel (tools : list ToolDefinition) : gmap string ToolDefinition :=
  foldl (fun byName def =>
    if String.eqb (df_Name def) "" || IsMCPDefinition def || negb (AvailableForModel def) then byName
    else <[df_Name def := def]> byName) ∅ (WithMCPCallTool tools).

Definition LookupTool (visibility : gmap string ToolDefinition) (name : string) : option ToolDefinition := visibility !! name.

(** The MCP tools of the agent: its own and those deferred to the tool search. *)
Definition mcpTools (tools deferredTools : list ToolDefinition) : gmap string ToolDefinition :=
  foldl (fun out one => if IsMCPDefinition one && AvailableForModel one then <[df_Name one := one]> out else out) ∅ (tools ++ deferredTools).

(** ** Binding *)

Record boundMCPCall : Type := MkBound {
  bm_original : ToolCall; bm_call : ToolCall; bm_target : option ToolDefinition; bm_binding : Binding; bm_err : option CallError;
}.

(** [tool.ValidateMCPArguments]. *)
Variable ValidateMCPArguments : ToolDefinition -> string -> option CallError.

(** One call of the response: [discoveries] are the tools that a search of the
    session found. *)
Definition bind_call (discoveries : gmap string Binding) (current : gmap string ToolDefinition) (call : ToolCall) : boundMCPCall :=
  match ParseMCPCall call with
  | Fail err => MkBound call (MkToolCall "" "" "" "") None (MkBinding "" "" "") (Some err)
  | Ok actual =>
    let one := current !! tc_Name actual in
    match discoveries !! tc_Name actual, one with
    | None, _ => MkBound call actual None (MkBinding "" "" "")
        (Some (ErrorCodeNotFound, "MCP tool has not been discovered in this Session; use tool_search"%string))
    | Some binding, None => MkBound call actual None binding
        (Some (ErrorCodeStaleRevision, "MCP binding changed or is unavailable; use tool_search after refresh"%string))
    | Some binding, Some def =>
      if negb (bool_decide (binding = BindingForDefinition def))
      then MkBound call actual None binding
        (Some (ErrorCodeStaleRevision, "MCP binding changed or is unavailable; use tool_search after refresh"%string))
      else MkBound call actual (Some def) binding (ValidateMCPArguments def (tc_Args actual))
    end
  end.

Definition bindMCPCalls (tools deferredTools : list ToolDefinition) (discoveries : gmap string Binding)
    (calls : list ToolCall) (visibility : gmap string ToolDefinition) : gmap string boundMCPCall :=
  let current := mcpTools tools deferredTools in
  foldl (fun boundCalls call =>
    match LookupTool visibility (tc_Name call) with
    | Some declaration =>
      if IsMCPCallDefinition declaration then <[tc_ID call := bind_call discoveries current call]> boundCalls else boundCalls
    | None => boundCalls
    end) ∅ calls.

(** [%q]: [strconv.Quote]. *)
Variable Quote : string -> string.

(** The tool that runs, the call it gets and the binding that is checked. *)
Definition boundTool (boundCalls : gmap string boundMCPCall) (visibility : gmap string ToolDefinition) (call : ToolCall)
    : result (ToolCall * CallError) (option ToolDefinition * ToolCall * option Binding) :=
  match boundCalls !! tc_ID call with
  | Some bound =>
    match bm_err bound with
    | Some err => Fail (bm_call bound, err)
    | None => Ok (bm_target bound, bm_call bound, Some (bm_binding bound))
    end
  | None =>
    match LookupTool visibility (tc_Name call) with
    | None => Fail (call, (ErrorCodeNotFound, "tool " ++ Quote (tc_Name call) ++ " not found")%string)
    | Some one =>
      if IsMCPCallDefinition one then Fail (call, (ErrorCodeInvalidInput, "MCP call is not bound to a model response"%string))
      else Ok (Some one, call, None)
    end
  end.

(** ** Events *)

Definition presentMCPEvent (boundCalls : gmap string boundMCPCall) (event : Event Payload) : Event Payload :=
  let b := ev_Body event in
  match pl_Tool b with
  | None => event
  | Some t =>
    match boundCalls !! et_ID t with
    | None => event
    | Some bound =>
      if String.eqb (tc_Name (bm_call bound)) "" then event else
      let t := MkTool (Some (bm_original bound)) (et_ID t) (et_TurnComplete t) (tc_Name (bm_call bound)) (et_Kind t) (et_Title t)
                 (et_Status t) (mustObject (tc_Args (bm_call bound))) (et_Output t) (et_Content t) (et_Locations t) in
      set_Body (MkPayload (pl_Actor b) (pl_Scope b) (pl_ChildOrigin b) (pl_Invocation b) (pl_ContextUsage b) (pl_Compaction b)
        (pl_Message b) (Some t) (pl_Plan b) (pl_NoticeMeta b) (pl_LifecycleMeta b) (pl_Journal b) (pl_Protocol b)
        (mergeEventMeta [pl_Meta b; toolMeta (tc_Name (bm_call bound))])) event
    end
  end.

(** The end of [executeToolCallAdmitted], when a tool has answered as well as
    when [boundTool] fails: the result becomes the message for the model and the
    event of the session.  [None] is a panic. *)
Definition finishToolCall (boundCalls : gmap string boundMCPCall) decode (call : ToolCall) (result : Result)
    (artifacts : option (Result -> option string)) (taskResultSource : bool) : option (Message * Event Payload) :=
  '(canonical, truncationMeta, _) ← canonicalToolResult result artifacts;
  let message := toolResultMessageFromCanonical call canonical in
  let eventMeta := if taskResultSource then mergeEventMeta [truncationMeta; runtimeTaskResultSourceMeta true] else truncationMeta in
  Some (message, presentMCPEvent boundCalls (toolResultEvent decode call canonical (Some message) [eventMeta])).
End Routing.

(** ** What is bound *)

Section Bound.
Context `{P : Platform} `{J : Json}.
Variable AvailableForModel : ToolDefinition -> bool.
Variable ValidateMCPArguments : ToolDefinition -> string -> option CallError.

(** A map that was filled entry by entry holds entries that were put there. *)
Lemma foldl_entries {A B} (Q : string -> B -> Prop) (step : gmap string B -> A -> gmap string B) (xs : list A) out :
  (forall out x k b, x ∈ xs -> step out x !! k = Some b -> out !! k = Some b \/ Q k b) ->
  (forall k b, out !! k = Some b -> Q k b) -> forall k b, foldl step out xs !! k = Some b -> Q k b.
Proof.
  revert out. induction xs as [|x xs IH]; intros out Hstep Hout k b; [apply Hout|]. cbn [foldl]. apply IH.
  - intros o y j c Hy. apply Hstep. by right.
  - intros j c Hj. destruct (Hstep out x j c) as [Ho|Hq]; [by left|done|by apply Hout|done].
Qed.

Lemma visible_name tools name def : LookupTool (NewToolVisibilityForModel AvailableForModel tools) name = Some def -> df_Name def = name.
Proof.
  apply (foldl_entries (fun k d => df_Name d = k)); [|by intros k b ?%lookup_empty_Some].
  intros out x k b _. destruct (_ || _); [by left|]. intros [[<- <-]|[_ ?]]%lookup_insert_Some; [by right|by left].
Qed.

(** A bound call is a call of the response to the envelope. *)
Lemma bound_call tools deferred discoveries calls shown id bound :
  bindMCPCalls AvailableForModel ValidateMCPArguments tools deferred discoveries calls (NewToolVisibilityForModel AvailableForModel shown) !! id = Some bound ->
  exists call, call ∈ calls /\ tc_ID call = id /\ tc_Name call = MCPCallToolName /\ bm_original bound = call /\
    (tc_Name (bm_call bound) <> ""%string -> ParseMCPCall call = Ok (bm_call bound)).
Proof.
  revert id bound. apply (foldl_entries (fun id bound => exists call, call ∈ calls /\ tc_ID call = id /\ tc_Name call = MCPCallToolName /\
    bm_original bound = call /\ (tc_Name (bm_call bound) <> ""%string -> ParseMCPCall call = Ok (bm_call bound)))); [|by intros k b ?%lookup_empty_Some].
  intros out call k b Hin. destruct (LookupTool _ _) as [def|] eqn:El; [|by left]. apply visible_name in El.
  destruct (IsMCPCallDefinition def) eqn:Ed; [|by left]. intros [[<- <-]|[_ ?]]%lookup_insert_Some; [right|by left].
  exists call. split; [done|]. split; [done|]. unfold IsMCPCallDefinition in Ed. apply andb_true_iff in Ed as [Ed%String.eqb_eq _].
  split; [congruence|]. unfold bind_call. destruct (ParseMCPCall call) as [actual|err]; [|done].
  by destruct (discoveries !! _); [destruct (mcpTools _ _ _ !! _); [destruct (negb _)|]|].
Qed.

(** Reading from an opening brace gives an object. *)
Lemma members_object num fuel depth acc p v r : parse num fuel depth (MMembers acc) p = Some (v, r) -> exists items, v = go_object items.
Proof.
  revert acc p. induction fuel as [|fuel IH]; intros acc p; [done|]. cbn [parse]. destruct (skip_space p) as [|c q]; [done|].
  destruct (c =? 34); [|done]. destruct (string_literal q) as [[k q']|]; [|done]. cbn [mbind option_bind].
  destruct (skip_space q') as [|c' q'']; [done|]. destruct (c' =? 58); [|done]. destruct (parse _ _ _ MValue _) as [[w s]|]; [|done].
  cbn [mbind option_bind]. destruct (skip_space s) as [|c'' s']; [done|]. destruct (c'' =? 44); [apply IH|]. destruct (c'' =? 125); [|done].
  intros [= <- <-]. by eexists.
Qed.

Lemma read_object num depth p v : read num depth (123 :: p) = Some v -> exists items, v = go_object items.
Proof.
  unfold read. replace (2 * length (123%Z :: p) + 2)%nat with (S (2 * length p + 3)) by (cbn [length]; lia). cbn [parse skip_space].
  change (is_space 123) with false. cbv iota. change (123 =? 123) with true. cbv iota. destruct (depth <=? 0); [done|].
  destruct (skip_space p) as [|c r]; [done|]. destruct (c =? 125).
  - destruct (skip_space r); [|done]. intros [= <-]. by eexists.
  - destruct (parse _ _ _ (MMembers []) p) as [[w s]|] eqn:E; [|done]. destruct (skip_space s); [|done]. intros [= <-].
    by apply members_object in E.
Qed.

Variable marshal_error : GoValue -> string.
Context `{JP : !JsonPlatform marshal_error P}.

(** The real arguments of a call that the envelope was parsed to. *)
Lemma parsed_call call actual : ParseMCPCall call = Ok actual ->
  tc_ID actual = tc_ID call /\ tc_Name actual <> ""%string /\ trim_space (tc_Name actual) = tc_Name actual /\
  exists items, mustObject (tc_Args actual) = Some items /\ mustInputObject (tc_Args actual) = Some items.
Proof.
  unfold ParseMCPCall. destruct (mcp_envelope (tc_Args call)) as [[[name args] [|]]|] eqn:E; [|done|done].
  destruct (String.eqb_spec name ""); [done|]. destruct (String.eqb_spec name (trim_space name)) as [Ht|]; [|done].
  destruct (String.eqb_spec args ""); [done|]. destruct (String.prefix "{" (trim_space args)) eqn:Ep; [|done]. intros [= <-].
  cbn [tc_ID tc_Name tc_Args]. split; [done|]. split; [done|]. split; [done|].
  destruct (platform_envelope marshal_error _ _ _ _ E) as [|[Hargs Hread]]; [done|]. rewrite Hargs in Ep.
  assert (Hm : exists items, mustObject args = Some items).
  { unfold mustObject. rewrite Hargs, (proj2 (String.eqb_neq args "")) by done.
    destruct (read number_leaf maxNestingDepth (bytes_of args)) as [v|] eqn:Er; [|done]. destruct args as [|c args]; [done|].
    cbn [String.prefix] in Ep. destruct (ascii_dec "{" c) as [<-|]; [|done]. apply read_object in Er as (items&->). by eexists. }
  destruct Hm as (items&Hm). exists items. split; [done|]. by apply (platform_input marshal_error).
Qed.

(** The comparison of the arguments of an envelope with those of the event needs
    numbers that are float64. *)
Definition comparable (raw : string) : Prop := canonicalJSONBytes (mustObject raw) <> None.

(** An event with the tool and the arguments of its envelope. *)
Lemma routed_valid call actual t : ParseMCPCall call = Ok actual -> tc_Name call = MCPCallToolName -> et_ModelCall t = Some call ->
  et_ID t = tc_ID call -> et_Name t = tc_Name actual -> et_Input t = mustObject (tc_Args actual) -> comparable (tc_Args actual) ->
  validateRoutedModelCall t = Ok tt.
Proof.
  intros Hp Hn Hc Hi Ht Hin Hcomp. destruct (parsed_call call actual Hp) as (Hid&_&_&items&Hm&Hmi). unfold comparable in Hcomp.
  unfold validateRoutedModelCall. rewrite Hc, Hp, Hn, Hid, Hi, Ht, Hin, Hmi, Hm, !String.eqb_refl, (platform_equal marshal_error).
  cbn [negb orb]. unfold sameCanonicalJSON. rewrite Hm in Hcomp. destruct (canonicalJSONBytes (Some items)); [|done].
  rewrite bool_decide_eq_true_2 by done. by rewrite andb_false_r.
Qed.
End Bound.
