(* ===== verification/ToolResultFacts.v ===== *)
(** * Facts about canonical tool results

    The steps of [ToolResult.v] keep the parts of a result sound; the canonical
    result always exists, its content fits the default budget, and the output
    read from it is JSON within that budget. *)

From Stdlib Require Import ZArith Lia Ascii String.
From stdpp Require Import base option strings list sets.
From S2P Require Import Prelude GoStrings GoText Fence Execution Utf8Stream Runes GoValues GoJson GoJsonFacts TruncateText TruncateTextFacts ApprovalSubject Payload Events SessionCodec Truncate TruncateFacts TruncateFuel TruncateParts TruncateLoop ToolResult.

Local Open Scope list_scope.
Local Open Scope Z_scope.

(** ** Text of several parts *)

Lemma bytes_of_app s t : bytes_of (s ++ t)%string = bytes_of s ++ bytes_of t.
Proof. induction s as [|a s IH]; [done|]. change (bytes_of (String a s ++ t)%string) with (byte_of a :: bytes_of (s ++ t)%string). by rewrite IH. Qed.

Lemma quote_body_app p q : Valid p = true -> quote_body (p ++ q) = quote_body p ++ quote_body q.
Proof. intros Hp. unfold quote_body. rewrite chunks_app by done. by rewrite map_app, concat_app. Qed.

Lemma quote_body_newline : quote_body (bytes_of newline) = [92; 110].
Proof. done. Qed.

Lemma join_cons t ts : ts <> [] -> String.concat newline (t :: ts) = (t ++ newline ++ String.concat newline ts)%string.
Proof. by destruct ts. Qed.

Definition utf8 (t : string) : Prop := Valid (bytes_of t) = true.

Lemma utf8_app s t : utf8 s -> utf8 t -> utf8 (s ++ t)%string.
Proof. unfold utf8. intros Hs Ht. rewrite bytes_of_app. by apply Valid_app. Qed.

Lemma join_utf8 ts : Forall utf8 ts -> utf8 (String.concat newline ts).
Proof.
  induction 1 as [|t ts Ht Hts IH]; [done|]. destruct ts as [|u ts]; [done|]. rewrite join_cons by done.
  apply utf8_app; [done|]. by apply utf8_app.
Qed.


Section Result.
Context `{JL : JsonLaws}.

(** Joining texts costs no more than the texts. *)
Lemma join_cost ts : Forall utf8 ts -> ts <> [] ->
  text_cost (bytes_of (String.concat newline ts)) <= sum (map (fun t => text_cost (bytes_of t)) ts).
Proof.
  induction 1 as [|t ts Ht Hts IH]; [done|]. intros _. destruct ts as [|u ts].
  - cbn [String.concat map]. unfold sum. cbn [foldr]. lia.
  - specialize (IH ltac:(done)). rewrite join_cons by done. cbn [map] in *. unfold sum in *. cbn [foldr] in *.
    set (rest := String.concat newline (u :: ts)) in *. clearbody rest.
    rewrite !(text_cost_eq (bytes_of t)), (text_cost_eq (bytes_of (t ++ _)%string)). rewrite (text_cost_eq (bytes_of rest)) in IH. rewrite !string_of_bytes in *.
    rewrite !bytes_of_app, quote_body_app, quote_body_app, quote_body_newline, !len_app by done. change (len [92; 110]) with 2.
    pose proof (text_len_nonneg (quote_body (bytes_of t))). pose proof (text_len_nonneg (quote_body (bytes_of rest))).
    assert ((13 + (len (quote_body (bytes_of t)) + (2 + len (quote_body (bytes_of rest)))) + 3) / 4
            <= (13 + len (quote_body (bytes_of t)) + 3) / 4 + (13 + len (quote_body (bytes_of rest)) + 3) / 4); [|lia].
    Z.to_euclidean_division_equations. lia.
Qed.

(** ** JSON objects that parts hold *)

Lemma mustJSON_marshal items : json_fields items -> bytes_of (mustJSON (Some items)) = mustMarshalMap (Some items) /\
  mustJSON (Some items) = string_of (mustMarshalMap (Some items)).
Proof.
  intros Hi. apply json_fields_value in Hi. destruct (Marshal_total _ Hi) as (d&Hd&Hb). unfold mustJSON, mustMarshalMap.
  cbn [default from_option id]. rewrite Hd. cbn [default from_option id]. by rewrite bytes_of_string.
Qed.

Lemma mustJSON_reads items : json_fields items -> depth_of items < maxNestingDepth -> Unmarshal (bytes_of (mustJSON (Some items))) = Some (go_object items).
Proof.
  intros Hi Hd. rewrite (proj1 (mustJSON_marshal _ Hi)). apply json_fields_value in Hi.
  destruct (json_read_back (go_object items) Hi) as (d&E&Hr); [rewrite nesting_object; unfold depth_of in Hd; lia|].
  unfold mustMarshalMap. rewrite E. exact Hr.
Qed.

Lemma mustJSON_ok items part : json_fields items -> depth_of items < maxNestingDepth -> part_text part = None ->
  ok_part (set_json (mustJSON (Some items)) part).
Proof. intros Hi Hd Ht. apply set_json_ok; [done|]. exists (go_object items). split; [by apply mustJSON_reads|eauto]. Qed.

(** ** Steps keep parts sound *)

Lemma shape_refl parts : Forall ok_part parts -> same_shape parts parts.
Proof. by repeat split. Qed.

Lemma shape_cons part part' parts parts' : ok_part part' -> is_content part' = is_content part -> (is_content part = false -> part' = part) ->
  same_shape parts parts' -> same_shape (part :: parts) (part' :: parts').
Proof.
  intros Ho Hc Hm (H1&H2&H3). split; [by constructor|]. rewrite !media_cons, Hc, H2. split.
  - destruct (is_content part) eqn:E; [done|]. by rewrite Hm.
  - cbn [existsb]. by rewrite Hc, H3.
Qed.

Lemma shape_trans a b c : same_shape a b -> same_shape b c -> same_shape a c.
Proof. intros (_&H2&H3) (H4&H5&H6). split; [done|]. by rewrite H5, H6. Qed.

Lemma set_json_content raw part : is_content (set_json raw part) = true.
Proof. apply (json_content _ raw). by destruct part. Qed.

Lemma namespace_ok part : ok_part part ->
  ok_part (fst (without_namespace part)) /\ is_content (fst (without_namespace part)) = is_content part /\
  (is_content part = false -> fst (without_namespace part) = part).
Proof.
  intros Ho. unfold without_namespace. destruct (part_json part) as [raw|] eqn:Ej; [|done].
  destruct (Unmarshal_map (bytes_of raw)) as [[payload|]|] eqn:Eu; [|done|done].
  destruct (assoc _ payload) as [v|]; [|done]. cbn [fst]. destruct (Unmarshal_map_ok _ _ (bytes_of_bytes raw) Eu) as [Hj Hd].
  rewrite set_json_content, (json_content _ _ Ej). split; [|done]. destruct (ok_reads _ _ Ho Ej) as [Ht _].
  pose proof (depth_delete toolResultRuntimeNamespaceKey payload) as Hdd. apply mustJSON_ok; [by apply json_fields_delete|lia|done].
Qed.

Lemma namespace_shape result : Forall ok_part (rs_Content result) ->
  same_shape (rs_Content result) (rs_Content (fst (toolResultWithoutReservedNamespace result))).
Proof.
  cbn [toolResultWithoutReservedNamespace fst set_content rs_Content]. rewrite CloneParts_id, map_map. generalize (rs_Content result) as parts.
  induction 1 as [|part parts Ho Hos IH]; [by repeat split|]. cbn [map]. destruct (namespace_ok part Ho) as (H1&H2&H3). by apply shape_cons.
Qed.

(** *** The reference to the artifact *)

Definition path_ok (path : string) : Prop := trim_space path = path /\ utf8 path.

Lemma bool_value b : json_value (go_bool b).
Proof. destruct b; constructor; auto. Qed.

Lemma json_fields_one k v : utf8 k -> json_value v -> json_fields [(k, v)].
Proof. intros Hk Hv. apply (json_fields_set k v []); [done|done|apply json_fields_nil]. Qed.

Lemma metadata_json path collision : utf8 path -> json_fields (toolResultRuntimeArtifactMetadata path collision).
Proof.
  intros Hp. apply json_fields_one; [done|]. apply json_fields_value. apply json_fields_one; [done|]. apply json_fields_value.
  assert (Ha : json_fields (map_of [("path"%string, go_string path); ("model_visible_content_truncated"%string, go_bool true)])).
  { unfold map_of. cbn [foldl fst snd]. apply json_fields_set; [done|apply bool_value|]. apply json_fields_one; [done|by constructor]. }
  destruct collision; [|done]. apply json_fields_set; [done|apply bool_value|done].
Qed.

Lemma metadata_depth path collision : depth_of [(toolResultRuntimeNamespaceKey, go_object (toolResultRuntimeArtifactMetadata path collision))] = 3.
Proof. by destruct collision. Qed.

Lemma metadata_fit path collision : utf8 path -> fit_protected [(toolResultRuntimeNamespaceKey, go_object (toolResultRuntimeArtifactMetadata path collision))].
Proof.
  intros Hp. split; [|by rewrite metadata_depth]. apply Forall_singleton. split; [done|]. apply json_fields_value. by apply metadata_json.
Qed.

(** The object that a JSON part becomes. *)
Definition hinted (path : string) (collision : bool) (payload : GoValue) : list (string * GoValue) :=
  let runtimeMetadata := go_object (toolResultRuntimeArtifactMetadata path collision) in
  match payload with
  | Node NMap object => map_set toolResultRuntimeNamespaceKey runtimeMetadata object
  | _ => map_of [("result"%string, payload); (toolResultRuntimeNamespaceKey, runtimeMetadata)]
  end.

Lemma hinted_ok path collision raw payload : utf8 path -> Forall is_byte raw -> Unmarshal raw = Some payload ->
  (nesting payload < maxNestingDepth \/ exists items, payload = go_object items) ->
  json_fields (hinted path collision payload) /\ depth_of (hinted path collision payload) < maxNestingDepth.
Proof.
  intros Hp Hb Hu Hn. pose proof (Unmarshal_value _ _ Hb Hu) as Hv. pose proof (Unmarshal_nesting _ _ Hu) as Hnest.
  set (v := go_object (toolResultRuntimeArtifactMetadata path collision)).
  assert (Hm : json_value v) by (apply json_fields_value; by apply metadata_json).
  assert (Hmd : nesting v = 3) by (unfold v; by destruct collision).
  assert (Hset : forall items, json_fields items -> depth_of items < maxNestingDepth ->
    json_fields (map_set toolResultRuntimeNamespaceKey v items) /\ depth_of (map_set toolResultRuntimeNamespaceKey v items) < maxNestingDepth).
  { intros items Hi Hd. split; [by apply json_fields_set|]. pose proof (deepest_set toolResultRuntimeNamespaceKey v items) as Hds.
    unfold depth_of in *. unfold maxNestingDepth in *. lia. }
  destruct (match payload with Node NMap _ => true | _ => false end) eqn:Ek.
  - destruct payload as [k t|k items]; [done|]. destruct k; try done. apply (Hset items); [exact (proj2 (json_fields_value _) Hv)|].
    change (Node NMap items) with (go_object items) in Hnest. rewrite nesting_object in Hnest. unfold depth_of. lia.
  - assert (Hlow : nesting payload < maxNestingDepth) by (destruct Hn as [|[items ->]]; done).
    assert (Heq : hinted path collision payload = map_set toolResultRuntimeNamespaceKey v (result_entry payload)).
    { destruct payload as [k t|k items]; [done|]. by destruct k. }
    rewrite Heq. apply Hset; [by apply json_fields_one|by rewrite entry_depth].
Qed.

Lemma hint_part_json path collision part raw : part_text part = None -> part_json part = Some raw ->
  hint_part path collision part = (fun payload => (set_json (mustJSON (Some (hinted path collision payload))) part,
    [(toolResultRuntimeNamespaceKey, go_object (toolResultRuntimeArtifactMetadata path collision))])) <$> Unmarshal (bytes_of raw).
Proof.
  intros Ht Ej. unfold hint_part. rewrite Ht, Ej. destruct (Unmarshal (bytes_of raw)) as [payload|]; [|done]. cbn [mbind option_bind fmap option_fmap option_map].
  destruct payload as [k t|k items]; [done|]. by destruct k.
Qed.

Lemma first_index_split f parts i : first_index f parts = Some i ->
  exists pre part post, parts = pre ++ part :: post /\ length pre = i /\ Forall (fun p => f p = false) pre /\ f part = true.
Proof.
  revert i. induction parts as [|part parts IH]; intros i; [done|]. cbn [first_index]. destruct (f part) eqn:Ef.
  - intros [= <-]. by exists [], part, parts.
  - destruct (first_index f parts) as [j|] eqn:Ej; [|done]. intros [= <-]. destruct (IH j eq_refl) as (pre&p&post&->&<-&Hpre&Hp).
    exists (part :: pre), p, post. split; [done|]. split; [done|]. by split; [constructor|].
Qed.

Lemma replace_shape pre part part' post : Forall ok_part (pre ++ part :: post) -> is_content part = true -> is_content part' = true -> ok_part part' ->
  same_shape (pre ++ part :: post) (pre ++ part' :: post).
Proof.
  intros Ho Hc Hc' Hok. apply Forall_app in Ho as [Hpre Hpost]. apply Forall_cons in Hpost as [_ Hpost].
  induction Hpre as [|p pre Hp Hpre IH]; [|by apply shape_cons].
  cbn [app]. apply shape_cons; [done|by rewrite Hc|by rewrite Hc|by apply shape_refl].
Qed.

(** Skipping parts without JSON, the fields go into the first JSON object. *)
Lemma inject_at protected pre part post index raw items : Forall (fun p => has_json p = false) pre -> part_json part = Some raw ->
  Unmarshal_map (bytes_of raw) = Some (Some items) ->
  inject_fields index (pre ++ part :: post) protected =
    Some (pre ++ set_json (string_of (mustMarshalMap (Some (set_protected protected items)))) part :: post, index + Z.of_nat (length pre)).
Proof.
  intros Hpre Ej Eu. revert index. induction Hpre as [|p pre Hp Hpre IH]; intros index.
  - cbn [app inject_fields]. rewrite Ej, Eu. f_equal. f_equal. cbn. lia.
  - cbn [app inject_fields]. unfold has_json in Hp. destruct (part_json p); [done|]. rewrite IH. cbn [mbind option_bind].
    f_equal. f_equal. cbn [length]. lia.
Qed.

Lemma hint_part_text path collision part text : part_text part = Some text -> utf8 path -> utf8 (tp_Text text) ->
  exists t, hint_part path collision part = Some (set_text t part, []) /\ utf8 t.
Proof.
  intros Et Hp Ht. unfold hint_part. rewrite Et. eexists. split; [done|].
  apply utf8_app; [by destruct (String.eqb _ _); [|apply utf8_app]|]. by repeat apply utf8_app.
Qed.

(** What the reference makes of a result: sound parts, and fields that can be
    put in them. *)
Lemma hint_shape result path collision out protected : Forall ok_part (rs_Content result) -> path_ok path ->
  toolResultWithArtifactHint result path collision = Some (out, protected) ->
  same_shape (rs_Content result) (rs_Content out) /\ fit_protected protected /\
  (protected = [] \/ exists pre part post raw items, rs_Content out = pre ++ part :: post /\ Forall (fun p => has_json p = false) pre /\
     part_json part = Some raw /\ Unmarshal_map (bytes_of raw) = Some (Some items)).
Proof.
  intros Ho [Htrim Hutf]. unfold toolResultWithArtifactHint. rewrite Htrim, CloneParts_id. destruct (String.eqb path ""); [done|].
  destruct (hint_index (rs_Content result)) as [i|] eqn:Ei; [|done]. cbn [mbind option_bind].
  assert (Hsplit : exists pre part post, rs_Content result = pre ++ part :: post /\ length pre = i /\
    Forall (fun p => has_json p = false) pre /\ (has_json part = true \/ part_json part = None /\ has_text part = true)).
  { unfold hint_index in Ei. destruct (first_index has_json (rs_Content result)) as [j|] eqn:Ej.
    - injection Ei as <-. destruct (first_index_split _ _ _ Ej) as (pre&part&post&H1&H2&H3&H4). exists pre, part, post. auto.
    - destruct (first_index_split _ _ _ Ei) as (pre&part&post&H1&H2&H3&H4). exists pre, part, post. split; [done|]. split; [done|].
      assert (Hno : Forall (fun p => has_json p = false) (rs_Content result)).
      { clear - Ej. induction (rs_Content result) as [|p ps IH]; [constructor|]. cbn [first_index] in Ej. destruct (has_json p) eqn:E; [done|].
        constructor; [done|]. apply IH. by destruct (first_index has_json ps). }
      rewrite H1 in Hno. apply Forall_app in Hno as [Hpre Hpost]. apply Forall_cons in Hpost as [Hp _]. split; [done|]. right. split; [|done].
      unfold has_json in Hp. by destruct (part_json part). }
  destruct Hsplit as (pre&part&post&Hcontent&<-&Hpre&Hpart). rewrite Hcontent in *.
  rewrite list_lookup_middle by done. cbn [mbind option_bind]. intros E.
  assert (Hp : ok_part part) by (apply Forall_app in Ho as [_ Ho]; by apply Forall_cons in Ho as [Ho _]).
  destruct (hint_part path collision part) as [[part' prot]|] eqn:Eh; [|done]. cbn [mbind option_bind] in E. injection E as <- <-.
  cbn [set_content rs_Content]. rewrite insert_app_r_alt, Nat.sub_diag by done. cbn [insert list_insert].
  destruct (part_json part) as [raw|] eqn:Ej.
  - destruct (ok_reads _ _ Hp Ej) as [Ht (payload&Hu&Hn)]. rewrite (hint_part_json _ _ _ raw Ht Ej), Hu in Eh. cbn [fmap option_fmap option_map] in Eh.
    apply some_pair in Eh as [<- <-]. destruct (hinted_ok path collision (bytes_of raw) payload Hutf (bytes_of_bytes raw) Hu Hn) as [Hj Hd].
    split; [apply replace_shape; [done|exact (json_content _ _ Ej)|apply set_json_content|by apply mustJSON_ok]|].
    split; [by apply metadata_fit|]. right. exists pre, (set_json (mustJSON (Some (hinted path collision payload))) part), post, (mustJSON (Some (hinted path collision payload))), (hinted path collision payload).
    split; [done|]. split; [done|]. split; [by destruct part|]. unfold Unmarshal_map. by rewrite (mustJSON_reads _ Hj Hd).
  - destruct Hpart as [Hpart|[_ Ht]]; [unfold has_json in Hpart; by rewrite Ej in Hpart|]. unfold has_text in Ht.
    destruct (part_text part) as [text|] eqn:Et; [|done]. assert (Hv : utf8 (tp_Text text)) by (unfold ok_part in Hp; by rewrite Ej, Et in Hp).
    destruct (hint_part_text path collision part text Et Hutf Hv) as (t&E&Ht8). rewrite E in Eh. injection Eh as <- <-.
    split; [|split; [by split; [constructor|]|by left]].
    apply replace_shape; [done|unfold is_content; by rewrite Et|by apply (text_content _ _ text)|].
    unfold ok_part. destruct (set_text_parts part t text Et) as [Ej' ->]. by rewrite Ej', Ej.
Qed.

Lemma first_index_some f parts : existsb f parts = true -> exists i, first_index f parts = Some i.
Proof.
  induction parts as [|p parts IH]; [done|]. cbn [existsb first_index]. destruct (f p); [by exists O|]. cbn [orb].
  intros H'. destruct (IH H') as (i&->). by exists (S i).
Qed.

Lemma hint_json result path collision : Forall ok_part (rs_Content result) -> existsb has_json (rs_Content result) = true -> path_ok path -> path <> ""%string ->
  exists out, toolResultWithArtifactHint result path collision =
    Some (out, [(toolResultRuntimeNamespaceKey, go_object (toolResultRuntimeArtifactMetadata path collision))]).
Proof.
  intros Ho Hj [Htrim _] Hne. unfold toolResultWithArtifactHint. rewrite Htrim, CloneParts_id, (proj2 (String.eqb_neq path "") Hne). unfold hint_index.
  destruct (first_index_some _ _ Hj) as (i&Ei). rewrite Ei. cbn [mbind option_bind].
  destruct (first_index_split _ _ _ Ei) as (pre&part&post&E&<-&_&Hp). rewrite E in *. rewrite list_lookup_middle by done. cbn [mbind option_bind].
  assert (Hok : ok_part part) by (apply Forall_app in Ho as [_ Ho]; by apply Forall_cons in Ho as [Ho _]).
  unfold has_json in Hp. destruct (part_json part) as [raw|] eqn:Er; [|done]. destruct (ok_reads _ _ Hok Er) as [Ht (v&Hu&_)].
  rewrite (hint_part_json _ _ _ raw Ht Er), Hu. cbn [fmap option_fmap option_map mbind option_bind]. by eexists.
Qed.

(** ** The canonical result *)

Lemma parts_some parts policy protected : 0 < tokenBudget policy ->
  injectProtectedJSONFields parts protected <> None -> truncatePartsWithProtectedJSONFields parts policy protected <> None.
Proof.
  intros Hb Hi. unfold truncatePartsWithProtectedJSONFields. rewrite (proj2 (Z.leb_gt _ 0)) by lia.
  destruct (injectProtectedJSONFields parts protected) as [[prepared pp]|]; [|done]. cbn [mbind option_bind].
  destruct (_ <=? _); [done|]. by destruct (parts_loop _ _ _ _ _ _ _).
Qed.

(** What a result and its bounded form share. *)
Definition same_call (a b : Result) : Prop :=
  rs_ID a = rs_ID b /\ rs_IsError a = rs_IsError b /\ rs_Metadata a = rs_Metadata b /\ rs_TurnComplete a = rs_TurnComplete b.

(** Sound content within the default budget, with the media of [parts]. *)
Definition canonical_content (parts out : list Part) : Prop :=
  Forall ok_part out /\ content_cost out <= tokenBudget DefaultTruncationPolicy /\ (parts <> [] -> media out = media parts) /\
  (parts = [] \/ existsb is_content parts = true /\ estimateTokensForParts (media parts) = 0 -> existsb is_content out = true).

Lemma bound_result result protected : Forall ok_part (rs_Content result) -> fit_protected protected ->
  injectProtectedJSONFields (rs_Content result) protected <> None ->
  exists out info, TruncateResultWithInfoAndProtectedJSONFields result DefaultTruncationPolicy protected = Some (out, info) /\
    same_call out result /\ canonical_content (rs_Content result) (rs_Content out).
Proof.
  intros Ho Hf Hi. unfold TruncateResultWithInfoAndProtectedJSONFields, truncateResultWithInfo. rewrite CloneParts_id.
  change (tokenBudget DefaultTruncationPolicy <=? 0) with false. cbv iota.
  destruct (rs_Content result) as [|part parts] eqn:Ec.
  - eexists _, _. split; [done|]. split; [done|].
    assert (Hm : json_fields (if rs_IsError result then tool_call_failed else [])).
    { destruct (rs_IsError result); [by apply json_fields_one; [|constructor]|apply json_fields_nil]. }
    cbn [set_content rs_Content]. split; [|split; [|split; [done|done]]].
    + apply Forall_singleton. unfold ok_part. cbn [part_json NewJSONPart part_head ph_JSON part_text ph_Text]. split; [done|].
      assert (Hd : depth_of (if rs_IsError result then tool_call_failed else []) < maxNestingDepth) by (by destruct (rs_IsError result)).
      destruct (mustMarshal_reads (Some (if rs_IsError result then tool_call_failed else [])) Hm) as [Hr Hb]; [by intros items [= <-]|].
      by rewrite bytes_of_string.
    + by destruct (rs_IsError result).
  - pose proof (parts_some (part :: parts) DefaultTruncationPolicy protected ltac:(done) Hi) as Hs.
    destruct (truncatePartsWithProtectedJSONFields (part :: parts) DefaultTruncationPolicy protected) as [[out info]|] eqn:Et; [|done].
    cbn [mbind option_bind]. eexists _, info. split; [done|]. split; [done|]. cbn [set_content rs_Content].
    destruct (truncate_parts_ok (part :: parts) DefaultTruncationPolicy protected out info ltac:(done) Hf Ho Et) as (H1&H2&H3&H4).
    split; [done|]. split; [done|]. split; [done|]. intros [?|[Hx Hz]]; [done|]. apply H4; [done|]. rewrite Hz. by vm_compute.
Qed.

Lemma same_shape_media_nil a b : same_shape a b -> b = [] -> a = [].
Proof.
  intros (_&Hm&Hc) ->. destruct a as [|p a]; [done|]. rewrite media_cons in Hm. cbn [existsb] in Hc. destruct (is_content p); [done|].
  by destruct (media a).
Qed.

Lemma shape_content parts prepared out : same_shape parts prepared -> canonical_content prepared out -> canonical_content parts out.
Proof.
  intros Hsame (H1&H2&H3&H4). pose proof Hsame as (_&Hm&Hc). split; [done|]. split; [done|]. split.
  - intros Hne. rewrite H3, Hm; [done|]. intros ->. apply Hne. by apply (same_shape_media_nil _ []).
  - intros [->|[Hx Hz]]; apply H4; [|right; by rewrite Hc, Hm].
    destruct prepared as [|p ps]; [by left|]. rewrite media_cons in Hm. cbn [existsb] in Hc. by destruct (is_content p).
Qed.

(** The store returns paths of text. *)
Definition store_ok (artifacts : option (Result -> option string)) : Prop :=
  forall write result path, artifacts = Some write -> write result = Some path -> path_ok path.

Lemma canonical_ok result artifacts : Forall ok_part (rs_Content result) -> store_ok artifacts ->
  exists canonical info collision removed,
    canonicalToolResult result artifacts = Some (canonical, mergeEventMeta [toolTruncationEventMeta info; toolReservedNamespaceCollisionEventMeta collision], removed) /\
    same_call canonical result /\ canonical_content (rs_Content result) (rs_Content canonical).
Proof.
  intros Ho Hstore. unfold canonicalToolResult. pose proof (namespace_shape result Ho) as Hns.
  assert (Hcall : same_call (fst (toolResultWithoutReservedNamespace result)) result) by done.
  destruct (toolResultWithoutReservedNamespace result) as [clean collision]. cbn [fst] in *.
  assert (Hbound : forall prepared protected, same_shape (rs_Content clean) (rs_Content prepared) -> same_call prepared clean -> fit_protected protected ->
    injectProtectedJSONFields (rs_Content prepared) protected <> None -> forall removed : option string,
    exists canonical info collision' removed', ('(canonical, info) ← TruncateResultWithInfoAndProtectedJSONFields prepared DefaultTruncationPolicy protected;
      Some (canonical, mergeEventMeta [toolTruncationEventMeta info; toolReservedNamespaceCollisionEventMeta collision], removed)) = Some (canonical, mergeEventMeta [toolTruncationEventMeta info; toolReservedNamespaceCollisionEventMeta collision'], removed') /\
      same_call canonical result /\ canonical_content (rs_Content result) (rs_Content canonical)).
  { intros prepared protected Hshape Hsc Hf Hi removed. destruct (bound_result prepared protected (proj1 Hshape) Hf Hi) as (out&info&E&Hs&Hc). rewrite E. cbn [mbind option_bind].
    eexists _, _, _, _. split; [done|]. split; [|by apply (shape_content _ _ _ (shape_trans _ _ _ Hns Hshape))].
    unfold same_call in *. intuition congruence. }
  assert (Hplain : forall removed : option string, exists canonical info collision' removed', ('(canonical, info) ← TruncateResultWithInfoAndProtectedJSONFields clean DefaultTruncationPolicy [];
      Some (canonical, mergeEventMeta [toolTruncationEventMeta info; toolReservedNamespaceCollisionEventMeta collision], removed)) = Some (canonical, mergeEventMeta [toolTruncationEventMeta info; toolReservedNamespaceCollisionEventMeta collision'], removed') /\
      same_call canonical result /\ canonical_content (rs_Content result) (rs_Content canonical)).
  { apply Hbound; [by apply shape_refl; destruct Hns|done|by split; [constructor|]|done]. }
  destruct (match artifacts with Some write => _ | None => None end) as [path|] eqn:Ew; [|apply Hplain].
  assert (Hp : path_ok path).
  { destruct artifacts as [write|]; [|done]. destruct (ResultNeedsTruncation _ _); [|done]. by apply (Hstore write result path). }
  destruct (toolResultWithArtifactHint clean path collision) as [[hintedResult protected]|] eqn:Eh; [|apply Hplain].
  destruct (hint_shape clean path collision hintedResult protected (proj1 Hns) Hp Eh) as (Hsh&Hf&Hin).
  apply Hbound; [done| |done|].
  - unfold toolResultWithArtifactHint in Eh. destruct (String.eqb _ _); [done|]. destruct (hint_index _); [|done]. cbn [mbind option_bind] in Eh.
    destruct (_ !! _); [|done]. cbn [mbind option_bind] in Eh. destruct (hint_part _ _ _) as [[hp hq]|]; [|done]. injection Eh as <- _. done.
  - destruct Hin as [->|(pre&part&post&raw&items&->&Hpre&Ej&Eu)]; [done|]. unfold injectProtectedJSONFields. rewrite CloneParts_id.
    destruct protected; [done|]. by rewrite (inject_at _ _ _ _ _ raw items).
Qed.

(** ** The output of a canonical result *)

(** An output that validation accepts. *)
Definition fit_output (out : list (string * GoValue)) : Prop :=
  json_fields out /\ depth_of out < maxNestingDepth /\ estimateTokensForJSONValue (go_object out) <= tokenBudget DefaultTruncationPolicy.

(** The object that decoded JSON stands for. *)
Definition output_of (v : GoValue) : list (string * GoValue) := match v with Node NMap payload => payload | _ => result_entry v end.

Lemma json_cost_output raw v : Unmarshal raw = Some v -> estimateTokensForJSONValue (go_object (output_of v)) <= json_cost raw.
Proof.
  intros Hu. unfold json_cost. rewrite Hu. assert (E : go_object (output_of v) = match v with Node NMap _ => v | _ => go_object [("result"%string, v)] end).
  { destruct v as [k t|k items]; [done|]. by destruct k. }
  rewrite E. lia.
Qed.

Lemma output_of_fit raw v : Forall is_byte raw -> Unmarshal raw = Some v ->
  (nesting v < maxNestingDepth \/ exists items, v = go_object items) -> json_cost raw <= tokenBudget DefaultTruncationPolicy -> fit_output (output_of v).
Proof.
  intros Hb Hu Hn Hc. pose proof (Unmarshal_value _ _ Hb Hu) as Hv. pose proof (Unmarshal_nesting _ _ Hu) as Hnest.
  pose proof (json_cost_output raw v Hu) as Hcost. split; [|split; [|lia]].
  - destruct v as [k t|k items]; [by apply json_fields_one|]. destruct k; try by apply json_fields_one.
    exact (proj2 (json_fields_value _) Hv).
  - assert (Hlow : (forall items, v <> go_object items) -> output_of v = result_entry v -> depth_of (output_of v) < maxNestingDepth).
    { intros Hno ->. rewrite entry_depth. destruct Hn as [|[items ->]]; [done|]. by destruct (Hno items). }
    destruct v as [k t|k items]; [by apply Hlow|]. destruct k; try by apply Hlow.
    change (Node NMap items) with (go_object items) in Hnest. rewrite nesting_object in Hnest. unfold depth_of. cbn [output_of]. lia.
Qed.

Lemma content_member part parts : part ∈ parts -> is_content part = true -> estimate_part part <= content_cost parts.
Proof.
  intros Hin Hc. induction parts as [|p parts IH]; [by apply not_elem_of_nil in Hin|]. rewrite content_cons. pose proof (content_nonneg parts) as Hn.
  apply elem_of_cons in Hin as [->|Hin]; [rewrite Hc; lia|]. specialize (IH Hin). pose proof (estimate_part_nonneg p). destruct (is_content p); lia.
Qed.

(** The first JSON part of sound parts. *)
Lemma first_json parts raw rest : Forall ok_part parts -> omap nonempty_json parts = raw :: rest ->
  exists part, part ∈ parts /\ part_json part = Some raw /\ part_text part = None /\ reads (bytes_of raw) /\
    List.find (fun p => match ph_JSON (part_head p) with Some raw => negb (String.eqb raw "") | None => false end) parts = Some part.
Proof.
  induction 1 as [|p parts Hp Hps IH]; [done|]. cbn [omap list_omap List.find]. unfold nonempty_json at 1. change (ph_JSON (part_head p)) with (part_json p).
  destruct (part_json p) as [r|] eqn:Ej.
  - destruct (String.eqb r "") eqn:Er; cbn [negb].
    + intros E. destruct (IH E) as (part&Hin&H2&H3&H4&H5). exists part. split; [by apply elem_of_cons; right|done].
    + intros [= <- <-]. exists p. destruct (ok_reads _ _ Hp Ej) as [Ht Hr]. split; [by apply elem_of_cons; left|done].
  - intros E. destruct (IH E) as (part&Hin&H2&H3&H4&H5). exists part. split; [by apply elem_of_cons; right|done].
Qed.

(** Without JSON parts the content is text. *)
Lemma no_json parts : Forall ok_part parts -> omap nonempty_json parts = [] ->
  let texts := omap (fun p => tp_Text <$> part_text p) parts in
  Forall utf8 texts /\ sum (map (fun t => text_cost (bytes_of t)) texts) = content_cost parts /\
  (existsb is_content parts = true -> texts <> []) /\
  List.find (fun p => match ph_JSON (part_head p) with Some raw => negb (String.eqb raw "") | None => false end) parts = None.
Proof.
  induction 1 as [|p parts Hp Hps IH]; [done|]. cbn [omap list_omap List.find existsb]. unfold nonempty_json at 1. change (ph_JSON (part_head p)) with (part_json p).
  rewrite content_cons. destruct (part_json p) as [r|] eqn:Ej.
  - destruct (String.eqb_spec r ""); [|done]. destruct (ok_reads _ _ Hp Ej) as [_ (v&Hu&_)]. subst r. by vm_compute in Hu.
  - intros E. destruct (IH E) as (H1&H2&H3&H4). unfold ok_part in Hp. rewrite Ej in Hp. unfold is_content. rewrite Ej.
    destruct (part_text p) as [text|] eqn:Et; cbn [fmap option_fmap option_map]; [|by rewrite H2].
    split; [by constructor|]. cbn [map]. unfold sum in *. cbn [foldr]. rewrite H2. split; [|done]. f_equal.
    destruct p as [h r c]. unfold part_text in Et. cbn in *. by rewrite Et.
Qed.

Lemma raw_output_fit result : Forall ok_part (rs_Content result) -> content_cost (rs_Content result) <= tokenBudget DefaultTruncationPolicy ->
  fit_output (toolResultRawOutput result).
Proof.
  intros Ho Hc. unfold toolResultRawOutput. destruct (omap nonempty_json (rs_Content result)) as [|raw rest] eqn:Ej.
  - destruct (no_json _ Ho Ej) as (Hu&Hs&_&_). destruct (omap (fun p => tp_Text <$> part_text p) (rs_Content result)) as [|t ts].
    + destruct (rs_IsError result); [|by split; [apply json_fields_nil|]]. split; [by apply json_fields_one; [|constructor]|by split].
    + pose proof (join_cost (t :: ts) Hu ltac:(done)) as Hjc. set (joined := String.concat newline (t :: ts)) in *.
      split; [apply json_fields_one; [done|]; constructor; by apply join_utf8|]. split; [done|].
      unfold text_cost at 1 in Hjc. unfold result_object in Hjc. rewrite string_of_bytes in Hjc. lia.
  - destruct (first_json _ _ _ Ho Ej) as (part&Hin&Hj&Ht&(v&Hu&Hn)&_). rewrite Hu.
    pose proof (content_member _ _ Hin (json_content _ _ Hj)) as Hm. rewrite (estimate_json _ _ Hj Ht) in Hm.
    pose proof (output_of_fit _ v (bytes_of_bytes raw) Hu Hn ltac:(lia)) as Hf. destruct v as [k t|k items]; [exact Hf|]. by destruct k.
Qed.

(** *** Validation accepts it *)

Lemma fit_valid marshal_error out : fit_output out -> validateDurableCoreRawOutput marshal_error (Some out) = None.
Proof.
  intros (Hj&Hd&Hc). unfold validateDurableCoreRawOutput, Marshal_map. pose proof Hj as Hv. apply json_fields_value in Hv.
  destruct (Marshal_total _ Hv) as (d&->&_). unfold TruncateMap, truncateMapWithProtectedJSONFields.
  change (tokenBudget DefaultTruncationPolicy <=? 0) with false. cbv iota. cbn [set_protected foldl].
  by rewrite (proj2 (Z.leb_le _ _) Hc).
Qed.

Lemma fit_same out : fit_output out -> sameCanonicalJSON (Some out) (Some out) = true.
Proof.
  intros (Hj&Hd&_). unfold sameCanonicalJSON, canonicalJSONBytes, Marshal_map. apply json_fields_value in Hj.
  destruct (json_read_back (go_object out) Hj) as (d&E&Hr); [rewrite nesting_object; unfold depth_of in Hd; lia|].
  rewrite E. cbn [mbind option_bind]. rewrite Hr. cbn [mbind option_bind]. rewrite E. by apply bool_decide_eq_true.
Qed.
End Result.
