(* ===== verification/ToolProps.v ===== *)
(** * Properties of tool results

    The metadata, the message and the output of the event that a tool call
    leaves in the session satisfy what the session demands of durable tool
    results; then the claims about bounding a tool result and recording it, on
    a concrete instance of the JSON interface for their witnesses. *)

From Stdlib Require Import ZArith Lia Ascii String.
From stdpp Require Import base option strings list sets gmap.
From S2P Require Import Prelude GoStrings GoText Fence Execution Utf8Stream Runes GoValues GoJson GoJsonFacts TruncateText TruncateTextFacts ApprovalSubject Payload Events SessionCodec SessionPlatform Truncate TruncateFacts TruncateFuel TruncateParts TruncateLoop TruncateKeep ToolResult McpCall ToolResultFacts.

Local Open Scope list_scope.
Local Open Scope Z_scope.

(** ** Metadata *)

(** A map without a key. *)
Definition lacks (key : string) (m : GoMap) : Prop := map_index m key = None.

Lemma lacks_items key items : lacks key (Some items) <-> assoc key items = None.
Proof. done. Qed.

Lemma merge_lacks key out items : assoc key out = None -> assoc key items = None -> assoc key (merge_items out items) = None.
Proof.
  unfold merge_items. revert out. induction items as [|[k v] items IH]; intros out Ho Hi; [done|]. cbn [foldl fst snd].
  cbn [assoc] in Hi. destruct (String.eqb_spec k key) as [|Hne]; [done|]. apply IH; [|done].
  rewrite assoc_map_set. by rewrite (proj2 (String.eqb_neq k key)).
Qed.

Lemma merge_meta_lacks key parts : Forall (lacks key) parts -> lacks key (mergeEventMeta parts).
Proof.
  intros Hp. unfold mergeEventMeta. assert (H : forall out, assoc key out = None -> assoc key (foldl (fun out part => merge_items out (default [] part)) out parts) = None).
  { induction Hp as [|m parts Hm Hps IH]; intros out Ho; [done|]. cbn [foldl]. apply IH. apply merge_lacks; [done|]. by destruct m. }
  specialize (H [] eq_refl). by destruct (foldl _ _ _).
Qed.

Lemma update_lacks key k f items : String.eqb k key = false -> assoc key items = None -> assoc key (update_map k f items) = None.
Proof.
  intros Hk Hi. unfold update_map. destruct (assoc k items) as [v|]; [|done]. destruct v as [kd t|kd its]; [done|]. destruct kd; try done.
  by rewrite assoc_map_set, Hk.
Qed.

Lemma authority_lacks key trusted meta : String.eqb "caelis" key = false -> lacks key meta -> lacks key (withoutUntrustedRuntimeTaskAuthority trusted meta).
Proof. intros Hk. destruct meta as [items|]; [|done]. cbn. intros Hi. by apply update_lacks. Qed.

Lemma delete_lacks key k meta : lacks key meta -> lacks key (map_delete k <$> meta).
Proof. destruct meta as [items|]; [|done]. intros Hi. unfold lacks in *. cbn in *. rewrite assoc_map_delete. by destruct (String.eqb k key). Qed.

(** The keys that event metadata may not have. *)
Definition output_fields : list string := ["stdout"; "stderr"; "result"; "error"; "exit_code"]%string.

Definition clean_meta (meta : GoMap) : Prop := Forall (fun key => lacks key meta) output_fields.

Lemma clean_valid meta : clean_meta meta -> validateDurableCoreMeta meta = Ok tt.
Proof.
  unfold clean_meta, output_fields, lacks. rewrite !Forall_cons. intros (H1&H2&H3&H4&H5&_). unfold validateDurableCoreMeta.
  cbn [List.find]. by rewrite H1, H2, H3, H4, H5.
Qed.

Lemma clean_merge parts : Forall clean_meta parts -> clean_meta (mergeEventMeta parts).
Proof.
  intros Hp. apply Forall_forall. intros key Hk. apply merge_meta_lacks. eapply Forall_impl; [exact Hp|]. intros m Hm. by apply (proj1 (Forall_forall _ _) Hm).
Qed.

Lemma clean_caelis v : clean_meta (Some [("caelis"%string, v)]).
Proof. repeat constructor. Qed.

Lemma clean_none : clean_meta None.
Proof. repeat constructor. Qed.

Lemma clean_runtime section : clean_meta (Some (caelis_runtime section)).
Proof. apply clean_caelis. Qed.

Lemma clean_tool name : clean_meta (toolMeta name).
Proof. unfold toolMeta. destruct (String.eqb _ _); [apply clean_none|apply clean_runtime]. Qed.

Lemma clean_truncation info collision :
  clean_meta (mergeEventMeta [toolTruncationEventMeta info; toolReservedNamespaceCollisionEventMeta collision]).
Proof.
  apply clean_merge. constructor; [|constructor; [|constructor]].
  - unfold toolTruncationEventMeta. destruct (TruncationMetadata info) as [[|]|]; [apply clean_none|apply clean_runtime|apply clean_none].
  - unfold toolReservedNamespaceCollisionEventMeta. destruct collision; [apply clean_runtime|apply clean_none].
Qed.

Lemma clean_result_meta trusted meta : clean_meta meta ->
  clean_meta (withoutUntrustedRuntimeTaskAuthority trusted (map_delete MetadataExecutionJournal <$> meta)).
Proof.
  intros Hm. apply Forall_forall. intros key Hk. apply authority_lacks.
  - unfold output_fields in Hk. rewrite !elem_of_cons in Hk. by destruct Hk as [->|[->|[->|[->|[->|Hk]]]]]; [..|apply not_elem_of_nil in Hk].
  - apply delete_lacks. by apply (proj1 (Forall_forall _ _) Hm).
Qed.

(** ** The message *)

Section Message.
Context `{JL : JsonLaws}.
Variable marshal_error : GoValue -> string.
Context `{P : Platform} `{JP : !JsonPlatform marshal_error P}.

Lemma payload_matches result : Forall ok_part (rs_Content result) -> existsb is_content (rs_Content result) = true ->
  toolMessageOutputPayload (rs_Content result) = Ok (Some (toolResultRawOutput result)).
Proof.
  intros Ho Hc. unfold toolMessageOutputPayload, toolResultRawOutput.
  destruct (omap nonempty_json (rs_Content result)) as [|raw rest] eqn:Ej.
  - destruct (no_json _ Ho Ej) as (_&_&Ht&Hf). rewrite Hf. specialize (Ht Hc). change (fun p => tp_Text <$> ph_Text (part_head p)) with (fun p => tp_Text <$> part_text p).
    by destruct (omap (fun p => tp_Text <$> part_text p) (rs_Content result)).
  - destruct (first_json _ _ _ Ho Ej) as (part&_&Hj&_&(v&Hu&_)&Hf). rewrite Hf. change (ph_JSON (part_head part)) with (part_json part). rewrite Hj.
    cbn [default from_option id]. rewrite (platform_decode marshal_error), Hu. destruct v as [k t|k items]; [done|]. by destruct k.
Qed.

(** Without content there is no output, unless the tool failed. *)
Lemma no_content_output result : existsb is_content (rs_Content result) = false ->
  toolResultRawOutput result = if rs_IsError result then tool_call_failed else [].
Proof.
  intros Hc. unfold toolResultRawOutput.
  assert (H' : omap nonempty_json (rs_Content result) = [] /\ omap (fun p => tp_Text <$> part_text p) (rs_Content result) = []).
  { induction (rs_Content result) as [|p ps IH]; [done|]. cbn [existsb] in Hc. apply orb_false_iff in Hc as [Hp Hps]. destruct (IH Hps) as [H1 H2].
    unfold is_content in Hp. cbn [omap list_omap]. unfold nonempty_json at 1. destruct (part_text p); [done|]. by destruct (part_json p). }
  destruct H' as [-> ->]. done.
Qed.

Definition event_tool (call : ToolCall) (result : Result) (status : string) (complete : bool) : EventTool :=
  MkTool None (trim_space (tc_ID call)) complete (trim_space (tc_Name call)) "" "" status (mustObject (tc_Args call)) (Some (toolResultRawOutput result)) [] [].

(** An event tool that says the output of a call: it has the identity of the
    call, its own name or, for a routed call, that of the envelope. *)
Definition tool_of (call : ToolCall) (result : Result) (t : EventTool) : Prop :=
  et_ID t = trim_space (tc_ID call) /\ et_Output t = Some (toolResultRawOutput result) /\ validateRoutedModelCall t = Ok tt /\
  trim_space (match et_ModelCall t with Some c => tc_Name c | None => et_Name t end) = trim_space (tc_Name call).

Lemma event_tool_of call result status complete : tool_of call result (event_tool call result status complete).
Proof. split; [done|]. split; [done|]. split; [done|]. apply trim_space_idem. Qed.

(** The message names the call of its event: what remains is to compare outputs. *)
Lemma message_check call result t : tool_of call result t -> rs_Content result <> [] -> empty_map (Some (toolResultRawOutput result)) = false ->
  validateDurableCoreToolMessageOutput t (Some (toolResultMessageFromCanonical call result)) =
    match toolMessageOutputPayload (rs_Content result) with
    | Fail detail => coreEventValidationError detail
    | Ok payload =>
      if empty_map payload then coreEventValidationError "tool message result is missing payload" else
      if negb (json_equal (Some (toolResultRawOutput result)) payload)
      then coreEventValidationError "tool message result diverges from durable Event.Tool output" else Ok tt
    end.
Proof.
  intros (Hid&Hout&Hroute&Hname) Hne Eo. unfold validateDurableCoreToolMessageOutput. rewrite Hout, Eo.
  unfold ToolResults, toolResultMessageFromCanonical. rewrite CloneParts_id. cbn [m_Parts omap list_omap part_result].
  cbn [fst tr_ToolUseID List.find]. rewrite Hid, trim_space_idem, String.eqb_refl.
  rewrite (bool_decide_eq_false_2 ([] <> [])) by naive_solver. rewrite andb_false_r.
  replace ((trim_space (tc_ID call) =? "")%string && negb (trim_space (tc_ID call) =? "")%string) with false by (by destruct (trim_space (tc_ID call) =? "")%string).
  replace (match et_ModelCall t with Some _ => validateRoutedModelCall t | None => Ok tt end) with (@Ok SessionError unit tt)
    by (destruct (et_ModelCall t); by rewrite ?Hroute).
  cbn [result_bind tr_Name]. rewrite Hname, trim_space_idem, String.eqb_refl, andb_false_r. by destruct (rs_Content result).
Qed.

Lemma message_valid call result t : tool_of call result t -> Forall ok_part (rs_Content result) ->
  content_cost (rs_Content result) <= tokenBudget DefaultTruncationPolicy ->
  (rs_IsError result = true -> existsb is_content (rs_Content result) = true) ->
  validateDurableCoreToolMessageOutput t (Some (toolResultMessageFromCanonical call result)) = Ok tt.
Proof.
  intros Ht Ho Hcost He. destruct (empty_map (Some (toolResultRawOutput result))) eqn:Eo.
  { unfold validateDurableCoreToolMessageOutput. by rewrite (proj1 (proj2 Ht)), Eo. }
  assert (Hc : existsb is_content (rs_Content result) = true).
  { destruct (existsb is_content (rs_Content result)) eqn:E; [done|]. rewrite (no_content_output result E) in Eo.
    destruct (rs_IsError result); [by apply He|done]. }
  rewrite (message_check call result) by (done || by intros E; rewrite E in Hc). rewrite payload_matches, Eo by done.
  by rewrite (platform_equal marshal_error), fit_same by (by apply raw_output_fit).
Qed.

(** Media alone says nothing to the model. *)
Lemma message_refused call result t : tool_of call result t -> rs_Content result <> [] -> existsb is_content (rs_Content result) = false -> rs_IsError result = true ->
  validateDurableCoreToolMessageOutput t (Some (toolResultMessageFromCanonical call result)) =
    coreEventValidationError "tool message result is missing payload".
Proof.
  intros Ht Hne Hc He. rewrite (message_check call result); [|done|done|by rewrite (no_content_output _ Hc), He]. unfold toolMessageOutputPayload.
  assert (H' : List.find (fun p => match ph_JSON (part_head p) with Some raw => negb (raw =? "")%string | None => false end) (rs_Content result) = None /\
    omap (fun p => tp_Text <$> ph_Text (part_head p)) (rs_Content result) = []).
  { clear Hne. induction (rs_Content result) as [|p ps IH]; [done|]. cbn [existsb] in Hc. apply orb_false_iff in Hc as [Hp Hps]. destruct (IH Hps) as [H1 H2].
    unfold is_content, part_text, part_json in Hp. cbn [List.find omap list_omap]. destruct (ph_Text (part_head p)); [done|]. by destruct (ph_JSON (part_head p)). }
  by destruct H' as [-> ->].
Qed.
End Message.

(** ** A concrete JSON interface *)

(** Natural numbers of at most 15 digits are the text of their float64. *)
Definition natural_text (t : list Z) : option (list Z) :=
  if bool_decide (number t = Some (t, [])) && forallb is_digit t && (length t <=? 15)%nat then Some t else None.

#[local] Instance natural_json : Json := { float_text := natural_text; other_json _ := None; Sprint _ := [] }.

Lemma natural_text_same t u : natural_text t = Some u -> u = t /\ number t = Some (t, []) /\ forallb is_digit t = true.
Proof.
  unfold natural_text. destruct (bool_decide_reflect (number t = Some (t, []))) as [Hn|]; [|done].
  destruct (forallb is_digit t); [|done]. destruct (_ <=? _)%nat; [|done]. by intros [= <-].
Qed.

#[local] Instance natural_laws : JsonLaws.
Proof.
  split.
  - intros t u H. by destruct (natural_text_same t u H) as (->&?&_).
  - intros t u H. destruct (natural_text_same t u H) as (->&_&Hd). apply Forall_forall. intros b Hb.
    rewrite forallb_forall in Hd. apply list_elem_of_In in Hb. specialize (Hd b Hb). unfold is_digit in Hd. unfold is_byte. lia.
  - intros t u H. by destruct (natural_text_same t u H) as (->&_&_).
  - done.
Qed.

(** Two envelopes of the tool [mcp_read], with a natural number and with a number
    that is no float64. *)
Definition envelope_text (arguments : list Z) : string :=
  string_of (123 :: commas [member "tool_name" (quote (bytes_of "mcp_read")); member "arguments" arguments] ++ [125]).
Definition small_argument : list Z := object [member "line" (bytes_of "7")].
Definition large_argument : list Z := object [member "line" (bytes_of "1e999")].

Definition sample_envelope (raw : string) : option (string * string * bool) :=
  if String.eqb raw (envelope_text small_argument) then Some ("mcp_read"%string, string_of small_argument, true) else
  if String.eqb raw (envelope_text large_argument) then Some ("mcp_read"%string, string_of large_argument, true) else None.

(** The platform of the session package with this JSON. *)
#[local] Instance natural_platform : Platform := {
  to_lower := @to_lower ascii_platform;
  equal_fold := @equal_fold ascii_platform;
  sha256_hex := @sha256_hex ascii_platform;
  json_strings := @json_strings ascii_platform;
  json_decode raw := Unmarshal (bytes_of raw);
  json_equal := sameCanonicalJSON;
  json_problem := @json_problem ascii_platform;
  journal_problem := @journal_problem ascii_platform;
  marshal_problem := @marshal_problem ascii_platform;
  json_event := @json_event ascii_platform;
  json_digest_input := @json_digest_input ascii_platform;
  receipt_media_ref := @receipt_media_ref ascii_platform;
  mcp_envelope := sample_envelope;
  input_object := mustObject;
  output_problem := validateDurableCoreRawOutput (fun _ => ""%string);
  has_usage := @has_usage ascii_platform;
}.

#[local] Instance natural_json_platform : JsonPlatform (fun _ => ""%string) natural_platform.
Proof.
  split; try done.
  intros raw name arguments one. cbn [mcp_envelope natural_platform]. unfold sample_envelope.
  destruct (String.eqb _ _); [|destruct (String.eqb _ _); [|done]]; intros [= <- <- <-]; right; split; by vm_compute.
Qed.

(** ** Tool calls and their events *)

Section Recorded.
Context `{JL : JsonLaws}.
Variable marshal_error : GoValue -> string.
Context `{P : Platform} `{JP : !JsonPlatform marshal_error P}.

(** A result as tools make it: parts of JSON or UTF-8 text, media without
    nested results, and a failure says something. *)
Definition sound_result (result : Result) : Prop :=
  Forall ok_part (rs_Content result) /\ Forall (fun p => part_result p = None) (rs_Content result) /\
  (rs_IsError result = true -> rs_Content result = [] \/ existsb is_content (rs_Content result) = true) /\
  clean_meta (rs_Metadata result).

Lemma flat_media parts : Forall (fun p => part_result p = None) parts -> estimateTokensForParts (media parts) = 0.
Proof.
  induction 1 as [|p parts Hp Hps IH]; [done|]. rewrite media_cons. destruct (is_content p) eqn:E; [done|]. rewrite estimate_cons, IH.
  destruct p as [h [r|] c]; [done|]. unfold is_content, part_text, part_json in E. cbn in E |- *. destruct (ph_Text h), (ph_JSON h); done.
Qed.

(** The calls of one response: their identities differ after trimming
    ([validateAssistantToolCalls]), and the arguments of an envelope are JSON that
    can be compared, which numbers beyond float64 are not. *)
Definition sound_calls (calls : list ToolCall) : Prop :=
  NoDup (map (fun call => trim_space (tc_ID call)) calls) /\
  forall call actual, call ∈ calls -> tc_Name call = MCPCallToolName -> ParseMCPCall call = Ok actual -> comparable (tc_Args actual).

Lemma same_call calls call call' : NoDup (map (fun call => trim_space (tc_ID call)) calls) -> call ∈ calls -> call' ∈ calls ->
  trim_space (tc_ID call) = trim_space (tc_ID call') -> call = call'.
Proof.
  induction calls as [|c calls IH]; [by intros _ ?%not_elem_of_nil|]. cbn [map]. intros [Hc Hn]%NoDup_cons.
  intros [->|H1]%elem_of_cons [->|H2]%elem_of_cons E; [done| | |by apply IH].
  - destruct Hc. rewrite E. by apply (list_elem_of_fmap_2 (fun call => trim_space (tc_ID call))).
  - destruct Hc. rewrite <- E. by apply (list_elem_of_fmap_2 (fun call => trim_space (tc_ID call))).
Qed.

(** Presenting the event of a call as that of the tool it was routed to keeps its
    output, its message and its validity. *)
Lemma presented available validate tools deferred discoveries calls shown call result e t :
  sound_calls calls -> call ∈ calls -> pl_Tool (ev_Body e) = Some t -> tool_of call result t ->
  let e' := presentMCPEvent (bindMCPCalls available validate tools deferred discoveries calls (NewToolVisibilityForModel available shown)) e in
  ev_Type e' = ev_Type e /\ pl_Message (ev_Body e') = pl_Message (ev_Body e) /\ (clean_meta (pl_Meta (ev_Body e)) -> clean_meta (pl_Meta (ev_Body e'))) /\
  exists t', pl_Tool (ev_Body e') = Some t' /\ tool_of call result t'.
Proof.
  intros [Hn Hcomp] Hin Et (Hid&Hout&Hroute&Hname). unfold presentMCPEvent. rewrite Et.
  destruct (_ !! et_ID t) as [bound|] eqn:Eb; [|split_and!; eauto; by exists t].
  destruct (String.eqb_spec (tc_Name (bm_call bound)) "") as [|Hbn]; [split_and!; eauto; by exists t|].
  destruct (bound_call available validate tools deferred discoveries calls shown _ bound Eb) as (call'&Hin'&Hid'&Hn'&Horig&Hparse).
  assert (call' = call) as -> by (apply (same_call calls); [done..|]; by rewrite Hid', Hid, trim_space_idem). specialize (Hparse Hbn).
  split; [done|]. split; [done|]. split; [intros Hm; apply clean_merge; constructor; [done|]; constructor; [apply clean_tool|constructor]|].
  eexists. split; [reflexivity|]. split; [done|]. split; [done|]. split; [|by cbn [et_ModelCall]; rewrite Horig].
  apply (routed_valid marshal_error call (bm_call bound)); [done|done|by rewrite <- Horig|by rewrite Hid'|done|done|by apply (Hcomp call)].
Qed.

(** A tool result with a message is checked by its output, its message and its metadata. *)
Lemma result_check e t message output : pl_Tool (ev_Body e) = Some t -> et_Output t = Some output -> pl_Message (ev_Body e) = Some message ->
  fit_output output ->
  validateDurableCoreToolResult e =
    (let! _ := validateDurableCoreToolMessageOutput t (Some message) in validateDurableCoreMeta (pl_Meta (ev_Body e))).
Proof.
  intros Et Eo Em Hf. unfold validateDurableCoreToolResult. rewrite Et, Em, Eo, (platform_output marshal_error), (fit_valid marshal_error) by done.
  by destruct (empty_map _).
Qed.

(** The event of a result, before it is presented. *)
Lemma result_event decode call result meta : let e := toolResultEvent decode call result (Some (toolResultMessageFromCanonical call result)) [meta] in
  ev_Type e = EventTypeToolResult /\ pl_Message (ev_Body e) = Some (toolResultMessageFromCanonical call result) /\
  (clean_meta (rs_Metadata result) -> clean_meta meta -> clean_meta (pl_Meta (ev_Body e))) /\
  exists t, pl_Tool (ev_Body e) = Some t /\ tool_of call result t.
Proof.
  unfold toolResultEvent, toolEvent. set (trusted := runtimeTaskResultSourceDeclared [meta]). clearbody trusted. split; [done|]. split; [done|]. split.
  - intros Hr Hm. cbn [ev_Body pl_Meta]. apply clean_merge. constructor; [by apply clean_result_meta|]. constructor; [done|].
    constructor; [apply clean_tool|]. constructor; [apply clean_caelis|constructor].
  - eexists. split; [reflexivity|]. set (status := trim_space _). clearbody status.
    destruct (_ && negb (rs_IsError result)); [apply (event_tool_of call result status (rs_TurnComplete result))|apply (event_tool_of call result status false)].
Qed.

(** C5: every sound result of a call of a response, however large and whatever the
    artifact store answers, becomes a message and an event without a panic, and
    the event, which names the MCP tool that the call was routed to, passes the
    validation of durable tool results: its output fits the default budget and says what the
    message says.  The calls of the response differ in their identities, and
    the arguments of an MCP call have numbers that are float64. *)
Theorem tool_call_recorded available validate tools deferred discoveries calls shown decode call result artifacts taskResultSource :
  sound_calls calls -> call ∈ calls -> sound_result result -> store_ok artifacts ->
  let bound := bindMCPCalls available validate tools deferred discoveries calls (NewToolVisibilityForModel available shown) in
  exists message event, finishToolCall bound decode call result artifacts taskResultSource = Some (message, event) /\
    ev_Type event = EventTypeToolResult /\ validateDurableCoreToolResult event = Ok tt.
Proof.
  intros Hcalls Hin (Ho&Hflat&Herr&Hmeta) Hstore bound. destruct (canonical_ok result artifacts Ho Hstore) as (canonical&info&collision&removed&E&Hcall&Hcontent).
  destruct Hcall as (_&Hie&Hmd&_). destruct Hcontent as (Hok&Hcost&_&Htrace).
  unfold finishToolCall. rewrite E. cbn [mbind option_bind]. eexists _, _. split; [reflexivity|]. set (meta := if taskResultSource then _ else _).
  destruct (result_event decode call canonical meta) as (Hty&Hmsg&Hcl&t&Et&Ht).
  destruct (presented available validate tools deferred discoveries calls shown call canonical _ t Hcalls Hin Et Ht) as (Hty'&Hmsg'&Hcl'&t'&Et'&Ht').
  fold bound in Hty', Hmsg', Hcl', Et'. split; [by rewrite Hty'|].
  rewrite (result_check _ t' _ _ Et' (proj1 (proj2 Ht')) (eq_trans Hmsg' Hmsg)) by (by apply raw_output_fit).
  rewrite (message_valid marshal_error call canonical t') by (done || (intros He; apply Htrace; rewrite Hie in He;
    destruct (Herr He) as [|Hc]; [by left|right; split; [done|by apply flat_media]])).
  cbn [result_bind]. apply clean_valid, Hcl', Hcl; [by rewrite Hmd|]. unfold meta. destruct taskResultSource; [|apply clean_truncation].
  apply clean_merge. constructor; [apply clean_truncation|]. constructor; [apply clean_caelis|constructor].
Qed.
End Recorded.

(** ** Failures without text *)

Section Refused.
Context `{JL : JsonLaws}.
Variable marshal_error : GoValue -> string.
Context `{P : Platform} `{JP : !JsonPlatform marshal_error P}.

Lemma no_content_parts parts : Forall (fun p => part_result p = None) parts -> existsb is_content parts = false ->
  map without_namespace parts = map (fun p => (p, false)) parts /\ estimateTokensForParts parts = 0 /\ media parts = parts.
Proof.
  induction 1 as [|p parts Hp Hps IH]; [done|]. cbn [existsb]. intros (Hc&Hcs)%orb_false_iff. destruct (IH Hcs) as (H1&H2&H3).
  rewrite media_cons, Hc, H3. cbn [map]. rewrite H1. split; [|split; [|done]].
  - f_equal. unfold without_namespace. unfold is_content in Hc. destruct (part_json p); [by destruct (part_text p)|done].
  - pose proof (flat_media [p] (Forall_cons_2 _ _ _ Hp (Forall_nil_2 _))) as Hf. rewrite media_cons, Hc in Hf. rewrite estimate_cons, H2.
    rewrite estimate_cons in Hf. change (estimateTokensForParts (media [])) with 0 in Hf. lia.
Qed.

Lemma refused_canonical result artifacts : rs_IsError result = true -> rs_Content result <> [] ->
  existsb is_content (rs_Content result) = false -> Forall (fun p => part_result p = None) (rs_Content result) ->
  exists canonical meta, canonicalToolResult result artifacts = Some (canonical, meta, None) /\ rs_Content canonical = rs_Content result /\ rs_IsError canonical = true.
Proof.
  intros He Hne Hc Hflat. destruct (no_content_parts _ Hflat Hc) as (Hns&Hcost&Hmedia).
  unfold canonicalToolResult. unfold toolResultWithoutReservedNamespace. rewrite CloneParts_id, Hns, map_map, map_id.
  set (clean := set_content _ _). assert (Hclean : rs_Content clean = rs_Content result) by done. assert (Hfail : rs_IsError clean = true) by done. clearbody clean.
  assert (Hn : (match artifacts with Some write => if ResultNeedsTruncation (rs_Content clean) DefaultTruncationPolicy then write result else None | None => None end) = None).
  { destruct artifacts as [write|]; [|done]. unfold ResultNeedsTruncation. rewrite Hclean, Hcost. done. }
  rewrite Hn. unfold TruncateResultWithInfoAndProtectedJSONFields, truncateResultWithInfo. rewrite Hclean, CloneParts_id.
  change (tokenBudget DefaultTruncationPolicy <=? 0) with false. cbv iota. destruct (rs_Content result) as [|p ps] eqn:Ec; [done|].
  unfold truncatePartsWithProtectedJSONFields. change (tokenBudget DefaultTruncationPolicy <=? 0) with false. cbv iota.
  cbn [injectProtectedJSONFields mbind option_bind]. rewrite CloneParts_id, Hcost. cbn [mbind option_bind].
  eexists _, _. split; [reflexivity|]. done.
Qed.

(** C37: a failed tool result of media alone, with neither text nor JSON, gives an
    event that the validation of durable tool results refuses: the event says
    that the tool failed, the message for the model says nothing.  This holds
    for calls that are routed to MCP tools and for those that are not. *)
Theorem failure_without_text_refused available validate tools deferred discoveries calls shown decode call result artifacts taskResultSource :
  sound_calls calls -> call ∈ calls -> rs_IsError result = true -> rs_Content result <> [] ->
  existsb is_content (rs_Content result) = false -> Forall (fun p => part_result p = None) (rs_Content result) ->
  let bound := bindMCPCalls available validate tools deferred discoveries calls (NewToolVisibilityForModel available shown) in
  exists message event, finishToolCall bound decode call result artifacts taskResultSource = Some (message, event) /\
    validateDurableCoreToolResult event = Fail (ErrEventValidation "tool message result is missing payload").
Proof.
  intros Hcalls Hin He Hne Hc Hflat bound. destruct (refused_canonical result artifacts He Hne Hc Hflat) as (canonical&meta0&E&Hcon&Hie).
  unfold finishToolCall. rewrite E. cbn [mbind option_bind]. eexists _, _. split; [reflexivity|]. set (meta := if taskResultSource then _ else _).
  destruct (result_event decode call canonical meta) as (_&Hmsg&_&t&Et&Ht).
  destruct (presented marshal_error available validate tools deferred discoveries calls shown call canonical _ t Hcalls Hin Et Ht) as (_&Hmsg'&_&t'&Et'&Ht').
  fold bound in Hmsg', Et'. rewrite (result_check marshal_error _ t' _ _ Et' (proj1 (proj2 Ht')) (eq_trans Hmsg' Hmsg)).
  - by rewrite (message_refused (P := P) call canonical t') by (by rewrite ?Hcon).
  - rewrite no_content_output, Hie by (by rewrite Hcon). split; [by apply json_fields_one; [|constructor]|by split].
Qed.
End Refused.

(** ** The reference to the whole result *)

Section Reference.
Context `{JL : JsonLaws}.

Lemma namespace_json parts : existsb has_json (map fst (map without_namespace parts)) = existsb has_json parts.
Proof.
  induction parts as [|p parts IH]; [done|]. cbn [map existsb]. rewrite IH. f_equal. unfold without_namespace.
  destruct (part_json p) as [raw|] eqn:Ej; [|done]. destruct (Unmarshal_map _) as [[payload|]|]; [|done|done].
  destruct (assoc _ payload); [|done]. unfold has_json. rewrite Ej. by destruct p.
Qed.

(** What the reference to the artifact costs. *)
Definition reference_cost (path : string) (collision : bool) : Z :=
  estimateTokensForJSONValue (go_object [(toolResultRuntimeNamespaceKey, go_object (toolResultRuntimeArtifactMetadata path collision))]).

(** C7: when a result over the budget has JSON and the whole of it was written to
    an artifact, some JSON part of the canonical result is an object whose
    [_caelis] field names the artifact, provided that field fits the budget:
    truncation never cuts the reference. *)
Theorem artifact_reference_kept result write path : Forall ok_part (rs_Content result) -> existsb has_json (rs_Content result) = true ->
  let '(clean, collision) := toolResultWithoutReservedNamespace result in
  ResultNeedsTruncation (rs_Content clean) DefaultTruncationPolicy = true -> write result = Some path -> path_ok path -> path <> ""%string ->
  reference_cost path collision + 1 + estimateTokensForParts [omissionNotice] <= tokenBudget DefaultTruncationPolicy ->
  exists canonical meta part raw o, canonicalToolResult result (Some write) = Some (canonical, meta, None) /\
    part ∈ rs_Content canonical /\ part_json part = Some raw /\ Unmarshal (bytes_of raw) = Some (go_object o) /\
    assoc toolResultRuntimeNamespaceKey o = Some (go_object (toolResultRuntimeArtifactMetadata path collision)).
Proof.
  intros Ho Hj. pose proof (namespace_shape result Ho) as Hns.
  assert (Hj' : existsb has_json (rs_Content (fst (toolResultWithoutReservedNamespace result))) = true).
  { cbn [toolResultWithoutReservedNamespace fst set_content rs_Content]. by rewrite namespace_json, CloneParts_id. }
  unfold canonicalToolResult. destruct (toolResultWithoutReservedNamespace result) as [clean collision]. cbn [fst] in *.
  intros Hneed Hw Hp Hne Hb. rewrite Hneed, Hw. set (fields := [(toolResultRuntimeNamespaceKey, go_object (toolResultRuntimeArtifactMetadata path collision))]).
  destruct (hint_json clean path collision (proj1 Hns) Hj' Hp Hne) as (out&Eh). rewrite Eh. fold fields. fold fields in Eh.
  destruct (hint_shape clean path collision out fields (proj1 Hns) Hp Eh) as (Hsh&[Hfj Hfd]&Hin).
  destruct Hin as [|(pre&part&post&raw&items&Hout&Hpre&Er&Eu)]; [done|].
  assert (Hi : injectProtectedJSONFields (rs_Content out) fields =
    Some (pre ++ set_json (string_of (mustMarshalMap (Some (set_protected fields items)))) part :: post, 0 + Z.of_nat (length pre))).
  { unfold injectProtectedJSONFields. rewrite CloneParts_id, Hout. cbn [fields]. by apply (inject_at fields pre part post 0 raw items). }
  unfold TruncateResultWithInfoAndProtectedJSONFields, truncateResultWithInfo. change (tokenBudget DefaultTruncationPolicy <=? 0) with false. cbv iota.
  rewrite CloneParts_id. destruct (rs_Content out) as [|p ps] eqn:Ec; [by destruct pre|]. rewrite <- Ec in *.
  assert (Hs : truncatePartsWithProtectedJSONFields (rs_Content out) DefaultTruncationPolicy fields <> None) by (apply parts_some; [done|by rewrite Hi]).
  destruct (truncatePartsWithProtectedJSONFields (rs_Content out) DefaultTruncationPolicy fields) as [[content info]|] eqn:Et; [|done].
  assert (Hnamed : named fields) by (split; [constructor; [apply not_elem_of_nil|constructor]|constructor; [reflexivity|constructor]]).
  destruct (parts_hold fields Hfj Hnamed Hfd ltac:(done) (rs_Content out) DefaultTruncationPolicy _ _ content info (proj1 Hsh) Hi ltac:(lia) Hb Et)
    as (q&Hq&(qraw&o&Hqj&Hqu&Hqh)).
  cbn [mbind option_bind]. eexists _, _, q, qraw, o. split; [reflexivity|]. split; [done|]. split; [done|]. split; [done|]. apply Hqh. by left.
Qed.
End Reference.

(** ** Bounds *)

Section Bounds.
Context `{JL : JsonLaws}.

(** The policy that is used: the default one for a policy without a budget. *)
Definition effective (policy : TruncationPolicy) : TruncationPolicy := if tokenBudget policy <=? 0 then DefaultTruncationPolicy else policy.

(** C6: a result with content, of parts that are JSON or UTF-8 text or media, is
    bounded without a panic: its texts and JSON cost at most the budget of the policy,
    its media is untouched and in order, and a result within the budget keeps its
    content as it is.  Some text or JSON is left of a result that had some, provided
    that its media and the notice of an omission fit the budget together; a
    smaller budget may leave nothing ([small_budget_drops_content]). *)
Theorem bounded_result_fits result policy : Forall ok_part (rs_Content result) -> rs_Content result <> [] ->
  exists out info, TruncateResultWithInfo result policy = Some (out, info) /\
    content_cost (rs_Content out) <= tokenBudget (effective policy) /\ media (rs_Content out) = media (rs_Content result) /\
    (estimateTokensForParts (rs_Content result) <= tokenBudget (effective policy) -> rs_Content out = rs_Content result) /\
    (existsb is_content (rs_Content result) = true ->
     estimateTokensForParts (media (rs_Content result)) + estimateTokensForParts [omissionNotice] <= tokenBudget (effective policy) ->
     existsb is_content (rs_Content out) = true).
Proof.
  intros Ho Hne. unfold TruncateResultWithInfo, truncateResultWithInfo. fold (effective policy). rewrite CloneParts_id.
  assert (Hb : 0 < tokenBudget (effective policy)) by (unfold effective; destruct (Z.leb_spec (tokenBudget policy) 0); done).
  assert (Hs : truncatePartsWithProtectedJSONFields (rs_Content result) (effective policy) [] <> None) by (by apply parts_some).
  assert (Hsame : forall out info, truncatePartsWithProtectedJSONFields (rs_Content result) (effective policy) [] = Some (out, info) ->
    estimateTokensForParts (rs_Content result) <= tokenBudget (effective policy) -> out = rs_Content result).
  { intros out info E Hle. unfold truncatePartsWithProtectedJSONFields in E. rewrite (proj2 (Z.leb_gt _ 0)) in E by lia.
    cbn [injectProtectedJSONFields mbind option_bind] in E. rewrite CloneParts_id, (proj2 (Z.leb_le _ _) Hle) in E. by injection E. }
  destruct (rs_Content result) as [|part parts] eqn:Ec; [done|]. rewrite <- Ec in *.
  destruct (truncatePartsWithProtectedJSONFields (rs_Content result) (effective policy) []) as [[content info]|] eqn:Et; [|done].
  cbn [mbind option_bind]. eexists _, info. split; [done|]. cbn [set_content rs_Content].
  destruct (truncate_parts_ok (rs_Content result) (effective policy) [] content info Hb ltac:(by split; [constructor|]) Ho Et) as (H1&_&H2&H3).
  split; [done|]. split; [done|]. split; [|done]. by apply (Hsame content info).
Qed.

(** C38: UTF-8 text over the budget keeps its two ends around one marker that tells
    what was removed.  It is cut between runes, so the ends and the result are
    UTF-8, and each end has half of the bytes kept, less the three that a rune may take:
    [kept_bytes] is the budget in bytes less 46, for the marker and the rounding
    of the estimate.  The result fits the budget unless only the marker is left. *)
Theorem text_keeps_both_ends s policy : Valid s = true -> 0 < byteBudget policy < len s ->
  exists first cut last, s = first ++ cut ++ last /\ Valid first = true /\ Valid last = true /\
    Z.min (byteBudget policy) (kept_bytes policy) / 2 - 3 <= len first /\
    Z.min (byteBudget policy) (kept_bytes policy) / 2 - 3 <= len last /\
    snd (TruncateString s policy) = approxTokensFromBytes (len cut) /\
    fst (TruncateString s policy) = first ++ formatTruncationMarker policy (snd (TruncateString s policy)) (len cut) ++ last /\
    Valid (fst (TruncateString s policy)) = true /\
    (estimateTextTokens (fst (TruncateString s policy)) <= tokenBudget policy \/ cut = s).
Proof.
  intros Hv Hb. destruct (TruncateString_spec s policy) as [[_ ?]|(_&i&j&(Hij&Hj&Hr&Ho)&Hfit&Hends&Hbound)]; [lia|].
  destruct (Hends Hv) as [He1 He2]. destruct (Hbound Hv) as [(_&Hi&_) (_&_&Hl)]. pose proof (TruncateString_valid s policy Hv) as Hov.
  exists (take (Z.to_nat i) s), (take (Z.to_nat j - Z.to_nat i) (drop (Z.to_nat i) s)), (drop (Z.to_nat j) s).
  assert (Hlen : len (take (Z.to_nat j - Z.to_nat i) (drop (Z.to_nat i) s)) = j - i).
  { unfold len in *. rewrite length_take, length_drop. lia. }
  assert (Hf : len (take (Z.to_nat i) s) = i) by (unfold len in *; rewrite length_take; lia).
  assert (Hd : len (drop (Z.to_nat j) s) = len s - j) by (unfold len in *; rewrite length_drop; lia).
  rewrite Hlen, Hf, Hd. split; [|do 7 (split; [done|])].
  - rewrite <- (take_drop (Z.to_nat i) s) at 1. f_equal. rewrite <- (take_drop (Z.to_nat j - Z.to_nat i) (drop (Z.to_nat i) s)) at 1. f_equal.
    rewrite drop_drop. f_equal. lia.
  - destruct Hfit as [|[-> ->]]; [by left|]. right. unfold len. rewrite Nat2Z.id. cbn [Z.to_nat drop]. by rewrite Nat.sub_0_r, take_ge.
Qed.

(** C39: truncating a value ends: a level of JSON inside a text holds fewer ASCII
    bytes than the text, and with one unit of fuel for each the result no
    longer depends on the fuel. *)
Theorem nested_truncation_settles v fuel remaining omitted : (text_size v <= fuel)%nat ->
  truncate_value fuel v remaining omitted = truncateValue v remaining omitted /\
  (forall t w, v = go_string t -> Unmarshal (bytes_of (trim_space t)) = Some w -> (text_size w < text_size v)%nat).
Proof.
  intros Hf. split; [by apply truncate_value_enough|]. intros t w -> Hu. apply Unmarshal_size in Hu; [|apply bytes_of_bytes].
  pose proof (trim_ascii t). cbn [text_size go_string]. lia.
Qed.

(** On objects that JSON decodes to, the comparison of the output of an event
    with the payload of its message is equality. *)
Theorem canonical_comparison_is_equality a b : json_fields a -> json_fields b -> depth_of a < maxNestingDepth -> depth_of b < maxNestingDepth ->
  (sameCanonicalJSON (Some a) (Some b) = true <-> a = b).
Proof.
  intros Ha Hb Hda Hdb. apply json_fields_value in Ha, Hb. unfold sameCanonicalJSON, canonicalJSONBytes, Marshal_map.
  destruct (json_read_back (go_object a) Ha) as (d&Ea&Ra); [rewrite nesting_object; unfold depth_of in Hda; lia|].
  destruct (json_read_back (go_object b) Hb) as (e&Eb&Rb); [rewrite nesting_object; unfold depth_of in Hdb; lia|].
  rewrite Ea, Eb. cbn [mbind option_bind]. rewrite Ra, Rb. cbn [mbind option_bind]. rewrite Ea, Eb, bool_decide_eq_true. split.
  - intros ->. rewrite Ra in Rb. by injection Rb.
  - intros ->. rewrite Ea in Eb. by injection Eb.
Qed.
End Bounds.

(** ** Concrete results *)

Module Sample.
Definition call : ToolCall := MkToolCall " call-1 " "RunCommand" "{}" "".
Definition json_part : Part := NewJSONPart (string_of (123 :: member "ok" (bytes_of "true") ++ [125])).
Definition media_part : Part :=
  MkPart (MkHead "media" None None None (Some (MkMedia "image" (MkMediaSource "inline" "aGk=" "" "" "") "image/png" "")) None None) None [].
Definition result (content : list Part) (failed : bool) : Result := MkToolOutput "call-1" "RunCommand" content false None failed None.

Lemma json_part_ok : ok_part json_part.
Proof. split; [done|]. exists (go_object [("ok"%string, go_bool true)]). split; [vm_compute; reflexivity|right; by eexists]. Qed.

Lemma letter_chunks n : chunks (repeat 97 n) = repeat ([97], true) n.
Proof.
  induction n as [|n IH]; [done|]. change (repeat 97 (S n)) with ([97] ++ repeat 97 n). by rewrite chunks_app, IH.
Qed.

Lemma letters_cost n : text_cost (bytes_of (string_of (repeat 97 n))) = (13 + Z.of_nat n + 3) / 4.
Proof.
  assert (Hb : Forall is_byte (repeat 97 n)) by (apply Forall_forall; intros b Hb%list_elem_of_In%repeat_spec; subst b; unfold is_byte; lia).
  rewrite text_cost_eq, string_of_bytes, bytes_of_string by done. unfold quote_body. rewrite letter_chunks. f_equal. f_equal. f_equal.
  induction n as [|n IH]; [done|]. cbn [repeat map concat]. rewrite len_app. apply Forall_cons in Hb as [_ Hb]. rewrite IH by done. change (len (quote_rune ([97], true))) with 1. lia.
Qed.

Lemma letters_valid n : Valid (bytes_of (string_of (repeat 97 n))) = true.
Proof.
  assert (Hb : Forall is_byte (repeat 97 n)) by (apply Forall_forall; intros b Hb%list_elem_of_In%repeat_spec; subst b; unfold is_byte; lia).
  rewrite bytes_of_string by done. apply ascii_Valid. apply Forall_forall. intros b Hb'%list_elem_of_In%repeat_spec. subst b. done.
Qed.

Definition long : Part := NewTextPart (string_of (repeat 97 (Z.to_nat 50000))).

Lemma long_ok : ok_part long.
Proof. apply letters_valid. Qed.

(** A response with a command and two calls of a discovered MCP tool. *)
Definition routed : ToolCall := MkToolCall "call-2" MCPCallToolName (envelope_text small_argument) "".
Definition overflowing : ToolCall := MkToolCall "call-3" MCPCallToolName (envelope_text large_argument) "".
Definition reader : ToolDefinition := MkDefinition "mcp_read" None
  (Some [(MetadataToolKind, go_string "mcp"); (MetadataMCPTool, go_string "read"); (MetadataMCPServer, go_string "files");
         (MetadataMCPSourceFingerprint, go_string "v1")]).
Definition run_command : ToolDefinition := MkDefinition "RunCommand" None None.
Definition shown : list ToolDefinition := [run_command; MkDefinition ToolSearchToolName None (Some [(MetadataToolKind, go_string MetadataToolKindToolSearch)])].
Definition discovered : gmap string Binding := {["mcp_read"%string := BindingForDefinition reader]}.
Definition bound (calls : list ToolCall) : gmap string boundMCPCall :=
  bindMCPCalls (fun _ => true) (fun _ _ => None) [reader] [] discovered calls (NewToolVisibilityForModel (fun _ => true) shown).

Lemma sample_calls : sound_calls [call; routed].
Proof.
  split; [by apply (bool_decide_unpack (NoDup _)); vm_compute|]. intros c actual Hc Hn Hp.
  apply elem_of_cons in Hc as [->|[->|[]%not_elem_of_nil]%elem_of_cons]; [done|]. vm_compute in Hp. injection Hp as <-.
  unfold comparable. by vm_compute.
Qed.

Lemma tool_call_recorded_witness :
  (bm_target <$> bound [call; routed] !! "call-2"%string) = Some (Some reader) /\
  exists message event, finishToolCall (bound [call; routed]) (fun _ => None) routed (result [json_part; long; media_part] true) None true = Some (message, event) /\
  ev_Type event = EventTypeToolResult /\ validateDurableCoreToolResult event = Ok tt.
Proof.
  split; [by vm_compute|]. apply (tool_call_recorded (fun _ => ""%string)).
  - apply sample_calls.
  - apply elem_of_cons; right; apply elem_of_cons; by left.
  - split; [|split; [by repeat constructor|split; [by right|repeat constructor]]].
    constructor; [apply json_part_ok|]. constructor; [apply long_ok|]. by repeat constructor.
  - by intros write r path H.
Defined.

(** The event of the routed call names the MCP tool and its arguments. *)
Example routed_event_named : exists message event t,
  finishToolCall (bound [call; routed]) (fun _ => None) routed (result [json_part] false) None false = Some (message, event) /\
  pl_Tool (ev_Body event) = Some t /\ et_Name t = "mcp_read"%string /\ et_Input t = mustObject (string_of small_argument) /\
  et_ModelCall t = Some routed.
Proof. eexists _, _, _. split; [vm_compute; reflexivity|]. by vm_compute. Qed.

(** The arguments of an MCP call may have a number beyond float64; the event, in
    which the arguments are compared as float64, is refused. *)
Theorem large_number_refused : exists message event,
  finishToolCall (bound [overflowing]) (fun _ => None) overflowing (result [json_part] false) None false = Some (message, event) /\
  validateDurableCoreToolResult event = Fail (ErrEventValidation "routed model tool arguments do not match real input").
Proof. eexists _, _. split; [vm_compute; reflexivity|]. by vm_compute. Qed.

Lemma failure_without_text_refused_witness : exists message event,
  finishToolCall (bound [call; routed]) (fun _ => None) routed (result [media_part] true) None false = Some (message, event) /\
  validateDurableCoreToolResult event = Fail (ErrEventValidation "tool message result is missing payload").
Proof.
  apply (failure_without_text_refused (fun _ => ""%string)); [apply sample_calls| |done|done|done|by repeat constructor].
  apply elem_of_cons; right; apply elem_of_cons; by left.
Defined.

Lemma artifact_reference_kept_witness : exists canonical meta part raw o,
  canonicalToolResult (result [json_part; long] false) (Some (fun _ => Some "/tmp/caelis/tool-results/0123456789ab.json"%string)) = Some (canonical, meta, None) /\
  part ∈ rs_Content canonical /\ part_json part = Some raw /\ Unmarshal (bytes_of raw) = Some (go_object o) /\
  assoc toolResultRuntimeNamespaceKey o = Some (go_object (toolResultRuntimeArtifactMetadata "/tmp/caelis/tool-results/0123456789ab.json" false)).
Proof.
  apply (artifact_reference_kept (result [json_part; long] false) (fun _ => Some "/tmp/caelis/tool-results/0123456789ab.json"%string)
    "/tmp/caelis/tool-results/0123456789ab.json"%string).
  - constructor; [apply json_part_ok|]. constructor; [apply long_ok|constructor].
  - done.
  - unfold ResultNeedsTruncation. change (tokenBudget DefaultTruncationPolicy <=? 0) with false. cbv iota. apply Z.ltb_lt.
    change (estimateTokensForParts _) with (estimate_part json_part + (text_cost (bytes_of (string_of (repeat 97 (Z.to_nat 50000)))) + 0)).
    rewrite letters_cost, Z2Nat.id by done. pose proof (estimate_part_nonneg json_part). change (tokenBudget DefaultTruncationPolicy) with 10000.
    change ((13 + 50000 + 3) / 4) with 12504. lia.
  - done.
  - by split.
  - done.
  - by vm_compute.
Defined.

Lemma bounded_result_fits_witness : exists out info, TruncateResultWithInfo (result [long; media_part] false) (MkPolicy 100 0) = Some (out, info) /\
  content_cost (rs_Content out) <= tokenBudget (effective (MkPolicy 100 0)) /\ media (rs_Content out) = media [long; media_part] /\
  (estimateTokensForParts [long; media_part] <= tokenBudget (effective (MkPolicy 100 0)) -> rs_Content out = [long; media_part]) /\
  (existsb is_content [long; media_part] = true ->
   estimateTokensForParts (media [long; media_part]) + estimateTokensForParts [omissionNotice] <= tokenBudget (effective (MkPolicy 100 0)) ->
   existsb is_content (rs_Content out) = true).
Proof. apply (bounded_result_fits (result [long; media_part] false)); [|done]. constructor; [apply long_ok|]. by repeat constructor. Defined.

(** Below the cost of the notice nothing is left of a text. *)
Example small_budget_drops_content :
  (fun r => rs_Content (fst r)) <$> TruncateResultWithInfo (result [NewTextPart (string_of (repeat 97 500))] false) (MkPolicy 5 0) = Some [].
Proof. by vm_compute. Qed.

Lemma text_keeps_both_ends_witness : let s := repeat 97 500 in let policy := MkPolicy 30 0 in
  exists first cut last, s = first ++ cut ++ last /\ Valid first = true /\ Valid last = true /\ 34 <= len first /\ 34 <= len last /\
    snd (TruncateString s policy) = approxTokensFromBytes (len cut) /\
    fst (TruncateString s policy) = first ++ formatTruncationMarker policy (snd (TruncateString s policy)) (len cut) ++ last /\
    Valid (fst (TruncateString s policy)) = true /\
    (estimateTextTokens (fst (TruncateString s policy)) <= tokenBudget policy \/ cut = s).
Proof. apply (text_keeps_both_ends (repeat 97 500) (MkPolicy 30 0)); [by vm_compute|by vm_compute]. Defined.

Lemma nested_truncation_settles_witness : let v := go_string "[1,2]" in
  truncate_value 5 v 1 0 = truncateValue v 1 0 /\
  (forall t w, v = go_string t -> Unmarshal (bytes_of (trim_space t)) = Some w -> (text_size w < text_size v)%nat).
Proof. apply (nested_truncation_settles (go_string "[1,2]") 5 1 0). apply Nat.leb_le. by vm_compute. Defined.

Lemma canonical_comparison_is_equality_witness :
  sameCanonicalJSON (Some [("ok"%string, go_bool true)]) (Some [("ok"%string, go_bool false)]) = true <->
  [("ok"%string, go_bool true)] = [("ok"%string, go_bool false)].
Proof. apply canonical_comparison_is_equality; [by apply json_fields_one; [|apply bool_value]|by apply json_fields_one; [|apply bool_value]|done|done]. Defined.
End Sample.

(** ** Two edges *)

(** The width of an invalid byte is taken for that of U+FFFD, so the cut falls
    inside the rune after it. *)
Example invalid_byte_splits_rune : let s := [255; 226; 130; 172; 97; 97; 97; 97] in
  splitUTF8Bounds s 3 3 = (3, 5) /\ Valid (drop 1 (take 4 s)) = true /\ Valid (drop 1 (take 3 s)) = false.
Proof. by vm_compute. Qed.

(** A part that holds [null] decodes into a nil map, in which a protected field
    cannot be set. *)
Example null_part_panics :
  TruncateResultWithInfoAndProtectedJSONFields (MkToolOutput "" "" [NewJSONPart "null"] false None false None) DefaultTruncationPolicy
    [("key"%string, go_nil)] = None.
Proof. by vm_compute. Qed.
