(* ===== verification/ApprovalQueue.v ===== *)
(** * The approval coordinator of a Session

    Models [internal/kernel/approval_queue.go]: the registry and FIFO of
    permission requests of one Session, across its main Turn, participants and
    detached children, and the admission barrier of a concurrent model step
    ([agent-sdk/tool/tool.go]).

    A [*pendingApproval] is a handle into the heap [q_heap]; an owner
    ([*turnHandle]) and an admission barrier are numbers, compared as the code
    compares pointers.  A channel that is only closed is a flag, the buffered
    [decisions] channel is the list of its contents.  Closing a closed channel
    (a panic) and sending on a full one (a send that blocks with the mutex
    held) set [q_fault].  Every method runs under the coordinator's mutex, so
    one call is one step.  The callbacks of an owner, which write to the
    Session store, are the environment of a step; what they publish to the
    Turn's stream is not part of the coordinator's state. *)

From Stdlib Require Import ZArith Lia Ascii String.
From stdpp Require Import base list strings option gmap pretty.
From S2P Require Import Prelude GoStrings Fence Approval.

Local Open Scope string_scope.

(** ** Admission barriers *)

(** [modelStepAdmission]: how many calls of the step are outstanding, which
    were marked, and whether [done] is closed. *)
Record admission : Type := MkAdmission { ad_remaining : Z; ad_seen : list bool; ad_done : bool }.

(** [ModelStepRef]. *)
Record ModelStepRef : Type := MkStep { ms_ID : string; ms_Index : Z; ms_CallCount : Z; ms_admission : option nat }.

Definition newAdmission (callCount : nat) : admission :=
  MkAdmission (Z.of_nat callCount) (replicate callCount false) false.

Definition markAdmission (index : Z) (ad : admission) : admission :=
  match ad_seen ad !! Z.to_nat index with
  | None | Some true => ad
  | Some false =>
    let remaining := (ad_remaining ad - 1)%Z in
    MkAdmission remaining (<[Z.to_nat index := true]> (ad_seen ad)) (if (remaining =? 0)%Z then true else ad_done ad)
  end.

Definition MarkAdmissionComplete (step : option ModelStepRef) (admissions : gmap nat admission) : gmap nat admission :=
  match step with
  | None => admissions
  | Some s =>
    match ms_admission s with
    | None => admissions
    | Some a =>
      if (ms_Index s <? 0)%Z || (ms_CallCount s <=? ms_Index s)%Z then admissions
      else alter (markAdmission (ms_Index s)) a admissions
    end
  end.

(** ** Requests and pending approvals *)

(** The part of [agent.ApprovalRequest] the coordinator reads: [rq_Detached] is
    [detachedApprovalRequest], the projection of the request's origin. *)
Record ApprovalRequest : Type := MkRequest {
  rq_PauseTokenID : string; rq_RunID : string; rq_TurnID : string;
  rq_Options : option (list Option); rq_ModelStep : option ModelStepRef; rq_Detached : bool;
}.

Record ApprovalDecision : Type := MkDecision { d_RequestID : string; d_Response : ApprovalResponse }.

Record pendingApproval : Type := MkPending {
  pa_id : string;
  pa_options : option (list Option);
  pa_owner : option nat;
  pa_detached : bool;
  pa_publishOnActivate : bool;
  pa_parallelGroup : string;
  pa_parallelDone : option nat;
  pa_activationErr : option string;
  pa_persisted : bool;
  pa_settled : bool;
  pa_decisions : list ApprovalDecision;
  pa_done : bool;
  pa_activated : bool;
}.

Inductive GatewayError : Type :=
| ApprovalUnavailable
| AlreadyPending
| NoLongerPending (id state : string)
| RequestIDRequired
| NotPending (id state : string)
| NotCallerResolvable
| NotActive (id activeID : string)
| InvalidDecision (cause : ApprovalError)
| CallbackError (text : string)
| ActivationError (text : string).

Record approvalCoordinator : Type := MkCoordinator {
  q_sessionID : string;
  q_pending : gmap string nat;
  q_settled : gmap string string;
  q_queue : list nat;
  q_active : list nat;
  q_group : string;
  q_groupDone : option nat;
  q_groupOwner : option nat;
  q_requests : Z;
  q_heap : gmap nat pendingApproval;
  q_next : nat;
  q_admissions : gmap nat admission;
  q_watchers : list (string * nat);
  q_fault : bool;
}.

Definition newApprovalCoordinator (sessionID : string) : approvalCoordinator :=
  MkCoordinator (trim_space sessionID) ∅ ∅ [] [] "" None None 0 ∅ 0 ∅ [] false.

(** ** Field updates *)

Definition set_heap (f : gmap nat pendingApproval -> gmap nat pendingApproval) (c : approvalCoordinator) :=
  MkCoordinator (q_sessionID c) (q_pending c) (q_settled c) (q_queue c) (q_active c) (q_group c) (q_groupDone c)
    (q_groupOwner c) (q_requests c) (f (q_heap c)) (q_next c) (q_admissions c) (q_watchers c) (q_fault c).
Definition set_active (active : list nat) (c : approvalCoordinator) :=
  MkCoordinator (q_sessionID c) (q_pending c) (q_settled c) (q_queue c) active (q_group c) (q_groupDone c)
    (q_groupOwner c) (q_requests c) (q_heap c) (q_next c) (q_admissions c) (q_watchers c) (q_fault c).
Definition set_group (group : string) (done owner : option nat) (c : approvalCoordinator) :=
  MkCoordinator (q_sessionID c) (q_pending c) (q_settled c) (q_queue c) (q_active c) group done owner
    (q_requests c) (q_heap c) (q_next c) (q_admissions c) (q_watchers c) (q_fault c).
Definition set_watchers (w : list (string * nat)) (c : approvalCoordinator) :=
  MkCoordinator (q_sessionID c) (q_pending c) (q_settled c) (q_queue c) (q_active c) (q_group c) (q_groupDone c)
    (q_groupOwner c) (q_requests c) (q_heap c) (q_next c) (q_admissions c) w (q_fault c).
Definition set_admissions (a : gmap nat admission) (c : approvalCoordinator) :=
  MkCoordinator (q_sessionID c) (q_pending c) (q_settled c) (q_queue c) (q_active c) (q_group c) (q_groupDone c)
    (q_groupOwner c) (q_requests c) (q_heap c) (q_next c) a (q_watchers c) (q_fault c).
Definition set_requests (n : Z) (c : approvalCoordinator) :=
  MkCoordinator (q_sessionID c) (q_pending c) (q_settled c) (q_queue c) (q_active c) (q_group c) (q_groupDone c)
    (q_groupOwner c) n (q_heap c) (q_next c) (q_admissions c) (q_watchers c) (q_fault c).
Definition raise_fault (b : bool) (c : approvalCoordinator) :=
  MkCoordinator (q_sessionID c) (q_pending c) (q_settled c) (q_queue c) (q_active c) (q_group c) (q_groupDone c)
    (q_groupOwner c) (q_requests c) (q_heap c) (q_next c) (q_admissions c) (q_watchers c) (q_fault c || b).

Definition p_done (b : bool) (p : pendingApproval) :=
  MkPending (pa_id p) (pa_options p) (pa_owner p) (pa_detached p) (pa_publishOnActivate p) (pa_parallelGroup p)
    (pa_parallelDone p) (pa_activationErr p) (pa_persisted p) (pa_settled p) (pa_decisions p) b (pa_activated p).
Definition p_activated (b : bool) (p : pendingApproval) :=
  MkPending (pa_id p) (pa_options p) (pa_owner p) (pa_detached p) (pa_publishOnActivate p) (pa_parallelGroup p)
    (pa_parallelDone p) (pa_activationErr p) (pa_persisted p) (pa_settled p) (pa_decisions p) (pa_done p) b.
Definition p_decisions (l : list ApprovalDecision) (p : pendingApproval) :=
  MkPending (pa_id p) (pa_options p) (pa_owner p) (pa_detached p) (pa_publishOnActivate p) (pa_parallelGroup p)
    (pa_parallelDone p) (pa_activationErr p) (pa_persisted p) (pa_settled p) l (pa_done p) (pa_activated p).
Definition p_settled (b : bool) (p : pendingApproval) :=
  MkPending (pa_id p) (pa_options p) (pa_owner p) (pa_detached p) (pa_publishOnActivate p) (pa_parallelGroup p)
    (pa_parallelDone p) (pa_activationErr p) (pa_persisted p) b (pa_decisions p) (pa_done p) (pa_activated p).
Definition p_persisted (b : bool) (p : pendingApproval) :=
  MkPending (pa_id p) (pa_options p) (pa_owner p) (pa_detached p) (pa_publishOnActivate p) (pa_parallelGroup p)
    (pa_parallelDone p) (pa_activationErr p) b (pa_settled p) (pa_decisions p) (pa_done p) (pa_activated p).
Definition p_activationErr (e : string) (p : pendingApproval) :=
  MkPending (pa_id p) (pa_options p) (pa_owner p) (pa_detached p) (pa_publishOnActivate p) (pa_parallelGroup p)
    (pa_parallelDone p) (Some e) (pa_persisted p) (pa_settled p) (pa_decisions p) (pa_done p) (pa_activated p).

(** [close(pending.done)], [close(pending.activated)], [pending.decisions <- d]. *)
Definition close_done (h : nat) (c : approvalCoordinator) : approvalCoordinator :=
  set_heap (alter (p_done true) h)
    (raise_fault (match q_heap c !! h with Some p => pa_done p | None => false end) c).
Definition close_activated (h : nat) (c : approvalCoordinator) : approvalCoordinator :=
  set_heap (alter (p_activated true) h)
    (raise_fault (match q_heap c !! h with Some p => pa_activated p | None => false end) c).
Definition send_decision (h : nat) (d : ApprovalDecision) (c : approvalCoordinator) : approvalCoordinator :=
  set_heap (alter (fun p => p_decisions (pa_decisions p ++ [d])%list p) h)
    (raise_fault (match q_heap c !! h with Some p => (1 <=? length (pa_decisions p))%nat | None => false end) c).

(** ** The owner's callbacks *)

(** [persistApproval] and [settleApproval] of an owner, [None] when nil; they
    return the durable event (its ID and sequence) or an error. *)
Record callbacks : Type := MkCallbacks {
  persistApproval : nat -> option (pendingApproval -> result string (option (string * Z)));
  settleApproval : nat -> option (pendingApproval -> string -> result string (option (string * Z)));
}.

Definition validatePersistedApprovalEvent (event : option (string * Z)) : result string unit :=
  match event with
  | None => Fail "gateway: durable approval persistence returned no event"
  | Some (id, seq) =>
    if (trim_space id =? "") || (seq =? 0)%Z
    then Fail "gateway: durable approval persistence returned an event without a durable position" else Ok tt
  end.

Section Coordinator.
Variable to_lower : string -> string.
Variable cb : callbacks.

(** ** Registry *)

Fixpoint remove_first (h : nat) (l : list nat) : list nat :=
  match l with
  | [] => []
  | x :: l => if (x =? h)%nat then l else x :: remove_first h l
  end.

Definition removeLocked (h : nat) (state : string) (c : approvalCoordinator) : approvalCoordinator :=
  match q_heap c !! h with
  | None => c
  | Some p =>
    MkCoordinator (q_sessionID c) (delete (pa_id p) (q_pending c)) (<[pa_id p := trim_space state]> (q_settled c))
      (remove_first h (q_queue c)) (remove_first h (q_active c)) (q_group c) (q_groupDone c) (q_groupOwner c)
      (q_requests c) (q_heap c) (q_next c) (q_admissions c) (q_watchers c) (q_fault c)
  end.

Definition isActiveLocked (h : nat) (c : approvalCoordinator) : bool := bool_decide (h ∈ q_active c).

(** [c.pending[pending.id] == pending]. *)
Definition is_pending (h : nat) (c : approvalCoordinator) : bool :=
  match q_heap c !! h with
  | Some p => bool_decide (q_pending c !! pa_id p = Some h)
  | None => false
  end.

Definition channelClosed (done : option nat) (c : approvalCoordinator) : bool :=
  match done with
  | None => false
  | Some a => match q_admissions c !! a with Some ad => ad_done ad | None => false end
  end.

(** ** Activation *)

Definition nextPendingLocked (group : string) (c : approvalCoordinator) : option nat :=
  List.find (fun h =>
    is_pending h c && negb (isActiveLocked h c)
    && ((group =? "") || match q_heap c !! h with Some p => pa_parallelGroup p =? group | None => false end))
    (q_queue c).

Definition persist (h : nat) (p : pendingApproval) : result string unit :=
  match pa_owner p ≫= persistApproval cb with
  | None => Fail "gateway: durable approval persistence is unavailable"
  | Some call => let! event := call p in validatePersistedApprovalEvent event
  end.

Definition activateLocked (h : nat) (c : approvalCoordinator) : bool * approvalCoordinator :=
  match q_heap c !! h with
  | None => (false, c)
  | Some p =>
    let c := set_active (q_active c ++ [h])%list c in
    if pa_publishOnActivate p then
      match persist h p with
      | Fail e =>
        (false, close_done h (removeLocked h "persistence_failed" (set_heap (alter (p_activationErr e) h) c)))
      | Ok _ => (true, close_activated h (set_heap (alter (p_persisted true) h) c))
      end
    else (true, close_activated h c)
  end.

Definition watchParallelAdmissionLocked (group : string) (done : option nat) (c : approvalCoordinator)
  : approvalCoordinator :=
  match done with
  | Some a => if trim_space group =? "" then c else set_watchers ((group, a) :: q_watchers c) c
  | None => c
  end.

(** One iteration of the loop of [activateNextLocked]; [None] when it returns. *)
Definition activateStep (c : approvalCoordinator) : option approvalCoordinator * approvalCoordinator :=
  if negb (q_group c =? "") then
    match nextPendingLocked (q_group c) c with
    | None =>
      if negb (bool_decide (q_active c = [])) || negb (channelClosed (q_groupDone c) c) then (None, c)
      else (Some (set_group "" None None c), c)
    | Some h => (Some (snd (activateLocked h c)), c)
    end
  else if negb (bool_decide (q_active c = [])) then (None, c)
  else
    match nextPendingLocked "" c with
    | None => (None, c)
    | Some h =>
      let c :=
        match q_heap c !! h with
        | Some p =>
          if negb (pa_parallelGroup p =? "")
          then watchParallelAdmissionLocked (pa_parallelGroup p) (pa_parallelDone p)
                 (set_group (pa_parallelGroup p) (pa_parallelDone p) (pa_owner p) c)
          else c
        | None => c
        end in
      let '(ok, c') := activateLocked h c in
      if ok && (q_group c' =? "") then (None, c') else (Some c', c')
    end.

Fixpoint activate_loop (fuel : nat) (c : approvalCoordinator) : approvalCoordinator :=
  match fuel with
  | O => c
  | S fuel => match activateStep c with (None, c) => c | (Some c, _) => activate_loop fuel c end
  end.

(** Each iteration takes an entry out of the waiting ones or leaves a cohort. *)
Definition waiting (c : approvalCoordinator) : nat :=
  length (List.filter (fun h => negb (isActiveLocked h c)) (q_queue c)).
Definition activation_measure (c : approvalCoordinator) : nat :=
  (2 * waiting c + (if (q_group c =? "")%string then 0 else 1))%nat.

Definition activateNextLocked (c : approvalCoordinator) : approvalCoordinator :=
  activate_loop (S (activation_measure c)) c.

(** ** Settlement *)

(** The error is returned by [resolveLocked] and ignored elsewhere. *)
Definition settleLocked (h : nat) (state : string) (c : approvalCoordinator) : result GatewayError unit * approvalCoordinator :=
  match q_heap c !! h with
  | None => (Ok tt, c)
  | Some p =>
    if pa_settled p || negb (pa_persisted p) then (Ok tt, c) else
    match pa_owner p ≫= settleApproval cb with
    | None => (Ok tt, c)
    | Some call =>
      match (let! event := call p state in validatePersistedApprovalEvent event) with
      | Fail e => (Fail (CallbackError e), c)
      | Ok _ => (Ok tt, set_heap (alter (p_settled true) h) c)
      end
    end
  end.

Definition approvalNotPendingError (id : string) (c : approvalCoordinator) : GatewayError :=
  NotPending id (trim_space (default "" (q_settled c !! id))).

Definition approvalNotActiveError (id : string) (c : approvalCoordinator) : GatewayError :=
  NotActive id (match q_active c with
                | h :: _ => match q_heap c !! h with Some p => pa_id p | None => "" end
                | [] => ""
                end).

Definition resolveLocked (h : nat) (decision : ApprovalDecision) (c : approvalCoordinator)
  : result GatewayError unit * approvalCoordinator :=
  match q_heap c !! h with
  | None => (Fail ApprovalUnavailable, c)
  | Some p =>
    if negb (is_pending h c) then (Fail (approvalNotPendingError (pa_id p) c), c) else
    if negb (isActiveLocked h c) then (Fail (approvalNotActiveError (pa_id p) c), c) else
    match ResolveNativeResponse to_lower (pa_options p) (d_Response decision) with
    | Fail e => (Fail (InvalidDecision e), c)
    | Ok response =>
      match settleLocked h "resolved" c with
      | (Fail e, c) => (Fail e, c)
      | (Ok _, c) =>
        (Ok tt, activateNextLocked (removeLocked h "resolved" (send_decision h (MkDecision (pa_id p) response) c)))
      end
    end
  end.

(** ** The methods *)

Definition approvalRequestID (req : option ApprovalRequest) : string :=
  match req with Some r => trim_space (rq_PauseTokenID r) | None => "" end.

Definition autoApprovalParallelGroup (req : option ApprovalRequest) : string * option nat :=
  match req with
  | None => ("", None)
  | Some r =>
    match rq_ModelStep r with
    | None => ("", None)
    | Some step =>
      let stepID := trim_space (ms_ID step) in
      let runID := trim_space (rq_RunID r) in
      let turnID := trim_space (rq_TurnID r) in
      if bool_decide (ms_admission step = None) || (stepID =? "") || (runID =? "") || (turnID =? "")
         || (ms_CallCount step <? 2)%Z || (ms_Index step <? 0)%Z || (ms_CallCount step <=? ms_Index step)%Z
      then ("", None)
      else (runID ++ String "000"%char (turnID ++ String "000"%char stepID), ms_admission step)
    end
  end.

(** [fmt.Sprintf("%06d", n)]. *)
Definition pad6 (n : Z) : string :=
  let digits := pretty (Z.to_N n) in
  string_of_list_ascii (replicate (6 - String.length digits) "0"%char) ++ digits.

(** The request identifier, and the coordinator after drawing one. *)
Definition requestIdentity (req : option ApprovalRequest) (c : approvalCoordinator) : string * approvalCoordinator :=
  let id := approvalRequestID req in
  if negb (id =? "") then (id, c) else
  let n := u64_succ (q_requests c) in
  let prefix := trim_space (q_sessionID c) in
  ((if prefix =? "" then "session" else prefix) ++ "-approval-" ++ pad6 n, set_requests n c).

Definition enqueue (owner : option nat) (ownerTerminal : bool) (req : option ApprovalRequest) (publishOnActivate : bool)
  (c : approvalCoordinator) : result GatewayError nat * approvalCoordinator :=
  let detached := match req with Some r => rq_Detached r | None => false end in
  if bool_decide (owner <> None) && ownerTerminal && negb detached then (Fail ApprovalUnavailable, c) else
  let '(id, c) := requestIdentity req c in
  if bool_decide (is_Some (q_pending c !! id)) then (Fail AlreadyPending, c) else
  let state := trim_space (default "" (q_settled c !! id)) in
  if negb (state =? "") then (Fail (NoLongerPending id state), c) else
  let '(group, done) := if publishOnActivate then ("", None) else autoApprovalParallelGroup req in
  let h := q_next c in
  let p := MkPending id (req ≫= rq_Options) owner detached publishOnActivate group done None false false [] false false in
  let c := MkCoordinator (q_sessionID c) (<[id := h]> (q_pending c)) (q_settled c) (q_queue c ++ [h])%list (q_active c)
             (q_group c) (q_groupDone c) (q_groupOwner c) (q_requests c) (<[h := p]> (q_heap c)) (S h)
             (MarkAdmissionComplete (req ≫= rq_ModelStep) (q_admissions c)) (q_watchers c) (q_fault c) in
  let c := activateNextLocked c in
  match q_heap c !! h ≫= pa_activationErr with
  | Some e => (Fail (ActivationError e), c)
  | None => (Ok h, c)
  end.

Definition submit (decision : ApprovalDecision) (c : approvalCoordinator) : result GatewayError unit * approvalCoordinator :=
  let id := trim_space (d_RequestID decision) in
  if id =? "" then (Fail RequestIDRequired, c) else
  match q_pending c !! id with
  | None => (Fail (approvalNotPendingError id c), c)
  | Some h =>
    match q_heap c !! h with
    | None => (Fail ApprovalUnavailable, c)
    | Some p =>
      if negb (pa_publishOnActivate p) then (Fail NotCallerResolvable, c) else resolveLocked h decision c
    end
  end.

(** Settle, remove, close: how a request ends without a decision. *)
Definition drop_pending (state : string) (h : nat) (c : approvalCoordinator) : approvalCoordinator :=
  close_done h (removeLocked h state (snd (settleLocked h state c))).

Definition release (h : nat) (state : string) (c : approvalCoordinator) : approvalCoordinator :=
  if negb (is_pending h c) then c else activateNextLocked (drop_pending state h c).

(** The loops over a copy of the queue: drop the entries still pending that
    the predicate selects. *)
Fixpoint drop_selected (select : pendingApproval -> bool) (state : string) (hs : list nat) (c : approvalCoordinator)
  : approvalCoordinator :=
  match hs with
  | [] => c
  | h :: hs =>
    drop_selected select state hs
      (if is_pending h c && match q_heap c !! h with Some p => select p | None => false end
       then drop_pending state h c else c)
  end.

Definition abandonOwner (owner : nat) (state : string) (c : approvalCoordinator) : approvalCoordinator :=
  let c := drop_selected (fun p => bool_decide (pa_owner p = Some owner) && negb (pa_detached p)) state (q_queue c) c in
  let c := if bool_decide (q_groupOwner c = Some owner) then set_group "" None None c else c in
  activateNextLocked c.

Definition invalidateAutoReviews (c : approvalCoordinator) : approvalCoordinator :=
  activateNextLocked (drop_selected (fun p => negb (pa_publishOnActivate p)) "cancelled" (q_queue c) c).

(** [clear] visits the registry in map order; each visit settles, removes and
    closes one request. *)
Definition clear (order : list nat) (state : string) (c : approvalCoordinator) : approvalCoordinator :=
  let c := drop_selected (fun _ => true) state order c in
  set_group "" None None (set_active [] 
    (MkCoordinator (q_sessionID c) (q_pending c) (q_settled c) [] (q_active c) (q_group c) (q_groupDone c)
       (q_groupOwner c) (q_requests c) (q_heap c) (q_next c) (q_admissions c) (q_watchers c) (q_fault c))).

(** The goroutine of [watchParallelAdmissionLocked], once its barrier closed. *)
Definition admissionClosed (group : string) (done : nat) (c : approvalCoordinator) : approvalCoordinator :=
  if negb (q_group c =? group) || negb (bool_decide (q_groupDone c = Some done)) then c
  else activateNextLocked c.
End Coordinator.
