(* ===== verification/QueueProps.v ===== *)
(** * Correctness of the approval coordinator

    The invariant of [ApprovalQueue] and what it gives: every request ends
    exactly once, by one delivered decision or by a closed [done] channel,
    approvals are activated in cohorts at the head of the FIFO, the mutex is
    never blocked by a channel operation, and the queue never idles. *)

From Stdlib Require Import ZArith Lia Ascii String.
From stdpp Require Import base list strings option gmap.
From S2P Require Import Prelude GoStrings Fence Approval ApprovalQueue.

Local Open Scope string_scope.

(** ** [remove_first] *)

Lemma remove_first_notin h l : (h ∉ l) -> remove_first h l = l.
Proof.
  induction l as [|x l IH]; simpl; [done|]. rewrite not_elem_of_cons. intros [Hx Hl].
  destruct (Nat.eqb_spec x h); [by subst|]. by rewrite IH.
Qed.

Lemma elem_of_remove_first x h l : NoDup l -> x ∈ remove_first h l <-> x ∈ l /\ x <> h.
Proof.
  induction 1 as [|y l Hy _ IH]; simpl; [set_solver|].
  destruct (Nat.eqb_spec y h) as [->|Hne]; [|rewrite !elem_of_cons, IH; set_solver].
  rewrite elem_of_cons. split; [intros Hx; split; [by right|by intros ->]|naive_solver].
Qed.

Lemma remove_first_nodup h l : NoDup l -> NoDup (remove_first h l).
Proof.
  intros Hl. induction Hl as [|y l Hy Hl IH]; simpl; [constructor|].
  destruct (Nat.eqb_spec y h); [done|]. constructor; [|done]. rewrite elem_of_remove_first by done. naive_solver.
Qed.

Lemma remove_first_snoc h l : (h ∉ l) -> remove_first h (l ++ [h]) = l.
Proof.
  induction l as [|x l IH]; simpl; [by rewrite Nat.eqb_refl|]. rewrite not_elem_of_cons. intros [Hx Hl].
  destruct (Nat.eqb_spec x h); [by subst|]. by rewrite IH.
Qed.

Lemma remove_first_length h l : (length (remove_first h l) <= length l)%nat.
Proof. induction l as [|x l IH]; simpl; [done|]. destruct (x =? h)%nat; simpl; lia. Qed.

Lemma filter_remove_first (f : nat -> bool) h l : h ∈ l -> f h = true ->
  S (length (List.filter f (remove_first h l))) = length (List.filter f l).
Proof.
  induction l as [|x l IH]; [by rewrite elem_of_nil|]. rewrite elem_of_cons. simpl. intros Hin Hf.
  destruct (Nat.eqb_spec x h) as [->|Hne]; [by rewrite Hf|]. destruct Hin as [->|Hin]; [done|].
  simpl. destruct (f x); simpl; rewrite <- IH; auto.
Qed.

Lemma filter_shrink (f g : nat -> bool) h l : (forall x, g x = true -> f x = true) ->
  h ∈ l -> f h = true -> g h = false -> (length (List.filter g l) < length (List.filter f l))%nat.
Proof.
  intros Hgf. assert (Hle : forall l, (length (List.filter g l) <= length (List.filter f l))%nat).
  { clear -Hgf. induction l as [|x l IH]; simpl; [done|].
    destruct (g x) eqn:Hg; [rewrite (Hgf _ Hg); simpl; lia|]. destruct (f x); simpl; lia. }
  induction l as [|x l IH]; [by rewrite elem_of_nil|]. rewrite elem_of_cons. intros Hin Hf Hg. simpl.
  destruct (decide (h = x)) as [->|Hne].
  - rewrite Hf, Hg. simpl. specialize (Hle l). lia.
  - destruct Hin as [->|Hin]; [done|]. specialize (IH Hin Hf Hg).
    destruct (g x) eqn:Hgx; [rewrite (Hgf _ Hgx); simpl; lia|]. destruct (f x); simpl; lia.
Qed.

Section Props.
Context (to_lower : string -> string) (cb : callbacks).

(** ** The invariant *)

Definition good_decision (p : pendingApproval) (d : ApprovalDecision) : Prop :=
  d_RequestID d = pa_id p /\ exists r, ResolveNativeResponse to_lower (pa_options p) r = Ok (d_Response d).

Definition open_entry (p : pendingApproval) : Prop := pa_done p = false /\ pa_decisions p = [].

Definition ended (p : pendingApproval) : Prop :=
  (pa_done p = true /\ pa_decisions p = []) \/
  (pa_done p = false /\ exists d, pa_decisions p = [d] /\ good_decision p d).

Record queue_inv (c : approvalCoordinator) : Prop := {
  qi_heap h p : q_heap c !! h = Some p ->
    (h ∈ q_queue c /\ open_entry p /\ q_pending c !! pa_id p = Some h /\ (pa_activated p = true <-> h ∈ q_active c))
    \/ ((h ∉ q_queue c) /\ ended p);
  qi_queue h : h ∈ q_queue c -> is_Some (q_heap c !! h);
  qi_pending id h : q_pending c !! id = Some h -> exists p, q_heap c !! h = Some p /\ pa_id p = id /\ h ∈ q_queue c;
  qi_nodup : NoDup (q_queue c);
  qi_nodup_active : NoDup (q_active c);
  qi_active h : h ∈ q_active c -> h ∈ q_queue c;
  qi_manual h p : q_heap c !! h = Some p -> pa_publishOnActivate p = true -> pa_parallelGroup p = "";
  qi_cohort : (length (q_active c) <= 1)%nat \/
    exists g, g <> "" /\ forall h p, h ∈ q_active c -> q_heap c !! h = Some p -> pa_parallelGroup p = g;
  qi_group : q_group c <> "" ->
    forall h p, h ∈ q_active c -> q_heap c !! h = Some p -> pa_parallelGroup p = q_group c;
  qi_next h : (q_next c <= h)%nat -> q_heap c !! h = None;
  qi_fault : q_fault c = false;
}.

Lemma queue_inv_new sessionID : queue_inv (newApprovalCoordinator sessionID).
Proof. constructor; simpl; try (intros; set_solver); try constructor; auto. Qed.

(** The entry behind a handle of the queue. *)
Lemma queue_entry c h : queue_inv c -> h ∈ q_queue c ->
  exists p, q_heap c !! h = Some p /\ open_entry p /\ q_pending c !! pa_id p = Some h
            /\ (pa_activated p = true <-> h ∈ q_active c).
Proof.
  intros Hi Hh. destruct (qi_queue _ Hi _ Hh) as [p Hp]. exists p. split; [done|].
  destruct (qi_heap _ Hi _ _ Hp) as [(_&?)|[? _]]; done.
Qed.

Lemma is_pending_queue c h : queue_inv c -> is_pending h c = true <-> h ∈ q_queue c.
Proof.
  intros Hi. unfold is_pending. split.
  - destruct (q_heap c !! h) as [p|] eqn:Hp; [|done]. intros H%bool_decide_eq_true.
    by destruct (qi_pending _ Hi _ _ H) as (?&_&_&?).
  - intros Hh. destruct (queue_entry _ _ Hi Hh) as (p&->&_&H&_). by apply bool_decide_eq_true.
Qed.

(** Fields of an entry the invariant reads. *)
Definition same_entry (p p' : pendingApproval) : Prop :=
  pa_id p' = pa_id p /\ pa_options p' = pa_options p /\ pa_publishOnActivate p' = pa_publishOnActivate p
  /\ pa_parallelGroup p' = pa_parallelGroup p.

Lemma same_entry_ended p p' : same_entry p p' -> pa_done p' = pa_done p -> pa_decisions p' = pa_decisions p ->
  ended p -> ended p'.
Proof.
  intros (H1&H2&H3&H4) Hd Hs. unfold ended, good_decision. rewrite Hd, Hs, H1, H2. done.
Qed.

(** Flags outside the invariant may change. *)
Lemma flag_inv c h f :
  (forall p, same_entry p (f p) /\ pa_done (f p) = pa_done p /\ pa_decisions (f p) = pa_decisions p
             /\ pa_activated (f p) = pa_activated p) ->
  queue_inv c -> queue_inv (set_heap (alter f h) c).
Proof.
  intros Hf [H1 H2 H3 H4 H5 H6 H7 H8 H9 H10 H11].
  assert (Hl : forall x p, alter f h (q_heap c) !! x = Some p ->
    exists p0, q_heap c !! x = Some p0 /\ same_entry p0 p /\ pa_done p = pa_done p0
               /\ pa_decisions p = pa_decisions p0 /\ pa_activated p = pa_activated p0).
  { intros x p. destruct (decide (h = x)) as [<-|Hne].
    - rewrite lookup_alter_eq. destruct (q_heap c !! h) as [p0|]; [|done]. intros [= <-]. eauto.
    - rewrite lookup_alter_ne by done. intros Hp. exists p. by repeat split. }
  constructor; simpl; try done.
  - intros x p Hp. destruct (Hl _ _ Hp) as (p0&Hp0&Hs&Hd&He&Ha). destruct (H1 _ _ Hp0) as [(?&[??]&?&?)|[??]].
    + left. destruct Hs as (Hid&_). unfold open_entry. rewrite Hd, He, Hid, Ha. done.
    + right. split; [done|]. by eapply same_entry_ended.
  - intros x Hx. destruct (decide (h = x)) as [<-|Hne]; [rewrite lookup_alter_eq|rewrite lookup_alter_ne by done]; [|auto].
    destruct (H2 _ Hx) as [p ->]. eauto.
  - intros id x Hx. destruct (H3 _ _ Hx) as (p&Hp&Hid&Hq). destruct (decide (h = x)) as [<-|Hne].
    + rewrite lookup_alter_eq, Hp. exists (f p). destruct (Hf p) as ((->&_)&_). done.
    + rewrite lookup_alter_ne by done. eauto.
  - intros x p Hp. destruct (Hl _ _ Hp) as (p0&Hp0&(_&_&->&->)&_). eauto.
  - destruct H8 as [?|(g&Hg&H8)]; [by left|right]. exists g. split; [done|].
    intros x p Hx Hp. destruct (Hl _ _ Hp) as (p0&Hp0&(_&_&_&->)&_). eauto.
  - intros Hg x p Hx Hp. destruct (Hl _ _ Hp) as (p0&Hp0&(_&_&_&->)&_). eauto.
  - intros x Hx. destruct (decide (h = x)) as [<-|Hne]; [rewrite lookup_alter_eq|rewrite lookup_alter_ne by done];
      rewrite H10 by done; done.
Qed.

(** An entry of the queue ends: it leaves the registry, the FIFO and the active
    cohort, and its outcome is recorded. *)
Definition end_entry (h : nat) (p : pendingApproval) (settled : gmap string string) (c : approvalCoordinator)
  : approvalCoordinator :=
  MkCoordinator (q_sessionID c) (delete (pa_id p) (q_pending c)) settled (remove_first h (q_queue c))
    (remove_first h (q_active c)) (q_group c) (q_groupDone c) (q_groupOwner c) (q_requests c)
    (<[h := p]> (q_heap c)) (q_next c) (q_admissions c) (q_watchers c) false.

Lemma end_inv c h p p' settled : queue_inv c -> h ∈ q_queue c -> q_heap c !! h = Some p ->
  same_entry p p' -> ended p' -> queue_inv (end_entry h p' settled c).
Proof.
  intros Hi Hh Hp (Eid&_&Ep&Eg) He. pose proof Hi as [H1 H2 H3 H4 H5 H6 H7 H8 H9 H10 H11].
  destruct (queue_entry _ _ Hi Hh) as (p0&Hp0&_&Hpend&_).
  assert (p0 = p) as -> by congruence. clear Hp0.
  assert (Hl : forall x q, <[h := p']> (q_heap c) !! x = Some q -> x <> h -> q_heap c !! x = Some q).
  { intros x q Hq Hx. by rewrite lookup_insert_ne in Hq. }
  assert (Hact : forall x, x ∈ remove_first h (q_active c) -> x ∈ q_active c /\ x <> h)
    by (intros x; by rewrite elem_of_remove_first).
  constructor; simpl; try done.
  - intros x q Hq. destruct (decide (x = h)) as [->|Hx].
    + rewrite lookup_insert_eq in Hq. simplify_eq. right. rewrite elem_of_remove_first by done. naive_solver.
    + specialize (Hl _ _ Hq Hx). rewrite !elem_of_remove_first by done.
      destruct (H1 _ _ Hl) as [(Ha&Hb&Hc&Hd)|[Ha Hb]]; [left|right; naive_solver].
      split_and!; [done..|  |naive_solver]. rewrite lookup_delete_ne; [done|]. rewrite Eid. intros E. rewrite <- E in Hc. congruence.
  - intros x. rewrite elem_of_remove_first by done. intros [Hx Hne]. rewrite lookup_insert_ne by done. auto.
  - intros id x. rewrite Eid. destruct (decide (pa_id p = id)) as [<-|Hne]; [by rewrite lookup_delete_eq|].
    rewrite lookup_delete_ne by done. intros Hx. destruct (H3 _ _ Hx) as (q&Hq&Hid&Hin). exists q.
    assert (x <> h) by (intros ->; rewrite Hp in Hq; simplify_eq).
    rewrite lookup_insert_ne, elem_of_remove_first by done. naive_solver.
  - by apply remove_first_nodup.
  - by apply remove_first_nodup.
  - intros x [Hx Hne]%Hact. rewrite elem_of_remove_first by done. auto.
  - intros x q Hq. destruct (decide (x = h)) as [->|Hx]; [|eauto].
    rewrite lookup_insert_eq in Hq. simplify_eq. rewrite Ep, Eg. eauto.
  - destruct H8 as [H8|(g&Hg&H8)]; [left; pose proof (remove_first_length h (q_active c)); lia|right].
    exists g. split; [done|]. intros x q [Hx Hne]%Hact Hq. eauto.
  - intros Hg x q [Hx Hne]%Hact Hq. eauto.
  - intros x Hx. destruct (decide (x = h)) as [->|Hne]; [by rewrite H10 in Hp|]. rewrite lookup_insert_ne by done. auto.
Qed.

(** ** The ways an entry ends *)

Lemma settle_inv c h state : queue_inv c -> queue_inv (snd (settleLocked cb h state c)).
Proof.
  intros Hi. unfold settleLocked. destruct (q_heap c !! h) as [p|]; [|done]. destruct (_ || _); [done|].
  destruct (pa_owner p ≫= settleApproval cb) as [call|]; [|done].
  destruct (result_bind _ _) as [[]|e]; [|done]. apply flag_inv; [|done]. intros q. by repeat split.
Qed.

(** Settlement touches one flag of one entry. *)
Lemma settle_frame c h state : let c' := snd (settleLocked cb h state c) in
  q_queue c' = q_queue c /\ q_pending c' = q_pending c /\ q_active c' = q_active c /\ q_settled c' = q_settled c
  /\ q_group c' = q_group c /\ q_groupOwner c' = q_groupOwner c
  /\ (forall x, pa_id <$> q_heap c' !! x = pa_id <$> q_heap c !! x)
  /\ forall x p', q_heap c' !! x = Some p' -> exists p, q_heap c !! x = Some p /\ same_entry p p'
       /\ pa_owner p' = pa_owner p /\ pa_detached p' = pa_detached p /\ pa_decisions p' = pa_decisions p /\ pa_done p' = pa_done p.
Proof.
  cbv zeta. assert (Hrefl : forall x p', q_heap c !! x = Some p' -> exists p, q_heap c !! x = Some p /\ same_entry p p'
       /\ pa_owner p' = pa_owner p /\ pa_detached p' = pa_detached p /\ pa_decisions p' = pa_decisions p /\ pa_done p' = pa_done p)
    by (intros x p' Hp'; exists p'; by repeat split).
  unfold settleLocked. destruct (q_heap c !! h) as [p|]; [|done]. destruct (_ || _); [done|].
  destruct (pa_owner p ≫= settleApproval cb) as [call|]; [|done]. destruct (result_bind _ _) as [[]|e]; [|done].
  simpl. split_and!; try done.
  - intros x. destruct (decide (h = x)) as [<-|Hne]; [rewrite lookup_alter_eq|by rewrite lookup_alter_ne].
    by destruct (q_heap c !! h).
  - intros x p'. destruct (decide (h = x)) as [<-|Hne]; [rewrite lookup_alter_eq|rewrite lookup_alter_ne by done; apply Hrefl].
    destruct (q_heap c !! h) as [q|] eqn:Hq; [|done]. intros [= <-]. exists q. by repeat split.
Qed.

Lemma alter_insert {A} (f : A -> A) (m : gmap nat A) h x : m !! h = Some x -> alter f h m = <[h := f x]> m.
Proof.
  intros H. apply map_eq. intros i. destruct (decide (h = i)) as [<-|Hne];
    [by rewrite lookup_alter_eq, lookup_insert_eq, H|by rewrite lookup_alter_ne, lookup_insert_ne].
Qed.

Lemma close_inv c h state : queue_inv c -> h ∈ q_queue c -> queue_inv (close_done h (removeLocked h state c)).
Proof.
  intros Hi Hh. destruct (queue_entry _ _ Hi Hh) as (p&Hp&[Hd Hs]&_).
  unfold removeLocked. rewrite Hp. unfold close_done, set_heap, raise_fault. simpl.
  rewrite Hp, Hd, (qi_fault _ Hi), (alter_insert _ _ _ _ Hp). simpl.
  apply (end_inv c h p (p_done true p)); [done|done|exact Hp|by repeat split|by left].
Qed.

Lemma drop_inv c h state : queue_inv c -> h ∈ q_queue c -> queue_inv (drop_pending cb state h c).
Proof.
  intros Hi Hh. apply close_inv; [by apply settle_inv|]. by destruct (settle_frame c h state) as (->&_).
Qed.

Lemma send_inv c h p d state : queue_inv c -> h ∈ q_queue c -> q_heap c !! h = Some p -> good_decision p d ->
  queue_inv (removeLocked h state (send_decision h d c)).
Proof.
  intros Hi Hh Hp Hg. destruct (queue_entry _ _ Hi Hh) as (p0&Hp0&[Hd Hs]&_).
  assert (p0 = p) as -> by congruence. clear Hp0.
  unfold send_decision, set_heap, raise_fault. simpl. rewrite Hp, Hs, (qi_fault _ Hi), (alter_insert _ _ _ _ Hp). simpl.
  unfold removeLocked. simpl. rewrite lookup_insert_eq. rewrite Hs. simpl.
  apply (end_inv c h p (p_decisions [d] p)); [done|done|exact Hp|by repeat split|].
  right. split; [done|]. exists d. done.
Qed.

(** ** Activation *)

(** An entry may join the active cohort. *)
Definition may_join (c : approvalCoordinator) (p : pendingApproval) : Prop :=
  (q_active c = [] \/ q_group c <> "") /\ (q_group c <> "" -> pa_parallelGroup p = q_group c).

Lemma join_inv c h p : queue_inv c -> h ∈ q_queue c -> (h ∉ q_active c) -> q_heap c !! h = Some p -> may_join c p ->
  queue_inv (close_activated h (set_active (q_active c ++ [h])%list c)).
Proof.
  intros Hi Hh Hna Hp [Hj1 Hj2]. pose proof Hi as [H1 H2 H3 H4 H5 H6 H7 H8 H9 H10 H11].
  destruct (queue_entry _ _ Hi Hh) as (p0&Hp0&Ho&Hpend&Hact). assert (p0 = p) as -> by congruence. clear Hp0.
  assert (Ha : pa_activated p = false) by (destruct (pa_activated p); naive_solver).
  unfold close_activated, raise_fault, set_active, set_heap. simpl. rewrite Hp, Ha, H11, (alter_insert _ _ _ _ Hp).
  assert (Hin : forall x, x ∈ (q_active c ++ [h])%list <-> x ∈ q_active c \/ x = h)
    by (intros x; rewrite elem_of_app, list_elem_of_singleton; done).
  constructor; simpl; try done.
  - intros x q Hq. rewrite Hin. destruct (decide (x = h)) as [->|Hx].
    + rewrite lookup_insert_eq in Hq. injection Hq as <-. left. simpl. split_and!; try done. naive_solver.
    + rewrite lookup_insert_ne in Hq by done. destruct (H1 _ _ Hq) as [(?&?&?&?)|[??]]; naive_solver.
  - intros x Hx. destruct (decide (x = h)) as [->|Hne]; [rewrite lookup_insert_eq; eauto|].
    rewrite lookup_insert_ne by done. auto.
  - intros id x Hx. destruct (H3 _ _ Hx) as (q&Hq&Hid&Hqq). destruct (decide (x = h)) as [->|Hne].
    + rewrite lookup_insert_eq. rewrite Hp in Hq. simplify_eq. eexists. by repeat split.
    + rewrite lookup_insert_ne by done. eauto.
  - apply NoDup_app. split_and!; [done| |apply NoDup_singleton]. intros x Hx. rewrite list_elem_of_singleton. by intros ->.
  - intros x [Hx| ->]%Hin; auto.
  - intros x q Hq. destruct (decide (x = h)) as [->|Hne]; [|rewrite lookup_insert_ne in Hq by done; eauto].
    rewrite lookup_insert_eq in Hq. injection Hq as <-. simpl. eauto.
  - destruct Hj1 as [->|Hg]; [by left|right]. exists (q_group c). split; [done|].
    intros x q [Hx| ->]%Hin Hq.
    + rewrite lookup_insert_ne in Hq by (intros ->; done). eauto.
    + rewrite lookup_insert_eq in Hq. injection Hq as <-. simpl. auto.
  - intros Hg x q [Hx| ->]%Hin Hq.
    + rewrite lookup_insert_ne in Hq by (intros ->; done). eauto.
    + rewrite lookup_insert_eq in Hq. injection Hq as <-. simpl. auto.
  - intros x Hx. destruct (decide (x = h)) as [->|Hne]; [by rewrite H10 in Hp|]. rewrite lookup_insert_ne by done. auto.
Qed.

Lemma waiting_join c c' h : h ∈ q_queue c -> (h ∉ q_active c) -> q_queue c' = q_queue c ->
  q_active c' = (q_active c ++ [h])%list -> (waiting c' < waiting c)%nat.
Proof.
  intros Hh Hna Hq Ha. unfold waiting. rewrite Hq. apply (filter_shrink _ _ h); [|done|..]; unfold isActiveLocked; rewrite ?Ha.
  - intros x. rewrite !negb_true_iff, !bool_decide_eq_false, elem_of_app. naive_solver.
  - by rewrite bool_decide_false.
  - rewrite bool_decide_true; [done|]. rewrite elem_of_app, list_elem_of_singleton. by right.
Qed.

Lemma waiting_end c c' h : h ∈ q_queue c -> (h ∉ q_active c) -> q_queue c' = remove_first h (q_queue c) ->
  q_active c' = q_active c -> (waiting c' < waiting c)%nat.
Proof.
  intros Hh Hna Hq Ha. unfold waiting. rewrite Hq. unfold isActiveLocked. rewrite Ha.
  rewrite <- (filter_remove_first (fun x => negb (bool_decide (x ∈ q_active c))) h (q_queue c)); [lia|done|].
  by rewrite bool_decide_false.
Qed.

Lemma activate_spec c h p : queue_inv c -> h ∈ q_queue c -> (h ∉ q_active c) -> q_heap c !! h = Some p -> may_join c p ->
  let '(ok, c') := activateLocked cb h c in
  queue_inv c' /\ q_group c' = q_group c /\ q_groupDone c' = q_groupDone c /\ (waiting c' < waiting c)%nat
  /\ (ok = true -> h ∈ q_active c').
Proof.
  intros Hi Hh Hna Hp Hj. unfold activateLocked. rewrite Hp.
  assert (Hin : h ∈ (q_active c ++ [h])%list) by (rewrite elem_of_app, list_elem_of_singleton; auto).
  destruct (pa_publishOnActivate p).
  - destruct (persist cb h p) as [u|e].
    + set (c1 := set_heap (alter (p_persisted true) h) c).
      change (set_heap (alter (p_persisted true) h) (set_active (q_active c ++ [h])%list c))
        with (set_active (q_active c1 ++ [h])%list c1).
      split_and!; [|done|done|by eapply waiting_join|done].
      assert (Hi1 : queue_inv c1) by (apply flag_inv; [intros q; by repeat split|done]).
      eapply (join_inv c1 h (p_persisted true p)); [done|done|done| |].
      * unfold c1. simpl. by rewrite lookup_alter_eq, Hp.
      * done.
    + set (c1 := set_heap (alter (p_activationErr e) h) c).
      assert (Hp1 : q_heap c1 !! h = Some (p_activationErr e p)) by (unfold c1; simpl; by rewrite lookup_alter_eq, Hp).
      assert (Hr : removeLocked h "persistence_failed" (set_heap (alter (p_activationErr e) h) (set_active (q_active c ++ [h])%list c))
              = removeLocked h "persistence_failed" c1).
      { unfold removeLocked. change (q_heap (set_heap (alter (p_activationErr e) h) (set_active (q_active c ++ [h])%list c)))
          with (q_heap c1). rewrite Hp1. simpl. by rewrite remove_first_snoc, (remove_first_notin h (q_active c)). }
      rewrite Hr. split_and!; [| | | |done].
      * apply close_inv; [|done]. apply flag_inv; [|done]. intros q. by repeat split.
      * unfold removeLocked. by rewrite Hp1.
      * unfold removeLocked. by rewrite Hp1.
      * eapply waiting_end; [done|done| |]; unfold removeLocked; rewrite Hp1; simpl; [done|]. by apply remove_first_notin.
  - split_and!; [by eapply join_inv|done|done|by eapply waiting_join|done].
Qed.

Lemma set_group_inv c g d o : queue_inv c -> q_active c = [] \/ g = "" -> queue_inv (set_group g d o c).
Proof.
  intros [H1 H2 H3 H4 H5 H6 H7 H8 H9 H10 H11] Hg. constructor; simpl; try done.
  intros Hne h p Hh. destruct Hg as [E|E]; [|done]. rewrite E in Hh. by rewrite elem_of_nil in Hh.
Qed.

Lemma watch_inv c g d : queue_inv c -> queue_inv (watchParallelAdmissionLocked g d c).
Proof.
  intros Hi. unfold watchParallelAdmissionLocked. destruct d; [|done]. destruct (_ =? ""); [done|].
  destruct Hi. by constructor.
Qed.

Lemma next_some c g h : queue_inv c -> nextPendingLocked g c = Some h ->
  exists p, h ∈ q_queue c /\ (h ∉ q_active c) /\ q_heap c !! h = Some p /\ (g <> "" -> pa_parallelGroup p = g).
Proof.
  intros Hi [Hin Hb]%find_some. rewrite <- list_elem_of_In in Hin. rewrite !andb_true_iff, negb_true_iff in Hb.
  destruct Hb as [[_ Ha] Hg]. unfold isActiveLocked in Ha. apply bool_decide_eq_false in Ha.
  destruct (queue_entry _ _ Hi Hin) as (p&Hp&_). exists p. split_and!; try done. rewrite Hp in Hg.
  intros Hne%String.eqb_neq. rewrite Hne in Hg. by apply String.eqb_eq.
Qed.

Lemma next_none c : queue_inv c -> nextPendingLocked "" c = None -> forall h, h ∈ q_queue c -> h ∈ q_active c.
Proof.
  intros Hi Hn h Hh. pose proof (find_none _ _ Hn h) as Hb. rewrite <- list_elem_of_In in Hb. specialize (Hb Hh).
  rewrite (proj2 (is_pending_queue c h Hi) Hh) in Hb. simpl in Hb. rewrite andb_true_r in Hb.
  unfold isActiveLocked in Hb. apply negb_false_iff in Hb. by apply bool_decide_eq_true in Hb.
Qed.

(** The queue is not left idle: if requests wait, some are active, or a cohort
    is open whose admission barrier has not closed. *)
Definition no_idle (c : approvalCoordinator) : Prop :=
  q_queue c <> [] -> q_active c <> [] \/ (q_group c <> "" /\ channelClosed (q_groupDone c) c = false).

Lemma step_spec c : queue_inv c ->
  match activateStep cb c with
  | (None, c') => queue_inv c' /\ no_idle c'
  | (Some c', _) => queue_inv c' /\ (activation_measure c' < activation_measure c)%nat
  end.
Proof.
  intros Hi. unfold activateStep, activation_measure. destruct (q_group c =? "") eqn:Hg; cbn [negb].
  - apply String.eqb_eq in Hg. case_bool_decide as Hact; cbn [negb].
    2: { split; [done|]. intros _. by left. }
    destruct (nextPendingLocked "" c) as [h|] eqn:Hn.
    2: { split; [done|]. intros Hq. exfalso. apply Hq. apply elem_of_nil_inv. intros x Hx.
         apply (next_none c Hi Hn) in Hx. rewrite Hact in Hx. by apply elem_of_nil in Hx. }
    destruct (next_some _ _ _ Hi Hn) as (p&Hh&Hna&Hp&_). rewrite Hp.
    set (c1 := if negb _ then _ else c).
    assert (H1 : queue_inv c1 /\ q_queue c1 = q_queue c /\ q_active c1 = [] /\ q_heap c1 = q_heap c
                 /\ q_group c1 = pa_parallelGroup p /\ waiting c1 = waiting c).
    { unfold c1. destruct (pa_parallelGroup p =? "") eqn:E; simpl.
      - apply String.eqb_eq in E. rewrite E. done.
      - split; [apply watch_inv, set_group_inv; auto|]. unfold watchParallelAdmissionLocked.
        destruct (pa_parallelDone p); [destruct (trim_space (pa_parallelGroup p) =? "")|]; simpl; split_and!; auto. }
    clearbody c1. destruct H1 as (Hi1&Hq1&Ha1&Hh1&Hg1&Hw1).
    pose proof (activate_spec c1 h p Hi1) as Hs. rewrite Hq1, Ha1, Hh1 in Hs.
    destruct (activateLocked cb h c1) as [ok c']. destruct Hs as (Hi'&Hg'&_&Hw'&Hok); [done|apply not_elem_of_nil|done| |].
    { split; [by left|]. by rewrite Hg1. }
    destruct (ok && (q_group c' =? "")) eqn:E.
    + apply andb_true_iff in E as [-> _]. split; [done|]. intros _. left. specialize (Hok eq_refl). intros E'.
      rewrite E' in Hok. by apply elem_of_nil in Hok.
    + split; [done|]. rewrite Hw1 in Hw'. destruct (q_group c' =? ""); lia.
  - destruct (nextPendingLocked (q_group c) c) as [h|] eqn:Hn.
    + destruct (next_some _ _ _ Hi Hn) as (p&Hh&Hna&Hp&Hgp). apply String.eqb_neq in Hg.
      pose proof (activate_spec c h p Hi Hh Hna Hp) as Hs. destruct (activateLocked cb h c) as [ok c'].
      destruct Hs as (Hi'&Hg'&_&Hw'&_); [split; [by right|auto]|]. simpl. split; [done|]. rewrite Hg'.
      apply String.eqb_neq in Hg. rewrite Hg. lia.
    + apply String.eqb_neq in Hg. case_bool_decide as Hact; cbn [negb orb].
      * destruct (channelClosed (q_groupDone c) c) eqn:Hc; cbn [negb].
        -- split; [apply set_group_inv; auto|]. simpl. unfold waiting, isActiveLocked. simpl. lia.
        -- split; [done|]. intros _. right. done.
      * split; [done|]. intros _. by left.
Qed.

Lemma loop_spec fuel c : queue_inv c -> (activation_measure c < fuel)%nat ->
  queue_inv (activate_loop cb fuel c) /\ no_idle (activate_loop cb fuel c).
Proof.
  revert c. induction fuel as [|fuel IH]; intros c Hi Hf; [lia|]. simpl. pose proof (step_spec c Hi) as Hs.
  destruct (activateStep cb c) as [[c'|] c'']; [|done]. destruct Hs as [Hi' Hm]. apply IH; [done|lia].
Qed.

Lemma activateNext_spec c : queue_inv c -> queue_inv (activateNextLocked cb c) /\ no_idle (activateNextLocked cb c).
Proof. intros Hi. apply loop_spec; [done|lia]. Qed.

(** ** Entries outside the queue are left alone *)

Definition shrinks (c c' : approvalCoordinator) : Prop :=
  (forall x, x ∈ q_queue c' -> x ∈ q_queue c) /\ (forall x, (x ∉ q_queue c) -> q_heap c' !! x = q_heap c !! x).

Lemma shrinks_refl c : shrinks c c.
Proof. by split. Qed.

Lemma shrinks_trans c1 c2 c3 : shrinks c1 c2 -> shrinks c2 c3 -> shrinks c1 c3.
Proof. intros [H1 H2] [H3 H4]. split; [auto|]. intros x Hx. rewrite H4 by auto. auto. Qed.

(** A step that keeps the registry and changes the entry of one queued handle. *)
Lemma shrinks_alter c c' h f : h ∈ q_queue c -> q_queue c' = q_queue c -> q_heap c' = alter f h (q_heap c) -> shrinks c c'.
Proof.
  intros Hh Hq Hp. split; [by rewrite Hq|]. intros x Hx. rewrite Hp, lookup_alter_ne; [done|]. by intros ->.
Qed.

Lemma shrinks_remove c h state : NoDup (q_queue c) -> shrinks c (removeLocked h state c).
Proof.
  intros Hn. unfold removeLocked. destruct (q_heap c !! h); [|apply shrinks_refl]. split; [|done].
  simpl. intros x. rewrite elem_of_remove_first by done. naive_solver.
Qed.

Lemma remove_queue c h state : queue_inv c -> h ∈ q_queue c -> q_queue (removeLocked h state c) = remove_first h (q_queue c).
Proof. intros Hi Hh. unfold removeLocked. by destruct (qi_queue _ Hi _ Hh) as [p ->]. Qed.

Lemma shrinks_close c h state : queue_inv c -> h ∈ q_queue c -> shrinks c (close_done h (removeLocked h state c)).
Proof.
  intros Hi Hh. split.
  - intros x. simpl. rewrite remove_queue, elem_of_remove_first by (done || apply Hi). naive_solver.
  - intros x Hx. simpl. rewrite lookup_alter_ne by (intros ->; done).
    unfold removeLocked. by destruct (q_heap c !! h).
Qed.

Lemma shrinks_settle c h state : h ∈ q_queue c -> shrinks c (snd (settleLocked cb h state c)).
Proof.
  intros Hh. unfold settleLocked. destruct (q_heap c !! h); [|apply shrinks_refl]. destruct (_ || _); [apply shrinks_refl|].
  destruct (_ ≫= _); [|apply shrinks_refl]. destruct (result_bind _ _); [|apply shrinks_refl].
  by eapply shrinks_alter.
Qed.

Lemma shrinks_drop c h state : queue_inv c -> h ∈ q_queue c -> shrinks c (drop_pending cb state h c).
Proof.
  intros Hi Hh. eapply shrinks_trans; [by apply (shrinks_settle c h state)|].
  apply shrinks_close; [by apply settle_inv|]. by destruct (settle_frame c h state) as (->&_).
Qed.

Lemma shrinks_activate c h : queue_inv c -> h ∈ q_queue c -> shrinks c (snd (activateLocked cb h c)).
Proof.
  intros Hi Hh. unfold activateLocked. destruct (q_heap c !! h) as [p|] eqn:Hp; [|apply shrinks_refl].
  destruct (pa_publishOnActivate p); [destruct (persist cb h p)|].
  - split; [done|]. intros x Hx. simpl. rewrite !lookup_alter_ne by (intros ->; done). done.
  - unfold removeLocked. simpl. rewrite lookup_alter_eq, Hp. simpl. split; simpl.
    + intros x. rewrite elem_of_remove_first by apply Hi. naive_solver.
    + intros x Hx. rewrite !lookup_alter_ne by (intros ->; done). done.
  - by eapply shrinks_alter.
Qed.

Lemma shrinks_step c : queue_inv c ->
  match activateStep cb c with (None, c') => shrinks c c' | (Some c', _) => shrinks c c' end.
Proof.
  intros Hi. unfold activateStep. destruct (q_group c =? ""); cbn [negb].
  - case_bool_decide as Hact; cbn [negb]; [|apply shrinks_refl].
    destruct (nextPendingLocked "" c) as [h|] eqn:Hn; [|apply shrinks_refl].
    destruct (next_some _ _ _ Hi Hn) as (p&Hh&_&Hp&_). rewrite Hp. set (c1 := if negb _ then _ else c).
    assert (H1 : queue_inv c1 /\ q_queue c1 = q_queue c /\ q_heap c1 = q_heap c).
    { unfold c1. destruct (pa_parallelGroup p =? ""); simpl; [done|].
      split; [apply watch_inv, set_group_inv; auto|]. unfold watchParallelAdmissionLocked.
      destruct (pa_parallelDone p); [destruct (trim_space (pa_parallelGroup p) =? "")|]; done. }
    clearbody c1. destruct H1 as (Hi1&Hq1&Hh1).
    assert (Hs : shrinks c (snd (activateLocked cb h c1))).
    { eapply shrinks_trans; [|by apply shrinks_activate; [|rewrite Hq1]]. split; [by rewrite Hq1|by rewrite Hh1]. }
    destruct (activateLocked cb h c1) as [ok c']. by destruct (ok && (q_group c' =? "")).
  - destruct (nextPendingLocked (q_group c) c) as [h|] eqn:Hn.
    + destruct (next_some _ _ _ Hi Hn) as (p&Hh&_). by apply shrinks_activate.
    + destruct (_ || _); [apply shrinks_refl|]. by split.
Qed.

Lemma shrinks_loop fuel c : queue_inv c -> shrinks c (activate_loop cb fuel c).
Proof.
  revert c. induction fuel as [|fuel IH]; intros c Hi; simpl; [apply shrinks_refl|].
  pose proof (step_spec c Hi) as Hs. pose proof (shrinks_step c Hi) as Hf.
  destruct (activateStep cb c) as [[c'|] c'']; [|done]. destruct Hs as [Hi' _]. eapply shrinks_trans; [done|by apply IH].
Qed.

Lemma shrinks_next c : queue_inv c -> shrinks c (activateNextLocked cb c).
Proof. apply shrinks_loop. Qed.

(** ** The methods *)

Lemma drop_selected_spec select state hs c : queue_inv c ->
  queue_inv (drop_selected cb select state hs c) /\ shrinks c (drop_selected cb select state hs c).
Proof.
  revert c. induction hs as [|h hs IH]; intros c Hi; simpl; [split; [done|apply shrinks_refl]|].
  destruct (is_pending h c && _) eqn:E; [|by apply IH]. apply andb_true_iff in E as [Hh _].
  apply (is_pending_queue c h Hi) in Hh. destruct (IH (drop_pending cb state h c) (drop_inv _ _ _ Hi Hh)) as [H1 H2].
  split; [done|]. eapply shrinks_trans; [by apply shrinks_drop|done].
Qed.

Lemma resolve_spec h d c : queue_inv c ->
  let '(res, c') := resolveLocked to_lower cb h d c in
  queue_inv c' /\ shrinks c c' /\ (res = Ok tt -> no_idle c').
Proof.
  intros Hi. unfold resolveLocked. destruct (q_heap c !! h) as [p|] eqn:Hp; [|by split_and!; [|apply shrinks_refl|]].
  destruct (is_pending h c) eqn:Hpend; cbn [negb]; [|by split_and!; [|apply shrinks_refl|]].
  destruct (isActiveLocked h c); cbn [negb]; [|by split_and!; [|apply shrinks_refl|]].
  destruct (ResolveNativeResponse _ _ _) as [response|e] eqn:Hr; [|by split_and!; [|apply shrinks_refl|]].
  apply (is_pending_queue c h Hi) in Hpend.
  pose proof (settle_inv c h "resolved" Hi) as Hi1. pose proof (shrinks_settle c h "resolved" Hpend) as Hs1.
  destruct (settle_frame c h "resolved") as (Hq&_&_&_&_&_&Hid&Hent).
  destruct (settleLocked cb h "resolved" c) as [[[]|e] c1]; cbn [snd] in *; [|by split_and!].
  assert (Hq1 : h ∈ q_queue c1) by (by rewrite Hq).
  destruct (queue_entry _ _ Hi1 Hq1) as (p1&Hp1&_). destruct (Hent _ _ Hp1) as (p0&Hp0&(Eid&Eo&_)&_).
  assert (p0 = p) as -> by congruence.
  set (c2 := removeLocked _ _ _). assert (Hi2 : queue_inv c2).
  { eapply send_inv; [done|done|exact Hp1|]. split; simpl; [by rewrite Eid|]. exists (d_Response d). by rewrite Eo. }
  assert (Hs2 : shrinks c1 c2).
  { eapply shrinks_trans; [|apply shrinks_remove; apply Hi1]. by eapply (shrinks_alter c1 _ h). }
  destruct (activateNext_spec c2 Hi2) as [H1 H2]. split_and!; [done| |done].
  eapply shrinks_trans; [done|]. eapply shrinks_trans; [done|by apply shrinks_next].
Qed.

Lemma insert_inv c p adm : queue_inv c -> q_pending c !! pa_id p = None -> open_entry p -> pa_activated p = false ->
  (pa_publishOnActivate p = true -> pa_parallelGroup p = "") ->
  queue_inv (MkCoordinator (q_sessionID c) (<[pa_id p := q_next c]> (q_pending c)) (q_settled c)
    (q_queue c ++ [q_next c])%list (q_active c) (q_group c) (q_groupDone c) (q_groupOwner c) (q_requests c)
    (<[q_next c := p]> (q_heap c)) (S (q_next c)) adm (q_watchers c) (q_fault c)).
Proof.
  intros Hi Hnone Ho Ha Hm. pose proof Hi as [H1 H2 H3 H4 H5 H6 H7 H8 H9 H10 H11]. set (n := q_next c) in *.
  assert (Hfresh : q_heap c !! n = None) by (by apply H10).
  assert (Hnq : n ∉ q_queue c) by (intros H; destruct (H2 _ H); congruence).
  assert (Hin : forall x, x ∈ (q_queue c ++ [n])%list <-> x ∈ q_queue c \/ x = n)
    by (intros x; rewrite elem_of_app, list_elem_of_singleton; done).
  assert (Hold : forall x q, x ∈ q_active c -> <[n := p]> (q_heap c) !! x = Some q -> q_heap c !! x = Some q).
  { intros x q Hx Hq. rewrite lookup_insert_ne in Hq; [done|]. intros <-. auto. }
  constructor; simpl; try done.
  - intros x q Hq. rewrite Hin. destruct (decide (x = n)) as [->|Hx].
    + rewrite lookup_insert_eq in Hq. simplify_eq. left. rewrite lookup_insert_eq, Ha. split_and!; auto. split; [done|].
      intros H. exfalso. auto.
    + rewrite lookup_insert_ne in Hq by done. destruct (H1 _ _ Hq) as [(?&?&Hpe&?)|[??]]; [left|right; naive_solver].
      split_and!; [by left|done| |naive_solver]. rewrite lookup_insert_ne; [done|]. intros E. rewrite E, Hpe in Hnone. done.
  - intros x [Hx| ->]%Hin; [|rewrite lookup_insert_eq; eauto]. destruct (decide (x = n)) as [->|]; [done|].
    rewrite lookup_insert_ne by done. auto.
  - intros id x. destruct (decide (pa_id p = id)) as [<-|Hne].
    + rewrite lookup_insert_eq. intros [= <-]. exists p. rewrite lookup_insert_eq, Hin. auto.
    + rewrite lookup_insert_ne by done. intros Hx. destruct (H3 _ _ Hx) as (q&Hq&Hid&Hqq). exists q.
      rewrite lookup_insert_ne, Hin by (intros <-; done). auto.
  - apply NoDup_app. split_and!; [done| |apply NoDup_singleton]. intros x Hx. rewrite list_elem_of_singleton. by intros ->.
  - intros x Hx. rewrite Hin. auto.
  - intros x q Hq. destruct (decide (x = n)) as [->|Hne]; [rewrite lookup_insert_eq in Hq; simplify_eq; auto|].
    rewrite lookup_insert_ne in Hq by done. eauto.
  - destruct H8 as [?|(g&Hg&H8)]; [by left|right]. exists g. split; [done|]. intros x q Hx Hq. eauto.
  - intros Hg x q Hx Hq. eauto.
  - intros x Hx. rewrite lookup_insert_ne by lia. apply H10. lia.
Qed.

(** Entries outside the queue keep their outcome. *)
Definition outcomes_kept (c c' : approvalCoordinator) : Prop :=
  forall h p, q_heap c !! h = Some p -> (h ∉ q_queue c) -> q_heap c' !! h = Some p /\ (h ∉ q_queue c').

Lemma shrinks_outcomes c c' : shrinks c c' -> outcomes_kept c c'.
Proof. intros [H1 H2] h p Hp Hh. rewrite H2 by done. auto. Qed.

Lemma requests_inv c n : queue_inv c -> queue_inv (set_requests n c).
Proof. intros []. by constructor. Qed.

Lemma enqueue_spec owner terminal req publish c : queue_inv c ->
  let '(res, c') := enqueue cb owner terminal req publish c in
  queue_inv c' /\ outcomes_kept c c' /\ (is_ok res = true -> no_idle c').
Proof.
  intros Hi. assert (Hsame : forall c0, queue_inv c0 -> q_queue c0 = q_queue c -> q_heap c0 = q_heap c ->
    queue_inv c0 /\ outcomes_kept c c0 /\ (false = true -> no_idle c0)).
  { intros c0 Hi0 Hq Hh. split_and!; [done| |done]. apply shrinks_outcomes. split; [by rewrite Hq|by rewrite Hh]. }
  unfold enqueue. destruct (_ && _ && _); [by apply Hsame|].
  assert (Hid : let '(id, c1) := requestIdentity req c in
    queue_inv c1 /\ q_queue c1 = q_queue c /\ q_heap c1 = q_heap c /\ q_next c1 = q_next c).
  { unfold requestIdentity. destruct (negb _); [done|]. split; [by apply requests_inv|done]. }
  destruct (requestIdentity req c) as [id c1]. destruct Hid as (Hi1&Hq1&Hh1&Hn1).
  case_bool_decide as Hpend; [by apply Hsame|]. destruct (negb _); [by apply Hsame|].
  destruct (if publish then _ else _) as [group done] eqn:Hgrp.
  set (p := MkPending id _ _ _ _ group done None false false [] false false).
  set (c2 := MkCoordinator _ _ _ _ _ _ _ _ _ _ _ _ _ _).
  assert (Hi2 : queue_inv c2).
  { apply (insert_inv c1 p); [done|by apply eq_None_not_Some|done|done|]. simpl. intros ->. by injection Hgrp as <- <-. }
  destruct (activateNext_spec c2 Hi2) as [Hi3 Hidle]. pose proof (shrinks_next c2 Hi2) as [Hs1 Hs2].
  assert (Hk : outcomes_kept c (activateNextLocked cb c2)).
  { intros h q Hq Hh. assert (h <> q_next c1) by (intros ->; rewrite Hn1, (qi_next _ Hi) in Hq by done; done).
    assert (Hh2 : h ∉ q_queue c2).
    { unfold c2. simpl. rewrite Hq1, elem_of_app, list_elem_of_singleton. tauto. }
    split; [|naive_solver]. rewrite Hs2 by done. unfold c2. simpl. rewrite lookup_insert_ne, Hh1 by done. done. }
  destruct (q_heap (activateNextLocked cb c2) !! q_next c1 ≫= pa_activationErr) as [e|]; cbn [is_ok]; (split; [exact Hi3|split; [exact Hk|]]); [by intros H|intros _; exact Hidle].
Qed.

Lemma submit_spec d c : queue_inv c ->
  let '(res, c') := submit to_lower cb d c in queue_inv c' /\ outcomes_kept c c' /\ (res = Ok tt -> no_idle c').
Proof.
  intros Hi. assert (Hk : outcomes_kept c c) by (by intros h p).
  unfold submit. destruct (_ =? ""); [done|]. destruct (q_pending c !! _) as [h|]; [|done].
  destruct (q_heap c !! h) as [p|]; [|done]. destruct (negb _); [done|].
  pose proof (resolve_spec h d c Hi) as H. destruct (resolveLocked _ _ _ _ _). destruct H as (?&?&?).
  split_and!; auto using shrinks_outcomes.
Qed.

Lemma release_spec h state c : queue_inv c ->
  queue_inv (release cb h state c) /\ outcomes_kept c (release cb h state c).
Proof.
  intros Hi. unfold release. destruct (is_pending h c) eqn:E; cbn [negb]; [|split; [done|by intros ? ?]].
  apply (is_pending_queue c h Hi) in E. pose proof (drop_inv c h state Hi E) as Hi1.
  split; [by apply activateNext_spec|]. apply shrinks_outcomes.
  eapply shrinks_trans; [by apply shrinks_drop|by apply shrinks_next].
Qed.

Lemma abandon_spec owner state c : queue_inv c ->
  queue_inv (abandonOwner cb owner state c) /\ outcomes_kept c (abandonOwner cb owner state c)
  /\ no_idle (abandonOwner cb owner state c).
Proof.
  intros Hi. unfold abandonOwner. destruct (drop_selected_spec (fun p => bool_decide (pa_owner p = Some owner) && negb (pa_detached p))
    state (q_queue c) c Hi) as [Hi1 Hs1]. set (c1 := drop_selected _ _ _ _ _) in *.
  set (c2 := if bool_decide _ then _ else c1).
  assert (H2 : queue_inv c2 /\ shrinks c1 c2).
  { unfold c2. case_bool_decide; [|split; [done|apply shrinks_refl]]. split; [apply set_group_inv; auto|by split]. }
  destruct H2 as [Hi2 Hs2]. destruct (activateNext_spec c2 Hi2) as [H3 H4]. split_and!; [done| |done].
  apply shrinks_outcomes. eapply shrinks_trans; [done|]. eapply shrinks_trans; [done|by apply shrinks_next].
Qed.

Lemma invalidate_spec c : queue_inv c ->
  queue_inv (invalidateAutoReviews cb c) /\ outcomes_kept c (invalidateAutoReviews cb c)
  /\ no_idle (invalidateAutoReviews cb c).
Proof.
  intros Hi. unfold invalidateAutoReviews.
  destruct (drop_selected_spec (fun p => negb (pa_publishOnActivate p)) "cancelled" (q_queue c) c Hi) as [Hi1 Hs1].
  destruct (activateNext_spec _ Hi1) as [H3 H4]. split_and!; [done| |done].
  apply shrinks_outcomes. eapply shrinks_trans; [done|by apply shrinks_next].
Qed.

Lemma admission_spec group done c : queue_inv c ->
  queue_inv (admissionClosed cb group done c) /\ outcomes_kept c (admissionClosed cb group done c).
Proof.
  intros Hi. unfold admissionClosed. destruct (_ || _); [split; [done|by intros ? ?]|].
  split; [by apply activateNext_spec|by apply shrinks_outcomes, shrinks_next].
Qed.

Lemma drop_leaves c h state : queue_inv c -> h ∈ q_queue c ->
  forall x, x ∈ q_queue (drop_pending cb state h c) -> x <> h.
Proof.
  intros Hi Hh x. unfold drop_pending. simpl. pose proof (settle_inv c h state Hi) as Hi1.
  destruct (settle_frame c h state) as (Hq&_). rewrite remove_queue, elem_of_remove_first; [naive_solver|apply Hi1|done|by rewrite Hq].
Qed.

Lemma drop_all_leaves state hs c : queue_inv c ->
  forall x, x ∈ q_queue (drop_selected cb (fun _ => true) state hs c) -> (x ∈ q_queue c) /\ (x ∉ hs).
Proof.
  revert c. induction hs as [|h hs IH]; intros c Hi x; simpl; [set_solver|].
  destruct (is_pending h c) eqn:E.
  - pose proof (proj1 (is_pending_queue c h Hi) E) as Hh. destruct (queue_entry _ _ Hi Hh) as (p&->&_). simpl.
    intros [H1 H2]%IH; [|by apply drop_inv]. pose proof (drop_leaves c h state Hi Hh x H1).
    destruct (shrinks_drop c h state Hi Hh) as [H3 _]. rewrite not_elem_of_cons. auto.
  - simpl. intros [H1 H2]%IH; [|done]. rewrite not_elem_of_cons. split_and!; try done.
    intros ->. apply (is_pending_queue c h Hi) in H1. congruence.
Qed.

(** [clear] is given some enumeration of the registry. *)
Lemma clear_spec order state c : queue_inv c -> (forall h, h ∈ q_queue c -> h ∈ order) ->
  queue_inv (clear cb order state c) /\ outcomes_kept c (clear cb order state c) /\ q_queue (clear cb order state c) = []
  /\ forall h p, q_heap (clear cb order state c) !! h = Some p -> ended p.
Proof.
  intros Hi Hord. unfold clear. destruct (drop_selected_spec (fun _ => true) state order c Hi) as [Hi1 Hs1].
  pose proof (drop_all_leaves state order c Hi) as Hl. set (c1 := drop_selected _ _ _ _ _) in *.
  assert (Hq : q_queue c1 = []) by (apply elem_of_nil_inv; intros x [? ?]%Hl; auto).
  assert (Ha : q_active c1 = []).
  { apply elem_of_nil_inv. intros x Hx. apply (qi_active _ Hi1) in Hx. rewrite Hq in Hx. by apply elem_of_nil in Hx. }
  set (c2 := set_group "" None None _). assert (Hi2 : queue_inv c2).
  { apply set_group_inv; [|auto]. destruct Hi1 as [H1 H2 H3 H4 H5 H6 H7 H8 H9 H10 H11]. rewrite Hq, Ha in *. by constructor. }
  split_and!; [done| |done|].
  - apply shrinks_outcomes. eapply shrinks_trans; [done|]. split; [|done]. simpl. intros x Hx. by apply elem_of_nil in Hx.
  - intros h p Hp. destruct (qi_heap _ Hi2 _ _ Hp) as [(H&_)|[_ ?]]; [|done]. by apply elem_of_nil in H.
Qed.
End Props.
