(* ===== verification/QueueReach.v ===== *)
(** * Reachable approval coordinators

    The coordinator of [ApprovalQueue] as a transition system: its methods, the
    watcher goroutine of an admission barrier and the marks other components
    put on barriers, in any order and with any outcome of the callbacks.  The
    theorems are about every coordinator this system reaches. *)

From Stdlib Require Import ZArith Lia Ascii String.
From stdpp Require Import base list strings option gmap relations.
From S2P Require Import Prelude GoStrings Fence Approval ApprovalQueue QueueProps.

Local Open Scope string_scope.

(** ** The transition system *)

Section Reach.
Context (to_lower : string -> string).

(** One call that holds the mutex, or one event outside the coordinator.  [clear] ranges
    over the registry, a Go map, in any order. *)
Inductive queue_step (c : approvalCoordinator) : approvalCoordinator -> Prop :=
| step_enqueue cb owner terminal req publish :
    queue_step c (snd (enqueue cb owner terminal req publish c))
| step_submit cb d : queue_step c (snd (submit to_lower cb d c))
| step_resolve cb h d : queue_step c (snd (resolveLocked to_lower cb h d c))
| step_release cb h state : queue_step c (release cb h state c)
| step_abandon cb owner state : queue_step c (abandonOwner cb owner state c)
| step_invalidate cb : queue_step c (invalidateAutoReviews cb c)
| step_clear cb order state : Permutation order (snd <$> map_to_list (q_pending c)) ->
    queue_step c (clear cb order state c)
| step_new_barrier a calls : q_admissions c !! a = None ->
    queue_step c (set_admissions (<[a := newAdmission calls]> (q_admissions c)) c)
| step_mark step : queue_step c (set_admissions (MarkAdmissionComplete step (q_admissions c)) c)
| step_watcher cb group a l1 l2 : q_watchers c = (l1 ++ (group, a) :: l2)%list -> channelClosed (Some a) c = true ->
    queue_step c (admissionClosed cb group a (set_watchers (l1 ++ l2)%list c)).

Definition queue_reachable (c : approvalCoordinator) : Prop :=
  exists sessionID, rtc queue_step (newApprovalCoordinator sessionID) c.

Lemma admissions_inv c a : queue_inv to_lower c -> queue_inv to_lower (set_admissions a c).
Proof. intros []. by constructor. Qed.

Lemma watchers_inv c w : queue_inv to_lower c -> queue_inv to_lower (set_watchers w c).
Proof. intros []. by constructor. Qed.

Lemma registry_covers c order : queue_inv to_lower c -> Permutation order (snd <$> map_to_list (q_pending c)) ->
  forall h, h ∈ q_queue c -> h ∈ order.
Proof.
  intros Hi Hp h Hh. destruct (queue_entry _ _ _ Hi Hh) as (p&_&_&Hpend&_). rewrite Hp.
  apply list_elem_of_fmap. exists (pa_id p, h). split; [done|]. by apply elem_of_map_to_list.
Qed.

(** Every step keeps the invariant and the outcomes of ended requests. *)
Lemma step_inv c c' : queue_inv to_lower c -> queue_step c c' -> queue_inv to_lower c' /\ outcomes_kept c c'.
Proof.
  intros Hi Hs. destruct Hs as [cb owner terminal req publish|cb d|cb h d|cb h state|cb owner state|cb|cb order state Hord
    |a calls Ha|step|cb group a l1 l2 Hw Hc].
  - pose proof (enqueue_spec to_lower cb owner terminal req publish c Hi) as H. destruct (enqueue _ _ _ _ _ _). naive_solver.
  - pose proof (submit_spec to_lower cb d c Hi) as H. destruct (submit _ _ _ _). naive_solver.
  - pose proof (resolve_spec to_lower cb h d c Hi) as H. destruct (resolveLocked _ _ _ _ _). destruct H as (?&?&_).
    split; [done|by apply shrinks_outcomes].
  - by apply release_spec.
  - destruct (abandon_spec to_lower cb owner state c Hi) as (?&?&_). done.
  - destruct (invalidate_spec to_lower cb c Hi) as (?&?&_). done.
  - destruct (clear_spec to_lower cb order state c Hi) as (?&?&_); [by apply registry_covers|done].
  - split; [by apply admissions_inv|by intros h p].
  - split; [by apply admissions_inv|by intros h p].
  - apply (admission_spec to_lower cb group a (set_watchers (l1 ++ l2)%list c)). by apply watchers_inv.
Qed.

Lemma reachable_queue_inv c : queue_reachable c -> queue_inv to_lower c.
Proof.
  intros (s&Hr). pose proof (queue_inv_new to_lower s) as Hi. induction Hr as [|x y z Hs _ IH]; [done|].
  apply IH. by eapply step_inv.
Qed.

(** ** A cohort that is open is watched *)

(** A request of a parallel group carries the barrier of its model step. *)
Definition groups_barred (c : approvalCoordinator) : Prop :=
  forall h p, q_heap c !! h = Some p -> pa_parallelGroup p <> "" ->
    is_Some (pa_parallelDone p) /\ trim_space (pa_parallelGroup p) <> "".

(** The open cohort has a goroutine waiting for its barrier, unless the barrier closed. *)
Definition group_watched (c : approvalCoordinator) : Prop :=
  q_group c <> "" -> exists a, q_groupDone c = Some a /\ ((q_group c, a) ∈ q_watchers c \/ channelClosed (Some a) c = true).

Definition watched (c : approvalCoordinator) : Prop := groups_barred c /\ group_watched c.

(** The queue is live: when requests are queued, one is active, or a goroutine
    is waiting on the barrier of the open cohort and will activate the next. *)
Definition queue_live (c : approvalCoordinator) : Prop :=
  q_queue c <> [] -> q_active c <> [] \/ exists a, q_groupDone c = Some a /\ (q_group c, a) ∈ q_watchers c.

Lemma no_idle_live c : watched c -> no_idle c -> queue_live c.
Proof.
  intros [_ Hw] Hn Hq. destruct (Hn Hq) as [Ha|[Hg Hc]]; [by left|right].
  destruct (Hw Hg) as (a&Hd&[Hin|Hcl]); [eauto|]. rewrite Hd in Hc. congruence.
Qed.

(** Steps that leave the cohort and the parallel groups of the entries alone. *)
Definition keeps (c c' : approvalCoordinator) : Prop :=
  q_group c' = q_group c /\ q_groupDone c' = q_groupDone c /\ q_watchers c' = q_watchers c
  /\ q_admissions c' = q_admissions c
  /\ forall h p', q_heap c' !! h = Some p' ->
       exists p, q_heap c !! h = Some p /\ pa_parallelGroup p' = pa_parallelGroup p /\ pa_parallelDone p' = pa_parallelDone p.

Lemma keeps_refl c : keeps c c.
Proof. split_and!; eauto. Qed.

Lemma keeps_trans c1 c2 c3 : keeps c1 c2 -> keeps c2 c3 -> keeps c1 c3.
Proof.
  intros (H1&H2&H3&H4&H5) (G1&G2&G3&G4&G5). split_and!; try congruence.
  intros h p (p2&Hp2&E1&E2)%G5. destruct (H5 _ _ Hp2) as (p1&Hp1&E3&E4). exists p1. split_and!; congruence.
Qed.

Lemma keeps_watched c c' : keeps c c' -> watched c -> watched c'.
Proof.
  intros (H1&H2&H3&H4&H5) [Hb Hw]. split.
  - intros h p (p0&Hp0&E1&E2)%H5. rewrite E1, E2. eauto.
  - unfold group_watched, channelClosed. rewrite H1, H2, H3, H4. exact Hw.
Qed.

(** Entry updates the operations use keep the group of the entry. *)
Lemma keeps_alter f h c c' :
  (forall p, pa_parallelGroup (f p) = pa_parallelGroup p /\ pa_parallelDone (f p) = pa_parallelDone p) ->
  q_group c' = q_group c -> q_groupDone c' = q_groupDone c -> q_watchers c' = q_watchers c ->
  q_admissions c' = q_admissions c -> q_heap c' = alter f h (q_heap c) -> keeps c c'.
Proof.
  intros Hf H1 H2 H3 H4 H5. split_and!; try done. intros x p. rewrite H5. destruct (decide (h = x)) as [<-|Hne].
  - rewrite lookup_alter_eq. destruct (q_heap c !! h) as [p0|]; [|done]. intros [= <-]. exists p0. destruct (Hf p0). done.
  - rewrite lookup_alter_ne by done. eauto.
Qed.

Local Ltac keeps_flag f h := eapply (keeps_alter f h); [intros ?; split; reflexivity|reflexivity..].

Lemma keeps_remove h state c : keeps c (removeLocked h state c).
Proof. unfold removeLocked. destruct (q_heap c !! h); [|apply keeps_refl]. split_and!; eauto. Qed.

Lemma keeps_close h c : keeps c (close_done h c).
Proof. keeps_flag (p_done true) h. Qed.

Lemma keeps_settle cb h state c : keeps c (snd (settleLocked cb h state c)).
Proof.
  unfold settleLocked. destruct (q_heap c !! h) as [p|]; [|apply keeps_refl]. destruct (_ || _); [apply keeps_refl|].
  destruct (pa_owner p ≫= _); [|apply keeps_refl]. destruct (result_bind _ _); [|apply keeps_refl].
  keeps_flag (p_settled true) h.
Qed.

Lemma keeps_drop cb h state c : keeps c (drop_pending cb state h c).
Proof.
  eapply keeps_trans; [apply keeps_settle|]. eapply keeps_trans; [apply keeps_remove|apply keeps_close].
Qed.

Lemma keeps_drop_selected cb select state hs c : keeps c (drop_selected cb select state hs c).
Proof.
  revert c. induction hs as [|h hs IH]; intros c; simpl; [apply keeps_refl|].
  eapply keeps_trans; [|apply IH]. destruct (is_pending h c && _); [apply keeps_drop|apply keeps_refl].
Qed.

Lemma keeps_activate cb h c : keeps c (snd (activateLocked cb h c)).
Proof.
  unfold activateLocked. destruct (q_heap c !! h) as [p|]; [|apply keeps_refl].
  assert (Ha : keeps c (set_active (q_active c ++ [h])%list c)) by (split_and!; eauto).
  eapply keeps_trans; [exact Ha|]. set (c1 := set_active _ _).
  destruct (pa_publishOnActivate p); [destruct (persist cb h p) as [u|e]|]; cbn [snd].
  - apply (keeps_trans _ (set_heap (alter (p_persisted true) h) c1)); [keeps_flag (p_persisted true) h|keeps_flag (p_activated true) h].
  - apply (keeps_trans _ (set_heap (alter (p_activationErr e) h) c1)); [keeps_flag (p_activationErr e) h|].
    eapply keeps_trans; [apply keeps_remove|apply keeps_close].
  - keeps_flag (p_activated true) h.
Qed.

(** Opening a cohort starts its watcher. *)
Lemma open_watched c h p : watched c -> q_heap c !! h = Some p -> pa_parallelGroup p <> "" ->
  watched (watchParallelAdmissionLocked (pa_parallelGroup p) (pa_parallelDone p)
             (set_group (pa_parallelGroup p) (pa_parallelDone p) (pa_owner p) c)).
Proof.
  intros [Hb Hw] Hp Hg. destruct (Hb _ _ Hp Hg) as [[a Ha] Ht]. rewrite Ha. unfold watchParallelAdmissionLocked.
  apply String.eqb_neq in Ht. rewrite Ht. split; [exact Hb|]. intros _. exists a. split; [done|]. left. by left.
Qed.

Lemma step_watched cb c : watched c ->
  match activateStep cb c with (None, c') => watched c' | (Some c', _) => watched c' end.
Proof.
  intros Hw. unfold activateStep. destruct (q_group c =? ""); cbn [negb].
  - destruct (negb _); [done|]. destruct (nextPendingLocked "" c) as [h|]; [|done]. set (c1 := match _ with Some _ => _ | None => _ end).
    assert (H1 : watched c1).
    { unfold c1. destruct (q_heap c !! h) as [p|] eqn:Hp; [|done]. destruct (pa_parallelGroup p =? "") eqn:E; [done|].
      apply String.eqb_neq in E. by eapply open_watched. }
    pose proof (keeps_watched _ _ (keeps_activate cb h c1) H1) as H2.
    destruct (activateLocked cb h c1) as [ok c']. by destruct (ok && (q_group c' =? "")).
  - destruct (nextPendingLocked _ c) as [h|]; [eapply keeps_watched; [apply keeps_activate|done]|].
    destruct (_ || _); [done|]. destruct Hw as [Hb _]. split; [exact Hb|]. intros H. by elim H.
Qed.

Lemma next_watched cb c : watched c -> watched (activateNextLocked cb c).
Proof.
  unfold activateNextLocked. generalize (S (activation_measure c)). intros fuel. revert c.
  induction fuel as [|fuel IH]; intros c Hw; simpl; [done|]. pose proof (step_watched cb c Hw) as Hs.
  destruct (activateStep cb c) as [[c'|] c'']; auto.
Qed.

Lemma next_live cb c : queue_inv to_lower c -> watched c -> watched (activateNextLocked cb c) /\ queue_live (activateNextLocked cb c).
Proof.
  intros Hi Hw. pose proof (next_watched cb c Hw) as H. split; [done|]. apply no_idle_live; [done|].
  by apply (activateNext_spec to_lower).
Qed.

(** ** Every step keeps the queue live *)

Lemma auto_group_barred req group done : autoApprovalParallelGroup req = (group, done) -> group <> "" ->
  is_Some done /\ trim_space group <> "".
Proof.
  unfold autoApprovalParallelGroup. intros H Hg.
  destruct req as [r|]; [|by injection H as <- <-]. destruct (rq_ModelStep r) as [step|]; [|by injection H as <- <-].
  case_bool_decide as Ha; simpl in H; [by injection H as <- <-|].
  destruct (_ || _ || _ || _ || _ || _); [by injection H as <- <-|]. injection H as <- <-.
  split; [by apply not_eq_None_Some|apply trim_space_nul].
Qed.

Lemma mark_closed step m a ad : m !! a = Some ad -> ad_done ad = true ->
  exists ad', MarkAdmissionComplete step m !! a = Some ad' /\ ad_done ad' = true.
Proof.
  intros Ha Hd. unfold MarkAdmissionComplete. destruct step as [s|]; [|eauto]. destruct (ms_admission s) as [b|]; [|eauto].
  destruct (_ || _); [eauto|]. destruct (decide (b = a)) as [->|Hne]; [|rewrite lookup_alter_ne by done; eauto].
  rewrite lookup_alter_eq, Ha. eexists. split; [done|]. unfold markAdmission. destruct (ad_seen ad !! _) as [[]|]; try done.
  simpl. by destruct (_ =? 0)%Z.
Qed.

(** Barriers only close. *)
Lemma mark_watched step c : watched c -> watched (set_admissions (MarkAdmissionComplete step (q_admissions c)) c).
Proof.
  intros [Hb Hw]. split; [exact Hb|]. intros Hg. destruct (Hw Hg) as (a&Hd&H). exists a. split; [done|].
  destruct H as [H|H]; [by left|right]. unfold channelClosed in *. simpl.
  destruct (q_admissions c !! a) as [ad|] eqn:Ha; [|done]. destruct (mark_closed step _ _ _ Ha H) as (ad'&->&?). done.
Qed.

Lemma requestIdentity_keeps req c : keeps c (snd (requestIdentity req c)) /\ q_queue (snd (requestIdentity req c)) = q_queue c
  /\ q_active (snd (requestIdentity req c)) = q_active c.
Proof. unfold requestIdentity. destruct (negb _); [by split; [apply keeps_refl|]|]. split; [split_and!; eauto|done]. Qed.

Lemma live_same c c' : keeps c c' -> q_queue c' = q_queue c -> q_active c' = q_active c -> queue_live c -> queue_live c'.
Proof. intros (H1&H2&H3&_) Hq Ha. unfold queue_live. rewrite H1, H2, H3, Hq, Ha. done. Qed.

Lemma enqueue_live cb owner terminal req publish c : queue_inv to_lower c -> watched c -> queue_live c ->
  watched (snd (enqueue cb owner terminal req publish c)) /\ queue_live (snd (enqueue cb owner terminal req publish c)).
Proof.
  intros Hi Hw Hl. unfold enqueue. destruct (_ && _ && _); [done|].
  pose proof (requestIdentity_keeps req c) as (Hk&Hq&Ha).
  assert (Hi1 : queue_inv to_lower (snd (requestIdentity req c))).
  { unfold requestIdentity. destruct (negb _); [done|]. by apply requests_inv. }
  destruct (requestIdentity req c) as [id c1]. cbn [snd] in *.
  assert (Hsame : watched c1 /\ queue_live c1) by (split; [by eapply keeps_watched|by eapply live_same]).
  destruct (decide (is_Some (q_pending c1 !! id))) as [Hp|Hp]; [by rewrite bool_decide_eq_true_2|].
  rewrite bool_decide_eq_false_2 by done. destruct (negb _); [done|].
  destruct (if publish then _ else _) as [group barrier] eqn:Hgrp.
  set (p := MkPending id _ _ _ _ group barrier None false false [] false false). set (c2 := MkCoordinator _ _ _ _ _ _ _ _ _ _ _ _ _ _).
  assert (Hi2 : queue_inv to_lower c2).
  { apply (insert_inv to_lower c1 p); [done|by apply eq_None_not_Some|done|done|]. simpl. intros ->. by injection Hgrp as <- <-. }
  assert (Hw2 : watched c2).
  { destruct (mark_watched (req ≫= rq_ModelStep) c1 (proj1 Hsame)) as [Hb Hg]. split; [|exact Hg].
    intros h q Hh. unfold c2 in Hh. simpl in Hh. destruct (decide (q_next c1 = h)) as [<-|Hne].
    - rewrite lookup_insert_eq in Hh. injection Hh as <-. unfold p. simpl. intros Hne. destruct publish; [by injection Hgrp as <- <-|].
      by eapply auto_group_barred.
    - rewrite lookup_insert_ne in Hh by done. by eapply Hb. }
  pose proof (next_live cb c2 Hi2 Hw2) as [H1 H2].
  destruct (q_heap (activateNextLocked cb c2) !! q_next c1 ≫= pa_activationErr); done.
Qed.

Lemma resolve_live cb h d c : queue_inv to_lower c -> watched c -> queue_live c ->
  watched (snd (resolveLocked to_lower cb h d c)) /\ queue_live (snd (resolveLocked to_lower cb h d c)).
Proof.
  intros Hi Hw Hl. pose proof (resolve_spec to_lower cb h d c Hi) as Hs.
  assert (Hx : watched (snd (resolveLocked to_lower cb h d c)) /\
    (is_ok (fst (resolveLocked to_lower cb h d c)) = false -> queue_live (snd (resolveLocked to_lower cb h d c)))).
  { clear Hs. unfold resolveLocked. destruct (q_heap c !! h) as [p|]; [|done]. destruct (negb (is_pending h c)); [done|].
    destruct (negb (isActiveLocked h c)); [done|]. destruct (ResolveNativeResponse _ _ _) as [response|e]; [|done].
    pose proof (keeps_settle cb h "resolved" c) as Hk. destruct (settle_frame cb c h "resolved") as (Hq&_&Ha&_).
    destruct (settleLocked cb h "resolved" c) as [[[]|e] c1]; cbn [snd fst] in *; [|split; [by eapply keeps_watched|intros _; by eapply live_same]].
    split; [|done]. apply next_watched. eapply keeps_watched; [|exact Hw]. eapply keeps_trans; [exact Hk|].
    eapply keeps_trans; [|apply keeps_remove]. eapply (keeps_alter (fun p => p_decisions _ p) h); [intros ?; split; reflexivity|reflexivity..]. }
  destruct (resolveLocked to_lower cb h d c) as [[[]|e] c']; cbn [fst snd is_ok] in *; destruct Hs as (_&_&Hs), Hx as [Hx1 Hx2]; split; auto.
  by apply no_idle_live, Hs.
Qed.

Lemma set_group_watched c : watched c -> watched (set_group "" None None c).
Proof. intros [Hb _]. split; [exact Hb|]. intros H. by elim H. Qed.

Lemma step_live c c' : queue_inv to_lower c -> watched c -> queue_live c -> queue_step c c' -> watched c' /\ queue_live c'.
Proof.
  intros Hi Hw Hl Hs. destruct Hs as [cb owner terminal req publish|cb d|cb h d|cb h state|cb owner state|cb|cb order state Hord
    |a calls Ha|step|cb group a l1 l2 Hwl Hc].
  - by apply enqueue_live.
  - unfold submit. destruct (_ =? ""); [done|]. destruct (q_pending c !! _) as [h|]; [|done].
    destruct (q_heap c !! h) as [p|]; [|done]. destruct (negb _); [done|]. by apply resolve_live.
  - by apply resolve_live.
  - unfold release. destruct (is_pending h c) eqn:E; cbn [negb]; [|done]. apply (is_pending_queue to_lower c h Hi) in E.
    apply next_live; [by apply drop_inv|]. eapply keeps_watched; [apply keeps_drop|done].
  - unfold abandonOwner. set (c1 := drop_selected _ _ _ _ _).
    assert (Hi1 : queue_inv to_lower c1) by (by apply drop_selected_spec).
    assert (Hw1 : watched c1) by (eapply keeps_watched; [apply keeps_drop_selected|done]).
    apply next_live; case_bool_decide; try done; [apply set_group_inv; auto|by apply set_group_watched].
  - unfold invalidateAutoReviews. apply next_live; [by apply drop_selected_spec|].
    eapply keeps_watched; [apply keeps_drop_selected|done].
  - destruct (clear_spec to_lower cb order state c Hi) as (_&_&Hq&_); [by apply registry_covers|].
    split; [|intros H; by elim H]. unfold clear. apply set_group_watched. eapply keeps_watched; [|exact Hw].
    eapply keeps_trans; [apply (keeps_drop_selected cb (fun _ => true) state order)|]. split_and!; eauto.
  - split; [|exact Hl]. destruct Hw as [Hb Hw]. split; [exact Hb|]. intros Hg. destruct (Hw Hg) as (b&Hd&H). exists b.
    split; [done|]. destruct H as [H|H]; [by left|right]. unfold channelClosed in *. simpl.
    rewrite lookup_insert_ne; [done|]. intros <-. by rewrite Ha in H.
  - split; [by apply mark_watched|exact Hl].
  - assert (Hw1 : watched (set_watchers (l1 ++ l2)%list c)).
    { destruct Hw as [Hb Hw]. split; [exact Hb|]. intros Hg. destruct (Hw Hg) as (b&Hd&H). exists b. split; [done|].
      destruct H as [H|H]; [|by right]. simpl. rewrite Hwl in H. rewrite elem_of_app, elem_of_cons in H.
      destruct H as [H|[H|H]]; [left; rewrite elem_of_app; auto|injection H as -> ->; by right|left; rewrite elem_of_app; auto]. }
    unfold admissionClosed. simpl. destruct (_ || _) eqn:E; [|apply next_live; [by apply watchers_inv|done]].
    split; [done|]. intros Hq. destruct (Hl Hq) as [H|(b&Hd&H)]; [by left|right]. exists b. split; [done|]. simpl.
    rewrite Hwl in H. rewrite elem_of_app, elem_of_cons in *. destruct H as [H|[H|H]]; auto. exfalso.
    injection H as <- <-. rewrite String.eqb_refl, bool_decide_eq_true_2 in E by done. done.
Qed.

Lemma reachable_live c : queue_reachable c -> queue_inv to_lower c /\ watched c /\ queue_live c.
Proof.
  intros (s&Hr).
  assert (H0 : queue_inv to_lower (newApprovalCoordinator s) /\ watched (newApprovalCoordinator s) /\ queue_live (newApprovalCoordinator s)).
  { split; [apply queue_inv_new|]. split; [|intros H; by elim H]. split; [by intros h p ?|]. intros H. by elim H. }
  induction Hr as [|x y z Hs _ IH]; [done|]. destruct H0 as (H1&H2&H3). apply IH.
  destruct (step_inv _ _ H1 Hs). split; [done|]. by apply (step_live x).
Qed.

(** ** What a successful decision does *)

Lemma resolve_ok cb h d c c' : queue_inv to_lower c -> resolveLocked to_lower cb h d c = (Ok tt, c') ->
  exists p p' response, q_heap c !! h = Some p /\ h ∈ q_active c /\ pa_activated p = true
    /\ ResolveNativeResponse to_lower (pa_options p) (d_Response d) = Ok response
    /\ q_heap c' !! h = Some p' /\ (h ∉ q_queue c') /\ pa_id p' = pa_id p
    /\ pa_decisions p' = [MkDecision (pa_id p) response] /\ pa_done p' = false.
Proof.
  intros Hi. unfold resolveLocked. destruct (q_heap c !! h) as [p|] eqn:Hp; [|done].
  destruct (is_pending h c) eqn:Hpend; cbn [negb]; [|done]. destruct (isActiveLocked h c) eqn:Hact; cbn [negb]; [|done].
  destruct (ResolveNativeResponse _ _ _) as [response|e] eqn:Hr; [|done].
  apply (is_pending_queue to_lower c h Hi) in Hpend. apply bool_decide_eq_true in Hact.
  pose proof (settle_inv to_lower cb c h "resolved" Hi) as Hi1. destruct (settle_frame cb c h "resolved") as (Hq&_&_&_&_&_&_&Hent).
  destruct (settleLocked cb h "resolved" c) as [[[]|e] c1]; cbn [snd] in *; [|done]. intros H. injection H as <-.
  assert (Hq1 : h ∈ q_queue c1) by (by rewrite Hq).
  destruct (queue_entry _ _ _ Hi1 Hq1) as (p1&Hp1&[Hd1 Hs1]&_). destruct (Hent _ _ Hp1) as (p0&Hp0&(Eid&Eo&_)&_).
  assert (p0 = p) as -> by congruence. set (dd := MkDecision (pa_id p) response). set (c2 := removeLocked _ _ _).
  assert (Hi2 : queue_inv to_lower c2).
  { eapply send_inv; [done|done|exact Hp1|]. split; simpl; [by rewrite Eid|]. exists (d_Response d). by rewrite Eo. }
  assert (Hh2 : q_heap c2 !! h = Some (p_decisions [dd] p1) /\ h ∉ q_queue c2).
  { unfold c2, removeLocked, send_decision. simpl. rewrite lookup_alter_eq, Hp1. simpl. rewrite lookup_alter_eq, Hp1. simpl.
    rewrite Hs1. split; [done|]. rewrite elem_of_remove_first by apply Hi1. tauto. }
  destruct Hh2 as [Hh2 Hn2]. destruct (shrinks_next to_lower cb c2 Hi2) as [Hs2 Hs3].
  exists p, (p_decisions [dd] p1), response. split_and!; auto.
  - destruct (queue_entry _ _ _ Hi Hpend) as (q&Hq2&_&_&Hact'). assert (q = p) as -> by congruence. by apply Hact'.
  - by rewrite Hs3.
Qed.

(** C12. Whatever the order of calls, callbacks and barrier events: no channel is closed twice and no decision is sent
    into a full channel; every request ever enqueued is either queued without an outcome, or it left the queue with
    exactly one outcome, one validated decision or the closed [done] channel; only queued requests are active, and
    more than one only when all of them are automatic reviews of one parallel model step. *)
Theorem approval_request_ends_once (c : approvalCoordinator) : queue_reachable c ->
  q_fault c = false
  /\ (forall h p, q_heap c !! h = Some p ->
        (h ∈ q_queue c /\ pa_done p = false /\ pa_decisions p = []) \/ ((h ∉ q_queue c) /\ ended to_lower p))
  /\ (forall h, h ∈ q_active c -> h ∈ q_queue c)
  /\ ((length (q_active c) <= 1)%nat \/ exists g, g <> "" /\ forall h p, h ∈ q_active c -> q_heap c !! h = Some p ->
        pa_parallelGroup p = g /\ pa_publishOnActivate p = false).
Proof.
  intros Hi%reachable_queue_inv. split_and!; [apply Hi| |apply Hi|].
  - intros h p Hp. destruct (qi_heap _ _ Hi _ _ Hp) as [(?&[??]&_)|?]; auto.
  - destruct (qi_cohort _ _ Hi) as [?|(g&Hg&H)]; [by left|right]. exists g. split; [done|]. intros h p Hh Hp.
    split; [eauto|]. destruct (pa_publishOnActivate p) eqn:E; [|done].
    pose proof (qi_manual _ _ Hi _ _ Hp E) as Hm. rewrite (H _ _ Hh Hp) in Hm. done.
Qed.

(** C15. The outcome of a request is final: once it left the queue no later call, callback or event changes its decision, its [done]
    channel or any other field of it, nor queues it again. *)
Theorem approval_outcome_final (c c' : approvalCoordinator) (h : nat) (p : pendingApproval) :
  queue_reachable c -> rtc queue_step c c' -> q_heap c !! h = Some p -> (h ∉ q_queue c) ->
  q_heap c' !! h = Some p /\ (h ∉ q_queue c').
Proof.
  intros Hi%reachable_queue_inv Hr. induction Hr as [|x y z Hs _ IH]; [done|]. intros Hp Hh.
  destruct (step_inv _ _ Hi Hs) as [Hi' Hk]. destruct (Hk _ _ Hp Hh). auto.
Qed.

(** C34. Queued requests are never stranded: in every reachable coordinator with a queued request, some request is
    active, or the cohort that is open has a goroutine waiting for its admission barrier; when that barrier has closed
    the goroutine's step leaves an active request or an empty queue, or opens a cohort that is still admitting. *)
Theorem approval_queue_never_stranded (cb : callbacks) (c : approvalCoordinator) : queue_reachable c -> q_queue c <> [] ->
  q_active c <> [] \/
  exists a, q_groupDone c = Some a /\ (q_group c, a) ∈ q_watchers c /\
    (channelClosed (Some a) c = true ->
     let c' := admissionClosed cb (q_group c) a c in
     q_queue c' = [] \/ q_active c' <> [] \/ (q_group c' <> "" /\ channelClosed (q_groupDone c') c' = false)).
Proof.
  intros (Hi&Hw&Hl)%reachable_live Hq. destruct (Hl Hq) as [H|(a&Hd&Hin)]; [by left|right]. exists a. split_and!; [done|done|].
  intros Hc. cbv zeta. unfold admissionClosed. rewrite String.eqb_refl, bool_decide_eq_true_2 by done. cbn [negb orb].
  destruct (activateNext_spec to_lower cb c Hi) as [_ Hn]. destruct (decide (q_queue (activateNextLocked cb c) = [])); [by left|right].
  by apply Hn.
Qed.

(** A caller's decision that is accepted resolved exactly the request it names: a manual request that was
    published and active; the decision delivered to its waiter is the response validated against the options the
    permission offered, and no other decision is ever in that channel. *)
Theorem accepted_decision_delivered (cb : callbacks) (d : ApprovalDecision) (c c' : approvalCoordinator) :
  queue_reachable c -> submit to_lower cb d c = (Ok tt, c') ->
  exists h p p' response, q_pending c !! trim_space (d_RequestID d) = Some h /\ q_heap c !! h = Some p
    /\ pa_id p = trim_space (d_RequestID d) /\ pa_publishOnActivate p = true /\ pa_activated p = true /\ h ∈ q_active c
    /\ ResolveNativeResponse to_lower (pa_options p) (d_Response d) = Ok response
    /\ q_heap c' !! h = Some p' /\ (h ∉ q_queue c') /\ pa_decisions p' = [MkDecision (pa_id p) response] /\ pa_done p' = false.
Proof.
  intros Hi%reachable_queue_inv. unfold submit. destruct (_ =? ""); [done|].
  destruct (q_pending c !! _) as [h|] eqn:Hpend; [|done]. destruct (q_heap c !! h) as [p|] eqn:Hp; [|done].
  destruct (pa_publishOnActivate p) eqn:Hm; cbn [negb]; [|done]. intros H.
  destruct (resolve_ok _ _ _ _ _ Hi H) as (p0&p'&r&Hp0&H1&H2&H3&H4&H5&H6&H7&H8).
  assert (p0 = p) as -> by congruence. destruct (qi_pending _ _ Hi _ _ Hpend) as (q&Hq&Hid&_).
  assert (q = p) as -> by congruence. exists h, p, p', r. split_and!; done.
Qed.
End Reach.

(** ** On a concrete run *)

(** Two manual requests of one Turn; the first is resolved with its allow option. *)
Definition w_cb : callbacks :=
  MkCallbacks (fun _ => Some (fun _ => Ok (Some ("e", 1%Z)))) (fun _ => Some (fun _ _ => Ok (Some ("f", 2%Z)))).
Definition w_request (token : string) : ApprovalRequest := MkRequest token "run" "turn" (Some w_options) None false.
Definition w_first : approvalCoordinator :=
  snd (enqueue w_cb (Some 0%nat) false (Some (w_request "t1")) true (newApprovalCoordinator "s")).
Definition w_second : approvalCoordinator := snd (enqueue w_cb (Some 0%nat) false (Some (w_request "t2")) true w_first).
Definition w_decision : ApprovalDecision := MkDecision "t1" (MkResponse "" "ok" false "" "").
Definition w_resolved : approvalCoordinator := snd (submit id w_cb w_decision w_second).

Lemma w_second_reachable : queue_reachable id w_second.
Proof.
  exists "s". eapply rtc_l; [apply (step_enqueue _ _ w_cb (Some 0%nat) false (Some (w_request "t1")) true)|].
  eapply rtc_l; [apply (step_enqueue _ _ w_cb (Some 0%nat) false (Some (w_request "t2")) true)|]. apply rtc_refl.
Qed.

Lemma w_resolved_reachable : queue_reachable id w_resolved.
Proof.
  destruct w_second_reachable as [s Hs]. exists s. eapply rtc_r; [exact Hs|]. apply (step_submit _ _ w_cb w_decision).
Qed.

Lemma approval_request_ends_once_witness : q_fault w_resolved = false /\ q_queue w_resolved = [1%nat].
Proof. split; [|vm_compute; reflexivity]. exact (proj1 (approval_request_ends_once id w_resolved w_resolved_reachable)). Defined.

Lemma approval_outcome_final_witness :
  exists p, q_heap w_resolved !! 0%nat = Some p /\
    q_heap (invalidateAutoReviews w_cb w_resolved) !! 0%nat = Some p.
Proof.
  destruct (q_heap w_resolved !! 0%nat) as [p|] eqn:Hp; [|vm_compute in Hp; discriminate].
  exists p. split; [reflexivity|].
  refine (proj1 (approval_outcome_final id w_resolved (invalidateAutoReviews w_cb w_resolved) 0%nat p w_resolved_reachable _ Hp _)).
  - apply rtc_once, step_invalidate.
  - apply (bool_decide_unpack _). vm_compute. exact I.
Defined.

Lemma approval_queue_never_stranded_witness : q_queue w_resolved = [1%nat] /\ q_active w_resolved <> [].
Proof.
  split; [vm_compute; reflexivity|].
  destruct (approval_queue_never_stranded id w_cb w_resolved w_resolved_reachable) as [H|(a&H&_)].
  - vm_compute. discriminate.
  - exact H.
  - vm_compute in H. discriminate.
Defined.

Lemma accepted_decision_delivered_witness :
  exists h p', q_heap w_resolved !! h = Some p' /\ map (fun d => a_Approved (d_Response d)) (pa_decisions p') = [true].
Proof.
  destruct (accepted_decision_delivered id w_cb w_decision w_second w_resolved w_second_reachable)
    as (h&p&p'&r&H1&H2&_&_&_&_&H3&H4&_&H5&_).
  - vm_compute. reflexivity.
  - exists h, p'. split; [exact H4|]. rewrite H5.
    vm_compute in H1. injection H1 as <-. vm_compute in H2. injection H2 as <-. vm_compute in H3. injection H3 as <-.
    reflexivity.
Defined.
