(* ===== verification/Operations.v ===== *)
(** * The operation ledger of Control

    Models [control/appserver/operation_store.go] and
    [operation_store_retention.go]: the ledger that gives a Control write its
    idempotency.  An operation is admitted once under its principal and operation
    identifier, its result is recorded next to the intent, and only a record
    with a proven terminal result is forgotten, when its retention is over.

    Times are integers of nanoseconds, 0 the zero [time.Time].  The records are
    a map by key; [order] is the linked list of the sweep, whose elements have
    identities, so that the sweep cursor is an element as in the code. *)

From Stdlib Require Import ZArith Lia Ascii String.
From stdpp Require Import base option strings list gmap.
From S2P Require Import Prelude GoStrings.

Local Open Scope string_scope.

(** ** Data *)

Definition OutcomeAccepted : string := "accepted".
Definition OutcomeCommitted : string := "committed".
Definition OutcomeConflicted : string := "conflicted".
Definition OutcomeRejected : string := "rejected".
Definition OutcomeUnknown : string := "unknown".

Definition OutcomeValid (o : string) : bool :=
  (o =? OutcomeAccepted) || (o =? OutcomeCommitted) || (o =? OutcomeConflicted) || (o =? OutcomeRejected) || (o =? OutcomeUnknown).

Record OperationIntent : Type := MkIntent {
  oi_PrincipalID : string; oi_OperationID : string; oi_Action : string; oi_SessionID : string; oi_Target : string;
  oi_Digest : string; oi_CreatedAt : Z;
}.

Record TurnTarget : Type := MkTarget { tt_HandleID : string; tt_RunID : string; tt_TurnID : string }.
Record CommandResource : Type := MkResource { re_Kind : string; re_Ref : string; re_Digest : string }.
Record SessionResource : Type := MkSessionResource {
  sr_ID : string; sr_SessionID : string; sr_Name : string; sr_MediaType : string; sr_Size : Z; sr_SHA256 : string; sr_ExpiresAt : option Z;
}.
Record BackgroundGrant : Type := MkGrant {
  bg_ID : string; bg_PrincipalID : string; bg_SessionID : string; bg_Source : string; bg_AuthorizationOperationID : string;
  bg_Revoked : bool;
}.

Inductive OperationError : Type :=
| ErrOperationConflict
| ErrContext (detail : string)
| ErrOperation (detail : string).

Global Instance TurnTarget_eq_dec : EqDecision TurnTarget.
Proof. solve_decision. Defined.
Global Instance CommandResource_eq_dec : EqDecision CommandResource.
Proof. solve_decision. Defined.
Global Instance SessionResource_eq_dec : EqDecision SessionResource.
Proof. solve_decision. Defined.
Global Instance BackgroundGrant_eq_dec : EqDecision BackgroundGrant.
Proof. solve_decision. Defined.

(** The configuration of a Session is a value the ledger copies and compares. *)
Record CommandResult {C : Type} : Type := MkResult {
  cr_InputStatus : string; cr_OperationID : string; cr_Outcome : string; cr_SessionID : string; cr_Revision : Z;
  cr_Target : TurnTarget; cr_ParticipantID : string; cr_Resource : option CommandResource; cr_Configuration : option C;
  cr_SessionResource : option SessionResource; cr_BackgroundGrant : option BackgroundGrant; cr_Detail : string;
  cr_ErrorCode : string; cr_ErrorKind : string;
}.
Arguments CommandResult C : clear implicits.
Arguments MkResult C : clear implicits.

Global Instance CommandResult_eq_dec {C} `{EqDecision C} : EqDecision (CommandResult C).
Proof. solve_decision. Defined.

Record OperationRecord {C : Type} : Type := MkOperation {
  or_Version : Z; or_RetainForever : bool; or_Intent : OperationIntent; or_Result : option (CommandResult C);
  or_TerminalRetentionNanoseconds : Z; or_RetainUntil : Z; or_UpdatedAt : Z;
}.
Arguments OperationRecord C : clear implicits.
Arguments MkOperation C : clear implicits.

Definition operationRecordSchemaVersion : Z := 2.

(** ** Retention *)

Record RetentionConfig : Type := MkRetention {
  rt_TerminalRetention : Z; rt_SweepInterval : Z; rt_SweepBatchSize : Z; rt_SweepDeleteLimit : Z; rt_SweepTimeLimit : Z;
}.

Definition hour : Z := 3600 * 1000000000.

Definition normalizeOperationRetentionConfig (c : RetentionConfig) : result OperationError RetentionConfig :=
  if ((rt_TerminalRetention c <? 0) || (rt_SweepInterval c <? 0) || (rt_SweepBatchSize c <? 0) || (rt_SweepDeleteLimit c <? 0)
      || (rt_SweepTimeLimit c <? 0))%Z
  then Fail (ErrOperation "operation retention values must not be negative") else
  let pick v d := if Z.eqb v 0 then d else v in
  Ok (MkRetention (pick (rt_TerminalRetention c) (30 * 24 * hour)%Z) (pick (rt_SweepInterval c) hour) (pick (rt_SweepBatchSize c) 256%Z)
        (pick (rt_SweepDeleteLimit c) 128%Z) (pick (rt_SweepTimeLimit c) 100000000%Z)).

Definition terminalOperationOutcome (o : string) : bool :=
  (o =? OutcomeCommitted) || (o =? OutcomeConflicted) || (o =? OutcomeRejected).

Inductive Disposition : Type := RetainedTerminal | ExpiredTerminal | Indeterminate.

Section Ledger.
Context {C : Type} `{EqDecision C}.
(** The copy of a configuration goes through [encoding/json]. *)
Variable copy_configuration : C -> C.

#[local] Abbreviation Record_ := (OperationRecord C).
#[local] Abbreviation Result_ := (CommandResult C).

Definition cloneCommandResult (r : Result_) : Result_ :=
  MkResult C (cr_InputStatus r) (cr_OperationID r) (cr_Outcome r) (cr_SessionID r) (cr_Revision r) (cr_Target r) (cr_ParticipantID r)
    (cr_Resource r) (copy_configuration <$> cr_Configuration r) (cr_SessionResource r) (cr_BackgroundGrant r) (cr_Detail r)
    (cr_ErrorCode r) (cr_ErrorKind r).

Definition cloneOperationRecord (r : Record_) : Record_ :=
  MkOperation C (or_Version r) (or_RetainForever r) (or_Intent r) (cloneCommandResult <$> or_Result r)
    (or_TerminalRetentionNanoseconds r) (or_RetainUntil r) (or_UpdatedAt r).

Definition sameCommandResult (left right : Result_) : bool := bool_decide (left = right).

Definition sameOperationIntent (left right : OperationIntent) : bool :=
  (trim_space (oi_PrincipalID left) =? trim_space (oi_PrincipalID right))
  && (trim_space (oi_OperationID left) =? trim_space (oi_OperationID right))
  && (oi_Action left =? oi_Action right) && (trim_space (oi_SessionID left) =? trim_space (oi_SessionID right))
  && (trim_space (oi_Target left) =? trim_space (oi_Target right)) && (oi_Digest left =? oi_Digest right).

Definition operationKey (principalID operationID : string) : string :=
  trim_space principalID ++ String "000"%char (trim_space operationID).
Definition intent_key (i : OperationIntent) : string := operationKey (oi_PrincipalID i) (oi_OperationID i).

Definition operationRecordHasReclaimableTerminalOutcome (r : Record_) : bool :=
  match or_Result r with
  | None => false
  | Some result =>
    if or_RetainForever r || negb (terminalOperationOutcome (cr_Outcome result)) then false
    else negb (Z.eqb (or_Version r) 0) || negb (cr_Outcome result =? OutcomeRejected)
  end.

Definition validateOperationRecord (r : Record_) : result OperationError unit :=
  let i := or_Intent r in
  let bad detail := Fail (ErrOperation detail) in
  if negb (Z.eqb (or_Version r) 0) && negb (Z.eqb (or_Version r) 1) && negb (Z.eqb (or_Version r) operationRecordSchemaVersion)
  then bad "unsupported operation record version" else
  if (trim_space (oi_PrincipalID i) =? "") || (trim_space (oi_OperationID i) =? "") || (trim_space (oi_Action i) =? "")
     || (trim_space (oi_Digest i) =? "") then bad "invalid operation record identity" else
  if Z.eqb (oi_CreatedAt i) 0 || Z.eqb (or_UpdatedAt r) 0 || (or_UpdatedAt r <? oi_CreatedAt i)%Z
  then bad "invalid operation record timestamps" else
  if (or_TerminalRetentionNanoseconds r <? 0)%Z then bad "invalid operation record retention" else
  if match or_Result r with
     | Some res => negb (trim_space (cr_OperationID res) =? trim_space (oi_OperationID i)) || negb (OutcomeValid (cr_Outcome res))
     | None => false
     end then bad "invalid operation result" else
  if or_RetainForever r then
    if negb (Z.eqb (or_Version r) operationRecordSchemaVersion) || negb (Z.eqb (or_TerminalRetentionNanoseconds r) 0)
       || negb (Z.eqb (or_RetainUntil r) 0) then bad "invalid permanent operation retention" else Ok tt
  else if Z.eqb (or_Version r) 0 then
    if negb (Z.eqb (or_TerminalRetentionNanoseconds r) 0) || negb (Z.eqb (or_RetainUntil r) 0)
    then bad "legacy operation record contains retention metadata" else Ok tt
  else
    if (or_TerminalRetentionNanoseconds r <=? 0)%Z then bad "versioned operation record has no retention snapshot" else
    if operationRecordHasReclaimableTerminalOutcome r then
      if Z.eqb (or_RetainUntil r) 0 || negb (Z.eqb (or_RetainUntil r) (or_UpdatedAt r + or_TerminalRetentionNanoseconds r))
      then bad "inconsistent terminal operation retention metadata" else Ok tt
    else if negb (Z.eqb (or_RetainUntil r) 0) then bad "indeterminate operation has a retention deadline" else Ok tt.

Definition operationRecordRetentionDeadline (r : Record_) (fallback : Z) : result OperationError Z :=
  if negb (Z.eqb (or_RetainUntil r) 0) then Ok (or_RetainUntil r) else
  let retention := if (or_TerminalRetentionNanoseconds r <=? 0)%Z then fallback else or_TerminalRetentionNanoseconds r in
  if (retention <=? 0)%Z then Fail (ErrOperation "operation terminal retention is unavailable")
  else Ok (or_UpdatedAt r + retention)%Z.

Definition classifyOperationRecord (r : Record_) (now fallback : Z) : result OperationError Disposition :=
  let! _ := validateOperationRecord r in
  if negb (operationRecordHasReclaimableTerminalOutcome r) then Ok Indeterminate else
  let! deadline := operationRecordRetentionDeadline r fallback in
  Ok (if (now <? deadline)%Z then RetainedTerminal else ExpiredTerminal).

(** The migration of a legacy record, used by the durable ledger. *)
Definition materializeTerminalRetention (r : Record_) (fallback : Z) : result OperationError (Record_ * bool) :=
  if negb (Z.eqb (or_Version r) 0) || negb (operationRecordHasReclaimableTerminalOutcome r) then Ok (r, false) else
  let! deadline := operationRecordRetentionDeadline r fallback in
  Ok (MkOperation C operationRecordSchemaVersion (or_RetainForever r) (or_Intent r) (or_Result r)
        (if (or_TerminalRetentionNanoseconds r <=? 0)%Z then fallback else or_TerminalRetentionNanoseconds r) deadline (or_UpdatedAt r), true).

(** ** The in-memory ledger *)

Record MemoryOperationStore : Type := MkLedger {
  records : gmap string Record_;
  order : list (nat * string);          (* elements of the list, with their keys *)
  elements : gmap string nat;
  sweepCursor : option nat;
  nextElement : nat;                    (* the next element identity *)
  nextSweep : Z;
  retention : RetentionConfig;
}.

Definition NewMemoryOperationStoreWithConfig (config : RetentionConfig) : result OperationError MemoryOperationStore :=
  let! retention := normalizeOperationRetentionConfig config in Ok (MkLedger ∅ [] ∅ None 0 0 retention).

Definition set_records v (s : MemoryOperationStore) : MemoryOperationStore :=
  MkLedger v (order s) (elements s) (sweepCursor s) (nextElement s) (nextSweep s) (retention s).
Definition set_cursor v (s : MemoryOperationStore) : MemoryOperationStore :=
  MkLedger (records s) (order s) (elements s) v (nextElement s) (nextSweep s) (retention s).
Definition set_nextSweep v (s : MemoryOperationStore) : MemoryOperationStore :=
  MkLedger (records s) (order s) (elements s) (sweepCursor s) (nextElement s) v (retention s).

(** [element.Next()] and [element.Value]. *)
Fixpoint next_of (id : nat) (l : list (nat * string)) : option nat :=
  match l with
  | [] => None
  | x :: rest => if (fst x =? id)%nat then fst <$> head rest else next_of id rest
  end.
Definition value_of (id : nat) (l : list (nat * string)) : string :=
  match List.find (fun x => (fst x =? id)%nat) l with Some x => snd x | None => "" end.

Definition removeRecordLocked (key : string) (s : MemoryOperationStore) : MemoryOperationStore :=
  match elements s !! key with
  | None => set_records (delete key (records s)) s
  | Some element =>
    MkLedger (delete key (records s)) (List.filter (fun x => negb (fst x =? element)%nat) (order s)) (delete key (elements s))
      (if bool_decide (sweepCursor s = Some element) then next_of element (order s) else sweepCursor s)
      (nextElement s) (nextSweep s) (retention s)
  end.

(** What a sweep meets: the context at each iteration, and whether the time
    limit was over by then. *)
Record SweepEnv : Type := MkSweepEnv { ctx_at : nat -> option string; late_at : nat -> bool }.

Record OperationSweepResult : Type := MkSweep {
  sw_Scanned : Z; sw_RemovedTerminal : Z; sw_RetainedTerminal : Z; sw_RetainedIndeterminate : Z; sw_Corrupt : Z; sw_More : bool;
}.
Definition set_More v (r : OperationSweepResult) : OperationSweepResult :=
  MkSweep (sw_Scanned r) (sw_RemovedTerminal r) (sw_RetainedTerminal r) (sw_RetainedIndeterminate r) (sw_Corrupt r) v.

(** The loop of [sweepLocked]: [i] counts iterations; besides the result it
    returns the keys it removed.  The fuel is the length of the list, since
    every iteration moves the cursor to the next element. *)
Fixpoint sweep_loop (fuel i : nat) (env : SweepEnv) (now : Z) (r : OperationSweepResult) (s : MemoryOperationStore)
  : OperationSweepResult * option OperationError * list string * MemoryOperationStore :=
  match fuel, sweepCursor s with
  | O, _ | _, None => (set_More (match sweepCursor s with Some _ => true | None => false end) r, None, [], s)
  | S fuel, Some current =>
    if negb (sw_Scanned r <? rt_SweepBatchSize (retention s))%Z || negb (sw_RemovedTerminal r <? rt_SweepDeleteLimit (retention s))%Z
    then (set_More true r, None, [], s) else
    match ctx_at env i with
    | Some detail => (set_More true r, Some (ErrContext detail), [], s)
    | None =>
      if (0 <? sw_Scanned r)%Z && late_at env i then (set_More true r, None, [], s) else
      let s1 := set_cursor (next_of current (order s)) s in
      let key := value_of current (order s) in
      match records s !! key with
      | None => sweep_loop fuel (S i) env now r s1
      | Some record =>
        let scanned := (sw_Scanned r + 1)%Z in
        match classifyOperationRecord record now (rt_TerminalRetention (retention s)) with
        | Fail _ =>
          sweep_loop fuel (S i) env now
            (MkSweep scanned (sw_RemovedTerminal r) (sw_RetainedTerminal r) (sw_RetainedIndeterminate r) (sw_Corrupt r + 1) (sw_More r)) s1
        | Ok ExpiredTerminal =>
          let '(r, err, keys, s2) := sweep_loop fuel (S i) env now
            (MkSweep scanned (sw_RemovedTerminal r + 1) (sw_RetainedTerminal r) (sw_RetainedIndeterminate r) (sw_Corrupt r) (sw_More r))
            (removeRecordLocked key s1) in
          (r, err, key :: keys, s2)
        | Ok RetainedTerminal =>
          sweep_loop fuel (S i) env now
            (MkSweep scanned (sw_RemovedTerminal r) (sw_RetainedTerminal r + 1) (sw_RetainedIndeterminate r) (sw_Corrupt r) (sw_More r)) s1
        | Ok Indeterminate =>
          sweep_loop fuel (S i) env now
            (MkSweep scanned (sw_RemovedTerminal r) (sw_RetainedTerminal r) (sw_RetainedIndeterminate r + 1) (sw_Corrupt r) (sw_More r)) s1
        end
      end
    end
  end.

Definition sweepLocked (env : SweepEnv) (now : Z) (s : MemoryOperationStore)
  : OperationSweepResult * option OperationError * list string * MemoryOperationStore :=
  let s := match sweepCursor s with Some _ => s | None => set_cursor (fst <$> head (order s)) s end in
  sweep_loop (S (length (order s))) 0 env now (MkSweep 0 0 0 0 0 false) s.

(** A sweep and the time of the next one. *)
Definition sweepAndSchedule (env : SweepEnv) (now : Z) (s : MemoryOperationStore)
  : OperationSweepResult * option OperationError * list string * MemoryOperationStore :=
  let '(r, err, keys, s) := sweepLocked env now s in
  let next := match err with
              | None => if sw_More r then now else (now + rt_SweepInterval (retention s))%Z
              | Some _ => (now + rt_SweepInterval (retention s))%Z
              end in
  (r, err, keys, set_nextSweep next s).

Definition Sweep (ctx : option string) (env : SweepEnv) (now : Z) (s : MemoryOperationStore)
  : OperationSweepResult * option OperationError * list string * MemoryOperationStore :=
  match ctx with
  | Some detail => (MkSweep 0 0 0 0 0 false, Some (ErrContext detail), [], s)
  | None => sweepAndSchedule env now s
  end.

Definition maybeSweepLocked (env : SweepEnv) (now : Z) (s : MemoryOperationStore) : list string * MemoryOperationStore :=
  if negb (Z.eqb (nextSweep s) 0) && (now <? nextSweep s)%Z then ([], s) else
  let '(_, _, keys, s) := sweepAndSchedule env now s in (keys, s).

Definition Lookup (ctx : option string) (now : Z) (i : OperationIntent) (s : MemoryOperationStore)
  : result OperationError (option Record_) :=
  match ctx with
  | Some detail => Fail (ErrContext detail)
  | None =>
    match records s !! intent_key i with
    | None => Ok None
    | Some record =>
      let! disposition := classifyOperationRecord record now (rt_TerminalRetention (retention s)) in
      match disposition with
      | ExpiredTerminal => Ok None
      | _ => if sameOperationIntent (or_Intent record) i then Ok (Some (cloneOperationRecord record)) else Fail ErrOperationConflict
      end
    end
  end.

Definition set_CreatedAt (t : Z) (i : OperationIntent) : OperationIntent :=
  MkIntent (oi_PrincipalID i) (oi_OperationID i) (oi_Action i) (oi_SessionID i) (oi_Target i) (oi_Digest i) t.

(** The admitted record. *)
Definition newRecord (now : Z) (i : OperationIntent) (s : MemoryOperationStore) : Record_ :=
  MkOperation C operationRecordSchemaVersion false (set_CreatedAt now i) None (rt_TerminalRetention (retention s)) 0 now.

Definition insertRecord (now : Z) (i : OperationIntent) (s : MemoryOperationStore) : MemoryOperationStore :=
  let key := intent_key i in
  MkLedger (<[key := newRecord now i s]> (records s)) (order s ++ [(nextElement s, key)]) (<[key := nextElement s]> (elements s))
    (sweepCursor s) (S (nextElement s)) (nextSweep s) (retention s).

(** [Begin]: the keys that expired on the way, the record and whether it was
    admitted now.  The context is observed before and after the sweep. *)
Definition Begin (ctx ctx' : option string) (env : SweepEnv) (now : Z) (i : OperationIntent) (s : MemoryOperationStore)
  : result OperationError (Record_ * bool) * list string * MemoryOperationStore :=
  match ctx with
  | Some detail => (Fail (ErrContext detail), [], s)
  | None =>
    let '(keys, s) := maybeSweepLocked env now s in
    match ctx' with
    | Some detail => (Fail (ErrContext detail), keys, s)
    | None =>
      let key := intent_key i in
      match records s !! key with
      | None => (Ok (cloneOperationRecord (newRecord now i s), true), keys, insertRecord now i s)
      | Some record =>
        match classifyOperationRecord record now (rt_TerminalRetention (retention s)) with
        | Fail err => (Fail err, keys, s)
        | Ok ExpiredTerminal =>
          let s := removeRecordLocked key s in
          (Ok (cloneOperationRecord (newRecord now i s), true), (keys ++ [key])%list, insertRecord now i s)
        | Ok _ =>
          if sameOperationIntent (or_Intent record) i then (Ok (cloneOperationRecord record, false), keys, s)
          else (Fail ErrOperationConflict, keys, s)
        end
      end
    end
  end.

Definition monotonicOperationTime (now : Z) (prior : list Z) : Z := fold_left (fun now p => if (now <? p)%Z then p else now) prior now.

(** The record with its result. *)
Definition completeRecord (now : Z) (result : Result_) (s : MemoryOperationStore) (record : Record_) : Record_ :=
  let keep := if negb (or_RetainForever record) && (or_TerminalRetentionNanoseconds record <=? 0)%Z
              then rt_TerminalRetention (retention s) else or_TerminalRetentionNanoseconds record in
  let updated := monotonicOperationTime now [or_UpdatedAt record; oi_CreatedAt (or_Intent record)] in
  MkOperation C operationRecordSchemaVersion (or_RetainForever record) (or_Intent record) (Some (cloneCommandResult result)) keep
    (if negb (or_RetainForever record) && terminalOperationOutcome (cr_Outcome result) then updated + keep else 0)%Z updated.

(** [Complete] returns a record with a conflict when another result is sealed. *)
Definition Complete (ctx : option string) (now : Z) (i : OperationIntent) (result : Result_) (s : MemoryOperationStore)
  : option Record_ * option OperationError * MemoryOperationStore :=
  match ctx with
  | Some detail => (None, Some (ErrContext detail), s)
  | None =>
    if negb (trim_space (cr_OperationID result) =? trim_space (oi_OperationID i)) then (None, Some ErrOperationConflict, s) else
    if negb (OutcomeValid (cr_Outcome result)) then (None, Some (ErrOperation "valid operation outcome is required"), s) else
    match records s !! intent_key i with
    | None => (None, Some ErrOperationConflict, s)
    | Some record =>
      if negb (sameOperationIntent (or_Intent record) i) then (None, Some ErrOperationConflict, s) else
      match or_Result record with
      | Some sealed =>
        (Some (cloneOperationRecord record), if sameCommandResult sealed result then None else Some ErrOperationConflict, s)
      | None =>
        let record := completeRecord now result s record in
        (Some (cloneOperationRecord record), None, set_records (<[intent_key i := record]> (records s)) s)
      end
    end
  end.

(** ** What a sweep removes *)

Definition expired (now : Z) (s : MemoryOperationStore) (key : string) : Prop :=
  exists record, records s !! key = Some record
    /\ classifyOperationRecord record now (rt_TerminalRetention (retention s)) = Ok ExpiredTerminal.

(** [s'] is [s] without the records of [keys], all of them expired. *)
Record swept (now : Z) (keys : list string) (s s' : MemoryOperationStore) : Prop := {
  swept_records : forall k, records s' !! k = if bool_decide (k ∈ keys) then None else records s !! k;
  swept_expired : forall k, k ∈ keys -> expired now s k;
  swept_retention : retention s' = retention s;
  swept_nodup : NoDup keys;
}.

Lemma swept_nil now s s' : records s' = records s -> retention s' = retention s -> swept now [] s s'.
Proof. intros Hr Ht. split; [by rewrite Hr|by intros k ?%elem_of_nil|done|constructor]. Qed.

Lemma swept_cons now key keys s s1 s' : expired now s key ->
  records s1 = delete key (records s) -> retention s1 = retention s ->
  swept now keys s1 s' -> swept now (key :: keys) s s'.
Proof.
  intros He Hr Ht [H1 H2 H3 H4]. assert (Hkey : key ∉ keys).
  { intros (r&Hk&_)%H2. by rewrite Hr, lookup_delete_eq in Hk. }
  split.
  - intros k. rewrite H1, Hr. destruct (decide (k = key)) as [->|Hne].
    + rewrite lookup_delete_eq, (bool_decide_eq_true_2 (key ∈ key :: keys)) by apply list_elem_of_here. by case_bool_decide.
    + rewrite lookup_delete_ne by done. erewrite (bool_decide_ext (k ∈ key :: keys)); [done|]. rewrite elem_of_cons. naive_solver.
  - intros k [->|Hk]%elem_of_cons; [done|]. destruct (H2 k Hk) as (r&Hkr&Hc). exists r. rewrite Ht in Hc. split; [|done].
    rewrite Hr in Hkr. apply lookup_delete_Some in Hkr. tauto.
  - congruence.
  - by constructor.
Qed.

Lemma removeRecordLocked_records key s : records (removeRecordLocked key s) = delete key (records s).
Proof. unfold removeRecordLocked. by destruct (elements s !! key). Qed.
Lemma removeRecordLocked_retention key s : retention (removeRecordLocked key s) = retention s.
Proof. unfold removeRecordLocked. by destruct (elements s !! key). Qed.

Lemma sweep_loop_swept fuel i env now r s :
  let '(_, _, keys, s') := sweep_loop fuel i env now r s in swept now keys s s'.
Proof.
  revert i r s. induction fuel as [|fuel IH]; intros i r s; [by apply swept_nil|]. cbn [sweep_loop].
  destruct (sweepCursor s) as [current|]; [|by apply swept_nil].
  destruct (_ || _); [by apply swept_nil|]. destruct (ctx_at env i); [by apply swept_nil|].
  destruct (_ && _); [by apply swept_nil|]. set (s1 := set_cursor (next_of current (order s)) s). set (key := value_of current (order s)).
  assert (Hs1 : forall j r', let '(_, _, keys, s') := sweep_loop fuel j env now r' s1 in swept now keys s s').
  { intros j r'. specialize (IH j r' s1). destruct (sweep_loop fuel j env now r' s1) as [[[? ?] keys] s'].
    destruct IH as [H1 H2 H3 H4]. by split. }
  destruct (records s !! key) as [record|] eqn:Hk; [|apply Hs1].
  destruct (classifyOperationRecord record now (rt_TerminalRetention (retention s))) as [[]|] eqn:Hc; try apply Hs1.
  match goal with |- context [sweep_loop fuel ?j env now ?r' ?s2] => specialize (IH j r' s2); destruct (sweep_loop fuel j env now r' s2) as [[[? ?] keys] s'] end.
  apply (swept_cons now key keys s (removeRecordLocked key s1) s');
    [by exists record|by rewrite removeRecordLocked_records|by rewrite removeRecordLocked_retention|done].
Qed.

Lemma sweepLocked_swept env now s : let '(_, _, keys, s') := sweepLocked env now s in swept now keys s s'.
Proof.
  unfold sweepLocked. set (s0 := match sweepCursor s with Some _ => s | None => _ end).
  assert (H0 : records s0 = records s /\ retention s0 = retention s) by (unfold s0; by destruct (sweepCursor s)).
  pose proof (sweep_loop_swept (S (length (order s0))) 0 env now (MkSweep 0 0 0 0 0 false) s0) as Hs.
  destruct (sweep_loop _ _ _ _ _ _) as [[[? ?] keys] s']. destruct Hs as [H1 H2 H3 H4], H0 as [Hr Ht]. split.
  - intros k. by rewrite H1, Hr.
  - intros k Hk. destruct (H2 k Hk) as (x&?&?). exists x. by rewrite <- Hr, <- Ht.
  - congruence.
  - done.
Qed.

Lemma maybeSweep_swept env now s : swept now (maybeSweepLocked env now s).1 s (maybeSweepLocked env now s).2.
Proof.
  unfold maybeSweepLocked. destruct (_ && _); [by apply swept_nil|]. unfold sweepAndSchedule.
  pose proof (sweepLocked_swept env now s) as H. destruct (sweepLocked env now s) as [[[r err] keys] s'].
  destruct H as [H1 H2 H3 H4]. by split.
Qed.

(** ** Well-formed ledgers *)

Record ledger_wf (s : MemoryOperationStore) : Prop := {
  wf_records : dom (elements s) = dom (records s);
  wf_order : forall id key, (id, key) ∈ order s <-> elements s !! key = Some id;
  wf_ids : NoDup (map fst (order s));
  wf_fresh : Forall (fun x => (fst x < nextElement s)%nat) (order s);
  wf_cursor : match sweepCursor s with Some id => id ∈ map fst (order s) | None => True end;
}.

Lemma order_key (l : list (nat * string)) id k1 k2 : NoDup (map fst l) -> (id, k1) ∈ l -> (id, k2) ∈ l -> k1 = k2.
Proof.
  induction l as [|[i k] l IH]; simpl; [by intros _ ?%elem_of_nil|]. intros [Hi Hn]%NoDup_cons.
  assert (Hin : forall k, (i, k) ∈ l -> i ∈ map fst l) by (intros k' Hk; apply list_elem_of_fmap; by exists (i, k')).
  rewrite !elem_of_cons. intros [E1|H1] [E2|H2]; simplify_eq; [done|exfalso; eauto..|auto].
Qed.

Lemma next_of_split l1 id key l2 : id ∉ map fst l1 -> next_of id (l1 ++ (id, key) :: l2) = fst <$> head l2.
Proof.
  induction l1 as [|[i k] l1 IH]; simpl; [by rewrite Nat.eqb_refl|]. intros [Hne Hni]%not_elem_of_cons.
  destruct (Nat.eqb_spec i id); [congruence|auto].
Qed.

Lemma value_of_split l1 id key l2 : id ∉ map fst l1 -> value_of id (l1 ++ (id, key) :: l2) = key.
Proof.
  unfold value_of. induction l1 as [|[i k] l1 IH]; simpl; [by rewrite Nat.eqb_refl|]. intros [Hne Hni]%not_elem_of_cons.
  destruct (Nat.eqb_spec i id); [congruence|auto].
Qed.

Lemma filter_other (l : list (nat * string)) id : id ∉ map fst l -> List.filter (fun x => negb (fst x =? id)%nat) l = l.
Proof.
  induction l as [|[i k] l IH]; simpl; [done|]. intros [Hne Hni]%not_elem_of_cons.
  destruct (Nat.eqb_spec i id); [congruence|]. simpl. by rewrite IH.
Qed.

Lemma filter_split_at l1 id (key : string) l2 : id ∉ map fst l1 -> id ∉ map fst l2 ->
  List.filter (fun x => negb (fst x =? id)%nat) (l1 ++ (id, key) :: l2) = (l1 ++ l2)%list.
Proof. intros H1 H2. rewrite List.filter_app. simpl. rewrite Nat.eqb_refl. simpl. by rewrite !filter_other. Qed.

Lemma ids_split (l1 l2 : list (nat * string)) id key : NoDup (map fst (l1 ++ (id, key) :: l2)%list) -> (id ∉ map fst l1) /\ (id ∉ map fst l2).
Proof.
  rewrite map_app. simpl. intros (H1&H2&H3)%NoDup_app. apply NoDup_cons in H3 as [H3 _]. split; [|done].
  intros H. apply (H2 id H), list_elem_of_here.
Qed.

Lemma wf_remove key s : ledger_wf s -> ledger_wf (removeRecordLocked key s).
Proof.
  intros [Hd Ho Hn Hf Hc]. unfold removeRecordLocked. destruct (elements s !! key) as [el|] eqn:He.
  2: { split; simpl; try done. rewrite dom_delete_L, Hd. apply not_elem_of_dom in He. rewrite Hd in He. set_solver. }
  pose proof (proj2 (Ho el key) He) as Hin. apply list_elem_of_split in Hin as (l1&l2&El). rewrite El in Hn.
  destruct (ids_split _ _ _ _ Hn) as [N1 N2].
  assert (Hfilter : List.filter (fun x => negb (fst x =? el)%nat) (order s) = (l1 ++ l2)%list) by (rewrite El; by apply filter_split_at).
  split; simpl; rewrite ?Hfilter.
  - by rewrite !dom_delete_L, Hd.
  - intros id k. rewrite lookup_delete_Some, <- Ho, El. rewrite elem_of_app, elem_of_app, elem_of_cons. split.
    + intros H. assert (Hid : id <> el).
      { intros ->. destruct H as [H|H]; [apply N1|apply N2]; apply list_elem_of_fmap; by exists (el, k). }
      split; [intros ->|tauto]. assert (Hk : (id, k) ∈ order s) by (rewrite El, elem_of_app, elem_of_cons; tauto).
      apply Ho in Hk. congruence.
    + intros [Hk [H|[[= -> ->]|H]]]; tauto.
  - rewrite map_app in *. simpl in Hn. apply NoDup_app in Hn as (H1&H2&H3). apply NoDup_cons in H3 as [_ H3].
    apply NoDup_app. split_and!; try done. intros x Hx1 Hx2. apply (H2 x Hx1), list_elem_of_further, Hx2.
  - rewrite El in Hf. apply Forall_app in Hf as [Hf1 Hf2]. apply Forall_cons in Hf2 as [_ Hf2]. by apply Forall_app.
  - rewrite El in Hc |- *. case_bool_decide as Hcur.
    + rewrite next_of_split by done. destruct l2 as [|[id k] l2]; simpl; [done|]. rewrite map_app. simpl. set_solver.
    + destruct (sweepCursor s) as [id|]; [|done]. rewrite map_app in *. simpl in Hc. set_solver.
Qed.

Lemma wf_set_cursor id s : ledger_wf s -> match id with Some id => id ∈ map fst (order s) | None => True end -> ledger_wf (set_cursor id s).
Proof. intros [] Hc. by split. Qed.

Lemma next_of_in id l : id ∈ map fst l -> match next_of id l with Some id' => id' ∈ map fst l | None => True end.
Proof.
  induction l as [|[i k] l IH]; simpl; [done|]. intros [->|H]%elem_of_cons.
  - rewrite Nat.eqb_refl. destruct l as [|[j k'] l]; simpl; [done|]. set_solver.
  - destruct (Nat.eqb_spec i id); [destruct l as [|[j k'] l]; simpl; [done|]; set_solver|].
    specialize (IH H). destruct (next_of id l); [|done]. by apply list_elem_of_further.
Qed.

Lemma wf_sweep_loop fuel i env now r s : ledger_wf s -> let '(_, _, _, s') := sweep_loop fuel i env now r s in ledger_wf s'.
Proof.
  revert i r s. induction fuel as [|fuel IH]; intros i r s Hwf; [done|]. cbn [sweep_loop].
  destruct (sweepCursor s) as [current|] eqn:Ec; [|done].
  destruct (_ || _); [done|]. destruct (ctx_at env i); [done|]. destruct (_ && _); [done|].
  assert (Hwf1 : ledger_wf (set_cursor (next_of current (order s)) s)).
  { apply wf_set_cursor; [done|]. apply next_of_in. pose proof (wf_cursor _ Hwf) as Hc. by rewrite Ec in Hc. }
  destruct (records s !! value_of current (order s)) as [record|]; [|by apply IH].
  destruct (classifyOperationRecord _ _ _) as [[]|]; try by apply IH.
  match goal with |- context [sweep_loop fuel ?j env now ?r' ?s2] => specialize (IH j r' s2 (wf_remove _ _ Hwf1)); destruct (sweep_loop fuel j env now r' s2) as [[[? ?] keys] s'] end.
  done.
Qed.

Lemma wf_head_cursor s : ledger_wf s -> ledger_wf (match sweepCursor s with Some _ => s | None => set_cursor (fst <$> head (order s)) s end).
Proof.
  intros Hwf. destruct (sweepCursor s); [done|]. apply wf_set_cursor; [done|].
  destruct (order s) as [|[i k] l]; simpl; [done|]. apply list_elem_of_here.
Qed.

Lemma wf_sweepLocked env now s : ledger_wf s -> ledger_wf (sweepLocked env now s).2.
Proof.
  intros Hwf%wf_head_cursor. unfold sweepLocked. apply wf_sweep_loop with (fuel := S (length (order
    (match sweepCursor s with Some _ => s | None => set_cursor (fst <$> head (order s)) s end)))) (i := 0%nat) (env := env)
    (now := now) (r := MkSweep 0 0 0 0 0 false) in Hwf. by destruct (sweep_loop _ _ _ _ _ _) as [[[? ?] ?] ?].
Qed.

Lemma wf_sweepAndSchedule env now s : ledger_wf s -> ledger_wf (sweepAndSchedule env now s).2.
Proof.
  intros Hwf. unfold sweepAndSchedule. pose proof (wf_sweepLocked env now s Hwf) as H.
  destruct (sweepLocked env now s) as [[[? ?] ?] ?]. simpl in *. destruct H. by split.
Qed.

Lemma wf_maybeSweep env now s : ledger_wf s -> ledger_wf (maybeSweepLocked env now s).2.
Proof.
  intros Hwf. unfold maybeSweepLocked. destruct (_ && _); [done|]. pose proof (wf_sweepAndSchedule env now s Hwf) as H.
  by destruct (sweepAndSchedule env now s) as [[[? ?] ?] ?].
Qed.

Lemma wf_admit now i s : ledger_wf s -> records s !! intent_key i = None -> ledger_wf (insertRecord now i s).
Proof.
  intros [Hd Ho Hn Hf Hc] Hk. assert (Hel : elements s !! intent_key i = None) by (apply not_elem_of_dom; rewrite Hd; by apply not_elem_of_dom).
  assert (Hnew : nextElement s ∉ map fst (order s)).
  { intros (x&Hx&Hin)%list_elem_of_fmap. rewrite Forall_forall in Hf. specialize (Hf x Hin). lia. }
  split; simpl.
  - rewrite !dom_insert_L. by rewrite Hd.
  - intros id k. rewrite elem_of_app, list_elem_of_singleton, Ho. destruct (decide (k = intent_key i)) as [->|Hne].
    + rewrite lookup_insert_eq, Hel. split; [intros [?|[= ->]]; done|intros [= ->]; by right].
    + rewrite lookup_insert_ne by done. split; [intros [?|[= -> ->]]; done|by left].
  - rewrite map_app. apply NoDup_app. split_and!; [done| |apply NoDup_singleton]. intros x Hx ->%list_elem_of_singleton. done.
  - apply Forall_app. split; [|repeat constructor; simpl; lia]. eapply Forall_impl; [done|]. simpl. lia.
  - destruct (sweepCursor s); [|done]. rewrite map_app. set_solver.
Qed.

(** ** The bounds and the reach of a sweep *)

Lemma sweep_loop_bounds fuel i env now r s :
  let '(r', _, keys, _) := sweep_loop fuel i env now r s in
  sw_RemovedTerminal r' = (sw_RemovedTerminal r + Z.of_nat (length keys))%Z
  /\ (sw_Scanned r <= sw_Scanned r' <= Z.max (sw_Scanned r) (rt_SweepBatchSize (retention s)))%Z
  /\ (sw_RemovedTerminal r' <= Z.max (sw_RemovedTerminal r) (rt_SweepDeleteLimit (retention s)))%Z.
Proof.
  revert i r s. induction fuel as [|fuel IH]; intros i r s; [simpl; lia|]. cbn [sweep_loop].
  destruct (sweepCursor s) as [current|]; [|simpl; lia].
  destruct (Z.ltb_spec (sw_Scanned r) (rt_SweepBatchSize (retention s))); [|simpl; lia].
  destruct (Z.ltb_spec (sw_RemovedTerminal r) (rt_SweepDeleteLimit (retention s))); [|simpl; lia]. simpl (negb _ || negb _).
  cbv iota. destruct (ctx_at env i); [simpl; lia|]. destruct (_ && _); [simpl; lia|].
  destruct (records s !! value_of current (order s)) as [record|].
  2: { specialize (IH (S i) r (set_cursor (next_of current (order s)) s)). by destruct (sweep_loop _ _ _ _ _ _) as [[[? ?] ?] ?]. }
  destruct (classifyOperationRecord _ _ _) as [[]|];
    match goal with |- context [sweep_loop fuel ?j env now ?r' ?s2] => specialize (IH j r' s2); destruct (sweep_loop fuel j env now r' s2) as [[[? ?] ?] ?] end;
    rewrite ?removeRecordLocked_retention in IH; simpl in *; lia.
Qed.

(** A sweep that reports that it is through has left no expired record from
    its starting point on. *)
Lemma sweep_loop_complete fuel i env now r s l1 l2 : ledger_wf s -> order s = (l1 ++ l2)%list ->
  sweepCursor s = fst <$> head l2 -> (length l2 < fuel)%nat ->
  let '(r', _, _, s') := sweep_loop fuel i env now r s in sw_More r' = false -> forall k, k ∈ map snd l2 -> ~ expired now s' k.
Proof.
  revert i r s l1 l2. induction fuel as [|fuel IH]; intros i r s l1 l2 Hwf Hord Hcur Hf; [lia|]. cbn [sweep_loop].
  destruct l2 as [|[current key] l2]; simpl in Hcur; rewrite Hcur; [by intros _ k ?%elem_of_nil|].
  destruct (_ || _); [done|]. destruct (ctx_at env i); [done|]. destruct (_ && _); [done|].
  pose proof (wf_ids _ Hwf) as Hn. rewrite Hord in Hn. destruct (ids_split _ _ _ _ Hn) as [N1 N2].
  rewrite Hord, next_of_split, value_of_split by done. set (s1 := set_cursor (fst <$> head l2) s).
  assert (Hwf1 : ledger_wf s1).
  { apply wf_set_cursor; [done|]. rewrite Hord, map_app. destruct l2 as [|[j k] l2]; simpl; [done|]. set_solver. }
  assert (Hkeep : (forall rc, records s !! key = Some rc -> classifyOperationRecord rc now (rt_TerminalRetention (retention s)) <> Ok ExpiredTerminal) ->
    forall j r', let '(r'', _, _, s') := sweep_loop fuel j env now r' s1 in
      sw_More r'' = false -> forall k, k ∈ map snd ((current, key) :: l2) -> ~ expired now s' k).
  { intros Hne j r'. specialize (IH j r' s1 (l1 ++ [(current, key)])%list l2 Hwf1).
    rewrite <- (assoc_L (++)) in IH. specialize (IH Hord eq_refl ltac:(simpl in Hf; lia)).
    pose proof (sweep_loop_swept fuel j env now r' s1) as Hsw. destruct (sweep_loop fuel j env now r' s1) as [[[? ?] keys] s'].
    intros Hm k [->|Hk]%elem_of_cons; [|by apply IH]. intros (rc&Hrc&Hcl). destruct Hsw as [H1 _ H3 _]. rewrite H1 in Hrc.
    case_bool_decide; [done|]. rewrite H3 in Hcl. by apply (Hne rc). }
  destruct (records s !! key) as [record|] eqn:Hk; [|apply Hkeep; by intros rc [=]].
  destruct (classifyOperationRecord record now (rt_TerminalRetention (retention s))) as [d|] eqn:Hc;
    [destruct d|]; try (apply Hkeep; intros rc [= <-]; by rewrite Hc).
  set (s2 := removeRecordLocked key s1).
  assert (Hord2 : order s2 = (l1 ++ l2)%list /\ sweepCursor s2 = fst <$> head l2).
  { unfold s2, removeRecordLocked. assert (Hel : elements s !! key = Some current)
      by (apply (wf_order _ Hwf); rewrite Hord, elem_of_app, elem_of_cons; tauto).
    simpl. rewrite Hel. simpl. rewrite Hord, filter_split_at by done. split; [done|]. case_bool_decide as Hcu; [|done].
    exfalso. destruct l2 as [|[j k] l2]; simpl in Hcu; [done|]. injection Hcu as ->. set_solver. }
  match goal with |- context [sweep_loop fuel ?j env now ?r' ?s3] =>
    specialize (IH j r' s2 l1 l2 (wf_remove _ _ Hwf1) (proj1 Hord2) (proj2 Hord2) ltac:(simpl in Hf; lia));
    pose proof (sweep_loop_swept fuel j env now r' s2) as Hsw; fold s2;
    destruct (sweep_loop fuel j env now r' s2) as [[[? ?] keys] s'] end.
  intros Hm k [->|Hkin]%elem_of_cons; [|by apply IH]. intros (rc&Hrc&_). destruct Hsw as [H1 _ _ _]. rewrite H1 in Hrc.
  unfold s2 in Hrc. rewrite removeRecordLocked_records in Hrc. simpl in Hrc. rewrite lookup_delete_eq in Hrc. by case_bool_decide.
Qed.

(** What an expired record is: a terminal result whose retention is over. *)
Definition reclaimable (now : Z) (r : Record_) : Prop :=
  exists res, or_Result r = Some res /\ cr_Outcome res ∈ ["committed"; "conflicted"; "rejected"] /\ or_RetainForever r = false
    /\ (or_Version r <> 0 -> or_UpdatedAt r + or_TerminalRetentionNanoseconds r <= now)%Z.

Lemma valid_deadline r : validateOperationRecord r = Ok tt -> or_Version r <> 0%Z ->
  operationRecordHasReclaimableTerminalOutcome r = true -> or_RetainForever r = false ->
  or_RetainUntil r <> 0%Z /\ or_RetainUntil r = (or_UpdatedAt r + or_TerminalRetentionNanoseconds r)%Z.
Proof.
  unfold validateOperationRecord. intros Hv Hver Hrec Hf. rewrite Hrec, Hf in Hv. cbv zeta in Hv.
  do 5 match type of Hv with (if ?b then Fail _ else _) = _ => destruct b; [done|] end.
  destruct (Z.eqb_spec (or_Version r) 0); [done|].
  match type of Hv with (if ?b then Fail _ else _) = _ => destruct b; [done|] end.
  destruct (Z.eqb_spec (or_RetainUntil r) 0); [done|]. simpl in Hv.
  by destruct (Z.eqb_spec (or_RetainUntil r) (or_UpdatedAt r + or_TerminalRetentionNanoseconds r)).
Qed.

Lemma reclaimable_result r : operationRecordHasReclaimableTerminalOutcome r = true ->
  exists res, or_Result r = Some res /\ cr_Outcome res ∈ ["committed"; "conflicted"; "rejected"] /\ or_RetainForever r = false.
Proof.
  unfold operationRecordHasReclaimableTerminalOutcome. destruct (or_Result r) as [res|]; [|done].
  destruct (or_RetainForever r); [done|]. simpl. destruct (terminalOperationOutcome (cr_Outcome res)) eqn:E; [|done].
  intros _. exists res. split_and!; try done. unfold terminalOperationOutcome in E. rewrite !orb_true_iff, !String.eqb_eq in E.
  unfold OutcomeCommitted, OutcomeConflicted, OutcomeRejected in E. set_solver.
Qed.

Lemma classify_expired r now fallback : classifyOperationRecord r now fallback = Ok ExpiredTerminal -> reclaimable now r.
Proof.
  unfold classifyOperationRecord. intros ([]&Hv&Hx)%result_bind_ok.
  destruct (operationRecordHasReclaimableTerminalOutcome r) eqn:Hrec; [|done]. simpl in Hx.
  apply result_bind_ok in Hx as (d&Hd&Hx). destruct (Z.ltb_spec now d) as [|Hle]; [done|].
  destruct (reclaimable_result r Hrec) as (res&Hres&Ht&Hf). exists res. split_and!; try done.
  intros Hver. destruct (valid_deadline r Hv Hver Hrec Hf) as [Hu ->%eq_sym]. unfold operationRecordRetentionDeadline in Hd.
  destruct (Z.eqb_spec (or_RetainUntil r) 0); [done|]. simpl in Hd. injection Hd as ->. done.
Qed.

(** A sweep forgets only what may be forgotten.  On a well-formed ledger a sweep removes records with a committed,
    conflicted or rejected result whose retention is over and nothing else: intents, accepted and unknown results
    and permanent records stay.  It inspects at most a batch and removes at most its limit; and when it started
    from the front and reports that it is through, no expired record is left. *)
Theorem sweep_forgets_only_expired (ctx : option string) (env : SweepEnv) (now : Z) (s : MemoryOperationStore) :
  ledger_wf s -> (0 <= rt_SweepBatchSize (retention s))%Z -> (0 <= rt_SweepDeleteLimit (retention s))%Z ->
  let '(r, err, keys, s') := Sweep ctx env now s in
  ledger_wf s'
  /\ (forall k, records s' !! k = if bool_decide (k ∈ keys) then None else records s !! k)
  /\ (forall k, k ∈ keys -> exists record, records s !! k = Some record /\ reclaimable now record)
  /\ sw_RemovedTerminal r = Z.of_nat (length keys)
  /\ (sw_RemovedTerminal r <= rt_SweepDeleteLimit (retention s))%Z /\ (sw_Scanned r <= rt_SweepBatchSize (retention s))%Z
  /\ (ctx = None -> err = None -> sweepCursor s = None -> sw_More r = false -> forall k, ~ expired now s' k).
Proof.
  intros Hwf Hb Hl. unfold Sweep. destruct ctx as [detail|].
  { simpl. split_and!; try done. by intros k ?%elem_of_nil. }
  unfold sweepAndSchedule. pose proof (wf_sweepLocked env now s Hwf) as Hwf'. pose proof (sweepLocked_swept env now s) as Hsw.
  assert (Hbnd : let '(r, _, keys, _) := sweepLocked env now s in sw_RemovedTerminal r = Z.of_nat (length keys)
    /\ (sw_Scanned r <= rt_SweepBatchSize (retention s))%Z /\ (sw_RemovedTerminal r <= rt_SweepDeleteLimit (retention s))%Z).
  { unfold sweepLocked. set (s0 := match sweepCursor s with Some _ => s | None => _ end).
    replace (retention s) with (retention s0) in * by (unfold s0; by destruct (sweepCursor s)).
    pose proof (sweep_loop_bounds (S (length (order s0))) 0 env now (MkSweep 0 0 0 0 0 false) s0) as H.
    destruct (sweep_loop _ _ _ _ _ _) as [[[? ?] ?] ?]. simpl in H. lia. }
  assert (Hcomp : let '(r, _, _, s') := sweepLocked env now s in sweepCursor s = None -> sw_More r = false -> forall k, ~ expired now s' k).
  { unfold sweepLocked. destruct (sweepCursor s) as [c|] eqn:Ec; [by destruct (sweep_loop _ _ _ _ _ _) as [[[? ?] ?] ?]|].
    set (s0 := set_cursor _ s).
    pose proof (sweep_loop_complete (S (length (order s0))) 0 env now (MkSweep 0 0 0 0 0 false) s0 [] (order s)) as H.
    pose proof (sweep_loop_swept (S (length (order s0))) 0 env now (MkSweep 0 0 0 0 0 false) s0) as Hsw0.
    pose proof (wf_head_cursor s Hwf) as Hwf0. rewrite Ec in Hwf0. fold s0 in Hwf0. specialize (H Hwf0 eq_refl eq_refl ltac:(simpl; lia)).
    destruct (sweep_loop _ _ _ _ _ _) as [[[r ?] keys] s']. intros _ Hm k He. apply (H Hm k); [|done].
    destruct He as (rc&Hrc&_). destruct Hsw0 as [H1 _ _ _]. rewrite H1 in Hrc. case_bool_decide; [done|].
    assert (Hd : k ∈ dom (elements s)) by (rewrite (wf_records _ Hwf); by apply elem_of_dom_2 in Hrc).
    apply elem_of_dom in Hd as [id Hid]. apply (wf_order _ Hwf) in Hid. apply list_elem_of_fmap. by exists (id, k). }
  destruct (sweepLocked env now s) as [[[r err] keys] s']. destruct Hsw as [H1 H2 H3 H4], Hbnd as (?&?&?). simpl in *.
  split_and!; try done.
  - destruct Hwf'. by split.
  - intros k Hk. destruct (H2 k Hk) as (rc&?&?%classify_expired). eauto.
Qed.

(** ** Admission and completion *)

(** [Begin] first forgets the records of [keys], all expired; the request then
    failed, met a record of its own intent, or was admitted. *)
Lemma Begin_cases ctx ctx' env now i s res keys s' : ledger_wf s -> Begin ctx ctx' env now i s = (res, keys, s') ->
  ledger_wf s' /\ exists s1, swept now keys s s1
  /\ match res with
     | Fail _ => records s' = records s1
     | Ok (record, false) => records s' = records s1
         /\ exists r, records s1 !! intent_key i = Some r /\ record = cloneOperationRecord r /\ sameOperationIntent (or_Intent r) i = true
     | Ok (record, true) => records s1 !! intent_key i = None /\ records s' = <[intent_key i := newRecord now i s1]> (records s1)
         /\ record = cloneOperationRecord (newRecord now i s1)
     end.
Proof.
  intros Hwf. unfold Begin. destruct ctx; [intros [= <- <- <-]; split; [done|]; exists s; split; [by apply swept_nil|done]|].
  pose proof (maybeSweep_swept env now s) as Hsw. pose proof (wf_maybeSweep env now s Hwf) as Hwf1.
  destruct (maybeSweepLocked env now s) as [keys1 s1]. simpl in Hsw, Hwf1.
  destruct ctx'; [intros [= <- <- <-]; split; [done|]; by exists s1|].
  destruct (records s1 !! intent_key i) as [r|] eqn:Hr.
  2: { intros [= <- <- <-]. split; [by apply wf_admit|]. by exists s1. }
  destruct (classifyOperationRecord r now (rt_TerminalRetention (retention s1))) as [[]|] eqn:Hc.
  1,3: destruct (sameOperationIntent (or_Intent r) i) eqn:Hsame; intros [= <- <- <-]; (split; [done|]); exists s1; (split; [done|]); by eauto.
  2: { intros [= <- <- <-]. split; [done|]. by exists s1. }
  set (s2 := removeRecordLocked (intent_key i) s1). intros [= <- <- <-].
  assert (Hn : records s2 !! intent_key i = None) by (unfold s2; by rewrite removeRecordLocked_records, lookup_delete_eq).
  split; [by apply wf_admit; [apply wf_remove|]|]. exists s2. split; [|done].
  destruct Hsw as [H1 H2 H3 H4]. assert (Hni : intent_key i ∉ keys1) by (intros Hin; rewrite H1, bool_decide_eq_true_2 in Hr; done).
  split.
  - intros k. unfold s2. rewrite removeRecordLocked_records. destruct (decide (k = intent_key i)) as [->|Hne].
    + rewrite lookup_delete_eq, bool_decide_eq_true_2; [done|]. rewrite elem_of_app, list_elem_of_singleton. by right.
    + rewrite lookup_delete_ne, H1 by done. erewrite bool_decide_ext; [done|]. rewrite elem_of_app, list_elem_of_singleton. naive_solver.
  - intros k [Hk|Hk]%elem_of_app; [auto|]. apply list_elem_of_singleton in Hk as ->. exists r. rewrite <- H3. split; [|done].
    rewrite H1 in Hr. by case_bool_decide.
  - unfold s2. by rewrite removeRecordLocked_retention.
  - apply NoDup_app. split_and!; [done| |apply NoDup_singleton]. by intros x Hx ->%list_elem_of_singleton.
Qed.

Lemma Complete_cases ctx now i result s record err s' : ledger_wf s -> Complete ctx now i result s = (record, err, s') ->
  ledger_wf s' /\ (records s' = records s \/
    exists r, records s !! intent_key i = Some r /\ or_Result r = None /\ sameOperationIntent (or_Intent r) i = true
      /\ err = None /\ records s' = <[intent_key i := completeRecord now result s r]> (records s)).
Proof.
  intros Hwf. unfold Complete. destruct ctx; [intros [= <- <- <-]; auto|]. destruct (negb _); [intros [= <- <- <-]; auto|].
  destruct (negb _); [intros [= <- <- <-]; auto|]. destruct (records s !! intent_key i) as [r|] eqn:Hr; [|intros [= <- <- <-]; auto].
  destruct (sameOperationIntent (or_Intent r) i) eqn:Hs; simpl; [|intros [= <- <- <-]; auto].
  destruct (or_Result r) eqn:Hres; [intros [= <- <- <-]; auto|]. intros [= <- <- <-]. split; [|right; eauto 7].
  destruct Hwf. split; simpl; try done. rewrite dom_insert_L. apply elem_of_dom_2 in Hr. set_solver.
Qed.
End Ledger.

(** ** A sweep *)

Section Example.
Let intent (op : string) : OperationIntent := MkIntent "owner" op "turn.prompt" "s1" "s1" "d1" 1.
Let done_at (op outcome : string) (t : Z) : OperationRecord unit :=
  MkOperation unit 2 false (intent op)
    (Some (MkResult unit "" op outcome "s1" 0 (MkTarget "" "" "") "" None None None None "" "" "")) 10
    (if terminalOperationOutcome outcome then t + 10 else 0)%Z t.

(** A committed record that is over, one that is not, and an unknown one. *)
Definition example_ledger : @MemoryOperationStore unit :=
  MkLedger
    (<[intent_key (intent "a") := done_at "a" OutcomeCommitted 5]> (<[intent_key (intent "b") := done_at "b" OutcomeCommitted 50]>
      (<[intent_key (intent "c") := done_at "c" OutcomeUnknown 5]> ∅)))
    [(0%nat, intent_key (intent "a")); (1%nat, intent_key (intent "b")); (2%nat, intent_key (intent "c"))]
    (<[intent_key (intent "a") := 0%nat]> (<[intent_key (intent "b") := 1%nat]> (<[intent_key (intent "c") := 2%nat]> ∅)))
    None 3 0 (MkRetention 10 10 5 5 10).

Lemma example_ledger_wf : ledger_wf example_ledger.
Proof.
  split.
  - unfold example_ledger. simpl. rewrite !dom_insert_L. set_solver.
  - intros id key. unfold example_ledger. simpl. rewrite !elem_of_cons, elem_of_nil, !lookup_insert_Some, lookup_empty.
    naive_solver.
  - apply (bool_decide_unpack _). vm_compute. exact I.
  - repeat constructor.
  - exact I.
Qed.

Lemma sweep_forgets_only_expired_witness :
  let '(r, err, keys, s') := Sweep None (MkSweepEnv (fun _ => None) (fun _ => false)) 20 example_ledger in
  keys = [intent_key (intent "a")] /\ sw_Scanned r = 3%Z /\ (forall k, ~ expired 20 s' k).
Proof.
  pose proof (sweep_forgets_only_expired None (MkSweepEnv (fun _ => None) (fun _ => false)) 20 example_ledger example_ledger_wf
    ltac:(vm_compute; discriminate) ltac:(vm_compute; discriminate)) as H.
  destruct (Sweep None (MkSweepEnv (fun _ => None) (fun _ => false)) 20 example_ledger) as [[[r err] keys] s'] eqn:E.
  vm_compute in E. injection E as Hr He Hk Hs. split; [by rewrite <- Hk|]. split; [by rewrite <- Hr|].
  refine (proj2 (proj2 (proj2 (proj2 (proj2 (proj2 H))))) eq_refl (eq_sym He) eq_refl _). by rewrite <- Hr.
Defined.
End Example.
