(* ===== verification/Commands.v ===== *)
(** * Control commands and their operation ledger

    Models [CommandService.execute] of [control/appserver/command_service.go]
    with the execution gates of [operation_store.go]: any number of calls run
    concurrently against one ledger, the backend and the clock are the
    environment.  A call is a process that takes one step per call into the
    ledger, the gate or the backend.

    The abstract specification is the life of one operation key: admitted,
    dispatched at most once, sealed with a result, and forgotten only when that
    result is terminal and its retention is over. *)

From Stdlib Require Import ZArith Lia Ascii String.
From stdpp Require Import base option strings list gmap.
From S2P Require Import Prelude GoStrings Operations.

Local Open Scope string_scope.

(** ** Errors *)

(** What the service reads of a Go error: its text, its [errorcode.CodeOf], its
    [ErrorKindOf] and the outcome of an [OutcomeError] in its chain. *)
Record CmdError : Type := MkError { e_text : string; e_code : string; e_kind : string; e_outcome : option string }.

Definition CodeUnknown : string := "unknown".
Definition CodeUnknownOutcome : string := "unknown_outcome".
Definition CodeInvalidArgument : string := "invalid_argument".
Definition CodeInternal : string := "internal".

Definition NewError (code message : string) : CmdError :=
  MkError (if trim_space message =? "" then code else trim_space message) code "" None.
Definition WrapError (code message : string) (err : CmdError) : CmdError :=
  MkError (if trim_space message =? "" then e_text err else trim_space message) code (e_kind err) (e_outcome err).

Definition errOperationConflict : CmdError :=
  MkError "controlclient: operation id is bound to another request" "conflict" "operation_conflict" None.
Definition operationError (err : OperationError) : CmdError :=
  match err with
  | ErrOperationConflict => errOperationConflict
  | ErrContext detail => MkError detail (if detail =? "context deadline exceeded" then "timeout" else "cancelled") "" None
  | ErrOperation detail => MkError detail CodeUnknown "" None
  end.

Definition outcome_detail (outcome : string) : string :=
  if outcome =? OutcomeUnknown then "effect outcome cannot be proven" else
  if outcome =? OutcomeConflicted then "conflict" else
  if outcome =? OutcomeRejected then "command rejected" else "".

Definition publicCommandDetail (err : CmdError) (outcome : string) : string :=
  let c := e_code err in
  if (c =? CodeInvalidArgument) || (c =? "unsupported") then trim_space (e_text err) else
  if c =? "unauthenticated" then "authentication required" else
  if c =? "permission_denied" then "permission denied" else
  if (c =? "already_exists") || (c =? "conflict") || (c =? "failed_precondition") then "conflict" else
  if c =? CodeUnknownOutcome then "effect outcome cannot be proven" else outcome_detail outcome.

Definition internalCommandError (message : string) (err : CmdError) : CmdError :=
  if negb (e_code err =? CodeUnknown) then err else WrapError CodeInternal message err.

Section Commands.
Context {C : Type} `{EqDecision C}.
Variable copy_configuration : C -> C.
(** [CanRecoverControlCommand] of the backend, false when it has none. *)
Variable recoverable : string -> bool.

#[local] Abbreviation Record_ := (OperationRecord C).
#[local] Abbreviation Result_ := (CommandResult C).
#[local] Abbreviation Ledger := (@MemoryOperationStore C).

Definition no_target : TurnTarget := MkTarget "" "" "".

Definition commandFailure (operationID sessionID outcome detail : string) (err : CmdError) : Result_ :=
  MkResult C "" operationID outcome sessionID 0 no_target "" None None None None (trim_space detail)
    (if (e_code err =? CodeUnknown) && (outcome =? OutcomeUnknown) then CodeUnknownOutcome else e_code err) (e_kind err).

Definition failure (operationID sessionID outcome : string) (err : CmdError) : Result_ :=
  commandFailure operationID sessionID outcome (publicCommandDetail err outcome) err.

Definition with_identity (operationID sessionID : string) (r : Result_) : Result_ :=
  MkResult C (cr_InputStatus r) operationID (cr_Outcome r) (if cr_SessionID r =? "" then sessionID else cr_SessionID r) (cr_Revision r)
    (cr_Target r) (cr_ParticipantID r) (cr_Resource r) (cr_Configuration r) (cr_SessionResource r) (cr_BackgroundGrant r)
    (cr_Detail r) (cr_ErrorCode r) (cr_ErrorKind r).

Definition with_outcome (outcome : string) (r : Result_) : Result_ :=
  MkResult C (cr_InputStatus r) (cr_OperationID r) outcome (cr_SessionID r) (cr_Revision r) (cr_Target r) (cr_ParticipantID r)
    (cr_Resource r) (cr_Configuration r) (cr_SessionResource r) (cr_BackgroundGrant r) (cr_Detail r) (cr_ErrorCode r) (cr_ErrorKind r).

Definition with_error (detail code kind : string) (r : Result_) : Result_ :=
  MkResult C (cr_InputStatus r) (cr_OperationID r) (cr_Outcome r) (cr_SessionID r) (cr_Revision r) (cr_Target r) (cr_ParticipantID r)
    (cr_Resource r) (cr_Configuration r) (cr_SessionResource r) (cr_BackgroundGrant r) detail code kind.

Definition resultForBackendError (r : Result_) (err : CmdError) : Result_ :=
  let outcome := match e_outcome err with Some o => if OutcomeValid o then o else OutcomeUnknown | None => OutcomeUnknown end in
  with_error (publicCommandDetail err outcome)
    (if (e_code err =? CodeUnknown) && (outcome =? OutcomeUnknown) then CodeUnknownOutcome else e_code err) (e_kind err)
    (with_outcome outcome r).

(** ** A call *)

Inductive Phase : Type :=
| PGate                                       (* waits for the execution gate *)
| PBegin
| PDispatch                                   (* admitted; the backend was not called yet *)
| PComplete (result : Result_) (err : option CmdError)
| PRecover
| PCompleteRecovered (result : Result_)
| PDone (out : Result_) (err : option CmdError).

Record Call : Type := MkCall { cl_Intent : OperationIntent; cl_Lease : bool; cl_Phase : Phase }.

Definition cl_key (c : Call) : string := intent_key (cl_Intent c).
Definition cl_operation (c : Call) : string := oi_OperationID (cl_Intent c).
Definition cl_session (c : Call) : string := oi_SessionID (cl_Intent c).
Definition set_phase (p : Phase) (c : Call) : Call := MkCall (cl_Intent c) (cl_Lease c) p.

(** [commandOperationIntent]; the digest of the request is JSON and SHA-256. *)
Definition commandOperationIntent (principalID action operationID sessionID target : string) (digest : result CmdError string)
  : result CmdError OperationIntent :=
  let! digest := digest in
  Ok (MkIntent (trim_space principalID) (trim_space operationID) action (trim_space sessionID) (trim_space target) digest 0).

(** The head of [execute]: identifier, validation, authorisation and intent. *)
Definition prepareCommand (principalID action operationID sessionID target : string) (invalid denied : option CmdError)
    (digest : result CmdError string) : result (Result_ * CmdError) OperationIntent :=
  let operation := trim_space operationID in
  let session := trim_space sessionID in
  let reject err := Fail (failure operation session OutcomeRejected err, err) in
  if operation =? "" then reject (NewError CodeInvalidArgument "controlclient: operation_id is required") else
  match invalid with
  | Some err => reject (WrapError CodeInvalidArgument (e_text err) err)
  | None =>
    match denied with
    | Some err => reject err
    | None =>
      match commandOperationIntent principalID action operationID sessionID target digest with
      | Fail err => reject (WrapError CodeInvalidArgument (e_text err) err)
      | Ok intent => Ok intent
      end
    end
  end.

(** After [Begin].  A replayed result is returned as it is recorded. *)
Definition afterBegin (c : Call) (res : result OperationError (Record_ * bool)) : Phase :=
  match res with
  | Fail ErrOperationConflict => PDone (failure (cl_operation c) (cl_session c) OutcomeConflicted errOperationConflict) (Some errOperationConflict)
  | Fail err =>
    let coded := WrapError CodeUnknownOutcome "controlclient: begin operation" (operationError err) in
    PDone (failure (cl_operation c) (cl_session c) OutcomeUnknown coded) (Some coded)
  | Ok (_, true) => PDispatch
  | Ok (record, false) =>
    match or_Result record with
    | Some result => PDone result None
    | None =>
      if recoverable (oi_Action (cl_Intent c)) then PRecover else
      let unknown := NewError CodeUnknownOutcome "operation intent exists without a provable result" in
      PDone (commandFailure (cl_operation c) (cl_session c) OutcomeUnknown (e_text unknown) unknown) None
    end
  end.

(** The actions that need a receipt in the transaction of their effect, which
    the in-memory ledger does not offer. *)
Definition needs_transaction (action : string) : bool :=
  (action =? "session.configure") || (action =? "session.resource.create") || (action =? "session.background-grant.create")
  || (action =? "session.background-grant.revoke").

Definition receiptError : CmdError := MkError "control mutation requires an atomic database receipt" CodeUnknown "" None.

Definition afterDispatch (c : Call) (result : Result_) (err : option CmdError) : Phase :=
  let r := with_identity (cl_operation c) (cl_session c) result in
  PComplete
    (match err with
     | Some e => resultForBackendError r e
     | None => if OutcomeValid (cr_Outcome r) then r else with_outcome OutcomeCommitted r
     end) err.

Definition afterComplete (c : Call) (result : Result_) (dispatchErr : option CmdError) (err : option OperationError) : Phase :=
  match err with
  | None => PDone result dispatchErr
  | Some err =>
    let coded := internalCommandError "controlclient: complete operation" (operationError err) in
    let f := failure (cl_operation c) (cr_SessionID result) OutcomeUnknown coded in
    PDone (MkResult C (cr_InputStatus f) (cr_OperationID f) (cr_Outcome f) (cr_SessionID f) (cr_Revision result) (cr_Target result)
             (cr_ParticipantID result) (cr_Resource result) (cr_Configuration f) (cr_SessionResource f) (cr_BackgroundGrant f)
             (cr_Detail f) (cr_ErrorCode f) (cr_ErrorKind f)) (Some coded)
  end.

(** After [RecoverControlCommand]: a proven result, none, or an error. *)
Definition afterRecover (c : Call) (recovered : result CmdError (option Result_)) : Phase :=
  match recovered with
  | Fail err =>
    let unknown := WrapError CodeUnknownOutcome "controlclient: recover operation result" err in
    PDone (failure (cl_operation c) (cl_session c) OutcomeUnknown unknown) (Some unknown)
  | Ok (Some r) =>
    let r := with_identity (cl_operation c) (cl_session c) r in
    PCompleteRecovered (if OutcomeValid (cr_Outcome r) then r else with_outcome OutcomeCommitted r)
  | Ok None =>
    let unknown := NewError CodeUnknownOutcome "operation intent exists without a provable result" in
    PDone (commandFailure (cl_operation c) (cl_session c) OutcomeUnknown (e_text unknown) unknown) None
  end.

Definition afterCompleteRecovered (c : Call) (result : Result_) (err : option OperationError) : Phase :=
  match err with
  | None => PDone result None
  | Some err =>
    let coded := internalCommandError "controlclient: complete recovered operation" (operationError err) in
    PDone (failure (cl_operation c) (cr_SessionID result) OutcomeUnknown coded) (Some coded)
  end.

(** ** Execution gates *)

Record Gate : Type := MkGate { g_token : bool; g_refs : nat }.
#[local] Abbreviation Gates := (gmap string Gate).

(** The first part of [acquireOperationExecutionGate]. *)
Definition registerGate (key : string) (gates : Gates) : Gates :=
  let gate := default (MkGate true 0) (gates !! key) in
  <[key := MkGate (g_token gate) (S (g_refs gate))]> gates.

Definition releaseOperationExecutionGateReference (key : string) (gates : Gates) : Gates :=
  match gates !! key with
  | None => gates
  | Some gate => if (g_refs gate =? 1)%nat then delete key gates else <[key := MkGate (g_token gate) (g_refs gate - 1)]> gates
  end.

Definition setToken (b : bool) (key : string) (gates : Gates) : Gates :=
  match gates !! key with None => gates | Some gate => <[key := MkGate b (g_refs gate)]> gates end.

Definition gateError (c : Call) (err : CmdError) : Phase :=
  let unknown := WrapError CodeUnknownOutcome "controlclient: acquire operation execution gate" err in
  PDone (failure (cl_operation c) (cl_session c) OutcomeUnknown unknown) (Some unknown).

(** ** The system *)

Record Sys : Type := MkSys { sy_ledger : Ledger; sy_gates : Gates; sy_calls : list Call }.

(** What a step does to the life of an operation key. *)
Inductive Label : Type :=
| LAdmit (key : string)
| LDispatch (key : string)
| LSeal (key : string) (record : Record_)
| LExpire (key : string) (now : Z).

Definition label_key (l : Label) : string :=
  match l with LAdmit k | LDispatch k | LSeal k _ | LExpire k _ => k end.

(** The labels of a completion: the key was sealed by it. *)
Definition seal_labels (key : string) (before after : Ledger) : list Label :=
  match records before !! key, records after !! key with
  | Some r, Some r' => match or_Result r, or_Result r' with None, Some _ => [LSeal key r'] | _, _ => [] end
  | _, _ => []
  end.

Inductive step : Sys -> list Label -> Sys -> Prop :=
| step_start s intent :                              (* a call that passed [prepareCommand] *)
    step s [] (if recoverable (oi_Action intent)
               then MkSys (sy_ledger s) (registerGate (intent_key intent) (sy_gates s)) (sy_calls s ++ [MkCall intent false PGate])
               else MkSys (sy_ledger s) (sy_gates s) (sy_calls s ++ [MkCall intent false PBegin]))
| step_gate s j c gate :
    sy_calls s !! j = Some c -> cl_Phase c = PGate -> sy_gates s !! cl_key c = Some gate -> g_token gate = true ->
    step s [] (MkSys (sy_ledger s) (setToken false (cl_key c) (sy_gates s)) (<[j := MkCall (cl_Intent c) true PBegin]> (sy_calls s)))
| step_gate_cancelled s j c err :                    (* also after the token was taken and put back *)
    sy_calls s !! j = Some c -> cl_Phase c = PGate ->
    step s [] (MkSys (sy_ledger s) (releaseOperationExecutionGateReference (cl_key c) (sy_gates s))
                 (<[j := set_phase (gateError c err) c]> (sy_calls s)))
| step_begin s j c ctx ctx' env now res keys ledger :
    sy_calls s !! j = Some c -> cl_Phase c = PBegin ->
    Begin copy_configuration ctx ctx' env now (cl_Intent c) (sy_ledger s) = (res, keys, ledger) ->
    step s (map (fun k => LExpire k now) keys ++ match res with Ok (_, true) => [LAdmit (cl_key c)] | _ => [] end)
      (MkSys ledger (sy_gates s) (<[j := set_phase (afterBegin c res) c]> (sy_calls s)))
| step_no_receipt s j c :
    sy_calls s !! j = Some c -> cl_Phase c = PDispatch -> needs_transaction (oi_Action (cl_Intent c)) = true ->
    step s [] (MkSys (sy_ledger s) (sy_gates s) (<[j := set_phase
      (PDone (commandFailure (cl_operation c) (cl_session c) OutcomeUnknown (e_text receiptError) receiptError) (Some receiptError)) c]> (sy_calls s)))
| step_dispatch s j c result err :
    sy_calls s !! j = Some c -> cl_Phase c = PDispatch -> needs_transaction (oi_Action (cl_Intent c)) = false ->
    step s [LDispatch (cl_key c)] (MkSys (sy_ledger s) (sy_gates s) (<[j := set_phase (afterDispatch c result err) c]> (sy_calls s)))
| step_complete s j c result derr ctx now record err ledger :
    sy_calls s !! j = Some c -> cl_Phase c = PComplete result derr ->
    Complete copy_configuration ctx now (cl_Intent c) result (sy_ledger s) = (record, err, ledger) ->
    step s (seal_labels (cl_key c) (sy_ledger s) ledger)
      (MkSys ledger (sy_gates s) (<[j := set_phase (afterComplete c result derr err) c]> (sy_calls s)))
| step_recover s j c recovered :
    sy_calls s !! j = Some c -> cl_Phase c = PRecover ->
    step s [] (MkSys (sy_ledger s) (sy_gates s) (<[j := set_phase (afterRecover c recovered) c]> (sy_calls s)))
| step_complete_recovered s j c result ctx now record err ledger :
    sy_calls s !! j = Some c -> cl_Phase c = PCompleteRecovered result ->
    Complete copy_configuration ctx now (cl_Intent c) result (sy_ledger s) = (record, err, ledger) ->
    step s (seal_labels (cl_key c) (sy_ledger s) ledger)
      (MkSys ledger (sy_gates s) (<[j := set_phase (afterCompleteRecovered c result err) c]> (sy_calls s)))
| step_release s j c out err :                       (* the deferred release of the gate *)
    sy_calls s !! j = Some c -> cl_Phase c = PDone out err -> cl_Lease c = true ->
    step s [] (MkSys (sy_ledger s) (releaseOperationExecutionGateReference (cl_key c) (setToken true (cl_key c) (sy_gates s)))
                 (<[j := MkCall (cl_Intent c) false (cl_Phase c)]> (sy_calls s)))
| step_sweep s ctx env now r err keys ledger :
    Sweep ctx env now (sy_ledger s) = (r, err, keys, ledger) ->
    step s (map (fun k => LExpire k now) keys) (MkSys ledger (sy_gates s) (sy_calls s)).

(** A run from a new ledger, with its labels. *)
Inductive run (config : RetentionConfig) : list Label -> Sys -> Prop :=
| run_start ledger : NewMemoryOperationStoreWithConfig config = Ok ledger -> run config [] (MkSys ledger ∅ [])
| run_step trace s labels s' : run config trace s -> step s labels s' -> run config (trace ++ labels) s'.

(** ** The specification: the life of an operation *)

Inductive Life : Type := Fresh | Recorded | Dispatched | Sealed (record : Record_).

Definition reclaimable_b (now : Z) (r : Record_) : bool :=
  match or_Result r with
  | Some res => bool_decide (cr_Outcome res ∈ ["committed"; "conflicted"; "rejected"]) && negb (or_RetainForever r)
                && (Z.eqb (or_Version r) 0 || (or_UpdatedAt r + or_TerminalRetentionNanoseconds r <=? now)%Z)
  | None => false
  end.

Definition live (l : Life) (label : Label) : option Life :=
  match l, label with
  | Fresh, LAdmit _ => Some Recorded
  | Recorded, LDispatch _ => Some Dispatched
  | Recorded, LSeal _ r | Dispatched, LSeal _ r => Some (Sealed r)
  | Sealed r, LExpire _ now => if reclaimable_b now r then Some Fresh else None
  | _, _ => None
  end.

Fixpoint live_all (l : Life) (labels : list Label) : option Life :=
  match labels with [] => Some l | x :: rest => live l x ≫= fun l => live_all l rest end.

Definition labels_of (key : string) (trace : list Label) : list Label := List.filter (fun l => label_key l =? key) trace.

Lemma live_all_app l xs ys : live_all l (xs ++ ys) = live_all l xs ≫= fun l => live_all l ys.
Proof. revert l. induction xs as [|x xs IH]; intros l; simpl; [done|]. destruct (live l x); simpl; auto. Qed.

(** ** The invariant *)

Definition active (p : Phase) : bool :=
  match p with PDispatch | PComplete _ _ | PRecover | PCompleteRecovered _ => true | _ => false end.
Definition uses_gate (c : Call) : bool := match cl_Phase c with PGate => true | _ => cl_Lease c end.

Definition on_key (k : string) (p : Call -> bool) (c : Call) : bool := (cl_key c =? k) && p c.
Definition refs_on (k : string) (calls : list Call) : nat := length (List.filter (on_key k uses_gate) calls).

(** The life of a key and its record. *)
Definition life_record (l : Life) (r : option Record_) : Prop :=
  match l with
  | Fresh => r = None
  | Recorded | Dispatched => exists x, r = Some x /\ or_Result x = None
  | Sealed x => r = Some x /\ or_Result x <> None
  end.

(** What an active call relies on. *)
Definition call_ok (c : Call) (l : Life) (r : option Record_) : Prop :=
  match cl_Phase c with
  | PGate => recoverable (oi_Action (cl_Intent c)) = true /\ cl_Lease c = false
  | PBegin => cl_Lease c = recoverable (oi_Action (cl_Intent c))
  | PDispatch => l = Recorded
  | PComplete _ _ => l = Dispatched
  | _ => True
  end
  /\ (active (cl_Phase c) = true ->
      cl_Lease c = recoverable (oi_Action (cl_Intent c))
      /\ exists x, r = Some x /\ or_Result x = None /\ sameOperationIntent (or_Intent x) (cl_Intent c) = true).

Record Inv (lives : string -> Life) (s : Sys) : Prop := {
  inv_wf : ledger_wf (sy_ledger s);
  inv_life : forall k, life_record (lives k) (records (sy_ledger s) !! k);
  inv_calls : forall j c, sy_calls s !! j = Some c -> call_ok c (lives (cl_key c)) (records (sy_ledger s) !! cl_key c);
  inv_active : forall i j c d, sy_calls s !! i = Some c -> sy_calls s !! j = Some d ->
    active (cl_Phase c) = true -> active (cl_Phase d) = true -> cl_key c = cl_key d -> i = j;
  inv_lease : forall i j c d, sy_calls s !! i = Some c -> sy_calls s !! j = Some d ->
    cl_Lease c = true -> cl_Lease d = true -> cl_key c = cl_key d -> i = j;
  inv_token : forall k gate i c, sy_gates s !! k = Some gate -> g_token gate = true -> sy_calls s !! i = Some c -> cl_key c = k -> cl_Lease c = false;
  inv_refs : forall k, match sy_gates s !! k with Some gate => g_refs gate = refs_on k (sy_calls s) /\ (0 < g_refs gate)%nat | None => refs_on k (sy_calls s) = 0%nat end;
}.

(** ** Lemmas on calls *)

Lemma filter_insert_length (p : Call -> bool) (l : list Call) j c d : l !! j = Some c ->
  (length (List.filter p (<[j := d]> l)) + (if p c then 1 else 0) = length (List.filter p l) + (if p d then 1 else 0))%nat.
Proof.
  revert j. induction l as [|x l IH]; intros [|j]; simpl; [done|done|intros [= ->]|intros Hj].
  - destruct (p c), (p d); simpl; lia.
  - specialize (IH j Hj). destruct (p x); simpl; lia.
Qed.

Lemma insert_lookup_cases {A} (l : list A) j i x y : <[j := x]> l !! i = Some y -> (i = j /\ y = x) \/ (i <> j /\ l !! i = Some y).
Proof. intros [(->&->&_)|[? ?]]%list_lookup_insert_Some; auto. Qed.

(** A step of call [j] that keeps its intent and its use of the gate. *)
Lemma refs_insert k (l : list Call) j c d : l !! j = Some c -> cl_Intent d = cl_Intent c -> uses_gate d = uses_gate c ->
  refs_on k (<[j := d]> l) = refs_on k l.
Proof.
  intros Hj Hi Hu. unfold refs_on. pose proof (filter_insert_length (on_key k uses_gate) l j c d Hj) as H.
  assert (E : on_key k uses_gate d = on_key k uses_gate c) by (unfold on_key, cl_key; by rewrite Hi, Hu). rewrite E in H. lia.
Qed.

Lemma same_intent_action x y z : sameOperationIntent x y = true -> sameOperationIntent x z = true -> oi_Action y = oi_Action z.
Proof.
  unfold sameOperationIntent. rewrite !andb_true_iff, !String.eqb_eq. naive_solver congruence.
Qed.

(** ** Preservation *)

(** A step of call [j] that leaves the gates alone. *)
Lemma inv_update lives lives' s ledger j c d : Inv lives s -> sy_calls s !! j = Some c ->
  cl_Intent d = cl_Intent c -> cl_Lease d = cl_Lease c -> uses_gate d = uses_gate c ->
  ledger_wf ledger -> (forall k, life_record (lives' k) (records ledger !! k)) ->
  call_ok d (lives' (cl_key c)) (records ledger !! cl_key c) ->
  (forall k, (lives' k = lives k /\ records ledger !! k = records (sy_ledger s) !! k)
     \/ forall i x, i <> j -> sy_calls s !! i = Some x -> active (cl_Phase x) = true -> cl_key x <> k) ->
  (active (cl_Phase d) = true -> forall i x, i <> j -> sy_calls s !! i = Some x -> active (cl_Phase x) = true -> cl_key x <> cl_key c) ->
  Inv lives' (MkSys ledger (sy_gates s) (<[j := d]> (sy_calls s))).
Proof.
  intros HI Hj Hi Hl Hu Hwf Hlife Hd Hother Hact. assert (Hk : cl_key d = cl_key c) by (unfold cl_key; by rewrite Hi).
  split; simpl.
  - done.
  - done.
  - intros i x [[-> ->]|[Hne Hx]]%insert_lookup_cases; [by rewrite Hk|]. pose proof (inv_calls _ _ HI i x Hx) as Hok.
    destruct (Hother (cl_key x)) as [[-> ->]|Hno]; [done|]. destruct (active (cl_Phase x)) eqn:Ea; [by destruct (Hno i x Hne Hx Ea)|].
    unfold call_ok in *. split; [|by rewrite Ea]. destruct (cl_Phase x); try done; tauto.
  - intros i i' x y [[-> ->]|[Hne Hx]]%insert_lookup_cases [[-> ->]|[Hne' Hy]]%insert_lookup_cases Ax Ay E; [done|..].
    + exfalso. apply (Hact Ax i' y Hne' Hy Ay). congruence.
    + exfalso. apply (Hact Ay i x Hne Hx Ax). congruence.
    + by apply (inv_active _ _ HI i i' x y).
  - intros i i' x y [[-> ->]|[Hne Hx]]%insert_lookup_cases [[-> ->]|[Hne' Hy]]%insert_lookup_cases Lx Ly E; [done|..].
    + apply (inv_lease _ _ HI j i' c y); congruence.
    + apply (inv_lease _ _ HI i j x c); congruence.
    + by apply (inv_lease _ _ HI i i' x y).
  - intros k gate i x Hg Ht [[-> ->]|[Hne Hx]]%insert_lookup_cases E; [|by apply (inv_token _ _ HI k gate i x)].
    rewrite Hl. apply (inv_token _ _ HI k gate j c); congruence.
  - intros k. rewrite (refs_insert k _ j c d) by done. apply (inv_refs _ _ HI).
Qed.

(** Forgetting expired records moves sealed lives to fresh ones. *)
Definition forget (keys : list string) (lives : string -> Life) (k : string) : Life :=
  if bool_decide (k ∈ keys) then Fresh else lives k.

Lemma labels_of_expire keys now k : NoDup keys ->
  labels_of k (map (fun k => LExpire k now) keys) = if bool_decide (k ∈ keys) then [LExpire k now] else [].
Proof.
  unfold labels_of. induction 1 as [|x keys Hx Hn IH]; simpl; [done|]. destruct (String.eqb_spec x k) as [->|Hne].
  - rewrite IH, (bool_decide_eq_false_2 (k ∈ keys)), (bool_decide_eq_true_2 (k ∈ k :: keys)); [done|apply list_elem_of_here|done].
  - rewrite IH. erewrite (bool_decide_ext (k ∈ x :: keys)); [done|]. rewrite elem_of_cons. naive_solver.
Qed.

Lemma reclaimable_true now (r : Record_) : reclaimable now r -> reclaimable_b now r = true.
Proof.
  intros (res&Hres&Ht&Hf&Hd). unfold reclaimable_b. rewrite Hres, (bool_decide_eq_true_2 _ Ht), Hf. simpl.
  destruct (Z.eqb_spec (or_Version r) 0); [done|]. simpl. apply Z.leb_le. auto.
Qed.

Lemma swept_lives lives s now keys ledger : Inv lives s -> swept now keys (sy_ledger s) ledger ->
  (forall k, life_record (forget keys lives k) (records ledger !! k))
  /\ (forall k, live_all (lives k) (labels_of k (map (fun k => LExpire k now) keys)) = Some (forget keys lives k))
  /\ (forall k, (forget keys lives k = lives k /\ records ledger !! k = records (sy_ledger s) !! k)
        \/ forall i x, sy_calls s !! i = Some x -> active (cl_Phase x) = true -> cl_key x <> k).
Proof.
  intros HI [H1 H2 H3 H4].
  assert (Hsealed : forall k, k ∈ keys -> exists r, lives k = Sealed r /\ records (sy_ledger s) !! k = Some r /\ reclaimable now r).
  { intros k Hk. destruct (H2 k Hk) as (r&Hr&Hc%classify_expired). pose proof (inv_life _ _ HI k) as Hl. rewrite Hr in Hl.
    destruct Hc as (res&Hres&Hrest). destruct (lives k) as [| | |r']; simpl in Hl; try naive_solver.
    destruct Hl as [[= ->] _]. exists r'. split_and!; try done. by exists res. }
  unfold forget. split_and!; intros k.
  - rewrite H1. case_bool_decide; [done|]. apply (inv_life _ _ HI).
  - rewrite labels_of_expire by done. case_bool_decide as Hk; [|done]. destruct (Hsealed k Hk) as (r&->&_&Hr%reclaimable_true).
    simpl. by rewrite Hr.
  - rewrite H1. case_bool_decide as Hk; [|by left]. right. intros i x Hx Ax <-. destruct (Hsealed _ Hk) as (r&_&Hr&res&Hres&_).
    destruct (inv_calls _ _ HI i x Hx) as [_ Hok]. destruct (Hok Ax) as (_&y&Hy&Hn&_). congruence.
Qed.

Definition set_life (k : string) (l : Life) (lives : string -> Life) : string -> Life := fun x => if x =? k then l else lives x.

Lemma labels_of_app k xs ys : labels_of k (xs ++ ys) = (labels_of k xs ++ labels_of k ys)%list.
Proof. apply List.filter_app. Qed.

Lemma clone_result r : or_Result (cloneOperationRecord copy_configuration r) = cloneCommandResult copy_configuration <$> or_Result r.
Proof. done. Qed.

Definition preserved (lives : string -> Life) (labels : list Label) (s' : Sys) : Prop :=
  exists lives', Inv lives' s' /\ forall k, live_all (lives k) (labels_of k labels) = Some (lives' k).

Lemma idle_uses_gate c p : active p = false -> p <> PGate -> cl_Phase c <> PGate -> uses_gate (set_phase p c) = uses_gate c.
Proof. unfold uses_gate. simpl. by destruct p, (cl_Phase c). Qed.

Lemma afterBegin_no_gate c res : afterBegin c res <> PGate.
Proof. unfold afterBegin. repeat case_match; done. Qed.

Lemma begin_preserved lives s j c ctx ctx' env now res keys ledger : Inv lives s ->
  sy_calls s !! j = Some c -> cl_Phase c = PBegin ->
  Begin copy_configuration ctx ctx' env now (cl_Intent c) (sy_ledger s) = (res, keys, ledger) ->
  preserved lives (map (fun k => LExpire k now) keys ++ match res with Ok (_, true) => [LAdmit (cl_key c)] | _ => [] end)
    (MkSys ledger (sy_gates s) (<[j := set_phase (afterBegin c res) c]> (sy_calls s))).
Proof.
  intros HI Hj Hp Hb. destruct (Begin_cases _ _ _ _ _ _ _ _ _ _ (inv_wf _ _ HI) Hb) as [Hwf (s1&Hsw&Hres)].
  destruct (swept_lives _ _ _ _ _ HI Hsw) as (Hlife&Hlabels&Hsame). destruct (inv_calls _ _ HI j c Hj) as [Hlease _]. rewrite Hp in Hlease.
  assert (Hug : forall p, p <> PGate -> uses_gate (set_phase p c) = uses_gate c) by (intros p Hne; unfold uses_gate; rewrite Hp; by destruct p).
  assert (Hquiet : forall p, active p = false -> p <> PGate -> p <> PBegin -> records ledger = records s1 ->
    preserved lives (map (fun k => LExpire k now) keys ++ []) (MkSys ledger (sy_gates s) (<[j := set_phase p c]> (sy_calls s)))).
  { intros p Ha Hg Hbg Hrec. exists (forget keys lives). split; [|intros k; by rewrite app_nil_r].
    eapply inv_update; try done; simpl.
    - by apply Hug.
    - intros k. rewrite Hrec. apply Hlife.
    - unfold call_ok. simpl. rewrite Ha. split; [by destruct p|done].
    - intros k. rewrite Hrec. destruct (Hsame k) as [?|Hno]; [by left|right]. intros i x _. apply Hno.
    - by rewrite Ha. }
  destruct res as [[record [|]]|err].
  - destruct Hres as (Hn&Hrec&_). exists (set_life (cl_key c) Recorded (forget keys lives)).
    assert (Hfresh : forget keys lives (cl_key c) = Fresh).
    { pose proof (Hlife (cl_key c)) as Hl. unfold cl_key in *. rewrite Hn in Hl. destruct (forget keys lives _); naive_solver. }
    assert (Hno : forall i x, sy_calls s !! i = Some x -> active (cl_Phase x) = true -> cl_key x <> cl_key c).
    { intros i x Hx Ax E. destruct (inv_calls _ _ HI i x Hx) as [_ Hok]. destruct (Hok Ax) as (_&y&Hy&Hy0&_).
      destruct (Hsame (cl_key c)) as [[_ Hs]|Hno]; [|by apply (Hno i x)]. rewrite <- E in Hs at 2. unfold cl_key in *. congruence. }
    split.
    + eapply inv_update; try done; simpl.
      * by apply Hug.
      * intros k. rewrite Hrec. unfold set_life. destruct (String.eqb_spec k (cl_key c)) as [->|Hne].
        -- unfold cl_key. rewrite lookup_insert_eq. simpl. eauto.
        -- rewrite lookup_insert_ne by (unfold cl_key in *; congruence). apply Hlife.
      * unfold call_ok, set_life. simpl. rewrite String.eqb_refl. split; [done|]. intros _. split; [done|].
        rewrite Hrec. unfold cl_key. rewrite lookup_insert_eq. eexists. split_and!; [done|done|].
        unfold sameOperationIntent. simpl. by rewrite !String.eqb_refl.
      * intros k. destruct (String.eqb_spec k (cl_key c)) as [->|Hne]; [right; intros i x _; apply Hno|]. unfold set_life.
        rewrite (proj2 (String.eqb_neq _ _) Hne), Hrec, lookup_insert_ne by (unfold cl_key in *; congruence).
        destruct (Hsame k) as [?|Hn0]; [by left|right]. intros i x _. apply Hn0.
      * intros _ i x _. apply Hno.
    + intros k. rewrite labels_of_app, live_all_app, Hlabels. simpl. unfold set_life, labels_of. simpl. rewrite (String.eqb_sym k).
      destruct (String.eqb_spec (cl_key c) k) as [<-|Hne]; [|done]. simpl. by rewrite Hfresh.
  - destruct Hres as (Hrec&r&Hr&->&Hsi). unfold afterBegin. rewrite clone_result.
    destruct (or_Result r) as [result|] eqn:Hres; simpl; [by apply Hquiet|].
    destruct (recoverable (oi_Action (cl_Intent c))) eqn:Hrc; [|by apply Hquiet].
    exists (forget keys lives). split; [|intros k; by rewrite app_nil_r]. eapply inv_update; try done; simpl.
    + by apply Hug.
    + intros k. rewrite Hrec. apply Hlife.
    + unfold call_ok. simpl. split; [done|]. intros _. rewrite Hrc. split; [done|]. rewrite Hrec. eauto.
    + intros k. rewrite Hrec. destruct (Hsame k) as [?|Hno]; [by left|right]. intros i x _. apply Hno.
    + intros _ i x Hne Hx Ax E. apply Hne. destruct (inv_calls _ _ HI i x Hx) as [_ Hok]. destruct (Hok Ax) as (Hlx&y&Hy&_&Hsy).
      destruct (Hsame (cl_key c)) as [[_ Hs]|Hno]; [|by destruct (Hno i x Hx Ax)].
      assert (r = y) as -> by (rewrite E in Hy; unfold cl_key in *; congruence).
      apply (inv_lease _ _ HI i j x c Hx Hj); [|congruence|done]. rewrite Hlx, <- Hrc. f_equal. by eapply same_intent_action.
  - assert (Ha : active (afterBegin c (Fail err)) = false /\ afterBegin c (Fail err) <> PBegin) by (unfold afterBegin; by case_match).
    apply Hquiet; [tauto|apply afterBegin_no_gate|tauto|done].
Qed.

Lemma complete_preserved lives s j c result ctx now record err ledger p : Inv lives s ->
  sy_calls s !! j = Some c -> (exists derr, cl_Phase c = PComplete result derr) \/ cl_Phase c = PCompleteRecovered result ->
  Complete copy_configuration ctx now (cl_Intent c) result (sy_ledger s) = (record, err, ledger) ->
  (exists out err, p = PDone out err) ->
  preserved lives (seal_labels (cl_key c) (sy_ledger s) ledger) (MkSys ledger (sy_gates s) (<[j := set_phase p c]> (sy_calls s))).
Proof.
  intros HI Hj Hp Hc (out&oerr&->). destruct (Complete_cases _ _ _ _ _ _ _ _ _ (inv_wf _ _ HI) Hc) as [Hwf Hcases].
  assert (Ha : active (cl_Phase c) = true) by (by destruct Hp as [[? ->]| ->]).
  assert (Hug : uses_gate (set_phase (PDone out oerr) c) = uses_gate c) by (unfold uses_gate; by destruct Hp as [[? ->]| ->]).
  assert (Hno : forall i x, i <> j -> sy_calls s !! i = Some x -> active (cl_Phase x) = true -> cl_key x <> cl_key c).
  { intros i x Hne Hx Ax E. apply Hne. by apply (inv_active _ _ HI i j x c). }
  destruct Hcases as [Hrec|(r&Hr&Hr0&_&_&Hrec)].
  - exists lives. assert (El : seal_labels (cl_key c) (sy_ledger s) ledger = []).
    { unfold seal_labels. rewrite Hrec. destruct (records (sy_ledger s) !! cl_key c) as [r|]; [|done]. by destruct (or_Result r). }
    rewrite El. split; [|done]. eapply inv_update; try done; simpl.
    + intros k. rewrite Hrec. apply (inv_life _ _ HI).
    + intros k. left. by rewrite Hrec.
  - set (r' := completeRecord copy_configuration now result (sy_ledger s) r) in *. exists (set_life (cl_key c) (Sealed r') lives).
    assert (El : seal_labels (cl_key c) (sy_ledger s) ledger = [LSeal (cl_key c) r']).
    { unfold seal_labels. rewrite Hrec. unfold cl_key. rewrite Hr, lookup_insert_eq, Hr0. done. }
    rewrite El. split.
    + eapply inv_update; try done; simpl.
      * intros k. rewrite Hrec. unfold set_life. destruct (String.eqb_spec k (cl_key c)) as [->|Hne].
        -- unfold cl_key. rewrite lookup_insert_eq. simpl. done.
        -- rewrite lookup_insert_ne by (unfold cl_key in *; congruence). apply (inv_life _ _ HI).
      * intros k. destruct (String.eqb_spec k (cl_key c)) as [->|Hne]; [by right|left]. unfold set_life.
        rewrite (proj2 (String.eqb_neq _ _) Hne), Hrec, lookup_insert_ne by (unfold cl_key in *; congruence). done.
    + intros k. unfold set_life, labels_of. simpl. rewrite (String.eqb_sym k). destruct (String.eqb_spec (cl_key c) k) as [<-|Hne]; [|done].
      simpl. pose proof (inv_life _ _ HI (cl_key c)) as Hl. unfold cl_key in *. rewrite Hr in Hl.
      destruct (lives (intent_key (cl_Intent c))) as [| | |r0]; simpl in Hl |- *; try done. destruct Hl as [[= <-] Hl]. done.
Qed.

(** ** The gates *)

Lemma refs_insert_ne k (l : list Call) j c d : l !! j = Some c -> cl_Intent d = cl_Intent c -> cl_key c <> k ->
  refs_on k (<[j := d]> l) = refs_on k l.
Proof.
  intros Hj Hi Hk. unfold refs_on. pose proof (filter_insert_length (on_key k uses_gate) l j c d Hj) as H.
  assert (Ec : on_key k uses_gate c = false) by (unfold on_key; by rewrite (proj2 (String.eqb_neq _ _) Hk)).
  assert (Ed : on_key k uses_gate d = false) by (unfold on_key, cl_key in *; rewrite Hi; by rewrite (proj2 (String.eqb_neq _ _) Hk)).
  rewrite Ec, Ed in H. lia.
Qed.

Lemma refs_drop (l : list Call) j c d : l !! j = Some c -> cl_Intent d = cl_Intent c -> uses_gate c = true -> uses_gate d = false ->
  refs_on (cl_key c) l = S (refs_on (cl_key c) (<[j := d]> l)).
Proof.
  intros Hj Hi Hc Hd. unfold refs_on. pose proof (filter_insert_length (on_key (cl_key c) uses_gate) l j c d Hj) as H.
  assert (Ec : on_key (cl_key c) uses_gate c = true) by (unfold on_key; by rewrite String.eqb_refl).
  assert (Ed : on_key (cl_key c) uses_gate d = false) by (unfold on_key; rewrite Hd; apply andb_false_r).
  rewrite Ec, Ed in H. lia.
Qed.

Lemma refs_none k (l : list Call) : refs_on k l = 0%nat -> forall i c, l !! i = Some c -> cl_key c = k -> cl_Lease c = false.
Proof.
  unfold refs_on. intros H i c Hc <-. apply nil_length_inv in H. destruct (cl_Lease c) eqn:E; [|done]. exfalso.
  assert (Hin : c ∈ List.filter (on_key (cl_key c) uses_gate) l).
  { apply list_elem_of_In, filter_In. split; [apply list_elem_of_In; by eapply list_elem_of_lookup_2|]. unfold on_key, uses_gate.
    rewrite String.eqb_refl, E. by destruct (cl_Phase c). }
  rewrite H in Hin. by apply elem_of_nil in Hin.
Qed.

(** A step of call [j] that gives up its use of the gate, after which the gate
    is [gates] with the reference released. *)
Lemma inv_release lives s gates j c d : Inv lives s -> sy_calls s !! j = Some c -> cl_Intent d = cl_Intent c ->
  uses_gate c = true -> cl_Lease d = false -> (exists out err, cl_Phase d = PDone out err) -> active (cl_Phase c) = false ->
  (forall k, k <> cl_key c -> gates !! k = sy_gates s !! k) ->
  (forall gate, sy_gates s !! cl_key c = Some gate ->
     exists gate', gates !! cl_key c = Some gate' /\ g_refs gate' = g_refs gate
       /\ (g_token gate' = true -> forall i x, i <> j -> sy_calls s !! i = Some x -> cl_key x = cl_key c -> cl_Lease x = false)) ->
  Inv lives (MkSys (sy_ledger s) (releaseOperationExecutionGateReference (cl_key c) gates) (<[j := d]> (sy_calls s))).
Proof.
  intros HI Hj Hi Hu Hl (out&err&Hp) Ha Hother Hgate. assert (Hk : cl_key d = cl_key c) by (unfold cl_key; by rewrite Hi).
  assert (Hud : uses_gate d = false) by (unfold uses_gate; by rewrite Hp).
  pose proof (refs_drop _ j c d Hj Hi Hu Hud) as Hrefs. pose proof (inv_refs _ _ HI (cl_key c)) as Hr.
  destruct (sy_gates s !! cl_key c) as [gate|] eqn:Eg; [|lia]. destruct Hr as [Hr1 Hr2].
  destruct (Hgate gate eq_refl) as (gate'&Eg'&Hr'&Htok). unfold releaseOperationExecutionGateReference. rewrite Eg'.
  split; cbn [sy_ledger sy_gates sy_calls].
  - apply HI.
  - apply HI.
  - intros i x [[-> ->]|[Hne Hx]]%insert_lookup_cases; [|by apply (inv_calls _ _ HI i x)]. unfold call_ok. by rewrite Hp.
  - intros i i' x y [[-> ->]|[Hne Hx]]%insert_lookup_cases [[-> ->]|[Hne' Hy]]%insert_lookup_cases Ax Ay E; [done|by rewrite Hp in Ax|by rewrite Hp in Ay|].
    by apply (inv_active _ _ HI i i' x y).
  - intros i i' x y [[-> ->]|[Hne Hx]]%insert_lookup_cases [[-> ->]|[Hne' Hy]]%insert_lookup_cases Lx Ly E; try congruence.
    by apply (inv_lease _ _ HI i i' x y).
  - intros k gate0 i x Hg Ht [[-> ->]|[Hne Hx]]%insert_lookup_cases E; [done|]. destruct (decide (k = cl_key c)) as [->|Hnk].
    + revert Hg. destruct (Nat.eqb_spec (g_refs gate') 1); [by rewrite lookup_delete_eq|]. rewrite lookup_insert_eq.
      intros [= <-]. by apply (Htok Ht i x).
    + assert (Hg0 : sy_gates s !! k = Some gate0).
      { rewrite <- Hother by done. revert Hg. destruct (_ =? _)%nat; [by rewrite lookup_delete_ne|by rewrite lookup_insert_ne]. }
      by apply (inv_token _ _ HI k gate0 i x).
  - intros k. destruct (decide (k = cl_key c)) as [->|Hnk].
    + destruct (Nat.eqb_spec (g_refs gate') 1); [rewrite lookup_delete_eq; lia|]. rewrite lookup_insert_eq. simpl. lia.
    + rewrite (refs_insert_ne k _ j c d) by done. pose proof (inv_refs _ _ HI k) as H0. rewrite <- (Hother k Hnk) in H0.
      destruct (_ =? _)%nat; [by rewrite lookup_delete_ne|by rewrite lookup_insert_ne].
Qed.

Lemma start_preserved lives s intent : Inv lives s ->
  Inv lives (if recoverable (oi_Action intent)
    then MkSys (sy_ledger s) (registerGate (intent_key intent) (sy_gates s)) (sy_calls s ++ [MkCall intent false PGate])
    else MkSys (sy_ledger s) (sy_gates s) (sy_calls s ++ [MkCall intent false PBegin])).
Proof.
  intros HI. destruct (recoverable (oi_Action intent)) eqn:Erec;
    match goal with |- Inv _ (MkSys _ _ (_ ++ [?d])) => set (d0 := d) end;
    assert (Hl : forall i x, (sy_calls s ++ [d0])%list !! i = Some x -> sy_calls s !! i = Some x \/ x = d0)
      by (intros i x [?|[_ Hx]]%lookup_app_Some; [by left|right]; apply list_lookup_singleton_Some in Hx; naive_solver);
    assert (Hidle : active (cl_Phase d0) = false /\ cl_Lease d0 = false) by done.
  all: assert (Hsplit : forall i x, (sy_calls s ++ [d0])%list !! i = Some x -> active (cl_Phase x) = true \/ cl_Lease x = true -> sy_calls s !! i = Some x)
      by (intros i x Hx%Hl [Ax|Lx]; destruct Hx as [?| ->]; try done; destruct Hidle; congruence).
  all: assert (Hrefs : forall k, refs_on k (sy_calls s ++ [d0]) = (refs_on k (sy_calls s) + if on_key k uses_gate d0 then 1 else 0)%nat)
      by (intros k; unfold refs_on; rewrite List.filter_app, length_app; simpl; by destruct (on_key k uses_gate d0)).
  all: split; simpl; [apply HI|apply HI|..].
  all: try solve [intros i i' x y Hx Hy Ax Ay E; apply (inv_active _ _ HI i i' x y); auto].
  all: try solve [intros i i' x y Hx Hy Ax Ay E; apply (inv_lease _ _ HI i i' x y); auto].
  - intros i x [?| ->]%Hl; [by apply (inv_calls _ _ HI i)|]. unfold call_ok. simpl. done.
  - intros k gate i x Hg Ht Hx E. apply not_true_is_false. intros Lx. apply not_false_iff_true in Lx as Lx'. apply Lx'. unfold registerGate in Hg.
    destruct (decide (intent_key intent = k)) as [Ek|Hne].
    + rewrite Ek, lookup_insert_eq in Hg. injection Hg as <-. simpl in Ht. pose proof (inv_refs _ _ HI k) as Hr.
      destruct (sy_gates s !! k) as [g0|] eqn:Eg; simpl in Ht.
      * apply (inv_token _ _ HI k g0 i x); auto.
      * apply (refs_none k _ Hr i x); auto.
    + rewrite lookup_insert_ne in Hg by done. apply (inv_token _ _ HI k gate i x); auto.
  - intros k. rewrite Hrefs. unfold registerGate. pose proof (inv_refs _ _ HI k) as Hr.
    unfold on_key, cl_key. cbn [d0 cl_Intent uses_gate cl_Phase].
    destruct (String.eqb_spec (intent_key intent) k) as [->|Hne].
    + rewrite lookup_insert_eq. simpl. destruct (sy_gates s !! k); simpl; lia.
    + rewrite lookup_insert_ne by done. simpl. destruct (sy_gates s !! k); lia.
  - intros i x [?| ->]%Hl; [by apply (inv_calls _ _ HI i)|]. unfold call_ok. simpl. done.
  - intros k gate i x Hg Ht Hx E. apply not_true_is_false. intros Lx. apply not_false_iff_true in Lx as Lx'. apply Lx'. apply (inv_token _ _ HI k gate i x); auto.
  - intros k. rewrite Hrefs. unfold on_key. cbn [d0 uses_gate cl_Phase cl_Lease]. rewrite andb_false_r, Nat.add_0_r. apply (inv_refs _ _ HI).
Qed.

Lemma gate_preserved lives s j c gate : Inv lives s -> sy_calls s !! j = Some c -> cl_Phase c = PGate ->
  sy_gates s !! cl_key c = Some gate -> g_token gate = true ->
  Inv lives (MkSys (sy_ledger s) (setToken false (cl_key c) (sy_gates s)) (<[j := MkCall (cl_Intent c) true PBegin]> (sy_calls s))).
Proof.
  intros HI Hj Hp Hg Ht. destruct (inv_calls _ _ HI j c Hj) as [Hok _]. rewrite Hp in Hok. unfold setToken. rewrite Hg.
  set (d := MkCall (cl_Intent c) true PBegin).
  assert (Hfree : forall i x, sy_calls s !! i = Some x -> cl_key x = cl_key c -> cl_Lease x = false).
  { intros i x Hx E. by apply (inv_token _ _ HI (cl_key c) gate i x). }
  split; cbn [sy_ledger sy_gates sy_calls]; [apply HI|apply HI|..].
  - intros i x [[-> ->]|[Hne Hx]]%insert_lookup_cases; [|by apply (inv_calls _ _ HI i x)]. unfold call_ok. simpl. split; [|done]. symmetry. tauto.
  - intros i i' x y [[-> ->]|[Hne Hx]]%insert_lookup_cases [[-> ->]|[Hne' Hy]]%insert_lookup_cases Ax Ay E; try done.
    by apply (inv_active _ _ HI i i' x y).
  - intros i i' x y [[-> ->]|[Hne Hx]]%insert_lookup_cases [[-> ->]|[Hne' Hy]]%insert_lookup_cases Lx Ly E; [done|..].
    + rewrite (Hfree i' y Hy) in Ly by (unfold cl_key in *; simpl in E; congruence). done.
    + rewrite (Hfree i x Hx) in Lx by (unfold cl_key in *; simpl in E; congruence). done.
    + by apply (inv_lease _ _ HI i i' x y).
  - intros k g0 i x Hg0 Ht0 Hx E. destruct (decide (k = cl_key c)) as [->|Hne].
    + rewrite lookup_insert_eq in Hg0. by injection Hg0 as <-.
    + rewrite lookup_insert_ne in Hg0 by done. apply insert_lookup_cases in Hx as [[-> ->]|[Hij Hx]]; [by destruct Hne|].
      by apply (inv_token _ _ HI k g0 i x).
  - intros k. rewrite (refs_insert k _ j c d) by (try done; unfold uses_gate; by rewrite Hp).
    pose proof (inv_refs _ _ HI k) as Hr. destruct (decide (k = cl_key c)) as [->|Hne].
    + rewrite lookup_insert_eq. by rewrite Hg in Hr.
    + by rewrite lookup_insert_ne.
Qed.

Lemma quiet_preserved lives s j c p : Inv lives s -> sy_calls s !! j = Some c -> active (cl_Phase c) = true ->
  (exists out err, p = PDone out err) \/ (exists r, p = PCompleteRecovered r) ->
  Inv lives (MkSys (sy_ledger s) (sy_gates s) (<[j := set_phase p c]> (sy_calls s))).
Proof.
  intros HI Hj Ha Hp. eapply inv_update; try done; simpl.
  - unfold uses_gate. simpl. destruct Hp as [(?&?&->)|(?&->)]; by destruct (cl_Phase c).
  - apply HI.
  - apply HI.
  - destruct (inv_calls _ _ HI j c Hj) as [_ Hok]. unfold call_ok. simpl. split; [by destruct Hp as [(?&?&->)|(?&->)]|]. auto.
  - by left.
  - intros _ i x Hne Hx Ax E. apply Hne. by apply (inv_active _ _ HI i j x c).
Qed.

Lemma step_preserved lives s labels s' : Inv lives s -> step s labels s' -> preserved lives labels s'.
Proof.
  intros HI Hs. destruct Hs as [s intent|s j c gate Hj Hp Hg Ht|s j c err Hj Hp|s j c ctx ctx' env now res keys ledger Hj Hp Hb
    |s j c Hj Hp Hn|s j c result err Hj Hp Hn|s j c result derr ctx now record err ledger Hj Hp Hc|s j c recovered Hj Hp
    |s j c result ctx now record err ledger Hj Hp Hc|s j c out err Hj Hp Hl|s ctx env now r err keys ledger Hsw].
  - exists lives. split; [by apply start_preserved|done].
  - exists lives. split; [by apply (gate_preserved lives s j c gate)|done].
  - exists lives. split; [|done]. destruct (inv_calls _ _ HI j c Hj) as [Hok _]. rewrite Hp in Hok.
    apply inv_release; try done; [unfold uses_gate; by rewrite Hp|simpl; tauto|simpl; unfold gateError; eauto|by rewrite Hp|].
    intros gate Hg. exists gate. split_and!; try done. intros Ht i x _ Hx E. by apply (inv_token _ _ HI (cl_key c) gate i x).
  - by eapply begin_preserved.
  - exists lives. split; [|done]. apply quiet_preserved; eauto. by rewrite Hp.
  - destruct (inv_calls _ _ HI j c Hj) as [Hok1 Hok2]. rewrite Hp in Hok1, Hok2. exists (set_life (cl_key c) Dispatched lives).
    assert (Hno : forall i x, i <> j -> sy_calls s !! i = Some x -> active (cl_Phase x) = true -> cl_key x <> cl_key c).
    { intros i x Hne Hx Ax E. apply Hne. apply (inv_active _ _ HI i j x c); try done. by rewrite Hp. }
    split.
    + eapply inv_update; try done; simpl.
      * unfold uses_gate. by rewrite Hp.
      * apply HI.
      * intros k. unfold set_life. destruct (String.eqb_spec k (cl_key c)) as [->|Hne]; [|apply HI].
        destruct (Hok2 eq_refl) as (_&x&Hx&Hx0&_). exists x. auto.
      * unfold call_ok, set_life. simpl. rewrite String.eqb_refl. split; [done|]. intros _. by apply Hok2.
      * intros k. destruct (String.eqb_spec k (cl_key c)) as [->|Hne]; [by right|left]. unfold set_life.
        by rewrite (proj2 (String.eqb_neq _ _) Hne).
    + intros k. unfold set_life, labels_of. simpl. rewrite (String.eqb_sym k). destruct (String.eqb_spec (cl_key c) k) as [<-|Hne]; [|done].
      simpl. by rewrite Hok1.
  - eapply complete_preserved; eauto. unfold afterComplete. destruct err; eauto.
  - exists lives. split; [|done]. apply quiet_preserved; [done|done|by rewrite Hp|].
    unfold afterRecover. destruct recovered as [[r|]|e]; eauto.
  - eapply complete_preserved; eauto. unfold afterCompleteRecovered. destruct err; eauto.
  - exists lives. split; [|done]. apply inv_release; try done.
    + unfold uses_gate. rewrite Hp. done.
    + simpl. eauto.
    + by rewrite Hp.
    + intros k Hk. unfold setToken. destruct (sy_gates s !! cl_key c); [by rewrite lookup_insert_ne|done].
    + intros gate Hg. unfold setToken. rewrite Hg, lookup_insert_eq. eexists. split_and!; [done|done|].
      intros _ i x Hne Hx E. apply not_true_is_false. intros Lx. apply Hne. by apply (inv_lease _ _ HI i j x c).
  - assert (Hsw' : swept now keys (sy_ledger s) ledger /\ ledger_wf ledger).
    { revert Hsw. unfold Sweep. destruct ctx; [intros [= <- <- <- <-]; split; [by apply swept_nil|apply HI]|]. unfold sweepAndSchedule.
      pose proof (sweepLocked_swept env now (sy_ledger s)) as H1. pose proof (wf_sweepLocked env now (sy_ledger s) (inv_wf _ _ HI)) as H2.
      destruct (sweepLocked env now (sy_ledger s)) as [[[r0 e0] k0] s0]. intros [= <- <- <- <-]. destruct H1, H2. by split. }
    destruct Hsw' as [Hswept Hwf]. destruct (swept_lives _ _ _ _ _ HI Hswept) as (Hlife&Hlabels&Hsame).
    exists (forget keys lives). split; [|done]. split; simpl; try apply HI; try done.
    intros i x Hx. destruct (Hsame (cl_key x)) as [[-> ->]|Hno]; [by apply (inv_calls _ _ HI i)|].
    destruct (inv_calls _ _ HI i x Hx) as [Hok _]. destruct (active (cl_Phase x)) eqn:Ax; [by destruct (Hno i x Hx Ax)|].
    unfold call_ok. rewrite Ax. split; [|done]. by destruct (cl_Phase x).
Qed.

Lemma run_inv config trace s : run config trace s ->
  exists lives, Inv lives s /\ forall k, live_all Fresh (labels_of k trace) = Some (lives k).
Proof.
  induction 1 as [ledger Hl|trace s labels s' Hr (lives&HI&Htr) Hs].
  - exists (fun _ => Fresh). split; [|done]. unfold NewMemoryOperationStoreWithConfig in Hl. apply result_bind_ok in Hl as (cfg&_&Hl).
    injection Hl as <-. split; simpl; try done.
    + split; simpl; try done; [intros id key; rewrite lookup_empty; split; [by intros ?%elem_of_nil|done]|apply NoDup_nil_2].
  - destruct (step_preserved _ _ _ _ HI Hs) as (lives'&HI'&Htr'). exists lives'. split; [done|]. intros k.
    rewrite labels_of_app, live_all_app, Htr. simpl. apply Htr'.
Qed.

Definition is_dispatch (l : Label) : bool := match l with LDispatch _ => true | _ => false end.
Definition is_expiry (l : Label) : bool := match l with LExpire _ _ => true | _ => false end.

Lemma live_dispatches l labels l' : live_all l labels = Some l' -> existsb is_expiry labels = false ->
  (length (List.filter is_dispatch labels) <= match l with Fresh | Recorded => 1 | _ => 0 end)%nat.
Proof.
  revert l. induction labels as [|x labels IH]; intros l; simpl; [destruct l; lia|]. destruct (live l x) as [l1|] eqn:E; [|done].
  simpl. intros Hl He. apply orb_false_iff in He as [Hx He]. specialize (IH l1 Hl He).
  destruct l, x; simpl in *; simplify_eq; simpl in *; lia.
Qed.

(** C13: Control commands take effect at most once.  In every run of concurrent calls, sweeps and backend answers, the
    events of each operation key are a life of the specification: admitted, dispatched at most once, sealed, and
    admitted anew only after its result was terminal and its retention over.  So without such an expiry at
    most one dispatch happens, whatever the retries and their interleaving, and the ledger holds the record the
    life says. *)
Theorem command_dispatched_once (config : RetentionConfig) (trace : list Label) (s : Sys) (k : string) :
  run config trace s ->
  (exists l, live_all Fresh (labels_of k trace) = Some l /\ life_record l (records (sy_ledger s) !! k))
  /\ (existsb is_expiry (labels_of k trace) = false -> (length (List.filter is_dispatch (labels_of k trace)) <= 1)%nat).
Proof.
  intros (lives&HI&Htr)%run_inv. split; [exists (lives k); split; [done|apply HI]|].
  intros He. by apply (live_dispatches Fresh _ (lives k)).
Qed.
End Commands.

(** ** Executing a schedule *)

(** The choices of the environment, one per step. *)
Inductive Move {C : Type} : Type :=
| MStart (intent : OperationIntent)
| MGate (j : nat)
| MGateCancelled (j : nat) (err : CmdError)
| MBegin (j : nat) (ctx ctx' : option string) (env : SweepEnv) (now : Z)
| MDispatch (j : nat) (result : CommandResult C) (err : option CmdError)
| MComplete (j : nat) (ctx : option string) (now : Z)
| MRecover (j : nat) (recovered : result CmdError (option (CommandResult C)))
| MRelease (j : nat)
| MSweep (ctx : option string) (env : SweepEnv) (now : Z).
Arguments Move C : clear implicits.

Section Play.
Context {C : Type} `{EqDecision C}.
Variable copy_configuration : C -> C.
Variable recoverable : string -> bool.
#[local] Abbreviation sys := (@Sys C).

Definition move_call (s : sys) (ledger : @MemoryOperationStore C) (j : nat) (c : Call) : sys :=
  MkSys ledger (sy_gates s) (<[j := c]> (sy_calls s)).

Definition play_call (m : Move C) (j : nat) (c : Call) (s : sys) : option (list Label * sys) :=
  match m, cl_Phase c with
  | MGate _, PGate =>
    gate ← sy_gates s !! cl_key c;
    if g_token gate then Some ([], MkSys (sy_ledger s) (setToken false (cl_key c) (sy_gates s)) (<[j := MkCall (cl_Intent c) true PBegin]> (sy_calls s)))
    else None
  | MGateCancelled _ err, PGate =>
    Some ([], MkSys (sy_ledger s) (releaseOperationExecutionGateReference (cl_key c) (sy_gates s)) (<[j := set_phase (gateError c err) c]> (sy_calls s)))
  | MBegin _ ctx ctx' env now, PBegin =>
    let '(res, keys, ledger) := Begin copy_configuration ctx ctx' env now (cl_Intent c) (sy_ledger s) in
    Some ((map (fun k => LExpire k now) keys ++ match res with Ok (_, true) => [LAdmit (cl_key c)] | _ => [] end)%list,
          move_call s ledger j (set_phase (afterBegin recoverable c res) c))
  | MDispatch _ result err, PDispatch =>
    if needs_transaction (oi_Action (cl_Intent c)) then
      Some ([], move_call s (sy_ledger s) j (set_phase
        (PDone (commandFailure (cl_operation c) (cl_session c) OutcomeUnknown (e_text receiptError) receiptError) (Some receiptError)) c))
    else Some ([LDispatch (cl_key c)], move_call s (sy_ledger s) j (set_phase (afterDispatch c result err) c))
  | MComplete _ ctx now, PComplete result derr =>
    let '(_, err, ledger) := Complete copy_configuration ctx now (cl_Intent c) result (sy_ledger s) in
    Some (seal_labels (cl_key c) (sy_ledger s) ledger, move_call s ledger j (set_phase (afterComplete c result derr err) c))
  | MComplete _ ctx now, PCompleteRecovered result =>
    let '(_, err, ledger) := Complete copy_configuration ctx now (cl_Intent c) result (sy_ledger s) in
    Some (seal_labels (cl_key c) (sy_ledger s) ledger, move_call s ledger j (set_phase (afterCompleteRecovered c result err) c))
  | MRecover _ recovered, PRecover => Some ([], move_call s (sy_ledger s) j (set_phase (afterRecover c recovered) c))
  | MRelease _, PDone _ _ =>
    if cl_Lease c then
      Some ([], MkSys (sy_ledger s) (releaseOperationExecutionGateReference (cl_key c) (setToken true (cl_key c) (sy_gates s)))
                  (<[j := MkCall (cl_Intent c) false (cl_Phase c)]> (sy_calls s)))
    else None
  | _, _ => None
  end.

Definition play (m : Move C) (s : sys) : option (list Label * sys) :=
  match m with
  | MStart intent =>
    Some ([], if recoverable (oi_Action intent)
              then MkSys (sy_ledger s) (registerGate (intent_key intent) (sy_gates s)) (sy_calls s ++ [MkCall intent false PGate])
              else MkSys (sy_ledger s) (sy_gates s) (sy_calls s ++ [MkCall intent false PBegin]))
  | MSweep ctx env now =>
    let '(_, _, keys, ledger) := Sweep ctx env now (sy_ledger s) in
    Some (map (fun k => LExpire k now) keys, MkSys ledger (sy_gates s) (sy_calls s))
  | MGate j | MGateCancelled j _ | MBegin j _ _ _ _ | MDispatch j _ _ | MComplete j _ _ | MRecover j _ | MRelease j =>
    c ← sy_calls s !! j; play_call m j c s
  end.

Fixpoint play_all (moves : list (Move C)) (s : sys) : option (list Label * sys) :=
  match moves with
  | [] => Some ([], s)
  | m :: moves => x ← play m s; y ← play_all moves x.2; Some ((x.1 ++ y.1)%list, y.2)
  end.

Lemma play_step m s labels s' : play m s = Some (labels, s') -> step copy_configuration recoverable s labels s'.
Proof.
  destruct m; simpl; intros H.
  1: { injection H as <- <-. constructor. }
  8: { destruct (Sweep ctx env now (sy_ledger s)) as [[[r err] keys] ledger] eqn:E. injection H as <- <-. by eapply step_sweep. }
  all: destruct (sy_calls s !! j) as [c|] eqn:Hc; simpl in H; [|done]; unfold move_call in H; destruct (cl_Phase c) eqn:Hp; try done.
  - destruct (sy_gates s !! cl_key c) as [gate|] eqn:Hg; simpl in H; [|done]. destruct (g_token gate) eqn:Ht; [|done].
    injection H as <- <-. by eapply step_gate.
  - injection H as <- <-. by eapply step_gate_cancelled.
  - destruct (Begin copy_configuration ctx ctx' env now (cl_Intent c) (sy_ledger s)) as [[res keys] ledger] eqn:E.
    injection H as <- <-. by eapply step_begin.
  - destruct (needs_transaction _) eqn:En; injection H as <- <-; [by eapply step_no_receipt|by eapply step_dispatch].
  - destruct (Complete copy_configuration ctx now (cl_Intent c) result (sy_ledger s)) as [[rc err'] ledger] eqn:E.
    injection H as <- <-. by eapply step_complete.
  - destruct (Complete copy_configuration ctx now (cl_Intent c) result (sy_ledger s)) as [[rc err'] ledger] eqn:E.
    injection H as <- <-. by eapply step_complete_recovered.
  - injection H as <- <-. by eapply step_recover.
  - destruct (cl_Lease c) eqn:El; [|done]. injection H as <- <-. rewrite <- Hp. by eapply step_release.
Qed.

Lemma play_run config moves trace s labels s' : run copy_configuration recoverable config trace s ->
  play_all moves s = Some (labels, s') -> run copy_configuration recoverable config (trace ++ labels) s'.
Proof.
  revert trace s labels. induction moves as [|m moves IH]; simpl; intros trace s labels Hr H.
  - injection H as <- <-. by rewrite app_nil_r.
  - destruct (play m s) as [[l1 s1]|] eqn:E1; simpl in H; [|done]. destruct (play_all moves s1) as [[l2 s2]|] eqn:E2; simpl in H; [|done].
    injection H as <- <-. rewrite (assoc_L (++)). eapply IH; [|done]. eapply run_step; [done|by eapply play_step].
Qed.
End Play.

(** ** A run with a retry *)

Section Example.
Let intent : OperationIntent := MkIntent "owner" "op-1" "turn.prompt" "s1" "s1" "d1" 0.
Let config : RetentionConfig := MkRetention 0 0 0 0 0.
Let quiet : SweepEnv := MkSweepEnv (fun _ => None) (fun _ => false).
Let answer : CommandResult unit := MkResult unit "" "" "" "" 7 no_target "" None None None None "" "" "".

(** Two calls of one operation: the first is admitted and dispatched, the
    second meets its intent, and a third meets the recorded result. *)
Let moves : list (Move unit) :=
  [MStart intent; MBegin 0 None None quiet 100; MStart intent; MBegin 1 None None quiet 101; MDispatch 0 answer None;
   MComplete 0 None 102; MStart intent; MBegin 2 None None quiet 103].
Let start : @Sys unit := match NewMemoryOperationStoreWithConfig config with Ok l => MkSys l ∅ [] | Fail _ => MkSys (MkLedger ∅ [] ∅ None 0 0 config) ∅ [] end.

Lemma command_dispatched_once_witness : exists trace s, play_all id (fun _ => false) moves start = Some (trace, s)
  /\ length (List.filter is_dispatch trace) = 1%nat
  /\ (cl_Phase <$> sy_calls s !! 2%nat) = Some (PDone (with_outcome OutcomeCommitted (with_identity "op-1" "s1" answer)) None)
  /\ exists l, live_all Fresh (labels_of (intent_key intent) trace) = Some l /\ life_record l (records (sy_ledger s) !! intent_key intent).
Proof.
  destruct (play_all id (fun _ => false) moves start) as [[trace s]|] eqn:E; [|vm_compute in E; discriminate].
  exists trace, s. split; [done|].
  assert (Hd : (length (List.filter is_dispatch trace), cl_Phase <$> sy_calls s !! 2%nat)
    = (1%nat, Some (PDone (with_outcome OutcomeCommitted (with_identity "op-1" "s1" answer)) None))).
  { transitivity (match play_all id (fun _ => false) moves start with
                  | Some (t, s) => (length (List.filter is_dispatch t), cl_Phase <$> sy_calls s !! 2%nat) | None => (0%nat, None) end);
      [by rewrite E|vm_compute; reflexivity]. }
  injection Hd as Hd1 Hd2. split; [done|]. split; [done|].
  refine (proj1 (command_dispatched_once id (fun _ => false) config trace s (intent_key intent) _)).
  change trace with ([] ++ trace)%list. apply (play_run id (fun _ => false) config moves [] start); [|done]. by apply run_start.
Defined.
End Example.
