(* ===== verification/HistoryIndex.v ===== *)
(** The index behind bounded history (control/history/index.go): which source
    positions begin a Turn, where a window of recent Turns starts, and the
    bounded cache of indexes.

    [Observe] and [Start] are the methods of Index; a Go slice of structs is a
    list, [byID] a finite map from a Turn's identity to its place.  [None] is a
    Go index out of range.  A cached [Entry] is shared by pointer, so the cache
    maps keys to the addresses of a small heap.  A window of recent Turns is whole,
    holds every requested Turn, is the smallest such window, and is not moved by
    later records. *)

From Stdlib Require Import ZArith Lia String Sorting.Sorted.
From stdpp Require Import base list gmap strings option sorting.
From S2P Require Import Prelude.

Open Scope Z_scope.

Definition DefaultTurns : Z := 16.
Definition MaxTurns : Z := 64.

(** ** [sort.Search] of the standard library *)

(** The least index in [0, n) at which [f] holds, or [n]; [f] is monotone. *)
Fixpoint search (fuel : nat) (f : nat -> bool) (i j : nat) : nat :=
  match fuel with
  | O => i
  | S fuel' =>
      if (i <? j)%nat then
        let h := Nat.div2 (i + j) in
        if f h then search fuel' f i h else search fuel' f (S h) j
      else i
  end.
Definition Search (n : nat) (f : nat -> bool) : nat := search n f 0 n.

(** ** The index *)

Record turn := mkTurn { first : Z; occurrences : list Z }.

Record Index := mkIndex {
  High : Z;
  turns : list turn;
  byID : gmap string nat;
  last : string
}.

Definition new_index : Index := mkIndex 0 [] ∅ "".

Definition push_occurrence (position : Z) (t : turn) : turn := mkTurn (first t) (occurrences t ++ [position]).

Definition Observe (position : Z) (id : string) (i : Index) : option Index :=
  if bool_decide (id = "") || bool_decide (id = last i) then Some i
  else
    let '(n, ids, ts) :=
      match byID i !! id with
      | Some n => (n, byID i, turns i)
      | None => let n := length (turns i) in (n, <[id:=n]> (byID i), turns i ++ [mkTurn position []])
      end in
    match ts !! n with
    | Some t => Some (mkIndex (High i) (<[n:=push_occurrence position t]> ts) ids id)
    | None => None
    end.

(** The loop of Start, from turn [n-1] down to turn 0. *)
Fixpoint widen (n : nat) (before : Z) (ts : list turn) (start : Z) : option Z :=
  match n with
  | O => Some start
  | S n' =>
      match ts !! n' with
      | None => None
      | Some t =>
          let p := Search (length (occurrences t)) (fun k => match occurrences t !! k with Some q => before <=? q | None => true end) in
          match p with
          | O => widen n' before ts start
          | S p' =>
              match occurrences t !! p' with
              | None => None
              | Some q => widen n' before ts (if start <=? q then first t else start)
              end
          end
      end
  end.

Definition end_of (before : Z) (ts : list turn) : nat :=
  Search (length ts) (fun n => match ts !! n with Some t => before <=? first t | None => true end).

Definition Start (before count : Z) (i : Index) : option Z :=
  if count <=? 0 then Some 0
  else
    let count := Z.min count MaxTurns in
    let e := end_of before (turns i) in
    if Z.of_nat e <=? count then Some 0
    else
      let k := (e - Z.to_nat count)%nat in
      match turns i !! k with
      | None => None
      | Some t => widen k before (turns i) (first t)
      end.

(** The feed and Task readers observe the records of a source in order. *)
Fixpoint observe_all (obs : list (Z * string)) (i : Index) : option Index :=
  match obs with
  | [] => Some i
  | (position, id) :: obs =>
      match Observe position id i with Some i => observe_all obs i | None => None end
  end.

(** ** Requests and the cache *)

Inductive HistoryError := InvalidHistoryWindow.

(** ValidateRequest; the whole argument list is its guard. *)
Definition ValidateRequest (cursor before : string) (turns : Z) : result HistoryError unit :=
  if (negb (bool_decide (cursor = "")) && negb (bool_decide (before = ""))) || (turns <? 0) || (MaxTurns <? turns)
  then Fail InvalidHistoryWindow else Ok tt.

(** Cache: the entries by key, their keys in order of creation, and the heap
    the entries live in. *)
Record Cache := mkCache {
  entries : gmap string positive;
  order : list string;
  heap : gmap positive Index
}.

Definition new_cache : Cache := mkCache ∅ [] ∅.

Definition cache_limit : nat := 32.

(** [c.order[0]] and [c.order[1:]] cannot be out of range under the guard. *)
Definition Get (key : string) (c : Cache) : positive * Cache :=
  match entries c !! key with
  | Some e => (e, c)
  | None =>
      let '(es, ord) :=
        if (cache_limit <=? length (order c))%nat then
          match order c with
          | oldest :: rest => (delete oldest (entries c), rest)
          | [] => (entries c, [])
          end
        else (entries c, order c) in
      let e := fresh (dom (heap c)) in
      (e, mkCache (<[key:=e]> es) (ord ++ [key]) (<[e:=new_index]> (heap c)))
  end.

(** An entry's index is read and replaced under the entry's lock. *)
Definition entry_index (e : positive) (c : Cache) : Index := default new_index (heap c !! e).
Definition set_entry (e : positive) (i : Index) (c : Cache) : Cache := mkCache (entries c) (order c) (<[e:=i]> (heap c)).

(** ** What a window must be *)

(** The identities among observations, in the order of their first record. *)
Fixpoint turn_order (obs : list (Z * string)) (seen : list string) : list string :=
  match obs with
  | [] => seen
  | (_, id) :: obs => turn_order obs (if bool_decide (id = "") || bool_decide (id ∈ seen) then seen else seen ++ [id])
  end.

Definition turns_before (before : Z) (obs : list (Z * string)) : list string :=
  turn_order (filter (fun o => o.1 < before) obs) [].

(** The last [count] Turns that began before the boundary. *)
Definition recent_turns (before count : Z) (obs : list (Z * string)) : list string :=
  let ts := turns_before before obs in drop (length ts - Z.to_nat count) ts.

(** No Turn with a record in the window began before it. *)
Definition whole_turns (obs : list (Z * string)) (start before : Z) : Prop :=
  forall p q id, (p, id) ∈ obs -> (q, id) ∈ obs -> id <> "" -> start <= p < before -> start <= q.

(** Every record of the last [count] Turns is in the window. *)
Definition has_recent (obs : list (Z * string)) (count start before : Z) : Prop :=
  forall q id, id ∈ recent_turns before count obs -> (q, id) ∈ obs -> start <= q.

(** A source's records come at increasing positions. *)
Definition source_order (obs : list (Z * string)) : Prop := StronglySorted Z.lt (map fst obs) /\ Forall (fun o => 0 <= o.1) obs.

(** ** Binary search *)

Definition monotone (n : nat) (f : nat -> bool) : Prop :=
  forall k l, (k <= l)%nat -> (l < n)%nat -> f k = true -> f l = true.

Lemma search_spec n f fuel i j :
  monotone n f -> (i <= j <= n)%nat -> (j - i <= fuel)%nat ->
  (forall k, (k < i)%nat -> f k = false) -> (forall k, (j <= k < n)%nat -> f k = true) ->
  (search fuel f i j <= n)%nat /\ (forall k, (k < search fuel f i j)%nat -> f k = false) /\
  (forall k, (search fuel f i j <= k < n)%nat -> f k = true).
Proof.
  intros M. revert i j. induction fuel as [|fuel IH]; intros i j Hij Hf Hl Hr; cbn [search].
  - replace j with i in * by lia. split_and!; [lia|done|done].
  - destruct (Nat.ltb_spec i j) as [L|L]; [|replace j with i in * by lia; split_and!; [lia|done|done]].
    assert (Hd : (i <= Nat.div2 (i + j) < j)%nat).
    { rewrite Nat.div2_div. pose proof (Nat.div_mod (i + j) 2 ltac:(lia)). pose proof (Nat.mod_upper_bound (i + j) 2 ltac:(lia)). lia. }
    destruct (f (Nat.div2 (i + j))) eqn:E.
    + apply IH; [lia|lia|done|]. intros k Hk. apply (M (Nat.div2 (i + j)) k); [lia|lia|done].
    + apply IH; [lia|lia| |done]. intros k Hk. destruct (f k) eqn:F; [|done].
      assert (f (Nat.div2 (i + j)) = true); [apply (M k); [lia|lia|done]|congruence].
Qed.

Lemma search_ext f g fuel i j : (forall k, f k = g k) -> search fuel f i j = search fuel g i j.
Proof.
  intros H. revert i j. induction fuel as [|fuel IH]; intros i j; [done|]. cbn. rewrite H, !IH. done.
Qed.

Lemma Search_spec n f :
  monotone n f ->
  (Search n f <= n)%nat /\ (forall k, (k < Search n f)%nat -> f k = false) /\ (forall k, (Search n f <= k < n)%nat -> f k = true).
Proof. intros M. apply search_spec; [done|lia|lia|lia|lia]. Qed.

(** [Search] finds the place of a value in an increasing list. *)
Definition at_least (before : Z) (l : list Z) (k : nat) : bool :=
  match l !! k with Some q => before <=? q | None => true end.

Lemma sorted_lookup l k m (x y : Z) :
  StronglySorted Z.lt l -> l !! k = Some x -> l !! m = Some y -> (k < m)%nat -> x < y.
Proof.
  intros H. revert k m. induction H as [|z l H IH Hz]; intros [|k] [|m] Hk Hm L; simplify_eq/=; try done; try lia.
  - rewrite List.Forall_forall in Hz. apply Hz. rewrite <- list_elem_of_In. by eapply list_elem_of_lookup_2.
  - eapply IH; [done..|lia].
Qed.

Lemma search_sorted before l :
  StronglySorted Z.lt l ->
  let e := Search (length l) (at_least before l) in
  (e <= length l)%nat /\ (forall k q, l !! k = Some q -> (k < e)%nat <-> q < before).
Proof.
  intros H e. destruct (Search_spec (length l) (at_least before l)) as (Hn & Hl & Hr).
  { intros k m Hkm Hm. unfold at_least. destruct (lookup_lt_is_Some_2 l k ltac:(lia)) as [x Hx].
    destruct (lookup_lt_is_Some_2 l m Hm) as [y Hy]. rewrite Hx, Hy. destruct (decide (k = m)) as [->|]; [simplify_eq; done|].
    pose proof (sorted_lookup l k m x y H Hx Hy ltac:(lia)). lia. }
  split; [done|]. intros k q Hq. unfold e. split.
  - intros L. specialize (Hl k L). unfold at_least in Hl. rewrite Hq in Hl. lia.
  - intros L. destruct (decide (k < Search (length l) (at_least before l))%nat) as [|N]; [done|].
    specialize (Hr k). unfold at_least in Hr at 2. rewrite Hq in Hr. apply lookup_lt_Some in Hq. lia.
Qed.

(** ** The order of Turns *)

Lemma turn_order_app obs more seen : turn_order (obs ++ more) seen = turn_order more (turn_order obs seen).
Proof. revert seen. induction obs as [|[p id] obs IH]; intros seen; [done|]. cbn. by rewrite IH. Qed.

Lemma turn_order_step obs p id :
  turn_order (obs ++ [(p, id)]) [] =
  (let ts := turn_order obs [] in if bool_decide (id = ""%string) || bool_decide (id ∈ ts) then ts else ts ++ [id]).
Proof. by rewrite turn_order_app. Qed.

Lemma turn_order_elem obs seen id :
  id ∈ turn_order obs seen <-> id ∈ seen \/ id <> ""%string /\ exists p, (p, id) ∈ obs.
Proof.
  revert seen. induction obs as [|[p x] obs IH]; intros seen; cbn.
  { split; [auto|]. intros [|(_ & p & [] % elem_of_nil)]; done. }
  rewrite IH. setoid_rewrite elem_of_cons.
  case_bool_decide as E1; [|case_bool_decide as E2]; cbn; [subst| |]; [naive_solver|naive_solver|].
  rewrite elem_of_app, list_elem_of_singleton. naive_solver.
Qed.

Lemma turn_order_NoDup obs seen : NoDup seen -> NoDup (turn_order obs seen).
Proof.
  revert seen. induction obs as [|[p x] obs IH]; intros seen H; cbn; [done|]. apply IH.
  case_bool_decide; [done|]. case_bool_decide; [done|]. cbn. apply NoDup_app.
  split; [done|]. split; [|apply NoDup_singleton]. intros y Hy ->%list_elem_of_singleton. done.
Qed.

Lemma turn_order_ne obs id : id ∈ turn_order obs [] -> id <> ""%string.
Proof. intros [[]%elem_of_nil|[H _]]%turn_order_elem. done. Qed.

(** Adding later observations extends the order. *)
Lemma turn_order_prefix obs seen : exists more, turn_order obs seen = seen ++ more.
Proof.
  revert seen. induction obs as [|[p x] obs IH]; intros seen; cbn; [exists []; by rewrite app_nil_r|].
  destruct (IH (if bool_decide (x = ""%string) || bool_decide (x ∈ seen) then seen else seen ++ [x])) as [m E].
  rewrite E. destruct (_ || _); [eauto|]. rewrite <- app_assoc. eauto.
Qed.

(** ** The index of a list of observations *)

Record indexed_turn (obs : list (Z * string)) (id : string) (t : turn) : Prop := {
  first_seen : (first t, id) ∈ obs;
  first_least q : (q, id) ∈ obs -> first t <= q;
  occurrences_sorted : StronglySorted Z.lt (occurrences t);
  occurrences_seen q : q ∈ occurrences t -> (q, id) ∈ obs
}.

(** The Turn [id] was current from [q] on: no other Turn began in (q, p]. *)
Definition current_from (i : Index) (n : nat) (q p : Z) : Prop :=
  exists t, turns i !! n = Some t /\ q ∈ occurrences t /\ forall t', t' ∈ turns i -> first t' <= q \/ p < first t'.

Record indexed (obs : list (Z * string)) (i : Index) : Prop := {
  ix_ids id n : byID i !! id = Some n <-> turn_order obs [] !! n = Some id;
  ix_turns n t : turns i !! n = Some t -> exists id, turn_order obs [] !! n = Some id /\ indexed_turn obs id t;
  ix_length : length (turns i) = length (turn_order obs []);
  ix_firsts : StronglySorted Z.lt ((first <$> turns i));
  ix_runs p id : (p, id) ∈ obs -> id <> ""%string ->
    exists n q, turn_order obs [] !! n = Some id /\ q <= p /\ current_from i n q p;
  ix_last : last i <> ""%string ->
    exists n q, turn_order obs [] !! n = Some (last i) /\ exists t, turns i !! n = Some t /\ q ∈ occurrences t /\ forall t', t' ∈ turns i -> first t' <= q
}.

Lemma indexed_new : indexed [] new_index.
Proof.
  split; cbn; try done; [by constructor|intros p id H; by apply elem_of_nil in H].
Qed.

Definition before_all (obs : list (Z * string)) (p : Z) : Prop := forall q id, (q, id) ∈ obs -> q < p.

Section Step.
Context (obs : list (Z * string)) (i : Index) (p : Z).
Hypothesis (I : indexed obs i) (Hp : before_all obs p).

Lemma occurrence_seen n t q : turns i !! n = Some t -> q ∈ occurrences t -> q < p.
Proof. intros Ht Hq. destruct (ix_turns _ _ I _ _ Ht) as (id & _ & T). eapply Hp, (occurrences_seen _ _ _ T), Hq. Qed.

Lemma first_before t : t ∈ turns i -> first t < p.
Proof. intros [n Ht]%list_elem_of_lookup. destruct (ix_turns _ _ I _ _ Ht) as (id & _ & T). eapply Hp, (first_seen _ _ _ T). Qed.

Lemma indexed_turn_more id x t : x <> id -> indexed_turn obs id t -> indexed_turn (obs ++ [(p, x)]) id t.
Proof.
    intros N [A B C D]. split; [set_solver| |done|set_solver]. intros q [Hq|E]%elem_of_app; [auto|]. set_solver.
Qed.

Lemma indexed_turn_same id t : indexed_turn obs id t -> indexed_turn (obs ++ [(p, id)]) id t.
Proof.
    intros [A B C D]. split; [set_solver| |done|set_solver]. intros q [Hq|E]%elem_of_app; [auto|].
    apply Hp in A. assert (q = p) by set_solver. lia.
Qed.

Lemma indexed_turn_push id t : indexed_turn obs id t -> indexed_turn (obs ++ [(p, id)]) id (push_occurrence p t).
Proof.
    intros T. pose proof (indexed_turn_same id t T) as [A B C D]. split; cbn; [done..| |].
    - apply StronglySorted_app. split_and!; [|done|by repeat constructor]. intros q r Hq ->%list_elem_of_singleton. by eapply Hp, (occurrences_seen _ _ _ T).
    - intros q Hq. apply elem_of_app in Hq as [Hq| ->%list_elem_of_singleton]; [auto|set_solver].
Qed.

  (** An observation that leaves the index alone. *)
Lemma indexed_kept id : id = ""%string \/ id = last i -> indexed (obs ++ [(p, id)]) i.
Proof.
    intros H.
    assert (E : turn_order (obs ++ [(p, id)]) [] = turn_order obs []).
    { rewrite turn_order_step. cbn. case_bool_decide as E1; [done|]. destruct H as [|H]; [done|].
      rewrite H in E1. destruct (ix_last _ _ I E1) as (n & q & Hn & _). rewrite bool_decide_true; [done|]. rewrite H. by eapply list_elem_of_lookup_2. }
    split; rewrite ?E; [apply I| |apply I|apply I| |apply I].
    - intros n t Ht. destruct (ix_turns _ _ I n t Ht) as (x & Hx & T). exists x. split; [done|].
      destruct (decide (id = x)) as [->|]; [by apply indexed_turn_same|by apply indexed_turn_more].
    - intros r x [Hr|Hr]%elem_of_app Hne; [by apply (ix_runs _ _ I)|]. apply list_elem_of_singleton in Hr. simplify_eq.
      destruct H as [| ->]; [done|]. destruct (ix_last _ _ I Hne) as (n & q & Hn & t & Ht & Hq & Hf).
      exists n, q. split; [done|]. pose proof (occurrence_seen n t q Ht Hq). split; [lia|]. exists t. naive_solver.
Qed.
Lemma push_first n t : turns i !! n = Some t -> first <$> <[n:=push_occurrence p t]> (turns i) = (first <$> turns i).
Proof. intros Ht. rewrite (list_fmap_insert first). apply list_insert_id. by rewrite list_lookup_fmap, Ht. Qed.

Lemma push_firsts_elem n t t' : turns i !! n = Some t -> t' ∈ <[n:=push_occurrence p t]> (turns i) -> exists t0, t0 ∈ turns i /\ first t' = first t0.
Proof.
    intros Ht H. apply (list_elem_of_fmap_2 first) in H.
    rewrite (push_first n t Ht) in H. apply list_elem_of_fmap in H as (t0 & E & ?). eauto.
Qed.

  (** The next record of a Turn seen before. *)
Lemma indexed_again id n t : id <> ""%string -> turn_order obs [] !! n = Some id -> turns i !! n = Some t ->
    indexed (obs ++ [(p, id)]) (mkIndex (High i) (<[n:=push_occurrence p t]> (turns i)) (byID i) id).
Proof.
    intros Hne Hn Ht.
    assert (E : turn_order (obs ++ [(p, id)]) [] = turn_order obs []).
    { rewrite turn_order_step. cbn. rewrite (bool_decide_true (id ∈ _)), orb_true_r; [done|]. by eapply list_elem_of_lookup_2. }
    pose proof (lookup_lt_Some _ _ _ Ht) as Hlt.
    split; cbn; rewrite ?E, ?length_insert; [apply I| |apply I| | |].
    - intros m t' Hm. destruct (decide (m = n)) as [->|N].
      + rewrite list_lookup_insert_eq in Hm by done. simplify_eq. exists id. split; [done|].
        destruct (ix_turns _ _ I n t Ht) as (x & Hx & T). simplify_eq. by apply indexed_turn_push.
      + rewrite list_lookup_insert_ne in Hm by done. destruct (ix_turns _ _ I m t' Hm) as (x & Hx & T). exists x. split; [done|].
        apply indexed_turn_more; [|done]. intros <-. apply N. eapply NoDup_lookup; [apply (turn_order_NoDup obs [] (NoDup_nil_2))|done..].
    - rewrite (push_first n t Ht). apply I.
    - intros r x Hr Hx. apply elem_of_app in Hr as [Hr|Hr].
      + destruct (ix_runs _ _ I r x Hr Hx) as (m & q & Hm & Hq & t1 & Ht1 & Hq1 & Hf). exists m, q. split_and!; [done..|].
        exists (if decide (m = n) then push_occurrence p t else t1). split_and!.
        * destruct (decide (m = n)) as [->|]; [cbn; by rewrite list_lookup_insert_eq|cbn; by rewrite list_lookup_insert_ne].
        * case_decide; [|done]. subst. simplify_eq. cbn. set_solver.
        * intros t' (t0 & Ht0 & ->)%(push_firsts_elem n t t' Ht). by apply Hf.
      + apply list_elem_of_singleton in Hr. simplify_eq. exists n, p. split_and!; [done|lia|]. exists (push_occurrence p t). split_and!.
        * cbn. by rewrite list_lookup_insert_eq.
        * cbn. set_solver.
        * intros t' (t0 & Ht0 & ->)%(push_firsts_elem n t t' Ht). pose proof (first_before _ Ht0). lia.
    - intros _. exists n, p. split; [done|]. exists (push_occurrence p t). split_and!.
      + cbn. by rewrite list_lookup_insert_eq.
      + cbn. set_solver.
      + intros t' (t0 & Ht0 & ->)%(push_firsts_elem n t t' Ht). pose proof (first_before _ Ht0). lia.
Qed.

  (** The first record of a Turn. *)
Lemma indexed_fresh id : id <> ""%string -> id ∉ turn_order obs [] ->
    indexed (obs ++ [(p, id)]) (mkIndex (High i) (turns i ++ [mkTurn p [p]]) (<[id:=length (turns i)]> (byID i)) id).
Proof.
    intros Hne Hn.
    assert (E : turn_order (obs ++ [(p, id)]) [] = turn_order obs [] ++ [id]).
    { rewrite turn_order_step. cbn. by rewrite !bool_decide_false. }
    assert (Hnew : (turns i ++ [mkTurn p [p]]) !! length (turns i) = Some (mkTurn p [p])) by (by rewrite lookup_app_r, Nat.sub_diag).
    assert (Hid : (turn_order obs [] ++ [id]) !! length (turns i) = Some id) by (by rewrite (ix_length _ _ I), lookup_app_r, Nat.sub_diag).
    assert (Hf : forall t', t' ∈ turns i ++ [mkTurn p [p]] -> t' ∈ turns i \/ first t' = p).
    { intros t' Ht. apply elem_of_app in Ht as [Ht|Ht]; [by left|]. apply list_elem_of_singleton in Ht as ->. by right. }
    split; cbn; rewrite ?E.
    - intros x n. destruct (decide (x = id)) as [->|N].
      + rewrite lookup_insert_eq. split; [intros [= <-]; done|]. intros Hx. f_equal.
        eapply NoDup_lookup; [|exact Hid|exact Hx]. rewrite <- E. apply turn_order_NoDup, NoDup_nil_2.
      + rewrite lookup_insert_ne by done. rewrite (ix_ids _ _ I). rewrite lookup_app. destruct (turn_order obs [] !! n) as [y|] eqn:Ey; [done|].
        split; [done|]. intros Hx. apply list_lookup_singleton_Some in Hx as [_ ->]. done.
    - intros n t Ht. rewrite lookup_app in Ht. destruct (turns i !! n) as [t0|] eqn:Et.
      + injection Ht as <-. destruct (ix_turns _ _ I n t0 Et) as (x & Hx & T). exists x. split; [by apply lookup_app_l_Some|].
        apply indexed_turn_more; [|done]. intros ->. apply Hn. by eapply list_elem_of_lookup_2.
      + apply list_lookup_singleton_Some in Ht as [Hm <-]. apply lookup_ge_None in Et. assert (n = length (turns i)) as -> by lia. exists id. split; [done|].
        split; cbn; [set_solver| |by repeat constructor|]; intros q Hq; [|set_solver].
        apply elem_of_app in Hq as [Hq|Hq]; [|set_solver]. exfalso. apply Hn, turn_order_elem. eauto.
    - rewrite !length_app, (ix_length _ _ I). done.
    - rewrite fmap_app. apply StronglySorted_app. split_and!; [|apply I|by repeat constructor].
      intros q r (t & -> & Ht)%list_elem_of_fmap ->%list_elem_of_singleton. by apply first_before.
    - intros r x Hr Hx. apply elem_of_app in Hr as [Hr|Hr].
      + destruct (ix_runs _ _ I r x Hr Hx) as (m & q & Hm & Hq & t1 & Ht1 & Hq1 & Hf1). exists m, q. split_and!; [by apply lookup_app_l_Some|done|].
        exists t1. cbn. split_and!; [by apply lookup_app_l_Some|done|]. intros t' [Ht| ->]%Hf; [auto|]. right. eapply Hp, Hr.
      + apply list_elem_of_singleton in Hr. simplify_eq. exists (length (turns i)), p. split_and!; [done|lia|]. exists (mkTurn p [p]). cbn.
        split_and!; [done|set_solver|]. intros t' [Ht| ->]%Hf; [|lia]. pose proof (first_before _ Ht). lia.
    - intros _. exists (length (turns i)), p. split; [done|]. exists (mkTurn p [p]).
      split_and!; [done|cbn; set_solver|]. intros t' [Ht| ->]%Hf; [|lia]. pose proof (first_before _ Ht). lia.
Qed.

Lemma Observe_indexed id : exists i', Observe p id i = Some i' /\ indexed (obs ++ [(p, id)]) i' /\ High i' = High i.
Proof.
    unfold Observe. destruct (bool_decide (id = ""%string) || bool_decide (id = last i)) eqn:G.
    { exists i. split_and!; [done| |done]. apply indexed_kept; [done..|]. apply orb_true_iff in G as [G|G]; apply bool_decide_eq_true in G; auto. }
    apply orb_false_iff in G as [G1%bool_decide_eq_false _]. destruct (byID i !! id) as [n|] eqn:Hid.
    - apply (ix_ids _ _ I) in Hid as Hn. destruct (lookup_lt_is_Some_2 (turns i) n) as [t Ht].
      { rewrite (ix_length _ _ I). by eapply lookup_lt_Some. }
      rewrite Ht. eexists. split_and!; [done| |done]. by apply indexed_again.
    - rewrite lookup_app_r, Nat.sub_diag by lia. cbn. eexists. split_and!; [done| |done].
      rewrite insert_app_r_alt, Nat.sub_diag by lia. cbn. apply indexed_fresh; [done|].
      intros [n Hn]%list_elem_of_lookup. apply (ix_ids _ _ I) in Hn. congruence.
Qed.
End Step.

(** Every ordered source can be indexed. *)
Lemma source_order_snoc obs p id : source_order (obs ++ [(p, id)]) -> source_order obs /\ before_all obs p /\ 0 <= p.
Proof.
  unfold source_order. rewrite map_app, Forall_app. intros [S%StronglySorted_app [F F1]]. destruct S as (S & S1 & _). apply Forall_cons_1 in F1 as [F1 _].
  split_and!; [done..| |done]. intros q x H. apply S; [|set_solver].
  change q with (fst (q, x)). by apply (list_elem_of_fmap_2 fst).
Qed.

Lemma observe_all_app a b i : observe_all (a ++ b) i = match observe_all a i with Some i => observe_all b i | None => None end.
Proof. revert i. induction a as [|[p id] a IH]; intros i; [done|]. cbn. destruct (Observe p id i); [apply IH|done]. Qed.

Lemma observe_all_indexed obs : source_order obs -> exists i, observe_all obs new_index = Some i /\ indexed obs i /\ High i = 0.
Proof.
  induction obs as [|[p id] obs IH] using rev_ind; intros S.
  - exists new_index. split_and!; [done|apply indexed_new|done].
  - apply source_order_snoc in S as (S & B & _). destruct (IH S) as (i & E & I & H). rewrite observe_all_app, E. cbn.
    destruct (Observe_indexed obs i p I B id) as (i' & -> & I' & H'). exists i'. split_and!; [done..|congruence].
Qed.

(** ** The window *)

(** A start that does not split the occurrences the index holds. *)
Definition closed (ts : list turn) (before s : Z) (n : nat) : Prop :=
  forall m t q, (m < n)%nat -> ts !! m = Some t -> q ∈ occurrences t -> s <= q < before -> s <= first t.

Lemma last_below before l :
  StronglySorted Z.lt l ->
  match Search (length l) (at_least before l) with
  | O => forall q, q ∈ l -> before <= q
  | S p => exists q, l !! p = Some q /\ q < before /\ forall r, r ∈ l -> r < before -> r <= q
  end.
Proof.
  intros H. destruct (search_sorted before l H) as [Hn Hs]. destruct (Search _ _) as [|p].
  - intros q [k Hk]%list_elem_of_lookup. specialize (Hs k q Hk). lia.
  - destruct (lookup_lt_is_Some_2 l p) as [q Hq]; [lia|]. exists q. split; [done|]. split; [apply (Hs p q Hq); lia|].
    intros r [k Hk]%list_elem_of_lookup Hr. apply (Hs k r Hk) in Hr. destruct (decide (k = p)) as [->|]; [simplify_eq; lia|].
    pose proof (sorted_lookup l k p r q H Hk Hq ltac:(lia)). lia.
Qed.

Section Window.
Context (ts : list turn) (before : Z).
Hypothesis (Hfirsts : StronglySorted Z.lt (first <$> ts)).
Hypothesis (Hocc : forall t, t ∈ ts -> StronglySorted Z.lt (occurrences t)).

Lemma firsts_increase m n t u : ts !! m = Some t -> ts !! n = Some u -> (m < n)%nat -> first t < first u.
Proof. intros Ht Hu L. eapply (sorted_lookup (first <$> ts) m n); [done| | |done]; by rewrite list_lookup_fmap, ?Ht, ?Hu. Qed.

Lemma widen_spec n start :
    (n <= length ts)%nat -> (forall m t, (m < n)%nat -> ts !! m = Some t -> first t <= start) ->
    exists s, widen n before ts start = Some s /\ s <= start /\
      (s = start \/ exists m t, (m < n)%nat /\ ts !! m = Some t /\ s = first t) /\
      closed ts before s n /\
      (forall s', closed ts before s' n -> s' <= start -> s' <= s).
Proof.
    revert start. induction n as [|n IH]; intros start Hn Hlow.
    { exists start. split_and!; [done|lia|by left| |auto]. intros m t q Hm. lia. }
    destruct (lookup_lt_is_Some_2 ts n Hn) as [t Ht]. cbn [widen]. rewrite Ht.
    pose proof (last_below before (occurrences t) (Hocc t (list_elem_of_lookup_2 _ _ _ Ht))) as Hp.
    change (fun k : nat => match occurrences t !! k with Some q => before <=? q | None => true end) with (at_least before (occurrences t)).
    assert (Hstep : forall start1, (start1 = start /\ (forall q, q ∈ occurrences t -> q < before -> q < start)) \/
        (start1 = first t /\ exists q, q ∈ occurrences t /\ start <= q < before) ->
      exists s, widen n before ts start1 = Some s /\ s <= start /\
        (s = start \/ exists m u, (m < S n)%nat /\ ts !! m = Some u /\ s = first u) /\
        closed ts before s (S n) /\ (forall s', closed ts before s' (S n) -> s' <= start -> s' <= s)).
    { intros start1 Hc. pose proof (Hlow n t ltac:(lia) Ht) as Hle.
      destruct (IH start1 ltac:(lia)) as (s & E & Hs & Hor & Hcl & Hmax).
      { intros m u Hm Hu. destruct Hc as [[-> _]|[-> _]]; [apply (Hlow m); [lia|done]|]. pose proof (firsts_increase m n u t Hu Ht Hm). lia. }
      exists s. split; [done|]. split; [destruct Hc as [[-> _]|[-> _]]; lia|]. split_and!.
      - destruct Hor as [->|(m & u & Hm & Hu & ->)]; [destruct Hc as [[-> _]|[-> _]]; [by left|right; exists n, t; split_and!; [lia|done..]]|].
        right. exists m, u. split_and!; [lia|done..].
      - intros m u q Hm Hu Hq Hr. destruct (decide (m = n)) as [->|]; [|eapply Hcl; [|done..]; lia]. simplify_eq.
        destruct Hor as [->|(m' & u' & Hm' & Hu' & ->)]; [|pose proof (firsts_increase m' n u' t Hu' Ht Hm'); lia].
        destruct Hc as [[-> Hc]|[-> _]]; [|lia]. specialize (Hc q Hq). lia.
      - intros s' Hs' Hle'. apply Hmax; [intros m u q Hm; apply Hs'; lia|].
        destruct Hc as [[-> _]|[-> (q & Hq & Hr)]]; [done|]. eapply (Hs' n t q); [lia|done..|lia]. }
    destruct (Search _ _) as [|p].
    - apply Hstep. left. split; [done|]. intros q Hq ?. apply Hp in Hq. lia.
    - destruct Hp as (q & Hq & Hlt & Hmax). rewrite Hq. apply Hstep. destruct (Z.leb_spec start q).
      + right. split; [done|]. exists q. split; [by eapply list_elem_of_lookup_2|lia].
      + left. split; [done|]. intros r Hr Hb. specialize (Hmax r Hr Hb). lia.
Qed.
End Window.

(** ** The end of a window *)

Lemma ordered_split (obs : list (Z * string)) before :
  StronglySorted Z.lt (map fst obs) ->
  exists pre post, obs = pre ++ post /\ filter (fun o => o.1 < before) obs = pre /\
    (forall p id, (p, id) ∈ pre -> p < before) /\ (forall p id, (p, id) ∈ post -> before <= p).
Proof.
  induction obs as [|[p id] obs IH]; intros H.
  { exists [], []. split_and!; [done..| |]; intros p id Hq; by apply elem_of_nil in Hq. }
  apply StronglySorted_inv in H as [H Hp]. rewrite List.Forall_forall in Hp. destruct (IH H) as (pre & post & -> & E & Hl & Hr).
  destruct (decide (p < before)) as [L|L].
  - exists ((p, id) :: pre), post. split_and!; [done| | |done].
    + rewrite filter_cons_True by done. by rewrite E.
    + intros q x [[= -> ->]|Hq]%elem_of_cons; [done|eauto].
  - assert (N : forall q x, (q, x) ∈ pre ++ post -> before <= q).
    { intros q x Hq. assert (p < q); [|lia]. apply Hp. apply (in_map fst _ (q, x)), list_elem_of_In, Hq. }
    exists [], ((p, id) :: pre ++ post). split_and!; [done| | |].
    + rewrite filter_cons_False by done. rewrite E. destruct pre as [|[q x] pre]; [done|].
      specialize (Hl q x ltac:(left)). specialize (N q x ltac:(left)). lia.
    + intros q x Hq. by apply elem_of_nil in Hq.
    + intros q x [[= -> ->]|Hq]%elem_of_cons; [lia|eauto].
Qed.

Section Indexed.
Context (obs : list (Z * string)) (i : Index) (before : Z).
Hypothesis (So : source_order obs) (I : indexed obs i).

Lemma end_of_spec :
    (end_of before (turns i) <= length (turns i))%nat /\
    (forall k t, turns i !! k = Some t -> (k < end_of before (turns i))%nat <-> first t < before).
Proof.
    pose proof (search_sorted before (first <$> turns i) (ix_firsts _ _ I)) as [H1 H2]. rewrite length_fmap in *.
    assert (E : end_of before (turns i) = Search (length (turns i)) (at_least before (first <$> turns i))).
    { apply search_ext. intros k. unfold at_least. rewrite list_lookup_fmap. by destruct (turns i !! k). }
    rewrite E. split; [done|]. intros k t Ht. apply H2. by rewrite list_lookup_fmap, Ht.
Qed.

Lemma turns_before_take : turns_before before obs = take (end_of before (turns i)) (turn_order obs []).
Proof.
    destruct (ordered_split obs before (proj1 So)) as (pre & post & E & F & Hl & Hr). unfold turns_before. rewrite F.
    destruct (turn_order_prefix post (turn_order pre [])) as [more M]. rewrite <- turn_order_app, <- E in M.
    assert (length (turn_order pre []) = end_of before (turns i)) as <-; [|by rewrite M, take_app_length].
    destruct end_of_spec as [H1 H2].
    assert (K : forall k, (k < length (turn_order obs []))%nat -> (k < length (turn_order pre []))%nat <-> (k < end_of before (turns i))%nat).
    { intros k Hk. destruct (lookup_lt_is_Some_2 (turns i) k) as [t Ht]; [by rewrite (ix_length _ _ I)|]. rewrite (H2 k t Ht).
      destruct (ix_turns _ _ I k t Ht) as (id & Hid & T). pose proof (first_seen _ _ _ T) as Hfs. split.
      - intros L. rewrite M, lookup_app_l in Hid by done. apply list_elem_of_lookup_2, turn_order_elem in Hid as [[]%elem_of_nil|(_ & p & Hp)].
        specialize (Hl p id Hp). assert (first t <= p); [|lia]. apply (first_least _ _ _ T). rewrite E. set_solver.
      - intros L. assert (Hin : (first t, id) ∈ pre) by (rewrite E in Hfs; apply elem_of_app in Hfs as [|Hfs]; [done|]; apply Hr in Hfs; lia).
        assert (Hid' : id ∈ turn_order pre []).
        { apply turn_order_elem. right. split; [|eauto]. eapply turn_order_ne, list_elem_of_lookup_2, Hid. }
        apply list_elem_of_lookup in Hid' as [m Hm]. assert (k = m) as ->; [|by eapply lookup_lt_Some].
        eapply NoDup_lookup; [apply (turn_order_NoDup obs [] (NoDup_nil_2))|done|]. rewrite M. by apply lookup_app_l_Some. }
    rewrite (ix_length _ _ I) in H1. assert (Hle : (length (turn_order pre []) <= length (turn_order obs []))%nat) by (rewrite M, length_app; lia).
    destruct (Nat.lt_trichotomy (length (turn_order pre [])) (end_of before (turns i))) as [L|[?|L]]; [|done|].
    - specialize (K (length (turn_order pre [])) ltac:(lia)). lia.
    - specialize (K (end_of before (turns i)) ltac:(lia)). lia.
Qed.

  (** A start that splits no observed Turn splits none of the index's. *)
Lemma whole_turns_closed s n : whole_turns obs s before -> closed (turns i) before s n.
Proof.
    intros W m t q _ Ht Hq Hr. destruct (ix_turns _ _ I m t Ht) as (id & Hid & T).
    eapply W; [apply (occurrences_seen _ _ _ T), Hq|apply (first_seen _ _ _ T)|eapply turn_order_ne, list_elem_of_lookup_2, Hid|done].
Qed.

  (** The Turn of a record before the boundary, and the run it belongs to. *)
Lemma record_turn p id : (p, id) ∈ obs -> id <> ""%string -> p < before ->
    exists n t q, turns i !! n = Some t /\ (n < end_of before (turns i))%nat /\ turn_order obs [] !! n = Some id /\
      q ∈ occurrences t /\ first t <= q <= p /\ (forall t', t' ∈ turns i -> first t' <= p -> first t' <= q).
Proof.
    intros Hp Hne L. destruct (ix_runs _ _ I p id Hp Hne) as (n & q & Hn & Hq & t & Ht & Hocc & Hf).
    destruct (ix_turns _ _ I n t Ht) as (x & Hx & T). simplify_eq.
    assert (first t <= q) by (eapply first_least, (occurrences_seen _ _ _ T), Hocc; done).
    exists n, t, q. split_and!; [done| |done..|].
    - apply end_of_spec with (t := t); [done|lia].
    - intros t' Ht' Hle. destruct (Hf t' Ht'); lia.
Qed.
End Indexed.

(** The window [Start] picks, from the index of the observations. *)
Lemma Start_spec obs i before count :
  source_order obs -> indexed obs i -> 0 < count ->
  let c := Z.min count MaxTurns in
  exists s, Start before count i = Some s /\
    whole_turns obs s before /\ has_recent obs c s before /\
    (forall s', whole_turns obs s' before -> has_recent obs c s' before ->
       forall p id, (p, id) ∈ obs -> id <> ""%string -> s <= p < before -> s' <= p).
Proof.
  intros So I Hc c. pose proof (end_of_spec obs i before I) as [He1 He2]. pose proof (turns_before_take obs i before So I) as Hts.
  unfold Start. destruct (Z.leb_spec count 0); [lia|]. fold c. set (e := end_of before (turns i)) in *.
  assert (Hlen : length (turns_before before obs) = e) by (rewrite Hts, length_take, <- (ix_length _ _ I); lia).
  assert (Hc0 : 0 < c) by (unfold c, MaxTurns; lia).
  destruct (Z.leb_spec (Z.of_nat e) c) as [L|L].
  { exists 0. split; [done|]. destruct So as [_ Hpos]. rewrite Forall_forall in Hpos. split_and!.
    - intros p q id _ Hq _ _. apply (Hpos _ Hq).
    - intros q id _ Hq. apply (Hpos _ Hq).
    - intros s' _ R p id Hp Hne Hr. apply (R p id); [|done]. unfold recent_turns. rewrite Hlen.
      replace (e - Z.to_nat c)%nat with 0%nat by lia. rewrite drop_0, Hts.
      destruct (record_turn obs i before I p id Hp Hne ltac:(lia)) as (n & t & q & _ & Hn & Hid & _).
      apply list_elem_of_lookup. exists n. by rewrite lookup_take_lt. }
  set (k := (e - Z.to_nat c)%nat). assert (Hk : (k < e)%nat) by lia.
  destruct (lookup_lt_is_Some_2 (turns i) k) as [t Ht]; [lia|]. rewrite Ht.
  assert (Hrec : forall n id, turn_order obs [] !! n = Some id -> (k <= n < e)%nat -> id ∈ recent_turns before c obs).
  { intros n id Hn Hr. unfold recent_turns. rewrite Hlen. fold k. rewrite Hts. apply list_elem_of_lookup. exists (n - k)%nat.
    rewrite lookup_drop, lookup_take_lt by lia. by replace (k + (n - k))%nat with n by lia. }
  destruct (widen_spec (turns i) before (ix_firsts _ _ I)) with (n := k) (start := first t) as (s & -> & Hs & Hor & Hcl & Hmax).
  { intros u [m Hu]%list_elem_of_lookup. destruct (ix_turns _ _ I m u Hu) as (x & _ & T). apply T. }
  { lia. }
  { intros m u Hm Hu. pose proof (firsts_increase (turns i) (ix_firsts _ _ I) m k u t Hu Ht Hm). lia. }
  exists s. split; [done|]. split_and!.
  - intros p q id Hp Hq Hne Hr. destruct (record_turn obs i before I p id Hp Hne ltac:(lia)) as (n & u & q0 & Hu & Hn & Hid & Ho & Hq0 & Hf).
    destruct (ix_turns _ _ I n u Hu) as (x & Hx & T). simplify_eq. pose proof (first_least _ _ _ T q Hq). assert (s <= first u); [|lia].
    destruct (decide (n < k)%nat) as [Lk|Lk].
    + apply (Hcl n u q0 Lk Hu Ho). split; [|lia]. destruct Hor as [->|(m & v & _ & Hv & ->)]; (eapply Hf; [by eapply list_elem_of_lookup_2|lia]).
    + destruct (decide (n = k)) as [->|]; [simplify_eq; lia|]. pose proof (firsts_increase (turns i) (ix_firsts _ _ I) k n t u Ht Hu ltac:(lia)). lia.
  - intros q id Hid Hq. unfold recent_turns in Hid. rewrite Hlen in Hid. fold k in Hid. rewrite Hts in Hid. apply list_elem_of_lookup in Hid as [m Hm].
    rewrite lookup_drop in Hm. apply lookup_take_Some in Hm as [Hm Hr]. destruct (lookup_lt_is_Some_2 (turns i) (k + m)) as [u Hu]; [lia|].
    destruct (ix_turns _ _ I _ u Hu) as (x & Hx & T). simplify_eq. pose proof (first_least _ _ _ T q Hq).
    destruct (decide (m = 0%nat)) as [->|]; [rewrite Nat.add_0_r in Hu; simplify_eq; lia|].
    pose proof (firsts_increase (turns i) (ix_firsts _ _ I) k (k + m) t u Ht Hu ltac:(lia)). lia.
  - intros s' W R p id Hp Hne Hr. assert (s' <= s); [|lia]. apply Hmax; [by apply (whole_turns_closed obs i)|].
    destruct (ix_turns _ _ I k t Ht) as (x & Hx & T). apply (R _ x); [by apply (Hrec k)|apply T].
Qed.

(** ** Records after the boundary *)

(** The same Turn with occurrences added at or after the boundary. *)
Definition later_turn (before : Z) (t u : turn) : Prop :=
  first u = first t /\ exists more, occurrences u = occurrences t ++ more /\ Forall (fun q => before <= q) more.

Record later_turns (before : Z) (ts us : list turn) : Prop := {
  later_known n t : ts !! n = Some t -> exists u, us !! n = Some u /\ later_turn before t u;
  later_fresh n u : (length ts <= n)%nat -> us !! n = Some u -> before <= first u;
  later_length : (length ts <= length us)%nat
}.

Lemma Search_unique before l e :
  StronglySorted Z.lt l -> (e <= length l)%nat -> (forall k q, l !! k = Some q -> (k < e)%nat <-> q < before) ->
  Search (length l) (at_least before l) = e.
Proof.
  intros S He H. destruct (search_sorted before l S) as [Hn Hs]. set (r := Search (length l) (at_least before l)) in *.
  destruct (Nat.lt_trichotomy r e) as [L|[?|L]]; [|done|].
  - destruct (lookup_lt_is_Some_2 l r) as [q Hq]; [lia|]. specialize (H r q Hq). specialize (Hs r q Hq). lia.
  - destruct (lookup_lt_is_Some_2 l e) as [q Hq]; [lia|]. specialize (H e q Hq). specialize (Hs e q Hq). lia.
Qed.

Lemma Search_app before l more :
  StronglySorted Z.lt l -> StronglySorted Z.lt (l ++ more) -> Forall (fun q => before <= q) more ->
  Search (length (l ++ more)) (at_least before (l ++ more)) = Search (length l) (at_least before l).
Proof.
  intros Sl S M. destruct (search_sorted before l Sl) as [Hn Hs]. apply Search_unique; [done|rewrite length_app; lia|].
  intros k q Hq. apply lookup_app_Some in Hq as [Hq|[Hk Hq]]; [by apply Hs|].
  rewrite Forall_forall in M. pose proof (M q (list_elem_of_lookup_2 _ _ _ Hq)). lia.
Qed.

Section Later.
Context (before : Z) (ts us : list turn).
Hypothesis (L : later_turns before ts us).
Hypothesis (Hts : StronglySorted Z.lt (first <$> ts)) (Hus : StronglySorted Z.lt (first <$> us)).
Hypothesis (Ots : forall t, t ∈ ts -> StronglySorted Z.lt (occurrences t)) (Ous : forall u, u ∈ us -> StronglySorted Z.lt (occurrences u)).

Lemma later_end : end_of before us = end_of before ts.
Proof.
    assert (F : forall vs : list turn, end_of before vs = Search (length (first <$> vs)) (at_least before (first <$> vs))).
    { intros vs. rewrite length_fmap. apply search_ext. intros k. unfold at_least. rewrite list_lookup_fmap. destruct (vs !! k); done. }
    rewrite !F. destruct (search_sorted before _ Hts) as [Hn Hs]. rewrite !length_fmap in *. pose proof (later_length _ _ _ L).
    rewrite <- (length_fmap first us). apply Search_unique; [done|rewrite length_fmap; lia|]. intros k q Hq. apply list_lookup_fmap_Some in Hq as (u & -> & Hu).
    destruct (ts !! k) as [t|] eqn:Ht.
    - destruct (later_known _ _ _ L k t Ht) as (v & Hv & Hf & _). simplify_eq. rewrite Hf. apply Hs. by rewrite list_lookup_fmap, Ht.
    - apply lookup_ge_None in Ht. pose proof (later_fresh _ _ _ L k u Ht Hu). lia.
Qed.

Lemma later_widen n start : (n <= length ts)%nat -> widen n before us start = widen n before ts start.
Proof.
    revert start. induction n as [|n IH]; intros start Hn; [done|]. cbn [widen].
    destruct (lookup_lt_is_Some_2 ts n Hn) as [t Ht]. destruct (later_known _ _ _ L n t Ht) as (u & Hu & Hf & more & Ho & M). rewrite Ht, Hu.
    change (fun k : nat => match occurrences t !! k with Some q => before <=? q | None => true end) with (at_least before (occurrences t)).
    change (fun k : nat => match occurrences u !! k with Some q => before <=? q | None => true end) with (at_least before (occurrences u)).
    pose proof (Ots t (list_elem_of_lookup_2 _ _ _ Ht)) as St. pose proof (Ous u (list_elem_of_lookup_2 _ _ _ Hu)) as Su.
    rewrite Ho in Su |- *. rewrite Search_app by done. pose proof (last_below before _ St) as B.
    destruct (Search (length (occurrences t)) _) as [|p]; [apply IH; lia|]. destruct B as (q & Hq & _).
    rewrite (lookup_app_l_Some _ _ _ _ Hq), Hq, Hf. apply IH. lia.
Qed.
End Later.

Lemma later_turns_refl before ts : later_turns before ts ts.
Proof.
  split; [|intros n u Hn Hu; apply lookup_lt_Some in Hu; lia|done].
  intros n t Ht. exists t. split; [done|]. split; [done|]. exists []. by rewrite app_nil_r.
Qed.

Lemma Observe_later before p id i i' :
  before <= p -> Observe p id i = Some i' -> later_turns before (turns i) (turns i').
Proof.
  intros Hp. unfold Observe. destruct (_ || _); [intros [= <-]; apply later_turns_refl|].
  destruct (byID i !! id) as [m|] eqn:Hid; cbn.
  - destruct (turns i !! m) as [t|] eqn:Ht; [|done]. intros [= <-]. cbn. split.
    + intros n u Hu. destruct (decide (n = m)) as [->|]; [|rewrite list_lookup_insert_ne by done].
      * rewrite list_lookup_insert_eq by (by eapply lookup_lt_Some). simplify_eq. eexists. split; [done|]. split; [done|]. exists [p]. by repeat constructor.
      * exists u. split; [done|]. split; [done|]. exists []. by rewrite app_nil_r.
    + intros n u Hn Hu. apply lookup_lt_Some in Hu. rewrite length_insert in Hu. lia.
    + by rewrite length_insert.
  - rewrite lookup_app_r, Nat.sub_diag by lia. cbn. intros [= <-]. cbn. rewrite insert_app_r_alt, Nat.sub_diag by lia. cbn. split.
    + intros n t Ht. exists t. split; [by apply lookup_app_l_Some|]. split; [done|]. exists []. by rewrite app_nil_r.
    + intros n u Hn Hu. rewrite lookup_app_r in Hu by done. apply list_lookup_singleton_Some in Hu as [_ <-]. done.
    + rewrite length_app. lia.
Qed.

Lemma indexed_occurrences obs i t : indexed obs i -> t ∈ turns i -> StronglySorted Z.lt (occurrences t).
Proof. intros I [n Ht]%list_elem_of_lookup. destruct (ix_turns _ _ I n t Ht) as (x & _ & T). apply T. Qed.

(** Reading at a boundary is not moved by a record at or after it. *)
Lemma Start_later obs i p id i' before count :
  indexed obs i -> before_all obs p -> before <= p -> Observe p id i = Some i' ->
  Start before count i' = Start before count i.
Proof.
  intros I B Hp E. destruct (Observe_indexed obs i p I B id) as (j & E' & I' & _). simplify_eq.
  pose proof (Observe_later before p id i i' Hp E) as L. pose proof (end_of_spec obs i before I) as [He _].
  unfold Start. rewrite (later_end before (turns i) (turns i') L (ix_firsts _ _ I) (ix_firsts _ _ I')).
  destruct (Z.leb_spec count 0); [done|]. destruct (Z.leb_spec (Z.of_nat (end_of before (turns i))) (Z.min count MaxTurns)); [done|].
  set (k := (end_of before (turns i) - _)%nat). destruct (turns i !! k) as [t|] eqn:Ht.
  - destruct (later_known _ _ _ L k t Ht) as (u & -> & Hf & _). rewrite Hf. apply later_widen; [done|intros x; by apply (indexed_occurrences obs)|intros x; by eapply indexed_occurrences|].
    apply lookup_lt_Some in Ht. lia.
  - apply lookup_ge_None in Ht. unfold k, MaxTurns in *. lia.
Qed.

Lemma source_order_app obs more : source_order (obs ++ more) -> source_order obs.
Proof. unfold source_order. rewrite map_app, Forall_app. intros [S%StronglySorted_app [F _]]. naive_solver. Qed.

Lemma Start_observed obs later before count i i' :
  source_order (obs ++ later) -> indexed obs i -> (forall p id, (p, id) ∈ later -> before <= p) ->
  observe_all later i = Some i' -> Start before count i' = Start before count i.
Proof.
  revert obs i. induction later as [|[p id] later IH]; intros obs i So I L E; cbn in E; [by simplify_eq|].
  destruct (Observe p id i) as [j|] eqn:Ej; [|done]. rewrite cons_middle, app_assoc in So.
  destruct (source_order_snoc obs p id (source_order_app _ _ So)) as (_ & B & _).
  destruct (Observe_indexed obs i p I B id) as (j' & Ej' & I' & _). simplify_eq.
  rewrite (IH (obs ++ [(p, id)]) j So I'); [|intros q x Hq; apply (L q x); by right|done].
  apply (Start_later obs i p id); [done..|apply (L p id); by left|done].
Qed.

(** C21: The history index picks windows of whole Turns. From the index of any
    ordered source, a request for [count] Turns before a boundary succeeds; the
    window it opens splits no Turn, holds every record of the last [count]
    Turns (64 at most) that began before the boundary, and is the smallest
    window that does: any other start that has both properties leaves no
    identified record of this one out. Records that arrive later, at or after
    the boundary, do not move the window. *)
Theorem history_window_whole obs later before count i i' :
  source_order (obs ++ later) -> (forall p id, (p, id) ∈ later -> before <= p) -> 0 < count ->
  observe_all obs new_index = Some i -> observe_all later i = Some i' ->
  let c := Z.min count MaxTurns in
  exists s, Start before count i = Some s /\ Start before count i' = Some s /\
    whole_turns obs s before /\ has_recent obs c s before /\
    (forall s', whole_turns obs s' before -> has_recent obs c s' before ->
       forall p id, (p, id) ∈ obs -> id <> ""%string -> s <= p < before -> s' <= p).
Proof.
  intros So L Hc E E' c. pose proof (source_order_app _ _ So) as So1.
  destruct (observe_all_indexed obs So1) as (j & Ej & I & _). simplify_eq.
  destruct (Start_spec obs i before count So1 I Hc) as (s & Hs & W & R & M). exists s. split_and!; [done| |done..].
  by rewrite <- Hs; apply (Start_observed obs later).
Qed.

(** The records of two interleaved Turns and a later one, read at 6 and after. *)
Definition sample_obs : list (Z * string) := [(0, "a"); (1, "b"); (2, ""); (3, "c"); (4, "b"); (5, "d")]%string.

Definition sample_later : list (Z * string) := [(6, "a")]%string.

Lemma history_window_whole_witness :
  exists i i' : Index, observe_all sample_obs new_index = Some i /\ observe_all sample_later i = Some i' /\ exists s, Start 6 2 i = Some s /\ Start 6 2 i' = Some s /\ s = 1.
Proof.
  do 2 eexists. split; [vm_compute; reflexivity|]. split; [vm_compute; reflexivity|].
  edestruct (history_window_whole sample_obs sample_later 6 2) as (s & H1 & H2 & _);
    [| |lia|vm_compute; reflexivity|vm_compute; reflexivity|].
  - split; [repeat constructor|]; repeat (constructor; try (cbn; lia)).
  - intros p id H. apply list_elem_of_singleton in H. injection H as -> _. lia.
  - exists s. split; [exact H1|]. split; [exact H2|]. vm_compute in H1. injection H1 as <-. reflexivity.
Defined.

(** ** The cache of indexes *)

(** At most 32 entries, the keys in the order list exactly those cached, every
    entry on the heap and no two keys sharing one. *)
Record cache_ok (c : Cache) : Prop := {
  cache_keys key : key ∈ order c <-> is_Some (entries c !! key);
  cache_distinct : NoDup (order c);
  cache_bounded : (length (order c) <= cache_limit)%nat;
  cache_heap key e : entries c !! key = Some e -> is_Some (heap c !! e);
  cache_own key key' e : entries c !! key = Some e -> entries c !! key' = Some e -> key = key'
}.

Lemma cache_ok_new : cache_ok new_cache.
Proof.
  split; cbn.
  - intros key. split; [intros H; by apply elem_of_nil in H|intros [e H]; by rewrite lookup_empty in H].
  - apply NoDup_nil_2.
  - unfold cache_limit. lia.
  - intros key e H. by rewrite lookup_empty in H.
  - intros key key' e H. by rewrite lookup_empty in H.
Qed.

(** What is left once the oldest entry has made room. *)
Definition evicted (c : Cache) : gmap string positive * list string :=
  if (cache_limit <=? length (order c))%nat then
    match order c with oldest :: rest => (delete oldest (entries c), rest) | [] => (entries c, []) end
  else (entries c, order c).

Lemma evicted_ok c : cache_ok c -> cache_ok (mkCache (evicted c).1 (evicted c).2 (heap c)) /\ (length (evicted c).2 < cache_limit)%nat.
Proof.
  intros [K D B H O]. unfold evicted. destruct (Nat.leb_spec cache_limit (length (order c))) as [L|L]; [|by split; [split|]].
  destruct (order c) as [|old rest] eqn:E; [unfold cache_limit in L; cbn in L; lia|]. apply NoDup_cons in D as [D1 D2]. cbn in B.
  split; [|cbn; lia]. split; cbn; [|done|lia| |].
  - intros key. rewrite lookup_delete_is_Some, <- K, elem_of_cons. naive_solver.
  - intros key e [_ Hk]%lookup_delete_Some. eauto.
  - intros key key' e [_ Hk]%lookup_delete_Some [_ Hk']%lookup_delete_Some. eauto.
Qed.

(** [Get] answers the cached entry, or a new empty one; either way the entry is
    cached afterwards, and the cache keeps its bound. *)
Lemma Get_ok key c :
  cache_ok c ->
  let '(e, c') := Get key c in
  cache_ok c' /\ entries c' !! key = Some e /\ (entries c !! key = Some e /\ c' = c \/ entries c !! key = None /\ entry_index e c' = new_index) /\
  (forall e0, is_Some (heap c !! e0) -> entry_index e0 c' = entry_index e0 c).
Proof.
  intros C. unfold Get. destruct (entries c !! key) as [e|] eqn:E; [naive_solver|].
  destruct (evicted_ok c C) as [C' L]. fold (evicted c). destruct (evicted c) as [es ord] eqn:Ev. cbn [fst snd] in *.
  set (e := fresh (dom (heap c))). assert (Hfresh : heap c !! e = None) by (apply not_elem_of_dom, is_fresh).
  assert (Hnone : es !! key = None).
  { unfold evicted in Ev. destruct (_ <=? _)%nat; [destruct (order c)|]; simplify_eq; [done| |done]. rewrite lookup_delete_None. by right. }
  destruct C' as [K D B H O]. cbn in *. split_and!.
  - split; cbn.
    + intros k. rewrite elem_of_app, list_elem_of_singleton, lookup_insert_is_Some', K. naive_solver.
    + apply NoDup_app. split_and!; [done| |apply NoDup_singleton]. intros k Hk ->%list_elem_of_singleton. apply K in Hk as [? Hk]. congruence.
    + rewrite length_app. cbn. lia.
    + intros k e0 [[<- <-]|[_ Hk]]%lookup_insert_Some; apply lookup_insert_is_Some'; [by left|right; eauto].
    + intros k k' e0 [[<- <-]|[_ Hk]]%lookup_insert_Some [[<- Hk']|[_ Hk']]%lookup_insert_Some; try done; [|subst|by eapply O].
      * apply H in Hk' as [? Hk']. congruence.
      * apply H in Hk as [? Hk]. congruence.
  - apply lookup_insert_eq.
  - right. split; [done|]. unfold entry_index. cbn. by rewrite lookup_insert_eq.
  - intros e0 [i0 He0]. unfold entry_index. cbn. rewrite lookup_insert_ne; [done|]. intros <-. congruence.
Qed.
