(* ===== verification/FeedTypes.v ===== *)
(** Envelopes of the Session feed (control/appserver/eventstream): the record
    with all its fields, the update union, feed positions, and the predicates
    the feed decides by.

    Payload types of the ACP SDK, a third-party module, are the types of
    [AcpTypes].  Copies ([CloneEnvelope], [CloneFeedPosition], [CloneUpdate])
    are the identity on these values and have no definition. *)

From Stdlib Require Import ZArith Lia String.
From stdpp Require Import base list strings option.
From S2P Require Import Prelude GoStrings GoValues ApprovalSubject Payload.

Open Scope string_scope.
Open Scope Z_scope.

(** ** Positions *)

Record DurableFeedPosition := MkDurable { Seq : Z; ProjectionIndex : Z }.
Record TransientFeedPosition := MkTransient { Anchor : DurableFeedPosition; Generation : string; Sequence : Z }.
Record FeedPosition := MkPosition { Durable : option DurableFeedPosition; Transient : option TransientFeedPosition }.

Global Instance DurableFeedPosition_eq_dec : EqDecision DurableFeedPosition.
Proof. solve_decision. Defined.
Global Instance TransientFeedPosition_eq_dec : EqDecision TransientFeedPosition.
Proof. solve_decision. Defined.
Global Instance FeedPosition_eq_dec : EqDecision FeedPosition.
Proof. solve_decision. Defined.

Definition no_position : DurableFeedPosition := MkDurable 0 0.
Definition at_durable (p : DurableFeedPosition) : FeedPosition := MkPosition (Some p) None.
Definition at_transient (p : TransientFeedPosition) : FeedPosition := MkPosition None (Some p).

Inductive PositionError := MultipleLanes | IncompleteTransient | EmptyPosition.

Definition ValidatePosition (p : FeedPosition) : result PositionError unit :=
  match Durable p, Transient p with
  | Some _, Some _ => Fail MultipleLanes
  | Some _, None => Ok tt
  | None, Some t => if (trim_space (Generation t) =? "")%string || (Sequence t =? 0) then Fail IncompleteTransient else Ok tt
  | None, None => Fail EmptyPosition
  end.

Definition durableAnchor (position : FeedPosition) : DurableFeedPosition :=
  match Durable position with
  | Some d => d
  | None => match Transient position with Some t => Anchor t | None => no_position end
  end.

Definition compareDurablePosition (left right : DurableFeedPosition) : Z :=
  if Seq left <? Seq right then -1
  else if Seq right <? Seq left then 1
  else if ProjectionIndex left <? ProjectionIndex right then -1
  else if ProjectionIndex right <? ProjectionIndex left then 1
  else 0.

(** ** Updates *)

(** Types of github.com/caelis-labs/acp-go-sdk. *)
Class AcpTypes := { PermissionOption : Type; UsageCost : Type }.

Record ToolCallContent := MkToolCallContent {
  tc_Type : string; tc_Content : GoValue; tc_TerminalID : string; tc_Path : string; tc_OldText : option string; tc_NewText : string;
  tc_Changes : option (list ProtocolDiffChange); tc_Patch : option ProtocolDiffPatch; tc_Meta : GoMap
}.

Record ContentChunk := MkChunk {
  ch_SessionUpdate : string; ch_Content : GoValue; ch_MessageID : string; ch_Replacement : bool; ch_Meta : GoMap;
  ch_ReplacedFields : list string; ch_PreviouslyObserved : bool
}.

Record ToolCall := MkToolCallStart {
  ts_PreviouslyObserved : bool; ts_SessionUpdate : string; ts_ToolCallID : string; ts_Name : option string; ts_Title : string;
  ts_Kind : string; ts_Status : string; ts_RawInput : GoValue; ts_RawOutput : GoValue; ts_Content : list ToolCallContent;
  ts_Locations : list ToolLocation; ts_Meta : GoMap
}.

(** [Content] distinguishes a nil slice, omitted, from an empty one. *)
Record ToolCallUpdate := MkToolCallUpdate {
  tu_PreviouslyObserved : bool; tu_SessionUpdate : string; tu_ToolCallID : string; tu_Name : option string; tu_Title : option string;
  tu_Kind : option string; tu_Status : option string; tu_RawInput : GoValue; tu_RawOutput : GoValue;
  tu_Content : option (list ToolCallContent); tu_Locations : list ToolLocation; tu_Meta : GoMap; tu_ReplacedFields : list string
}.

Record PlanUpdate := MkPlanUpdate { pn_SessionUpdate : string; pn_Entries : list PlanEntry }.
Record RawUpdate := MkRawUpdate { rw_SessionUpdate : string; rw_Raw : string }.

Section Acp.
Context `{AcpTypes}.

Record UsageUpdate := MkUsageUpdate {
  us_SessionUpdate : string; us_Size : Z; us_Used : Z; us_Cost : option UsageCost; us_Meta : GoMap
}.

Inductive Update :=
| UContentChunk (u : ContentChunk)
| UToolCall (u : ToolCall)
| UToolCallUpdate (u : ToolCallUpdate)
| UPlan (u : PlanUpdate)
| UUsage (u : UsageUpdate)
| URaw (u : RawUpdate).

Record RequestPermissionRequest := MkPermissionRequest {
  rq_SessionID : string; rq_ToolCall : ToolCallUpdate; rq_Title : string; rq_Description : option string;
  rq_Options : list PermissionOption; rq_Meta : GoMap
}.

(** ** The envelope *)

Record ParentToolRelation := MkParentTool { pt_ToolCallID : string; pt_ToolName : string }.
Record ActorIdentity := MkActorIdentity { ai_Kind : string; ai_ID : string; ai_Role : string; ai_Name : string }.
Record ApprovalReview := MkReview {
  rv_ToolCallID : string; rv_ToolName : string; rv_ItemID : string; rv_RawInput : GoMap; rv_Status : string; rv_Text : string;
  rv_Risk : string; rv_Authorization : string
}.
Record Lifecycle := MkLifecycleState { State : string; Reason : string; StopReason : string }.
Record AgentCommunication := MkCommunication { cm_Source : ActorIdentity; cm_Text : string }.

(** [Delivery] has the one field [Mode]; [Participant] the one field [State].
    [Err] is a process-local error, by its text. *)
Record Envelope := MkEnvelope {
  InputOperationID : string; InputStatus : string; Kind : string; Cursor : string; EventID : string; ProjectionID : string;
  Position : option FeedPosition; SessionID : string; HandleID : string; RunID : string; TurnID : string; ActivityID : string;
  OccurredAt : Z; Scope : string; ScopeID : string; Actor : string; ParticipantID : string; Final : bool; UsageSemantics : string;
  ParentTool : option ParentToolRelation; Delivery : option string; ApprovalRequestID : string;
  EnvelopeSubject : option ApprovalSubject; AgentCommunicationSource : option ActorIdentity; UpdateOf : option Update;
  Permission : option RequestPermissionRequest; Notice : string; NoticeKind : string; ReviewOf : option ApprovalReview;
  Participant : option string; LifecycleOf : option Lifecycle; CommunicationOf : option AgentCommunication; Meta : GoMap;
  Err : option string; Error : string
}.

(** Field assignments. *)
Definition set_Cursor (v : string) (e : Envelope) : Envelope :=
  MkEnvelope (InputOperationID e) (InputStatus e) (Kind e) v (EventID e) (ProjectionID e) (Position e) (SessionID e)
    (HandleID e) (RunID e) (TurnID e) (ActivityID e) (OccurredAt e) (Scope e) (ScopeID e) (Actor e) (ParticipantID e)
    (Final e) (UsageSemantics e) (ParentTool e) (Delivery e) (ApprovalRequestID e) (EnvelopeSubject e)
    (AgentCommunicationSource e) (UpdateOf e) (Permission e) (Notice e) (NoticeKind e) (ReviewOf e) (Participant e)
    (LifecycleOf e) (CommunicationOf e) (Meta e) (Err e) (Error e).
Definition set_EventID (v : string) (e : Envelope) : Envelope :=
  MkEnvelope (InputOperationID e) (InputStatus e) (Kind e) (Cursor e) v (ProjectionID e) (Position e) (SessionID e)
    (HandleID e) (RunID e) (TurnID e) (ActivityID e) (OccurredAt e) (Scope e) (ScopeID e) (Actor e) (ParticipantID e)
    (Final e) (UsageSemantics e) (ParentTool e) (Delivery e) (ApprovalRequestID e) (EnvelopeSubject e)
    (AgentCommunicationSource e) (UpdateOf e) (Permission e) (Notice e) (NoticeKind e) (ReviewOf e) (Participant e)
    (LifecycleOf e) (CommunicationOf e) (Meta e) (Err e) (Error e).
Definition set_ProjectionID (v : string) (e : Envelope) : Envelope :=
  MkEnvelope (InputOperationID e) (InputStatus e) (Kind e) (Cursor e) (EventID e) v (Position e) (SessionID e)
    (HandleID e) (RunID e) (TurnID e) (ActivityID e) (OccurredAt e) (Scope e) (ScopeID e) (Actor e) (ParticipantID e)
    (Final e) (UsageSemantics e) (ParentTool e) (Delivery e) (ApprovalRequestID e) (EnvelopeSubject e)
    (AgentCommunicationSource e) (UpdateOf e) (Permission e) (Notice e) (NoticeKind e) (ReviewOf e) (Participant e)
    (LifecycleOf e) (CommunicationOf e) (Meta e) (Err e) (Error e).
Definition set_Position (v : option FeedPosition) (e : Envelope) : Envelope :=
  MkEnvelope (InputOperationID e) (InputStatus e) (Kind e) (Cursor e) (EventID e) (ProjectionID e) v (SessionID e)
    (HandleID e) (RunID e) (TurnID e) (ActivityID e) (OccurredAt e) (Scope e) (ScopeID e) (Actor e) (ParticipantID e)
    (Final e) (UsageSemantics e) (ParentTool e) (Delivery e) (ApprovalRequestID e) (EnvelopeSubject e)
    (AgentCommunicationSource e) (UpdateOf e) (Permission e) (Notice e) (NoticeKind e) (ReviewOf e) (Participant e)
    (LifecycleOf e) (CommunicationOf e) (Meta e) (Err e) (Error e).
Definition set_EnvelopeSession (v : string) (e : Envelope) : Envelope :=
  MkEnvelope (InputOperationID e) (InputStatus e) (Kind e) (Cursor e) (EventID e) (ProjectionID e) (Position e) v
    (HandleID e) (RunID e) (TurnID e) (ActivityID e) (OccurredAt e) (Scope e) (ScopeID e) (Actor e) (ParticipantID e)
    (Final e) (UsageSemantics e) (ParentTool e) (Delivery e) (ApprovalRequestID e) (EnvelopeSubject e)
    (AgentCommunicationSource e) (UpdateOf e) (Permission e) (Notice e) (NoticeKind e) (ReviewOf e) (Participant e)
    (LifecycleOf e) (CommunicationOf e) (Meta e) (Err e) (Error e).
Definition set_Delivery (v : option string) (e : Envelope) : Envelope :=
  MkEnvelope (InputOperationID e) (InputStatus e) (Kind e) (Cursor e) (EventID e) (ProjectionID e) (Position e)
    (SessionID e) (HandleID e) (RunID e) (TurnID e) (ActivityID e) (OccurredAt e) (Scope e) (ScopeID e) (Actor e)
    (ParticipantID e) (Final e) (UsageSemantics e) (ParentTool e) v (ApprovalRequestID e) (EnvelopeSubject e)
    (AgentCommunicationSource e) (UpdateOf e) (Permission e) (Notice e) (NoticeKind e) (ReviewOf e) (Participant e)
    (LifecycleOf e) (CommunicationOf e) (Meta e) (Err e) (Error e).
Definition set_Update (v : option Update) (e : Envelope) : Envelope :=
  MkEnvelope (InputOperationID e) (InputStatus e) (Kind e) (Cursor e) (EventID e) (ProjectionID e) (Position e)
    (SessionID e) (HandleID e) (RunID e) (TurnID e) (ActivityID e) (OccurredAt e) (Scope e) (ScopeID e) (Actor e)
    (ParticipantID e) (Final e) (UsageSemantics e) (ParentTool e) (Delivery e) (ApprovalRequestID e)
    (EnvelopeSubject e) (AgentCommunicationSource e) v (Permission e) (Notice e) (NoticeKind e) (ReviewOf e)
    (Participant e) (LifecycleOf e) (CommunicationOf e) (Meta e) (Err e) (Error e).
Definition set_EnvelopeMeta (v : GoMap) (e : Envelope) : Envelope :=
  MkEnvelope (InputOperationID e) (InputStatus e) (Kind e) (Cursor e) (EventID e) (ProjectionID e) (Position e)
    (SessionID e) (HandleID e) (RunID e) (TurnID e) (ActivityID e) (OccurredAt e) (Scope e) (ScopeID e) (Actor e)
    (ParticipantID e) (Final e) (UsageSemantics e) (ParentTool e) (Delivery e) (ApprovalRequestID e)
    (EnvelopeSubject e) (AgentCommunicationSource e) (UpdateOf e) (Permission e) (Notice e) (NoticeKind e)
    (ReviewOf e) (Participant e) (LifecycleOf e) (CommunicationOf e) v (Err e) (Error e).
End Acp.

(** ** Delivery and lifecycle *)

Definition DeliveryCanonical : string := "canonical".
Definition DeliveryMirror : string := "mirror".
Definition DeliveryTransient : string := "transient".
Definition KindLifecycle : string := "caelis/lifecycle".
Definition ScopeMain : string := "main".
Definition ScopeParticipant : string := "participant".
Definition ScopeSubagent : string := "subagent".
Definition UpdateAgentMessage : string := "agent_message_chunk".
Definition UpdateAgentThought : string := "agent_thought_chunk".

Inductive DeliveryError :=
| DurablePositionRequired
| InvalidDurablePosition (e : PositionError)
| ZeroDurableSequence
| UnsupportedDeliveryMode (mode : string).

Section Envelopes.
Context `{AcpTypes} (to_lower : string -> string).

Definition is_durable_mode (mode : string) : bool := ((mode =? DeliveryCanonical) || (mode =? DeliveryMirror))%string.
Definition is_transient_mode (mode : string) : bool := ((mode =? "") || (mode =? DeliveryTransient))%string.

Definition ValidateEnvelopeDelivery (e : Envelope) : result DeliveryError unit :=
  let mode := match Delivery e with Some mode => mode | None => ""%string end in
  if is_transient_mode mode then Ok tt
  else if is_durable_mode mode then
    match Position e with
    | None => Fail DurablePositionRequired
    | Some p =>
        match Durable p with
        | None => Fail DurablePositionRequired
        | Some d =>
            match ValidatePosition p with
            | Fail err => Fail (InvalidDurablePosition err)
            | Ok _ => if Seq d =? 0 then Fail ZeroDurableSequence else Ok tt
            end
        end
    end
  else Fail (UnsupportedDeliveryMode mode).

(** The durable position of an envelope with a durable delivery mode;
    [isDurableFeedEnvelope] is whether there is one. *)
Definition durable_of (e : Envelope) : option DurableFeedPosition :=
  match Delivery e with
  | Some mode => if is_durable_mode mode then Position e ≫= Durable else None
  | None => None
  end.
Definition isDurableFeedEnvelope (e : Envelope) : bool := match durable_of e with Some _ => true | None => false end.

Definition terminal_states : list string :=
  ["completed"; "failed"; "interrupted"; "cancelled"; "terminated"; "unknown_outcome"; "canceled"]%string.
Definition IsTerminalLifecycleState (state : string) : bool := existsb (String.eqb (to_lower (trim_space state))) terminal_states.

Definition IsTurnTerminalLifecycle (e : Envelope) : bool :=
  match LifecycleOf e with
  | None => false
  | Some l =>
      (Kind e =? KindLifecycle)%string && IsTerminalLifecycleState (State l) &&
      ((Scope e =? "") || (Scope e =? ScopeMain))%string && (trim_space (ApprovalRequestID e) =? "")%string
  end.

(** [isMainTerminalEnvelope]. *)
Definition isMainTerminalEnvelope (e : Envelope) : bool := IsTurnTerminalLifecycle e.
End Envelopes.

(** ** The order of durable positions *)

Ltac ltb_cases := repeat match goal with |- context [?a <? ?b] => destruct (Z.ltb_spec a b) end.

Definition durable_lt (p q : DurableFeedPosition) : Prop := compareDurablePosition p q = -1.

Lemma compare_lt p q : compareDurablePosition p q = -1 <-> Seq p < Seq q \/ Seq p = Seq q /\ ProjectionIndex p < ProjectionIndex q.
Proof. unfold compareDurablePosition. ltb_cases; lia. Qed.

Lemma compare_le0 p q : compareDurablePosition p q <= 0 <-> ~ durable_lt q p.
Proof. unfold durable_lt. rewrite compare_lt. unfold compareDurablePosition. ltb_cases; lia. Qed.

Lemma compare_gt0 p q : 0 < compareDurablePosition p q <-> durable_lt q p.
Proof. unfold durable_lt. rewrite compare_lt. unfold compareDurablePosition. ltb_cases; lia. Qed.

Lemma compare_eq p q : compareDurablePosition p q = 0 <-> p = q.
Proof.
  destruct p as [a b], q as [c d]. unfold compareDurablePosition. cbn. split; [|intros [= -> ->]; by rewrite !Z.ltb_irrefl].
  ltb_cases; try lia. intros _. f_equal; lia.
Qed.

Global Instance durable_lt_trans : Transitive durable_lt.
Proof. intros p q r. unfold durable_lt. rewrite !compare_lt. lia. Qed.
Global Instance durable_lt_irrefl : Irreflexive durable_lt.
Proof. intros p. unfold complement, durable_lt. rewrite compare_lt. lia. Qed.

Lemma durable_lt_total p q : durable_lt p q \/ p = q \/ durable_lt q p.
Proof.
  destruct (Z.lt_trichotomy (compareDurablePosition p q) 0) as [L|[E|L]].
  - left. revert L. unfold durable_lt, compareDurablePosition. ltb_cases; lia.
  - right. left. by apply compare_eq.
  - right. right. by apply compare_gt0.
Qed.

Lemma durable_of_valid `{AcpTypes} e d :
  ValidateEnvelopeDelivery e = Ok tt -> durable_of e = Some d -> Position e = Some (at_durable d) /\ Seq d <> 0.
Proof.
  unfold ValidateEnvelopeDelivery, durable_of. destruct (Delivery e) as [mode|]; [|done].
  destruct (is_durable_mode mode) eqn:D; [|done]. assert (is_transient_mode mode = false) as ->.
  { apply orb_true_iff in D as [->%String.eqb_eq| ->%String.eqb_eq]; done. }
  destruct (Position e) as [[[x|] [t|]]|]; cbn; try done. intros Hv [= ->]. destruct (Z.eqb_spec (Seq d) 0); done.
Qed.

(** The zero value of the struct. *)
Definition zero_envelope `{AcpTypes} : Envelope :=
  MkEnvelope "" "" "" "" "" "" None "" "" "" "" "" 0 "" "" "" "" false "" None None "" None None None None "" "" None None None None None None "".
