(* ===== verification/FeedDelivery.v ===== *)
(** Replacement transactions of the Session feed: the consumer's assembler
    (control/appserver/feed_delivery.go) and the builder that cuts a canonical
    replay into pages (feed_replacement_page.go).

    [Marshal] is [json.Marshal] of an Envelope, whose payloads have encoders in
    the ACP SDK: a parameter, of which only failure and length matter here.
    Receivers are not nil. *)

From Stdlib Require Import ZArith Lia String.
From stdpp Require Import base list strings option.
From S2P Require Import Prelude GoStrings GoValues FeedTypes.

Open Scope string_scope.
Open Scope list_scope.
Open Scope Z_scope.

Definition FeedSourceExact : string := "exact".
Definition FeedSourceReplacement : string := "replacement".
Definition FeedSourceResult : string := "result".

Definition FeedDeliveryReplaceBegin : string := "replace_begin".
Definition FeedDeliveryReplacePage : string := "replace_page".
Definition FeedDeliveryReplaceEnd : string := "replace_end".
Definition FeedDeliveryAppendPage : string := "append_page".
Definition FeedDeliverySync : string := "sync".

Definition maxFeedReplacementPageEvents : Z := 8192.
Definition MaxFeedReplacementPageBytes : Z := 33554432.
Definition feedReplacementPageEventLimit : Z := 256.
Definition feedReplacementPageByteLimit : Z := 1048576.

(** [uint32] page numbers wrap. *)
Definition u32_succ (x : Z) : Z := (x + 1) mod 4294967296.

Section Delivery.
Context `{AcpTypes} (to_lower : string -> string) (Marshal : Envelope -> option (list Z)).

Record FeedDelivery := MkDelivery {
  d_Kind : string; d_Source : string; d_SnapshotID : string; d_Page : Z; d_Events : list Envelope; d_NextCursor : string;
  d_HistoryBefore : string
}.

Inductive FeedError := InvalidDelivery (part : string) | PageEventLimit | PageByteLimit | EncodingFailed.

Definition blank (s : string) : bool := (trim_space s =? "")%string.
Definition empty_list {A} (l : list A) : bool := match l with [] => true | _ => false end.

(** ** The assembler *)

Record FeedDeliveryAssembler := MkAssembler { snapshotID : string; nextPage : Z; events : list Envelope }.

Definition new_assembler : FeedDeliveryAssembler := MkAssembler "" 0 [].
Definition Pending (a : FeedDeliveryAssembler) : bool := negb (snapshotID a =? "")%string.
Definition Reset (a : FeedDeliveryAssembler) : FeedDeliveryAssembler := new_assembler.

Definition valid_position (e : Envelope) : bool := match Position e with Some p => is_ok (ValidatePosition p) | None => false end.

Definition validExactFeedAppend (d : FeedDelivery) : bool :=
  negb (blank (d_NextCursor d)) &&
  forallb (fun e => negb (blank (Cursor e)) && valid_position e) (d_Events d) &&
  match List.last (map Some (d_Events d)) None with Some e => (Cursor e =? d_NextCursor d)%string | None => true end.

Definition cursorlessReplacementEnvelopes (envelopes : list Envelope) : bool :=
  forallb (fun e => blank (Cursor e) && match Position e with Some p => is_ok (ValidatePosition p) | None => true end) envelopes.

Definition validTerminalResult (e : Envelope) : bool :=
  IsTurnTerminalLifecycle to_lower e && blank (Cursor e) && bool_decide (Position e = None) &&
  match Delivery e with Some mode => (mode =? DeliveryTransient)%string | None => false end.

(** The size check of a replacement page. *)
Fixpoint page_size (envelopes : list Envelope) (pageBytes : Z) : result FeedError Z :=
  match envelopes with
  | [] => Ok pageBytes
  | e :: envelopes =>
      match Marshal e with
      | None => Fail EncodingFailed
      | Some raw =>
          let pageBytes := pageBytes + Z.of_nat (length raw) in
          if MaxFeedReplacementPageBytes <? pageBytes then Fail PageByteLimit else page_size envelopes pageBytes
      end
  end.

(** [accept]: the events to publish and whether they replace the view. *)
Definition accept (d : FeedDelivery) (retain : bool) (a : FeedDeliveryAssembler)
    : result FeedError (list Envelope * bool) * FeedDeliveryAssembler :=
  let invalid part := (Fail (InvalidDelivery part), a) in
  if negb (d_HistoryBefore d =? "")%string && negb (d_Kind d =? FeedDeliverySync)%string then invalid "history boundary"%string
  else if (d_Kind d =? FeedDeliveryAppendPage)%string then
    if Pending a || negb (d_SnapshotID d =? "")%string then invalid "append"%string
    else if (d_Source d =? FeedSourceExact)%string then
      if negb (validExactFeedAppend d) then invalid "exact append"%string else (Ok (d_Events d, false), a)
    else if (d_Source d =? FeedSourceResult)%string then
      match d_Events d with
      | [e] =>
          if negb (d_Page d =? 0) || negb (d_NextCursor d =? "")%string || negb (validTerminalResult e)
          then invalid "terminal result"%string else (Ok (d_Events d, false), a)
      | _ => invalid "terminal result"%string
      end
    else invalid "append source"%string
  else if (d_Kind d =? FeedDeliverySync)%string then
    if negb (d_Source d =? FeedSourceExact)%string || Pending a || negb (empty_list (d_Events d)) || negb (d_SnapshotID d =? "")%string
    then invalid "sync"%string else (Ok ([], false), a)
  else if (d_Kind d =? FeedDeliveryReplaceBegin)%string then
    if negb (d_Source d =? FeedSourceReplacement)%string || Pending a || blank (d_SnapshotID d) || negb (d_Page d =? 0) ||
       negb (empty_list (d_Events d)) || negb (d_NextCursor d =? "")%string
    then invalid "replacement begin"%string else (Ok ([], false), MkAssembler (d_SnapshotID d) (nextPage a) (events a))
  else if (d_Kind d =? FeedDeliveryReplacePage)%string then
    if negb (d_Source d =? FeedSourceReplacement)%string || negb (Pending a) || negb (d_SnapshotID d =? snapshotID a)%string ||
       negb (d_Page d =? nextPage a) || negb (d_NextCursor d =? "")%string || negb (cursorlessReplacementEnvelopes (d_Events d))
    then invalid "replacement page"%string
    else if maxFeedReplacementPageEvents <? Z.of_nat (length (d_Events d)) then (Fail PageEventLimit, Reset a)
    else
      match page_size (d_Events d) 0 with
      | Fail err => (Fail err, Reset a)
      | Ok _ =>
          if negb retain then (Ok (d_Events d, false), MkAssembler (snapshotID a) (u32_succ (nextPage a)) (events a))
          else (Ok ([], false), MkAssembler (snapshotID a) (u32_succ (nextPage a)) (events a ++ d_Events d))
      end
  else if (d_Kind d =? FeedDeliveryReplaceEnd)%string then
    if negb (d_Source d =? FeedSourceReplacement)%string || negb (Pending a) || negb (d_SnapshotID d =? snapshotID a)%string ||
       negb (d_Page d =? nextPage a) || negb (empty_list (d_Events d)) || negb (d_NextCursor d =? "")%string
    then invalid "replacement end"%string else (Ok (events a, true), Reset a)
  else invalid "kind"%string.

Definition Accept (d : FeedDelivery) : FeedDeliveryAssembler -> result FeedError (list Envelope * bool) * FeedDeliveryAssembler :=
  accept d true.
Definition AcceptPage (d : FeedDelivery) : FeedDeliveryAssembler -> result FeedError (list Envelope * bool) * FeedDeliveryAssembler :=
  accept d false.

(** ** The page builder *)

Record feedReplacementPageBuilder := MkBuilder {
  b_snapshotID : string; b_maxEvents : Z; b_maxBytes : Z; b_page : Z; b_pending : list Envelope; b_bytes : Z
}.

Definition newFeedReplacementPageBuilder (snapshotID : string) : feedReplacementPageBuilder :=
  MkBuilder snapshotID feedReplacementPageEventLimit feedReplacementPageByteLimit 0 [] 0.

Definition bounded_limit (limit standard cap : Z) : Z := Z.min (if limit <=? 0 then standard else limit) cap.
Definition eventLimit (b : feedReplacementPageBuilder) : Z :=
  bounded_limit (b_maxEvents b) feedReplacementPageEventLimit maxFeedReplacementPageEvents.
Definition byteLimit (b : feedReplacementPageBuilder) : Z :=
  bounded_limit (b_maxBytes b) feedReplacementPageByteLimit MaxFeedReplacementPageBytes.

Definition takePage (b : feedReplacementPageBuilder) : FeedDelivery * feedReplacementPageBuilder :=
  (MkDelivery FeedDeliveryReplacePage FeedSourceReplacement (b_snapshotID b) (b_page b) (b_pending b) "" "",
   MkBuilder (b_snapshotID b) (b_maxEvents b) (b_maxBytes b) (u32_succ (b_page b)) [] 0).

Definition set_pending (envelopes : list Envelope) (bytes : Z) (b : feedReplacementPageBuilder) : feedReplacementPageBuilder :=
  MkBuilder (b_snapshotID b) (b_maxEvents b) (b_maxBytes b) (b_page b) envelopes bytes.

(** The page to emit first, if one is. *)
Definition add (e : Envelope) (b : feedReplacementPageBuilder) : result FeedError (option FeedDelivery) * feedReplacementPageBuilder :=
  match Marshal e with
  | None => (Fail EncodingFailed, b)
  | Some raw =>
      let size := Z.of_nat (length raw) in
      if MaxFeedReplacementPageBytes <? size then (Fail PageByteLimit, b)
      else if negb (empty_list (b_pending b)) &&
              ((eventLimit b <=? Z.of_nat (length (b_pending b))) || (byteLimit b <? b_bytes b + size)) then
        let '(flushed, b) := takePage b in (Ok (Some flushed), set_pending [e] size b)
      else (Ok None, set_pending (b_pending b ++ [e]) (b_bytes b + size) b)
  end.

Definition flush (b : feedReplacementPageBuilder) : option FeedDelivery * feedReplacementPageBuilder :=
  match b_pending b with
  | [] => (None, b)
  | _ => let '(d, b) := takePage b in (Some d, b)
  end.

(** The replay loop hands every envelope to [add] and delivers what it emits;
    then it flushes.  The pages delivered, and the error that stopped it. *)
Fixpoint add_all (envelopes : list Envelope) (b : feedReplacementPageBuilder)
    : list FeedDelivery * option FeedError * feedReplacementPageBuilder :=
  match envelopes with
  | [] => ([], None, b)
  | e :: envelopes =>
      match add e b with
      | (Fail err, b) => ([], Some err, b)
      | (Ok page, b) =>
          let '(pages, err, b) := add_all envelopes b in (option_list page ++ pages, err, b)
      end
  end.

Definition replacement_pages (snapshot : string) (envelopes : list Envelope) : list FeedDelivery * option FeedError * Z :=
  match add_all envelopes (newFeedReplacementPageBuilder snapshot) with
  | (pages, Some err, b) => (pages, Some err, b_page b)
  | (pages, None, b) => let '(last, b) := flush b in (pages ++ option_list last, None, b_page b)
  end.

(** [deliverCanonicalReplacement], up to its sync: begin, pages, end. *)
Definition replacement (snapshot : string) (envelopes : list Envelope) : list FeedDelivery * option FeedError :=
  let begin := MkDelivery FeedDeliveryReplaceBegin FeedSourceReplacement snapshot 0 [] "" "" in
  match replacement_pages snapshot envelopes with
  | (pages, Some err, _) => (begin :: pages, Some err)
  | (pages, None, page) => (begin :: pages ++ [MkDelivery FeedDeliveryReplaceEnd FeedSourceReplacement snapshot page [] "" ""], None)
  end.
End Delivery.
