(* ===== verification/FeedDeliveryProps.v ===== *)
(** Replacement transactions: what the builder emits is what the assembler
    accepts and publishes whole, and whatever the assembler publishes as a
    replacement is one complete transaction. *)

From Stdlib Require Import ZArith Lia String.
From stdpp Require Import base list strings option.
From S2P Require Import Prelude GoStrings GoValues FeedTypes FeedDelivery.

Open Scope string_scope.
Open Scope list_scope.
Open Scope Z_scope.

Section Transactions.
Context `{AcpTypes} (to_lower : string -> string) (Marshal : Envelope -> option (list Z)).

Abbreviation accept := (accept to_lower Marshal).
Abbreviation add := (add Marshal).
Abbreviation add_all := (add_all Marshal).

(** Deliveries consumed in order, up to the first that is refused. *)
Fixpoint consume_feed (retain : bool) (ds : list FeedDelivery) (a : FeedDeliveryAssembler)
    : result FeedError (list (list Envelope * bool)) * FeedDeliveryAssembler :=
  match ds with
  | [] => (Ok [], a)
  | d :: ds =>
      match accept d retain a with
      | (Fail err, a) => (Fail err, a)
      | (Ok out, a) =>
          match consume_feed retain ds a with
          | (Ok outs, a) => (Ok (out :: outs), a)
          | (Fail err, a) => (Fail err, a)
          end
      end
  end.

Lemma consume_app retain ds more a outs a' :
  consume_feed retain ds a = (Ok outs, a') ->
  consume_feed retain (ds ++ more) a = match consume_feed retain more a' with (Ok outs', a') => (Ok (outs ++ outs'), a') | (Fail err, a') => (Fail err, a') end.
Proof.
  revert a outs. induction ds as [|d ds IH]; intros a outs E; cbn in E |- *; [simplify_eq; by destruct (consume_feed retain more _) as [[]]|].
  destruct (accept d retain a) as [[out|err] a1]; [|done]. destruct (consume_feed retain ds a1) as [[outs1|] a2] eqn:E1; [|done]. simplify_eq.
  rewrite (IH a1 outs1 E1). by destruct (consume_feed retain more a') as [[]].
Qed.

(** ** Pages *)

Definition size (e : Envelope) : Z := match Marshal e with Some raw => Z.of_nat (length raw) | None => 0 end.
Fixpoint sizes (l : list Envelope) : Z := match l with [] => 0 | e :: l => size e + sizes l end.
Definition fits (e : Envelope) : Prop := exists raw, Marshal e = Some raw /\ Z.of_nat (length raw) <= MaxFeedReplacementPageBytes.
Definition cursorless (e : Envelope) : Prop := blank (Cursor e) = true /\ match Position e with Some p => ValidatePosition p = Ok tt | None => True end.

Lemma encoded_size_nonneg e : 0 <= size e.
Proof. unfold size. destruct (Marshal e); lia. Qed.
Lemma sizes_nonneg l : 0 <= sizes l.
Proof. induction l as [|e l IH]; cbn; [lia|]. pose proof (encoded_size_nonneg e). lia. Qed.
Lemma sizes_app a b : sizes (a ++ b) = sizes a + sizes b.
Proof. induction a as [|e a IH]; cbn; [lia|]. rewrite IH. lia. Qed.

(** A page within the transport's bounds; one envelope may exceed them alone. *)
Record page_ok (l : list Envelope) : Prop := {
  page_nonempty : l <> [];
  page_events : Z.of_nat (length l) <= feedReplacementPageEventLimit;
  page_bytes : sizes l <= feedReplacementPageByteLimit \/ length l = 1%nat
}.

Fixpoint page_deliveries (snapshot : string) (n : Z) (chunks : list (list Envelope)) : list FeedDelivery :=
  match chunks with
  | [] => []
  | l :: chunks =>
      MkDelivery FeedDeliveryReplacePage FeedSourceReplacement snapshot n l "" "" :: page_deliveries snapshot (u32_succ n) chunks
  end.
Definition page_after (n : Z) (chunks : list (list Envelope)) : Z := Nat.iter (length chunks) u32_succ n.

Lemma page_after_cons n l chunks : page_after n (l :: chunks) = page_after (u32_succ n) chunks.
Proof. unfold page_after. cbn [length]. by rewrite Nat.iter_succ_r. Qed.

Lemma page_deliveries_app snapshot n a b :
  page_deliveries snapshot n (a ++ b) = page_deliveries snapshot n a ++ page_deliveries snapshot (page_after n a) b.
Proof. revert n. induction a as [|l a IH]; intros n; [done|]. cbn [app page_deliveries]. by rewrite IH, page_after_cons. Qed.

(** ** The builder *)

Record builder_ok (b : feedReplacementPageBuilder) : Prop := {
  builder_events : b_maxEvents b = feedReplacementPageEventLimit;
  builder_limit : b_maxBytes b = feedReplacementPageByteLimit;
  builder_sizes : b_bytes b = sizes (b_pending b);
  builder_page : b_pending b <> [] -> page_ok (b_pending b)
}.

Lemma builder_ok_new snapshot : builder_ok (newFeedReplacementPageBuilder snapshot).
Proof. by split. Qed.

Lemma page_ok_single e : page_ok [e].
Proof. split; [done|cbn; unfold feedReplacementPageEventLimit; lia|by right]. Qed.

Lemma add_ok e b :
  builder_ok b -> fits e ->
  exists chunks b', add e b = (Ok (head (page_deliveries (b_snapshotID b) (b_page b) chunks)), b') /\ (length chunks <= 1)%nat /\
    builder_ok b' /\ b_snapshotID b' = b_snapshotID b /\ b_page b' = page_after (b_page b) chunks /\
    concat chunks ++ b_pending b' = b_pending b ++ [e] /\ Forall page_ok chunks.
Proof.
  intros [Be Bl Bs Bp] (raw & Er & Hr). unfold FeedDelivery.add. rewrite Er. destruct (Z.ltb_spec MaxFeedReplacementPageBytes (Z.of_nat (length raw))); [lia|].
  assert (Hsz : size e = Z.of_nat (length raw)) by (unfold size; by rewrite Er).
  unfold eventLimit, byteLimit, bounded_limit. rewrite Be, Bl.
  change (Z.min _ maxFeedReplacementPageEvents) with feedReplacementPageEventLimit.
  change (Z.min _ MaxFeedReplacementPageBytes) with feedReplacementPageByteLimit.
  destruct (negb (empty_list (b_pending b)) && _) eqn:G.
  - apply andb_true_iff in G as [G _]. exists [b_pending b]. eexists. split; [done|]. split; [done|]. cbn. rewrite app_nil_r.
    split_and!; [|done..|]; [split; cbn; [done..|lia|intros _; apply page_ok_single]|]. constructor; [|done]. apply Bp. by destruct (b_pending b).
  - exists []. eexists. split; [done|]. cbn. split; [lia|]. split_and!; [|done..]. apply andb_false_iff in G.
    split; cbn; [done..|rewrite sizes_app; cbn; lia|]. intros _. destruct (b_pending b) as [|x l] eqn:El; [apply page_ok_single|].
    destruct G as [G|[G1%Z.leb_gt G2%Z.ltb_ge]%orb_false_iff]; [done|]. split; [by destruct l|rewrite length_app; cbn [length] in *; lia|].
    left. rewrite sizes_app. cbn [sizes] in *. lia.
Qed.

Lemma add_all_ok l b :
  builder_ok b -> Forall fits l ->
  exists chunks b', add_all l b = (page_deliveries (b_snapshotID b) (b_page b) chunks, None, b') /\
    builder_ok b' /\ b_snapshotID b' = b_snapshotID b /\ b_page b' = page_after (b_page b) chunks /\
    concat chunks ++ b_pending b' = b_pending b ++ l /\ Forall page_ok chunks.
Proof.
  intros B F. revert b B. induction F as [|e l He F IH]; intros b B.
  { exists [], b. split; [done|]. rewrite app_nil_r. by split_and!. }
  cbn [FeedDelivery.add_all]. destruct (add_ok e b B He) as (c1 & b1 & -> & Hc1 & B1 & S1 & P1 & E1 & F1).
  destruct (IH b1 B1) as (c2 & b2 & -> & B2 & S2 & P2 & E2 & F2). exists (c1 ++ c2), b2. split.
  - rewrite page_deliveries_app, S1, P1. f_equal. f_equal. f_equal. destruct c1 as [|x [|]]; [done..|cbn in Hc1; lia].
  - split_and!; [done|congruence| | |by apply Forall_app_2].
    + rewrite P2, P1. unfold page_after. rewrite length_app, Nat.add_comm. by rewrite Nat.iter_add.
    + rewrite concat_app, <- app_assoc, E2, app_assoc, E1, <- app_assoc. done.
Qed.

(** The first envelope that does not fit stops the replay. *)
Lemma add_all_fail l b :
  ~ Forall fits l -> exists pages err b', add_all l b = (pages, Some err, b') /\ Forall (fun d => d_Kind d = FeedDeliveryReplacePage) pages.
Proof.
  revert b. induction l as [|e l IH]; intros b N; [by destruct N|]. cbn [FeedDelivery.add_all]. unfold FeedDelivery.add.
  destruct (Marshal e) as [raw|] eqn:Er; [|by do 3 eexists].
  destruct (Z.ltb_spec MaxFeedReplacementPageBytes (Z.of_nat (length raw))); [by do 3 eexists|].
  assert (N' : ~ Forall fits l) by (intros F; apply N; constructor; [by exists raw|done]).
  destruct (_ && _); cbn.
  - destruct (IH (set_pending [e] (Z.of_nat (length raw)) (takePage b).2) N') as (pages & err & b' & E & F). cbn in E. rewrite E. do 3 eexists. split; [done|]. by constructor.
  - edestruct (IH (set_pending (b_pending b ++ [e]) (b_bytes b + Z.of_nat (length raw)) b) N') as (pages & err & b' & E & F). rewrite E. do 3 eexists. by split.
Qed.

(** ** The assembler *)

Lemma page_size_ok l n : Forall fits l -> n + sizes l <= MaxFeedReplacementPageBytes -> page_size Marshal l n = Ok (n + sizes l).
Proof.
  intros F. revert n. induction F as [|e l (raw & E & Hr) F IH]; intros n Hn; cbn; [by rewrite Z.add_0_r|].
  cbn in Hn. unfold size in *. rewrite E in *. pose proof (sizes_nonneg l).
  destruct (Z.ltb_spec MaxFeedReplacementPageBytes (n + Z.of_nat (length raw))); [lia|]. rewrite IH by lia. f_equal. lia.
Qed.

Lemma page_fits_assembler l : page_ok l -> Forall fits l -> sizes l <= MaxFeedReplacementPageBytes /\ Z.of_nat (length l) <= maxFeedReplacementPageEvents.
Proof.
  intros [_ E B] F. unfold feedReplacementPageEventLimit, maxFeedReplacementPageEvents, feedReplacementPageByteLimit, MaxFeedReplacementPageBytes in *.
  split; [|lia]. destruct B as [B|B]; [lia|]. destruct l as [|e [|]]; [done| |done]. apply Forall_cons_1 in F as [(raw & Er & Hr) _].
  cbn. unfold size. rewrite Er. unfold MaxFeedReplacementPageBytes in Hr. lia.
Qed.

Lemma cursorless_ok l : Forall cursorless l -> cursorlessReplacementEnvelopes l = true.
Proof.
  intros F. unfold cursorlessReplacementEnvelopes. apply forallb_forall. intros e He. rewrite List.Forall_forall in F.
  destruct (F e He) as [Hc Hp]. rewrite Hc. destruct (Position e); [by rewrite Hp|done].
Qed.

(** What a consumer is handed for a page. *)
Definition page_output (retain : bool) (l : list Envelope) : list Envelope * bool := (if retain then [] else l, false).

Lemma accept_page snapshot n l acc retain :
  blank snapshot = false -> page_ok l -> Forall fits l -> Forall cursorless l ->
  accept (MkDelivery FeedDeliveryReplacePage FeedSourceReplacement snapshot n l "" "") retain (MkAssembler snapshot n acc) =
  (Ok (page_output retain l), MkAssembler snapshot (u32_succ n) (if retain then acc ++ l else acc)).
Proof.
  intros Hs P F C. destruct (page_fits_assembler l P F) as [Hb He]. unfold FeedDelivery.accept. cbn -[cursorlessReplacementEnvelopes page_size].
  assert (Hne : (snapshot =? "")%string = false) by (destruct (String.eqb_spec snapshot ""); [by subst|done]).
  unfold Pending. cbn -[cursorlessReplacementEnvelopes page_size]. rewrite Hne, String.eqb_refl, Z.eqb_refl, cursorless_ok by done.
  cbn -[page_size].
  destruct (Z.ltb_spec maxFeedReplacementPageEvents (Z.of_nat (length l))); [lia|]. rewrite page_size_ok by (done || lia). by destruct retain.
Qed.

Lemma consume_pages snapshot n chunks acc retain :
  blank snapshot = false -> Forall page_ok chunks -> Forall (Forall fits) chunks -> Forall (Forall cursorless) chunks ->
  consume_feed retain (page_deliveries snapshot n chunks) (MkAssembler snapshot n acc) =
  (Ok (map (page_output retain) chunks), MkAssembler snapshot (page_after n chunks) (if retain then acc ++ concat chunks else acc)).
Proof.
  intros Hs P. revert n acc. induction P as [|l chunks Pl P IH]; intros n acc F C; [cbn; rewrite app_nil_r; by destruct retain|].
  apply Forall_cons_1 in F as [Fl F]. apply Forall_cons_1 in C as [Cl C]. cbn [page_deliveries consume_feed].
  rewrite accept_page by done. rewrite IH by done. rewrite page_after_cons. destruct retain; [|done]. cbn. by rewrite app_assoc.
Qed.

Lemma Forall_concat_1 {A} (P : A -> Prop) (ls : list (list A)) : Forall P (concat ls) -> Forall (Forall P) ls.
Proof. induction ls as [|l ls IH]; cbn; [constructor|]. intros [? ?]%Forall_app. constructor; auto. Qed.

(** The pages of a replay, as chunks of its envelopes. *)
Lemma replacement_chunks snapshot l :
  Forall fits l ->
  exists chunks, replacement_pages Marshal snapshot l = (page_deliveries snapshot 0 chunks, None, page_after 0 chunks) /\
    concat chunks = l /\ Forall page_ok chunks.
Proof.
  intros F. unfold replacement_pages. destruct (add_all_ok l _ (builder_ok_new snapshot) F) as (chunks & b & -> & B & S & P & E & G).
  cbn in E, S, P. unfold flush. destruct (b_pending b) as [|x rest] eqn:Ep.
  - exists chunks. cbn. rewrite app_nil_r in *. rewrite P. by split_and!.
  - exists (chunks ++ [x :: rest]). cbn [takePage option_list option_rect]. split_and!.
    + rewrite page_deliveries_app. cbn [page_deliveries]. rewrite Ep, S, P. unfold page_after. rewrite length_app, Nat.add_comm. done.
    + rewrite concat_app. cbn. by rewrite app_nil_r.
    + apply Forall_app_2; [done|]. constructor; [|done]. rewrite <- Ep. apply (builder_page b B). by rewrite Ep.
Qed.

(** C18: A canonical replacement reaches the view whole. When every envelope of
    the replay can be encoded within 32 MiB, carries no cursor and has a valid
    position or none, the replay is cut into pages of at most 256 envelopes and
    1 MiB (or one larger envelope), a retaining consumer accepts every
    delivery, hands out nothing until the end marker, and then publishes
    exactly the envelopes of the replay, in order, as one replacement; a
    consumer that takes pages as they come receives the same envelopes. When
    an envelope does not fit, the replay stops with an error before the end
    marker and the consumer never publishes. *)
Theorem replacement_reaches_view_whole snapshot l :
  blank snapshot = false -> Forall cursorless l ->
  let '(ds, err) := replacement Marshal snapshot l in
  (Forall fits l ->
     err = None /\
     exists chunks, concat chunks = l /\ Forall page_ok chunks /\
       map d_Events ds = [] :: chunks ++ [[]] /\
       consume_feed true ds new_assembler = (Ok (([], false) :: map (fun _ => ([], false)) chunks ++ [(l, true)]), new_assembler) /\
       consume_feed false ds new_assembler = (Ok (([], false) :: map (fun c => (c, false)) chunks ++ [([], true)]), new_assembler)) /\
  (~ Forall fits l -> is_Some err /\ forall out a, (consume_feed true ds new_assembler).1 = Ok out -> a ∈ out -> a = ([], false)).
Proof.
  intros Hs C. unfold replacement. set (begin := MkDelivery FeedDeliveryReplaceBegin _ _ _ _ _ _).
  assert (Hb : forall retain, accept begin retain new_assembler = (Ok ([], false), MkAssembler snapshot 0 [])) by (intros; unfold FeedDelivery.accept; cbn -[blank]; by rewrite Hs).
  destruct (replacement_pages Marshal snapshot l) as [[pages [err|]] page] eqn:E; (split; [intros F|intros N]).
  - destruct (replacement_chunks snapshot l F) as (chunks & E' & _). congruence.
  - split; [by eexists|]. intros out a. cbn [consume_feed]. rewrite Hb. unfold replacement_pages in E.
    destruct (add_all_fail l (newFeedReplacementPageBuilder snapshot) N) as (pages' & err' & b' & Ea & K). rewrite Ea in E. simplify_eq.
    assert (G : forall a0 outs a1, consume_feed true pages a0 = (Ok outs, a1) -> Forall (fun o => o = ([], false)) outs).
    { clear Ea. induction K as [|d ds Hd K IH]; intros a0 outs a1 Ec; cbn in Ec; [by simplify_eq|].
      destruct (accept d true a0) as [[o|] a2] eqn:Ed; [|done]. destruct (consume_feed true ds a2) as [[os|] a3] eqn:Es; [|done]. simplify_eq.
      constructor; [|by eapply IH]. unfold FeedDelivery.accept in Ed. rewrite Hd in Ed. cbn in Ed.
      repeat case_match; by simplify_eq/=. }
    destruct (consume_feed true pages _) as [[outs|] a1] eqn:Ec; [|done]. cbn. intros [= <-] [->|Ha]%elem_of_cons; [done|].
    specialize (G _ _ _ Ec). rewrite List.Forall_forall in G. by apply G, list_elem_of_In.
  - destruct (replacement_chunks snapshot l F) as (chunks & E' & El & P). rewrite E in E'. simplify_eq. split; [done|]. exists chunks. split_and!; [done..| | |].
    + cbn. rewrite map_app. f_equal. f_equal. clear. generalize 0. induction chunks as [|c chunks IH]; intros n; [done|]. cbn. by rewrite IH.
    + cbn [consume_feed]. rewrite Hb. erewrite consume_app by (apply consume_pages; [done..|by apply Forall_concat_1|by apply Forall_concat_1]).
      cbn. rewrite String.eqb_refl, Z.eqb_refl. unfold Pending. cbn. destruct (String.eqb_spec snapshot ""); [by subst|]. cbn. done.
    + cbn [consume_feed]. rewrite Hb. erewrite consume_app by (apply consume_pages; [done..|by apply Forall_concat_1|by apply Forall_concat_1]).
      cbn. rewrite String.eqb_refl, Z.eqb_refl. unfold Pending. cbn. destruct (String.eqb_spec snapshot ""); [by subst|]. cbn. done.
  - unfold replacement_pages in E. destruct (add_all_fail l (newFeedReplacementPageBuilder snapshot) N) as (? & ? & ? & Ea & _).
    by rewrite Ea in E.
Qed.

(** ** What the assembler lets through *)

Fixpoint numbered (s : string) (n : Z) (ds : list FeedDelivery) : Prop :=
  match ds with
  | [] => True
  | d :: ds => d_Kind d = FeedDeliveryReplacePage /\ d_SnapshotID d = s /\ d_Page d = n /\
      Z.of_nat (length (d_Events d)) <= maxFeedReplacementPageEvents /\ numbered s (u32_succ n) ds
  end.
Definition opens (s : string) (d : FeedDelivery) : Prop := d_Kind d = FeedDeliveryReplaceBegin /\ d_SnapshotID d = s /\ blank s = false.
Definition closes (s : string) (n : Z) (d : FeedDelivery) : Prop := d_Kind d = FeedDeliveryReplaceEnd /\ d_SnapshotID d = s /\ d_Page d = n.
Definition silent (d : FeedDelivery) : list Envelope * bool := ([], false).

(** Deliveries and what a retaining consumer publishes for each: appended pages
    as they come, a replacement only at its end. *)
Inductive transcript : list FeedDelivery -> list (list Envelope * bool) -> Prop :=
| transcript_end : transcript [] []
| transcript_append d ds outs :
    d_Kind d = FeedDeliveryAppendPage -> transcript ds outs -> transcript (d :: ds) ((d_Events d, false) :: outs)
| transcript_sync d ds outs :
    d_Kind d = FeedDeliverySync -> d_Events d = [] -> transcript ds outs -> transcript (d :: ds) (([], false) :: outs)
| transcript_replace s b pages e ds outs :
    opens s b -> numbered s 0 pages -> closes s (Nat.iter (length pages) u32_succ 0) e -> transcript ds outs ->
    transcript (b :: pages ++ e :: ds) (silent b :: map silent pages ++ (concat (map d_Events pages), true) :: outs)
| transcript_open s b pages :
    opens s b -> numbered s 0 pages -> transcript (b :: pages) (silent b :: map silent pages).

(** One accepted delivery outside a transaction. *)
Lemma accept_idle d out a :
  accept d true new_assembler = (Ok out, a) ->
  (d_Kind d = FeedDeliveryAppendPage /\ out = (d_Events d, false) /\ a = new_assembler) \/
  (d_Kind d = FeedDeliverySync /\ d_Events d = [] /\ out = ([], false) /\ a = new_assembler) \/
  (exists s, opens s d /\ out = ([], false) /\ a = MkAssembler s 0 []).
Proof.
  unfold FeedDelivery.accept. cbn -[String.eqb blank].
  destruct (_ && _); [done|]. destruct (String.eqb_spec (d_Kind d) FeedDeliveryAppendPage) as [K|_].
  { left. split; [done|]. repeat case_match; by simplify_eq. }
  destruct (String.eqb_spec (d_Kind d) FeedDeliverySync) as [K|_].
  { right. left. split; [done|]. destruct (d_Events d) eqn:Ed; cbn in *; repeat case_match; simplify_eq; [done..|]. by rewrite orb_true_r in *. }
  destruct (String.eqb_spec (d_Kind d) FeedDeliveryReplaceBegin) as [K|_].
  { right. right. exists (d_SnapshotID d). unfold opens. destruct (blank (d_SnapshotID d)); [rewrite orb_true_r in *; done|].
    repeat case_match; simplify_eq. done. }
  destruct (_ =? _)%string; [rewrite orb_true_r; done|]. destruct (_ =? _)%string; [rewrite orb_true_r; done|done].
Qed.

(** One accepted delivery inside a transaction. *)
Lemma accept_pending d s n acc out a :
  blank s = false -> accept d true (MkAssembler s n acc) = (Ok out, a) ->
  (numbered s n [d] /\ out = ([], false) /\ a = MkAssembler s (u32_succ n) (acc ++ d_Events d)) \/
  (closes s n d /\ out = (acc, true) /\ a = new_assembler).
Proof.
  intros Hs. unfold FeedDelivery.accept, Pending. cbn -[String.eqb cursorlessReplacementEnvelopes page_size].
  assert (Hne : (s =? "")%string = false) by (destruct (String.eqb_spec s ""); [by subst|done]). rewrite Hne. cbn -[String.eqb cursorlessReplacementEnvelopes page_size].
  destruct (_ && _); [done|]. destruct (String.eqb_spec (d_Kind d) FeedDeliveryAppendPage); [done|].
  destruct (String.eqb_spec (d_Kind d) FeedDeliverySync); [by rewrite orb_true_r|].
  destruct (String.eqb_spec (d_Kind d) FeedDeliveryReplaceBegin); [by rewrite orb_true_r|].
  destruct (String.eqb_spec (d_Kind d) FeedDeliveryReplacePage) as [K|_].
  { rewrite orb_false_r. destruct (_ || _) eqn:G; [done|]. repeat (apply orb_false_iff in G as [G ?]).
    destruct (Z.ltb_spec maxFeedReplacementPageEvents (Z.of_nat (length (d_Events d)))); [done|]. destruct (page_size _ _ _); [|done].
    intros [= <- <-]. left. split; [|done]. cbn.
    repeat match goal with E : negb _ = false |- _ => apply negb_false_iff in E end. repeat split; [done|by apply String.eqb_eq|by apply Z.eqb_eq|done]. }
  destruct (String.eqb_spec (d_Kind d) FeedDeliveryReplaceEnd) as [K|_]; [|done].
  rewrite orb_false_r. destruct (_ || _) eqn:G; [done|]. repeat (apply orb_false_iff in G as [G ?]). intros [= <- <-]. right. split; [|done].
  repeat match goal with E : negb _ = false |- _ => apply negb_false_iff in E end. split_and!; [done|by apply String.eqb_eq|by apply Z.eqb_eq].
Qed.

Lemma consume_cons retain d ds a outs a' :
  consume_feed retain (d :: ds) a = (Ok outs, a') ->
  exists out a1 outs', accept d retain a = (Ok out, a1) /\ consume_feed retain ds a1 = (Ok outs', a') /\ outs = out :: outs'.
Proof.
  cbn. destruct (accept d retain a) as [[out|] a1]; [|done]. destruct (consume_feed retain ds a1) as [[outs'|] a2] eqn:E; [|done].
  intros [= <- <-]. by exists out, a1, outs'.
Qed.

Lemma consume_pending s n acc ds outs a :
  blank s = false -> consume_feed true ds (MkAssembler s n acc) = (Ok outs, a) ->
  (exists pages e ds' outs', ds = pages ++ e :: ds' /\ numbered s n pages /\ closes s (Nat.iter (length pages) u32_succ n) e /\
     outs = map silent pages ++ (acc ++ concat (map d_Events pages), true) :: outs' /\ consume_feed true ds' new_assembler = (Ok outs', a)) \/
  (numbered s n ds /\ outs = map silent ds).
Proof.
  intros Hs. revert n acc outs. induction ds as [|d ds IH]; intros n acc outs E; [right; cbn in E; by simplify_eq|].
  apply consume_cons in E as (out & a1 & outs' & Ea & E & ->). destruct (accept_pending d s n acc out a1 Hs Ea) as [(N & -> & ->)|(C & -> & ->)].
  - cbn in N. destruct N as (K1 & K2 & K3 & K4 & _). destruct (IH _ _ _ E) as [(pages & e & ds' & o & -> & N & C & -> & E')|[N ->]].
    + left. exists (d :: pages), e, ds', o. split_and!; [done|done| |cbn; by rewrite <- app_assoc|done]. cbn [length]. by rewrite Nat.iter_succ_r.
    + right. by split.
  - left. exists [], d, ds, outs'. cbn. by rewrite app_nil_r.
Qed.

(** C19: A view never shows part of a replacement. Whatever deliveries a
    retaining consumer accepts, from a fresh assembler, form appended pages,
    syncs and replacement transactions; pages of a transaction carry its
    snapshot identity and consecutive numbers from 0, at most 8192 envelopes
    each; nothing of a transaction is published before its end marker, which
    names the number of pages, and then all of its envelopes are, in order, as
    one replacement. A transaction cut off publishes nothing. *)
Theorem accepted_deliveries_are_transactions ds outs a :
  consume_feed true ds new_assembler = (Ok outs, a) -> transcript ds outs.
Proof.
  revert outs. induction ds as [ds IH] using (induction_ltof1 _ (@length FeedDelivery)). unfold ltof in IH. intros outs E.
  destruct ds as [|d ds]; [cbn in E; simplify_eq; constructor|]. apply consume_cons in E as (out & a1 & outs' & Ea & E & ->).
  destruct (accept_idle d out a1 Ea) as [(K & -> & ->)|[(K & Ed & -> & ->)|(s & O & -> & ->)]].
  - apply transcript_append; [done|]. apply IH; [cbn; lia|done].
  - apply transcript_sync; [done..|]. apply IH; [cbn; lia|done].
  - destruct (consume_pending s 0 [] ds outs' a) as [(pages & e & ds' & o & -> & N & C & -> & E')|[N ->]]; [apply O|done| |].
    + apply (transcript_replace s d pages e); [done..|]. apply IH; [cbn; rewrite length_app; cbn; lia|done].
    + by apply (transcript_open s).
Qed.
End Transactions.

(** ** A replay of three hundred envelopes *)

Module Sample.
#[local] Instance sample_acp : AcpTypes := {| PermissionOption := unit; UsageCost := unit |}.
Definition encode (e : Envelope) : option (list Z) := Some [123; 125].
Definition envelope (n : nat) : Envelope := set_Position (Some (at_durable (MkDurable (Z.of_nat n + 1) 0))) zero_envelope.
Definition replay : list Envelope := map envelope (seq 0 300).

Lemma replay_cursorless : Forall cursorless replay.
Proof. apply Forall_forall. intros e (n & <- & _)%in_map_iff. by split. Qed.
Lemma replay_fits : Forall (fits encode) replay.
Proof. apply Forall_forall. intros e _. exists [123; 125]. split; [done|]. by vm_compute. Qed.

Lemma replacement_reaches_view_whole_witness :
  (consume_feed (fun s => s) encode true (replacement encode "snapshot" replay).1 new_assembler).1 =
    Ok ([([], false); ([], false); ([], false)] ++ [(replay, true)]).
Proof.
  pose proof (replacement_reaches_view_whole (fun s => s) encode "snapshot" replay eq_refl replay_cursorless) as W.
  destruct (replacement encode "snapshot" replay) as [ds err] eqn:E. destruct W as [W _].
  destruct (W replay_fits) as (_ & chunks & _ & _ & Hev & Hc & _). cbn [fst]. rewrite Hc.
  assert (length chunks = 2%nat) as L.
  { apply (f_equal length) in Hev. rewrite app_comm_cons, length_app, length_map in Hev. vm_compute in E. injection E as <- <-. cbn in Hev. lia. }
  destruct chunks as [|? [|? [|? ?]]]; [discriminate L|discriminate L|reflexivity|discriminate L].
Defined.

Definition page (n : Z) (l : list Envelope) : FeedDelivery := MkDelivery FeedDeliveryReplacePage FeedSourceReplacement "s" n l "" "".
Definition deliveries : list FeedDelivery :=
  [MkDelivery FeedDeliveryReplaceBegin FeedSourceReplacement "s" 0 [] "" ""; page 0 [envelope 0]; page 1 [envelope 1];
   MkDelivery FeedDeliveryReplaceEnd FeedSourceReplacement "s" 2 [] "" ""].

Lemma accepted_deliveries_are_transactions_witness :
  transcript deliveries [([], false); ([], false); ([], false); ([envelope 0; envelope 1], true)].
Proof.
  apply (accepted_deliveries_are_transactions (fun s => s) encode deliveries _ new_assembler). vm_compute. reflexivity.
Defined.
End Sample.
