(* ===== verification/FeedCursor.v ===== *)
(** Resume cursors of the Session feed (control/appserver/cursor.go): the signed
    token a client hands back, its verification, and what a token proves; first
    the raw URL base64 of the standard library, with its round trip.

    SHA-256 and HMAC-SHA-256 are functions of bytes; [json.Marshal] and
    [json.Unmarshal] of the payload struct are related by their round trip on
    texts that are valid UTF-8.  The codec is not nil. *)

From Stdlib Require Import ZArith Lia Ascii String.
From stdpp Require Import base list strings option.
From S2P Require Import Prelude GoStrings GoText Utf8Stream Runes SpoolFormat GoValues ApprovalSubject Payload FeedTypes.

Open Scope string_scope.
Open Scope list_scope.
Open Scope Z_scope.

(** ** [base64.RawURLEncoding]: decoding skips line breaks and ignores the
    trailing bits *)

Module Base64.
(** The URL alphabet, as character codes. *)
Definition digit (n : Z) : Z :=
  if n <? 26 then 65 + n else if n <? 52 then 97 + (n - 26) else if n <? 62 then 48 + (n - 52) else if n =? 62 then 45 else 95.
Definition value (c : Z) : option Z :=
  if (65 <=? c) && (c <=? 90) then Some (c - 65)
  else if (97 <=? c) && (c <=? 122) then Some (c - 97 + 26)
  else if (48 <=? c) && (c <=? 57) then Some (c - 48 + 52)
  else if c =? 45 then Some 62
  else if c =? 95 then Some 63
  else None.

Fixpoint EncodeToString (l : list Z) : list Z :=
  match l with
  | a :: b :: c :: rest =>
      digit (a / 4) :: digit (a mod 4 * 16 + b / 16) :: digit (b mod 16 * 4 + c / 64) :: digit (c mod 64) :: EncodeToString rest
  | [a; b] => [digit (a / 4); digit (a mod 4 * 16 + b / 16); digit (b mod 16 * 4)]
  | [a] => [digit (a / 4); digit (a mod 4 * 16)]
  | [] => []
  end.

Fixpoint decode_quanta (l : list Z) : option (list Z) :=
  match l with
  | w :: x :: y :: z :: rest =>
      w ← value w; x ← value x; y ← value y; z ← value z; rest ← decode_quanta rest;
      Some (w * 4 + x / 16 :: x mod 16 * 16 + y / 4 :: y mod 4 * 64 + z :: rest)
  | [w; x; y] => w ← value w; x ← value x; y ← value y; Some [w * 4 + x / 16; x mod 16 * 16 + y / 4]
  | [w; x] => w ← value w; x ← value x; Some [w * 4 + x / 16]
  | [_] => None
  | [] => Some []
  end.

Definition line_break (c : Z) : bool := (c =? 10) || (c =? 13).
Definition DecodeString (l : list Z) : option (list Z) := decode_quanta (List.filter (fun c => negb (line_break c)) l).

Lemma value_digit n : 0 <= n < 64 -> value (digit n) = Some n.
Proof.
  intros H. unfold digit. destruct (Z.ltb_spec n 26); [|destruct (Z.ltb_spec n 52); [|destruct (Z.ltb_spec n 62); [|destruct (Z.eqb_spec n 62)]]];
    unfold value; repeat match goal with |- context [?a <=? ?b] => destruct (Z.leb_spec a b) end; cbn; try lia; try (f_equal; lia); subst; done.
Qed.

Lemma digit_plain n : 0 <= n < 64 -> line_break (digit n) = false /\ digit n <> 46.
Proof.
  intros H. unfold digit, line_break. destruct (Z.ltb_spec n 26); [|destruct (Z.ltb_spec n 52); [|destruct (Z.ltb_spec n 62); [|destruct (Z.eqb_spec n 62)]]];
    split; try lia; apply orb_false_iff; split; apply Z.eqb_neq; lia.
Qed.

(** Lists three elements at a time. *)
Lemma list_ind3 (P : list Z -> Prop) :
  P [] -> (forall a, P [a]) -> (forall a b, P [a; b]) -> (forall a b c l, P l -> P (a :: b :: c :: l)) -> forall l, P l.
Proof.
  intros H0 H1 H2 H3. fix IH 1. intros [|a [|b [|c l]]]; [done|apply H1|apply H2|apply H3, IH].
Qed.

(** The six-bit groups of three bytes. *)
Lemma sextets a b c : is_byte a -> is_byte b -> is_byte c ->
  0 <= a / 4 < 64 /\ 0 <= a mod 4 * 16 + b / 16 < 64 /\ 0 <= b mod 16 * 4 + c / 64 < 64 /\ 0 <= c mod 64 < 64 /\
  a / 4 * 4 + (a mod 4 * 16 + b / 16) / 16 = a /\
  (a mod 4 * 16 + b / 16) mod 16 * 16 + (b mod 16 * 4 + c / 64) / 4 = b /\
  (b mod 16 * 4 + c / 64) mod 4 * 64 + c mod 64 = c.
Proof.
  unfold is_byte. intros Ha Hb Hc.
  pose proof (Z.div_mod a 4). pose proof (Z.mod_pos_bound a 4). pose proof (Z.div_mod b 16). pose proof (Z.mod_pos_bound b 16).
  pose proof (Z.div_mod c 64). pose proof (Z.mod_pos_bound c 64).
  assert (0 <= b / 16 < 16) by (split; [apply Z.div_pos|apply Z.div_lt_upper_bound]; lia).
  assert (0 <= c / 64 < 4) by (split; [apply Z.div_pos|apply Z.div_lt_upper_bound]; lia).
  assert (0 <= a / 4 < 64) by (split; [apply Z.div_pos|apply Z.div_lt_upper_bound]; lia).
  rewrite (Z.div_add_l (a mod 4) 16 (b / 16)), (Z.div_small (b / 16) 16), (Z.div_add_l (b mod 16) 4 (c / 64)), (Z.div_small (c / 64) 4) by lia.
  rewrite (Z.add_comm (a mod 4 * 16)), Z.mod_add, (Z.mod_small (b / 16) 16), (Z.add_comm (b mod 16 * 4)), Z.mod_add, (Z.mod_small (c / 64) 4) by lia.
  lia.
Qed.

Lemma encode_plain l : Forall is_byte l -> Forall (fun c => line_break c = false /\ c <> 46) (EncodeToString l).
Proof.
  induction l as [| a | a b | a b c l IH] using list_ind3; intros F; cbn [EncodeToString]; [done|..];
    repeat match goal with H : Forall _ (_ :: _) |- _ => apply Forall_cons_1 in H as [? ?] end.
  - assert (Z0 : is_byte 0) by (unfold is_byte; lia). destruct (sextets a 0 0) as (A & B & _); [done..|]. rewrite Z.add_0_r in B. repeat constructor; by apply digit_plain.
  - assert (Z0 : is_byte 0) by (unfold is_byte; lia). destruct (sextets a b 0) as (A & B & C & _); [done..|]. rewrite Z.add_0_r in C. repeat constructor; by apply digit_plain.
  - destruct (sextets a b c) as (A & B & C & D & _); [done..|]. repeat (constructor; [by apply digit_plain|]). by apply IH.
Qed.

Lemma filter_all (f : Z -> bool) l : Forall (fun c => f c = true) l -> List.filter f l = l.
Proof. induction 1 as [|c l Hc H IH]; [done|]. cbn. by rewrite Hc, IH. Qed.

Theorem decode_encode l : Forall is_byte l -> DecodeString (EncodeToString l) = Some l.
Proof.
  intros F. unfold DecodeString. rewrite filter_all.
  2: { eapply List.Forall_impl; [|apply (encode_plain l F)]. by intros c [-> _]. }
  revert F. induction l as [| a | a b | a b c l IH] using list_ind3; intros F; cbn [EncodeToString decode_quanta]; [done|..];
    repeat match goal with H : Forall _ (_ :: _) |- _ => apply Forall_cons_1 in H as [? ?] end.
  - assert (Z0 : is_byte 0) by (unfold is_byte; lia). destruct (sextets a 0 0) as (A & B & C & D & E1 & _); [done..|]. rewrite Z.add_0_r in *. rewrite !value_digit by done. cbn. by rewrite E1.
  - assert (Z0 : is_byte 0) by (unfold is_byte; lia). destruct (sextets a b 0) as (A & B & C & D & E1 & E2 & _); [done..|]. rewrite Z.add_0_r in *. rewrite !value_digit by done. cbn. by rewrite E1, E2.
  - destruct (sextets a b c) as (A & B & C & D & E1 & E2 & E3); [done..|]. rewrite !value_digit by done. cbn. rewrite IH by done. cbn. by rewrite E1, E2, E3.
Qed.
End Base64.
Export Base64.

(** ** Cursors *)

Definition resumeCursorVersion : Z := 2.
Definition resumeCursorPrefix : string := "c2".
Definition sha256_Size : nat := 32.

Inductive CursorError := ErrInvalidCursor | ErrCursorSessionMismatch | ErrCursorVersion.

Record CursorCodec := MkCursorCodec { secret : list Z; keyID : string }.
Record spoolCursorPayload := MkSpoolCursor { sc_Epoch : string; sc_Incarnation : string; sc_Offset : Z }.
Record resumeCursorPayload := MkResume {
  rc_Version : Z; rc_KeyID : string; rc_SessionID : string; rc_Position : FeedPosition; rc_Spool : option spoolCursorPayload
}.
Record sessionSpoolCursor := MkSpoolPoint { sp_Key : Key; sp_Offset : Z }.

Global Instance spoolCursorPayload_eq_dec : EqDecision spoolCursorPayload.
Proof. solve_decision. Defined.
Global Instance resumeCursorPayload_eq_dec : EqDecision resumeCursorPayload.
Proof. solve_decision. Defined.

Class CursorPlatform := {
  sha256 : list ascii -> list Z;
  hmac_sha256 : list Z -> list Z -> list Z;
  cursor_marshal : resumeCursorPayload -> option (list Z);
  cursor_unmarshal : list Z -> option resumeCursorPayload
}.

(** Texts that JSON carries unchanged. *)
Definition json_text (s : string) : Prop := Valid (bytes_of s) = true.
Record payload_text (p : resumeCursorPayload) : Prop := {
  text_key : json_text (rc_KeyID p);
  text_session : json_text (rc_SessionID p);
  text_generation t : Transient (rc_Position p) = Some t -> json_text (Generation t);
  text_spool s : rc_Spool p = Some s -> json_text (sc_Epoch s) /\ json_text (sc_Incarnation s)
}.

Class CursorPlatformLaws (P : CursorPlatform) : Prop := {
  cursor_json p d : cursor_marshal p = Some d -> payload_text p -> cursor_unmarshal d = Some p;
  cursor_json_bytes p d : cursor_marshal p = Some d -> Forall is_byte d;
  hmac_bytes k d : Forall is_byte (hmac_sha256 k d)
}.

Section Cursor.
Context `{CursorPlatform}.

Definition NewCursorCodec (secret : list Z) (keyID : string) : result CursorError CursorCodec :=
  if (length secret <? sha256_Size)%nat then Fail ErrInvalidCursor
  else
    let keyID := trim_space keyID in
    Ok (MkCursorCodec secret (if (keyID =? "")%string then "default" else keyID)).

Definition signature (c : CursorCodec) (value : list Z) : list Z := hmac_sha256 (secret c) value.

Definition encoded_text (l : list Z) : string := string_of (EncodeToString l).
Definition raw_decoded (s : string) : option (list Z) := DecodeString (bytes_of s).

(** The signed token of a payload. *)
Definition sign_payload (c : CursorCodec) (p : resumeCursorPayload) : result CursorError string :=
  match cursor_marshal p with
  | None => Fail ErrInvalidCursor
  | Some payload =>
      let signed := (resumeCursorPrefix ++ "." ++ encoded_text payload)%string in
      Ok (signed ++ "." ++ encoded_text (signature c (bytes_of signed)))%string
  end.

Definition EncodeSpool (c : CursorCodec) (sessionID : string) (point : sessionSpoolCursor) (position : FeedPosition) : result CursorError string :=
  if (length (secret c) <? sha256_Size)%nat || negb (Namespace (sp_Key point) =? NamespaceSession) then Fail ErrInvalidCursor
  else
    let sessionID := trim_space sessionID in
    if (sessionID =? "")%string || negb (is_ok (ValidatePosition position)) || negb (bool_decide (Digest (sp_Key point) = DigestStrings sha256 [sessionID]))
    then Fail ErrInvalidCursor
    else sign_payload c (MkResume resumeCursorVersion (keyID c) sessionID position
           (Some (MkSpoolCursor (encoded_text (Epoch (sp_Key point))) (encoded_text (Incarnation (sp_Key point))) (sp_Offset point)))).

Definition Encode (c : CursorCodec) (sessionID : string) (position : FeedPosition) : result CursorError string :=
  if (length (secret c) <? sha256_Size)%nat then Fail ErrInvalidCursor
  else
    let sessionID := trim_space sessionID in
    if (sessionID =? "")%string || negb (is_ok (ValidatePosition position)) then Fail ErrInvalidCursor
    else sign_payload c (MkResume resumeCursorVersion (keyID c) sessionID position None).

Definition decode (c : CursorCodec) (expectedSessionID cursor : string) : result CursorError resumeCursorPayload :=
  if (length (secret c) <? sha256_Size)%nat then Fail ErrInvalidCursor
  else
    match Split (trim_space cursor) "." with
    | [prefix; body; sig] =>
        if negb (prefix =? resumeCursorPrefix)%string then Fail ErrCursorVersion
        else
          match raw_decoded body with
          | None => Fail ErrInvalidCursor
          | Some payload =>
              match raw_decoded sig with
              | None => Fail ErrInvalidCursor
              | Some sig =>
                  if negb (bool_decide (sig = signature c (bytes_of (prefix ++ "." ++ body)%string))) then Fail ErrInvalidCursor
                  else
                    match cursor_unmarshal payload with
                    | None => Fail ErrInvalidCursor
                    | Some decoded =>
                        if negb (rc_Version decoded =? resumeCursorVersion) || negb (trim_space (rc_KeyID decoded) =? keyID c)%string
                        then Fail ErrCursorVersion
                        else if negb (trim_space (rc_SessionID decoded) =? trim_space expectedSessionID)%string then Fail ErrCursorSessionMismatch
                        else if negb (is_ok (ValidatePosition (rc_Position decoded))) then Fail ErrInvalidCursor
                        else Ok decoded
                    end
              end
          end
    | _ => Fail ErrInvalidCursor
    end.

Definition Decode (c : CursorCodec) (expectedSessionID cursor : string) : result CursorError FeedPosition :=
  let! decoded := decode c expectedSessionID cursor in Ok (rc_Position decoded).

Definition decodeResume (c : CursorCodec) (expectedSessionID cursor : string) : result CursorError (option sessionSpoolCursor * FeedPosition) :=
  let! decoded := decode c expectedSessionID cursor in
  match rc_Spool decoded with
  | None => Ok (None, rc_Position decoded)
  | Some spool =>
      match raw_decoded (sc_Epoch spool) with
      | None => Fail ErrInvalidCursor
      | Some epoch =>
          if negb (length epoch =? 16)%nat then Fail ErrInvalidCursor
          else
            match raw_decoded (sc_Incarnation spool) with
            | None => Fail ErrInvalidCursor
            | Some incarnation =>
                if negb (length incarnation =? 16)%nat then Fail ErrInvalidCursor
                else Ok (Some (MkSpoolPoint (MkKey NamespaceSession (DigestStrings sha256 [expectedSessionID]) epoch incarnation) (sc_Offset spool)),
                         rc_Position decoded)
            end
      end
  end.

Definition DecodeSpool (c : CursorCodec) (expectedSessionID cursor : string) : result CursorError (sessionSpoolCursor * FeedPosition) :=
  let! r := decodeResume c expectedSessionID cursor in
  match r with (Some point, position) => Ok (point, position) | (None, _) => Fail ErrInvalidCursor end.
End Cursor.
