(* ===== verification/FeedCursorProps.v ===== *)
(** A resume cursor comes back as it was issued, and only a signed cursor of the
    same Session is accepted. *)

From Stdlib Require Import ZArith Lia Ascii String.
From stdpp Require Import base list strings option.
From S2P Require Import Prelude GoStrings GoText Utf8Stream Runes SpoolFormat GoValues TruncateText TruncateTextFacts ApprovalSubject Payload FeedTypes FeedCursor.

Open Scope string_scope.
Open Scope list_scope.
Open Scope Z_scope.

(** ** The text of a token *)

(** Printable characters of ASCII other than the dot. *)
Definition token_char (a : ascii) : Prop := 32 < byte_of a < 127 /\ a <> "."%char.

Lemma ascii_not_ws a : 32 < byte_of a < 127 -> ws1 a = false /\ (forall b, ws2 a b = false) /\ (forall b c, ws3 a b c = false).
Proof.
  unfold byte_of, ws1, ws2, ws3. intros Ha. split; [|split; intros]; repeat case_match; try done; lia.
Qed.

Lemma graphic_spaceless l : Forall (fun a => 32 < byte_of a < 127) l -> spaceless l = true.
Proof.
  induction 1 as [|a l Ha _ IH]; [done|]. cbn [spaceless]. rewrite IH, andb_true_r. destruct (ascii_not_ws a Ha) as (H1 & H2 & H3).
  unfold starts_space. rewrite H1. destruct l as [|b [|c l]]; rewrite ?H2, ?H3; done.
Qed.

Lemma digit_range n : 0 <= n < 64 -> 32 < digit n < 127 /\ digit n <> 46.
Proof.
  intros H. unfold digit. destruct (Z.ltb_spec n 26); [lia|]. destruct (Z.ltb_spec n 52); [lia|]. destruct (Z.ltb_spec n 62); [lia|]. destruct (n =? 62); lia.
Qed.

Lemma encode_range l : Forall is_byte l -> Forall (fun c => 32 < c < 127 /\ c <> 46) (EncodeToString l).
Proof.
  assert (Z0 : is_byte 0) by (unfold is_byte; lia).
  induction l as [| a | a b | a b c l IH] using list_ind3; intros F; cbn [EncodeToString]; [done|..];
    repeat match goal with H : Forall _ (_ :: _) |- _ => apply Forall_cons_1 in H as [? ?] end.
  - destruct (sextets a 0 0) as (A & B & _); [done..|]. rewrite Z.add_0_r in B. repeat constructor; by apply digit_range.
  - destruct (sextets a b 0) as (A & B & C & _); [done..|]. rewrite Z.add_0_r in C. repeat constructor; by apply digit_range.
  - destruct (sextets a b c) as (A & B & C & D & _); [done..|]. repeat (constructor; [by apply digit_range|]). by apply IH.
Qed.

Lemma encoded_token l : Forall is_byte l -> Forall token_char (bytes (encoded_text l)).
Proof.
  intros F. unfold encoded_text, string_of, bytes. rewrite list_ascii_of_string_of_list_ascii. apply Forall_map.
  eapply List.Forall_impl; [|by apply encode_range]. intros c [Hc Hd]. unfold token_char.
  rewrite byte_of_ascii by (unfold is_byte; lia). split; [done|]. intros E. apply Hd. apply (f_equal byte_of) in E.
  by rewrite byte_of_ascii in E by (unfold is_byte; lia).
Qed.

Lemma decoded_encoded l : Forall is_byte l -> raw_decoded (encoded_text l) = Some l.
Proof.
  intros F. unfold raw_decoded, encoded_text. rewrite bytes_of_string; [by apply decode_encode|].
  eapply List.Forall_impl; [|by apply encode_range]. unfold is_byte. lia.
Qed.

Lemma split_at c w word r : c ∉ w -> split_byte c word (w ++ c :: r) = text (word ++ w) :: split_byte c [] r.
Proof.
  revert word. induction w as [|a w IH]; intros word Hw; cbn [app split_byte]; [by rewrite Ascii.eqb_refl, app_nil_r|].
  apply not_elem_of_cons in Hw as [Ha Hw]. destruct (Ascii.eqb_spec a c); [by subst|]. rewrite IH by done. by rewrite <- app_assoc.
Qed.

Lemma split_end c w word : c ∉ w -> split_byte c word w = [text (word ++ w)].
Proof.
  revert word. induction w as [|a w IH]; intros word Hw; cbn [split_byte]; [by rewrite app_nil_r|].
  apply not_elem_of_cons in Hw as [Ha Hw]. destruct (Ascii.eqb_spec a c); [by subst|]. rewrite IH by done. by rewrite <- app_assoc.
Qed.

Lemma token_no_dot l : Forall token_char l -> "."%char ∉ l.
Proof. intros F Hin. rewrite List.Forall_forall in F. apply list_elem_of_In in Hin. by destruct (F _ Hin). Qed.

Lemma bytes_append a b : bytes (a ++ b)%string = bytes a ++ bytes b.
Proof. induction a as [|c a IH]; [done|]. change (c :: bytes (a ++ b)%string = c :: bytes a ++ bytes b). by rewrite IH. Qed.

Lemma append_assoc a b c : ((a ++ b) ++ c = a ++ b ++ c)%string.
Proof. induction a as [|x a IH]; [done|]. exact (f_equal (String x) IH). Qed.

Lemma split_token a b : Forall token_char (bytes a) -> Forall token_char (bytes b) ->
  let s := (resumeCursorPrefix ++ "." ++ a ++ "." ++ b)%string in trim_space s = s /\ Split s "." = [resumeCursorPrefix; a; b].
Proof.
  intros Ha Hb s. split.
  - apply trim_space_word, graphic_spaceless. unfold s. rewrite !bytes_append.
    assert (G : forall l, Forall token_char l -> Forall (fun a => 32 < byte_of a < 127) l) by (intros l F; eapply List.Forall_impl; [|exact F]; by intros ? [? ?]).
    repeat (apply Forall_app; split); auto; repeat constructor.
  - unfold Split, s. rewrite !bytes_append. change (bytes resumeCursorPrefix) with ["c"%char; "2"%char]. change (bytes ".") with ["."%char].
    cbn [app]. change (?c2 :: ?c3 :: ?r) with ([c2; c3] ++ r). rewrite split_at by (rewrite !not_elem_of_cons; repeat split; [done..|apply not_elem_of_nil]).
    rewrite (split_at "." (bytes a)) by by apply token_no_dot. rewrite split_end by by apply token_no_dot. cbn [app]. by rewrite !text_bytes.
Qed.

(** ** Issue and acceptance *)

Section Props.
Context `{L : CursorPlatformLaws}.

Lemma sign_decode c p sessionID cursor :
  (sha256_Size <= length (secret c))%nat -> payload_text p -> sign_payload c p = Ok cursor ->
  rc_Version p = resumeCursorVersion -> trim_space (rc_KeyID p) = keyID c -> ValidatePosition (rc_Position p) = Ok tt ->
  decode c sessionID cursor = if (trim_space (rc_SessionID p) =? trim_space sessionID)%string then Ok p else Fail ErrCursorSessionMismatch.
Proof.
  intros Hs Hp Es Hv Hk Hpos. unfold sign_payload in Es. destruct (cursor_marshal p) as [payload|] eqn:Em; [|done]. injection Es as <-.
  pose proof (cursor_json_bytes _ _ Em) as Bp. unfold decode. destruct (Nat.ltb_spec (length (secret c)) sha256_Size); [lia|].
  set (sig := signature c _). assert (Bs : Forall is_byte sig) by apply hmac_bytes.
  destruct (split_token (encoded_text payload) (encoded_text sig)) as [Ht Hsp]; [by apply encoded_token..|].
  rewrite !append_assoc. rewrite Ht, Hsp. rewrite String.eqb_refl. cbn [negb]. rewrite !decoded_encoded by done.
  rewrite bool_decide_true by done. cbn [negb]. rewrite (cursor_json p payload Em Hp), Hv, Hk, Hpos. rewrite Z.eqb_refl, !String.eqb_refl. cbn.
  by destruct (_ =? _)%string.
Qed.

Lemma encoded_json l : Forall is_byte l -> json_text (encoded_text l).
Proof.
  intros F. unfold json_text, encoded_text. rewrite bytes_of_string.
  - apply ascii_Valid. eapply List.Forall_impl; [|by apply encode_range]. unfold is_ascii. lia.
  - eapply List.Forall_impl; [|by apply encode_range]. unfold is_byte. lia.
Qed.

(** Names of codecs are trimmed and not blank. *)
Lemma NewCursorCodec_ok s k c : NewCursorCodec s k = Ok c -> (sha256_Size <= length (secret c))%nat /\ secret c = s /\ trim_space (keyID c) = keyID c.
Proof.
  unfold NewCursorCodec. destruct (Nat.ltb_spec (length s) sha256_Size); [done|]. intros [= <-]. cbn. split_and!; [lia|done|].
  destruct (String.eqb_spec (trim_space k) ""); [done|apply trim_space_idem].
Qed.

Record point_ok (point : sessionSpoolCursor) : Prop := {
  point_key : key_wf (sp_Key point);
  point_epoch : Forall is_byte (Epoch (sp_Key point));
  point_incarnation : Forall is_byte (Incarnation (sp_Key point))
}.

Lemma digest_trim sessionID : DigestStrings sha256 [trim_space sessionID] = DigestStrings sha256 [sessionID].
Proof. unfold DigestStrings, digest_preimage. cbn. by rewrite trim_space_idem. Qed.

(** C20: A resume cursor comes back as it was issued, to its own Session only.
    When the codec issues a cursor for a spool offset and a feed position, it
    later resolves it, for the same Session, to exactly that offset of exactly
    that partition and to that position, and refuses it for every other
    Session. *)
Theorem cursor_roundtrip s k c sessionID point position cursor :
  NewCursorCodec s k = Ok c -> point_ok point -> json_text (keyID c) -> json_text (trim_space sessionID) ->
  (forall t, Transient position = Some t -> json_text (Generation t)) ->
  EncodeSpool c sessionID point position = Ok cursor ->
  decodeResume c sessionID cursor = Ok (Some point, position) /\
  forall other, trim_space other <> trim_space sessionID -> decodeResume c other cursor = Fail ErrCursorSessionMismatch.
Proof.
  intros Hc [(_ & _ & He & Hi) Be Bi] Tk Ts Tg E. apply NewCursorCodec_ok in Hc as (Hlen & _ & Hk). unfold EncodeSpool in E.
  destruct (_ || _) eqn:G1; [done|]. apply orb_false_iff in G1 as [_ G1%negb_false_iff%Z.eqb_eq].
  destruct (_ || _ || _) eqn:G2; [done|]. apply orb_false_iff in G2 as [[_ G2%negb_false_iff]%orb_false_iff G3%negb_false_iff%bool_decide_eq_true].
  assert (Hpos : ValidatePosition position = Ok tt) by (destruct (ValidatePosition position) as [[]|]; done). rewrite digest_trim in G3.
  set (p := MkResume _ _ _ _ _) in E. assert (Tp : payload_text p) by (split; cbn; [done..|intros ? [= <-]; cbn; by split; apply encoded_json]).
  assert (D : forall other, decode c other cursor = if (trim_space (trim_space sessionID) =? trim_space other)%string then Ok p else Fail ErrCursorSessionMismatch).
  { intros other. by apply (sign_decode c p). }
  unfold decodeResume. split.
  - rewrite D, trim_space_idem, String.eqb_refl. cbn -[raw_decoded encoded_text]. rewrite decoded_encoded, He by done.
    cbn -[raw_decoded encoded_text]. rewrite decoded_encoded, Hi by done. cbn.
    rewrite <- G3. destruct point as [[n d e i] o]. cbn in *. by subst.
  - intros other Ho. rewrite D, trim_space_idem. destruct (String.eqb_spec (trim_space sessionID) (trim_space other)); [by subst|done].
Qed.
End Props.

(** What an accepted token is: three parts whose last is the MAC of the first
    two under the codec's secret, and whose payload is the answer. *)
Lemma decode_authentic `{CursorPlatform} c sessionID cursor p :
  decode c sessionID cursor = Ok p ->
  exists body sig payload,
    Split (trim_space cursor) "." = [resumeCursorPrefix; body; sig] /\ raw_decoded body = Some payload /\ cursor_unmarshal payload = Some p /\
    raw_decoded sig = Some (hmac_sha256 (secret c) (bytes_of (resumeCursorPrefix ++ "." ++ body)%string)) /\
    rc_Version p = resumeCursorVersion /\ trim_space (rc_KeyID p) = keyID c /\ trim_space (rc_SessionID p) = trim_space sessionID /\
    ValidatePosition (rc_Position p) = Ok tt.
Proof.
  unfold decode. destruct (_ <? _)%nat; [done|]. destruct (Split _ _) as [|prefix [|body [|sig [|? ?]]]] eqn:Es; try done.
  destruct (String.eqb_spec prefix resumeCursorPrefix) as [->|]; [|done]. cbn [negb].
  destruct (raw_decoded body) as [payload|] eqn:Eb; [|done]. destruct (raw_decoded sig) as [mac|] eqn:Em; [|done].
  case_bool_decide as Hm; [|done]. cbn [negb]. destruct (cursor_unmarshal payload) as [q|] eqn:Ep; [|done].
  destruct (_ || _) eqn:G; [done|]. apply orb_false_iff in G as [G1%negb_false_iff%Z.eqb_eq G2%negb_false_iff%String.eqb_eq].
  destruct (String.eqb_spec (trim_space (rc_SessionID q)) (trim_space sessionID)) as [G3|]; [|done]. cbn [negb].
  destruct (ValidatePosition (rc_Position q)) as [[]|] eqn:Gp; [|done]. intros [= <-]. exists body, sig, payload. subst mac. by split_and!.
Qed.

(** ** One Session's cursor *)

Module Sample.
Definition key : Key := MkKey NamespaceSession (replicate 32 7) (replicate 16 1) (replicate 16 2).
Definition point : sessionSpoolCursor := MkSpoolPoint key 5.
Definition position : FeedPosition := at_transient (MkTransient (MkDurable 4 0) "generation" 6).
Definition issued : resumeCursorPayload :=
  MkResume 2 "default" "session" position (Some (MkSpoolCursor (encoded_text (Epoch key)) (encoded_text (Incarnation key)) 5)).

(** JSON of this one payload; digests that ignore their input. *)
#[local] Instance platform : CursorPlatform := {
  sha256 _ := replicate 32 7;
  hmac_sha256 _ _ := replicate 32 1;
  cursor_marshal p := if decide (p = issued) then Some [123; 125] else None;
  cursor_unmarshal d := if decide (d = [123; 125]) then Some issued else None
}.

Lemma bytes_replicate n b : is_byte b -> Forall is_byte (replicate n b).
Proof. intros Hb. apply Forall_replicate, Hb. Qed.

#[local] Instance platform_laws : CursorPlatformLaws platform.
Proof.
  split; cbn.
  - intros p d. case_decide; [|done]. intros [= <-] _. subst. by vm_compute.
  - intros p d. case_decide; [|done]. intros [= <-]. repeat constructor; unfold is_byte; lia.
  - intros _ _. apply (bytes_replicate 32 1). unfold is_byte. lia.
Qed.

Definition secret_bytes : list Z := replicate 32 9.
Definition codec : CursorCodec := MkCursorCodec secret_bytes "default".

Lemma cursor_roundtrip_witness :
  exists cursor, EncodeSpool codec "session" point position = Ok cursor /\ decodeResume codec "session" cursor = Ok (Some point, position) /\
    decodeResume codec "other" cursor = Fail ErrCursorSessionMismatch.
Proof.
  eexists. split; [vm_compute; reflexivity|].
  edestruct (cursor_roundtrip secret_bytes "" codec "session" point position) as [H1 H2];
    [reflexivity|split; [split; [split; vm_compute; [discriminate|reflexivity]|split; [reflexivity|split; reflexivity]]|apply (bytes_replicate 16 1); unfold is_byte; lia|
       apply (bytes_replicate 16 2); unfold is_byte; lia]|vm_compute; reflexivity|vm_compute; reflexivity|intros t Ht; injection Ht as <-; vm_compute; reflexivity|
     vm_compute; reflexivity|].
  split; [exact H1|]. apply H2. vm_compute. discriminate.
Defined.
End Sample.
