(* ===== verification/FeedProjection.v ===== *)
(** From a durable Session event to its feed envelopes: the positions they are
    stamped with, the content already delivered live, the mirrors left out of
    the feed (control/appserver/projection/gateway.go, projection_identity.go,
    control/appserver/feed_filter.go, feed_content.go).

    What an event projects to before positions are stamped — its base envelope
    and the ACP content — is the interface [Projector]. *)

From Stdlib Require Import ZArith Lia Ascii String.
From stdpp Require Import base list strings option gmap.
From S2P Require Import Prelude GoStrings GoText Decimal Fence Execution Utf8Stream Runes GoValues ApprovalSubject Payload Events SessionCodec SpoolFormat.
From S2P Require Import FeedTypes FeedCursor.

Open Scope string_scope.
Open Scope list_scope.
Open Scope Z_scope.

(** ** Runtime metadata ([internal/eventmeta]) *)

Definition CloneMap (m : GoMap) : GoMap := match m with Some (_ :: _) => m | _ => None end.
Definition mapAt (m : GoMap) (key : string) : GoMap := map_index m key ≫= as_object.
Definition map_items (m : GoMap) : list (string * GoValue) := default [] m.
Definition none_if_empty (l : list (string * GoValue)) : GoMap := match l with [] => None | _ => Some l end.
Definition set_or_delete (key : string) (value items : list (string * GoValue)) : list (string * GoValue) :=
  match value with [] => map_delete key items | _ => map_set key (go_object value) items end.

Definition WithoutRuntimeSectionKeys (meta : GoMap) (section : string) (keys : list string) : GoMap :=
  let out := CloneMap meta in
  match out with
  | None => out
  | Some items =>
      if (section =? "")%string || bool_decide (keys = []) then out
      else
        let caelis := CloneMap (mapAt out "caelis") in
        let runtime := CloneMap (mapAt caelis "runtime") in
        match CloneMap (mapAt runtime section) with
        | None => out
        | Some sectionMap =>
            let sectionMap := fold_left (fun m key => map_delete key m) keys sectionMap in
            let runtime := set_or_delete section sectionMap (map_items runtime) in
            let caelis := set_or_delete "runtime" runtime (map_items caelis) in
            none_if_empty (set_or_delete "caelis" caelis items)
        end
  end.

Definition WithoutTerminalOutput (meta : GoMap) : GoMap :=
  none_if_empty (map_delete "terminal_output_delta" (map_delete "terminal_output" (map_items (CloneMap meta)))).

Definition withoutPublishedTerminalContent (meta : GoMap) : GoMap :=
  WithoutRuntimeSectionKeys (WithoutTerminalOutput meta) "task" ["output_delta"].

(** ** Published content ([agent-sdk/source_event.go]) *)

Definition PublishedAssistantMessage : Z := 1.
Definition PublishedAssistantThought : Z := 2.
Definition PublishedTerminal : Z := 4.
Definition Has (p content : Z) : bool := negb (content =? 0) && (Z.land p content =? content).

Section Projection.
Context `{AcpTypes} `{P : Platform}.

(** What a stored event projects to, before positions: the base envelope of a
    Session's event, and the content projected onto it. *)
Class Projector := { projected_content : SessionRef -> Event Payload -> list Envelope }.
Context `{Projector}.

Definition projectionIDPrefix : string := "acp-projection:".
Definition formatProjectionID (eventID : string) (index : Z) : string :=
  (projectionIDPrefix ++ encoded_text (bytes_of (trim_space eventID)) ++ ":" ++ FormatInt index)%string.

Definition demoteUnpositionedDurableProjections (events : list Envelope) : list Envelope :=
  map (fun e => match Delivery e with
                | Some mode => if is_durable_mode mode then set_Position None (set_Delivery (Some DeliveryTransient) e) else e
                | None => e
                end) events.

Definition stamp_one (event : Event Payload) (index : nat) (e : Envelope) : Envelope :=
  set_Position (Some (at_durable (MkDurable (ev_Seq event) (Z.of_nat index mod 4294967296))))
    (set_ProjectionID (formatProjectionID (ev_ID event) (Z.of_nat index)) (set_EventID (trim_space (ev_ID event)) e)).

Definition stampDurableProjectionPositions (event : Event Payload) (events : list Envelope) : list Envelope :=
  match events with
  | [] => []
  | _ =>
      if (ev_Seq event =? 0) || (trim_space (ev_ID event) =? "")%string then demoteUnpositionedDurableProjections events
      else imap (stamp_one event) events
  end.

(** [EnvelopeBaseFromSessionEvent] and [ProjectSessionEventEnvelope], together. *)
Definition projectSessionEvent (ref : SessionRef) (event : Event Payload) : list Envelope :=
  stampDurableProjectionPositions event (projected_content ref event).

(** [isLiveStreamingNarrativeEvent] and the [Final] field of the base envelope. *)
Definition isLiveStreamingNarrativeEvent (event : Event Payload) : bool :=
  let durableChildMirror := IsMirror event && bool_decide (is_Some (pl_ChildOrigin (ev_Body event))) in
  if negb (trim_space (ev_ID event) =? "")%string && negb durableChildMirror then false
  else if bool_decide (pl_Scope (ev_Body event) = None) && negb durableChildMirror then false
  else
    let updateType := trim_space (ProtocolSessionUpdateType event) in
    let updateType := match pl_Scope (ev_Body event) with
                      | Some scope => if (updateType =? "")%string then trim_space (ar_EventType (sc_ACP scope)) else updateType
                      | None => updateType
                      end in
    ((updateType =? ProtocolUpdateTypeAgentMessage) || (updateType =? ProtocolUpdateTypeAgentThought))%string.

Definition base_Final (event : Event Payload) : bool := negb (ev_Visibility event =? VisibilityUIOnly)%string && negb (isLiveStreamingNarrativeEvent event).

Definition suppressHistoricalChildStreamMirror (event : Event Payload) : bool :=
  if negb (IsMirror event) || bool_decide (pl_ChildOrigin (ev_Body event) = None) then false
  else if negb (trim_space (ev_ApprovalRequestID event) =? "")%string then false
  else if match pl_Protocol (ev_Body event) with Some p => (trim_space (ep_Method p) =? ProtocolMethodRequestPermission)%string | None => false end then false
  else negb (SessionEventTypeOf event =? EventTypeParticipant)%string.

(** ** Live narratives *)

Definition acp_update_type (u : Update) : string :=
  trim_space match u with
             | UContentChunk u => ch_SessionUpdate u
             | UToolCall u => ts_SessionUpdate u
             | UToolCallUpdate u => tu_SessionUpdate u
             | UPlan u => pn_SessionUpdate u
             | UUsage u => us_SessionUpdate u
             | URaw u => rw_SessionUpdate u
             end.

(** [None] is an envelope left out. *)
Definition without_published (published : Z) (e : Envelope) : option Envelope :=
  match UpdateOf e with
  | Some (UContentChunk u) =>
      let t := acp_update_type (UContentChunk u) in
      if (t =? UpdateAgentMessage)%string && Has published PublishedAssistantMessage then None
      else if (t =? UpdateAgentThought)%string && Has published PublishedAssistantThought then None
      else Some e
  | Some (UToolCall u) =>
      if Has published PublishedTerminal then
        let u := MkToolCallStart (ts_PreviouslyObserved u) (ts_SessionUpdate u) (ts_ToolCallID u) (ts_Name u) (ts_Title u) (ts_Kind u) (ts_Status u)
                   (ts_RawInput u) (ts_RawOutput u) (ts_Content u) (ts_Locations u) (withoutPublishedTerminalContent (ts_Meta u)) in
        Some (set_Update (Some (UToolCall u)) (set_EnvelopeMeta (withoutPublishedTerminalContent (Meta e)) e))
      else Some e
  | Some (UToolCallUpdate u) =>
      if Has published PublishedTerminal then
        let u := MkToolCallUpdate (tu_PreviouslyObserved u) (tu_SessionUpdate u) (tu_ToolCallID u) (tu_Name u) (tu_Title u) (tu_Kind u) (tu_Status u)
                   (tu_RawInput u) (tu_RawOutput u) (tu_Content u) (tu_Locations u) (withoutPublishedTerminalContent (tu_Meta u)) (tu_ReplacedFields u) in
        Some (set_Update (Some (UToolCallUpdate u)) (set_EnvelopeMeta (withoutPublishedTerminalContent (Meta e)) e))
      else Some e
  | _ => Some e
  end.

Definition WithoutPublishedContent (events : list Envelope) (published : Z) : list Envelope :=
  if published =? 0 then events else omap (without_published published) events.

(** The fields of [feedNarrativeKey], in order: scope, scope ID, participant ID,
    turn ID, message ID, content. *)
Definition feedNarrativeKey : Type := string * string * string * string * string * Z.
Definition narrative_key (owner : string * string * string * string) (messageID : string) (content : Z) : feedNarrativeKey :=
  (owner, messageID, content).

(** [narrativeFeedOwner]: the first four. *)
Definition narrativeFeedOwner (e : Envelope) : string * string * string * string :=
  let scope := if (Scope e =? "")%string then ScopeMain else Scope e in
  let participantID := trim_space (ParticipantID e) in
  let turnID := trim_space (TurnID e) in
  let scopeID := trim_space (ScopeID e) in
  if negb (scope =? ScopeMain)%string then (scope, scopeID, participantID, turnID)
  else if negb (scopeID =? "")%string && negb (scopeID =? trim_space (SessionID e))%string then (scope, ""%string, participantID, scopeID)
  else (scope, ""%string, participantID, turnID).

Definition narrative_content (sessionUpdate : string) : option Z :=
  if (sessionUpdate =? UpdateAgentMessage)%string then Some PublishedAssistantMessage
  else if (sessionUpdate =? UpdateAgentThought)%string then Some PublishedAssistantThought
  else None.

Definition narrativeFeedKey (e : Envelope) : option feedNarrativeKey :=
  match UpdateOf e with
  | Some (UContentChunk chunk) =>
      if (trim_space (ch_MessageID chunk) =? "")%string then None
      else
        content ← narrative_content (ch_SessionUpdate chunk);
        Some (narrative_key (narrativeFeedOwner e) (trim_space (ch_MessageID chunk)) content)
  | _ => None
  end.
End Projection.
