(* ===== verification/FeedBroker.v ===== *)
(** The Session feed's broker (control/appserver/feed_broker.go, feed_content.go):
    one Session's producer side.  Every accepted envelope is stamped with a
    position and a cursor and appended to the Session's spool partition;
    [Prime] fills in what the Session store committed and no producer
    published.

    The spool writer and the paged Session reader are interfaces; a context is
    cancelled only by the reader's failing.  [clock offset] is the time read for
    the record of that offset.  Each operation runs as a whole: the broker's
    mutexes order them. *)

From Stdlib Require Import ZArith Lia Ascii String.
From stdpp Require Import base list strings option gmap.
From S2P Require Import Prelude GoStrings GoText Fence Execution GoValues ApprovalSubject Payload Events SessionCodec SpoolFormat SpoolStore.
From S2P Require Import HistoryIndex FeedTypes FeedCursor FeedProjection.

Open Scope string_scope.
Open Scope list_scope.
Open Scope Z_scope.

(** ** Interfaces *)

(** [streamspool.Writer], as the broker uses it; a failed append may still have
    written its record. *)
Class SpoolWriter (W : Type) := {
  writer_bounds : W -> result StoreError Bounds;
  writer_append : Z -> Z -> list Z -> W -> result StoreError Z * W;
  writer_seal : W -> option StoreError * W;
  writer_close : W -> option StoreError * W
}.

(** Why the broker gave its spool up. *)
Inductive SpoolFault := StoreFault (e : StoreError) | CursorFault (e : CursorError) | EncodingFault.

Inductive BrokerError :=
| BrokerClosed
| InvalidEnvelope (e : DeliveryError)
| WrongSession (sessionID : string)
| ReaderFailed (e : SessionError)
| DurableGap (seq : Z)
| OutOfFuel.

Definition sessionEnvelopeRecordType : Z := 1.

(** [sessionSpoolGeneration]. *)
Definition hex_text (l : list Z) : string := text (concat (map (fun b => put_hex 2 b) l)).
Definition sessionSpoolGeneration (key : Key) : string := (hex_text (Epoch key) ++ "." ++ hex_text (Incarnation key))%string.

Section Broker.
Context {Acp : AcpTypes} {P : Platform} {Cp : CursorPlatform} {Pj : Projector} {W : Type} {Sw : SpoolWriter W}.
Context (codec : CursorCodec) (Marshal : Envelope -> option (list Z)) (clock : Z -> Z).

(** A subscriber's slot for one terminal result, and the Turn whose terminal it
    delivered last. *)
Record Terminals := MkTerminals {
  offered : option Envelope; lastTerminalHandle : string; lastTerminalRun : string; lastTerminalTurn : string
}.

Record FeedBroker := MkBroker {
  bk_ref : SessionRef; bk_writer : option W; bk_key : Key; bk_latestDurable : DurableFeedPosition; bk_scannedSeq : Z;
  bk_spoolErr : option SpoolFault; bk_lastTerminal : option Envelope; bk_sealed : bool; bk_writerSealed : bool;
  bk_closed : bool; bk_liveNarratives : gmap feedNarrativeKey string; bk_histories : Cache; bk_subs : gmap nat Terminals
}.

Definition set_writer (v : option W) (b : FeedBroker) : FeedBroker :=
  MkBroker (bk_ref b) v (bk_key b) (bk_latestDurable b) (bk_scannedSeq b) (bk_spoolErr b) (bk_lastTerminal b) (bk_sealed b)
    (bk_writerSealed b) (bk_closed b) (bk_liveNarratives b) (bk_histories b) (bk_subs b).
Definition set_key (v : Key) (b : FeedBroker) : FeedBroker :=
  MkBroker (bk_ref b) (bk_writer b) v (bk_latestDurable b) (bk_scannedSeq b) (bk_spoolErr b) (bk_lastTerminal b) (bk_sealed b)
    (bk_writerSealed b) (bk_closed b) (bk_liveNarratives b) (bk_histories b) (bk_subs b).
Definition set_latestDurable (v : DurableFeedPosition) (b : FeedBroker) : FeedBroker :=
  MkBroker (bk_ref b) (bk_writer b) (bk_key b) v (bk_scannedSeq b) (bk_spoolErr b) (bk_lastTerminal b) (bk_sealed b)
    (bk_writerSealed b) (bk_closed b) (bk_liveNarratives b) (bk_histories b) (bk_subs b).
Definition set_scannedSeq (v : Z) (b : FeedBroker) : FeedBroker :=
  MkBroker (bk_ref b) (bk_writer b) (bk_key b) (bk_latestDurable b) v (bk_spoolErr b) (bk_lastTerminal b) (bk_sealed b)
    (bk_writerSealed b) (bk_closed b) (bk_liveNarratives b) (bk_histories b) (bk_subs b).
Definition set_spoolErr (v : option SpoolFault) (b : FeedBroker) : FeedBroker :=
  MkBroker (bk_ref b) (bk_writer b) (bk_key b) (bk_latestDurable b) (bk_scannedSeq b) v (bk_lastTerminal b) (bk_sealed b)
    (bk_writerSealed b) (bk_closed b) (bk_liveNarratives b) (bk_histories b) (bk_subs b).
Definition set_lastTerminal (v : option Envelope) (b : FeedBroker) : FeedBroker :=
  MkBroker (bk_ref b) (bk_writer b) (bk_key b) (bk_latestDurable b) (bk_scannedSeq b) (bk_spoolErr b) v (bk_sealed b)
    (bk_writerSealed b) (bk_closed b) (bk_liveNarratives b) (bk_histories b) (bk_subs b).
Definition set_sealed (v : bool) (b : FeedBroker) : FeedBroker :=
  MkBroker (bk_ref b) (bk_writer b) (bk_key b) (bk_latestDurable b) (bk_scannedSeq b) (bk_spoolErr b) (bk_lastTerminal b) v
    (bk_writerSealed b) (bk_closed b) (bk_liveNarratives b) (bk_histories b) (bk_subs b).
Definition set_writerSealed (v : bool) (b : FeedBroker) : FeedBroker :=
  MkBroker (bk_ref b) (bk_writer b) (bk_key b) (bk_latestDurable b) (bk_scannedSeq b) (bk_spoolErr b) (bk_lastTerminal b)
    (bk_sealed b) v (bk_closed b) (bk_liveNarratives b) (bk_histories b) (bk_subs b).
Definition set_closed (v : bool) (b : FeedBroker) : FeedBroker :=
  MkBroker (bk_ref b) (bk_writer b) (bk_key b) (bk_latestDurable b) (bk_scannedSeq b) (bk_spoolErr b) (bk_lastTerminal b)
    (bk_sealed b) (bk_writerSealed b) v (bk_liveNarratives b) (bk_histories b) (bk_subs b).
Definition set_liveNarratives (v : gmap feedNarrativeKey string) (b : FeedBroker) : FeedBroker :=
  MkBroker (bk_ref b) (bk_writer b) (bk_key b) (bk_latestDurable b) (bk_scannedSeq b) (bk_spoolErr b) (bk_lastTerminal b)
    (bk_sealed b) (bk_writerSealed b) (bk_closed b) v (bk_histories b) (bk_subs b).
Definition set_histories (v : Cache) (b : FeedBroker) : FeedBroker :=
  MkBroker (bk_ref b) (bk_writer b) (bk_key b) (bk_latestDurable b) (bk_scannedSeq b) (bk_spoolErr b) (bk_lastTerminal b)
    (bk_sealed b) (bk_writerSealed b) (bk_closed b) (bk_liveNarratives b) v (bk_subs b).
Definition set_subs (v : gmap nat Terminals) (b : FeedBroker) : FeedBroker :=
  MkBroker (bk_ref b) (bk_writer b) (bk_key b) (bk_latestDurable b) (bk_scannedSeq b) (bk_spoolErr b) (bk_lastTerminal b)
    (bk_sealed b) (bk_writerSealed b) (bk_closed b) (bk_liveNarratives b) (bk_histories b) v.

(** ** Terminals *)

Definition turn_identity (e : Envelope) : string * string * string := (trim_space (HandleID e), trim_space (RunID e), trim_space (TurnID e)).
Definition sameTurnIdentity (left right : Envelope) : bool := bool_decide (turn_identity left = turn_identity right).

Definition terminalDelivered (e : Envelope) (t : Terminals) : bool :=
  negb (bool_decide (turn_identity e = ("", "", "")%string)) &&
  bool_decide (turn_identity e = (lastTerminalHandle t, lastTerminalRun t, lastTerminalTurn t)).

(** The channel holds one envelope; a full one is emptied first. *)
Definition offerTerminal (e : Envelope) (t : Terminals) : Terminals :=
  if negb (isMainTerminalEnvelope to_lower e) || terminalDelivered e t then t
  else MkTerminals (Some e) (lastTerminalHandle t) (lastTerminalRun t) (lastTerminalTurn t).

Definition offerTerminalFallbackLocked (b : FeedBroker) : FeedBroker :=
  match bk_lastTerminal b with
  | None => b
  | Some e => set_subs (offerTerminal e <$> bk_subs b) b
  end.

Definition as_result (e : Envelope) : Envelope := set_Delivery (Some DeliveryTransient) (set_Position None (set_Cursor "" e)).

Definition noteTerminalLocked (e : Envelope) (b : FeedBroker) : FeedBroker :=
  if isMainTerminalEnvelope to_lower e then set_lastTerminal (Some (as_result e)) b
  else
    match bk_lastTerminal b with
    | None => b
    | Some last =>
        if (Scope e =? ScopeSubagent)%string || (Scope e =? ScopeParticipant)%string || sameTurnIdentity last e then b
        else if bool_decide (turn_identity e = ("", "", "")%string) then b
        else set_lastTerminal None b
    end.

(** ** Accepting an envelope *)

Definition acceptDurableLocked (e : Envelope) (b : FeedBroker) : FeedBroker :=
  match durable_of e with
  | None => b
  | Some d => set_scannedSeq (Z.max (bk_scannedSeq b) (Seq d)) (set_latestDurable d b)
  end.

Definition acceptWithoutSpoolLocked (e : Envelope) (b : FeedBroker) : FeedBroker :=
  let b := acceptDurableLocked e b in
  if isMainTerminalEnvelope to_lower e then offerTerminalFallbackLocked b else b.

Definition disableSpoolLocked (fault : SpoolFault) (b : FeedBroker) : FeedBroker :=
  match bk_spoolErr b with
  | Some _ => b
  | None => set_liveNarratives ∅ (set_spoolErr (Some fault) b)
  end.

Definition ends_narratives (e : Envelope) : bool :=
  match LifecycleOf e with
  | None => false
  | Some l => (Kind e =? KindLifecycle)%string && IsTerminalLifecycleState to_lower (State l) && (ApprovalRequestID e =? "")%string
  end.

(** The narratives of one owner, for the Turn delivered. *)
Definition owned_by (owner : string * string * string * string) (turn : string) (entry : feedNarrativeKey * string) : bool :=
  let '(scope, scopeID, participantID, _, _, _) := entry.1 in
  let '(scope', scopeID', participantID', _) := owner in
  (scope =? scope')%string && (scopeID =? scopeID')%string && (participantID =? participantID')%string && (entry.2 =? turn)%string.

Definition observeLiveNarrativeLocked (e : Envelope) (b : FeedBroker) : FeedBroker :=
  if ends_narratives e then
    set_liveNarratives (filter (fun entry => ~ owned_by (narrativeFeedOwner e) (trim_space (TurnID e)) entry) (bk_liveNarratives b)) b
  else if isDurableFeedEnvelope e then b
  else
    match narrativeFeedKey e with
    | Some key => set_liveNarratives (<[key := trim_space (TurnID e)]> (bk_liveNarratives b)) b
    | None => b
    end.

(** The record just accepted is indexed for bounded history. *)
Definition indexAcceptedHistory (e : Envelope) (offset : Z) (b : FeedBroker) : FeedBroker :=
  let '(entry, cache) := Get (sessionSpoolGeneration (bk_key b)) (bk_histories b) in
  let index := entry_index entry cache in
  if negb (High index =? offset) then set_histories cache b
  else
    let index := if (Scope e =? "")%string || (Scope e =? ScopeMain)%string then default index (Observe offset (TurnID e) index) else index in
    set_histories (set_entry entry (mkIndex (u64_succ offset) (turns index) (byID index) (last index)) cache) b.

Definition default_session (b : FeedBroker) (e : Envelope) : Envelope :=
  if (trim_space (SessionID e) =? "")%string then set_EnvelopeSession (Fence.SessionID (bk_ref b)) e else e.

(** Transient envelopes get their position here. *)
Definition positioned (offset : Z) (b : FeedBroker) (e : Envelope) : Envelope :=
  match Delivery e with
  | Some mode =>
      if is_transient_mode mode then
        set_Position (Some (at_transient (MkTransient (bk_latestDurable b) (sessionSpoolGeneration (bk_key b)) (u64_succ offset))))
          (set_Delivery (Some DeliveryTransient) e)
      else e
  | None =>
      set_Position (Some (at_transient (MkTransient (bk_latestDurable b) (sessionSpoolGeneration (bk_key b)) (u64_succ offset))))
        (set_Delivery (Some DeliveryTransient) e)
  end.

Definition degrade (fault : SpoolFault) (e : Envelope) (b : FeedBroker) : FeedBroker := acceptWithoutSpoolLocked e (disableSpoolLocked fault b).

(** The envelope as appended, and its encoding; a durable envelope has a
    position once it is valid. *)
Definition prepare (offset : Z) (b : FeedBroker) (e : Envelope) : Envelope * result SpoolFault (list Z) :=
  let e := positioned offset b e in
  match Position e with
  | None => (e, Fail EncodingFault)
  | Some position =>
      match EncodeSpool codec (Fence.SessionID (bk_ref b)) (MkSpoolPoint (bk_key b) (u64_succ offset)) position with
      | Fail err => (e, Fail (CursorFault err))
      | Ok cursor =>
          let e := set_Cursor cursor e in
          (e, match Marshal e with None => Fail EncodingFault | Some payload => Ok payload end)
      end
  end.

(** Between the checks and the end of [publishAccepted]: the spool's part. *)
Definition append_accepted (e : Envelope) (b : FeedBroker) : FeedBroker :=
  match bk_writer b, bk_spoolErr b with
  | Some w, None =>
      match writer_bounds w with
      | Fail err => degrade (StoreFault err) e b
      | Ok bounds =>
          let offset := b_High bounds in
          match prepare offset b e with
          | (e, Fail fault) => degrade fault e b
          | (e, Ok payload) =>
              let '(appended, w) := writer_append sessionEnvelopeRecordType (clock offset) payload w in
              let b := set_writer (Some w) b in
              match appended with
              | Fail err => degrade (StoreFault err) e b
              | Ok _ => observeLiveNarrativeLocked e (acceptDurableLocked e (indexAcceptedHistory e offset b))
              end
          end
      end
  | _, _ => acceptWithoutSpoolLocked e b
  end.

Definition publishAccepted (e : Envelope) (b : FeedBroker) : result BrokerError unit * FeedBroker :=
  if bk_closed b || bk_sealed b then (Fail BrokerClosed, b)
  else
    let e := default_session b e in
    if negb (trim_space (SessionID e) =? Fence.SessionID (bk_ref b))%string then (Fail (WrongSession (SessionID e)), b)
    else
      match ValidateEnvelopeDelivery e with
      | Fail err => (Fail (InvalidEnvelope err), b)
      | Ok _ =>
          let b := noteTerminalLocked e b in
          match durable_of e with
          | Some d => if compareDurablePosition d (bk_latestDurable b) <=? 0 then (Ok tt, b) else (Ok tt, append_accepted e b)
          | None => (Ok tt, append_accepted e b)
          end
      end.

Fixpoint publish_all (events : list Envelope) (b : FeedBroker) : result BrokerError unit * FeedBroker :=
  match events with
  | [] => (Ok tt, b)
  | e :: events =>
      match publishAccepted e b with
      | (Fail err, b) => (Fail err, b)
      | (Ok _, b) => publish_all events b
      end
  end.

(** ** Catching up with the Session store *)

Definition owned_content (live : gmap feedNarrativeKey string) (final : bool) (complete : list Envelope) : Z :=
  if final then
    fold_left (fun published e => match narrativeFeedKey e with
                                  | Some key => if bool_decide (is_Some (live !! key)) then Z.lor published key.2 else published
                                  | None => published
                                  end) complete 0
  else 0.

(** The durable boundary moves past suppressed content too. *)
Definition settle_catchup (final : bool) (e : Envelope) (b : FeedBroker) : FeedBroker :=
  let b := match durable_of e with
           | Some d => if 0 <? compareDurablePosition d (bk_latestDurable b) then acceptDurableLocked e b else b
           | None => b
           end in
  match narrativeFeedKey e with
  | Some key => if final then set_liveNarratives (delete key (bk_liveNarratives b)) b else b
  | None => b
  end.

Definition publishCanonicalCatchup (event : Event Payload) (b : FeedBroker) : result BrokerError unit * FeedBroker :=
  let complete := projectSessionEvent (bk_ref b) event in
  let final := base_Final event in
  let published := owned_content (bk_liveNarratives b) final complete in
  match publish_all (filter (fun e => isDurableFeedEnvelope e) (WithoutPublishedContent complete published)) b with
  | (Fail err, b) => (Fail err, b)
  | (Ok _, b) =>
      if bk_closed b || bk_sealed b then (Fail BrokerClosed, b)
      else (Ok tt, fold_left (fun b e => settle_catchup final e b) complete b)
  end.

(** The events of one page; the highest sequence seen. *)
Fixpoint catchup_page (events : list (Event Payload)) (observed : Z) (b : FeedBroker) : result BrokerError Z * FeedBroker :=
  match events with
  | [] => (Ok observed, b)
  | event :: events =>
      let observed := Z.max observed (ev_Seq event) in
      if suppressHistoricalChildStreamMirror event then catchup_page events observed b
      else
        match publishCanonicalCatchup event b with
        | (Fail err, b) => (Fail err, b)
        | (Ok _, b) => catchup_page events observed b
        end
  end.

(** [primeCanonicalLocked]; every page moves the scan forward.  [primeMu] is
    held for the whole call, so that one caller catches up at a time, but
    [acceptMu] is taken anew for each envelope: a publication without a durable
    position, a seal or a close may come between two of them.  Here the whole call
    is one step, and these come before or after it. *)
Fixpoint primeCanonicalLocked (fuel : nat) (reader : option (EventPageRequest -> result SessionError (EventPage Payload))) (throughSeq : Z)
    (b : FeedBroker) : result BrokerError unit * FeedBroker :=
  match reader with
  | None => (Ok tt, b)
  | Some EventsPage =>
      match fuel with
      | O => (Fail OutOfFuel, b)
      | S fuel' =>
          let after := bk_scannedSeq b in
          if bk_closed b then (Fail BrokerClosed, b)
          else if bk_sealed b || ((0 <? throughSeq) && (throughSeq <=? after)) then (Ok tt, b)
          else
            match EventsPage (MkPageRequest (bk_ref b) after throughSeq 0 EventPageClientReplay) with
            | Fail err => (Fail (ReaderFailed err), b)
            | Ok page =>
                match catchup_page (pg_Events page) after b with
                | (Fail err, b) => (Fail err, b)
                | (Ok observed, b) =>
                    let b := set_scannedSeq (Z.max (bk_scannedSeq b) (Z.max observed (pg_NextSeq page))) b in
                    if pg_NextSeq page <=? after then (Ok tt, b) else primeCanonicalLocked fuel' reader throughSeq b
                end
            end
      end
  end.

Definition Prime fuel reader : FeedBroker -> result BrokerError unit * FeedBroker := primeCanonicalLocked fuel reader 0.

(** [Publish]: a durable envelope waits for its predecessors, a terminal one for
    what the store has. *)
Definition Publish (fuel : nat) (reader : option (EventPageRequest -> result SessionError (EventPage Payload))) (e : Envelope) (b : FeedBroker)
    : result BrokerError unit * FeedBroker :=
  match ValidateEnvelopeDelivery e with
  | Fail err => (Fail (InvalidEnvelope err), b)
  | Ok _ =>
      match durable_of e with
      | Some d =>
          if 1 <? Seq d then
            match primeCanonicalLocked fuel reader (Seq d - 1) b with
            | (Fail err, b) => (Fail err, b)
            | (Ok _, b) => if bk_scannedSeq b <? Seq d - 1 then (Fail (DurableGap (Seq d)), b) else publishAccepted e b
            end
          else publishAccepted e b
      | None =>
          if isMainTerminalEnvelope to_lower e then publishAccepted e (snd (Prime fuel reader b)) else publishAccepted e b
      end
  end.

(** ** The end of a feed *)

(** [Seal]: admission ends first; a failed physical close can be retried. *)
Definition Seal (b : FeedBroker) : option StoreError * FeedBroker :=
  let b := if bk_sealed b then b else set_liveNarratives ∅ (set_sealed true b) in
  let written := bk_writerSealed b in
  match bk_writer b with
  | None => (None, set_writerSealed true b)
  | Some w =>
      if written then (None, b)
      else
        match writer_seal w with
        | (Some err, w) => (Some err, set_writer (Some w) b)
        | (None, w) =>
            match writer_close w with
            | (Some err, w) => (Some err, set_writer (Some w) b)
            | (None, w) => (None, set_writerSealed true (set_writer (Some w) b))
            end
        end
  end.

(** [Close]; its subscriptions are cancelled outside this state. *)
Definition Close (b : FeedBroker) : option StoreError * FeedBroker :=
  let '(err, b) := Seal b in
  (err, if bk_closed b then b else set_closed true b).

Definition sessionBoundaryPosition (anchor : DurableFeedPosition) (key : Key) (offset : Z) : FeedPosition :=
  at_transient (MkTransient anchor (sessionSpoolGeneration key) (u64_succ offset)).

(** [Boundary]: the position and the cursor of the trace's end. *)
Definition Boundary (b : FeedBroker) : option (FeedPosition * string) :=
  match bk_writer b, bk_spoolErr b with
  | Some w, None =>
      match writer_bounds w with
      | Fail _ => None
      | Ok bounds =>
          let position := sessionBoundaryPosition (bk_latestDurable b) (bk_key b) (b_High bounds) in
          match EncodeSpool codec (Fence.SessionID (bk_ref b)) (MkSpoolPoint (bk_key b) (b_High bounds)) position with
          | Ok cursor => Some (position, cursor)
          | Fail _ => None
          end
      end
  | _, _ => None
  end.

(** ** A new broker *)

(** [checkpointBoundaryPosition]: the last durable position of an event's
    projections. *)
Definition checkpointBoundaryPosition (ref : SessionRef) (event : option (Event Payload)) : option FeedPosition :=
  match event with
  | None => None
  | Some event =>
      List.find (fun p => bool_decide (is_Some (Durable p))) (rev (omap Position (projectSessionEvent ref event)))
  end.

(** What the reader can tell of the Session's log: no reader, one without a
    checkpoint, or the last sequence and the last replayable event. *)
Inductive ReaderCheckpoint := NoReader | NoCheckpoint | Checkpoint (throughSeq : Z) (last : option (Event Payload)).

(** [register originComplete] is the spool's answer, when there is one. *)
Definition NewFeedBroker (ref : SessionRef) (checkpoint : result SessionError ReaderCheckpoint) (register : option (bool -> result StoreError (Key * W)))
    : result BrokerError FeedBroker :=
  let ref := NormalizeSessionRef ref in
  if (trim_space (Fence.SessionID ref) =? "")%string then Fail (WrongSession (Fence.SessionID ref))
  else
    let! checkpoint := match checkpoint with Ok c => Ok c | Fail err => Fail (ReaderFailed err) end in
    let b := MkBroker ref None (MkKey 0 [] [] []) no_position 0 None None false false false ∅ new_cache ∅ in
    let '(b, originComplete) :=
      match checkpoint with
      | NoReader => (b, true)
      | NoCheckpoint => (b, false)
      | Checkpoint throughSeq event =>
          (set_scannedSeq throughSeq
             match checkpointBoundaryPosition ref event ≫= Durable with Some d => set_latestDurable d b | None => b end,
           throughSeq =? 0)
      end in
    Ok match register with
       | None => b
       | Some register =>
           match register originComplete with
           | Fail err => set_spoolErr (Some (StoreFault err)) b
           | Ok (key, w) => set_key key (set_writer (Some w) b)
           end
       end.
End Broker.
