(* ===== verification/FeedTrace.v ===== *)
(** What the broker's spool partition holds: the stamped envelopes of one
    Session, their positions in order, and the live narratives still owed a
    canonical copy — as an invariant of every operation of the broker. *)

From Stdlib Require Import ZArith Lia Ascii String.
From stdpp Require Import base list strings option gmap.
From S2P Require Import Prelude GoStrings GoText Fence Execution GoValues ApprovalSubject Payload Events SessionCodec SpoolFormat SpoolStore.
From S2P Require Import HistoryIndex FeedTypes FeedCursor FeedProjection FeedBroker.

Open Scope string_scope.
Open Scope list_scope.
Open Scope Z_scope.

(** ** What the broker relies on *)

Definition record_typed (recordType occurredAt : Z) : Prop :=
  0 <= recordType < 65536 /\ -9223372036854775808 <= occurredAt < 9223372036854775808.

(** An offset whose successor is an offset too. *)
Definition in_range (n : nat) : Prop := Z.of_nat n + 1 < u64_modulus.

(** [holds L w]: the partition has accepted the records [L], retained or not.
    An append that succeeds adds its record, one that fails adds it or nothing.
    Bounds tell how many there are, while offsets do not wrap around. *)
Class SpoolWriterLaws (W : Type) {Sw : SpoolWriter W} := {
  holds : list SpoolRecord -> W -> Prop;
  bounds_high L w b : holds L w -> in_range (length L) -> writer_bounds w = Ok b -> b_High b = Z.of_nat (length L);
  append_ok L w recordType at_ payload offset w' :
    holds L w -> record_typed recordType at_ -> writer_append recordType at_ payload w = (Ok offset, w') ->
    holds (L ++ [MkSpoolRecord (Z.of_nat (length L)) recordType at_ payload]) w';
  append_fails L w recordType at_ payload err w' :
    holds L w -> record_typed recordType at_ -> writer_append recordType at_ payload w = (Fail err, w') ->
    holds L w' \/ holds (L ++ [MkSpoolRecord (Z.of_nat (length L)) recordType at_ payload]) w';
  seal_keeps L w err w' : holds L w -> writer_seal w = (err, w') -> holds L w';
  close_keeps L w err w' : holds L w -> writer_close w = (err, w') -> holds L w'
}.

(** ** The trace *)

Section Trace.
Context {Acp : AcpTypes} {P : Platform} {Cp : CursorPlatform} {Pj : Projector}.
Context (codec : CursorCodec) (Marshal : Envelope -> option (list Z)).

Definition anchor (e : Envelope) : DurableFeedPosition := match Position e with Some p => durableAnchor p | None => no_position end.

Definition durable_le (p q : DurableFeedPosition) : Prop := ~ durable_lt q p.

(** The envelope at offset [n]: its cursor resolves to the next offset, and a
    transient one is numbered within the partition's generation. *)
Record stamped (sessionID : string) (key : Key) (n : nat) (e : Envelope) : Prop := {
  stamped_session : trim_space (SessionID e) = sessionID;
  stamped_position : exists p, Position e = Some p /\ ValidatePosition p = Ok tt /\
    EncodeSpool codec sessionID (MkSpoolPoint key (u64_succ (Z.of_nat n))) p = Ok (Cursor e);
  stamped_transient : durable_of e = None ->
    Position e = Some (at_transient (MkTransient (anchor e) (sessionSpoolGeneration key) (u64_succ (Z.of_nat n))))
}.

Record trace_ok (sessionID : string) (key : Key) (latest : DurableFeedPosition) (L : list SpoolRecord) (E : list Envelope) : Prop := {
  trace_records n r : L !! n = Some r -> exists e, E !! n = Some e /\ r_Offset r = Z.of_nat n /\
    r_Type r = sessionEnvelopeRecordType /\ Marshal e = Some (r_Payload r);
  trace_length : length L = length E;
  trace_stamped n e : E !! n = Some e -> in_range n -> stamped sessionID key n e;
  trace_order i j a b : (i < j)%nat -> E !! i = Some a -> E !! j = Some b -> durable_le (anchor a) (anchor b);
  trace_durable i j a b d : (i < j)%nat -> E !! i = Some a -> E !! j = Some b -> durable_of b = Some d -> durable_lt (anchor a) d;
  trace_latest e : e ∈ E -> durable_le (anchor e) latest
}.

Lemma trace_ok_new sessionID key latest : trace_ok sessionID key latest [] [].
Proof. split; try done. intros e He. by apply elem_of_nil in He. Qed.

Lemma durable_le_refl p : durable_le p p.
Proof. unfold durable_le. apply irreflexivity, _. Qed.
Lemma durable_le_trans p q r : durable_le p q -> durable_le q r -> durable_le p r.
Proof.
  unfold durable_le. intros A B C. destruct (durable_lt_total q r) as [L|[->|L]]; [|done|done]. apply A. by transitivity r.
Qed.
Lemma durable_lt_le p q : durable_lt p q -> durable_le p q.
Proof. intros A B. apply (irreflexivity durable_lt p). by transitivity q. Qed.
Lemma durable_le_seq p q : durable_le p q -> Seq p <= Seq q.
Proof. unfold durable_le, durable_lt. intros Hn. destruct (Z.le_gt_cases (Seq p) (Seq q)); [done|]. exfalso. apply Hn, compare_lt. by left. Qed.
Lemma durable_le_lt p q r : durable_le p q -> durable_lt q r -> durable_lt p r.
Proof. intros A B. destruct (durable_lt_total p q) as [L|[->|L]]; [by transitivity q|done|done]. Qed.

Lemma trace_later sessionID key latest latest' L E :
  durable_le latest latest' -> trace_ok sessionID key latest L E -> trace_ok sessionID key latest' L E.
Proof. intros Hl [A B C D F G]. split; try done. intros e He. eapply durable_le_trans; [by apply G|done]. Qed.

(** A trace that grew past the boundary [latest]. *)
Definition extends (latest : DurableFeedPosition) (E E' : list Envelope) : Prop :=
  exists k, E' = E ++ k /\ forall e d, e ∈ k -> durable_of e = Some d -> durable_lt latest d.

Lemma extends_prefix latest E E' : extends latest E E' -> E `prefix_of` E'.
Proof. intros (k & -> & _). by apply prefix_app_r. Qed.
Lemma extends_refl latest E : extends latest E E.
Proof. exists []. split; [by rewrite app_nil_r|]. intros e d He. by apply elem_of_nil in He. Qed.
Lemma extends_trans latest latest' E1 E2 E3 :
  durable_le latest latest' -> extends latest E1 E2 -> extends latest' E2 E3 -> extends latest E1 E3.
Proof.
  intros Hl (k1 & -> & H1) (k2 & -> & H2). exists (k1 ++ k2). split; [by rewrite (assoc_L (++))|].
  intros e d [He|He]%elem_of_app Hd; [by eapply H1|]. eapply durable_le_lt; [exact Hl|by eapply H2].
Qed.
Lemma extends_snoc latest E e : (forall d, durable_of e = Some d -> durable_lt latest d) -> extends latest E (E ++ [e]).
Proof. intros Hd. exists [e]. split; [done|]. intros e' d ->%list_elem_of_singleton. apply Hd. Qed.

Lemma anchor_durable e d : durable_of e = Some d -> anchor e = d.
Proof.
  unfold durable_of, anchor. destruct (Delivery e); [|done]. destruct (is_durable_mode _); [|done]. destruct (Position e) as [p|]; [|done]. cbn.
  intros E. unfold durableAnchor. by rewrite E.
Qed.

Lemma trace_snoc sessionID key latest latest' L E e at_ payload :
  trace_ok sessionID key latest L E -> (in_range (length L) -> stamped sessionID key (length L) e) -> Marshal e = Some payload ->
  durable_le latest latest' -> durable_le latest (anchor e) -> durable_le (anchor e) latest' ->
  (forall d, durable_of e = Some d -> durable_lt latest d) ->
  trace_ok sessionID key latest' (L ++ [MkSpoolRecord (Z.of_nat (length L)) sessionEnvelopeRecordType at_ payload]) (E ++ [e]).
Proof.
  intros [A B C D F G] S M L1 L2 L3 Hd.
  assert (Hlast : forall n x, (E ++ [e]) !! n = Some x -> E !! n = Some x /\ (n < length E)%nat \/ n = length E /\ x = e).
  { intros n x Hn. apply lookup_app_Some in Hn as [Hn|[Hn Hx]]; [left; split; [done|by eapply lookup_lt_Some]|].
    apply list_lookup_singleton_Some in Hx as [? <-]. right. split; [lia|done]. }
  split.
  - intros n r Hn. apply lookup_app_Some in Hn as [Hn|[Hn Hx]].
    + destruct (A n r Hn) as (x & Hx & R). exists x. split; [by apply lookup_app_l_Some|done].
    + apply list_lookup_singleton_Some in Hx as [Hz <-]. assert (n = length E) as -> by lia. exists e. rewrite lookup_app_r, Nat.sub_diag by done. cbn. by rewrite B.
  - rewrite !length_app. cbn. lia.
  - intros n x [[Hn _]|[-> ->]]%Hlast; [by apply C|by rewrite <- B].
  - intros i j a b Hij Ha Hb. apply Hlast in Ha as [[Ha _]|[-> ->]]; apply Hlast in Hb as [[Hb Hlt]|[-> ->]]; try lia; [by apply (D i j)|].
    eapply durable_le_trans; [apply G; by eapply list_elem_of_lookup_2|done].
  - intros i j a b d Hij Ha Hb Hdb. apply Hlast in Ha as [[Ha _]|[-> ->]]; apply Hlast in Hb as [[Hb Hlt]|[-> ->]]; try lia; [by apply (F i j a b)|].
    eapply durable_le_lt; [apply G; by eapply list_elem_of_lookup_2|by apply Hd].
  - intros x Hx. apply elem_of_app in Hx as [Hx|Hx]; [eapply durable_le_trans; [by apply G|done]|]. apply list_elem_of_singleton in Hx as ->. done.
Qed.
End Trace.

(** ** The broker's invariant *)

(** For [grows]: a change of fields that leaves the boundary and the scan. *)
Ltac grows_still := split; cbn; try done; try lia; try apply durable_le_refl.

Section Invariant.
Context {Acp : AcpTypes} {P : Platform} {Cp : CursorPlatform} {Pj : Projector} {W : Type} {Sw : SpoolWriter W} {Swl : SpoolWriterLaws W}.
Context (codec : CursorCodec) (Marshal : Envelope -> option (list Z)) (clock : Z -> Z).
Hypothesis clock_typed : forall n, -9223372036854775808 <= clock n < 9223372036854775808.

Implicit Types b : FeedBroker (W := W).

Definition session (b : FeedBroker (W := W)) : string := Fence.SessionID (bk_ref b).

Record feed_inv (b : FeedBroker (W := W)) (L : list SpoolRecord) (E : list Envelope) : Prop := {
  inv_writer w : bk_writer b = Some w -> holds L w;
  inv_trace : trace_ok codec Marshal (session b) (bk_key b) (bk_latestDurable b) L E;
  inv_live key : is_Some (bk_liveNarratives b !! key) -> exists e, e ∈ E /\ narrativeFeedKey e = Some key /\ durable_of e = None
}.

(** What the invariant and the guards read. *)
Definition core (b : FeedBroker (W := W)) :=
  (bk_ref b, bk_writer b, bk_key b, bk_latestDurable b, bk_scannedSeq b, bk_spoolErr b, (bk_sealed b, bk_closed b), bk_liveNarratives b).

Lemma core_inv b b' L E : core b' = core b -> feed_inv b L E -> feed_inv b' L E.
Proof. unfold core. intros [= E1 E2 E3 E4 _ _ _ _ E5] [A B C]. split; unfold session in *; rewrite ?E1, ?E2, ?E3, ?E4, ?E5; done. Qed.

Lemma core_offer b : core (offerTerminalFallbackLocked b) = core b.
Proof. unfold offerTerminalFallbackLocked. by destruct (bk_lastTerminal b). Qed.
Lemma core_note e b : core (noteTerminalLocked e b) = core b.
Proof. unfold noteTerminalLocked. repeat case_match; done. Qed.
Lemma core_index e n b : core (indexAcceptedHistory e n b) = core b.
Proof. unfold indexAcceptedHistory. repeat case_match; done. Qed.

(** Everything but the moving parts of one append stays; the scan moves no
    further than the durable boundary takes it. *)
Record grows (b b' : FeedBroker (W := W)) : Prop := {
  grows_ref : bk_ref b' = bk_ref b;
  grows_key : bk_key b' = bk_key b;
  grows_latest : durable_le (bk_latestDurable b) (bk_latestDurable b');
  grows_scanned : bk_scannedSeq b <= bk_scannedSeq b';
  grows_reach : bk_scannedSeq b' <= Z.max (bk_scannedSeq b) (Seq (bk_latestDurable b'));
  grows_boundary : Seq (bk_latestDurable b) <= bk_scannedSeq b -> Seq (bk_latestDurable b') <= bk_scannedSeq b';
  grows_fault : bk_spoolErr b <> None -> bk_spoolErr b' <> None;
  grows_writer : bk_writer b' = None <-> bk_writer b = None;
  grows_gates : bk_sealed b' = bk_sealed b /\ bk_closed b' = bk_closed b
}.

Lemma grows_refl b : grows b b.
Proof. grows_still. Qed.

Lemma grows_trans a b c : grows a b -> grows b c -> grows a c.
Proof.
  intros [A1 A2 A3 A4 Ar Ab A5 A6 [A7 A8]] [B1 B2 B3 B4 Br Bb B5 B6 [B7 B8]]. pose proof (durable_le_seq _ _ B3).
  split; [congruence|congruence|by eapply durable_le_trans|lia|lia|auto|auto|tauto|]. split; congruence.
Qed.

Lemma core_grows b b' : core b' = core b -> grows b b'.
Proof. unfold core. intros [= E1 E2 E3 E4 E5 E6 E7 E8 E9]. split; rewrite ?E1, ?E2, ?E3, ?E4, ?E5, ?E6; try done; [apply durable_le_refl|lia]. Qed.

(** The durable boundary after an accepted envelope. *)
Definition boundary_after (e : Envelope) b : DurableFeedPosition := match durable_of e with Some d => d | None => bk_latestDurable b end.
Definition past_boundary (e : Envelope) b : Prop := forall d, durable_of e = Some d -> durable_lt (bk_latestDurable b) d.

(** An envelope accepted, in the trace or not. *)
Record boundary_moved (e : Envelope) b b' : Prop := {
  st_grows : grows b b';
  st_latest : bk_latestDurable b' = boundary_after e b;
  st_scanned d : durable_of e = Some d -> Seq d <= bk_scannedSeq b'
}.

Lemma settled_core e b b1 b2 : boundary_moved e b b1 -> core b2 = core b1 -> boundary_moved e b b2.
Proof.
  intros [G Hl Hs] Hc. pose proof (core_grows _ _ Hc) as G2. unfold core in Hc. injection Hc as _ _ _ El Es _ _ _ _.
  split; [by eapply grows_trans|by rewrite El|intros d; rewrite Es; apply Hs].
Qed.

Lemma settled_after e b b1 b2 : grows b b1 -> bk_latestDurable b1 = bk_latestDurable b -> boundary_moved e b1 b2 -> boundary_moved e b b2.
Proof. intros G El [G2 Hl Hs]. split; [by eapply grows_trans|unfold boundary_after in *; by rewrite Hl, El|done]. Qed.

Lemma settled_as e e' b b' : durable_of e' = durable_of e -> boundary_moved e' b b' -> boundary_moved e b b'.
Proof. intros D [G Hl Hs]. split; [done|unfold boundary_after in *; by rewrite Hl, D|intros d; rewrite <- D; apply Hs]. Qed.

(** What a settled envelope leaves alone. *)
Record framed b b' : Prop := {
  fr_ref : bk_ref b' = bk_ref b;
  fr_key : bk_key b' = bk_key b;
  fr_writer : bk_writer b' = bk_writer b;
  fr_live key : is_Some (bk_liveNarratives b' !! key) -> is_Some (bk_liveNarratives b !! key)
}.

Lemma boundary_after_le e b : past_boundary e b -> durable_le (bk_latestDurable b) (boundary_after e b).
Proof. unfold past_boundary, boundary_after. destruct (durable_of e); [intros Hd; by apply durable_lt_le, Hd|intros _; apply durable_le_refl]. Qed.

Lemma settled_inv e b b' L E : feed_inv b L E -> past_boundary e b -> boundary_moved e b b' -> framed b b' -> feed_inv b' L E.
Proof.
  intros [A B C] Hd [G Hl Hs] [F1 F2 F3 F4]. split; [by rewrite F3| |intros key Hk; by apply C, F4].
  unfold session. rewrite F1, F2, Hl. eapply trace_later; [by apply boundary_after_le|done].
Qed.

Lemma accept_durable_settled e b :
  past_boundary e b -> boundary_moved e b (acceptDurableLocked e b) /\ framed b (acceptDurableLocked e b) /\
  bk_spoolErr (acceptDurableLocked e b) = bk_spoolErr b.
Proof.
  intros Hd. unfold acceptDurableLocked, past_boundary in *. destruct (durable_of e) as [d|] eqn:Ed; (split_and!; [|by split|done]).
  - specialize (Hd d eq_refl). split; [split; cbn; try done; try lia; by apply durable_lt_le|unfold boundary_after; by rewrite Ed|].
    intros d'. rewrite Ed. intros [= <-]. cbn. lia.
  - split; [apply grows_refl|unfold boundary_after; by rewrite Ed|]. intros d. by rewrite Ed.
Qed.

Lemma framed_core b b1 b2 : framed b b1 -> core b2 = core b1 -> framed b b2.
Proof. unfold core. intros [F1 F2 F3 F4] [= E1 E2 E3 _ _ _ _ _ E9]. split; rewrite ?E1, ?E2, ?E3, ?E9; done. Qed.

Lemma without_spool_settled e b :
  past_boundary e b -> boundary_moved e b (acceptWithoutSpoolLocked e b) /\ framed b (acceptWithoutSpoolLocked e b) /\
  bk_spoolErr (acceptWithoutSpoolLocked e b) = bk_spoolErr b.
Proof.
  intros Hd. unfold acceptWithoutSpoolLocked. destruct (accept_durable_settled e b Hd) as (S2 & F2 & Er).
  destruct (isMainTerminalEnvelope _ _); [|done]. pose proof (core_offer (acceptDurableLocked e b)) as Hc.
  split_and!; [by eapply settled_core|by eapply framed_core|]. unfold core in Hc. injection Hc as _ _ _ _ _ Hf _ _ _. by rewrite Hf.
Qed.

Lemma degrade_settled fault e b :
  past_boundary e b -> boundary_moved e b (degrade fault e b) /\ framed b (degrade fault e b) /\ bk_spoolErr (degrade fault e b) <> None.
Proof.
  intros Hd. unfold degrade. set (b1 := disableSpoolLocked fault b).
  assert (B1 : framed b b1 /\ grows b b1 /\ bk_spoolErr b1 <> None /\ bk_latestDurable b1 = bk_latestDurable b).
  { unfold b1, disableSpoolLocked. destruct (bk_spoolErr b) eqn:Eb; [split_and!; [by split|apply grows_refl|by rewrite Eb|done]|].
    split_and!; [split; cbn; try done|grows_still|done|done]. intros key [x Hx]. by rewrite lookup_empty in Hx. }
  destruct B1 as ([F1 F2 F3 F4] & G1 & N1 & E1). destruct (without_spool_settled e b1) as (S2 & [K1 K2 K3 K4] & Er); [intros d; rewrite E1; apply Hd|].
  split_and!; [by eapply settled_after|split; [congruence..|]; intros key Hk; by apply F4, K4|by rewrite Er].
Qed.

Abbreviation append_accepted := (append_accepted codec Marshal clock).
Abbreviation publishAccepted := (publishAccepted codec Marshal clock).
Abbreviation publish_all := (publish_all codec Marshal clock).
Abbreviation prepare := (prepare codec Marshal).

(** An envelope as it is appended: the same but for its transport fields. *)
Record delivered_as (e e' : Envelope) : Prop := {
  as_durable : durable_of e' = durable_of e;
  as_narrative : narrativeFeedKey e' = narrativeFeedKey e;
  as_session : SessionID e' = SessionID e;
  as_update : UpdateOf e' = UpdateOf e;
  as_event : EventID e' = EventID e /\ ProjectionID e' = ProjectionID e /\ Kind e' = Kind e /\ LifecycleOf e' = LifecycleOf e;
  as_same d : durable_of e = Some d -> exists cursor, e' = set_Cursor cursor e;
  as_transport cursor position delivery : set_Cursor cursor (set_Position position (set_Delivery delivery e')) = set_Cursor cursor (set_Position position (set_Delivery delivery e))
}.

Lemma delivered_set_Cursor cursor e : delivered_as e (set_Cursor cursor e).
Proof. split; try done. by exists cursor. Qed.

Lemma set_Cursor_self e : set_Cursor (Cursor e) e = e.
Proof. by destruct e. Qed.

Lemma delivered_self e : delivered_as e e.
Proof. rewrite <- (set_Cursor_self e) at 2. apply delivered_set_Cursor. Qed.

Lemma delivered_trans e1 e2 e3 : delivered_as e1 e2 -> delivered_as e2 e3 -> delivered_as e1 e3.
Proof.
  intros [A1 A2 A3 A4 A5 As A6] [B1 B2 B3 B4 B5 Bs B6]. split; [congruence..| | |].
  - destruct A5 as (? & ? & ? & ?), B5 as (? & ? & ? & ?). split_and!; congruence.
  - intros d Hd. destruct (As d Hd) as [c ->]. rewrite <- A1 in Hd. destruct (Bs d Hd) as [c' ->]. by exists c'.
  - intros. by rewrite B6.
Qed.

Lemma valid_transient e : ValidateEnvelopeDelivery e = Ok tt -> durable_of e = None ->
  match Delivery e with Some mode => is_transient_mode mode = true | None => True end.
Proof.
  unfold ValidateEnvelopeDelivery, durable_of. destruct (Delivery e) as [mode|]; [|done]. destruct (is_transient_mode mode); [done|].
  destruct (is_durable_mode mode); [|done]. destruct (Position e) as [p|]; [|done]. cbn. by destruct (Durable p).
Qed.

Lemma valid_durable_mode e d : ValidateEnvelopeDelivery e = Ok tt -> durable_of e = Some d ->
  exists mode, Delivery e = Some mode /\ is_transient_mode mode = false /\ Position e = Some (at_durable d).
Proof.
  intros V D. pose proof (durable_of_valid e d V D) as [Hp _]. unfold durable_of in D. destruct (Delivery e) as [mode|] eqn:Em; [|done].
  exists mode. split; [done|]. split; [|done]. destruct (is_durable_mode mode) eqn:Dm; [|done].
  unfold is_transient_mode, is_durable_mode in *. apply orb_true_iff in Dm as [->%String.eqb_eq| ->%String.eqb_eq]; done.
Qed.

(** The position an accepted envelope is appended with. *)
Lemma positioned_spec offset b e :
  ValidateEnvelopeDelivery e = Ok tt ->
  delivered_as e (positioned offset b e) /\
  match durable_of e with
  | Some d => positioned offset b e = e /\ Position e = Some (at_durable d)
  | None => Position (positioned offset b e) = Some (at_transient (MkTransient (bk_latestDurable b) (sessionSpoolGeneration (bk_key b)) (u64_succ offset)))
  end.
Proof.
  intros V. destruct (durable_of e) as [d|] eqn:D.
  - destruct (valid_durable_mode e d V D) as (mode & Em & Et & Hp). unfold positioned. rewrite Em, Et. split; [apply delivered_self|by split].
  - pose proof (valid_transient e V D) as Vt. unfold positioned. destruct (Delivery e) as [mode|] eqn:Em; [rewrite Vt|]; (split; [split; try done|done]); by rewrite D.
Qed.

Lemma prepare_spec offset b e e' r :
  ValidateEnvelopeDelivery e = Ok tt -> prepare offset b e = (e', r) ->
  delivered_as e e' /\
  anchor e' = match durable_of e with Some d => d | None => bk_latestDurable b end /\
  match r with
  | Ok payload => Marshal e' = Some payload /\
      (forall n, offset = Z.of_nat n -> trim_space (SessionID e) = session b -> stamped codec (session b) (bk_key b) n e')
  | Fail _ => True
  end.
Proof.
  intros V. unfold FeedBroker.prepare. destruct (positioned_spec offset b e V) as [D Dp]. set (e1 := positioned offset b e) in *.
  assert (Ha : Position e1 <> None /\ anchor e1 = match durable_of e with Some d => d | None => bk_latestDurable b end).
  { destruct (durable_of e) as [d|]; [destruct Dp as [-> Hp]; unfold anchor; by rewrite Hp|unfold anchor; by rewrite Dp]. }
  destruct (Position e1) as [position|] eqn:Ep; [|by destruct Ha]. destruct Ha as [_ Ha].
  destruct (EncodeSpool _ _ _ _) as [cursor|] eqn:Ec; intros [= <- <-]; [|by split_and!].
  assert (D' : delivered_as e (set_Cursor cursor e1)) by (eapply delivered_trans; [done|apply delivered_set_Cursor]).
  split; [done|]. split; [exact Ha|]. destruct (Marshal (set_Cursor cursor e1)) as [payload|] eqn:Em; [|done]. split; [done|].
  intros n -> Hs. assert (Hv : ValidatePosition position = Ok tt).
  { unfold EncodeSpool in Ec. destruct (_ || _); [done|]. destruct (ValidatePosition position) as [[]|]; [done|]. by rewrite orb_true_r in Ec. }
  split.
  - rewrite (as_session _ _ D'). done.
  - exists position. cbn. by split_and!.
  - intros Hd. rewrite (as_durable _ _ D') in Hd. rewrite Hd in Dp. injection Dp as ->.
    change (anchor (set_Cursor cursor e1)) with (anchor e1). unfold anchor. cbn. by rewrite Ep.
Qed.

Lemma observe_inv e b L E :
  feed_inv b L E -> e ∈ E -> feed_inv (observeLiveNarrativeLocked e b) L E /\ grows b (observeLiveNarrativeLocked e b) /\
  bk_spoolErr (observeLiveNarrativeLocked e b) = bk_spoolErr b /\ bk_latestDurable (observeLiveNarrativeLocked e b) = bk_latestDurable b.
Proof.
  intros I He. pose proof I as [A B C]. assert (Hg : forall live, grows b (set_liveNarratives live b)) by (intros; grows_still).
  unfold observeLiveNarrativeLocked. destruct (ends_narratives e).
  - split_and!; [|apply Hg|done|done]. split; cbn; [done..|]. intros key [turn Hk]. apply map_lookup_filter_Some in Hk as [Hk _]. apply C. by eexists.
  - unfold isDurableFeedEnvelope. destruct (durable_of e) as [d|] eqn:D; [split_and!; [done|apply grows_refl|done..]|].
    destruct (narrativeFeedKey e) as [key|] eqn:Ek; [|split_and!; [done|apply grows_refl|done..]].
    split_and!; [|apply Hg|done|done]. split; cbn; [done..|]. intros key' [turn [[<- _]|[_ Hk]]%lookup_insert_Some]; [by exists e|]. apply C. by eexists.
Qed.

(** What one envelope past the checks does: it is settled, and in the trace
    unless the spool is or was given up. *)
Record appended (e : Envelope) b (E : list Envelope) b' (E' : list Envelope) : Prop := {
  ap_settled : boundary_moved e b b';
  ap_prefix : extends (bk_latestDurable b) E E';
  ap_new : bk_spoolErr b' = None -> bk_writer b' <> None -> exists e', E' = E ++ [e'] /\ delivered_as e e'
}.

Lemma append_accepted_inv e b L E :
  feed_inv b L E -> ValidateEnvelopeDelivery e = Ok tt -> trim_space (SessionID e) = session b -> past_boundary e b ->
  exists L' E', feed_inv (append_accepted e b) L' E' /\ appended e b E (append_accepted e b) E'.
Proof.
  intros I V Hs Hd. unfold FeedBroker.append_accepted. pose proof (extends_refl (bk_latestDurable b) E) as H0.
  assert (Hfail : forall fault e1, delivered_as e e1 -> exists L' E', feed_inv (degrade fault e1 b) L' E' /\ appended e b E (degrade fault e1 b) E').
  { intros fault e1 D1. assert (Hd1 : past_boundary e1 b) by (intros d; rewrite (as_durable _ _ D1); apply Hd).
    destruct (degrade_settled fault e1 b Hd1) as (S2 & F2 & N2). exists L, E. split; [by eapply settled_inv|]. split; [|done..].
    by eapply settled_as; [apply (as_durable _ _ D1)|]. }
  assert (Hwithout : bk_writer b = None \/ bk_spoolErr b <> None -> exists L' E', feed_inv (acceptWithoutSpoolLocked e b) L' E' /\ appended e b E (acceptWithoutSpoolLocked e b) E').
  { intros Hno. destruct (without_spool_settled e b Hd) as (S2 & F2 & Er). exists L, E. split; [by eapply settled_inv|]. split; [done..|].
    rewrite Er, (fr_writer _ _ F2). by destruct Hno. }
  destruct (bk_writer b) as [w|] eqn:Ew; [|apply Hwithout; by left]. destruct (bk_spoolErr b) as [fault|] eqn:Ef; [apply Hwithout; by right|].
  clear Hwithout. destruct (writer_bounds w) as [bounds|err] eqn:Eb; [|apply Hfail, delivered_self].
  destruct (prepare (b_High bounds) b e) as [e' r] eqn:Ep. destruct (prepare_spec _ _ _ _ _ V Ep) as (D & Ha & Hr).
  destruct r as [payload|fault]; [|by apply Hfail]. destruct Hr as [Hm Hst].
  destruct (writer_append _ _ _ w) as [r w'] eqn:Ea. pose proof (inv_writer _ _ _ I w Ew) as Hw.
  assert (Ht : record_typed sessionEnvelopeRecordType (clock (b_High bounds))) by (split; [unfold sessionEnvelopeRecordType; lia|apply clock_typed]).
  set (b1 := set_writer (Some w') b). assert (G1 : grows b b1) by (grows_still; by rewrite Ew).
  set (rec := MkSpoolRecord (Z.of_nat (length L)) sessionEnvelopeRecordType (clock (b_High bounds)) payload).
  assert (Hin : forall b2, bk_ref b2 = bk_ref b -> bk_key b2 = bk_key b -> bk_writer b2 = Some w' -> bk_latestDurable b2 = boundary_after e b -> holds (L ++ [rec]) w' ->
    (forall key, is_Some (bk_liveNarratives b2 !! key) -> is_Some (bk_liveNarratives b !! key) \/ narrativeFeedKey e' = Some key /\ durable_of e' = None) ->
    feed_inv b2 (L ++ [rec]) (E ++ [e'])).
  { intros b2 E1 E2 E3 E4 Hh Hl. split; [rewrite E3; by intros ? [= <-]| |].
    - unfold session. rewrite E1, E2. apply (trace_snoc codec Marshal _ _ (bk_latestDurable b)); [apply (inv_trace _ _ _ I)| |done|..].
      + intros Hin. apply Hst; [|done]. by eapply bounds_high.
      + rewrite E4. unfold boundary_after. destruct (durable_of e) as [d|] eqn:De; [by apply durable_lt_le, Hd|apply durable_le_refl].
      + rewrite Ha. destruct (durable_of e) as [d|] eqn:De; [by apply durable_lt_le, Hd|apply durable_le_refl].
      + rewrite E4, Ha. unfold boundary_after. destruct (durable_of e); apply durable_le_refl.
      + intros d. rewrite (as_durable _ _ D). apply Hd.
    - intros key Hk. destruct (Hl key Hk) as [Hk'|Hk']; [|exists e'; set_solver].
      destruct (inv_live _ _ _ I key Hk') as (x & Hx & Hxk). exists x. set_solver. }
  assert (Hp : extends (bk_latestDurable b) E (E ++ [e'])) by (apply extends_snoc; intros d; rewrite (as_durable _ _ D); apply Hd).
  assert (D1 : past_boundary e' b1) by (intros d; rewrite (as_durable _ _ D); apply Hd).
  assert (Hset : forall b2, boundary_moved e' b1 b2 -> boundary_moved e b b2).
  { intros b2 S2. eapply settled_as; [apply (as_durable _ _ D)|]. by eapply settled_after. }
  destruct r as [o|err].
  - exists (L ++ [rec]), (E ++ [e']). set (b2 := indexAcceptedHistory e' (b_High bounds) b1). assert (Hc : core b2 = core b1) by apply core_index.
    assert (D2 : past_boundary e' b2) by (unfold core in Hc; injection Hc as _ _ _ El _ _ _ _ _; intros d; rewrite El; apply D1).
    destruct (accept_durable_settled e' b2 D2) as (S3 & F3 & N3). set (b3 := acceptDurableLocked e' b2) in *.
    assert (G2 : grows b1 b2) by by apply core_grows. pose proof Hc as Hc'. unfold core in Hc'. injection Hc' as C1 C2 C3 C4 C5 C6 C7 C8 C9.
    assert (S : boundary_moved e b b3) by (apply Hset; by eapply settled_after).
    destruct F3 as [R3 K3 W3 L3]. assert (I3 : feed_inv b3 (L ++ [rec]) (E ++ [e'])).
    { apply Hin; [congruence|congruence|by rewrite W3, C2|apply S|by eapply append_ok|]. intros key Hk. left. apply L3 in Hk. by rewrite C9 in Hk. }
    destruct (observe_inv e' b3 (L ++ [rec]) (E ++ [e']) I3) as (I4 & G4 & F4 & E4); [set_solver|]. split; [done|]. split; [|done|by exists e'].
    destruct S as [Sa Sb Sc]. split; [by eapply grows_trans|by rewrite E4|]. intros d Hdd. etrans; [by apply Sc|apply G4].
  - destruct (degrade_settled (StoreFault err) e' b1 D1) as (S2 & [F1 F2 F3 F4] & N2). apply Hset in S2.
    destruct (append_fails L w _ _ _ err w' Hw Ht Ea) as [Hh|Hh].
    + exists L, E. split; [|by split]. split; [rewrite F3; by intros ? [= <-]| |intros key Hk; apply (inv_live _ _ _ I), (F4 _ Hk)].
      unfold session. rewrite F1, F2, (st_latest _ _ _ S2). eapply trace_later; [by apply boundary_after_le|apply (inv_trace _ _ _ I)].
    + exists (L ++ [rec]), (E ++ [e']). split; [|by split]. apply Hin; [done..|apply S2|done|]. intros key Hk. left. by apply F4.
Qed.
End Invariant.
