(* ===== verification/FeedCatchup.v ===== *)
(** Catching up: every operation of the broker keeps the trace in order, and a
    catch-up that succeeds leaves no replayable event of the Session behind. *)

From Stdlib Require Import ZArith Lia Ascii String Sorting.Sorted.
From stdpp Require Import base list strings option gmap sorting.
From S2P Require Import Prelude GoStrings GoText Fence Execution GoValues ApprovalSubject Payload Events SessionCodec SpoolFormat SpoolStore.
From S2P Require Import HistoryIndex FeedTypes FeedCursor FeedProjection FeedBroker FeedTrace.

Open Scope string_scope.
Open Scope list_scope.
Open Scope Z_scope.

(** What the projection promises: an index is a uint32, and an envelope is of
    its Session and has no position yet. *)
Class ProjectorLaws {Acp : AcpTypes} {P : Platform} {Pj : Projector} := {
  projections_small ref event : Z.of_nat (length (projected_content ref event)) <= 4294967296;
  projections_addressed ref event e : e ∈ projected_content ref event -> trim_space (FeedTypes.SessionID e) = trim_space (Fence.SessionID ref);
  projections_unpositioned ref event e : e ∈ projected_content ref event -> Position e = None
}.

Section Notions.
Context {Acp : AcpTypes} {P : Platform} {Cp : CursorPlatform} {Pj : Projector} {W : Type}.

Implicit Types b : FeedBroker (W := W).

Definition healthy b : Prop := bk_spoolErr b = None /\ bk_writer b <> None.

Lemma healthy_before b b' : grows b b' -> healthy b' -> healthy b.
Proof.
  intros G [H1 H2]. split.
  - destruct (bk_spoolErr b) eqn:E; [|done]. exfalso. by apply (grows_fault _ _ G); rewrite ?E.
  - intros E. apply H2. by apply (grows_writer _ _ G).
Qed.

(** An envelope of the Session [ref] in the trace: all of it, under some cursor. *)
Definition addressed (ref : SessionRef) (e : Envelope) : Envelope :=
  if (trim_space (FeedTypes.SessionID e) =? "")%string then set_EnvelopeSession (Fence.SessionID ref) e else e.
Definition in_trace (ref : SessionRef) (E : list Envelope) (e : Envelope) : Prop := exists cursor, set_Cursor cursor (addressed ref e) ∈ E.

Lemma in_trace_prefix ref E E' e : E `prefix_of` E' -> in_trace ref E e -> in_trace ref E' e.
Proof. intros [k ->] (cursor & He). exists cursor. set_solver. Qed.

(** ** The projections of one event *)

(** Positions of one event's projections increase, and carry its sequence. *)
Definition increasing (l : list Envelope) : Prop := StronglySorted durable_lt (omap durable_of l).

Lemma durable_stamp event i e d : durable_of (stamp_one event i e) = Some d -> d = MkDurable (ev_Seq event) (Z.of_nat i mod 4294967296).
Proof. unfold durable_of, stamp_one. cbn. destruct (Delivery e); [|done]. destruct (is_durable_mode _); [|done]. cbn. by intros [= <-]. Qed.

Lemma stamp_increasing event k l : Z.of_nat (k + length l) <= 4294967296 -> increasing (imap (fun i => stamp_one event (k + i)) l).
Proof.
  unfold increasing. revert k. induction l as [|e l IH]; intros k Hk; [constructor|]. rewrite imap_cons. cbn [omap list_omap].
  assert (IH' : StronglySorted durable_lt (omap durable_of (imap ((fun i => stamp_one event (k + i)) ∘ S) l))).
  { replace (imap ((fun i => stamp_one event (k + i)) ∘ S) l) with (imap (fun i => stamp_one event (S k + i)) l); [apply IH; cbn in Hk; lia|].
    apply imap_ext. intros i x _. cbn. do 2 f_equal. lia. }
  destruct (durable_of (stamp_one event (k + 0) e)) as [d|] eqn:Ed; [|done]. constructor; [done|]. apply durable_stamp in Ed as ->.
  apply List.Forall_forall. intros d Hd%list_elem_of_In. apply list_elem_of_omap in Hd as (x & Hx & Hxd). apply elem_of_lookup_imap in Hx as (i & y & -> & Hi).
  apply durable_stamp in Hxd as ->. apply lookup_lt_Some in Hi. cbn [length] in Hk. unfold durable_lt. apply compare_lt. right. split; [done|]. cbn.
  rewrite !Z.mod_small by lia. lia.
Qed.

Lemma demoted_none l e : e ∈ demoteUnpositionedDurableProjections l -> durable_of e = None.
Proof.
  intros (x & -> & _)%list_elem_of_fmap. destruct (Delivery x) as [mode|] eqn:E; [|unfold durable_of; by rewrite E].
  destruct (is_durable_mode mode) eqn:D; [done|]. unfold durable_of. by rewrite E, D.
Qed.

Lemma omap_none {A B} (f : A -> option B) l : (forall x, x ∈ l -> f x = None) -> omap f l = [].
Proof. induction l as [|x l IH]; intros Hf; [done|]. cbn. rewrite Hf by set_solver. apply IH. set_solver. Qed.

Lemma projection_increasing `{!ProjectorLaws} ref event : increasing (projectSessionEvent ref event).
Proof.
  unfold projectSessionEvent, stampDurableProjectionPositions. pose proof (projections_small ref event) as Hs.
  destruct (projected_content ref event) as [|e l] eqn:El; [constructor|]. destruct (_ || _).
  - unfold increasing. rewrite omap_none; [constructor|]. apply demoted_none.
  - by apply (stamp_increasing event 0).
Qed.

Lemma projection_seq ref event e d : e ∈ projectSessionEvent ref event -> durable_of e = Some d -> Seq d = ev_Seq event.
Proof.
  unfold projectSessionEvent, stampDurableProjectionPositions. destruct (projected_content ref event) as [|x l] eqn:El; [intros He; by apply elem_of_nil in He|].
  destruct (_ || _); [intros He; by rewrite (demoted_none _ _ He)|]. intros (i & y & -> & _)%elem_of_lookup_imap Hd. by apply durable_stamp in Hd as ->.
Qed.

(** Leaving published content out keeps positions. *)
Lemma without_published_durable published e e' : without_published published e = Some e' -> durable_of e' = durable_of e.
Proof. unfold without_published. repeat case_match; intros; simplify_eq; done. Qed.

(** The durable envelopes [publishCanonicalCatchup] hands on. *)
Definition to_publish (complete : list Envelope) (published : Z) : list Envelope :=
  filter (fun e => isDurableFeedEnvelope e) (WithoutPublishedContent complete published).

Lemma increasing_tail e l : increasing (e :: l) -> increasing l /\ (forall d x d', durable_of e = Some d -> x ∈ l -> durable_of x = Some d' -> durable_lt d d').
Proof.
  unfold increasing. cbn. destruct (durable_of e) as [d|] eqn:Ed; [|intros Hs; split; [done|]; by intros].
  intros [Hs Hd]%StronglySorted_inv. split; [done|]. intros d0 x d' [= <-] Hx Hxd. rewrite List.Forall_forall in Hd.
  apply Hd, list_elem_of_In, list_elem_of_omap. by exists x.
Qed.

Lemma increasing_intro e l : increasing l -> (forall d x d', durable_of e = Some d -> x ∈ l -> durable_of x = Some d' -> durable_lt d d') -> increasing (e :: l).
Proof.
  unfold increasing. intros Hs Hd. cbn. destruct (durable_of e) as [d|] eqn:Ed; [|done]. constructor; [done|].
  apply List.Forall_forall. intros d' (x & Hx & Hxd)%list_elem_of_In%list_elem_of_omap. by eapply Hd.
Qed.

Lemma to_publish_elem complete published e : e ∈ to_publish complete published ->
  exists x, x ∈ complete /\ durable_of e = durable_of x /\ is_Some (durable_of e).
Proof.
  intros [He Hin]%list_elem_of_filter. unfold isDurableFeedEnvelope in He. destruct (durable_of e) as [d|] eqn:Ed; [|done].
  unfold WithoutPublishedContent in Hin. destruct (published =? 0); [exists e; split_and!; [done|by rewrite Ed|by eexists]|].
  apply list_elem_of_omap in Hin as (x & Hx & Hw). exists x. split; [done|]. rewrite <- (without_published_durable _ _ _ Hw). split; [done|by eexists].
Qed.

Lemma to_publish_increasing complete published : increasing complete -> increasing (to_publish complete published).
Proof.
  unfold to_publish, WithoutPublishedContent. intros Hs. destruct (published =? 0).
  - induction complete as [|e l IH]; [constructor|]. apply increasing_tail in Hs as [Hs Hd]. rewrite filter_cons. case_decide; [|by apply IH].
    apply increasing_intro; [by apply IH|]. intros d x d' Ed [_ Hx]%list_elem_of_filter. by eapply Hd.
  - induction complete as [|e l IH]; [constructor|]. apply increasing_tail in Hs as [Hs Hd]. cbn [omap list_omap].
    destruct (without_published published e) as [e'|] eqn:Ew; [|by apply IH]. rewrite filter_cons. case_decide; [|by apply IH].
    apply increasing_intro; [by apply IH|]. intros d x d' Ed [_ Hx]%list_elem_of_filter Hxd. apply list_elem_of_omap in Hx as (y & Hy & Hyw).
    rewrite (without_published_durable _ _ _ Ew) in Ed. rewrite (without_published_durable _ _ _ Hyw) in Hxd. by eapply Hd.
Qed.

(** ** Content a live narrative already delivered *)

Definition live_content (e : Envelope) : option Z :=
  match UpdateOf e with Some (UContentChunk u) => narrative_content (acp_update_type (UContentChunk u)) | _ => None end.

(** A narrative of the event's, with [e]'s kind of content, is in the trace as
    a live one. *)
Definition live_copy (ref : SessionRef) (event : Event Payload) (E : list Envelope) (e : Envelope) : Prop :=
  exists key e1 e0, e1 ∈ projectSessionEvent ref event /\ narrativeFeedKey e1 = Some key /\ live_content e = Some key.2 /\
    e0 ∈ E /\ narrativeFeedKey e0 = Some key /\ durable_of e0 = None.

Lemma live_copy_prefix ref event E E' e : E `prefix_of` E' -> live_copy ref event E e -> live_copy ref event E' e.
Proof. intros [k ->] (key & e1 & e0 & H1 & H2 & H3 & H4 & H5). exists key, e1, e0. split_and!; try done; set_solver. Qed.

Lemma narrative_content_cases t c : narrative_content t = Some c -> c = 1 \/ c = 2.
Proof. unfold narrative_content, PublishedAssistantMessage, PublishedAssistantThought. repeat case_match; intros; simplify_eq; auto. Qed.

Lemma narrativeFeedKey_content e key : narrativeFeedKey e = Some key -> key.2 = 1 \/ key.2 = 2.
Proof.
  unfold narrativeFeedKey. destruct (UpdateOf e) as [[u| | | | |]|]; try done. destruct (trim_space _ =? _)%string; [done|].
  destruct (narrative_content _) as [c|] eqn:Ec; [|done]. intros [= <-]. by apply narrative_content_cases in Ec.
Qed.

(** A bit of the content owned is the content of one live narrative. *)
Lemma owned_bit live final complete i :
  Z.testbit (owned_content live final complete) i = true ->
  exists e key, e ∈ complete /\ narrativeFeedKey e = Some key /\ is_Some (live !! key) /\ Z.testbit key.2 i = true.
Proof.
  unfold owned_content. destruct final; [|by rewrite Z.bits_0]. set (f := fun (published : Z) e => _).
  assert (G : forall l acc, Z.testbit (fold_left f l acc) i = true -> Z.testbit acc i = true \/
    exists e key, e ∈ l /\ narrativeFeedKey e = Some key /\ is_Some (live !! key) /\ Z.testbit key.2 i = true).
  { induction l as [|e l IH]; intros acc Hb; [by left|]. destruct (IH _ Hb) as [Ha|(x & key & Hx & Hk)]; [|right; exists x, key; set_solver].
    unfold f in Ha. destruct (narrativeFeedKey e) as [key|] eqn:Ek; [|by left]. case_bool_decide as Hl; [|by left].
    rewrite Z.lor_spec in Ha. apply orb_true_iff in Ha as [Ha|Ha]; [by left|]. right. exists e, key. set_solver. }
  intros Hb. destruct (G _ _ Hb) as [Hz|Hx]; [by rewrite Z.bits_0 in Hz|done].
Qed.

Lemma owned_has live final complete c :
  c = 1 \/ c = 2 \/ c = 4 -> Has (owned_content live final complete) c = true ->
  exists e key, e ∈ complete /\ narrativeFeedKey e = Some key /\ is_Some (live !! key) /\ key.2 = c.
Proof.
  intros Hc Hh. unfold Has in Hh. apply andb_true_iff in Hh as [_ Hh%Z.eqb_eq]. set (p := owned_content live final complete) in *.
  assert (exists i, Z.testbit c i = true /\ forall c', c' = 1 \/ c' = 2 -> Z.testbit c' i = true -> c' = c) as (i & Hi & Hu).
  { destruct Hc as [->|[->| ->]]; [exists 0|exists 1|exists 2]; (split; [done|]); intros c' [->| ->]; done. }
  assert (Hb : Z.testbit p i = true) by (rewrite <- Hh, Z.land_spec in Hi; by apply andb_true_iff in Hi as [? _]).
  destruct (owned_bit _ _ _ _ Hb) as (e & key & He & Hk & Hl & Ht). exists e, key. split_and!; try done. apply Hu; [|done]. by eapply narrativeFeedKey_content.
Qed.

(** What a catch-up leaves out has a live copy; all else stays as it is. *)
Lemma without_owned live final complete e :
  without_published (owned_content live final complete) e = Some e \/
  without_published (owned_content live final complete) e = None /\
    exists x key, x ∈ complete /\ narrativeFeedKey x = Some key /\ is_Some (live !! key) /\ live_content e = Some key.2.
Proof.
  set (p := owned_content live final complete). assert (H4 : Has p PublishedTerminal = false).
  { destruct (Has p PublishedTerminal) eqn:Hh; [|done]. apply owned_has in Hh as (x & key & _ & Hk & _ & Hc); [|unfold PublishedTerminal; auto].
    apply narrativeFeedKey_content in Hk. rewrite Hc in Hk. unfold PublishedTerminal in Hk. lia. }
  unfold without_published, live_content. destruct (UpdateOf e) as [[u|u|u|u|u|u]|]; rewrite ?H4; try by left.
  assert (Hc : forall c, c = 1 \/ c = 2 -> Has p c = true -> narrative_content (acp_update_type (UContentChunk u)) = Some c ->
    exists x key, x ∈ complete /\ narrativeFeedKey x = Some key /\ is_Some (live !! key) /\ narrative_content (acp_update_type (UContentChunk u)) = Some key.2).
  { intros c Hc Hh Ht. apply owned_has in Hh as (x & key & Hx & Hk & Hl & Hkc); [|tauto]. exists x, key. by rewrite Hkc. }
  unfold narrative_content in Hc at 1. unfold PublishedAssistantMessage, PublishedAssistantThought in *.
  destruct (_ =? UpdateAgentMessage)%string eqn:Em; destruct (_ =? UpdateAgentThought)%string eqn:Et; cbn [andb].
  - apply String.eqb_eq in Em, Et. rewrite Em in Et. vm_compute in Et. done.
  - destruct (Has p 1) eqn:Hh; [right|by left]. split; [done|]. apply (Hc 1); auto.
  - destruct (Has p 2) eqn:Hh; [right|by left]. split; [done|]. apply (Hc 2); auto.
  - by left.
Qed.

Lemma to_publish_covers live final complete e d : e ∈ complete -> durable_of e = Some d ->
  e ∈ to_publish complete (owned_content live final complete) \/
  exists x key, x ∈ complete /\ narrativeFeedKey x = Some key /\ is_Some (live !! key) /\ live_content e = Some key.2.
Proof.
  intros He Hd. unfold to_publish, WithoutPublishedContent. assert (Hdur : isDurableFeedEnvelope e = true) by (unfold isDurableFeedEnvelope; by rewrite Hd).
  destruct (_ =? 0); [left; apply list_elem_of_filter; by rewrite Hdur|].
  destruct (without_owned live final complete e) as [Hw|[_ Hc]]; [left|by right]. apply list_elem_of_filter. rewrite Hdur. split; [done|].
  apply list_elem_of_omap. by exists e.
Qed.

(** An event is accounted for: the boundary is past its durable projections,
    and while the spool is healthy each one past the old boundary is in the
    trace, or its content is, as a live narrative. *)
Definition accounted (ref : SessionRef) (old new : DurableFeedPosition) (spooled : Prop) (E : list Envelope) (event : Event Payload) : Prop :=
  forall e d, e ∈ projectSessionEvent ref event -> durable_of e = Some d ->
    durable_le d new /\ (spooled -> durable_lt old d -> in_trace ref E e \/ live_copy ref event E e).

Lemma accounted_later ref old new new' (spooled spooled' : Prop) E E' event :
  durable_le new new' -> (spooled' -> spooled) -> E `prefix_of` E' -> accounted ref old new spooled E event -> accounted ref old new' spooled' E' event.
Proof.
  intros Hn Hs HE A e d He Hd. destruct (A e d He Hd) as [H1 H2]. split; [by eapply durable_le_trans|]. intros Hsp Hlt.
  destruct (H2 (Hs Hsp) Hlt); [left; by eapply in_trace_prefix|right; by eapply live_copy_prefix].
Qed.

Lemma accounted_earlier ref old old' new (spooled : Prop) E event :
  (forall e d, e ∈ projectSessionEvent ref event -> durable_of e = Some d -> durable_lt old' d -> durable_lt old d) ->
  accounted ref old new spooled E event -> accounted ref old' new spooled E event.
Proof. intros Ho A e d He Hd. destruct (A e d He Hd) as [H1 H2]. split; [done|]. intros Hsp Hlt. apply (H2 Hsp). by eapply Ho. Qed.

End Notions.

Section Catchup.
Context {Acp : AcpTypes} {P : Platform} {Cp : CursorPlatform} {Pj : Projector} {W : Type} {Sw : SpoolWriter W} {Swl : SpoolWriterLaws W}.
Context (codec : CursorCodec) (Marshal : Envelope -> option (list Z)) (clock : Z -> Z).
Hypothesis clock_typed : forall n, -9223372036854775808 <= clock n < 9223372036854775808.

Implicit Types b : FeedBroker (W := W).
Abbreviation feed_inv := (feed_inv codec Marshal).
Abbreviation publishAccepted := (publishAccepted codec Marshal clock).
Abbreviation publish_all := (publish_all codec Marshal clock).
Abbreviation publishCanonicalCatchup := (publishCanonicalCatchup codec Marshal clock).
Abbreviation catchup_page := (catchup_page codec Marshal clock).

(** ** One envelope *)

Record published (e : Envelope) b (E : list Envelope) b' (E' : list Envelope) : Prop := {
  pb_grows : grows b b';
  pb_prefix : extends (bk_latestDurable b) E E';
  pb_boundary d : durable_of e = Some d -> durable_le d (bk_latestDurable b');
  pb_latest : bk_latestDurable b' = bk_latestDurable b \/ durable_of e = Some (bk_latestDurable b');
  pb_traced d : healthy b' -> durable_of e = Some d -> durable_lt (bk_latestDurable b) d -> in_trace (bk_ref b) E' e
}.

Lemma publishAccepted_inv e b L E r b' :
  feed_inv b L E -> publishAccepted e b = (r, b') ->
  exists L' E', feed_inv b' L' E' /\ (r = Ok tt -> published e b E b' E') /\ grows b b' /\ extends (bk_latestDurable b) E E'.
Proof.
  intros I. pose proof (extends_refl (bk_latestDurable b) E) as He0. unfold FeedBroker.publishAccepted. destruct (_ || _); [intros [= <- <-]; exists L, E; split_and!; try done; apply grows_refl|].
  set (e1 := default_session b e). assert (D1 : durable_of e1 = durable_of e) by (unfold e1, default_session; by destruct (_ =? _)%string).
  destruct (String.eqb_spec (trim_space (FeedTypes.SessionID e1)) (session b)) as [Hs|]; cbn [negb].
  2: { unfold session in *. destruct (String.eqb_spec (trim_space (FeedTypes.SessionID e1)) (Fence.SessionID (bk_ref b))); [done|]. intros [= <- <-]. exists L, E. split_and!; try done. apply grows_refl. }
  unfold session in Hs. rewrite Hs, String.eqb_refl. cbn [negb].
  destruct (ValidateEnvelopeDelivery e1) as [[]|err] eqn:V; [|intros [= <- <-]; exists L, E; split_and!; try done; apply grows_refl].
  set (b1 := noteTerminalLocked e1 b). assert (Hc : core b1 = core b) by apply core_note. assert (I1 : feed_inv b1 L E) by by eapply core_inv.
  assert (G1 : grows b b1) by by apply core_grows. pose proof Hc as Hc'. unfold core in Hc'. injection Hc' as C1 C2 C3 C4 C5 C6 C7 C8 C9.
  assert (Happ : past_boundary e1 b1 -> forall b2, append_accepted codec Marshal clock e1 b1 = b2 ->
    exists L' E', feed_inv b2 L' E' /\ published e b E b2 E' /\ grows b b2 /\ extends (bk_latestDurable b) E E').
  { intros Hd b2 <-. destruct (append_accepted_inv codec Marshal clock clock_typed e1 b1 L E I1 V) as (L' & E' & I2 & [[S1 S2 S3] Hp Hn]); [unfold session; by rewrite C1, Hs|done|].
    set (b2 := append_accepted codec Marshal clock e1 b1) in *. assert (G : grows b b2) by by eapply grows_trans. unfold boundary_after in S2. rewrite D1 in S2. rewrite C4 in Hp.
    exists L', E'. split_and!; try done. split; [done..| | |].
    - intros d Hdd. rewrite Hdd in S2. rewrite S2. apply durable_le_refl.
    - destruct (durable_of e) as [d|]; [right; by rewrite S2|left; by rewrite S2, C4].
    - intros d [H1 H2] Hdd _. destruct (Hn H1 H2) as (e' & -> & Hde). rewrite <- D1 in Hdd. destruct (as_same _ _ Hde d Hdd) as [cursor ->].
      exists cursor. apply elem_of_app. right. by apply list_elem_of_singleton. }
  rewrite D1. destruct (durable_of e) as [d|] eqn:De.
  - destruct (Z.leb_spec (compareDurablePosition d (bk_latestDurable b1)) 0) as [Le|Gt].
    + intros [= <- <-]. exists L, E. apply compare_le0 in Le. rewrite C4 in Le. split_and!; try done. intros _. split; [done..| |by left; rewrite C4|].
      * intros d'. rewrite De. intros [= <-]. by rewrite C4.
      * intros d' _. rewrite De. intros [= <-] Hlt. done.
    + intros [= <- <-]. apply compare_gt0 in Gt. destruct (Happ) with (b2 := append_accepted codec Marshal clock e1 b1) as (L' & E' & I2 & Pb & G & Hp); [intros d'; rewrite D1; by intros [= <-]|done|].
      exists L', E'. by split_and!.
  - intros [= <- <-]. destruct (Happ) with (b2 := append_accepted codec Marshal clock e1 b1) as (L' & E' & I2 & Pb & G & Hp); [intros d'; by rewrite D1|done|].
    exists L', E'. by split_and!.
Qed.

(** ** A list of envelopes *)

Lemma publish_all_inv l b L E r b' :
  feed_inv b L E -> publish_all l b = (r, b') ->
  exists L' E', feed_inv b' L' E' /\ grows b b' /\ extends (bk_latestDurable b) E E' /\
    (r = Ok tt -> increasing l ->
       (forall e d, e ∈ l -> durable_of e = Some d -> durable_le d (bk_latestDurable b')) /\
       (bk_latestDurable b' = bk_latestDurable b \/ exists e, e ∈ l /\ durable_of e = Some (bk_latestDurable b')) /\
       (healthy b' -> forall e d, e ∈ l -> durable_of e = Some d -> durable_lt (bk_latestDurable b) d -> in_trace (bk_ref b) E' e)).
Proof.
  revert b L E. induction l as [|e l IH]; intros b L E I; cbn.
  - intros [= <- <-]. exists L, E. split_and!; [done|apply grows_refl|apply extends_refl|]. intros _ _. split_and!; [|by left|]; set_solver.
  - destruct (publishAccepted e b) as [[[]|err] b1] eqn:Ep; destruct (publishAccepted_inv _ _ _ _ _ _ I Ep) as (L1 & E1 & I1 & Pb & G1 & P1).
    2: { intros [= <- <-]. exists L1, E1. by split_and!. }
    intros Ea. specialize (Pb eq_refl). destruct (IH _ _ _ I1 Ea) as (L2 & E2 & I2 & G2 & P2 & Hok). exists L2, E2.
    split_and!; [done|by eapply grows_trans|eapply extends_trans; [apply (grows_latest _ _ G1)|done|done]|]. intros Hr [Hs Hlt]%increasing_tail. destruct (Hok Hr Hs) as (A & B & C). split_and!.
    + intros x d [->|Hx]%elem_of_cons Hd; [|by apply (A x)]. eapply durable_le_trans; [by apply (pb_boundary _ _ _ _ _ Pb)|apply G2].
    + destruct B as [->|(x & Hx & Hd)]; [|right; exists x; set_solver]. destruct (pb_latest _ _ _ _ _ Pb) as [->|Hd]; [by left|right; exists e; set_solver].
    + intros Hh x d [->|Hx]%elem_of_cons Hd Hl.
      * eapply in_trace_prefix; [by eapply extends_prefix|]. apply (pb_traced _ _ _ _ _ Pb d); [by eapply healthy_before|done..].
      * rewrite <- (grows_ref _ _ G1). apply (C Hh x d Hx Hd). destruct (pb_latest _ _ _ _ _ Pb) as [->|He]; [done|]. by eapply Hlt.
Qed.

(** ** One event of the store *)

Definition settle_all (final : bool) (l : list Envelope) b : FeedBroker := fold_left (fun b e => settle_catchup final e b) l b.

Lemma settle_step final e b L E :
  feed_inv b L E -> feed_inv (settle_catchup final e b) L E /\ grows b (settle_catchup final e b) /\
  (forall d, durable_of e = Some d -> durable_le d (bk_latestDurable (settle_catchup final e b))) /\
  (bk_latestDurable (settle_catchup final e b) = bk_latestDurable b \/ durable_of e = Some (bk_latestDurable (settle_catchup final e b))).
Proof.
  intros I. unfold settle_catchup. set (b1 := match durable_of e with Some d => _ | None => b end).
  assert (H1 : feed_inv b1 L E /\ grows b b1 /\ (forall d, durable_of e = Some d -> durable_le d (bk_latestDurable b1)) /\
    (bk_latestDurable b1 = bk_latestDurable b \/ durable_of e = Some (bk_latestDurable b1))).
  { unfold b1. destruct (durable_of e) as [d|] eqn:Ed; [|split_and!; [done|apply grows_refl|done|by left]].
    destruct (Z.ltb_spec 0 (compareDurablePosition d (bk_latestDurable b))) as [Hgt|Hle].
    - apply compare_gt0 in Hgt. destruct (accept_durable_settled e b) as (S & F & _); [intros d'; rewrite Ed; by intros [= <-]|].
      pose proof (st_latest _ _ _ S) as Hl. unfold boundary_after in Hl. rewrite Ed in Hl.
      split_and!; [eapply settled_inv; [done| |done|done]; intros d'; rewrite Ed; by intros [= <-]|apply S| |right; by rewrite Hl].
      intros d' [= <-]. rewrite Hl. apply durable_le_refl.
    - split_and!; [done|apply grows_refl| |by left]. intros d' [= <-]. by apply compare_le0 in Hle. }
  clearbody b1. destruct H1 as (I1 & G1 & A1 & B1). destruct (narrativeFeedKey e) as [key|]; [|done]. destruct final; [|done].
  split_and!; [|eapply grows_trans; [exact G1|grows_still]|exact A1|exact B1]. destruct I1 as [A B C]. split; [done..|]. cbn.
  intros key' [turn Hk]. apply lookup_delete_Some in Hk as [_ Hk]. apply C. by eexists.
Qed.

Lemma settle_all_inv final l b L E :
  feed_inv b L E -> feed_inv (settle_all final l b) L E /\ grows b (settle_all final l b) /\
  (forall e d, e ∈ l -> durable_of e = Some d -> durable_le d (bk_latestDurable (settle_all final l b))) /\
  (bk_latestDurable (settle_all final l b) = bk_latestDurable b \/ exists e, e ∈ l /\ durable_of e = Some (bk_latestDurable (settle_all final l b))).
Proof.
  revert b. unfold settle_all. induction l as [|e l IH]; intros b I; cbn [fold_left].
  - split_and!; [done|apply grows_refl| |by left]. intros e d He. by apply elem_of_nil in He.
  - destruct (settle_step final e b L E I) as (I1 & G1 & A1 & B1). destruct (IH _ I1) as (I2 & G2 & A2 & B2).
    split_and!; [done|by eapply grows_trans| |].
    + intros x d [->|Hx]%elem_of_cons Hd; [|by eapply A2]. eapply durable_le_trans; [by apply A1|apply G2].
    + destruct B2 as [->|(x & Hx & Hd)]; [|right; exists x; set_solver]. destruct B1 as [->|Hd]; [by left|right; exists e; set_solver].
Qed.

Lemma catchup_inv event b L E r b' :
  feed_inv b L E -> publishCanonicalCatchup event b = (r, b') ->
  exists L' E', feed_inv b' L' E' /\ grows b b' /\ extends (bk_latestDurable b) E E' /\
    (r = Ok tt -> increasing (projectSessionEvent (bk_ref b) event) ->
       accounted (bk_ref b) (bk_latestDurable b) (bk_latestDurable b') (healthy b') E' event /\
       (bk_latestDurable b' = bk_latestDurable b \/ Seq (bk_latestDurable b') = ev_Seq event)).
Proof.
  intros I. unfold FeedBroker.publishCanonicalCatchup. set (complete := projectSessionEvent (bk_ref b) event). set (final := base_Final event).
  set (live := bk_liveNarratives b). fold (to_publish complete (owned_content live final complete)). set (l := to_publish _ _).
  destruct (publish_all l b) as [[[]|err] b1] eqn:Ep; destruct (publish_all_inv _ _ _ _ _ _ I Ep) as (L1 & E1 & I1 & G1 & P1 & Hok).
  2: { intros [= <- <-]. exists L1, E1. by split_and!. }
  destruct (_ || _); [intros [= <- <-]; exists L1, E1; by split_and!|]. intros [= <- <-]. fold (settle_all final complete b1).
  destruct (settle_all_inv final complete b1 L1 E1 I1) as (I2 & G2 & A2 & B2). exists L1, E1. split_and!; [done|by eapply grows_trans|done|].
  intros _ Hinc. destruct (Hok eq_refl) as (A & B & C); [by apply to_publish_increasing|]. split.
  - intros e d He Hd. split; [by eapply A2|]. intros Hh Hlt. destruct (to_publish_covers live final complete e d He Hd) as [Hin|(x & key & Hx & Hk & Hl & Hc)].
    + left. eapply C; [by eapply healthy_before|done..].
    + right. destruct (inv_live _ _ _ _ _ I key Hl) as (e0 & He0 & Hk0 & Hd0). exists key, x, e0. split_and!; try done. apply extends_prefix in P1 as [k ->]. set_solver.
  - assert (Hseq : forall e, e ∈ complete -> durable_of e = Some (bk_latestDurable (settle_all final complete b1)) ->
      Seq (bk_latestDurable (settle_all final complete b1)) = ev_Seq event) by (intros e; apply projection_seq).
    destruct B2 as [Hb|(e & He & Hd)]; [|right; by eapply Hseq]. rewrite Hb in *.
    destruct B as [->|(e & He & Hd)]; [by left|]. right. destruct (to_publish_elem _ _ _ He) as (x & Hx & Hxd & _). apply (Hseq x Hx). by rewrite <- Hxd.
Qed.
End Catchup.
