(* ===== verification/FeedRun.v ===== *)
(** The feed over a Session's life.  A scan of the Session store, page by page,
    accounts for every event it passes, and ends.  Any order of publishing,
    catching up, sealing and closing, with the cache evicting on its own, keeps
    the feed in order; catching up leaves nothing behind; a durable event waits
    for its predecessors. *)

From Stdlib Require Import ZArith Lia Ascii String Sorting.Sorted.
From stdpp Require Import base list strings option gmap sorting.
From S2P Require Import Prelude GoStrings GoText Fence Execution GoValues ApprovalSubject Payload Events SessionCodec SpoolFormat SpoolStore.
From S2P Require Import SessionPlatform HistoryIndex FeedTypes FeedCursor FeedProjection FeedBroker FeedTrace FeedCatchup.

Open Scope string_scope.
Open Scope list_scope.
Open Scope Z_scope.

Section Notions.
Context {Acp : AcpTypes} {P : Platform} {Cp : CursorPlatform} {Pj : Projector} {W : Type}.

Implicit Types b : FeedBroker (W := W).

Definition before (a c : Event Payload) : Prop := ev_Seq a < ev_Seq c.

(** What one page leaves. *)
Record paged (l : list (Event Payload)) b b' (E' : list Envelope) : Prop := {
  pg_accounted event : event ∈ l -> suppressHistoricalChildStreamMirror event = false ->
    accounted (bk_ref b) (bk_latestDurable b) (bk_latestDurable b') (healthy b') E' event;
  pg_latest : bk_latestDurable b' = bk_latestDurable b \/ exists event, event ∈ l /\ Seq (bk_latestDurable b') = ev_Seq event
}.

Lemma page_skip event l b b' E' : suppressHistoricalChildStreamMirror event = true -> paged l b b' E' -> paged (event :: l) b b' E'.
Proof.
  intros Hs [A B]. split.
  - intros x [->|Hx]%elem_of_cons; [by rewrite Hs|by apply A].
  - destruct B as [B|(x & Hx & B)]; [by left|right; exists x; set_solver].
Qed.

Lemma page_step event l b b1 b2 E1 E2 :
  grows b b1 -> grows b1 b2 -> E1 `prefix_of` E2 -> Forall (before event) l ->
  accounted (bk_ref b) (bk_latestDurable b) (bk_latestDurable b1) (healthy b1) E1 event ->
  bk_latestDurable b1 = bk_latestDurable b \/ Seq (bk_latestDurable b1) = ev_Seq event ->
  paged l b1 b2 E2 -> paged (event :: l) b b2 E2.
Proof.
  intros G1 G2 HE Hb A Hl [B C]. rewrite (grows_ref _ _ G1) in B. split.
  - intros x [->|Hx]%elem_of_cons Hs.
    + eapply accounted_later; [apply (grows_latest _ _ G2)|apply (healthy_before _ _ G2)|exact HE|exact A].
    + eapply accounted_earlier; [|by apply B]. intros e d He Hd Hlt. rewrite List.Forall_forall in Hb.
      apply list_elem_of_In in Hx. specialize (Hb x Hx). destruct Hl as [->|Hl]; [done|]. apply compare_lt. left.
      rewrite Hl, (projection_seq _ _ _ _ He Hd). apply Hb.
  - destruct C as [C|(x & Hx & C)]; [|right; exists x; set_solver]. rewrite C. destruct Hl as [Hl|Hl]; [by left|right; exists event; set_solver].
Qed.

(** The highest sequence seen. *)
Record observes (l : list (Event Payload)) (observed observed' : Z) : Prop := {
  ob_from : observed <= observed';
  ob_all event : event ∈ l -> ev_Seq event <= observed';
  ob_some : observed' = observed \/ exists event, event ∈ l /\ observed' = ev_Seq event
}.

Lemma observes_cons event l observed observed' :
  observes l (Z.max observed (ev_Seq event)) observed' -> observes (event :: l) observed observed'.
Proof.
  intros [A B C]. split; [lia| |].
  - intros x [->|Hx]%elem_of_cons; [lia|by apply B].
  - destruct C as [->|(x & Hx & ->)]; [|right; exists x; set_solver]. destruct (Z.max_spec observed (ev_Seq event)) as [[_ ->]|[_ ->]]; [right; exists event; set_solver|by left].
Qed.

End Notions.

Section Pages.
Context {Acp : AcpTypes} {P : Platform} {Cp : CursorPlatform} {Pj : Projector} {W : Type} {Sw : SpoolWriter W} {Swl : SpoolWriterLaws W}.
Context (codec : CursorCodec) (Marshal : Envelope -> option (list Z)) (clock : Z -> Z).
Hypothesis clock_typed : forall n, -9223372036854775808 <= clock n < 9223372036854775808.

Implicit Types b : FeedBroker (W := W).
Abbreviation feed_inv := (feed_inv codec Marshal).
Abbreviation publishAccepted := (publishAccepted codec Marshal clock).
Abbreviation publish_all := (publish_all codec Marshal clock).
Abbreviation publishCanonicalCatchup := (publishCanonicalCatchup codec Marshal clock).
Abbreviation catchup_page := (catchup_page codec Marshal clock).
Abbreviation primeCanonicalLocked := (primeCanonicalLocked codec Marshal clock).
Abbreviation catchup_inv := (catchup_inv codec Marshal clock clock_typed).

Lemma catchup_page_inv l observed b L E r b' :
  feed_inv b L E -> catchup_page l observed b = (r, b') ->
  exists L' E', feed_inv b' L' E' /\ grows b b' /\ extends (bk_latestDurable b) E E' /\
    (forall observed', r = Ok observed' -> observes l observed observed' /\
       ((forall event, increasing (projectSessionEvent (bk_ref b) event)) -> StronglySorted before l -> paged l b b' E')).
Proof.
  revert observed b L E. induction l as [|event l IH]; intros observed b L E I; cbn.
  - intros [= <- <-]. exists L, E. split_and!; [done|apply grows_refl|apply extends_refl|]. intros o [= <-]. split.
    + split; [lia| |by left]. intros x Hx. by apply elem_of_nil in Hx.
    + intros _ _. split; [|by left]. intros x Hx. by apply elem_of_nil in Hx.
  - destruct (suppressHistoricalChildStreamMirror event) eqn:Es.
    + intros Ec. destruct (IH _ _ _ _ I Ec) as (L' & E' & I' & G & HE & Hok). exists L', E'. split_and!; try done.
      intros o Hr. destruct (Hok o Hr) as [Ho Hp]. split; [by apply observes_cons|]. intros Hi [Hs _]%StronglySorted_inv. apply page_skip; [done|by apply Hp].
    + destruct (publishCanonicalCatchup event b) as [[[]|err] b1] eqn:Ep; destruct (catchup_inv _ _ _ _ _ _ I Ep) as (L1 & E1 & I1 & G1 & HE1 & Hok1).
      2: { intros [= <- <-]. exists L1, E1. by split_and!. }
      intros Ec. destruct (IH _ _ _ _ I1 Ec) as (L2 & E2 & I2 & G2 & HE2 & Hok2). exists L2, E2.
      split_and!; [done|by eapply grows_trans|eapply extends_trans; [apply (grows_latest _ _ G1)|done|done]|]. intros o Hr. destruct (Hok2 o Hr) as [Ho Hp]. split; [by apply observes_cons|].
      intros Hi [Hs Hb]%StronglySorted_inv. destruct (Hok1 eq_refl (Hi event)) as [A Hl].
      eapply page_step; [exact G1|exact G2|by eapply extends_prefix|done..|]. apply Hp; [|done]. by rewrite (grows_ref _ _ G1).
Qed.

(** ** Nothing stands in the way of an open broker *)

Definition normal (ref : SessionRef) : Prop := trim_space (Fence.SessionID ref) = Fence.SessionID ref.
Definition admits b : Prop := bk_closed b = false /\ bk_sealed b = false /\ normal (bk_ref b).
Definition acceptable (ref : SessionRef) (e : Envelope) : Prop :=
  ValidateEnvelopeDelivery e = Ok tt /\ trim_space (FeedTypes.SessionID e) = Fence.SessionID ref.

Lemma grows_admits b b' : grows b b' -> admits b -> admits b'.
Proof. intros G Ho. destruct (grows_gates _ _ G) as [A B]. unfold admits. by rewrite A, B, (grows_ref _ _ G). Qed.

Lemma publishAccepted_total e b : admits b -> acceptable (bk_ref b) e -> exists b', publishAccepted e b = (Ok tt, b').
Proof.
  intros (Hc & Hs & _) [Hv Ha]. unfold FeedBroker.publishAccepted. rewrite Hc, Hs. cbn [orb].
  set (e1 := default_session b e). assert (H1 : trim_space (FeedTypes.SessionID e1) = Fence.SessionID (bk_ref b) /\ ValidateEnvelopeDelivery e1 = Ok tt).
  { unfold e1, default_session. destruct (String.eqb_spec (trim_space (FeedTypes.SessionID e)) "") as [E|]; [|done]. rewrite E in Ha. split; [cbn; by rewrite <- Ha|exact Hv]. }
  destruct H1 as [Ha1 Hv1]. rewrite Ha1, String.eqb_refl, Hv1. cbn [negb]. destruct (durable_of e1) as [d|]; [|by eexists]. case_match; by eexists.
Qed.

Lemma publish_all_total l b L E :
  feed_inv b L E -> admits b -> (forall e, e ∈ l -> acceptable (bk_ref b) e) -> exists b', publish_all l b = (Ok tt, b').
Proof.
  revert b L E. induction l as [|e l IH]; intros b L E I Ho Hl; cbn; [by eexists|].
  destruct (publishAccepted_total e b Ho) as [b1 Hp]; [apply Hl; set_solver|]. rewrite Hp.
  destruct (publishAccepted_inv codec Marshal clock clock_typed _ _ _ _ _ _ I Hp) as (L1 & E1 & I1 & _ & G1 & _).
  apply (IH b1 L1 E1 I1); [by eapply grows_admits|]. intros x Hx. rewrite (grows_ref _ _ G1). apply Hl. set_solver.
Qed.

Lemma projection_valid ref event e d : e ∈ projectSessionEvent ref event -> durable_of e = Some d -> ValidateEnvelopeDelivery e = Ok tt.
Proof.
  unfold projectSessionEvent, stampDurableProjectionPositions. destruct (projected_content ref event) as [|x l]; [intros He; by apply elem_of_nil in He|].
  destruct (_ || _) eqn:E0; [intros He; by rewrite (demoted_none _ _ He)|]. apply orb_false_iff in E0 as [Hz _].
  intros (i & y & -> & _)%elem_of_lookup_imap. unfold durable_of, ValidateEnvelopeDelivery. cbn. destruct (Delivery y) as [mode|]; [|done].
  destruct (is_transient_mode mode); [done|]. destruct (is_durable_mode mode); [|done]. intros _. cbn. by rewrite Hz.
Qed.

Lemma projection_session `{!ProjectorLaws} ref event e : e ∈ projectSessionEvent ref event -> trim_space (FeedTypes.SessionID e) = trim_space (Fence.SessionID ref).
Proof.
  unfold projectSessionEvent, stampDurableProjectionPositions. pose proof (projections_addressed ref event) as Ha.
  destruct (projected_content ref event) as [|x l]; [intros He; by apply elem_of_nil in He|]. destruct (_ || _).
  - intros (y & -> & Hy)%list_elem_of_fmap. specialize (Ha y Hy). repeat case_match; done.
  - intros (i & y & -> & Hy)%elem_of_lookup_imap. apply (Ha y). by eapply list_elem_of_lookup_2.
Qed.

Lemma to_publish_sub live final complete e : e ∈ to_publish complete (owned_content live final complete) -> e ∈ complete /\ is_Some (durable_of e).
Proof.
  intros [Hd He]%list_elem_of_filter. split; [|unfold isDurableFeedEnvelope in Hd; destruct (durable_of e); [by eexists|done]].
  unfold WithoutPublishedContent in He. destruct (_ =? 0); [done|]. apply list_elem_of_omap in He as (x & Hx & Hw).
  destruct (without_owned live final complete x) as [Hw'|[Hw' _]]; rewrite Hw' in Hw; by simplify_eq.
Qed.

Lemma catchup_total `{!ProjectorLaws} event b L E :
  feed_inv b L E -> admits b -> exists b', publishCanonicalCatchup event b = (Ok tt, b').
Proof.
  intros I Ho. unfold FeedBroker.publishCanonicalCatchup. set (complete := projectSessionEvent (bk_ref b) event). set (final := base_Final event).
  fold (to_publish complete (owned_content (bk_liveNarratives b) final complete)). set (l := to_publish _ _).
  destruct (publish_all_total l b L E I Ho) as [b1 Hp].
  { intros e [He [d Hd]]%to_publish_sub. split; [by eapply projection_valid|]. rewrite (projection_session _ _ _ He). apply Ho. }
  rewrite Hp. destruct (publish_all_inv codec Marshal clock clock_typed _ _ _ _ _ _ I Hp) as (L1 & E1 & _ & G1 & _).
  destruct (grows_admits _ _ G1 Ho) as (-> & -> & _). by eexists.
Qed.

Lemma catchup_page_total `{!ProjectorLaws} l observed b L E :
  feed_inv b L E -> admits b -> exists observed' b', catchup_page l observed b = (Ok observed', b').
Proof.
  revert observed b L E. induction l as [|event l IH]; intros observed b L E I Ho; cbn; [by do 2 eexists|].
  destruct (suppressHistoricalChildStreamMirror event); [by eapply IH|]. destruct (catchup_total event b L E I Ho) as [b1 Hp]. rewrite Hp.
  destruct (catchup_inv _ _ _ _ _ _ I Hp) as (L1 & E1 & I1 & G1 & _). eapply IH; [done|by eapply grows_admits].
Qed.

(** ** The scan *)

(** What a scan keeps; the scan itself may run ahead of the boundary. *)
Record scans b b' : Prop := {
  sc_ref : bk_ref b' = bk_ref b;
  sc_key : bk_key b' = bk_key b;
  sc_latest : durable_le (bk_latestDurable b) (bk_latestDurable b');
  sc_scanned : bk_scannedSeq b <= bk_scannedSeq b';
  sc_boundary : Seq (bk_latestDurable b) <= bk_scannedSeq b -> Seq (bk_latestDurable b') <= bk_scannedSeq b';
  sc_healthy : healthy b' -> healthy b;
  sc_admits : admits b -> admits b'
}.

Lemma scans_refl b : scans b b.
Proof. split; try done. apply durable_le_refl. Qed.
Lemma scans_trans b1 b2 b3 : scans b1 b2 -> scans b2 b3 -> scans b1 b3.
Proof.
  intros [A1 A2 A3 A4 A5 A6 A7] [B1 B2 B3 B4 B5 B6 B7]. split; [congruence|congruence|by eapply durable_le_trans|lia|auto|auto|auto].
Qed.
Lemma grows_scans b b' : grows b b' -> scans b b'.
Proof.
  intros G. split; [apply G|apply G|apply (grows_latest _ _ G)|apply (grows_scanned _ _ G)|apply (grows_boundary _ _ G)|by apply healthy_before|by apply grows_admits].
Qed.

Definition advance (seq : Z) b : FeedBroker := set_scannedSeq (Z.max (bk_scannedSeq b) seq) b.
Lemma advance_scans seq b : scans b (advance seq b).
Proof. split; cbn; try done; try lia. apply durable_le_refl. Qed.
Lemma advance_inv seq b L E : feed_inv b L E -> feed_inv (advance seq b) L E.
Proof. intros [A B C]. by split. Qed.

(** Whatever the reader answers, a scan keeps the invariant. *)
Lemma prime_inv fuel reader throughSeq b L E r b' :
  feed_inv b L E -> primeCanonicalLocked fuel reader throughSeq b = (r, b') ->
  exists L' E', feed_inv b' L' E' /\ scans b b' /\ extends (bk_latestDurable b) E E'.
Proof.
  assert (Hstop : forall b r0 L E, feed_inv b L E -> (r0, b) = (r, b') -> exists L' E', feed_inv b' L' E' /\ scans b b' /\ extends (bk_latestDurable b) E E').
  { intros c r0 L0 E0 I [= _ <-]. exists L0, E0. split_and!; [done|apply scans_refl|apply extends_refl]. }
  destruct reader as [reader|]; [|destruct fuel; cbn; intros I; by eapply Hstop].
  revert b L E. induction fuel as [|fuel IH]; intros b L E I; cbn; [by eapply Hstop|].
  destruct (bk_closed b); [by eapply Hstop|]. destruct (_ || _); [by eapply Hstop|]. destruct (reader _) as [page|err]; [|by eapply Hstop].
  destruct (catchup_page (pg_Events page) _ b) as [[observed|err] b1] eqn:Ep; destruct (catchup_page_inv _ _ _ _ _ _ _ I Ep) as (L1 & E1 & I1 & G1 & P1 & _).
  2: { intros [= <- <-]. exists L1, E1. split_and!; [done|by apply grows_scans|done]. }
  fold (advance (Z.max observed (pg_NextSeq page)) b1). set (b2 := advance _ b1). assert (I2 : feed_inv b2 L1 E1) by by apply advance_inv.
  assert (S2 : scans b b2) by (eapply scans_trans; [by apply grows_scans|apply advance_scans]).
  destruct (_ <=? _); [intros [= <- <-]; by exists L1, E1|]. intros Hp. destruct (IH _ _ _ I2 Hp) as (L3 & E3 & I3 & S3 & P3).
  exists L3, E3. split_and!; [done|by eapply scans_trans|eapply extends_trans; [apply (sc_latest _ _ S2)|done|done]].
Qed.
End Pages.

(** ** The scan of a log *)

Section Scan.
Context {Acp : AcpTypes} {P : Platform} {Cp : CursorPlatform} {Pj : Projector} {W : Type} {Sw : SpoolWriter W} {Swl : SpoolWriterLaws W} {Pjl : ProjectorLaws}.
Context (codec : CursorCodec) (Marshal : Envelope -> option (list Z)) (clock : Z -> Z).
Hypothesis clock_typed : forall n, -9223372036854775808 <= clock n < 9223372036854775808.

Implicit Types b : FeedBroker (W := W).
Abbreviation feed_inv := (feed_inv codec Marshal).
Abbreviation primeCanonicalLocked := (primeCanonicalLocked codec Marshal clock).

Lemma canonical_seq (e : Event Payload) : ev_Seq (CanonicalizeEvent e) = ev_Seq e.
Proof.
  cbn [CanonicalizeEvent session_codec]. unfold SessionCanonicalizeEvent, removeModelProjectionContent, ensureProtocolText, removeToolProjectionProtocol.
  repeat case_match; done.
Qed.

(** The store pages the Session's log. *)
Definition page_reader (log : list (option (Event Payload))) (req : EventPageRequest) : result SessionError (EventPage Payload) := Ok (PageEvents log req).

(** The events a client replays, past [after] and through [throughSeq]. *)
Definition replayed (after throughSeq : Z) (event : Event Payload) : Prop :=
  after < ev_Seq event /\ (throughSeq <= 0 \/ ev_Seq event <= throughSeq) /\ EventMatchesPageVisibility event EventPageClientReplay = true /\
  suppressHistoricalChildStreamMirror (CanonicalizeEvent event) = false.

Definition scan_request b throughSeq := NormalizeEventPageRequest (MkPageRequest (bk_ref b) (bk_scannedSeq b) throughSeq 0 EventPageClientReplay).

Lemma replayed_candidate b throughSeq log event :
  event ∈ omap id log -> replayed (bk_scannedSeq b) throughSeq event -> event ∈ page_candidates (scan_request b throughSeq) log.
Proof.
  intros He (H1 & H2 & H3 & _). unfold page_candidates. apply list_elem_of_In, filter_In. split; [by apply list_elem_of_In|].
  unfold in_page_range, scan_request. cbn [pr_AfterSeq pr_ThroughSeq pr_Visibility NormalizeEventPageRequest String.eqb EventPageClientReplay].
  cbn in H3 |- *. rewrite H3.
  destruct (Z.ltb_spec (bk_scannedSeq b) (ev_Seq event)); [|lia]. destruct (Z.leb_spec throughSeq 0); [done|]. destruct (Z.leb_spec (ev_Seq event) throughSeq); [done|lia].
Qed.

Lemma sorted_candidates req log : seq_sorted log -> StronglySorted before (page_candidates req log).
Proof.
  unfold seq_sorted, page_candidates. generalize (omap id log). clear log. intros l.
  induction l as [|e l IH]; cbn; [constructor|]. intros [Hs Hf]%StronglySorted_inv. destruct (in_page_range req e); [|by apply IH].
  constructor; [by apply IH|]. apply List.Forall_forall. intros x [Hx _]%filter_In. rewrite List.Forall_forall in Hf. by apply Hf.
Qed.

Lemma sorted_page l n : StronglySorted before l -> StronglySorted before (map CanonicalizeEvent (take n l)).
Proof.
  revert n. induction l as [|e l IH]; intros n; [intros _; destruct n; constructor|]. intros [Hs Hf]%StronglySorted_inv.
  destruct n as [|n]; cbn [take map]; constructor; [by apply IH|].
  apply List.Forall_forall. intros x (y & <- & Hy)%in_map_iff. unfold before. rewrite !canonical_seq. rewrite List.Forall_forall in Hf.
  apply Hf. apply list_elem_of_In. apply list_elem_of_In in Hy. by eapply subseteq_take.
Qed.

Lemma candidate_range req log event : event ∈ page_candidates req log -> event ∈ omap id log /\ pr_AfterSeq req < ev_Seq event /\
  (pr_ThroughSeq req <= 0 \/ ev_Seq event <= pr_ThroughSeq req).
Proof.
  unfold page_candidates, in_page_range. intros [He Hr]%list_elem_of_In%filter_In. apply list_elem_of_In in He. split; [done|].
  apply andb_true_iff in Hr as [[H1%Z.ltb_lt H2]%andb_true_iff _]. split; [done|]. apply orb_true_iff in H2 as [H2%Z.leb_le|H2%Z.leb_le]; auto.
Qed.

(** An event's being accounted for, as a scan leaves it. *)
Definition settles (event : Event Payload) b b' (E' : list Envelope) : Prop :=
  accounted (bk_ref b) (bk_latestDurable b) (bk_latestDurable b') (healthy b') E' (CanonicalizeEvent event).

(** Sequences a scan through [throughSeq] reaches; 0 is no limit. *)
Definition within (throughSeq seq : Z) : Prop := throughSeq <= 0 \/ seq <= throughSeq.

(** One page of the scan. *)
Lemma scan_page throughSeq log b L E :
  seq_sorted log -> feed_inv b L E -> admits b -> Seq (bk_latestDurable b) <= bk_scannedSeq b ->
  let page := PageEvents log (MkPageRequest (bk_ref b) (bk_scannedSeq b) throughSeq 0 EventPageClientReplay) in
  exists observed b1 L1 E1, catchup_page codec Marshal clock (pg_Events page) (bk_scannedSeq b) b = (Ok observed, b1) /\
    feed_inv (advance (Z.max observed (pg_NextSeq page)) b1) L1 E1 /\ scans b (advance (Z.max observed (pg_NextSeq page)) b1) /\ extends (bk_latestDurable b) E E1 /\
    bk_scannedSeq (advance (Z.max observed (pg_NextSeq page)) b1) <= pg_NextSeq page /\
    (bk_latestDurable b1 = bk_latestDurable b \/ Seq (bk_latestDurable b1) <= pg_NextSeq page /\ within throughSeq (Seq (bk_latestDurable b1))) /\
    (forall event, event ∈ page_candidates (scan_request b throughSeq) log -> ev_Seq event <= pg_NextSeq page ->
       suppressHistoricalChildStreamMirror (CanonicalizeEvent event) = false -> settles event b b1 E1) /\
    (pg_NextSeq page <= bk_scannedSeq b -> page_candidates (scan_request b throughSeq) log = []).
Proof.
  intros Hs I Ho Hb page. destruct (page_spec log (MkPageRequest (bk_ref b) (bk_scannedSeq b) throughSeq 0 EventPageClientReplay) Hs) as (HE & _ & HN & HT & HD).
  fold page in HE, HN, HT, HD. fold (scan_request b throughSeq) in HE, HT, HD. set (c := page_candidates _ log) in *. set (n := Z.to_nat _) in *. cbn in HN.
  assert (Hev : forall x, x ∈ pg_Events page -> ev_Seq x <= pg_NextSeq page /\ within throughSeq (ev_Seq x)).
  { rewrite HE. intros x (y & -> & Hy)%list_elem_of_fmap. rewrite canonical_seq. rewrite List.Forall_forall in HT. split; [by apply HT, list_elem_of_In|].
    assert (Hc : y ∈ c) by (by eapply subseteq_take). by apply candidate_range in Hc as (_ & _ & Hr). }
  destruct (catchup_page_total codec Marshal clock clock_typed (pg_Events page) (bk_scannedSeq b) b L E I Ho) as (observed & b1 & Hp).
  destruct (catchup_page_inv codec Marshal clock clock_typed _ _ _ _ _ _ _ I Hp) as (L1 & E1 & I1 & G1 & P1 & Hok).
  destruct (Hok observed eq_refl) as [Hob Hpg]. destruct Hpg as [Ha Hl]; [intros; apply projection_increasing|rewrite HE; by apply sorted_page, sorted_candidates|].
  assert (Hobs : observed <= pg_NextSeq page) by (destruct (ob_some _ _ _ Hob) as [->|(x & Hx & ->)]; [done|by apply Hev]).
  assert (Hlat : bk_latestDurable b1 = bk_latestDurable b \/ Seq (bk_latestDurable b1) <= pg_NextSeq page /\ within throughSeq (Seq (bk_latestDurable b1))).
  { destruct Hl as [Hl|(x & Hx & Hl)]; [by left|right; rewrite Hl; by apply Hev]. }
  exists observed, b1, L1, E1. split_and!; [done|by apply advance_inv|eapply scans_trans; [by apply grows_scans|apply advance_scans]|done| |done| |].
  - cbn. pose proof (grows_reach _ _ G1). destruct Hlat as [Hl'|Hl']; [rewrite Hl' in *|]; lia.
  - intros event Hc Hle Hsup. apply Ha; [|done]. rewrite HE. apply list_elem_of_fmap. exists event. split; [done|].
    rewrite <- (take_drop n c) in Hc. apply elem_of_app in Hc as [Hc|Hc]; [done|]. rewrite List.Forall_forall in HD.
    apply list_elem_of_In, HD in Hc. lia.
  - intros Hle. assert (Hn : (0 < n)%nat) by (unfold n; cbn; unfold defaultEventPageLimit; lia). fold c. destruct c as [|x c'] eqn:Ec; [done|].
    exfalso. assert (Hx : x ∈ c) by (rewrite Ec; set_solver). pose proof (candidate_range _ _ _ Hx) as (_ & Hr & _). cbn in Hr.
    rewrite List.Forall_forall in HT. assert (Hin : In x (take n (x :: c'))) by (destruct n; [lia|by left]). specialize (HT _ Hin). cbn in HT. lia.
Qed.

Lemma page_next_bound log req lastSeq :
  (forall event, event ∈ omap id log -> ev_Seq event <= lastSeq) -> pg_NextSeq (PageEvents log req) <= Z.max (pr_AfterSeq req) lastSeq.
Proof.
  unfold PageEvents. set (req' := NormalizeEventPageRequest req). change (pr_AfterSeq req) with (pr_AfterSeq req').
  assert (G : forall l out, (forall event, event ∈ omap id l -> ev_Seq event <= lastSeq) -> pg_NextSeq out <= Z.max (pr_AfterSeq req') lastSeq ->
    pg_NextSeq (page_loop req' l out) <= Z.max (pr_AfterSeq req') lastSeq).
  { induction l as [|[e|] l IH]; intros out Hl Ho; cbn [page_loop]; [done| |by apply IH].
    assert (He : ev_Seq e <= lastSeq) by (apply Hl; cbn; set_solver). assert (Hl' : forall event, event ∈ omap id l -> ev_Seq event <= lastSeq) by (intros; apply Hl; cbn; set_solver).
    destruct (_ <=? _); [by apply IH|]. destruct (_ && _); [done|]. destruct (_ && _); [done|]. apply IH; [done|]. cbn. lia. }
  intros Hl. apply G; [done|]. cbn. lia.
Qed.

(** A scan of the Session's log ends, and accounts for every event it is to
    replay. *)
Lemma scan_complete throughSeq log lastSeq fuel b L E :
  seq_sorted log -> (forall event, event ∈ omap id log -> ev_Seq event <= lastSeq) ->
  feed_inv b L E -> admits b -> Seq (bk_latestDurable b) <= bk_scannedSeq b -> (Z.to_nat (lastSeq - bk_scannedSeq b) < fuel)%nat ->
  exists b' L' E', primeCanonicalLocked fuel (Some (page_reader log)) throughSeq b = (Ok tt, b') /\
    feed_inv b' L' E' /\ scans b b' /\ extends (bk_latestDurable b) E E' /\
    (bk_latestDurable b' = bk_latestDurable b \/ within throughSeq (Seq (bk_latestDurable b'))) /\
    (forall event, event ∈ page_candidates (scan_request b throughSeq) log ->
       suppressHistoricalChildStreamMirror (CanonicalizeEvent event) = false -> settles event b b' E').
Proof.
  intros Hs Hlast. revert b L E. induction fuel as [|fuel IH]; intros b L E I Ho Hb Hf; [lia|]. cbn [FeedBroker.primeCanonicalLocked].
  pose proof Ho as (-> & -> & _). cbn [orb]. destruct (_ && _) eqn:Eth.
  { exists b, L, E. split_and!; [done|done|apply scans_refl|apply extends_refl|by left|]. intros event (_ & H1 & H2)%candidate_range. cbn in H1, H2.
    apply andb_true_iff in Eth as [E1%Z.ltb_lt E2%Z.leb_le]. lia. }
  unfold page_reader at 1. destruct (scan_page throughSeq log b L E Hs I Ho Hb) as (observed & b1 & L1 & E1 & -> & I2 & S2 & P1 & Hr & Hl & Hev & Hend).
  set (page := PageEvents _ _) in *. fold (advance (Z.max observed (pg_NextSeq page)) b1). set (b2 := advance _ b1) in *.
  destruct (Z.leb_spec (pg_NextSeq page) (bk_scannedSeq b)) as [Hle|Hgt].
  { exists b2, L1, E1. split_and!; [done..|cbn; tauto|]. rewrite (Hend Hle). intros event He. by apply elem_of_nil in He. }
  assert (Hn : pg_NextSeq page <= Z.max (bk_scannedSeq b) lastSeq) by by apply page_next_bound.
  assert (Hadv : pg_NextSeq page <= bk_scannedSeq b2) by (cbn; lia).
  destruct (IH b2 L1 E1 I2) as (b3 & L3 & E3 & Hp & I3 & S3 & P3 & Hl3 & H3); [by apply (sc_admits _ _ S2)|by apply (sc_boundary _ _ S2)|lia|].
  exists b3, L3, E3. split_and!; [done|done|by eapply scans_trans|eapply extends_trans; [apply (sc_latest _ _ S2)|done|done]|destruct Hl3 as [->|]; cbn; tauto|]. intros event Hc Hsup. unfold settles.
  destruct (Z.le_gt_cases (ev_Seq event) (pg_NextSeq page)) as [Hle|Hlt].
  - eapply accounted_later; [apply (sc_latest _ _ S3)|apply (sc_healthy _ _ S3)|by eapply extends_prefix|by apply Hev].
  - eapply accounted_earlier; [|rewrite <- (sc_ref _ _ S2); apply H3; [|done]].
    + intros e d He Hd Hlt'. destruct Hl as [Hl|[Hl _]]; [cbn; by rewrite Hl|]. apply compare_lt. left. cbn.
      rewrite (projection_seq _ _ _ _ He Hd), canonical_seq. lia.
    + unfold page_candidates in *. apply list_elem_of_In, filter_In in Hc as [Hin Hrg]. apply list_elem_of_In, filter_In. split; [done|].
      unfold in_page_range, scan_request in *. cbn in Hrg |- *. apply andb_true_iff in Hrg as [[_ H2]%andb_true_iff H4].
      apply andb_true_iff. split; [|exact H4]. apply andb_true_iff. split; [apply Z.ltb_lt; cbn in *; lia|exact H2].
Qed.
End Scan.

(** ** Runs *)

Section Run.
Context {Acp : AcpTypes} {P : Platform} {Cp : CursorPlatform} {Pj : Projector} {W : Type} {Sw : SpoolWriter W} {Swl : SpoolWriterLaws W} {Pjl : ProjectorLaws}.
Context (codec : CursorCodec) (Marshal : Envelope -> option (list Z)) (clock : Z -> Z).

Implicit Types b : FeedBroker (W := W).
Abbreviation feed_inv := (feed_inv codec Marshal).
Abbreviation Publish := (Publish codec Marshal clock).
Abbreviation Prime := (Prime codec Marshal clock).
Abbreviation publishAccepted := (publishAccepted codec Marshal clock).

(** A reader's checkpoint: its last event is one it has scanned. *)
Definition honest (checkpoint : result SessionError ReaderCheckpoint) : Prop :=
  match checkpoint with
  | Ok (Checkpoint throughSeq event) => 0 <= throughSeq /\ forall e, event = Some e -> ev_Seq e <= throughSeq
  | _ => True
  end.

(** A registration starts an empty partition. *)
Definition fresh_partition (register : option (bool -> result StoreError (Key * W))) : Prop :=
  forall f originComplete key w, register = Some f -> f originComplete = Ok (key, w) -> holds [] w.

(** What becomes of a broker: its own operations, and whatever the cache does
    to the partition without forgetting what it accepted. *)
Inductive feed_run : FeedBroker -> Prop :=
| run_new ref checkpoint register b :
    honest checkpoint -> fresh_partition register -> NewFeedBroker ref checkpoint register = Ok b -> feed_run b
| run_publish fuel reader e b : feed_run b -> feed_run (Publish fuel reader e b).2
| run_prime fuel reader b : feed_run b -> feed_run (Prime fuel reader b).2
| run_seal b : feed_run b -> feed_run (Seal b).2
| run_close b : feed_run b -> feed_run (Close b).2
| run_cache b w w' : feed_run b -> bk_writer b = Some w -> (forall L, holds L w -> holds L w') -> feed_run (set_writer (Some w') b).

(** *** A new broker *)

Lemma checkpoint_position ref event d :
  checkpointBoundaryPosition ref (Some event) ≫= Durable = Some d -> Seq d = ev_Seq event.
Proof.
  unfold checkpointBoundaryPosition. destruct (List.find _ _) as [p|] eqn:Ef; [|done]. cbn. intros Hd.
  apply find_some in Ef as [Hin _]. apply in_rev in Hin. apply list_elem_of_In, list_elem_of_omap in Hin as (e & He & Hp).
  unfold projectSessionEvent, stampDurableProjectionPositions in He. pose proof (projections_unpositioned ref event) as Hu.
  destruct (projected_content ref event) as [|x l]; [by apply elem_of_nil in He|]. destruct (_ || _).
  - apply list_elem_of_fmap in He as (y & -> & Hy). specialize (Hu y Hy). destruct (Delivery y) as [mode|]; [|congruence].
    destruct (is_durable_mode mode); [done|congruence].
  - apply elem_of_lookup_imap in He as (i & y & -> & _). cbn in Hp. injection Hp as <-. cbn in Hd. by injection Hd as <-.
Qed.

(** The broker starts empty, where the checkpoint left the Session. *)
Record starting b : Prop := {
  start_writer : bk_writer b = None;
  start_live : bk_liveNarratives b = ∅;
  start_boundary : Seq (bk_latestDurable b) <= bk_scannedSeq b;
  start_ref : normal (bk_ref b)
}.

Definition run_inv b : Prop := exists L E, feed_inv b L E /\ Seq (bk_latestDurable b) <= bk_scannedSeq b /\ normal (bk_ref b).

Lemma empty_inv b : bk_liveNarratives b = ∅ -> (forall w, bk_writer b = Some w -> holds [] w) -> feed_inv b [] [].
Proof. intros Hl Hw. split; [done|apply trace_ok_new|]. intros key [turn Hk]. by rewrite Hl, lookup_empty in Hk. Qed.

Lemma registered_inv b register originComplete :
  starting b -> fresh_partition register ->
  run_inv match register with
          | None => b
          | Some register =>
              match register originComplete with
              | Fail err => set_spoolErr (Some (StoreFault err)) b
              | Ok (key, w) => set_key key (set_writer (Some w) b)
              end
          end.
Proof.
  intros [Hw Hl Hb Hr] Hf. exists [], []. assert (H0 : forall w, bk_writer b = Some w -> holds [] w) by by rewrite Hw.
  destruct register as [f|]; [|by split; [apply empty_inv|]]. destruct (f originComplete) as [[key w]|err] eqn:Ef; (split; [|done]); apply empty_inv; try done.
  intros w' [= <-]. by eapply Hf.
Qed.

Lemma new_inv ref checkpoint register b :
  honest checkpoint -> fresh_partition register -> NewFeedBroker ref checkpoint register = Ok b -> run_inv b.
Proof.
  intros Hh Hf. unfold NewFeedBroker. set (ref' := NormalizeSessionRef ref). assert (Hn : normal ref') by apply trim_space_idem. clearbody ref'.
  destruct (_ =? "")%string; [done|]. destruct checkpoint as [c|err]; [|done]. cbv beta iota zeta.
  destruct c as [| |throughSeq event]; intros [= <-]; (apply registered_inv; [|done]); [by split..|]. cbn in Hh. destruct Hh as [H0 Hh].
  destruct (checkpointBoundaryPosition ref' event ≫= Durable) as [d|] eqn:Ed; [|by split]. split; try done. cbn.
  destruct event as [event|]; [|done]. rewrite (checkpoint_position _ _ _ Ed). by apply Hh.
Qed.

(** *** Every operation *)

Hypothesis clock_typed : forall n, -9223372036854775808 <= clock n < 9223372036854775808.

Definition feed_keeps b b' : Prop := forall L E, feed_inv b L E -> exists L' E', feed_inv b' L' E' /\ scans b b' /\ extends (bk_latestDurable b) E E'.

Lemma feed_keeps_refl b : feed_keeps b b.
Proof. intros L E I. exists L, E. split_and!; [done|apply scans_refl|apply extends_refl]. Qed.
Lemma feed_keeps_trans b1 b2 b3 : feed_keeps b1 b2 -> feed_keeps b2 b3 -> feed_keeps b1 b3.
Proof.
  intros H1 H2 L E I. destruct (H1 L E I) as (L1 & E1 & I1 & S1 & P1). destruct (H2 L1 E1 I1) as (L2 & E2 & I2 & S2 & P2).
  exists L2, E2. split_and!; [done|by eapply scans_trans|eapply extends_trans; [apply (sc_latest _ _ S1)|done|done]].
Qed.
Lemma feed_keeps_run b b' : feed_keeps b b' -> run_inv b -> run_inv b'.
Proof.
  intros H (L & E & I & Hb & Hr). destruct (H L E I) as (L' & E' & I' & S & _). exists L', E'. split_and!; [done|by apply (sc_boundary _ _ S)|].
  by rewrite (sc_ref _ _ S).
Qed.

Lemma publishAccepted_keeps e b : feed_keeps b (publishAccepted e b).2.
Proof.
  intros L E I. destruct (publishAccepted e b) as [r b'] eqn:Ep. destruct (publishAccepted_inv codec Marshal clock clock_typed _ _ _ _ _ _ I Ep) as (L' & E' & I' & _ & G & HE).
  exists L', E'. split_and!; [done|by apply grows_scans|done].
Qed.

Lemma prime_keeps fuel reader throughSeq b : feed_keeps b (primeCanonicalLocked codec Marshal clock fuel reader throughSeq b).2.
Proof. intros L E I. destruct (primeCanonicalLocked _ _ _ fuel reader throughSeq b) as [r b'] eqn:Ep. by eapply prime_inv. Qed.

Lemma publish_keeps fuel reader e b : feed_keeps b (Publish fuel reader e b).2.
Proof.
  unfold FeedBroker.Publish. destruct (ValidateEnvelopeDelivery e); [|apply feed_keeps_refl]. destruct (durable_of e) as [d|].
  - destruct (1 <? Seq d); [|apply publishAccepted_keeps]. pose proof (prime_keeps fuel reader (Seq d - 1) b) as H1.
    destruct (primeCanonicalLocked _ _ _ _ _ _ _) as [[[]|err] b1]; [|done]. cbn [snd] in H1. destruct (_ <? _); [done|].
    eapply feed_keeps_trans; [exact H1|apply publishAccepted_keeps].
  - destruct (isMainTerminalEnvelope _ _); [|apply publishAccepted_keeps]. eapply feed_keeps_trans; [apply prime_keeps|apply publishAccepted_keeps].
Qed.

(** Operations that leave the boundary alone. *)
Lemma still_run b b' : run_inv b -> bk_ref b' = bk_ref b -> bk_key b' = bk_key b -> bk_latestDurable b' = bk_latestDurable b -> bk_scannedSeq b' = bk_scannedSeq b ->
  (forall key, is_Some (bk_liveNarratives b' !! key) -> is_Some (bk_liveNarratives b !! key)) ->
  (forall w', bk_writer b' = Some w' -> exists w, bk_writer b = Some w /\ forall L, holds L w -> holds L w') -> run_inv b'.
Proof.
  intros (L & E & [A B C] & Hb & Hr) E1 E2 E3 E4 Hl Hw. exists L, E. split_and!; [|by rewrite E3, E4|by rewrite E1]. split.
  - intros w' Hw'. destruct (Hw w' Hw') as (w & Hw0 & Hh). by apply Hh, A.
  - unfold session in *. by rewrite E1, E2, E3.
  - intros key Hk. by apply C, Hl.
Qed.

Lemma seal_run b : run_inv b -> run_inv (Seal b).2.
Proof.
  intros R. unfold Seal. set (b1 := if bk_sealed b then b else _). assert (R1 : run_inv b1 /\ bk_writer b1 = bk_writer b).
  { unfold b1. destruct (bk_sealed b); [done|]. split; [|done]. eapply still_run; [exact R|done..| |cbn; intros w' Hw'; by exists w'].
    intros key [turn Hk]. cbn in Hk. by rewrite lookup_empty in Hk. }
  destruct R1 as [R1 Hw]. clearbody b1. clear R Hw. assert (Hset : forall w w' v, bk_writer b1 = Some w -> (forall L, holds L w -> holds L w') ->
    run_inv (set_writer (Some w') b1) /\ run_inv (set_writerSealed v (set_writer (Some w') b1))).
  { intros w w' v Hw Hh. split; (eapply still_run; [exact R1|done..|]); cbn; intros w2 [= <-]; by exists w. }
  destruct (bk_writer b1) as [w|] eqn:Ew; [|eapply still_run; [exact R1|done..|cbn; by rewrite Ew]]. destruct (bk_writerSealed b1); [done|].
  destruct (writer_seal w) as [e1 w1] eqn:E1. assert (H1 : forall L, holds L w -> holds L w1) by (intros L Hh; by eapply seal_keeps).
  destruct e1 as [err|]; [by eapply (Hset w w1 true)|]. destruct (writer_close w1) as [e2 w2] eqn:E2.
  assert (H2 : forall L, holds L w -> holds L w2) by (intros L Hh; eapply close_keeps; [by apply H1|done]). destruct e2 as [err|]; by eapply (Hset w w2 true).
Qed.

Lemma close_run b : run_inv b -> run_inv (Close b).2.
Proof.
  intros R. unfold Close. pose proof (seal_run b R) as R1. destruct (Seal b) as [err b1]. cbn in *. destruct (bk_closed b1); [done|].
  eapply still_run; [exact R1|done..|cbn; intros w' Hw'; by exists w'].
Qed.

Lemma run_invariant b : feed_run b -> run_inv b.
Proof.
  induction 1 as [ref c register b Hh Hf Hn|fuel reader e b _ IH|fuel reader b _ IH|b _ IH|b _ IH|b w w' _ IH Hw Hh].
  - by eapply new_inv.
  - eapply feed_keeps_run; [apply publish_keeps|done].
  - eapply feed_keeps_run; [apply prime_keeps|done].
  - by apply seal_run.
  - by apply close_run.
  - eapply still_run; [exact IH|done..|cbn; intros w2 [= <-]; by exists w].
Qed.

(** What the partition of a broker holds. *)
Definition feed_of b (E : list Envelope) : Prop :=
  exists L, (forall w, bk_writer b = Some w -> holds L w) /\ trace_ok codec Marshal (session b) (bk_key b) (bk_latestDurable b) L E.

Lemma inv_feed b L E : feed_inv b L E -> feed_of b E.
Proof. intros [A B _]. by exists L. Qed.

(** ** The properties *)

(** C8: a feed stays in order.  Whatever a broker does over its life — publish,
    catch up with any reader for any time, seal, close, while the cache evicts —
    its partition holds one trace of envelopes: each record is the encoding of
    the envelope at its offset; each cursor resolves, in this Session, to the
    next offset; transient envelopes are numbered within the partition's
    generation and anchored to the durable boundary they followed; anchors
    never go back, and a durable envelope is past everything before it, so
    none is ever there twice. *)
Theorem feed_trace_in_order b : feed_run b -> exists E, feed_of b E.
Proof. intros R. apply run_invariant in R as (L & E & I & _). exists E. by eapply inv_feed. Qed.

(** C9: catching up ends and leaves nothing behind.  While the broker is neither
    closed nor sealed, over the store's paged log and with fuel for the sequences
    not scanned yet, [Prime] succeeds, also when the spool fails, and the boundary
    passes the durable projections of every event past the scan that a client
    replays.  If the spool is healthy afterwards, each such projection past the
    old boundary is whole in the trace, or the trace has a live chunk of the same
    narrative of the event and of the same kind of content; that the chunks say
    the same text as the event is not shown.  A spool that failed has no trace to
    complete: then only the boundary is stated. *)
Theorem feed_catches_up b log lastSeq fuel :
  feed_run b -> bk_closed b = false -> bk_sealed b = false ->
  seq_sorted log -> (forall event, event ∈ omap id log -> ev_Seq event <= lastSeq) -> (Z.to_nat (lastSeq - bk_scannedSeq b) < fuel)%nat ->
  exists b' E', Prime fuel (Some (page_reader log)) b = (Ok tt, b') /\ feed_of b' E' /\
    forall event, event ∈ omap id log -> replayed (bk_scannedSeq b) 0 event ->
      accounted (bk_ref b) (bk_latestDurable b) (bk_latestDurable b') (healthy b') E' (CanonicalizeEvent event).
Proof.
  intros R Hc Hs Hlog Hlast Hf. apply run_invariant in R as (L & E & I & Hb & Hr).
  destruct (scan_complete codec Marshal clock clock_typed 0 log lastSeq fuel b L E Hlog Hlast I (conj Hc (conj Hs Hr)) Hb Hf)
    as (b' & L' & E' & Hp & I' & _ & _ & _ & Ha).
  exists b', E'. split_and!; [done|by eapply inv_feed|]. intros event He Hrep. apply Ha; [by apply replayed_candidate|apply Hrep].
Qed.

(** C10: a durable envelope waits for its predecessors.  Publishing one past the
    boundary first scans the store up to the sequence before its own: every
    replayable event in between is accounted for, the envelope itself is in a
    healthy trace after them, and if the store cannot show all the sequences
    before it, nothing but a gap is reported. *)
Theorem publish_waits_for_predecessors b log lastSeq fuel e d :
  feed_run b -> bk_closed b = false -> bk_sealed b = false ->
  seq_sorted log -> (forall event, event ∈ omap id log -> ev_Seq event <= lastSeq) -> (Z.to_nat (lastSeq - bk_scannedSeq b) < fuel)%nat ->
  acceptable (bk_ref b) e -> durable_of e = Some d -> durable_lt (bk_latestDurable b) d -> 1 < Seq d ->
  exists r b' E1 E', Publish fuel (Some (page_reader log)) e b = (r, b') /\ feed_of b' E' /\ E1 `prefix_of` E' /\
    (forall event, event ∈ omap id log -> replayed (bk_scannedSeq b) (Seq d - 1) event ->
       accounted (bk_ref b) (bk_latestDurable b) (bk_latestDurable b') (healthy b') E1 (CanonicalizeEvent event)) /\
    (r = Ok tt /\ durable_le d (bk_latestDurable b') /\ (healthy b' -> in_trace (bk_ref b) E' e) \/
     r = Fail (DurableGap (Seq d)) /\ E' = E1 /\ bk_scannedSeq b' < Seq d - 1).
Proof.
  intros R Hc Hs Hlog Hlast Hf Ha Hd Hlt H1. apply run_invariant in R as (L & E & I & Hb & Hr).
  destruct (scan_complete codec Marshal clock clock_typed (Seq d - 1) log lastSeq fuel b L E Hlog Hlast I (conj Hc (conj Hs Hr)) Hb Hf)
    as (b1 & L1 & E1 & Hp & I1 & S1 & P1 & Hl1 & Hacc).
  assert (Hacc' : forall event, event ∈ omap id log -> replayed (bk_scannedSeq b) (Seq d - 1) event ->
    accounted (bk_ref b) (bk_latestDurable b) (bk_latestDurable b1) (healthy b1) E1 (CanonicalizeEvent event)).
  { intros event He Hrep. apply Hacc; [by apply replayed_candidate|apply Hrep]. }
  unfold FeedBroker.Publish. pose proof Ha as [-> _]. rewrite Hd. destruct (Z.ltb_spec 1 (Seq d)) as [_|]; [|lia]. rewrite Hp.
  destruct (Z.ltb_spec (bk_scannedSeq b1) (Seq d - 1)) as [Hgap|Hno].
  { exists (Fail (DurableGap (Seq d))), b1, E1, E1. split_and!; [done|by eapply inv_feed|done|done|by right]. }
  destruct (publishAccepted_total codec Marshal clock e b1) as [b2 Hp2]; [by apply (sc_admits _ _ S1)|by rewrite (sc_ref _ _ S1)|].
  destruct (publishAccepted_inv codec Marshal clock clock_typed _ _ _ _ _ _ I1 Hp2) as (L2 & E2 & I2 & Pb & G2 & P2%extends_prefix). specialize (Pb eq_refl).
  exists (Ok tt), b2, E1, E2. split_and!; [done|by eapply inv_feed|done| |].
  - intros event He Hrep. apply (accounted_later _ _ (bk_latestDurable b1) _ (healthy b1) _ E1); [apply (grows_latest _ _ G2)|apply (healthy_before _ _ G2)|done|by apply Hacc'].
  - left. split_and!; [done|by apply (pb_boundary _ _ _ _ _ Pb)|]. intros Hh. rewrite <- (sc_ref _ _ S1). apply (pb_traced _ _ _ _ _ Pb d Hh Hd).
    destruct Hl1 as [->|[?|Hl1]]; [done|lia|]. apply compare_lt. left. lia.
Qed.
End Run.

(** ** A Session of two events *)

Module Sample.
#[local] Instance sample_acp : AcpTypes := {| PermissionOption := unit; UsageCost := unit |}.
#[local] Instance sample_cursors : CursorPlatform := {
  sha256 _ := replicate 32 7; hmac_sha256 _ _ := replicate 32 1; cursor_marshal _ := Some [123; 125]; cursor_unmarshal _ := None
}.

(** One canonical envelope per event. *)
#[local] Instance sample_projector : Projector := {
  projected_content ref _ := [set_Delivery (Some DeliveryCanonical) (set_EnvelopeSession (trim_space (Fence.SessionID ref)) zero_envelope)]
}.
#[local] Instance sample_projector_laws : ProjectorLaws.
Proof.
  split; cbn; [lia| |]; intros ref event e ->%list_elem_of_singleton; cbn; [apply trim_space_idem|done].
Qed.

(** A partition that keeps every record. *)
#[local] Instance sample_writer : SpoolWriter (list SpoolRecord) := {
  writer_bounds L := Ok (MkBounds 0 (Z.of_nat (length L)) true StateOpen);
  writer_append recordType at_ payload L := (Ok (Z.of_nat (length L)), L ++ [MkSpoolRecord (Z.of_nat (length L)) recordType at_ payload]);
  writer_seal L := (None, L);
  writer_close L := (None, L)
}.
#[local] Instance sample_writer_laws : SpoolWriterLaws (list SpoolRecord).
Proof.
  refine {| holds := eq |}; cbn; try done.
  - intros L w b -> _ [= <-]. done.
  - intros L w t at_ p o w' -> _ [= _ <-]. done.
  - intros L w e w' -> [= _ <-]. done.
  - intros L w e w' -> [= _ <-]. done.
Defined.

Definition sample_codec : CursorCodec := MkCursorCodec (replicate 32 9) "default".
Definition encode (e : Envelope) : option (list Z) := Some [123; 125].
Definition clock (n : Z) : Z := 0.
Lemma clock_typed n : -9223372036854775808 <= clock n < 9223372036854775808.
Proof. unfold clock. lia. Qed.

Definition ref : SessionRef := MkSessionRef "caelis" "user" "session" "".
Definition partition : Key := MkKey NamespaceSession (replicate 32 7) (replicate 16 1) (replicate 16 2).
Definition event (n : Z) : Event Payload := MkEvent Payload "event" "" "session" n 0 EventTypeAssistant VisibilityCanonical 0 "" "" None None "text" empty_payload.
Definition log : list (option (Event Payload)) := [Some (event 1); Some (event 2)].
Definition started : FeedBroker (W := list SpoolRecord) :=
  MkBroker ref (Some []) partition no_position 0 None None false false false ∅ new_cache ∅.

Lemma started_run : feed_run sample_codec encode clock started.
Proof.
  apply (run_new _ _ _ ref (Ok NoReader) (Some (fun _ => Ok (partition, [])))); [done| |reflexivity].
  intros f oc key w [= <-] [= <- <-]. reflexivity.
Qed.

Lemma log_sorted : seq_sorted log.
Proof. repeat constructor. Qed.
Lemma log_last e : e ∈ omap id log -> ev_Seq e <= 2.
Proof. intros [->|[->|[]%elem_of_nil]%elem_of_cons]%elem_of_cons; cbn; lia. Qed.

Definition primed : result BrokerError unit * FeedBroker := Prime sample_codec encode clock 3 (Some (page_reader log)) started.

Lemma feed_trace_in_order_witness :
  (length <$> bk_writer primed.2) = Some 2%nat /\ exists E, feed_of sample_codec encode primed.2 E.
Proof.
  split; [vm_compute; reflexivity|]. apply (feed_trace_in_order sample_codec encode clock clock_typed).
  apply run_prime, started_run.
Defined.

Lemma feed_catches_up_witness :
  exists b' E', primed = (Ok tt, b') /\ feed_of sample_codec encode b' E' /\
    accounted ref no_position (bk_latestDurable b') (healthy b') E' (CanonicalizeEvent (event 2)).
Proof.
  destruct (feed_catches_up sample_codec encode clock clock_typed started log 2 3 started_run) as (b' & E' & Hp & Hf & Ha);
    [reflexivity..|apply log_sorted|apply log_last|vm_compute; lia|].
  exists b', E'. split; [exact Hp|]. split; [exact Hf|]. apply (Ha (event 2)); [apply list_elem_of_further, list_elem_of_here|].
  split; [vm_compute; reflexivity|]. split; [left; vm_compute; discriminate|]. split; vm_compute; reflexivity.
Defined.

Definition third : Envelope :=
  set_Position (Some (at_durable (MkDurable 3 0))) (set_Delivery (Some DeliveryCanonical) (set_EnvelopeSession "session" zero_envelope)).

Lemma publish_waits_for_predecessors_witness :
  exists r b' E1 E', Publish sample_codec encode clock 3 (Some (page_reader log)) third started = (r, b') /\ feed_of sample_codec encode b' E' /\
    E1 `prefix_of` E' /\ (r = Ok tt /\ (healthy b' -> in_trace ref E' third) \/ r = Fail (DurableGap 3)).
Proof.
  destruct (publish_waits_for_predecessors sample_codec encode clock clock_typed started log 2 3 third (MkDurable 3 0) started_run)
    as (r & b' & E1 & E' & Hp & Hf & HE & _ & H); [reflexivity|reflexivity|apply log_sorted|apply log_last|vm_compute; lia|split; vm_compute; reflexivity|vm_compute; reflexivity|vm_compute; reflexivity|vm_compute; reflexivity|].
  exists r, b', E1, E'. split; [exact Hp|]. split; [exact Hf|]. split; [exact HE|]. destruct H as [(Hr & _ & Ht)|(Hr & _)]; [left; by split|by right].
Defined.
End Sample.
