(* ===== verification/SpoolFeed.v ===== *)
(** The stream spool as the partition of a Session's feed: a writer of the
    store discharges what the broker relies on. *)

From Stdlib Require Import ZArith Lia Ascii String.
From stdpp Require Import base list strings option gmap sets sorting.
From S2P Require Import Prelude GoStrings GoText SpoolFormat SpoolStore SpoolFacts SpoolChain SpoolLocal SpoolAppend SpoolInv SpoolSpec SpoolSim.
From S2P Require Import FeedBroker FeedTrace.

Open Scope list_scope.
Open Scope Z_scope.

(** A writer of the store: its partition's key, and the store around it. *)
Record SpoolHandle := MkHandle { sh_key : Key; sh_spool : Spool }.

Section Feed.
Context (cfg : Config) (io : nat -> IoOutcome) (clock : nat -> Z) (Hcfg : good_config cfg).
(** Which calls are cancelled, and the order in which eviction walks the store. *)
Context (cancelled : Spool -> bool) (walk : Spool -> list Key).

(** [Close] of a writer does nothing. *)
Definition spool_writer : SpoolWriter SpoolHandle := {|
  writer_bounds h := WriterBounds (cancelled (sh_spool h)) (sh_key h) (sh_spool h);
  writer_append recordType at_ payload h :=
    let '(start, e, s) := Append cfg io clock (cancelled (sh_spool h)) (sh_key h) recordType at_ payload (walk (sh_spool h)) (sh_spool h) in
    (match e with None => Ok start | Some e => Fail e end, MkHandle (sh_key h) s);
  writer_seal h := let '(e, s) := SpoolStore.Seal io clock (cancelled (sh_spool h)) (sh_key h) (sh_spool h) in (e, MkHandle (sh_key h) s);
  writer_close h := (None, h)
|}.

(** The stream of the handle's key is [L], as long as offsets do not wrap. *)
Definition carries (L : list SpoolRecord) (s : Spool) (k : Key) : Prop :=
  exists A B a, Held cfg A B None s /\ exact A s /\ A !! k = Some a /\ st_log a = L.
Definition spool_holds (L : list SpoolRecord) (h : SpoolHandle) : Prop := in_range (length L) -> carries L (sh_spool h) (sh_key h).

(** Between operations the cache may forget, but no record's place. *)
Lemma held_carries A B s k a : Held cfg A B None s -> A !! k = Some a -> carries (st_log a) s k.
Proof.
  intros HH Ha. destruct (tighten cfg A B s HH) as (A1 & [_ Hev] & H1 & He). destruct (Hev k a Ha) as (a1 & Ha1 & Hl & _).
  by exists A1, B, a1.
Qed.

Lemma carries_append L s k c recordType at_ payload w start e s' :
  carries L s k -> in_range (length L) -> record_typed recordType at_ -> Append cfg io clock c k recordType at_ payload w s = (start, e, s') ->
  let L' := L ++ [MkSpoolRecord (Z.of_nat (length L)) recordType at_ payload] in
  match e with None => carries L' s' k | Some _ => carries L s' k \/ carries L' s' k end.
Proof.
  intros (A & B & a & HH & He & Ha & <-) Hr Ht Ea L'. unfold Append in Ea. set (r := MkSpoolRecord 0 recordType at_ payload) in *.
  destruct (sim_append cfg io clock Hcfg _ _ _ _ _ _ _ _ _ _ Ea HH He) as (A' & Hop & H').
  { by constructor. }
  { intros a' Ha'. assert (a' = a) as -> by congruence. unfold high, in_range in *. cbn. lia. }
  assert (Hgrown : st_log (grown a [r]) = L') by done.
  inversion Hop; subst; simplify_eq.
  - rewrite <- Hgrown. eapply held_carries; [exact H'|apply lookup_insert_eq].
  - destruct n as [|[|n]]; cbn in *; [left|right|lia].
    + replace (st_log a) with (st_log (with_state (grown a []) StatePoisoned)) by by rewrite grown_nil. eapply held_carries; [exact H'|apply lookup_insert_eq].
    + exact (held_carries _ _ _ k _ H' (lookup_insert_eq _ _ _)).
  - left. by eapply held_carries.
Qed.

Lemma carries_seal L s k c e s' : carries L s k -> SpoolStore.Seal io clock c k s = (e, s') -> carries L s' k.
Proof.
  intros (A & B & a & HH & He & Ha & <-) Es. destruct (sim_seal cfg io clock Hcfg _ _ _ _ _ _ _ Es HH He) as (A' & Hop & H').
  inversion Hop; subst; simplify_eq; try by eapply held_carries.
  change (st_log a) with (st_log (with_state a (terminal_of a))). eapply held_carries; [exact H'|apply lookup_insert_eq].
Qed.

Lemma carries_bounds L s k c b : carries L s k -> WriterBounds c k s = Ok b -> b_High b = Z.of_nat (length L).
Proof.
  intros (A & B & a & HH & He & Ha & <-) Eb. pose proof (sim_writer_bounds cfg A B s c k HH He) as Hop. rewrite Eb in Hop.
  inversion Hop as [| | | | | | | | | | | | |? ? a' b' Ha' (_ & Hh & _)| | | | | | | | | | | | | | | |]; subst. by simplify_eq.
Qed.

(** The cache's own collection leaves every stream where it is. *)
Lemma carries_collect L s k c w : carries L s k -> carries L (snd (Collect cfg io clock c w s)) k.
Proof. intros (A & B & a & HH & _ & Ha & <-). eapply held_carries; [|exact Ha]. by apply sim_collect. Qed.

Lemma in_range_prefix (L L' : list SpoolRecord) : in_range (length (L ++ L')) -> in_range (length L).
Proof. unfold in_range. rewrite length_app. lia. Qed.

Definition spool_writer_laws : SpoolWriterLaws SpoolHandle (Sw := spool_writer).
Proof.
  refine {| holds := spool_holds : _ -> SpoolHandle -> Prop |}; unfold spool_holds.
  - intros L w b Hc Hr Eb. eapply carries_bounds; [by apply Hc|exact Eb].
  - intros L w t at_ p offset w' Hc Ht. cbn. destruct (Append _ _ _ _ _ _ _ _ _ _) as [[start e] s'] eqn:Ea.
    destruct e; intros [= <- <-] Hr. cbn. pose proof (in_range_prefix _ _ Hr) as Hr'. by apply (carries_append _ _ _ _ _ _ _ _ _ _ _ (Hc Hr') Hr' Ht Ea).
  - intros L w t at_ p err w' Hc Ht. cbn. destruct (Append _ _ _ _ _ _ _ _ _ _) as [[start e] s'] eqn:Ea.
    destruct e as [e|]; intros [= <- <-]. cbn. destruct (decide (Z.of_nat (length L) + 1 < u64_modulus)) as [Hr|Hn]; [|left; by intros Hr].
    destruct (carries_append _ _ _ _ _ _ _ _ _ _ _ (Hc Hr) Hr Ht Ea) as [H|H]; auto.
  - intros L w e w' Hc. cbn. destruct (SpoolStore.Seal _ _ _ _ _) as [e' s'] eqn:Es. intros [= <- <-] Hr. cbn. by eapply carries_seal; [apply Hc|].
  - intros L w e w' Hc. cbn. by intros [= <- <-].
Defined.
End Feed.
